(* ===== verification/_CoqProject ===== *)
-Q . S2P
Prelude.v
Libc.v
Text.v
Kmin.v
Table.v
Crc24q.v
FramerRtcm3.v
Framer.v
Metrics.v
PathValidator.v
Files.v
FileIo.v
FileIoSpec.v
WriteQueue.v
Leds.v
Health.v
MinIni.v
Settings.v
RouterLoad.v
Router.v
RouterMain.v
FilterSbp.v
Whitelists.v
Runit.v
Ports.v
Adapter.v
Endpoint.v
EndpointSpec.v
ResLines.v
ResQuery.v
ResSockets.v
ResFds.v
ResUsage.v
Network.v
Version.v
Ota.v
Rpmsg.v
Logger.v
Getopt.v
AdapterOpts.v
Children.v
Ntrip.v
Skylark.v
NtripClient.v
SkylarkClient.v
OtaSettings.v
AtCommand.v
CellModem.v
Interfaces.v
SystemDaemon.v
