(* ===== verification/Prelude.v ===== *)
(** * Verification of the Piksi Multi system software

    The repository builds the Linux side of a GNSS receiver: small C daemons that exchange
    byte messages over local sockets.  Every port of the device (serial, USB, TCP, UDP) has an
    [endpoint_adapter] that cuts the incoming bytes into messages, filters them and publishes
    them; the [endpoint_router] reads the published messages and forwards each to the ports
    that its YAML configuration names; the other daemons are clients of the router: they serve
    files, drive the LEDs, watch the health of the receiver.  Most are built on [libpiksi]
    (metrics, tables, framers, filters, the event loop).  Paths below are under [src/package/].

    ** What is modelled, and where

    - [Prelude], [Libc]: machine integers, outcomes ([Ret], the undefined behaviour [Undef] of a
      C program, and [Diverge] for a loop that ran out of fuel), memory accesses with their bounds, the
      functions of the C library that the sources use on strings and numbers.
    - [Text]: C strings as lists of characters, with the functions that walk over them.
    - [Kmin], [Table], [Metrics], [Framer]: [libpiksi/libpiksi/src/] [kmin.c], [table.c],
      [metrics.c], [framer.c], [filter.c], [framer_none.c], [filter_none.c]; one [Record] per C
      structure, one definition per function.
    - [Crc24q], [FramerRtcm3]: [rtcm3_in_protocol/src/framer_rtcm3_in.c].
    - [RouterLoad], [Router], [RouterMain]: [endpoint_router/endpoint_router/src/]:
      [endpoint_router_load.c] (YAML events to a configuration), [endpoint_router.c] (rule
      caches, forwarding, the handlers of the event loop and their metrics),
      [endpoint_router_print.c].
    - [FilterSbp], [Whitelists]: [sbp_protocol/src/filter_sbp.c] and
      [ports_daemon/ports_daemon/src/whitelists.c], which writes the files the filter reads.
    - [Adapter]: the data path of [endpoint_adapter/src/endpoint_adapter.c], over any framer and
      filter that keep the promises of an interface (a type class), which [FramerRtcm3] and
      [FilterSbp] discharge.
    - [PathValidator], [Files], [FileIo], [FileIoSpec], [WriteQueue]:
      [sbp_fileio_daemon/sbp_fileio_daemon/src/].  [PathValidator] is [path_validator.c];
      [Files] models POSIX files and buffered streams; [FileIo] has the request handlers, the
      stream cache, the send buffers and the timer of [sbp_fileio.c]; [FileIoSpec] their
      specification and the proofs; [WriteQueue] the write thread beside the main thread,
      interleaved step by step.
    - [Leds]: [piksi_leds/src/] (LED driver, firmware state, LED thread).
    - [Health]: [health_daemon/src/] (the monitors and their timers).
    - [MinIni], [Settings]: [libpiksi/libpiksi/src/min_ini.c] (the reading half) and
      [sbp_settings_daemon/sbp_settings_daemon/src/] (the list of settings, its messages, saving).
    - [Runit], [Ports]: [libpiksi/libpiksi/src/runit.c] and [ports_daemon/ports_daemon/src/]
      [ports.c], [protocols.c] and the identifiers of [can.c].
    - [Endpoint], [EndpointSpec]: [libpiksi/libpiksi/src/endpoint.c] with the poll handler of
      [loop.c]: the definitions, and their specification with the proofs.
    - [ResLines], [ResQuery], [ResSockets], [ResFds], [ResUsage]:
      [resource_monitor/resource_monitor/src/].  [ResLines] is [resmon_common.c] with the part of
      [libpiksi]'s [util.c] that runs a command; [ResQuery] the registry of queries and the timer
      ([resource_query.c], [resource_monitor.c]) over a [Record] of operations, which
      [ResSockets] ([query_sockets.c]) and [ResFds] ([query_process_file_descriptor.c])
      instantiate; [ResUsage] the queries of CPU, memory and system state.
    - [Network], [Version], [Ota]: [libnetwork/src/libnetwork.c] (contexts, the callbacks of
      libcurl, requests), [libpiksi]'s [version.c] and [sha256.c], and
      [ota_daemon/src/ota_daemon.c], whose client loop is composed of the other two and [Runit].

    ** What the theorems show

    - Forwarding: a created router sends each message to exactly the destinations that the
      port's rules select, in their order; the rule caches are built within their arrays under
      stated conditions, and what happens otherwise; a configuration written as YAML events is
      read back with its destinations resolved; reading terminates on every event sequence.
    - Data path: whatever the chunking of the input, the adapter publishes exactly the frames
      of the stream that pass the filter, in order; likewise to a descriptor that takes data in
      pieces.  The RTCM3 framer is total, memory safe and refines a scan of the whole stream;
      its CRC is polynomial division.
    - Files: the daemon with its cached streams answers like a map from names to contents, a
      flush makes that map the disk's, packets leave in order; under every interleaving of the
      two threads writes are done in queue order before any read or removal; the path
      validator answers according to the allowed directories.
    - LEDs and health: the panel shows what the handlers computed once the bus works; steady
      lights mean fresh solutions; every alert is justified by the events before it, and the
      NTRIP alert comes.
    - Libraries: well-formedness invariants of kmin, tables and metrics, functional
      specifications of their operations, the whitelist parser against its grammar.
    - Settings and ports: the settings daemon answers like a map whose changed values survive a
      restart through the INI file; the ports follow their settings, each enabled one running
      exactly the command of its protocol.
    - Endpoints: under every sequence of events of the loop no client node is used after it is
      freed and every descriptor is closed once; a message is sent to every client in order and
      the clients that fail are removed; what creation leaves behind when it fails.
    - Resource monitor: the output of a command reaches the queries line by line however its
      reads are cut; contexts are created, used and freed in step with the settings; the reports
      name the ten processes and files with most sockets or descriptors, within their payloads;
      which outputs of the commands lead outside the arrays.
    - Network and upgrades: what a download writes over all its connections, and that only
      connections that stall are replaced; which GGA sentences reach the caster; versions are
      parsed back from their text; an upgrade is only started on an image with the checksum that
      the answer of the server named.
    - Some theorems state what the code does where it does not do what it should (array bounds,
      lost wake-ups, forgotten flags).

    ** Conventions, bounds and fuel

    A w-bit C integer is a [Z] with its conversion written out.  [size_t] has 32 bits, as on
    the target.  An access outside an object, the use of a closed stream and a failed
    assertion are [Undef].  Results of system calls and of code that is not in the
    repository (libyaml, cmph, libsbp, libuv, uthash, floating point) are inputs, parameters or
    interfaces with their documented laws.  Loops that are not structural carry fuel and are
    proved never to use it up: [process_router] one round per event and one more, the framer
    two rounds per input byte and per byte of its buffer, the adapter one more than the bytes
    at hand, the whitelist parser the length of its text.  In [WriteQueue] a step is one atomic
    operation, one system call or one critical section of one thread.
    The strings of [MinIni], [Settings] and the resource monitor are lists of characters, those of the other files
    Rocq strings.  [Endpoint] keeps its client nodes in a heap of numbered objects, the open
    descriptors in a set, and asks an oracle, at the number of calls so far, what the kernel
    answers; its loops over [EINTR] carry fuel, and [kernel_ok] says that the kernel does not
    interrupt more calls in a row than that.  A child process is the list of pieces its output
    is read in and an exit status; a name kept in a slot of a query carries the number of the
    run that stored it, since the table that owned it is freed by the next run.  Doubles are a
    class of operations without laws.  A transfer of libcurl is the list of its callbacks, with
    what each system call in them answers, and a request the list of its connections: one that
    has not returned after the last is [Diverge], and the theorems say when that is.

    ** What is not modelled

    Set-up of sockets, event loops and command-line options, where the code is a sequence of
    system calls; failing allocations, except where the code's answer to them matters; the
    daemons and tools that the list of components names as not modelled.  Planned next: the
    remaining utilities of [libpiksi] and its SBP transport, the NTRIP, Skylark and system
    daemons. *)

From stdpp Require Export base gmap list strings sorting.
From Stdlib Require Export ZArith Lia.

(** ** Machine integers

    A w-bit C integer is a [Z]; the conversions below are the wrap-around of the C
    conversion to that type. *)

Definition u8 (x : Z) : Z := (x mod 256)%Z.
Definition u16 (x : Z) : Z := (x mod 65536)%Z.
Definition u32 (x : Z) : Z := (x mod 4294967296)%Z.
Definition u64 (x : Z) : Z := (x mod 18446744073709551616)%Z.
Definition s32 (x : Z) : Z := ((x + 2147483648) mod 4294967296 - 2147483648)%Z.
Definition s64 (x : Z) : Z :=
  ((x + 9223372036854775808) mod 18446744073709551616 - 9223372036854775808)%Z.

(** [size_t] of the 32-bit ARM target. *)
Definition SIZE_MAX : Z := 4294967295%Z.

Create HintDb piksi.
Create Rewrite HintDb piksi_int.
Create Rewrite HintDb piksi_wrap.

Section machine_int.
Local Open Scope Z_scope.

Lemma u8_range x : 0 <= u8 x < 256.
Proof. unfold u8. apply Z.mod_pos_bound. lia. Qed.

Lemma u16_range x : 0 <= u16 x < 65536.
Proof. unfold u16. apply Z.mod_pos_bound. lia. Qed.

Lemma u32_range x : 0 <= u32 x < 4294967296.
Proof. unfold u32. apply Z.mod_pos_bound. lia. Qed.

Lemma u64_range x : 0 <= u64 x < 18446744073709551616.
Proof. unfold u64. apply Z.mod_pos_bound. lia. Qed.

Lemma u8_small x : 0 <= x < 256 -> u8 x = x.
Proof. intros. unfold u8. apply Z.mod_small. lia. Qed.

Lemma u16_small x : 0 <= x < 65536 -> u16 x = x.
Proof. intros. unfold u16. apply Z.mod_small. lia. Qed.

Lemma u32_small x : 0 <= x < 4294967296 -> u32 x = x.
Proof. intros. unfold u32. apply Z.mod_small. lia. Qed.

Lemma u64_small x : 0 <= x < 18446744073709551616 -> u64 x = x.
Proof. intros. unfold u64. apply Z.mod_small. lia. Qed.

Lemma s32_small x : -2147483648 <= x < 2147483648 -> s32 x = x.
Proof. intros. unfold s32. rewrite Z.mod_small; lia. Qed.

(** A 32-bit value that reads as a non-negative signed number is that number. *)
Lemma s32_nonneg x y : 0 <= x < 4294967296 -> 0 <= y -> s32 x = y -> x = y.
Proof.
  unfold s32. intros Hx Hy Hs.
  pose proof (Z.div_mod (x + 2147483648) 4294967296 ltac:(lia)).
  pose proof (Z.mod_pos_bound (x + 2147483648) 4294967296 ltac:(lia)). lia.
Qed.

Lemma u32_idemp x : u32 (u32 x) = u32 x.
Proof. apply u32_small, u32_range. Qed.

Lemma u64_idemp x : u64 (u64 x) = u64 x.
Proof. apply u64_small, u64_range. Qed.

Lemma u64_u32 x : u64 (u32 x) = u32 x.
Proof. apply u64_small. pose proof (u32_range x). lia. Qed.

Lemma u32_add_l x y : u32 (u32 x + y) = u32 (x + y).
Proof. apply Zplus_mod_idemp_l. Qed.

Lemma u32_add_r x y : u32 (x + u32 y) = u32 (x + y).
Proof. apply Zplus_mod_idemp_r. Qed.

Lemma u64_add_l x y : u64 (u64 x + y) = u64 (x + y).
Proof. apply Zplus_mod_idemp_l. Qed.

Lemma u64_add_r x y : u64 (x + u64 y) = u64 (x + y).
Proof. apply Zplus_mod_idemp_r. Qed.
End machine_int.

Section bits.
Local Open Scope Z_scope.

Lemma testbit_above x k m : 0 <= x < 2 ^ k -> 0 <= k <= m -> Z.testbit x m = false.
Proof.
  intros Hx Hk. rewrite <-(Z.mod_small x (2 ^ k)) by lia. apply Z.mod_pow2_bits_high. lia.
Qed.

Lemma lt_pow2_bits x k :
  0 <= k -> (forall m, k <= m -> Z.testbit x m = false) -> 0 <= x < 2 ^ k.
Proof.
  intros Hk Hb. assert (x = Z.land x (Z.ones k)) as ->.
  { apply Z.bits_inj'. intros n Hn. rewrite Z.land_spec.
    destruct (Z.lt_ge_cases n k).
    - by rewrite Z.ones_spec_low, andb_true_r by lia.
    - by rewrite Z.ones_spec_high, andb_false_r, Hb by lia. }
  rewrite Z.land_ones by lia. apply Z.mod_pos_bound. lia.
Qed.

Lemma lxor_range x y k : 0 <= k -> 0 <= x < 2 ^ k -> 0 <= y < 2 ^ k -> 0 <= Z.lxor x y < 2 ^ k.
Proof.
  intros Hk Hx Hy. apply lt_pow2_bits; [done|]. intros m Hm.
  by rewrite Z.lxor_spec, !(testbit_above _ k) by lia.
Qed.

Lemma lor_range x y k : 0 <= k -> 0 <= x < 2 ^ k -> 0 <= y < 2 ^ k -> 0 <= Z.lor x y < 2 ^ k.
Proof.
  intros Hk Hx Hy. apply lt_pow2_bits; [done|]. intros m Hm.
  by rewrite Z.lor_spec, !(testbit_above _ k) by lia.
Qed.

Lemma land_ones_range x k : 0 <= k -> 0 <= Z.land x (Z.ones k) < 2 ^ k.
Proof. intros. rewrite Z.land_ones by lia. apply Z.mod_pos_bound. lia. Qed.
End bits.

#[export] Hint Resolve u8_range u16_range u32_range u64_range : piksi.
#[export] Hint Rewrite u8_small u16_small u32_small u64_small s32_small
  using lia : piksi_int.
#[export] Hint Rewrite u32_idemp u64_idemp u64_u32 u32_add_l u32_add_r u64_add_l u64_add_r : piksi_wrap.

(** ** Bytes *)

Definition byte_ok (b : Z) : Prop := (0 <= b < 256)%Z.
Definition bytes_ok (l : list Z) : Prop := Forall byte_ok l.

Lemma bytes_ok_app l k : bytes_ok (l ++ k) <-> bytes_ok l /\ bytes_ok k.
Proof. apply Forall_app. Qed.

Lemma bytes_ok_take n l : bytes_ok l -> bytes_ok (take n l).
Proof. apply Forall_take. Qed.

Lemma bytes_ok_drop n l : bytes_ok l -> bytes_ok (drop n l).
Proof. apply Forall_drop. Qed.

#[export] Hint Resolve bytes_ok_take bytes_ok_drop : piksi.

(** ** Strings *)

Definition newline : string := String.String (Ascii.ascii_of_nat 10) EmptyString.
Definition tab : string := String.String (Ascii.ascii_of_nat 9) EmptyString.

(** Size of a path buffer. *)
Definition PATH_MAX : Z := 4096.

(** ** Tactics *)

(** Case analysis on every test of the goal, with the boolean tests read back. *)
Ltac bool_hyps :=
  repeat match goal with
  | H : Nat.ltb _ _ = true |- _ => apply Nat.ltb_lt in H
  | H : Nat.ltb _ _ = false |- _ => apply Nat.ltb_ge in H
  | H : Nat.leb _ _ = true |- _ => apply Nat.leb_le in H
  | H : Nat.leb _ _ = false |- _ => apply Nat.leb_gt in H
  | H : Nat.eqb _ _ = true |- _ => apply Nat.eqb_eq in H
  | H : Nat.eqb _ _ = false |- _ => apply Nat.eqb_neq in H
  | H : Z.ltb _ _ = true |- _ => apply Z.ltb_lt in H
  | H : Z.ltb _ _ = false |- _ => apply Z.ltb_ge in H
  | H : Z.leb _ _ = true |- _ => apply Z.leb_le in H
  | H : Z.leb _ _ = false |- _ => apply Z.leb_gt in H
  | H : Z.eqb _ _ = true |- _ => apply Z.eqb_eq in H
  | H : Z.eqb _ _ = false |- _ => apply Z.eqb_neq in H
  | H : andb _ _ = true |- _ => apply andb_true_iff in H; destruct H
  | H : orb _ _ = false |- _ => apply orb_false_iff in H; destruct H
  | H : negb _ = true |- _ => apply negb_true_iff in H
  | H : negb _ = false |- _ => apply negb_false_iff in H
  end.

Ltac split_cases := repeat case_match; bool_hyps; simplify_eq/=.

(** ** Lists *)

Section lists.
Context {A : Type}.

Lemma take_S_lookup (l : list A) k x :
  l !! k = Some x -> take (S k) l = take k l ++ [x].
Proof. apply take_S_r. Qed.

Lemma lookup_total_lookup_lt `{Inhabited A} (l : list A) i :
  i < length l -> l !! i = Some (l !!! i).
Proof. apply list_lookup_lookup_total_lt. Qed.

Lemma StronglySorted_weaken (R S : relation A) l :
  (forall x y, R x y -> S x y) -> StronglySorted R l -> StronglySorted S l.
Proof.
  intros H. induction 1 as [|x l Hl IH Hx]; constructor; [done|].
  eapply Forall_impl; eauto.
Qed.

Lemma filter_length_all (P : A -> Prop) `{!forall x, Decision (P x)} (l : list A) :
  length (filter P l) = length l -> filter P l = l.
Proof.
  induction l as [|x l IH]; [done|]. intros Hl.
  pose proof (length_filter P l). destruct (decide (P x)).
  - rewrite filter_cons_True in * by done. simpl in *. f_equal. apply IH. lia.
  - rewrite filter_cons_False in * by done. simpl in *. lia.
Qed.

(** The loop [for (k = start; k < start + n; k++) dst[k] = src[k];] *)
Fixpoint copy_loop (src dst : list A) (k n : nat) : list A :=
  match n with
  | O => dst
  | S n' =>
      match src !! k with
      | Some x => copy_loop src (<[k := x]> dst) (S k) n'
      | None => copy_loop src dst (S k) n'
      end
  end.

Lemma length_copy_loop src dst k n : length (copy_loop src dst k n) = length dst.
Proof.
  revert dst k; induction n as [|n IH]; intros dst k; simpl; [done|].
  destruct (src !! k); rewrite IH; by rewrite ?length_insert.
Qed.

Lemma copy_loop_lookup_lt src dst k n i :
  i < k -> copy_loop src dst k n !! i = dst !! i.
Proof.
  revert dst k; induction n as [|n IH]; intros dst k Hi; simpl; [done|].
  destruct (src !! k); rewrite IH by lia; [|done].
  by rewrite list_lookup_insert_ne by lia.
Qed.

Lemma copy_loop_lookup src dst k n i :
  k + n <= length src -> k + n <= length dst -> k <= i < k + n ->
  copy_loop src dst k n !! i = src !! i.
Proof.
  revert dst k; induction n as [|n IH]; intros dst k Hs Hd Hi; simpl; [lia|].
  destruct (lookup_lt_is_Some_2 src k) as [x Hx]; [lia|]. rewrite Hx.
  destruct (decide (i = k)) as [->|Hne].
  - rewrite copy_loop_lookup_lt by lia. rewrite list_lookup_insert_eq by lia. done.
  - apply IH; rewrite ?length_insert; lia.
Qed.
End lists.

(** ** Outcomes of C code

    [Ret a] is a normal result, [Undef] an access outside an object (undefined behaviour)
    or a failed assertion, [Diverge] a loop that used up its fuel. *)

Inductive outcome (A : Type) : Type :=
  | Ret (a : A)
  | Undef
  | Diverge.
Arguments Ret {A} _.
Arguments Undef {A}.
Arguments Diverge {A}.

#[export] Instance outcome_ret : MRet outcome := @Ret.
#[export] Instance outcome_bind : MBind outcome := fun A B f m =>
  match m with Ret a => f a | Undef => Undef | Diverge => Diverge end.

Definition of_option {A} (o : option A) : outcome A :=
  match o with Some a => Ret a | None => Undef end.

Lemma outcome_bind_Ret {A B} (f : A -> outcome B) m b :
  (m ≫= f) = Ret b <-> exists a, m = Ret a /\ f a = Ret b.
Proof.
  split.
  - destruct m as [a| |]; simpl; intros H; [by exists a|discriminate..].
  - intros (a & -> & H). exact H.
Qed.

Lemma bind_Ret {A B} (a : A) (f : A -> outcome B) : (Ret a ≫= f) = f a.
Proof. done. Qed.

(** ** C arrays of bytes

    An array is the list of its cells; an access outside it is [Undef]. *)

Section arrays.
Context {A : Type}.

Definition load (buf : list A) (i : nat) : outcome A := of_option (buf !! i).

Definition store (buf : list A) (i : nat) (x : A) : outcome (list A) :=
  if i <? length buf then Ret (<[i := x]> buf) else Undef.

(** [memcpy(&dst[off], src, length src)] *)
Definition memcpy (dst : list A) (off : nat) (src : list A) : outcome (list A) :=
  if off + length src <=? length dst
  then Ret (take off dst ++ src ++ drop (off + length src) dst) else Undef.

(** [n] cells of [buf] from [off] on, as a source of [memcpy] or [memmove]. *)
Definition slice (buf : list A) (off n : nat) : outcome (list A) :=
  if off + n <=? length buf then Ret (take n (drop off buf)) else Undef.

Lemma load_Ret (buf : list A) i x : load buf i = Ret x <-> buf !! i = Some x.
Proof. unfold load. destruct (buf !! i); simpl; split; congruence. Qed.

Lemma store_ok (buf : list A) i x : i < length buf -> store buf i x = Ret (<[i := x]> buf).
Proof. intros. unfold store. destruct (_ <? _) eqn:E; bool_hyps; [done|lia]. Qed.

Lemma slice_ok (buf : list A) off n : off + n <= length buf -> slice buf off n = Ret (take n (drop off buf)).
Proof. intros. unfold slice. destruct (_ <=? _) eqn:E; bool_hyps; [done|lia]. Qed.

Lemma memcpy_ok (dst : list A) off src :
  off + length src <= length dst ->
  memcpy dst off src = Ret (take off dst ++ src ++ drop (off + length src) dst).
Proof. intros. unfold memcpy. destruct (_ <=? _) eqn:E; bool_hyps; [done|lia]. Qed.

Lemma length_memcpy (dst : list A) off src :
  off + length src <= length dst ->
  length (take off dst ++ src ++ drop (off + length src) dst) = length dst.
Proof. intros. rewrite !length_app, length_take, length_drop. lia. Qed.

(** What the first [off + length src] cells hold after a copy at [off]. *)
Lemma take_memcpy (dst : list A) off src :
  off + length src <= length dst ->
  take (off + length src) (take off dst ++ src ++ drop (off + length src) dst) =
    take off dst ++ src.
Proof.
  intros. rewrite app_assoc. apply take_app_length'. rewrite length_app, length_take. lia.
Qed.
End arrays.
