(* ===== verification/Libc.v ===== *)
(** * The C library functions the sources call on strings

    C strings are Rocq strings (their characters up to the terminating NUL). *)

From Stdlib Require Import Ascii.
From S2P Require Import Prelude.

(** ** Character classes of the C locale *)

Definition isspace (c : ascii) : bool :=
  let n := nat_of_ascii c in (n =? 32) || ((9 <=? n) && (n <=? 13)).

Definition isdigit (c : ascii) : bool :=
  let n := nat_of_ascii c in (48 <=? n) && (n <=? 57).

Definition tolower (c : ascii) : ascii :=
  let n := nat_of_ascii c in
  if (65 <=? n) && (n <=? 90) then ascii_of_nat (n + 32) else c.

Fixpoint string_lower (s : string) : string :=
  match s with
  | EmptyString => EmptyString
  | String.String c s' => String.String (tolower c) (string_lower s')
  end.

(** [strcasecmp(a, b) == 0] *)
Definition strcaseeq (a b : string) : bool := bool_decide (string_lower a = string_lower b).

Lemma strcaseeq_refl a : strcaseeq a a = true.
Proof. by apply bool_decide_eq_true_2. Qed.

Lemma strcaseeq_sym a b : strcaseeq a b = strcaseeq b a.
Proof. unfold strcaseeq. by apply bool_decide_ext. Qed.

Lemma strcaseeq_trans a b c :
  strcaseeq a b = true -> strcaseeq b c = true -> strcaseeq a c = true.
Proof. unfold strcaseeq. rewrite !bool_decide_eq_true. congruence. Qed.

Lemma string_length_app (a b : string) : String.length (a +:+ b) = String.length a + String.length b.
Proof. induction a as [|c a IH]; [done|]. cbn. by rewrite <-IH. Qed.

Lemma string_app_assoc (a b c : string) : a +:+ (b +:+ c) = (a +:+ b) +:+ c.
Proof.
  induction a as [|x a IH]; [done|].
  change (String.String x (a +:+ (b +:+ c)) = String.String x ((a +:+ b) +:+ c)). by rewrite IH.
Qed.

Lemma string_app_nil_r (a : string) : a +:+ EmptyString = a.
Proof.
  induction a as [|x a IH]; [done|].
  change (String.String x (a +:+ EmptyString) = String.String x a). by rewrite IH.
Qed.

(** ** Hexadecimal numbers *)

Definition hex_digit (c : ascii) : option Z :=
  let n := nat_of_ascii c in
  if (48 <=? n) && (n <=? 57) then Some (Z.of_nat n - 48)%Z
  else if (97 <=? n) && (n <=? 102) then Some (Z.of_nat n - 87)%Z
  else if (65 <=? n) && (n <=? 70) then Some (Z.of_nat n - 55)%Z
  else None.

Fixpoint skip_space (s : string) : string :=
  match s with
  | String.String c s' => if isspace c then skip_space s' else s
  | EmptyString => EmptyString
  end.

(** The digits at the head of [s]: whether there was one, their value, the rest. *)
Fixpoint hex_digits (s : string) (seen : bool) (acc : Z) : bool * Z * string :=
  match s with
  | String.String c s' =>
      match hex_digit c with
      | Some d => hex_digits s' true (16 * acc + d)%Z
      | None => (seen, acc, s)
      end
  | EmptyString => (seen, acc, s)
  end.

(** An optional [0x] that is followed by a digit. *)
Definition skip_0x (s : string) : string :=
  match s with
  | String.String c0 (String.String c1 (String.String c2 s')) =>
      if (Ascii.eqb c0 "0") && (Ascii.eqb c1 "x" || Ascii.eqb c1 "X")
      then match hex_digit c2 with
           | Some _ => String.String c2 s'
           | None => s
           end
      else s
  | _ => s
  end.

Definition skip_sign (s : string) : bool * string :=
  match s with
  | String.String c s' =>
      if Ascii.eqb c "-" then (true, s') else if Ascii.eqb c "+" then (false, s') else (false, s)
  | EmptyString => (false, s)
  end.

(** A base 16 number as [strtoul] reads it, on the 32-bit target: out of range gives
    ULONG_MAX, a minus sign negates in the unsigned type.  [None] when there is no digit. *)
Definition read_hex (s : string) : option (Z * string) :=
  let '(neg, s1) := skip_sign (skip_space s) in
  let '(seen, v, rest) := hex_digits (skip_0x s1) false 0 in
  if negb seen then None
  else
    let clamped := if (4294967295 <? v)%Z then 4294967295%Z else v in
    Some (if (neg : bool) && (v <=? 4294967295)%Z then u32 (- clamped) else clamped, rest).

(** [strtoul(s, NULL, 16)] *)
Definition strtoul16 (s : string) : Z :=
  match read_hex s with Some (v, _) => v | None => 0%Z end.

(** [sscanf(s, "%x %x", &a, &b) == 2] *)
Definition sscanf_x_x (s : string) : option (Z * Z) :=
  match read_hex s with
  | None => None
  | Some (a, rest) =>
      match read_hex rest with
      | None => None
      | Some (b, _) => Some (a, b)
      end
  end.

(** ** Printing *)

Definition hex_char (d : Z) : ascii :=
  if (d <? 10)%Z then ascii_of_nat (48 + Z.to_nat d) else ascii_of_nat (55 + Z.to_nat d).

(** [printf("0x%02X", b)] of a byte. *)
Definition print_hex_byte (b : Z) : string :=
  "0x" +:+ String.String (hex_char (b / 16)) (String.String (hex_char (b mod 16)) EmptyString).

Lemma hex_byte_roundtrip_all :
  forallb (fun b => (strtoul16 (print_hex_byte (Z.of_nat b)) =? Z.of_nat b)%Z) (seq 0 256) = true.
Proof. vm_compute. reflexivity. Qed.

Lemma hex_byte_roundtrip b : byte_ok b -> strtoul16 (print_hex_byte b) = b.
Proof.
  intros Hb. unfold byte_ok in Hb. pose proof hex_byte_roundtrip_all as H.
  rewrite forallb_forall in H. specialize (H (Z.to_nat b)).
  rewrite Z2Nat.id in H by lia. apply Z.eqb_eq, H, in_seq. lia.
Qed.

(** The [n] lowest digits of [v], the highest first, and a number without leading zeros. *)
Fixpoint digits (base : Z) (n : nat) (v : Z) : list Z :=
  match n with
  | O => []
  | S n' => digits base n' (v / base)%Z ++ [(v mod base)%Z]
  end.

Fixpoint strip_zeros (ds : list Z) : list Z :=
  match ds with
  | 0%Z :: ((_ :: _) as ds') => strip_zeros ds'
  | _ => ds
  end.

(** Lower case, as [%x] prints. *)
Definition digit_char (d : Z) : ascii :=
  if (d <? 10)%Z then ascii_of_nat (48 + Z.to_nat d) else ascii_of_nat (87 + Z.to_nat d).

Definition digit_string (ds : list Z) : string := foldr (fun d s => String.String (digit_char d) s) EmptyString ds.

(** [printf("%x", v)] and [printf("%u", v)] of a 32-bit number. *)
Definition print_x (v : Z) : string := digit_string (strip_zeros (digits 16 8 v)).
Definition print_u (v : Z) : string := digit_string (strip_zeros (digits 10 10 v)).

(** ** Decimal numbers *)

Definition dec_digit (c : ascii) : option Z :=
  if isdigit c then Some (Z.of_nat (nat_of_ascii c) - 48)%Z else None.

Fixpoint dec_digits (s : string) (acc : Z) : Z * string :=
  match s with
  | String.String c s' =>
      match dec_digit c with
      | Some d => dec_digits s' (10 * acc + d)%Z
      | None => (acc, s)
      end
  | EmptyString => (acc, s)
  end.

(** [strtoul(s, &s, 10)] where [s] begins with a digit. *)
Definition strtoul10_digits (s : string) : Z * string :=
  let '(v, rest) := dec_digits s 0 in (if (4294967295 <? v)%Z then 4294967295%Z else v, rest).

(** ** Reading back what was printed *)

Section printing.
Local Open Scope Z_scope.

Definition digits_value (base : Z) (ds : list Z) : Z := fold_left (fun a d => base * a + d) ds 0.

Lemma digits_range base n v : 0 < base -> Forall (fun d => 0 <= d < base) (digits base n v).
Proof.
  intros Hb. revert v. induction n as [|n IH]; intros v; cbn; [constructor|].
  apply Forall_app. split; [done|]. repeat constructor; apply Z.mod_pos_bound; lia.
Qed.

Lemma digits_value_mod base n v :
  0 < base -> digits_value base (digits base n v) = v mod base ^ Z.of_nat n.
Proof.
  intros Hb. revert v. induction n as [|n IH]; intros v; [cbn; by rewrite Z.mod_1_r|].
  cbn [digits]. unfold digits_value in *. rewrite fold_left_app. cbn [fold_left]. rewrite IH.
  rewrite Nat2Z.inj_succ, Z.pow_succ_r by lia. rewrite (Z.rem_mul_r v base) by (try lia; apply Z.pow_pos_nonneg; lia).
  lia.
Qed.

Lemma strip_zeros_value base ds : digits_value base (strip_zeros ds) = digits_value base ds.
Proof.
  induction ds as [|d ds IH]; [done|]. cbn [strip_zeros]. destruct d; try done. destruct ds; [done|].
  rewrite IH. unfold digits_value. cbn [fold_left]. by replace (base * 0 + 0) with 0 by lia.
Qed.

Lemma strip_zeros_props (P : Z -> Prop) ds : Forall P ds -> ds <> [] -> Forall P (strip_zeros ds) /\ strip_zeros ds <> [].
Proof.
  induction 1 as [|d ds Hd Hds IH]; [done|]. intros _. cbn [strip_zeros].
  destruct d; try (split; [by constructor|done]). destruct ds; [split; [by constructor|done]|].
  by apply IH.
Qed.

Lemma digit_char_props d :
  0 <= d < 16 ->
  hex_digit (digit_char d) = Some d /\ (d < 10 -> dec_digit (digit_char d) = Some d) /\
  isspace (digit_char d) = false /\
  Ascii.eqb (digit_char d) "-"%char = false /\ Ascii.eqb (digit_char d) "+"%char = false /\
  Ascii.eqb (digit_char d) "x"%char = false /\ Ascii.eqb (digit_char d) "X"%char = false.
Proof.
  intros Hd. assert (d ∈ map Z.of_nat (seq 0 16)) as H.
  { apply list_elem_of_In, in_map_iff. exists (Z.to_nat d). rewrite in_seq. lia. }
  clear Hd. cbn in H.
  repeat (apply elem_of_cons in H as [->|H]; [split_and!; try (vm_compute; done); intros; try lia; by vm_compute|]).
  by apply elem_of_nil in H.
Qed.

Lemma digit_string_cons d ds s :
  digit_string (d :: ds) +:+ s = String.String (digit_char d) (digit_string ds +:+ s).
Proof. done. Qed.

Lemma hex_digits_string ds sn acc s :
  Forall (fun d => 0 <= d < 16) ds -> ds <> [] ->
  hex_digits (digit_string ds +:+ s) sn acc = hex_digits s true (fold_left (fun a d => 16 * a + d) ds acc).
Proof.
  intros Hd. revert sn acc. induction Hd as [|d ds Hd _ IH]; intros sn acc Hne; [done|].
  rewrite digit_string_cons. cbn [hex_digits fold_left]. rewrite (proj1 (digit_char_props d Hd)).
  destruct ds as [|d' ds]; [done|]. by apply IH.
Qed.

Lemma dec_digits_string ds acc s :
  Forall (fun d => 0 <= d < 10) ds ->
  dec_digits (digit_string ds +:+ s) acc = dec_digits s (fold_left (fun a d => 10 * a + d) ds acc).
Proof.
  intros Hd. revert acc. induction Hd as [|d ds Hd _ IH]; intros acc; [done|].
  rewrite digit_string_cons. cbn [dec_digits fold_left].
  destruct (digit_char_props d) as (_ & H & _); [lia|]. rewrite H by lia. apply IH.
Qed.

(** A hexadecimal number is read up to a separator. *)
Lemma read_hex_string ds c s :
  Forall (fun d => 0 <= d < 16) ds -> ds <> [] -> isspace c = true ->
  0 <= digits_value 16 ds <= 4294967295 ->
  read_hex (digit_string ds +:+ String.String c s) = Some (digits_value 16 ds, String.String c s).
Proof.
  intros Hd Hne Hc Hv.
  assert (hex_digit c = None /\ Ascii.eqb c "x" = false /\ Ascii.eqb c "X" = false) as (Hc1 & Hc2 & Hc3).
  { destruct c as [[] [] [] [] [] [] [] []]; by vm_compute in Hc. }
  assert (exists c' t, digit_string ds +:+ String.String c s = String.String c' t /\
    isspace c' = false /\ Ascii.eqb c' "-" = false /\ Ascii.eqb c' "+" = false /\
    skip_0x (String.String c' t) = String.String c' t) as (c' & t & Heq & Hs & Hm & Hp & Hx).
  { destruct ds as [|d1 ds]; [done|]. apply Forall_cons in Hd as [H1 Hd]. rewrite digit_string_cons.
    destruct (digit_char_props d1 H1) as (_ & _ & ? & ? & ? & _). eexists _, _. split_and!; [done..|].
    unfold skip_0x. destruct ds as [|d2 ds].
    - change (digit_string [] +:+ String.String c s) with (String.String c s). destruct s; [done|].
      by rewrite Hc2, Hc3, andb_false_r.
    - rewrite digit_string_cons. apply Forall_cons in Hd as [Hd2 _].
      destruct (digit_char_props d2 Hd2) as (_ & _ & _ & _ & _ & -> & ->).
      destruct (digit_string ds +:+ _); [done|]. by rewrite andb_false_r. }
  unfold read_hex. rewrite Heq. cbn [skip_space]. rewrite Hs. cbn [skip_sign]. rewrite Hm, Hp, Hx, <-Heq.
  rewrite hex_digits_string by done. cbn [hex_digits]. rewrite Hc1. cbn [negb andb].
  unfold digits_value in Hv. by rewrite (proj2 (Z.ltb_ge _ _)) by lia.
Qed.

Lemma print_x_read v c s :
  0 <= v <= 4294967295 -> isspace c = true ->
  read_hex (print_x v +:+ String.String c s) = Some (v, String.String c s).
Proof.
  intros Hv Hc. destruct (strip_zeros_props (fun d => 0 <= d < 16) (digits 16 8 v)) as [Hr Hne];
    [apply digits_range; lia|intros H; cbn [digits] in H; by apply app_nil in H as [_ H]|].
  assert (digits_value 16 (strip_zeros (digits 16 8 v)) = v) as Hval.
  { rewrite strip_zeros_value, digits_value_mod by lia. apply Z.mod_small. cbn. lia. }
  unfold print_x. rewrite read_hex_string by (done || lia). by rewrite Hval.
Qed.

Lemma print_u_props v :
  exists ds, print_u v = digit_string ds /\ Forall (fun d => 0 <= d < 10) ds /\ ds <> [] /\
    (0 <= v <= 4294967295 -> digits_value 10 ds = v).
Proof.
  destruct (strip_zeros_props (fun d => 0 <= d < 10) (digits 10 10 v)) as [Hr Hne];
    [apply digits_range; lia|intros H; cbn [digits] in H; by apply app_nil in H as [_ H]|].
  eexists. split_and!; [reflexivity|done..|]. intros Hv.
  rewrite strip_zeros_value, digits_value_mod by lia. apply Z.mod_small. cbn. lia.
Qed.
End printing.

(** A decimal number before something that is not a digit. *)
Lemma decimal_head ds s : Forall (fun d => 0 <= d < 10)%Z ds -> ds <> [] ->
  match s with String.String c _ => isdigit c = false | EmptyString => True end ->
  exists c t, digit_string ds +:+ s = String.String c t /\ isdigit c = true /\ isspace c = false /\
    skip_sign (String.String c t) = (false, String.String c t) /\ dec_digits (String.String c t) 0 = (digits_value 10 ds, s).
Proof.
  intros Hd Hne Hs. pose proof (dec_digits_string ds 0 s Hd) as Hdd. change (fold_left _ ds 0%Z) with (digits_value 10 ds) in Hdd.
  assert (dec_digits s (digits_value 10 ds) = (digits_value 10 ds, s)) as Hr.
  { destruct s as [|c s]; [done|]. cbn [dec_digits]. unfold dec_digit. by rewrite Hs. }
  rewrite Hr in Hdd. destruct ds as [|d ds]; [done|]. apply Forall_cons in Hd as [Hd0 Hd].
  destruct (digit_char_props d ltac:(lia)) as (_ & Hdc & Hsp & Hm & Hp & _).
  rewrite digit_string_cons in *. eexists _, _. split; [reflexivity|]. split_and!; [|done| |done].
  - specialize (Hdc ltac:(lia)). unfold dec_digit in Hdc. by destruct (isdigit (digit_char d)).
  - cbn [skip_sign]. by rewrite Hm, Hp.
Qed.

(** [snprintf(buf, size, "%s", s)] with [size > 0]: what the buffer holds. *)
Fixpoint string_take (n : nat) (s : string) : string :=
  match n, s with
  | S n', String.String c s' => String.String c (string_take n' s')
  | _, _ => EmptyString
  end.
