(* ===== verification/Text.v ===== *)
(** * Texts

    C strings and byte buffers as lists of characters, with the functions of the C library that
    cut them into pieces.  A buffer holds the C string before its first NUL. *)

From Stdlib Require Import Ascii.
From S2P Require Import Prelude Libc.

Definition text := list ascii.
Definition text_of (s : string) : text := String.list_ascii_of_string s.
Definition string_of (t : text) : string := String.string_of_list_ascii t.

Definition NUL : ascii := ascii_of_nat 0.
Definition newline_char : ascii := ascii_of_nat 10.
Definition tab_char : ascii := ascii_of_nat 9.
Definition space_char : ascii := ascii_of_nat 32.

Section list_functions.
Context {A : Type}.

Fixpoint drop_while (f : A -> bool) (l : list A) : list A :=
  match l with [] => [] | x :: l' => if f x then drop_while f l' else l end.
Fixpoint take_while (f : A -> bool) (l : list A) : list A :=
  match l with [] => [] | x :: l' => if f x then x :: take_while f l' else [] end.
End list_functions.

(** What a buffer holds as a C string. *)
Definition c_str (l : text) : text := take_while (fun c => negb (bool_decide (c = NUL))) l.

(** [strchr(s, c)], as an offset. *)
Fixpoint strchr (c : ascii) (s : text) : option nat :=
  match s with
  | [] => None
  | x :: s' => if bool_decide (x = c) then Some 0 else S <$> strchr c s'
  end.

(** The tokens that successive calls of [strtok_r(s, seps, &ctx)] return; [cur] holds the
    characters of the current token, the last first. *)
Fixpoint strtok_from (seps : list ascii) (cur s : text) : list text :=
  match s with
  | [] => match cur with [] => [] | _ => [rev cur] end
  | c :: s' =>
      if bool_decide (c ∈ seps)
      then match cur with [] => strtok_from seps [] s' | _ => rev cur :: strtok_from seps [] s' end
      else strtok_from seps (c :: cur) s'
  end.
Definition strtok (seps : list ascii) (s : text) : list text := strtok_from seps [] s.

(** [strncpy(dst, src, n)] into an array: the characters of [src], then NULs up to [n]. *)
Definition strncpy (dst : text) (src : text) (n : nat) : outcome text :=
  memcpy dst 0 (take n (src ++ replicate (n - length src) NUL)).

(** [strstr(s, needle)]: the rest of [s] from the first occurrence on. *)
Definition starts_with (needle s : text) : bool := bool_decide (take (length needle) s = needle).
Fixpoint strstr (s needle : text) : option text :=
  if starts_with needle s then Some s
  else match s with [] => None | _ :: s' => strstr s' needle end.

(** The C string in an array, which must hold a NUL. *)
Definition buf_str (buf : text) : outcome text :=
  if bool_decide (NUL ∈ buf) then Ret (c_str buf) else Undef.

(** ** Laws *)

Lemma take_while_all {A} (f : A -> bool) l : Forall (fun x => f x = true) l -> take_while f l = l.
Proof. induction 1 as [|x l Hx _ IH]; simpl; [done|]. by rewrite Hx, IH. Qed.

Definition no_nul (t : text) : Prop := NUL ∉ t.

Lemma c_str_no_nul t : no_nul t -> c_str t = t.
Proof.
  intros H. apply take_while_all, Forall_forall. intros x Hx.
  rewrite bool_decide_eq_false_2; [done|]. by intros ->.
Qed.

Lemma c_str_app_nul t rest : no_nul t -> c_str (t ++ NUL :: rest) = t.
Proof.
  unfold no_nul, c_str. induction t as [|c t IH]; simpl; intros H.
  - done.
  - apply not_elem_of_cons in H as [Hc H]. rewrite bool_decide_eq_false_2 by done. simpl.
    by rewrite IH.
Qed.

Lemma strtok_from_app seps cur a c b :
  Forall (fun x => x ∉ seps) a -> c ∈ seps -> rev cur ++ a <> [] ->
  strtok_from seps cur (a ++ c :: b) = (rev cur ++ a) :: strtok seps b.
Proof.
  intros Ha Hc. revert cur. induction Ha as [|x a Hx _ IH]; intros cur Hne; simpl.
  - rewrite app_nil_r in *. rewrite bool_decide_eq_true_2 by done. by destruct cur.
  - rewrite bool_decide_eq_false_2 by done. rewrite IH; simpl; by rewrite <-app_assoc.
Qed.

(** The first token of a text that starts with one. *)
Lemma strtok_cons seps a c b :
  Forall (fun x => x ∉ seps) a -> a <> [] -> c ∈ seps ->
  strtok seps (a ++ c :: b) = a :: strtok seps b.
Proof. intros. by apply (strtok_from_app seps []). Qed.

Lemma strtok_from_one seps cur a :
  Forall (fun x => x ∉ seps) a -> rev cur ++ a <> [] -> strtok_from seps cur a = [rev cur ++ a].
Proof.
  intros Ha. revert cur. induction Ha as [|x a Hx _ IH]; intros cur Hne; simpl.
  - rewrite app_nil_r in *. by destruct cur.
  - rewrite bool_decide_eq_false_2 by done. rewrite IH; simpl; by rewrite <-app_assoc.
Qed.

Lemma strtok_one seps a : Forall (fun x => x ∉ seps) a -> a <> [] -> strtok seps a = [a].
Proof. intros. by apply (strtok_from_one seps []). Qed.

Lemma strncpy_length dst src n d : strncpy dst src n = Ret d -> length d = length dst.
Proof.
  unfold strncpy, memcpy. destruct (_ <=? _) eqn:E; intros [=<-]; bool_hyps.
  by apply (length_memcpy dst 0).
Qed.

(** A string in an array of [n] bytes, the rest cleared. *)
Definition pad (n : nat) (src : text) : text := src ++ replicate (n - length src) NUL.

Lemma length_pad n src : length src <= n -> length (pad n src) = n.
Proof. intros. unfold pad. rewrite length_app, length_replicate. lia. Qed.

Lemma strncpy_pad dst src n : length dst = n -> length src <= n -> strncpy dst src n = Ret (pad n src).
Proof.
  intros Hd Hl. unfold strncpy. fold (pad n src). rewrite take_ge by (rewrite length_pad; lia).
  rewrite memcpy_ok by (rewrite length_pad; lia).
  by rewrite take_0, app_nil_l, Nat.add_0_l, drop_ge, app_nil_r by (rewrite length_pad; lia).
Qed.

Lemma buf_str_pad n src : no_nul src -> length src < n -> buf_str (pad n src) = Ret src.
Proof.
  intros Hs Hl. unfold buf_str, pad. destruct (n - length src) as [|m] eqn:E; [lia|].
  change (replicate (S m) NUL) with (NUL :: replicate m NUL).
  rewrite bool_decide_eq_true_2 by set_solver. by rewrite c_str_app_nul.
Qed.

Lemma c_str_nul t : no_nul (c_str t).
Proof.
  unfold no_nul, c_str. induction t as [|c t IH]; simpl; [by apply not_elem_of_nil|].
  case_bool_decide as E; simpl; [by apply not_elem_of_nil|]. apply not_elem_of_cons. split; [congruence|done].
Qed.

Lemma c_str_app_nul_r t rest : c_str (t ++ NUL :: rest) = c_str t.
Proof. unfold c_str. induction t as [|c t IH]; simpl; [done|]. case_bool_decide; simpl; [done|by rewrite IH]. Qed.

Lemma no_nul_take k t : no_nul t -> no_nul (take k t).
Proof. unfold no_nul. intros H Hin. apply H. by apply elem_of_take in Hin as (? & ? & _); eapply list_elem_of_lookup_2. Qed.

Lemma no_nul_app a b : no_nul (a ++ b) <-> no_nul a /\ no_nul b.
Proof. unfold no_nul. rewrite elem_of_app. tauto. Qed.

Lemma c_str_length t : length (c_str t) <= length t.
Proof. unfold c_str. induction t as [|c t IH]; simpl; [done|]. case_bool_decide; simpl; lia. Qed.

Lemma strstr_suffix s needle rest : strstr s needle = Some rest -> exists pre, s = pre ++ rest.
Proof.
  revert rest. induction s as [|c s IH]; intros rest; simpl; destruct (starts_with _ _); intros Hr; simplify_eq.
  - by exists [].
  - by exists [].
  - apply IH in Hr as [pre ->]. by exists (c :: pre).
Qed.

(** Strings and texts. *)
Lemma text_of_app a b : text_of (a +:+ b) = text_of a ++ text_of b.
Proof. unfold text_of. induction a as [|c a IH]; [done|]. simpl. by f_equal. Qed.

Lemma text_of_length s : length (text_of s) = String.length s.
Proof. unfold text_of. induction s as [|c s IH]; [done|]. cbn. by rewrite IH. Qed.

Lemma string_of_text_of s : string_of (text_of s) = s.
Proof. apply String.string_of_list_ascii_of_string. Qed.

Lemma digit_string_in ds c : Forall (fun d => 0 <= d < 10)%Z ds -> c ∈ text_of (digit_string ds) -> isdigit c = true.
Proof.
  intros Hd. induction Hd as [|d ds Hd _ IH]; [by intros ?%not_elem_of_nil|].
  change (text_of (digit_string (d :: ds))) with (digit_char d :: text_of (digit_string ds)). intros [->|H]%elem_of_cons; [|by apply IH].
  destruct (digit_char_props d ltac:(lia)) as (_ & H & _). specialize (H ltac:(lia)). unfold dec_digit in H. by destruct (isdigit (digit_char d)).
Qed.
Lemma print_u_in v c : c ∈ text_of (print_u v) -> isdigit c = true.
Proof. destruct (print_u_props v) as (ds & -> & Hd & _). by apply digit_string_in. Qed.

Lemma text_string t : text_of (string_of t) = t.
Proof. apply String.list_ascii_of_string_of_list_ascii. Qed.

Lemma string_of_app s t : string_of (text_of s ++ t) = s +:+ string_of t.
Proof.
  unfold string_of, text_of. induction s as [|c s IH]; [done|]. cbn. rewrite IH. reflexivity.
Qed.

(** A string in a buffer, whatever follows its NUL. *)
Definition in_buf (s buf : text) : Prop := no_nul s /\ exists rest, buf = s ++ NUL :: rest.

Lemma in_buf_str s buf : in_buf s buf -> buf_str buf = Ret s.
Proof.
  intros (Hs & rest & ->). unfold buf_str. rewrite bool_decide_eq_true_2 by set_solver.
  by rewrite c_str_app_nul.
Qed.

Lemma in_buf_c_str buf : NUL ∈ buf -> in_buf (c_str buf) buf.
Proof.
  intros H. split; [apply c_str_nul|]. unfold c_str. induction buf as [|c buf IH]; [by apply not_elem_of_nil in H|].
  simpl. case_bool_decide as E; simpl.
  - subst. by exists buf.
  - apply elem_of_cons in H as [H|H]; [congruence|]. destruct (IH H) as [rest Hr]. exists rest. by rewrite Hr at 1.
Qed.
