(* ===== verification/Kmin.v ===== *)
(** * k-minimum selection (libpiksi [src/package/libpiksi/libpiksi/src/kmin.c])

    A [kmin_t] is an array of scored, named elements; [kmin_find] sorts it in place and
    copies the first [count] elements into a result array.  The vendored tim sort the file
    instantiates is the parameter [tim_sort], specified by the class [SortSpec]. *)

From S2P Require Import Prelude.

(** ** State *)

Record kmin_element := mk_element {
  is_filled : bool;
  score : Z;
  ident : option string;   (* [const char *]: [None] is NULL *)
}.

(** What [calloc] leaves in an element. *)
Definition zero_element : kmin_element := mk_element false 0 None.

#[export] Instance kmin_element_inhabited : Inhabited kmin_element := populate zero_element.

#[export] Instance kmin_element_eq_dec : EqDecision kmin_element.
Proof. solve_decision. Defined.

Record kmin := mk_kmin {
  arr : list kmin_element;
  size : nat;
  filled : nat;
  invert : bool;
  result : option (list kmin_element);   (* [None] is NULL *)
  result_count : nat;
}.

Definition KMIN_COMPARE (l r : kmin_element) : Z :=
  if (score l =? score r)%Z then 0%Z else if (score l <? score r)%Z then (-1)%Z else 1%Z.

(** ** Operations

    [ok] arguments say whether an allocation succeeds. *)

Definition kmin_create (ok_ctx ok_arr : bool) (sz : nat) : option kmin :=
  if negb ok_ctx then None
  else if negb ok_arr then None
  else Some (mk_kmin (replicate sz zero_element) sz 0 false None 0).

Definition kmin_size (k : kmin) : nat := size k.
Definition kmin_filled (k : kmin) : nat := filled k.

(** The loop of [kmin_compact]: [new_arr[new_arr_idx++] = kmin->arr[idx]]. *)
Fixpoint compact_loop (l new_arr : list kmin_element) (new_arr_idx : nat) : list kmin_element :=
  match l with
  | [] => new_arr
  | e :: l' =>
      if negb (is_filled e) then compact_loop l' new_arr new_arr_idx
      else compact_loop l' (<[new_arr_idx := e]> new_arr) (S new_arr_idx)
  end.

Definition kmin_compact (ok : bool) (k : kmin) : kmin * bool :=
  if filled k =? size k then (k, true)
  else if negb ok then (k, false)
  else
    let new_arr := compact_loop (take (size k) (arr k)) (replicate (filled k) zero_element) 0 in
    (mk_kmin new_arr (filled k) (filled k) (invert k) (result k) (result_count k), true).

Definition kmin_invert (k : kmin) (inv : bool) : kmin :=
  mk_kmin (arr k) (size k) (filled k) inv (result k) (result_count k).

(** [if (kmin->result != NULL) { free; result = NULL; result_count = 0; }] *)
Definition drop_result (k : kmin) : kmin :=
  match result k with
  | Some _ => mk_kmin (arr k) (size k) (filled k) (invert k) None 0
  | None => k
  end.

Definition kmin_put (k : kmin) (index : nat) (sc : Z) (id : option string) : kmin * bool :=
  let k := drop_result k in
  if size k <=? index then (k, false)
  else
    match ident (arr k !!! index) with
    | Some _ => (k, false)
    | None =>
        (mk_kmin (<[index := mk_element true sc id]> (arr k)) (size k) (S (filled k))
           (invert k) (result k) (result_count k), true)
    end.

(** The vendored sort: it sorts the array in place by the comparison it is given. *)
Class SortSpec (tim_sort : (kmin_element -> kmin_element -> Z) -> list kmin_element ->
                           list kmin_element) : Prop := {
  tim_sort_perm cmp l : tim_sort cmp l ≡ₚ l;
  tim_sort_sorted cmp l :
    (forall x y, (cmp x y <= 0 \/ cmp y x <= 0)%Z) ->
    (forall x y z, cmp x y <= 0 -> cmp y z <= 0 -> cmp x z <= 0)%Z ->
    StronglySorted (fun x y => cmp x y <= 0)%Z (tim_sort cmp l);
}.

Section kmin.
Variable tim_sort : (kmin_element -> kmin_element -> Z) -> list kmin_element -> list kmin_element.

Definition handle_macro_timsort (k : kmin) : kmin :=
  let sorted :=
    if invert k then tim_sort (fun x y => -1 * KMIN_COMPARE x y)%Z (arr k)
    else tim_sort KMIN_COMPARE (arr k) in
  mk_kmin sorted (size k) (filled k) (invert k) (result k) (result_count k).

Definition kmin_find (ok : bool) (k : kmin) (kstart count : nat) : kmin * Z :=
  if negb (filled k =? size k) then (k, (-1)%Z)
  else if size k <=? kstart then (k, (-1)%Z)
  else
    let count := Nat.min (size k) count in
    let k0 := mk_kmin (arr k) (size k) (filled k) (invert k) None (result_count k) in
    if negb ok then (k0, (-1)%Z)
    else
      let k1 := handle_macro_timsort
                  (mk_kmin (arr k0) (size k0) (filled k0) (invert k0) None count) in
      let res := copy_loop (arr k1) (replicate count zero_element) kstart (count - kstart) in
      (mk_kmin (arr k1) (size k1) (filled k1) (invert k1) (Some res) count, Z.of_nat count).
End kmin.

Definition kmin_result_count (k : kmin) : Z :=
  match result k with
  | None => (-1)%Z
  | Some _ => Z.of_nat (result_count k)
  end.

(** [None] is the [false] return, the two out parameters are left alone. *)
Definition kmin_result_at (k : kmin) (index : nat) : option (Z * option string) :=
  match result k with
  | None => None
  | Some r =>
      if result_count k <=? index then None
      else let e := r !!! index in Some (score e, ident e)
  end.

(** [None] is the failed assertion. *)
Definition kmin_score_at (k : kmin) (index : nat) : option Z := fst <$> kmin_result_at k index.
Definition kmin_ident_at (k : kmin) (index : nat) : option (option string) :=
  snd <$> kmin_result_at k index.

(** ** Invariant *)

Definition count_filled (l : list kmin_element) : nat :=
  length (filter (fun e => is_filled e = true) l).

Definition kmin_wf (k : kmin) : Prop :=
  length (arr k) = size k /\
  filled k = count_filled (arr k) /\
  Forall (fun e => is_filled e = true <-> is_Some (ident e)) (arr k) /\
  match result k with Some r => length r = result_count k | None => True end.

Lemma count_filled_cons e l :
  count_filled (e :: l) = (if is_filled e then 1 else 0) + count_filled l.
Proof.
  unfold count_filled. rewrite filter_cons.
  destruct (is_filled e) eqn:E; case_decide; by rewrite ?E in *.
Qed.

Lemma compact_loop_spec l dst i :
  i + count_filled l <= length dst ->
  compact_loop l dst i =
    take i dst ++ filter (fun e => is_filled e = true) l ++ drop (i + count_filled l) dst.
Proof.
  revert dst i; induction l as [|e l IH]; intros dst i Hlen.
  - unfold count_filled; simpl. by rewrite Nat.add_0_r, take_drop.
  - rewrite count_filled_cons in *. simpl. destruct (is_filled e) eqn:He; simpl in *.
    + rewrite filter_cons_True by done.
      rewrite IH by (rewrite length_insert; lia).
      rewrite (take_S_r _ _ e) by (rewrite list_lookup_insert_eq by lia; done).
      rewrite take_insert_ge by lia. rewrite drop_insert_lt by lia.
      by rewrite <-app_assoc, Nat.add_succ_r.
    + rewrite filter_cons_False by congruence. by apply IH.
Qed.

Lemma compact_loop_filter l :
  compact_loop l (replicate (count_filled l) zero_element) 0 =
    filter (fun e => is_filled e = true) l.
Proof.
  rewrite compact_loop_spec by (by rewrite length_replicate).
  rewrite take_0, drop_ge by (rewrite length_replicate; lia). by rewrite app_nil_r.
Qed.

Lemma count_filled_filter l :
  count_filled (filter (fun e => is_filled e = true) l) = count_filled l.
Proof. unfold count_filled. by rewrite list_filter_filter_l by done. Qed.

Lemma count_filled_perm l l' : l ≡ₚ l' -> count_filled l = count_filled l'.
Proof. intros H. unfold count_filled. by rewrite H. Qed.

Lemma count_filled_insert l i e e' :
  l !! i = Some e -> is_filled e = false -> is_filled e' = true ->
  count_filled (<[i := e']> l) = S (count_filled l).
Proof.
  revert i; induction l as [|x l IH]; intros [|i] Hl He He'; simplify_eq/=; rewrite !count_filled_cons.
  - by rewrite He, He'.
  - rewrite (IH i) by done. lia.
Qed.

Lemma kmin_create_wf o1 o2 n k : kmin_create o1 o2 n = Some k -> kmin_wf k.
Proof.
  unfold kmin_create. intros; destruct o1, o2; simplify_eq/=.
  unfold kmin_wf, count_filled; simpl. rewrite length_replicate. repeat split; try done.
  - induction n as [|n IH]; simpl; [done|]. by rewrite filter_cons_False by done.
  - apply Forall_replicate. simpl. split; [done|]. by intros [? ?].
Qed.

Lemma drop_result_wf k : kmin_wf k -> kmin_wf (drop_result k).
Proof. unfold kmin_wf, drop_result. intros (?&?&?&?). by destruct (result k) eqn:E; simpl; rewrite ?E. Qed.

Lemma kmin_put_wf k i sc id : kmin_wf k -> kmin_wf (fst (kmin_put k i sc (Some id))).
Proof.
  intros Hwf%drop_result_wf. unfold kmin_put. set (k0 := drop_result k) in *.
  destruct (size k0 <=? i) eqn:Hi; [done|]. bool_hyps.
  destruct Hwf as (Hl & Hf & Ha & Hr).
  destruct (lookup_lt_is_Some_2 (arr k0) i) as [e He]; [lia|].
  rewrite (list_lookup_total_correct _ _ _ He).
  destruct (ident e) eqn:Hid; simpl; [done|].
  assert (is_filled e = false) as Hef.
  { rewrite Forall_forall in Ha. specialize (Ha e (list_elem_of_lookup_2 _ _ _ He)).
    destruct (is_filled e); [|done]. destruct Ha as [[? ?] _]; [done|congruence]. }
  unfold kmin_wf; simpl. rewrite length_insert. split; [done|]. split; [|split].
  - by rewrite (count_filled_insert _ _ e), Hf.
  - apply Forall_insert; [done|]. simpl. split; [eauto|done].
  - done.
Qed.

Lemma kmin_compact_wf ok k : kmin_wf k -> kmin_wf (fst (kmin_compact ok k)).
Proof.
  intros (Hl & Hf & Ha & Hr). unfold kmin_compact.
  destruct (filled k =? size k) eqn:E; [by repeat split|].
  destruct ok; simpl; [|by repeat split].
  rewrite Hf. rewrite <-Hl, take_ge, compact_loop_filter by done.
  unfold kmin_wf; simpl. rewrite count_filled_filter. repeat split; try done.
  rewrite Forall_forall in *. intros e [_ He]%list_elem_of_filter. by apply Ha.
Qed.

Section sorted.
Context (tim_sort : (kmin_element -> kmin_element -> Z) -> list kmin_element -> list kmin_element).
Context `{!SortSpec tim_sort}.

Lemma handle_macro_timsort_perm k : arr (handle_macro_timsort tim_sort k) ≡ₚ arr k.
Proof. unfold handle_macro_timsort; simpl. destruct (invert k); apply tim_sort_perm. Qed.

(** The order the result comes in. *)
Definition score_order (inv : bool) (x y : kmin_element) : Prop :=
  if inv then (score y <= score x)%Z else (score x <= score y)%Z.

Lemma handle_macro_timsort_sorted k :
  StronglySorted (score_order (invert k)) (arr (handle_macro_timsort tim_sort k)).
Proof.
  unfold handle_macro_timsort; simpl. destruct (invert k).
  - eapply StronglySorted_weaken, tim_sort_sorted; unfold KMIN_COMPARE; intros x y.
    + intros H. simpl. split_cases; lia.
    + split_cases; lia.
    + intros z. split_cases; lia.
  - eapply StronglySorted_weaken, tim_sort_sorted; unfold KMIN_COMPARE; intros x y.
    + intros H. simpl. split_cases; lia.
    + split_cases; lia.
    + intros z. split_cases; lia.
Qed.

Lemma kmin_find_wf ok k s c : kmin_wf k -> kmin_wf (fst (kmin_find tim_sort ok k s c)).
Proof.
  intros Hwf. unfold kmin_find.
  destruct (filled k =? size k) eqn:Hfs; simpl; [|done].
  destruct (size k <=? s) eqn:Hs; simpl; [done|]. bool_hyps.
  destruct Hwf as (Hl & Hf & Ha & Hr).
  destruct ok; simpl; [|by repeat split].
  pose proof (handle_macro_timsort_perm
    (mk_kmin (arr k) (size k) (filled k) (invert k) None (Nat.min (size k) c))) as Hp.
  simpl in Hp. unfold kmin_wf; simpl. rewrite length_copy_loop, length_replicate. split; [|split; [|split]]; try done.
  - by rewrite Hp.
  - rewrite Hf. symmetry. by apply count_filled_perm.
  - by rewrite Hp.
Qed.

(** One call of the interface on a [kmin_t] (elements are always put with a name). *)
Inductive kmin_step : kmin -> kmin -> Prop :=
  | step_put k i sc id : kmin_step k (fst (kmin_put k i sc (Some id)))
  | step_compact ok k : kmin_step k (fst (kmin_compact ok k))
  | step_invert k b : kmin_step k (kmin_invert k b)
  | step_find ok k s c : kmin_step k (fst (kmin_find tim_sort ok k s c)).

(** Every [kmin_t] that can be built with the interface keeps the invariant: the array
    has [size] cells, [filled] counts the filled ones, a cell is filled iff it is named,
    and the result array has [result_count] cells. *)
Theorem kmin_reachable_wf o1 o2 n k0 k :
  kmin_create o1 o2 n = Some k0 -> rtc kmin_step k0 k -> kmin_wf k.
Proof.
  intros Hc Hr. apply kmin_create_wf in Hc. revert Hc.
  induction Hr as [|k k' k'' [] _ IH]; intros Hk; [done|apply IH..];
    eauto using kmin_put_wf, kmin_compact_wf, kmin_find_wf.
Qed.

(** What a successful find leaves: [arr] sorted, and the result array. *)
Lemma kmin_find_ok k s c :
  kmin_wf k -> filled k = size k -> s < size k ->
  exists k', kmin_find tim_sort true k s c = (k', Z.of_nat (Nat.min (size k) c)) /\
    arr k' ≡ₚ arr k /\ StronglySorted (score_order (invert k)) (arr k') /\
    result_count k' = Nat.min (size k) c /\
    result k' = Some (copy_loop (arr k') (replicate (result_count k') zero_element) s
                        (result_count k' - s)).
Proof.
  intros Hwf Hf Hs. unfold kmin_find. rewrite Hf, Nat.eqb_refl.
  destruct (size k <=? s) eqn:E; bool_hyps; [lia|]. simpl.
  eexists; split; [reflexivity|].
  set (k0 := mk_kmin (arr k) (size k) (filled k) (invert k) None (Nat.min (size k) c)).
  pose proof (handle_macro_timsort_perm k0). pose proof (handle_macro_timsort_sorted k0).
  by repeat split.
Qed.

Lemma kmin_find_split k s c :
  kmin_wf k -> filled k = size k -> s < size k ->
  exists k' top rest,
    kmin_find tim_sort true k s c = (k', Z.of_nat (length top)) /\
    length top = Nat.min (size k) c /\
    top ++ rest ≡ₚ arr k /\
    StronglySorted (score_order (invert k)) (top ++ rest) /\
    (forall i, i < length top -> i < s -> kmin_result_at k' i = Some (0%Z, None)) /\
    (forall i e, top !! i = Some e -> s <= i -> kmin_result_at k' i = Some (score e, ident e)) /\
    (forall i, length top <= i -> kmin_result_at k' i = None).
Proof.
  intros Hwf Hf Hs. destruct (kmin_find_ok k s c Hwf Hf Hs) as (k' & -> & Hp & Hsort & Hrc & Hr).
  assert (length (arr k') = size k) as Hlen by (rewrite Hp; apply Hwf).
  assert (length (take (Nat.min (size k) c) (arr k')) = Nat.min (size k) c) as Hlt
    by (rewrite length_take; lia).
  exists k', (take (Nat.min (size k) c) (arr k')), (drop (Nat.min (size k) c) (arr k')).
  rewrite Hlt, take_drop. repeat split; try done.
  - intros i Hi Hsi. unfold kmin_result_at. rewrite Hr, Hrc.
    destruct (_ <=? i) eqn:E; bool_hyps; [lia|].
    erewrite (list_lookup_total_correct _ _ zero_element); [done|].
    rewrite copy_loop_lookup_lt by done. by apply lookup_replicate_2.
  - intros i e [Hlk Hi]%lookup_take_Some Hsi. unfold kmin_result_at. rewrite Hr, Hrc.
    destruct (_ <=? i) eqn:E; bool_hyps; [lia|].
    erewrite (list_lookup_total_correct _ _ e); [done|].
    rewrite copy_loop_lookup; [done|lia| |lia]. rewrite length_replicate; lia.
  - intros i Hi. unfold kmin_result_at. rewrite Hr, Hrc.
    destruct (_ <=? i) eqn:E; bool_hyps; [done|lia].
Qed.

(** [kmin_find] on a full set succeeds, and the results from [kstart] on are, in order,
    the elements that a sort puts at those positions; no element left out beats one that
    was selected, and the cells below [kstart] are blank. *)
Theorem kmin_find_spec k s c :
  kmin_wf k -> filled k = size k -> s < size k ->
  exists k' top rest,
    kmin_find tim_sort true k s c = (k', Z.of_nat (length top)) /\
    length top = Nat.min (size k) c /\
    top ++ rest ≡ₚ arr k /\
    StronglySorted (score_order (invert k)) (top ++ rest) /\
    (forall i, i < length top -> i < s -> kmin_result_at k' i = Some (0%Z, None)) /\
    (forall i e, top !! i = Some e -> s <= i -> kmin_result_at k' i = Some (score e, ident e)) /\
    (forall i, length top <= i -> kmin_result_at k' i = None).
Proof. apply kmin_find_split. Qed.

(** Compacting and then asking for the [c] best returns the best of the elements that
    were put, whatever cells of the array were left empty. *)
Theorem kmin_compact_find k c :
  kmin_wf k -> 0 < filled k ->
  exists k' k'' top rest,
    kmin_compact true k = (k', true) /\
    kmin_find tim_sort true k' 0 c = (k'', Z.of_nat (length top)) /\
    length top = Nat.min (filled k) c /\
    top ++ rest ≡ₚ filter (fun e => is_filled e = true) (arr k) /\
    StronglySorted (score_order (invert k)) (top ++ rest) /\
    (forall i, kmin_result_at k'' i = (fun e => (score e, ident e)) <$> top !! i).
Proof.
  intros Hwf Hpos. pose proof (kmin_compact_wf true k Hwf) as Hwf'.
  destruct (kmin_compact true k) as [k' b] eqn:Hc. simpl in Hwf'.
  assert (b = true /\ filled k' = size k' /\ size k' = filled k /\ invert k' = invert k /\
          arr k' = filter (fun e => is_filled e = true) (arr k)) as (-> & Hf & Hs & Hi & Ha).
  { unfold kmin_compact in Hc. destruct Hwf as (Hl & Hfl & _).
    destruct (filled k =? size k) eqn:E; bool_hyps; simplify_eq/=.
    - repeat split; try congruence. symmetry. apply filter_length_all. unfold count_filled in *. lia.
    - repeat split; try congruence. rewrite Hfl. rewrite <-Hl, take_ge by done.
      apply compact_loop_filter. }
  destruct (kmin_find_split k' 0 c) as (k'' & top & rest & Hfind & Hlen & Hp & Hso & _ & Hin & Hout);
    [done..|lia|].
  exists k', k'', top, rest. rewrite Hi, Hs, Ha in *. repeat split; try done.
  intros i. destruct (top !! i) eqn:E; simpl.
  - apply Hin; [done|lia].
  - apply Hout. by apply lookup_ge_None.
Qed.
End sorted.

(** ** A sort that meets the interface *)

Definition merge_sort_by (cmp : kmin_element -> kmin_element -> Z) (l : list kmin_element) :
    list kmin_element :=
  @merge_sort _ (fun x y => cmp x y <= 0)%Z (fun x y => Z_le_dec (cmp x y) 0) l.

#[export] Instance merge_sort_by_spec : SortSpec merge_sort_by.
Proof.
  split.
  - intros. apply merge_sort_Permutation.
  - intros cmp l Htot Htrans. unfold merge_sort_by.
    apply @StronglySorted_merge_sort; [intros x y z; apply Htrans|intros x y; apply Htot].
Qed.

(** ** Witnesses *)

Definition kmin3 : kmin :=
  mk_kmin [mk_element true 9 (Some "a"); zero_element; mk_element true 4 (Some "b")]
    3 2 false None 0.

Lemma kmin3_wf : kmin_wf kmin3.
Proof.
  repeat split; try done. repeat constructor; simpl; try done; intros; eauto; by destruct H.
Qed.

Lemma kmin_reachable_wf_witness :
  kmin_wf (fst (kmin_put (mk_kmin (replicate 2 zero_element) 2 0 false None 0) 1 7 (Some "x"))).
Proof.
  apply (kmin_reachable_wf merge_sort_by true true 2
           (mk_kmin (replicate 2 zero_element) 2 0 false None 0)); [reflexivity|].
  eapply rtc_l; [apply step_put|apply rtc_refl].
Defined.

Lemma kmin_compact_find_witness :
  exists k' k'' top rest,
    kmin_compact true kmin3 = (k', true) /\
    kmin_find merge_sort_by true k' 0 1 = (k'', Z.of_nat (length top)) /\
    length top = Nat.min (filled kmin3) 1 /\
    top ++ rest ≡ₚ filter (fun e => is_filled e = true) (arr kmin3) /\
    StronglySorted (score_order (invert kmin3)) (top ++ rest) /\
    (forall i, kmin_result_at k'' i = (fun e => (score e, ident e)) <$> top !! i).
Proof. apply (kmin_compact_find merge_sort_by kmin3 1); [exact kmin3_wf|simpl; lia]. Defined.

Definition kmin2 : kmin :=
  mk_kmin [mk_element true 9 (Some "a"); mk_element true 4 (Some "b")] 2 2 false None 0.

Lemma kmin_find_spec_witness :
  exists k' top rest,
    kmin_find merge_sort_by true kmin2 1 5 = (k', Z.of_nat (length top)) /\
    length top = Nat.min (size kmin2) 5 /\
    top ++ rest ≡ₚ arr kmin2 /\
    StronglySorted (score_order (invert kmin2)) (top ++ rest) /\
    (forall i, i < length top -> i < 1 -> kmin_result_at k' i = Some (0%Z, None)) /\
    (forall i e, top !! i = Some e -> 1 <= i -> kmin_result_at k' i = Some (score e, ident e)) /\
    (forall i, length top <= i -> kmin_result_at k' i = None).
Proof.
  apply (kmin_find_spec merge_sort_by kmin2 1 5); [|reflexivity|simpl; lia].
  repeat split; try done. repeat constructor; simpl; eauto.
Defined.
