(* ===== verification/Table.v ===== *)
(** * String-keyed tables (libpiksi [src/package/libpiksi/libpiksi/src/table.c])

    A [table_t] wraps a uthash table.  uthash links its entries in the order they were
    added and [HASH_ITER] follows that order, so the entries are an association list in
    insertion order; [HASH_FIND_STR] and [HASH_ADD_KEYPTR] are search and append.  The
    finite map the table stands for is [tbl_map], and each operation is proved against it. *)

From S2P Require Import Prelude.

Section table.
Context {D : Type}.

Record table := mk_table {
  max_entries : nat;
  hash_entries : list (string * D);
}.

(** The entry [HASH_FIND_STR] leaves in its out parameter, NULL as [None]. *)
Fixpoint hash_find_str (l : list (string * D)) (key : string) : option D :=
  match l with
  | [] => None
  | (k, d) :: l' => if decide (k = key) then Some d else hash_find_str l' key
  end.

Definition table_create (max : nat) : table := mk_table max [].

Definition table_count (t : table) : nat := length (hash_entries t).

Definition table_put (t : table) (key : string) (data : D) : table * bool :=
  match hash_find_str (hash_entries t) key with
  | Some _ => (t, false)   (* overwrite is not supported *)
  | None =>
      if max_entries t <=? table_count t then (t, false)   (* table entries exhausted *)
      else (mk_table (max_entries t) (hash_entries t ++ [(key, data)]), true)
  end.

Definition table_get (t : table) (key : string) : option D := hash_find_str (hash_entries t) key.

(** [func] gets the key, its index and the caller's context; [false] ends the loop. *)
Fixpoint foreach_loop {C} (func : string -> nat -> C -> C * bool) (l : list (string * D))
    (index : nat) (ctx : C) : C :=
  match l with
  | [] => ctx
  | (k, _) :: l' =>
      let '(ctx', continue) := func k index ctx in
      if continue then foreach_loop func l' (S index) ctx' else ctx'
  end.

Definition table_foreach_key {C} (t : table) (ctx : C) (func : string -> nat -> C -> C * bool) : C :=
  foreach_loop func (hash_entries t) 0 ctx.

(** The data passed to the destroy function (or to [free]), in the order of the calls. *)
Fixpoint table_destroy_loop (l : list (string * D)) : list D :=
  match l with
  | [] => []
  | (_, d) :: l' => d :: table_destroy_loop l'
  end.

Definition table_destroy (t : table) : list D := table_destroy_loop (hash_entries t).

(** ** Invariant and abstraction *)

Definition table_wf (t : table) : Prop :=
  NoDup (hash_entries t).*1 /\ table_count t <= max_entries t.

Definition tbl_map (t : table) : gmap string D := list_to_map (hash_entries t).

Lemma hash_find_map l key : hash_find_str l key = (list_to_map l : gmap string D) !! key.
Proof.
  induction l as [|[k d] l IH]; simpl; [by rewrite lookup_empty|].
  destruct (decide (k = key)) as [->|]; [by rewrite lookup_insert_eq|].
  by rewrite lookup_insert_ne by done.
Qed.

Lemma list_to_map_snoc_fresh (l : list (string * D)) k d :
  (list_to_map l : gmap string D) !! k = None ->
  (list_to_map (l ++ [(k, d)]) : gmap string D) = <[k := d]> (list_to_map l).
Proof.
  induction l as [|[k' d'] l IH]; simpl; intros Hk; [done|].
  destruct (decide (k' = k)) as [->|]; [by rewrite lookup_insert_eq in Hk|].
  rewrite lookup_insert_ne in Hk by done. rewrite IH by done. by rewrite insert_insert_ne by done.
Qed.

Lemma table_count_size t : table_wf t -> table_count t = size (tbl_map t).
Proof.
  intros [Hnd _]. unfold table_count, tbl_map. by rewrite map_size_list_to_map.
Qed.

Lemma table_put_cases t k d :
  table_put t k d =
    if decide (tbl_map t !! k = None /\ table_count t < max_entries t)
    then (mk_table (max_entries t) (hash_entries t ++ [(k, d)]), true) else (t, false).
Proof.
  unfold table_put. rewrite hash_find_map. fold (tbl_map t).
  destruct (tbl_map t !! k) eqn:E.
  - by rewrite decide_False by (intros [? ?]; congruence).
  - destruct (max_entries t <=? table_count t) eqn:E'; bool_hyps.
    + by rewrite decide_False by lia.
    + by rewrite decide_True.
Qed.

Lemma table_put_wf t k d : table_wf t -> table_wf (fst (table_put t k d)).
Proof.
  intros [Hnd Hc]. rewrite table_put_cases. case_decide as Hd; [|done]. destruct Hd as [Hk Hlt].
  split; simpl.
  - rewrite fmap_app. apply NoDup_app; split; [done|]. split; [|by apply NoDup_singleton].
    simpl. intros x Hx ->%list_elem_of_singleton. apply list_elem_of_fmap in Hx as [[k' d'] [-> Hin]].
    unfold tbl_map in Hk. eapply not_elem_of_list_to_map in Hk. apply Hk.
    by apply (list_elem_of_fmap_2 fst) in Hin.
  - unfold table_count in *; simpl. rewrite length_app; simpl. lia.
Qed.

(** ** Refinement of the map *)

(** What a table promises: an insert-only map of bounded size. *)
Definition spec_put (max : nat) (m : gmap string D) (k : string) (d : D) : gmap string D * bool :=
  if decide (m !! k = None /\ size m < max) then (<[k := d]> m, true) else (m, false).

(** On every table the interface can build, [table_put] refines the bounded insert-only
    map: it succeeds exactly when the key is new and there is room, a success adds the
    binding and nothing else, a failure changes nothing, and the invariant is kept. *)
Theorem table_put_refines t k d :
  table_wf t ->
  let '(t', b) := table_put t k d in
  (tbl_map t', b) = spec_put (max_entries t) (tbl_map t) k d /\
  max_entries t' = max_entries t /\ table_wf t' /\
  (forall k', table_get t' k' = tbl_map t' !! k').
Proof.
  intros Hwf. pose proof (table_put_wf t k d Hwf) as Hwf'.
  pose proof (table_count_size t Hwf) as Hsz. rewrite table_put_cases in *.
  unfold spec_put. rewrite <-Hsz. case_decide as Hd; simpl in *.
  - repeat split; try apply Hwf'; [|intros; apply hash_find_map].
    unfold tbl_map in *; simpl. by rewrite list_to_map_snoc_fresh by apply Hd.
  - repeat split; try apply Hwf; intros; apply hash_find_map.
Qed.

(** ** Iteration and destruction *)

Lemma foreach_loop_all {C} (func : string -> nat -> C -> C * bool) l i ctx :
  (forall k j c, (func k j c).2 = true) ->
  foreach_loop func l i ctx =
    foldl (fun c '(j, k) => (func k j c).1) ctx (zip (seq i (length l)) l.*1).
Proof.
  intros Hf. revert i ctx. induction l as [|[k d] l IH]; intros i ctx; simpl; [done|].
  specialize (Hf k i ctx). destruct (func k i ctx) as [c b]; simpl in *. subst. apply IH.
Qed.

Lemma table_destroy_loop_all l : table_destroy_loop l = l.*2.
Proof. induction l as [|[k d] l IH]; simpl; [done|]. by f_equal. Qed.

(** A callback that never stops sees every key exactly once, in insertion order, with
    consecutive indices; and destroying the table releases every datum exactly once. *)
Theorem table_iteration_complete {C} t (func : string -> nat -> C -> C * bool) ctx :
  (forall k j c, (func k j c).2 = true) ->
  table_foreach_key t ctx func =
    foldl (fun c '(j, k) => (func k j c).1) ctx
      (zip (seq 0 (table_count t)) (hash_entries t).*1) /\
  table_destroy t = (hash_entries t).*2.
Proof.
  intros Hf. split; [by apply foreach_loop_all|]. apply table_destroy_loop_all.
Qed.
End table.
Arguments table : clear implicits.
Arguments table_create {D} _.

(** ** Writes through a data pointer

    [table_get] returns the data pointer that was stored; what a client writes through it is the
    data of the entry from then on. *)

Section update.
Context {D : Type}.

Fixpoint hash_alter (f : D -> D) (key : string) (l : list (string * D)) : list (string * D) :=
  match l with
  | [] => []
  | (k, d) :: l' => if decide (k = key) then (k, f d) :: l' else (k, d) :: hash_alter f key l'
  end.

Definition table_update (t : table D) (key : string) (f : D -> D) : table D :=
  mk_table (max_entries t) (hash_alter f key (hash_entries t)).

Lemma hash_alter_keys f key (l : list (string * D)) : (hash_alter f key l).*1 = l.*1.
Proof.
  induction l as [|[k d] l IH]; simpl; [done|]. destruct (decide (k = key)); simpl; [done|]. by f_equal.
Qed.

Lemma hash_alter_ext f g key (l : list (string * D)) :
  (forall d, hash_find_str l key = Some d -> f d = g d) -> hash_alter f key l = hash_alter g key l.
Proof.
  induction l as [|[k d] l IH]; simpl; intros H; [done|].
  destruct (decide (k = key)); [by rewrite H|]. f_equal. by apply IH.
Qed.

Lemma table_update_wf t key f : table_wf t -> table_wf (table_update t key f).
Proof.
  unfold table_wf, table_count. simpl. rewrite hash_alter_keys. intros [? Hc]. split; [done|].
  rewrite <-(length_fmap fst), hash_alter_keys, length_fmap. done.
Qed.

Lemma table_update_count t key f : table_count (table_update t key f) = table_count t.
Proof.
  unfold table_count. simpl. by rewrite <-(length_fmap fst), hash_alter_keys, length_fmap.
Qed.

Lemma table_get_update t key f k :
  table_get (table_update t key f) k = if decide (k = key) then f <$> table_get t key else table_get t k.
Proof.
  unfold table_get; simpl. induction (hash_entries t) as [|[k' d] l IH]; simpl.
  - by destruct (decide (k = key)).
  - destruct (decide (k' = key)) as [->|Hne]; simpl.
    + destruct (decide (k = key)) as [->|]; [by rewrite !decide_True by done|].
      by rewrite !decide_False by congruence.
    + destruct (decide (k' = k)) as [->|]; [by rewrite decide_False|].
      rewrite IH. destruct (decide (k = key)) as [->|]; [|done]. done.
Qed.

Lemma table_get_put (t t' : table D) k d :
  table_put t k d = (t', true) ->
  forall k', table_get t' k' = if decide (k' = k) then Some d else table_get t k'.
Proof.
  rewrite table_put_cases. case_decide as Hd; intros [=<-]. destruct Hd as [Hk _]. intros k'.
  unfold table_get, tbl_map in *. cbn [hash_entries]. rewrite !hash_find_map.
  rewrite list_to_map_snoc_fresh by done. destruct (decide (k' = k)) as [->|].
  - apply lookup_insert_eq.
  - by rewrite lookup_insert_ne by done.
Qed.

Lemma table_put_new (t : table D) k d :
  table_get t k = None ->
  table_put t k d = if decide (table_count t < max_entries t)
                    then (mk_table (max_entries t) (hash_entries t ++ [(k, d)]), true) else (t, false).
Proof.
  intros Hk. rewrite table_put_cases. unfold table_get in Hk. rewrite hash_find_map in Hk.
  repeat case_decide; tauto.
Qed.
End update.

(** ** Witnesses *)

Definition table1 : table nat := fst (table_put (table_create 1) "a" 5).

Lemma table_put_refines_witness :
  let '(t', b) := table_put table1 "b" 6 in
  (tbl_map t', b) = spec_put (max_entries table1) (tbl_map table1) "b" 6 /\
  max_entries t' = max_entries table1 /\ table_wf t' /\
  (forall k', table_get t' k' = tbl_map t' !! k').
Proof.
  apply (table_put_refines table1 "b" 6). split; [|vm_compute; lia].
  apply NoDup_singleton.
Defined.

Lemma table_iteration_complete_witness :
  table_foreach_key table1 [] (fun k i c => (c ++ [(k, i)], true)) =
    foldl (fun c '(j, k) => (c ++ [(k, j)], true).1) []
      (zip (seq 0 (table_count table1)) (hash_entries table1).*1) /\
  table_destroy table1 = (hash_entries table1).*2.
Proof. apply (table_iteration_complete table1); done. Defined.
