(* ===== verification/Crc24q.v ===== *)
(** * CRC-24Q (the checksum of [src/package/rtcm3_in_protocol/src/framer_rtcm3_in.c])

    The framer computes the checksum a byte at a time from a table of 256 words.  The
    reference is the textbook shift register that feeds one bit at a time into the
    polynomial 0x1864CFB; the table-driven loop is proved equal to it. *)

From S2P Require Import Prelude.

Local Open Scope Z_scope.

Definition crc24qtab : list Z :=
  [0x000000; 0x864CFB; 0x8AD50D; 0x0C99F6; 0x93E6E1; 0x15AA1A; 0x1933EC; 0x9F7F17;
   0xA18139; 0x27CDC2; 0x2B5434; 0xAD18CF; 0x3267D8; 0xB42B23; 0xB8B2D5; 0x3EFE2E;
   0xC54E89; 0x430272; 0x4F9B84; 0xC9D77F; 0x56A868; 0xD0E493; 0xDC7D65; 0x5A319E;
   0x64CFB0; 0xE2834B; 0xEE1ABD; 0x685646; 0xF72951; 0x7165AA; 0x7DFC5C; 0xFBB0A7;
   0x0CD1E9; 0x8A9D12; 0x8604E4; 0x00481F; 0x9F3708; 0x197BF3; 0x15E205; 0x93AEFE;
   0xAD50D0; 0x2B1C2B; 0x2785DD; 0xA1C926; 0x3EB631; 0xB8FACA; 0xB4633C; 0x322FC7;
   0xC99F60; 0x4FD39B; 0x434A6D; 0xC50696; 0x5A7981; 0xDC357A; 0xD0AC8C; 0x56E077;
   0x681E59; 0xEE52A2; 0xE2CB54; 0x6487AF; 0xFBF8B8; 0x7DB443; 0x712DB5; 0xF7614E;
   0x19A3D2; 0x9FEF29; 0x9376DF; 0x153A24; 0x8A4533; 0x0C09C8; 0x00903E; 0x86DCC5;
   0xB822EB; 0x3E6E10; 0x32F7E6; 0xB4BB1D; 0x2BC40A; 0xAD88F1; 0xA11107; 0x275DFC;
   0xDCED5B; 0x5AA1A0; 0x563856; 0xD074AD; 0x4F0BBA; 0xC94741; 0xC5DEB7; 0x43924C;
   0x7D6C62; 0xFB2099; 0xF7B96F; 0x71F594; 0xEE8A83; 0x68C678; 0x645F8E; 0xE21375;
   0x15723B; 0x933EC0; 0x9FA736; 0x19EBCD; 0x8694DA; 0x00D821; 0x0C41D7; 0x8A0D2C;
   0xB4F302; 0x32BFF9; 0x3E260F; 0xB86AF4; 0x2715E3; 0xA15918; 0xADC0EE; 0x2B8C15;
   0xD03CB2; 0x567049; 0x5AE9BF; 0xDCA544; 0x43DA53; 0xC596A8; 0xC90F5E; 0x4F43A5;
   0x71BD8B; 0xF7F170; 0xFB6886; 0x7D247D; 0xE25B6A; 0x641791; 0x688E67; 0xEEC29C;
   0x3347A4; 0xB50B5F; 0xB992A9; 0x3FDE52; 0xA0A145; 0x26EDBE; 0x2A7448; 0xAC38B3;
   0x92C69D; 0x148A66; 0x181390; 0x9E5F6B; 0x01207C; 0x876C87; 0x8BF571; 0x0DB98A;
   0xF6092D; 0x7045D6; 0x7CDC20; 0xFA90DB; 0x65EFCC; 0xE3A337; 0xEF3AC1; 0x69763A;
   0x578814; 0xD1C4EF; 0xDD5D19; 0x5B11E2; 0xC46EF5; 0x42220E; 0x4EBBF8; 0xC8F703;
   0x3F964D; 0xB9DAB6; 0xB54340; 0x330FBB; 0xAC70AC; 0x2A3C57; 0x26A5A1; 0xA0E95A;
   0x9E1774; 0x185B8F; 0x14C279; 0x928E82; 0x0DF195; 0x8BBD6E; 0x872498; 0x016863;
   0xFAD8C4; 0x7C943F; 0x700DC9; 0xF64132; 0x693E25; 0xEF72DE; 0xE3EB28; 0x65A7D3;
   0x5B59FD; 0xDD1506; 0xD18CF0; 0x57C00B; 0xC8BF1C; 0x4EF3E7; 0x426A11; 0xC426EA;
   0x2AE476; 0xACA88D; 0xA0317B; 0x267D80; 0xB90297; 0x3F4E6C; 0x33D79A; 0xB59B61;
   0x8B654F; 0x0D29B4; 0x01B042; 0x87FCB9; 0x1883AE; 0x9ECF55; 0x9256A3; 0x141A58;
   0xEFAAFF; 0x69E604; 0x657FF2; 0xE33309; 0x7C4C1E; 0xFA00E5; 0xF69913; 0x70D5E8;
   0x4E2BC6; 0xC8673D; 0xC4FECB; 0x42B230; 0xDDCD27; 0x5B81DC; 0x57182A; 0xD154D1;
   0x26359F; 0xA07964; 0xACE092; 0x2AAC69; 0xB5D37E; 0x339F85; 0x3F0673; 0xB94A88;
   0x87B4A6; 0x01F85D; 0x0D61AB; 0x8B2D50; 0x145247; 0x921EBC; 0x9E874A; 0x18CBB1;
   0xE37B16; 0x6537ED; 0x69AE1B; 0xEFE2E0; 0x709DF7; 0xF6D10C; 0xFA48FA; 0x7C0401;
   0x42FA2F; 0xC4B6D4; 0xC82F22; 0x4E63D9; 0xD11CCE; 0x575035; 0x5BC9C3; 0xDD8538].

(** The body of the loop: one byte. *)
Definition crc24q_byte (crc b : Z) : Z :=
  Z.lxor (Z.land (Z.shiftl crc 8) 0xFFFFFF)
    (crc24qtab !!! Z.to_nat (Z.land (Z.lxor (Z.shiftr crc 16) b) 0xff)).

(** [crc24q(buf, len, crc)] over the [len] bytes given. *)
Definition crc24q (buf : list Z) (crc : Z) : Z := foldl crc24q_byte crc buf.

(** ** The bit-serial reference *)

Definition CRC24Q_POLY : Z := 0x1864CFB.

Definition crc_bit (crc : Z) : Z :=
  let c := Z.shiftl crc 1 in if Z.testbit c 24 then Z.lxor c CRC24Q_POLY else c.

Definition crc_ref_byte (crc b : Z) : Z := Nat.iter 8 crc_bit (Z.lxor crc (Z.shiftl b 16)).

Definition crc_ref (buf : list Z) (crc : Z) : Z := foldl crc_ref_byte crc buf.

(** ** Linearity of the shift register *)

Lemma crc_bit_lxor a b : crc_bit (Z.lxor a b) = Z.lxor (crc_bit a) (crc_bit b).
Proof.
  unfold crc_bit. rewrite Z.shiftl_lxor, Z.lxor_spec.
  destruct (Z.testbit (Z.shiftl a 1) 24), (Z.testbit (Z.shiftl b 1) 24); simpl.
  - rewrite (Z.lxor_comm (Z.shiftl b 1)), <-Z.lxor_assoc, (Z.lxor_assoc (Z.shiftl a 1)).
    by rewrite Z.lxor_nilpotent, Z.lxor_0_r.
  - by rewrite !Z.lxor_assoc, (Z.lxor_comm (Z.shiftl b 1)).
  - by rewrite Z.lxor_assoc.
  - done.
Qed.

Lemma crc_iter_lxor n a b :
  Nat.iter n crc_bit (Z.lxor a b) = Z.lxor (Nat.iter n crc_bit a) (Nat.iter n crc_bit b).
Proof. induction n as [|n IH]; simpl; [done|]. by rewrite IH, crc_bit_lxor. Qed.

Lemma crc_bit_small c : 0 <= c < 2 ^ 23 -> crc_bit c = Z.shiftl c 1.
Proof.
  intros H. unfold crc_bit. replace (Z.testbit (Z.shiftl c 1) 24) with false; [done|].
  rewrite Z.shiftl_spec by lia. symmetry. rewrite Z.testbit_false by lia.
  rewrite Z.div_small; [done|]. change (24 - 1) with 23. lia.
Qed.

Lemma crc_iter_small n c :
  0 <= c < 2 ^ (24 - Z.of_nat n) -> (n <= 24)%nat -> Nat.iter n crc_bit c = Z.shiftl c (Z.of_nat n).
Proof.
  induction n as [|n IH]; intros Hc Hn; simpl Nat.iter; [by rewrite Z.shiftl_0_r|].
  assert (2 ^ (24 - Z.of_nat n) = 2 * 2 ^ (24 - Z.of_nat (S n))) as Hp.
  { rewrite <-Z.pow_succ_r by lia. f_equal. lia. }
  rewrite IH by lia. rewrite crc_bit_small.
  - rewrite Z.shiftl_shiftl by lia. f_equal. lia.
  - rewrite Z.shiftl_mul_pow2 by lia.
    assert (2 ^ 23 = 2 ^ (24 - Z.of_nat (S n)) * 2 ^ Z.of_nat n) as -> .
    { rewrite <-Z.pow_add_r by lia. f_equal. lia. }
    split; [apply Z.mul_nonneg_nonneg; lia|]. apply Z.mul_lt_mono_pos_r; lia.
Qed.

(** Every table entry is the register after its index was shifted in at the top. *)
Lemma crc24qtab_correct :
  forallb (fun h => (crc24qtab !!! h =? Nat.iter 8 crc_bit (Z.shiftl (Z.of_nat h) 16)))
    (seq 0 256) = true.
Proof. vm_compute. reflexivity. Qed.

Lemma crc24qtab_lookup h :
  0 <= h < 256 -> crc24qtab !!! Z.to_nat h = Nat.iter 8 crc_bit (Z.shiftl h 16).
Proof.
  intros Hh. pose proof crc24qtab_correct as H. rewrite forallb_forall in H.
  specialize (H (Z.to_nat h)). rewrite Z2Nat.id in H by lia.
  apply Z.eqb_eq, H. apply in_seq. lia.
Qed.

Lemma land_ff_range x : 0 <= Z.land x 0xff < 256.
Proof. change 0xff with (Z.ones 8). apply (land_ones_range _ 8). lia. Qed.

(** Splitting the register, with the new byte at its top, in high byte and low half-word. *)
Lemma crc_split crc b :
  0 <= crc < 2 ^ 24 -> byte_ok b ->
  Z.lxor crc (Z.shiftl b 16) =
    Z.lxor (Z.shiftl (Z.land (Z.lxor (Z.shiftr crc 16) b) 0xff) 16) (Z.land crc 0xffff).
Proof.
  intros Hc Hb. unfold byte_ok in Hb. apply Z.bits_inj'. intros n Hn.
  change 0xff with (Z.ones 8). change 0xffff with (Z.ones 16).
  rewrite !Z.lxor_spec, Z.land_spec, !Z.shiftl_spec by lia.
  destruct (Z.lt_ge_cases n 16).
  - rewrite !(Z.testbit_neg_r _ (n - 16)) by lia. rewrite Z.ones_spec_low by lia.
    by rewrite andb_true_r, xorb_false_l, xorb_false_r.
  - rewrite Z.land_spec, Z.lxor_spec, Z.shiftr_spec by lia.
    replace (n - 16 + 16) with n by lia. rewrite (Z.ones_spec_high 16) by lia.
    rewrite andb_false_r, xorb_false_r. destruct (Z.lt_ge_cases n 24).
    + rewrite Z.ones_spec_low by lia. by rewrite andb_true_r.
    + rewrite Z.ones_spec_high by lia. rewrite andb_false_r.
      rewrite (testbit_above crc 24), (testbit_above b 8) by lia. done.
Qed.

Lemma crc24q_byte_correct crc b :
  0 <= crc < 2 ^ 24 -> byte_ok b -> crc24q_byte crc b = crc_ref_byte crc b.
Proof.
  intros Hc Hb. unfold crc24q_byte, crc_ref_byte.
  rewrite crc_split by done. rewrite crc_iter_lxor, <-crc24qtab_lookup by apply land_ff_range.
  rewrite crc_iter_small.
  - rewrite Z.lxor_comm. f_equal. apply Z.bits_inj'. intros n Hn.
    change 0xffffff with (Z.ones 24). change 0xffff with (Z.ones 16).
    rewrite Z.land_spec, !Z.shiftl_spec, Z.land_spec by lia. change (Z.of_nat 8) with 8.
    destruct (Z.lt_ge_cases n 8); [by rewrite !(Z.testbit_neg_r _ (n - 8)) by lia|].
    destruct (Z.lt_ge_cases n 24).
    + by rewrite !Z.ones_spec_low by lia.
    + by rewrite !Z.ones_spec_high by lia.
  - change 0xffff with (Z.ones 16). apply (land_ones_range _ 16). lia.
  - lia.
Qed.

Lemma crc24qtab_range :
  forallb (fun h => (0 <=? crc24qtab !!! h) && (crc24qtab !!! h <? 2 ^ 24)) (seq 0 256) = true.
Proof. vm_compute. reflexivity. Qed.

Lemma crc24q_byte_range crc b : 0 <= crc24q_byte crc b < 2 ^ 24.
Proof.
  unfold crc24q_byte. apply lxor_range; [lia| |].
  - change 0xffffff with (Z.ones 24). apply land_ones_range. lia.
  - pose proof (land_ff_range (Z.lxor (Z.shiftr crc 16) b)) as Hr.
    pose proof crc24qtab_range as H. rewrite forallb_forall in H.
    eapply andb_true_iff in H as [H1%Z.leb_le H2%Z.ltb_lt]; [split; eassumption|].
    apply in_seq. lia.
Qed.

Lemma crc24q_range buf crc : 0 <= crc < 2 ^ 24 -> 0 <= crc24q buf crc < 2 ^ 24.
Proof.
  revert crc; induction buf as [|b buf IH]; intros crc Hc; simpl; [done|].
  apply IH, crc24q_byte_range.
Qed.

(** C36: the table-driven CRC of the framer equals the bit-serial CRC-24Q, for every start
    value of the 24-bit register and every byte string; the result is a 24-bit value. *)
Theorem crc24q_correct buf crc :
  0 <= crc < 2 ^ 24 -> bytes_ok buf ->
  crc24q buf crc = crc_ref buf crc /\ 0 <= crc24q buf crc < 2 ^ 24.
Proof.
  intros Hc Hb. split; [|by apply crc24q_range]. revert crc Hc.
  induction Hb as [|b buf Hb _ IH]; intros crc Hc; simpl; [done|].
  rewrite <-crc24q_byte_correct by done. apply IH, crc24q_byte_range.
Qed.

Lemma crc24q_correct_witness :
  crc24q [0xD3; 0; 1; 7] 0 = crc_ref [0xD3; 0; 1; 7] 0 /\ 0 <= crc24q [0xD3; 0; 1; 7] 0 < 2 ^ 24.
Proof.
  apply (crc24q_correct [0xD3; 0; 1; 7] 0); [lia|].
  repeat constructor; unfold byte_ok; lia.
Defined.
