(* ===== verification/FramerRtcm3.v ===== *)
(** * RTCM3 framer ([src/package/rtcm3_in_protocol/src/framer_rtcm3_in.c])

    The framer gets the input in chunks of any size and hands out complete, checksummed
    RTCM3 frames.  Its state is a 1029-byte buffer with a fill level and two pending
    requests: bytes to remove from the front and bytes to refill at the end.  The array is
    modelled with its 1029 cells; an access outside it is [Undef].

    The reference is [next], a structural scan over an unbounded byte stream.  The framer is
    proved to be memory safe, to return on every input, and to compute the same frames as
    the scan of the concatenated input whatever the chunking. *)

From S2P Require Import Prelude Crc24q.

(** ** State *)

Definition RTCM3_PREAMBLE : Z := 0xD3.
Definition RTCM3_HEADER_LENGTH : nat := 3.
Definition RTCM3_FOOTER_LENGTH : nat := 3.
Definition RTCM3_FRAME_SIZE_MAX : nat := 1029.

Record framer_rtcm3_state := mk_rtcm3 {
  buffer : list Z;
  buffer_length : nat;
  refill_count : nat;
  remove_count : nat;
}.

(** [mem] is what [malloc] returns: [None] for NULL, else the cells of the buffer. *)
Definition framer_create (mem : option (list Z)) : option framer_rtcm3_state :=
  match mem with
  | None => None
  | Some buf => Some (mk_rtcm3 buf 0 0 0)
  end.

(** ** One round of the loop of [framer_process] *)

(** [while (offset < s->buffer_length) { if (...) break; offset++; }], [n] bytes left. *)
Fixpoint find_preamble (n : nat) (buf : list Z) (offset : nat) : outcome nat :=
  match n with
  | O => Ret offset
  | S n' =>
      b ← load buf offset;
      if (b =? RTCM3_PREAMBLE)%Z then Ret offset else find_preamble n' buf (S offset)
  end.

Definition remove_phase (s : framer_rtcm3_state) : outcome framer_rtcm3_state :=
  if remove_count s =? 0 then Ret s
  else
    offset ← find_preamble (buffer_length s - remove_count s) (buffer s) (remove_count s);
    if offset <? buffer_length s then
      src ← slice (buffer s) offset (buffer_length s - offset);
      buf ← memcpy (buffer s) 0 src;
      Ret (mk_rtcm3 buf (buffer_length s - offset) (refill_count s) 0)
    else Ret (mk_rtcm3 (buffer s) 0 (refill_count s) 0).

(** The boolean is the early return for lack of data. *)
Definition refill_phase (s : framer_rtcm3_state) (data : list Z) (data_offset : nat) :
    outcome (framer_rtcm3_state * nat * bool) :=
  if refill_count s =? 0 then Ret (s, data_offset, false)
  else
    let available := length data - data_offset in
    let count := if available <? refill_count s then available else refill_count s in
    src ← slice data data_offset count;
    buf ← memcpy (buffer s) (buffer_length s) src;
    let s' := mk_rtcm3 buf (buffer_length s + count) (refill_count s - count) (remove_count s) in
    Ret (s', data_offset + count, negb (refill_count s' =? 0)).

Definition request_refill (s : framer_rtcm3_state) (n : nat) : framer_rtcm3_state :=
  mk_rtcm3 (buffer s) (buffer_length s) n (remove_count s).

Definition request_remove (s : framer_rtcm3_state) (n : nat) : framer_rtcm3_state :=
  mk_rtcm3 (buffer s) (buffer_length s) (refill_count s) n.

Inductive round :=
  | Continue (s : framer_rtcm3_state) (data_offset : nat)
  | Return (s : framer_rtcm3_state) (data_offset : nat) (frame : option (list Z)).

Definition framer_round (s : framer_rtcm3_state) (data : list Z) (data_offset : nat) :
    outcome round :=
  s ← remove_phase s;
  r ← refill_phase s data data_offset;
  let '(s, data_offset, starved) := r in
  if (starved : bool) then Ret (Return s data_offset None)
  else if buffer_length s <? RTCM3_HEADER_LENGTH then
    Ret (Continue (request_refill s (RTCM3_HEADER_LENGTH - buffer_length s)) data_offset)
  else
    b0 ← load (buffer s) 0;
    if negb (b0 =? RTCM3_PREAMBLE)%Z then Ret (Continue (request_remove s 1) data_offset)
    else
      b1 ← load (buffer s) 1;
      b2 ← load (buffer s) 2;
      let message_length := Z.to_nat (Z.lor (Z.shiftl (Z.land b1 0x3) 8) b2) in
      let total_length := RTCM3_HEADER_LENGTH + message_length + RTCM3_FOOTER_LENGTH in
      if buffer_length s <? total_length then
        Ret (Continue (request_refill s (total_length - buffer_length s)) data_offset)
      else
        body ← slice (buffer s) 0 (total_length - RTCM3_FOOTER_LENGTH);
        c0 ← load (buffer s) (total_length - 3);
        c1 ← load (buffer s) (total_length - 2);
        c2 ← load (buffer s) (total_length - 1);
        let computed_crc := crc24q body 0 in
        let frame_crc := Z.lor (Z.lor (Z.shiftl c0 16) (Z.shiftl c1 8)) (Z.shiftl c2 0) in
        if negb (frame_crc =? computed_crc)%Z then
          Ret (Continue (request_remove s 1) data_offset)
        else
          frame ← slice (buffer s) 0 total_length;
          Ret (Return (request_remove s total_length) data_offset (Some frame)).

(** ** [framer_process]

    The result is the new state, the number of bytes of [data] consumed, and the frame
    ([None] for NULL).  The fuel bounds the rounds; [framer_process_refines] shows that it
    never runs out. *)

Fixpoint framer_loop (fuel : nat) (s : framer_rtcm3_state) (data : list Z) (data_offset : nat) :
    outcome (framer_rtcm3_state * nat * option (list Z)) :=
  match fuel with
  | O => Diverge
  | S fuel' =>
      r ← framer_round s data data_offset;
      match r with
      | Continue s' off' => framer_loop fuel' s' data off'
      | Return s' off' frame => Ret (s', off', frame)
      end
  end.

Definition framer_fuel (s : framer_rtcm3_state) (data : list Z) : nat :=
  2 * (buffer_length s + length data) + 2 * length data + 2.

Definition framer_process (s : framer_rtcm3_state) (data : list Z) :
    outcome (framer_rtcm3_state * nat * option (list Z)) :=
  framer_loop (framer_fuel s data) s data 0.

(** ** Reference: scanning a byte stream *)

(** Length of the frame that starts at the head of [l]. *)
Definition frame_len (l : list Z) : nat :=
  3 + Z.to_nat (Z.lor (Z.shiftl (Z.land (l !!! 1) 0x3) 8) (l !!! 2)) + 3.

Definition trailer (l : list Z) (n : nat) : Z :=
  Z.lor (Z.lor (Z.shiftl (l !!! (n - 3)) 16) (Z.shiftl (l !!! (n - 2)) 8))
    (Z.shiftl (l !!! (n - 1)) 0).

(** The first frame of the stream and what follows it, [None] when there is none yet. *)
Fixpoint next (l : list Z) : option (list Z * list Z) :=
  match l with
  | [] => None
  | b :: rest =>
      if negb (b =? RTCM3_PREAMBLE)%Z then next rest
      else if length l <? 3 then None
      else if length l <? frame_len l then None
      else if (trailer l (frame_len l) =? crc24q (take (frame_len l - 3) l) 0)%Z
           then Some (take (frame_len l) l, drop (frame_len l) l)
           else next rest
  end.

(** ** Facts about the scan *)

Lemma next_short l : length l < 3 -> next l = None.
Proof.
  induction l as [|b l IH]; intros Hl; [done|].
  cbn [next]. destruct (negb _); [apply IH; simpl in *; lia|].
  by replace (length (b :: l) <? 3) with true by (symmetry; by apply Nat.ltb_lt).
Qed.

Lemma next_skip pre l : Forall (fun b => b <> RTCM3_PREAMBLE) pre -> next (pre ++ l) = next l.
Proof.
  induction 1 as [|b pre Hb _ IH]; [done|]. rewrite <-app_comm_cons. cbn [next].
  destruct (b =? RTCM3_PREAMBLE)%Z eqn:E; bool_hyps; done.
Qed.

Lemma lookup_total_app_l' (l k : list Z) i : i < length l -> (l ++ k) !!! i = l !!! i.
Proof. apply lookup_total_app_l. Qed.

Lemma frame_len_app l k : 3 <= length l -> frame_len (l ++ k) = frame_len l.
Proof. intros H. unfold frame_len. by rewrite !lookup_total_app_l' by lia. Qed.

Lemma trailer_app l k n : 3 <= n <= length l -> trailer (l ++ k) n = trailer l n.
Proof. intros H. unfold trailer. by rewrite !lookup_total_app_l' by lia. Qed.

Lemma frame_len_ge l : 6 <= frame_len l.
Proof. unfold frame_len. lia. Qed.

(** More input never changes a frame that was already complete. *)
Lemma next_app l k f r : next l = Some (f, r) -> next (l ++ k) = Some (f, r ++ k).
Proof.
  induction l as [|b l IH]; [done|]. intros H. rewrite <-app_comm_cons. cbn [next] in *.
  destruct (negb _); [by apply IH|].
  destruct (length (b :: l) <? 3) eqn:E3; [done|]. bool_hyps.
  destruct (length (b :: l) <? frame_len (b :: l)) eqn:Ef; [done|]. bool_hyps.
  pose proof (frame_len_ge (b :: l)).
  rewrite app_comm_cons, frame_len_app, trailer_app by lia.
  replace (length ((b :: l) ++ k) <? 3) with false
    by (symmetry; apply Nat.ltb_ge; rewrite length_app; lia).
  replace (length ((b :: l) ++ k) <? frame_len (b :: l)) with false
    by (symmetry; apply Nat.ltb_ge; rewrite length_app; lia).
  rewrite !take_app_le by lia. destruct (_ =? _)%Z; [|by apply IH].
  simplify_eq. by rewrite drop_app_le by lia.
Qed.

(** ** Invariant *)

(** The bytes in the buffer, and those that are still to be scanned. *)
Definition content (s : framer_rtcm3_state) : list Z := take (buffer_length s) (buffer s).
Definition pend (s : framer_rtcm3_state) : list Z := drop (remove_count s) (content s).

(** What an outstanding refill waits for: a header, or the rest of the frame that starts
    the buffer. *)
Definition waiting (s : framer_rtcm3_state) : Prop :=
  refill_count s = 0 \/
  buffer_length s + refill_count s = 3 \/
  (3 <= buffer_length s /\ head (content s) = Some RTCM3_PREAMBLE /\
   buffer_length s + refill_count s = frame_len (content s)).

Record framer_inv (s : framer_rtcm3_state) : Prop := {
  inv_length : length (buffer s) = RTCM3_FRAME_SIZE_MAX;
  inv_bytes : bytes_ok (buffer s);
  inv_fill : buffer_length s + refill_count s <= RTCM3_FRAME_SIZE_MAX;
  inv_remove : remove_count s <= buffer_length s;
  inv_one : remove_count s = 0 \/ refill_count s = 0;
  inv_waiting : waiting s;
}.

Lemma length_content s : framer_inv s -> length (content s) = buffer_length s.
Proof. intros []. unfold content. rewrite length_take. lia. Qed.

Lemma load_content s i :
  framer_inv s -> i < buffer_length s -> load (buffer s) i = Ret (content s !!! i).
Proof.
  intros Hi Hlt. pose proof (length_content s Hi). apply load_Ret.
  rewrite <-(lookup_take_lt _ (buffer_length s)) by done.
  apply list_lookup_lookup_total_lt. unfold content in *. lia.
Qed.

Lemma slice_content s n :
  framer_inv s -> n <= buffer_length s -> slice (buffer s) 0 n = Ret (take n (content s)).
Proof.
  intros Hi Hn. destruct Hi. rewrite slice_ok by lia. rewrite drop_0.
  unfold content. by rewrite take_take, Nat.min_l by lia.
Qed.

Lemma message_length_bound b1 b2 :
  byte_ok b2 -> (Z.to_nat (Z.lor (Z.shiftl (Z.land b1 0x3) 8) b2) <= 1023)%nat.
Proof.
  intros Hb. assert (0 <= Z.lor (Z.shiftl (Z.land b1 0x3) 8) b2 < 2 ^ 10)%Z; [|lia].
  apply lor_range; [lia| |unfold byte_ok in Hb; lia].
  pose proof (land_ones_range b1 2 ltac:(lia)) as H. change (Z.ones 2) with 3%Z in H.
  rewrite Z.shiftl_mul_pow2 by lia. change 0x3%Z with 3%Z. lia.
Qed.

Lemma content_byte s i : framer_inv s -> i < buffer_length s -> byte_ok (content s !!! i).
Proof.
  intros Hi Hlt. pose proof (length_content s Hi).
  assert (bytes_ok (content s)) as Hb by apply Forall_take, Hi.
  eapply Forall_lookup_1; [exact Hb|]. apply list_lookup_lookup_total_lt. lia.
Qed.

Lemma frame_len_bound s : framer_inv s -> 3 <= buffer_length s -> frame_len (content s) <= 1029.
Proof.
  intros Hi Hl. unfold frame_len.
  pose proof (message_length_bound (content s !!! 1) (content s !!! 2)
                (content_byte s 2 Hi ltac:(lia))). lia.
Qed.

(** ** The phases *)

Lemma find_preamble_spec n buf off :
  off + n <= length buf ->
  exists o pre, find_preamble n buf off = Ret o /\ off <= o <= off + n /\
    take n (drop off buf) = pre ++ take (off + n - o) (drop o buf) /\
    Forall (fun b => b <> RTCM3_PREAMBLE) pre.
Proof.
  revert off; induction n as [|n IH]; intros off Hlen; cbn [find_preamble].
  - exists off, []. repeat split; try lia; [|constructor]. by rewrite Nat.add_0_r, Nat.sub_diag.
  - destruct (lookup_lt_is_Some_2 buf off) as [b Hb]; [lia|].
    unfold load. rewrite Hb. simpl. destruct (b =? RTCM3_PREAMBLE)%Z eqn:E; bool_hyps.
    + exists off, []. repeat split; try lia; [|constructor]. simpl. by replace (off + S n - off) with (S n) by lia.
    + destruct (IH (S off)) as (o & pre & Hf & Ho & Ht & Hp); [lia|].
      exists o, (b :: pre). repeat split; try done; try lia; [|by constructor].
      rewrite (drop_S _ b) by done. simpl. rewrite Ht.
      by replace (off + S n - o) with (S off + n - o) by lia.
Qed.

Lemma remove_phase_spec s :
  framer_inv s ->
  exists s', remove_phase s = Ret s' /\ framer_inv s' /\ remove_count s' = 0 /\
    refill_count s' = refill_count s /\
    buffer_length s' <= buffer_length s - remove_count s /\
    (forall more, next (content s' ++ more) = next (pend s ++ more)).
Proof.
  intros Hi. destruct (Hi) as [Hl Hb Hf Hr Ho Hw]. unfold remove_phase.
  destruct (remove_count s =? 0) eqn:E0; bool_hyps.
  { exists s. repeat split; try done; [lia|]. intros. unfold pend. by rewrite E0, drop_0. }
  destruct Ho as [|Hrf]; [lia|].
  destruct (find_preamble_spec (buffer_length s - remove_count s) (buffer s) (remove_count s))
    as (o & pre & -> & Hob & Ht & Hpre); [lia|]. simpl.
  assert (pend s = pre ++ take (buffer_length s - o) (drop o (buffer s))) as Hpend.
  { replace (remove_count s + (buffer_length s - remove_count s)) with (buffer_length s) in Ht by lia.
    rewrite <-Ht, take_drop_commute. unfold pend, content. do 2 f_equal. lia. }
  destruct (o <? buffer_length s) eqn:Eo; bool_hyps.
  - rewrite slice_ok by lia. simpl. rewrite memcpy_ok by (rewrite length_take, length_drop; lia). simpl.
    set (src := take (buffer_length s - o) (drop o (buffer s))) in *.
    assert (length src = buffer_length s - o) as Hsrc by (subst src; rewrite length_take, length_drop; lia).
    eexists; split; [reflexivity|]. rewrite Hsrc. split; [|split; [|split; [|split]]]; simpl; try done; try lia.
    + constructor; simpl; try lia.
      * rewrite length_app, length_drop. lia.
      * apply bytes_ok_app. split; [by apply Forall_take, Forall_drop|by apply Forall_drop].
      * by left.
    + intros more. unfold content; simpl. rewrite take_app_length' by done.
      rewrite Hpend, <-app_assoc. by rewrite (next_skip pre).
  - eexists; split; [reflexivity|]. split; [|split; [|split; [|split]]]; simpl; try done; try lia.
    + constructor; simpl; try done; try lia; by left.
    + intros more. unfold content; simpl. rewrite Hpend.
      replace (buffer_length s - o) with 0 by lia. rewrite take_0, app_nil_r. by rewrite (next_skip pre).
Qed.

Lemma refill_phase_spec s data off :
  framer_inv s -> remove_count s = 0 -> off <= length data -> bytes_ok data ->
  exists s' off' starved, refill_phase s data off = Ret (s', off', starved) /\
    framer_inv s' /\ remove_count s' = 0 /\ off <= off' <= length data /\
    content s' = content s ++ take (off' - off) (drop off data) /\
    buffer_length s' = buffer_length s + (off' - off) /\
    (if starved : bool then off' = length data /\ 0 < refill_count s'
     else refill_count s' = 0 /\ (0 < refill_count s -> off < off')).
Proof.
  intros Hi Hrm Hoff Hdb. destruct (Hi) as [Hl Hb Hf Hr Ho Hw]. unfold refill_phase.
  destruct (refill_count s =? 0) eqn:E0; bool_hyps.
  { exists s, off, false. rewrite Nat.sub_diag, take_0, app_nil_r. repeat split; try done; lia. }
  set (cnt := if _ <? _ then _ else _).
  assert (cnt <= refill_count s /\ off + cnt <= length data /\
          (cnt < refill_count s -> off + cnt = length data)) as (Hc1 & Hc2 & Hc3)
    by (subst cnt; case_match; bool_hyps; lia).
  clearbody cnt. rewrite slice_ok by lia. simpl. set (src := take cnt (drop off data)).
  assert (length src = cnt) as Hsrc by (subst src; rewrite length_take, length_drop; lia).
  rewrite memcpy_ok by lia. simpl.
  eexists _, _, _; split; [reflexivity|].
  set (s' := mk_rtcm3 _ _ _ _).
  assert (content s' = content s ++ src) as Hcont.
  { unfold content; simpl. rewrite <-Hsrc. apply take_memcpy. lia. }
  assert (framer_inv s') as Hi'.
  { subst s'. constructor; simpl; try lia.
    - rewrite length_memcpy; lia.
    - rewrite !bytes_ok_app. split; [by apply Forall_take|]. split; [|by apply Forall_drop].
      by apply Forall_take, Forall_drop.
    - destruct Hw as [?|[?|(Hge & Hhd & Heq)]]; [lia|right; left; simpl; lia|].
      right; right; simpl. split; [lia|]. rewrite Hcont. pose proof (length_content s Hi).
      rewrite frame_len_app by lia. split; [|lia].
      destruct (content s); [done|by simplify_eq/=]. }
  replace (off + cnt - off) with cnt by lia.
  split; [done|]. split; [done|]. split; [lia|]. split; [done|]. split; [done|].
  simpl. destruct (refill_count s - cnt =? 0) eqn:E; bool_hyps; simpl; lia.
Qed.

(** ** One round against the scan *)

(** Progress measure of the loop: bytes not yet discarded, bytes not yet read, and one more
    when no request is pending. *)
Definition measure (s : framer_rtcm3_state) (data : list Z) (off : nat) : nat :=
  2 * (buffer_length s + (length data - off)) + 2 * (length data - off) +
  (if (remove_count s =? 0) && (refill_count s =? 0) then 1 else 0).

Definition round_ok (s : framer_rtcm3_state) (data : list Z) (off : nat) (r : round) : Prop :=
  match r with
  | Continue s' off' =>
      framer_inv s' /\ off <= off' <= length data /\ measure s' data off' < measure s data off /\
      (forall more, next (pend s' ++ drop off' data ++ more) = next (pend s ++ drop off data ++ more))
  | Return s' off' (Some f) =>
      framer_inv s' /\ off <= off' <= length data /\
      (forall more, next (pend s ++ drop off data ++ more) = Some (f, pend s' ++ drop off' data ++ more))
  | Return s' off' None =>
      framer_inv s' /\ off' = length data /\ next (pend s') = None /\
      (forall more, next (pend s' ++ more) = next (pend s ++ drop off data ++ more))
  end.

(** The buffer after both phases is the stream seen so far. *)
Lemma stream_after_phases s0 s1 s2 data off off' :
  (forall more, next (content s1 ++ more) = next (pend s0 ++ more)) ->
  content s2 = content s1 ++ take (off' - off) (drop off data) ->
  off <= off' <= length data ->
  forall more, next (content s2 ++ drop off' data ++ more) = next (pend s0 ++ drop off data ++ more).
Proof.
  intros Hn Hc Ho more. rewrite <-Hn, Hc, <-app_assoc. do 2 f_equal.
  rewrite app_assoc. f_equal. rewrite <-(take_drop (off' - off) (drop off data)) at 2.
  f_equal. rewrite drop_drop. f_equal. lia.
Qed.

Lemma pend_no_remove s : remove_count s = 0 -> pend s = content s.
Proof. intros H. unfold pend. by rewrite H, drop_0. Qed.

(** A buffer that waits for more bytes holds no complete frame. *)
Lemma waiting_next s :
  framer_inv s -> 0 < refill_count s -> next (content s) = None.
Proof.
  intros Hi Hr. pose proof (length_content s Hi) as Hlen.
  destruct (inv_waiting s Hi) as [?|[?|(Hge & Hhd & Heq)]]; [lia|apply next_short; lia|].
  destruct (content s) as [|b l] eqn:Hc; [done|]. injection Hhd as ->.
  cbn [next]. rewrite Z.eqb_refl. cbn [negb]. destruct (_ <? 3); [done|].
  by rewrite (proj2 (Nat.ltb_lt _ _)) by lia.
Qed.

Lemma inv_request_refill s n :
  framer_inv s -> remove_count s = 0 -> buffer_length s + n <= RTCM3_FRAME_SIZE_MAX ->
  (n = 0 \/ buffer_length s + n = 3 \/
   (3 <= buffer_length s /\ head (content s) = Some RTCM3_PREAMBLE /\
    buffer_length s + n = frame_len (content s))) ->
  framer_inv (request_refill s n).
Proof. intros [] H1 H2 H3. constructor; simpl; done || lia. Qed.

Lemma inv_request_remove s n :
  framer_inv s -> refill_count s = 0 -> n <= buffer_length s -> framer_inv (request_remove s n).
Proof.
  intros [] H1 H2. constructor; simpl; try (done || lia).
Qed.

Lemma measure_decreases s s1 s2 data off off' :
  framer_inv s -> off <= off' <= length data ->
  refill_count s1 = refill_count s -> buffer_length s1 <= buffer_length s - remove_count s ->
  buffer_length s2 = buffer_length s1 + (off' - off) -> (0 < refill_count s1 -> off < off') ->
  2 * (buffer_length s2 + (length data - off')) + 2 * (length data - off') < measure s data off.
Proof.
  intros [_ _ _ Hr _ _] Ho Hrf Hb1 Hb2 Hlt. unfold measure.
  destruct (remove_count s =? 0) eqn:E1, (refill_count s =? 0) eqn:E2; bool_hyps; simpl; lia.
Qed.

Lemma measure_pending s data off :
  0 < remove_count s + refill_count s ->
  measure s data off = 2 * (buffer_length s + (length data - off)) + 2 * (length data - off).
Proof.
  intros H. unfold measure.
  destruct (remove_count s =? 0) eqn:E1, (refill_count s =? 0) eqn:E2; bool_hyps; simpl; lia.
Qed.

(** The head of the buffer is not a frame: dropping one byte does not change the scan. *)
Lemma next_drop_1 l more :
  3 <= length l ->
  (l !!! 0 <> RTCM3_PREAMBLE \/
   frame_len l <= length l /\
   trailer l (frame_len l) <> crc24q (take (frame_len l - 3) l) 0) ->
  next (drop 1 l ++ more) = next (l ++ more).
Proof.
  intros Hl Hbad. destruct l as [|b l]; [simpl in Hl; lia|].
  change (drop 1 (b :: l)) with l. rewrite <-app_comm_cons. cbn [next].
  destruct (b =? RTCM3_PREAMBLE)%Z eqn:E; bool_hyps; [|done]. cbn [negb].
  destruct Hbad as [?|[Hf Ht]]; [done|].
  pose proof (frame_len_ge (b :: l)).
  rewrite app_comm_cons, frame_len_app, trailer_app by lia. rewrite length_app.
  rewrite !take_app_le by lia.
  rewrite !(proj2 (Nat.ltb_ge _ _)) by lia.
  by rewrite (proj2 (Z.eqb_neq _ _)) by done.
Qed.

(** The head of the buffer is a frame. *)
Lemma next_frame l more :
  3 <= length l -> l !!! 0 = RTCM3_PREAMBLE -> frame_len l <= length l ->
  trailer l (frame_len l) = crc24q (take (frame_len l - 3) l) 0 ->
  next (l ++ more) = Some (take (frame_len l) l, drop (frame_len l) l ++ more).
Proof.
  intros Hl H0 Hf Ht. rewrite (next_app l more (take (frame_len l) l) (drop (frame_len l) l)); [done|].
  destruct l as [|b l]; [simpl in Hl; lia|]. unfold lookup_total in H0; simpl in H0. subst b.
  cbn [next]. rewrite Z.eqb_refl. cbn [negb].
  rewrite !(proj2 (Nat.ltb_ge _ _)) by lia. by rewrite Ht, Z.eqb_refl.
Qed.

(** The state [s2] and offset [off'] with which a round of [s] at [off] leaves its two
    phases when it was not starved. *)
Record phases_done (s s2 : framer_rtcm3_state) (data : list Z) (off off' : nat) : Prop := {
  pd_inv : framer_inv s2;
  pd_remove : remove_count s2 = 0;
  pd_refill : refill_count s2 = 0;
  pd_off : off <= off' <= length data;
  pd_measure :
    2 * (buffer_length s2 + (length data - off')) + 2 * (length data - off') < measure s data off;
  pd_stream more :
    next (content s2 ++ drop off' data ++ more) = next (pend s ++ drop off data ++ more);
}.

Lemma round_refill_ok s s2 data off off' n :
  phases_done s s2 data off off' -> framer_inv (request_refill s2 n) -> 0 < n ->
  round_ok s data off (Continue (request_refill s2 n) off').
Proof.
  intros [] Hin Hn. simpl. rewrite measure_pending by (simpl; lia). split_and!; try done; try lia.
  intros more. by rewrite pend_no_remove.
Qed.

Lemma round_remove_ok s s2 data off off' :
  phases_done s s2 data off off' -> 3 <= buffer_length s2 ->
  (forall more, next (drop 1 (content s2) ++ more) = next (content s2 ++ more)) ->
  round_ok s data off (Continue (request_remove s2 1) off').
Proof.
  intros [] Hl3 Hd. simpl. rewrite measure_pending by (simpl; lia).
  split_and!; try done; try lia; [apply inv_request_remove; [done..|lia]|].
  intros more. unfold pend; simpl. change (content (request_remove s2 1)) with (content s2).
  by rewrite Hd.
Qed.

(** The decoding part of a round, after both phases. *)
Lemma framer_decode_spec s s2 data off off' :
  phases_done s s2 data off off' -> 3 <= buffer_length s2 ->
  content s2 !!! 0 = RTCM3_PREAMBLE -> frame_len (content s2) <= buffer_length s2 ->
  round_ok s data off
    (if negb (trailer (content s2) (frame_len (content s2)) =?
              crc24q (take (frame_len (content s2) - 3) (content s2)) 0)%Z
     then Continue (request_remove s2 1) off'
     else Return (request_remove s2 (frame_len (content s2))) off'
            (Some (take (frame_len (content s2)) (content s2)))).
Proof.
  intros Hpd E3 Eb Ef. pose proof (length_content s2 (pd_inv _ _ _ _ _ Hpd)) as Hlen2.
  destruct (_ =? _)%Z eqn:Ec; bool_hyps; cbn [negb].
  - destruct Hpd. split; [apply inv_request_remove; [done..|lia]|]. split; [done|]. intros more.
    rewrite <-pd_stream0. by rewrite next_frame by (done || lia).
  - apply round_remove_ok; [done..|]. intros more. apply next_drop_1; [lia|right]. split; [lia|done].
Qed.

Lemma framer_round_spec s data off :
  framer_inv s -> off <= length data -> bytes_ok data ->
  exists r, framer_round s data off = Ret r /\ round_ok s data off r.
Proof.
  intros Hi Hoff Hdb. unfold framer_round.
  destruct (remove_phase_spec s Hi) as (s1 & -> & Hi1 & Hrm1 & Hrf1 & Hbl1 & Hn1).
  cbn [mbind outcome_bind].
  destruct (refill_phase_spec s1 data off Hi1 Hrm1 Hoff Hdb)
    as (s2 & off' & starved & -> & Hi2 & Hrm2 & Hoff' & Hc2 & Hbl2 & Hst). cbn [mbind outcome_bind].
  pose proof (stream_after_phases s s1 s2 data off off' Hn1 Hc2 Hoff') as Hstream.
  pose proof (length_content s2 Hi2) as Hlen2. destruct starved.
  { destruct Hst as [-> Hpos]. eexists; split; [reflexivity|]. simpl.
    rewrite pend_no_remove by done. split; [done|]. split; [done|]. split; [by apply waiting_next|].
    intros more. rewrite <-Hstream. by rewrite drop_ge by lia. }
  destruct Hst as [Hrf2 Hlt].
  pose proof (measure_decreases s s1 s2 data off off' Hi Hoff' Hrf1 Hbl1 Hbl2 Hlt) as Hm.
  assert (phases_done s s2 data off off') as Hpd by done.
  destruct (buffer_length s2 <? RTCM3_HEADER_LENGTH) eqn:E3; bool_hyps; unfold RTCM3_HEADER_LENGTH in *.
  { eexists; split; [reflexivity|]. apply round_refill_ok; [done| |lia].
    apply inv_request_refill; [done..| |]; unfold RTCM3_FRAME_SIZE_MAX; lia. }
  rewrite (load_content s2 0) by (done || lia). cbn [mbind outcome_bind].
  destruct (content s2 !!! 0%nat =? RTCM3_PREAMBLE)%Z eqn:Eb; bool_hyps; cbn [negb].
  2: { eexists; split; [reflexivity|]. apply round_remove_ok; [done..|]. intros more.
       apply next_drop_1; [lia|by left]. }
  rewrite (load_content s2 1), (load_content s2 2) by (done || lia). cbn [mbind outcome_bind].
  change (3 + Z.to_nat _ + RTCM3_FOOTER_LENGTH) with (frame_len (content s2)).
  pose proof (frame_len_bound s2 Hi2 E3). pose proof (frame_len_ge (content s2)).
  destruct (buffer_length s2 <? frame_len (content s2)) eqn:Ef; bool_hyps.
  { eexists; split; [reflexivity|]. apply round_refill_ok; [done| |lia].
    apply inv_request_refill; [done..|unfold RTCM3_FRAME_SIZE_MAX; lia|]. right; right.
    split; [done|]. split; [|lia]. destruct (content s2) as [|b l]; [simpl in *; lia|].
    unfold lookup_total in Eb; simpl in Eb. by subst. }
  unfold RTCM3_FOOTER_LENGTH. rewrite slice_content by (done || lia). cbn [mbind outcome_bind].
  rewrite !(load_content s2) by (done || lia). cbn [mbind outcome_bind].
  rewrite slice_content by (done || lia). cbn [mbind outcome_bind].
  pose proof (framer_decode_spec s s2 data off off' Hpd E3 Eb Ef) as Hdec. unfold trailer in Hdec.
  destruct (negb _); eexists; (split; [reflexivity|exact Hdec]).
Qed.

(** ** [framer_process] against the scan *)

Definition process_ok (s : framer_rtcm3_state) (data : list Z) (off : nat)
    (r : framer_rtcm3_state * nat * option (list Z)) : Prop :=
  let '(s', n, frame) := r in
  framer_inv s' /\ off <= n <= length data /\
  match frame with
  | Some f =>
      forall more, next (pend s ++ drop off data ++ more) = Some (f, pend s' ++ drop n data ++ more)
  | None =>
      n = length data /\ next (pend s') = None /\
      (forall more, next (pend s' ++ more) = next (pend s ++ drop off data ++ more))
  end.

Lemma framer_loop_spec fuel s data off :
  framer_inv s -> off <= length data -> bytes_ok data -> measure s data off < fuel ->
  exists r, framer_loop fuel s data off = Ret r /\ process_ok s data off r.
Proof.
  revert s off; induction fuel as [|fuel IH]; intros s off Hi Hoff Hb Hm; [lia|]. cbn [framer_loop].
  destruct (framer_round_spec s data off Hi Hoff Hb) as (r & -> & Hr). cbn [mbind outcome_bind].
  destruct r as [s' off'|s' off' frame]; simpl in Hr.
  - destruct Hr as (Hi' & Ho' & Hm' & Hn).
    destruct (IH s' off' Hi' ltac:(lia) Hb ltac:(lia)) as ([[s'' n] frame] & Hl & Hi'' & Hn'' & Hf).
    exists (s'', n, frame). split; [done|]. split; [done|]. split; [lia|].
    destruct frame as [f|].
    + intros more. by rewrite <-Hn, Hf.
    + destruct Hf as (-> & Hnone & Heq). split_and!; try done. intros more. by rewrite Heq, Hn.
  - eexists; split; [reflexivity|]. destruct frame as [f|].
    + destruct Hr as (? & ? & ?). simpl. split_and!; done || lia.
    + destruct Hr as (? & -> & ? & ?). simpl. split_and!; done || lia.
Qed.

Lemma framer_process_spec s data :
  framer_inv s -> bytes_ok data ->
  exists s' n frame, framer_process s data = Ret (s', n, frame) /\
    framer_inv s' /\ n <= length data /\
    match frame with
    | Some f => forall more, next (pend s ++ data ++ more) = Some (f, pend s' ++ drop n data ++ more)
    | None => n = length data /\ next (pend s') = None /\
              forall more, next (pend s' ++ more) = next (pend s ++ data ++ more)
    end.
Proof.
  intros Hi Hb.
  destruct (framer_loop_spec (framer_fuel s data) s data 0) as ([[s' n] frame] & Hl & Hi' & Hn & Hf);
    [done|lia|done| |].
  { unfold framer_fuel, measure. destruct (_ && _); lia. }
  exists s', n, frame. split; [done|]. split; [done|]. split; [lia|]. done.
Qed.

(** C5: [framer_process] is total and memory safe, and refines the scan of the byte stream.
    From every state that satisfies the invariant and on every input it returns, accesses
    no cell outside its buffer or its input, and keeps the invariant.  A returned frame is
    the first frame of the stream (the bytes still pending, then the input); what is then
    pending plus the unread input is exactly the rest of the stream.  Without a frame, all
    input was consumed, the stream holds no complete frame, and scanning on from what is
    pending gives what scanning the stream gives. *)
Theorem framer_process_refines s data :
  framer_inv s -> bytes_ok data ->
  exists s' n frame, framer_process s data = Ret (s', n, frame) /\
    framer_inv s' /\ n <= length data /\
    match frame with
    | Some f => forall more, next (pend s ++ data ++ more) = Some (f, pend s' ++ drop n data ++ more)
    | None => n = length data /\ next (pend s') = None /\
              forall more, next (pend s' ++ more) = next (pend s ++ data ++ more)
    end.
Proof. apply framer_process_spec. Qed.

(** ** Well-formed frames *)

(** The frame that carries [payload], with its checksum. *)
Definition mk_frame (payload : list Z) : list Z :=
  let n := Z.of_nat (length payload) in
  let body := RTCM3_PREAMBLE :: Z.shiftr n 8 :: Z.land n 0xff :: payload in
  let crc := crc24q body 0 in
  body ++ [Z.shiftr crc 16; Z.land (Z.shiftr crc 8) 0xff; Z.land crc 0xff].

Lemma lor_shift_split n k :
  (0 <= k)%Z -> Z.lor (Z.shiftl (Z.shiftr n k) k) (Z.land n (Z.ones k)) = n.
Proof.
  intros Hk. apply Z.bits_inj'. intros m Hm. rewrite Z.lor_spec, Z.shiftl_spec, Z.land_spec by lia.
  destruct (Z.lt_ge_cases m k).
  - by rewrite Z.testbit_neg_r, Z.ones_spec_low, andb_true_r by lia.
  - rewrite Z.shiftr_spec, Z.ones_spec_high, andb_false_r, orb_false_r by lia. f_equal. lia.
Qed.

Lemma payload_length_field n :
  (0 <= n < 1024)%Z ->
  Z.lor (Z.shiftl (Z.land (Z.shiftr n 8) 0x3) 8) (Z.land n 0xff) = n.
Proof.
  intros Hn. change 0x3%Z with (Z.ones 2). change 0xff%Z with (Z.ones 8).
  rewrite (Z.land_ones (Z.shiftr n 8)), Z.mod_small, lor_shift_split by
    (rewrite ?Z.shiftr_div_pow2 by lia; try (split; [apply Z.div_pos|apply Z.div_lt_upper_bound]); lia).
  done.
Qed.

Lemma crc_trailer c :
  (0 <= c)%Z ->
  Z.lor (Z.lor (Z.shiftl (Z.shiftr c 16) 16) (Z.shiftl (Z.land (Z.shiftr c 8) 0xff) 8))
    (Z.shiftl (Z.land c 0xff) 0) = c.
Proof.
  intros Hc. rewrite Z.shiftl_0_r. change 0xff%Z with (Z.ones 8).
  change 16%Z with (8 + 8)%Z at 1 2. rewrite <-Z.shiftr_shiftr, <-Z.shiftl_shiftl by lia.
  rewrite <-Z.shiftl_lor, lor_shift_split by lia. by apply lor_shift_split.
Qed.

(** The scan finds an encoded frame at the head of the stream. *)
Lemma next_mk_frame payload more :
  length payload <= 1023 -> next (mk_frame payload ++ more) = Some (mk_frame payload, more).
Proof.
  intros Hlen. unfold mk_frame. set (n := Z.of_nat _). set (body := RTCM3_PREAMBLE :: _).
  set (crc := crc24q body 0). set (tr := [_; _; _]).
  assert (length body = 3 + length payload) as Hbl by done.
  assert (frame_len (body ++ tr) = length body + 3) as Hfl.
  { rewrite frame_len_app by (rewrite Hbl; lia). unfold frame_len, body, lookup_total; simpl.
    rewrite payload_length_field by (subst n; lia). subst n. rewrite Nat2Z.id. lia. }
  assert (length (body ++ tr) = length body + 3) as Hl by (rewrite length_app; done).
  assert (take (length body + 3) (body ++ tr) = body ++ tr) as Htk by (apply take_ge; lia).
  rewrite next_frame; rewrite ?Hfl, ?Hl; try lia.
  - by rewrite Htk, drop_ge by lia.
  - done.
  - replace (length body + 3 - 3) with (length body) by lia. rewrite take_app_length. fold crc.
    unfold trailer. replace (length body + 3 - 3) with (length body + 0) by lia.
    replace (length body + 3 - 2) with (length body + 1) by lia.
    replace (length body + 3 - 1) with (length body + 2) by lia.
    rewrite !lookup_total_app_r by lia.
    rewrite !(Nat.add_comm (length body)), !Nat.add_sub. unfold tr, lookup_total; simpl.
    apply crc_trailer. apply (crc24q_range body 0). lia.
Qed.

(** ** Witness *)

(** A frame cut in two, after a byte of noise: the first part gives no frame. *)
Definition rtcm3_start : framer_rtcm3_state := mk_rtcm3 (replicate RTCM3_FRAME_SIZE_MAX 0%Z) 0 0 0.

Lemma rtcm3_start_inv : framer_inv rtcm3_start.
Proof.
  split; cbn [buffer buffer_length refill_count remove_count rtcm3_start]; try (by left); try lia.
  - apply length_replicate.
  - apply Forall_replicate. unfold byte_ok. lia.
Qed.

Lemma framer_process_refines_witness :
  exists s' n frame, framer_process rtcm3_start [0x11; 0xD3; 0x00; 0x01; 0x42]%Z = Ret (s', n, frame) /\
    framer_inv s' /\ n <= 5 /\
    match frame with
    | Some f => forall more, next (pend rtcm3_start ++ [0x11; 0xD3; 0x00; 0x01; 0x42]%Z ++ more) =
        Some (f, pend s' ++ drop n [0x11; 0xD3; 0x00; 0x01; 0x42]%Z ++ more)
    | None => n = 5 /\ next (pend s') = None /\
        forall more, next (pend s' ++ more) =
          next (pend rtcm3_start ++ [0x11; 0xD3; 0x00; 0x01; 0x42]%Z ++ more)
    end.
Proof.
  apply (framer_process_refines rtcm3_start [0x11; 0xD3; 0x00; 0x01; 0x42]%Z).
  - apply rtcm3_start_inv.
  - repeat constructor; discriminate.
Defined.
