(* ===== verification/Framer.v ===== *)
(** * Framer and filter registries, and what a framer promises
      ([src/package/libpiksi/libpiksi/src/framer.c], [filter.c], [framer_none.c] and
      [filter_none.c])

    Protocol plug-ins register a framer and a filter under a name; the adapter looks them up
    case-insensitively and drives them through the function pointers they registered.  Both
    registries are the same code over different operations, so the list functions are stated
    once.  [StreamFramer] is the contract the adapter's theorems rely on, and the RTCM3
    framer is shown to meet it. *)

From S2P Require Import Prelude Libc Crc24q FramerRtcm3.

(** ** Registries *)

Section registry.
Context {Ops : Type}.

Record interface := mk_interface { iname : string; ops : Ops }.

(** [framer_interface_list], [filter_interface_list]: in order of registration. *)
Fixpoint interface_lookup (l : list interface) (name : string) : option interface :=
  match l with
  | [] => None
  | i :: l' => if strcaseeq name (iname i) then Some i else interface_lookup l' name
  end.

(** [malloc_ok], [strdup_ok]: the two allocations. *)
Definition interface_register (malloc_ok strdup_ok : bool) (l : list interface) (name : string)
    (o : Ops) : list interface * Z :=
  if negb malloc_ok then (l, (-1)%Z)
  else if negb strdup_ok then (l, (-1)%Z)
  else (l ++ [mk_interface name o], 0%Z).

Definition interface_valid (l : list interface) (name : string) : Z :=
  match interface_lookup l name with Some _ => 0%Z | None => (-1)%Z end.

Lemma interface_lookup_app l i name :
  interface_lookup (l ++ [i]) name =
    match interface_lookup l name with
    | Some j => Some j
    | None => if strcaseeq name (iname i) then Some i else None
    end.
Proof. induction l as [|j l IH]; simpl; [done|]. by destruct (strcaseeq name (iname j)). Qed.

(** Registering.  A successful registration makes its name valid in any spelling of
    case, never changes what an already registered name resolves to (the first registration
    wins), and adds no other name; a failed one changes nothing. *)
Theorem interface_register_lookup m s l name o other :
  let '(l', rc) := interface_register m s l name o in
  (rc = 0%Z -> interface_valid l' name = 0%Z) /\
  interface_lookup l' other =
    match interface_lookup l other with
    | Some j => Some j
    | None => if decide (rc = 0%Z /\ strcaseeq other name = true) then Some (mk_interface name o) else None
    end.
Proof.
  unfold interface_register. destruct m, s; cbn [negb].
  2-4: split; [done|]; destruct (interface_lookup l other); [done|]; by rewrite decide_False by (by intros [? _]).
  split.
  - intros _. unfold interface_valid. rewrite interface_lookup_app. cbn [iname]. rewrite strcaseeq_refl.
    by destruct (interface_lookup l name).
  - rewrite interface_lookup_app. cbn [iname]. destruct (interface_lookup l other); [done|].
    destruct (strcaseeq other name); [by rewrite decide_True|by rewrite decide_False by (by intros [_ ?])].
Qed.
End registry.
Arguments interface : clear implicits.

(** ** Framers *)

(** A framer's processing function: the new state, the bytes consumed, the frame or NULL. *)
Abbreviation framer_fn S := (S -> list Z -> outcome (S * nat * option (list Z))).

(** The function pointers of a registered framer; [None] is the NULL of a failed creation. *)
Record framer_ops := mk_framer_ops {
  framer_state : Type;
  fo_create : option framer_state;
  fo_process : framer_fn framer_state;
}.

Record framer_t := mk_framer { framer_interface : framer_ops; framer_st : framer_state framer_interface }.

Definition framer_create (malloc_ok : bool) (l : list (interface framer_ops)) (name : string) :
    option framer_t :=
  match interface_lookup l name with
  | None => None
  | Some i =>
      if negb malloc_ok then None
      else match fo_create (ops i) with
           | Some st => Some (mk_framer (ops i) st)
           | None => None
           end
  end.

Definition framer_process (f : framer_t) (data : list Z) : outcome (framer_t * nat * option (list Z)) :=
  r ← fo_process (framer_interface f) (framer_st f) data;
  let '(st, n, frame) := r in
  Ret (mk_framer (framer_interface f) st, n, frame).

(** ** Filters *)

(** The result of processing is 0 to pass a message on. *)
Record filter_ops := mk_filter_ops {
  filter_state : Type;
  fi_create : option string -> option filter_state;
  fi_process : filter_state -> list Z -> outcome (filter_state * Z);
}.

Record filter_t := mk_filter { filter_interface : filter_ops; filter_st : filter_state filter_interface }.

Definition filter_create (malloc_ok : bool) (l : list (interface filter_ops)) (name : string)
    (filename : option string) : option filter_t :=
  match interface_lookup l name with
  | None => None
  | Some i =>
      if negb malloc_ok then None
      else match fi_create (ops i) filename with
           | Some st => Some (mk_filter (ops i) st)
           | None => None
           end
  end.

Definition filter_process (f : filter_t) (msg : list Z) : outcome (filter_t * Z) :=
  r ← fi_process (filter_interface f) (filter_st f) msg;
  let '(st, res) := r in
  Ret (mk_filter (filter_interface f) st, res).

(** ** The trivial framer and filter *)

Definition framer_none_create (malloc_ok : bool) : option unit := if malloc_ok then Some tt else None.

Definition framer_none_process (s : unit) (data : list Z) : outcome (unit * nat * option (list Z)) :=
  Ret (s, length data, if 0 <? length data then Some data else None).

Definition filter_none_create (malloc_ok : bool) (filename : option string) : option unit :=
  if malloc_ok then Some tt else None.

Definition filter_none_process (s : unit) (msg : list Z) : outcome (unit * Z) := Ret (s, 0%Z).

(** ** The contract of a stream framer

    [next l] is the first frame of the byte stream [l] and the bytes after it.  A framer with
    the state [s] stands for a scan that has [pending s] still to look at.  It returns for
    every input and keeps at most [sf_max] bytes; a frame it returns is the next one of the
    stream, and it never loses or reorders bytes; without a frame it has taken the whole input, and nothing complete is
    left in what it keeps. *)
Class StreamFramer {S : Type} (process : framer_fn S) := {
  sf_inv : S -> Prop;
  sf_pending : S -> list Z;
  sf_next : list Z -> option (list Z * list Z);
  sf_max : nat;
  sf_pending_max s : sf_inv s -> length (sf_pending s) <= sf_max;
  sf_next_shrinks l f r : sf_next l = Some (f, r) -> f <> [] /\ length f + length r <= length l;
  sf_process s data :
    sf_inv s -> bytes_ok data ->
    exists s' n frame, process s data = Ret (s', n, frame) /\ sf_inv s' /\ n <= length data /\
      match frame with
      | Some f => forall more,
          sf_next (sf_pending s ++ data ++ more) = Some (f, sf_pending s' ++ drop n data ++ more)
      | None => n = length data /\ sf_next (sf_pending s') = None /\
          forall more, sf_next (sf_pending s' ++ more) = sf_next (sf_pending s ++ data ++ more)
      end;
}.

Lemma next_shrinks l f r : next l = Some (f, r) -> f <> [] /\ length f + length r <= length l.
Proof.
  induction l as [|b l IH]; [done|]. cbn [next].
  destruct (negb _); [intros H; apply IH in H as [? ?]; split; [done|simpl; lia]|].
  destruct (length (b :: l) <? 3) eqn:E3; [done|]. destruct (length (b :: l) <? frame_len _) eqn:Ef; [done|].
  bool_hyps. pose proof (frame_len_ge (b :: l)) as Hge.
  destruct (_ =? _)%Z; [|intros H; apply IH in H as [? ?]; split; [done|simpl; lia]].
  revert Ef Hge. generalize (b :: l). intros k. generalize (frame_len k). intros n Ef Hge H.
  assert (f = take n k /\ r = drop n k) as [-> ->] by (split; congruence).
  rewrite length_drop, length_take. split; [|lia]. intros H'. apply (f_equal length) in H'.
  rewrite length_take in H'. simpl in H'. lia.
Qed.

Lemma pend_max s : framer_inv s -> length (pend s) <= RTCM3_FRAME_SIZE_MAX.
Proof. intros Hs. pose proof Hs as []. unfold pend. rewrite length_drop, length_content by done. lia. Qed.

(** The RTCM3 framer meets the contract. *)
#[export] Instance rtcm3_stream_framer : StreamFramer FramerRtcm3.framer_process := {|
  sf_inv := framer_inv;
  sf_pending := pend;
  sf_next := next;
  sf_max := RTCM3_FRAME_SIZE_MAX;
  sf_pending_max := pend_max;
  sf_next_shrinks := next_shrinks;
  sf_process := framer_process_spec;
|}.

(** The operations the RTCM3 plug-in registers. *)
Definition rtcm3_ops (mem : option (list Z)) : framer_ops :=
  mk_framer_ops framer_rtcm3_state (FramerRtcm3.framer_create mem) FramerRtcm3.framer_process.
Definition none_ops (malloc_ok : bool) : framer_ops :=
  mk_framer_ops unit (framer_none_create malloc_ok) framer_none_process.
