(* ===== verification/Metrics.v ===== *)
(** * Metrics (libpiksi [src/package/libpiksi/libpiksi/src/metrics.c] and its header)

    A [pk_metrics_t] is a table of at most 32 descriptors, each with a typed value, an
    updater, a reset function and the file the value is written to.  A value is a tag and a
    64-bit union; the accessors read the union at the width of the member, as the
    little-endian target does.  Double arithmetic is the parameter [f64_ops]; the updaters
    and reset functions the source defines are the constructors of [updater] and [reseter]. *)

From stdpp Require Import pretty.
From S2P Require Import Prelude.

Local Open Scope Z_scope.

(** ** Values *)

Inductive pk_metrics_type :=
  | METRICS_TYPE_UNKNOWN | METRICS_TYPE_S32 | METRICS_TYPE_S64 | METRICS_TYPE_U32
  | METRICS_TYPE_U64 | METRICS_TYPE_F64 | METRICS_TYPE_TIME.

#[export] Instance pk_metrics_type_eq_dec : EqDecision pk_metrics_type.
Proof. solve_decision. Defined.

Record pk_metrics_value := mk_value { vtype : pk_metrics_type; vdata : Z }.

#[export] Instance pk_metrics_value_eq_dec : EqDecision pk_metrics_value.
Proof. solve_decision. Defined.

(** [(pk_metrics_value_t){0}] *)
Definition value_zero : pk_metrics_value := mk_value METRICS_TYPE_UNKNOWN 0.

Definition as_u32 (v : pk_metrics_value) : Z := u32 (vdata v).
Definition as_s32 (v : pk_metrics_value) : Z := s32 (vdata v).
Definition as_u64 (v : pk_metrics_value) : Z := u64 (vdata v).
Definition as_s64 (v : pk_metrics_value) : Z := s64 (vdata v).
Definition as_f64 (v : pk_metrics_value) : Z := u64 (vdata v).   (* the bit pattern *)
Definition as_time (v : pk_metrics_value) : Z := u64 (vdata v).  (* nanoseconds *)

Definition pk_metrics_u32 (x : Z) : pk_metrics_value := mk_value METRICS_TYPE_U32 (u32 x).
Definition pk_metrics_s32 (x : Z) : pk_metrics_value := mk_value METRICS_TYPE_S32 (u32 x).
Definition pk_metrics_u64 (x : Z) : pk_metrics_value := mk_value METRICS_TYPE_U64 (u64 x).
Definition pk_metrics_s64 (x : Z) : pk_metrics_value := mk_value METRICS_TYPE_S64 (u64 x).
Definition pk_metrics_f64 (x : Z) : pk_metrics_value := mk_value METRICS_TYPE_F64 (u64 x).
Definition pk_metrics_time (x : Z) : pk_metrics_value := mk_value METRICS_TYPE_TIME (u64 x).

(** Arithmetic on doubles (their bit patterns) and the conversions the source uses. *)
Record f64_ops := {
  f64_add : Z -> Z -> Z;
  f64_sub : Z -> Z -> Z;
  f64_div : Z -> Z -> Z;
  f64_gt : Z -> Z -> bool;
  f64_of_u64 : Z -> Z;
  f64_to_u64 : Z -> option Z;   (* [None]: out of range, undefined *)
  f64_is_zero : Z -> bool;
  f64_print : Z -> string;      (* [%f] *)
}.

(** ** Descriptors *)

Inductive pk_metrics_status :=
  | METRICS_STATUS_ERROR_GENERIC | METRICS_STATUS_TOO_MANY_METRICS | METRICS_STATUS_SILENT_FAIL
  | METRICS_STATUS_INVALID_INDEX | METRICS_STATUS_OPEN_ERROR | METRICS_STATUS_PATH_ERROR
  | METRICS_STATUS_MEMORY_ERROR | METRICS_STATUS_NO_SLOTS | METRICS_STATUS_SUCCESS.

Definition status_code (s : pk_metrics_status) : Z :=
  match s with
  | METRICS_STATUS_ERROR_GENERIC => -8
  | METRICS_STATUS_TOO_MANY_METRICS => -7
  | METRICS_STATUS_SILENT_FAIL => -6
  | METRICS_STATUS_INVALID_INDEX => -5
  | METRICS_STATUS_OPEN_ERROR => -4
  | METRICS_STATUS_PATH_ERROR => -3
  | METRICS_STATUS_MEMORY_ERROR => -2
  | METRICS_STATUS_NO_SLOTS => -1
  | METRICS_STATUS_SUCCESS => 0
  end.

(** The functions an [updater] or [reseter] field can point to. *)
Inductive updater :=
  | pk_metrics_updater_sum | pk_metrics_updater_count | pk_metrics_updater_average
  | pk_metrics_updater_max | pk_metrics_updater_delta | pk_metrics_updater_assign.
Inductive reseter := pk_metrics_reset_default | pk_metrics_reset_time.

(** The context of an average: the entries whose quotient it is.  [None] is a NULL
    pointer; [Some i] is the value of the index variable pointed to. *)
Record pk_metrics_average := mk_average { index_of_num : option nat; index_of_dom : option nat }.

Record metrics_descriptor := mk_descriptor {
  md_type : pk_metrics_type;
  md_update : updater;
  md_reset : reseter;
  md_stream : string;                    (* what the metric's file holds *)
  md_initial : pk_metrics_value;
  md_value : pk_metrics_value;
  md_context : option pk_metrics_average;
}.

#[export] Instance metrics_descriptor_inhabited : Inhabited metrics_descriptor :=
  populate (mk_descriptor METRICS_TYPE_UNKNOWN pk_metrics_updater_sum pk_metrics_reset_default ""
              value_zero value_zero None).

Definition MAX_METRICS : nat := 32.

(** The used descriptors, in order: [count] is the length. *)
Abbreviation pk_metrics := (list metrics_descriptor).

Definition set_value (d : metrics_descriptor) (v : pk_metrics_value) : metrics_descriptor :=
  mk_descriptor (md_type d) (md_update d) (md_reset d) (md_stream d) (md_initial d) v (md_context d).

Definition set_stream (d : metrics_descriptor) (f : string) : metrics_descriptor :=
  mk_descriptor (md_type d) (md_update d) (md_reset d) f (md_initial d) (md_value d) (md_context d).

Definition pk_metrics_read (m : pk_metrics) (i : nat) : pk_metrics_status * option pk_metrics_value :=
  if (length m <=? i)%nat then (METRICS_STATUS_INVALID_INDEX, None)
  else (METRICS_STATUS_SUCCESS, Some (md_value (m !!! i))).

Section metrics.
Variable f64 : f64_ops.

(** ** Updaters *)

(** Signed arithmetic overflows into undefined behaviour; unsigned arithmetic wraps, which
    the constructors of the values do. *)
Definition s32_arith (x : Z) : outcome Z :=
  if (-2147483648 <=? x) && (x <=? 2147483647) then Ret x else Undef.
Definition s64_arith (x : Z) : outcome Z :=
  if (-9223372036854775808 <=? x) && (x <=? 9223372036854775807) then Ret x else Undef.

Definition updater_sum (type : pk_metrics_type) (cur upd : pk_metrics_value) : outcome pk_metrics_value :=
  if decide (vtype upd <> type) then Ret value_zero
  else match type with
  | METRICS_TYPE_U32 => Ret (pk_metrics_u32 (as_u32 cur + as_u32 upd))
  | METRICS_TYPE_S32 => x ← s32_arith (as_s32 cur + as_s32 upd); Ret (pk_metrics_s32 x)
  | METRICS_TYPE_U64 => Ret (pk_metrics_u64 (as_u64 cur + as_u64 upd))
  | METRICS_TYPE_S64 => x ← s64_arith (as_s64 cur + as_s64 upd); Ret (pk_metrics_s64 x)
  | METRICS_TYPE_F64 => Ret (pk_metrics_f64 (f64_add f64 (as_f64 cur) (as_f64 upd)))
  | METRICS_TYPE_TIME => Ret (mk_value METRICS_TYPE_UNKNOWN (u64 (as_time cur + as_time upd)))
  | METRICS_TYPE_UNKNOWN => Ret value_zero
  end.

Definition updater_delta (type : pk_metrics_type) (cur upd : pk_metrics_value) : outcome pk_metrics_value :=
  if decide (vtype upd <> type) then Ret value_zero
  else match type with
  | METRICS_TYPE_U32 => Ret (pk_metrics_u32 (as_u32 upd - as_u32 cur))
  | METRICS_TYPE_S32 => x ← s32_arith (as_s32 upd - as_s32 cur); Ret (pk_metrics_s32 x)
  | METRICS_TYPE_U64 => Ret (pk_metrics_u64 (as_u64 upd - as_u64 cur))
  | METRICS_TYPE_S64 => x ← s64_arith (as_s64 upd - as_s64 cur); Ret (pk_metrics_s64 x)
  | METRICS_TYPE_F64 => Ret (pk_metrics_f64 (f64_sub f64 (as_f64 upd) (as_f64 cur)))
  | METRICS_TYPE_TIME => Ret (pk_metrics_time (as_time upd - as_time cur))
  | METRICS_TYPE_UNKNOWN => Ret value_zero
  end.

Definition SWFT_MAX (a b : Z) : Z := if b <? a then a else b.

Definition updater_max (type : pk_metrics_type) (cur upd : pk_metrics_value) : pk_metrics_value :=
  if decide (vtype upd <> type) then value_zero
  else match type with
  | METRICS_TYPE_U32 => pk_metrics_u32 (SWFT_MAX (as_u32 cur) (as_u32 upd))
  | METRICS_TYPE_S32 => pk_metrics_s32 (SWFT_MAX (as_s32 cur) (as_s32 upd))
  | METRICS_TYPE_U64 => pk_metrics_u64 (SWFT_MAX (as_u64 cur) (as_u64 upd))
  | METRICS_TYPE_S64 => pk_metrics_s64 (SWFT_MAX (as_s64 cur) (as_s64 upd))
  | METRICS_TYPE_F64 =>
      pk_metrics_f64 (if f64_gt f64 (as_f64 cur) (as_f64 upd) then as_f64 cur else as_f64 upd)
  | METRICS_TYPE_TIME => pk_metrics_time (SWFT_MAX (as_time cur) (as_time upd))
  | METRICS_TYPE_UNKNOWN => value_zero
  end.

Definition updater_count (type : pk_metrics_type) (cur : pk_metrics_value) : outcome pk_metrics_value :=
  match type with
  | METRICS_TYPE_U32 => Ret (pk_metrics_u32 (as_u32 cur + 1))
  | METRICS_TYPE_S32 => x ← s32_arith (as_s32 cur + 1); Ret (pk_metrics_s32 x)
  | METRICS_TYPE_U64 => Ret (pk_metrics_u64 (as_u64 cur + 1))
  | METRICS_TYPE_S64 => x ← s64_arith (as_s64 cur + 1); Ret (pk_metrics_s64 x)
  | METRICS_TYPE_F64 => Ret (pk_metrics_f64 (f64_add f64 (as_f64 cur) (f64_of_u64 f64 1)))
  | METRICS_TYPE_TIME | METRICS_TYPE_UNKNOWN => Ret value_zero
  end.

Definition updater_assign (type : pk_metrics_type) (upd : pk_metrics_value) : pk_metrics_value :=
  if decide (vtype upd <> type) then value_zero else upd.

(** [Undef] is the failed assertion, or a double that does not fit the integer. *)
Definition get_denominator_value (type : pk_metrics_type) (v : pk_metrics_value) : outcome Z :=
  match type with
  | METRICS_TYPE_U32 => Ret (u64 (as_u32 v))
  | METRICS_TYPE_U64 => Ret (u64 (as_u64 v))
  | METRICS_TYPE_S32 => Ret (u64 (as_s32 v))
  | METRICS_TYPE_S64 => Ret (u64 (as_s64 v))
  | METRICS_TYPE_F64 => of_option (f64_to_u64 f64 (as_f64 v))
  | METRICS_TYPE_TIME => Ret (u64 (as_time v))
  | METRICS_TYPE_UNKNOWN => Undef
  end.

(** C division truncates; dividing by zero is undefined. *)
Definition c_div (a b : Z) : outcome Z := if b =? 0 then Undef else Ret (Z.quot a b).

(** The quotient of the average, at the width of [type]; the signed quotient overflows for
    the least value and -1. *)
Definition quotient (type : pk_metrics_type) (num : pk_metrics_value) (dom : Z) : outcome pk_metrics_value :=
  match type with
  | METRICS_TYPE_U32 =>
      x ← (if u32 dom =? 0 then Ret 0 else c_div (as_u32 num) (u32 dom)); Ret (pk_metrics_u32 x)
  | METRICS_TYPE_S32 =>
      x ← (if s32 dom =? 0 then Ret 0 else q ← c_div (as_s32 num) (s32 dom); s32_arith q);
      Ret (pk_metrics_s32 x)
  | METRICS_TYPE_U64 =>
      x ← (if u64 dom =? 0 then Ret 0 else c_div (as_u64 num) (u64 dom)); Ret (pk_metrics_u64 x)
  | METRICS_TYPE_S64 =>
      x ← (if s64 dom =? 0 then Ret 0 else q ← c_div (as_s64 num) (s64 dom); s64_arith q);
      Ret (pk_metrics_s64 x)
  | METRICS_TYPE_F64 =>
      Ret (pk_metrics_f64 (if f64_is_zero f64 (f64_of_u64 f64 dom) then f64_of_u64 f64 0
                           else f64_div f64 (as_f64 num) (f64_of_u64 f64 dom)))
  | METRICS_TYPE_TIME =>
      x ← (if u64 dom =? 0 then Ret 0 else c_div (as_time num) (u64 dom)); Ret (pk_metrics_time x)
  | METRICS_TYPE_UNKNOWN => Ret value_zero
  end.

Definition updater_average (m : pk_metrics) (type : pk_metrics_type) (ctx : pk_metrics_average) :
    outcome pk_metrics_value :=
  match index_of_num ctx, index_of_dom ctx with
  | None, _ => Ret value_zero
  | _, None => Ret value_zero
  | Some i, Some j =>
      if (length m <=? i)%nat then Ret value_zero
      else if (length m <=? j)%nat then Ret value_zero
      else
        let num := md_value (m !!! i) in
        let dom := md_value (m !!! j) in
        let num_type := md_type (m !!! i) in
        let dom_type := md_type (m !!! j) in
        if decide (num_type = METRICS_TYPE_UNKNOWN) then Ret value_zero
        else if decide (dom_type = METRICS_TYPE_UNKNOWN) then Ret value_zero
        else if decide (num_type <> type) then Ret value_zero
        else d ← get_denominator_value dom_type dom; quotient type num d
  end.

(** [desc->update_fn(desc->type, desc->value, update)]; an average without a context
    dereferences NULL. *)
Definition run_updater (m : pk_metrics) (d : metrics_descriptor) (value : pk_metrics_value) :
    outcome pk_metrics_value :=
  match md_update d with
  | pk_metrics_updater_sum => updater_sum (md_type d) (md_value d) value
  | pk_metrics_updater_count => updater_count (md_type d) (md_value d)
  | pk_metrics_updater_average =>
      match md_context d with
      | Some ctx => updater_average m (md_type d) ctx
      | None => Undef
      end
  | pk_metrics_updater_max => Ret (updater_max (md_type d) (md_value d) value)
  | pk_metrics_updater_delta => updater_delta (md_type d) (md_value d) value
  | pk_metrics_updater_assign => Ret (updater_assign (md_type d) value)
  end.

(** ** Operations on the table *)

(** [value] is what [va_arg] reads.  The [NARGS] macro gives 1 for an empty argument list
    too, so a call without a value still reads one: whatever the caller's frame holds. *)
Definition _pk_metrics_update (m : option pk_metrics) (i : nat) (value : pk_metrics_value) :
    outcome (option pk_metrics * pk_metrics_status) :=
  match m with
  | None => Ret (None, METRICS_STATUS_SILENT_FAIL)
  | Some m =>
      if (length m <=? i)%nat then Ret (Some m, METRICS_STATUS_INVALID_INDEX)
      else
        v ← run_updater m (m !!! i) value;
        Ret (Some (<[i := set_value (m !!! i) v]> m), METRICS_STATUS_SUCCESS)
  end.

(** [now] is what [pk_metrics_gettime] returns. *)
Definition run_reseter (r : reseter) (now : Z) (initial : pk_metrics_value) : pk_metrics_value :=
  match r with
  | pk_metrics_reset_default => initial
  | pk_metrics_reset_time => mk_value METRICS_TYPE_UNKNOWN (u64 now)
  end.

Definition pk_metrics_reset (now : Z) (m : option pk_metrics) (i : nat) :
    option pk_metrics * pk_metrics_status :=
  match m with
  | None => (None, METRICS_STATUS_SILENT_FAIL)
  | Some m =>
      if (length m <=? i)%nat then (Some m, METRICS_STATUS_INVALID_INDEX)
      else
        let d := m !!! i in
        (Some (<[i := set_value d (run_reseter (md_reset d) now (md_initial d))]> m),
         METRICS_STATUS_SUCCESS)
  end.

(** [pk_metrics_gettime]: [ts] is what [clock_gettime] gives, [None] when it fails. *)
Definition pk_metrics_gettime (ts : option (Z * Z)) : Z :=
  match ts with
  | None => 0
  | Some (tv_sec, tv_nsec) => u64 (u64 tv_sec * 1000000000 + u64 tv_nsec)
  end.

(** The text [write_metric] leaves in the file; for an unknown type the truncated file. *)
Definition write_metric (d : metrics_descriptor) : string :=
  let v := md_value d in
  match md_type d with
  | METRICS_TYPE_U32 => pretty (as_u32 v) +:+ newline
  | METRICS_TYPE_S32 => pretty (as_s32 v) +:+ newline
  | METRICS_TYPE_U64 => pretty (as_u64 v) +:+ newline
  | METRICS_TYPE_S64 => pretty (as_s64 v) +:+ newline
  | METRICS_TYPE_F64 => f64_print f64 (as_f64 v) +:+ newline
  | METRICS_TYPE_TIME =>
      pretty (as_time v / 1000000) +:+ "." +:+ pretty (as_time v mod 1000000) +:+
      newline
  | METRICS_TYPE_UNKNOWN => ""
  end.

Definition pk_metrics_flush (m : pk_metrics) : pk_metrics :=
  map (fun d => set_stream d (write_metric d)) m.

(** ** Setting a table up *)

(** What the system calls of [pk_metrics_add] answer. *)
Record add_env := {
  env_base_path : string;          (* PK_METRICS_PATH or the default *)
  env_mkpath : string -> bool;     (* the directory exists afterwards *)
  env_open : string -> bool;       (* open and fdopen succeed *)
  env_now : Z;                     (* the monotonic clock *)
}.

Definition pk_metrics_add (e : add_env) (m : pk_metrics) (path name : string)
    (type : pk_metrics_type) (initial : pk_metrics_value) (u : updater) (r : reseter)
    (ctx : option pk_metrics_average) : pk_metrics * (nat + pk_metrics_status) :=
  if (MAX_METRICS <=? length m)%nat then (m, inr METRICS_STATUS_NO_SLOTS)
  else
    let metric_dir_path := env_base_path e +:+ "/" +:+ path in
    if (PATH_MAX <=? Z.of_nat (String.length metric_dir_path)) then (m, inr METRICS_STATUS_MEMORY_ERROR)
    else if negb (env_mkpath e metric_dir_path) then (m, inr METRICS_STATUS_PATH_ERROR)
    else
      let metric_path := metric_dir_path +:+ "/" +:+ name in
      if (PATH_MAX <=? Z.of_nat (String.length metric_path)) then (m, inr METRICS_STATUS_MEMORY_ERROR)
      else if negb (env_open e metric_path) then (m, inr METRICS_STATUS_OPEN_ERROR)
      else
        let desc := mk_descriptor type u r "" initial (run_reseter r (env_now e) initial) ctx in
        (m ++ [set_stream desc (write_metric desc)], inl (length m)).

Record table_entry := mk_entry {
  te_folder : string;
  te_name : string;
  te_type : pk_metrics_type;
  te_updater : updater;
  te_reseter : reseter;
  te_context : option pk_metrics_average;
}.

(** The loop of [pk_metrics_setup]; the list is what it stores through the [idx] pointers. *)
Fixpoint setup_loop (e : add_env) (base suffix : string) (table : list table_entry)
    (m : pk_metrics) (idx : list nat) : option (pk_metrics * list nat) :=
  match table with
  | [] => Some (m, idx)
  | t :: table' =>
      let metrics_folder :=
        if (0 <? String.length suffix)%nat
        then base +:+ "/" +:+ suffix +:+ "/" +:+ te_folder t
        else base +:+ "/" +:+ te_folder t in
      if (PATH_MAX <=? Z.of_nat (String.length metrics_folder)) then None
      else
        match pk_metrics_add e m metrics_folder (te_name t) (te_type t) value_zero (te_updater t)
                (te_reseter t) (te_context t) with
        | (m', inl i) => setup_loop e base suffix table' m' (idx ++ [i])
        | (_, inr _) => None
        end
  end.

(** [pk_metrics_setup]: [None] is NULL (the partial table is destroyed). *)
Definition pk_metrics_setup (e : add_env) (ok : bool) (base : option string) (suffix : string)
    (table : list table_entry) : option (pk_metrics * list nat) :=
  match base with
  | None => None
  | Some b => if negb ok then None else setup_loop e b suffix table [] []
  end.
End metrics.

(** ** Invariant *)

(** A value carries the tag of its entry or, after a reset or a refused update, none. *)
Definition value_ok (t : pk_metrics_type) (v : pk_metrics_value) : Prop :=
  (vtype v = t \/ vtype v = METRICS_TYPE_UNKNOWN) /\ 0 <= vdata v < 18446744073709551616.

(** The types and updaters the tables of the repository use: integers, with arithmetic on
    unsigned ones only; an average has a context. *)
Definition entry_kind_ok (t : pk_metrics_type) (u : updater) : bool :=
  match t, u with
  | METRICS_TYPE_U32, _ | METRICS_TYPE_U64, _ | METRICS_TYPE_TIME, _ => true
  | METRICS_TYPE_S32, pk_metrics_updater_max | METRICS_TYPE_S32, pk_metrics_updater_assign => true
  | METRICS_TYPE_S64, pk_metrics_updater_max | METRICS_TYPE_S64, pk_metrics_updater_assign => true
  | _, _ => false
  end.

Definition descriptor_ok (n : nat) (d : metrics_descriptor) : Prop :=
  value_ok (md_type d) (md_value d) /\ value_ok (md_type d) (md_initial d) /\
  entry_kind_ok (md_type d) (md_update d) = true /\
  (md_update d = pk_metrics_updater_average -> is_Some (md_context d)).

Definition metrics_wf (m : pk_metrics) : Prop :=
  (length m <= MAX_METRICS)%nat /\ Forall (descriptor_ok (length m)) m.

Lemma value_zero_ok t : value_ok t value_zero.
Proof. split; [by right|simpl; lia]. Qed.

Lemma mk_value_ok t x : value_ok t (mk_value t (u64 x)).
Proof. split; [by left|apply u64_range]. Qed.

Lemma mk_value_u32_ok t x : value_ok t (mk_value t (u32 x)).
Proof. split; [by left|]. simpl. pose proof (u32_range x). lia. Qed.

Lemma mk_value_unknown_ok t x : value_ok t (mk_value METRICS_TYPE_UNKNOWN (u64 x)).
Proof. split; [by right|apply u64_range]. Qed.

#[local] Hint Resolve value_zero_ok mk_value_ok mk_value_u32_ok mk_value_unknown_ok : piksi.

Ltac solve_value_ok :=
  unfold pk_metrics_u32, pk_metrics_s32, pk_metrics_u64, pk_metrics_s64, pk_metrics_f64,
    pk_metrics_time; auto with piksi.

(** ** What an entry holds *)

(** A value as a number of the type of its entry. *)
Definition number (t : pk_metrics_type) (v : pk_metrics_value) : Z :=
  match t with
  | METRICS_TYPE_U32 => as_u32 v
  | METRICS_TYPE_S32 => as_s32 v
  | METRICS_TYPE_S64 => as_s64 v
  | METRICS_TYPE_U64 | METRICS_TYPE_TIME => as_u64 v
  | METRICS_TYPE_F64 | METRICS_TYPE_UNKNOWN => 0
  end.

(** The residue that fits an unsigned type. *)
Definition residue (t : pk_metrics_type) (x : Z) : Z :=
  match t with METRICS_TYPE_U32 => x mod 2 ^ 32 | _ => x mod 2 ^ 64 end.

Inductive metrics_op :=
  | Update (i : nat) (value : pk_metrics_value)
  | Reset (now : Z) (i : nat)
  | Flush.

Definition op_ok (op : metrics_op) : Prop :=
  match op with Update _ v => 0 <= vdata v < 18446744073709551616 | _ => True end.

Fixpoint run_ops (f64 : f64_ops) (ops : list metrics_op) (m : pk_metrics) : outcome pk_metrics :=
  match ops with
  | [] => Ret m
  | Update i v :: ops' =>
      r ← _pk_metrics_update f64 (Some m) i v; m ← of_option (fst r); run_ops f64 ops' m
  | Reset now i :: ops' => m ← of_option (fst (pk_metrics_reset now (Some m) i)); run_ops f64 ops' m
  | Flush :: ops' => run_ops f64 ops' (pk_metrics_flush f64 m)
  end.

(** Does the updater read the value it is given? *)
Definition takes_value (u : updater) : bool :=
  match u with pk_metrics_updater_count | pk_metrics_updater_average => false | _ => true end.

(** The number entry [i] last restarted from, and the numbers given to it since.  It restarts
    at a reset, and from zero at a value of another type. *)
Definition record (d : metrics_descriptor) (i : nat) (h : Z * list Z) (op : metrics_op) : Z * list Z :=
  match op with
  | Update j v =>
      if decide (j <> i) then h
      else if takes_value (md_update d) && bool_decide (vtype v <> md_type d) then (0, [])
      else (fst h, snd h ++ [number (md_type d) v])
  | Reset now j =>
      if decide (j <> i) then h
      else (number (md_type d) (run_reseter (md_reset d) now (md_initial d)), [])
  | Flush => h
  end.

Definition history (d : metrics_descriptor) (i : nat) (ops : list metrics_op) : Z * list Z :=
  fold_left (record d i) ops (number (md_type d) (md_value d), []).

(** The average asked for, of the numbers two entries of [m] hold. *)
Definition average_of (m : pk_metrics) (d : metrics_descriptor) : Z :=
  match md_context d with
  | Some (mk_average (Some i) (Some j)) =>
      match m !! i, m !! j with
      | Some num, Some dom =>
          let q := residue (md_type d) (number (md_type dom) (md_value dom)) in
          if decide (md_type num <> md_type d) then 0
          else if q =? 0 then 0 else number (md_type d) (md_value num) / q
      | _, _ => 0
      end
  | _ => 0
  end.

(** The number an entry holds that restarted from [start] and was given [xs] since; [avg] is
    the average at its last update. *)
Definition holds (d : metrics_descriptor) (avg start : Z) (xs : list Z) : Z :=
  match md_update d with
  | pk_metrics_updater_sum => residue (md_type d) (start + foldr Z.add 0 xs)
  | pk_metrics_updater_count =>
      if decide (md_type d = METRICS_TYPE_TIME /\ xs <> []) then 0
      else residue (md_type d) (start + Z.of_nat (length xs))
  | pk_metrics_updater_max => foldr Z.max start xs
  | pk_metrics_updater_assign => default start (last xs)
  | pk_metrics_updater_delta => fold_left (fun old x => residue (md_type d) (x - old)) xs start
  | pk_metrics_updater_average => if decide (xs = []) then start else avg
  end.

Section facts.
Variable f64 : f64_ops.

Lemma number_range t v :
  match t with
  | METRICS_TYPE_U32 => 0 <= number t v < 4294967296
  | METRICS_TYPE_U64 | METRICS_TYPE_TIME => 0 <= number t v < 18446744073709551616
  | METRICS_TYPE_S32 => -2147483648 <= number t v < 2147483648
  | METRICS_TYPE_S64 => -9223372036854775808 <= number t v < 9223372036854775808
  | _ => True
  end.
Proof.
  destruct t; cbn [number]; try done; unfold as_u32, as_u64, as_s32, as_s64, s32, s64.
  - pose proof (Z.mod_pos_bound (vdata v + 2147483648) 4294967296 ltac:(lia)). lia.
  - pose proof (Z.mod_pos_bound (vdata v + 9223372036854775808) 18446744073709551616 ltac:(lia)). lia.
  - apply u32_range.
  - apply u64_range.
  - apply u64_range.
Qed.

Lemma s32_u32 x : -2147483648 <= x < 2147483648 -> s32 (u32 x) = x.
Proof.
  intros Hx. unfold s32, u32. rewrite Zplus_mod_idemp_l, Z.mod_small by lia. lia.
Qed.

Lemma s64_u64 x : -9223372036854775808 <= x < 9223372036854775808 -> s64 (u64 x) = x.
Proof.
  intros Hx. unfold s64, u64. rewrite Zplus_mod_idemp_l, Z.mod_small by lia. lia.
Qed.

(** The number an update leaves, from the one held before. *)
Definition next_number (m : pk_metrics) (d : metrics_descriptor) (x : Z) (v : pk_metrics_value) : Z :=
  let t := md_type d in
  let given (y : Z) : Z := if decide (vtype v <> t) then 0 else y in
  match md_update d with
  | pk_metrics_updater_sum => given (residue t (x + number t v))
  | pk_metrics_updater_count => if decide (t = METRICS_TYPE_TIME) then 0 else residue t (x + 1)
  | pk_metrics_updater_max => given (Z.max x (number t v))
  | pk_metrics_updater_assign => given (number t v)
  | pk_metrics_updater_delta => given (residue t (number t v - x))
  | pk_metrics_updater_average => average_of m d
  end.

Lemma SWFT_MAX_max a b : SWFT_MAX a b = Z.max a b.
Proof. unfold SWFT_MAX. destruct (b <? a) eqn:E; bool_hyps; lia. Qed.

Lemma number_zero t : number t value_zero = 0.
Proof. by destruct t. Qed.

Lemma number_u32 t x : number METRICS_TYPE_U32 (mk_value t (u32 x)) = residue METRICS_TYPE_U32 x.
Proof. apply u32_idemp. Qed.

Lemma number_u64 t x : number METRICS_TYPE_U64 (mk_value t (u64 x)) = residue METRICS_TYPE_U64 x.
Proof. apply u64_idemp. Qed.

Lemma number_time t x : number METRICS_TYPE_TIME (mk_value t (u64 x)) = residue METRICS_TYPE_TIME x.
Proof. apply u64_idemp. Qed.

Lemma residue_small t x :
  0 <= x < 4294967296 \/ (t <> METRICS_TYPE_U32 /\ 0 <= x < 18446744073709551616) -> residue t x = x.
Proof. intros H. destruct t; cbn [residue]; apply Z.mod_small; destruct H as [?|[? ?]]; done || lia. Qed.

Lemma updater_max_number t cur upd :
  t <> METRICS_TYPE_F64 -> t <> METRICS_TYPE_UNKNOWN -> vtype upd = t ->
  number t (updater_max f64 t cur upd) = Z.max (number t cur) (number t upd).
Proof.
  intros Hf Hu Hv. unfold updater_max. rewrite decide_False by auto.
  pose proof (number_range t cur). pose proof (number_range t upd).
  destruct t; try done; rewrite SWFT_MAX_max; cbn [number] in *;
    unfold as_u32, as_s32, as_u64, as_s64, as_time in *; cbn [vdata].
  - apply s32_u32. lia.
  - apply s64_u64. lia.
  - cbn. rewrite u32_idemp. apply u32_small. lia.
  - cbn. rewrite u64_idemp. apply u64_small. lia.
  - cbn. rewrite u64_idemp. apply u64_small. lia.
Qed.

(** Dividing at the width of the type, with the test before it. *)
Lemma divide_number x q : 0 <= x -> 0 <= q ->
  (if q =? 0 then Ret 0 else c_div x q) = Ret (if q =? 0 then 0 else x / q).
Proof.
  intros Hx Hq. unfold c_div. destruct (q =? 0) eqn:E; bool_hyps; [done|]. by rewrite Z.quot_div_nonneg by lia.
Qed.

Lemma quotient_le x q : 0 <= x -> 0 <= q -> 0 <= (if q =? 0 then 0 else x / q) <= x.
Proof.
  intros Hx Hq. destruct (q =? 0) eqn:E; bool_hyps; [lia|]. split; [apply Z.div_pos; lia|].
  apply Z.div_le_upper_bound; nia.
Qed.

Lemma quotient_number t num dom :
  t = METRICS_TYPE_U32 \/ t = METRICS_TYPE_U64 \/ t = METRICS_TYPE_TIME ->
  exists w, quotient f64 t num dom = Ret w /\ value_ok t w /\
    number t w = (if residue t dom =? 0 then 0 else number t num / residue t dom).
Proof.
  intros Ht. pose proof (number_range t num) as Hn.
  pose proof (u32_range dom) as H32. pose proof (u64_range dom) as H64.
  assert (0 <= residue t dom) as Hr by (destruct Ht as [-> | [-> | ->]]; apply Z.mod_pos_bound; lia).
  pose proof (quotient_le (number t num) (residue t dom)
    ltac:(destruct Ht as [-> | [-> | ->]]; cbn iota in Hn; lia) Hr) as Hq.
  destruct Ht as [-> | [-> | ->]]; cbn iota in Hn; cbn [quotient];
    change (as_time num) with (number METRICS_TYPE_TIME num) in *;
    change (as_u64 num) with (number METRICS_TYPE_U64 num) in *;
    change (as_u32 num) with (number METRICS_TYPE_U32 num) in *;
    rewrite divide_number by lia; cbn [mbind outcome_bind];
    (eexists; split; [reflexivity|split; [solve_value_ok|]]).
  - etrans; [apply number_u32|]. apply residue_small. left. change (u32 dom) with (residue METRICS_TYPE_U32 dom). lia.
  - etrans; [apply number_u64|]. apply residue_small. right. split; [done|]. change (u64 dom) with (residue METRICS_TYPE_U64 dom). lia.
  - etrans; [apply number_time|]. apply residue_small. right. split; [done|]. change (u64 dom) with (residue METRICS_TYPE_TIME dom). lia.
Qed.

Lemma residue_u64 t x : residue t (u64 x) = residue t x.
Proof.
  destruct t; cbn [residue]; try apply u64_idemp.
  unfold u64. change 18446744073709551616 with (2 ^ 32 * 4294967296).
  rewrite Z.rem_mul_r by lia. rewrite Z.mul_comm, Z.mod_add by lia. apply Z.mod_mod. lia.
Qed.

Lemma denominator_number t v :
  t <> METRICS_TYPE_F64 -> t <> METRICS_TYPE_UNKNOWN -> get_denominator_value f64 t v = Ret (u64 (number t v)).
Proof. by destruct t. Qed.

Lemma entry_kind_type t u :
  entry_kind_ok t u = true -> t <> METRICS_TYPE_F64 /\ t <> METRICS_TYPE_UNKNOWN /\
  (u <> pk_metrics_updater_max -> u <> pk_metrics_updater_assign ->
   t = METRICS_TYPE_U32 \/ t = METRICS_TYPE_U64 \/ t = METRICS_TYPE_TIME).
Proof. by destruct t, u; auto 10. Qed.

Lemma average_number m t ctx d :
  Forall (descriptor_ok (length m)) m -> t = METRICS_TYPE_U32 \/ t = METRICS_TYPE_U64 \/ t = METRICS_TYPE_TIME ->
  md_type d = t -> md_context d = Some ctx ->
  exists w, updater_average f64 m t ctx = Ret w /\ value_ok t w /\ number t w = average_of m d.
Proof.
  intros Hm Ht Hd Hc. unfold updater_average, average_of. rewrite Hc, Hd.
  destruct ctx as [[i|] [j|]]; cbn [index_of_num index_of_dom];
    try (eexists; split; [reflexivity|split; [auto with piksi|apply number_zero]]).
  destruct (length m <=? i)%nat eqn:Ei; bool_hyps.
  { rewrite (lookup_ge_None_2 m i) by done.
    eexists; split; [reflexivity|split; [auto with piksi|apply number_zero]]. }
  destruct (length m <=? j)%nat eqn:Ej; bool_hyps.
  { rewrite (lookup_ge_None_2 m j) by done. destruct (m !! i);
    (eexists; split; [reflexivity|split; [auto with piksi|apply number_zero]]). }
  rewrite (list_lookup_lookup_total_lt m i), (list_lookup_lookup_total_lt m j) by done.
  pose proof (Forall_lookup_1 _ _ _ _ Hm (list_lookup_lookup_total_lt m i Ei)) as (_ & _ & Hki & _).
  pose proof (Forall_lookup_1 _ _ _ _ Hm (list_lookup_lookup_total_lt m j Ej)) as (_ & _ & Hkj & _).
  apply entry_kind_type in Hki as (_ & Hui & _), Hkj as (Hfj & Huj & _).
  rewrite !decide_False by done. case_decide as Hn.
  { eexists; split; [reflexivity|split; [auto with piksi|apply number_zero]]. }
  rewrite denominator_number by done. cbn [mbind outcome_bind].
  destruct (quotient_number t (md_value (m !!! i)) (u64 (number (md_type (m !!! j)) (md_value (m !!! j)))) Ht)
    as (w & -> & Hok & Hw). rewrite residue_u64 in Hw. by exists w.
Qed.

(** An update returns, and leaves the number of [next_number]. *)
Lemma run_updater_number m d v :
  Forall (descriptor_ok (length m)) m -> descriptor_ok (length m) d -> 0 <= vdata v < 18446744073709551616 ->
  exists w, run_updater f64 m d v = Ret w /\ value_ok (md_type d) w /\
    number (md_type d) w = next_number m d (number (md_type d) (md_value d)) v.
Proof.
  intros Hm (Hval & _ & Hk & Hctx) Hv. apply entry_kind_type in Hk as (Hf & Hu & Hun).
  unfold run_updater, next_number. destruct (md_update d) eqn:Eu; rewrite ?Eu in *.
  - unfold updater_sum. case_decide; [eexists; split; [reflexivity|split; [auto with piksi|apply number_zero]]|].
    destruct Hun as [Et | [Et | Et]]; [done..| | |]; rewrite Et in *;
      (eexists; split; [reflexivity|split; [solve_value_ok|]]);
      [apply number_u32|apply number_u64|apply number_time].
  - unfold updater_count. destruct Hun as [Et | [Et | Et]]; [done..| | |]; rewrite Et in *;
      (eexists; split; [reflexivity|split; [solve_value_ok|]]);
      [apply number_u32|apply number_u64|reflexivity].
  - destruct (Hctx eq_refl) as [ctx Hc]. rewrite Hc. by apply average_number; auto.
  - eexists; split; [reflexivity|]. case_decide as Hd.
    { unfold updater_max. rewrite decide_True by done. split; [auto with piksi|apply number_zero]. }
    assert (vtype v = md_type d) by (by destruct (decide (vtype v = md_type d))).
    split; [|by apply updater_max_number]. unfold updater_max. rewrite decide_False by auto.
    destruct (md_type d); solve_value_ok.
  - unfold updater_delta. case_decide; [eexists; split; [reflexivity|split; [auto with piksi|apply number_zero]]|].
    destruct Hun as [Et | [Et | Et]]; [done..| | |]; rewrite Et in *;
      (eexists; split; [reflexivity|split; [solve_value_ok|]]);
      [apply number_u32|apply number_u64|apply number_time].
  - eexists; split; [reflexivity|]. unfold updater_assign.
    case_decide as Hd; [split; [auto with piksi|apply number_zero]|]. split; [|done]. split; [|done].
    left. by destruct (decide (vtype v = md_type d)).
Qed.

Lemma metrics_wf_insert m i d :
  metrics_wf m -> (i < length m)%nat -> descriptor_ok (length m) d -> metrics_wf (<[i := d]> m).
Proof.
  intros [Hl Hf] Hi Hd. split; rewrite length_insert; [done|]. by apply Forall_insert.
Qed.

Lemma metrics_wf_lookup m i : metrics_wf m -> (i < length m)%nat -> descriptor_ok (length m) (m !!! i).
Proof.
  intros [_ Hf] Hi. eapply Forall_lookup_1; [exact Hf|]. by apply list_lookup_lookup_total_lt.
Qed.

Lemma pk_metrics_reset_wf now m i :
  metrics_wf m -> exists m' st, pk_metrics_reset now (Some m) i = (Some m', st) /\ metrics_wf m'.
Proof.
  intros Hwf. cbn [pk_metrics_reset]. destruct (length m <=? i)%nat eqn:E; bool_hyps; [by eexists _, _|].
  eexists _, _. split; [reflexivity|]. pose proof (metrics_wf_lookup m i Hwf E) as (H1 & H2 & H3 & H4).
  apply metrics_wf_insert; [done..|]. split_and!; try done. unfold run_reseter; cbn.
  destruct (md_reset (m !!! i)); [done|]. split; [by right|]. apply u64_range.
Qed.

Lemma pk_metrics_flush_wf m : metrics_wf m -> metrics_wf (pk_metrics_flush f64 m).
Proof.
  intros [Hl Hf]. unfold metrics_wf, pk_metrics_flush. rewrite length_map. split; [done|].
  apply Forall_map. eapply Forall_impl; [exact Hf|]. by intros d (H1 & H2 & H3 & H4).
Qed.

Lemma pk_metrics_update_good m i value :
  metrics_wf m -> 0 <= vdata value < 18446744073709551616 ->
  exists m' st, _pk_metrics_update f64 (Some m) i value = Ret (Some m', st) /\
    metrics_wf m' /\ length m' = length m /\
    (forall j, j <> i -> m' !! j = m !! j) /\
    (if (i <? length m)%nat
     then st = METRICS_STATUS_SUCCESS /\ exists v, m' !! i = Some (set_value (m !!! i) v) /\
       number (md_type (m !!! i)) v =
         next_number m (m !!! i) (number (md_type (m !!! i)) (md_value (m !!! i))) value
     else st = METRICS_STATUS_INVALID_INDEX /\ m' = m).
Proof.
  intros Hwf Hv. unfold _pk_metrics_update.
  destruct (length m <=? i)%nat eqn:E; bool_hyps.
  { exists m, METRICS_STATUS_INVALID_INDEX. rewrite (proj2 (Nat.ltb_ge _ _)) by done. done. }
  pose proof (metrics_wf_lookup m i Hwf E) as Hd. rewrite (proj2 (Nat.ltb_lt _ _)) by done.
  destruct (run_updater_number m (m !!! i) value (proj2 Hwf) Hd Hv) as (v & Hr & Hok & Hn).
  rewrite Hr. simpl. eexists _, _; split; [reflexivity|]. split_and!.
  - apply metrics_wf_insert; [done..|]. destruct Hd as (? & ? & ? & ?). by split_and!.
  - apply length_insert.
  - intros j Hj. by rewrite list_lookup_insert_ne.
  - done.
  - exists v. by rewrite list_lookup_insert_eq.
Qed.

(** ** Histories *)

(** Everything of an entry but its value and its file. *)
Definition same_entry (d d' : metrics_descriptor) : Prop :=
  md_type d' = md_type d /\ md_update d' = md_update d /\ md_reset d' = md_reset d /\
  md_initial d' = md_initial d /\ md_context d' = md_context d.

Lemma residue_add t x y : residue t (residue t x + y) = residue t (x + y).
Proof. destruct t; apply Zplus_mod_idemp_l. Qed.

Lemma residue_number t u v :
  entry_kind_ok t u = true -> u <> pk_metrics_updater_max -> u <> pk_metrics_updater_assign ->
  residue t (number t v) = number t v.
Proof.
  intros (_ & _ & H)%entry_kind_type H1 H2. pose proof (number_range t v) as Hn. apply residue_small.
  destruct (H H1 H2) as [-> | [-> | ->]]; cbn iota in Hn; [by left|right; done..].
Qed.

Lemma foldr_max_app xs y x : foldr Z.max x (xs ++ [y]) = Z.max (foldr Z.max x xs) y.
Proof. induction xs as [|z xs IH]; cbn; [lia|]. rewrite IH. lia. Qed.

Lemma foldr_add_app xs y : foldr Z.add 0 (xs ++ [y]) = foldr Z.add 0 xs + y.
Proof. induction xs as [|z xs IH]; cbn; [lia|]. rewrite IH. lia. Qed.

(** An update does to the number held what the history says. *)
Lemma holds_update m d avg h i v :
  entry_kind_ok (md_type d) (md_update d) = true ->
  let h' := record d i h (Update i v) in
  next_number m d (holds d avg (fst h) (snd h)) v = holds d (average_of m d) (fst h') (snd h').
Proof.
  intros Hk. destruct h as [x xs]. cbn [record]. rewrite (decide_False (P := i <> i)) by auto.
  unfold next_number, holds. destruct (md_update d) eqn:Eu; cbn [takes_value andb fst snd].
  - case_decide as Hd; [rewrite bool_decide_eq_true_2 by done|rewrite bool_decide_eq_false_2 by auto]; cbn.
    + by destruct (md_type d).
    + rewrite residue_add, foldr_add_app. f_equal. lia.
  - case_decide as Ht.
    + rewrite decide_True; [done|]. split; [done|]. by destruct xs.
    + rewrite !decide_False by naive_solver. rewrite residue_add, length_app. cbn. f_equal. lia.
  - rewrite decide_False; [done|]. by destruct xs.
  - case_decide as Hd; [by rewrite bool_decide_eq_true_2 by done|rewrite bool_decide_eq_false_2 by auto]; cbn.
    by rewrite foldr_max_app.
  - case_decide as Hd; [by rewrite bool_decide_eq_true_2 by done|rewrite bool_decide_eq_false_2 by auto]; cbn.
    by rewrite fold_left_app.
  - case_decide as Hd; [by rewrite bool_decide_eq_true_2 by done|rewrite bool_decide_eq_false_2 by auto]; cbn.
    by rewrite last_snoc.
Qed.

Lemma holds_start d avg v :
  entry_kind_ok (md_type d) (md_update d) = true -> holds d avg (number (md_type d) v) [] = number (md_type d) v.
Proof.
  intros Hk. unfold holds. destruct (md_update d) eqn:Eu; cbn; try done.
  - rewrite Z.add_0_r. by eapply residue_number.
  - rewrite decide_False by naive_solver. rewrite Z.add_0_r. by eapply residue_number.
Qed.

Lemma run_ops_app ops1 ops2 m : run_ops f64 (ops1 ++ ops2) m = (m1 ← run_ops f64 ops1 m; run_ops f64 ops2 m1).
Proof.
  revert m; induction ops1 as [|op ops1 IH]; intros m; [done|]. destruct op; cbn [run_ops app]; [| |apply IH].
  - destruct (_pk_metrics_update _ _ _ _) as [[m1 st]| |]; cbn; [|done..]. destruct m1; cbn; [apply IH|done].
  - destruct (fst (pk_metrics_reset _ _ _)); cbn; [apply IH|done].
Qed.

(** The average of the last update of entry [i], if there was one. *)
Definition averaged (m : pk_metrics) (d : metrics_descriptor) (i : nat) (ops : list metrics_op) (avg : Z) : Prop :=
  forall ops1 v ops2, ops = ops1 ++ Update i v :: ops2 -> (forall v', Update i v' ∉ ops2) ->
  exists m1, run_ops f64 ops1 m = Ret m1 /\ avg = average_of m1 d.

(** What is known of entry [i] after [ops]. *)
Definition accounted (m : pk_metrics) (ops : list metrics_op) (i : nat) (d d' : metrics_descriptor) : Prop :=
  same_entry d d' /\ exists avg, averaged m d i ops avg /\
    number (md_type d) (md_value d') = holds d avg (fst (history d i ops)) (snd (history d i ops)).

Lemma history_snoc d i ops op : history d i (ops ++ [op]) = record d i (history d i ops) op.
Proof. apply fold_left_app. Qed.

Lemma averaged_other m d i ops op avg :
  averaged m d i ops avg -> (forall v, op <> Update i v) -> averaged m d i (ops ++ [op]) avg.
Proof.
  intros H Ho ops1 v ops2 He Hn. destruct (decide (ops2 = [])) as [-> | Hne].
  { apply app_inj_tail in He as [_ He]. by destruct (Ho v). }
  destruct (exists_last Hne) as (ops3 & op' & ->). rewrite app_comm_cons, app_assoc in He.
  apply app_inj_tail in He as [He _]. eapply H; [done|]. intros v' Hv. apply (Hn v'). set_solver.
Qed.

Lemma averaged_here m d i ops v m1 :
  run_ops f64 ops m = Ret m1 -> averaged m d i (ops ++ [Update i v]) (average_of m1 d).
Proof.
  intros Hr ops1 v' ops2 He Hn. destruct (decide (ops2 = [])) as [-> | Hne].
  { apply app_inj_tail in He as [-> _]. by exists m1. }
  destruct (exists_last Hne) as (ops3 & op' & ->). rewrite app_comm_cons, app_assoc in He.
  apply app_inj_tail in He as [_ <-]. destruct (Hn v). set_solver.
Qed.

(** An operation that leaves entry [i] its value keeps what is known of it. *)
Lemma accounted_other m ops op i d d1 d2 :
  accounted m ops i d d1 -> same_entry d1 d2 -> md_value d2 = md_value d1 ->
  (forall v, op <> Update i v) -> (forall now, op <> Reset now i) -> accounted m (ops ++ [op]) i d d2.
Proof.
  intros ((H1 & H2 & H3 & H4 & H5) & avg & Ha & Hn) (E1 & E2 & E3 & E4 & E5) Hv Hu Hr. split.
  { split_and!; congruence. }
  exists avg. split; [by apply averaged_other|]. rewrite Hv, Hn, history_snoc.
  destruct op as [j v|now j|]; cbn [record]; [| |done]; case_decide as Hd; try done;
    (destruct (decide (j = i)) as [-> |]; [exfalso; first [by eapply Hu | by eapply Hr]|done]).
Qed.

Lemma average_same m d d' : same_entry d d' -> average_of m d' = average_of m d.
Proof. intros (H1 & _ & _ & _ & H5). unfold average_of. by rewrite H1, H5. Qed.

Lemma next_same m d d' x v : same_entry d d' -> next_number m d' x v = next_number m d x v.
Proof.
  intros Hs. unfold next_number. rewrite (average_same m d d' Hs). destruct Hs as (-> & -> & _). done.
Qed.

Lemma accounted_update m ops i v d d1 m1 w :
  accounted m ops i d d1 -> run_ops f64 ops m = Ret m1 -> entry_kind_ok (md_type d) (md_update d) = true ->
  number (md_type d1) w = next_number m1 d1 (number (md_type d1) (md_value d1)) v ->
  accounted m (ops ++ [Update i v]) i d (set_value d1 w).
Proof.
  intros (Hs & avg & Ha & Hn) Hr Hk Hw. split; [exact Hs|]. exists (average_of m1 d).
  split; [by apply averaged_here|]. rewrite (next_same m1 d d1) in Hw by done. destruct Hs as (Ht & _).
  rewrite Ht, Hn in Hw. cbn [set_value md_value]. rewrite Hw, history_snoc. by apply holds_update.
Qed.

Lemma accounted_reset m ops i now d d1 :
  accounted m ops i d d1 -> entry_kind_ok (md_type d) (md_update d) = true ->
  accounted m (ops ++ [Reset now i]) i d (set_value d1 (run_reseter (md_reset d1) now (md_initial d1))).
Proof.
  intros (Hs & avg & Ha & Hn) Hk. split; [exact Hs|]. exists avg. split; [by apply averaged_other|].
  destruct Hs as (_ & _ & Hr & Hi & _). cbn [set_value md_value]. rewrite Hr, Hi, history_snoc. cbn [record].
  rewrite decide_False by auto. cbn [fst snd]. by rewrite holds_start.
Qed.

Definition all_accounted (m : pk_metrics) (ops : list metrics_op) (m' : pk_metrics) : Prop :=
  length m' = length m /\ forall i d, m !! i = Some d -> exists d', m' !! i = Some d' /\ accounted m ops i d d'.
Lemma all_accounted_refl m : metrics_wf m -> all_accounted m [] m.
Proof.
  intros [_ Hwf]. split; [done|]. intros i d Hd. exists d. split; [done|]. split; [done|]. exists 0. split.
  { intros ops1 v ops2 He. by destruct ops1. }
  cbn. rewrite holds_start; [done|]. by apply (Forall_lookup_1 _ _ _ _ Hwf Hd).
Qed.

(** One more operation. *)
Lemma all_accounted_step m ops m1 op :
  metrics_wf m -> metrics_wf m1 -> op_ok op -> run_ops f64 ops m = Ret m1 -> all_accounted m ops m1 ->
  exists m2, run_ops f64 [op] m1 = Ret m2 /\ metrics_wf m2 /\ all_accounted m (ops ++ [op]) m2.
Proof.
  intros [_ Hm] Hwf Hop Hr [Hl Ha].
  assert (forall i d, m !! i = Some d -> entry_kind_ok (md_type d) (md_update d) = true) as Hk.
  { intros i d Hd. by apply (Forall_lookup_1 _ _ _ _ Hm Hd). }
  destruct op as [j v|now j|]; cbn [run_ops].
  - destruct (pk_metrics_update_good m1 j v Hwf Hop) as (m2 & st & -> & Hwf2 & Hl2 & Ho & Hj).
    exists m2. split; [done|]. split; [done|]. split; [congruence|]. intros i d Hd.
    destruct (Ha i d Hd) as (d1 & Hd1 & Hacc). destruct (decide (i = j)) as [-> | Hi].
    + apply lookup_lt_Some in Hd1 as Hlt. rewrite (proj2 (Nat.ltb_lt _ _)) in Hj by done.
      destruct Hj as (_ & w & Hw & Hn). rewrite (list_lookup_total_correct _ _ _ Hd1) in *.
      exists (set_value d1 w). split; [done|]. eapply accounted_update; eauto.
    + exists d1. rewrite Ho by done. split; [done|].
      eapply accounted_other; [done|done|done|congruence|congruence].
  - destruct (pk_metrics_reset_wf now m1 j Hwf) as (m2 & st & Hres & Hwf2). rewrite Hres. exists m2.
    split; [done|]. split; [done|]. cbn [pk_metrics_reset] in Hres.
    destruct (length m1 <=? j)%nat eqn:E; bool_hyps; simplify_eq.
    + split; [done|]. intros i d Hd. destruct (Ha i d Hd) as (d1 & Hd1 & Hacc). exists d1. split; [done|].
      apply lookup_lt_Some in Hd1 as Hlt. eapply accounted_other; [done|done|done|congruence|].
      intros now' [= -> ->]. lia.
    + split; [by rewrite length_insert|]. intros i d Hd. destruct (Ha i d Hd) as (d1 & Hd1 & Hacc).
      destruct (decide (i = j)) as [-> | Hi].
      * rewrite (list_lookup_total_correct _ _ _ Hd1). eexists. rewrite list_lookup_insert_eq by done.
        split; [done|]. apply accounted_reset; eauto.
      * exists d1. rewrite list_lookup_insert_ne by done. split; [done|].
        eapply accounted_other; [done|done|done|congruence|congruence].
  - exists (pk_metrics_flush f64 m1). split; [done|]. split; [by apply pk_metrics_flush_wf|].
    unfold pk_metrics_flush. split; [by rewrite length_map|]. intros i d Hd.
    destruct (Ha i d Hd) as (d1 & Hd1 & Hacc). rewrite list_lookup_fmap, Hd1. eexists. split; [done|].
    by eapply accounted_other.
Qed.

Lemma run_ops_accounted ops m :
  metrics_wf m -> Forall op_ok ops ->
  exists m', run_ops f64 ops m = Ret m' /\ metrics_wf m' /\ all_accounted m ops m'.
Proof.
  intros Hwf. induction ops as [|op ops IH] using rev_ind; intros Hops.
  { exists m. split; [done|]. split; [done|]. by apply all_accounted_refl. }
  apply Forall_app in Hops as [Hops Hop]. apply Forall_cons in Hop as [Hop _].
  destruct (IH Hops) as (m1 & Hr & Hwf1 & Ha). rewrite run_ops_app, Hr. cbn [mbind outcome_bind].
  by apply all_accounted_step.
Qed.

(** C37: for a table of at most 32 entries of the kinds that the repository's tables have
    (32- and 64-bit integers and times, with arithmetic on the unsigned ones only, averages
    with their context), and over any updates with any values, resets and flushes: every
    operation returns - nothing is divided by zero, no signed addition overflows and no
    missing context is followed - and each entry holds what was counted since it last
    restarted, which it does at a reset and, from zero, at a value of another type.  A sum is
    the start plus the values and a counter the start plus their number, at the width of
    the type (a counter of type TIME is always zero once updated); a maximum is the
    largest, an assigned entry the last, a delta the last value less what was held before;
    an average is, as of its last update, the quotient of the numbers that its two entries
    held, or zero when the divisor is zero, the dividend is of another type or an entry is
    missing.  Entries are never added, dropped or retyped. *)
Theorem metrics_account m ops :
  metrics_wf m -> Forall op_ok ops ->
  exists m', run_ops f64 ops m = Ret m' /\ length m' = length m /\
    forall i d, m !! i = Some d -> exists d', m' !! i = Some d' /\ same_entry d d' /\
      exists avg,
        (forall ops1 v ops2, ops = ops1 ++ Update i v :: ops2 -> (forall v', Update i v' ∉ ops2) ->
           exists m1, run_ops f64 ops1 m = Ret m1 /\ avg = average_of m1 d) /\
        number (md_type d) (md_value d') = holds d avg (fst (history d i ops)) (snd (history d i ops)).
Proof.
  intros Hwf Hops. destruct (run_ops_accounted ops m Hwf Hops) as (m' & Hr & _ & Hl & Ha). by exists m'.
Qed.

(** Counters and averages do not look at the value argument, so the value that
    [PK_METRICS_UPDATE] without an argument reads from the caller's frame is harmless. *)
Theorem pk_metrics_update_no_value m i junk1 junk2 :
  (i < length m)%nat ->
  md_update (m !!! i) = pk_metrics_updater_count \/
  md_update (m !!! i) = pk_metrics_updater_average ->
  _pk_metrics_update f64 (Some m) i junk1 = _pk_metrics_update f64 (Some m) i junk2.
Proof.
  intros Hi Hu. unfold _pk_metrics_update. destruct (_ <=? _)%nat; [done|].
  unfold run_updater. by destruct Hu as [-> | ->].
Qed.

(** ** Setup *)

Lemma pk_metrics_add_cases e m path name t v u r c :
  (exists d, pk_metrics_add f64 e m path name t v u r c = (m ++ [d], inl (length m)) /\
     (length m < MAX_METRICS)%nat /\ md_type d = t /\ md_update d = u /\ md_reset d = r /\
     md_initial d = v /\ md_value d = run_reseter r (env_now e) v /\ md_context d = c) \/
  (exists st, pk_metrics_add f64 e m path name t v u r c = (m, inr st)).
Proof.
  unfold pk_metrics_add. destruct (MAX_METRICS <=? _)%nat eqn:E; [by right; eexists|]. bool_hyps.
  repeat (case_match; [by right; eexists|]). left. eexists; split; [reflexivity|]. by split_and!.
Qed.

Lemma setup_loop_spec e base suffix table m idx m' idx' :
  setup_loop f64 e base suffix table m idx = Some (m', idx') ->
  (length m <= MAX_METRICS)%nat ->
  (length m' <= MAX_METRICS)%nat /\ idx' = idx ++ seq (length m) (length table) /\
  exists ds, m' = m ++ ds /\
    Forall2 (fun t d => md_type d = te_type t /\ md_update d = te_updater t /\
       md_reset d = te_reseter t /\ md_context d = te_context t /\ md_initial d = value_zero /\
       md_value d = run_reseter (te_reseter t) (env_now e) value_zero) table ds.
Proof.
  revert m idx; induction table as [|t table IH]; intros m idx H Hm; simpl in *.
  { simplify_eq. rewrite app_nil_r. split_and!; try done. exists []. by rewrite app_nil_r. }
  destruct (PATH_MAX <=? _); [done|].
  match type of H with context [pk_metrics_add f64 e m ?p ?n ?ty ?v ?u ?r ?c] =>
    destruct (pk_metrics_add_cases e m p n ty v u r c) as [(d & Ha & Hlt & Hd)|(st & Ha)];
    rewrite Ha in H; [|done] end.
  apply IH in H as (Hl & -> & ds & -> & Hds); [|rewrite length_app; simpl; lia].
  split; [done|]. rewrite length_app, <-app_assoc. simpl. rewrite Nat.add_1_r. split; [done|].
  exists (d :: ds). split; [by rewrite <-app_assoc|]. constructor; [|done]. naive_solver.
Qed.

(** A setup that succeeds stores in the index variables 0, 1, ..., n-1, in the order of
    the table, holds exactly the entries of the table with their initial values, and never
    more than 32 of them: a larger table is refused. *)
Theorem pk_metrics_setup_spec e ok base suffix table m idx :
  pk_metrics_setup f64 e ok base suffix table = Some (m, idx) ->
  idx = seq 0 (length table) /\ length m = length table /\ (length table <= MAX_METRICS)%nat /\
  forall i t, table !! i = Some t -> exists d, m !! i = Some d /\
    md_type d = te_type t /\ md_update d = te_updater t /\ md_reset d = te_reseter t /\
    md_context d = te_context t /\ md_value d = run_reseter (te_reseter t) (env_now e) value_zero.
Proof.
  unfold pk_metrics_setup. destruct base as [b|]; [|done]. destruct ok; simpl; [|done].
  intros H. apply setup_loop_spec in H as (Hl & -> & ds & -> & Hds); [|vm_compute; lia].
  simpl in *. pose proof (Forall2_length _ _ _ Hds) as Hlen. split_and!; try done; try lia.
  intros i t Ht. eapply Forall2_lookup_l in Hds as (d & Hd & H); [|done]. exists d. naive_solver.
Qed.
End facts.

(** ** Witnesses *)

(** Doubles restricted to integers, for concrete runs. *)
Definition f64_int : f64_ops := {|
  f64_add := Z.add; f64_sub := Z.sub; f64_div := Z.quot; f64_gt := Z.gtb;
  f64_of_u64 := fun x => x; f64_to_u64 := Some; f64_is_zero := Z.eqb 0; f64_print := pretty;
|}.

Definition example_env : add_env := {|
  env_base_path := "/var/log/metrics"; env_mkpath := fun _ => true; env_open := fun _ => true; env_now := 7;
|}.

Definition example_table : list table_entry :=
  [ mk_entry "msg" "count" METRICS_TYPE_U32 pk_metrics_updater_count pk_metrics_reset_default None;
    mk_entry "msg" "size" METRICS_TYPE_U32 pk_metrics_updater_sum pk_metrics_reset_default None;
    mk_entry "msg" "avg" METRICS_TYPE_U32 pk_metrics_updater_average pk_metrics_reset_default
      (Some (mk_average (Some 1%nat) (Some 0%nat))) ].

Definition example_metrics : pk_metrics :=
  match pk_metrics_setup f64_int example_env true (Some "ep") "" example_table with
  | Some (m, _) => m
  | None => []
  end.

Lemma pk_metrics_setup_spec_witness :
  [0; 1; 2]%nat = seq 0 (length example_table) /\ length example_metrics = length example_table /\
  (length example_table <= MAX_METRICS)%nat /\
  forall i t, example_table !! i = Some t -> exists d, example_metrics !! i = Some d /\
    md_type d = te_type t /\ md_update d = te_updater t /\ md_reset d = te_reseter t /\
    md_context d = te_context t /\
    md_value d = run_reseter (te_reseter t) (env_now example_env) value_zero.
Proof.
  apply (pk_metrics_setup_spec f64_int example_env true (Some "ep") ""). vm_compute. reflexivity.
Defined.

Lemma example_metrics_wf : metrics_wf example_metrics.
Proof.
  split; [vm_compute; lia|]. let m := eval vm_compute in example_metrics in change example_metrics with m.
  repeat (apply Forall_cons; split; [split_and!; [apply value_zero_ok|apply value_zero_ok|reflexivity|
    first [discriminate | intros _; by eexists]]|]).
  constructor.
Qed.

(** Two messages of 40 and 2 bytes, their average, a flush and a reset of the counter. *)
Definition example_ops : list metrics_op :=
  [Update 0 value_zero; Update 1 (pk_metrics_u32 40); Update 0 value_zero; Update 1 (pk_metrics_u32 2);
   Update 2 value_zero; Flush; Reset 9 0].

Lemma metrics_account_witness :
  exists m', run_ops f64_int example_ops example_metrics = Ret m' /\
    option_map (fun d => number METRICS_TYPE_U32 (md_value d)) (m' !! 1%nat) = Some 42 /\
    option_map (fun d => number METRICS_TYPE_U32 (md_value d)) (m' !! 2%nat) = Some 21 /\
    option_map (fun d => number METRICS_TYPE_U32 (md_value d)) (m' !! 0%nat) = Some 0.
Proof.
  destruct (metrics_account f64_int example_metrics example_ops) as (m' & Hr & _ & Ha).
  - apply example_metrics_wf.
  - repeat (constructor; [vm_compute; try (split; [discriminate|reflexivity]); exact I|]). constructor.
  - exists m'. split; [exact Hr|].
    destruct (Ha 0%nat _ eq_refl) as (d0 & E0 & (_ & _) & a0 & _ & H0).
    destruct (Ha 1%nat _ eq_refl) as (d1 & E1 & (_ & _) & a1 & _ & H1).
    destruct (Ha 2%nat _ eq_refl) as (d2 & E2 & (_ & _) & a2 & Hav & H2).
    rewrite E0, E1, E2. cbn [option_map]. split_and!; f_equal; [exact H1| |exact H0].
    destruct (Hav (take 4 example_ops) value_zero (drop 5 example_ops) eq_refl) as (m1 & Hm1 & ->).
    { intros v' Hin. cbn in Hin. repeat (apply elem_of_cons in Hin as [?|Hin]; [discriminate|]).
      by apply elem_of_nil in Hin. }
    vm_compute in Hm1. injection Hm1 as <-. exact H2.
Defined.

Lemma pk_metrics_update_no_value_witness :
  _pk_metrics_update f64_int (Some example_metrics) 2 (pk_metrics_u32 5) =
  _pk_metrics_update f64_int (Some example_metrics) 2 value_zero.
Proof.
  apply pk_metrics_update_no_value; [vm_compute; lia|right; vm_compute; reflexivity].
Defined.
