(* ===== verification/PathValidator.v ===== *)
(** * The path validator ([src/package/sbp_fileio_daemon/sbp_fileio_daemon/src/path_validator.c])

    The file I/O daemon serves only files below the directories it was started with.
    [path_validator_check] asks [realpath] where a path leads, or, for a file that does not
    exist yet, compares the text of the path; what it has once allowed it keeps in a table
    ([Table]).  What the file system answers is an input of each call, [path_fs]. *)

From Stdlib Require Import Ascii.
From S2P Require Import Prelude Libc Table Metrics.

Definition MAX_CACHE_ENTRIES : nat := 512.

(** What [realpath(path, buf)] gives, and whether [stat(path)] succeeds. *)
Inductive realpath_result := RP_resolved (resolved : string) | RP_ENOENT | RP_error.
Record path_fs := mk_fs { realpath : string -> realpath_result; stat_ok : string -> bool }.

Record path_validator := mk_validator {
  base_paths_size : nat;
  path_list : list string;          (* the most recent first *)
  allowed_count : nat;
  match_cache : table bool;
  pv_metrics : option pk_metrics;
}.

Module PMI.
Definition cache_hits : nat := 0.
Definition stat_calls : nat := 1.
Definition realpath_calls : nat := 2.
End PMI.

Definition path_validator_metrics_table : list table_entry :=
  [ mk_entry "cache/hits" "per_second" METRICS_TYPE_U32 pk_metrics_updater_count pk_metrics_reset_default None;
    mk_entry "stat/calls" "per_second" METRICS_TYPE_U32 pk_metrics_updater_count pk_metrics_reset_default None;
    mk_entry "realpath/calls" "per_second" METRICS_TYPE_U32 pk_metrics_updater_count pk_metrics_reset_default None ].

(** ** Strings *)

Definition ends_with_slash (s : string) : bool :=
  match last (String.list_ascii_of_string s) with Some c => Ascii.eqb c "/" | None => false end.

(** [s[strlen(s) - 1] = '\0'] *)
Definition drop_last (s : string) : string := string_take (String.length s - 1) s.

(** [strstr(s, p) == s] *)
Fixpoint is_prefix (p s : string) : bool :=
  match p, s with
  | EmptyString, _ => true
  | String.String a p', String.String b s' => Ascii.eqb a b && is_prefix p' s'
  | String.String _ _, EmptyString => false
  end.

(** Without its trailing slashes. *)
Fixpoint skip_slashes (r : list ascii) : list ascii :=
  match r with
  | c :: r' => if Ascii.eqb c "/" then skip_slashes r' else r
  | [] => []
  end.

Fixpoint skip_name (r : list ascii) : list ascii :=
  match r with
  | c :: r' => if Ascii.eqb c "/" then r else skip_name r'
  | [] => []
  end.

(** [dirname(3)], on the reversed path: the last name and the slashes around it removed; a
    root of exactly two slashes is kept. *)
Definition dirname (path : string) : string :=
  let root (r : list ascii) := if length r =? 2 then "//" else "/" in
  let r := rev (String.list_ascii_of_string path) in
  match r, skip_slashes r with
  | [], _ => "."
  | _, [] => root r
  | _, r1 =>
      match skip_name r1 with
      | [] => "."
      | r2 => match skip_slashes r2 with
              | [] => root r2
              | r3 => String.string_of_list_ascii (rev r3)
              end
      end
  end.

(** ** Operations *)

(** [cfg] is the size of the print buffer when a configuration is given.  [metrics] is what
    the uninitialised member holds until [path_validator_setup_metrics]. *)
Definition path_validator_create (cfg : option nat) (metrics : option pk_metrics) : path_validator :=
  mk_validator (default 4096 cfg) [] 0 (table_create MAX_CACHE_ENTRIES) metrics.

(** [setup] is the result of [pk_metrics_setup] on the table above. *)
Definition path_validator_setup_metrics (ctx : path_validator) (setup : option pk_metrics) :
    path_validator * bool :=
  (mk_validator (base_paths_size ctx) (path_list ctx) (allowed_count ctx) (match_cache ctx) setup,
   bool_decide (is_Some setup)).

(** [None] when the program exits, for the empty path. *)
Definition path_validator_allow_path (ctx : path_validator) (path : string) : option (path_validator * bool) :=
  if (String.length path =? 0)%nat then None
  else if (PATH_MAX <=? Z.of_nat (String.length path))%Z then Some (ctx, false)
  else Some (mk_validator (base_paths_size ctx) (path :: path_list ctx) (S (allowed_count ctx))
               (match_cache ctx) (pv_metrics ctx), true).

Definition path_validator_allowed_count (ctx : path_validator) : nat := allowed_count ctx.

Definition cache_lookup (cache : table bool) (path : string) (result : bool) : table bool :=
  if MAX_CACHE_ENTRIES <=? table_count cache then cache
  else fst (table_put cache path result).

Section check.
Variable f64 : f64_ops.
Variable junk : pk_metrics_value.     (* read by updates without a value *)
Variable fs : path_fs.

(** [if (ctx->metrics != NULL) PK_METRICS_UPDATE(ctx->metrics, MI.x)] *)
Definition pv_count (ctx : path_validator) (i : nat) : outcome path_validator :=
  match pv_metrics ctx with
  | None => Ret ctx
  | Some m =>
      r ← _pk_metrics_update f64 (Some m) i junk;
      Ret (mk_validator (base_paths_size ctx) (path_list ctx) (allowed_count ctx) (match_cache ctx) (fst r))
  end.

Definition validate_path (ctx : path_validator) (basedir_path path : string) :
    outcome (path_validator * bool) :=
  if (PATH_MAX <=? Z.of_nat (String.length basedir_path))%Z then Ret (ctx, false)
  else if (String.length basedir_path =? 0)%nat then Undef      (* basedir_buf[-1] *)
  else
    let basedir_buf := if ends_with_slash basedir_path then drop_last basedir_path else basedir_path in
    let path_buf := if is_prefix "/" path then path else "/" +:+ path in
    if (PATH_MAX <=? Z.of_nat (String.length path_buf))%Z then Ret (ctx, false)
    else
      ctx ← pv_count ctx PMI.realpath_calls;
      match realpath fs path_buf with
      | RP_resolved resolved => Ret (ctx, is_prefix basedir_buf resolved)
      | RP_ENOENT =>
          if is_prefix basedir_path path_buf then
            ctx ← pv_count ctx PMI.stat_calls;
            Ret (ctx, stat_ok fs (dirname path_buf))
          else Ret (ctx, false)
      | RP_error => Ret (ctx, false)
      end.

(** The loop over the allowed directories. *)
Fixpoint check_nodes (ctx : path_validator) (nodes : list string) (path : string) :
    outcome (path_validator * bool) :=
  match nodes with
  | [] => Ret (ctx, false)
  | node :: nodes' =>
      r ← validate_path ctx node path;
      let '(ctx, ok) := r in
      if (ok : bool) then
        Ret (mk_validator (base_paths_size ctx) (path_list ctx) (allowed_count ctx)
               (cache_lookup (match_cache ctx) path true) (pv_metrics ctx), true)
      else check_nodes ctx nodes' path
  end.

Definition path_validator_check (ctx : path_validator) (path : string) : outcome (path_validator * bool) :=
  match table_get (match_cache ctx) path with
  | Some true => ctx ← pv_count ctx PMI.cache_hits; Ret (ctx, true)
  | _ => check_nodes ctx (path_list ctx) path
  end.
End check.

(** The metrics are flushed and reset; a NULL pointer is dereferenced by the flush. *)
Definition path_validator_flush_metrics (f64 : f64_ops) (now : Z) (ctx : path_validator) : outcome path_validator :=
  m ← of_option (pv_metrics ctx);
  let m := Some (pk_metrics_flush f64 m) in
  let m := fst (pk_metrics_reset now m PMI.cache_hits) in
  let m := fst (pk_metrics_reset now m PMI.realpath_calls) in
  let m := fst (pk_metrics_reset now m PMI.stat_calls) in
  Ret (mk_validator (base_paths_size ctx) (path_list ctx) (allowed_count ctx) (match_cache ctx) m).

(** [path_validator_destroy]: the nodes freed, in order, and the cache entries released. *)
Definition path_validator_destroy (ctx : path_validator) : list string * list bool :=
  (path_list ctx, table_destroy (match_cache ctx)).

(** ** Printing the allowed directories *)

(** The loop of [path_validator_base_paths]: [out] is the text so far, [remaining] is
    [base_paths_remaining].  Each [snprintf] writes at most its limit, from the end of [out]
    on; a write past the buffer of [size] bytes is [Undef]. *)
Fixpoint print_nodes (size : Z) (nodes : list string) (out : string) (remaining : Z) : outcome string :=
  match nodes with
  | [] => Ret out
  | node :: nodes' =>
      if (remaining =? 0)%Z then Ret out
      else
        let count := Z.of_nat (String.length node + 1) in
        let offset := Z.of_nat (String.length out) in
        if (size <? offset + Z.min remaining (count + 1))%Z then Undef
        else if (remaining <=? count)%Z then
          if (size <? offset + 5)%Z then Undef else Ret (out +:+ "...,")
        else print_nodes size nodes' (out +:+ node +:+ ",") (remaining - count)
  end.

(** The text before the last comma, the whole text when there is none. *)
Fixpoint before_last_comma (s : string) : option string :=
  match s with
  | EmptyString => None
  | String.String c s' =>
      match before_last_comma s' with
      | Some r => Some (String.String c r)
      | None => if Ascii.eqb c "," then Some EmptyString else None
      end
  end.

Definition path_validator_base_paths (ctx : path_validator) : outcome string :=
  let size := Z.of_nat (base_paths_size ctx) in
  let remaining := u32 (size - 5) in
  if (remaining =? 0)%Z then Undef       (* the assertion *)
  else
    s ← print_nodes size (path_list ctx) EmptyString remaining;
    Ret (default s (before_last_comma s)).

(** ** Specification *)

Definition absolute (path : string) : string := if is_prefix "/" path then path else "/" +:+ path.
Definition without_slash (dir : string) : string := if ends_with_slash dir then drop_last dir else dir.

(** A directory admits a path: a path that exists when the text of its real path begins with
    the directory's; one that does not when its own text does and its parent exists. *)
Definition admits (fs : path_fs) (dir path : string) : Prop :=
  (Z.of_nat (String.length (absolute path)) < PATH_MAX)%Z /\
  match realpath fs (absolute path) with
  | RP_resolved resolved => is_prefix (without_slash dir) resolved = true
  | RP_ENOENT => is_prefix dir (absolute path) = true /\ stat_ok fs (dirname (absolute path)) = true
  | RP_error => False
  end.

Definition dir_ok (dir : string) : Prop := (0 < Z.of_nat (String.length dir) < PATH_MAX)%Z.

(** The calls on a validator, each check with the file system of its time. *)
Inductive pv_call := PV_allow (path : string) | PV_check (fs : path_fs) (path : string).

Section run.
Variable f64 : f64_ops.
Variable junk : pk_metrics_value.
Hypothesis junk_ok : (0 <= vdata junk < 18446744073709551616)%Z.

(** The answers; the run ends when the program exits. *)
Fixpoint pv_run (ctx : path_validator) (calls : list pv_call) : outcome (path_validator * list bool) :=
  match calls with
  | [] => Ret (ctx, [])
  | PV_allow path :: calls' =>
      match path_validator_allow_path ctx path with
      | None => Ret (ctx, [])
      | Some (ctx, b) => r ← pv_run ctx calls'; Ret (fst r, b :: snd r)
      end
  | PV_check fs path :: calls' =>
      r ← path_validator_check f64 junk fs ctx path;
      let '(ctx, b) := r in
      r ← pv_run ctx calls'; Ret (fst r, b :: snd r)
  end.

(** What the directories allowed by a history of calls are. *)
Definition dirs_of (calls : list pv_call) : list string :=
  flat_map (fun c => match c with PV_allow p => if decide (dir_ok p) then [p] else [] | _ => [] end) calls.

(** Some directory allowed by the history admits the path, in the file system of some check
    of that path in the history. *)
Definition admitted_before (calls : list pv_call) (path : string) : Prop :=
  exists fs dir, PV_check fs path ∈ calls /\ dir ∈ dirs_of calls /\ admits fs dir path.

Definition pv_metrics_ok (ctx : path_validator) : Prop :=
  match pv_metrics ctx with Some m => metrics_wf m | None => True end.

(** The invariant, with the calls so far. *)
Definition pv_inv (calls : list pv_call) (ctx : path_validator) : Prop :=
  table_wf (match_cache ctx) /\ max_entries (match_cache ctx) = MAX_CACHE_ENTRIES /\ pv_metrics_ok ctx /\
  (forall d, d ∈ path_list ctx <-> d ∈ dirs_of calls) /\
  allowed_count ctx = length (path_list ctx) /\
  (forall p b, table_get (match_cache ctx) p = Some b -> admitted_before calls p).

(** Two contexts that differ in their metrics only. *)
Definition same_paths (c1 c2 : path_validator) : Prop :=
  base_paths_size c2 = base_paths_size c1 /\ path_list c2 = path_list c1 /\
  allowed_count c2 = allowed_count c1 /\ match_cache c2 = match_cache c1.

Lemma pv_count_ok ctx i :
  pv_metrics_ok ctx -> exists ctx', pv_count f64 junk ctx i = Ret ctx' /\ pv_metrics_ok ctx' /\ same_paths ctx ctx'.
Proof.
  intros Hm. unfold pv_count, pv_metrics_ok in *. destruct (pv_metrics ctx) as [m|] eqn:E.
  - destruct (pk_metrics_update_good f64 m i junk Hm junk_ok) as (m' & st & -> & Hm' & _).
    cbn [mbind outcome_bind fst]. eexists. split; [reflexivity|]. by split_and!.
  - exists ctx. split; [done|]. rewrite E. done.
Qed.

Lemma same_paths_refl c : same_paths c c.
Proof. done. Qed.

Lemma same_paths_trans c1 c2 c3 : same_paths c1 c2 -> same_paths c2 c3 -> same_paths c1 c3.
Proof. unfold same_paths. intros (-> & -> & -> & ->) (? & ? & ? & ?). done. Qed.

Lemma validate_path_ok fs ctx dir path :
  dir_ok dir -> pv_metrics_ok ctx ->
  exists ctx' b, validate_path f64 junk fs ctx dir path = Ret (ctx', b) /\
    (b = true <-> admits fs dir path) /\ pv_metrics_ok ctx' /\ same_paths ctx ctx'.
Proof.
  intros [Hd1 Hd2] Hm. unfold validate_path, admits. fold (without_slash dir) (absolute path).
  destruct (PATH_MAX <=? Z.of_nat (String.length dir))%Z eqn:E1; bool_hyps; [lia|].
  destruct (String.length dir =? 0) eqn:E2; bool_hyps; [lia|].
  destruct (PATH_MAX <=? _)%Z eqn:E3; bool_hyps.
  { exists ctx, false. split; [done|]. split; [|done]. split; [done|]. intros [? _]. lia. }
  destruct (pv_count_ok ctx PMI.realpath_calls Hm) as (c1 & -> & Hm1 & Hs1). cbn [mbind outcome_bind].
  destruct (realpath fs (absolute path)) as [r| |].
  - eexists _, _. split; [reflexivity|]. split; [tauto|done].
  - destruct (is_prefix dir (absolute path)).
    + destruct (pv_count_ok c1 PMI.stat_calls Hm1) as (c2 & -> & Hm2 & Hs2). cbn [mbind outcome_bind].
      eexists _, _. split; [reflexivity|]. split; [tauto|]. split; [done|]. by eapply same_paths_trans.
    + eexists _, _. split; [reflexivity|]. split; [|done]. split; [done|]. by intros (_ & ? & _).
  - eexists _, _. split; [reflexivity|]. split; [|done]. split; [done|]. by intros [_ ?].
Qed.

(** The loop over the directories finds one that admits the path, if there is one. *)
Lemma check_nodes_ok fs ctx nodes path :
  Forall dir_ok nodes -> pv_metrics_ok ctx ->
  exists ctx' b, check_nodes f64 junk fs ctx nodes path = Ret (ctx', b) /\
    (b = true <-> exists dir, dir ∈ nodes /\ admits fs dir path) /\ pv_metrics_ok ctx' /\
    base_paths_size ctx' = base_paths_size ctx /\ path_list ctx' = path_list ctx /\
    allowed_count ctx' = allowed_count ctx /\
    match_cache ctx' = (if b then cache_lookup (match_cache ctx) path true else match_cache ctx).
Proof.
  intros Hd. revert ctx. induction Hd as [|dir nodes Hdir _ IH]; intros ctx Hm; cbn [check_nodes].
  { exists ctx, false. split; [done|]. split; [|done]. split; [done|]. by intros (? & ?%elem_of_nil & _). }
  destruct (validate_path_ok fs ctx dir path Hdir Hm) as (c1 & b & -> & Hb & Hm1 & Hs1 & Hs2 & Hs3 & Hs4).
  cbn [mbind outcome_bind]. destruct b.
  - eexists _, true. split; [reflexivity|]. cbn [base_paths_size path_list allowed_count match_cache].
    split; [|by rewrite Hs4]. split; [|done]. intros _. exists dir. split; [left|by apply Hb].
  - destruct (IH c1 Hm1) as (c2 & b & -> & Hb2 & Hm2 & Ht1 & Ht2 & Ht3 & Ht4). exists c2, b.
    split; [done|]. rewrite Ht1, Ht2, Ht3, Ht4, Hs4. split; [|by destruct b]. rewrite Hb2. split.
    + intros (d & ? & ?). exists d. split; [by right|done].
    + intros (d & [->|Hd]%elem_of_cons & Ha); [|by exists d]. by apply Hb in Ha.
Qed.

Lemma dirs_of_ok calls : Forall dir_ok (dirs_of calls).
Proof.
  apply Forall_flat_map, Forall_forall. intros [p|fs p] _; [|constructor]. case_decide; [by apply Forall_singleton|constructor].
Qed.

Lemma admitted_mono calls calls' path : calls ⊆ calls' -> admitted_before calls path -> admitted_before calls' path.
Proof.
  intros Hsub (fs & dir & H1 & H2 & H3). exists fs, dir. split; [by apply Hsub|]. split; [|done].
  unfold dirs_of in *. apply list_elem_of_In, in_flat_map in H2 as (c & Hc & Hd).
  apply list_elem_of_In, in_flat_map. exists c. split; [|done]. apply list_elem_of_In, Hsub. by apply list_elem_of_In.
Qed.

Lemma cache_lookup_wf cache path b : table_wf cache -> table_wf (cache_lookup cache path b).
Proof. intros Hwf. unfold cache_lookup. destruct (_ <=? _); [done|]. by apply table_put_wf. Qed.

Lemma cache_lookup_get cache path p b :
  table_wf cache -> table_get (cache_lookup cache path true) p = Some b ->
  table_get cache p = Some b \/ (p = path /\ b = true).
Proof.
  intros Hwf. unfold cache_lookup. destruct (_ <=? _); [by left|]. rewrite table_put_cases.
  case_decide as Hd; [|by left]. cbn [fst]. unfold table_get. rewrite !hash_find_map. cbn [hash_entries].
  destruct Hd as [Hn _]. rewrite list_to_map_snoc_fresh by done. rewrite lookup_insert_Some.
  intros [[-> <-]|[_ ?]]; [by right|by left].
Qed.

(** One check: the answer, and the invariant after it. *)
Lemma path_validator_check_ok calls fs ctx path :
  pv_inv calls ctx ->
  exists ctx' b, path_validator_check f64 junk fs ctx path = Ret (ctx', b) /\
    pv_inv (calls ++ [PV_check fs path]) ctx' /\
    ((exists dir, dir ∈ dirs_of calls /\ admits fs dir path) -> b = true) /\
    (b = true -> admitted_before (calls ++ [PV_check fs path]) path).
Proof.
  intros (Hwf & Hmax & Hm & Hdirs & Hcount & Hcache).
  assert (forall cs, dirs_of (cs ++ [PV_check fs path]) = dirs_of cs) as Hsame.
  { intros cs. unfold dirs_of. rewrite flat_map_app. cbn. apply app_nil_r. }
  assert (calls ⊆ calls ++ [PV_check fs path]) as Hsub by (intros x Hx; apply elem_of_app; by left).
  assert (forall dir, dir ∈ dirs_of calls -> admits fs dir path ->
    admitted_before (calls ++ [PV_check fs path]) path) as Hnow.
  { intros dir Hd Ha. exists fs, dir. split; [apply elem_of_app; right; left|]. by rewrite Hsame. }
  unfold path_validator_check. destruct (decide (table_get (match_cache ctx) path = Some true)) as [Eg|Eg].
  { rewrite Eg. destruct (pv_count_ok ctx PMI.cache_hits Hm) as (c1 & -> & Hm1 & _ & Hs2 & Hs3 & Hs4).
    exists c1, true. cbn [mbind outcome_bind]. split; [done|]. split; [|split; [done|]].
    - unfold pv_inv. rewrite Hs2, Hs3, Hs4, Hsame. split_and!; try done.
      intros p b Hp. eapply admitted_mono; [exact Hsub|]. by eapply Hcache.
    - intros _. eapply admitted_mono; [exact Hsub|]. by eapply Hcache. }
  assert (match table_get (match_cache ctx) path with
    | Some true => ctx ← pv_count f64 junk ctx PMI.cache_hits; Ret (ctx, true)
    | _ => check_nodes f64 junk fs ctx (path_list ctx) path end =
    check_nodes f64 junk fs ctx (path_list ctx) path) as -> by (by destruct (table_get _ path) as [[]|]).
  destruct (check_nodes_ok fs ctx (path_list ctx) path) as (c1 & b & -> & Hb & Hm1 & Hs1 & Hs2 & Hs3 & Hs4);
    [apply Forall_forall; intros d Hd; eapply Forall_forall; [apply (dirs_of_ok calls)|by apply Hdirs]|done|].
  assert (b = true <-> exists dir, dir ∈ dirs_of calls /\ admits fs dir path) as Hb'
    by (rewrite Hb; by setoid_rewrite Hdirs). clear Hb.
  assert (b = true -> admitted_before (calls ++ [PV_check fs path]) path) as Hadm
    by (intros (dir & ? & ?)%Hb'; by eapply Hnow).
  exists c1, b. split; [done|]. split; [|split; [by apply Hb'|done]].
  unfold pv_inv. rewrite Hs2, Hs3, Hsame, Hs4. split_and!; try done; destruct b; try done.
  - by apply cache_lookup_wf.
  - unfold cache_lookup. destruct (_ <=? _); [done|]. rewrite table_put_cases. by case_decide.
  - intros p b [Hp|[-> ->]]%cache_lookup_get; [|by apply Hadm|done].
    eapply admitted_mono; [exact Hsub|]. by eapply Hcache.
  - intros p b Hp. eapply admitted_mono; [exact Hsub|]. by eapply Hcache.
Qed.

Lemma path_validator_allow_ok calls ctx path ctx' b :
  pv_inv calls ctx -> path_validator_allow_path ctx path = Some (ctx', b) ->
  pv_inv (calls ++ [PV_allow path]) ctx' /\ (b = true <-> dir_ok path).
Proof.
  intros (Hwf & Hmax & Hm & Hdirs & Hcount & Hcache) Ha. unfold path_validator_allow_path, dir_ok in *.
  assert (calls ⊆ calls ++ [PV_allow path]) as Hsub by (intros x Hx; apply elem_of_app; by left).
  assert (dirs_of (calls ++ [PV_allow path]) =
    dirs_of calls ++ if decide (dir_ok path) then [path] else []) as Hnew.
  { unfold dirs_of. rewrite flat_map_app. cbn. by rewrite app_nil_r. }
  unfold pv_inv. rewrite Hnew. unfold dir_ok.
  destruct (String.length path =? 0) eqn:E0; [done|]. destruct (PATH_MAX <=? _)%Z eqn:E1; bool_hyps;
    injection Ha as <- <-.
  - rewrite decide_False by lia. rewrite app_nil_r. split; [|split; [done|lia]]. split_and!; try done.
    intros p b Hp. eapply admitted_mono; [exact Hsub|]. by eapply Hcache.
  - rewrite decide_True by lia. split; [|split; [lia|done]].
    cbn [match_cache path_list allowed_count pv_metrics_ok]. split_and!; try done.
    + intros d. rewrite elem_of_app, elem_of_cons, list_elem_of_singleton, Hdirs. tauto.
    + by rewrite Hcount.
    + intros p b Hp. eapply admitted_mono; [exact Hsub|]. by eapply Hcache.
Qed.

(** The answers of a run that follows the calls [before]. *)
Fixpoint answers_ok (before calls : list pv_call) (bs : list bool) : Prop :=
  match calls, bs with
  | PV_allow path as c :: calls', b :: bs' =>
      (b = true <-> dir_ok path) /\ answers_ok (before ++ [c]) calls' bs'
  | PV_check fs path as c :: calls', b :: bs' =>
      ((exists dir, dir ∈ dirs_of before /\ admits fs dir path) -> b = true) /\
      (b = true -> admitted_before (before ++ [c]) path) /\
      answers_ok (before ++ [c]) calls' bs'
  | [], [] => True
  | PV_allow path :: _, [] => path = EmptyString
  | _, _ => False
  end.

Lemma pv_run_ok before ctx calls :
  pv_inv before ctx ->
  exists ctx' bs, pv_run ctx calls = Ret (ctx', bs) /\ answers_ok before calls bs /\
    table_count (match_cache ctx') <= MAX_CACHE_ENTRIES.
Proof.
  revert before ctx. induction calls as [|c calls IH]; intros before ctx Hinv; cbn [pv_run].
  { exists ctx, []. split_and!; [done..|]. destruct Hinv as ([_ ?] & <- & _). done. }
  destruct c as [path|fs path].
  - destruct (path_validator_allow_path ctx path) as [[c1 b]|] eqn:Ea.
    + destruct (path_validator_allow_ok _ _ _ _ _ Hinv Ea) as [Hinv1 Hb].
      destruct (IH _ _ Hinv1) as (c2 & bs & -> & Hbs & Hc). exists c2, (b :: bs). by split_and!.
    + exists ctx, []. split_and!; [done| |by destruct Hinv as ([_ ?] & <- & _)].
      unfold path_validator_allow_path in Ea. destruct (String.length path =? 0) eqn:E0; bool_hyps.
      * by destruct path.
      * by destruct (PATH_MAX <=? _)%Z.
  - destruct (path_validator_check_ok before fs ctx path Hinv) as (c1 & b & -> & Hinv1 & H1 & H2).
    cbn [mbind outcome_bind]. destruct (IH _ _ Hinv1) as (c2 & bs & -> & Hbs & Hc).
    exists c2, (b :: bs). by split_and!.
Qed.

(** C30: what the validator answers, over any sequence of calls on a new validator while the
    file system changes between them.  Every call returns, and the cache stays within its
    512 entries.  A check is answered yes whenever one of the directories allowed so far
    admits the path now; and it is answered yes only if one of them admits the path now or
    admitted it at an earlier check of the same path: what is not in the cache is never let
    through, but a path once allowed stays allowed. *)
Theorem path_validator_answers cfg metrics calls :
  match metrics with Some m => metrics_wf m | None => True end ->
  exists ctx bs, pv_run (path_validator_create cfg metrics) calls = Ret (ctx, bs) /\
    answers_ok [] calls bs /\ table_count (match_cache ctx) <= MAX_CACHE_ENTRIES.
Proof.
  intros Hm. apply pv_run_ok. split_and!; try done. by split; [constructor|cbn; lia].
Qed.
End run.

(** ** The printed list *)

(** The directories that are printed, then dots for the rest, given the room left. *)
Fixpoint shown (room : Z) (dirs : list string) : list string :=
  match dirs with
  | [] => []
  | d :: dirs' =>
      if (room <=? Z.of_nat (String.length d + 1))%Z then ["..."]
      else d :: shown (room - Z.of_nat (String.length d + 1)) dirs'
  end.

Fixpoint with_commas (l : list string) : string :=
  match l with [] => EmptyString | d :: l' => d +:+ "," +:+ with_commas l' end.

Lemma print_nodes_spec size nodes out room :
  (0 < room)%Z -> (Z.of_nat (String.length out) + room + 5 <= size)%Z ->
  print_nodes size nodes out room = Ret (out +:+ with_commas (shown room nodes)) /\
  (Z.of_nat (String.length (out +:+ with_commas (shown room nodes))) < size)%Z.
Proof.
  revert out room. induction nodes as [|d nodes IH]; intros out room Hr Hs; cbn [print_nodes shown with_commas].
  { rewrite string_app_nil_r. split; [done|]. lia. }
  destruct (room =? 0)%Z eqn:E0; bool_hyps; [lia|].
  destruct (size <? _)%Z eqn:E1; bool_hyps; [lia|]. destruct (room <=? _)%Z eqn:E2; bool_hyps.
  - destruct (size <? _)%Z eqn:E3; bool_hyps; [lia|].
    change (with_commas ["..."]) with "...,". split; [done|]. rewrite string_length_app. cbn [String.length]. lia.
  - cbn [with_commas]. rewrite !string_app_assoc. rewrite <-(string_app_assoc out d ",").
    apply IH; [lia|]. rewrite !string_length_app. cbn [String.length]. lia.
Qed.

Lemma before_last_comma_snoc s : before_last_comma (s +:+ ",") = Some s.
Proof.
  induction s as [|c s IH]; [done|].
  change (String.String c s +:+ ",") with (String.String c (s +:+ ",")). cbn [before_last_comma]. by rewrite IH.
Qed.

Lemma with_commas_concat l : l <> [] -> with_commas l = String.concat "," l +:+ ",".
Proof.
  induction l as [|d l IH]; [done|]. intros _. destruct l as [|d' l]; [done|].
  change (with_commas (d :: d' :: l)) with (d +:+ "," +:+ with_commas (d' :: l)).
  change (String.concat "," (d :: d' :: l)) with (d +:+ "," +:+ String.concat "," (d' :: l)).
  rewrite IH by done. by rewrite <-!string_app_assoc.
Qed.

(** The list of allowed directories for the log.  With a print buffer of at least six
    bytes every write stays inside it; the result is the directories, the most recently
    allowed first, separated by commas, up to the first that does not fit, for which and for
    the rest it has three dots. *)
Theorem path_validator_base_paths_spec ctx :
  6 <= base_paths_size ctx -> (Z.of_nat (base_paths_size ctx) < 4294967296)%Z ->
  let dirs := shown (Z.of_nat (base_paths_size ctx) - 5) (path_list ctx) in
  path_validator_base_paths ctx = Ret (String.concat "," dirs) /\
  String.length (String.concat "," dirs) < base_paths_size ctx.
Proof.
  intros H1 H2. cbn zeta. unfold path_validator_base_paths. rewrite u32_small by lia.
  destruct (_ =? 0)%Z eqn:E; bool_hyps; [lia|].
  destruct (print_nodes_spec (Z.of_nat (base_paths_size ctx)) (path_list ctx) EmptyString
    (Z.of_nat (base_paths_size ctx) - 5)) as [-> Hlen]; [lia|cbn; lia|].
  cbn [mbind outcome_bind].
  change (EmptyString +:+ with_commas (shown (Z.of_nat (base_paths_size ctx) - 5) (path_list ctx)))
    with (with_commas (shown (Z.of_nat (base_paths_size ctx) - 5) (path_list ctx))) in *.
  destruct (shown _ (path_list ctx)) as [|d l]; [split; [done|cbn; lia]|].
  rewrite with_commas_concat in * by done. rewrite before_last_comma_snoc.
  rewrite string_length_app in Hlen. cbn [String.length] in Hlen. split; [done|lia].
Qed.

(** ** A file system without links, and witnesses

    The existing files are given by their lists of names; [realpath] removes the names "."
    and ".." as it walks. *)

(** The names of an absolute path. *)
Fixpoint split_names (s : string) (cur : string) : list string :=
  match s with
  | EmptyString => if decide (cur = EmptyString) then [] else [cur]
  | String.String c s' =>
      if Ascii.eqb c "/" then (if decide (cur = EmptyString) then [] else [cur]) ++ split_names s' EmptyString
      else split_names s' (cur +:+ String.String c EmptyString)
  end.

(** [acc] is the directory reached, its last name first; every directory on the way must
    exist. *)
Fixpoint walk (files : list (list string)) (acc names : list string) : option (list string) :=
  if decide (rev acc ∈ files) then
    match names with
    | [] => Some (rev acc)
    | n :: names' =>
        if decide (n = ".") then walk files acc names'
        else if decide (n = "..") then walk files (tail acc) names'
        else walk files (n :: acc) names'
    end
  else None.

Definition tree_fs (files : list (list string)) : path_fs := {|
  realpath := fun p =>
    match walk files [] (split_names p EmptyString) with
    | Some names => RP_resolved ("/" +:+ String.concat "/" names)
    | None => RP_ENOENT
    end;
  stat_ok := fun p => bool_decide (is_Some (walk files [] (split_names p EmptyString)));
|}.

Definition example_tree : path_fs :=
  tree_fs [[]; ["data"]; ["data"; "log"]; ["database"]; ["etc"]; ["etc"; "passwd"]].

Definition example_calls : list pv_call :=
  [ PV_allow "/data/"; PV_check example_tree "data/log"; PV_check example_tree "/data/new";
    PV_check example_tree "/etc/passwd"; PV_check example_tree "/data/../etc/passwd" ].

Example example_answers :
  exists ctx, pv_run f64_int value_zero (path_validator_create None None) example_calls =
    Ret (ctx, [true; true; true; false; false]).
Proof. eexists. vm_compute. reflexivity. Qed.

(** The text comparisons admit more than the files below the directory: another directory
    whose name begins with the same letters, and a new file reached through "..". *)
Example admits_outside :
  admits example_tree "/data/" "/database" /\ admits example_tree "/data/" "/data/../etc/new".
Proof. split; (split; [reflexivity|]); vm_compute; done. Qed.

Lemma path_validator_answers_witness :
  exists ctx bs, pv_run f64_int value_zero (path_validator_create None None) example_calls = Ret (ctx, bs) /\
    answers_ok [] example_calls bs /\ table_count (match_cache ctx) <= MAX_CACHE_ENTRIES.
Proof. apply path_validator_answers; [cbn; lia|done]. Defined.

Definition example_validator : path_validator :=
  mk_validator 20 ["/persist"; "/data/"; "/media/"] 3 (table_create MAX_CACHE_ENTRIES) None.

Lemma path_validator_base_paths_spec_witness :
  path_validator_base_paths example_validator = Ret "/persist,..." /\
  String.length "/persist,..." < 20.
Proof. apply (path_validator_base_paths_spec example_validator); cbn; lia. Defined.
