(* ===== verification/Files.v ===== *)
(** * Files and buffered streams

    What the file I/O daemon uses of POSIX and of the C library: a directory of names, the
    contents of the files, and [FILE] streams with their buffers.  A name leads to a file
    (an inode) and an open stream keeps its file when the name is removed.  How much of a
    write buffer is handed to the system at each [fwrite] and how far a read looks ahead is
    left to the library: [drain] and [ahead] are arbitrary.  Using a closed stream is
    [Undef]. *)

From S2P Require Import Prelude.

(** ** Contents *)

(** [pwrite]: bytes past the end are preceded by zeros; writing nothing changes nothing. *)
Definition pwrite (c : list Z) (off : nat) (data : list Z) : list Z :=
  match data with
  | [] => c
  | _ => take off c ++ replicate (off - length c) 0%Z ++ data ++ drop (off + length data) c
  end.

Record disk := mk_disk {
  names : gmap string nat;
  inodes : gmap nat (list Z);
  fresh_inode : nat;
}.

(** A stream: its file, the position of its buffer, the bytes written but not yet handed to
    the system, the bytes read ahead. *)
Record stream := mk_stream {
  s_inode : nat;
  s_pos : nat;
  s_wbuf : list Z;
  s_rbuf : list Z;
}.

Record world := mk_world {
  w_disk : disk;
  w_streams : gmap nat stream;
  w_fresh : nat;
}.

Definition content (w : world) (ino : nat) : list Z := default [] (inodes (w_disk w) !! ino).

Definition set_content (w : world) (ino : nat) (c : list Z) : world :=
  mk_world (mk_disk (names (w_disk w)) (<[ino := c]> (inodes (w_disk w))) (fresh_inode (w_disk w)))
    (w_streams w) (w_fresh w).

Definition set_stream (w : world) (h : nat) (s : stream) : world :=
  mk_world (w_disk w) (<[h := s]> (w_streams w)) (w_fresh w).

Definition new_stream (w : world) (ino : nat) : world * nat :=
  (mk_world (w_disk w) (<[w_fresh w := mk_stream ino 0 [] []]> (w_streams w)) (S (w_fresh w)), w_fresh w).

(** ** Operations *)

(** [open(path, O_RDONLY)] and [fdopen] *)
Definition open_read (w : world) (path : string) : option (world * nat) :=
  match names (w_disk w) !! path with
  | Some ino => Some (new_stream w ino)
  | None => None
  end.

(** [open(path, O_WRONLY | O_CREAT)] and [fdopen]; the file is not truncated. *)
Definition open_write (w : world) (path : string) : world * nat :=
  match names (w_disk w) !! path with
  | Some ino => new_stream w ino
  | None =>
      let ino := fresh_inode (w_disk w) in
      new_stream (mk_world (mk_disk (<[path := ino]> (names (w_disk w))) (<[ino := []]> (inodes (w_disk w))) (S ino))
                    (w_streams w) (w_fresh w)) ino
  end.

(** Hand the first [n] bytes of the write buffer to the system. *)
Definition flush_bytes (w : world) (h : nat) (s : stream) (n : nat) : world :=
  set_stream (set_content w (s_inode s) (pwrite (content w (s_inode s)) (s_pos s) (take n (s_wbuf s))))
    h (mk_stream (s_inode s) (s_pos s + length (take n (s_wbuf s))) (drop n (s_wbuf s)) (s_rbuf s)).

Definition fclose (w : world) (h : nat) : outcome world :=
  s ← of_option (w_streams w !! h);
  let w := flush_bytes w h s (length (s_wbuf s)) in
  Ret (mk_world (w_disk w) (delete h (w_streams w)) (w_fresh w)).

(** [fseek(h, off, SEEK_SET)] of a [long] offset: a negative one is refused.  What was read
    ahead is kept when the new position is within it. *)
Definition fseek (w : world) (h : nat) (off : Z) : outcome (world * bool) :=
  s ← of_option (w_streams w !! h);
  if (off <? 0)%Z then Ret (w, false)
  else
    let w := flush_bytes w h s (length (s_wbuf s)) in
    let off := Z.to_nat off in
    let rbuf := if (s_pos s <=? off) && (off <=? s_pos s + length (s_rbuf s))
                then drop (off - s_pos s) (s_rbuf s) else [] in
    Ret (set_stream w h (mk_stream (s_inode s) off [] rbuf), true).

Section stdio.
Variable drain : nat -> nat.      (* of a write buffer of some length, the bytes handed on *)
Variable ahead : nat -> nat.      (* after a read that ends at some position, the bytes read ahead *)

(** [fwrite] of which [accepted] bytes are taken. *)
Definition fwrite (w : world) (h : nat) (data : list Z) (accepted : nat) : outcome (world * nat) :=
  s ← of_option (w_streams w !! h);
  let s := mk_stream (s_inode s) (s_pos s) (s_wbuf s ++ take accepted data) (s_rbuf s) in
  Ret (flush_bytes (set_stream w h s) h s (drain (length (s_wbuf s))), length (take accepted data)).

(** [fread] of up to [n] bytes: from what was read ahead, then from the file. *)
Definition fread (w : world) (h : nat) (n : nat) : outcome (world * list Z) :=
  s ← of_option (w_streams w !! h);
  if n <=? length (s_rbuf s) then
    Ret (set_stream w h (mk_stream (s_inode s) (s_pos s + n) (s_wbuf s) (drop n (s_rbuf s))), take n (s_rbuf s))
  else
    let rest := drop (s_pos s + length (s_rbuf s)) (content w (s_inode s)) in
    let data := s_rbuf s ++ take (n - length (s_rbuf s)) rest in
    let pos := s_pos s + length data in
    Ret (set_stream w h (mk_stream (s_inode s) pos (s_wbuf s) (take (ahead pos) (drop pos (content w (s_inode s))))),
         data).
End stdio.

Definition unlink (w : world) (path : string) : world :=
  mk_world (mk_disk (delete path (names (w_disk w))) (inodes (w_disk w)) (fresh_inode (w_disk w)))
    (w_streams w) (w_fresh w).

(** The position the program sees. *)
Definition ftell (s : stream) : nat := s_pos s + length (s_wbuf s).

(** ** Lemmas on contents *)

Lemma length_pwrite c off data :
  data <> [] -> length (pwrite c off data) = Nat.max (length c) (off + length data).
Proof.
  intros Hd. unfold pwrite. destruct data as [|x data]; [done|].
  rewrite !length_app, length_replicate, length_take, length_drop. cbn [length] in *. lia.
Qed.

Lemma lookup_pwrite c off data i :
  data <> [] ->
  pwrite c off data !! i =
    if decide (off <= i < off + length data) then data !! (i - off)
    else if decide (i < length c) then c !! i
    else if decide (i < off) then Some 0%Z else None.
Proof.
  intros Hd. unfold pwrite. destruct data as [|x data]; [done|]. clear Hd. set (d := x :: data).
  destruct (decide (i < length (take off c))) as [H1|H1].
  { rewrite lookup_app_l by done. rewrite length_take in H1. rewrite lookup_take_lt by lia.
    rewrite decide_False by lia. by rewrite decide_True by lia. }
  rewrite lookup_app_r by lia. rewrite length_take in *.
  destruct (decide (i - Nat.min off (length c) < off - length c)) as [H2|H2].
  { rewrite lookup_app_l by (by rewrite length_replicate). rewrite lookup_replicate_2 by done.
    rewrite !decide_False by lia. by rewrite decide_True by lia. }
  rewrite lookup_app_r by (rewrite length_replicate; lia). rewrite length_replicate.
  destruct (decide (i - Nat.min off (length c) - (off - length c) < length d)) as [H3|H3].
  { rewrite lookup_app_l by done. rewrite decide_True by lia. f_equal. lia. }
  rewrite lookup_app_r by lia. rewrite lookup_drop.
  rewrite decide_False by lia. destruct (decide (i < length c)).
  - f_equal. lia.
  - rewrite decide_False by lia. apply lookup_ge_None. lia.
Qed.

(** Writing in two pieces. *)
Lemma pwrite_app c off a b : pwrite (pwrite c off a) (off + length a) b = pwrite c off (a ++ b).
Proof.
  destruct a as [|x a]; [cbn [length app]; by rewrite Nat.add_0_r|]. destruct b as [|y b].
  { by rewrite app_nil_r. }
  apply list_eq. intros i. rewrite !lookup_pwrite by done. rewrite (length_pwrite c off (x :: a)) by done.
  rewrite length_app. set (p := x :: a). set (q := y :: b).
  destruct (decide (off + length p <= i < off + length p + length q)) as [H1|H1].
  { rewrite decide_True by lia. rewrite lookup_app_r by lia. f_equal. lia. }
  destruct (decide (off <= i < off + (length p + length q))) as [H2|H2].
  { rewrite decide_True by lia. rewrite decide_True by lia. by rewrite lookup_app_l by lia. }
  rewrite (decide_False (P := off <= i < off + length p)) by lia.
  repeat case_decide; done || lia.
Qed.

Lemma pwrite_take_drop c off data n :
  pwrite (pwrite c off (take n data)) (off + length (take n data)) (drop n data) = pwrite c off data.
Proof. by rewrite pwrite_app, take_drop. Qed.

(** ** What the program sees of its files

    [m] is what a reader of each name would see once every stream is closed; [O] gives, for
    each name that is open, its stream and whether that is a write stream.  No two names
    lead to the same file, and a name has at most one stream. *)

Abbreviation owners := (gmap string (nat * bool)).

(** The stream [h] of a file whose content is to be [c]. *)
Definition stream_rel (w : world) (ino : nat) (wr : bool) (s : stream) (c : list Z) : Prop :=
  s_inode s = ino /\
  if wr then s_rbuf s = [] /\ c = pwrite (content w ino) (s_pos s) (s_wbuf s)
  else s_wbuf s = [] /\ c = content w ino /\ s_rbuf s `prefix_of` drop (s_pos s) c.

Record files_rel (w : world) (O : owners) (m : gmap string (list Z)) : Prop := {
  fr_dom : forall p, names (w_disk w) !! p = None <-> m !! p = None;
  fr_open : forall p h wr, O !! p = Some (h, wr) ->
    exists ino s c, names (w_disk w) !! p = Some ino /\ w_streams w !! h = Some s /\ m !! p = Some c /\
      stream_rel w ino wr s c;
  fr_closed : forall p ino, names (w_disk w) !! p = Some ino -> O !! p = None -> m !! p = Some (content w ino);
  fr_inj : forall p q ino, names (w_disk w) !! p = Some ino -> names (w_disk w) !! q = Some ino -> p = q;
  fr_handles : forall p q h wp wq, O !! p = Some (h, wp) -> O !! q = Some (h, wq) -> p = q;
  fr_fresh_ino : forall p ino, names (w_disk w) !! p = Some ino -> ino < fresh_inode (w_disk w);
  fr_fresh : forall h, w_fresh w <= h -> w_streams w !! h = None;
}.

(** A change of the stream of [p] and of the content of its file. *)
Lemma files_rel_update w w' O m p h wr ino s' c' :
  files_rel w O m -> O !! p = Some (h, wr) -> names (w_disk w) !! p = Some ino ->
  names (w_disk w') = names (w_disk w) -> fresh_inode (w_disk w') = fresh_inode (w_disk w) ->
  w_fresh w' = w_fresh w -> w_streams w' = <[h := s']> (w_streams w) ->
  (forall i, i <> ino -> content w' i = content w i) ->
  stream_rel w' ino wr s' c' -> files_rel w' O (<[p := c']> m).
Proof.
  intros [Hdom Hopen Hclosed Hinj Hh Hfi Hf] Hp Hino Hn Hfr Hfw Hst Hc Hs. split; rewrite ?Hn, ?Hfr, ?Hfw, ?Hst.
  - intros q. rewrite lookup_insert_None, Hdom. split; [|tauto]. intros Hq. split; [done|]. intros <-.
    apply Hdom in Hq. congruence.
  - intros q h' wr' Hq. destruct (Hopen q h' wr' Hq) as (i & s & c & H1 & H2 & H3 & H4).
    destruct (decide (q = p)) as [->|Hne].
    + assert (i = ino) as -> by congruence. assert (h' = h) as -> by congruence. assert (wr' = wr) as -> by congruence.
      exists ino, s', c'. by rewrite !lookup_insert_eq.
    + exists i, s, c. split; [done|]. rewrite lookup_insert_ne, lookup_insert_ne; [|done| ].
      2: { intros ->. apply Hne. symmetry. by eapply Hh. }
      split; [done|]. split; [done|]. unfold stream_rel in *. rewrite Hc; [done|]. intros ->. apply Hne. by eapply Hinj.
  - intros q i Hq Ho. assert (q <> p) as Hne by congruence. rewrite lookup_insert_ne by done.
    rewrite Hc; [by apply Hclosed|]. intros ->. apply Hne. by eapply Hinj.
  - done.
  - done.
  - done.
  - intros h' Hh'. rewrite lookup_insert_None. split; [by apply Hf|]. intros <-.
    destruct (Hopen _ _ _ Hp) as (i & s & c & _ & H2 & _). by rewrite Hf in H2.
Qed.

(** A new stream for a name that has none. *)
Lemma files_rel_open w O m p ino wr :
  files_rel w O m -> O !! p = None -> names (w_disk w) !! p = Some ino ->
  files_rel (fst (new_stream w ino)) (<[p := (snd (new_stream w ino), wr)]> O) m.
Proof.
  intros [Hdom Hopen Hclosed Hinj Hh Hfi Hf] Hp Hino. split; cbn [fst snd new_stream w_disk w_streams w_fresh]; try done.
  - intros q h wr' Hq. apply lookup_insert_Some in Hq as [[<- [= <- <-]]|[Hne Hq]].
    + exists ino, (mk_stream ino 0 [] []), (content w ino). split; [done|]. rewrite lookup_insert_eq.
      split; [done|]. split; [by apply Hclosed|]. split; [done|]. destruct wr; split_and!; try done. apply prefix_nil.
    + destruct (Hopen q h wr' Hq) as (i & s & c & H1 & H2 & H3). exists i, s, c. split; [done|].
      rewrite lookup_insert_ne; [done|]. intros <-. by rewrite Hf in H2.
  - intros q i Hq [Ho _]%lookup_insert_None. by apply Hclosed.
  - intros q q' h wq wq' [[<- [= <- <-]]|[Hne Hq]]%lookup_insert_Some
      [[<- [= H]]|[Hne' Hq']]%lookup_insert_Some; try done.
    + destruct (Hopen _ _ _ Hq') as (i & s & c & _ & H2 & _). by rewrite Hf in H2.
    + destruct (Hopen _ _ _ Hq) as (i & s & c & _ & H2 & _). rewrite <-H in H2. by rewrite Hf in H2.
    + by eapply Hh.
  - intros h Hh'. rewrite lookup_insert_None. split; [apply Hf|]; lia.
Qed.

(** The position of a stream. *)
Definition tell (w : world) (h : nat) : option nat := ftell <$> w_streams w !! h.

(** Only the position of [h] changed. *)
Definition moved (w w' : world) (h pos : nat) : Prop :=
  tell w' h = Some pos /\ forall h', h' <> h -> tell w' h' = tell w h'.

Lemma content_set w i c j : content (set_content w i c) j = if decide (i = j) then c else content w j.
Proof.
  unfold content, set_content; cbn. case_decide as H; [subst; by rewrite lookup_insert_eq|].
  by rewrite lookup_insert_ne.
Qed.

Lemma moved_insert w w' h s : w_streams w' = <[h := s]> (w_streams w) -> moved w w' h (ftell s).
Proof.
  intros Hs. unfold moved, tell. rewrite Hs. split; [by rewrite lookup_insert_eq|].
  intros h' Hne. by rewrite lookup_insert_ne.
Qed.

Lemma open_read_rel w O m p :
  files_rel w O m -> O !! p = None ->
  match m !! p with
  | None => open_read w p = None
  | Some _ => exists w' h, open_read w p = Some (w', h) /\ w_streams w !! h = None /\
      files_rel w' (<[p := (h, false)]> O) m /\ moved w w' h 0
  end.
Proof.
  intros Hr Ho. unfold open_read. destruct (m !! p) as [c|] eqn:Em.
  - destruct (names (w_disk w) !! p) as [ino|] eqn:En; [|apply (fr_dom _ _ _ Hr) in En; congruence].
    eexists _, _. split; [reflexivity|]. split; [by apply (fr_fresh _ _ _ Hr)|].
    split; [by apply files_rel_open|]. by apply (moved_insert w _ _ (mk_stream ino 0 [] [])).
  - apply (fr_dom _ _ _ Hr) in Em. by rewrite Em.
Qed.

(** Creating a file. *)
Lemma files_rel_create w O m p :
  files_rel w O m -> m !! p = None ->
  let ino := fresh_inode (w_disk w) in
  files_rel (mk_world (mk_disk (<[p := ino]> (names (w_disk w))) (<[ino := []]> (inodes (w_disk w))) (S ino))
    (w_streams w) (w_fresh w)) O (<[p := []]> m).
Proof.
  intros [Hdom Hopen Hclosed Hinj Hh Hfi Hf] Hm. cbn zeta.
  assert (forall q i, names (w_disk w) !! q = Some i -> i <> fresh_inode (w_disk w)) as Hne
    by (intros q i Hq ->; apply Hfi in Hq; lia).
  assert (forall q wr, O !! q <> Some wr \/ q <> p) as Hop.
  { intros q [h wr]. destruct (decide (q = p)) as [->|]; [left|by right]. intros Hq.
    destruct (Hopen _ _ _ Hq) as (? & ? & ? & _ & _ & ? & _). congruence. }
  assert (forall i, i <> fresh_inode (w_disk w) ->
    default [] (<[fresh_inode (w_disk w) := []]> (inodes (w_disk w)) !! i) = content w i) as Hc.
  { intros i Hi. by rewrite lookup_insert_ne. }
  split; cbn [w_disk names inodes fresh_inode w_streams w_fresh]; try done.
  - intros q. rewrite !lookup_insert_None, Hdom. done.
  - intros q h wr Hq. destruct (Hopen _ _ _ Hq) as (i & s & c & H1 & H2 & H3 & H4). exists i, s, c.
    destruct (Hop q (h, wr)) as [?|Hqp]; [done|]. rewrite !lookup_insert_ne by done. split_and!; try done.
    unfold stream_rel, content in *; cbn. rewrite Hc by (by eapply Hne). done.
  - intros q i Hq Ho. apply lookup_insert_Some in Hq as [[<- <-]|[Hqp Hq]].
    + rewrite lookup_insert_eq. unfold content; cbn. by rewrite lookup_insert_eq.
    + rewrite lookup_insert_ne by done. unfold content; cbn. rewrite Hc by (by eapply Hne). by apply Hclosed.
  - intros q q' i [[<- <-]|[Hqp Hq]]%lookup_insert_Some [[<- Hi]|[Hqp' Hq']]%lookup_insert_Some; try done.
    + by apply Hne in Hq'.
    + subst. by apply Hne in Hq.
    + by eapply Hinj.
  - intros q i [[<- <-]|[Hqp Hq]]%lookup_insert_Some; [lia|]. apply Hfi in Hq. lia.
Qed.

Lemma open_write_rel w O m p :
  files_rel w O m -> O !! p = None ->
  exists w' h, open_write w p = (w', h) /\ w_streams w !! h = None /\
    files_rel w' (<[p := (h, true)]> O) (<[p := default [] (m !! p)]> m) /\ moved w w' h 0.
Proof.
  intros Hr Ho. unfold open_write. destruct (names (w_disk w) !! p) as [ino|] eqn:En.
  - destruct (m !! p) as [c|] eqn:Em; [|apply (fr_dom _ _ _ Hr) in Em; congruence].
    eexists _, _. split; [reflexivity|]. split; [by apply (fr_fresh _ _ _ Hr)|].
    cbn [default]. rewrite (insert_id m p c) by done. split; [by apply files_rel_open|]. by apply (moved_insert w _ _ (mk_stream ino 0 [] [])).
  - apply (fr_dom _ _ _ Hr) in En. rewrite En. cbn [default].
    pose proof (files_rel_create w O m p Hr En) as Hr'. cbn zeta in Hr'.
    eexists _, _. split; [reflexivity|]. split; [by apply (fr_fresh _ _ _ Hr)|].
    split; [apply (files_rel_open _ _ _ _ (fresh_inode (w_disk w)) true Hr' Ho); cbn; by rewrite lookup_insert_eq|].
    by apply (moved_insert w _ _ (mk_stream (fresh_inode (w_disk w)) 0 [] [])).
Qed.

(** Handing on part of a write buffer shows nothing. *)
Lemma flush_bytes_rel w O m p h wr s n :
  files_rel w O m -> O !! p = Some (h, wr) -> w_streams w !! h = Some s ->
  files_rel (flush_bytes w h s n) O m.
Proof.
  intros Hr Ho Hs. destruct (fr_open _ _ _ Hr _ _ _ Ho) as (ino & s0 & c & H1 & H2 & H3 & H4 & H5).
  assert (s0 = s) as -> by congruence. rewrite <-(insert_id m p c) by done.
  eapply files_rel_update; [exact Hr|exact Ho|exact H1|done|done|done|reflexivity| |].
  - intros i Hi. cbn. unfold content, flush_bytes, set_stream, set_content; cbn.
    rewrite lookup_insert_ne by congruence. done.
  - unfold flush_bytes. split; [done|]. cbn [s_rbuf s_wbuf s_pos].
    assert (forall s', content (set_stream (set_content w (s_inode s) (pwrite (content w (s_inode s)) (s_pos s) (take n (s_wbuf s)))) h s') ino =
      pwrite (content w ino) (s_pos s) (take n (s_wbuf s))) as Hc.
    { intros s'. change (content (set_stream ?w h s') ino) with (content w ino). rewrite content_set.
      rewrite decide_True by done. by rewrite H4. }
    destruct wr; rewrite Hc.
    + destruct H5 as [-> ->]. split; [done|]. by rewrite pwrite_take_drop.
    + destruct H5 as (Hw & Hc' & Hp). rewrite Hw, take_nil, drop_nil. cbn [length pwrite]. rewrite Nat.add_0_r. done.
Qed.

Lemma flush_bytes_moved w h s n :
  w_streams w !! h = Some s -> moved w (flush_bytes w h s n) h (ftell s).
Proof.
  intros Hs.
  pose proof (moved_insert w (flush_bytes w h s n) h _ eq_refl) as Hm.
  assert (ftell (mk_stream (s_inode s) (s_pos s + length (take n (s_wbuf s))) (drop n (s_wbuf s)) (s_rbuf s)) = ftell s)
    as Ht by (unfold ftell; cbn; rewrite length_take, length_drop; lia).
  by rewrite Ht in Hm.
Qed.

Lemma files_rel_close w O m p h wr s :
  files_rel w O m -> O !! p = Some (h, wr) -> w_streams w !! h = Some s -> s_wbuf s = [] ->
  files_rel (mk_world (w_disk w) (delete h (w_streams w)) (w_fresh w)) (delete p O) m.
Proof.
  intros Hr Ho Hs Hw. destruct (fr_open _ _ _ Hr _ _ _ Ho) as (ino & s0 & c & H1 & H2 & H3 & H4 & H5).
  assert (s0 = s) as -> by congruence.
  assert (c = content w ino) as Hc.
  { destruct wr; [destruct H5 as [_ ->]; by rewrite Hw|by destruct H5 as (_ & ? & _)]. }
  destruct Hr as [Hdom Hopen Hclosed Hinj Hh Hfi Hf]. split; cbn [w_disk w_streams w_fresh]; try done.
  - intros q h' wr' [Hne Hq]%lookup_delete_Some. destruct (Hopen _ _ _ Hq) as (i & s' & c' & G1 & G2 & G3).
    exists i, s', c'. rewrite lookup_delete_ne; [done|]. intros ->. apply Hne. by eapply Hh.
  - intros q i Hq [->|Hn]%lookup_delete_None; [|by apply Hclosed].
    assert (i = ino) as -> by congruence. by rewrite H3, Hc.
  - intros q q' h' wq wq' [_ Hq]%lookup_delete_Some [_ Hq']%lookup_delete_Some. by eapply Hh.
  - intros h' Hh'. rewrite lookup_delete_None. right. by apply Hf.
Qed.

Lemma fclose_rel w O m p h wr :
  files_rel w O m -> O !! p = Some (h, wr) ->
  exists w', fclose w h = Ret w' /\ files_rel w' (delete p O) m /\
    (forall h', h' <> h -> tell w' h' = tell w h').
Proof.
  intros Hr Ho. destruct (fr_open _ _ _ Hr _ _ _ Ho) as (ino & s & c & _ & Hs & _).
  unfold fclose. rewrite Hs. cbn [of_option mbind outcome_bind]. eexists. split; [reflexivity|]. split.
  - eapply files_rel_close; [by eapply flush_bytes_rel|done| |].
    + unfold flush_bytes, set_stream; cbn. by rewrite lookup_insert_eq.
    + cbn. by rewrite drop_all.
  - intros h' Hne. destruct (flush_bytes_moved w h s (length (s_wbuf s)) Hs) as [_ <-]; [|done].
    unfold tell; cbn. by rewrite lookup_delete_ne.
Qed.

Lemma fseek_rel w O m p h wr off :
  files_rel w O m -> O !! p = Some (h, wr) -> (0 <= off)%Z ->
  exists w', fseek w h off = Ret (w', true) /\ files_rel w' O m /\ moved w w' h (Z.to_nat off).
Proof.
  intros Hr Ho Hoff. destruct (fr_open _ _ _ Hr _ _ _ Ho) as (ino & s & c & H1 & Hs & H3 & H4 & H5).
  unfold fseek. rewrite Hs. cbn [of_option mbind outcome_bind]. destruct (off <? 0)%Z eqn:E; bool_hyps; [lia|].
  pose proof (flush_bytes_rel w O m p h wr s (length (s_wbuf s)) Hr Ho Hs) as Hr1.
  set (w1 := flush_bytes w h s (length (s_wbuf s))) in *. eexists. split; [reflexivity|]. split.
  - destruct (fr_open _ _ _ Hr1 _ _ _ Ho) as (ino1 & s1 & c1 & G1 & G2 & G3 & G4 & G5).
    assert (ino1 = ino) as -> by (cbn in G1; congruence). assert (c1 = c) as -> by congruence.
    assert (s1 = mk_stream (s_inode s) (s_pos s + length (s_wbuf s)) [] (s_rbuf s)) as ->.
    { unfold w1, flush_bytes, set_stream in G2; cbn in G2. rewrite lookup_insert_eq in G2.
      rewrite take_ge, drop_ge in G2 by done. congruence. }
    rewrite <-(insert_id m p c) by done.
    eapply (files_rel_update w1); [exact Hr1|exact Ho|exact G1|done|done|done|reflexivity|done|].
    split; [done|]. cbn [s_rbuf s_wbuf s_pos] in *.
    change (content (set_stream w1 h _) ino) with (content w1 ino). destruct wr.
    + destruct H5 as [-> _]. destruct G5 as [_ ->]. split; [|done]. rewrite drop_nil. by destruct (_ && _).
    + destruct H5 as (Hw & _ & _). destruct G5 as (_ & -> & Hp). rewrite Hw in Hp. cbn [length] in Hp.
      rewrite Nat.add_0_r in Hp. split; [done|]. split; [done|].
      destruct (_ && _) eqn:Eb; [|apply prefix_nil]. bool_hyps. destruct Hp as [k Hk].
      exists k. transitivity (drop (Z.to_nat off - s_pos s) (drop (s_pos s) (content w1 ino))).
      * rewrite drop_drop. f_equal. lia.
      * rewrite Hk. by rewrite drop_app_le by lia.
  - pose proof (flush_bytes_moved w h s (length (s_wbuf s)) Hs) as [_ Hm]. fold w1 in Hm.
    unfold moved, tell, set_stream; cbn. rewrite lookup_insert_eq. split; [cbn; unfold ftell; cbn; f_equal; lia|].
    intros h' Hne. rewrite lookup_insert_ne by done. by apply Hm.
Qed.

Lemma fwrite_rel drain w O m p h s c data k :
  files_rel w O m -> O !! p = Some (h, true) -> w_streams w !! h = Some s -> m !! p = Some c ->
  exists w', fwrite drain w h data k = Ret (w', length (take k data)) /\
    files_rel w' O (<[p := pwrite c (ftell s) (take k data)]> m) /\
    moved w w' h (ftell s + length (take k data)).
Proof.
  intros Hr Ho Hs Hc. destruct (fr_open _ _ _ Hr _ _ _ Ho) as (ino & s0 & c0 & H1 & H2 & H3 & H4 & H5 & H6).
  assert (s0 = s) as -> by congruence. assert (c0 = c) as -> by congruence.
  unfold fwrite. rewrite Hs. cbn [of_option mbind outcome_bind].
  set (s1 := mk_stream (s_inode s) (s_pos s) (s_wbuf s ++ take k data) (s_rbuf s)).
  eexists. split; [reflexivity|].
  assert (files_rel (set_stream w h s1) O (<[p := pwrite c (ftell s) (take k data)]> m)) as Hr1.
  { eapply files_rel_update; [exact Hr|exact Ho|exact H1|done|done|done|reflexivity|done|].
    split; [done|]. split; [done|]. cbn [s1 s_pos s_wbuf]. rewrite H6. unfold ftell. by rewrite pwrite_app. }
  assert (w_streams (set_stream w h s1) !! h = Some s1) as Hs1 by (cbn; by rewrite lookup_insert_eq).
  split; [by eapply flush_bytes_rel|].
  destruct (flush_bytes_moved (set_stream w h s1) h s1 (drain (length (s_wbuf s1))) Hs1) as [Hm1 Hm2].
  split; [rewrite Hm1; unfold ftell; cbn; rewrite length_app; f_equal; lia|].
  intros h' Hne. rewrite Hm2 by done. unfold tell; cbn. by rewrite lookup_insert_ne.
Qed.

Lemma fread_rel ahead w O m p h s c n :
  files_rel w O m -> O !! p = Some (h, false) -> w_streams w !! h = Some s -> m !! p = Some c ->
  exists w', fread ahead w h n = Ret (w', take n (drop (ftell s) c)) /\ files_rel w' O m /\
    moved w w' h (ftell s + length (take n (drop (ftell s) c))).
Proof.
  intros Hr Ho Hs Hc. destruct (fr_open _ _ _ Hr _ _ _ Ho) as (ino & s0 & c0 & H1 & H2 & H3 & H4 & Hw & Hcc & Hp).
  assert (s0 = s) as -> by congruence. assert (c0 = c) as -> by congruence.
  unfold fread, ftell. rewrite Hs. cbn [of_option mbind outcome_bind]. rewrite Hw. cbn [length]. rewrite Nat.add_0_r.
  destruct Hp as [rest Hp].
  assert (drop (s_pos s + length (s_rbuf s)) c = rest) as Hrest.
  { rewrite <-drop_drop, Hp. by rewrite drop_app_length. }
  assert (forall s', s_inode s' = ino -> s_wbuf s' = [] -> s_rbuf s' `prefix_of` drop (s_pos s') c ->
    files_rel (set_stream w h s') O m) as Hset.
  { intros s' Hi Hw' Hp'. rewrite <-(insert_id m p c) by done.
    eapply files_rel_update; [exact Hr|exact Ho|exact H1|done|done|done|reflexivity|done|]. done. }
  destruct (n <=? length (s_rbuf s)) eqn:E; bool_hyps.
  - rewrite Hp, take_app_le by done. eexists. split; [reflexivity|]. split.
    + apply Hset; [done|done|]. cbn [s_rbuf s_pos]. exists rest. rewrite <-drop_drop, Hp.
      by rewrite drop_app_le by done.
    + rewrite length_take. pose proof (moved_insert w (set_stream w h
        (mk_stream (s_inode s) (s_pos s + n) [] (drop n (s_rbuf s)))) h _ eq_refl) as Hm.
      unfold ftell in Hm. cbn in Hm. rewrite Nat.add_0_r in Hm. by rewrite Nat.min_l by lia.
  - rewrite H4, <-Hcc, Hrest. rewrite Hp, take_app_ge by lia. eexists. split; [reflexivity|]. split.
    + apply Hset; [done|done|]. cbn [s_rbuf s_pos]. apply prefix_take.
    + pose proof (moved_insert w (set_stream w h (mk_stream ino (s_pos s + length (s_rbuf s ++ take (n - length (s_rbuf s)) rest))
        [] (take (ahead (s_pos s + length (s_rbuf s ++ take (n - length (s_rbuf s)) rest)))
             (drop (s_pos s + length (s_rbuf s ++ take (n - length (s_rbuf s)) rest)) c)))) h _ eq_refl) as Hm.
      unfold ftell in Hm. cbn in Hm. by rewrite Nat.add_0_r in Hm.
Qed.

Lemma unlink_rel w O m p :
  files_rel w O m -> O !! p = None -> files_rel (unlink w p) O (delete p m).
Proof.
  intros [Hdom Hopen Hclosed Hinj Hh Hfi Hf] Ho.
  split; cbn [unlink w_disk names inodes fresh_inode w_streams w_fresh]; try done.
  - intros q. rewrite !lookup_delete_None, Hdom. done.
  - intros q h wr Hq. destruct (Hopen _ _ _ Hq) as (i & s & c & H1 & H2 & H3 & H4).
    exists i, s, c. rewrite !lookup_delete_ne by congruence. done.
  - intros q i [Hne Hq]%lookup_delete_Some Hqo. rewrite lookup_delete_ne by done. by apply Hclosed.
  - intros q q' i [_ Hq]%lookup_delete_Some [_ Hq']%lookup_delete_Some. by eapply Hinj.
  - intros q i [_ Hq]%lookup_delete_Some. by eapply Hfi.
Qed.
