(* ===== verification/FileIo.v ===== *)
(** * The SBP file I/O daemon ([src/package/sbp_fileio_daemon/sbp_fileio_daemon/src/sbp_fileio.c])

    The daemon answers requests to read, write, list and remove files.  It keeps up to 32
    streams open in [fd_cache] with the position it knows each to be at, so that requests
    for consecutive pieces of a file need no seek; before a file is read the cached write
    stream for it is closed, and the other way round.  The files are those of [Files], the
    validator of the paths is an interface, [Validator].

    The messages are structures of libsbp: a request is given by its fields and by the bytes
    of the message buffer; the sizes of the structures are [fileio_sizes].  Logging is left
    out. *)

From Stdlib Require Import Ascii.
From S2P Require Import Prelude Libc Metrics Table PathValidator Files.

Local Open Scope Z_scope.

(** ** Data *)

Record fileio_sizes := mk_sizes {
  sizeof_read_req : nat;
  sizeof_read_resp : nat;
  sizeof_read_dir_req : nat;
  sizeof_read_dir_resp : nat;
  sizeof_write_req : nat;
}.

Definition SBP_FRAMING_MAX_PAYLOAD_SIZE : Z := 255.
Definition SEND_BUFFER_SIZE : Z := 4096.
Definition FD_CACHE_COUNT : nat := 32.
Definition CACHE_CLOSE_AGE : Z := 3.
Definition CHECK_FD_CACHE_EVERY : Z := 10.
Definition FLUSH_METRICS_EVERY : Z := 10.
Definition IMAGESET_BIN_NAME : string := "upgrade.image_set.bin".

Record fd_cache_t := mk_fd {
  e_fp : option nat;
  e_path : string;
  e_mode : string;
  e_opened_at : Z;
  e_offset : Z;          (* size_t *)
}.

Definition empty_cache_entry : fd_cache_t := mk_fd None "" "" (-1) 0.

(** [offset] points into the cache: it is the index of the entry. *)
Record open_file_t := mk_open { of_fp : option nat; cached : bool; of_offset : option nat }.

Definition empty_open_file : open_file_t := mk_open None false None.

(** The buffer of outgoing packets. *)
Record pubsub_ctx := mk_pubsub {
  send_buffer : list Z;
  send_buffer_remaining : Z;
  send_buffer_offset : Z;
}.

(** What leaves the daemon. *)
Inductive out_event :=
  | TX_read_resp (sequence : Z) (contents : list Z)
  | TX_read_dir_resp (sequence : Z) (contents : list Z)
  | TX_config_resp (sequence version window batch : Z)
  | EPT_send (pubsub_idx : nat) (data : list Z).

Record read_req := mk_read_req {
  rq_sequence : Z; rq_offset : Z; rq_chunk_size : Z;
  rq_filename : list Z;       (* the message buffer from the file name on *)
}.
Record read_dir_req := mk_read_dir_req { rd_sequence : Z; rd_offset : Z; rd_dirname : list Z }.
Record write_req := mk_write_req {
  wq_sequence : Z; wq_offset : Z;
  wq_msg : list Z;            (* the whole message buffer *)
}.

Module FMI.
Definition write_bytes : nat := 0.
Definition read_bytes : nat := 1.
Definition wq_waits : nat := 2.
End FMI.

Definition fileio_metrics_table : list table_entry :=
  [ mk_entry "data/write/bytes" "per_second" METRICS_TYPE_U32 pk_metrics_updater_sum pk_metrics_reset_default None;
    mk_entry "data/read/bytes" "per_second" METRICS_TYPE_U32 pk_metrics_updater_sum pk_metrics_reset_default None;
    mk_entry "write_queue/wait/count" "per_second" METRICS_TYPE_U32 pk_metrics_updater_count pk_metrics_reset_default None ].

(** ** The validator of paths *)

Class Validator (PV : Type) := {
  pv_check : PV -> string -> outcome (PV * bool);
  pv_flush_metrics : PV -> outcome PV;
}.

(** It always answers. *)
Class ValidatorTotal (PV : Type) `{Validator PV} := {
  pv_valid : PV -> Prop;
  pv_check_total : forall pv p, pv_valid pv -> exists pv' b, pv_check pv p = Ret (pv', b) /\ pv_valid pv';
  pv_flush_total : forall pv, pv_valid pv -> exists pv', pv_flush_metrics pv = Ret pv' /\ pv_valid pv';
}.

(** ** Strings in message buffers *)

Definition char_of (b : Z) : ascii := ascii_of_nat (Z.to_nat b).

(** The C string at the beginning of a buffer; running past its end is [Undef]. *)
Fixpoint c_string (l : list Z) : outcome string :=
  match l with
  | [] => Undef
  | b :: l' => if b =? 0 then Ret EmptyString else s ← c_string l'; Ret (String.String (char_of b) s)
  end.

(** [strnlen(l, n)] of a buffer of at least [n] bytes. *)
Fixpoint strnlen (l : list Z) (n : nat) : outcome nat :=
  match n with
  | O => Ret O
  | S n' => match l with
            | [] => Undef
            | b :: l' => if b =? 0 then Ret O else k ← strnlen l' n'; Ret (S k)
            end
  end.

Section fileio.
Context {PV : Type} `{Validator PV}.
Variable sizes : fileio_sizes.
Variable drain ahead : nat -> nat.
Variable f64 : f64_ops.
Variable junk : pk_metrics_value.
Variable open_ok : string -> bool.           (* permission to open *)
Variable accept : nat -> nat -> nat.         (* bytes taken by the i-th [fwrite] of n bytes *)
Variable no_cache : bool.
Variable allow_factory_mtd allow_imageset_bin : bool.
Variable sbp_pack : Z -> list Z -> list (list Z).   (* what [sbp_send_message] passes to its writer *)

Record fio := mk_fio {
  f_world : world;
  fd_cache : list fd_cache_t;
  f_pv : PV;
  f_metrics : option pk_metrics;
  f_fwrites : nat;                 (* [fwrite] calls so far *)
  f_pubs : list pubsub_ctx;
  f_out : list out_event;
  trigger_cache_purge : Z;
  trigger_metrics_flush : Z;
}.

Definition set_files (st : fio) (w : world) (c : list fd_cache_t) : fio :=
  mk_fio w c (f_pv st) (f_metrics st) (f_fwrites st) (f_pubs st) (f_out st)
    (trigger_cache_purge st) (trigger_metrics_flush st).
Definition set_pv (st : fio) (pv : PV) : fio :=
  mk_fio (f_world st) (fd_cache st) pv (f_metrics st) (f_fwrites st) (f_pubs st) (f_out st)
    (trigger_cache_purge st) (trigger_metrics_flush st).
Definition set_pubs (st : fio) (pubs : list pubsub_ctx) : fio :=
  mk_fio (f_world st) (fd_cache st) (f_pv st) (f_metrics st) (f_fwrites st) pubs (f_out st)
    (trigger_cache_purge st) (trigger_metrics_flush st).
Definition emit (st : fio) (e : out_event) : fio :=
  mk_fio (f_world st) (fd_cache st) (f_pv st) (f_metrics st) (f_fwrites st) (f_pubs st) (f_out st ++ [e])
    (trigger_cache_purge st) (trigger_metrics_flush st).
Definition did_fwrite (st : fio) (w : world) : fio :=
  mk_fio w (fd_cache st) (f_pv st) (f_metrics st) (S (f_fwrites st)) (f_pubs st) (f_out st)
    (trigger_cache_purge st) (trigger_metrics_flush st).

(** [PK_METRICS_UPDATE(MR, MI.x, PK_METRICS_VALUE((u32) v))] *)
Definition count_bytes (st : fio) (i : nat) (v : Z) : outcome fio :=
  r ← _pk_metrics_update f64 (f_metrics st) i (pk_metrics_u32 v);
  Ret (mk_fio (f_world st) (fd_cache st) (f_pv st) (fst r) (f_fwrites st) (f_pubs st) (f_out st)
         (trigger_cache_purge st) (trigger_metrics_flush st)).

(** ** The cache of streams *)

Definition read_offset (st : fio) (r : open_file_t) : outcome Z :=
  match of_offset r with
  | None => Ret (-1)
  | Some idx => e ← load (fd_cache st) idx; Ret (s32 (e_offset e))
  end.

Inductive offset_op := OP_INCREMENT | OP_ASSIGN.

Definition update_offset (st : fio) (r : open_file_t) (offset : Z) (op : offset_op) : outcome fio :=
  match of_offset r with
  | None => Ret st
  | Some idx =>
      e ← load (fd_cache st) idx;
      let off := match op with OP_INCREMENT => u32 (e_offset e + offset) | OP_ASSIGN => u32 offset end in
      c ← store (fd_cache st) idx (mk_fd (e_fp e) (e_path e) (e_mode e) (e_opened_at e) off);
      Ret (set_files st (f_world st) c)
  end.

(** The loops that close the entries that meet a condition, [n] entries from [idx] on. *)
Fixpoint close_entries (cond : fd_cache_t -> bool) (n idx : nat) (w : world) (cache : list fd_cache_t) :
    outcome (world * list fd_cache_t) :=
  match n with
  | O => Ret (w, cache)
  | S n' =>
      e ← load cache idx;
      if cond e then
        h ← of_option (e_fp e);
        w ← fclose w h;
        cache ← store cache idx empty_cache_entry;
        close_entries cond n' (S idx) w cache
      else close_entries cond n' (S idx) w cache
  end.

Definition close_where (cond : fd_cache_t -> bool) (st : fio) : outcome fio :=
  r ← close_entries cond FD_CACHE_COUNT 0 (f_world st) (fd_cache st);
  Ret (set_files st (fst r) (snd r)).

Definition is_open (e : fd_cache_t) : bool := bool_decide (is_Some (e_fp e)).
Definition is_for (path mode : string) (e : fd_cache_t) : bool :=
  bool_decide (e_path e = path) && bool_decide (e_mode e = mode).

Definition flush_fd_cache (st : fio) : outcome fio := close_where is_open st.

Definition flush_cached_fd (st : fio) (path mode : string) : outcome fio := close_where (is_for path mode) st.

Definition purge_fd_cache (st : fio) (now : Z) : outcome fio :=
  close_where (fun e => is_open e && (CACHE_CLOSE_AGE <=? now - e_opened_at e)) st.

Fixpoint find_entry (cond : fd_cache_t -> bool) (cache : list fd_cache_t) (idx : nat) : option (nat * fd_cache_t) :=
  match cache with
  | [] => None
  | e :: cache' => if cond e then Some (idx, e) else find_entry cond cache' (S idx)
  end.

(** [open] and [fdopen]; [write] tells [O_WRONLY | O_CREAT] from [O_RDONLY]. *)
Definition open_stream (w : world) (path : string) (write : bool) : option (world * nat) :=
  if negb (open_ok path) then None
  else if write then Some (open_write w path) else open_read w path.

Definition open_file (now : Z) (st : fio) (path mode : string) (write : bool) : outcome (fio * open_file_t) :=
  match (if no_cache then None else find_entry (is_for path mode) (fd_cache st) 0) with
  | Some (idx, e) =>
      c ← store (fd_cache st) idx (mk_fd (e_fp e) (e_path e) (e_mode e) now (e_offset e));
      Ret (set_files st (f_world st) c, mk_open (e_fp e) true (Some idx))
  | None =>
      match open_stream (f_world st) path write with
      | None => Ret (st, empty_open_file)
      | Some (w, fp) =>
          if no_cache then Ret (set_files st w (fd_cache st), mk_open (Some fp) false None)
          else match find_entry (fun e => negb (is_open e)) (fd_cache st) 0 with
          | Some (idx, e) =>
              c ← store (fd_cache st) idx (mk_fd (Some fp) path mode now (e_offset e));
              Ret (set_files st w c, mk_open (Some fp) true (Some idx))
          | None => Ret (set_files st w (fd_cache st), mk_open (Some fp) false None)
          end
      end
  end.

Definition finalize_non_cached (st : fio) (r : open_file_t) : outcome fio :=
  match cached r, of_fp r with
  | false, Some h => w ← fclose (f_world st) h; Ret (set_files st w (fd_cache st))
  | _, _ => Ret st
  end.

(** The seek of [read_cb] and [sbp_fileio_write]: only when the known position differs. *)
Definition seek_to (st : fio) (r : open_file_t) (h : nat) (offset : Z) : outcome (fio * bool) :=
  cur ← read_offset st r;
  if cur =? s32 offset then Ret (st, true)
  else
    x ← fseek (f_world st) h (s32 offset);
    let '(w, ok) := x in
    let st := set_files st w (fd_cache st) in
    if (ok : bool) then st ← update_offset st r offset OP_ASSIGN; Ret (st, true) else Ret (st, false).

(** ** Outgoing packets *)

Definition flush_output_sbp (st : fio) (idx : nat) : outcome fio :=
  ctx ← load (f_pubs st) idx;
  if send_buffer_offset ctx =? 0 then Ret st
  else
    data ← slice (send_buffer ctx) 0 (Z.to_nat (send_buffer_offset ctx));
    pubs ← store (f_pubs st) idx (mk_pubsub (send_buffer ctx) SEND_BUFFER_SIZE 0);
    Ret (set_pubs (emit st (EPT_send idx data)) pubs).

(** The new state and the number of bytes taken. *)
Definition stage_packed_sbp_buffer (st : fio) (buff : list Z) (idx : nat) : outcome (fio * Z) :=
  let n := Z.of_nat (length buff) in
  ctx ← load (f_pubs st) idx;
  st ← (if Z.min (send_buffer_remaining ctx) n =? n then Ret st else flush_output_sbp st idx);
  ctx ← load (f_pubs st) idx;
  let len := Z.min (send_buffer_remaining ctx) n in
  buf ← memcpy (send_buffer ctx) (Z.to_nat (send_buffer_offset ctx)) (take (Z.to_nat len) buff);
  pubs ← store (f_pubs st) idx
           (mk_pubsub buf (u32 (send_buffer_remaining ctx - len)) (u32 (send_buffer_offset ctx + len)));
  Ret (set_pubs st pubs, len).

(** The pieces of a packet; the status of [sbp_send_message] is only logged. *)
Fixpoint stage_pieces (st : fio) (pieces : list (list Z)) (idx : nat) : outcome fio :=
  match pieces with
  | [] => Ret st
  | p :: pieces' => r ← stage_packed_sbp_buffer st p idx; stage_pieces (fst r) pieces' idx
  end.

Definition SBP_MSG_FILEIO_WRITE_RESP : Z := 171.

Definition stage_output_sbp (st : fio) (msg_type : Z) (payload : list Z) (idx : nat) : outcome fio :=
  stage_pieces st (sbp_pack msg_type payload) idx.

(** ** Requests *)

Inductive mtd_read := DENY_MTD_READ | NO_MTD_READ | ALLOW_MTD_READ.

Definition allow_mtd_read (path : string) : mtd_read :=
  if negb (bool_decide (path = "/factory/mtd")) then NO_MTD_READ
  else if allow_factory_mtd then ALLOW_MTD_READ else DENY_MTD_READ.

Definition filter_imageset_bin (filename : string) : string :=
  if negb allow_imageset_bin then filename
  else if negb (bool_decide (filename = IMAGESET_BIN_NAME)) then filename
  else "/data/" +:+ IMAGESET_BIN_NAME.

(** Whether a read is refused; the validator is asked only for ordinary paths. *)
Definition read_denied (st : fio) (path : string) : outcome (fio * bool) :=
  match allow_mtd_read path with
  | DENY_MTD_READ => Ret (st, true)
  | ALLOW_MTD_READ => Ret (st, false)
  | NO_MTD_READ => r ← pv_check (f_pv st) path; Ret (set_pv st (fst r), negb (snd r))
  end.

(** The reply to a read: the end of [read_cb]. *)
Definition read_done (st : fio) (the_file : open_file_t) (flush_cached : bool) (path : string)
    (sequence : Z) (contents : list Z) : outcome fio :=
  st ← (if flush_cached then flush_cached_fd st path "r" else Ret st);
  st ← update_offset st the_file (Z.of_nat (length contents)) OP_INCREMENT;
  let st := emit st (TX_read_resp sequence contents) in
  count_bytes st FMI.read_bytes (Z.of_nat (length contents)).

(** The branch of [read_cb] for a path that may be read. *)
Definition read_allowed (now : Z) (st : fio) (path : string) (sequence offset : Z) (readlen : nat) : outcome fio :=
  st ← flush_cached_fd st path "w";
  r ← open_file now st path "r" false;
  let '(st, the_file) := r in
  match of_fp the_file with
  | None => read_done st the_file true path sequence []
  | Some h =>
      r ← seek_to st the_file h offset;
      let '(st, ok) := r in
      if negb ok then read_done st the_file true path sequence []
      else
        r ← fread ahead (f_world st) h readlen;
        let st := set_files st (fst r) (fd_cache st) in
        st ← finalize_non_cached st the_file;
        read_done st the_file false path sequence (snd r)
  end.

Definition read_cb (now : Z) (st : fio) (len : Z) (msg : read_req) : outcome fio :=
  if (len <=? Z.of_nat (sizeof_read_req sizes)) || (len =? SBP_FRAMING_MAX_PAYLOAD_SIZE) then Ret st
  else
    path ← c_string (take (Z.to_nat len - sizeof_read_req sizes) (rq_filename msg) ++ [0]);
    let readlen := Z.min (rq_chunk_size msg) (SBP_FRAMING_MAX_PAYLOAD_SIZE - Z.of_nat (sizeof_read_resp sizes)) in
    r ← read_denied st path;
    let '(st, denied) := r in
    if (denied : bool) then read_done st empty_open_file false path (rq_sequence msg) []
    else read_allowed now st path (rq_sequence msg) (rq_offset msg) (Z.to_nat readlen).

(** The part of [sbp_fileio_write] that follows the check of the path: the success and the
    number of bytes. *)
Definition write_allowed (now : Z) (st : fio) (name filename : string) (msg : write_req) (length_ : Z) :
    outcome (fio * bool * Z) :=
  st ← flush_cached_fd st filename "r";
  r ← open_file now st filename "w" true;
  let '(st, f) := r in
  match of_fp f with
  | None => Ret (st, false, 0)
  | Some h =>
      r ← seek_to st f h (wq_offset msg);
      let '(st, ok) := r in
      if negb ok then
        st ← flush_cached_fd st filename "w";
        st ← finalize_non_cached st f;
        Ret (st, false, 0)
      else
        let headerlen := u8 (Z.of_nat (sizeof_write_req sizes + String.length name + 1)) in
        let write_count := u32 (length_ - headerlen) in
        data ← slice (wq_msg msg) (Z.to_nat headerlen) (Z.to_nat write_count);
        r ← fwrite drain (f_world st) h data (accept (f_fwrites st) (length data));
        let '(w, wres) := r in
        let st := did_fwrite st w in
        if negb (Z.of_nat wres =? write_count) then
          st ← flush_cached_fd st filename "w";
          st ← finalize_non_cached st f;
          Ret (st, false, write_count)
        else
          st ← update_offset st f write_count OP_INCREMENT;
          st ← finalize_non_cached st f;
          Ret (st, true, write_count)
  end.

Definition sbp_fileio_write (now : Z) (st : fio) (msg : write_req) (length_ : Z) : outcome (fio * bool * Z) :=
  name ← c_string (drop (sizeof_write_req sizes) (wq_msg msg));
  let filename := filter_imageset_bin name in
  r ← pv_check (f_pv st) filename;
  let '(pv, allowed) := r in
  let st := set_pv st pv in
  if negb allowed then Ret (st, false, 0)
  else write_allowed now st name filename msg length_.

(** The little-endian bytes of a [u32]. *)
Definition u32_bytes (v : Z) : list Z :=
  [v mod 256; v / 256 mod 256; v / 65536 mod 256; v / 16777216 mod 256].

(** Whether [write_cb] takes a request. *)
Definition write_valid (len : Z) (msg : write_req) : outcome bool :=
  if len <=? Z.of_nat (sizeof_write_req sizes) + 2 then Ret false
  else
    let room := (Z.to_nat SBP_FRAMING_MAX_PAYLOAD_SIZE - sizeof_write_req sizes)%nat in
    n ← strnlen (drop (sizeof_write_req sizes) (wq_msg msg)) room;
    Ret (negb (n =? room)%nat).

(** [write_cb] without the write thread. *)
Definition write_cb (now : Z) (st : fio) (len : Z) (msg : write_req) (pubsub_idx : nat) : outcome fio :=
  valid ← write_valid len msg;
  if negb valid then Ret st
  else
    r ← sbp_fileio_write now st msg len;
    let '(st, ok, write_count) := r in
    st ← (if (ok : bool) then
            st ← stage_output_sbp st SBP_MSG_FILEIO_WRITE_RESP (u32_bytes (wq_sequence msg)) pubsub_idx;
            count_bytes st FMI.write_bytes write_count
          else Ret st);
    flush_output_sbp st pubsub_idx.

Definition remove_cb (st : fio) (len : Z) (msg : list Z) : outcome fio :=
  if (len <? 1) || (len =? SBP_FRAMING_MAX_PAYLOAD_SIZE) then Ret st
  else
    name ← c_string (take (Z.to_nat len) msg ++ [0]);
    let filename := filter_imageset_bin name in
    r ← pv_check (f_pv st) filename;
    let '(pv, allowed) := r in
    let st := set_pv st pv in
    if negb allowed then Ret st
    else
      st ← flush_cached_fd st filename "r";
      st ← flush_cached_fd st filename "w";
      Ret (set_files st (unlink (f_world st) filename) (fd_cache st)).

(** The loop that collects names into the reply; [contents] are the bytes so far, [room] is
    [max_len], [len] a [u8].  A copy past the reply is [Undef]. *)
Fixpoint fill_names (room : Z) (entries : list string) (contents : list Z) (len : Z) : outcome (list Z * Z) :=
  match entries with
  | [] => Ret (contents, len)
  | name :: entries' =>
      let n := Z.of_nat (String.length name) in
      if u32 (room - len - 1) <? n then Ret (contents, len)
      else if room <? len + n + 1 then Undef
      else fill_names room entries'
             (contents ++ map (fun c => Z.of_nat (nat_of_ascii c)) (String.list_ascii_of_string name) ++ [0])
             (u8 (len + n + 1))
  end.

(** [dir] gives the entries of a directory in the order of [readdir]. *)
Definition read_dir_cb (dir : string -> option (list string)) (st : fio) (len : Z) (msg : read_dir_req) :
    outcome fio :=
  if (len <=? Z.of_nat (sizeof_read_dir_req sizes)) || (len =? SBP_FRAMING_MAX_PAYLOAD_SIZE) then Ret st
  else
    path ← c_string (take (Z.to_nat len - sizeof_read_dir_req sizes) (rd_dirname msg) ++ [0]);
    r ← pv_check (f_pv st) path;
    let '(pv, allowed) := r in
    let st := set_pv st pv in
    if negb allowed then Ret (emit st (TX_read_dir_resp (rd_sequence msg) []))
    else match dir path with
    | None => Ret (emit st (TX_read_dir_resp (rd_sequence msg) []))
    | Some entries =>
        r ← fill_names (SBP_FRAMING_MAX_PAYLOAD_SIZE - Z.of_nat (sizeof_read_dir_resp sizes))
              (drop (Z.to_nat (rd_offset msg)) entries) [] 0;
        Ret (emit st (TX_read_dir_resp (rd_sequence msg) (take (Z.to_nat (snd r)) (fst r))))
    end.

Definition config_cb (st : fio) (len sequence : Z) : fio :=
  if (len <? 1) || (SBP_FRAMING_MAX_PAYLOAD_SIZE <=? len) then st
  else emit st (TX_config_resp sequence 0 256 32).

(** ** The timer and the flush *)

Definition reset_metric (now : Z) (st : fio) (i : nat) : fio :=
  mk_fio (f_world st) (fd_cache st) (f_pv st) (fst (pk_metrics_reset now (f_metrics st) i)) (f_fwrites st)
    (f_pubs st) (f_out st) (trigger_cache_purge st) (trigger_metrics_flush st).

Definition set_triggers (st : fio) (a b : Z) : fio :=
  mk_fio (f_world st) (fd_cache st) (f_pv st) (f_metrics st) (f_fwrites st) (f_pubs st) (f_out st) a b.

(** The part of [timer_handler] that counts the ticks; [now] is the time. *)
Definition timer_tick (now : Z) (st : fio) : outcome fio :=
  let st := set_triggers st (trigger_cache_purge st + 1) (trigger_metrics_flush st) in
  st ← (if trigger_cache_purge st =? CHECK_FD_CACHE_EVERY then
          purge_fd_cache (set_triggers st 0 (trigger_metrics_flush st)) now
        else Ret st);
  let st := set_triggers st (trigger_cache_purge st) (trigger_metrics_flush st + 1) in
  if trigger_metrics_flush st =? FLUSH_METRICS_EVERY then
    let st := set_triggers st (trigger_cache_purge st) 0 in
    m ← of_option (f_metrics st);
    let st := mk_fio (f_world st) (fd_cache st) (f_pv st) (Some (pk_metrics_flush f64 m)) (f_fwrites st)
                (f_pubs st) (f_out st) (trigger_cache_purge st) (trigger_metrics_flush st) in
    let st := reset_metric now st FMI.read_bytes in
    let st := reset_metric now st FMI.write_bytes in
    let st := reset_metric now st FMI.wq_waits in
    pv ← pv_flush_metrics (f_pv st);
    Ret (set_pv st pv)
  else Ret st.

(** [rx_valid] tells of each endpoint's receive side whether it is still valid; when one is
    not, the daemon exits, [None]. *)
Definition timer_handler (now : Z) (rx_valid : list bool) (st : fio) : outcome (option fio) :=
  st ← timer_tick now st;
  Ret (if forallb id rx_valid then Some st else None).

(** [wait_file] is the name of the file that the waiting process watches. *)
Definition sbp_fileio_flush (st : fio) (wait_file : string) : outcome fio :=
  st ← flush_fd_cache st;
  Ret (set_files st (unlink (f_world st) wait_file) (fd_cache st)).
End fileio.
Arguments fio : clear implicits.
