(* ===== verification/FileIoSpec.v ===== *)
(** * The file I/O daemon serves its files coherently

    Specification and refinement of [FileIo]: whatever streams are cached, flushed late,
    read ahead, aged out or closed, the daemon behaves as if each request were applied at
    once to a map from names to contents. *)

From Stdlib Require Import Ascii.
From S2P Require Import Prelude Libc Metrics Table PathValidator Files FileIo.

(** ** The cache against the open files *)

Definition mode_of (wr : bool) : string := if wr then "w" else "r".

Lemma mode_of_inj wr wr' : mode_of wr = mode_of wr' -> wr = wr'.
Proof. by destruct wr, wr'. Qed.

(** Every entry in use is the stream of its path, at the position the entry says; every open
    file has an entry. *)
Record cache_rel (cache : list fd_cache_t) (O : owners) (w : world) : Prop := {
  cr_len : length cache = FD_CACHE_COUNT;
  cr_live : forall i e h, cache !! i = Some e -> e_fp e = Some h ->
    exists wr pos, e_mode e = mode_of wr /\ O !! e_path e = Some (h, wr) /\ tell w h = Some pos /\
      e_offset e = Z.of_nat pos /\ (Z.of_nat pos < 4294967296)%Z;
  cr_dead : forall i e, cache !! i = Some e -> e_fp e = None -> e_mode e = "" /\ e_offset e = 0%Z;
  cr_uniq : forall i j e e' h h', cache !! i = Some e -> cache !! j = Some e' ->
    e_fp e = Some h -> e_fp e' = Some h' -> e_path e = e_path e' -> i = j;
  cr_all : forall p h wr, O !! p = Some (h, wr) ->
    exists i e, cache !! i = Some e /\ e_fp e = Some h /\ e_path e = p;
}.

(** Entries of other paths are on other streams. *)
Lemma cache_other cache O w m i e h p h' wr :
  files_rel w O m -> cache_rel cache O w -> cache !! i = Some e -> e_fp e = Some h ->
  O !! p = Some (h', wr) -> e_path e <> p -> h <> h'.
Proof.
  intros Hf Hc He Hh Hp Hne ->. destruct (cr_live _ _ _ Hc _ _ _ He Hh) as (wr' & pos & _ & Ho & _).
  apply Hne. by eapply (fr_handles _ _ _ Hf).
Qed.

Lemma close_one w cache O m i e h :
  files_rel w O m -> cache_rel cache O w -> cache !! i = Some e -> e_fp e = Some h ->
  exists w', fclose w h = Ret w' /\ files_rel w' (delete (e_path e) O) m /\
    cache_rel (<[i := empty_cache_entry]> cache) (delete (e_path e) O) w'.
Proof.
  intros Hf Hc He Hh. destruct (cr_live _ _ _ Hc _ _ _ He Hh) as (wr & pos & Hm & Ho & Ht & Hoff & _).
  destruct (fclose_rel w O m _ _ _ Hf Ho) as (w' & -> & Hf' & Htell). exists w'. split; [done|]. split; [done|].
  assert (i < length cache) as Hi by (by eapply lookup_lt_Some). split.
  - rewrite length_insert. apply (cr_len _ _ _ Hc).
  - intros j e' h' Hj Hh'. apply list_lookup_insert_Some in Hj as [(-> & <- & _)|[Hne Hj]]; [done|].
    destruct (cr_live _ _ _ Hc _ _ _ Hj Hh') as (wr' & pos' & ? & Ho' & Ht' & ? & ?).
    assert (e_path e' <> e_path e) as Hp by (intros Heq; apply Hne; by eapply (cr_uniq _ _ _ Hc)).
    exists wr', pos'. split; [done|]. rewrite lookup_delete_ne by done. split; [done|].
    rewrite Htell; [done|]. by apply (cache_other cache O w m j e' h' (e_path e) h wr).
  - intros j e' Hj Hn. apply list_lookup_insert_Some in Hj as [(-> & <- & _)|[Hne Hj]]; [done|].
    by eapply (cr_dead _ _ _ Hc).
  - intros j k e1 e2 h1 h2 Hj Hk H1 H2 Heq.
    apply list_lookup_insert_Some in Hj as [(-> & <- & _)|[_ Hj]]; [done|].
    apply list_lookup_insert_Some in Hk as [(-> & <- & _)|[_ Hk]]; [done|]. by eapply (cr_uniq _ _ _ Hc).
  - intros p h' wr' [Hne Hp]%lookup_delete_Some. destruct (cr_all _ _ _ Hc _ _ _ Hp) as (j & e' & Hj & Hh' & <-).
    exists j, e'. rewrite list_lookup_insert_ne; [done|]. congruence.
Qed.

(** The closing loops. *)
Lemma close_entries_rel cond n idx w cache O m :
  (forall e, e_fp e = None -> e_mode e = "" -> cond e = false) ->
  files_rel w O m -> cache_rel cache O w -> idx + n <= FD_CACHE_COUNT ->
  exists w' cache' O', close_entries cond n idx w cache = Ret (w', cache') /\
    files_rel w' O' m /\ cache_rel cache' O' w' /\
    (forall j e, idx <= j < idx + n -> cache' !! j = Some e -> cond e = false) /\
    (forall j, j < idx -> cache' !! j = cache !! j) /\ O' ⊆ O.
Proof.
  intros Hdead. revert idx w cache O. induction n as [|n IH]; intros idx w cache O Hf Hc Hn.
  { exists w, cache, O. split_and!; try done. intros; lia. }
  cbn [close_entries]. destruct (lookup_lt_is_Some_2 cache idx) as [e He]; [rewrite (cr_len _ _ _ Hc); lia|].
  unfold load. rewrite He. cbn [of_option mbind outcome_bind].
  assert (forall cache' w' O', files_rel w' O' m -> cache_rel cache' O' w' ->
    (forall e', cache' !! idx = Some e' -> cond e' = false) -> (forall j, j < idx -> cache' !! j = cache !! j) ->
    O' ⊆ O ->
    exists w'' cache'' O'', close_entries cond n (S idx) w' cache' = Ret (w'', cache'') /\
    files_rel w'' O'' m /\ cache_rel cache'' O'' w'' /\
    (forall j e, idx <= j < idx + S n -> cache'' !! j = Some e -> cond e = false) /\
    (forall j, j < idx -> cache'' !! j = cache !! j) /\ O'' ⊆ O) as Hstep.
  { intros cache' w' O' Hf' Hc' Hcond Hlt HO.
    destruct (IH (S idx) w' cache' O' Hf' Hc') as (w'' & c'' & O'' & -> & ? & ? & H1 & H2 & H3); [lia|]. exists w'', c'', O''. split_and!; try done.
    - intros j e' Hj He'. destruct (decide (j = idx)) as [->|]; [|apply (H1 j); [lia|done]].
      apply Hcond. rewrite <-H2 by lia. done.
    - intros j Hj. rewrite H2 by lia. by apply Hlt.
    - by transitivity O'. }
  destruct (cond e) eqn:Econd.
  - destruct (e_fp e) as [h|] eqn:Eh.
    2: { destruct (cr_dead _ _ _ Hc _ _ He Eh) as [Hmode _]. by rewrite Hdead in Econd. }
    cbn [of_option mbind outcome_bind]. destruct (close_one w cache O m idx e h Hf Hc He Eh) as (w' & -> & Hf' & Hc').
    cbn [mbind outcome_bind]. unfold store. destruct (_ <? _)%nat eqn:E; bool_hyps;
      [|apply lookup_lt_Some in He; lia]. cbn [mbind outcome_bind].
    apply (Hstep _ _ _ Hf' Hc').
    + intros e' He'. rewrite list_lookup_insert_eq in He' by done. injection He' as <-. by apply Hdead.
    + intros j Hj. by rewrite list_lookup_insert_ne by lia.
    + apply delete_subseteq.
  - apply (Hstep _ _ _ Hf Hc); [|done|done]. intros e' He'. congruence.
Qed.

(** A stream that moves takes the offset of its entry along. *)
Definition at_offset (e : fd_cache_t) (off : Z) (now : Z) : fd_cache_t :=
  mk_fd (e_fp e) (e_path e) (e_mode e) now off.

Lemma cache_rel_move cache O w w' m i e h pos now :
  files_rel w O m -> cache_rel cache O w -> cache !! i = Some e -> e_fp e = Some h ->
  moved w w' h pos -> (Z.of_nat pos < 4294967296)%Z ->
  cache_rel (<[i := at_offset e (Z.of_nat pos) now]> cache) O w'.
Proof.
  intros Hf Hc He Hh [Hm1 Hm2] Hpos. destruct (cr_live _ _ _ Hc _ _ _ He Hh) as (wr & pos0 & Hm & Ho & _).
  assert (i < length cache) as Hi by (by eapply lookup_lt_Some). split.
  - rewrite length_insert. apply (cr_len _ _ _ Hc).
  - intros j e' h' Hj Hh'. apply list_lookup_insert_Some in Hj as [(-> & <- & _)|[Hne Hj]].
    + cbn in Hh'. assert (h' = h) as -> by congruence. exists wr, pos. cbn. split_and!; try done.
    + destruct (cr_live _ _ _ Hc _ _ _ Hj Hh') as (wr' & pos' & ? & Ho' & Ht' & ? & ?).
      exists wr', pos'. split_and!; try done. rewrite Hm2; [done|].
      apply (cache_other cache O w m j e' h' (e_path e) h wr); try done. intros Heq. apply Hne. by eapply (cr_uniq _ _ _ Hc).
  - intros j e' Hj Hn. apply list_lookup_insert_Some in Hj as [(-> & <- & _)|[Hne Hj]].
    + cbn in Hn. congruence.
    + by eapply (cr_dead _ _ _ Hc).
  - intros j k e1 e2 h1 h2 Hj Hk H1 H2 Heq.
    apply list_lookup_insert_Some in Hj as [(<- & <- & _)|[Hj' Hj]];
      apply list_lookup_insert_Some in Hk as [(<- & <- & _)|[Hk' Hk]]; cbn in *; try done.
    + by eapply (cr_uniq _ _ _ Hc).
    + by eapply (cr_uniq _ _ _ Hc).
    + by eapply (cr_uniq _ _ _ Hc).
  - intros p h' wr' Hp. destruct (cr_all _ _ _ Hc _ _ _ Hp) as (j & e' & Hj & Hh' & <-).
    destruct (decide (j = i)) as [->|Hne].
    + assert (e' = e) as -> by congruence. exists i, (at_offset e (Z.of_nat pos) now).
      by rewrite list_lookup_insert_eq.
    + exists j, e'. by rewrite list_lookup_insert_ne.
Qed.

(** A stream outside the cache moves, or closes, without the cache noticing. *)
Lemma cache_rel_outside cache O w w' m p h wr :
  files_rel w O m -> O !! p = Some (h, wr) -> cache_rel cache (delete p O) w ->
  (forall h', h' <> h -> tell w' h' = tell w h') -> cache_rel cache (delete p O) w'.
Proof.
  intros Hf Hp [Hlen Hlive Hdead Huniq Hall] Ht. split; try done.
  intros i e h' He Hh'. destruct (Hlive _ _ _ He Hh') as (wr' & pos & ? & Ho & ? & ? & ?).
  exists wr', pos. split_and!; try done. rewrite Ht; [done|]. intros ->.
  apply lookup_delete_Some in Ho as [Hne Ho]. apply Hne. by eapply (fr_handles _ _ _ Hf).
Qed.

(** Removing a name concerns no stream. *)
Lemma cache_rel_unlink cache O w p : cache_rel cache O w -> cache_rel cache O (unlink w p).
Proof. intros [Hlen Hlive Hdead Huniq Hall]. by split. Qed.

(** Nor does it notice a stream that was not there before. *)
Lemma cache_rel_new cache O w w' h :
  cache_rel cache O w -> w_streams w !! h = None -> (forall h', h' <> h -> tell w' h' = tell w h') ->
  cache_rel cache O w'.
Proof.
  intros [Hlen Hlive Hdead Huniq Hall] Hnew Ht. split; try done.
  intros i e h' He Hh'. destruct (Hlive _ _ _ He Hh') as (wr & pos & ? & ? & Hpos & ? & ?).
  exists wr, pos. split_and!; try done. rewrite Ht; [done|]. intros ->. unfold tell in Hpos. by rewrite Hnew in Hpos.
Qed.

(** A new stream in a free entry. *)
Lemma cache_rel_add cache O w w' p h wr i e now :
  cache_rel cache O w -> O !! p = None -> w_streams w !! h = None -> moved w w' h 0 ->
  cache !! i = Some e -> e_fp e = None ->
  cache_rel (<[i := mk_fd (Some h) p (mode_of wr) now 0]> cache) (<[p := (h, wr)]> O) w'.
Proof.
  intros [Hlen Hlive Hdead Huniq Hall] Hp Hnew [Hm1 Hm2] He Hn.
  assert (i < length cache) as Hi by (by eapply lookup_lt_Some).
  assert (forall j e' h', cache !! j = Some e' -> e_fp e' = Some h' -> e_path e' <> p) as Hother.
  { intros j e' h' Hj Hh'. destruct (Hlive _ _ _ Hj Hh') as (? & ? & _ & Ho & _). congruence. }
  split.
  - by rewrite length_insert.
  - intros j e' h' Hj Hh'. apply list_lookup_insert_Some in Hj as [(-> & <- & _)|[Hne Hj]].
    + cbn in Hh'. injection Hh' as ->. exists wr, 0. cbn. rewrite lookup_insert_eq. by split_and!.
    + destruct (Hlive _ _ _ Hj Hh') as (wr' & pos & ? & Ho & Ht & ? & ?). exists wr', pos.
      rewrite lookup_insert_ne by (apply not_eq_sym; by eapply Hother). rewrite Hm2; [done|].
      intros ->. unfold tell in Ht. by rewrite Hnew in Ht.
  - intros j e' Hj Hn'. apply list_lookup_insert_Some in Hj as [(-> & <- & _)|[Hne Hj]]; [done|]. by eapply Hdead.
  - intros j k e1 e2 h1 h2 Hj Hk H1 H2 Heq.
    apply list_lookup_insert_Some in Hj as [(<- & <- & _)|[Hj' Hj]];
      apply list_lookup_insert_Some in Hk as [(<- & <- & _)|[Hk' Hk]]; cbn in *; try done.
    + exfalso. by eapply (Hother k e2 h2).
    + exfalso. by eapply (Hother j e1 h1).
    + by eapply Huniq.
  - intros q h' wr' [[<- [= <- <-]]|[Hne Hq]]%lookup_insert_Some.
    + eexists i, _. rewrite list_lookup_insert_eq by done. split; [reflexivity|]. done.
    + destruct (Hall _ _ _ Hq) as (j & e' & Hj & Hh' & <-). exists j, e'.
      rewrite list_lookup_insert_ne; [done|]. congruence.
Qed.

(** ** Operations of the daemon *)

Lemma find_entry_spec cond cache idx :
  match find_entry cond cache idx with
  | Some (i, e) => exists j, i = idx + j /\ cache !! j = Some e /\ cond e = true
  | None => forall j e, cache !! j = Some e -> cond e = false
  end.
Proof.
  revert idx. induction cache as [|e cache IH]; intros idx; cbn [find_entry].
  { intros j e. by rewrite lookup_nil. }
  destruct (cond e) eqn:E; [exists 0; split_and!; [lia|done..]|].
  specialize (IH (S idx)). destruct (find_entry cond cache (S idx)) as [[i e']|].
  - destruct IH as (j & -> & ? & ?). exists (S j). split_and!; [lia|done..].
  - intros [|j] e' Hj; [by injection Hj as <-|]. by eapply IH.
Qed.

Section refinement.
Context {PV : Type} `{Validator PV}.
Variable drain ahead : nat -> nat.
Variable open_ok : string -> bool.
Variable no_cache : bool.
Abbreviation fio := (fio PV).

(** What may be open. *)
Definition owners_ok (O : owners) : Prop :=
  forall p x, O !! p = Some x -> open_ok p = true /\ no_cache = false.

(** The files and the cache of a state. *)
Definition held (w : world) (c : list fd_cache_t) (m : gmap string (list Z)) (O : owners) : Prop :=
  files_rel w O m /\ cache_rel c O w /\ owners_ok O.

Lemma owners_ok_subseteq O O' : O' ⊆ O -> owners_ok O -> owners_ok O'.
Proof. intros Hsub Ho p x Hp. by apply (Ho p x), (lookup_weaken O' O). Qed.

Lemma close_where_ok cond (st : fio) O m :
  (forall e, e_fp e = None -> e_mode e = "" -> cond e = false) ->
  held (f_world st) (fd_cache st) m O ->
  exists w c O', close_where cond st = Ret (set_files st w c) /\ held w c m O' /\ O' ⊆ O /\
    forall j e, c !! j = Some e -> cond e = false.
Proof.
  intros Hd (Hf & Hc & Ho). unfold close_where.
  destruct (close_entries_rel cond FD_CACHE_COUNT 0 _ _ O m Hd Hf Hc) as (w & c & O' & -> & Hf' & Hc' & H1 & _ & H3);
    [lia|].
  exists w, c, O'. split; [done|]. split; [split_and!; [done..|by eapply owners_ok_subseteq]|]. split; [done|].
  intros j e Hj. apply (H1 j); [|done]. apply lookup_lt_Some in Hj. rewrite (cr_len _ _ _ Hc') in Hj. lia.
Qed.

(** After [flush_cached_fd] the path has no stream of that mode. *)
Lemma flush_cached_ok (st : fio) O m p wr :
  held (f_world st) (fd_cache st) m O ->
  exists w c O', flush_cached_fd st p (mode_of wr) = Ret (set_files st w c) /\ held w c m O' /\ O' ⊆ O /\
    forall h, O' !! p <> Some (h, wr).
Proof.
  intros Hh. destruct (close_where_ok (is_for p (mode_of wr)) st O m) as (w & c & O' & He & Hh' & Hsub & Hno); [|done|].
  { intros e _ Hm. unfold is_for. rewrite Hm. destruct wr; by rewrite andb_false_r. }
  exists w, c, O'. split_and!; try done. intros h Hp. destruct Hh' as (_ & Hc & _).
  destruct (cr_all _ _ _ Hc _ _ _ Hp) as (i & e & Hi & Hfp & Hpath).
  destruct (cr_live _ _ _ Hc _ _ _ Hi Hfp) as (wr' & pos & Hm & Ho & _). rewrite Hpath in Ho.
  assert (wr' = wr) as -> by congruence. specialize (Hno i e Hi). unfold is_for in Hno.
  by rewrite !bool_decide_eq_true_2 in Hno by done.
Qed.

(** An open file and its place in the cache, if it has one. *)
Definition opened (w : world) (c : list fd_cache_t) (m : gmap string (list Z)) (p : string) (wr : bool)
    (r : open_file_t) (h : nat) (O : owners) : Prop :=
  of_fp r = Some h /\ files_rel w O m /\ O !! p = Some (h, wr) /\ owners_ok (delete p O) /\ open_ok p = true /\
  match of_offset r with
  | Some i => cached r = true /\ no_cache = false /\ cache_rel c O w /\
      exists e, c !! i = Some e /\ e_fp e = Some h /\ e_path e = p
  | None => cached r = false /\ cache_rel c (delete p O) w
  end.

Definition can_open (m : gmap string (list Z)) (p : string) (wr : bool) : bool :=
  open_ok p && (wr || bool_decide (is_Some (m !! p))).

(** What opening does to the files: writing creates. *)
Definition open_effect (m : gmap string (list Z)) (p : string) (wr : bool) : gmap string (list Z) :=
  if wr then <[p := default [] (m !! p)]> m else m.

Lemma open_stream_ok w O m p wr :
  files_rel w O m -> O !! p = None ->
  if can_open m p wr
  then exists w' h, open_stream open_ok w p wr = Some (w', h) /\ w_streams w !! h = None /\
    files_rel w' (<[p := (h, wr)]> O) (open_effect m p wr) /\ moved w w' h 0
  else open_stream open_ok w p wr = None.
Proof.
  intros Hf Hp. unfold can_open, open_stream, open_effect. destruct (open_ok p); cbn [negb andb]; [|done].
  destruct wr; cbn [orb].
  - destruct (open_write_rel w O m p Hf Hp) as (w' & h & -> & ?). by exists w', h.
  - pose proof (open_read_rel w O m p Hf Hp) as Hr. destruct (m !! p) as [c|] eqn:E; [|done].
    rewrite bool_decide_eq_true_2 by done. destruct Hr as (w' & h & -> & ?). by exists w', h.
Qed.

Lemma moved_id w h pos : tell w h = Some pos -> moved w w h pos.
Proof. done. Qed.

Lemma owners_ok_insert O p x : owners_ok O -> open_ok p = true -> no_cache = false -> owners_ok (<[p := x]> O).
Proof. intros Ho H1 H2 q y [[<- _]|[_ Hq]]%lookup_insert_Some; [done|by eapply Ho]. Qed.

(** [open_file], when no stream of the other mode is open for the path. *)
Lemma open_file_ok now (st : fio) O m p wr :
  held (f_world st) (fd_cache st) m O -> (forall h, O !! p <> Some (h, negb wr)) ->
  if can_open m p wr
  then exists w c r h O', open_file open_ok no_cache now st p (mode_of wr) wr = Ret (set_files st w c, r) /\
    opened w c (open_effect m p wr) p wr r h O'
  else open_file open_ok no_cache now st p (mode_of wr) wr = Ret (st, empty_open_file) /\ O !! p = None.
Proof.
  intros (Hf & Hc & Ho) Hmode. unfold open_file.
  pose proof (find_entry_spec (is_for p (mode_of wr)) (fd_cache st) 0) as Hfind.
  destruct (if no_cache then None else find_entry (is_for p (mode_of wr)) (fd_cache st) 0) as [[i e]|] eqn:Efind.
  - assert (no_cache = false /\ find_entry (is_for p (mode_of wr)) (fd_cache st) 0 = Some (i, e)) as [Hnc Efind']
      by (by case_eq no_cache; intros Hnc; rewrite Hnc in Efind).
    rewrite Efind' in Hfind. destruct Hfind as (j & -> & Hj & Hfor). rewrite Nat.add_0_l.
    unfold is_for in Hfor. apply andb_true_iff in Hfor as [Hpath%bool_decide_eq_true Hmd%bool_decide_eq_true].
    destruct (e_fp e) as [h|] eqn:Eh.
    2: { destruct (cr_dead _ _ _ Hc _ _ Hj Eh) as [Hm _]. rewrite Hm in Hmd. by destruct wr. }
    destruct (cr_live _ _ _ Hc _ _ _ Hj Eh) as (wr' & pos & Hm & HO & Ht & Hoff & Hlt).
    assert (wr' = wr) as -> by (apply mode_of_inj; congruence). rewrite Hpath in HO.
    destruct (Ho _ _ HO) as [Hok _].
    destruct (fr_open _ _ _ Hf _ _ _ HO) as (ino & s & cnt & _ & _ & Hcnt & _).
    assert (can_open m p wr = true) as ->.
    { unfold can_open. rewrite Hok, bool_decide_eq_true_2 by (by eexists). by rewrite orb_true_r. }
    assert (open_effect m p wr = m) as ->.
    { unfold open_effect. destruct wr; [|done]. rewrite Hcnt. by rewrite insert_id. }
    unfold store. destruct (_ <? _)%nat eqn:E; bool_hyps; [|apply lookup_lt_Some in Hj; lia]. cbn [mbind outcome_bind].
    eexists _, _, _, h, O. split; [reflexivity|]. split; [done|]. split; [done|]. split; [done|].
    split; [eapply owners_ok_subseteq; [apply delete_subseteq|done]|]. split; [done|]. cbn [of_offset cached].
    split; [done|]. split; [done|]. split.
    + rewrite Hoff, <-Eh. apply (cache_rel_move (fd_cache st) O (f_world st) (f_world st) m j e h pos now); done.
    + eexists. rewrite list_lookup_insert_eq by done. split; [reflexivity|]. done.
  - assert (O !! p = None) as HO.
    { destruct (O !! p) as [[h wr']|] eqn:EO; [|done]. exfalso. destruct (Ho _ _ EO) as [_ Hnc]. rewrite Hnc in Efind.
      rewrite Efind in Hfind. destruct (cr_all _ _ _ Hc _ _ _ EO) as (j & e & Hj & Hfp & Hpath).
      destruct (cr_live _ _ _ Hc _ _ _ Hj Hfp) as (wr2 & pos & Hm & HO2 & _).
      assert (wr2 = wr) as ->.
      { rewrite Hpath, EO in HO2. injection HO2 as <-. destruct wr', wr; try done; exfalso; by apply (Hmode h). }
      specialize (Hfind j e Hj). unfold is_for in Hfind. by rewrite !bool_decide_eq_true_2 in Hfind by done. }
    pose proof (open_stream_ok (f_world st) O m p wr Hf HO) as Hopen.
    destruct (can_open m p wr) eqn:Ecan; [|by rewrite Hopen].
    destruct Hopen as (w' & h & -> & Hnew & Hf' & Hm).
    assert (open_ok p = true) as Hok by (unfold can_open in Ecan; by bool_hyps).
    assert (opened w' (fd_cache st) (open_effect m p wr) p wr (mk_open (Some h) false None) h (<[p := (h, wr)]> O)) as Hout.
    { split; [done|]. split; [done|]. split; [by rewrite lookup_insert_eq|].
      rewrite delete_insert_id by done. split; [done|]. split; [done|]. split; [done|].
      eapply cache_rel_new; [done..|apply Hm]. }
    case_eq no_cache; intros Hnc; [eexists _, _, _, _, _; split; [reflexivity|exact Hout]|].
    pose proof (find_entry_spec (fun e => negb (is_open e)) (fd_cache st) 0) as Hslot.
    destruct (find_entry (fun e => negb (is_open e)) (fd_cache st) 0) as [[i e]|]; [|eexists _, _, _, _, _; split; [reflexivity|exact Hout]].
    destruct Hslot as (j & -> & Hj & Hfree). rewrite Nat.add_0_l. bool_hyps. unfold is_open in Hfree.
    apply bool_decide_eq_false in Hfree. destruct (e_fp e) as [|] eqn:Efp; [by destruct Hfree|].
    destruct (cr_dead _ _ _ Hc _ _ Hj Efp) as [_ Hoff].
    unfold store. destruct (_ <? _)%nat eqn:E; bool_hyps; [|apply lookup_lt_Some in Hj; lia]. cbn [mbind outcome_bind].
    eexists _, _, _, h, (<[p := (h, wr)]> O). split; [reflexivity|].
    split; [done|]. split; [done|]. split; [by rewrite lookup_insert_eq|].
    split; [by rewrite delete_insert_id|]. split; [done|]. cbn [of_offset cached].
    split; [done|]. split; [done|]. split.
    + rewrite Hoff. by eapply cache_rel_add.
    + eexists. rewrite list_lookup_insert_eq by done. split; [reflexivity|]. done.
Qed.

(** Only the files and the stream of the path change; the entry still has the old offset. *)
Lemma opened_step w c m p wr r h O w' m' pos :
  opened w c m p wr r h O -> files_rel w' O m' -> moved w w' h pos -> (Z.of_nat pos < 4294967296)%Z ->
  match of_offset r with
  | Some i => exists e, c !! i = Some e /\ (exists old, tell w h = Some old /\ e_offset e = Z.of_nat old) /\
      forall now, opened w' (<[i := at_offset e (Z.of_nat pos) now]> c) m' p wr r h O
  | None => opened w' c m' p wr r h O
  end.
Proof.
  intros (Hr & Hf & HO & Hown & Hok & Hcase) Hf' Hm Hpos. destruct (of_offset r) as [i|] eqn:Er.
  - destruct Hcase as (Hca & Hnc & Hc & e & He & Hfp & Hp). exists e. split; [done|]. split.
    { destruct (cr_live _ _ _ Hc _ _ _ He Hfp) as (? & old & _ & _ & Ht & Hoff & _). by exists old. }
    intros now. unfold opened. rewrite Er. split_and!; try done; [eapply cache_rel_move; [exact Hf|done..]|].
    eexists. rewrite list_lookup_insert_eq by (by eapply lookup_lt_Some). split; [reflexivity|]. done.
  - destruct Hcase as [Hca Hc]. unfold opened. rewrite Er. split_and!; try done.
    eapply cache_rel_outside; [exact Hf|exact HO|done|apply Hm].
Qed.

Lemma opened_tell w c m p wr r h O : opened w c m p wr r h O -> exists pos, tell w h = Some pos.
Proof.
  intros (_ & Hf & HO & _). destruct (fr_open _ _ _ Hf _ _ _ HO) as (? & s & ? & _ & Hs & _).
  exists (ftell s). unfold tell. by rewrite Hs.
Qed.

Lemma store_lookup {A} (l : list A) i x y : l !! i = Some y -> store l i x = Ret (<[i := x]> l).
Proof.
  intros Hi. unfold store. destruct (_ <? _)%nat eqn:E; bool_hyps; [done|]. apply lookup_lt_Some in Hi. lia.
Qed.

(** The seek brings the stream to the offset. *)
Lemma seek_to_ok (st : fio) m p wr r h O off :
  opened (f_world st) (fd_cache st) m p wr r h O -> (0 <= off < 2147483648)%Z ->
  exists w c, seek_to st r h off = Ret (set_files st w c, true) /\ opened w c m p wr r h O /\
    tell w h = Some (Z.to_nat off).
Proof.
  intros Ho Hoff. pose proof Ho as (Hr & Hf & HO & Hown & Hok & Hcase).
  unfold seek_to, read_offset. rewrite (s32_small off) by lia.
  destruct (fseek_rel (f_world st) O m p h wr off Hf HO) as (w & Hseek & Hf' & Hm); [lia|].
  pose proof (opened_step _ _ _ _ _ _ _ _ w m (Z.to_nat off) Ho Hf' Hm ltac:(lia)) as Hstep.
  destruct (of_offset r) as [i|] eqn:Er.
  - destruct Hstep as (e & He & (old & Hold & Heo) & Hstep). unfold load. rewrite He. cbn [of_option mbind outcome_bind].
    destruct (s32 (e_offset e) =? off)%Z eqn:E; bool_hyps.
    + exists (f_world st), (fd_cache st). destruct st; cbn in *. split; [done|]. split; [done|].
      rewrite Hold. f_equal. destruct Hcase as (_ & _ & Hc & e' & He' & Hfp & _). assert (e' = e) as -> by congruence.
      destruct (cr_live _ _ _ Hc _ _ _ He Hfp) as (? & pos & _ & _ & Ht & Hpos & Hlt).
      assert (pos = old) as -> by congruence. rewrite Heo in E.
      assert (Z.of_nat old = off) by (apply s32_nonneg; lia). lia.
    + rewrite Hseek. cbn [mbind outcome_bind]. unfold update_offset. rewrite Er. cbn [set_files fd_cache].
      unfold load. rewrite He. cbn [of_option mbind outcome_bind]. erewrite store_lookup by done.
      cbn [mbind outcome_bind]. exists w. eexists. split; [reflexivity|]. split; [|apply Hm].
      rewrite u32_small by lia. rewrite <-(Z2Nat.id off) at 1 by lia. apply (Hstep (e_opened_at e)).
  - cbn [mbind outcome_bind]. destruct (-1 =? off)%Z eqn:E; bool_hyps; [lia|]. rewrite Hseek.
    cbn [mbind outcome_bind]. unfold update_offset. rewrite Er. cbn [mbind outcome_bind].
    eexists _, _. split; [reflexivity|]. split; [done|apply Hm].
Qed.

(** After [k] bytes the offset is advanced. *)
Lemma update_offset_ok (st : fio) w' m m' p wr r h O pos k :
  opened (f_world st) (fd_cache st) m p wr r h O -> tell (f_world st) h = Some pos -> files_rel w' O m' ->
  moved (f_world st) w' h (pos + k) -> (Z.of_nat (pos + k) < 4294967296)%Z ->
  exists c, update_offset (set_files st w' (fd_cache st)) r (Z.of_nat k) OP_INCREMENT = Ret (set_files st w' c) /\
    opened w' c m' p wr r h O.
Proof.
  intros Ho Hpos Hf Hm Hlt. pose proof (opened_step _ _ _ _ _ _ _ _ _ _ _ Ho Hf Hm Hlt) as Hstep.
  unfold update_offset. destruct (of_offset r) as [i|]; [|by eexists].
  destruct Hstep as (e & He & (old & Hold & Heo) & Hstep). cbn [set_files fd_cache]. unfold load. rewrite He.
  cbn [of_option mbind outcome_bind]. erewrite store_lookup by done. cbn [mbind outcome_bind].
  eexists. split; [reflexivity|]. assert (old = pos) as -> by congruence.
  rewrite Heo, u32_small by lia. rewrite <-Nat2Z.inj_add. apply (Hstep (e_opened_at e)).
Qed.

(** Closing what is not cached leaves a consistent state. *)
Lemma finalize_ok (st : fio) m p wr r h O :
  opened (f_world st) (fd_cache st) m p wr r h O ->
  exists w O', finalize_non_cached st r = Ret (set_files st w (fd_cache st)) /\ held w (fd_cache st) m O'.
Proof.
  intros (Hr & Hf & HO & Hown & Hok & Hcase). unfold finalize_non_cached. rewrite Hr.
  destruct (of_offset r) as [i|].
  - destruct Hcase as (-> & Hnc & Hc & _). exists (f_world st), O. split; [by destruct st|]. split_and!; [done..|].
    intros q x Hq. destruct (decide (q = p)) as [->|Hne]; [done|]. apply (Hown q x). by rewrite lookup_delete_ne.
  - destruct Hcase as [-> Hc]. destruct (fclose_rel _ _ _ _ _ _ Hf HO) as (w & -> & Hf' & Ht).
    cbn [mbind outcome_bind]. exists w, (delete p O). split; [done|]. split_and!; [done| |done].
    eapply cache_rel_outside; [exact Hf|done..].
Qed.

Lemma set_files_twice (st : fio) w c w' c' : set_files (set_files st w c) w' c' = set_files st w' c'.
Proof. done. Qed.

Lemma outcome_bind_assoc {A B C} (o : outcome A) (f : A -> outcome B) (g : B -> outcome C) :
  ((o ≫= f) ≫= g) = (o ≫= fun x => f x ≫= g).
Proof. by destruct o. Qed.

(** The end of a write: the offset is advanced, then the file closed unless it is cached. *)
Lemma finish_write_ok (st : fio) w' m m' p wr r h O pos k :
  opened (f_world st) (fd_cache st) m p wr r h O -> tell (f_world st) h = Some pos -> files_rel w' O m' ->
  moved (f_world st) w' h (pos + k) -> (Z.of_nat (pos + k) < 4294967296)%Z ->
  exists w c O', (st ← update_offset (set_files st w' (fd_cache st)) r (Z.of_nat k) OP_INCREMENT;
      finalize_non_cached st r) = Ret (set_files st w c) /\ held w c m' O'.
Proof.
  intros Ho Hpos Hf Hm Hlt. destruct (update_offset_ok st w' m m' p wr r h O pos k Ho Hpos Hf Hm Hlt) as (c & -> & Ho').
  cbn [mbind outcome_bind]. destruct (finalize_ok (set_files st w' c) m' p wr r h O Ho') as (w & O' & -> & Hh).
  by exists w, c, O'.
Qed.

(** The end of a read: the other way round. *)
Lemma finish_read_ok (st : fio) w' m m' p wr r h O pos k :
  opened (f_world st) (fd_cache st) m p wr r h O -> tell (f_world st) h = Some pos -> files_rel w' O m' ->
  moved (f_world st) w' h (pos + k) -> (Z.of_nat (pos + k) < 4294967296)%Z ->
  exists w c O', (st ← finalize_non_cached (set_files st w' (fd_cache st)) r;
      update_offset st r (Z.of_nat k) OP_INCREMENT) = Ret (set_files st w c) /\ held w c m' O'.
Proof.
  intros Ho Hpos Hf Hm Hlt.
  pose proof (finish_write_ok st w' m m' p wr r h O pos k Ho Hpos Hf Hm Hlt) as (w & c & O' & He & Hh).
  exists w, c, O'. split; [|done]. rewrite <-He. pose proof Ho as (Hr & _ & _ & _ & _ & Hcase).
  unfold finalize_non_cached, update_offset in *. destruct (of_offset r) as [i|].
  - destruct Hcase as (-> & _). cbn [mbind outcome_bind].
    destruct (load _ i); [|done..]. cbn [mbind outcome_bind]. by destruct (store _ _ _).
  - destruct Hcase as [-> _]. rewrite Hr. cbn [mbind outcome_bind]. by destruct (fclose _ h).
Qed.

(** The closing loop does not look at the offsets. *)
Lemma close_entries_offset cond n idx w cache i e e' :
  cache !! i = Some e -> cond e = true -> cond e' = true -> e_fp e' = e_fp e -> idx <= i < idx + n ->
  close_entries cond n idx w (<[i := e']> cache) = close_entries cond n idx w cache.
Proof.
  intros Hi H1 H2 Hfp. revert idx w cache Hi. induction n as [|n IH]; intros idx w cache Hi Hidx; [lia|].
  assert (i < length cache) as Hlt by (by eapply lookup_lt_Some). cbn [close_entries]. unfold load.
  destruct (decide (idx = i)) as [->|Hne].
  - rewrite list_lookup_insert_eq, Hi by done. cbn [of_option mbind outcome_bind]. rewrite H1, H2, Hfp.
    destruct (e_fp e) as [h|]; [|done]. cbn [of_option mbind outcome_bind]. destruct (fclose w h); [|done..].
    cbn [mbind outcome_bind]. unfold store. rewrite length_insert, list_insert_insert_eq. done.
  - rewrite list_lookup_insert_ne by done. destruct (cache !! idx) as [x|] eqn:Ex; [|done].
    cbn [of_option mbind outcome_bind]. destruct (cond x); [|apply IH; [done|lia]].
    destruct (e_fp x) as [h|]; [|done]. cbn [of_option mbind outcome_bind]. destruct (fclose w h); [|done..].
    cbn [mbind outcome_bind]. unfold store. rewrite length_insert. destruct (_ <? _)%nat; [|done].
    cbn [mbind outcome_bind]. rewrite list_insert_insert_ne by done. apply IH; [|lia].
    by rewrite list_lookup_insert_ne by done.
Qed.

Lemma close_entries_none cond n idx w cache :
  idx + n <= length cache -> (forall i e, cache !! i = Some e -> cond e = false) ->
  close_entries cond n idx w cache = Ret (w, cache).
Proof.
  intros Hlen Hno. revert idx Hlen. induction n as [|n IH]; intros idx Hlen; [done|]. cbn [close_entries].
  destruct (lookup_lt_is_Some_2 cache idx) as [e He]; [lia|]. unfold load. rewrite He. cbn [of_option mbind outcome_bind].
  rewrite (Hno idx e He). apply IH. lia.
Qed.

#[local] Opaque close_entries FD_CACHE_COUNT.

(** A write that failed: the stream is closed, in the cache or not. *)
Lemma abandon_ok (st : fio) w' m m' p wr r h O pos :
  opened (f_world st) (fd_cache st) m p wr r h O -> files_rel w' O m' -> moved (f_world st) w' h pos ->
  (Z.of_nat pos < 4294967296)%Z ->
  exists w c O', (st ← flush_cached_fd (set_files st w' (fd_cache st)) p (mode_of wr); finalize_non_cached st r) =
      Ret (set_files st w c) /\ held w c m' O'.
Proof.
  intros Ho Hf Hm Hpos. pose proof (opened_step _ _ _ _ _ _ _ _ _ _ _ Ho Hf Hm Hpos) as Hstep.
  pose proof Ho as (Hr & Hf0 & HO & Hown & Hok & Hcase). destruct (of_offset r) as [i|] eqn:Er.
  - destruct Hstep as (e & He & _ & Hstep). specialize (Hstep 0%Z). destruct Hcase as (Hca & Hnc & Hc & e0 & He0 & Hfp & Hp).
    assert (e0 = e) as -> by congruence.
    destruct (cr_live _ _ _ Hc _ _ _ He Hfp) as (wr' & pos' & Hmode & HO' & _).
    assert (wr' = wr) as -> by congruence.
    destruct Hstep as (_ & _ & _ & _ & _ & Hs). rewrite Er in Hs. destruct Hs as (_ & _ & Hc' & _).
    destruct (flush_cached_ok (set_files st w' (<[i := at_offset e (Z.of_nat pos) 0]> (fd_cache st))) O m' p wr)
      as (w & c & O' & Hfl & Hh & _).
    { split_and!; [done..|]. intros q x Hq. destruct (decide (q = p)) as [->|Hne]; [done|].
      apply (Hown q x). by rewrite lookup_delete_ne. }
    exists w, c, O'. split; [|done]. unfold flush_cached_fd, close_where in *.
    change (fd_cache (set_files st w' ?c)) with c in *. change (f_world (set_files st w' ?c)) with w' in *.
    rewrite (close_entries_offset _ _ _ _ _ i e) in Hfl; [|done| | |done|].
    + destruct (close_entries _ _ _ w' (fd_cache st)) as [[w2 c2]| |]; [|done..]. cbn [mbind outcome_bind fst snd] in *.
      injection Hfl as -> ->. unfold finalize_non_cached. by rewrite Hca.
    + unfold is_for. by rewrite !bool_decide_eq_true_2 by done.
    + unfold is_for. cbn. by rewrite !bool_decide_eq_true_2 by done.
    + apply lookup_lt_Some in He. rewrite (cr_len _ _ _ Hc) in He. lia.
  - destruct (finalize_ok (set_files st w' (fd_cache st)) m' p wr r h O Hstep) as (w & O' & Hfin & Hh).
    exists w, (fd_cache st), O'. split; [|done]. destruct Hcase as [_ Hc]. unfold flush_cached_fd, close_where.
    change (fd_cache (set_files st w' ?c)) with c in *. change (f_world (set_files st w' ?c)) with w' in *.
    rewrite close_entries_none; [cbn [mbind outcome_bind fst snd]; rewrite set_files_twice; exact Hfin|by rewrite (cr_len _ _ _ Hc)|].
    intros j e Hj. destruct (e_fp e) as [h'|] eqn:Efp.
    + destruct (cr_live _ _ _ Hc _ _ _ Hj Efp) as (? & ? & _ & Ho' & _). apply lookup_delete_Some in Ho' as [Hne _].
      unfold is_for. by rewrite bool_decide_eq_false_2.
    + destruct (cr_dead _ _ _ Hc _ _ Hj Efp) as [Hmode _]. unfold is_for. rewrite Hmode. destruct wr; by rewrite andb_false_r.
Qed.

(** ** Outgoing packets *)

(** A send buffer that holds [bytes]. *)
Definition pub_holds (ctx : pubsub_ctx) (bytes : list Z) : Prop :=
  length (send_buffer ctx) = Z.to_nat SEND_BUFFER_SIZE /\
  send_buffer_offset ctx = Z.of_nat (length bytes) /\
  send_buffer_remaining ctx = (SEND_BUFFER_SIZE - Z.of_nat (length bytes))%Z /\
  (Z.of_nat (length bytes) <= SEND_BUFFER_SIZE)%Z /\
  take (length bytes) (send_buffer ctx) = bytes.

Lemma flush_output_ok (st : fio) idx ctx bytes :
  f_pubs st !! idx = Some ctx -> pub_holds ctx bytes ->
  exists ctx', pub_holds ctx' [] /\
    flush_output_sbp st idx =
      Ret (if decide (bytes = []) then st
           else set_pubs (emit st (EPT_send idx bytes)) (<[idx := ctx']> (f_pubs st))) /\
    (bytes = [] -> ctx' = ctx).
Proof.
  intros Hidx (Hlen & Hoff & Hrem & Hle & Htake). unfold flush_output_sbp, load. rewrite Hidx.
  cbn [of_option mbind outcome_bind]. rewrite Hoff. case_decide as Hb.
  - subst. exists ctx. split; [|done]. by split_and!.
  - destruct (_ =? 0)%Z eqn:E; bool_hyps; [destruct bytes; [done|cbn in E; lia]|].
    unfold SEND_BUFFER_SIZE in *. rewrite Nat2Z.id, slice_ok, drop_0, Htake by lia. cbn [mbind outcome_bind].
    erewrite store_lookup by done. cbn [mbind outcome_bind].
    exists (mk_pubsub (send_buffer ctx) 4096 0). split; [by split_and!|]. done.
Qed.

(** A piece of at most the size of the buffer is taken whole, after a flush if need be. *)
Lemma stage_packed_ok (st : fio) idx ctx bytes piece :
  f_pubs st !! idx = Some ctx -> pub_holds ctx bytes -> (Z.of_nat (length piece) <= SEND_BUFFER_SIZE)%Z ->
  exists ctx', 
    if decide (Z.of_nat (length bytes + length piece) <= SEND_BUFFER_SIZE)%Z
    then pub_holds ctx' (bytes ++ piece) /\
      stage_packed_sbp_buffer st piece idx = Ret (set_pubs st (<[idx := ctx']> (f_pubs st)), Z.of_nat (length piece))
    else pub_holds ctx' piece /\
      stage_packed_sbp_buffer st piece idx =
        Ret (set_pubs (emit st (EPT_send idx bytes)) (<[idx := ctx']> (f_pubs st)), Z.of_nat (length piece)).
Proof.
  intros Hidx Hctx Hp. unfold stage_packed_sbp_buffer, load. rewrite Hidx. cbn [of_option mbind outcome_bind].
  assert (forall (st1 : fio) ctx1 bytes1, f_pubs st1 !! idx = Some ctx1 -> pub_holds ctx1 bytes1 ->
    (Z.of_nat (length bytes1 + length piece) <= SEND_BUFFER_SIZE)%Z ->
    exists ctx', pub_holds ctx' (bytes1 ++ piece) /\
      (ctx ← of_option (f_pubs st1 !! idx);
       let len := Z.min (send_buffer_remaining ctx) (Z.of_nat (length piece)) in
       buf ← memcpy (send_buffer ctx) (Z.to_nat (send_buffer_offset ctx)) (take (Z.to_nat len) piece);
       pubs ← store (f_pubs st1) idx
           (mk_pubsub buf (u32 (send_buffer_remaining ctx - len)) (u32 (send_buffer_offset ctx + len)));
       Ret (set_pubs st1 pubs, len)) =
      Ret (set_pubs st1 (<[idx := ctx']> (f_pubs st1)), Z.of_nat (length piece))) as Hcopy.
  { clear. intros st1 ctx1 bytes1 Hidx (Hlen & Hoff & Hrem & Hle & Htake) Hfit. unfold SEND_BUFFER_SIZE in *.
    rewrite Hidx. cbn [of_option mbind outcome_bind]. cbv zeta. rewrite Hrem, Hoff, Z.min_r, !Nat2Z.id by lia.
    rewrite (take_ge piece) by done. rewrite memcpy_ok by lia. cbn [mbind outcome_bind].
    erewrite store_lookup by done. cbn [mbind outcome_bind]. eexists. split; [|reflexivity].
    unfold pub_holds, SEND_BUFFER_SIZE; cbn [send_buffer send_buffer_offset send_buffer_remaining].
    rewrite length_memcpy, length_app by lia. rewrite !u32_small by lia.
    split_and!; [lia..|]. rewrite take_memcpy by lia. by rewrite Htake. }
  pose proof Hctx as (Hlen & Hoff & Hrem & Hle & Htake). rewrite Hrem. case_decide as Hfit.
  - rewrite Z.min_r, Z.eqb_refl by lia. cbn [mbind outcome_bind].
    destruct (Hcopy st ctx bytes Hidx Hctx Hfit) as (ctx' & H1 & H2). exists ctx'. by split.
  - destruct (_ =? _)%Z eqn:E; bool_hyps; [lia|].
    destruct (flush_output_ok st idx ctx bytes Hidx Hctx) as (ctx0 & Hc0 & -> & _).
    rewrite decide_False by (intros ->; cbn [length] in *; lia). cbn [mbind outcome_bind].
    destruct (Hcopy (set_pubs (emit st (EPT_send idx bytes)) (<[idx := ctx0]> (f_pubs st))) ctx0 [])
      as (ctx' & H1 & H2); [cbn; by eapply list_lookup_insert_eq, lookup_lt_Some|done|cbn; lia|].
    exists ctx'. split; [done|]. etransitivity; [exact H2|]. cbn. by rewrite list_insert_insert_eq.
Qed.

Lemma set_pubs_twice (st : fio) p q : set_pubs (set_pubs st p) q = set_pubs st q.
Proof. done. Qed.

(** A packet that fits is staged whole. *)
Lemma stage_pieces_ok (st : fio) idx ctx bytes pieces :
  f_pubs st !! idx = Some ctx -> pub_holds ctx bytes ->
  (Z.of_nat (length bytes + length (concat pieces)) <= SEND_BUFFER_SIZE)%Z ->
  exists ctx', pub_holds ctx' (bytes ++ concat pieces) /\
    stage_pieces st pieces idx = Ret (set_pubs st (<[idx := ctx']> (f_pubs st))).
Proof.
  revert st ctx bytes. induction pieces as [|p pieces IH]; intros st ctx bytes Hidx Hctx Hfit; cbn [stage_pieces concat].
  { exists ctx. rewrite app_nil_r. split; [done|]. rewrite list_insert_id by done. by destruct st. }
  cbn [concat] in Hfit. rewrite length_app in Hfit.
  destruct (stage_packed_ok st idx ctx bytes p Hidx Hctx) as (ctx1 & Hc); [lia|].
  rewrite decide_True in Hc by lia. destruct Hc as [Hc1 ->]. cbn [mbind outcome_bind fst].
  destruct (IH (set_pubs st (<[idx := ctx1]> (f_pubs st))) ctx1 (bytes ++ p)) as (ctx2 & Hc2 & ->);
    [cbn; by eapply list_lookup_insert_eq, lookup_lt_Some|done|rewrite length_app; lia|].
  exists ctx2. split; [by rewrite app_assoc|]. cbn. by rewrite list_insert_insert_eq.
Qed.

(** What has been sent on an endpoint. *)
Definition sent_on (idx : nat) (out : list out_event) : list Z :=
  flat_map (fun e => match e with EPT_send i d => if decide (i = idx) then d else [] | _ => [] end) out.

Lemma sent_on_app idx a b : sent_on idx (a ++ b) = sent_on idx a ++ sent_on idx b.
Proof. apply flat_map_app. Qed.

Lemma stage_pieces_stream (st : fio) idx ctx bytes pieces :
  f_pubs st !! idx = Some ctx -> pub_holds ctx bytes ->
  Forall (fun p => Z.of_nat (length p) <= SEND_BUFFER_SIZE)%Z pieces ->
  exists st' ctx' bytes', stage_pieces st pieces idx = Ret st' /\ f_pubs st' !! idx = Some ctx' /\
    pub_holds ctx' bytes' /\ sent_on idx (f_out st') ++ bytes' = sent_on idx (f_out st) ++ bytes ++ concat pieces.
Proof.
  intros Hidx Hctx Hp. revert st ctx bytes Hidx Hctx. induction Hp as [|p pieces Hp _ IH]; intros st ctx bytes Hidx Hctx;
    cbn [stage_pieces concat].
  { exists st, ctx, bytes. rewrite app_nil_r. done. }
  destruct (stage_packed_ok st idx ctx bytes p Hidx Hctx Hp) as (ctx1 & Hc). case_decide.
  - destruct Hc as [Hc1 ->]. cbn [mbind outcome_bind fst].
    destruct (IH (set_pubs st (<[idx := ctx1]> (f_pubs st))) ctx1 (bytes ++ p)) as (st' & c' & b' & -> & ? & ? & Hs);
      [cbn; by eapply list_lookup_insert_eq, lookup_lt_Some|done|].
    exists st', c', b'. split_and!; try done. rewrite Hs. cbn [set_pubs f_out]. by rewrite <-!app_assoc.
  - destruct Hc as [Hc1 ->]. cbn [mbind outcome_bind fst].
    destruct (IH (set_pubs (emit st (EPT_send idx bytes)) (<[idx := ctx1]> (f_pubs st))) ctx1 p)
      as (st' & c' & b' & -> & ? & ? & Hs); [cbn; by eapply list_lookup_insert_eq, lookup_lt_Some|done|].
    exists st', c', b'. split_and!; try done. rewrite Hs. cbn [set_pubs emit f_out].
    rewrite sent_on_app. cbn [sent_on flat_map]. rewrite decide_True, app_nil_r by done. by rewrite <-!app_assoc.
Qed.
End refinement.

(** ** Requests and their specification *)

Definition bytes_of_string (s : string) : list Z :=
  map (fun c => Z.of_nat (nat_of_ascii c)) (String.list_ascii_of_string s).

(** A name that a message can carry: no NUL, not empty. *)
Definition name_ok (s : string) : Prop :=
  Forall (fun c => nat_of_ascii c <> 0) (String.list_ascii_of_string s) /\ s <> "".

Inductive request :=
  | Req_read (now sequence offset chunk : Z) (path : string) (rest : list Z)
  | Req_write (now sequence offset : Z) (path : string) (data : list Z) (idx : nat) (header rest : list Z)
  | Req_remove (path : string) (rest : list Z)
  | Req_timer (now : Z)
  | Req_flush (wait_file : string).

Section serve.
Context {PV : Type} `{Validator PV} `{!ValidatorTotal PV}.
Variable sizes : fileio_sizes.
Variable drain ahead : nat -> nat.
Variable f64 : f64_ops.
Variable open_ok : string -> bool.
Variable accept : nat -> nat -> nat.
Variable no_cache : bool.
Variable allow_factory_mtd allow_imageset_bin : bool.
Variable sbp_pack : Z -> list Z -> list (list Z).
Variable npubs : nat.

(** A packet fits into the send buffer and is not empty. *)
Hypothesis pack_ok : forall t p, (0 < Z.of_nat (length (concat (sbp_pack t p))) <= SEND_BUFFER_SIZE)%Z.

(** The handlers, called with the messages of the requests; [rest] is whatever the message
    buffer holds behind the message. *)
Definition serve (st : fio PV) (r : request) : outcome (fio PV) :=
  match r with
  | Req_read now sequence offset chunk path rest =>
      read_cb sizes ahead f64 open_ok no_cache allow_factory_mtd now st
        (Z.of_nat (sizeof_read_req sizes + String.length path))
        (mk_read_req sequence offset chunk (bytes_of_string path ++ rest))
  | Req_write now sequence offset path data idx header rest =>
      write_cb sizes drain f64 open_ok accept no_cache allow_imageset_bin sbp_pack now st
        (Z.of_nat (sizeof_write_req sizes + String.length path + 1 + length data))
        (mk_write_req sequence offset (header ++ bytes_of_string path ++ [0%Z] ++ data ++ rest)) idx
  | Req_remove path rest =>
      remove_cb allow_imageset_bin st (Z.of_nat (String.length path)) (bytes_of_string path ++ rest)
  | Req_timer now => r ← timer_handler f64 now (replicate npubs true) st; of_option r
  | Req_flush wait_file => sbp_fileio_flush st wait_file
  end.

Fixpoint serve_all (st : fio PV) (rs : list request) : outcome (fio PV) :=
  match rs with
  | [] => Ret st
  | r :: rs' => st ← serve st r; serve_all st rs'
  end.

(** The specification: a map from names to contents, written and read directly.  [sp_fwrites]
    counts the writes, whose outcome the system decides; the validator's metrics are flushed
    at every tenth tick. *)
Record spec := mk_spec { sp_pv : PV; sp_files : gmap string (list Z); sp_fwrites : nat; sp_ticks : Z }.

Definition spec_step (s : spec) (r : request) : outcome (spec * list out_event) :=
  match r with
  | Req_read now sequence offset chunk path _ =>
      x ← match allow_mtd_read allow_factory_mtd path with
          | DENY_MTD_READ => Ret (sp_pv s, false)
          | ALLOW_MTD_READ => Ret (sp_pv s, true)
          | NO_MTD_READ => pv_check (sp_pv s) path
          end;
      let readlen := Z.to_nat (Z.min chunk (SBP_FRAMING_MAX_PAYLOAD_SIZE - Z.of_nat (sizeof_read_resp sizes))) in
      let data := if (snd x : bool) && open_ok path
                  then take readlen (drop (Z.to_nat offset) (default [] (sp_files s !! path))) else [] in
      Ret (mk_spec (fst x) (sp_files s) (sp_fwrites s) (sp_ticks s), [TX_read_resp sequence data])
  | Req_write now sequence offset path data idx _ _ =>
      let file := filter_imageset_bin allow_imageset_bin path in
      x ← pv_check (sp_pv s) file;
      if (snd x : bool) && open_ok file then
        let taken := take (accept (sp_fwrites s) (length data)) data in
        Ret (mk_spec (fst x)
               (<[file := pwrite (default [] (sp_files s !! file)) (Z.to_nat offset) taken]> (sp_files s))
               (S (sp_fwrites s)) (sp_ticks s),
             if length taken =? length data
             then [EPT_send idx (concat (sbp_pack SBP_MSG_FILEIO_WRITE_RESP (u32_bytes sequence)))] else [])
      else Ret (mk_spec (fst x) (sp_files s) (sp_fwrites s) (sp_ticks s), [])
  | Req_remove path _ =>
      let file := filter_imageset_bin allow_imageset_bin path in
      x ← pv_check (sp_pv s) file;
      Ret (mk_spec (fst x) (if (snd x : bool) then delete file (sp_files s) else sp_files s) (sp_fwrites s)
             (sp_ticks s), [])
  | Req_timer _ =>
      if (sp_ticks s + 1 =? FLUSH_METRICS_EVERY)%Z
      then pv ← pv_flush_metrics (sp_pv s); Ret (mk_spec pv (sp_files s) (sp_fwrites s) 0, [])
      else Ret (mk_spec (sp_pv s) (sp_files s) (sp_fwrites s) (sp_ticks s + 1), [])
  | Req_flush wait_file =>
      Ret (mk_spec (sp_pv s) (delete wait_file (sp_files s)) (sp_fwrites s) (sp_ticks s), [])
  end.

Fixpoint spec_all (s : spec) (rs : list request) : outcome (spec * list out_event) :=
  match rs with
  | [] => Ret (s, [])
  | r :: rs' => x ← spec_step s r; y ← spec_all (fst x) rs'; Ret (fst y, snd x ++ snd y)
  end.

(** Requests within the limits of the protocol and of the file offsets. *)
Definition request_ok (r : request) : Prop :=
  match r with
  | Req_read now sequence offset chunk path rest =>
      name_ok path /\ sizeof_read_req sizes + String.length path < 255 /\
      (0 <= offset < 2147483648)%Z /\ (0 <= chunk <= 255)%Z
  | Req_write now sequence offset path data idx header rest =>
      name_ok path /\ length header = sizeof_write_req sizes /\ data <> [] /\
      sizeof_write_req sizes + String.length path + 1 + length data <= 255 /\
      (0 <= offset)%Z /\ (offset + Z.of_nat (length data) < 2147483648)%Z /\ idx < npubs
  | Req_remove path rest => name_ok path /\ String.length path < 255
  | Req_timer _ => True
  | Req_flush _ => True
  end.

(** A state of the daemon that stands for a state of the specification. *)
Record serve_rel (st : fio PV) (s : spec) : Prop := {
  sr_files : exists O, held open_ok no_cache (f_world st) (fd_cache st) (sp_files s) O;
  sr_pv : f_pv st = sp_pv s;
  sr_valid : pv_valid (sp_pv s);
  sr_fwrites : f_fwrites st = sp_fwrites s;
  sr_ticks : trigger_metrics_flush st = sp_ticks s;
  sr_metrics : exists m, f_metrics st = Some m /\ metrics_wf m;
  sr_pubs : length (f_pubs st) = npubs;
  sr_idle : forall idx ctx, f_pubs st !! idx = Some ctx -> pub_holds ctx [];
}.

Lemma c_string_name p rest :
  name_ok p -> c_string (bytes_of_string p ++ 0%Z :: rest) = Ret p.
Proof.
  intros [Hp _]. induction p as [|c p IH]; [done|]. cbn [String.list_ascii_of_string] in Hp.
  apply Forall_cons in Hp as [Hc Hp]. change (bytes_of_string (String.String c p)) with
    (Z.of_nat (nat_of_ascii c) :: bytes_of_string p).
  cbn [app c_string]. destruct (_ =? 0)%Z eqn:E; bool_hyps; [lia|]. rewrite IH by done. cbn [mbind outcome_bind].
  unfold char_of. by rewrite Nat2Z.id, ascii_nat_embedding.
Qed.

Lemma length_bytes_of_string p : length (bytes_of_string p) = String.length p.
Proof.
  unfold bytes_of_string. rewrite length_map. induction p as [|c p IH]; [done|]. cbn. by f_equal.
Qed.

(** Counting bytes keeps the metrics well formed and changes nothing else. *)
Lemma count_bytes_ok (st : fio PV) i v m :
  f_metrics st = Some m -> metrics_wf m ->
  exists m', count_bytes f64 st i v = Ret (mk_fio (f_world st) (fd_cache st) (f_pv st) (Some m') (f_fwrites st)
    (f_pubs st) (f_out st) (trigger_cache_purge st) (trigger_metrics_flush st)) /\ metrics_wf m'.
Proof.
  intros Hm Hwf. unfold count_bytes. rewrite Hm.
  destruct (pk_metrics_update_good f64 m i (pk_metrics_u32 v) Hwf) as (m' & status & -> & Hm' & _).
  { cbn. pose proof (u32_range v). lia. }
  exists m'. split; [done|done].
Qed.

(** The reply to a read with given files and cache. *)
Definition read_reply (st : fio PV) (w : world) (c : list fd_cache_t) (sequence : Z) (data : list Z) : outcome (fio PV) :=
  count_bytes f64 (emit (set_files st w c) (TX_read_resp sequence data)) FMI.read_bytes (Z.of_nat (length data)).

Lemma read_reply_ok (st : fio PV) (w : world) (c : list fd_cache_t) O s s' sequence data :
  serve_rel st s -> held open_ok no_cache w c (sp_files s') O ->
  sp_pv s' = sp_pv s -> sp_fwrites s' = sp_fwrites s -> sp_ticks s' = sp_ticks s ->
  exists st', read_reply st w c sequence data = Ret st' /\
    f_out st' = f_out st ++ [TX_read_resp sequence data] /\ serve_rel st' s'.
Proof.
  intros Hrel Hheld H1 H2 H3. destruct (sr_metrics _ _ Hrel) as (m & Hm & Hwf). unfold read_reply.
  destruct (count_bytes_ok (emit (set_files st w c) (TX_read_resp sequence data)) FMI.read_bytes
    (Z.of_nat (length data)) m Hm Hwf) as (m' & -> & Hm').
  eexists. split; [reflexivity|]. split; [done|]. destruct Hrel. split; cbn; try congruence; try done.
  - by exists O.
  - by exists m'.
Qed.

(** Reading a file that may be read. *)
Lemma read_allowed_ok now (st : fio PV) O m path sequence off n :
  held open_ok no_cache (f_world st) (fd_cache st) m O -> (0 <= off < 2147483648)%Z -> n <= 255 ->
  exists w c O', read_allowed ahead f64 open_ok no_cache now st path sequence off n =
      read_reply st w c sequence
        (if open_ok path then take n (drop (Z.to_nat off) (default [] (m !! path))) else []) /\
    held open_ok no_cache w c m O'.
Proof.
  intros Hheld Hoff Hn. unfold read_allowed.
  change "w" with (mode_of true). change "r" with (mode_of false).
  destruct (flush_cached_ok open_ok no_cache st O m path true Hheld) as (w1 & c1 & O1 & -> & Hh1 & _ & Hno).
  cbn [mbind outcome_bind].
  pose proof (open_file_ok open_ok no_cache now (set_files st w1 c1) O1 m path false Hh1 Hno) as Hopen.
  destruct (can_open open_ok m path false) eqn:Ecan; unfold can_open in Ecan; cbn [orb] in Ecan.
  - destruct Hopen as (w2 & c2 & r & h & O2 & -> & Hopened). cbn [mbind outcome_bind]. rewrite !set_files_twice.
    pose proof Hopened as (-> & _).
    destruct (seek_to_ok open_ok no_cache (set_files st w2 c2) m path false r h O2 off Hopened Hoff)
      as (w3 & c3 & -> & Hop3 & Ht3).
    cbn [mbind outcome_bind negb]. rewrite !set_files_twice.
    change (f_world (set_files st w3 c3)) with w3. change (fd_cache (set_files st w3 c3)) with c3.
    pose proof Hop3 as (_ & Hf3 & HO3 & _).
    destruct (fr_open _ _ _ Hf3 _ _ _ HO3) as (ino & s & cnt & _ & Hs & Hcnt & _).
    assert (ftell s = Z.to_nat off) as Hs3 by (unfold tell in Ht3; rewrite Hs in Ht3; by injection Ht3).
    destruct (fread_rel ahead w3 O2 m path h s cnt n Hf3 HO3 Hs Hcnt) as (w4 & -> & Hf4 & Hm4).
    cbn [mbind outcome_bind fst snd]. apply andb_true_iff in Ecan as [-> _]. rewrite Hcnt. rewrite Hs3 in *.
    change (default [] (Some cnt)) with cnt. set (data := take n (drop (Z.to_nat off) cnt)) in *.
    assert (length data <= 255) by (unfold data; rewrite length_take; lia).
    destruct (finish_read_ok open_ok no_cache (set_files st w3 c3) w4 m m path false r h O2 (Z.to_nat off) (length data))
      as (w5 & c5 & O5 & Hfin & Hh5); [done..|lia|].
    exists w5, c5, O5. split; [|done]. unfold read_done. cbn [mbind outcome_bind].
    rewrite <-(outcome_bind_assoc (finalize_non_cached _ r)
      (fun st => update_offset st r (Z.of_nat (length data)) OP_INCREMENT)).
    change (fd_cache (set_files st w3 c3)) with c3 in Hfin. rewrite Hfin. done.
  - destruct Hopen as [-> HO]. cbn [mbind outcome_bind of_fp empty_open_file]. unfold read_done.
    change "r" with (mode_of false).
    destruct (flush_cached_ok open_ok no_cache (set_files st w1 c1) O1 m path false Hh1) as (w2 & c2 & O2 & -> & Hh2 & _).
    cbn [mbind outcome_bind update_offset of_offset empty_open_file].
    exists w2, c2, O2. split; [|done]. unfold read_reply. rewrite set_files_twice.
    assert ((if open_ok path then take n (drop (Z.to_nat off) (default [] (m !! path))) else []) = []) as ->; [|done].
    destruct (open_ok path); [|done]. cbn [andb] in Ecan. apply bool_decide_eq_false in Ecan.
    destruct (m !! path); [by destruct Ecan|]. cbn. by rewrite drop_nil, take_nil.
Qed.

(** What one request does: the events it emits, and the states after it. *)
Definition step_ok (st : fio PV) (s : spec) (r : request) : Prop :=
  exists st' s' out, serve st r = Ret st' /\ spec_step s r = Ret (s', out) /\
    f_out st' = f_out st ++ out /\ serve_rel st' s'.

Lemma serve_rel_pv st s pv :
  serve_rel st s -> pv_valid pv -> serve_rel (set_pv st pv) (mk_spec pv (sp_files s) (sp_fwrites s) (sp_ticks s)).
Proof. intros [] Hv. by split. Qed.

Lemma read_step_ok st s now sequence off chunk path rest :
  serve_rel st s -> request_ok (Req_read now sequence off chunk path rest) ->
  step_ok st s (Req_read now sequence off chunk path rest).
Proof.
  intros Hrel (Hname & Hlen & Hoff & Hchunk). unfold step_ok. cbn [serve spec_step]. unfold read_cb.
  assert (0 < String.length path) as Hpos by (destruct Hname as [_ ?]; destruct path; [done|cbn; lia]).
  unfold SBP_FRAMING_MAX_PAYLOAD_SIZE. destruct (_ || _) eqn:E; [apply orb_true_iff in E as [E|E]; bool_hyps; lia|]. clear E.
  cbn [rq_filename rq_sequence rq_offset rq_chunk_size].
  replace (Z.to_nat (Z.of_nat (sizeof_read_req sizes + String.length path)) - sizeof_read_req sizes)
    with (length (bytes_of_string path)) by (rewrite length_bytes_of_string; lia).
  rewrite take_app_length, c_string_name by done. cbn [mbind outcome_bind].
  set (n := Z.to_nat (Z.min chunk (255 - Z.of_nat (sizeof_read_resp sizes)))).
  assert (n <= 255) as Hn by lia.
  set (data := take n (drop (Z.to_nat off) (default [] (sp_files s !! path)))).
  assert (forall pv, pv_valid pv -> exists st' s' out,
    read_done f64 (set_pv st pv) empty_open_file false path sequence [] = Ret st' /\
    Ret (mk_spec pv (sp_files s) (sp_fwrites s) (sp_ticks s), [TX_read_resp sequence []]) = Ret (s', out) /\
    f_out st' = f_out st ++ out /\ serve_rel st' s') as Hdenied.
  { intros pv Hv. pose proof (serve_rel_pv st s pv Hrel Hv) as Hrel'. destruct (sr_files _ _ Hrel') as [O Hheld].
    destruct (read_reply_ok (set_pv st pv) (f_world st) (fd_cache st) O _ _ sequence [] Hrel' Hheld)
      as (st' & He & Hout & Hr); [done..|].
    exists st'. eexists _, _. split_and!; [exact He|reflexivity|exact Hout|exact Hr]. }
  assert (forall pv, pv_valid pv -> exists st' s' out,
    read_allowed ahead f64 open_ok no_cache now (set_pv st pv) path sequence off n = Ret st' /\
    Ret (mk_spec pv (sp_files s) (sp_fwrites s) (sp_ticks s), [TX_read_resp sequence (if open_ok path then data else [])]) =
      Ret (s', out) /\
    f_out st' = f_out st ++ out /\ serve_rel st' s') as Hallowed.
  { intros pv Hv. pose proof (serve_rel_pv st s pv Hrel Hv) as Hrel'. destruct (sr_files _ _ Hrel') as [O Hheld].
    destruct (read_allowed_ok now _ O _ path sequence off n Hheld Hoff Hn) as (w & c & O' & -> & Hheld').
    destruct (read_reply_ok (set_pv st pv) w c O' _ _ sequence (if open_ok path then data else []) Hrel' Hheld')
      as (st' & He & Hout & Hr); [done..|].
    exists st'. eexists _, _. split_and!; [exact He|reflexivity|exact Hout|exact Hr]. }
  assert (set_pv st (sp_pv s) = st) as Hsame by (rewrite <-(sr_pv _ _ Hrel); by destruct st).
  unfold read_denied. destruct (allow_mtd_read allow_factory_mtd path); cbn [mbind outcome_bind fst snd].
  - pose proof (Hdenied (sp_pv s) (sr_valid _ _ Hrel)) as Hd. rewrite Hsame in Hd. cbn [andb]. exact Hd.
  - rewrite (sr_pv _ _ Hrel). destruct (pv_check_total (sp_pv s) path (sr_valid _ _ Hrel)) as (pv & b & -> & Hv).
    destruct b; cbn [mbind outcome_bind fst snd negb andb]; [by apply Hallowed|by apply Hdenied].
  - pose proof (Hallowed (sp_pv s) (sr_valid _ _ Hrel)) as Hd. rewrite Hsame in Hd. cbn [andb]. exact Hd.
Qed.

(** ** Writing *)

(** One more [fwrite]. *)
Definition bump (st : fio PV) : fio PV := did_fwrite st (f_world st).

Lemma write_message path data header rest :
  name_ok path -> length header = sizeof_write_req sizes ->
  let msg := header ++ bytes_of_string path ++ [0%Z] ++ data ++ rest in
  c_string (drop (sizeof_write_req sizes) msg) = Ret path /\
  slice msg (sizeof_write_req sizes + String.length path + 1) (length data) = Ret data.
Proof.
  intros Hname Hh. cbn zeta. split.
  - rewrite <-Hh, drop_app_length. by apply c_string_name.
  - rewrite slice_ok by (rewrite !length_app, length_bytes_of_string; cbn; lia). f_equal.
    replace (sizeof_write_req sizes + String.length path + 1)
      with (length ((header ++ bytes_of_string path) ++ [0%Z])) by
      (rewrite !length_app, length_bytes_of_string; cbn; lia).
    rewrite (app_assoc header), (app_assoc (header ++ _)), drop_app_length. by rewrite take_app_length.
Qed.

Lemma did_fwrite_files (st : fio PV) w c w' :
  did_fwrite (set_files st w c) w' = set_files (bump st) w' c.
Proof. done. Qed.

(** Writing to a file whose path was allowed. *)
Lemma write_allowed_ok now (st : fio PV) O m path file sequence off data header rest :
  held open_ok no_cache (f_world st) (fd_cache st) m O ->
  name_ok path -> length header = sizeof_write_req sizes ->
  sizeof_write_req sizes + String.length path + 1 + length data <= 255 ->
  (0 <= off)%Z -> (off + Z.of_nat (length data) < 2147483648)%Z ->
  let taken := take (accept (f_fwrites st) (length data)) data in
  exists w c O',
    write_allowed sizes drain open_ok accept no_cache now st path file
      (mk_write_req sequence off (header ++ bytes_of_string path ++ [0%Z] ++ data ++ rest))
      (Z.of_nat (sizeof_write_req sizes + String.length path + 1 + length data)) =
    (if open_ok file
     then Ret (set_files (bump st) w c, length taken =? length data, Z.of_nat (length data))
     else Ret (set_files st w c, false, 0%Z)) /\
    held open_ok no_cache w c
      (if open_ok file then <[file := pwrite (default [] (m !! file)) (Z.to_nat off) taken]> m else m) O'.
Proof.
  intros Hheld Hname Hh Hlen Hoff Hend. cbn zeta. unfold write_allowed.
  change "w" with (mode_of true). change "r" with (mode_of false).
  destruct (flush_cached_ok open_ok no_cache st O m file false Hheld) as (w1 & c1 & O1 & -> & Hh1 & _ & Hno).
  cbn [mbind outcome_bind].
  pose proof (open_file_ok open_ok no_cache now (set_files st w1 c1) O1 m file true Hh1 Hno) as Hopen.
  unfold can_open in Hopen. rewrite orb_true_l, andb_true_r in Hopen. destruct (open_ok file) eqn:Eok.
  2: { destruct Hopen as [-> _]. cbn [mbind outcome_bind of_fp empty_open_file]. by exists w1, c1, O1. }
  destruct Hopen as (w2 & c2 & r & h & O2 & -> & Hopened). cbn [mbind outcome_bind]. rewrite set_files_twice.
  pose proof Hopened as (-> & _). cbn [wq_offset wq_msg].
  destruct (seek_to_ok open_ok no_cache (set_files st w2 c2) _ file true r h O2 off Hopened) as (w3 & c3 & -> & Hop3 & Ht3);
    [lia|].
  cbn [mbind outcome_bind negb]. rewrite set_files_twice.
  destruct (write_message path data header rest Hname Hh) as [_ Hslice].
  rewrite (u8_small (Z.of_nat (sizeof_write_req sizes + String.length path + 1))) by lia.
  replace (Z.of_nat (sizeof_write_req sizes + String.length path + 1 + length data) -
    Z.of_nat (sizeof_write_req sizes + String.length path + 1))%Z with (Z.of_nat (length data)) by lia.
  rewrite (u32_small (Z.of_nat (length data))) by lia. rewrite !Nat2Z.id, Hslice. cbn [mbind outcome_bind].
  change (f_world (set_files st w3 c3)) with w3. change (f_fwrites (set_files st w3 c3)) with (f_fwrites st).
  pose proof Hop3 as (_ & Hf3 & HO3 & _).
  destruct (fr_open _ _ _ Hf3 _ _ _ HO3) as (ino & s & cnt & _ & Hs & Hcnt & _).
  assert (ftell s = Z.to_nat off) as Hs3 by (unfold tell in Ht3; rewrite Hs in Ht3; by injection Ht3).
  assert (cnt = default [] (m !! file)) as Hc0.
  { cbn [open_effect] in Hcnt. rewrite lookup_insert_eq in Hcnt. by injection Hcnt. }
  set (taken := take (accept (f_fwrites st) (length data)) data).
  destruct (fwrite_rel drain w3 O2 _ file h s cnt data (accept (f_fwrites st) (length data)) Hf3 HO3 Hs Hcnt)
    as (w4 & -> & Hf4 & Hm4). fold taken in Hf4, Hm4 |- *.
  cbn [mbind outcome_bind]. rewrite did_fwrite_files. rewrite Hs3 in *. rewrite Hc0 in Hf4.
  cbn [open_effect] in Hf4. rewrite insert_insert_eq in Hf4.
  assert (length taken <= length data) as Htl by (unfold taken; rewrite length_take; lia).
  replace (Z.of_nat (length taken) =? Z.of_nat (length data))%Z with (length taken =? length data).
  2: { destruct (length taken =? length data) eqn:E1, (_ =? _)%Z eqn:E2; bool_hyps; done || lia. }
  destruct (length taken =? length data) eqn:Efull; bool_hyps; cbn [negb].
  - destruct (finish_write_ok open_ok no_cache (set_files (bump st) w3 c3) w4 _ _ file true r h O2 (Z.to_nat off)
      (length taken) Hop3 Ht3 Hf4 Hm4) as (w5 & c5 & O5 & Hfin & Hh5); [lia|].
    change (fd_cache (set_files (bump st) w3 c3)) with c3 in Hfin. rewrite !set_files_twice in Hfin. rewrite <-Efull.
    exists w5, c5, O5. split; [|done]. rewrite <-(outcome_bind_assoc (update_offset _ r _ _)
      (fun st => finalize_non_cached st r)). rewrite Hfin. done.
  - destruct (abandon_ok open_ok no_cache (set_files (bump st) w3 c3) w4 _ _ file true r h O2 _ Hop3 Hf4 Hm4)
      as (w5 & c5 & O5 & Hfin & Hh5); [lia|].
    change (fd_cache (set_files (bump st) w3 c3)) with c3 in Hfin. rewrite !set_files_twice in Hfin.
    exists w5, c5, O5. split; [|done]. rewrite <-(outcome_bind_assoc (flush_cached_fd _ file _)
      (fun st => finalize_non_cached st r)). rewrite Hfin. done.
Qed.

Lemma strnlen_name p rest n :
  name_ok p -> String.length p < n -> strnlen (bytes_of_string p ++ 0%Z :: rest) n = Ret (String.length p).
Proof.
  intros [Hp _]. revert n. induction p as [|c p IH]; intros n Hn; (destruct n as [|n]; [lia|]); [done|].
  cbn [String.list_ascii_of_string] in Hp. apply Forall_cons in Hp as [Hc Hp].
  change (bytes_of_string (String.String c p)) with (Z.of_nat (nat_of_ascii c) :: bytes_of_string p).
  cbn [app strnlen String.length] in *. destruct (_ =? 0)%Z eqn:E; bool_hyps; [lia|]. by rewrite IH by (done || lia).
Qed.

Lemma write_valid_ok sequence off path data header rest :
  name_ok path -> length header = sizeof_write_req sizes -> data <> [] ->
  sizeof_write_req sizes + String.length path + 1 + length data <= 255 ->
  write_valid sizes (Z.of_nat (sizeof_write_req sizes + String.length path + 1 + length data))
    (mk_write_req sequence off (header ++ bytes_of_string path ++ [0%Z] ++ data ++ rest)) = Ret true.
Proof.
  intros Hname Hh Hd Hlen. unfold write_valid. cbn [wq_msg].
  assert (0 < String.length path) by (destruct Hname as [_ ?]; destruct path; [done|cbn; lia]).
  assert (0 < length data) by (destruct data; [done|cbn; lia]).
  destruct (_ <=? _)%Z eqn:E; bool_hyps; [lia|]. cbv zeta. unfold SBP_FRAMING_MAX_PAYLOAD_SIZE.
  rewrite <-Hh at 1. rewrite drop_app_length.
  rewrite (strnlen_name path (data ++ rest) _ Hname) by lia. cbn [mbind outcome_bind]. f_equal.
  destruct (_ =? _) eqn:E2; bool_hyps; [lia|done].
Qed.

(** The response to a write: staged, counted and sent. *)
Lemma write_response_ok (st : fio PV) (s : spec) sequence idx count :
  serve_rel st s -> idx < npubs ->
  exists st', (st ← (st ← stage_output_sbp sbp_pack st SBP_MSG_FILEIO_WRITE_RESP (u32_bytes sequence) idx;
                     count_bytes f64 st FMI.write_bytes count); flush_output_sbp st idx) = Ret st' /\
    f_out st' = f_out st ++ [EPT_send idx (concat (sbp_pack SBP_MSG_FILEIO_WRITE_RESP (u32_bytes sequence)))] /\
    serve_rel st' s.
Proof.
  intros Hrel Hidx. destruct (lookup_lt_is_Some_2 (f_pubs st) idx) as [ctx Hctx]; [by rewrite (sr_pubs _ _ Hrel)|].
  pose proof (sr_idle _ _ Hrel _ _ Hctx) as Hidle. destruct (sr_metrics _ _ Hrel) as (m & Hm & Hwf).
  pose proof (pack_ok SBP_MSG_FILEIO_WRITE_RESP (u32_bytes sequence)) as Hpack. unfold stage_output_sbp.
  destruct (stage_pieces_ok st idx ctx [] (sbp_pack SBP_MSG_FILEIO_WRITE_RESP (u32_bytes sequence)) Hctx Hidle)
    as (ctx1 & Hc1 & ->); [cbn [length]; lia|]. cbn [app] in Hc1. cbn [mbind outcome_bind].
  set (frame := concat _) in *.
  destruct (count_bytes_ok (set_pubs st (<[idx := ctx1]> (f_pubs st))) FMI.write_bytes count m Hm Hwf) as (m' & -> & Hm').
  cbn [mbind outcome_bind].
  edestruct (flush_output_ok (PV := PV)) as (ctx2 & Hc2 & -> & _); [|exact Hc1|].
  { cbn [f_pubs set_pubs]. eapply list_lookup_insert_eq. by eapply lookup_lt_Some. }
  rewrite decide_False by (intros Hf; rewrite Hf in Hpack; cbn in Hpack; lia).
  eexists. split; [reflexivity|]. split; [done|]. destruct Hrel. split; try done.
  - by exists m'.
  - cbn. by rewrite !length_insert.
  - intros i c Hi. cbn in Hi. rewrite list_insert_insert_eq in Hi.
    apply list_lookup_insert_Some in Hi as [(-> & <- & _)|[_ Hi]]; [done|by eapply sr_idle0].
Qed.

(** Without a response there is nothing to send. *)
Lemma no_response_ok (st : fio PV) (s : spec) idx :
  serve_rel st s -> idx < npubs -> flush_output_sbp st idx = Ret st.
Proof.
  intros Hrel Hidx. destruct (lookup_lt_is_Some_2 (f_pubs st) idx) as [ctx Hctx]; [by rewrite (sr_pubs _ _ Hrel)|].
  destruct (flush_output_ok st idx ctx [] Hctx (sr_idle _ _ Hrel _ _ Hctx)) as (c & _ & -> & _).
  by rewrite decide_True.
Qed.

Lemma serve_rel_files st s w c O files n k :
  serve_rel st s -> held open_ok no_cache w c files O ->
  k = f_fwrites st + n -> 
  serve_rel (mk_fio w c (f_pv st) (f_metrics st) k (f_pubs st) (f_out st) (trigger_cache_purge st)
    (trigger_metrics_flush st)) (mk_spec (sp_pv s) files (sp_fwrites s + n) (sp_ticks s)).
Proof.
  intros [] Hh ->. split; cbn; try done; [by exists O|]. by f_equal.
Qed.

Lemma write_step_ok st s now sequence off path data idx header rest :
  serve_rel st s -> request_ok (Req_write now sequence off path data idx header rest) ->
  step_ok st s (Req_write now sequence off path data idx header rest).
Proof.
  intros Hrel (Hname & Hh & Hd & Hlen & Hoff & Hend & Hidx). unfold step_ok. cbn [serve spec_step]. unfold write_cb.
  rewrite write_valid_ok by done. cbn [mbind outcome_bind negb]. unfold sbp_fileio_write. cbn [wq_msg wq_sequence].
  destruct (write_message path data header rest Hname Hh) as [-> _]. cbn [mbind outcome_bind].
  set (file := filter_imageset_bin allow_imageset_bin path). rewrite (sr_pv _ _ Hrel).
  destruct (pv_check_total (sp_pv s) file (sr_valid _ _ Hrel)) as (pv & allowed & -> & Hv). cbn [mbind outcome_bind fst snd].
  pose proof (serve_rel_pv st s pv Hrel Hv) as Hrel1. destruct (sr_files _ _ Hrel1) as [O Hheld].
  destruct allowed; cbn [negb andb mbind outcome_bind].
  2: { exists (set_pv st pv). eexists _, []. split; [by eapply no_response_ok|]. split; [reflexivity|].
       split; [by rewrite app_nil_r|done]. }
  destruct (write_allowed_ok now (set_pv st pv) O (sp_files s) path file sequence off data header rest Hheld Hname Hh
    Hlen Hoff Hend) as (w & c & O' & -> & Hheld').
  change (f_fwrites (set_pv st pv)) with (f_fwrites st) in *. rewrite (sr_fwrites _ _ Hrel) in *.
  destruct (open_ok file).
  2: { cbn [mbind outcome_bind].
       pose proof (serve_rel_files _ _ w c O' (sp_files s) 0 _ Hrel1 Hheld' eq_refl) as Hrel2.
       cbn in Hrel2. rewrite !Nat.add_0_r in Hrel2.
       exists (set_files (set_pv st pv) w c). eexists _, []. split; [by eapply no_response_ok|]. split; [reflexivity|].
       split; [by rewrite app_nil_r|done]. }
  cbn [mbind outcome_bind].
  pose proof (serve_rel_files _ _ w c O' _ 1 (S (f_fwrites st)) Hrel1 Hheld' (eq_sym (Nat.add_1_r _))) as Hrel2.
  cbn in Hrel2. rewrite Nat.add_1_r in Hrel2.
  destruct (_ =? length data).
  - destruct (write_response_ok _ _ sequence idx (Z.of_nat (length data)) Hrel2 Hidx) as (st' & He & Hout & Hr).
    exists st'. eexists _, _. split; [exact He|]. split; [reflexivity|]. split; [exact Hout|exact Hr].
  - cbn [mbind outcome_bind]. eexists _, _, []. split; [eapply (no_response_ok _ _ idx Hrel2 Hidx)|]. split; [reflexivity|].
    split; [by rewrite app_nil_r|done].
Qed.

Lemma remove_step_ok st s path rest :
  serve_rel st s -> request_ok (Req_remove path rest) -> step_ok st s (Req_remove path rest).
Proof.
  intros Hrel (Hname & Hlen). unfold step_ok. cbn [serve spec_step]. unfold remove_cb, SBP_FRAMING_MAX_PAYLOAD_SIZE.
  assert (0 < String.length path) by (destruct Hname as [_ ?]; destruct path; [done|cbn; lia]).
  destruct (_ || _) eqn:E; [apply orb_true_iff in E as [E|E]; bool_hyps; lia|]. clear E.
  rewrite Nat2Z.id, <-length_bytes_of_string, take_app_length, c_string_name by done. cbn [mbind outcome_bind].
  set (file := filter_imageset_bin allow_imageset_bin path). rewrite (sr_pv _ _ Hrel).
  destruct (pv_check_total (sp_pv s) file (sr_valid _ _ Hrel)) as (pv & allowed & -> & Hv). cbn [mbind outcome_bind fst snd].
  pose proof (serve_rel_pv st s pv Hrel Hv) as Hrel1. destruct (sr_files _ _ Hrel1) as [O Hheld].
  destruct allowed; cbn [negb].
  2: { exists (set_pv st pv). eexists _, []. split; [done|]. split; [reflexivity|]. split; [by rewrite app_nil_r|done]. }
  change "w" with (mode_of true). change "r" with (mode_of false).
  destruct (flush_cached_ok open_ok no_cache (set_pv st pv) O _ file false Hheld) as (w1 & c1 & O1 & -> & Hh1 & _ & Hno1).
  rewrite bind_Ret.
  destruct (flush_cached_ok open_ok no_cache (set_files (set_pv st pv) w1 c1) O1 _ file true Hh1)
    as (w2 & c2 & O2 & -> & Hh2 & Hsub & Hno2). rewrite bind_Ret.
  assert (O2 !! file = None) as HO.
  { destruct (O2 !! file) as [[h []]|] eqn:EO; [by destruct (Hno2 h)| |done].
    destruct (Hno1 h). by eapply lookup_weaken. }
  eexists _, _, []. split; [reflexivity|]. split; [reflexivity|]. split; [by rewrite app_nil_r|].
  destruct Hh2 as (Hf & Hc & Hown). destruct Hrel1. split; try done. cbn [sp_files].
  exists O2. split_and!; [by apply unlink_rel|by apply cache_rel_unlink|done].
Qed.

(** Closing entries is never seen. *)
Lemma close_where_step cond (st : fio PV) s :
  (forall e, e_fp e = None -> e_mode e = "" -> cond e = false) -> serve_rel st s ->
  exists w c O', close_where cond st = Ret (set_files st w c) /\ held open_ok no_cache w c (sp_files s) O' /\
    (forall j e, c !! j = Some e -> cond e = false) /\ serve_rel (set_files st w c) s.
Proof.
  intros Hd Hrel. destruct (sr_files _ _ Hrel) as [O Hheld].
  destruct (close_where_ok open_ok no_cache cond st O _ Hd Hheld) as (w & c & O' & -> & Hh & _ & Hno).
  exists w, c, O'. split_and!; try done. destruct Hrel. split; try done. by exists O'.
Qed.

Lemma flush_step_ok st s wait_file : serve_rel st s -> step_ok st s (Req_flush wait_file).
Proof.
  intros Hrel. unfold step_ok. cbn [serve spec_step]. unfold sbp_fileio_flush, flush_fd_cache.
  destruct (close_where_step is_open st s) as (w & c & O & -> & (Hf & Hc & Hown) & Hno & Hrel'); [|done|].
  { intros e He _. unfold is_open. by rewrite He. }
  assert (O !! wait_file = None) as HO.
  { destruct (O !! wait_file) as [[h wr]|] eqn:EO; [|done]. destruct (cr_all _ _ _ Hc _ _ _ EO) as (i & e & He & Hfp & _).
    apply Hno in He. unfold is_open in He. by rewrite Hfp in He. }
  cbn [mbind outcome_bind]. eexists _, _, []. split; [reflexivity|]. split; [reflexivity|].
  split; [by rewrite app_nil_r|]. destruct Hrel'. split; try done. exists O. split_and!; [by apply unlink_rel|by apply cache_rel_unlink|done].
Qed.

Lemma serve_rel_triggers st s a b :
  serve_rel st s -> serve_rel (set_triggers st a b) (mk_spec (sp_pv s) (sp_files s) (sp_fwrites s) b).
Proof. intros []. by split. Qed.

Lemma serve_timer st now : serve st (Req_timer now) = timer_tick f64 now st.
Proof.
  cbn [serve]. unfold timer_handler. destruct (timer_tick f64 now st); [|done..]. rewrite !bind_Ret.
  assert (forallb id (replicate npubs true) = true) as -> by (clear; induction npubs; done). done.
Qed.

Lemma timer_step_ok st s now : serve_rel st s -> step_ok st s (Req_timer now).
Proof.
  intros Hrel. unfold step_ok. rewrite serve_timer. cbn [spec_step]. unfold timer_tick.
  set (st1 := set_triggers st _ _).
  assert (exists st2, (if (trigger_cache_purge st1 =? CHECK_FD_CACHE_EVERY)%Z
      then purge_fd_cache (set_triggers st1 0 (trigger_metrics_flush st1)) now else Ret st1) = Ret st2 /\
    serve_rel st2 s /\ f_out st2 = f_out st) as (st2 & -> & Hrel2 & Hout2).
  { assert (forall a, serve_rel (set_triggers st a (trigger_metrics_flush st)) s) as Ht.
    { intros a. pose proof (serve_rel_triggers st s a (trigger_metrics_flush st) Hrel) as Hr.
      rewrite (sr_ticks _ _ Hrel) in Hr at 2. by destruct s. }
    destruct (_ =? _)%Z; [|exists st1; split; [done|]; split; [apply Ht|done]]. unfold purge_fd_cache.
    destruct (close_where_step (fun e => is_open e && (CACHE_CLOSE_AGE <=? now - e_opened_at e)%Z)
      (set_triggers st1 0 (trigger_metrics_flush st1)) s) as (w & c & O & -> & _ & _ & Hr); [|apply Ht|].
    - intros e He _. unfold is_open. by rewrite He.
    - eexists. by split_and!. }
  cbn [mbind outcome_bind]. cbn [set_triggers trigger_metrics_flush trigger_cache_purge]. rewrite (sr_ticks _ _ Hrel2).
  destruct (sp_ticks s + 1 =? FLUSH_METRICS_EVERY)%Z.
  - destruct (sr_metrics _ _ Hrel2) as (m & Hm & Hwf). unfold set_triggers, reset_metric, set_pv.
    cbn [f_world fd_cache f_pv f_metrics f_fwrites f_pubs f_out trigger_cache_purge trigger_metrics_flush].
    rewrite Hm. cbn [of_option]. rewrite bind_Ret. cbn [f_metrics].
    destruct (pk_metrics_reset_wf now _ FMI.read_bytes (pk_metrics_flush_wf f64 m Hwf)) as (m1 & s1 & -> & Hm1).
    cbn [fst f_metrics]. destruct (pk_metrics_reset_wf now m1 FMI.write_bytes Hm1) as (m2 & s2 & -> & Hm2).
    cbn [fst f_metrics]. destruct (pk_metrics_reset_wf now m2 FMI.wq_waits Hm2) as (m3 & s3 & -> & Hm3).
    cbn [fst f_metrics f_pv]. rewrite (sr_pv _ _ Hrel2).
    destruct (pv_flush_total (sp_pv s) (sr_valid _ _ Hrel2)) as (pv & -> & Hv). cbn [mbind outcome_bind].
    eexists _, _, []. split; [reflexivity|]. split; [reflexivity|]. split; [rewrite app_nil_r; done|].
    destruct Hrel2. split; try done. by exists m3.
  - eexists _, _, []. split; [reflexivity|]. split; [reflexivity|]. split; [rewrite app_nil_r; done|].
    by apply serve_rel_triggers.
Qed.

Lemma serve_step_ok st s r : serve_rel st s -> request_ok r -> step_ok st s r.
Proof.
  intros Hrel Hr. destruct r.
  - by apply read_step_ok.
  - by apply write_step_ok.
  - by apply remove_step_ok.
  - by apply timer_step_ok.
  - by apply flush_step_ok.
Qed.

Lemma serve_all_ok st s rs :
  serve_rel st s -> Forall request_ok rs ->
  exists st' s' out, serve_all st rs = Ret st' /\ spec_all s rs = Ret (s', out) /\
    f_out st' = f_out st ++ out /\ serve_rel st' s'.
Proof.
  intros Hrel Hrs. revert st s Hrel. induction Hrs as [|r rs Hr _ IH]; intros st s Hrel; cbn [serve_all spec_all].
  { exists st, s, []. by rewrite app_nil_r. }
  destruct (serve_step_ok st s r Hrel Hr) as (st1 & s1 & out1 & -> & -> & Hout1 & Hrel1). cbn [mbind outcome_bind fst snd].
  destruct (IH st1 s1 Hrel1) as (st2 & s2 & out2 & -> & -> & Hout2 & Hrel2). cbn [mbind outcome_bind fst snd].
  exists st2, s2, (out1 ++ out2). split_and!; try done. by rewrite Hout2, Hout1, app_assoc.
Qed.

(** A daemon that has just been set up over some files. *)
Definition fio_start (w : world) (pv : PV) (metrics : pk_metrics) : fio PV :=
  mk_fio w (replicate FD_CACHE_COUNT (mk_fd None "" "" 0 0)) pv (Some metrics) 0
    (replicate npubs (mk_pubsub (replicate (Z.to_nat SEND_BUFFER_SIZE) 0%Z) SEND_BUFFER_SIZE 0)) [] 0 0.

Lemma fio_start_rel w pv metrics files :
  files_rel w ∅ files -> pv_valid pv -> metrics_wf metrics ->
  serve_rel (fio_start w pv metrics) (mk_spec pv files 0 0).
Proof.
  intros Hf Hv Hm. split; try done.
  - exists ∅. split_and!; [done| |by intros p x ?%lookup_empty_Some]. split.
    + apply length_replicate.
    + intros i e h (-> & _)%lookup_replicate_1. done.
    + intros i e (-> & _)%lookup_replicate_1. done.
    + intros i j e e' h h' (-> & _)%lookup_replicate_1. done.
    + intros p h wr Hp. by rewrite lookup_empty in Hp.
  - by exists metrics.
  - apply length_replicate.
  - intros idx ctx (-> & _)%lookup_replicate_1. split_and!; [apply length_replicate|done..].
Qed.


Lemma serve_all_app st rs1 rs2 : serve_all st (rs1 ++ rs2) = (st ← serve_all st rs1; serve_all st rs2).
Proof.
  revert st. induction rs1 as [|r rs1 IH]; intros st; [done|]. cbn [app serve_all].
  destruct (serve st r); [|done..]. rewrite !bind_Ret. apply IH.
Qed.

(** A flush makes everything durable.  After any requests and a flush, each name leads on
    the disk itself to exactly the content that the requests have given it. *)
Theorem fileio_flush_durable w pv metrics files rs wait_file :
  files_rel w ∅ files -> pv_valid pv -> metrics_wf metrics -> Forall request_ok rs ->
  exists st s out, serve_all (fio_start w pv metrics) (rs ++ [Req_flush wait_file]) = Ret st /\
    spec_all (mk_spec pv files 0 0) rs = Ret (s, out) /\
    forall p, p <> wait_file ->
      content (f_world st) <$> names (w_disk (f_world st)) !! p = sp_files s !! p.
Proof.
  intros Hf Hv Hm Hrs.
  destruct (serve_all_ok _ _ rs (fio_start_rel w pv metrics files Hf Hv Hm) Hrs) as (st & s & out & H1 & H2 & _ & Hrel).
  rewrite serve_all_app, H1, bind_Ret. cbn [serve_all serve]. unfold sbp_fileio_flush, flush_fd_cache.
  destruct (close_where_step is_open st s) as (w1 & c1 & O & -> & (Hf1 & Hc & _) & Hno & _); [|done|].
  { intros e He _. unfold is_open. by rewrite He. }
  rewrite !bind_Ret. eexists _, s, out. split; [reflexivity|]. split; [done|]. intros p Hp.
  cbn [f_world set_files unlink w_disk names]. rewrite lookup_delete_ne by done.
  change (content (unlink ?w wait_file)) with (content w).
  assert (O !! p = None) as HO.
  { destruct (O !! p) as [[h wr]|] eqn:EO; [|done]. destruct (cr_all _ _ _ Hc _ _ _ EO) as (i & e & He & Hfp & _).
    apply Hno in He. unfold is_open in He. by rewrite Hfp in He. }
  destruct (names (w_disk w1) !! p) as [ino|] eqn:En; cbn.
  - symmetry. by apply (fr_closed _ _ _ Hf1).
  - symmetry. by apply (fr_dom _ _ _ Hf1).
Qed.

(** A write request whose file name runs past the message.  The request passes the checks
    of [write_cb], because the name is ended by a zero that an earlier message left in the
    buffer; the number of bytes to write then wraps around, and the daemon reads far past the
    message buffer. *)
Theorem write_unterminated now st s sequence off msg len name idx pv :
  serve_rel st s -> write_valid sizes len (mk_write_req sequence off msg) = Ret true ->
  c_string (drop (sizeof_write_req sizes) msg) = Ret name ->
  (len < Z.of_nat (sizeof_write_req sizes + String.length name + 1) <= 255)%Z -> (0 <= len)%Z ->
  (Z.of_nat (length msg) < 4294967040)%Z -> (0 <= off < 2147483648)%Z ->
  pv_check (f_pv st) (filter_imageset_bin allow_imageset_bin name) = Ret (pv, true) ->
  open_ok (filter_imageset_bin allow_imageset_bin name) = true ->
  write_cb sizes drain f64 open_ok accept no_cache allow_imageset_bin sbp_pack now st len
    (mk_write_req sequence off msg) idx = Undef.
Proof.
  intros Hrel Hvalid Hname Hlen Hpos Hmsg Hoff Hpv Hok. unfold write_cb. rewrite Hvalid, bind_Ret. cbn [negb].
  unfold sbp_fileio_write. cbn [wq_msg]. rewrite Hname, bind_Ret, Hpv, bind_Ret. cbv zeta. cbn [negb].
  set (file := filter_imageset_bin allow_imageset_bin name) in *.
  destruct (sr_files _ _ Hrel) as [O Hheld]. unfold write_allowed.
  change "w" with (mode_of true). change "r" with (mode_of false).
  destruct (flush_cached_ok open_ok no_cache (set_pv st pv) O (sp_files s) file false Hheld)
    as (w1 & c1 & O1 & -> & Hh1 & _ & Hno). rewrite bind_Ret.
  pose proof (open_file_ok open_ok no_cache now (set_files (set_pv st pv) w1 c1) O1 _ file true Hh1 Hno) as Hopen.
  unfold can_open in Hopen. rewrite orb_true_l, andb_true_r, Hok in Hopen.
  destruct Hopen as (w2 & c2 & r & h & O2 & -> & Hopened). rewrite bind_Ret, set_files_twice.
  pose proof Hopened as (-> & _). cbn [wq_offset wq_msg].
  destruct (seek_to_ok open_ok no_cache (set_files (set_pv st pv) w2 c2) _ file true r h O2 off Hopened Hoff)
    as (w3 & c3 & -> & _). rewrite bind_Ret. cbn [negb].
  rewrite (u8_small (Z.of_nat (sizeof_write_req sizes + String.length name + 1))) by lia.
  assert (u32 (len - Z.of_nat (sizeof_write_req sizes + String.length name + 1)) >= 4294967040)%Z as Hbig.
  { unfold u32. rewrite <-(Z_mod_plus_full _ 1), Z.mod_small by lia. lia. }
  unfold slice. destruct (_ <=? _)%nat eqn:E; bool_hyps; [lia|done].
Qed.
End serve.

(** Packets leave in order.  Whatever pieces, none larger than the buffer, are staged for
    an endpoint, flushing when one does not fit, and then flushed: what has been sent on the
    endpoint is what had been sent and staged before, followed by the pieces, and the buffer
    is empty again. *)
Theorem staged_output_in_order {PV} (st : fio PV) idx ctx bytes pieces :
  f_pubs st !! idx = Some ctx -> pub_holds ctx bytes ->
  Forall (fun p => Z.of_nat (length p) <= SEND_BUFFER_SIZE)%Z pieces ->
  exists st' ctx', (st ← stage_pieces st pieces idx; flush_output_sbp st idx) = Ret st' /\
    sent_on idx (f_out st') = sent_on idx (f_out st) ++ bytes ++ concat pieces /\
    f_pubs st' !! idx = Some ctx' /\ pub_holds ctx' [].
Proof.
  intros Hidx Hctx Hp. destruct (stage_pieces_stream st idx ctx bytes pieces Hidx Hctx Hp)
    as (st1 & c1 & b1 & -> & Hc1 & Hh1 & Hs). rewrite bind_Ret.
  destruct (flush_output_ok st1 idx c1 b1 Hc1 Hh1) as (c2 & Hc2 & -> & Hsame). case_decide as Hb.
  - subst b1. rewrite app_nil_r in Hs. exists st1, c1. rewrite Hsame in Hc2 by done. done.
  - eexists _, c2. split; [reflexivity|]. cbn [f_out set_pubs emit f_pubs]. rewrite sent_on_app, <-Hs.
    cbn [sent_on flat_map]. rewrite decide_True, app_nil_r by done.
    split; [done|]. split; [|done]. eapply list_lookup_insert_eq. by eapply lookup_lt_Some.
Qed.

(** ** Listing a directory *)

(** The names that fit into the reply, each with its terminating zero. *)
Fixpoint names_that_fit (room : Z) (entries : list string) : list string :=
  match entries with
  | [] => []
  | e :: entries' =>
      let n := Z.of_nat (String.length e + 1) in
      if (room <? n)%Z then [] else e :: names_that_fit (room - n) entries'
  end.

Definition encode_names (l : list string) : list Z := flat_map (fun n => bytes_of_string n ++ [0%Z]) l.

Lemma fill_names_ok room entries contents len :
  Forall (fun e => String.length e <= 255) entries -> (0 <= len <= room)%Z -> (room <= 255)%Z ->
  let fit := names_that_fit (room - len) entries in
  fill_names room entries contents len =
    if decide ((len + Z.of_nat (length (encode_names fit)) = room)%Z /\ fit <> entries) then Undef
    else Ret (contents ++ encode_names fit, len + Z.of_nat (length (encode_names fit)))%Z.
Proof.
  intros He. revert contents len. induction He as [|e entries He _ IH]; intros contents len Hlen Hroom;
    cbn [fill_names names_that_fit].
  { cbn zeta. cbn [encode_names flat_map length]. rewrite decide_False by (by intros [_ ?]).
    rewrite app_nil_r, Z.add_0_r. done. }
  cbn zeta in *. destruct (decide (len = room)) as [->|Hne].
  - replace (room - room - 1)%Z with (-1)%Z by lia. change (u32 (-1)) with 4294967295%Z.
    destruct (4294967295 <? _)%Z eqn:E1; bool_hyps; [lia|]. destruct (room <? _)%Z eqn:E2; bool_hyps; [|lia].
    destruct (_ <? _)%Z eqn:E3; bool_hyps; [|lia]. cbn [encode_names flat_map length].
    rewrite decide_True; [done|]. split; [lia|done].
  - rewrite u32_small by lia. destruct (_ <? Z.of_nat (String.length e))%Z eqn:E1; bool_hyps.
    + destruct (_ <? Z.of_nat (String.length e + 1))%Z eqn:E2; bool_hyps; [|lia].
      cbn [encode_names flat_map length]. rewrite decide_False by lia. by rewrite app_nil_r, Z.add_0_r.
    + destruct (_ <? Z.of_nat (String.length e + 1))%Z eqn:E2; bool_hyps; [lia|].
      destruct (room <? _)%Z eqn:E3; bool_hyps; [lia|]. rewrite u8_small by lia.
      change (map (fun c => Z.of_nat (nat_of_ascii c)) (String.list_ascii_of_string e)) with (bytes_of_string e).
      rewrite IH by lia.
      replace (room - (len + Z.of_nat (String.length e) + 1))%Z with (room - len - Z.of_nat (String.length e + 1))%Z by lia.
      set (fit := names_that_fit _ entries). cbn [encode_names flat_map]. fold (encode_names fit).
      rewrite !length_app, length_bytes_of_string. cbn [length].
      rewrite <-!app_assoc. destruct (decide ((len + Z.of_nat (String.length e) + 1 + Z.of_nat (length (encode_names fit)))%Z = room /\ fit <> entries))
        as [[Ha Hb]|Hab].
      * rewrite decide_True; [done|]. split; [lia|]. congruence.
      * rewrite decide_False; [f_equal; f_equal; lia|]. intros [Ha Hb]. apply Hab. split; [lia|]. congruence.
Qed.

(** Listing a directory.  For a directory that may be read the reply holds, as
    zero-terminated strings, the entries from the requested offset on, as many as fit; except
    that when the entries fill the reply to the last byte and there is another one, that one
    is copied past the end of the reply. *)
Theorem read_dir_cb_spec {PV} `{Validator PV} sizes dir (st : fio PV) sequence offset path rest pv entries :
  name_ok path -> sizeof_read_dir_req sizes + String.length path < 255 -> sizeof_read_dir_resp sizes < 255 ->
  pv_check (f_pv st) path = Ret (pv, true) -> dir path = Some entries ->
  Forall (fun e => String.length e <= 255) entries ->
  let room := (255 - Z.of_nat (sizeof_read_dir_resp sizes))%Z in
  let wanted := drop (Z.to_nat offset) entries in
  let fit := names_that_fit room wanted in
  read_dir_cb sizes dir st (Z.of_nat (sizeof_read_dir_req sizes + String.length path))
    (mk_read_dir_req sequence offset (bytes_of_string path ++ rest)) =
  if decide (Z.of_nat (length (encode_names fit)) = room /\ fit <> wanted) then Undef
  else Ret (emit (set_pv st pv) (TX_read_dir_resp sequence (encode_names fit))).
Proof.
  intros Hname Hlen Hresp Hpv Hdir Hent. cbn zeta. unfold read_dir_cb, SBP_FRAMING_MAX_PAYLOAD_SIZE.
  assert (0 < String.length path) by (destruct Hname as [_ ?]; destruct path; [done|cbn; lia]).
  destruct (_ || _) eqn:E; [apply orb_true_iff in E as [E|E]; bool_hyps; lia|]. clear E.
  cbn [rd_dirname rd_offset rd_sequence].
  replace (Z.to_nat (Z.of_nat (sizeof_read_dir_req sizes + String.length path)) - sizeof_read_dir_req sizes)
    with (length (bytes_of_string path)) by (rewrite length_bytes_of_string; lia).
  rewrite take_app_length, c_string_name, bind_Ret, Hpv, bind_Ret by done. cbn [negb]. rewrite Hdir.
  rewrite fill_names_ok; [|by apply Forall_drop|lia|lia]. rewrite Z.sub_0_r, Z.add_0_l.
  case_decide; [done|]. rewrite bind_Ret. cbn [fst snd app]. rewrite Nat2Z.id, take_ge by done. done.
Qed.

(** ** The path validator as the daemon's validator *)

Section validator.
Variable f64 : f64_ops.
Variable junk : pk_metrics_value.
Variable fs : path_fs.
Variable now : Z.
Hypothesis junk_ok : (0 <= vdata junk < 18446744073709551616)%Z.

Definition path_validator_ops : Validator path_validator := {|
  pv_check := path_validator_check f64 junk fs;
  pv_flush_metrics := path_validator_flush_metrics f64 now;
|}.

Lemma pv_count_metrics ctx i ctx' :
  is_Some (pv_metrics ctx) -> pv_count f64 junk ctx i = Ret ctx' -> is_Some (pv_metrics ctx').
Proof.
  intros [m Hm]. unfold pv_count. rewrite Hm. unfold _pk_metrics_update.
  destruct (_ <=? _)%nat; [intros [= <-]; by eexists|]. destruct (run_updater _ _ _ _); [|done..]. intros [= <-]. by eexists.
Qed.

Lemma validate_path_metrics ctx dir path ctx' b :
  is_Some (pv_metrics ctx) -> validate_path f64 junk fs ctx dir path = Ret (ctx', b) -> is_Some (pv_metrics ctx').
Proof.
  intros Hm. unfold validate_path. destruct (_ <=? _)%Z; [by intros [= <- _]|]. destruct (_ =? 0)%nat; [done|].
  destruct (_ <=? _)%Z; [by intros [= <- _]|].
  destruct (pv_count f64 junk ctx _) as [c1| |] eqn:E1; [|done..]. pose proof (pv_count_metrics _ _ _ Hm E1) as Hm1.
  rewrite bind_Ret. destruct (realpath fs _); [by intros [= <- _]| |by intros [= <- _]].
  destruct (is_prefix _ _); [|by intros [= <- _]].
  destruct (pv_count f64 junk c1 _) as [c2| |] eqn:E2; [|done..]. rewrite bind_Ret. intros [= <- _].
  by eapply pv_count_metrics.
Qed.

Lemma path_validator_check_metrics ctx path ctx' b :
  is_Some (pv_metrics ctx) -> path_validator_check f64 junk fs ctx path = Ret (ctx', b) -> is_Some (pv_metrics ctx').
Proof.
  intros Hm. unfold path_validator_check.
  assert (forall nodes ctx, is_Some (pv_metrics ctx) -> check_nodes f64 junk fs ctx nodes path = Ret (ctx', b) ->
    is_Some (pv_metrics ctx')) as Hnodes.
  { induction nodes as [|n nodes IH]; intros c Hc; cbn [check_nodes]; [by intros [= <- _]|].
    destruct (validate_path f64 junk fs c n path) as [[c1 b1]| |] eqn:E; [|done..].
    pose proof (validate_path_metrics _ _ _ _ _ Hc E) as Hc1. rewrite bind_Ret. destruct b1; [by intros [= <- _]|by apply IH]. }
  destruct (table_get _ path) as [[]|]; [|by apply Hnodes|by apply Hnodes].
  destruct (pv_count f64 junk ctx _) as [c1| |] eqn:E; [|done..]. rewrite bind_Ret. intros [= <- _].
  by eapply pv_count_metrics.
Qed.

Definition path_validator_valid (ctx : path_validator) : Prop :=
  (exists calls, pv_inv calls ctx) /\ is_Some (pv_metrics ctx).

Lemma path_validator_total : @ValidatorTotal path_validator path_validator_ops.
Proof.
  refine (Build_ValidatorTotal _ path_validator_ops path_validator_valid _ _).
  - intros ctx p [[calls Hinv] Hm]. cbn [pv_check path_validator_ops].
    destruct (path_validator_check_ok f64 junk junk_ok calls fs ctx p Hinv) as (ctx' & b & He & Hinv' & _).
    exists ctx', b. split; [done|]. split; [by eexists|]. by eapply path_validator_check_metrics.
  - intros ctx [[calls (H1 & H2 & H3 & H4 & H5 & H6)] [m Hm]]. cbn [pv_flush_metrics path_validator_ops].
    unfold path_validator_flush_metrics, pv_metrics_ok in *. rewrite Hm in *. cbn [of_option]. rewrite bind_Ret.
    destruct (pk_metrics_reset_wf now _ PMI.cache_hits (pk_metrics_flush_wf f64 m H3)) as (m1 & s1 & -> & Hm1).
    cbn [fst]. destruct (pk_metrics_reset_wf now m1 PMI.realpath_calls Hm1) as (m2 & s2 & -> & Hm2).
    cbn [fst]. destruct (pk_metrics_reset_wf now m2 PMI.stat_calls Hm2) as (m3 & s3 & -> & Hm3).
    eexists. split; [reflexivity|]. split; [|by eexists]. exists calls. by split_and!.
Defined.
End validator.


(** ** Witnesses: the daemon with the path validator, over a disk with one file *)

Definition example_sizes : fileio_sizes := mk_sizes 9 4 8 4 8.

Definition example_world : world :=
  mk_world (mk_disk {["/data/log" := 0]} {[0 := [10; 20; 30]%Z]} 1) ∅ 0.

Lemma example_files : files_rel example_world ∅ {["/data/log" := [10; 20; 30]%Z]}.
Proof.
  split; cbn [example_world w_disk names inodes fresh_inode w_streams w_fresh].
  - intros p. rewrite !lookup_singleton_None. done.
  - intros p h wr Hp. by rewrite lookup_empty in Hp.
  - intros p ino [<- <-]%lookup_singleton_Some _. rewrite lookup_singleton_eq. done.
  - by intros p q ino [<- _]%lookup_singleton_Some [<- _]%lookup_singleton_Some.
  - intros p q h wp wq Hp. by rewrite lookup_empty in Hp.
  - intros p ino [<- <-]%lookup_singleton_Some. lia.
  - intros h _. by rewrite lookup_empty.
Qed.

(** [/data/] is allowed. *)
Definition example_pv : path_validator :=
  mk_validator 4096 ["/data/"] 1 (table_create MAX_CACHE_ENTRIES) (Some example_metrics).

Lemma example_junk : (0 <= vdata value_zero < 18446744073709551616)%Z.
Proof. cbn. lia. Qed.

Definition example_ops : Validator path_validator := path_validator_ops f64_int value_zero example_tree 0.
Definition example_total : @ValidatorTotal path_validator example_ops :=
  path_validator_total f64_int value_zero example_tree 0 example_junk.

Lemma example_pv_valid : path_validator_valid example_pv.
Proof.
  split; [|by eexists]. exists [PV_allow "/data/"].
  assert (pv_inv [] (mk_validator 4096 [] 0 (table_create MAX_CACHE_ENTRIES) (Some example_metrics))) as Hinv.
  { split_and!; [split; [constructor|cbn; lia]|done|apply example_metrics_wf|done..]. }
  apply (path_validator_allow_ok value_zero example_junk [] _ "/data/" example_pv true Hinv). reflexivity.
Qed.

(** A packet of one framing byte, the type and the payload. *)
Definition example_pack (t : Z) (payload : list Z) : list (list Z) := [[85%Z; t]; take 255 payload].

Lemma example_pack_ok t p : (0 < Z.of_nat (length (concat (example_pack t p))) <= SEND_BUFFER_SIZE)%Z.
Proof. unfold SEND_BUFFER_SIZE. cbn [example_pack concat app length]. rewrite app_nil_r, length_take. lia. Qed.

(** Write, read what is still buffered, let a tick pass, read what was not written over,
    remove, and read once more. *)
Definition example_requests : list request :=
  [ Req_write 0 1 1 "/data/log" [7; 8]%Z 0 (replicate 8 0%Z) [];
    Req_read 1 2 0 100 "/data/log" [];
    Req_timer 2;
    Req_read 3 3 2 1 "/data/log" [0]%Z;
    Req_remove "/data/log" [];
    Req_read 4 4 0 100 "/data/log" [] ].

Ltac solve_name_ok := split; [repeat (apply Forall_cons; split; [vm_compute; lia|]); apply Forall_nil; exact I|done].

Lemma example_requests_ok : Forall (request_ok example_sizes 1) example_requests.
Proof.
  unfold example_requests. repeat constructor; cbn [request_ok example_sizes sizeof_read_req sizeof_write_req];
    split_and?; try (cbn; lia); try done.
Qed.

Abbreviation example_serve := (serve_all (PV := path_validator) (H := example_ops) example_sizes id (fun _ => 2) f64_int
  (fun _ => true) (fun _ n => n) false false false example_pack 1).
Abbreviation example_spec := (spec_all (PV := path_validator) (H := example_ops) example_sizes
  (fun _ => true) (fun _ n => n) false false example_pack).


(** The replies of that run. *)
Example example_replies :
  exists s, example_spec (mk_spec example_pv {["/data/log" := [10; 20; 30]%Z]} 0 0) example_requests =
    Ret (s, [EPT_send 0 [85; 171; 1; 0; 0; 0]; TX_read_resp 2 [10; 7; 8]; TX_read_resp 3 [8]; TX_read_resp 4 []])%Z.
Proof. eexists. vm_compute. reflexivity. Qed.

Lemma fileio_flush_durable_witness :
  exists st s out,
    example_serve (fio_start 1 example_world example_pv example_metrics) (example_requests ++ [Req_flush "/tmp/wait"]) = Ret st /\
    example_spec (mk_spec example_pv {["/data/log" := [10; 20; 30]%Z]} 0 0) example_requests = Ret (s, out) /\
    forall p, p <> "/tmp/wait" ->
      content (f_world st) <$> names (w_disk (f_world st)) !! p = sp_files s !! p.
Proof.
  apply (@fileio_flush_durable path_validator example_ops example_total example_sizes id (fun _ => 2) f64_int
    (fun _ => true) (fun _ n => n) false false false example_pack 1 example_pack_ok).
  - apply example_files.
  - apply example_pv_valid.
  - apply example_metrics_wf.
  - apply example_requests_ok.
Defined.

(** Eleven bytes: the header and "/da"; the rest of the name is left over from before. *)
Definition example_stale : list Z := replicate 8 0%Z ++ bytes_of_string "/data/log" ++ [0; 1; 2; 3]%Z.

Lemma write_unterminated_witness :
  write_cb (H := example_ops) example_sizes id f64_int (fun _ => true) (fun _ n => n) false false example_pack 5
    (fio_start 1 example_world example_pv example_metrics) 11 (mk_write_req 1 0 example_stale) 0 = Undef.
Proof.
  refine (@write_unterminated path_validator example_ops example_total example_sizes id f64_int (fun _ => true)
    (fun _ n => n) false false example_pack 1 5 _ (mk_spec example_pv {["/data/log" := [10; 20; 30]%Z]} 0 0) 1 0
    example_stale 11 "/data/log" 0 _ _ _ _ _ _ _ _ _ _).
  - apply (@fio_start_rel path_validator example_ops example_total).
    + apply example_files.
    + apply example_pv_valid.
    + apply example_metrics_wf.
  - reflexivity.
  - reflexivity.
  - cbn. lia.
  - lia.
  - cbn. lia.
  - lia.
  - vm_compute. reflexivity.
  - reflexivity.
Defined.

Definition example_fio : fio path_validator := fio_start 1 example_world example_pv example_metrics.

Lemma staged_output_in_order_witness :
  exists st' ctx',
    (st ← stage_pieces example_fio (replicate 20 (replicate 255 7%Z)) 0; flush_output_sbp st 0) = Ret st' /\
    sent_on 0 (f_out st') = sent_on 0 (f_out example_fio) ++ [] ++ concat (replicate 20 (replicate 255 7%Z)) /\
    f_pubs st' !! 0 = Some ctx' /\ pub_holds ctx' [].
Proof.
  apply (staged_output_in_order example_fio 0
    (mk_pubsub (replicate (Z.to_nat SEND_BUFFER_SIZE) 0%Z) SEND_BUFFER_SIZE 0)).
  - reflexivity.
  - split_and!; [apply length_replicate|done..].
  - apply Forall_replicate. rewrite length_replicate. unfold SEND_BUFFER_SIZE. lia.
Defined.

Lemma read_dir_cb_spec_witness :
  read_dir_cb (H := example_ops) example_sizes (fun _ => Some ["."; ".."; "log"; "a.txt"]) example_fio 13
    (mk_read_dir_req 6 1 (bytes_of_string "/data" ++ [])) =
  Ret (emit (set_pv example_fio (match pv_check (Validator := example_ops) example_pv "/data" with
    Ret r => fst r | _ => example_pv end)) (TX_read_dir_resp 6 [46; 46; 0; 108; 111; 103; 0; 97; 46; 116; 120; 116; 0])%Z).
Proof.
  refine (read_dir_cb_spec (H := example_ops) example_sizes (fun _ => Some ["."; ".."; "log"; "a.txt"]) example_fio 6 1
    "/data" [] _ ["."; ".."; "log"; "a.txt"] _ _ _ _ _ _).
  - solve_name_ok.
  - cbn. lia.
  - cbn. lia.
  - vm_compute. reflexivity.
  - reflexivity.
  - repeat constructor; cbn; lia.
Defined.
