(* ===== verification/WriteQueue.v ===== *)
(** * The write thread of the file I/O daemon
      ([src/package/sbp_fileio_daemon/sbp_fileio_daemon/src/sbp_fileio.c])

    Write requests are copied into a ring of 256 slots and a pointer to the slot goes through
    a pipe to a second thread, which performs the write and stages the answer.  Requests of
    other kinds are answered by the main thread, which waits for the ring to drain before it
    reads or removes a file.  The two threads are two step functions on one state, [main_step]
    and [thread_step]; a step is what happens between two accesses to the shared counters, the
    lock, the pipe or the slots.  [FileIo] gives the operations on the files. *)

From Stdlib Require Import Ascii.
From S2P Require Import Prelude Libc Metrics Table PathValidator Files FileIo FileIoSpec.

Local Open Scope Z_scope.

Definition WQ_MAX_PENDING : Z := 256.

(** ** Data *)

Record write_request := mk_wr {
  wr_len : Z;
  wr_pubsub_idx : nat;
  wr_msg_buffer : list Z;
}.

(** What the main thread is asked to do: messages, the end of a received buffer, the timer,
    the signal to flush the files. *)
Inductive cmd :=
  | C_write (len : Z) (msg : list Z) (pubsub_idx : nat)
  | C_received (pubsub_idx : nat)
  | C_remove (len : Z) (msg : list Z)
  | C_read (len : Z) (msg : read_req)
  | C_timer (rx_valid : list bool)
  | C_sync (wait_file : string).

(** The functions given to [wq_run_when_empty]. *)
Inductive job :=
  | J_remove (filename : string)
  | J_read (path : string) (sequence : Z) (readlen : nat) (the_file : open_file_t) (h : nat).

Inductive main_pc :=
  | M_idle
  | M_exited
  | Q_wait (len : Z) (msg : list Z) (idx : nat)       (* wq_increment_pending_writes: the test *)
  | Q_add (len : Z) (msg : list Z) (idx : nat)        (* the increment *)
  | Q_acquire (len : Z) (msg : list Z) (idx : nat)    (* wq_acquire_index *)
  | Q_fill (slot : nat) (len : Z) (msg : list Z) (idx : nat)
  | Q_send (slot : nat)                               (* write() to the pipe *)
  | F_cas (expected : Z) (idx : nat)                  (* the loop of request_flush_output_sbp *)
  | F_send
  | R_lock (j : job)                                  (* wq_run_when_empty *)
  | R_test (j : job)                                  (* wq_wait_empty: the test *)
  | R_wait (j : job)                                  (* in pthread_cond_wait *)
  | R_woken (j : job)                                 (* about to take the lock again *)
  | R_run (j : job)
  | R_unlock (after : option (string * Z * open_file_t * list Z))
  | R_reply (path : string) (sequence : Z) (the_file : open_file_t) (contents : list Z).

Inductive thread_pc :=
  | T_read                                            (* select() and read() of the pipe *)
  | T_flush
  | T_load
  | T_cas (expected : Z)
  | T_take (slot : nat)
  | T_lock (slot : nat) (sequence : Z)
  | T_write (slot : nat) (sequence : Z)
  | T_dec (slot : nat) (sequence : Z) (ok : bool) (count : Z)
  | T_unlock (slot : nat) (sequence : Z) (ok : bool) (count : Z)
  | T_reply (slot : nat) (sequence : Z) (ok : bool) (count : Z).

(** The two threads, and the system, which may end a wait on the condition variable although nobody
    has signalled it (POSIX calls this a spurious wake-up). *)
Inductive who := Main | Thread | Wakeup.

(** What can be told of a run: requests put into the pipe or lost because it was full, the
    requests the thread wrote, the answers it staged, the functions given to
    [wq_run_when_empty] when they run, the wake-ups without a signal. *)
Inductive event :=
  | E_queued (r : write_request)
  | E_lost (r : write_request)
  | E_write (r : write_request)
  | E_ack (pubsub_idx : nat) (sequence : Z)
  | E_run (j : job)
  | E_wakeup.

Section queue.
Context {PV : Type} `{Validator PV}.
Variable sizes : fileio_sizes.
Variable drain ahead : nat -> nat.
Variable f64 : f64_ops.
Variable junk : pk_metrics_value.
Variable open_ok : string -> bool.
Variable accept : nat -> nat -> nat.
Variable no_cache : bool.
Variable allow_factory_mtd allow_imageset_bin : bool.
Variable sbp_pack : Z -> list Z -> list (list Z).
Variable req_fields : list Z -> Z * Z.       (* sequence and offset of a write request *)
Variable pipe_capacity : nat.                (* packets that the pipe holds *)

Record sys := mk_sys {
  s_fio : fio PV;
  write_requests : list write_request;
  flush_pending : Z;
  write_req_index : Z;
  writes_pending : Z;
  request_pipe : list (option nat);          (* [None] is the NULL pointer *)
  s_lock : option who;
  s_main : main_pc;
  s_thread : thread_pc;
  todo : list cmd;
}.

Definition with_fio (s : sys) (f : fio PV) : sys :=
  mk_sys f (write_requests s) (flush_pending s) (write_req_index s) (writes_pending s) (request_pipe s) (s_lock s)
    (s_main s) (s_thread s) (todo s).
Definition with_main (s : sys) (pc : main_pc) : sys :=
  mk_sys (s_fio s) (write_requests s) (flush_pending s) (write_req_index s) (writes_pending s) (request_pipe s) (s_lock s)
    pc (s_thread s) (todo s).
Definition with_thread (s : sys) (pc : thread_pc) : sys :=
  mk_sys (s_fio s) (write_requests s) (flush_pending s) (write_req_index s) (writes_pending s) (request_pipe s) (s_lock s)
    (s_main s) pc (todo s).
Definition with_lock (s : sys) (l : option who) : sys :=
  mk_sys (s_fio s) (write_requests s) (flush_pending s) (write_req_index s) (writes_pending s) (request_pipe s) l
    (s_main s) (s_thread s) (todo s).
Definition with_pipe (s : sys) (p : list (option nat)) : sys :=
  mk_sys (s_fio s) (write_requests s) (flush_pending s) (write_req_index s) (writes_pending s) p (s_lock s)
    (s_main s) (s_thread s) (todo s).
Definition with_pending (s : sys) (n : Z) : sys :=
  mk_sys (s_fio s) (write_requests s) (flush_pending s) (write_req_index s) n (request_pipe s) (s_lock s)
    (s_main s) (s_thread s) (todo s).
Definition with_flush (s : sys) (n : Z) : sys :=
  mk_sys (s_fio s) (write_requests s) n (write_req_index s) (writes_pending s) (request_pipe s) (s_lock s)
    (s_main s) (s_thread s) (todo s).
Definition with_index (s : sys) (n : Z) : sys :=
  mk_sys (s_fio s) (write_requests s) (flush_pending s) n (writes_pending s) (request_pipe s) (s_lock s)
    (s_main s) (s_thread s) (todo s).
Definition with_ring (s : sys) (l : list write_request) : sys :=
  mk_sys (s_fio s) l (flush_pending s) (write_req_index s) (writes_pending s) (request_pipe s) (s_lock s)
    (s_main s) (s_thread s) (todo s).
Definition with_todo (s : sys) (l : list cmd) : sys :=
  mk_sys (s_fio s) (write_requests s) (flush_pending s) (write_req_index s) (writes_pending s) (request_pipe s) (s_lock s)
    (s_main s) (s_thread s) l.

(** ** The main thread *)

(** [write_cb] with threading: a valid request is queued. *)
Definition start_write (s : sys) (len : Z) (msg : list Z) (idx : nat) : outcome sys :=
  let '(sequence, offset) := req_fields msg in
  valid ← write_valid sizes len (mk_write_req sequence offset msg);
  Ret (if (valid : bool) then with_main s (Q_wait len msg idx) else s).

(** [remove_cb] up to [wq_run_when_empty]. *)
Definition start_remove (s : sys) (len : Z) (msg : list Z) : outcome sys :=
  if (len <? 1) || (len =? SBP_FRAMING_MAX_PAYLOAD_SIZE) then Ret s
  else
    name ← c_string (take (Z.to_nat len) msg ++ [0]);
    let filename := filter_imageset_bin allow_imageset_bin name in
    r ← pv_check (f_pv (s_fio s)) filename;
    let s := with_fio s (set_pv (s_fio s) (fst r)) in
    Ret (if (snd r : bool) then with_main s (R_lock (J_remove filename)) else s).

(** [read_cb] up to [wq_run_when_empty]: the stream to read from when there is one. *)
Definition read_start (now : Z) (st : fio PV) (path : string) (offset : Z) : outcome (fio PV * open_file_t * option nat) :=
  st ← flush_cached_fd st path "w";
  r ← open_file open_ok no_cache now st path "r" false;
  let '(st, the_file) := r in
  match of_fp the_file with
  | None => Ret (st, the_file, None)
  | Some h =>
      r ← seek_to st the_file h offset;
      let '(st, ok) := r in
      Ret (st, the_file, if (ok : bool) then Some h else None)
  end.

Definition start_read (now : Z) (s : sys) (len : Z) (msg : read_req) : outcome sys :=
  if (len <=? Z.of_nat (sizeof_read_req sizes)) || (len =? SBP_FRAMING_MAX_PAYLOAD_SIZE) then Ret s
  else
    path ← c_string (take (Z.to_nat len - sizeof_read_req sizes) (rq_filename msg) ++ [0]);
    let readlen := Z.min (rq_chunk_size msg) (SBP_FRAMING_MAX_PAYLOAD_SIZE - Z.of_nat (sizeof_read_resp sizes)) in
    r ← read_denied allow_factory_mtd (s_fio s) path;
    let '(st, denied) := r in
    if (denied : bool) then
      st ← read_done f64 st empty_open_file false path (rq_sequence msg) [];
      Ret (with_fio s st)
    else
      r ← read_start now st path (rq_offset msg);
      let '(st, the_file, h) := r in
      match h with
      | None =>
          st ← read_done f64 st the_file true path (rq_sequence msg) [];
          Ret (with_fio s st)
      | Some h => Ret (with_main (with_fio s st) (R_lock (J_read path (rq_sequence msg) (Z.to_nat readlen) the_file h)))
      end.

Definition start (now : Z) (s : sys) (c : cmd) : outcome sys :=
  match c with
  | C_write len msg idx => start_write s len msg idx
  | C_received idx => Ret (with_main s (F_cas SIZE_MAX idx))
  | C_remove len msg => start_remove s len msg
  | C_read len msg => start_read now s len msg
  | C_timer rx_valid =>
      r ← timer_handler f64 now rx_valid (s_fio s);
      Ret (match r with Some st => with_fio s st | None => with_main s M_exited end)
  | C_sync wait_file => st ← sbp_fileio_flush (s_fio s) wait_file; Ret (with_fio s st)
  end.

(** What [wq_run_when_empty] was given to run. *)
Definition run_job (st : fio PV) (j : job) : outcome (fio PV * option (string * Z * open_file_t * list Z)) :=
  match j with
  | J_remove filename =>
      st ← flush_cached_fd st filename "r";
      st ← flush_cached_fd st filename "w";
      Ret (set_files st (unlink (f_world st) filename) (fd_cache st), None)
  | J_read path sequence readlen the_file h =>
      r ← fread ahead (f_world st) h readlen;
      let st := set_files st (fst r) (fd_cache st) in
      st ← finalize_non_cached st the_file;
      Ret (st, Some (path, sequence, the_file, snd r))
  end.

(** [write_request->len = len; memcpy(write_request->msg_buffer, msg, len);
    write_request->pubsub_idx = pubsub_idx;] *)
Definition fill_slot (r : write_request) (len : Z) (msg : list Z) (idx : nat) : outcome write_request :=
  data ← slice msg 0 (Z.to_nat len);
  buf ← memcpy (wr_msg_buffer r) 0 data;
  Ret (mk_wr len idx buf).

(** [write()] of one packet to the pipe, which does not block: [false] when it is full. *)
Definition pipe_write (s : sys) (p : option nat) : sys * bool :=
  if (length (request_pipe s) <? pipe_capacity)%nat then (with_pipe s (request_pipe s ++ [p]), true) else (s, false).

(** [wq_increment_pending_writes]: the test of its loop, which counts a wait when the ring is
    full, and the increment. *)
Definition wq_increment_test (s : sys) (len : Z) (msg : list Z) (idx : nat) : outcome sys :=
  if writes_pending s =? WQ_MAX_PENDING then
    r ← _pk_metrics_update f64 (f_metrics (s_fio s)) FMI.wq_waits junk;
    let f := s_fio s in
    Ret (with_fio s (mk_fio (f_world f) (fd_cache f) (f_pv f) (fst r) (f_fwrites f) (f_pubs f) (f_out f)
                       (trigger_cache_purge f) (trigger_metrics_flush f)))
  else Ret (with_main s (Q_add len msg idx)).

Definition wq_increment_pending_writes (s : sys) : sys := with_pending s (u32 (writes_pending s + 1)).

Definition wq_acquire_index (s : sys) : sys * nat :=
  (with_index s (u32 (write_req_index s + 1)), Z.to_nat (write_req_index s mod WQ_MAX_PENDING)).

(** [queue_file_write]: the copy into the slot, and the packet. *)
Definition queue_fill (s : sys) (slot : nat) (len : Z) (msg : list Z) (idx : nat) : outcome sys :=
  r ← load (write_requests s) slot;
  r ← fill_slot r len msg idx;
  ring ← store (write_requests s) slot r;
  Ret (with_main (with_ring s ring) (Q_send slot)).

Definition queue_send (s : sys) (slot : nat) : outcome (sys * list event) :=
  r ← load (write_requests s) slot;
  let '(s, sent) := pipe_write s (Some slot) in
  Ret (with_main s M_idle, [if (sent : bool) then E_queued r else E_lost r]).

(** [request_flush_output_sbp]: a round of its loop; a failed exchange stores what it found
    into [expected]. *)
Definition request_flush_output_sbp (s : sys) (expected : Z) (idx : nat) : sys :=
  if flush_pending s =? expected then with_main (with_flush s (Z.of_nat idx)) F_send
  else with_main s (F_cas (flush_pending s) idx).

Definition wq_wait_empty (s : sys) (j : job) : sys :=
  if writes_pending s =? 0 then with_main s (R_run j) else with_main (with_lock s None) (R_wait j).

(** A step of the main thread, [None] when it is blocked. *)
Definition main_step (now : Z) (s : sys) : option (outcome (sys * list event)) :=
  match s_main s with
  | M_idle =>
      match todo s with
      | [] => None
      | c :: rest => Some (s ← start now (with_todo s rest) c; Ret (s, []))
      end
  | M_exited => None
  | Q_wait len msg idx => Some (s ← wq_increment_test s len msg idx; Ret (s, []))
  | Q_add len msg idx => Some (Ret (with_main (wq_increment_pending_writes s) (Q_acquire len msg idx), []))
  | Q_acquire len msg idx =>
      let '(s, slot) := wq_acquire_index s in Some (Ret (with_main s (Q_fill slot len msg idx), []))
  | Q_fill slot len msg idx => Some (s ← queue_fill s slot len msg idx; Ret (s, []))
  | Q_send slot => Some (queue_send s slot)
  | F_cas expected idx => Some (Ret (request_flush_output_sbp s expected idx, []))
  | F_send => Some (Ret (with_main (fst (pipe_write s None)) M_idle, []))
  | R_lock j =>
      match s_lock s with
      | None => Some (Ret (with_main (with_lock s (Some Main)) (R_test j), []))
      | Some _ => None
      end
  | R_test j => Some (Ret (wq_wait_empty s j, []))
  | R_wait _ => None
  | R_woken j =>
      match s_lock s with
      | None => Some (Ret (with_main (with_lock s (Some Main)) (R_run j), []))
      | Some _ => None
      end
  | R_run j => Some (
      r ← run_job (s_fio s) j;
      Ret (with_main (with_fio s (fst r)) (R_unlock (snd r)), [E_run j]))
  | R_unlock after => Some (Ret (
      with_main (with_lock s None)
        (match after with Some (path, sequence, f, contents) => R_reply path sequence f contents | None => M_idle end), []))
  | R_reply path sequence the_file contents => Some (
      st ← read_done f64 (s_fio s) the_file false path sequence contents;
      Ret (with_main (with_fio s st) M_idle, []))
  end.

(** ** The write thread *)

(** [pthread_cond_signal]: a main thread that waits is woken. *)
Definition signal (pc : main_pc) : main_pc := match pc with R_wait j => R_woken j | _ => pc end.

Definition wq_decrement_and_signal (s : sys) : sys :=
  let old := writes_pending s in
  let s := with_pending s (u32 (old - 1)) in
  if old =? 1 then with_main s (signal (s_main s)) else s.

(** A step of [write_thread_handler], [None] when it is blocked. *)
Definition thread_step (now : Z) (s : sys) : option (outcome (sys * list event)) :=
  match s_thread s with
  | T_read =>
      match request_pipe s with
      | [] => None
      | None :: p => Some (Ret (with_thread (with_pipe s p) T_flush, []))
      | Some slot :: p => Some (Ret (with_thread (with_pipe s p) (T_take slot), []))
      end
  | T_flush => Some (
      st ← flush_output_sbp (s_fio s) (Z.to_nat (flush_pending s));
      Ret (with_thread (with_fio s st) T_load, []))
  | T_load => Some (Ret (with_thread s (T_cas (flush_pending s)), []))
  | T_cas expected => Some (
      if flush_pending s =? expected then Ret (with_thread (with_flush s SIZE_MAX) T_read, [])
      else Undef)                                     (* assert(cmp) *)
  | T_take slot => Some (
      r ← load (write_requests s) slot;
      Ret (with_thread s (T_lock slot (fst (req_fields (wr_msg_buffer r)))), []))
  | T_lock slot sequence =>
      match s_lock s with
      | None => Some (Ret (with_thread (with_lock s (Some Thread)) (T_write slot sequence), []))
      | Some _ => None
      end
  | T_write slot sequence => Some (
      r ← load (write_requests s) slot;
      let '(seq, offset) := req_fields (wr_msg_buffer r) in
      x ← sbp_fileio_write sizes drain open_ok accept no_cache allow_imageset_bin now (s_fio s)
            (mk_write_req seq offset (wr_msg_buffer r)) (wr_len r);
      let '(st, ok, count) := x in
      Ret (with_thread (with_fio s st) (T_dec slot sequence ok count), [E_write r]))
  | T_dec slot sequence ok count =>
      Some (Ret (with_thread (wq_decrement_and_signal s) (T_unlock slot sequence ok count), []))
  | T_unlock slot sequence ok count =>
      Some (Ret (with_thread (with_lock s None) (T_reply slot sequence ok count), []))
  | T_reply slot sequence ok count => Some (
      if negb ok then Ret (with_thread s T_read, [])
      else
        st ← count_bytes f64 (s_fio s) FMI.write_bytes count;
        r ← load (write_requests s) slot;
        st ← stage_output_sbp sbp_pack st SBP_MSG_FILEIO_WRITE_RESP (u32_bytes sequence) (wr_pubsub_idx r);
        Ret (with_thread (with_fio s st) T_read, [E_ack (wr_pubsub_idx r) sequence]))
  end.

(** ** Runs *)

Definition step_of (p : who) (now : Z) (s : sys) : option (outcome (sys * list event)) :=
  match p with
  | Main => main_step now s
  | Thread => thread_step now s
  | Wakeup => match s_main s with R_wait j => Some (Ret (with_main s (R_woken j), [E_wakeup])) | _ => None end
  end.

(** What [sbp_fileio_setup] leaves: note the initial value of [flush_pending]. *)
Definition wq_init (st : fio PV) (ring : list write_request) (cmds : list cmd) : sys :=
  mk_sys st ring 0 0 0 [] None M_idle T_read cmds.

Inductive reach (s0 : sys) : list event -> sys -> Prop :=
  | reach_start : reach s0 [] s0
  | reach_step tr s p now s' ev :
      reach s0 tr s -> step_of p now s = Some (Ret (s', ev)) -> reach s0 (tr ++ ev) s'.

(** A run under a given schedule; a thread that is blocked is skipped. *)
Fixpoint run (sched : list (who * Z)) (s : sys) (tr : list event) : outcome (sys * list event) :=
  match sched with
  | [] => Ret (s, tr)
  | (p, now) :: sched' =>
      match step_of p now s with
      | None => run sched' s tr
      | Some r => x ← r; run sched' (fst x) (tr ++ snd x)
      end
  end.
End queue.
Arguments sys : clear implicits.

(** The pieces of a read put together are the read of [FileIo]. *)
Lemma read_pieces {PV} `{Validator PV} ahead f64 open_ok no_cache now (st : fio PV) path sequence offset n :
  read_allowed ahead f64 open_ok no_cache now st path sequence offset n =
  (r ← read_start open_ok no_cache now st path offset;
   let '(st, f, h) := r in
   match h with
   | None => read_done f64 st f true path sequence []
   | Some h =>
       x ← run_job ahead st (J_read path sequence n f h);
       match snd x with
       | Some (p, q, f, contents) => read_done f64 (fst x) f false p q contents
       | None => Ret (fst x)
       end
   end).
Proof.
  unfold read_allowed, read_start. destruct (flush_cached_fd st path "w") as [st1| |]; [|done..]. rewrite !bind_Ret.
  destruct (open_file open_ok no_cache now st1 path "r" false) as [[st2 f]| |]; [|done..]. rewrite !bind_Ret.
  destruct (of_fp f) as [h|]; [|by rewrite bind_Ret].
  destruct (seek_to st2 f h offset) as [[st3 ok]| |]; [|done..]. rewrite !bind_Ret. destruct ok; cbn [negb]; [|done].
  unfold run_job. destruct (fread ahead (f_world st3) h n) as [[w data]| |]; [|done..]. rewrite !bind_Ret. cbn [fst snd].
  destruct (finalize_non_cached _ f) as [st4| |]; [|done..]. by rewrite !bind_Ret.
Qed.

(** ** The queue keeps the order of the writes *)

Definition queued (tr : list event) : list write_request :=
  omap (fun e => match e with E_queued r => Some r | _ => None end) tr.
Definition lost (tr : list event) : list write_request :=
  omap (fun e => match e with E_lost r => Some r | _ => None end) tr.
Definition written (tr : list event) : list write_request :=
  omap (fun e => match e with E_write r => Some r | _ => None end) tr.

Definition thread_slots (pc : thread_pc) : list nat :=
  match pc with T_take slot | T_lock slot _ | T_write slot _ => [slot] | _ => [] end.
Definition main_slots (pc : main_pc) : list nat :=
  match pc with Q_fill slot _ _ _ | Q_send slot => [slot] | _ => [] end.
Definition pipe_slots (p : list (option nat)) : list nat := omap id p.

(** Requests counted in [writes_pending] but in no slot: written and not yet taken off, or
    counted and without a slot yet. *)
Definition thread_extra (pc : thread_pc) : Z := match pc with T_dec _ _ _ _ => 1 | _ => 0 end.
Definition main_extra (pc : main_pc) : Z := match pc with Q_acquire _ _ _ => 1 | _ => 0 end.

(** The last thing that happened to the main thread is a wake-up without a signal. *)
Definition woken_early (tr : list event) : bool :=
  foldl (fun b e => match e with E_wakeup => true | E_write _ | E_ack _ _ => b | _ => false end) false tr.

Lemma woken_early_app tr ev :
  Forall (fun e => match e with E_write _ | E_ack _ _ => True | _ => False end) ev ->
  woken_early (tr ++ ev) = woken_early tr.
Proof.
  unfold woken_early. intros He. rewrite foldl_app. generalize (foldl
    (fun b e => match e with E_wakeup => true | E_write _ | E_ack _ _ => b | _ => false end) false tr).
  induction He as [|e ev He _ IH]; intros b; [done|]. cbn [foldl]. destruct e; try done; apply IH.
Qed.

(** What the position of the main thread tells of the count. *)
Definition main_knows (pc : main_pc) (pending : Z) (early : bool) : Prop :=
  match pc with
  | Q_add _ _ _ => pending < WQ_MAX_PENDING
  | R_woken _ | R_run _ => pending = 0 \/ early = true
  | _ => True
  end.

(** The slot of the [t]-th request. *)
Definition slot_of (t : Z) : nat := Z.to_nat (t mod WQ_MAX_PENDING).

Lemma slot_of_inj t t' : t < t' -> t' - t < WQ_MAX_PENDING -> slot_of t <> slot_of t'.
Proof.
  unfold slot_of, WQ_MAX_PENDING. intros Hlt Hd Heq.
  pose proof (Z.mod_pos_bound t 256 ltac:(lia)). pose proof (Z.mod_pos_bound t' 256 ltac:(lia)).
  apply Z2Nat.inj in Heq; [|lia..].
  pose proof (Z.div_mod t 256 ltac:(lia)). pose proof (Z.div_mod t' 256 ltac:(lia)). nia.
Qed.

Lemma slot_of_u32 w : slot_of (u32 w) = slot_of w.
Proof.
  unfold slot_of, u32, WQ_MAX_PENDING. f_equal.
  apply Z.mod_mod_divide. by exists 16777216.
Qed.

Ltac sys_simpl :=
  cbn [with_fio with_main with_thread with_lock with_pipe with_pending with_flush with_index with_ring with_todo
       s_fio write_requests flush_pending write_req_index writes_pending request_pipe s_lock s_main s_thread todo
       thread_slots main_slots thread_extra main_extra main_knows app] in *.

Section order.
Context {PV : Type} `{Validator PV}.

(** The requests that have a slot are those numbered [ts], in order: the thread's, those in
    the pipe, the main thread's.  [w] is the number of the next one, [o] are the requests put
    into the pipe and not yet written. *)
Record wq_inv (s : sys PV) (tr : list event) (ts : list Z) (w : Z) (o : list write_request) : Prop := {
  wi_slots : thread_slots (s_thread s) ++ pipe_slots (request_pipe s) ++ main_slots (s_main s) = slot_of <$> ts;
  wi_sorted : StronglySorted Z.lt ts;
  wi_below : Forall (fun t => t < w) ts;
  wi_near : Forall (fun t => w - t <= Z.of_nat (length ts + length (lost tr))) ts;
  wi_index : write_req_index s = u32 w;
  wi_order : queued tr = written tr ++ o;
  wi_content : Forall2 (fun slot r => write_requests s !! slot = Some r)
                 (thread_slots (s_thread s) ++ pipe_slots (request_pipe s)) o;
  wi_pending : writes_pending s = Z.of_nat (length ts + length (lost tr)) + thread_extra (s_thread s) +
                 main_extra (s_main s);
  wi_max : writes_pending s <= WQ_MAX_PENDING;
  wi_main : main_knows (s_main s) (writes_pending s) (woken_early tr);
}.

(** Steps that leave the requests where they are. *)
Lemma wq_frame s s' tr ev ts w o :
  wq_inv s tr ts w o -> queued ev = [] -> lost ev = [] -> written ev = [] ->
  write_requests s' = write_requests s -> write_req_index s' = write_req_index s ->
  writes_pending s' = writes_pending s ->
  thread_slots (s_thread s') ++ pipe_slots (request_pipe s') = thread_slots (s_thread s) ++ pipe_slots (request_pipe s) ->
  main_slots (s_main s') = main_slots (s_main s) -> thread_extra (s_thread s') = thread_extra (s_thread s) ->
  main_extra (s_main s') = main_extra (s_main s) -> main_knows (s_main s') (writes_pending s) (woken_early (tr ++ ev)) ->
  wq_inv s' (tr ++ ev) ts w o.
Proof.
  intros [H1 H2 H3 H4 H5 H6 H7 H8 H9 H10] Hq Hl Hw Hr Hi Hp Hs Hm Ht He Hk.
  assert (lost (tr ++ ev) = lost tr) as Hl' by (unfold lost in *; rewrite omap_app, Hl; apply app_nil_r).
  split; rewrite ?Hl', ?Hr, ?Hi, ?Hp, ?Hs, ?Ht, ?He; try done.
  - rewrite app_assoc, Hs, Hm, <-app_assoc. done.
  - unfold queued, written in *. rewrite !omap_app, Hq, Hw, H6. by rewrite !app_nil_r.
Qed.

Lemma wq_add s tr ts w o len msg idx :
  wq_inv s tr ts w o -> s_main s = Q_add len msg idx ->
  wq_inv (with_main (with_pending s (u32 (writes_pending s + 1))) (Q_acquire len msg idx)) (tr ++ []) ts w o.
Proof.
  intros [H1 H2 H3 H4 H5 H6 H7 H8 H9 H10] Hm. rewrite app_nil_r. rewrite Hm in *.
  cbn [main_knows main_extra main_slots] in *. unfold WQ_MAX_PENDING in *.
  assert (0 <= thread_extra (s_thread s)) as Ht by (by destruct (s_thread s)).
  split; sys_simpl; try done; rewrite u32_small by lia; [lia|]. unfold WQ_MAX_PENDING. lia.
Qed.

Lemma wq_acquire s tr ts w o len msg idx :
  wq_inv s tr ts w o -> s_main s = Q_acquire len msg idx ->
  wq_inv (with_main (with_index s (u32 (write_req_index s + 1)))
            (Q_fill (Z.to_nat (write_req_index s mod WQ_MAX_PENDING)) len msg idx)) (tr ++ []) (ts ++ [w]) (w + 1) o.
Proof.
  intros [H1 H2 H3 H4 H5 H6 H7 H8 H9 H10] Hm. rewrite app_nil_r. rewrite Hm in *.
  cbn [main_knows main_extra main_slots] in *. rewrite app_nil_r in H1.
  split; sys_simpl; try done.
  - rewrite app_assoc, H1, fmap_app. cbn. fold (slot_of (write_req_index s)). by rewrite H5, slot_of_u32.
  - apply StronglySorted_app_2; [|done|by repeat constructor]. intros t t' Ht ->%list_elem_of_singleton.
    by eapply Forall_forall in H3.
  - apply Forall_app. split; [|by repeat constructor; lia]. eapply Forall_impl; [exact H3|]. cbn. lia.
  - rewrite length_app. cbn [length]. apply Forall_app. split; [|repeat constructor; lia].
    eapply Forall_impl; [exact H4|]. cbn. lia.
  - rewrite H5. apply u32_add_l.
  - rewrite length_app. cbn [length]. lia.
Qed.

(** A slot that is being filled is nobody else's. *)
Lemma wq_fill s tr ts w o slot len msg idx r :
  wq_inv s tr ts w o -> s_main s = Q_fill slot len msg idx ->
  wq_inv (with_main (with_ring s (<[slot := r]> (write_requests s))) (Q_send slot)) (tr ++ []) ts w o.
Proof.
  intros [H1 H2 H3 H4 H5 H6 H7 H8 H9 H10] Hm. rewrite app_nil_r. rewrite Hm in *. cbn [main_slots main_extra] in *.
  split; sys_simpl; try done.
  rewrite app_assoc in H1. set (sl := thread_slots _ ++ pipe_slots _) in *.
  apply eq_sym, fmap_app_inv in H1 as (ts1 & ts2 & H1 & H1' & ->).
  destruct ts2 as [|t [|]]; [done| |done]. injection H1' as ->.
  apply Forall2_same_length_lookup_2; [by eapply Forall2_length|]. intros i sl' r' Hi Hr.
  pose proof (Forall2_lookup_lr _ _ _ _ _ _ H7 Hi Hr) as Hri. rewrite list_lookup_insert_ne; [done|].
  rewrite H1 in Hi. apply list_lookup_fmap_Some in Hi as (t' & -> & Hi). apply list_elem_of_lookup_2 in Hi.
  apply not_eq_sym, slot_of_inj.
  - apply StronglySorted_app in H2 as [H2 _]. apply H2; [done|]. by left.
  - assert (t' ∈ ts1 ++ [t]) as Ht' by (apply elem_of_app; by left).
    assert (t < w) by (apply Forall_app in H3 as [_ H3]; by inversion_clear H3).
    pose proof (proj1 (Forall_forall _ _) H4 t' Ht') as Hn. cbn beta in Hn. 
    assert (0 <= thread_extra (s_thread s)) as Ht by (by destruct (s_thread s)). lia.
Qed.

Lemma wq_send s tr ts w o slot r :
  wq_inv s tr ts w o -> s_main s = Q_send slot -> write_requests s !! slot = Some r ->
  wq_inv (with_main (with_pipe s (request_pipe s ++ [Some slot])) M_idle) (tr ++ [E_queued r]) ts w (o ++ [r]).
Proof.
  intros [H1 H2 H3 H4 H5 H6 H7 H8 H9 H10] Hm Hr. rewrite Hm in *.
  assert (lost (tr ++ [E_queued r]) = lost tr) as Hl by (unfold lost; rewrite omap_app; apply app_nil_r).
  assert (pipe_slots (request_pipe s ++ [Some slot]) = pipe_slots (request_pipe s) ++ [slot]) as Hp.
  { unfold pipe_slots. by rewrite omap_app. }
  split; sys_simpl; rewrite ?Hl, ?Hp; try done.
  - by rewrite app_nil_r.
  - unfold queued, written in *. rewrite !omap_app, H6. cbn. by rewrite app_nil_r, app_assoc.
  - rewrite app_assoc. apply Forall2_app; [done|]. by repeat constructor.
Qed.

Lemma wq_lose s tr ts w o slot r :
  wq_inv s tr ts w o -> s_main s = Q_send slot ->
  exists ts', wq_inv (with_main s M_idle) (tr ++ [E_lost r]) ts' w o.
Proof.
  intros [H1 H2 H3 H4 H5 H6 H7 H8 H9 H10] Hm. rewrite Hm in *. sys_simpl. rewrite app_assoc in H1.
  apply eq_sym, fmap_app_inv in H1 as (ts1 & ts2 & H1 & H1' & ->). destruct ts2 as [|t [|]]; [done| |done].
  exists ts1.
  assert (lost (tr ++ [E_lost r]) = lost tr ++ [r]) as Hl by (unfold lost; by rewrite omap_app).
  rewrite length_app in *. cbn [length] in *.
  split; sys_simpl; rewrite ?Hl, ?length_app; cbn [length]; try done.
  - by rewrite app_nil_r.
  - by apply StronglySorted_app_1_l in H2.
  - by apply Forall_app in H3 as [? _].
  - apply Forall_app in H4 as [H4 _]. eapply Forall_impl; [exact H4|]. cbn. lia.
  - unfold queued, written in *. rewrite !omap_app, H6. cbn. by rewrite !app_nil_r.
  - rewrite H8. lia.
Qed.

Lemma wq_write s tr ts w o slot sequence r fio ok count :
  wq_inv s tr ts w o -> s_thread s = T_write slot sequence -> write_requests s !! slot = Some r ->
  exists ts' o', wq_inv (with_thread (with_fio s fio) (T_dec slot sequence ok count)) (tr ++ [E_write r]) ts' w o'.
Proof.
  intros [H1 H2 H3 H4 H5 H6 H7 H8 H9 H10] Ht Hr. rewrite Ht in *. sys_simpl.
  destruct ts as [|t ts]; [done|]. rewrite fmap_cons in H1. injection H1 as _ H1.
  apply Forall2_cons_inv_l in H7 as (r' & o' & Hr' & H7 & ->). assert (r' = r) as -> by congruence.
  exists ts, o'.
  assert (lost (tr ++ [E_write r]) = lost tr) as Hl by (unfold lost; rewrite omap_app; apply app_nil_r).
  apply StronglySorted_cons in H2 as [Htl H2]. apply Forall_cons in H3 as [_ H3]. apply Forall_cons in H4 as [H4 _].
  cbn [length] in *.
  split; sys_simpl; rewrite ?Hl; try done.
  - eapply Forall_impl; [exact Htl|]. cbn. lia.
  - unfold queued, written in *. rewrite !omap_app, H6. cbn. by rewrite app_nil_r, <-app_assoc.
  - rewrite H8. lia.
  - rewrite woken_early_app by (by repeat constructor). done.
Qed.

Lemma wq_dec s tr ts w o slot sequence ok count :
  wq_inv s tr ts w o -> s_thread s = T_dec slot sequence ok count ->
  wq_inv (with_thread (wq_decrement_and_signal s) (T_unlock slot sequence ok count)) (tr ++ []) ts w o.
Proof.
  intros [H1 H2 H3 H4 H5 H6 H7 H8 H9 H10] Ht. rewrite app_nil_r. rewrite Ht in *. sys_simpl.
  assert (0 <= main_extra (s_main s)) as Hm by (by destruct (s_main s)).
  assert (u32 (writes_pending s - 1) = writes_pending s - 1) as Hu
    by (apply u32_small; unfold WQ_MAX_PENDING in *; lia).
  unfold wq_decrement_and_signal. cbn zeta. rewrite Hu.
  destruct (writes_pending s =? 1) eqn:E; bool_hyps.
  - assert (main_slots (signal (s_main s)) = main_slots (s_main s)) as Hsl by (by destruct (s_main s)).
    assert (main_extra (signal (s_main s)) = main_extra (s_main s)) as Hex by (by destruct (s_main s)).
    split; sys_simpl; rewrite ?Hsl, ?Hex; try done; [lia|unfold WQ_MAX_PENDING in *; lia|].
    rewrite E. destruct (s_main s); try done; sys_simpl; try lia; by left.
  - split; sys_simpl; try done; [lia|unfold WQ_MAX_PENDING in *; lia|].
    destruct (s_main s); try done; sys_simpl; try lia; destruct H10; [lia|by right|lia|by right].
Qed.
End order.

Section runs.
Context {PV : Type} `{Validator PV}.
Variable sizes : fileio_sizes.
Variable drain ahead : nat -> nat.
Variable f64 : f64_ops.
Variable junk : pk_metrics_value.
Variable open_ok : string -> bool.
Variable accept : nat -> nat -> nat.
Variable no_cache : bool.
Variable allow_factory_mtd allow_imageset_bin : bool.
Variable sbp_pack : Z -> list Z -> list (list Z).
Variable req_fields : list Z -> Z * Z.
Variable pipe_capacity : nat.

Abbreviation wstart := (start (PV := PV) sizes f64 open_ok no_cache allow_factory_mtd allow_imageset_bin req_fields).
Abbreviation mstep := (main_step (PV := PV) sizes ahead f64 junk open_ok no_cache allow_factory_mtd
  allow_imageset_bin req_fields pipe_capacity).
Abbreviation tstep := (thread_step (PV := PV) sizes drain f64 open_ok accept no_cache allow_imageset_bin
  sbp_pack req_fields).
Abbreviation pstep := (step_of (PV := PV) sizes drain ahead f64 junk open_ok accept no_cache allow_factory_mtd
  allow_imageset_bin sbp_pack req_fields pipe_capacity).
Abbreviation wreach := (reach (PV := PV) sizes drain ahead f64 junk open_ok accept no_cache allow_factory_mtd
  allow_imageset_bin sbp_pack req_fields pipe_capacity).
Abbreviation wrun := (run (PV := PV) sizes drain ahead f64 junk open_ok accept no_cache allow_factory_mtd
  allow_imageset_bin sbp_pack req_fields pipe_capacity).

(** The places of the main thread where it has no slot and knows nothing of the count. *)
Definition main_free (pc : main_pc) : Prop :=
  main_slots pc = [] /\ main_extra pc = 0 /\ forall n b, main_knows pc n b.

(** [s'] differs from [s] in the files, the commands left and the place of the main thread. *)
Definition main_only (s s' : sys PV) : Prop :=
  write_requests s' = write_requests s /\ flush_pending s' = flush_pending s /\
  write_req_index s' = write_req_index s /\ writes_pending s' = writes_pending s /\
  request_pipe s' = request_pipe s /\ s_lock s' = s_lock s /\ s_thread s' = s_thread s.

Definition framed (s s' : sys PV) : Prop := main_only s s' /\ main_free (s_main s').

Lemma framed_fio s st : s_main s = M_idle -> framed s (with_fio s st).
Proof. intros Hm. split; [done|]. sys_simpl. by rewrite Hm. Qed.

Lemma framed_main s st pc : main_free pc -> framed s (with_main (with_fio s st) pc).
Proof. done. Qed.

Lemma framed_same s : s_main s = M_idle -> framed s s.
Proof. intros Hm. split; [done|]. by rewrite Hm. Qed.

Lemma start_write_frame s len msg idx s' :
  s_main s = M_idle -> start_write sizes req_fields s len msg idx = Ret s' -> framed s s'.
Proof.
  intros Hm Hs. unfold start_write in Hs. destruct (req_fields msg).
  apply outcome_bind_Ret in Hs as (v & _ & [= <-]). destruct v; [done|by apply framed_same].
Qed.

Lemma start_remove_frame s len msg s' :
  s_main s = M_idle -> start_remove allow_imageset_bin s len msg = Ret s' -> framed s s'.
Proof.
  intros Hm Hs. unfold start_remove in Hs. destruct (_ || _); [injection Hs as <-; by apply framed_same|].
  apply outcome_bind_Ret in Hs as (name & _ & Hs). apply outcome_bind_Ret in Hs as ([pv b] & _ & [= <-]).
  cbn [fst snd]. destruct b; [by apply framed_main|by apply framed_fio].
Qed.

Lemma start_read_frame now s len msg s' :
  s_main s = M_idle -> start_read sizes f64 open_ok no_cache allow_factory_mtd now s len msg = Ret s' -> framed s s'.
Proof.
  intros Hm Hs. unfold start_read in Hs. destruct (_ || _); [injection Hs as <-; by apply framed_same|].
  apply outcome_bind_Ret in Hs as (path & _ & Hs). apply outcome_bind_Ret in Hs as ([st denied] & _ & Hs).
  destruct denied; [apply outcome_bind_Ret in Hs as (st' & _ & [= <-]); by apply framed_fio|].
  apply outcome_bind_Ret in Hs as ([[st' f] [h|]] & _ & Hs); [injection Hs as <-; by apply framed_main|].
  apply outcome_bind_Ret in Hs as (st2 & _ & [= <-]). by apply framed_fio.
Qed.

Lemma start_write_eq now s len msg idx : wstart now s (C_write len msg idx) = start_write sizes req_fields s len msg idx.
Proof. reflexivity. Qed.
Lemma start_rec_eq now s idx : wstart now s (C_received idx) = Ret (with_main s (F_cas SIZE_MAX idx)).
Proof. reflexivity. Qed.
Lemma start_remove_eq now s len msg : wstart now s (C_remove len msg) = start_remove allow_imageset_bin s len msg.
Proof. reflexivity. Qed.
Lemma start_read_eq now s len msg : wstart now s (C_read len msg) = start_read sizes f64 open_ok no_cache allow_factory_mtd now s len msg.
Proof. reflexivity. Qed.
Lemma start_timer_eq now s v : wstart now s (C_timer v) = (r ← timer_handler f64 now v (s_fio s);
      Ret (match r with Some st => with_fio s st | None => with_main s M_exited end)).
Proof. reflexivity. Qed.
Lemma start_sync_eq now s v : wstart now s (C_sync v) = (st ← sbp_fileio_flush (s_fio s) v; Ret (with_fio s st)).
Proof. reflexivity. Qed.
Lemma start_frame now s c s' :
  s_main s = M_idle -> wstart now s c = Ret s' -> framed s s'.
Proof.
  intros Hm Hs. destruct c.
  - rewrite start_write_eq in Hs. by eapply start_write_frame.
  - rewrite start_rec_eq in Hs. injection Hs as <-. done.
  - rewrite start_remove_eq in Hs. by eapply start_remove_frame.
  - rewrite start_read_eq in Hs. by eapply start_read_frame.
  - rewrite start_timer_eq in Hs. apply outcome_bind_Ret in Hs as ([st|] & _ & [= <-]); [by apply framed_fio|done].
  - rewrite start_sync_eq in Hs. apply outcome_bind_Ret in Hs as (st & _ & [= <-]). by apply framed_fio.
Qed.

Lemma pipe_slots_None p : pipe_slots (p ++ [None]) = pipe_slots p.
Proof. unfold pipe_slots. rewrite omap_app. apply app_nil_r. Qed.

Lemma main_step_inv now s tr ts w o s' ev :
  wq_inv s tr ts w o -> mstep now s = Some (Ret (s', ev)) -> exists ts' w' o', wq_inv s' (tr ++ ev) ts' w' o'.
Proof.
  intros Hinv Hs. pose proof (wi_main _ _ _ _ _ Hinv) as Hk.
  assert (forall s1, main_only s s1 -> main_slots (s_main s) = [] -> main_extra (s_main s) = 0 -> main_free (s_main s1) ->
    exists ts' w' o', wq_inv s1 (tr ++ []) ts' w' o') as Hfree.
  { intros s1 (E1 & E2 & E3 & E4 & E5 & E6 & E7) Hsl Hex (F1 & F2 & F3). exists ts, w, o.
    eapply wq_frame; try done; rewrite ?E5, ?E7, ?F1, ?F2, ?Hsl, ?Hex; done. }
  unfold main_step in Hs. destruct (s_main s) eqn:Em; try discriminate Hs; try apply (inj Some) in Hs.
  - destruct (todo s) as [|c cmds]; [done|]. apply (inj Some) in Hs. apply outcome_bind_Ret in Hs as (s1 & Hs & [= <- <-]).
    destruct (start_frame now (with_todo s cmds) c s1 Em Hs) as [Ho Hf]. by apply Hfree.
  - apply outcome_bind_Ret in Hs as (s1 & Hs & [= <- <-]). unfold wq_increment_test in Hs.
    destruct (_ =? _) eqn:E; bool_hyps.
    + apply outcome_bind_Ret in Hs as (r & _ & [= <-]). apply Hfree; try done. sys_simpl. by rewrite Em.
    + injection Hs as <-. exists ts, w, o. eapply wq_frame; try done; rewrite ?Em; try done. cbn.
      pose proof (wi_max _ _ _ _ _ Hinv). lia.
  - injection Hs as <- <-. exists ts, w, o. by eapply wq_add.
  - injection Hs as <- <-. eexists _, _, _. by apply wq_acquire.
  - apply outcome_bind_Ret in Hs as (s1 & Hs & [= <- <-]). unfold queue_fill in Hs.
    apply outcome_bind_Ret in Hs as (r & _ & Hs). apply outcome_bind_Ret in Hs as (r' & _ & Hs).
    apply outcome_bind_Ret in Hs as (ring & Hst & [= <-]). unfold store in Hst.
    destruct (_ <? _)%nat; [|done]. injection Hst as <-. exists ts, w, o. by eapply wq_fill.
  - unfold queue_send in Hs. apply outcome_bind_Ret in Hs as (r & Hr & Hs). apply load_Ret in Hr. unfold pipe_write in Hs.
    destruct (_ <? _)%nat; injection Hs as <- <-.
    + eexists _, _, _. by apply wq_send.
    + destruct (wq_lose s tr ts w o _ r Hinv Em) as [ts' Hts]. by exists ts', w, o.
  - injection Hs as <- <-. unfold request_flush_output_sbp.
    destruct (_ =? _); exists ts, w, o; (eapply wq_frame; try done; rewrite Em; done).
  - injection Hs as <- <-. exists ts, w, o. unfold pipe_write. destruct (_ <? _)%nat.
    + eapply wq_frame; try done; rewrite ?Em; try done. cbn. by rewrite pipe_slots_None.
    + eapply wq_frame; try done; rewrite ?Em; done.
  - destruct (s_lock s); [done|]. injection Hs as <- <-. exists ts, w, o. eapply wq_frame; try done; rewrite Em; done.
  - injection Hs as <- <-. unfold wq_wait_empty.
    destruct (_ =? _) eqn:E; exists ts, w, o; (eapply wq_frame; try done; rewrite ?Em; try done).
    bool_hyps. by left.
  - destruct (s_lock s); [done|]. injection Hs as <- <-. exists ts, w, o. eapply wq_frame; try done; rewrite ?Em; try done.
    rewrite app_nil_r. done.
  - apply outcome_bind_Ret in Hs as ([st k] & _ & [= <- <-]). exists ts, w, o.
    eapply wq_frame; try done; rewrite Em; done.
  - injection Hs as <- <-. exists ts, w, o. eapply wq_frame; try done; rewrite ?Em; destruct after as [[[[]]]|]; done.
  - apply outcome_bind_Ret in Hs as (st & _ & [= <- <-]). exists ts, w, o. eapply wq_frame; try done; rewrite Em; done.
Qed.

Lemma thread_step_inv now s tr ts w o s' ev :
  wq_inv s tr ts w o -> tstep now s = Some (Ret (s', ev)) -> exists ts' w' o', wq_inv s' (tr ++ ev) ts' w' o'.
Proof.
  intros Hinv Hs.
  assert (forall ev, Forall (fun e => match e with E_write _ | E_ack _ _ => True | _ => False end) ev ->
    main_knows (s_main s) (writes_pending s) (woken_early (tr ++ ev))) as Hk.
  { intros ev' He. rewrite woken_early_app by done. apply (wi_main _ _ _ _ _ Hinv). }
  unfold thread_step in Hs. destruct (s_thread s) eqn:Et.
  - destruct (request_pipe s) as [|[slot|] p] eqn:Ep; [done|..]; injection Hs as <- <-; exists ts, w, o;
      (eapply wq_frame; try done; try (by apply Hk; repeat constructor); rewrite ?Et, ?Ep; done).
  - apply (inj Some) in Hs. apply outcome_bind_Ret in Hs as (st & _ & [= <- <-]). exists ts, w, o.
    eapply wq_frame; try done; try (by apply Hk; repeat constructor); rewrite Et; done.
  - injection Hs as <- <-. exists ts, w, o. eapply wq_frame; try done; try (by apply Hk; repeat constructor); rewrite Et; done.
  - destruct (_ =? _); [|done]. injection Hs as <- <-. exists ts, w, o. eapply wq_frame; try done; try (by apply Hk; repeat constructor); rewrite Et; done.
  - apply (inj Some) in Hs. apply outcome_bind_Ret in Hs as (r & _ & [= <- <-]). exists ts, w, o.
    eapply wq_frame; try done; try (by apply Hk; repeat constructor); rewrite Et; done.
  - destruct (s_lock s); [done|]. injection Hs as <- <-. exists ts, w, o. eapply wq_frame; try done; try (by apply Hk; repeat constructor); rewrite Et; done.
  - apply (inj Some) in Hs. apply outcome_bind_Ret in Hs as (r & Hr & Hs). apply load_Ret in Hr.
    destruct (req_fields _). apply outcome_bind_Ret in Hs as ([[st ok] count] & _ & [= <- <-]).
    destruct (wq_write s tr ts w o slot sequence r st ok count Hinv Et Hr) as (ts' & o' & Hi). by exists ts', w, o'.
  - injection Hs as <- <-. exists ts, w, o. by apply wq_dec.
  - injection Hs as <- <-. exists ts, w, o. eapply wq_frame; try done; try (by apply Hk; repeat constructor); rewrite Et; done.
  - apply (inj Some) in Hs. destruct (negb ok).
    + injection Hs as <- <-. exists ts, w, o. eapply wq_frame; try done; try (by apply Hk; repeat constructor); rewrite Et; done.
    + apply outcome_bind_Ret in Hs as (st & _ & Hs). apply outcome_bind_Ret in Hs as (r & _ & Hs).
      apply outcome_bind_Ret in Hs as (st' & _ & [= <- <-]). exists ts, w, o.
      eapply wq_frame; try done; try (by apply Hk; repeat constructor); rewrite Et; done.
Qed.

Lemma reach_inv st ring cmds tr s :
  wreach (wq_init st ring cmds) tr s -> exists ts w o, wq_inv s tr ts w o.
Proof.
  induction 1 as [|tr s p now s' ev _ (ts & w & o & Hinv) Hs].
  - exists [], 0, []. split; try done; constructor.
  - destruct p; [by eapply main_step_inv|by eapply thread_step_inv|].
    cbn [step_of] in Hs. destruct (s_main s) eqn:Em; try done. injection Hs as <- <-. exists ts, w, o.
    eapply wq_frame; try done; rewrite ?Em; try done. cbn. right. unfold woken_early. by rewrite foldl_app.
Qed.

Lemma run_reach s0 sched tr s tr' s' :
  wreach s0 tr s -> wrun sched s tr = Ret (s', tr') -> wreach s0 tr' s'.
Proof.
  revert s tr. induction sched as [|[p now] sched IH]; intros s tr Hr; cbn [run]; [by intros [= <- <-]|].
  destruct (pstep p now s) as [r|] eqn:E; [|by apply IH].
  intros ([s1 ev] & -> & Hs)%outcome_bind_Ret. eapply IH; [|exact Hs]. by eapply reach_step.
Qed.

(** A job is run by the main thread, at its place, and the step shows nothing else. *)
Lemma step_runs p now s s' ev j :
  pstep p now s = Some (Ret (s', ev)) -> E_run j ∈ ev -> ev = [E_run j] /\ s_main s = R_run j.
Proof.
  intros Hs Hj.
  assert (forall e, ev = [e] -> (forall j, e <> E_run j) -> False) as Hno.
  { intros e -> He. apply list_elem_of_singleton in Hj. by eapply He. }
  assert (ev <> []) as Hnil by (intros ->; by apply elem_of_nil in Hj).
  destruct p; cbn [step_of] in Hs.
  - unfold main_step, wq_increment_test, queue_fill, queue_send in Hs.
    destruct (s_main s) eqn:Em; repeat (case_match; simplify_eq; try done);
      try apply (inj Some) in Hs; repeat (apply outcome_bind_Ret in Hs as (? & _ & Hs)); simplify_eq; try done.
    all: try (apply list_elem_of_singleton in Hj; by simplify_eq).
    all: unfold pipe_write in Hs; destruct (_ <? _)%nat; injection Hs as <- <-; exfalso; by eapply Hno.
  - unfold thread_step in Hs.
    destruct (s_thread s) eqn:Et; repeat (case_match; simplify_eq; try done);
      try apply (inj Some) in Hs; repeat (apply outcome_bind_Ret in Hs as (? & _ & Hs)); simplify_eq; try done.
    all: exfalso; try destruct (req_fields _); try (apply outcome_bind_Ret in Hs as ([[st ok] count] & _ & [= <- <-]));
      by eapply Hno.
  - exfalso. destruct (s_main s); try done. injection Hs as <- <-. by eapply Hno.
Qed.

(** C4: the write queue.  In every run of the two threads (up to an undefined access; the races on
    streams and on the answers that runs can have are the examples below), however their steps
    interleave and whenever the system wakes a waiting thread without a signal: the thread performs
    the writes in the order in which they were queued, each once and with the bytes, length and
    endpoint it was queued with.  A function given to [wq_run_when_empty], which reads or removes a
    file, runs only when every queued write has been done and no request has been lost because the
    pipe was full, unless its wait ended by a wake-up without a signal: the source does not test the
    condition again ([woken_too_early]). *)
Theorem wq_order st ring cmds tr s :
  wreach (wq_init st ring cmds) tr s ->
  written tr `prefix_of` queued tr /\
  forall tr1 j tr2, tr = tr1 ++ E_run j :: tr2 -> woken_early tr1 = false -> written tr1 = queued tr1 /\ lost tr1 = [].
Proof.
  intros Hr. split.
  { destruct (reach_inv _ _ _ _ _ Hr) as (ts & w & o & Hi). exists o. apply (wi_order _ _ _ _ _ Hi). }
  induction Hr as [|tr s p now s' ev Hr IH Hs]; intros tr1 j tr2 Heq Hearly; [by destruct tr1|].
  destruct (reach_inv _ _ _ _ _ Hr) as (ts & w & o & Hi).
  assert (tr = tr1 -> E_run j ∈ ev -> written tr1 = queued tr1 /\ lost tr1 = []) as Hnow.
  { intros <- Hj. destruct (step_runs _ _ _ _ _ _ Hs Hj) as [_ Hm].
    destruct Hi as [H1 H2 H3 H4 H5 H6 H7 H8 H9 H10]. rewrite Hm in *. cbn [main_knows main_extra] in *.
    destruct H10 as [H10|H10]; [|congruence].
    assert (0 <= thread_extra (s_thread s)) as Ht by (by destruct (s_thread s)).
    assert (length ts = 0 /\ length (lost tr) = 0)%nat as [Hts Hl] by lia.
    apply nil_length_inv in Hts as ->. apply nil_length_inv in Hl. split; [|done].
    destruct (thread_slots _ ++ pipe_slots _) as [|x l] eqn:E; [|by rewrite app_assoc, E in H1].
    apply Forall2_nil_inv_l in H7 as ->. by rewrite H6, app_nil_r. }
  apply app_eq_app in Heq as [l [[-> Hl]|[-> Hl]]].
  - destruct l as [|e l]; [apply Hnow; [by rewrite app_nil_r|]; cbn in Hl; rewrite <-Hl; by left|].
    injection Hl as <- _. by apply (IH tr1 j l).
  - assert (E_run j ∈ ev) as Hj by (rewrite Hl; apply elem_of_app; right; by left).
    destruct (step_runs _ _ _ _ _ _ Hs Hj) as [Hev _]. rewrite Hev in Hl.
    destruct l as [|e [|]]; [|done..]. rewrite app_nil_r in *. by apply Hnow.
Qed.

Lemma run_step p now sched s tr s1 ev :
  pstep p now s = Some (Ret (s1, ev)) -> wrun ((p, now) :: sched) s tr = wrun sched s1 (tr ++ ev).
Proof. intros Hs. cbn [run]. rewrite Hs. by rewrite bind_Ret. Qed.

(** Two flush requests.  A second buffer that is received before the write thread has served
    the flush of the first overwrites the pending index, because the compare-and-exchange
    loop accepts on its second round whatever value it finds; the thread then serves the
    second packet of the pipe with the index that marks "nothing pending", and reads far
    outside the array of contexts. *)
Theorem flush_requests_collide now s i j rest st :
  s_main s = M_idle -> s_thread s = T_read -> request_pipe s = [] -> (2 <= pipe_capacity)%nat ->
  todo s = C_received i :: C_received j :: rest -> 0 <= flush_pending s < SIZE_MAX ->
  Z.of_nat i < SIZE_MAX -> Z.of_nat j < SIZE_MAX ->
  flush_output_sbp (s_fio s) j = Ret st -> Z.of_nat (length (f_pubs st)) < SIZE_MAX ->
  wrun (replicate 8 (Main, now) ++ replicate 6 (Thread, now)) s [] = Undef.
Proof.
  destruct s as [f ring fp ix pend pipe lk mp tp td]. sys_simpl.
  intros -> -> -> Hcap -> Hfp Hi Hj Hst Hlen.
  set (S f fp pipe mp tp td := mk_sys f ring fp ix pend pipe lk mp tp td : sys PV).
  assert (forall f fp pipe tp td e i, fp <> e ->
    mstep now (S f fp pipe (F_cas e i) tp td) = Some (Ret (S f fp pipe (F_cas fp i) tp td, []))) as Hcas.
  { intros f0 fp0 p0 tp0 td0 e i0 Hne. cbn. unfold request_flush_output_sbp. cbn. by rewrite (proj2 (Z.eqb_neq _ _) Hne). }
  assert (forall f fp pipe tp td i,
    mstep now (S f fp pipe (F_cas fp i) tp td) = Some (Ret (S f (Z.of_nat i) pipe F_send tp td, []))) as Hset.
  { intros f0 fp0 p0 tp0 td0 i0. cbn. unfold request_flush_output_sbp. cbn. by rewrite Z.eqb_refl. }
  assert (forall f fp pipe tp td, (length pipe < pipe_capacity)%nat ->
    mstep now (S f fp pipe F_send tp td) = Some (Ret (S f fp (pipe ++ [None]) M_idle tp td, []))) as Hput.
  { intros f0 fp0 p0 tp0 td0 Hl. unfold main_step, pipe_write. cbn [S s_main request_pipe].
    by rewrite (proj2 (Nat.ltb_lt _ _) Hl). }
  assert (forall fp td, tstep now (S st fp [None] M_idle (T_cas fp) td) = Some (Ret (S st SIZE_MAX [None] M_idle T_read td, [])))
    as Hreset by (intros fp0 td0; cbn; by rewrite Z.eqb_refl).
  fold (S f fp [] M_idle T_read (C_received i :: C_received j :: rest)). unfold replicate, app.
  rewrite (run_step Main now _ _ _ (S f fp [] (F_cas SIZE_MAX i) T_read (C_received j :: rest)) []) by reflexivity.
  rewrite (run_step Main now _ _ _ _ _ (Hcas f fp [] T_read (C_received j :: rest) SIZE_MAX i ltac:(lia))), (run_step Main now _ _ _ _ _ (Hset _ _ _ _ _ _)),
    (run_step Main now _ _ _ _ _ (Hput f (Z.of_nat i) [] T_read (C_received j :: rest) ltac:(cbn; lia))).
  rewrite (run_step Main now _ _ _ (S f (Z.of_nat i) [None] (F_cas SIZE_MAX j) T_read rest) []) by reflexivity.
  rewrite (run_step Main now _ _ _ _ _ (Hcas f (Z.of_nat i) [None] T_read rest SIZE_MAX j ltac:(lia))), (run_step Main now _ _ _ _ _ (Hset _ _ _ _ _ _)),
    (run_step Main now _ _ _ _ _ (Hput f (Z.of_nat j) [None] T_read rest ltac:(cbn; lia))).
  rewrite (run_step Thread now _ _ _ (S f (Z.of_nat j) [None] M_idle T_flush rest) []) by reflexivity.
  rewrite (run_step Thread now _ _ _ (S st (Z.of_nat j) [None] M_idle T_load rest) [])
    by (cbn; rewrite Nat2Z.id, Hst; reflexivity).
  rewrite (run_step Thread now _ _ _ (S st (Z.of_nat j) [None] M_idle (T_cas (Z.of_nat j)) rest) []) by reflexivity.
  rewrite (run_step Thread now _ _ _ _ _ (Hreset _ _)).
  rewrite (run_step Thread now _ _ _ (S st SIZE_MAX [] M_idle T_flush rest) []) by reflexivity.
  cbn [run step_of]. unfold thread_step. cbn [S s_thread s_fio flush_pending].
  unfold flush_output_sbp, load. rewrite lookup_ge_None_2; [done|]. lia.
Qed.
End runs.

(** ** Examples *)

(** A little-endian word. *)
Definition le32 (l : list Z) : Z := foldr (fun b v => b + 256 * v) 0 (take 4 l).
Definition example_fields (msg : list Z) : Z * Z := (le32 msg, le32 (drop 4 msg)).

(** The message that asks to write [data] at [offset] of [path]. *)
Definition write_message (sequence offset : Z) (path : string) (data : list Z) : list Z :=
  u32_bytes sequence ++ u32_bytes offset ++ bytes_of_string path ++ [0] ++ data.
Definition example_write (sequence offset : Z) (path : string) (data : list Z) (idx : nat) : cmd :=
  let m := write_message sequence offset path data in C_write (Z.of_nat (length m)) m idx.
Definition example_read (sequence : Z) (path : string) : cmd :=
  C_read (Z.of_nat (9 + String.length path)) (mk_read_req sequence 0 100 (bytes_of_string path)).
Definition example_remove (path : string) : cmd := C_remove (Z.of_nat (String.length path)) (bytes_of_string path).

Definition example_ring : list write_request := replicate 256 (mk_wr 0 0 (replicate 255 0)).

Abbreviation example_run := (run (PV := path_validator) (H := example_ops) example_sizes id (fun _ => 2%nat) f64_int
  value_zero (fun _ => true) (fun _ n => n) false false false example_pack example_fields).
Abbreviation example_reach := (reach (PV := path_validator) (H := example_ops) example_sizes id (fun _ => 2%nat) f64_int
  value_zero (fun _ => true) (fun _ n => n) false false false example_pack example_fields).
Definition example_start (cmds : list cmd) : sys path_validator :=
  wq_init (fio_start 2 example_world example_pv example_metrics) example_ring cmds.

(** Two writes, the end of the buffer that brought them, and a removal; the threads take
    turns. *)
Definition example_commands : list cmd :=
  [ example_write 1 0 "/data/log" [7; 8] 0; example_write 2 2 "/data/log" [9] 0; C_received 0;
    example_remove "/data/log" ].
Fixpoint turns (n : nat) : list (who * Z) :=
  match n with O => [] | S n => (Main, 0) :: (Thread, 0) :: turns n end.
Definition example_trace : list event :=
  match example_run 16 (turns 40) (example_start example_commands) [] with Ret (_, tr) => tr | _ => [] end.

Lemma wq_order_witness :
  exists s, example_reach 16 (example_start example_commands) example_trace s /\
    written example_trace `prefix_of` queued example_trace /\
    forall tr1 j tr2, example_trace = tr1 ++ E_run j :: tr2 -> woken_early tr1 = false ->
      written tr1 = queued tr1 /\ lost tr1 = [].
Proof.
  assert (exists s, example_run 16 (turns 40) (example_start example_commands) [] = Ret (s, example_trace)) as [s Hs].
  { eexists. vm_compute. reflexivity. }
  assert (example_reach 16 (example_start example_commands) example_trace s) as Hr
    by (eapply run_reach; [apply reach_start|exact Hs]).
  exists s. split; [exact Hr|]. eapply wq_order. exact Hr.
Defined.

Example example_trace_events :
  length (queued example_trace) = 2%nat /\ length (written example_trace) = 2%nat /\
  E_run (J_remove "/data/log") ∈ example_trace.
Proof. vm_compute. split_and!; [reflexivity..|]. repeat constructor. Qed.

Lemma flush_requests_collide_witness :
  example_run 16 (replicate 8 (Main, 0) ++ replicate 6 (Thread, 0))
    (example_start [C_received 0; C_received 1]) [] = Undef.
Proof.
  eapply (@flush_requests_collide path_validator example_ops example_sizes id (fun _ => 2%nat) f64_int
    value_zero (fun _ => true) (fun _ n => n) false false false example_pack example_fields 16 0
    (example_start [C_received 0; C_received 1]) 0 1 []); try reflexivity.
  all: unfold SIZE_MAX; cbn; lia.
Defined.

(** The races that [wq_order] leaves open.  A read opens its stream before it takes the lock:
    a write to the same file that is still queued closes the stream first, and the read uses a
    closed stream. *)
Example read_races_with_write :
  example_run 16 (replicate 6 (Main, 0) ++ replicate 3 (Main, 0) ++ replicate 6 (Thread, 0) ++ replicate 2 (Main, 0))
    (example_start [example_write 1 0 "/data/log" [7; 8] 0; example_read 2 "/data/log"]) [] = Undef.
Proof. vm_compute. reflexivity. Qed.

(** When all 256 slots are taken, a slot is free again before its answer has been staged: the
    next request overwrites the endpoint, and the answer to request 0, which came from
    endpoint 0, goes to endpoint 1. *)
Definition full_commands : list cmd :=
  map (fun k => example_write (Z.of_nat k) 0 "/data/log" [7] 0) (seq 0 256) ++ [example_write 256 0 "/data/log" [7] 1].

Example answer_misdirected :
  match example_run 300 (replicate (6 * 256) (Main, 0) ++ replicate 6 (Thread, 0) ++ replicate 6 (Main, 0) ++ [(Thread, 0)])
          (example_start full_commands) [] with
  | Ret (_, tr) => last tr = Some (E_ack 1 0) /\ wr_pubsub_idx <$> head (queued tr) = Some 0%nat
  | _ => False
  end.
Proof. vm_compute. split; reflexivity. Qed.

(** A pipe that holds fewer packets than there are slots loses requests. *)
Example request_lost :
  match example_run 16 (replicate (6 * 20) (Main, 0)) (example_start (take 20 full_commands)) [] with
  | Ret (_, tr) => length (lost tr) = 4%nat
  | _ => False
  end.
Proof. vm_compute. reflexivity. Qed.

(** A wake-up without a signal: the removal goes ahead while a write is queued. *)
Example woken_too_early :
  match example_run 16 (replicate 11 (Main, 0) ++ [(Wakeup, 0)] ++ replicate 3 (Main, 0))
          (example_start [example_write 1 0 "/data/log" [7; 8] 0; example_remove "/data/log"]) [] with
  | Ret (_, tr) => E_run (J_remove "/data/log") ∈ tr /\ length (queued tr) = 1%nat /\ written tr = []
  | _ => False
  end.
Proof. vm_compute. split_and!; [repeat constructor|reflexivity..]. Qed.
