(* ===== verification/Leds.v ===== *)
(** * The front-panel LEDs ([src/package/piksi_leds/src/])

    [firmware_state.c] keeps what the SBP messages of the firmware say about the position
    solution; [manage_led.c] turns that into the colours of three RGB LEDs every 10 ms; and
    [led_adp8866.c] drives the nine current sinks of an ADP8866 over I2C, keeping a cache so
    that only changes are written.  Times are readings of the monotonic clock; the outcome of
    the n-th I2C write is an input.  libsbp's messages are given by their fields. *)

From S2P Require Import Prelude.

Local Open Scope Z_scope.

(** ** The LED driver ([led_adp8866.c]) *)

Definition LED_ADP8866_LED_COUNT : nat := 9.
Definition LED_ADP8866_BRIGHTNESS_MAX : Z := 127.
Definition LED_I2C_WRITE_RETRY_COUNT : nat := 3.

Record led_state := mk_led { led : nat; brightness : Z }.
#[export] Instance led_state_eq_dec : EqDecision led_state.
Proof. solve_decision. Defined.

(** An I2C write succeeds, times out or fails; when it does not succeed, the register may
    have been written all the same. *)
Inductive i2c_result := I2C_ok | I2C_timeout (written : bool) | I2C_error (written : bool).

Definition i2c_effect (r : i2c_result) : bool :=
  match r with I2C_ok => true | I2C_timeout w | I2C_error w => w end.

Record driver := mk_driver {
  regs : gmap Z Z;                    (* registers of the chip *)
  isc_route : list Z;
  led_state_cache : list led_state;
  flush_led_state_cache : bool;
  i2c_writes : nat;                   (* writes so far *)
}.

Definition set_cache (d : driver) (c : list led_state) : driver :=
  mk_driver (regs d) (isc_route d) c (flush_led_state_cache d) (i2c_writes d).
Definition set_flush (d : driver) (b : bool) : driver :=
  mk_driver (regs d) (isc_route d) (led_state_cache d) b (i2c_writes d).
Definition set_route (d : driver) (r : list Z) : driver :=
  mk_driver (regs d) r (led_state_cache d) (flush_led_state_cache d) (i2c_writes d).

Definition init_reg_isc (is_duro : bool) : list Z :=
  if is_duro then (0x23 + 8) :: map (fun i => 0x23 + Z.of_nat i - 2) (seq 2 8)
  else map (fun i => 0x23 + Z.of_nat i - 1) (seq 1 9).

Section bus.
Variable i2c : nat -> i2c_result.

Definition i2c_write (d : driver) (addr data : Z) : driver * i2c_result :=
  let r := i2c (i2c_writes d) in
  (mk_driver (if i2c_effect r then <[addr := data]> (regs d) else regs d) (isc_route d) (led_state_cache d)
     (flush_led_state_cache d) (S (i2c_writes d)), r).

(** The retry loop of [leds_set]: whether the write succeeded, and whether it failed for
    another reason than a timeout. *)
Fixpoint write_retries (retries : nat) (d : driver) (addr data : Z) : driver * bool * bool :=
  match retries with
  | O => (d, false, false)
  | S retries' =>
      let '(d, r) := i2c_write d addr data in
      match r with
      | I2C_ok => (d, true, false)
      | I2C_timeout _ => write_retries retries' d addr data
      | I2C_error _ => (d, false, true)
      end
  end.

Fixpoint leds_set (d : driver) (led_states : list led_state) (ret : bool) : outcome (driver * bool) :=
  match led_states with
  | [] => Ret (d, ret)
  | s :: rest =>
      c ← load (led_state_cache d) (led s);
      cache ← store (led_state_cache d) (led s) (mk_led (led c) (brightness s));
      reg ← load (isc_route d) (led s);
      let '(d, success, failed) := write_retries LED_I2C_WRITE_RETRY_COUNT (set_cache d cache) reg (brightness s) in
      let d := if success then d else set_flush d true in
      leds_set d rest (ret && negb failed)
  end.

Definition led_cache_init (d : driver) : driver :=
  set_cache d (map (fun i => mk_led i 0) (seq 0 LED_ADP8866_LED_COUNT)).

(** The states come from the cache itself, which the loop writes back unchanged. *)
Definition led_cache_flush (d : driver) : outcome (driver * bool) :=
  leds_set d (take LED_ADP8866_LED_COUNT (led_state_cache d)) true.

Fixpoint modified_states_get (d : driver) (input_states : list led_state) : outcome (list led_state) :=
  match input_states with
  | [] => Ret []
  | s :: rest =>
      c ← load (led_state_cache d) (led s);
      out ← modified_states_get d rest;
      Ret (if brightness s =? brightness c then out else s :: out)
  end.

Definition led_adp8866_leds_set (d : driver) (led_states : list led_state) : outcome (driver * bool) :=
  modified ← modified_states_get d led_states;
  if (LED_ADP8866_LED_COUNT <? length modified)%nat then Undef        (* past modified_states *)
  else
    d ← (if flush_led_state_cache d then r ← led_cache_flush d; Ret (set_flush (fst r) false) else Ret d);
    match modified with
    | [] => Ret (d, true)
    | _ => leds_set d modified true
    end.

(** The registers that [configure] writes, in order. *)
Definition config_writes (d : driver) : list (Z * Z) :=
  [(0x10, 0x10); (0x11, 0xff); (0x07, 0x60); (0x08, 0xff)] ++
  map (fun r => (r, 0)) (take LED_ADP8866_LED_COUNT (isc_route d)) ++
  [(0x1a, 0x04); (0x1b, 0xff); (0x01, 0x20)].

Fixpoint write_all (d : driver) (ws : list (Z * Z)) (ret : bool) : driver * bool :=
  match ws with
  | [] => (d, ret)
  | (addr, data) :: rest =>
      let '(d, r) := i2c_write d addr data in
      write_all d rest (match r with I2C_ok => ret | _ => false end)
  end.

Definition configure (d : driver) : driver * bool := write_all d (config_writes d) true.

(** [mfdvid] is what reading the identification register gives. *)
Definition id_check (mfdvid : option Z) : bool :=
  match mfdvid with Some v => v =? 0x53 | None => false end.

(** The bus is open; [inl] is the status the program exits with. *)
Definition led_adp8866_init (d : driver) (is_duro : bool) (mfdvid : option Z) : outcome (Z + driver) :=
  let d := set_route d (init_reg_isc is_duro) in
  if negb (id_check mfdvid) then Ret (inl 2)
  else
    let '(d, ok) := configure d in
    if negb ok then Ret (inl 3)
    else
      r ← led_cache_flush (led_cache_init d);
      Ret (if (snd r : bool) then inr (fst r) else inl 4).
End bus.

(** Before [led_adp8866_init] everything is zero. *)
Definition driver_reset (chip : gmap Z Z) : driver :=
  mk_driver chip (replicate 9 0) (replicate 9 (mk_led 0 0)) false 0.

(** ** What the firmware says ([firmware_state.c]) *)

Record timespec := mk_time { tv_sec : Z; tv_nsec : Z }.

(** Enumerators are their numbers: the callbacks store bits of a message. *)
Record soln_state := mk_soln {
  dgnss_systime : timespec;
  dgnss_mode : Z;
  spp_systime : timespec;
  spp_mode : Z;
  spp_ins_mode : Z;
  sats : Z;
  antenna : bool;
}.

Record firmware_state := mk_fw { base_obs_counter : Z; soln : soln_state; heartbeat_seen : bool }.

Definition firmware_reset : firmware_state :=
  mk_fw 0 (mk_soln (mk_time 0 0) 0 (mk_time 0 0) 0 0 0 false) false.

Definition SPP_MODE_INVALID : Z := 0.
Definition SPP_MODE_SPP : Z := 1.
Definition SPP_MODE_DGNSS : Z := 2.
Definition SPP_MODE_FLOAT : Z := 3.
Definition SPP_MODE_FIXED : Z := 4.
Definition SPP_MODE_DEAD_RECK : Z := 5.
Definition SPP_MODE_SBAS : Z := 6.
Definition DGNSS_MODE_FLOAT : Z := 3.
Definition DGNSS_MODE_FIXED : Z := 4.
Definition INS_MODE_INS_USED : Z := 1.

Definition sbp_msg_obs_callback (f : firmware_state) (sender_id : Z) : firmware_state :=
  if sender_id =? 0 then mk_fw (u8 (base_obs_counter f + 1)) (soln f) (heartbeat_seen f) else f.

Definition sbp_msg_pos_ecef_callback (f : firmware_state) (now : timespec) (flags : Z) : firmware_state :=
  let s := soln f in
  mk_fw (base_obs_counter f)
    (mk_soln (dgnss_systime s) (dgnss_mode s) now (Z.land flags 0x7) (Z.shiftr (Z.land 0x18 flags) 3)
       (sats s) (antenna s)) (heartbeat_seen f).

Definition sbp_msg_baseline_ecef_callback (f : firmware_state) (now : timespec) (flags : Z) : firmware_state :=
  let s := soln f in
  mk_fw (base_obs_counter f)
    (mk_soln now (Z.land flags 0x7) (spp_systime s) (spp_mode s) (spp_ins_mode s) (sats s) (antenna s))
    (heartbeat_seen f).

Definition sbp_msg_heartbeat_callback (f : firmware_state) (flags : Z) : firmware_state :=
  let s := soln f in
  mk_fw (base_obs_counter f)
    (mk_soln (dgnss_systime s) (dgnss_mode s) (spp_systime s) (spp_mode s) (spp_ins_mode s) (sats s)
       (Z.testbit flags 31 && negb (Z.testbit flags 30))) true.

(** The satellites among the first [n] entries, given by their [sat] and [code]. *)
Fixpoint count_sats (states : list (Z * Z)) (n : nat) : outcome Z :=
  match n with
  | O => Ret 0
  | S n' =>
      match states with
      | [] => Undef
      | (sat, code) :: rest =>
          k ← count_sats rest n';
          Ret (if negb (sat =? 0) || negb (code =? 0) then k + 1 else k)
      end
  end.

(** [size] is the size of [tracking_channel_state_t], by which the length is divided. *)
Definition sbp_msg_tracking_state_callback (size : Z) (f : firmware_state) (len : Z) (states : list (Z * Z)) :
    outcome firmware_state :=
  n ← count_sats states (Z.to_nat (len / size));
  let s := soln f in
  Ret (mk_fw (base_obs_counter f)
         (mk_soln (dgnss_systime s) (dgnss_mode s) (spp_systime s) (spp_mode s) (spp_ins_mode s) n (antenna s))
         (heartbeat_seen f)).

(** ** The colours ([manage_led.c]) *)

Record rgb := mk_rgb { red : Z; green : Z; blue : Z }.

(** [RGB_TO_RGB_LED_COMPONENT]: LED_MAX times the square root of the component's share.  The
    square root is exact here; the colours in use are far from the next integer. *)
Definition RGB_TO_RGB_LED_COMPONENT (r g b c : Z) : Z :=
  Z.sqrt (LED_ADP8866_BRIGHTNESS_MAX * LED_ADP8866_BRIGHTNESS_MAX * c / (r + g + b)).

Definition RGB_TO_RGB_LED (r g b : Z) : rgb :=
  if (r =? 0) && (g =? 0) && (b =? 0) then mk_rgb 0 0 0
  else mk_rgb (RGB_TO_RGB_LED_COMPONENT r g b r) (RGB_TO_RGB_LED_COMPONENT r g b g) (RGB_TO_RGB_LED_COMPONENT r g b b).

Definition LED_COLOR_OFF : rgb := RGB_TO_RGB_LED 0 0 0.
Definition LED_COLOR_RED : rgb := RGB_TO_RGB_LED 255 0 0.
Definition LED_COLOR_BLUE : rgb := RGB_TO_RGB_LED 0 0 255.
Definition LED_COLOR_ORANGE : rgb := RGB_TO_RGB_LED 255 131 0.
Definition LED_COLOR_PURPLE : rgb := RGB_TO_RGB_LED 128 0 128.

Definition SLOW_BLINK_PERIOD_MS : Z := 500.
Definition FAST_BLINK_PERIOD_MS : Z := 250.
Definition LED_MODE_TIMEOUT_MS : Z := 1500.

Inductive blink_mode := LED_OFF | LED_BLINK_SLOW | LED_BLINK_FAST | LED_ON.
Inductive pos_state_t :=
  POS_NO_SIGNAL | POS_ANTENNA | POS_TRK_AT_LEAST_FOUR | POS_GNSS | POS_INS_DEAD_RECK | POS_INS_GNSS.
Inductive link_state_t := LINK_NO_NETWORK | LINK_NETWORK_AVAILABLE.
Inductive obs_state_t := OBS_NO_EVENT | OBS_EVENT.
Inductive mode_state_t := MODE_NO_RTK | MODE_RTK_FLOAT | MODE_RTK_FIXED.

Record device_state := mk_dev {
  pos_state : pos_state_t;
  link_state : link_state_t;
  obs_state : obs_state_t;
  mode_state : mode_state_t;
}.

Record blinker := mk_blinker { b_mode : blink_mode; state_change : timespec; on_off : bool }.

Definition time_ms (t : timespec) : Z := tv_sec t * 1000 + tv_nsec t / 1000000.

Definition elapsed_ms (now then_ : timespec) : Z := u32 (time_ms now - time_ms then_).

(** The clock is read for the test and again for the new time of change. *)
Definition blink_step (now later : timespec) (period_ms : Z) (b : blinker) : blinker :=
  if period_ms <=? elapsed_ms now (state_change b) then mk_blinker (b_mode b) later (negb (on_off b)) else b.

Definition blinker_update (now later : timespec) (b : blinker) : blinker * bool :=
  match b_mode b with
  | LED_OFF => (b, false)
  | LED_ON => (b, true)
  | LED_BLINK_SLOW => let b := blink_step now later SLOW_BLINK_PERIOD_MS b in (b, on_off b)
  | LED_BLINK_FAST => let b := blink_step now later FAST_BLINK_PERIOD_MS b in (b, on_off b)
  end.

Definition update_pos_state_invalid_spp (s : soln_state) : pos_state_t :=
  if 4 <=? sats s then POS_TRK_AT_LEAST_FOUR
  else if antenna s then POS_ANTENNA else POS_NO_SIGNAL.

Definition update_pos_state (now : timespec) (s : soln_state) : pos_state_t :=
  if LED_MODE_TIMEOUT_MS <=? elapsed_ms now (spp_systime s) then update_pos_state_invalid_spp s
  else if spp_mode s =? SPP_MODE_DEAD_RECK then POS_INS_DEAD_RECK
  else if (spp_mode s =? SPP_MODE_FIXED) || (spp_mode s =? SPP_MODE_FLOAT) || (spp_mode s =? SPP_MODE_DGNSS)
          || (spp_mode s =? SPP_MODE_SBAS) || (spp_mode s =? SPP_MODE_SPP)
       then if spp_ins_mode s =? INS_MODE_INS_USED then POS_INS_GNSS else POS_GNSS
  else if spp_mode s =? SPP_MODE_INVALID then update_pos_state_invalid_spp s
  else POS_NO_SIGNAL.

(** [network_available] is the first byte of the mapped file, if it is mapped. *)
Definition update_link_state (network_available : option Z) : link_state_t :=
  match network_available with
  | Some c => if c =? 49 then LINK_NETWORK_AVAILABLE else LINK_NO_NETWORK
  | None => LINK_NO_NETWORK
  end.

(** With the last counter, which is a static variable. *)
Definition update_obs_state (last base_obs_msg_counter : Z) : Z * obs_state_t :=
  if base_obs_msg_counter =? last then (last, OBS_NO_EVENT) else (base_obs_msg_counter, OBS_EVENT).

Definition update_mode_state (now : timespec) (s : soln_state) : mode_state_t :=
  if LED_MODE_TIMEOUT_MS <=? elapsed_ms now (dgnss_systime s) then MODE_NO_RTK
  else if dgnss_mode s =? DGNSS_MODE_FIXED then MODE_RTK_FIXED
  else if dgnss_mode s =? DGNSS_MODE_FLOAT then MODE_RTK_FLOAT
  else MODE_NO_RTK.

(** The static variables of the handlers. *)
Record panel := mk_panel {
  last_base_obs_msg_counter : Z;
  pos_blinker : blinker;
  link_on_off : bool;
  mode_blinker : blinker;
}.

Definition panel_reset : panel :=
  mk_panel 0 (mk_blinker LED_OFF (mk_time 0 0) false) false (mk_blinker LED_OFF (mk_time 0 0) false).

(** The readings of the clock in one iteration, in order. *)
Record readings := mk_readings {
  r_spp : timespec; r_dgnss : timespec;
  r_pos : timespec; r_pos_change : timespec;
  r_mode : timespec; r_mode_change : timespec;
}.

Definition get_device_state (now : readings) (p : panel) (f : firmware_state) (network : option Z) :
    panel * device_state :=
  let '(last, obs) := update_obs_state (last_base_obs_msg_counter p) (base_obs_counter f) in
  (mk_panel last (pos_blinker p) (link_on_off p) (mode_blinker p),
   mk_dev (update_pos_state (r_spp now) (soln f)) (update_link_state network) obs (update_mode_state (r_dgnss now) (soln f))).

Definition handle_pos (now later : timespec) (b : blinker) (s : pos_state_t) : blinker * rgb :=
  let '(color, mode) :=
    match s with
    | POS_NO_SIGNAL => (LED_COLOR_ORANGE, LED_OFF)
    | POS_ANTENNA => (LED_COLOR_ORANGE, LED_BLINK_SLOW)
    | POS_INS_DEAD_RECK => (LED_COLOR_PURPLE, LED_BLINK_FAST)
    | POS_TRK_AT_LEAST_FOUR => (LED_COLOR_ORANGE, LED_BLINK_FAST)
    | POS_INS_GNSS => (LED_COLOR_PURPLE, LED_ON)
    | POS_GNSS => (LED_COLOR_ORANGE, LED_ON)
    end in
  let '(b, on) := blinker_update now later (mk_blinker mode (state_change b) (on_off b)) in
  (b, if on then color else LED_COLOR_OFF).

Definition handle_link (on : bool) (link : link_state_t) (obs : obs_state_t) : bool * rgb :=
  let on := match obs with OBS_EVENT => negb on | OBS_NO_EVENT => false end in
  (on, match link with
       | LINK_NETWORK_AVAILABLE => if on then LED_COLOR_OFF else LED_COLOR_RED
       | LINK_NO_NETWORK => if on then LED_COLOR_RED else LED_COLOR_OFF
       end).

Definition handle_mode (now later : timespec) (b : blinker) (s : mode_state_t) : blinker * rgb :=
  let mode := match s with MODE_NO_RTK => LED_OFF | MODE_RTK_FLOAT => LED_BLINK_SLOW | MODE_RTK_FIXED => LED_ON end in
  let '(b, on) := blinker_update now later (mk_blinker mode (state_change b) (on_off b)) in
  (b, if on then LED_COLOR_BLUE else LED_COLOR_OFF).

(** The colours an iteration of [manage_led_thread] sets, in the order of the sinks. *)
Definition panel_states (pos link mode : rgb) : list led_state :=
  [mk_led 0 (red pos); mk_led 1 (green pos); mk_led 2 (blue pos);
   mk_led 3 (red link); mk_led 4 (green link); mk_led 5 (blue link);
   mk_led 6 (red mode); mk_led 7 (green mode); mk_led 8 (blue mode)].

Definition manage_led_colours (now : readings) (p : panel) (f : firmware_state) (network : option Z) :
    panel * (rgb * rgb * rgb) :=
  let '(p, dev) := get_device_state now p f network in
  let '(bp, pos) := handle_pos (r_pos now) (r_pos_change now) (pos_blinker p) (pos_state dev) in
  let '(on, link) := handle_link (link_on_off p) (link_state dev) (obs_state dev) in
  let '(bm, mode) := handle_mode (r_mode now) (r_mode_change now) (mode_blinker p) (mode_state dev) in
  (mk_panel (last_base_obs_msg_counter p) bp on bm, (pos, link, mode)).

Definition manage_led_iteration (i2c : nat -> i2c_result) (now : readings) (p : panel) (d : driver)
    (f : firmware_state) (network : option Z) : outcome (panel * driver) :=
  let '(p, (pos, link, mode)) := manage_led_colours now p f network in
  r ← led_adp8866_leds_set i2c d (panel_states pos link mode);
  Ret (p, fst r).

(** The start of [manage_led_thread], once a heartbeat was seen: every LED lit. *)
Definition manage_led_start (i2c : nat -> i2c_result) (d : driver) (is_duro : bool) (mfdvid : option Z) :
    outcome (Z + driver) :=
  r ← led_adp8866_init i2c d is_duro mfdvid;
  match r with
  | inl status => Ret (inl status)
  | inr d =>
      x ← led_adp8866_leds_set i2c d (map (fun i => mk_led i 255) (seq 0 LED_ADP8866_LED_COUNT));
      Ret (inr (fst x))
  end.

(** ** The driver shows what it was told *)

(** The sinks are wired one to one. *)
Lemma init_reg_isc_wiring is_duro :
  length (init_reg_isc is_duro) = LED_ADP8866_LED_COUNT /\ NoDup (init_reg_isc is_duro).
Proof. destruct is_duro; (split; [done|]); apply (bool_decide_unpack _); vm_compute; done. Qed.

Record driver_ok (d : driver) : Prop := {
  do_route : exists is_duro, isc_route d = init_reg_isc is_duro;
  do_length : length (led_state_cache d) = LED_ADP8866_LED_COUNT;
  do_led : forall i c, led_state_cache d !! i = Some c -> led c = i;
}.

(** The [i]-th LED is lit as the cache says. *)
Definition lit (d : driver) (i : nat) : Prop :=
  exists c reg, led_state_cache d !! i = Some c /\ isc_route d !! i = Some reg /\ regs d !! reg = Some (brightness c).

Definition shown (d : driver) : Prop := forall i, (i < LED_ADP8866_LED_COUNT)%nat -> lit d i.

(** The cache after some states have been set. *)
Definition cache_after (c : list led_state) (states : list led_state) : list led_state :=
  fold_left (fun c s => <[led s := s]> c) states c.

Lemma route_lookup d i : driver_ok d -> (i < LED_ADP8866_LED_COUNT)%nat -> exists reg, isc_route d !! i = Some reg.
Proof.
  intros [[b Hr] _ _] Hi. apply lookup_lt_is_Some_2. rewrite Hr. by rewrite (proj1 (init_reg_isc_wiring b)).
Qed.

Lemma route_inj d i j reg : driver_ok d -> isc_route d !! i = Some reg -> isc_route d !! j = Some reg -> i = j.
Proof.
  intros [[b Hr] _ _]. rewrite Hr. destruct (init_reg_isc_wiring b) as [_ Hn]. apply NoDup_alt. done.
Qed.

Lemma cache_lookup_lt d i : driver_ok d -> (i < LED_ADP8866_LED_COUNT)%nat ->
  exists c, led_state_cache d !! i = Some c.
Proof. intros Hd Hi. apply lookup_lt_is_Some_2. by rewrite (do_length _ Hd). Qed.

(** One LED of [leds_set]: the cache follows at once. *)
Definition set_one (i2c : nat -> i2c_result) (d : driver) (s : led_state) (reg : Z) : driver * bool :=
  let '(d, success, failed) := write_retries i2c LED_I2C_WRITE_RETRY_COUNT
    (set_cache d (<[led s := s]> (led_state_cache d))) reg (brightness s) in
  (if success then d else set_flush d true, failed).

Lemma leds_set_cons i2c d s rest ret reg :
  driver_ok d -> isc_route d !! led s = Some reg ->
  leds_set i2c d (s :: rest) ret =
    leds_set i2c (fst (set_one i2c d s reg)) rest (ret && negb (snd (set_one i2c d s reg))).
Proof.
  intros Hd Hr. assert (led s < LED_ADP8866_LED_COUNT)%nat as Hlt.
  { destruct (do_route _ Hd) as [b Hb]. rewrite Hb in Hr. apply lookup_lt_Some in Hr.
    by rewrite (proj1 (init_reg_isc_wiring b)) in Hr. }
  destruct (cache_lookup_lt d _ Hd Hlt) as [c Hc]. cbn [leds_set]. unfold load, store. rewrite Hc, Hr.
  cbn [of_option]. rewrite !bind_Ret, (do_length _ Hd), (proj2 (Nat.ltb_lt _ _) Hlt), !bind_Ret.
  rewrite (do_led _ Hd _ _ Hc). unfold set_one. destruct s as [i v]; cbn [led brightness].
  by destruct (write_retries _ _ _ _ _) as [[d1 ok] failed].
Qed.

(** What the retries change: the register, the count. *)
Lemma write_retries_frame i2c n d reg v :
  let '(d', ok, failed) := write_retries i2c n d reg v in
  isc_route d' = isc_route d /\ led_state_cache d' = led_state_cache d /\
  flush_led_state_cache d' = flush_led_state_cache d /\
  (forall reg', reg' <> reg -> regs d' !! reg' = regs d !! reg') /\
  (ok = true -> regs d' !! reg = Some v) /\ (i2c_writes d <= i2c_writes d')%nat.
Proof.
  revert d. induction n as [|n IH]; intros d; cbn [write_retries]; [by split_and!|].
  unfold i2c_write. set (d1 := mk_driver _ _ _ _ _).
  assert (forall reg', reg' <> reg -> regs d1 !! reg' = regs d !! reg') as Hd1.
  { intros reg' Hne. cbn. destruct (i2c_effect _); [|done]. by rewrite lookup_insert_ne. }
  destruct (i2c (i2c_writes d)) eqn:E.
  - split_and!; try done; [|cbn; lia]. intros _. cbn. by rewrite lookup_insert_eq.
  - specialize (IH d1). destruct (write_retries i2c n d1 reg v) as [[d2 ok] failed].
    destruct IH as (H1 & H2 & H3 & H4 & H5 & H6). split_and!; try done; [|cbn in H6; lia].
    intros reg' Hne. by rewrite H4, Hd1.
  - split_and!; try done. cbn. lia.
Qed.

(** The bus works from the [n]-th write on. *)
Definition bus_works (i2c : nat -> i2c_result) (n : nat) : Prop := forall k, (n <= k)%nat -> i2c k = I2C_ok.

Lemma bus_works_later i2c n m : bus_works i2c n -> (n <= m)%nat -> bus_works i2c m.
Proof. intros Hb Hn k Hk. apply Hb. lia. Qed.

Lemma driver_ok_same d d' s :
  driver_ok d -> isc_route d' = isc_route d -> led_state_cache d' = <[led s := s]> (led_state_cache d) -> driver_ok d'.
Proof.
  intros [Hr Hl Hc] Hr' Hc'. split; [by rewrite Hr'|by rewrite Hc', length_insert|].
  intros i c. rewrite Hc'. intros [(<- & <- & _)|[_ Hi]]%list_lookup_insert_Some; [done|by apply Hc].
Qed.

Lemma driver_ok_flush d b : driver_ok d -> driver_ok (set_flush d b).
Proof. by intros []. Qed.

Lemma set_one_ok i2c d s reg :
  driver_ok d -> isc_route d !! led s = Some reg ->
  let d' := fst (set_one i2c d s reg) in
  driver_ok d' /\ isc_route d' = isc_route d /\ led_state_cache d' = <[led s := s]> (led_state_cache d) /\
  (i2c_writes d <= i2c_writes d')%nat /\
  (forall i, i <> led s -> lit d i -> lit d' i) /\
  (bus_works i2c (i2c_writes d) -> lit d' (led s) /\ flush_led_state_cache d' = flush_led_state_cache d /\
     snd (set_one i2c d s reg) = false).
Proof.
  intros Hd Hreg. cbn zeta. unfold set_one. set (d0 := set_cache d _).
  pose proof (write_retries_frame i2c LED_I2C_WRITE_RETRY_COUNT d0 reg (brightness s)) as Hf.
  assert (bus_works i2c (i2c_writes d) -> exists d2, write_retries i2c LED_I2C_WRITE_RETRY_COUNT d0 reg (brightness s) =
    (d2, true, false)) as Hw.
  { intros Hb. cbn [write_retries LED_I2C_WRITE_RETRY_COUNT]. unfold i2c_write.
    change (i2c_writes d0) with (i2c_writes d). rewrite (Hb (i2c_writes d)) by lia. by eexists. }
  destruct (write_retries _ _ _ _ _) as [[d1 ok] failed]. destruct Hf as (H1 & H2 & H3 & H4 & H5 & H6).
  cbn [fst snd]. set (d' := if ok then d1 else set_flush d1 true).
  assert (isc_route d' = isc_route d) as Hr' by (unfold d'; by destruct ok).
  assert (led_state_cache d' = <[led s := s]> (led_state_cache d)) as Hc' by (unfold d'; destruct ok; cbn; by rewrite H2).
  assert (regs d' = regs d1) as Hg' by (unfold d'; by destruct ok).
  assert (led s < length (led_state_cache d))%nat as Hlt.
  { destruct (do_route _ Hd) as [b Hb]. rewrite Hb in Hreg. apply lookup_lt_Some in Hreg.
    rewrite (proj1 (init_reg_isc_wiring b)) in Hreg. by rewrite (do_length _ Hd). }
  split_and!; [by eapply driver_ok_same|done|done|unfold d'; destruct ok; cbn in *; lia| |].
  - intros i Hne (c & r & Hc & Hr & Hv). exists c, r. rewrite Hc', Hr', Hg'.
    rewrite list_lookup_insert_ne by done. split_and!; try done. rewrite H4; [done|].
    intros ->. apply Hne. by eapply route_inj.
  - intros Hb. destruct (Hw Hb) as [d2 [= -> -> ->]]. split; [|done].
    exists s, reg. rewrite Hc', Hr', Hg', list_lookup_insert_eq by done. split_and!; try done. by apply H5.
Qed.

(** Setting LEDs, on any bus: the cache follows, the other LEDs stay; on a working bus the LEDs
    follow too. *)
Lemma leds_set_ok i2c d states ret :
  driver_ok d -> Forall (fun s => led s < LED_ADP8866_LED_COUNT)%nat states ->
  exists d' ret', leds_set i2c d states ret = Ret (d', ret') /\ driver_ok d' /\ isc_route d' = isc_route d /\
    led_state_cache d' = cache_after (led_state_cache d) states /\ (i2c_writes d <= i2c_writes d')%nat /\
    (forall i, i ∉ led <$> states -> lit d i -> lit d' i) /\
    (bus_works i2c (i2c_writes d) -> ret' = ret /\ flush_led_state_cache d' = flush_led_state_cache d /\
       forall i, i ∈ led <$> states -> lit d' i).
Proof.
  intros Hd Hs. revert d ret Hd. induction Hs as [|s states Hlt _ IH]; intros d ret Hd.
  { exists d, ret. split_and!; try done. intros _. split_and!; try done. intros i Hi. by apply elem_of_nil in Hi. }
  destruct (route_lookup d (led s) Hd Hlt) as [reg Hreg]. rewrite (leds_set_cons _ _ _ _ _ reg Hd Hreg).
  destruct (set_one_ok i2c d s reg Hd Hreg) as (Hd1 & Hr1 & Hc1 & Hn1 & Hl1 & Hw1).
  destruct (IH _ (ret && negb (snd (set_one i2c d s reg))) Hd1) as (d' & ret' & He & Hd' & Hr' & Hc' & Hn' & Hl' & Hw').
  exists d', ret'. split_and!; try done.
  - by rewrite Hr'.
  - by rewrite Hc', Hc1.
  - lia.
  - intros i Hi Hlit. rewrite fmap_cons, not_elem_of_cons in Hi. destruct Hi as [Hi1 Hi2]. apply Hl'; [done|]. by apply Hl1.
  - intros Hb. destruct (Hw1 Hb) as (Hlit & Hf & Hs). destruct (Hw' (bus_works_later _ _ _ Hb Hn1)) as (-> & Hf' & Hall).
    rewrite Hs, andb_true_r. split_and!; try done; [by rewrite Hf'|]. intros i Hi.
    destruct (decide (i ∈ led <$> states)) as [Hin|Hin]; [by apply Hall|].
    rewrite fmap_cons, elem_of_cons in Hi. destruct Hi as [->|Hi]; [|done]. by apply Hl'.
Qed.

Lemma modified_ok d states :
  driver_ok d -> Forall (fun s => led s < LED_ADP8866_LED_COUNT)%nat states ->
  exists out, modified_states_get d states = Ret out /\ out `sublist_of` states /\
    (forall s, s ∈ states -> s ∉ out -> led_state_cache d !! led s = Some s).
Proof.
  intros Hd Hs. induction Hs as [|s states Hlt _ (out & IH & Hsub & Hno)].
  { exists []. by split_and!. }
  cbn [modified_states_get]. unfold load. destruct (cache_lookup_lt d (led s) Hd Hlt) as [c Hc].
  rewrite Hc. cbn [of_option]. rewrite bind_Ret, IH, bind_Ret. destruct (_ =? _) eqn:E; bool_hyps.
  - exists out. split_and!; [done|by apply sublist_cons|]. intros s' [->|Hs']%elem_of_cons Hnot; [|by apply Hno].
    rewrite Hc. f_equal. pose proof (do_led _ Hd _ _ Hc) as Hl. destruct s, c; cbn in *. by subst.
  - exists (s :: out). split_and!; [done|by apply sublist_skip|].
    intros s' [->|Hs']%elem_of_cons Hnot; [destruct Hnot; by left|]. apply Hno; [done|]. intros Hin. apply Hnot. by right.
Qed.

Lemma flush_states d : driver_ok d ->
  take LED_ADP8866_LED_COUNT (led_state_cache d) = led_state_cache d /\
  led <$> led_state_cache d = seq 0 LED_ADP8866_LED_COUNT /\
  cache_after (led_state_cache d) (led_state_cache d) = led_state_cache d.
Proof.
  intros [_ Hl Hc].
  assert (led <$> led_state_cache d = seq 0 LED_ADP8866_LED_COUNT) as Hseq.
  { apply list_eq. intros i. rewrite list_lookup_fmap. destruct (led_state_cache d !! i) as [c|] eqn:E; cbn [fmap option_fmap option_map].
    - rewrite (Hc _ _ E). apply lookup_lt_Some in E. rewrite Hl in E. symmetry. by apply lookup_seq_lt.
    - apply lookup_ge_None in E. rewrite Hl in E. symmetry. by apply lookup_seq_ge. }
  split; [apply take_ge; by rewrite Hl|]. split; [done|].
  assert (forall l, l ⊆ led_state_cache d -> cache_after (led_state_cache d) l = led_state_cache d) as H.
  { induction l as [|s l IH]; [done|]. intros Hsub. cbn [cache_after fold_left]. rewrite list_insert_id.
    - apply IH. set_solver.
    - assert (s ∈ led_state_cache d) as [i Hi]%list_elem_of_lookup by (apply Hsub; by left). by rewrite (Hc _ _ Hi). }
  by apply H.
Qed.

Lemma led_cache_flush_ok i2c d :
  driver_ok d ->
  exists d' ret, led_cache_flush i2c d = Ret (d', ret) /\ driver_ok d' /\ isc_route d' = isc_route d /\
    led_state_cache d' = led_state_cache d /\ (i2c_writes d <= i2c_writes d')%nat /\
    (bus_works i2c (i2c_writes d) -> ret = true /\ shown d').
Proof.
  intros Hd. destruct (flush_states d Hd) as (Ht & Hs & Hca). unfold led_cache_flush. rewrite Ht.
  destruct (leds_set_ok i2c d (led_state_cache d) true Hd) as (d' & ret & He & Hd' & Hr & Hc & Hn & _ & Hw).
  { apply Forall_forall. intros s Hin. assert (led s ∈ led <$> led_state_cache d) as Hl by (by apply list_elem_of_fmap_2).
    rewrite Hs in Hl. apply elem_of_seq in Hl. lia. }
  exists d', ret. split_and!; try done; [by rewrite Hc, Hca|]. intros Hb. destruct (Hw Hb) as (-> & _ & Hall).
  split; [done|]. intros i Hi. apply Hall. rewrite Hs. apply elem_of_seq. lia.
Qed.

Lemma cache_after_other c states i : i ∉ led <$> states -> cache_after c states !! i = c !! i.
Proof.
  revert c. induction states as [|s states IH]; intros c Hi; [done|]. cbn [cache_after fold_left].
  rewrite fmap_cons, not_elem_of_cons in Hi. destruct Hi as [H1 H2]. fold (cache_after (<[led s := s]> c) states).
  rewrite IH by done. by rewrite list_lookup_insert_ne.
Qed.

Lemma cache_after_in c states s :
  NoDup (led <$> states) -> s ∈ states -> (led s < length c)%nat -> cache_after c states !! led s = Some s.
Proof.
  revert c. induction states as [|s' states IH]; intros c Hn Hs Hlt; [by apply elem_of_nil in Hs|].
  rewrite fmap_cons in Hn. apply NoDup_cons in Hn as [Hnot Hn].
  cbn [cache_after fold_left]. fold (cache_after (<[led s' := s']> c) states).
  apply elem_of_cons in Hs as [->|Hs].
  - rewrite cache_after_other by done. by apply list_lookup_insert_eq.
  - apply IH; [done..|]. by rewrite length_insert.
Qed.

Lemma NoDup_fmap_eq (states : list led_state) s s' :
  NoDup (led <$> states) -> s ∈ states -> s' ∈ states -> led s = led s' -> s = s'.
Proof.
  intros Hn [i Hi]%list_elem_of_lookup [j Hj]%list_elem_of_lookup Heq.
  assert (i = j) as ->; [|congruence]. apply (NoDup_lookup (led <$> states) i j (led s) Hn); rewrite list_lookup_fmap.
  - by rewrite Hi.
  - rewrite Hj. cbn. by rewrite Heq.
Qed.

(** Setting states on any bus: it returns, and the cache holds what was asked for. *)
Lemma led_adp8866_leds_set_ok i2c d states :
  driver_ok d -> Forall (fun s => led s < LED_ADP8866_LED_COUNT)%nat states -> NoDup (led <$> states) ->
  exists d' ret, led_adp8866_leds_set i2c d states = Ret (d', ret) /\ driver_ok d' /\ isc_route d' = isc_route d /\
    (forall s, s ∈ states -> led_state_cache d' !! led s = Some s) /\
    (i2c_writes d <= i2c_writes d')%nat /\
    (bus_works i2c (i2c_writes d) -> flush_led_state_cache d = true \/ shown d ->
       ret = true /\ flush_led_state_cache d' = false /\ shown d').
Proof.
  intros Hd Hlt Hn. unfold led_adp8866_leds_set.
  destruct (modified_ok d states Hd Hlt) as (out & -> & Hsub & Hno). rewrite bind_Ret.
  assert (Forall (fun s => led s < LED_ADP8866_LED_COUNT)%nat out) as Hlt'.
  { apply Forall_forall. intros s Hs. eapply Forall_forall in Hlt; [exact Hlt|]. by eapply elem_of_submseteq, sublist_submseteq. }
  assert (NoDup (led <$> out)) as Hn' by (eapply sublist_NoDup; [exact Hn|by apply fmap_sublist]).
  assert (length out <= LED_ADP8866_LED_COUNT)%nat as Hlen.
  { rewrite <-(length_fmap led), <-(length_seq LED_ADP8866_LED_COUNT 0). apply submseteq_length, NoDup_submseteq; [done|].
    intros i (s & -> & Hs)%list_elem_of_fmap. apply elem_of_seq. eapply Forall_forall in Hlt'; [|exact Hs]. cbn in Hlt'. lia. }
  destruct (_ <? _)%nat eqn:E; bool_hyps; [lia|]. clear E Hlen.
  assert (exists d1, (if flush_led_state_cache d then r ← led_cache_flush i2c d; Ret (set_flush (fst r) false) else Ret d) = Ret d1 /\
    driver_ok d1 /\ isc_route d1 = isc_route d /\ led_state_cache d1 = led_state_cache d /\
    (i2c_writes d <= i2c_writes d1)%nat /\
    (bus_works i2c (i2c_writes d) -> flush_led_state_cache d = true \/ shown d -> flush_led_state_cache d1 = false /\ shown d1))
    as (d1 & -> & Hd1 & Hr1 & Hc1 & Hn1 & Hw1).
  { destruct (flush_led_state_cache d) eqn:Ef.
    - destruct (led_cache_flush_ok i2c d Hd) as (d' & ret & -> & Hd' & Hr & Hc & Hk & Hw). rewrite bind_Ret. cbn [fst].
      exists (set_flush d' false). destruct Hd'. split_and!; try done. intros Hb _. by destruct (Hw Hb).
    - exists d. split_and!; try done. intros _ [?|?]; done. }
  rewrite bind_Ret.
  assert (exists d' ret, (match out with [] => Ret (d1, true) | _ :: _ => leds_set i2c d1 out true end) = Ret (d', ret) /\
    leds_set i2c d1 out true = Ret (d', ret)) as (d' & ret & -> & He).
  { destruct out as [|s out]; [by exists d1, true|].
    destruct (leds_set_ok i2c d1 (s :: out) true Hd1 Hlt') as (d' & ret & He & _). by exists d', ret. }
  destruct (leds_set_ok i2c d1 out true Hd1 Hlt') as (d2 & ret2 & He2 & Hd' & Hr' & Hc' & Hn2 & Hl' & Hw').
  assert (d2 = d' /\ ret2 = ret) as [-> ->] by (split; congruence).
  exists d', ret. split_and!; try done; [by rewrite Hr'| |lia|].
  - intros s Hs. rewrite Hc', Hc1. destruct (decide (s ∈ out)) as [Hin|Hin].
    + apply cache_after_in; [done..|]. rewrite (do_length _ Hd). eapply Forall_forall in Hlt; [exact Hlt|done].
    + rewrite cache_after_other; [by apply Hno|]. intros (s' & Heq & Hs')%list_elem_of_fmap.
      apply Hin. assert (s' ∈ states) as Hin' by (by eapply elem_of_submseteq, sublist_submseteq).
      by rewrite (NoDup_fmap_eq states s s' Hn Hs Hin' Heq).
  - intros Hb Hsh. destruct (Hw1 Hb Hsh) as [Hf1 Hs1]. destruct (Hw' (bus_works_later _ _ _ Hb Hn1)) as (-> & Hf & Hall).
    split; [done|]. split; [by rewrite Hf|]. intros i Hi. destruct (decide (i ∈ led <$> out)); [by apply Hall|].
    apply Hl'; [done|]. by apply Hs1.
Qed.

(** ** The panel *)

Lemma panel_states_ok pos link mode :
  Forall (fun s => led s < LED_ADP8866_LED_COUNT)%nat (panel_states pos link mode) /\
  NoDup (led <$> panel_states pos link mode).
Proof. split; [repeat constructor|apply (bool_decide_unpack _); vm_compute; done]. Qed.

(** C33: the panel shows the state.  An iteration over a bus that works, from a driver whose LEDs
    are lit as its cache says or whose flush flag is set because they may not be, leaves each of
    the nine current sinks, wired as on the board, at the brightness
    that the position, link and mode handlers computed for it, and the driver in that state
    again; on any bus the iteration returns and the cache holds those brightnesses.  (That the
    flag is set whenever the LEDs may differ is not so after every history of the bus: a flush
    that fails loses it, see [led_repair_forgotten].) *)
Theorem led_panel_shows i2c now p d f network :
  driver_ok d ->
  exists d', let '(p', (pos, link, mode)) := manage_led_colours now p f network in
    manage_led_iteration i2c now p d f network = Ret (p', d') /\ driver_ok d' /\
    (forall i s, panel_states pos link mode !! i = Some s -> led_state_cache d' !! i = Some s) /\
    (bus_works i2c (i2c_writes d) -> flush_led_state_cache d = true \/ shown d ->
       flush_led_state_cache d' = false /\ shown d' /\
       forall i s reg, panel_states pos link mode !! i = Some s -> isc_route d !! i = Some reg ->
         regs d' !! reg = Some (brightness s)).
Proof.
  intros Hd. unfold manage_led_iteration.
  destruct (manage_led_colours now p f network) as [p' [[pos link] mode]].
  destruct (panel_states_ok pos link mode) as [Hlt Hn].
  destruct (led_adp8866_leds_set_ok i2c d _ Hd Hlt Hn) as (d' & ret & -> & Hd' & Hr & Hc & _ & Hw).
  assert (forall i s, panel_states pos link mode !! i = Some s -> led_state_cache d' !! i = Some s) as Hcache.
  { intros i s Hi. assert (led s = i) as <-; [|apply Hc; by eapply list_elem_of_lookup_2].
    do 9 (destruct i as [|i]; [by injection Hi as <-|]). done. }
  exists d'. rewrite bind_Ret. cbn [fst]. split_and!; try done. intros Hb Hsh.
  destruct (Hw Hb Hsh) as (_ & Hf & Hs). split_and!; try done. intros i s reg Hi Hreg.
  destruct (Hs i) as (c & reg' & Hc' & Hreg' & Hv).
  { apply lookup_lt_Some in Hi. done. }
  rewrite Hr in Hreg'. rewrite (Hcache _ _ Hi) in Hc'. congruence.
Qed.

Lemma modified_same d states :
  (forall s, s ∈ states -> led_state_cache d !! led s = Some s) -> modified_states_get d states = Ret [].
Proof.
  induction states as [|s states IH]; intros Hs; [done|]. cbn [modified_states_get]. unfold load.
  rewrite (Hs s) by (by left). cbn [of_option]. rewrite bind_Ret, IH, bind_Ret, Z.eqb_refl; [done|].
  intros s' Hs'. apply Hs. by right.
Qed.

Lemma leds_set_fails i2c d states ret d' ret' :
  (forall n, i2c n = I2C_error false) -> leds_set i2c d states ret = Ret (d', ret') -> regs d' = regs d.
Proof.
  intros Hb. revert d ret. induction states as [|s states IH]; intros d ret; cbn [leds_set]; [by intros [= <- _]|].
  intros (c & _ & Hs)%outcome_bind_Ret. apply outcome_bind_Ret in Hs as (cache & _ & Hs).
  apply outcome_bind_Ret in Hs as (reg & _ & Hs).
  cbn [write_retries LED_I2C_WRITE_RETRY_COUNT] in Hs. unfold i2c_write in Hs. rewrite Hb in Hs. by apply IH in Hs.
Qed.

(** A failed repair is forgotten.  When a write has failed, the driver notes that its cache
    must be written again; if that fails too, the note is dropped all the same, and the LEDs
    stay wrong, over a bus that works again, for as long as the same colours are asked for. *)
Theorem led_repair_forgotten i2c i2c' d :
  driver_ok d -> flush_led_state_cache d = true -> (forall n, i2c n = I2C_error false) ->
  exists d', led_adp8866_leds_set i2c d (led_state_cache d) = Ret (d', true) /\
    flush_led_state_cache d' = false /\ regs d' = regs d /\
    led_adp8866_leds_set i2c' d' (led_state_cache d) = Ret (d', true).
Proof.
  intros Hd Hf Hb. destruct (flush_states d Hd) as (_ & Hseq & _).
  assert (forall s, s ∈ led_state_cache d -> led_state_cache d !! led s = Some s) as Hsame.
  { intros s [i Hi]%list_elem_of_lookup. by rewrite (do_led _ Hd _ _ Hi). }
  assert (forall i2c d1, flush_led_state_cache d1 = false -> led_state_cache d1 = led_state_cache d ->
    led_adp8866_leds_set i2c d1 (led_state_cache d) = Ret (d1, true)) as Hidle.
  { intros j d1 Hf1 Hc1. unfold led_adp8866_leds_set. rewrite modified_same by (by rewrite Hc1).
    rewrite bind_Ret. cbn [length Nat.ltb Nat.leb LED_ADP8866_LED_COUNT]. by rewrite Hf1, bind_Ret. }
  destruct (led_cache_flush_ok i2c d Hd) as (d1 & ret & He & Hd1 & _ & Hc1 & _).
  exists (set_flush d1 false). split_and!; [|done| |by apply Hidle].
  - unfold led_adp8866_leds_set. rewrite modified_same, bind_Ret by done.
    cbn [length Nat.ltb Nat.leb LED_ADP8866_LED_COUNT]. by rewrite Hf, He, !bind_Ret.
  - cbn. by eapply leds_set_fails.
Qed.

(** The panel's start: on a bus that works, the LEDs are all lit. *)
Lemma manage_led_start_ok i2c chip is_duro :
  bus_works i2c 0 ->
  exists d, manage_led_start i2c (driver_reset chip) is_duro (Some 0x53) = Ret (inr d) /\ driver_ok d /\ shown d /\
    flush_led_state_cache d = false /\ led_state_cache d = map (fun i => mk_led i 255) (seq 0 LED_ADP8866_LED_COUNT).
Proof.
  intros Hb. unfold manage_led_start, led_adp8866_init. cbn [id_check]. rewrite Z.eqb_refl. cbn [negb].
  assert (forall ws d, bus_works i2c (i2c_writes d) -> exists d', write_all i2c d ws true = (d', true) /\
    isc_route d' = isc_route d /\ led_state_cache d' = led_state_cache d /\
    flush_led_state_cache d' = flush_led_state_cache d) as Hall.
  { induction ws as [|[a v] ws IH]; intros d Hd; cbn [write_all]; [by exists d|]. unfold i2c_write.
    rewrite (Hd (i2c_writes d)) by lia. destruct (IH (mk_driver (if i2c_effect I2C_ok then <[a := v]> (regs d) else regs d)
      (isc_route d) (led_state_cache d) (flush_led_state_cache d) (S (i2c_writes d)))) as (d' & -> & H1 & H2 & H3).
    - intros k Hk. apply Hd. cbn in Hk. lia.
    - by exists d'. }
  set (d0 := set_route (driver_reset chip) (init_reg_isc is_duro)).
  destruct (Hall (config_writes d0) d0 Hb) as (d1 & Hc & Hr1 & _ & Hf1). unfold configure. rewrite Hc. cbn [negb].
  assert (driver_ok (led_cache_init d1)) as Hd1.
  { split; [exists is_duro; exact Hr1|done|]. intros i c. cbn [led_cache_init set_cache led_state_cache].
    intros (x & -> & Hx)%list_lookup_fmap_Some. cbn. apply lookup_seq in Hx. lia. }
  destruct (led_cache_flush_ok i2c _ Hd1) as (d2 & ret & -> & Hd2 & Hr2 & Hc2 & Hn2 & Hw2).
  assert (bus_works i2c (i2c_writes (led_cache_init d1))) as Hb1 by (intros k _; apply Hb; lia).
  destruct (Hw2 Hb1) as [-> Hs2]. rewrite !bind_Ret. cbn [fst snd].
  assert (bus_works i2c (i2c_writes d2)) as Hb2 by (intros k _; apply Hb; lia).
  destruct (led_adp8866_leds_set_ok i2c d2 (map (fun i => mk_led i 255) (seq 0 LED_ADP8866_LED_COUNT)) Hd2)
    as (d3 & ret3 & -> & Hd3 & Hr3 & Hc3 & _ & Hw3).
  { repeat constructor. }
  { apply (bool_decide_unpack _). vm_compute. done. }
  destruct (Hw3 Hb2 (or_intror Hs2)) as (_ & Hf3 & Hs3). exists d3. rewrite !bind_Ret. split_and!; try done.
  apply list_eq. intros i. destruct (decide (i < LED_ADP8866_LED_COUNT)%nat) as [Hi|Hi].
  - rewrite list_lookup_fmap, lookup_seq_lt by done. cbn [fmap option_fmap option_map].
    apply (Hc3 (mk_led i 255)). apply list_elem_of_fmap. exists i. split; [done|]. apply elem_of_seq. lia.
  - rewrite !lookup_ge_None_2; [done| |rewrite (do_length _ Hd3); lia]. rewrite length_map, length_seq. lia.
Qed.

(** ** From the messages to the lights *)

Inductive fw_event :=
  | FW_obs (sender_id : Z)
  | FW_pos (now : timespec) (flags : Z)
  | FW_baseline (now : timespec) (flags : Z)
  | FW_heartbeat (flags : Z)
  | FW_tracking (len : Z) (states : list (Z * Z)).

Definition fw_step (size : Z) (f : firmware_state) (e : fw_event) : outcome firmware_state :=
  match e with
  | FW_obs sender_id => Ret (sbp_msg_obs_callback f sender_id)
  | FW_pos now flags => Ret (sbp_msg_pos_ecef_callback f now flags)
  | FW_baseline now flags => Ret (sbp_msg_baseline_ecef_callback f now flags)
  | FW_heartbeat flags => Ret (sbp_msg_heartbeat_callback f flags)
  | FW_tracking len states => sbp_msg_tracking_state_callback size f len states
  end.

Fixpoint fw_run (size : Z) (f : firmware_state) (evs : list fw_event) : outcome firmware_state :=
  match evs with
  | [] => Ret f
  | e :: evs' => f ← fw_step size f e; fw_run size f evs'
  end.

(** The last message of a kind. *)
Definition last_of (pick : fw_event -> option (timespec * Z)) (evs : list fw_event) : option (timespec * Z) :=
  last (omap pick evs).
Definition pos_of (e : fw_event) : option (timespec * Z) := match e with FW_pos t fl => Some (t, fl) | _ => None end.
Definition baseline_of (e : fw_event) : option (timespec * Z) :=
  match e with FW_baseline t fl => Some (t, fl) | _ => None end.

(** What the state keeps of the position and baseline messages. *)
Definition kept (d : timespec * Z) (m : option (timespec * Z)) : timespec * Z :=
  match m with Some (t, fl) => (t, Z.land fl 7) | None => d end.

Lemma last_of_cons pick e evs d :
  kept d (last_of pick (e :: evs)) = kept (kept d (pick e)) (last_of pick evs).
Proof.
  unfold last_of. cbn [omap list_omap]. destruct (pick e) as [x|]; [|done].
  rewrite last_cons. destruct (last (omap pick evs)) as [y|] eqn:E; cbn; [by destruct y|done].
Qed.

Lemma fw_run_kept size evs f f' :
  fw_run size f evs = Ret f' ->
  (spp_systime (soln f'), spp_mode (soln f')) = kept (spp_systime (soln f), spp_mode (soln f)) (last_of pos_of evs) /\
  (dgnss_systime (soln f'), dgnss_mode (soln f')) =
    kept (dgnss_systime (soln f), dgnss_mode (soln f)) (last_of baseline_of evs).
Proof.
  revert f. induction evs as [|e evs IH]; intros f; cbn [fw_run]; [by intros [= <-]|].
  intros (f1 & Hs & Hr)%outcome_bind_Ret. destruct (IH _ Hr) as [-> ->]. rewrite !last_of_cons.
  destruct e; cbn [fw_step] in Hs; try (injection Hs as <-; done).
  - injection Hs as <-. unfold sbp_msg_obs_callback. by destruct (_ =? _).
  - unfold sbp_msg_tracking_state_callback in Hs. by apply outcome_bind_Ret in Hs as (n & _ & [= <-]).
Qed.

Lemma elapsed_small now t :
  0 <= time_ms t <= time_ms now -> time_ms now < 4294967296 -> elapsed_ms now t = time_ms now - time_ms t.
Proof. intros. unfold elapsed_ms. apply u32_small. lia. Qed.

(** A message that is younger than the timeout when the handler reads the clock. *)
Definition recent (now : timespec) (m : option (timespec * Z)) (modes : list Z) : Prop :=
  exists t fl, m = Some (t, fl) /\ time_ms now - time_ms t < LED_MODE_TIMEOUT_MS /\ Z.land fl 7 ∈ modes.

Lemma blinker_update_mode now later b : b_mode (fst (blinker_update now later b)) = b_mode b.
Proof. unfold blinker_update, blink_step. destruct (b_mode b) eqn:E; cbn; try done; by destruct (_ <=? _). Qed.

(** A reading of a kept message against the timeout. *)
Lemma kept_recent now m (P : Z -> Prop) t mode :
  (t, mode) = kept (mk_time 0 0, 0) m -> ~ P 0 ->
  (forall t' fl, m = Some (t', fl) -> 0 <= time_ms t' <= time_ms now) -> 0 <= time_ms now < 4294967296 ->
  (elapsed_ms now t < LED_MODE_TIMEOUT_MS /\ P mode <->
   exists t' fl, m = Some (t', fl) /\ time_ms now - time_ms t' < LED_MODE_TIMEOUT_MS /\ P (Z.land fl 7)).
Proof.
  intros Hk H0 Ht Hnow. destruct m as [[t' fl]|]; injection Hk as -> ->.
  - rewrite elapsed_small by (try apply (Ht t' fl); done || lia). split.
    + intros [H1 H2]. by exists t', fl.
    + intros (t2 & fl2 & [= <- <-] & H1 & H2). done.
  - split; [by intros [_ ?]|]. by intros (? & ? & ? & _).
Qed.

Lemma handle_pos_steady now later b s :
  b_mode (fst (handle_pos now later b s)) = LED_ON <-> s = POS_GNSS \/ s = POS_INS_GNSS.
Proof.
  unfold handle_pos. destruct s; cbn zeta;
    match goal with |- context [blinker_update now later ?b] =>
      pose proof (blinker_update_mode now later b) as Hm; destruct (blinker_update now later b) as [b' on] end;
    cbn [fst b_mode] in *; rewrite Hm; split; intros; (by destruct_or?) || tauto.
Qed.

Lemma handle_mode_steady now later b s : b_mode (fst (handle_mode now later b s)) = LED_ON <-> s = MODE_RTK_FIXED.
Proof.
  unfold handle_mode. destruct s; cbn zeta;
    match goal with |- context [blinker_update now later ?b] =>
      pose proof (blinker_update_mode now later b) as Hm; destruct (blinker_update now later b) as [b' on] end;
    cbn [fst b_mode] in *; rewrite Hm; done.
Qed.

Lemma invalid_spp_no_fix s :
  update_pos_state_invalid_spp s <> POS_GNSS /\ update_pos_state_invalid_spp s <> POS_INS_GNSS.
Proof. unfold update_pos_state_invalid_spp. by repeat case_match. Qed.

Lemma update_pos_state_fix now s :
  update_pos_state now s = POS_GNSS \/ update_pos_state now s = POS_INS_GNSS <->
  elapsed_ms now (spp_systime s) < LED_MODE_TIMEOUT_MS /\ spp_mode s ∈ [1; 2; 3; 4; 6].
Proof.
  unfold update_pos_state. destruct (invalid_spp_no_fix s) as [Hi1 Hi2].
  destruct (_ <=? _) eqn:E; bool_hyps; [split; [by intros []|lia]|].
  assert (forall P, P <-> elapsed_ms now (spp_systime s) < LED_MODE_TIMEOUT_MS /\ P) as Ht by tauto.
  rewrite <-Ht. clear Ht. rewrite !elem_of_cons, elem_of_nil.
  unfold SPP_MODE_DEAD_RECK, SPP_MODE_FIXED, SPP_MODE_FLOAT, SPP_MODE_DGNSS, SPP_MODE_SBAS, SPP_MODE_SPP, SPP_MODE_INVALID.
  destruct (spp_mode s =? 5) eqn:E5; bool_hyps; [split; [by intros []|lia]|].
  destruct (_ || _) eqn:Eo.
  - split; [|intros _; destruct (_ =? INS_MODE_INS_USED); tauto]. intros _.
    repeat (apply orb_true_iff in Eo as [Eo|Eo]); bool_hyps; lia.
  - bool_hyps. destruct (spp_mode s =? 0) eqn:E0; bool_hyps; (split; [by intros []|lia]).
Qed.

Lemma update_mode_state_fix now s :
  update_mode_state now s = MODE_RTK_FIXED <->
  elapsed_ms now (dgnss_systime s) < LED_MODE_TIMEOUT_MS /\ dgnss_mode s ∈ [4].
Proof.
  unfold update_mode_state, DGNSS_MODE_FIXED, DGNSS_MODE_FLOAT. rewrite list_elem_of_singleton.
  destruct (_ <=? _) eqn:E; bool_hyps; [split; [done|lia]|].
  destruct (dgnss_mode s =? 4) eqn:E4; bool_hyps; [tauto|]. split; [by destruct (_ =? 3)|lia].
Qed.

Lemma colours_blinkers now p f network :
  let p' := fst (manage_led_colours now p f network) in
  pos_blinker p' = fst (handle_pos (r_pos now) (r_pos_change now) (pos_blinker p) (update_pos_state (r_spp now) (soln f))) /\
  mode_blinker p' = fst (handle_mode (r_mode now) (r_mode_change now) (mode_blinker p) (update_mode_state (r_dgnss now) (soln f))).
Proof.
  cbn zeta. unfold manage_led_colours, get_device_state. destruct (update_obs_state _ _) as [last obs].
  cbn [pos_blinker mode_blinker link_on_off pos_state mode_state link_state obs_state].
  destruct (handle_pos _ _ _ _), (handle_link _ _ _), (handle_mode _ _ _ _). done.
Qed.

(** Steady lights mean a fresh solution.  After any messages of the firmware, over less than
    2^32 ms of uptime, an iteration sets the position light to steady exactly when the last
    position message is less than 1500 ms old and reports a satellite solution (single,
    differential, float, fixed or SBAS), and the mode light to steady exactly when the last
    baseline message is less than 1500 ms old and reports a fixed solution. *)
Theorem steady_means_fresh size evs f now p network :
  fw_run size firmware_reset evs = Ret f ->
  (forall t fl, FW_pos t fl ∈ evs -> 0 <= time_ms t <= time_ms (r_spp now)) ->
  (forall t fl, FW_baseline t fl ∈ evs -> 0 <= time_ms t <= time_ms (r_dgnss now)) ->
  0 <= time_ms (r_spp now) < 4294967296 -> 0 <= time_ms (r_dgnss now) < 4294967296 ->
  let p' := fst (manage_led_colours now p f network) in
  (b_mode (pos_blinker p') = LED_ON <-> recent (r_spp now) (last_of pos_of evs) [1; 2; 3; 4; 6]) /\
  (b_mode (mode_blinker p') = LED_ON <-> recent (r_dgnss now) (last_of baseline_of evs) [4]).
Proof.
  intros Hrun Hpos Hbase Hn1 Hn2. destruct (fw_run_kept _ _ _ _ Hrun) as [Hsp Hdg].
  destruct (colours_blinkers now p f network) as [Hp Hm]. cbn zeta. rewrite Hp, Hm.
  rewrite handle_pos_steady, handle_mode_steady, update_pos_state_fix, update_mode_state_fix.
  assert (forall pick m, last_of pick evs = Some m -> exists e, e ∈ evs /\ pick e = Some m) as Hlast.
  { intros pick m Hl. apply last_Some_elem_of, list_elem_of_omap in Hl as (e & He & Hpick). by exists e. }
  split; apply (kept_recent _ _ (fun x => x ∈ _)); try done.
  - rewrite !elem_of_cons, elem_of_nil. lia.
  - intros t fl Hl. destruct (Hlast _ _ Hl) as (e & He & Hpick). destruct e; try done. injection Hpick as -> ->. by eapply Hpos.
  - rewrite list_elem_of_singleton. lia.
  - intros t fl Hl. destruct (Hlast _ _ Hl) as (e & He & Hpick). destruct e; try done. injection Hpick as -> ->. by eapply Hbase.
Qed.

(** ** Witnesses *)

Definition good_bus : nat -> i2c_result := fun _ => I2C_ok.
Definition dead_bus : nat -> i2c_result := fun _ => I2C_error false.

(** A Duro after its start. *)
Definition example_driver : driver :=
  match manage_led_start good_bus (driver_reset ∅) true (Some 0x53) with Ret (inr d) => d | _ => driver_reset ∅ end.

Lemma example_driver_ok : driver_ok example_driver.
Proof.
  destruct (manage_led_start_ok good_bus ∅ true) as (d & Hd & Hok & _); [done|]. unfold example_driver. by rewrite Hd.
Qed.

Definition at_ms (ms : Z) : timespec := mk_time (ms / 1000) (ms mod 1000 * 1000000).

(** A heartbeat, five satellites, a position by INS and a fixed baseline. *)
Definition example_events : list fw_event :=
  [FW_heartbeat (2 ^ 31); FW_tracking 20 [(1, 0); (2, 0); (3, 0); (4, 0); (5, 0); (0, 0)]; FW_pos (at_ms 60000) 0x0c;
   FW_baseline (at_ms 60000) 4; FW_obs 0].

Definition example_firmware : firmware_state :=
  match fw_run 4 firmware_reset example_events with Ret f => f | _ => firmware_reset end.

Definition example_readings : readings :=
  mk_readings (at_ms 60100) (at_ms 60100) (at_ms 60100) (at_ms 60100) (at_ms 60101) (at_ms 60101).

Lemma led_panel_shows_witness :
  exists d', let '(p', (pos, link, mode)) := manage_led_colours example_readings panel_reset example_firmware (Some 49) in
    manage_led_iteration good_bus example_readings panel_reset example_driver example_firmware (Some 49) = Ret (p', d') /\
    driver_ok d' /\
    (forall i s, panel_states pos link mode !! i = Some s -> led_state_cache d' !! i = Some s) /\
    (bus_works good_bus (i2c_writes example_driver) ->
       flush_led_state_cache example_driver = true \/ shown example_driver ->
       flush_led_state_cache d' = false /\ shown d' /\
       forall i s reg, panel_states pos link mode !! i = Some s -> isc_route example_driver !! i = Some reg ->
         regs d' !! reg = Some (brightness s)).
Proof. apply led_panel_shows. apply example_driver_ok. Defined.

(** Purple position light, red link light off for the observation, blue mode light. *)
Example example_colours :
  snd (manage_led_colours example_readings panel_reset example_firmware (Some 49)) =
    (mk_rgb 89 0 89, mk_rgb 0 0 0, mk_rgb 0 0 127).
Proof. vm_compute. reflexivity. Qed.

Definition example_pending : driver := set_flush example_driver true.

Lemma example_pending_ok : driver_ok example_pending.
Proof. apply driver_ok_flush, example_driver_ok. Qed.

Lemma led_repair_forgotten_witness :
  exists d', led_adp8866_leds_set dead_bus example_pending (led_state_cache example_pending) = Ret (d', true) /\
    flush_led_state_cache d' = false /\ regs d' = regs example_pending /\
    led_adp8866_leds_set good_bus d' (led_state_cache example_pending) = Ret (d', true).
Proof.
  apply (led_repair_forgotten dead_bus good_bus example_pending example_pending_ok eq_refl). intros n. reflexivity.
Defined.

Lemma steady_means_fresh_witness :
  let p' := fst (manage_led_colours example_readings panel_reset example_firmware (Some 49)) in
  (b_mode (pos_blinker p') = LED_ON <->
     recent (r_spp example_readings) (last_of pos_of example_events) [1; 2; 3; 4; 6]) /\
  (b_mode (mode_blinker p') = LED_ON <->
     recent (r_dgnss example_readings) (last_of baseline_of example_events) [4]).
Proof.
  apply (steady_means_fresh 4).
  - vm_compute. reflexivity.
  - intros t fl Ht. repeat (apply elem_of_cons in Ht as [Ht|Ht]; [try discriminate Ht; injection Ht as -> ->; vm_compute; split; congruence|]).
    by apply elem_of_nil in Ht.
  - intros t fl Ht. repeat (apply elem_of_cons in Ht as [Ht|Ht]; [try discriminate Ht; injection Ht as -> ->; vm_compute; split; congruence|]).
    by apply elem_of_nil in Ht.
  - vm_compute. split; congruence.
  - vm_compute. split; congruence.
Defined.
