(* ===== verification/Health.v ===== *)
(** * The health monitors ([src/package/health_daemon/src/])

    The health daemon watches the messages of the receiver and warns the user when something
    is missing: GLONASS observations or biases of the base station, observations while NTRIP
    is enabled, satellites at the base, a baseline that is too long.  Each monitor has a
    message callback and a periodic timer of the event loop, which a message may restart
    ([health_monitor.c]).  A timer that is started at [t] with period [p] is due at [t + p];
    when it fires it is due again a period after that; it may fire late.

    libsbp's messages are given by their fields, the set of satellites of libswiftnav is an
    interface, and single-precision arithmetic a parameter. *)

From S2P Require Import Prelude.

Local Open Scope Z_scope.

Inductive monitor := BASELINE | GLO_OBS | GLO_BIAS | NTRIP_OBS | GNSS_TIME | BASE_NUM_SATS.
#[export] Instance monitor_eq_dec : EqDecision monitor.
Proof. solve_decision. Defined.

Definition BASELINE_ALERT_RATE_LIMIT : Z := 300000.
Definition GLO_OBS_ALERT_RATE_LIMIT : Z := 180000.
Definition GLO_OBS_RESET_BASE_CONN_RATE_LIMIT : Z := 360000.
Definition GLO_BIAS_ALERT_RATE_LIMIT : Z := 240000.
Definition NTRIP_OBS_ALERT_RATE_LIMIT : Z := 10000.
Definition NTRIP_OBS_PERIOD_BEFORE_WARN : Z := 20000.
Definition GNSS_TIME_ALERT_RATE_MS : Z := 60000.
Definition BASE_NUM_SATS_SAMPLE_RATE : Z := 10000.
Definition BASE_NUM_SATS_ALERT_RATE_LIMIT : Z := 30000.
Definition MSG_FORWARD_SENDER_ID : Z := 0.

(** The timer periods given to [health_monitor_init]. *)
Definition period (m : monitor) : Z :=
  match m with
  | BASELINE => BASELINE_ALERT_RATE_LIMIT
  | GLO_OBS => GLO_OBS_ALERT_RATE_LIMIT
  | GLO_BIAS => GLO_BIAS_ALERT_RATE_LIMIT
  | NTRIP_OBS => NTRIP_OBS_ALERT_RATE_LIMIT
  | GNSS_TIME => GNSS_TIME_ALERT_RATE_MS
  | BASE_NUM_SATS => BASE_NUM_SATS_SAMPLE_RATE
  end.

(** The thresholds of the counters, computed as the code does. *)
Definition glo_max_timeout_count_before_reset : Z :=
  u8 (GLO_OBS_ALERT_RATE_LIMIT / GLO_OBS_RESET_BASE_CONN_RATE_LIMIT).
Definition ntrip_max_timeout_count_before_warn : Z :=
  u8 (NTRIP_OBS_ALERT_RATE_LIMIT / NTRIP_OBS_PERIOD_BEFORE_WARN).
Definition sats_max_timeout_count_before_warn : Z :=
  u8 (BASE_NUM_SATS_ALERT_RATE_LIMIT / BASE_NUM_SATS_SAMPLE_RATE).

(** [gnss_sid_set_t] of libswiftnav. *)
Class SidSet (S : Type) := {
  sid_set_init : S;
  sid_set_add : S -> Z * Z -> S;
  sid_set_get_sat_count : S -> Z;
}.

(** What the user is told. *)
Inductive alert (D : Type) := A_baseline (distance : D) | A_glo_obs | A_glo_bias | A_ntrip | A_base_sats.
Arguments A_baseline {D} _.
Arguments A_glo_obs {D}.
Arguments A_glo_bias {D}.
Arguments A_ntrip {D}.
Arguments A_base_sats {D}.

(** What the daemon sees.  An observation message is its sender, its length and the signals
    that lie in memory from the first observation on.  [file_ok] tells whether the file that
    records GPS time could be written. *)
Inductive hevent :=
  | H_obs (sender_id len : Z) (obs : list (Z * Z))
  | H_bias (sender_id : Z)
  | H_baseline (flags x y z : Z)
  | H_gps_time (sender_id flags : Z) (file_ok : bool)
  | H_glonass (enabled : bool)
  | H_ntrip (enabled : bool)
  | H_timer (m : monitor).

Section health.
Context {S D : Type} `{SidSet S}.
Variable header_size content_size : Z.         (* of an observation message *)
Variable MIN_SATS_FOR_PVT : Z.
Variable own_sender_id : Z.
Variable baseline_distance : Z -> Z -> Z -> D. (* in metres, of the components in millimetres *)
Variable over_threshold : D -> bool.

Record health := mk_health {
  timer_due : monitor -> Z;
  glonass_enabled : bool;            (* glo_health_context.c *)
  connected_to_base : bool;
  glo_timeout_counter : Z;
  ntrip_enabled : bool;
  ntrip_timeout_counter : Z;
  had_time : bool;                   (* util.c *)
  gps_time_file : option bool;
  past_threshold : option D;         (* the distance while the flag is set *)
  sid_set : S;
  sats_timeout_counter : Z;
}.

Definition set_due (h : health) (m : monitor) (t : Z) : health :=
  mk_health (fun m' => if decide (m' = m) then t else timer_due h m') (glonass_enabled h) (connected_to_base h)
    (glo_timeout_counter h) (ntrip_enabled h) (ntrip_timeout_counter h) (had_time h) (gps_time_file h)
    (past_threshold h) (sid_set h) (sats_timeout_counter h).
Definition set_glo (h : health) (enabled connected : bool) (counter : Z) : health :=
  mk_health (timer_due h) enabled connected counter (ntrip_enabled h) (ntrip_timeout_counter h) (had_time h)
    (gps_time_file h) (past_threshold h) (sid_set h) (sats_timeout_counter h).
Definition set_ntrip (h : health) (enabled : bool) (counter : Z) : health :=
  mk_health (timer_due h) (glonass_enabled h) (connected_to_base h) (glo_timeout_counter h) enabled counter (had_time h)
    (gps_time_file h) (past_threshold h) (sid_set h) (sats_timeout_counter h).
Definition set_time (h : health) (had : bool) (file : option bool) : health :=
  mk_health (timer_due h) (glonass_enabled h) (connected_to_base h) (glo_timeout_counter h) (ntrip_enabled h)
    (ntrip_timeout_counter h) had file (past_threshold h) (sid_set h) (sats_timeout_counter h).
Definition set_past (h : health) (d : option D) : health :=
  mk_health (timer_due h) (glonass_enabled h) (connected_to_base h) (glo_timeout_counter h) (ntrip_enabled h)
    (ntrip_timeout_counter h) (had_time h) (gps_time_file h) d (sid_set h) (sats_timeout_counter h).
Definition set_sats (h : health) (s : S) (counter : Z) : health :=
  mk_health (timer_due h) (glonass_enabled h) (connected_to_base h) (glo_timeout_counter h) (ntrip_enabled h)
    (ntrip_timeout_counter h) (had_time h) (gps_time_file h) (past_threshold h) s counter.

(** The daemon started at [t]: every monitor's timer runs. *)
Definition health_start (t : Z) (file : option bool) : health :=
  mk_health (fun m => t + period m) false false 0 false 0 false file None sid_set_init 0.

(** ** The generic monitor ([health_monitor.c]) *)

Definition health_monitor_reset_timer (now : Z) (h : health) (m : monitor) : health := set_due h m (now + period m).

(** After a message callback: 0 restarts the timer. *)
Definition health_monitor_message_callback (now : Z) (m : monitor) (r : health * Z) : health :=
  let '(h, result) := r in if result =? 0 then health_monitor_reset_timer now h m else h.

(** ** The monitors *)

(** The number of observations of a message. *)
Definition obs_in_msg (len : Z) : nat := Z.to_nat (u8 (len - header_size) / content_size).

(** The signals that the loops over a message read; past the end of memory is [Undef]. *)
Definition msg_signals (len : Z) (obs : list (Z * Z)) : outcome (list (Z * Z)) := slice obs 0 (obs_in_msg len).

Definition is_glo (code : Z) : bool := (code =? 3) || (code =? 4).

(** [check_obs_msg_for_glo_obs] returns at the first GLONASS signal. *)
Fixpoint check_obs_msg_for_glo_obs (n : nat) (obs : list (Z * Z)) : outcome bool :=
  match n, obs with
  | O, _ => Ret false
  | Datatypes.S n', (_, code) :: obs' => if is_glo code then Ret true else check_obs_msg_for_glo_obs n' obs'
  | Datatypes.S _, [] => Undef
  end.

(** [sbp_msg_glo_obs_callback] *)
Definition glo_obs_callback (h : health) (sender_id len : Z) (obs : list (Z * Z)) : outcome (health * Z) :=
  if sender_id =? MSG_FORWARD_SENDER_ID then
    let h := set_glo h (glonass_enabled h) true 0 in
    glo ← check_obs_msg_for_glo_obs (obs_in_msg len) obs;
    Ret (h, if (glo : bool) then 0 else 1)
  else Ret (h, 1).

Definition glo_obs_timer_callback (h : health) : health * list (alert D) :=
  let alerts := if glonass_enabled h && connected_to_base h then [A_glo_obs] else [] in
  let connected := if connected_to_base h && (glo_max_timeout_count_before_reset <? glo_timeout_counter h)
                   then false else connected_to_base h in
  (set_glo h (glonass_enabled h) connected (u8 (glo_timeout_counter h + 1)), alerts).

Definition notify_glonass_enabled (now : Z) (h : health) (enabled : bool) : health :=
  let h := if enabled && negb (glonass_enabled h) then health_monitor_reset_timer now h GLO_OBS else h in
  set_glo h enabled (connected_to_base h) (glo_timeout_counter h).

(** [sbp_msg_glo_biases_callback] *)
Definition glo_biases_callback (h : health) (sender_id : Z) : health * Z :=
  (h, if sender_id =? MSG_FORWARD_SENDER_ID then 0 else 1).

Definition glo_bias_timer_callback (h : health) : list (alert D) :=
  if glonass_enabled h && connected_to_base h then [A_glo_bias] else [].

(** [sbp_msg_ntrip_obs_callback] *)
Definition ntrip_obs_callback (h : health) (sender_id : Z) : health * Z :=
  if sender_id =? MSG_FORWARD_SENDER_ID then (set_ntrip h (ntrip_enabled h) 0, 0) else (h, 1).

Definition notify_ntrip_enabled (h : health) (enabled : bool) : health :=
  set_ntrip h enabled (if enabled then 0 else ntrip_timeout_counter h).

Definition device_has_gps_time (h : health) : bool :=
  match gps_time_file h with Some b => b | None => false end.

Definition ntrip_obs_timer_callback (h : health) : health * list (alert D) :=
  if negb (ntrip_enabled h) then (h, [])
  else if negb (device_has_gps_time h) then (h, [])
  else if ntrip_max_timeout_count_before_warn <? ntrip_timeout_counter h then (h, [A_ntrip])
  else (set_ntrip h (ntrip_enabled h) (u8 (ntrip_timeout_counter h + 1)), []).

(** [set_device_has_gps_time]: the file is written when the value changes; when it cannot be
    opened nothing is written. *)
Definition set_device_has_gps_time (h : health) (has_time file_ok : bool) : health :=
  if Bool.eqb has_time (had_time h) then h
  else if file_ok then set_time h has_time (Some has_time) else h.

(** [sbp_msg_gps_time_cb] *)
Definition gps_time_callback (h : health) (sender_id flags : Z) (file_ok : bool) : health * Z :=
  if negb (own_sender_id =? sender_id) then (h, 1)
  else (set_device_has_gps_time h (negb (Z.land flags 7 =? 0)) file_ok, 0).

(** [sbp_msg_baseline_ecef_callback] *)
Definition baseline_callback (h : health) (flags x y z : Z) : health * Z :=
  let fix_mode := Z.land flags 7 in
  if (2 <=? fix_mode) && (fix_mode <=? 4) then
    let distance := baseline_distance x y z in
    if over_threshold distance then (set_past h (Some distance), 1) else (h, 0)
  else if (fix_mode =? 0) || (fix_mode =? 1) then (set_past h None, 0)
  else (h, -1).

(** [baseline_threshold_rate_limiting_timer_callback] *)
Definition baseline_timer_callback (h : health) : health * list (alert D) :=
  match past_threshold h with
  | Some d => (set_past h None, [A_baseline d])
  | None => (h, [])
  end.

(** [check_obs_msg_for_sats] and [sbp_msg_obs_callback] of [base_num_sats_monitor.c] *)
Definition base_num_sats_callback (h : health) (sender_id len : Z) (obs : list (Z * Z)) : outcome (health * Z) :=
  if sender_id =? MSG_FORWARD_SENDER_ID then
    l ← msg_signals len obs;
    Ret (set_sats h (fold_left sid_set_add l (sid_set h)) (sats_timeout_counter h), 1)
  else Ret (h, 1).

Definition base_num_sats_timer_callback (h : health) : health * list (alert D) :=
  if connected_to_base h && (sid_set_get_sat_count (sid_set h) <? MIN_SATS_FOR_PVT) then
    if sats_max_timeout_count_before_warn <? sats_timeout_counter h then (set_sats h sid_set_init 0, [A_base_sats])
    else (set_sats h (sid_set h) (u8 (sats_timeout_counter h + 1)), [])
  else (set_sats h sid_set_init 0, []).

(** ** The daemon *)

(** A timer that fires is due again a period later; then its callback runs. *)
Definition timer_fires (now : Z) (h : health) (m : monitor) : health * list (alert D) :=
  let h := set_due h m (now + period m) in
  match m with
  | BASELINE => baseline_timer_callback h
  | GLO_OBS => glo_obs_timer_callback h
  | GLO_BIAS => (h, glo_bias_timer_callback h)
  | NTRIP_OBS => ntrip_obs_timer_callback h
  | GNSS_TIME => (h, [])
  | BASE_NUM_SATS => base_num_sats_timer_callback h
  end.

(** The callbacks are called in the order in which the monitors were set up. *)
Definition health_step (now : Z) (h : health) (e : hevent) : outcome (health * list (alert D)) :=
  match e with
  | H_obs sender_id len obs =>
      r ← glo_obs_callback h sender_id len obs;
      let h := health_monitor_message_callback now GLO_OBS r in
      let h := health_monitor_message_callback now NTRIP_OBS (ntrip_obs_callback h sender_id) in
      r ← base_num_sats_callback h sender_id len obs;
      Ret (health_monitor_message_callback now BASE_NUM_SATS r, [])
  | H_bias sender_id => Ret (health_monitor_message_callback now GLO_BIAS (glo_biases_callback h sender_id), [])
  | H_baseline flags x y z => Ret (health_monitor_message_callback now BASELINE (baseline_callback h flags x y z), [])
  | H_gps_time sender_id flags file_ok =>
      Ret (health_monitor_message_callback now GNSS_TIME (gps_time_callback h sender_id flags file_ok), [])
  | H_glonass enabled => Ret (notify_glonass_enabled now h enabled, [])
  | H_ntrip enabled => Ret (notify_ntrip_enabled h enabled, [])
  | H_timer m => Ret (timer_fires now h m)
  end.

(** Runs of the daemon from [h] at time [t]: events in the order of time, no timer before it is
    due; the events and the alerts so far, with their times. *)
Inductive health_run (t : Z) (h : health) : list (Z * hevent) -> list (Z * alert D) -> Z -> health -> Prop :=
  | run_start : health_run t h [] [] t h
  | run_step evs alerts t1 h1 t2 e h2 new :
      health_run t h evs alerts t1 h1 -> t1 <= t2 ->
      (forall m, e = H_timer m -> timer_due h1 m <= t2) ->
      health_step t2 h1 e = Ret (h2, new) ->
      health_run t h (evs ++ [(t2, e)]) (alerts ++ map (fun a => (t2, a)) new) t2 h2.
End health.

(** ** What an alert tells *)
Section health_spec.
Context {S D : Type} `{SidSet S}.
Variable header_size content_size : Z.
Variable MIN_SATS_FOR_PVT : Z.
Variable own_sender_id : Z.
Variable baseline_distance : Z -> Z -> Z -> D.
Variable over_threshold : D -> bool.

Abbreviation run := (health_run header_size content_size MIN_SATS_FOR_PVT own_sender_id baseline_distance over_threshold).
Abbreviation history := (list (Z * hevent)).

(** The value of a setting is the one that was notified last; the settings are off at first. *)
Definition setting (f : hevent -> option bool) (evs : history) : bool :=
  fold_left (fun b e => default b (f e.2)) evs false.
Definition glonass_on : history -> bool := setting (fun e => match e with H_glonass b => Some b | _ => None end).
Definition ntrip_on : history -> bool := setting (fun e => match e with H_ntrip b => Some b | _ => None end).

(** Observations of the base station; the signals that they name; those with a GLONASS signal. *)
Definition is_base_obs (e : hevent) : Prop :=
  match e with H_obs s _ _ => s = MSG_FORWARD_SENDER_ID | _ => False end.
Definition base_signals_of (e : hevent) : list (Z * Z) :=
  match e with
  | H_obs s len obs => if s =? MSG_FORWARD_SENDER_ID then take (obs_in_msg header_size content_size len) obs else []
  | _ => []
  end.
Definition base_signals (evs : history) : list (Z * Z) := concat (map (fun e => base_signals_of e.2) evs).
Definition has_glo (e : hevent) : Prop := Exists (fun sig => is_glo sig.2 = true) (base_signals_of e).

(** The messages that say that the baseline is short or that there is none. *)
Definition baseline_fine (e : hevent) : Prop :=
  match e with
  | H_baseline flags x y z =>
      let mode := Z.land flags 7 in
      2 <= mode <= 4 /\ over_threshold (baseline_distance x y z) = false \/ 0 <= mode <= 1
  | _ => False
  end.

(** [e] happened at least [d] before [t], each time it happened. *)
Definition quiet_for (d : Z) (P : hevent -> Prop) (evs : history) (t : Z) : Prop :=
  forall s e, (s, e) ∈ evs -> P e -> s + d <= t.

(** What the events [evs] since the start at [t0] must have been for an alert at [t]. *)
Definition justified (t0 : Z) (file : option bool) (evs : history) (t : Z) (a : alert D) : Prop :=
  match a with
  | A_glo_obs =>
      glonass_on evs = true /\ (exists s e, (s, e) ∈ evs /\ is_base_obs e) /\
      t0 + 180000 <= t /\ quiet_for 180000 has_glo evs t /\
      (forall evs1 s evs2, evs = evs1 ++ (s, H_glonass true) :: evs2 -> glonass_on evs1 = false -> s + 180000 <= t)
  | A_glo_bias =>
      glonass_on evs = true /\ (exists s e, (s, e) ∈ evs /\ is_base_obs e) /\
      t0 + 240000 <= t /\ quiet_for 240000 (fun e => e = H_bias MSG_FORWARD_SENDER_ID) evs t
  | A_ntrip =>
      ntrip_on evs = true /\
      (file = Some true \/ exists s flags, (s, H_gps_time own_sender_id flags true) ∈ evs /\ Z.land flags 7 <> 0) /\
      t0 + 20000 <= t /\ quiet_for 20000 is_base_obs evs t /\ quiet_for 10000 (fun e => e = H_ntrip true) evs t
  | A_base_sats =>
      (exists s e, (s, e) ∈ evs /\ is_base_obs e) /\
      exists evs1 evs2 w,
        evs = evs1 ++ evs2 /\ w + 50000 <= t /\
        Forall (fun e => e.1 <= w) evs1 /\ Forall (fun e => w <= e.1) evs2 /\
        sid_set_get_sat_count (fold_left sid_set_add (base_signals evs2) sid_set_init) < MIN_SATS_FOR_PVT
  | A_baseline d =>
      over_threshold d = true /\
      (exists s flags x y z, (s, H_baseline flags x y z) ∈ evs /\ 2 <= Z.land flags 7 <= 4 /\ d = baseline_distance x y z) /\
      quiet_for 300000 baseline_fine evs t
  end.

(** What the daemon's state says of its history, for each monitor. *)
Definition settings_ok (file : option bool) (evs : history) (h : health (S := S) (D := D)) : Prop :=
  glonass_enabled h = glonass_on evs /\ ntrip_enabled h = ntrip_on evs /\
  (connected_to_base h = true -> exists s e, (s, e) ∈ evs /\ is_base_obs e) /\
  (device_has_gps_time h = true ->
   file = Some true \/ exists s flags, (s, H_gps_time own_sender_id flags true) ∈ evs /\ Z.land flags 7 <> 0).

Definition glo_ok (t0 : Z) (evs : history) (h : health (S := S) (D := D)) : Prop :=
  glonass_enabled h = glonass_on evs /\ t0 + 180000 <= timer_due h GLO_OBS /\
  quiet_for 180000 has_glo evs (timer_due h GLO_OBS) /\
  (forall evs1 s evs2, evs = evs1 ++ (s, H_glonass true) :: evs2 -> glonass_on evs1 = false ->
     s + 180000 <= timer_due h GLO_OBS).

Definition bias_ok (t0 : Z) (evs : history) (h : health (S := S) (D := D)) : Prop :=
  t0 + 240000 <= timer_due h GLO_BIAS /\
  quiet_for 240000 (fun e => e = H_bias MSG_FORWARD_SENDER_ID) evs (timer_due h GLO_BIAS).

Definition ntrip_ok (t0 : Z) (evs : history) (h : health (S := S) (D := D)) : Prop :=
  let due := timer_due h NTRIP_OBS in
  (ntrip_timeout_counter h = 0 /\ t0 + 10000 <= due /\ quiet_for 10000 is_base_obs evs due) \/
  (ntrip_timeout_counter h = 1 /\ t0 + 20000 <= due /\ quiet_for 20000 is_base_obs evs due /\
   quiet_for 10000 (fun e => e = H_ntrip true) evs due).

Definition baseline_ok (evs : history) (h : health (S := S) (D := D)) : Prop :=
  quiet_for 300000 baseline_fine evs (timer_due h BASELINE) /\
  forall d, past_threshold h = Some d -> over_threshold d = true /\
    exists s flags x y z, (s, H_baseline flags x y z) ∈ evs /\ 2 <= Z.land flags 7 <= 4 /\ d = baseline_distance x y z.

Definition sats_ok (evs : history) (t : Z) (h : health (S := S) (D := D)) : Prop :=
  0 <= sats_timeout_counter h <= 4 /\
  exists evs1 evs2 w,
    evs = evs1 ++ evs2 /\ w + 10000 * (1 + sats_timeout_counter h) <= timer_due h BASE_NUM_SATS /\
    w <= t /\ Forall (fun e => e.1 <= w) evs1 /\ Forall (fun e => w <= e.1) evs2 /\
    sid_set h = fold_left sid_set_add (base_signals evs2) sid_set_init.


Lemma quiet_snoc d P evs t t' s e :
  quiet_for d P evs t -> t <= t' -> (P e -> s + d <= t') -> quiet_for d P (evs ++ [(s, e)]) t'.
Proof.
  intros Hq Ht He s' e' Hin HP. apply elem_of_app in Hin as [Hin|Hin].
  - pose proof (Hq _ _ Hin HP). lia.
  - apply list_elem_of_singleton in Hin. simplify_eq. auto.
Qed.

Lemma quiet_all d P evs t t' : Forall (fun e => e.1 <= t) evs -> t + d <= t' -> quiet_for d P evs t'.
Proof. intros Hall Ht s e Hin _. rewrite Forall_forall in Hall. apply Hall in Hin. simpl in Hin. lia. Qed.

Lemma quiet_weaken d d' P evs t : quiet_for d P evs t -> d' <= d -> quiet_for d' P evs t.
Proof. intros Hq Hd s e Hin HP. pose proof (Hq _ _ Hin HP). lia. Qed.

Lemma setting_snoc f evs t e : setting f (evs ++ [(t, e)]) = default (setting f evs) (f e).
Proof. unfold setting. by rewrite fold_left_app. Qed.

Lemma base_signals_snoc evs t e : base_signals (evs ++ [(t, e)]) =
  base_signals evs ++ base_signals_of e.
Proof. unfold base_signals. by rewrite map_app, concat_app; simpl; rewrite app_nil_r. Qed.

Lemma snoc_split {A} (l l1 l2 : list A) x y :
  l ++ [x] = l1 ++ y :: l2 -> l = l1 /\ x = y \/ exists l2', l2 = l2' ++ [x] /\ l = l1 ++ y :: l2'.
Proof.
  destruct l2 as [|z l2 _] using rev_ind; intros E.
  - left. by apply app_inj_tail in E.
  - right. change (y :: l2 ++ [z]) with ((y :: l2) ++ [z]) in E. rewrite app_assoc in E.
    apply app_inj_tail in E as [-> ->]. by exists l2.
Qed.

Lemma check_glo_spec n (obs : list (Z * Z)) b : check_obs_msg_for_glo_obs n obs = Ret b ->
  (b = true <-> Exists (fun sig => is_glo sig.2 = true) (take n obs)).
Proof.
  revert obs. induction n as [|n IH]; intros [|[s c] obs] E; simpl in E |- *; simplify_eq/=;
    try by rewrite Exists_nil.
  rewrite Exists_cons; simpl. destruct (is_glo c) eqn:G; simplify_eq; [tauto|].
  rewrite (IH _ E). naive_solver.
Qed.

Lemma slice_0 {A} (l : list A) n k : slice l 0 n = Ret k -> k = take n l.
Proof. unfold slice. case_match; intros; by simplify_eq/=. Qed.

Abbreviation step := (health_step header_size content_size MIN_SATS_FOR_PVT own_sender_id baseline_distance over_threshold).

(** The periods as numbers. *)
Ltac periods := unfold period, BASELINE_ALERT_RATE_LIMIT, GLO_OBS_ALERT_RATE_LIMIT, GLO_BIAS_ALERT_RATE_LIMIT,
  NTRIP_OBS_ALERT_RATE_LIMIT, GNSS_TIME_ALERT_RATE_MS, BASE_NUM_SATS_SAMPLE_RATE in *.

(** The effect of an observation message. *)
Lemma step_obs t h sender_id len obs h2 new : step t h (H_obs sender_id len obs) = Ret (h2, new) ->
  new = [] /\
  (sender_id <> 0 /\ h2 = h \/
   sender_id = 0 /\ exists glo : bool, (glo = true <-> has_glo (H_obs sender_id len obs)) /\
     let h := set_glo h (glonass_enabled h) true 0 in
     let h := if glo then set_due h GLO_OBS (t + 180000) else h in
     let h := set_due (set_ntrip h (ntrip_enabled h) 0) NTRIP_OBS (t + 10000) in
     h2 = set_sats h (fold_left sid_set_add (base_signals_of (H_obs sender_id len obs)) (sid_set h)) (sats_timeout_counter h)).
Proof.
  simpl. unfold glo_obs_callback, ntrip_obs_callback, base_num_sats_callback, has_glo, MSG_FORWARD_SENDER_ID. simpl.
  destruct (sender_id =? 0) eqn:Es; unfold MSG_FORWARD_SENDER_ID; rewrite ?Es; bool_hyps; intros E.
  2: by simplify_eq/=; auto.
  destruct (check_obs_msg_for_glo_obs _ _) as [g| |] eqn:Eg; simpl in E; try done.
  apply check_glo_spec in Eg.
  destruct (msg_signals _ _ _ _) as [l| |] eqn:El; simpl in E; try done.
  apply slice_0 in El. subst l. split; [by destruct g; simplify_eq/=|]. right. split; [done|].
  exists g. split; [done|]. by destruct g; simplify_eq/=.
Qed.

Lemma has_glo_base s len obs : has_glo (H_obs s len obs) -> s = 0.
Proof. unfold has_glo, base_signals_of, MSG_FORWARD_SENDER_ID. case_match; bool_hyps; [done|]. by inversion 1. Qed.

(** The branches of a step, each with the state after it. *)
Ltac step_cases E :=
  lazymatch type of E with
  | step _ _ (H_obs _ _ _) = _ =>
      apply step_obs in E as (-> & [[? ->]|(-> & [] & ? & ->)])
  | _ => simpl in E; unfold glo_biases_callback, baseline_callback, gps_time_callback, set_device_has_gps_time,
      notify_glonass_enabled, notify_ntrip_enabled, timer_fires, glo_obs_timer_callback, ntrip_obs_timer_callback,
      baseline_timer_callback, base_num_sats_timer_callback, health_monitor_message_callback, health_monitor_reset_timer in E;
      repeat case_match; simplify_eq/=
  end; simpl; periods.

Section steps.
Context (t0 : Z) (file : option bool) (evs : history) (t t2 : Z) (h h2 : health (S := S) (D := D)) (e : hevent) (new : list (alert D)).
Hypothesis Hall : Forall (fun e => e.1 <= t) evs.
Hypothesis Ht0 : t0 <= t.
Hypothesis Ht : t <= t2.
Hypothesis Hdue : forall m, e = H_timer m -> timer_due h m <= t2.
Hypothesis E : step t2 h e = Ret (h2, new).


Lemma dues_step : (forall m, timer_due h m <= t + period m) -> forall m, timer_due h2 m <= t2 + period m.
Proof.
  intros Hle m. assert (timer_due h m <= t2 + period m) as Hm by (specialize (Hle m); lia).
  destruct e; step_cases E; repeat case_decide; subst; done || lia.
Qed.

Hypothesis Hdues : forall m, timer_due h m <= t + period m.

Lemma quiet_now d P due : due = t2 + d -> quiet_for d P (evs ++ [(t2, e)]) due.
Proof. intros ->. eapply quiet_all with (t := t2); [|lia]. apply Forall_app; split; [|by constructor]. eapply Forall_impl; [exact Hall|]. simpl; lia. Qed.

Lemma bias_step : bias_ok t0 evs h -> bias_ok t0 (evs ++ [(t2, e)]) h2.
Proof.
  intros [H1 H2]. pose proof (fun m => quiet_now 240000 m (t2 + 240000)) as Hnow. unfold bias_ok.
  destruct e; step_cases E; (split; [lia|]); first [by apply Hnow|eapply quiet_snoc; [exact H2|try lia|try (intros; simplify_eq/=)]].
  all: bool_hyps; try done.
Qed.

Lemma ntrip_keep : ntrip_ok t0 evs h -> ntrip_timeout_counter h2 = ntrip_timeout_counter h ->
  timer_due h NTRIP_OBS <= timer_due h2 NTRIP_OBS -> ~ is_base_obs e -> e <> H_ntrip true -> ntrip_ok t0 (evs ++ [(t2, e)]) h2.
Proof.
  unfold ntrip_ok. intros Hok -> Hle He1 He2. destruct Hok as [(Hc & Hs & Hq)|(Hc & Hs & Hq & Hon)]; [left|right];
    split_and!; try lia; (eapply quiet_snoc; [eassumption|lia|naive_solver]).
Qed.

Lemma ntrip_step : ntrip_ok t0 evs h -> ntrip_ok t0 (evs ++ [(t2, e)]) h2.
Proof.
  intros Hok. pose proof (fun m => quiet_now 10000 m (t2 + 10000) eq_refl) as Hnow. pose proof ntrip_keep as Hkeep.
  pose proof (Hdue NTRIP_OBS) as Hd.
  destruct e as [| | | | |[]|[]]; step_cases E;
    first [apply Hkeep; solve [done|lia|specialize (Hd eq_refl); simpl; lia]|by left; split_and!; [done|simpl; lia|apply Hnow]|idtac].
  - left. simpl. assert (t0 + 10000 <= timer_due h NTRIP_OBS /\ quiet_for 10000 is_base_obs evs (timer_due h NTRIP_OBS)) as [Hs Hq].
    { destruct Hok as [(Hc & ? & ?)|(Hc & Hs & Hq & Hon)]; [done|]. split; [lia|]. eapply quiet_weaken; [exact Hq|lia]. }
    split_and!; [done|lia|]. eapply quiet_snoc; [exact Hq|lia|done].
  - specialize (Hd eq_refl). right. simpl. destruct Hok as [(Hc & Hs & Hq)|(Hc & Hs & Hq & Hon)].
    + rewrite Hc. split_and!; [done|lia| |apply Hnow].
      intros s e' Hin He. apply elem_of_app in Hin as [Hin|Hin].
      * pose proof (Hq _ _ Hin He). lia.
      * apply list_elem_of_singleton in Hin. by simplify_eq.
    + by rewrite Hc in *.
Qed.

Lemma glo_step : glo_ok t0 evs h -> glo_ok t0 (evs ++ [(t2, e)]) h2.
Proof.
  intros (H0 & H1 & H2 & H3). pose proof (fun m => quiet_now 180000 m (t2 + 180000) eq_refl) as Hnow.
  pose proof (Hdue GLO_OBS) as Hd. pose proof (Hdues GLO_OBS) as Hle.
  assert (Hkeep : glonass_enabled h2 = glonass_on (evs ++ [(t2, e)]) -> timer_due h GLO_OBS <= timer_due h2 GLO_OBS -> 
    (has_glo e -> t2 + 180000 <= timer_due h2 GLO_OBS) -> (e = H_glonass true -> glonass_enabled h = false -> t2 + 180000 <= timer_due h2 GLO_OBS) ->
    glo_ok t0 (evs ++ [(t2, e)]) h2).
  { intros K0 K1 K2 K3. split; [done|]. split; [lia|]. split; [by eapply quiet_snoc|].
    intros evs1 s evs2 Es Hoff. apply snoc_split in Es as [[-> Es]|(l & -> & ->)].
    - simplify_eq. apply K3; [done|]. by rewrite H0.
    - pose proof (H3 _ _ _ eq_refl Hoff). lia. }
  unfold glonass_on in *. rewrite setting_snoc in Hkeep.
  destruct e as [| | | |[]| |[]]; step_cases E; simpl in Hkeep; rewrite <- ?H0 in Hkeep.
  all: apply Hkeep; simpl; intros;
    try first [done|lia|match goal with Hg : has_glo _ |- _ => by inversion Hg end|congruence].
  - match goal with Hg : has_glo _ |- _ => apply has_glo_base in Hg end. done.
  - naive_solver.
  - by destruct (glonass_enabled h).
Qed.

Lemma settings_step : settings_ok file evs h -> settings_ok file (evs ++ [(t2, e)]) h2.
Proof.
  intros (H0 & H1 & H2 & H3).
  assert (Hin : forall P : hevent -> Prop, P e \/ (exists s e', (s, e') ∈ evs /\ P e') -> exists s e', (s, e') ∈ evs ++ [(t2, e)] /\ P e').
  { intros P [He|(s & e' & Hin & He)]; [exists t2, e|exists s, e']; (split; [|done]); apply elem_of_app; [right|left; done].
    by apply list_elem_of_singleton. }
  assert (Htime : (file = Some true \/ exists s flags, (s, H_gps_time own_sender_id flags true) ∈ evs /\ Z.land flags 7 <> 0) ->
    file = Some true \/ exists s flags, (s, H_gps_time own_sender_id flags true) ∈ evs ++ [(t2, e)] /\ Z.land flags 7 <> 0).
  { intros [?|(s & flags & ? & ?)]; [by left|right]. exists s, flags. split; [|done]. apply elem_of_app; by left. }
  unfold settings_ok, glonass_on, ntrip_on, device_has_gps_time in *. rewrite !setting_snoc.
  destruct e; step_cases E; split_and!; auto; try (rewrite <- ?H0, <- ?H1; done); try (intros; apply Hin; auto; done).
  - intros _. apply Hin. by left.
  - intros _. apply Hin. by left.
  - intros Hf. bool_hyps. subst. right. exists t2, flags. split; [apply elem_of_app; right; by apply list_elem_of_singleton|done].
  - intros Hf. bool_hyps. subst. right. exists t2, flags. split; [apply elem_of_app; right; by apply list_elem_of_singleton|done].
Qed.

Lemma baseline_step : baseline_ok evs h -> baseline_ok (evs ++ [(t2, e)]) h2.
Proof.
  intros (H0 & H1). pose proof (Hdue BASELINE) as Hd. pose proof (Hdues BASELINE) as Hle.
  assert (Hkeep : (past_threshold h2 = past_threshold h \/ past_threshold h2 = None) -> timer_due h BASELINE <= timer_due h2 BASELINE ->
    (baseline_fine e -> t2 + 300000 <= timer_due h2 BASELINE) -> baseline_ok (evs ++ [(t2, e)]) h2).
  { intros K0 K1 K2. split; [by eapply quiet_snoc|]. intros d Hd'. destruct K0 as [K0|K0]; [|congruence].
    rewrite K0 in Hd'. destruct (H1 d Hd') as (? & s & f & x & y & z & Hin & ?). split; [done|].
    exists s, f, x, y, z. split; [apply elem_of_app; by left|done]. }
  destruct e; step_cases E; first [apply Hkeep; simpl; [auto|lia|done || lia]|idtac].
  bool_hyps. split; [eapply quiet_snoc; [exact H0|done|]|].
  - intros [[_ Hf]|Hf]; [congruence|lia].
  - intros d Hd'. simplify_eq/=. split; [done|]. exists t2, flags, x, y, z. split; [|done].
    apply elem_of_app; right. by apply list_elem_of_singleton.
Qed.

Lemma sats_step : sats_ok evs t h -> sats_ok (evs ++ [(t2, e)]) t2 h2.
Proof.
  intros (Hc & evs1 & evs2 & w & -> & Hw & Hwt & Hb & Ha & Hs). pose proof (Hdue BASE_NUM_SATS) as Hd. pose proof (Hdues BASE_NUM_SATS) as Hle.
  assert (Hnew : sats_timeout_counter h2 = 0 -> timer_due h2 BASE_NUM_SATS = t2 + 10000 -> sid_set h2 = sid_set_init ->
    sats_ok ((evs1 ++ evs2) ++ [(t2, e)]) t2 h2).
  { intros K0 K1 K2. split; [lia|]. exists ((evs1 ++ evs2) ++ [(t2, e)]), [], t2. rewrite app_nil_r. split_and!; try done; try lia.
    apply Forall_app; split; [|by constructor]. eapply Forall_impl; [exact Hall|]. simpl; lia. }
  assert (Hkeep : (0 <= sats_timeout_counter h2 <= 4) -> w + 10000 * (1 + sats_timeout_counter h2) <= timer_due h2 BASE_NUM_SATS ->
     sid_set h2 = fold_left sid_set_add (base_signals_of e) (sid_set h) -> sats_ok ((evs1 ++ evs2) ++ [(t2, e)]) t2 h2).
  { intros K0 K1 K2. split; [lia|]. exists evs1, (evs2 ++ [(t2, e)]), w. split_and!; try done; try lia.
    - by rewrite app_assoc.
    - apply Forall_app; split; [done|]. constructor; [simpl; lia|done].
    - rewrite K2, Hs, base_signals_snoc, fold_left_app. done. }
  destruct e; step_cases E; first [apply Hkeep; simpl; [lia|lia|done]|apply Hnew; simpl; done|idtac].
  - apply Hkeep; [lia|lia|]. simpl. unfold MSG_FORWARD_SENDER_ID. by destruct (sender_id =? 0) eqn:?; bool_hyps.
  - specialize (Hd eq_refl). change sats_max_timeout_count_before_warn with 3 in *. bool_hyps.
    apply Hkeep; simpl; rewrite ?u8_small by lia; [lia|lia|done].
Qed.

Lemma step_justified m a : e = H_timer m -> settings_ok file evs h -> glo_ok t0 evs h -> bias_ok t0 evs h -> ntrip_ok t0 evs h ->
  baseline_ok evs h -> sats_ok evs t h -> a ∈ new -> justified t0 file evs t2 a.
Proof.
  intros -> (Hglo & Hntrip & Hconn & Htime) (G0 & G1 & G2 & G3) (B1 & B2) Hn (L1 & L2) (S1 & evs1 & evs2 & w & -> & S2 & S3 & S4 & S5 & S6).
  pose proof (Hdue m eq_refl) as Hd.
  assert (Hlate : forall d P, quiet_for d P (evs1 ++ evs2) (timer_due h m) -> quiet_for d P (evs1 ++ evs2) t2).
  { intros d P Hq s e' Hin He. pose proof (Hq _ _ Hin He). lia. }
  intros Ha. destruct m; step_cases E; unfold glo_bias_timer_callback in Ha; simpl in Ha; repeat case_match; try (by inversion Ha); apply list_elem_of_singleton in Ha; subst; bool_hyps; simpl.
  - destruct (L2 d) as (Ho & Hx); [done|]. auto.
  - split_and!; [congruence|auto|lia|auto|]. intros ??? Es Hoff. pose proof (G3 _ _ _ Es Hoff). lia.
  - split_and!; [congruence|auto|lia|auto|]. intros ??? Es Hoff. pose proof (G3 _ _ _ Es Hoff). lia.
  - split_and!; [congruence|auto|lia|auto].
  - change ntrip_max_timeout_count_before_warn with 0 in *. bool_hyps. destruct Hn as [(Hc & ?)|(_ & N1 & N2 & N3)]; [lia|].
    split_and!; [congruence|auto|lia|auto|auto].
  - change sats_max_timeout_count_before_warn with 3 in *. bool_hyps. split; [auto|].
    exists evs1, evs2, w. split_and!; [done|lia|done|done|]. by rewrite <- S6.
Qed.
End steps.

Lemma run_ok t0 file evs alerts t h : run t0 (health_start t0 file) evs alerts t h ->
  (Forall (fun e => e.1 <= t) evs /\ t0 <= t /\ forall m, timer_due h m <= t + period m) /\
  (settings_ok file evs h /\ glo_ok t0 evs h /\ bias_ok t0 evs h /\ ntrip_ok t0 evs h /\ baseline_ok evs h /\ sats_ok evs t h).
Proof.
  assert (Hq : forall d P t, quiet_for d P [] t) by (intros d P t' s e Hin; by apply not_elem_of_nil in Hin).
  induction 1 as [|evs alerts t1 h1 t2 e h2 new Hr ((Hall & Ht0 & Hdues) & I1 & I2 & I3 & I4 & I5 & I6) Ht Hdue E].
  - split; [split_and!; [constructor|lia|intros; apply Z.le_refl]|]. unfold settings_ok, glo_ok, bias_ok, ntrip_ok, baseline_ok, sats_ok.
    simpl; periods. split_and!; try done; try lia; auto.
    + destruct file as [[]|]; simpl; auto; done.
    + intros evs1 ? ? Es. by destruct evs1.
    + left. split_and!; auto; lia.
    + exists [], [], t0. split_and!; auto; lia.
  - split_and!.
    + apply Forall_app; split; [|by constructor]. eapply Forall_impl; [exact Hall|]. simpl; lia.
    + lia.
    + by eapply dues_step.
    + by eapply settings_step.
    + by eapply glo_step.
    + by eapply bias_step.
    + by eapply ntrip_step.
    + by eapply baseline_step.
    + by eapply sats_step.
Qed.

Lemma only_timers_alert t h e h2 new : step t h e = Ret (h2, new) -> new = [] \/ exists m, e = H_timer m.
Proof. intros E. destruct e; [left..|eauto]; by step_cases E. Qed.

(** C31: every alert of the daemon is justified by what it has seen before it: the GLONASS alerts
    only when GLONASS is enabled, the base has sent observations and no GLONASS observation (no
    bias) of the base came for 180 s (240 s); the NTRIP alert only when NTRIP is enabled, GPS time
    is known and no observation of the base came for 20 s; the satellite alert only when all
    observations of the last 50 s or more name too few satellites; the baseline alert only
    with a distance over the threshold that a message gave, and no message of a short baseline
    or none for 300 s. *)
Theorem health_alerts_sound t0 file evs alerts t h ta a :
  run t0 (health_start t0 file) evs alerts t h -> (ta, a) ∈ alerts ->
  exists evs1 m evs2, evs = evs1 ++ (ta, H_timer m) :: evs2 /\ justified t0 file evs1 ta a.
Proof.
  induction 1 as [|evs alerts t1 h1 t2 e h2 new Hr IH Ht Hdue E]; intros Ha.
  - by apply not_elem_of_nil in Ha.
  - apply elem_of_app in Ha as [Ha|Ha].
    + destruct (IH Ha) as (evs1 & m & evs2 & -> & Hj). exists evs1, m, (evs2 ++ [(t2, e)]).
      split; [|done]. by rewrite <- app_assoc.
    + apply list_elem_of_fmap in Ha as (a' & [= <- <-] & Ha).
      destruct (only_timers_alert _ _ _ _ _ E) as [->|[m ->]]; [by apply not_elem_of_nil in Ha|].
      exists evs, m, []. split; [done|].
      destruct (run_ok _ _ _ _ _ _ Hr) as ((? & ? & ?) & ? & ? & ? & ? & ? & ?). by eapply step_justified.
Qed.

(** ** The NTRIP alert comes *)

Lemma run_det t h evs alerts t1 h1 alerts' t1' h1' : run t h evs alerts t1 h1 -> run t h evs alerts' t1' h1' ->
  alerts = alerts' /\ t1 = t1' /\ h1 = h1'.
Proof.
  intros Hr. revert alerts' t1' h1'. induction Hr as [|evs alerts t1 h1 t2 e h2 new Hr IH Ht Hdue E]; intros ??? Hr'.
  - remember [] as l eqn:Hl in Hr'. destruct Hr' as [|evs]; [done|by destruct evs].
  - remember (evs ++ [(t2, e)]) as l eqn:Hl in Hr'.
    destruct Hr' as [|evs' al' t1' h1' t2' e' h2' new' Hr' Ht' Hd' E']; [by destruct evs|].
    apply app_inj_tail in Hl as [-> [= -> ->]]. destruct (IH _ _ _ Hr') as (-> & -> & ->). rewrite E in E'. by simplify_eq.
Qed.

Lemma run_snoc t h evs alerts t1 h1 t2 e h2 new evs' alerts' : run t h evs alerts t1 h1 ->
  evs' = evs ++ [(t2, e)] -> step t2 h1 e = Ret (h2, new) -> alerts' = alerts ++ map (fun a => (t2, a)) new ->
  t1 <= t2 -> match e with H_timer m => timer_due h1 m <= t2 | _ => True end -> run t h evs' alerts' t2 h2.
Proof. intros Hr -> E -> Ht Hd. econstructor; eauto. by intros m ->. Qed.

(** What keeps the NTRIP alert from coming: an observation of the base, a change of the
    setting, a message that time is lost. *)
Definition disturbs (e : hevent) : Prop :=
  match e with
  | H_obs s _ _ => s = MSG_FORWARD_SENDER_ID
  | H_ntrip _ => True
  | H_gps_time s flags _ => s = own_sender_id /\ Z.land flags 7 = 0
  | _ => False
  end.

(** The event loop is at most [delta] late for the NTRIP timer. *)
Definition prompt (delta t : Z) (h : health (S := S) (D := D)) (evs : history) : Prop :=
  forall evs1 t2 e evs2 alerts1 t1 h1, evs = evs1 ++ (t2, e) :: evs2 -> run t h evs1 alerts1 t1 h1 ->
    t2 <= timer_due h1 NTRIP_OBS + delta.

(** Undisturbed, a step leaves the monitor as it is or is its timer. *)
Lemma undisturbed_step t2 h e h2 new : step t2 h e = Ret (h2, new) -> ~ disturbs e ->
  ntrip_enabled h = true -> device_has_gps_time h = true -> 0 <= ntrip_timeout_counter h < 256 ->
  (ntrip_enabled h2 = true /\ device_has_gps_time h2 = true) /\
  (timer_due h2 NTRIP_OBS = timer_due h NTRIP_OBS /\ ntrip_timeout_counter h2 = ntrip_timeout_counter h \/
   e = H_timer NTRIP_OBS /\
   (0 < ntrip_timeout_counter h /\ A_ntrip ∈ new \/
    ntrip_timeout_counter h = 0 /\ ntrip_timeout_counter h2 = 1 /\ timer_due h2 NTRIP_OBS = t2 + 10000)).
Proof.
  intros E He Hon Htime Hc. unfold device_has_gps_time in *. destruct e; step_cases E; simpl in *; auto; try congruence; try tauto.
  - bool_hyps. subst. destruct (Z.land flags 7 =? 0) eqn:?; bool_hyps; [tauto|auto].
  - by rewrite Hon in *.
  - match goal with Hf : negb _ = true, Hg : gps_time_file h = _ |- _ =>
      unfold device_has_gps_time in Hf; simpl in Hf; rewrite Hg in Hf end. done.
  - change ntrip_max_timeout_count_before_warn with 0 in *. bool_hyps. split; [done|]. right. split; [done|]. left.
    split; [lia|]. by apply list_elem_of_singleton.
  - change ntrip_max_timeout_count_before_warn with 0 in *. bool_hyps. split; [done|]. right. split; [done|]. right.
    assert (ntrip_timeout_counter h = 0) as -> by lia. done.
Qed.

(** While NTRIP is enabled and GPS time known, and no observation of the base, no change of the
    setting and no loss of time comes, the NTRIP alert comes: within one period of the timer after
    it is next due, when the event loop is never more than [delta] late (and [delta] for each of
    the two firings). *)
Theorem ntrip_alert_complete delta t h evs alerts t' h' : 0 <= delta ->
  ntrip_enabled h = true -> device_has_gps_time h = true -> 0 <= ntrip_timeout_counter h < 256 ->
  run t h evs alerts t' h' -> Forall (fun e => ~ disturbs e.2) evs -> prompt delta t h evs ->
  t <= timer_due h NTRIP_OBS + delta -> timer_due h NTRIP_OBS + 10000 + 2 * delta < t' ->
  exists ta, (ta, A_ntrip) ∈ alerts /\ ta <= timer_due h NTRIP_OBS + 10000 + 2 * delta.
Proof.
  intros Hdelta Hon Htime Hc Hrun Hquiet Hprompt Hstart Hlong.
  enough ((exists ta, (ta, A_ntrip) ∈ alerts /\ ta <= timer_due h NTRIP_OBS + 10000 + 2 * delta) \/
    (ntrip_enabled h' = true /\ device_has_gps_time h' = true /\ 0 <= ntrip_timeout_counter h' < 256 /\
     t' <= timer_due h' NTRIP_OBS + delta /\
     (timer_due h' NTRIP_OBS = timer_due h NTRIP_OBS \/
      0 < ntrip_timeout_counter h' /\ timer_due h' NTRIP_OBS <= timer_due h NTRIP_OBS + delta + 10000))) as [?|?];
    [done|exfalso; lia|].
  clear Hlong.
  induction Hrun as [|evs alerts t1 h1 t2 e h2 new Hr IH Ht Hdue E]; [right; split_and!; auto; lia|].
  apply Forall_app in Hquiet as [Hq1 Hq2]. apply Forall_inv in Hq2.
  pose proof (Hprompt _ _ _ _ _ _ _ eq_refl Hr) as Hp.
  assert (Hp1 : prompt delta t h evs).
  { intros evs1 s e1 evs2 ?? h3 -> Hr1. eapply (Hprompt _ _ _ (evs2 ++ [(t2, e)])); [|exact Hr1]. by rewrite <- app_assoc. }
  destruct (IH Hq1 Hp1) as [(ta & Hin & Hta)|(Hon1 & Htime1 & Hc1 & Ht1 & Hcase)].
  { left. exists ta. split; [|done]. apply elem_of_app. by left. }
  destruct (undisturbed_step _ _ _ _ _ E Hq2 Hon1 Htime1 Hc1) as [[Hon2 Htime2] [[Hd2 Hc2]|[-> [[Hpos Hin]|(Hz & Hc2 & Hd2)]]]].
  - right. rewrite Hd2, Hc2. auto.
  - left. exists t2. split; [|lia]. apply elem_of_app. right. by apply list_elem_of_fmap_2.
  - right. rewrite Hd2, Hc2. split_and!; try done; lia.
Qed.
End health_spec.

(** ** Witnesses *)

#[local] Instance sid_set_list : SidSet (list Z) :=
  { sid_set_init := []; sid_set_add s sig := if decide (sig.1 ∈ s) then s else sig.1 :: s; sid_set_get_sat_count s := Z.of_nat (length s) }.

Abbreviation example_step := (health_step (S := list Z) 11 17 4 66 (fun x _ _ : Z => x) (fun d => 20000000 <? d)).
Abbreviation example_run := (health_run (S := list Z) 11 17 4 66 (fun x _ _ : Z => x) (fun d => 20000000 <? d)).

(** NTRIP is enabled, time is known, no observation comes: the alert comes at 20 s. *)
Definition example_events : list (Z * hevent) :=
  [(100, H_ntrip true); (200, H_gps_time 66 1 true); (10000, H_timer NTRIP_OBS); (20000, H_timer NTRIP_OBS)].

Definition example_next (h : @health (list Z) Z) (te : Z * hevent) : @health (list Z) Z :=
  match example_step te.1 h te.2 with Ret (h', _) => h' | _ => h end.
Definition example_state (evs : list (Z * hevent)) : @health (list Z) Z := fold_left example_next evs (health_start 0 None).

Lemma example_runs : 
  example_run 0 (health_start 0 None) example_events [(20000, A_ntrip)] 20000 (example_state example_events).
Proof.
  assert (H0 : example_run 0 (health_start 0 None) [] [] 0 (example_state [])) by constructor.
  assert (H1 : example_run 0 (health_start 0 None) (take 1 example_events) [] 100 (example_state (take 1 example_events)))
    by (eapply run_snoc; [exact H0|reflexivity..| |]; done).
  assert (H2 : example_run 0 (health_start 0 None) (take 2 example_events) [] 200 (example_state (take 2 example_events)))
    by (eapply run_snoc; [exact H1|reflexivity..| |]; done).
  assert (H3 : example_run 0 (health_start 0 None) (take 3 example_events) [] 10000 (example_state (take 3 example_events)))
    by (eapply run_snoc; [exact H2|reflexivity..| |]; done).
  by eapply run_snoc; [exact H3|reflexivity..| |].
Qed.

Lemma health_alerts_sound_witness :
  exists evs1 m evs2, example_events = evs1 ++ (20000, H_timer m) :: evs2 /\
    justified (S := list Z) 11 17 4 66 (fun x _ _ : Z => x) (fun d => 20000000 <? d) 0 None evs1 20000 A_ntrip.
Proof.
  eapply (health_alerts_sound (S := list Z)); [exact example_runs|]. by apply list_elem_of_singleton.
Defined.

(** The same from the time at which GPS time is known, with a message after the alert. *)
Definition example_tail : list (Z * hevent) := [(10000, H_timer NTRIP_OBS); (20000, H_timer NTRIP_OBS); (20001, H_bias 0)].
Definition example_ready : @health (list Z) Z := example_state (take 2 example_events).

Lemma example_tail_runs (k : nat) : (k <= 3)%nat ->
  example_run 200 example_ready (take k example_tail) (if (k <? 2)%nat then [] else [(20000, A_ntrip)])
    (List.nth k [200; 10000; 20000; 20001] 0) (fold_left example_next (take k example_tail) example_ready).
Proof.
  induction k as [|k IH]; intros Hk; [constructor|].
  destruct k as [|[|[|k]]]; [..|lia]; (eapply run_snoc; [apply IH; lia|reflexivity..| |]; done).
Qed.

Lemma example_prompt : prompt (S := list Z) 11 17 4 66 (fun x _ _ : Z => x) (fun d => 20000000 <? d) 0 200 example_ready example_tail.
Proof.
  intros evs1 t2 e evs2 alerts1 t1 h1 Heq Hr.
  assert (evs1 = take (length evs1) example_tail) as Htake by (rewrite Heq; by rewrite take_app_length).
  assert (length evs1 < 3)%nat as Hlen.
  { apply (f_equal length) in Heq. rewrite length_app in Heq. simpl in Heq. lia. }
  rewrite Htake in Hr. destruct (run_det _ _ _ _ _ _ _ _ _ _ _ _ _ _ _ Hr (example_tail_runs (length evs1) ltac:(lia))) as (_ & _ & ->).
  clear Hr. destruct evs1 as [|? [|? [|? ?]]]; unfold example_tail in Heq; simpl in *; simplify_eq/=; try lia; done.
Qed.

Lemma ntrip_alert_complete_witness : exists ta, (ta, @A_ntrip Z) ∈ [(20000, @A_ntrip Z)] /\ ta <= 20000.
Proof.
  eapply (ntrip_alert_complete (S := list Z) 11 17 4 66 (fun x _ _ : Z => x) (fun d => 20000000 <? d) 0 200 example_ready example_tail);
    [done|done|done|done|exact (example_tail_runs 3 ltac:(lia))| |exact example_prompt|done|done].
  repeat constructor; by intros [].
Defined.
