(* ===== verification/MinIni.v ===== *)
(** * INI files ([libpiksi/libpiksi/src/min_ini.c])

    The reading half of the INI parser that the settings daemon uses.  A text is the list of
    its characters; a C string ends before the first NUL.  A [char] is unsigned, as on the
    target.  Pointers into the line buffer are positions in the line that was read. *)

From Stdlib Require Import Ascii.
From S2P Require Import Prelude Libc Text.

Definition quote_char : ascii := ascii_of_nat 34.
Definition backslash_char : ascii := ascii_of_nat 92.

Definition INI_BUFFERSIZE : nat := 512.

(** [fgets] with a buffer of [S n] bytes: a line and the rest of the file, [None] at its end. *)
Fixpoint fgets_loop (n : nat) (file : text) : text * text :=
  match n, file with
  | S n', c :: file' =>
      if bool_decide (c = newline_char) then ([c], file')
      else let '(l, rest) := fgets_loop n' file' in (c :: l, rest)
  | _, _ => ([], file)
  end.
Definition fgets (size : nat) (file : text) : option (text * text) :=
  match file with [] => None | _ => Some (fgets_loop (pred size) file) end.

(** The strings that repeated [ini_read] into a buffer of [INI_BUFFERSIZE] bytes gives. *)
Fixpoint read_lines (fuel : nat) (file : text) : list text :=
  match fuel with
  | O => []
  | S fuel' =>
      match fgets INI_BUFFERSIZE file with
      | Some (l, rest) => c_str l :: read_lines fuel' rest
      | None => []
      end
  end.
Definition ini_lines (file : text) : list text := read_lines (length file) file.

(** [strncasecmp(a, b, n) == 0] *)
Definition strncaseeq (a b : text) (n : nat) : bool := bool_decide (map tolower (take n a) = map tolower (take n b)).

Definition blank (c : ascii) : bool := nat_of_ascii c <=? 32.
Definition skipleading (str : text) : text := drop_while blank str.
(** What lies between [base] and the result of [skiptrailing(str, base)], for the text between
    [base] and [str]. *)
Definition skiptrailing (s : text) : text := rev (drop_while blank (rev s)).
Definition striptrailing (str : text) : text := skiptrailing str.

Inductive quote_option := QUOTE_NONE | QUOTE_ENQUOTE | QUOTE_DEQUOTE.

(** The loop of [QUOTE_DEQUOTE], with room for [n] characters. *)
Fixpoint dequote (n : nat) (source : text) : text :=
  match n, source with
  | S n', c :: source' =>
      match source' with
      | c' :: source'' =>
          if (bool_decide (c = quote_char) || bool_decide (c = backslash_char)) && bool_decide (c' = quote_char)
          then c' :: dequote n' source''
          else c :: dequote n' source'
      | [] => [c]
      end
  | _, _ => []
  end.

(** The loop of [QUOTE_ENQUOTE]: [n] is [maxlen - 2 - d]. *)
Fixpoint enquote (n : nat) (source : text) : text :=
  match source with
  | [] => []
  | c :: source' =>
      match n with
      | O => []
      | S n' =>
          if bool_decide (c = quote_char)
          then match n' with O => [] | S n'' => backslash_char :: c :: enquote n'' source' end
          else c :: enquote n' source'
      end
  end.

Definition save_strncpy (source : text) (maxlen : nat) (option : quote_option) : outcome text :=
  if maxlen =? 0 then Undef
  else
    match (match option with QUOTE_ENQUOTE => if maxlen <? 3 then QUOTE_NONE else option | _ => option end) with
    | QUOTE_NONE => Ret (take (maxlen - 1) source)
    | QUOTE_ENQUOTE => Ret (quote_char :: enquote (maxlen - 3) source ++ [quote_char])
    | QUOTE_DEQUOTE => Ret (dequote (maxlen - 1) source)
    end.

Definition comment_char (c : ascii) : bool := bool_decide (c = ";"%char) || bool_decide (c = "#"%char).

(** The loop of [cleanstring]: what comes before a comment. *)
Fixpoint before_comment (isstring : bool) (s : text) : text :=
  match s with
  | [] => []
  | c :: s1 =>
      if comment_char c && negb isstring then []
      else if bool_decide (c = quote_char) then
        match s1 with
        | c' :: s2 =>
            if bool_decide (c' = quote_char) then c :: c' :: before_comment isstring s2
            else c :: before_comment (negb isstring) s1
        | [] => [c]
        end
      else
        match s1 with
        | c' :: s2 =>
            if bool_decide (c = backslash_char) && bool_decide (c' = quote_char) then c :: c' :: before_comment isstring s2
            else c :: before_comment isstring s1
        | [] => [c]
        end
  end.

Definition cleanstring (string : text) : text * quote_option :=
  let s := striptrailing (before_comment false string) in
  match s with
  | c :: s' =>
      if bool_decide (c = quote_char) && bool_decide (last s = Some quote_char)
      then (removelast s', QUOTE_DEQUOTE)
      else (s, QUOTE_NONE)
  | [] => (s, QUOTE_NONE)
  end.

(** The first loop of [getkeystring]: the lines after the one that ends it, the name of the
    section on that line, and [idx]. *)
Fixpoint find_section (Section : option text) (idxSection : Z) (idx : Z) (ls : list text) : option (list text * text * Z) :=
  match ls with
  | [] => None
  | l :: ls' =>
      let sp := skipleading l in
      let len := length (default [] Section) in
      match sp with
      | c :: name =>
          if negb (bool_decide (c = "["%char)) then find_section Section idxSection idx ls'
          else
            match strchr "]" sp with
            | None => find_section Section idxSection idx ls'
            | Some ep =>
                if negb (ep - 1 =? len) || negb (strncaseeq name (default [] Section) len) then
                  let idx := (idx + 1)%Z in
                  if (idx =? idxSection)%Z then Some (ls', take (ep - 1) name, idx)
                  else find_section Section idxSection idx ls'
                else Some (ls', take (ep - 1) name, idx)
            end
      | [] => find_section Section idxSection idx ls'
      end
  end.

(** The position of the equal sign, or else of the colon. *)
Definition find_equal (sp : text) : option nat :=
  match strchr "=" sp with Some ep => Some ep | None => strchr ":" sp end.

(** The second loop: the line that ends it, the position of its equal sign, and [idx]. *)
Fixpoint find_key (Key : option text) (idxKey : Z) (idx : Z) (ls : list text) : option (text * nat * Z) :=
  match ls with
  | [] => None
  | l :: ls' =>
      let sp := skipleading l in
      let len := length (default [] Key) in
      if bool_decide (head sp = Some "["%char) then None
      else
        match find_equal sp with
        | None => find_key Key idxKey idx ls'
        | Some ep =>
            if bool_decide (head sp = Some ";"%char) || bool_decide (head sp = Some "#"%char) then find_key Key idxKey idx ls'
            else if negb (length (skiptrailing (take ep sp)) =? len) || negb (strncaseeq sp (default [] Key) len) then
              let idx := (idx + 1)%Z in
              if (idx =? idxKey)%Z then Some (sp, ep, idx) else find_key Key idxKey idx ls'
            else Some (sp, ep, idx)
        end
  end.

(** What [getkeystring] stores into [Buffer]; [None] when it returns 0. *)
Definition getkeystring (ls : list text) (Section Key : option text) (idxSection idxKey : Z) (BufferSize : nat) :
    outcome (option text) :=
  let by_key (ls : list text) : outcome (option text) :=
    match find_key Key idxKey (-1) ls with
    | None => Ret None
    | Some (sp, ep, idx) =>
        if (0 <=? idxKey)%Z then
          if (idx =? idxKey)%Z then b ← save_strncpy (striptrailing (take ep sp)) BufferSize QUOTE_NONE; Ret (Some b)
          else Ret None
        else
          let '(v, quotes) := cleanstring (skipleading (drop (S ep) sp)) in
          b ← save_strncpy v BufferSize quotes; Ret (Some b)
    end in
  if (0 <? length (default [] Section)) || (0 <=? idxSection)%Z then
    match find_section Section idxSection (-1) ls with
    | None => Ret None
    | Some (ls', name, idx) =>
        if (0 <=? idxSection)%Z then
          if (idx =? idxSection)%Z then b ← save_strncpy name BufferSize QUOTE_NONE; Ret (Some b) else Ret None
        else by_key ls'
    end
  else by_key ls.

(** [ini_gets]: the string in [Buffer]; the file may not exist. *)
Definition ini_gets (Section : option text) (Key DefValue : text) (BufferSize : nat) (file : option text) : outcome text :=
  match file with
  | Some f =>
      ok ← getkeystring (ini_lines f) Section (Some Key) (-1) (-1) BufferSize;
      match ok with Some b => Ret b | None => save_strncpy DefValue BufferSize QUOTE_NONE end
  | None => save_strncpy DefValue BufferSize QUOTE_NONE
  end.

Example ini_gets_quoted :
  ini_gets (Some (text_of "ntrip")) (text_of "url") [] 64
    (Some (text_of "[uart0]" ++ [newline_char] ++ text_of "url = no" ++ [newline_char] ++
           text_of " [NTRIP]" ++ [newline_char] ++ text_of "Url : ab;c" ++ [newline_char])) = Ret (text_of "ab").
Proof. reflexivity. Qed.

(** ** Reading a file of plain lines *)

Inductive ini_line := Header (section : text) | Entry (key value : text).

Definition line_text (l : ini_line) : text :=
  match l with
  | Header s => "["%char :: (s ++ ["]"%char])
  | Entry k v => k ++ "="%char :: v
  end.
Definition render (doc : list ini_line) : text := concat (map (fun l => line_text l ++ [newline_char]) doc).

(** Texts that come back as they were written: no line breaks; no bracket in the name of a
    section; a key without an equal sign that is not taken for a comment or a section, and
    neither key nor value begins or ends with a blank; no comment sign or quote in a value. *)
Definition in_line (s : text) : Prop := (newline_char ∉ s) /\ (NUL ∉ s).
Definition trimmed (s : text) : Prop :=
  (forall c, head s = Some c -> blank c = false) /\ (forall c, last s = Some c -> blank c = false).
Definition plain_section (s : text) : Prop := in_line s /\ "]"%char ∉ s.
Definition plain_key (k : text) : Prop :=
  in_line k /\ trimmed k /\ ("="%char ∉ k) /\ head k <> Some "["%char /\ head k <> Some ";"%char /\ head k <> Some "#"%char.
Definition plain_value (v : text) : Prop :=
  in_line v /\ trimmed v /\ (";"%char ∉ v) /\ ("#"%char ∉ v) /\ (quote_char ∉ v).
Definition plain_line (l : ini_line) : Prop :=
  match l with
  | Header s => plain_section s /\ length s + 3 < INI_BUFFERSIZE
  | Entry k v => plain_key k /\ plain_value v /\ length k + length v + 2 < INI_BUFFERSIZE
  end.

Definition caseeq (a b : text) : bool := bool_decide (map tolower a = map tolower b).

(** The entry that a reader finds: the first with the key after the first header with the
    name of the section, before the next header; case does not matter. *)
Fixpoint lookup_entry (k : text) (doc : list ini_line) : option text :=
  match doc with
  | [] => None
  | Header _ :: _ => None
  | Entry k' v :: doc' => if caseeq k' k then Some v else lookup_entry k doc'
  end.
Fixpoint lookup_ini (s k : text) (doc : list ini_line) : option text :=
  match doc with
  | [] => None
  | Header s' :: doc' => if caseeq s' s then lookup_entry k doc' else lookup_ini s k doc'
  | Entry _ _ :: doc' => lookup_ini s k doc'
  end.

Lemma fgets_loop_line n l rest : newline_char ∉ l -> length l < n ->
  fgets_loop n (l ++ newline_char :: rest) = (l ++ [newline_char], rest).
Proof.
  revert n. induction l as [|c l IH]; intros [|n] Hn Hl; simpl in *; try lia.
  - done.
  - apply not_elem_of_cons in Hn as [Hc Hn]. rewrite bool_decide_eq_false_2 by done. rewrite IH by (done || lia). done.
Qed.

Lemma line_text_plain l : plain_line l ->
  (newline_char ∉ line_text l) /\ (NUL ∉ line_text l) /\ length (line_text l) < 511.
Proof.
  assert (Hc : forall (c : ascii) (a : text) x b, x <> c -> (c ∉ a) -> (c ∉ b) -> c ∉ a ++ x :: b).
  { intros c a x b Hx Ha Hb Hin. apply elem_of_app in Hin as [?|Hin]; [done|]. by apply elem_of_cons in Hin as [->|?]. }
  destruct l as [s|k v]; simpl; unfold INI_BUFFERSIZE.
  - intros [[[Hn Hz] _] Hlen]. rewrite length_app. simpl.
    split_and!; [..|lia]; (apply (Hc _ [] _ _); [done|by apply not_elem_of_nil|]);
      (apply (Hc _ s _ []); [done|done|by apply not_elem_of_nil]).
  - intros ([[Hn Hz] _] & [[Hn' Hz'] _] & Hlen). rewrite length_app. simpl. split_and!; [..|lia]; by apply Hc.
Qed.

Lemma read_lines_render fuel doc : length (render doc) <= fuel -> Forall plain_line doc ->
  read_lines fuel (render doc) = map (fun l => line_text l ++ [newline_char]) doc.
Proof.
  revert fuel. induction doc as [|l doc IH]; intros fuel Hf Hd; [by destruct fuel|].
  apply Forall_cons in Hd as [Hl Hd]. unfold render in *. simpl in *. rewrite !length_app in Hf. simpl in Hf.
  destruct fuel as [|fuel]; [lia|]. simpl.
  destruct (line_text_plain l Hl) as (Hn & Hz & Hlen).
  unfold fgets. destruct ((line_text l ++ [newline_char]) ++ _) as [|c f] eqn:Ef.
  { by destruct (line_text l). }
  rewrite <- Ef, <- app_assoc. change ([newline_char] ++ ?r) with (newline_char :: r).
  rewrite fgets_loop_line by (done || (unfold INI_BUFFERSIZE; simpl; lia)).
  rewrite c_str_no_nul.
  - f_equal. apply IH; [lia|done].
  - unfold no_nul. rewrite elem_of_app, list_elem_of_singleton. intros [?|?]; done.
Qed.

Lemma ini_lines_render doc : Forall plain_line doc ->
  ini_lines (render doc) = map (fun l => line_text l ++ [newline_char]) doc.
Proof. intros. by apply read_lines_render. Qed.

Lemma strchr_app c s rest : c ∉ s -> strchr c (s ++ c :: rest) = Some (length s).
Proof.
  induction s as [|x s IH]; intros Hc; simpl.
  - by rewrite bool_decide_eq_true_2.
  - apply not_elem_of_cons in Hc as [Hx Hc]. rewrite bool_decide_eq_false_2 by done. by rewrite IH.
Qed.

Lemma skipleading_id s : (forall c, head s = Some c -> blank c = false) -> skipleading s = s.
Proof. destruct s as [|c s]; [done|]. intros Hc. unfold skipleading. simpl. by rewrite (Hc c). Qed.

Lemma skiptrailing_id s : (forall c, last s = Some c -> blank c = false) -> skiptrailing s = s.
Proof.
  intros Hc. unfold skiptrailing. destruct s as [|c s _] using rev_ind; [done|].
  rewrite rev_app_distr. simpl. rewrite (Hc c) by apply last_snoc. simpl. by rewrite rev_involutive.
Qed.

(** Comparing the length and that many characters is comparing the texts. *)
Lemma strncaseeq_caseeq a b rest : 
  negb (length a =? length b) || negb (strncaseeq (a ++ rest) b (length b)) = negb (caseeq a b).
Proof.
  unfold caseeq, strncaseeq. destruct (length a =? length b) eqn:El; simpl; bool_hyps.
  - replace (take (length b) (a ++ rest)) with a by (rewrite <- El; by rewrite take_app_length).
    by rewrite (firstn_all b).
  - symmetry. apply negb_true_iff, bool_decide_eq_false. intros Heq.
    apply (f_equal length) in Heq. rewrite !length_map in Heq. done.
Qed.

Lemma find_section_lines s idx doc : Forall plain_line doc -> (-1 <= idx)%Z ->
  match find_section (Some s) (-1) idx (map (fun l => line_text l ++ [newline_char]) doc) with
  | None => forall k, lookup_ini s k doc = None
  | Some (ls, _, _) => exists doc', Forall plain_line doc' /\ ls = map (fun l => line_text l ++ [newline_char]) doc' /\
      forall k, lookup_ini s k doc = lookup_entry k doc'
  end.
Proof.
  intros Hd. revert idx. induction Hd as [|l doc Hl Hd IH]; intros idx Hidx; simpl; [done|].
  destruct l as [s'|k v]; simpl.
  - destruct Hl as [[[Hn Hz] Hb] _]. rewrite <- app_assoc. simpl.
    replace (bool_decide ("["%char = "]"%char)) with false by done. simpl.
    rewrite strchr_app by done. simpl. rewrite Nat.sub_0_r, strncaseeq_caseeq.
    destruct (caseeq s' s); simpl; [by exists doc|].
    destruct (idx + 1 =? -1)%Z eqn:Ei; bool_hyps; [lia|]. apply IH. lia.
  - destruct Hl as ((_ & [Hh _] & Heq & Hbr & _) & _). rewrite skipleading_id.
    2:{ intros c. destruct k as [|x k]; simpl; [by intros [= <-]|]. intros [= <-]. by apply Hh. }
    destruct k as [|x k]; simpl; [by apply IH|].
    rewrite bool_decide_eq_false_2 by (intros ->; done). simpl. by apply IH.
Qed.

Lemma find_key_lines k idx doc : Forall plain_line doc -> (-1 <= idx)%Z ->
  match find_key (Some k) (-1) idx (map (fun l => line_text l ++ [newline_char]) doc) with
  | None => lookup_entry k doc = None
  | Some (sp, ep, _) => exists v, lookup_entry k doc = Some v /\ plain_value v /\ drop (S ep) sp = v ++ [newline_char]
  end.
Proof.
  intros Hd. revert idx. induction Hd as [|l doc Hl Hd IH]; intros idx Hidx; simpl; [done|].
  destruct l as [s'|k' v]; simpl; [done|].
  destruct Hl as ((_ & [Hh Ht] & Heq & Hbr & Hsc & Hhash) & Hv & _). rewrite skipleading_id.
  2:{ intros c. destruct k' as [|x k']; simpl; [by intros [= <-]|]. intros [= <-]. by apply Hh. }
  assert (Hhead : head ((k' ++ "="%char :: v) ++ [newline_char]) = default (Some "="%char) (Some <$> head k')) by by destruct k'.
  rewrite Hhead. rewrite bool_decide_eq_false_2 by (destruct k'; simpl in *; congruence).
  rewrite <- app_assoc. unfold find_equal. simpl. rewrite strchr_app by done.
  rewrite !bool_decide_eq_false_2 by (destruct k'; simpl in *; congruence). simpl.
  rewrite take_app_length, skiptrailing_id, strncaseeq_caseeq by done.
  destruct (caseeq k' k); simpl.
  - exists v. split_and!; [done..|]. rewrite drop_app_ge by lia.
    replace (S (length k') - length k') with 1 by lia. done.
  - destruct (idx + 1 =? -1)%Z eqn:Ei; bool_hyps; [lia|]. apply IH. lia.
Qed.

Lemma before_comment_plain s b : ";"%char ∉ s -> "#"%char ∉ s -> quote_char ∉ s -> before_comment b s = s.
Proof.
  induction s as [|c s IH]; intros H1 H2 H3; [done|].
  apply not_elem_of_cons in H1 as [? H1], H2 as [? H2], H3 as [? H3]. simpl. unfold comment_char.
  rewrite !(bool_decide_eq_false_2 (c = _)) by done. simpl. rewrite IH by done.
  destruct s as [|c' s]; [done|]. apply not_elem_of_cons in H3 as [? H3].
  rewrite (bool_decide_eq_false_2 (c' = _)) by done. by rewrite andb_false_r.
Qed.

Lemma cleanstring_plain v : plain_value v -> cleanstring (skipleading (v ++ [newline_char])) = (v, QUOTE_NONE).
Proof.
  intros (_ & [Hh Ht] & H1 & H2 & H3). unfold cleanstring.
  destruct v as [|c v]; [done|]. rewrite skipleading_id by (intros c' [= <-]; by apply Hh).
  rewrite before_comment_plain by (rewrite elem_of_app, list_elem_of_singleton; intros [?|?]; done).
  unfold striptrailing. assert (skiptrailing ((c :: v) ++ [newline_char]) = c :: v) as ->.
  { unfold skiptrailing. rewrite rev_app_distr. change (rev [newline_char] ++ ?x) with (newline_char :: x). simpl drop_while.
    change (blank newline_char) with true. simpl. apply (skiptrailing_id (c :: v)). done. }
  apply not_elem_of_cons in H3 as [? _]. by rewrite (bool_decide_eq_false_2 (c = _)) by done.
Qed.

(** Reading a plain file gives the entry, or the default when there is none. *)
Lemma ini_gets_render s k def size doc : Forall plain_line doc -> s <> [] -> 0 < size ->
  (forall v, lookup_ini s k doc = Some v -> length v < size) -> length def < size ->
  ini_gets (Some s) k def size (Some (render doc)) = Ret (default def (lookup_ini s k doc)).
Proof.
  intros Hd Hs Hsize Hlen Hdef. unfold ini_gets, getkeystring. rewrite ini_lines_render by done. simpl.
  assert (Hcopy : forall x : text, length x < size -> save_strncpy x size QUOTE_NONE = Ret x).
  { intros x Hx. unfold save_strncpy. destruct (size =? 0) eqn:E; bool_hyps; [lia|]. by rewrite take_ge by lia. }
  destruct (0 <? length s) eqn:El; bool_hyps; [|destruct s; simpl in *; [done|lia]]. simpl.
  pose proof (find_section_lines s (-1) doc Hd ltac:(lia)) as Hf.
  destruct (find_section _ _ _ _) as [[[ls nm] i]|]; simpl; [|by rewrite Hf, Hcopy by done].
  destruct Hf as (doc' & Hd' & -> & Hl). pose proof (find_key_lines k (-1) doc' Hd' ltac:(lia)) as Hk.
  rewrite Hl. destruct (find_key _ _ _ _) as [[[sp ep] j]|]; simpl; [|by rewrite Hk, Hcopy by done].
  destruct Hk as (v & Hv & Hpl & ->). rewrite cleanstring_plain by done. rewrite (Hcopy v) by (apply Hlen; by rewrite Hl).
  by rewrite Hv.
Qed.
