(* ===== verification/Settings.v ===== *)
(** * The settings daemon ([sbp_settings_daemon/sbp_settings_daemon/src/])

    The daemon keeps the list of all settings of the device, grouped by section, answers
    requests for their values and writes those that were changed to an INI file, from which
    they are read when they are registered again after a restart.

    The layout of the messages is libsettings': [settings_parse] and [settings_format] are
    parameters.  A field of [setting_t]
    is the string it holds; a string that does not fit with its NUL is [Undef], because every
    reader then runs into the next field. *)

From Stdlib Require Import Ascii.
From S2P Require Import Prelude Libc Text MinIni.

Record setting := mk_setting {
  st_section : text;
  st_name : text;
  st_value : text;
  st_type : text;
  st_dirty : bool;
}.

Inductive settings_reg_res := SETTINGS_REG_OK | SETTINGS_REG_OK_PERM | SETTINGS_REG_REGISTERED | SETTINGS_REG_PARSE_FAILED.
Inductive settings_write_res := SETTINGS_WR_SETTING_REJECTED | SETTINGS_WR_PARSE_FAILED.

(** The messages that the daemon sends. *)
Inductive reply :=
  | REGISTER_RESP (payload : text)
  | READ_RESP (payload : text)
  | READ_BY_INDEX_RESP (payload : text)
  | READ_BY_INDEX_DONE
  | WRITE_RESP (payload : text).

(** The messages that it receives. *)
Inductive request :=
  | REGISTER (msg : text)
  | WRITE (msg : text)
  | WRITE_RESP_OF (status : ascii) (msg : text)        (* the answer of the owner of a setting *)
  | READ_REQ (sender_id : Z) (msg : text)
  | READ_BY_INDEX_REQ (sender_id : Z) (msg : text)
  | SAVE (open_ok : bool).                             (* whether the file could be opened *)

Definition SBP_SENDER_ID : Z := 66.
Definition default_value : text := text_of "{2F9D26FF-F64C-4F9F-94FE-AE9F57758835}".

Section daemon.
Variable SETTINGS_BUFLEN : nat.
(** The strings of a message, in order: section, name, value, type. *)
Variable settings_parse : text -> list text.
(** The bytes written into a buffer of the size given; [None] for a result that is not positive. *)
Variable settings_format : text -> text -> text -> option text -> nat -> option text.
Variable write_code : settings_write_res -> ascii.

Record daemon := mk_daemon {
  settings_head : list setting;
  settings_file : option text;       (* the INI file, if there is one *)
}.

(** [strncpy(field, s, sizeof(field))] *)
Definition field (s : text) : outcome text := if length s <? SETTINGS_BUFLEN then Ret s else Undef.

(** ** [setting.c] *)

(** The place of a new setting: after the last of the first group of its section, or at the end. *)
Fixpoint insert_setting (l : list setting) (new : setting) : list setting :=
  match l with
  | [] => [new]
  | it :: l' =>
      match l' with
      | [] => [it; new]
      | next :: _ =>
          if bool_decide (st_section it = st_section new) && negb (bool_decide (st_section next = st_section new))
          then it :: new :: l'
          else it :: insert_setting l' new
      end
  end.

(** The new setting as it is stored, and the result. *)
Definition setting_register (d : daemon) (new : setting) : outcome (daemon * setting * settings_reg_res) :=
  buf ← ini_gets (Some (st_section new)) (st_name new) default_value SETTINGS_BUFLEN (settings_file d);
  if bool_decide (buf = default_value)
  then Ret (mk_daemon (insert_setting (settings_head d) new) (settings_file d), new, SETTINGS_REG_OK)
  else
    v ← field buf;
    let new := mk_setting (st_section new) (st_name new) v (st_type new) true in
    Ret (mk_daemon (insert_setting (settings_head d) new) (settings_file d), new, SETTINGS_REG_OK_PERM).

Definition is_setting (section name : text) (s : setting) : bool :=
  bool_decide (st_section s = section) && bool_decide (st_name s = name).

Fixpoint setting_lookup (l : list setting) (section name : text) : option setting :=
  match l with
  | [] => None
  | it :: l' => if is_setting section name it then Some it else setting_lookup l' section name
  end.

Definition setting_find_by_index (l : list setting) (index : Z) : option setting := l !! Z.to_nat (u16 index).

(** Assigning to the value of the setting that a lookup finds. *)
Fixpoint assign (l : list setting) (section name value : text) : list setting :=
  match l with
  | [] => []
  | it :: l' =>
      if is_setting section name it then mk_setting (st_section it) (st_name it) value (st_type it) true :: l'
      else it :: assign l' section name value
  end.

(** ** [settings_sbp_cb.c] *)

(** [settings_reply]: the payload, [None] when nothing is sent.  [prefix] is what the buffer
    holds before [offset]. *)
Definition settings_reply (sdata : option setting) (type : bool) (prefix : text) (blen : nat) : outcome (option text) :=
  match sdata with
  | None => Undef                                      (* assert(sdata != NULL) *)
  | Some s =>
      Ret ((fun r => prefix ++ r) <$>
        settings_format (st_section s) (st_name s) (st_value s) (if type then Some (st_type s) else None) (blen - length prefix))
  end.

(** [buf[blen++] = res] is stored into a buffer that is not the one that is sent:
    [settings_reply] is given NULL and uses zeros of its own. *)
Definition settings_register_cb (d : daemon) (msg : text) : outcome (daemon * list reply) :=
  match settings_parse msg with
  | section :: name :: value :: rest =>
      x ← match setting_lookup (settings_head d) section name with
          | None =>
              section ← field section;
              name ← field name;
              value ← field value;
              type ← field (default [] (head rest));
              setting_register d (mk_setting section name value type false)
          | Some s => Ret (d, s, SETTINGS_REG_REGISTERED)
          end;
      let '(d, setting, res) := x in
      p ← settings_reply (Some setting) false [NUL] SETTINGS_BUFLEN;
      Ret (d, match p with Some p => [REGISTER_RESP p] | None => [] end)
  | _ =>
      p ← settings_reply None false [NUL] SETTINGS_BUFLEN;
      Ret (d, match p with Some p => [REGISTER_RESP p] | None => [] end)
  end.

Definition settings_write_resp_cb (d : daemon) (status : ascii) (msg : text) : outcome (daemon * list reply) :=
  if negb (bool_decide (status = NUL)) then Ret (d, [])
  else
    match settings_parse msg with
    | section :: name :: value :: _ =>
        match setting_lookup (settings_head d) section name with
        | None => Ret (d, [])
        | Some s =>
            if bool_decide (st_value s = value) then Ret (d, [])
            else
              v ← field value;
              Ret (mk_daemon (assign (settings_head d) section name v) (settings_file d), [])
        end
    | _ => Ret (d, [])
    end.

Definition settings_read_cb (d : daemon) (sender_id : Z) (msg : text) : outcome (daemon * list reply) :=
  if negb (sender_id =? SBP_SENDER_ID)%Z then Ret (d, [])
  else
    match settings_parse msg with
    | section :: name :: _ =>
        match setting_lookup (settings_head d) section name with
        | None => Ret (d, [])
        | Some s => p ← settings_reply (Some s) false [] SETTINGS_BUFLEN;
                    Ret (d, match p with Some p => [READ_RESP p] | None => [] end)
        end
    | _ => Ret (d, [])
    end.

Definition settings_read_by_index_cb (d : daemon) (sender_id : Z) (msg : text) : outcome (daemon * list reply) :=
  if negb (sender_id =? SBP_SENDER_ID)%Z then Ret (d, [])
  else
    match msg with
    | [lo; hi] =>
        let index := (Z.of_nat (nat_of_ascii lo) + 256 * Z.of_nat (nat_of_ascii hi))%Z in
        match setting_find_by_index (settings_head d) index with
        | None => Ret (d, [READ_BY_INDEX_DONE])
        | Some s => p ← settings_reply (Some s) true msg SETTINGS_BUFLEN;
                    Ret (d, match p with Some p => [READ_BY_INDEX_RESP p] | None => [] end)
        end
    | _ => Ret (d, [])
    end.

(** The loop of [settings_save_cb]: what is printed from index [idx] on, after [sec]. *)
Fixpoint save_loop (fuel : nat) (l : list setting) (idx : Z) (sec : option text) : outcome text :=
  match fuel with
  | O => Diverge
  | S fuel' =>
      match setting_find_by_index l idx with
      | None => Ret []
      | Some s =>
          let idx := u16 (idx + 1) in
          if negb (st_dirty s) then save_loop fuel' l idx sec
          else
            let header := if bool_decide (sec = Some (st_section s)) then [] else line_text (Header (st_section s)) ++ [newline_char] in
            rest ← save_loop fuel' l idx (Some (st_section s));
            Ret (header ++ line_text (Entry (st_name s) (st_value s)) ++ [newline_char] ++ rest)
      end
  end.

Definition settings_save_cb (d : daemon) (open_ok : bool) : outcome (daemon * list reply) :=
  if negb open_ok then Ret (d, [])
  else f ← save_loop (S (length (settings_head d))) (settings_head d) 0 None;
       Ret (mk_daemon (settings_head d) (Some f), []).

Definition settings_write_failed (res : settings_write_res) (msg : text) : list reply :=
  [WRITE_RESP (write_code res :: take (Nat.min (SETTINGS_BUFLEN - 1) (length msg)) msg)].

Definition settings_write_cb (d : daemon) (msg : text) : outcome (daemon * list reply) :=
  match settings_parse msg with
  | section :: name :: _ :: _ =>
      match setting_lookup (settings_head d) section name with
      | None => Ret (d, settings_write_failed SETTINGS_WR_SETTING_REJECTED msg)
      | Some _ => Ret (d, [])
      end
  | _ => Ret (d, settings_write_failed SETTINGS_WR_PARSE_FAILED msg)
  end.

(** The callbacks that [settings_setup] registers. *)
Definition settings_step (d : daemon) (r : request) : outcome (daemon * list reply) :=
  match r with
  | REGISTER msg => settings_register_cb d msg
  | WRITE msg => settings_write_cb d msg
  | WRITE_RESP_OF status msg => settings_write_resp_cb d status msg
  | READ_REQ sender_id msg => settings_read_cb d sender_id msg
  | READ_BY_INDEX_REQ sender_id msg => settings_read_by_index_cb d sender_id msg
  | SAVE open_ok => settings_save_cb d open_ok
  end.

Fixpoint settings_run (d : daemon) (rs : list request) : outcome (daemon * list reply) :=
  match rs with
  | [] => Ret (d, [])
  | r :: rs' =>
      x ← settings_step d r;
      y ← settings_run (fst x) rs';
      Ret (fst y, snd x ++ snd y)
  end.

(** The daemon as it starts, with the file that is there. *)
Definition settings_start (file : option text) : daemon := mk_daemon [] file.
End daemon.

(** ** The settings as a map that persists *)

Abbreviation key := (text * text)%type.
Definition st_key (s : setting) : key := (st_section s, st_name s).

(** The value, type and state of a setting. *)
Abbreviation sval := (text * text * bool)%type.
Definition st_val (s : setting) : sval := (st_value s, st_type s, st_dirty s).
Definition settings_map (l : list setting) : gmap key sval := list_to_map (map (fun s => (st_key s, st_val s)) l).

Record spec := mk_spec { sp_settings : gmap key sval; sp_saved : gmap key text }.

(** What the daemon sees, and its restarts. *)
Inductive event := Req (r : request) | Restart.

Section spec.
Variable SETTINGS_BUFLEN : nat.
Variable settings_parse : text -> list text.
Variable settings_format : text -> text -> text -> option text -> nat -> option text.
Variable write_code : settings_write_res -> ascii.

Definition reply_with (f : text -> reply) (prefix : text) (k : key) (v : text) : list reply :=
  match settings_format k.1 k.2 v None (SETTINGS_BUFLEN - length prefix) with Some p => [f (prefix ++ p)] | None => [] end.

(** A setting that is registered takes the value that was saved for it, if there is one, and
    else its default; a changed value is kept; saving keeps what was changed or saved before. *)
Definition spec_step (sp : spec) (e : event) : spec * list reply :=
  match e with
  | Restart => (mk_spec ∅ (sp_saved sp), [])
  | Req (REGISTER msg) =>
      match settings_parse msg with
      | section :: name :: value :: rest =>
          let k := (section, name) in
          match sp_settings sp !! k with
          | Some (v, _, _) => (sp, reply_with REGISTER_RESP [NUL] k v)
          | None =>
              let '(v, dirty) := match sp_saved sp !! k with Some v => (v, true) | None => (value, false) end in
              (mk_spec (<[k := (v, default [] (head rest), dirty)]> (sp_settings sp)) (sp_saved sp),
               reply_with REGISTER_RESP [NUL] k v)
          end
      | _ => (sp, [])
      end
  | Req (WRITE msg) =>
      match settings_parse msg with
      | section :: name :: _ :: _ =>
          (sp, if decide (is_Some (sp_settings sp !! (section, name))) then []
               else settings_write_failed SETTINGS_BUFLEN write_code SETTINGS_WR_SETTING_REJECTED msg)
      | _ => (sp, settings_write_failed SETTINGS_BUFLEN write_code SETTINGS_WR_PARSE_FAILED msg)
      end
  | Req (WRITE_RESP_OF status msg) =>
      match settings_parse msg with
      | section :: name :: value :: _ =>
          match sp_settings sp !! (section, name) with
          | Some (v, type, _) =>
              if bool_decide (status = NUL /\ v <> value)
              then (mk_spec (<[(section, name) := (value, type, true)]> (sp_settings sp)) (sp_saved sp), [])
              else (sp, [])
          | None => (sp, [])
          end
      | _ => (sp, [])
      end
  | Req (READ_REQ sender_id msg) =>
      match settings_parse msg with
      | section :: name :: _ =>
          match sp_settings sp !! (section, name) with
          | Some (v, _, _) => (sp, if (sender_id =? SBP_SENDER_ID)%Z then reply_with READ_RESP [] (section, name) v else [])
          | None => (sp, [])
          end
      | _ => (sp, [])
      end
  | Req (READ_BY_INDEX_REQ _ _) => (sp, [])
  | Req (SAVE open_ok) =>
      if (open_ok : bool) then (mk_spec (sp_settings sp) (omap (fun '(v, _, dirty) => if (dirty : bool) then Some v else None) (sp_settings sp)), [])
      else (sp, [])
  end.

Fixpoint spec_run (sp : spec) (es : list event) : spec * list reply :=
  match es with
  | [] => (sp, [])
  | e :: es' => let '(sp1, out) := spec_step sp e in let '(sp2, out') := spec_run sp1 es' in (sp2, out ++ out')
  end.

Definition event_step (d : daemon) (e : event) : outcome (daemon * list reply) :=
  match e with
  | Req r => settings_step SETTINGS_BUFLEN settings_parse settings_format write_code d r
  | Restart => Ret (settings_start (settings_file d), [])
  end.
Fixpoint event_run (d : daemon) (es : list event) : outcome (daemon * list reply) :=
  match es with
  | [] => Ret (d, [])
  | e :: es' =>
      x ← event_step d e;
      y ← event_run (fst x) es';
      Ret (fst y, snd x ++ snd y)
  end.

(** The settings of the device: their names can be written in an INI file and told apart in
    it, where case does not matter; a list can be walked with a 16-bit index. *)
Variable catalog : list key.
Record catalog_ok : Prop := {
  cat_section s n : (s, n) ∈ catalog -> plain_section s /\ s <> [] /\ length s < SETTINGS_BUFLEN /\ length s + 3 < INI_BUFFERSIZE;
  cat_name s n : (s, n) ∈ catalog -> plain_key n /\ length n < SETTINGS_BUFLEN;
  cat_distinct s n s' n' : (s, n) ∈ catalog -> (s', n') ∈ catalog -> caseeq s s' = true ->
    s = s' /\ (caseeq n n' = true -> n = n');
  cat_size : (Z.of_nat (length catalog) < 65536)%Z;
  cat_buflen : length default_value < SETTINGS_BUFLEN;
}.

(** A value of a setting that survives in the file. *)
Definition value_ok (n v : text) : Prop :=
  plain_value v /\ length v < SETTINGS_BUFLEN /\ length n + length v + 2 < INI_BUFFERSIZE /\ v <> default_value.

(** Messages about the settings of the device. *)
Definition event_ok (e : event) : Prop :=
  match e with
  | Req (REGISTER msg) =>
      exists s n v rest, settings_parse msg = s :: n :: v :: rest /\ (s, n) ∈ catalog /\ value_ok n v /\
        length (default [] (head rest)) < SETTINGS_BUFLEN
  | Req (WRITE_RESP_OF _ msg) => exists s n v rest, settings_parse msg = s :: n :: v :: rest /\ value_ok n v
  | Req (READ_BY_INDEX_REQ _ _) => False
  | _ => True
  end.

(** ** The list and the map *)

Lemma is_setting_true s n x : is_setting s n x = true <-> st_key x = (s, n).
Proof. unfold is_setting, st_key. rewrite andb_true_iff, !bool_decide_eq_true. split; [intros [-> ->]|intros [= -> ->]]; done. Qed.

Lemma is_setting_false s n x : is_setting s n x = false <-> st_key x <> (s, n).
Proof. rewrite <- is_setting_true. by destruct (is_setting s n x). Qed.

Lemma settings_map_lookup l s n : settings_map l !! (s, n) = st_val <$> setting_lookup l s n.
Proof.
  induction l as [|x l IH]; simpl; [done|]. unfold settings_map in *. simpl. destruct (is_setting s n x) eqn:E.
  - apply is_setting_true in E. by rewrite E, lookup_insert_eq.
  - apply is_setting_false in E. by rewrite lookup_insert_ne, IH.
Qed.

Lemma insert_setting_perm l new : insert_setting l new ≡ₚ new :: l.
Proof.
  induction l as [|x l IH]; [done|]. simpl. destruct l as [|y l]; [apply perm_swap|].
  destruct (_ && _); [apply perm_swap|]. rewrite IH. apply perm_swap.
Qed.

Lemma settings_map_insert l new : settings_map l !! st_key new = None ->
  settings_map (insert_setting l new) = <[st_key new := st_val new]> (settings_map l).
Proof.
  unfold settings_map. intros Hn. induction l as [|x l IH]; [done|]. simpl in *.
  apply lookup_insert_None in Hn as [Hn Hx]. destruct l as [|y l]; simpl in *.
  - by rewrite insert_insert_ne.
  - destruct (_ && _); simpl; [by rewrite insert_insert_ne|]. simpl in IH. rewrite IH by done. by rewrite insert_insert_ne.
Qed.

Lemma settings_map_assign l s n v x : setting_lookup l s n = Some x ->
  settings_map (assign l s n v) = <[(s, n) := (v, st_type x, true)]> (settings_map l).
Proof.
  unfold settings_map. induction l as [|y l IH]; simpl; [done|]. destruct (is_setting s n y) eqn:E.
  - intros [= ->]. apply is_setting_true in E. simpl. rewrite <- E. unfold st_key; simpl. by rewrite insert_insert_eq.
  - apply is_setting_false in E. intros Hl. simpl. rewrite IH by done. by rewrite insert_insert_ne.
Qed.

(** ** Sections are contiguous *)

Fixpoint grouped (l : list setting) : Prop :=
  match l with
  | [] => True
  | x :: l' => grouped l' /\ (st_section x ∈ map st_section l' -> head (map st_section l') = Some (st_section x))
  end.

Lemma insert_setting_head l new x : head l = Some x -> head (insert_setting l new) = Some x.
Proof. destruct l as [|y [|z l]]; simpl; try done. by destruct (_ && _). Qed.

Lemma insert_setting_grouped l new : grouped l -> grouped (insert_setting l new).
Proof.
  induction l as [|x l IH]; simpl; [by intros; split; [|inversion 1]|]. intros [Hg Hx].
  destruct l as [|y l]; simpl in *.
  - split_and!; try done; [by inversion 1|]. intros Hin. apply list_elem_of_singleton in Hin. by rewrite Hin.
  - destruct (bool_decide _ && _) eqn:E; simpl.
    + apply andb_true_iff in E as [E1%bool_decide_eq_true E2%negb_true_iff%bool_decide_eq_false].
      destruct Hg as [Hg Hy]. split; [split; [done|]|].
      * intros Hin. rewrite <- E1 in Hin. apply Hx in Hin. simplify_eq. congruence.
      * intros _. by rewrite E1.
    + split; [by apply IH|]. intros Hin.
      assert (head (map st_section (insert_setting (y :: l) new)) = Some (st_section y)) as Hh.
      { pose proof (insert_setting_head (y :: l) new y eq_refl) as Hh. by destruct (insert_setting (y :: l) new); simplify_eq/=. }
      simpl in Hh. rewrite Hh.
      assert (st_section x = st_section new \/ st_section x ∈ st_section y :: map st_section l) as [Hs|Hs].
      { apply list_elem_of_fmap in Hin as (z & Hz & Hin). pose proof (insert_setting_perm (y :: l) new) as Hp. simpl in Hp. rewrite Hp in Hin.
        apply elem_of_cons in Hin as [->|Hin]; [by left|right]. rewrite Hz. by apply (list_elem_of_fmap_2 st_section) in Hin. }
      * rewrite (bool_decide_eq_true_2 _ Hs) in E. simpl in E. apply negb_false_iff, bool_decide_eq_true in E. congruence.
      * by apply Hx.
Qed.

(** ** What is saved *)

(** The lines that are written for [l], when the last header was for [sec]. *)
Fixpoint doc_of (sec : option text) (l : list setting) : list ini_line :=
  match l with
  | [] => []
  | s :: l' =>
      if st_dirty s then
        (if bool_decide (sec = Some (st_section s)) then [] else [Header (st_section s)]) ++
        Entry (st_name s) (st_value s) :: doc_of (Some (st_section s)) l'
      else doc_of sec l'
  end.

Lemma save_loop_doc l fuel idx sec : (Z.of_nat (length l) < 65536)%Z -> idx <= length l -> length l - idx < fuel ->
  save_loop fuel l (Z.of_nat idx) sec = Ret (render (doc_of sec (drop idx l))).
Proof.
  intros Hl. revert idx sec. induction fuel as [|fuel IH]; intros idx sec Hi Hf; [lia|]. cbn [save_loop].
  unfold setting_find_by_index. rewrite u16_small by lia. rewrite Nat2Z.id.
  destruct (l !! idx) as [s|] eqn:Es.
  - assert (idx < length l) as Hlt by by eapply lookup_lt_Some. rewrite (drop_S _ _ _ Es). simpl.
    replace (Z.of_nat idx + 1)%Z with (Z.of_nat (S idx)) by lia. rewrite u16_small by lia.
    destruct (st_dirty s); simpl; rewrite IH by lia; [|done]. simpl. f_equal.
    unfold render. destruct (bool_decide _); simpl; by repeat (rewrite <- ?app_assoc; simpl).
  - apply lookup_ge_None_1 in Es. by rewrite drop_ge.
Qed.

(** The first changed setting with a given key. *)
Fixpoint dirty_lookup (l : list setting) (s n : text) : option text :=
  match l with
  | [] => None
  | x :: l' => if is_setting s n x && st_dirty x then Some (st_value x) else dirty_lookup l' s n
  end.

(** The settings that the list may hold. *)
Definition setting_ok (x : setting) : Prop :=
  st_key x ∈ catalog /\ value_ok (st_name x) (st_value x).

Hypothesis Hcat : catalog_ok.

Lemma dirty_lookup_absent l s n : s ∉ map st_section l -> dirty_lookup l s n = None.
Proof.
  induction l as [|x l IH]; simpl; [done|]. intros [Hx Hl]%not_elem_of_cons.
  destruct (is_setting s n x) eqn:E; [|by apply IH]. apply is_setting_true in E. by injection E as <- _.
Qed.

Lemma lookup_entry_doc l s n : Forall setting_ok l -> grouped l -> (s, n) ∈ catalog ->
  (s ∈ map st_section l -> head (map st_section l) = Some s) ->
  lookup_entry n (doc_of (Some s) l) = dirty_lookup l s n.
Proof.
  intros Hok. induction Hok as [|x l [Hx _] Hok IH]; simpl; [done|]. intros [Hg Hh] Hin Hhead.
  destruct (decide (st_section x = s)) as [Es|Es].
  - assert (lookup_entry n (doc_of (Some s) l) = dirty_lookup l s n) as Hrest by (apply IH; try done; by rewrite <- Es).
    destruct (st_dirty x); [|by rewrite andb_false_r]. rewrite bool_decide_eq_true_2 by congruence. simpl. rewrite Es, Hrest, andb_true_r.
    unfold is_setting. rewrite (bool_decide_eq_true_2 _ Es). simpl. unfold caseeq.
    destruct (decide (st_name x = n)) as [En|En]; [by rewrite !bool_decide_eq_true_2 by congruence|].
    rewrite (bool_decide_eq_false_2 (st_name x = n)) by done. rewrite bool_decide_eq_false_2; [done|]. intros Hc. apply En.
    eapply (cat_distinct Hcat); [exact Hx|exact Hin| |]; by apply bool_decide_eq_true_2; rewrite ?Es.
  - assert (s ∉ map st_section l) as Hno.
    { intros Hs. assert (Some (st_section x) = Some s) by (apply Hhead; by right). congruence. }
    rewrite (proj2 (is_setting_false s n x)) by (unfold st_key; congruence). simpl.
    rewrite dirty_lookup_absent by done. destruct (st_dirty x).
    + by rewrite bool_decide_eq_false_2 by congruence.
    + rewrite IH, dirty_lookup_absent; done.
Qed.

Lemma lookup_ini_doc l sec s n : Forall setting_ok l -> grouped l -> (s, n) ∈ catalog -> sec <> Some s ->
  lookup_ini s n (doc_of sec l) = dirty_lookup l s n.
Proof.
  intros Hok. revert sec. induction Hok as [|x l [Hx Hv] Hok IH]; simpl; [done|]. intros sec [Hg Hh] Hin Hsec.
  destruct (st_dirty x) eqn:Ed; [|rewrite andb_false_r; by apply IH]. rewrite andb_true_r.
  destruct (decide (st_section x = s)) as [Es|Es].
  - rewrite bool_decide_eq_false_2 by congruence. simpl. unfold caseeq at 1. rewrite bool_decide_eq_true_2 by congruence.
    transitivity (lookup_entry n (doc_of (Some s) (x :: l))).
    { simpl. by rewrite Ed, bool_decide_eq_true_2 by congruence. }
    rewrite lookup_entry_doc; simpl; try done; [|by constructor|by rewrite Es]. by rewrite Ed, andb_true_r.
  - rewrite (proj2 (is_setting_false s n x)) by (unfold st_key; congruence).
    rewrite <- (IH (Some (st_section x))) by (done || congruence).
    destruct (bool_decide _); simpl; [done|]. unfold caseeq at 1. rewrite bool_decide_eq_false_2; [done|].
    intros Hc. apply Es. destruct (cat_distinct Hcat _ _ _ _ Hx Hin) as [? _]; [by apply bool_decide_eq_true_2|done].
Qed.

Lemma dirty_lookup_map l s n : NoDup (map st_key l) ->
  dirty_lookup l s n = settings_map l !! (s, n) ≫= (fun '(v, _, dirty) => if (dirty : bool) then Some v else None).
Proof.
  induction l as [|x l IH]; simpl; [done|]. intros [Hx Hd]%NoDup_cons. rewrite settings_map_lookup in *. simpl.
  destruct (is_setting s n x) eqn:E; simpl; [|by apply IH]. destruct (st_dirty x); [done|].
  apply is_setting_true in E. rewrite IH by done. 
  destruct (setting_lookup l s n) as [y|] eqn:El; [|done]. exfalso. apply Hx. rewrite E.
  clear -El. induction l as [|z l IH]; simpl in *; [done|]. destruct (is_setting s n z) eqn:E; [|right; auto].
  apply is_setting_true in E. rewrite E. left.
Qed.

Lemma doc_of_plain l sec : Forall setting_ok l -> Forall plain_line (doc_of sec l).
Proof.
  intros Hok. revert sec. induction Hok as [|x l [Hx Hv] Hok IH]; intros sec; simpl; [constructor|].
  destruct (st_dirty x); [|done]. apply Forall_app. split.
  - destruct (bool_decide _); [constructor|]. constructor; [|constructor].
    by destruct (cat_section Hcat _ _ Hx) as (? & ? & ? & ?).
  - constructor; [|done]. destruct Hv as (? & ? & ? & ?). split_and!; try done. by apply (cat_name Hcat _ _ Hx).
Qed.

(** ** The refinement *)

(** The file holds what was saved. *)
Definition file_rel (file : option text) (saved : gmap key text) : Prop :=
  match file with
  | None => saved = ∅
  | Some f => exists doc, f = render doc /\ Forall plain_line doc /\
      forall s n, (s, n) ∈ catalog -> lookup_ini s n doc = saved !! (s, n)
  end /\ forall s n v, saved !! (s, n) = Some v -> value_ok n v.

Record daemon_rel (d : daemon) (sp : spec) : Prop := {
  dr_grouped : grouped (settings_head d);
  dr_nodup : NoDup (map st_key (settings_head d));
  dr_ok : Forall setting_ok (settings_head d);
  dr_map : settings_map (settings_head d) = sp_settings sp;
  dr_file : file_rel (settings_file d) (sp_saved sp);
}.

Lemma daemon_rel_lookup d sp s n : daemon_rel d sp ->
  sp_settings sp !! (s, n) = st_val <$> setting_lookup (settings_head d) s n.
Proof. intros []. rewrite <- dr_map0. apply settings_map_lookup. Qed.

Lemma daemon_rel_size d sp : daemon_rel d sp -> (Z.of_nat (length (settings_head d)) < 65536)%Z.
Proof.
  intros []. pose proof (cat_size Hcat). enough (length (map st_key (settings_head d)) <= length catalog) as Hle.
  { rewrite length_map in Hle. lia. }
  apply submseteq_length, NoDup_submseteq; [done|]. intros k Hk. apply list_elem_of_fmap in Hk as (x & -> & Hx).
  rewrite Forall_forall in dr_ok0. by apply dr_ok0.
Qed.

(** What reading the file gives for a setting. *)
Lemma ini_gets_saved d sp s n : daemon_rel d sp -> (s, n) ∈ catalog ->
  ini_gets (Some s) n default_value SETTINGS_BUFLEN (settings_file d) = Ret (default default_value (sp_saved sp !! (s, n))).
Proof.
  intros [_ _ _ _ [Hf Hv]] Hin. pose proof (cat_buflen Hcat) as Hb. destruct (settings_file d) as [f|].
  - destruct Hf as (doc & -> & Hpl & Hl). rewrite ini_gets_render; try done; [by rewrite Hl|by apply (cat_section Hcat _ _ Hin)|lia|].
    intros v Hlv. rewrite Hl in Hlv by done. by apply Hv in Hlv as (_ & ? & _).
  - rewrite Hf, lookup_empty. simpl. unfold save_strncpy. destruct (SETTINGS_BUFLEN =? 0) eqn:E; bool_hyps; [lia|].
    by rewrite take_ge by lia.
Qed.

Lemma field_ok v : length v < SETTINGS_BUFLEN -> field SETTINGS_BUFLEN v = Ret v.
Proof. intros Hv. unfold field. by destruct (_ <? _) eqn:E; bool_hyps; [|lia]. Qed.

Lemma setting_lookup_key l s n x : setting_lookup l s n = Some x -> x ∈ l /\ st_key x = (s, n).
Proof.
  induction l as [|y l IH]; simpl; [done|]. destruct (is_setting s n y) eqn:E.
  - intros [= ->]. apply is_setting_true in E. split; [left|done].
  - intros Hl. destruct (IH Hl). split; [by right|done].
Qed.

Lemma register_rel d sp x : daemon_rel d sp -> setting_ok x -> sp_settings sp !! st_key x = None ->
  daemon_rel (mk_daemon (insert_setting (settings_head d) x) (settings_file d))
    (mk_spec (<[st_key x := st_val x]> (sp_settings sp)) (sp_saved sp)).
Proof.
  intros [] Hx Hn. constructor; simpl; try done.
  - by apply insert_setting_grouped.
  - rewrite insert_setting_perm. simpl. apply NoDup_cons. split; [|done]. intros Hin.
    apply list_elem_of_fmap in Hin as (y & Hy & Hin). rewrite <- dr_map0, Hy in Hn. unfold st_key in Hn. rewrite settings_map_lookup in Hn.
    clear -Hn Hin. induction (settings_head d) as [|z l IH]; [by inversion Hin|]. simpl in Hn.
    destruct (is_setting _ _ z) eqn:E; [done|]. apply elem_of_cons in Hin as [->|Hin]; [|by apply IH].
    by apply is_setting_false in E.
  - rewrite insert_setting_perm. by constructor.
  - rewrite settings_map_insert; [by rewrite dr_map0|]. by rewrite dr_map0.
Qed.

Lemma assign_keys l s n v : map st_key (assign l s n v) = map st_key l /\ map st_section (assign l s n v) = map st_section l.
Proof. induction l as [|x l [IH1 IH2]]; simpl; [done|]. destruct (is_setting _ _ _); simpl; [done|]. by rewrite IH1, IH2. Qed.

Lemma grouped_sections l l' : map st_section l = map st_section l' -> grouped l -> grouped l'.
Proof.
  revert l'. induction l as [|x l IH]; intros [|y l'] E; simplify_eq/=; [done|]. intros [Hg Hh].
  split; [by apply IH|]. by rewrite <- H, <- H0.
Qed.

Lemma assign_rel d sp s n v x : daemon_rel d sp -> setting_lookup (settings_head d) s n = Some x -> value_ok n v ->
  daemon_rel (mk_daemon (assign (settings_head d) s n v) (settings_file d))
    (mk_spec (<[(s, n) := (v, st_type x, true)]> (sp_settings sp)) (sp_saved sp)).
Proof.
  intros [] Hl Hv. destruct (assign_keys (settings_head d) s n v) as [Hk Hs]. constructor; simpl; try done.
  - by eapply grouped_sections.
  - by rewrite Hk.
  - clear -dr_ok0 Hv. induction dr_ok0 as [|y l Hy Hok IH]; simpl; [constructor|]. destruct (is_setting s n y) eqn:E; constructor; try done.
    destruct Hy as [Hy _]. apply is_setting_true in E. split; simpl; [done|]. unfold st_key in E. by injection E as _ ->.
  - by rewrite (settings_map_assign _ _ _ _ _ Hl), dr_map0.
Qed.

Lemma save_rel d sp : daemon_rel d sp ->
  exists f, save_loop (S (length (settings_head d))) (settings_head d) 0 None = Ret f /\
    daemon_rel (mk_daemon (settings_head d) (Some f))
      (mk_spec (sp_settings sp) (omap (fun '(v, _, dirty) => if (dirty : bool) then Some v else None) (sp_settings sp))).
Proof.
  intros Hr. pose proof (daemon_rel_size _ _ Hr). destruct Hr.
  exists (render (doc_of None (settings_head d))). split; [by apply (save_loop_doc _ _ 0); [|lia..]|].
  constructor; simpl; try done. split.
  - exists (doc_of None (settings_head d)). split_and!; [done|by apply doc_of_plain|]. intros s n Hin.
    rewrite lookup_ini_doc, dirty_lookup_map, dr_map0 by done. by rewrite lookup_omap.
  - intros s n v. rewrite lookup_omap, <- dr_map0, settings_map_lookup.
    destruct (setting_lookup _ s n) as [x|] eqn:El; simpl; [|done]. destruct (st_dirty x); [|done]. intros [= <-].
    apply setting_lookup_key in El as [Hin Hk]. rewrite Forall_forall in dr_ok0. destruct (dr_ok0 x Hin) as [_ Hv].
    unfold st_key in Hk. by injection Hk as _ <-.
Qed.

Lemma reply_spec f prefix s n x : st_key x = (s, n) ->
  match (fun r => prefix ++ r) <$> settings_format (st_section x) (st_name x) (st_value x) None (SETTINGS_BUFLEN - length prefix) with
  | Some p => [f p]
  | None => []
  end = reply_with f prefix (s, n) (st_value x).
Proof.
  intros Hk. unfold st_key in Hk. injection Hk as <- <-. unfold reply_with. simpl. by destruct (settings_format _ _ _ _ _).
Qed.

Lemma register_step d sp msg : daemon_rel d sp -> event_ok (Req (REGISTER msg)) ->
  exists d', event_step d (Req (REGISTER msg)) = Ret (d', (spec_step sp (Req (REGISTER msg))).2) /\
    daemon_rel d' (spec_step sp (Req (REGISTER msg))).1.
Proof.
  intros Hr (s & n & v & rest & Hp & Hin & Hv & Ht). simpl. unfold settings_register_cb. rewrite Hp. simpl.
  rewrite (daemon_rel_lookup d sp s n Hr). destruct (setting_lookup (settings_head d) s n) as [x|] eqn:El; simpl.
  { exists d. split; [|done]. do 2 f_equal. apply (reply_spec REGISTER_RESP [NUL]). by apply setting_lookup_key in El as [_ ?]. }
  assert (Hnone : sp_settings sp !! (s, n) = None) by by rewrite (daemon_rel_lookup d sp s n Hr), El.
  destruct (cat_section Hcat _ _ Hin) as (_ & _ & Hs & _), (cat_name Hcat _ _ Hin) as (_ & Hn).
  rewrite !field_ok by (done || apply Hv). simpl. unfold setting_register. simpl.
  rewrite (ini_gets_saved d sp s n Hr Hin). simpl.
  destruct (sp_saved sp !! (s, n)) as [w|] eqn:Ew; simpl.
  - assert (value_ok n w) as Hw by by destruct Hr as [_ _ _ _ [_ Hsv]]; apply Hsv in Ew.
    rewrite bool_decide_eq_false_2 by apply Hw. rewrite field_ok by apply Hw. simpl.
    eexists. split; [do 2 f_equal; by apply (reply_spec REGISTER_RESP [NUL] s n (mk_setting s n w [] true))|].
    apply (register_rel d sp (mk_setting s n w (default [] (head rest)) true)); [done| |done]. by split.
  - rewrite ?bool_decide_eq_true_2 by done. simpl.
    eexists. split; [do 2 f_equal; by apply (reply_spec REGISTER_RESP [NUL] s n (mk_setting s n v [] false))|].
    apply (register_rel d sp (mk_setting s n v (default [] (head rest)) false)); [done| |done]. by split.
Qed.

Lemma write_resp_step d sp status msg : daemon_rel d sp -> event_ok (Req (WRITE_RESP_OF status msg)) ->
  exists d', event_step d (Req (WRITE_RESP_OF status msg)) = Ret (d', (spec_step sp (Req (WRITE_RESP_OF status msg))).2) /\
    daemon_rel d' (spec_step sp (Req (WRITE_RESP_OF status msg))).1.
Proof.
  intros Hr (s & n & v & rest & Hp & Hv). simpl. unfold settings_write_resp_cb. rewrite Hp. simpl.
  rewrite (daemon_rel_lookup d sp s n Hr). destruct (setting_lookup (settings_head d) s n) as [x|] eqn:El; simpl.
  2:{ exists d. by destruct (bool_decide (status = NUL)). }
  destruct (decide (status = NUL)) as [->|Hst].
  - rewrite (bool_decide_eq_true_2 (NUL = NUL)) by done. simpl. destruct (decide (st_value x = v)) as [Ex|Ex].
    + rewrite (bool_decide_eq_true_2 _ Ex), (bool_decide_eq_false_2 (NUL = NUL /\ _)) by (intros []; done). by exists d.
    + rewrite (bool_decide_eq_false_2 _ Ex), (bool_decide_eq_true_2 (NUL = NUL /\ _)), field_ok by (done || apply Hv).
      simpl. eexists. split; [done|]. by apply assign_rel.
  - rewrite (bool_decide_eq_false_2 _ Hst), (bool_decide_eq_false_2 (status = NUL /\ _)) by (intros []; done). by exists d.
Qed.

Lemma event_step_refines d sp e : daemon_rel d sp -> event_ok e ->
  exists d', event_step d e = Ret (d', (spec_step sp e).2) /\ daemon_rel d' (spec_step sp e).1.
Proof.
  intros Hr He. destruct e as [[msg|msg|status msg|sender msg|sender msg|ok]|].
  - by apply register_step.
  - simpl. unfold settings_write_cb. exists d. destruct (settings_parse msg) as [|s [|n [|v rest]]]; try by split.
    rewrite (daemon_rel_lookup d sp s n Hr). by destruct (setting_lookup _ s n).
  - by apply write_resp_step.
  - simpl. unfold settings_read_cb. exists d. destruct (settings_parse msg) as [|s [|n rest]]; try by destruct (sender =? _)%Z.
    rewrite (daemon_rel_lookup d sp s n Hr). destruct (setting_lookup (settings_head d) s n) as [x|] eqn:El; simpl;
      destruct (sender =? _)%Z; simpl; try by split.
    split; [|done]. do 2 f_equal. apply (reply_spec READ_RESP []). by apply setting_lookup_key in El as [_ ?].
  - done.
  - destruct ok; [|by exists d]. destruct (save_rel d sp Hr) as (f & Ef & Hf).
    unfold event_step, settings_step, settings_save_cb. cbn [negb]. rewrite Ef, bind_Ret. by eexists.
  - simpl. exists (settings_start (settings_file d)). split; [done|]. destruct Hr.
    by constructor; simpl; [|apply NoDup_nil|constructor|..].
Qed.

End spec.

(** A registration request.  One that does not name a section, a name and a value aborts the
    daemon, which asserts that there is a setting to report; and the status byte of every
    answer is 0, whether the setting was new, had a saved value or was registered already,
    because the result is stored into a buffer that is not sent. *)
Theorem settings_register_status BUFLEN parse format d msg :
  (length (parse msg) < 3 -> settings_register_cb BUFLEN parse format d msg = Undef) /\
  (forall d' out p, settings_register_cb BUFLEN parse format d msg = Ret (d', out) -> REGISTER_RESP p ∈ out ->
     head p = Some NUL).
Proof.
  split.
  - unfold settings_register_cb. destruct (parse msg) as [|? [|? [|? ?]]]; simpl; try done. lia.
  - intros d' out p. unfold settings_register_cb, settings_reply. destruct (parse msg) as [|s [|n [|v rest]]]; simpl; try done.
    intros E. apply outcome_bind_Ret in E as ([[d1 x] res] & _ & E). simpl in E.
    destruct (format _ _ _ _ _); simpl in E; simplify_eq; [|by inversion 1].
    intros Hin. apply list_elem_of_singleton in Hin. by injection Hin as ->.
Qed.

(** ** Witnesses *)

(** Messages whose strings end with a NUL each. *)
Fixpoint example_parse_from (acc : text) (msg : text) : list text :=
  match msg with
  | [] => []
  | c :: msg' => if bool_decide (c = NUL) then acc :: example_parse_from [] msg' else example_parse_from (acc ++ [c]) msg'
  end.
Definition example_parse : text -> list text := example_parse_from [].
Definition example_message (tokens : list text) : text := concat (map (fun t => t ++ [NUL]) tokens).
Definition example_format (s n v : text) (type : option text) (size : nat) : option text :=
  let m := example_message ([s; n; v] ++ match type with Some t => [t] | None => [] end) in
  if length m <=? size then Some m else None.
Definition example_code (r : settings_write_res) : ascii :=
  match r with SETTINGS_WR_SETTING_REJECTED => "002"%char | SETTINGS_WR_PARSE_FAILED => "003"%char end.

Definition example_catalog : list (text * text) :=
  [(text_of "uart0", text_of "mode"); (text_of "ntrip", text_of "url"); (text_of "uart0", text_of "baud")].

(** The mode of a port is changed and saved, and read after a restart. *)
Definition example_events : list event :=
  [Req (REGISTER (example_message [text_of "uart0"; text_of "mode"; text_of "SBP"]));
   Req (REGISTER (example_message [text_of "ntrip"; text_of "url"; text_of "example.com:2101/MSM4"]));
   Req (REGISTER (example_message [text_of "uart0"; text_of "baud"; text_of "115200"]));
   Req (WRITE_RESP_OF NUL (example_message [text_of "uart0"; text_of "mode"; text_of "NMEA OUT"]));
   Req (SAVE true); Restart;
   Req (REGISTER (example_message [text_of "uart0"; text_of "mode"; text_of "SBP"]));
   Req (READ_REQ 66 (example_message [text_of "uart0"; text_of "mode"]))].

Ltac solve_plain :=
  unfold plain_section, plain_key, plain_value, in_line, trimmed;
  repeat match goal with
  | |- _ /\ _ => split
  | |- _ ∉ _ => apply (bool_decide_unpack _); by vm_compute
  | |- forall c, _ = Some c -> _ => intros ? [= <-]; reflexivity
  | |- _ <> _ => discriminate
  | |- (_ < _)%nat => apply (bool_decide_unpack _); by vm_compute
  end.

Lemma example_catalog_ok : catalog_ok 255 example_catalog.
Proof.
  unfold example_catalog. split.
  - intros s n Hin. repeat (apply elem_of_cons in Hin as [[= -> ->]|Hin]; [by solve_plain|]). by apply not_elem_of_nil in Hin.
  - intros s n Hin. repeat (apply elem_of_cons in Hin as [[= -> ->]|Hin]; [by solve_plain|]). by apply not_elem_of_nil in Hin.
  - intros s n s' n' Hin Hin'.
    repeat (apply elem_of_cons in Hin as [[= -> ->]|Hin];
      [repeat (apply elem_of_cons in Hin' as [[= -> ->]|Hin']; [by vm_compute|]); by apply not_elem_of_nil in Hin'|]).
    by apply not_elem_of_nil in Hin.
  - done.
  - solve_plain.
Qed.


Lemma settings_register_status_witness :
  settings_register_cb 255 example_parse example_format (settings_start None) (example_message [text_of "uart0"]) = Undef /\
  exists p, snd <$> (match settings_register_cb 255 example_parse example_format (settings_start None)
      (example_message [text_of "uart0"; text_of "mode"; text_of "SBP"]) with Ret r => Some r | _ => None end) = Some [REGISTER_RESP p] /\
    head p = Some NUL.
Proof.
  destruct (settings_register_status 255 example_parse example_format (settings_start None) (example_message [text_of "uart0"])) as [H _].
  split; [apply H; by vm_compute; lia|]. eexists. split; [by vm_compute|].
  eapply (settings_register_status 255 example_parse example_format (settings_start None)
    (example_message [text_of "uart0"; text_of "mode"; text_of "SBP"])); [by vm_compute|]. by apply list_elem_of_singleton.
Defined.

(** A value with a comment sign is cut when it is read back: it is written without quotes. *)
Example saved_value_cut :
  ini_gets (Some (text_of "ntrip")) (text_of "url") default_value 255
    (Some (render [Header (text_of "ntrip"); Entry (text_of "url") (text_of "host/#1")])) = Ret (text_of "host/").
Proof. reflexivity. Qed.
