(* ===== verification/RouterLoad.v ===== *)
(** * Router configuration and its loader
      ([src/package/endpoint_router/endpoint_router/src/endpoint_router.h] and
      [endpoint_router_load.c])

    The linked lists of the C structures are Rocq lists, in list order; a [port_t *] is the
    position of the port in [ports_list].  A [const char *] field carries whether it points
    to the heap, because the teardown code frees some of them.

    libyaml is not part of the sources: a parser is the sequence of events it is going to
    deliver, and a parse error is the end of that sequence.  The event tables and their
    [process_*] functions are those of the source; [handle_expected_events] recurses through
    them with fuel, and [handle_expected_events_total] shows how much is enough. *)

From Stdlib Require Import Ascii.
From S2P Require Import Prelude Libc.

(** ** Data *)

Inductive filter_action := FILTER_ACTION_ACCEPT | FILTER_ACTION_REJECT.

#[export] Instance filter_action_eq_dec : EqDecision filter_action.
Proof. solve_decision. Defined.

Record filter_t := mk_filter {
  action : filter_action;
  fdata : option (list Z);     (* [uint8_t *data], NULL as [None] *)
  flen : nat;
}.

(** A C string with its storage: a literal or a heap block. *)
Record cstr := mk_cstr { text : string; heap : bool }.
Definition literal (s : string) : cstr := mk_cstr s false.
Definition strdup (s : string) : cstr := mk_cstr s true.

Record forwarding_rule_t := mk_rule {
  dst_port_name : cstr;
  dst_port : option nat;
  filters_list : list filter_t;
}.

(** An endpoint is named by a number, NULL as [None]. *)
Record port_t := mk_port {
  pname : cstr;
  metric : cstr;
  pub_addr : cstr;
  sub_addr : cstr;
  pub_ept : option nat;
  sub_ept : option nat;
  forwarding_rules_list : list forwarding_rule_t;
}.

Record router_cfg_t := mk_cfg {
  rname : cstr;
  ports_list : list port_t;
}.

#[export] Instance cstr_eq_dec : EqDecision cstr.
Proof. solve_decision. Defined.
#[export] Instance filter_t_eq_dec : EqDecision filter_t.
Proof. solve_decision. Defined.
#[export] Instance forwarding_rule_t_eq_dec : EqDecision forwarding_rule_t.
Proof. solve_decision. Defined.
#[export] Instance port_t_eq_dec : EqDecision port_t.
Proof. solve_decision. Defined.
#[export] Instance router_cfg_t_eq_dec : EqDecision router_cfg_t.
Proof. solve_decision. Defined.

(** ** YAML events *)

Inductive event_type :=
  | YAML_NO_EVENT | YAML_STREAM_START_EVENT | YAML_STREAM_END_EVENT
  | YAML_DOCUMENT_START_EVENT | YAML_DOCUMENT_END_EVENT | YAML_ALIAS_EVENT | YAML_SCALAR_EVENT
  | YAML_SEQUENCE_START_EVENT | YAML_SEQUENCE_END_EVENT
  | YAML_MAPPING_START_EVENT | YAML_MAPPING_END_EVENT.

#[export] Instance event_type_eq_dec : EqDecision event_type.
Proof. solve_decision. Defined.

(** [scalar] is meaningful for a scalar event only. *)
Record yaml_event := mk_event { etype : event_type; scalar : string }.

Definition ev (t : event_type) : yaml_event := mk_event t "".
Definition ev_scalar (s : string) : yaml_event := mk_event YAML_SCALAR_EVENT s.

Abbreviation yaml_parser := (list yaml_event).

Definition yaml_parser_parse (p : yaml_parser) : option (yaml_event * yaml_parser) :=
  match p with
  | [] => None
  | e :: p' => Some (e, p')
  end.

(** ** Expected events *)

Inductive process_fn :=
  | process_router_name | process_ports | process_port | process_port_name
  | process_port_metric | process_pub_addr | process_sub_addr | process_forwarding_rules_
  | process_forwarding_rule_ | process_dst_port | process_filters | process_filter
  | process_action | process_prefix | process_prefix_element.

Record expected_event := mk_expected {
  ex_type : event_type;
  ex_scalar : option string;
  ex_process : option process_fn;
  ex_next : bool;
}.

Definition router_events : list expected_event :=
  [ mk_expected YAML_STREAM_START_EVENT None None false;
    mk_expected YAML_DOCUMENT_START_EVENT None None false;
    mk_expected YAML_MAPPING_START_EVENT None None false;
    mk_expected YAML_SCALAR_EVENT (Some "name") (Some process_router_name) true;
    mk_expected YAML_SCALAR_EVENT (Some "ports") (Some process_ports) true;
    mk_expected YAML_MAPPING_END_EVENT None None false;
    mk_expected YAML_DOCUMENT_END_EVENT None None false;
    mk_expected YAML_STREAM_END_EVENT None None false;
    mk_expected YAML_NO_EVENT None None false ].

Definition ports_events : list expected_event :=
  [ mk_expected YAML_SEQUENCE_START_EVENT None None false;
    mk_expected YAML_MAPPING_START_EVENT None (Some process_port) true;
    mk_expected YAML_SEQUENCE_END_EVENT None None false;
    mk_expected YAML_NO_EVENT None None false ].

Definition port_events : list expected_event :=
  [ mk_expected YAML_SCALAR_EVENT (Some "name") (Some process_port_name) true;
    mk_expected YAML_SCALAR_EVENT (Some "metric") (Some process_port_metric) true;
    mk_expected YAML_SCALAR_EVENT (Some "pub_addr") (Some process_pub_addr) true;
    mk_expected YAML_SCALAR_EVENT (Some "sub_addr") (Some process_sub_addr) true;
    mk_expected YAML_SCALAR_EVENT (Some "forwarding_rules") (Some process_forwarding_rules_) true;
    mk_expected YAML_MAPPING_END_EVENT None None false;
    mk_expected YAML_NO_EVENT None None false ].

Definition forwarding_rules_events : list expected_event :=
  [ mk_expected YAML_SEQUENCE_START_EVENT None None false;
    mk_expected YAML_MAPPING_START_EVENT None (Some process_forwarding_rule_) true;
    mk_expected YAML_SEQUENCE_END_EVENT None None false;
    mk_expected YAML_NO_EVENT None None false ].

Definition forwarding_rule_events : list expected_event :=
  [ mk_expected YAML_SCALAR_EVENT (Some "dst_port") (Some process_dst_port) true;
    mk_expected YAML_SCALAR_EVENT (Some "filters") (Some process_filters) true;
    mk_expected YAML_MAPPING_END_EVENT None None false;
    mk_expected YAML_NO_EVENT None None false ].

Definition filters_events : list expected_event :=
  [ mk_expected YAML_SEQUENCE_START_EVENT None None false;
    mk_expected YAML_MAPPING_START_EVENT None (Some process_filter) true;
    mk_expected YAML_SEQUENCE_END_EVENT None None false;
    mk_expected YAML_NO_EVENT None None false ].

Definition filter_events : list expected_event :=
  [ mk_expected YAML_SCALAR_EVENT (Some "action") (Some process_action) true;
    mk_expected YAML_SCALAR_EVENT (Some "prefix") (Some process_prefix) true;
    mk_expected YAML_MAPPING_END_EVENT None None false;
    mk_expected YAML_NO_EVENT None None false ].

Definition prefix_events : list expected_event :=
  [ mk_expected YAML_SEQUENCE_START_EVENT None None false;
    mk_expected YAML_SCALAR_EVENT None (Some process_prefix_element) true;
    mk_expected YAML_SEQUENCE_END_EVENT None None false;
    mk_expected YAML_NO_EVENT None None false ].

(** [expected_event_match(...) == 0] *)
Definition expected_event_match (e : yaml_event) (x : expected_event) : bool :=
  if decide (etype e <> ex_type x) then false
  else match ex_scalar x with
       | Some s =>
           if decide (ex_type x = YAML_SCALAR_EVENT) then strcaseeq (scalar e) s else true
       | None => true
       end.

(** The inner loop: from the current offset on, the first entry that matches, skipping only
    entries marked [next].  The result is the matching entry and the table from it on;
    running off the table is [Undef], a mismatch is [None]. *)
Fixpoint find_expected (xs : list expected_event) (e : yaml_event) :
    outcome (option (expected_event * list expected_event)) :=
  match xs with
  | [] => Undef
  | x :: xs' =>
      if expected_event_match e x then Ret (Some (x, xs'))
      else if ex_next x then find_expected xs' e
      else Ret None
  end.

(** ** The context under construction *)

(** Apply [f] to the last element; [None] when there is none. *)
Definition on_last {A} (f : A -> option A) (l : list A) : option (list A) :=
  match last l with
  | None => None
  | Some x => match f x with Some y => Some (removelast l ++ [y]) | None => None end
  end.

(** The [current_*_get] functions with the update the caller makes through the pointer. *)
Definition on_current_port (f : port_t -> option port_t) (c : router_cfg_t) : option router_cfg_t :=
  match on_last f (ports_list c) with
  | Some ps => Some (mk_cfg (rname c) ps)
  | None => None
  end.

Definition on_current_forwarding_rule (f : forwarding_rule_t -> option forwarding_rule_t)
    (c : router_cfg_t) : option router_cfg_t :=
  on_current_port (fun p =>
    match on_last f (forwarding_rules_list p) with
    | Some rs => Some (mk_port (pname p) (metric p) (pub_addr p) (sub_addr p) (pub_ept p)
                         (sub_ept p) rs)
    | None => None
    end) c.

Definition on_current_filter (f : filter_t -> option filter_t) (c : router_cfg_t) :
    option router_cfg_t :=
  on_current_forwarding_rule (fun r =>
    match on_last f (filters_list r) with
    | Some fs => Some (mk_rule (dst_port_name r) (dst_port r) fs)
    | None => None
    end) c.

Fixpoint is_valid_metric_name (s : string) : bool :=
  match s with
  | EmptyString => false
  | String.String c s' => if negb (isspace c) then true else is_valid_metric_name s'
  end.

(** ** Event handlers

    A handler returns whether it succeeded, the parser and the context. *)

Abbreviation handler_result := (outcome (bool * yaml_parser * router_cfg_t)).

(** [event_scalar_value_get]; the parser advances in any case. *)
Definition event_scalar_value_get (p : yaml_parser) : option cstr * yaml_parser :=
  match yaml_parser_parse p with
  | None => (None, [])
  | Some (e, p') =>
      if decide (etype e = YAML_SCALAR_EVENT) then (Some (strdup (scalar e)), p') else (None, p')
  end.

(** Read a scalar and store it with [f]; [None] from [f] is the handler's error return. *)
Definition scalar_to (f : cstr -> router_cfg_t -> option router_cfg_t) (p : yaml_parser)
    (c : router_cfg_t) : handler_result :=
  match event_scalar_value_get p with
  | (None, p') => Ret (false, p', c)
  | (Some s, p') =>
      match f s c with
      | Some c' => Ret (true, p', c')
      | None => Ret (false, p', c)
      end
  end.

Definition event_port_string (consume : cstr -> port_t -> option port_t) (p : yaml_parser)
    (c : router_cfg_t) : handler_result :=
  scalar_to (fun s => on_current_port (consume s)) p c.

Definition set_port_name (s : cstr) (p : port_t) : option port_t :=
  Some (mk_port s (metric p) (pub_addr p) (sub_addr p) (pub_ept p) (sub_ept p)
          (forwarding_rules_list p)).
Definition set_port_metric (s : cstr) (p : port_t) : option port_t :=
  if negb (is_valid_metric_name (text s)) then None
  else Some (mk_port (pname p) s (pub_addr p) (sub_addr p) (pub_ept p) (sub_ept p)
               (forwarding_rules_list p)).
Definition set_pub_addr (s : cstr) (p : port_t) : option port_t :=
  Some (mk_port (pname p) (metric p) s (sub_addr p) (pub_ept p) (sub_ept p)
          (forwarding_rules_list p)).
Definition set_sub_addr (s : cstr) (p : port_t) : option port_t :=
  Some (mk_port (pname p) (metric p) (pub_addr p) s (pub_ept p) (sub_ept p)
          (forwarding_rules_list p)).

Definition new_port : port_t :=
  mk_port (literal "") (literal "") (literal "") (literal "") None None [].
#[export] Instance port_t_inhabited : Inhabited port_t := populate new_port.
Definition new_rule : forwarding_rule_t := mk_rule (literal "") None [].
Definition new_filter : filter_t := mk_filter FILTER_ACTION_REJECT None 0.

Definition add_rule (p : port_t) : option port_t :=
  Some (mk_port (pname p) (metric p) (pub_addr p) (sub_addr p) (pub_ept p) (sub_ept p)
          (forwarding_rules_list p ++ [new_rule])).
Definition add_filter (r : forwarding_rule_t) : option forwarding_rule_t :=
  Some (mk_rule (dst_port_name r) (dst_port r) (filters_list r ++ [new_filter])).
Definition set_dst_port_name (s : cstr) (r : forwarding_rule_t) : option forwarding_rule_t :=
  Some (mk_rule s (dst_port r) (filters_list r)).
Definition set_action (s : cstr) (f : filter_t) : option filter_t :=
  if strcaseeq (text s) "ACCEPT" then Some (mk_filter FILTER_ACTION_ACCEPT (fdata f) (flen f))
  else if strcaseeq (text s) "REJECT" then Some (mk_filter FILTER_ACTION_REJECT (fdata f) (flen f))
  else None.
Definition add_prefix_byte (s : string) (f : filter_t) : option filter_t :=
  let b := u8 (strtoul16 s) in
  let existing := match fdata f with Some d => d | None => [] end in
  Some (mk_filter (action f) (Some (existing ++ [b])) (S (flen f))).

(** [process_port]: add a port, read its mapping, and check the metric of that port. *)
Definition run_process_port (handle : yaml_parser -> list expected_event -> router_cfg_t -> handler_result)
    (p : yaml_parser) (c : router_cfg_t) : handler_result :=
  let n := length (ports_list c) in
  r ← handle p port_events (mk_cfg (rname c) (ports_list c ++ [new_port]));
  let '(ok, p', c') := r in
  if negb ok then Ret (false, p', c')
  else match ports_list c' !! n with
       | Some port => Ret (is_valid_metric_name (text (metric port)), p', c')
       | None => Undef
       end.

(** An operation that needs the current port, rule or filter, then reads a sub-table. *)
Definition then_handle (handle : yaml_parser -> list expected_event -> router_cfg_t -> handler_result)
    (xs : list expected_event) (p : yaml_parser) (c : router_cfg_t) (c' : option router_cfg_t) :
    handler_result :=
  match c' with
  | Some c' => handle p xs c'
  | None => Ret (false, p, c)
  end.

Definition run_process (handle : yaml_parser -> list expected_event -> router_cfg_t -> handler_result)
    (fn : process_fn) (e : yaml_event) (p : yaml_parser) (c : router_cfg_t) : handler_result :=
  match fn with
  | process_router_name => scalar_to (fun s c => Some (mk_cfg s (ports_list c))) p c
  | process_ports => handle p ports_events c
  | process_port => run_process_port handle p c
  | process_port_name => event_port_string set_port_name p c
  | process_port_metric => event_port_string set_port_metric p c
  | process_pub_addr => event_port_string set_pub_addr p c
  | process_sub_addr => event_port_string set_sub_addr p c
  | process_forwarding_rules_ => handle p forwarding_rules_events c
  | process_forwarding_rule_ =>
      then_handle handle forwarding_rule_events p c (on_current_port add_rule c)
  | process_dst_port =>
      match on_current_forwarding_rule Some c with
      | None => Ret (false, p, c)
      | Some _ => scalar_to (fun s => on_current_forwarding_rule (set_dst_port_name s)) p c
      end
  | process_filters => handle p filters_events c
  | process_filter =>
      then_handle handle filter_events p c (on_current_forwarding_rule add_filter c)
  | process_action =>
      match on_current_filter Some c with
      | None => Ret (false, p, c)
      | Some _ => scalar_to (fun s => on_current_filter (set_action s)) p c
      end
  | process_prefix => handle p prefix_events c
  | process_prefix_element =>
      match on_current_filter (add_prefix_byte (scalar e)) c with
      | Some c' => Ret (true, p, c')
      | None => Ret (false, p, c)
      end
  end.

Fixpoint handle_expected_events (fuel : nat) (p : yaml_parser) (xs : list expected_event)
    (c : router_cfg_t) : handler_result :=
  match xs with
  | [] => Undef
  | x0 :: _ =>
      if decide (ex_type x0 = YAML_NO_EVENT) then Ret (true, p, c)
      else match fuel with
      | O => Diverge
      | S fuel' =>
          match yaml_parser_parse p with
          | None => Ret (false, [], c)
          | Some (e, p') =>
              found ← find_expected xs e;
              match found with
              | None => Ret (false, p', c)
              | Some (x, rest) =>
                  r ← match ex_process x with
                      | None => Ret (true, p', c)
                      | Some fn => run_process (handle_expected_events fuel') fn e p' c
                      end;
                  let '(ok, p'', c') := r in
                  if negb ok then Ret (false, p'', c')
                  else handle_expected_events fuel' p'' (if ex_next x then xs else rest) c'
              end
          end
      end
  end.

Definition process_router (p : yaml_parser) (c : router_cfg_t) : handler_result :=
  handle_expected_events (S (length p)) p router_events c.

(** ** Resolving destination ports *)

(** The search over [router->ports_list]: the first port with that name. *)
Fixpoint find_dst_port (ports : list port_t) (idx : nat) (name : string) : option nat :=
  match ports with
  | [] => None
  | p :: ports' =>
      if strcaseeq name (text (pname p)) then Some idx else find_dst_port ports' (S idx) name
  end.

(** The loop over the rules of a port; [false] when a name was not found, the rules up to
    there are set. *)
Fixpoint set_rules (all : list port_t) (rs : list forwarding_rule_t) : list forwarding_rule_t * bool :=
  match rs with
  | [] => ([], true)
  | r :: rs' =>
      match find_dst_port all 0 (text (dst_port_name r)) with
      | None => (r :: rs', false)
      | Some i =>
          let '(rs'', ok) := set_rules all rs' in
          (mk_rule (dst_port_name r) (Some i) (filters_list r) :: rs'', ok)
      end
  end.

Fixpoint set_ports (all : list port_t) (ps : list port_t) : list port_t * bool :=
  match ps with
  | [] => ([], true)
  | p :: ps' =>
      let '(rs, ok) := set_rules all (forwarding_rules_list p) in
      let p' := mk_port (pname p) (metric p) (pub_addr p) (sub_addr p) (pub_ept p) (sub_ept p) rs in
      if negb ok then (p' :: ps', false)
      else let '(ps'', ok') := set_ports all ps' in (p' :: ps'', ok')
  end.

Definition dst_ports_set (c : router_cfg_t) : router_cfg_t * bool :=
  let '(ps, ok) := set_ports (ports_list c) (ports_list c) in (mk_cfg (rname c) ps, ok).

(** ** Teardown *)

(** [free] of a string: a block the allocator did not return is undefined behaviour. *)
Definition free_cstr (s : cstr) : outcome unit := if heap s then Ret tt else Undef.

Definition free_nonempty (s : cstr) : outcome unit :=
  if decide (text s = EmptyString) then Ret tt else free_cstr s.

Fixpoint forwarding_rules_destroy (rs : list forwarding_rule_t) : outcome unit :=
  match rs with
  | [] => Ret tt
  | r :: rs' => free_nonempty (dst_port_name r) ;; forwarding_rules_destroy rs'
  end.

(** The endpoints are handed to [endpoint_destroy_fn], which accepts NULL. *)
Fixpoint ports_destroy (ps : list port_t) : outcome unit :=
  match ps with
  | [] => Ret tt
  | p :: ps' =>
      free_nonempty (pname p) ;;
      free_nonempty (metric p) ;;
      free_nonempty (pub_addr p) ;;
      free_nonempty (sub_addr p) ;;
      forwarding_rules_destroy (forwarding_rules_list p) ;;
      ports_destroy ps'
  end.

(** [router->name] is never NULL, so it is always freed. *)
Definition router_cfg_teardown (c : router_cfg_t) : outcome unit :=
  free_cstr (rname c) ;; ports_destroy (ports_list c).

(** ** Loading a file *)

(** [init_ok], [open_ok], [malloc_ok]: parser initialisation, [fopen] and [malloc]. *)
Definition router_cfg_load (init_ok open_ok malloc_ok : bool) (p : yaml_parser) :
    outcome (option router_cfg_t) :=
  if negb init_ok then Ret None
  else if negb open_ok then Ret None
  else if negb malloc_ok then Ret None
  else
    r ← process_router p (mk_cfg (literal "") []);
    let '(ok, _, c) := r in
    if negb ok then router_cfg_teardown c ;; Ret None
    else
      let '(c', ok') := dst_ports_set c in
      if negb ok' then router_cfg_teardown c' ;; Ret None
      else Ret (Some c').

(** ** Invariant of the context *)

(** A non-empty string is on the heap, so the teardown may free it. *)
Definition cstr_ok (s : cstr) : Prop := text s <> EmptyString -> heap s = true.

Definition filter_ok (f : filter_t) : Prop :=
  match fdata f with
  | None => flen f = 0
  | Some d => length d = flen f /\ bytes_ok d /\ 0 < flen f
  end.

Definition rule_ok (r : forwarding_rule_t) : Prop :=
  cstr_ok (dst_port_name r) /\ Forall filter_ok (filters_list r).

Definition port_ok (p : port_t) : Prop :=
  cstr_ok (pname p) /\ cstr_ok (metric p) /\ cstr_ok (pub_addr p) /\ cstr_ok (sub_addr p) /\
  Forall rule_ok (forwarding_rules_list p).

Definition cfg_ok (c : router_cfg_t) : Prop := cstr_ok (rname c) /\ Forall port_ok (ports_list c).

Lemma strdup_ok s : cstr_ok (strdup s).
Proof. done. Qed.

Lemma literal_empty_ok : cstr_ok (literal "").
Proof. intros H. by destruct H. Qed.

Lemma new_rule_ok : rule_ok new_rule.
Proof. split; [apply literal_empty_ok|constructor]. Qed.

Lemma new_port_ok : port_ok new_port.
Proof. split_and!; try apply literal_empty_ok. constructor. Qed.

Lemma on_last_Some {A} (f : A -> option A) l l' :
  on_last f l = Some l' <-> exists l0 x y, l = l0 ++ [x] /\ f x = Some y /\ l' = l0 ++ [y].
Proof.
  unfold on_last. split.
  - destruct (last l) as [x|] eqn:Hl; [|done]. destruct (f x) as [y|] eqn:Hf; [|done].
    intros [= <-]. apply last_Some in Hl as [l0 ->]. exists l0, x, y.
    by rewrite removelast_last.
  - intros (l0 & x & y & -> & Hf & ->). by rewrite last_snoc, Hf, removelast_last.
Qed.

Lemma on_last_Forall {A} (P : A -> Prop) f l l' :
  on_last f l = Some l' -> (forall x y, P x -> f x = Some y -> P y) -> Forall P l ->
  Forall P l' /\ length l' = length l.
Proof.
  intros (l0 & x & y & -> & Hf & ->)%on_last_Some Hp. rewrite !Forall_app, !Forall_singleton, !length_app.
  intros [? ?]. split; [split; [done|by eapply Hp]|done].
Qed.

(** The operations on the current port, rule and filter keep the invariant. *)
Definition keeps (c : router_cfg_t) (o : option router_cfg_t) : Prop :=
  forall c', o = Some c' -> cfg_ok c' /\ length (ports_list c') = length (ports_list c).

Lemma on_current_port_keeps f c :
  cfg_ok c -> (forall p p', port_ok p -> f p = Some p' -> port_ok p') -> keeps c (on_current_port f c).
Proof.
  intros [Hn Hp] Hf c' Hc. unfold on_current_port in Hc.
  destruct (on_last f _) as [ps|] eqn:E; [|done]. injection Hc as <-.
  eapply on_last_Forall in E as [? ?]; [|exact Hf|done]. by split.
Qed.

Lemma on_current_rule_keeps f c :
  cfg_ok c -> (forall r r', rule_ok r -> f r = Some r' -> rule_ok r') ->
  keeps c (on_current_forwarding_rule f c).
Proof.
  intros Hc Hf. apply on_current_port_keeps; [done|]. intros p p' (?&?&?&?&Hr) Hp.
  destruct (on_last f _) as [rs|] eqn:E; [|done]. injection Hp as <-.
  eapply on_last_Forall in E as [? ?]; [|exact Hf|done]. by split_and!.
Qed.

Lemma on_current_filter_keeps f c :
  cfg_ok c -> (forall x x', filter_ok x -> f x = Some x' -> filter_ok x') ->
  keeps c (on_current_filter f c).
Proof.
  intros Hc Hf. apply on_current_rule_keeps; [done|]. intros r r' [? Hr] Hp.
  destruct (on_last f _) as [fs|] eqn:E; [|done]. injection Hp as <-.
  eapply on_last_Forall in E as [? ?]; [|exact Hf|done]. by split_and!.
Qed.

Lemma add_prefix_byte_ok s f f' : filter_ok f -> add_prefix_byte s f = Some f' -> filter_ok f'.
Proof.
  unfold filter_ok, add_prefix_byte. intros Hf [= <-]; simpl.
  rewrite length_app. destruct (fdata f); simpl in *.
  - destruct Hf as (? & ? & ?). split_and!; [lia| |lia]. apply bytes_ok_app. split; [done|].
    apply Forall_singleton, u8_range.
  - split_and!; [lia| |lia]. apply Forall_singleton, u8_range.
Qed.

(** ** The loader returns *)

(** Every suffix of the table that the loop can start at has an end marker, and the search
    over it stops before that marker. *)
Fixpoint table_ok (xs : list expected_event) : bool :=
  match xs with
  | [] => false
  | [x] => bool_decide (ex_type x = YAML_NO_EVENT)
  | x :: (y :: _) as rest =>
      table_ok rest && (negb (ex_next x) || bool_decide (ex_type y <> YAML_NO_EVENT))
  end.

Lemma table_ok_tail x xs : table_ok (x :: xs) = true -> xs <> [] -> table_ok xs = true.
Proof. destruct xs; [done|]. cbn [table_ok]. by intros [? _]%andb_true_iff. Qed.

Lemma find_expected_ok xs e :
  table_ok xs = true -> (exists x0 xs', xs = x0 :: xs' /\ ex_type x0 <> YAML_NO_EVENT) ->
  exists o, find_expected xs e = Ret o /\
    forall x rest, o = Some (x, rest) -> table_ok rest = true.
Proof.
  induction xs as [|x xs IH]; intros Ht (x0 & xs' & Heq & Hx); [done|]. injection Heq as -> ->.
  destruct xs' as [|y ys]; [cbn in Ht; by apply bool_decide_eq_true in Ht|].
  cbn [find_expected]. destruct (expected_event_match e x0).
  { eexists; split; [reflexivity|]. intros ? ? [= <- <-]. by eapply table_ok_tail. }
  destruct (ex_next x0) eqn:En.
  - apply IH; [by eapply table_ok_tail|]. exists y, ys. split; [done|].
    cbn [table_ok] in Ht. rewrite En in Ht. apply andb_true_iff in Ht as [_ Ht].
    by apply bool_decide_eq_true in Ht.
  - eexists; split; [reflexivity|]. done.
Qed.

(** [res] returns, has not lengthened the input, and kept the invariant of the context. *)
Definition safe (p : yaml_parser) (c : router_cfg_t) (res : handler_result) : Prop :=
  exists ok p' c', res = Ret (ok, p', c') /\ length p' <= length p /\ cfg_ok c' /\
    length (ports_list c) <= length (ports_list c').

Lemma safe_false p c p' : cfg_ok c -> length p' <= length p -> safe p c (Ret (false, p', c)).
Proof. intros. eexists _, _, _. split; [reflexivity|]. by split_and!. Qed.

Lemma scalar_to_safe f p c :
  cfg_ok c -> (forall s, keeps c (f (strdup s) c)) -> safe p c (scalar_to f p c).
Proof.
  intros Hc Hf. unfold scalar_to, event_scalar_value_get, yaml_parser_parse.
  destruct p as [|e p']; [apply safe_false; simpl; done || lia|].
  case_decide; [|apply safe_false; simpl; done || lia].
  destruct (f _ c) as [c'|] eqn:E; [|apply safe_false; simpl; done || lia].
  apply Hf in E as [? ?]. eexists _, _, _. split; [reflexivity|]. simpl. split_and!; done || lia.
Qed.

Lemma then_handle_safe handle xs p c o :
  cfg_ok c -> keeps c o -> (forall c', cfg_ok c' -> safe p c' (handle p xs c')) ->
  safe p c (then_handle handle xs p c o).
Proof.
  intros Hc Ho Hh. destruct o as [c'|]; simpl; [|by apply safe_false].
  destruct (Ho c' eq_refl) as [Hc' Hl]. unfold safe in *. rewrite <-Hl. by apply Hh.
Qed.

Lemma port_string_safe f p c :
  cfg_ok c -> (forall s q q', port_ok q -> f (strdup s) q = Some q' -> port_ok q') ->
  safe p c (event_port_string f p c).
Proof.
  intros Hc Hf. apply scalar_to_safe; [done|]. intros s. apply on_current_port_keeps; [done|]. apply Hf.
Qed.

Lemma run_process_port_safe handle p c :
  cfg_ok c -> (forall c', cfg_ok c' -> safe p c' (handle p port_events c')) ->
  safe p c (run_process_port handle p c).
Proof.
  intros [Hn Hp] Hh. unfold run_process_port.
  destruct (Hh (mk_cfg (rname c) (ports_list c ++ [new_port]))) as (ok & p' & c' & -> & Hl & Hc' & Hlen).
  { split; [done|]. apply Forall_app. split; [done|]. apply Forall_singleton, new_port_ok. }
  simpl in *. rewrite length_app in Hlen; simpl in Hlen.
  destruct ok; simpl; [|eexists _, _, _; split; [reflexivity|split_and!; done || lia]].
  destruct (lookup_lt_is_Some_2 (ports_list c') (length (ports_list c))) as [q Hq]; [lia|].
  rewrite Hq. eexists _, _, _; split; [reflexivity|split_and!; done || lia].
Qed.

Lemma run_process_safe handle fn e p c :
  cfg_ok c ->
  (forall xs c', table_ok xs = true -> cfg_ok c' -> safe p c' (handle p xs c')) ->
  safe p c (run_process handle fn e p c).
Proof.
  intros Hc Hh. destruct fn; cbn [run_process]; try (by apply Hh).
  - apply scalar_to_safe; [done|]. intros s c' [= <-]. split; [split; [done|apply Hc]|done].
  - apply run_process_port_safe; auto.
  - apply port_string_safe; [done|]. intros s q q' (?&?&?&?&?) [= <-]. by split_and!.
  - apply port_string_safe; [done|]. intros s q q' (?&?&?&?&?). unfold set_port_metric.
    case_match; [done|]. intros [= <-]. by split_and!.
  - apply port_string_safe; [done|]. intros s q q' (?&?&?&?&?) [= <-]. by split_and!.
  - apply port_string_safe; [done|]. intros s q q' (?&?&?&?&?) [= <-]. by split_and!.
  - apply then_handle_safe; [done| |auto]. apply on_current_port_keeps; [done|].
    intros q q' (?&?&?&?&?) [= <-]. split_and!; try done. apply Forall_app. split; [done|].
    apply Forall_singleton, new_rule_ok.
  - case_match; [|by apply safe_false]. apply scalar_to_safe; [done|]. intros s.
    apply on_current_rule_keeps; [done|]. intros ru ru' [? ?] [= <-]. by split.
  - apply then_handle_safe; [done| |auto]. apply on_current_rule_keeps; [done|].
    intros ru ru' [? ?] [= <-]. split; [done|]. apply Forall_app. split; [done|]. by apply Forall_singleton.
  - case_match; [|by apply safe_false]. apply scalar_to_safe; [done|]. intros s.
    apply on_current_filter_keeps; [done|]. intros x x' Hx. unfold set_action.
    repeat case_match; intros; simplify_eq; done.
  - destruct (on_current_filter _ c) as [c'|] eqn:E; [|by apply safe_false].
    apply on_current_filter_keeps in E as [? ?]; [|done|intros ? ?; apply add_prefix_byte_ok].
    eexists _, _, _; split; [reflexivity|split_and!; done || lia].
Qed.

Lemma handle_expected_events_safe fuel p xs c :
  length p < fuel -> table_ok xs = true -> cfg_ok c ->
  safe p c (handle_expected_events fuel p xs c).
Proof.
  revert p xs c; induction fuel as [|fuel IH]; intros p xs c Hf Ht Hc; [lia|].
  destruct xs as [|x0 xs]; [done|]. cbn [handle_expected_events].
  case_decide as Hx0; [eexists _, _, _; split; [reflexivity|split_and!; done || lia]|].
  destruct p as [|e p']; cbn [yaml_parser_parse]; [apply safe_false; simpl; done || lia|].
  simpl in Hf. destruct (find_expected_ok (x0 :: xs) e) as (o & -> & Ho); [done|by eauto|].
  cbn [mbind outcome_bind]. destruct o as [[x rest]|]; [|apply safe_false; simpl; done || lia].
  assert (safe p' c (match ex_process x with
    | None => Ret (true, p', c)
    | Some fn => run_process (handle_expected_events fuel) fn e p' c end)) as (ok & p'' & c' & -> & Hl & Hc' & Hpl).
  { destruct (ex_process x).
    - apply run_process_safe; [done|]. intros. apply IH; done || lia.
    - eexists _, _, _; split; [reflexivity|split_and!; done || lia]. }
  cbn [mbind outcome_bind]. destruct ok; cbn [negb].
  - destruct (IH p'' (if ex_next x then x0 :: xs else rest) c') as (ok & p3 & c3 & -> & ? & ? & ?);
      [lia|destruct (ex_next x); [done|by eapply Ho]|done|].
    eexists _, _, _; split; [reflexivity|simpl; split_and!; done || lia].
  - eexists _, _, _; split; [reflexivity|simpl; split_and!; done || lia].
Qed.

Lemma process_router_returns p :
  exists ok p' c, process_router p (mk_cfg (literal "") []) = Ret (ok, p', c) /\ cfg_ok c.
Proof.
  destruct (handle_expected_events_safe (S (length p)) p router_events (mk_cfg (literal "") []))
    as (ok & p' & c & H & _ & Hc & _); [lia|reflexivity|split; [apply literal_empty_ok|constructor]|].
  by exists ok, p', c.
Qed.

(** C34: reading the configuration always returns: whatever events libyaml delivers, the
    nested table-driven handlers stop after at most one round per event, never run off a
    table, and leave a context in which every filter has as many data bytes as its length
    says and every non-empty string is a heap string. *)
Theorem process_router_total p :
  exists ok p' c, process_router p (mk_cfg (literal "") []) = Ret (ok, p', c) /\ cfg_ok c.
Proof. apply process_router_returns. Qed.

(** ** Every branch of the loader *)

Lemma free_nonempty_ok s : cstr_ok s -> free_nonempty s = Ret tt.
Proof. intros H. unfold free_nonempty, free_cstr. case_decide; [done|]. by rewrite H. Qed.

Lemma forwarding_rules_destroy_ok rs : Forall rule_ok rs -> forwarding_rules_destroy rs = Ret tt.
Proof. induction 1 as [|r rs [Hr _] _ IH]; simpl; [done|]. by rewrite free_nonempty_ok. Qed.

Lemma ports_destroy_ok ps : Forall port_ok ps -> ports_destroy ps = Ret tt.
Proof.
  induction 1 as [|p ps (?&?&?&?&?) _ IH]; simpl; [done|].
  rewrite !free_nonempty_ok by done. simpl. by rewrite forwarding_rules_destroy_ok.
Qed.

Lemma set_rules_ok all rs : Forall rule_ok rs -> Forall rule_ok (set_rules all rs).1.
Proof.
  induction 1 as [|r rs [Hr Hf] Hrs IH]; simpl; [done|]. destruct (find_dst_port _ _ _); simpl.
  - destruct (set_rules all rs); simpl in *. constructor; [by split|done].
  - constructor; [by split|done].
Qed.

Lemma set_ports_ok all ps : Forall port_ok ps -> Forall port_ok (set_ports all ps).1.
Proof.
  induction 1 as [|p ps (?&?&?&?&Hr) Hps IH]; simpl; [done|].
  pose proof (set_rules_ok all _ Hr). destruct (set_rules all _) as [rs ok]; simpl in *.
  destruct ok; simpl; [destruct (set_ports all ps); simpl in *|]; constructor; done || by split_and!.
Qed.

Lemma dst_ports_set_ok c : cfg_ok c -> cfg_ok (dst_ports_set c).1 /\ rname (dst_ports_set c).1 = rname c.
Proof.
  intros [Hn Hp]. unfold dst_ports_set. pose proof (set_ports_ok (ports_list c) _ Hp).
  by destruct (set_ports _ _).
Qed.

Lemma router_cfg_teardown_cases c :
  cfg_ok c -> router_cfg_teardown c = if heap (rname c) then Ret tt else Undef.
Proof.
  intros [Hn Hp]. unfold router_cfg_teardown, free_cstr.
  destruct (heap (rname c)); simpl; [|done]. by apply ports_destroy_ok.
Qed.

(** The outcome of [router_cfg_load] on every input: the configuration with its
    destinations resolved when the events are accepted and every destination exists; else
    NULL, provided the router's name had been read by then; else the teardown passes the
    string literal the name was initialised with to [free]. *)
Theorem router_cfg_load_cases p :
  exists ok p' c, process_router p (mk_cfg (literal "") []) = Ret (ok, p', c) /\
    router_cfg_load true true true p =
      (if ok && (dst_ports_set c).2 then Ret (Some (dst_ports_set c).1)
       else if heap (rname c) then Ret None else Undef).
Proof.
  destruct (process_router_returns p) as (ok & p' & c & H & Hc).
  exists ok, p', c. split; [exact H|]. unfold router_cfg_load. rewrite H.
  cbn [negb mbind outcome_bind]. pose proof (dst_ports_set_ok c Hc) as [Hc' Hname].
  destruct ok; cbn [negb andb].
  - destruct (dst_ports_set c) as [c' ok'] eqn:E. simpl in *. destruct ok'; simpl; [done|].
    rewrite router_cfg_teardown_cases, Hname by done. by destruct (heap (rname c)).
  - rewrite router_cfg_teardown_cases by done. by destruct (heap (rname c)).
Qed.

(** ** Resolved destinations *)

(** [i] is the first port whose name is that of the rule's destination. *)
Definition resolved (ports : list port_t) (r : forwarding_rule_t) : Prop :=
  exists i q, dst_port r = Some i /\ ports !! i = Some q /\
    strcaseeq (text (dst_port_name r)) (text (pname q)) = true /\
    forall j q', j < i -> ports !! j = Some q' ->
      strcaseeq (text (dst_port_name r)) (text (pname q')) = false.

Lemma find_dst_port_spec ports k name i :
  find_dst_port ports k name = Some i ->
  exists j q, i = k + j /\ ports !! j = Some q /\ strcaseeq name (text (pname q)) = true /\
    forall j' q', j' < j -> ports !! j' = Some q' -> strcaseeq name (text (pname q')) = false.
Proof.
  revert k; induction ports as [|p ports IH]; intros k; simpl; [done|].
  destruct (strcaseeq name (text (pname p))) eqn:E.
  - intros [= <-]. exists 0, p. split_and!; try done; lia.
  - intros (j & q & -> & Hq & Hn & Hfirst)%IH. exists (S j), q. split_and!; try done; [lia|].
    intros [|j'] q' Hj Hq'; simplify_eq/=; [done|]. eapply Hfirst; [|done]. lia.
Qed.

Lemma set_rules_resolved ports rs rs' :
  set_rules ports rs = (rs', true) ->
  Forall (resolved ports) rs'.
Proof.
  revert rs'; induction rs as [|r rs IH]; intros rs' H; simpl in *; [by simplify_eq|].
  destruct (find_dst_port _ _ _) as [i|] eqn:E; [|by simplify_eq].
  destruct (set_rules ports rs) as [rs'' ok] eqn:E'. simplify_eq. constructor; [|by apply IH].
  apply find_dst_port_spec in E as (j & q & -> & ? & ? & ?). by exists j, q.
Qed.

Lemma set_ports_resolved ports ps ps' :
  set_ports ports ps = (ps', true) ->
  map pname ps' = map pname ps /\
  Forall (fun p => Forall (resolved ports) (forwarding_rules_list p)) ps'.
Proof.
  revert ps'; induction ps as [|p ps IH]; intros ps' H; simpl in *; [by simplify_eq|].
  destruct (set_rules ports (forwarding_rules_list p)) as [rs ok] eqn:E.
  destruct ok; simpl in H; [|by simplify_eq].
  destruct (set_ports ports ps) as [ps'' ok] eqn:E'. simplify_eq/=.
  destruct (IH ps'' eq_refl) as [-> Hps]. split; [done|]. constructor; [|done].
  by eapply set_rules_resolved.
Qed.

(** Resolution looks at the names only. *)
Lemma resolved_names ports ports' r :
  map pname ports = map pname ports' -> resolved ports r -> resolved ports' r.
Proof.
  intros Hn (i & q & Hd & Hq & Hname & Hfirst).
  assert (forall j, (fun q => pname q) <$> ports !! j = pname <$> ports' !! j) as Hl.
  { intros j. rewrite <-!list_lookup_fmap. by f_equal. }
  pose proof (Hl i) as Hi. rewrite Hq in Hi. simpl in Hi.
  destruct (ports' !! i) as [q'|] eqn:Hq'; [|done]. simpl in Hi. injection Hi as Hi.
  exists i, q'. rewrite <-Hi. split_and!; try done. intros j x Hj Hx.
  pose proof (Hl j) as Hj'. rewrite Hx in Hj'. simpl in Hj'.
  destruct (ports !! j) as [y|] eqn:Hy; [|done]. simpl in Hj'. injection Hj' as <-.
  by eapply Hfirst.
Qed.

Lemma router_cfg_load_good p c :
  router_cfg_load true true true p = Ret (Some c) ->
  cfg_ok c /\
  Forall (fun q => Forall (resolved (ports_list c)) (forwarding_rules_list q)) (ports_list c).
Proof.
  destruct (process_router_returns p) as (ok & p' & c0 & Hr & Hc0).
  unfold router_cfg_load. cbn [negb]. rewrite Hr. cbn [mbind outcome_bind].
  pose proof (dst_ports_set_ok c0 Hc0) as [Hc' _].
  destruct ok; cbn [negb]; [|by destruct (router_cfg_teardown c0)].
  unfold dst_ports_set in *. destruct (set_ports _ _) as [ps ok] eqn:E. simpl in Hc'.
  destruct ok; cbn [negb]; [|by destruct (router_cfg_teardown _)].
  intros [= <-]. split; [done|]. apply set_ports_resolved in E as [Hn Hps]. simpl.
  eapply Forall_impl; [exact Hps|]. intros q Hq. eapply Forall_impl; [exact Hq|].
  intros r. by apply resolved_names.
Qed.

(** C35: in a configuration that was loaded, every rule points to an existing port, the first
    one whose name equals the rule's destination up to case; filters have the length they
    say and non-empty strings are heap strings. *)
Theorem router_cfg_load_resolved p c :
  router_cfg_load true true true p = Ret (Some c) ->
  cfg_ok c /\
  Forall (fun q => Forall (resolved (ports_list c)) (forwarding_rules_list q)) (ports_list c).
Proof. apply router_cfg_load_good. Qed.

(** ** Round trip: writing a configuration as events and loading it *)

Definition filter_yaml (f : filter_t) : list yaml_event :=
  [ev YAML_MAPPING_START_EVENT; ev_scalar "action";
   ev_scalar (match action f with FILTER_ACTION_ACCEPT => "ACCEPT" | FILTER_ACTION_REJECT => "REJECT" end)] ++
  match fdata f with
  | None => []
  | Some d => [ev_scalar "prefix"; ev YAML_SEQUENCE_START_EVENT] ++
              map (fun b => ev_scalar (print_hex_byte b)) d ++ [ev YAML_SEQUENCE_END_EVENT]
  end ++ [ev YAML_MAPPING_END_EVENT].

Definition rule_yaml (r : forwarding_rule_t) : list yaml_event :=
  [ev YAML_MAPPING_START_EVENT; ev_scalar "dst_port"; ev_scalar (text (dst_port_name r));
   ev_scalar "filters"; ev YAML_SEQUENCE_START_EVENT] ++
  flat_map filter_yaml (filters_list r) ++ [ev YAML_SEQUENCE_END_EVENT; ev YAML_MAPPING_END_EVENT].

Definition port_yaml (p : port_t) : list yaml_event :=
  [ev YAML_MAPPING_START_EVENT; ev_scalar "name"; ev_scalar (text (pname p));
   ev_scalar "metric"; ev_scalar (text (metric p)); ev_scalar "pub_addr"; ev_scalar (text (pub_addr p));
   ev_scalar "sub_addr"; ev_scalar (text (sub_addr p));
   ev_scalar "forwarding_rules"; ev YAML_SEQUENCE_START_EVENT] ++
  flat_map rule_yaml (forwarding_rules_list p) ++
  [ev YAML_SEQUENCE_END_EVENT; ev YAML_MAPPING_END_EVENT].

Definition cfg_yaml (c : router_cfg_t) : list yaml_event :=
  [ev YAML_STREAM_START_EVENT; ev YAML_DOCUMENT_START_EVENT; ev YAML_MAPPING_START_EVENT;
   ev_scalar "name"; ev_scalar (text (rname c)); ev_scalar "ports"; ev YAML_SEQUENCE_START_EVENT] ++
  flat_map port_yaml (ports_list c) ++
  [ev YAML_SEQUENCE_END_EVENT; ev YAML_MAPPING_END_EVENT; ev YAML_DOCUMENT_END_EVENT;
   ev YAML_STREAM_END_EVENT].

(** Configurations as they are before destinations are resolved and endpoints created. *)
Definition rule_plain (r : forwarding_rule_t) : Prop :=
  heap (dst_port_name r) = true /\ dst_port r = None /\ Forall filter_ok (filters_list r).
Definition port_plain (p : port_t) : Prop :=
  heap (pname p) = true /\ heap (metric p) = true /\ heap (pub_addr p) = true /\
  heap (sub_addr p) = true /\ pub_ept p = None /\ sub_ept p = None /\
  is_valid_metric_name (text (metric p)) = true /\ Forall rule_plain (forwarding_rules_list p).
Definition cfg_plain (c : router_cfg_t) : Prop :=
  heap (rname c) = true /\ Forall port_plain (ports_list c).

(** With enough fuel the handler reads [p] down to [p'] and turns [c] into [c']. *)
Definition runs (p : yaml_parser) (xs : list expected_event) (c : router_cfg_t)
    (p' : yaml_parser) (c' : router_cfg_t) : Prop :=
  exists n, forall fuel, n <= fuel -> handle_expected_events fuel p xs c = Ret (true, p', c').

Lemma runs_end p xs c :
  head (map ex_type xs) = Some YAML_NO_EVENT -> runs p xs c p c.
Proof.
  destruct xs as [|x xs]; [done|]. intros [= Hx]. exists 0. intros fuel _.
  destruct fuel; simpl; by rewrite decide_True.
Qed.

Lemma runs_cons e p xs c x rest p1 c1 p2 c2 :
  head (map ex_type xs) <> Some YAML_NO_EVENT ->
  find_expected xs e = Ret (Some (x, rest)) ->
  (exists n, forall fuel, n <= fuel ->
     match ex_process x with
     | None => Ret (true, p, c)
     | Some fn => run_process (handle_expected_events fuel) fn e p c
     end = Ret (true, p1, c1)) ->
  runs p1 (if ex_next x then xs else rest) c1 p2 c2 ->
  runs (e :: p) xs c p2 c2.
Proof.
  intros Hx Hf [n Hn] [m Hm]. exists (S (n `max` m)). intros fuel Hfuel.
  destruct fuel as [|fuel]; [lia|]. destruct xs as [|x0 xs]; [done|].
  cbn [handle_expected_events]. rewrite decide_False by (intros ?; simpl in Hx; congruence).
  cbn [yaml_parser_parse]. rewrite Hf. cbn [mbind outcome_bind]. rewrite Hn by lia.
  cbn [mbind outcome_bind negb]. apply Hm. lia.
Qed.

Lemma on_last_snoc {A} (f : A -> option A) l x :
  on_last f (l ++ [x]) = match f x with Some y => Some (l ++ [y]) | None => None end.
Proof. unfold on_last. by rewrite last_snoc, removelast_last. Qed.

(** Contexts with the current port, rule or filter singled out. *)
Definition with_rules (p : port_t) (rs : list forwarding_rule_t) : port_t :=
  mk_port (pname p) (metric p) (pub_addr p) (sub_addr p) (pub_ept p) (sub_ept p) rs.
Definition with_filters (r : forwarding_rule_t) (fs : list filter_t) : forwarding_rule_t :=
  mk_rule (dst_port_name r) (dst_port r) fs.
Definition cfgP (n : cstr) (ps : list port_t) (p : port_t) : router_cfg_t := mk_cfg n (ps ++ [p]).
Definition cfgR n ps p rs r : router_cfg_t := cfgP n ps (with_rules p (rs ++ [r])).
Definition cfgF n ps p rs r fs f : router_cfg_t := cfgR n ps p rs (with_filters r (fs ++ [f])).

Lemma on_current_port_cfgP g n ps p :
  on_current_port g (cfgP n ps p) = match g p with Some q => Some (cfgP n ps q) | None => None end.
Proof. unfold on_current_port, cfgP; simpl. rewrite on_last_snoc. by destruct (g p). Qed.

Lemma on_current_rule_cfgR g n ps p rs r :
  on_current_forwarding_rule g (cfgR n ps p rs r) =
    match g r with Some q => Some (cfgR n ps p rs q) | None => None end.
Proof.
  unfold on_current_forwarding_rule, cfgR. rewrite on_current_port_cfgP; simpl.
  rewrite on_last_snoc. by destruct (g r).
Qed.

Lemma on_current_filter_cfgF g n ps p rs r fs f :
  on_current_filter g (cfgF n ps p rs r fs f) =
    match g f with Some q => Some (cfgF n ps p rs r fs q) | None => None end.
Proof.
  unfold on_current_filter, cfgF. rewrite on_current_rule_cfgR; simpl.
  rewrite on_last_snoc. by destruct (g f).
Qed.

(** One event whose table entry is found by computation; the handler's run is left. *)
Ltac runs_step :=
  eapply runs_cons; [done|vm_compute; reflexivity| |].
(** ... and the handler needs no fuel. *)
Ltac runs_plain := runs_step; [exists 0; intros; reflexivity|]; cbn [ex_next].

Definition add_bytes (f : filter_t) (d : list Z) : filter_t :=
  match d with
  | [] => f
  | _ => mk_filter (action f) (Some (default [] (fdata f) ++ d)) (flen f + length d)
  end.

Lemma add_bytes_cons f b d :
  byte_ok b ->
  exists f', add_prefix_byte (print_hex_byte b) f = Some f' /\ add_bytes f' d = add_bytes f (b :: d).
Proof.
  intros Hb. eexists; split; [reflexivity|]. rewrite hex_byte_roundtrip by done.
  unfold byte_ok in Hb. rewrite u8_small by done. destruct f as [a [e|] l], d; simpl;
    rewrite <-?app_assoc; f_equal; simpl; lia.
Qed.

Lemma prefix_runs d f n ps q rs r fs p :
  bytes_ok d ->
  runs (map (fun b => ev_scalar (print_hex_byte b)) d ++ ev YAML_SEQUENCE_END_EVENT :: p)
    (drop 1 prefix_events) (cfgF n ps q rs r fs f) p (cfgF n ps q rs r fs (add_bytes f d)).
Proof.
  intros Hd. revert f. induction Hd as [|b d Hb _ IH]; intros f; cbn [map app].
  - runs_plain. by apply runs_end.
  - destruct (add_bytes_cons f b d Hb) as (f' & Hadd & Heq). runs_step.
    { exists 0. intros fuel _. cbn [ex_process run_process scalar ev_scalar].
      rewrite on_current_filter_cfgF, Hadd. reflexivity. }
    cbn [ex_next]. rewrite <-Heq. apply IH.
Qed.

Lemma filter_body_runs f n ps q rs r fs p :
  filter_ok f ->
  runs (drop 1 (filter_yaml f) ++ p) filter_events (cfgF n ps q rs r fs new_filter) p
    (cfgF n ps q rs r fs f).
Proof.
  intros Hf. unfold filter_yaml. cbn [app drop]. rewrite <-app_assoc. cbn [app].
  runs_step.
  { exists 0. intros fuel _. cbn [ex_process run_process]. rewrite on_current_filter_cfgF.
    unfold scalar_to, event_scalar_value_get. cbn [yaml_parser_parse ev_scalar etype].
    rewrite decide_True by done. rewrite on_current_filter_cfgF.
    replace (set_action _ new_filter) with (Some (mk_filter (action f) None 0)); [reflexivity|].
    by destruct (action f). }
  cbn [ex_next]. unfold filter_ok in Hf. destruct f as [a [d|] l]; simpl in *.
  - destruct Hf as (<- & Hd & Hpos). runs_step.
    { destruct (prefix_runs d (mk_filter a None 0) n ps q rs r fs (ev YAML_MAPPING_END_EVENT :: p) Hd)
        as [k Hk].
      exists (S k). intros [|fuel] Hfuel; [lia|]. cbn [ex_process run_process].
      rewrite <-app_assoc. simpl. apply Hk. lia. }
    cbn [ex_next]. replace (add_bytes _ d) with (mk_filter a (Some d) (length d)) by (by destruct d; simpl in *; [lia|]).
    runs_plain. by apply runs_end.
  - subst l. runs_plain. by apply runs_end.
Qed.

Lemma filters_runs gs n ps q rs r fs p :
  Forall filter_ok gs ->
  runs (flat_map filter_yaml gs ++ ev YAML_SEQUENCE_END_EVENT :: p) (drop 1 filters_events)
    (cfgR n ps q rs (with_filters r fs)) p (cfgR n ps q rs (with_filters r (fs ++ gs))).
Proof.
  intros Hg. revert fs. induction Hg as [|g gs Hg _ IH]; intros fs; simpl.
  - rewrite app_nil_r. runs_plain. by apply runs_end.
  - rewrite <-app_assoc. runs_step.
    { destruct (filter_body_runs g n ps q rs r fs
        (flat_map filter_yaml gs ++ ev YAML_SEQUENCE_END_EVENT :: p) Hg) as [k Hk].
      exists k. intros fuel Hfuel. cbn [ex_process run_process].
      rewrite on_current_rule_cfgR. cbn [add_filter then_handle]. apply Hk. lia. }
    cbn [ex_next]. specialize (IH (fs ++ [g])). rewrite <-app_assoc in IH. exact IH.
Qed.

Lemma rule_body_runs ru n ps q rs p :
  rule_plain ru ->
  runs (drop 1 (rule_yaml ru) ++ p) forwarding_rule_events (cfgR n ps q rs new_rule) p
    (cfgR n ps q rs ru).
Proof.
  intros (Hh & Hd & Hf). unfold rule_yaml. cbn [app drop]. rewrite <-app_assoc. cbn [app].
  runs_step.
  { exists 0. intros fuel _. cbn [ex_process run_process]. rewrite on_current_rule_cfgR.
    unfold scalar_to, event_scalar_value_get. cbn [yaml_parser_parse ev_scalar etype].
    rewrite decide_True by done. rewrite on_current_rule_cfgR. reflexivity. }
  cbn [ex_next]. runs_step.
  { destruct (filters_runs (filters_list ru) n ps q rs
      (mk_rule (dst_port_name ru) None []) [] (ev YAML_MAPPING_END_EVENT :: p) Hf) as [k Hk].
    exists (S k). intros [|fuel] Hfuel; [lia|]. cbn [ex_process run_process scalar ev_scalar].
    replace (strdup _) with (dst_port_name ru) by (destruct ru as [[s h] d fs]; simpl in *; by subst).
    simpl. apply Hk. lia. }
  cbn [ex_next]. runs_plain.
  replace (with_filters _ _) with ru by (destruct ru; simpl in *; by subst). by apply runs_end.
Qed.

Lemma rules_runs us n ps q rs p :
  Forall rule_plain us ->
  runs (flat_map rule_yaml us ++ ev YAML_SEQUENCE_END_EVENT :: p) (drop 1 forwarding_rules_events)
    (cfgP n ps (with_rules q rs)) p (cfgP n ps (with_rules q (rs ++ us))).
Proof.
  intros Hu. revert rs. induction Hu as [|u us Hu _ IH]; intros rs; simpl.
  - rewrite app_nil_r. runs_plain. by apply runs_end.
  - rewrite <-app_assoc. runs_step.
    { destruct (rule_body_runs u n ps q rs
        (flat_map rule_yaml us ++ ev YAML_SEQUENCE_END_EVENT :: p) Hu) as [k Hk].
      exists k. intros fuel Hfuel. cbn [ex_process run_process].
      rewrite on_current_port_cfgP. cbn [add_rule then_handle]. apply Hk. lia. }
    cbn [ex_next]. specialize (IH (rs ++ [u])). rewrite <-app_assoc in IH. exact IH.
Qed.

(** One string member of a port mapping. *)
Lemma port_string_run fuel consume s p n ps q q' e :
  consume (strdup s) q = Some q' ->
  match e with
  | process_port_name => consume = set_port_name
  | process_port_metric => consume = set_port_metric
  | process_pub_addr => consume = set_pub_addr
  | process_sub_addr => consume = set_sub_addr
  | _ => False
  end ->
  forall ye, run_process (handle_expected_events fuel) e ye (ev_scalar s :: p) (cfgP n ps q) =
    Ret (true, p, cfgP n ps q').
Proof.
  intros Hq He ye. destruct e; try done; subst consume; cbn [run_process];
    unfold event_port_string, scalar_to, event_scalar_value_get;
    cbn [yaml_parser_parse ev_scalar etype]; rewrite decide_True by done;
    rewrite on_current_port_cfgP; cbn [scalar ev_scalar]; by rewrite Hq.
Qed.

Lemma strdup_text s : heap s = true -> strdup (text s) = s.
Proof. destruct s; simpl. by intros ->. Qed.

Lemma strdup_eta t : mk_cstr t true = strdup t.
Proof. done. Qed.

Lemma port_body_runs pt n ps p :
  port_plain pt ->
  runs (drop 1 (port_yaml pt) ++ p) port_events (cfgP n ps new_port) p (cfgP n ps pt).
Proof.
  intros (Hn & Hm & Hp & Hs & Hpe & Hse & Hv & Hr). unfold port_yaml. cbn [app drop].
  rewrite <-app_assoc. cbn [app].
  runs_step; [exists 0; intros fuel _; cbn [ex_process]; by eapply (port_string_run _ set_port_name)|cbn [ex_next]].
  runs_step; [exists 0; intros fuel _; cbn [ex_process]; eapply (port_string_run _ set_port_metric); [|done];
    unfold set_port_metric, strdup; cbn [text]; by rewrite Hv|cbn [ex_next]].
  runs_step; [exists 0; intros fuel _; cbn [ex_process]; by eapply (port_string_run _ set_pub_addr)|cbn [ex_next]].
  runs_step; [exists 0; intros fuel _; cbn [ex_process]; by eapply (port_string_run _ set_sub_addr)|cbn [ex_next]].
  cbn [pname metric pub_addr sub_addr pub_ept sub_ept forwarding_rules_list new_port].
  rewrite !(strdup_eta (text _)), !strdup_text by done. runs_step.
  { destruct (rules_runs (forwarding_rules_list pt) n ps
      (mk_port (pname pt) (metric pt) (pub_addr pt) (sub_addr pt) None None []) []
      (ev YAML_MAPPING_END_EVENT :: p) Hr) as [k Hk].
    exists (S k). intros [|fuel] Hfuel; [lia|]. cbn [ex_process run_process]. apply Hk. lia. }
  cbn [ex_next]. runs_plain.
  replace (with_rules _ _) with pt by (destruct pt; simpl in *; by subst). by apply runs_end.
Qed.

Lemma ports_runs qs n ps p :
  Forall port_plain qs ->
  runs (flat_map port_yaml qs ++ ev YAML_SEQUENCE_END_EVENT :: p) (drop 1 ports_events)
    (mk_cfg n ps) p (mk_cfg n (ps ++ qs)).
Proof.
  intros Hq. revert ps. induction Hq as [|q qs Hq _ IH]; intros ps; simpl.
  - rewrite app_nil_r. runs_plain. by apply runs_end.
  - rewrite <-app_assoc. runs_step.
    { destruct (port_body_runs q n ps
        (flat_map port_yaml qs ++ ev YAML_SEQUENCE_END_EVENT :: p) Hq) as [k Hk].
      exists k. intros fuel Hfuel. cbn [ex_process run_process]. unfold run_process_port.
      cbn [rname ports_list]. fold (cfgP n ps new_port). cbn [drop] in Hk.
      etransitivity; [apply f_equal, Hk; lia|]. cbn [mbind outcome_bind negb cfgP ports_list].
      rewrite lookup_app_r, Nat.sub_diag by lia. cbn.
      destruct Hq as (_ & _ & _ & _ & _ & _ & -> & _). reflexivity. }
    cbn [ex_next]. specialize (IH (ps ++ [q])). rewrite <-app_assoc in IH. exact IH.
Qed.

Lemma cfg_runs c :
  cfg_plain c -> runs (cfg_yaml c) router_events (mk_cfg (literal "") []) [] c.
Proof.
  intros [Hn Hp]. unfold cfg_yaml. cbn [app]. do 3 runs_plain.
  runs_step; [exists 0; intros fuel _; reflexivity|cbn [ex_next]].
  runs_step.
  { destruct (ports_runs (ports_list c) (rname c) []
      [ev YAML_MAPPING_END_EVENT; ev YAML_DOCUMENT_END_EVENT; ev YAML_STREAM_END_EVENT] Hp) as [k Hk].
    exists (S k). intros [|fuel] Hfuel; [lia|]. cbn [ex_process run_process scalar ev_scalar].
    rewrite strdup_text by done. apply Hk. lia. }
  cbn [ex_next app]. do 3 runs_plain. destruct c. by apply runs_end.
Qed.

(** A result is not changed by more fuel. *)
Lemma run_process_mono h h' fn e p c r :
  (forall p xs c r, h p xs c = Ret r -> h' p xs c = Ret r) ->
  run_process h fn e p c = Ret r -> run_process h' fn e p c = Ret r.
Proof.
  intros Hh. destruct fn; cbn [run_process]; auto.
  - unfold run_process_port. destruct (h p _ _) as [y| |] eqn:E; try done.
    by rewrite (Hh _ _ _ _ E).
  - unfold then_handle. case_match; auto.
  - unfold then_handle. case_match; auto.
Qed.

Lemma handle_expected_events_mono fuel fuel' p xs c r :
  fuel <= fuel' -> handle_expected_events fuel p xs c = Ret r ->
  handle_expected_events fuel' p xs c = Ret r.
Proof.
  revert fuel' p xs c r; induction fuel as [|fuel IH]; intros fuel' p xs c r Hle.
  - destruct xs; [done|]. destruct fuel'; cbn [handle_expected_events]; by case_decide.
  - destruct fuel' as [|fuel']; [lia|]. destruct xs as [|x0 xs]; [done|].
    cbn [handle_expected_events]. case_decide; [done|]. destruct (yaml_parser_parse p) as [[e p']|]; [|done].
    destruct (find_expected _ e) as [[[x rest]|]| |]; cbn [mbind outcome_bind]; try done.
    set (body := fun h : yaml_parser -> list expected_event -> router_cfg_t -> handler_result =>
      match ex_process x with None => Ret (true, p', c) | Some fn => run_process h fn e p' c end).
    fold (body (handle_expected_events fuel)) (body (handle_expected_events fuel')).
    assert (Hb : forall y, body (handle_expected_events fuel) = Ret y ->
                      body (handle_expected_events fuel') = Ret y).
    { intros y. unfold body. destruct (ex_process x); [|done]. apply run_process_mono.
      intros; apply IH; [lia|done]. }
    destruct (body (handle_expected_events fuel)) as [[[ok p''] c']| |]; try done.
    rewrite (Hb _ eq_refl). cbn [mbind outcome_bind]. destruct ok; cbn [negb]; [|done].
    apply IH. lia.
Qed.

(** C27: writing a configuration as YAML and loading it gives the configuration back, with
    the destinations resolved: every name, address, metric, rule, filter action and prefix
    byte survives, in order. *)
Theorem router_cfg_roundtrip c :
  cfg_plain c -> (dst_ports_set c).2 = true ->
  router_cfg_load true true true (cfg_yaml c) = Ret (Some (dst_ports_set c).1).
Proof.
  intros Hc Hd. destruct (cfg_runs c Hc) as [k Hk].
  destruct (process_router_returns (cfg_yaml c)) as (ok & p' & c' & Hr & _).
  assert (Hf := Hk (k `max` S (length (cfg_yaml c))) ltac:(lia)).
  unfold process_router in Hr. pose proof Hr as Hr'.
  eapply (handle_expected_events_mono _ (k `max` S (length (cfg_yaml c)))) in Hr'; [|lia].
  rewrite Hf in Hr'. injection Hr' as <- <- <-.
  unfold router_cfg_load, process_router. cbn [negb]. rewrite Hr. cbn [mbind outcome_bind negb].
  destruct (dst_ports_set c) as [c' ok']. simpl in *. by subst ok'.
Qed.

(** A two-port configuration with an accepting and a rejecting prefix. *)
Definition example_cfg : router_cfg_t :=
  mk_cfg (strdup "router")
    [mk_port (strdup "SBP_A") (strdup "a") (strdup "ipc:///a_pub") (strdup "ipc:///a_sub") None None
       [mk_rule (strdup "sbp_b") None
          [mk_filter FILTER_ACTION_REJECT (Some [0x55; 0xb8; 0x00]%Z) 3;
           mk_filter FILTER_ACTION_ACCEPT None 0]];
     mk_port (strdup "SBP_B") (strdup "b") (strdup "ipc:///b_pub") (strdup "ipc:///b_sub") None None
       [mk_rule (strdup "SBP_A") None
          [mk_filter FILTER_ACTION_ACCEPT (Some [0x55; 0x17; 0xff]%Z) 3;
           mk_filter FILTER_ACTION_REJECT None 0]]].

Lemma bytes_ok_decide l : forallb (fun b => (0 <=? b) && (b <? 256))%Z l = true -> bytes_ok l.
Proof.
  intros H. apply Forall_forall. intros x Hx%list_elem_of_In. rewrite forallb_forall in H.
  apply H in Hx. unfold byte_ok. lia.
Qed.

Ltac prove_plain :=
  repeat match goal with
  | |- cfg_plain _ => split
  | |- Forall _ _ => constructor
  | |- port_plain _ => unfold port_plain; split_and!
  | |- rule_plain _ => unfold rule_plain; split_and!
  | |- filter_ok _ => unfold filter_ok; simpl
  | |- _ /\ _ => split
  | |- bytes_ok _ => apply bytes_ok_decide
  | |- _ = _ => reflexivity
  | |- _ < _ => lia
  end.

Lemma router_cfg_roundtrip_witness :
  router_cfg_load true true true (cfg_yaml example_cfg) = Ret (Some (dst_ports_set example_cfg).1).
Proof. apply router_cfg_roundtrip; [prove_plain|reflexivity]. Defined.

Lemma router_cfg_load_resolved_witness :
  cfg_ok (dst_ports_set example_cfg).1 /\
  Forall (fun q => Forall (resolved (ports_list (dst_ports_set example_cfg).1))
    (forwarding_rules_list q)) (ports_list (dst_ports_set example_cfg).1).
Proof. apply (router_cfg_load_resolved (cfg_yaml example_cfg)). vm_compute. reflexivity. Defined.
