(* ===== verification/Router.v ===== *)
(** * The router: rule caches and forwarding
      ([src/package/endpoint_router/endpoint_router/src/endpoint_router.c])

    A router forwards every message that arrives on a port's SUB socket to the PUB sockets of
    other ports, as the forwarding rules of the port say.  At start-up it builds, per port, a
    cache: the distinct filter prefixes, a minimal perfect hash over them, and for each prefix
    the endpoints the rules select; messages are then routed by a single hash lookup.

    The arrays the source allocates keep their sizes here, and an access outside one is
    [Undef].  Endpoints are numbers, NULL is [None]; [forwarding_rule->dst_port] is a position
    in the list of ports, so the functions that follow it take that list.  The cmph library is
    the interface [Cmph] with the laws [CmphSpec].  What a call sends is returned as the list
    of the (endpoint, data) pairs handed to [endpoint_send_fn], in order. *)

From S2P Require Import Prelude Libc RouterLoad.

Definition MAX_PREFIX_LEN : nat := 8.

(** ** cmph *)

Class Cmph := {
  cmph_t : Type;
  cmph_new : list (list Z) -> option cmph_t;
  cmph_search : cmph_t -> list Z -> nat;
}.

(** A hash made from distinct keys maps them one to one to the positions of an array with one
    cell per key.  Nothing is documented of what it answers for other strings. *)
Class CmphSpec (C : Cmph) : Prop := {
  cmph_perfect keys h k1 k2 :
    NoDup keys -> cmph_new keys = Some h -> k1 ∈ keys -> k2 ∈ keys ->
    cmph_search h k1 = cmph_search h k2 -> k1 = k2;
  cmph_range keys h k :
    NoDup keys -> cmph_new keys = Some h -> k ∈ keys -> cmph_search h k < length keys;
}.

(** ** Data *)

Record rule_prefixes_t := mk_prefixes {
  rp_count : nat;
  prefix_len : Z;                     (* a [size_t] *)
  prefixes : list (list Z);           (* cells of [MAX_PREFIX_LEN] bytes *)
}.

Record cached_port_t := mk_cached {
  cp_prefix : list Z;
  cp_count : nat;
  endpoints : list (option nat);
}.

(** A call of [endpoint_send_fn]: the endpoint and the data. *)
Abbreviation send := (option nat * list Z)%type.

Section router.
Context {C : Cmph}.

Record rule_cache_t := mk_cache {
  hash : option cmph_t;
  cached_ports : list cached_port_t;  (* empty for NULL *)
  accept_ports_count : nat;
  accept_ports : list (option nat);
  rule_prefixes : rule_prefixes_t;
  rule_count : nat;
  rc_sub_ept : option nat;
}.

Record router_t := mk_router {
  router_cfg : router_cfg_t;
  port_rule_cache : list rule_cache_t;
  port_count : nat;
  accept_last_count : nat;
}.

(** ** [memcmp] *)

(** The difference of the first bytes that differ ([memcmp] compares equal lengths; the order
    is extended to all lists, a proper prefix being smaller). *)
Fixpoint bytes_cmp (a b : list Z) : Z :=
  match a, b with
  | [], [] => 0%Z
  | [], _ :: _ => (-1)%Z
  | _ :: _, [] => 1%Z
  | x :: a', y :: b' => if (x =? y)%Z then bytes_cmp a' b' else (x - y)%Z
  end.

Definition memcmp (a b : list Z) (n : nat) : outcome Z :=
  x ← slice a 0 n;
  y ← slice b 0 n;
  Ret (bytes_cmp x y).

(** ** Matching rules *)

(** [filter->len == 0], or data that begins with the filter's bytes.  [data] is [None] for
    NULL; its length is the [length] argument. *)
Definition filter_match (data : option (list Z)) (f : filter_t) : outcome bool :=
  if flen f =? 0 then Ret true
  else match data with
  | None => Ret false
  | Some d =>
      if flen f <=? length d then
        match fdata f with
        | None => Undef
        | Some p => r ← memcmp d p (flen f); Ret (r =? 0)%Z
        end
      else Ret false
  end.

(** The loop over the filters of a rule: [match_fn] is run for the first one that matches. *)
Fixpoint process_filters_loop {X} (rule : forwarding_rule_t) (fs : list filter_t)
    (data : option (list Z))
    (match_fn : forwarding_rule_t -> filter_t -> option (list Z) -> X -> outcome X) (ctx : X) :
    outcome X :=
  match fs with
  | [] => Ret ctx
  | f :: fs' =>
      m ← filter_match data f;
      if (m : bool) then match_fn rule f data ctx
      else process_filters_loop rule fs' data match_fn ctx
  end.

Definition process_forwarding_rule {X} (rule : forwarding_rule_t) (data : option (list Z))
    (match_fn : forwarding_rule_t -> filter_t -> option (list Z) -> X -> outcome X) (ctx : X) :
    outcome X :=
  process_filters_loop rule (filters_list rule) data match_fn ctx.

Fixpoint process_forwarding_rules {X} (rules : list forwarding_rule_t) (data : option (list Z))
    (match_fn : forwarding_rule_t -> filter_t -> option (list Z) -> X -> outcome X) (ctx : X) :
    outcome X :=
  match rules with
  | [] => Ret ctx
  | r :: rules' =>
      ctx' ← process_forwarding_rule r data match_fn ctx;
      process_forwarding_rules rules' data match_fn ctx'
  end.

(** [forwarding_rule->dst_port->pub_ept] *)
Definition dst_pub_ept (ports : list port_t) (r : forwarding_rule_t) : outcome (option nat) :=
  match dst_port r with
  | None => Undef
  | Some i => p ← of_option (ports !! i); Ret (pub_ept p)
  end.

Definition set_cached (c : rule_cache_t) (cps : list cached_port_t) : rule_cache_t :=
  mk_cache (hash c) cps (accept_ports_count c) (accept_ports c) (rule_prefixes c)
    (rule_count c) (rc_sub_ept c).

Definition cache_match_process (ports : list port_t) (r : forwarding_rule_t) (f : filter_t)
    (data : option (list Z)) (c : rule_cache_t) : outcome rule_cache_t :=
  let plen := prefix_len (rule_prefixes c) in
  let len := match data with Some d => length d | None => 0 end in
  if (Z.of_nat len <? plen)%Z then Undef        (* the assertion *)
  else match hash c with
  | None => Ret c
  | Some h =>
      d ← of_option data;
      k ← slice d 0 (Z.to_nat plen);
      let key := cmph_search h k in
      cell ← load (cached_ports c) key;
      e ← match action f with
          | FILTER_ACTION_ACCEPT => dst_pub_ept ports r
          | FILTER_ACTION_REJECT => Ret None
          end;
      es ← store (endpoints cell) (cp_count cell) e;
      pfx ← memcpy (cp_prefix cell) 0 k;
      cps ← store (cached_ports c) key (mk_cached pfx (S (cp_count cell)) es);
      Ret (set_cached c cps)
  end.

(** ** Routing a message *)

Definition send_all (es : list (option nat)) (data : list Z) : list send :=
  map (fun e => (e, data)) es.

Definition non_null (es : list (option nat)) : list (option nat) :=
  filter (fun e => e <> None) es.

Definition process_buffer (c : rule_cache_t) (data : list Z) : outcome (list send) :=
  let plen := prefix_len (rule_prefixes c) in
  if (Z.of_nat (length data) <? plen)%Z then
    es ← slice (accept_ports c) 0 (accept_ports_count c);
    Ret (send_all es data)
  else
    h ← of_option (hash c);
    k ← slice data 0 (Z.to_nat plen);
    cell ← load (cached_ports c) (cmph_search h k);
    cmp ← memcmp (cp_prefix cell) data (Z.to_nat plen);
    if (cmp =? 0)%Z then
      es ← slice (endpoints cell) 0 (cp_count cell);
      Ret (send_all (non_null es) data)
    else
      es ← slice (accept_ports c) 0 (accept_ports_count c);
      Ret (send_all es data).

(** ** Collecting the prefixes of a port *)

(** The inner loop of the first pass: the prefix length so far, the filters with a prefix,
    the last filter; [None] is the error return. *)
Fixpoint scan_filters (fs : list filter_t) (plen : Z) (n : nat) (last : option filter_t) :
    option (Z * nat * option filter_t) :=
  match fs with
  | [] => Some (plen, n, last)
  | f :: fs' =>
      let last' := match fs' with [] => Some f | _ => last end in
      if negb (flen f =? 0) then
        let len := s32 (Z.of_nat (flen f)) in
        if (0 <=? plen)%Z && negb (plen =? len)%Z then None
        else
          let plen' := if (plen <? 0)%Z then len else plen in
          if (Z.of_nat MAX_PREFIX_LEN <? plen')%Z then None
          else scan_filters fs' plen' (S n) last'
      else scan_filters fs' plen n last'
  end.

Record scan_state := mk_scan {
  sc_plen : Z;
  sc_total : nat;
  sc_accept : list (option nat);
  sc_accept_count : nat;
  sc_accept_last : nat;
}.

Fixpoint scan_rules (ports : list port_t) (rules : list forwarding_rule_t) (s : scan_state) :
    outcome (scan_state * bool) :=
  match rules with
  | [] => Ret (s, true)
  | r :: rules' =>
      match scan_filters (filters_list r) (sc_plen s) 0 None with
      | None => Ret (s, false)
      | Some (plen, n, last) =>
          let total := sc_total s + n in
          match last with
          | Some (mk_filter FILTER_ACTION_ACCEPT _ _) =>
              e ← dst_pub_ept ports r;
              ap ← store (sc_accept s) (sc_accept_count s) e;
              scan_rules ports rules'
                (mk_scan plen total ap (S (sc_accept_count s)) (S (sc_accept_last s)))
          | _ =>
              scan_rules ports rules'
                (mk_scan plen total (sc_accept s) (sc_accept_count s) (sc_accept_last s))
          end
      end
  end.

Definition zero_prefix : list Z := replicate MAX_PREFIX_LEN 0%Z.

(** The second pass: copy the prefixes of one rule into the array from [idx] on. *)
Fixpoint fill_filters (plen : nat) (fs : list filter_t) (arr : list (list Z)) (idx : nat) :
    outcome (list (list Z) * nat) :=
  match fs with
  | [] => Ret (arr, idx)
  | f :: fs' =>
      match fdata f with
      | Some d =>
          if 0 <? flen f then
            cell ← load arr idx;
            src ← slice d 0 plen;
            cell' ← memcpy cell 0 src;
            arr' ← store arr idx cell';
            fill_filters plen fs' arr' (S idx)
          else fill_filters plen fs' arr idx
      | None => fill_filters plen fs' arr idx
      end
  end.

Fixpoint fill_rules (plen : nat) (rules : list forwarding_rule_t) (arr : list (list Z)) (idx : nat) :
    outcome (list (list Z) * nat) :=
  match rules with
  | [] => Ret (arr, idx)
  | r :: rules' =>
      x ← fill_filters plen (filters_list r) arr idx;
      let '(arr', idx') := x in
      fill_rules plen rules' arr' idx'
  end.

(** [compare_prefixes] and [qsort] with it: a sorted permutation of the cells. *)
Definition compare_prefixes (plen : nat) (a b : list Z) : Z := bytes_cmp (take plen a) (take plen b).

Definition qsort_prefixes (plen : nat) (arr : list (list Z)) : list (list Z) :=
  @merge_sort _ (fun a b => compare_prefixes plen a b <= 0)%Z
    (fun a b => Z_le_dec (compare_prefixes plen a b) 0) arr.

(** The loop that drops repeated neighbours. *)
Fixpoint dedup_loop (plen : nat) (src : list (list Z)) (prev : option (list Z))
    (dst : list (list Z)) (idx : nat) : outcome (list (list Z) * nat) :=
  match src with
  | [] => Ret (dst, idx)
  | e :: src' =>
      same ← match prev with
             | Some p => r ← memcmp p e plen; Ret (r =? 0)%Z
             | None => Ret false
             end;
      if (same : bool) then dedup_loop plen src' prev dst idx
      else
        cell ← load dst idx;
        x ← slice e 0 plen;
        cell' ← memcpy cell 0 x;
        dst' ← store dst idx cell';
        dedup_loop plen src' (Some e) dst' (S idx)
  end.

(** [extract_rule_prefixes]: the port's accept list is filled in as well.  The result is the
    accept list, its count, the router's counter, and the prefixes or NULL. *)
Definition extract_rule_prefixes (ports : list port_t) (port : port_t) (accept : list (option nat))
    (accept_last : nat) : outcome (list (option nat) * nat * nat * option rule_prefixes_t) :=
  let rules := forwarding_rules_list port in
  x ← scan_rules ports rules (mk_scan (-1) 0 accept 0 accept_last);
  let '(s, ok) := x in
  if negb ok then Ret (sc_accept s, sc_accept_count s, sc_accept_last s, None)
  else
    let plen := Z.to_nat (sc_plen s) in
    y ← fill_rules plen rules (replicate (sc_total s) zero_prefix) 0;
    let '(all, n) := y in
    if negb (sc_total s =? n) then Undef          (* the assertion *)
    else
      z ← dedup_loop plen (qsort_prefixes plen all) None (replicate (sc_total s) zero_prefix) 0;
      let '(dst, count) := z in
      Ret (sc_accept s, sc_accept_count s, sc_accept_last s,
           Some (mk_prefixes count (u32 (sc_plen s)) dst)).

(** ** Creating the router *)

(** The keys the cmph adapter reads: the first [prefix_len] bytes of each used cell. *)
Definition cmph_keys (rp : rule_prefixes_t) : list (list Z) :=
  map (take (Z.to_nat (prefix_len rp))) (take (rp_count rp) (prefixes rp)).

(** [process_forwarding_rules] for every prefix, filling the cache. *)
Fixpoint cache_prefixes (ports : list port_t) (rules : list forwarding_rule_t) (plen : nat)
    (ps : list (list Z)) (c : rule_cache_t) : outcome rule_cache_t :=
  match ps with
  | [] => Ret c
  | p :: ps' =>
      d ← slice p 0 plen;
      c' ← process_forwarding_rules rules (Some d) (cache_match_process ports) c;
      cache_prefixes ports rules plen ps' c'
  end.

(** One round of the loop over the ports: the cache of a port, [None] when the prefixes
    could not be extracted. *)
Definition create_rule_cache (ports : list port_t) (pcount : nat) (port : port_t) (accept_last : nat) :
    outcome (option rule_cache_t * nat) :=
  let rules := forwarding_rules_list port in
  let rcount := length rules in
  x ← extract_rule_prefixes ports port (replicate rcount None) accept_last;
  let '(accept, acount, alast, rp) := x in
  match rp with
  | None => Ret (None, alast)
  | Some rp =>
      if 0 <? rp_count rp then
        match cmph_new (cmph_keys rp) with
        | None => Undef                             (* the assertion *)
        | Some h =>
            let cells := replicate (rp_count rp) (mk_cached zero_prefix 0 (replicate pcount None)) in
            c ← cache_prefixes ports rules (Z.to_nat (prefix_len rp)) (take (rp_count rp) (prefixes rp))
                  (mk_cache (Some h) cells acount accept rp rcount (sub_ept port));
            Ret (Some c, alast)
        end
      else Ret (Some (mk_cache None [] acount accept rp rcount (sub_ept port)), alast)
  end.

Fixpoint create_rule_caches (all : list port_t) (pcount : nat) (ports : list port_t)
    (accept_last : nat) : outcome (option (list rule_cache_t) * nat) :=
  match ports with
  | [] => Ret (Some [], accept_last)
  | p :: ports' =>
      x ← create_rule_cache all pcount p accept_last;
      let '(c, alast) := x in
      match c with
      | None => Ret (None, alast)
      | Some c =>
          y ← create_rule_caches all pcount ports' alast;
          let '(cs, alast') := y in
          Ret (match cs with Some cs => Some (c :: cs) | None => None end, alast')
      end
  end.

(** [loaded] is what [router_cfg_load] did; a non-zero result of [load_endpoints] is [false]. *)
Definition router_create (loaded : outcome (option router_cfg_t))
    (load_endpoints : router_cfg_t -> outcome (router_cfg_t * bool)) : outcome (option router_t) :=
  cfg ← loaded;
  match cfg with
  | None => Ret None
  | Some cfg =>
      x ← load_endpoints cfg;
      let '(cfg, ok) := x in
      if negb ok then router_cfg_teardown cfg ;; Ret None
      else
        let n := length (ports_list cfg) in
        y ← create_rule_caches (ports_list cfg) n (ports_list cfg) 0;
        let '(cs, alast) := y in
        match cs with
        | None => Ret None
        | Some cs => Ret (Some (mk_router cfg cs n alast))
        end
  end.
End router.

Arguments rule_cache_t C : clear implicits.
Arguments router_t C : clear implicits.

(** ** Endpoints, attaching and teardown *)

(** [pk_endpoint_create] opens a socket: [create addr identity is_pub] is what it returns. *)
Section endpoints.
Variable create : string -> string -> bool -> option nat.

Definition ENDPOINT_METRIC_SIZE : nat := 128.

(** [snprintf_assert(endpoint_metric, sizeof(endpoint_metric), "router/%s/<kind>", metric)] *)
Definition endpoint_metric (metric kind : string) : outcome string :=
  let s := "router/" +:+ metric +:+ "/" +:+ kind in
  if String.length s <? ENDPOINT_METRIC_SIZE then Ret s else Undef.

Definition set_epts (p : port_t) (pub sub : option nat) : port_t :=
  mk_port (pname p) (metric p) (pub_addr p) (sub_addr p) pub sub (forwarding_rules_list p).

Fixpoint create_port_endpoints (ps : list port_t) : outcome (list port_t * bool) :=
  match ps with
  | [] => Ret ([], true)
  | p :: ps' =>
      id ← endpoint_metric (text (metric p)) "pub_server";
      match create (text (pub_addr p)) id true with
      | None => Ret (set_epts p None (sub_ept p) :: ps', false)
      | Some pub =>
          id' ← endpoint_metric (text (metric p)) "sub_server";
          match create (text (sub_addr p)) id' false with
          | None => Ret (set_epts p (Some pub) None :: ps', false)
          | Some sub =>
              r ← create_port_endpoints ps';
              let '(ps'', ok) := r in
              Ret (set_epts p (Some pub) (Some sub) :: ps'', ok)
          end
      end
  end.

Definition router_create_endpoints (c : router_cfg_t) : outcome (router_cfg_t * bool) :=
  r ← create_port_endpoints (ports_list c);
  let '(ps, ok) := r in Ret (mk_cfg (rname c) ps, ok).
End endpoints.

(** [router_attach]: the i-th port's SUB endpoint is read with the i-th cache as context;
    [add] says whether the loop accepted the reader.  The result is the readers added. *)
Fixpoint attach_loop (add : option nat -> bool) (ports : list port_t) (idx : nat) :
    list (option nat * nat) * bool :=
  match ports with
  | [] => ([], true)
  | p :: ports' =>
      if negb (add (sub_ept p)) then ([], false)
      else let '(rs, ok) := attach_loop add ports' (S idx) in ((sub_ept p, idx) :: rs, ok)
  end.

Definition router_attach {C : Cmph} (add : option nat -> bool) (r : router_t C) :
    list (option nat * nat) * bool :=
  attach_loop add (ports_list (router_cfg r)) 0.

(** ** What the rules mean *)

(** The first filter that matches, found on the message itself. *)
Definition matches (d : list Z) (f : filter_t) : bool :=
  match fdata f with
  | None => true
  | Some p => bool_decide (take (length p) d = p)
  end.

Fixpoint first_match (d : list Z) (fs : list filter_t) : option filter_action :=
  match fs with
  | [] => None
  | f :: fs' => if matches d f then Some (action f) else first_match d fs'
  end.

(** The destination of a rule, NULL when it has none. *)
Definition dst_of (ports : list port_t) (r : forwarding_rule_t) : option nat :=
  i ← dst_port r; p ← ports !! i; pub_ept p.

(** Reference semantics: each rule, in order, forwards the message to its destination when
    the first filter that matches the message accepts it. *)
Definition route (ports : list port_t) (rules : list forwarding_rule_t) (d : list Z) :
    list (option nat * list Z) :=
  flat_map (fun r =>
    match first_match d (filters_list r) with
    | Some FILTER_ACTION_ACCEPT => [(dst_of ports r, d)]
    | _ => []
    end) rules.

(** Each filter has the bytes its length says, a length that fits an [int]; and a rule's
    destination has its PUB endpoint. *)
Definition filter_sane (f : filter_t) : Prop := filter_ok f /\ (Z.of_nat (flen f) < 2147483648)%Z.
Definition rule_sane (ports : list port_t) (r : forwarding_rule_t) : Prop :=
  Forall filter_sane (filters_list r) /\ exists e, dst_pub_ept ports r = Ret (Some e).

(** What the source calls a rule's "default accept": its last filter accepts. *)
Definition accept_last (r : forwarding_rule_t) : bool :=
  match last (filters_list r) with
  | Some f => bool_decide (action f = FILTER_ACTION_ACCEPT)
  | None => false
  end.

(** What the rule does with a message no prefix of the rule matches. *)
Definition default_accept (r : forwarding_rule_t) : bool :=
  match first_match [] (filters_list r) with
  | Some FILTER_ACTION_ACCEPT => true
  | _ => false
  end.

(** The two agree when the last filter is the only empty one, or rejects. *)
Definition rule_regular (r : forwarding_rule_t) : Prop := accept_last r = default_accept r.

(** The prefixes of a list of rules, in order. *)
Definition filter_prefixes (fs : list filter_t) : list (list Z) := omap fdata fs.
Definition port_prefixes (rules : list forwarding_rule_t) : list (list Z) :=
  flat_map (fun r => filter_prefixes (filters_list r)) rules.

(** All prefixes have one length, at most [MAX_PREFIX_LEN]. *)
Definition prefixes_uniform (ps : list (list Z)) : Prop :=
  exists n, n <= MAX_PREFIX_LEN /\ Forall (fun p => length p = n) ps.

(** A prefix in a zeroed cell of the prefix arrays. *)
Definition cell (d : list Z) : list Z := d ++ replicate (MAX_PREFIX_LEN - length d) 0%Z.

(** ** Comparing byte strings *)

Lemma bytes_cmp_eq a b : bytes_cmp a b = 0%Z <-> a = b.
Proof.
  revert b; induction a as [|x a IH]; intros [|y b]; simpl; try done.
  destruct (Z.eqb_spec x y) as [->|Hne].
  - rewrite IH. split; congruence.
  - split; [lia|congruence].
Qed.

Lemma bytes_cmp_sym a b : (bytes_cmp b a = - bytes_cmp a b)%Z.
Proof.
  revert b; induction a as [|x a IH]; intros [|y b]; try done. simpl.
  rewrite (Z.eqb_sym y x). destruct (x =? y)%Z; [apply IH|lia].
Qed.

Lemma bytes_cmp_trans a b c : (bytes_cmp a b <= 0 -> bytes_cmp b c <= 0 -> bytes_cmp a c <= 0)%Z.
Proof.
  revert b c; induction a as [|x a IH]; intros [|y b] [|z c]; simpl; try lia.
  destruct (Z.eqb_spec x y) as [->|], (Z.eqb_spec y z) as [->|].
  - eauto.
  - done.
  - destruct (Z.eqb_spec x z); [lia|done].
  - destruct (Z.eqb_spec x z); lia.
Qed.

Lemma memcmp_ok a b n :
  n <= length a -> n <= length b -> memcmp a b n = Ret (bytes_cmp (take n a) (take n b)).
Proof. intros. unfold memcmp. rewrite !slice_ok by lia. by rewrite !drop_0. Qed.

Lemma memcmp_zero a b n :
  n <= length a -> n <= length b ->
  exists r, memcmp a b n = Ret r /\ (r =? 0)%Z = bool_decide (take n a = take n b).
Proof.
  intros. exists (bytes_cmp (take n a) (take n b)). split; [by apply memcmp_ok|].
  apply eq_bool_prop_intro. rewrite bool_decide_spec, Is_true_true, Z.eqb_eq. apply bytes_cmp_eq.
Qed.

Lemma length_cell d : length d <= MAX_PREFIX_LEN -> length (cell d) = MAX_PREFIX_LEN.
Proof. intros. unfold cell. rewrite length_app, length_replicate. lia. Qed.

Lemma take_cell d n : length d = n -> take n (cell d) = d.
Proof. intros <-. apply take_app_length. Qed.

Lemma cell_inj d e : length d = length e -> cell d = cell e -> d = e.
Proof. intros Hl H. rewrite <-(take_cell d (length d)), <-(take_cell e (length d)) by done. by rewrite H. Qed.

(** Copying a prefix over a zeroed cell, or over a cell that holds it already. *)
Lemma memcpy_cell x d :
  length d <= MAX_PREFIX_LEN -> x = zero_prefix \/ x = cell d -> memcpy x 0 d = Ret (cell d).
Proof.
  intros Hl Hx. assert (length x = MAX_PREFIX_LEN) as Hlx.
  { destruct Hx as [->| ->]; [apply length_replicate|by apply length_cell]. }
  rewrite memcpy_ok by lia. f_equal. simpl. unfold cell. f_equal. destruct Hx as [->| ->].
  - apply drop_replicate.
  - unfold cell; by rewrite drop_app_length.
Qed.

(** ** Matching *)

Lemma filter_sane_cases f :
  filter_sane f -> (fdata f = None /\ flen f = 0) \/
  exists d, fdata f = Some d /\ length d = flen f /\ 0 < flen f /\ (Z.of_nat (flen f) < 2147483648)%Z.
Proof.
  unfold filter_sane, filter_ok. destruct (fdata f) as [d|]; [right|left; tauto].
  exists d. tauto.
Qed.

Lemma filter_match_matches d f : filter_sane f -> filter_match (Some d) f = Ret (matches d f).
Proof.
  intros Hf. unfold filter_match, matches.
  destruct (filter_sane_cases f Hf) as [[-> ->]|(p & -> & Hp & Hpos & _)]; [done|].
  destruct (flen f =? 0) eqn:E; bool_hyps; [lia|]. destruct (flen f <=? length d) eqn:E'; bool_hyps.
  - destruct (memcmp_zero d p (flen f)) as (r & -> & Hr); [lia..|]. cbn [mbind outcome_bind].
    rewrite Hr, Hp. by rewrite (take_ge p) by lia.
  - rewrite bool_decide_eq_false_2; [done|]. intros H. apply (f_equal length) in H.
    rewrite length_take in H. lia.
Qed.

Lemma process_forwarding_rule_match {X} ports r d match_fn (ctx : X) :
  rule_sane ports r ->
  process_forwarding_rule r (Some d) match_fn ctx =
    match list_find (fun f => matches d f = true) (filters_list r) with
    | Some (_, f) => match_fn r f (Some d) ctx
    | None => Ret ctx
    end.
Proof.
  intros [Hf _]. unfold process_forwarding_rule. induction Hf as [|f fs Hf _ IH]; [done|].
  cbn [process_filters_loop list_find]. rewrite filter_match_matches by done.
  cbn [mbind outcome_bind]. destruct (matches d f).
  - by rewrite decide_True.
  - rewrite decide_False, IH by done. by destruct (list_find _ fs) as [[??]|].
Qed.

Lemma first_match_find d fs :
  first_match d fs = action ∘ snd <$> list_find (fun f => matches d f = true) fs.
Proof.
  induction fs as [|f fs IH]; [done|]. cbn [first_match list_find]. destruct (matches d f).
  - by rewrite decide_True.
  - rewrite decide_False, IH by done. by destruct (list_find _ fs) as [[??]|].
Qed.

(** What the rules select for a message: an endpoint, or NULL for a rule that rejects it. *)
Definition routed (ports : list port_t) (rules : list forwarding_rule_t) (d : list Z) :
    list (option nat) :=
  flat_map (fun r =>
    match first_match d (filters_list r) with
    | Some FILTER_ACTION_ACCEPT => [dst_of ports r]
    | Some FILTER_ACTION_REJECT => [None]
    | None => []
    end) rules.

(** No prefix is selected by more rules than a cell of the cache has room for. *)
Definition prefixes_fit (ports : list port_t) (rules : list forwarding_rule_t) : Prop :=
  Forall (fun p => length (routed ports rules p) <= length ports) (port_prefixes rules).
Definition port_sane (ports : list port_t) (p : port_t) : Prop :=
  Forall (rule_sane ports) (forwarding_rules_list p) /\ prefixes_fit ports (forwarding_rules_list p).

Lemma length_routed ports rules d : length (routed ports rules d) <= length rules.
Proof.
  induction rules as [|r rules IH]; [done|]. cbn [routed flat_map]. rewrite length_app. fold (routed ports rules d).
  destruct (first_match d _) as [[]|]; simpl; lia.
Qed.

Lemma dst_pub_ept_ok ports r e :
  dst_pub_ept ports r = Ret e -> dst_of ports r = e.
Proof.
  unfold dst_pub_ept, dst_of. destruct (dst_port r) as [i|]; [|done]. simpl.
  destruct (ports !! i) as [p|]; [|done]. simpl. congruence.
Qed.

Lemma route_routed ports rules d :
  Forall (rule_sane ports) rules -> route ports rules d = send_all (non_null (routed ports rules d)) d.
Proof.
  induction 1 as [|r rules [_ [e He]] _ IH]; [done|]. cbn [route routed flat_map].
  fold (route ports rules d) (routed ports rules d). unfold non_null, send_all in *.
  rewrite filter_app, map_app, IH. f_equal. rewrite (dst_pub_ept_ok _ _ _ He).
  by destruct (first_match d _) as [[]|].
Qed.

(** Only the first [n] bytes matter when every prefix has length [n]. *)
Lemma first_match_take n d fs :
  n <= length d -> Forall (fun p => length p = n) (filter_prefixes fs) ->
  first_match (take n d) fs = first_match d fs.
Proof.
  intros Hn. induction fs as [|f fs IH]; [done|]. unfold filter_prefixes; cbn [omap list_omap].
  fold (filter_prefixes fs). cbn [first_match]. unfold matches. destruct (fdata f) as [p|]; [|done].
  rewrite Forall_cons. intros [Hp Hps]. rewrite IH by done. rewrite take_take, Hp, Nat.min_id. done.
Qed.

Lemma routed_take ports rules n d :
  n <= length d -> Forall (fun p => length p = n) (port_prefixes rules) ->
  routed ports rules (take n d) = routed ports rules d.
Proof.
  intros Hn Hp. unfold routed. induction rules as [|r rules IH]; [done|].
  cbn [flat_map]. cbn [port_prefixes flat_map] in Hp. apply Forall_app in Hp as [Hr Hrs].
  f_equal; [|by apply IH]. by rewrite first_match_take.
Qed.

(** A message that begins with no prefix gets the default action. *)
Lemma first_match_default d fs :
  Forall (fun p => length p <> 0 /\ take (length p) d <> p) (filter_prefixes fs) ->
  first_match d fs = first_match [] fs.
Proof.
  induction fs as [|f fs IH]; [done|]. unfold filter_prefixes; cbn [omap list_omap].
  fold (filter_prefixes fs). cbn [first_match]. unfold matches. destruct (fdata f) as [p|]; [|done].
  rewrite Forall_cons. intros [[Hp Hne] Hps]. rewrite IH by done.
  rewrite !bool_decide_eq_false_2; [done| |done]. rewrite take_nil. by destruct p.
Qed.

Lemma route_default ports rules d :
  Forall (fun p => length p <> 0 /\ take (length p) d <> p) (port_prefixes rules) ->
  Forall rule_regular rules ->
  route ports rules d = send_all (map (dst_of ports) (filter (fun r => accept_last r = true) rules)) d.
Proof.
  intros Hp Hr. induction Hr as [|r rules Hreg _ IH]; [done|].
  cbn [port_prefixes flat_map] in Hp. apply Forall_app in Hp as [Hp1 Hp2].
  cbn [route flat_map]. fold (route ports rules d). rewrite IH by done.
  rewrite first_match_default by done. unfold rule_regular, default_accept in Hreg.
  destruct (first_match [] _) as [[]|].
  - by rewrite filter_cons_True.
  - rewrite filter_cons_False; [done|]. rewrite Hreg. done.
  - rewrite filter_cons_False; [done|]. rewrite Hreg. done.
Qed.

(** ** The first pass *)

(** What the pass does with the prefix lengths alone. *)
Fixpoint scan_len (ls : list nat) (plen : Z) : option Z :=
  match ls with
  | [] => Some plen
  | n :: ls' =>
      if (0 <=? plen)%Z && negb (plen =? Z.of_nat n)%Z then None
      else if MAX_PREFIX_LEN <? n then None else scan_len ls' (Z.of_nat n)
  end.

Lemma scan_len_app l k plen : scan_len (l ++ k) plen = p ← scan_len l plen; scan_len k p.
Proof.
  revert plen; induction l as [|n l IH]; intros plen; simpl; [done|].
  destruct (_ && _); [done|]. destruct (_ <? _); [done|]. apply IH.
Qed.

Lemma scan_len_fixed n l :
  scan_len l (Z.of_nat n) = Some (Z.of_nat n) \/ scan_len l (Z.of_nat n) = None.
Proof.
  induction l as [|m l IH]; [by left|]. cbn [scan_len].
  destruct (0 <=? Z.of_nat n)%Z eqn:E; bool_hyps; [|lia].
  destruct (Z.eqb_spec (Z.of_nat n) (Z.of_nat m)) as [Hm|]; cbn [negb andb]; [|by right].
  assert (m = n) as -> by lia. destruct (_ <? _); [by right|]. exact IH.
Qed.

Lemma scan_len_spec l :
  match scan_len l (-1) with
  | Some plen => (l = [] /\ plen = (-1)%Z) \/
      l <> [] /\ exists n, plen = Z.of_nat n /\ n <= MAX_PREFIX_LEN /\ Forall (fun m => m = n) l
  | None => ~ exists n, n <= MAX_PREFIX_LEN /\ Forall (fun m => m = n) l
  end.
Proof.
  destruct l as [|n l]; [by left|]. cbn [scan_len]. simpl.
  destruct (MAX_PREFIX_LEN <? n) eqn:En; bool_hyps.
  { intros (m & Hm & [-> _]%Forall_cons). lia. }
  assert (forall k, scan_len k (Z.of_nat n) = Some (Z.of_nat n) <-> Forall (fun m => m = n) k) as Hk.
  { induction k as [|m k IH]; [done|]. cbn [scan_len]. rewrite Forall_cons.
    destruct (0 <=? Z.of_nat n)%Z eqn:E; bool_hyps; [|lia].
    destruct (Z.eqb_spec (Z.of_nat n) (Z.of_nat m)); simpl; [|split; [done|lia]].
    replace m with n by lia. destruct (MAX_PREFIX_LEN <? n) eqn:?; bool_hyps; [lia|]. tauto. }
  specialize (Hk l). destruct (scan_len_fixed n l) as [H|H]; rewrite H.
  - right. split; [done|]. exists n. split_and!; [done..|]. constructor; [done|]. by apply Hk.
  - intros (m & Hm & [-> Hl]%Forall_cons). apply Hk in Hl. congruence.
Qed.

Lemma scan_filters_spec fs plen n lst :
  Forall filter_sane fs ->
  scan_filters fs plen n lst =
    match scan_len (length <$> filter_prefixes fs) plen with
    | Some plen' => Some (plen', n + length (filter_prefixes fs),
                          match last fs with Some f => Some f | None => lst end)
    | None => None
    end.
Proof.
  intros Hf. revert plen n lst. induction Hf as [|f fs Hf _ IH]; intros plen n lst; simpl.
  { by rewrite Nat.add_0_r. }
  assert (Hlast : match last fs with Some g => Some g | None => match fs with [] => Some f | _ => lst end end =
    match last (f :: fs) with Some g => Some g | None => lst end).
  { destruct fs as [|g fs']; [done|]. rewrite last_cons_cons.
    destruct (last (g :: fs')) eqn:E; [done|]. by apply last_None in E. }
  unfold filter_prefixes; cbn [omap list_omap]. fold (filter_prefixes fs).
  destruct (filter_sane_cases f Hf) as [[-> ->]|(p & -> & Hp & Hpos & Hlt)]; simpl.
  - rewrite IH, Hlast. destruct (scan_len _ _); [|done]. done.
  - destruct (flen f =? 0) eqn:E; bool_hyps; [lia|]. simpl. rewrite s32_small by lia.
    rewrite Hp. destruct ((0 <=? plen)%Z && _) eqn:Et; [done|].
    assert ((if (plen <? 0)%Z then Z.of_nat (flen f) else plen) = Z.of_nat (flen f)) as ->.
    { destruct (plen <? 0)%Z eqn:?; [done|]. bool_hyps. apply andb_false_iff in Et as [?|?]; bool_hyps; lia. }
    destruct (MAX_PREFIX_LEN <? flen f) eqn:?; bool_hyps.
    + destruct (_ <? _)%Z eqn:?; bool_hyps; [done|lia].
    + destruct (_ <? _)%Z eqn:?; bool_hyps; [lia|]. rewrite IH, Hlast.
      destruct (scan_len _ _); [|done]. do 3 f_equal; lia.
Qed.

(** The accepting destinations appended to the first [sc_accept_count] cells. *)
Definition accepting (ports : list port_t) (rules : list forwarding_rule_t) : list (option nat) :=
  map (dst_of ports) (filter (fun r => accept_last r = true) rules).

Lemma scan_rules_spec ports rules s :
  Forall (rule_sane ports) rules ->
  sc_accept_count s + length rules <= length (sc_accept s) ->
  exists s' ok, scan_rules ports rules s = Ret (s', ok) /\
    match scan_len (length <$> port_prefixes rules) (sc_plen s) with
    | Some plen => ok = true /\ sc_plen s' = plen /\
        sc_total s' = sc_total s + length (port_prefixes rules) /\
        length (sc_accept s') = length (sc_accept s) /\
        sc_accept_count s' <= sc_accept_count s + length rules /\
        take (sc_accept_count s') (sc_accept s') =
          take (sc_accept_count s) (sc_accept s) ++ accepting ports rules
    | None => ok = false
    end.
Proof.
  intros Hr. revert s. induction Hr as [|r rules [Hf [e He]] _ IH]; intros s Hlen.
  { eexists _, _. split; [reflexivity|]. simpl. rewrite app_nil_r. split_and!; done || lia. }
  cbn [scan_rules port_prefixes flat_map]. fold (port_prefixes rules).
  rewrite fmap_app, length_app, scan_len_app, scan_filters_spec by done.
  destruct (scan_len (length <$> filter_prefixes _) _) as [plen|] eqn:Ep; simpl; [|by eexists _, _].
  assert (accepting ports (r :: rules) = (if accept_last r then [dst_of ports r] else []) ++ accepting ports rules) as ->.
  { unfold accepting. destruct (accept_last r) eqn:E.
    - by rewrite filter_cons_True.
    - rewrite filter_cons_False by (rewrite E; done). done. }
  simpl in Hlen. unfold accept_last. destruct (last (filters_list r)) as [[[] fd fl]|].
  - rewrite bool_decide_eq_true_2 by done. rewrite He. cbn [mbind outcome_bind].
    rewrite store_ok by lia. cbn [mbind outcome_bind].
    edestruct (IH (mk_scan plen (sc_total s + length (filter_prefixes (filters_list r)))
      (<[sc_accept_count s := Some e]> (sc_accept s)) (S (sc_accept_count s)) (S (sc_accept_last s))))
      as (s' & ok & -> & H); [simpl; rewrite length_insert; lia|].
    eexists _, _. split; [reflexivity|]. simpl in H. rewrite length_insert in H.
    destruct (scan_len _ plen); [|done]. destruct H as (? & ? & ? & ? & ? & Ht).
    split_and!; try done; try lia. rewrite Ht, app_assoc. f_equal.
    rewrite (dst_pub_ept_ok _ _ _ He).
    rewrite (take_S_r _ _ (Some e)) by (rewrite list_lookup_insert_eq by lia; done).
    f_equal. by rewrite take_insert_ge by lia.
  - edestruct (IH (mk_scan plen (sc_total s + length (filter_prefixes (filters_list r)))
      (sc_accept s) (sc_accept_count s) (sc_accept_last s))) as (s' & ok & -> & H); [simpl; lia|].
    eexists _, _. split; [reflexivity|]. simpl in H. destruct (scan_len _ plen); [|done].
    destruct H as (? & ? & ? & ? & ? & Ht). rewrite bool_decide_eq_false_2 by done.
    split_and!; done || lia.
  - edestruct (IH (mk_scan plen (sc_total s + length (filter_prefixes (filters_list r)))
      (sc_accept s) (sc_accept_count s) (sc_accept_last s))) as (s' & ok & -> & H); [simpl; lia|].
    eexists _, _. split; [reflexivity|]. simpl in H. destruct (scan_len _ plen); [|done].
    destruct H as (? & ? & ? & ? & ? & Ht). split_and!; done || lia.
Qed.

(** ** The second pass, sorting and removing duplicates *)

Lemma load_middle {A} (l k : list A) x : load (l ++ x :: k) (length l) = Ret x.
Proof. unfold load. by rewrite list_lookup_middle. Qed.

Lemma store_middle {A} (l k : list A) x y :
  store (l ++ x :: k) (length l) y = Ret ((l ++ [y]) ++ k).
Proof.
  rewrite store_ok by (rewrite length_app; simpl; lia). f_equal.
  rewrite insert_app_r_alt, Nat.sub_diag by lia. simpl. by rewrite <-app_assoc.
Qed.

Lemma slice_all {A} (l : list A) n : length l = n -> slice l 0 n = Ret l.
Proof. intros <-. rewrite slice_ok by lia. by rewrite drop_0, take_ge. Qed.

Lemma slice_cell d n : length d = n -> n <= MAX_PREFIX_LEN -> slice (cell d) 0 n = Ret d.
Proof. intros <- ?. rewrite slice_ok by (rewrite length_cell; lia). by rewrite drop_0, take_cell. Qed.

Lemma fill_filters_spec plen fs pre k :
  plen <= MAX_PREFIX_LEN -> Forall filter_sane fs ->
  Forall (fun p => length p = plen) (filter_prefixes fs) ->
  fill_filters plen fs (pre ++ replicate (length (filter_prefixes fs) + k) zero_prefix) (length pre) =
    Ret ((pre ++ map cell (filter_prefixes fs)) ++ replicate k zero_prefix,
         length (pre ++ map cell (filter_prefixes fs))).
Proof.
  intros Hp Hf. revert pre. induction Hf as [|f fs Hf _ IH]; intros pre Hl; simpl.
  { by rewrite app_nil_r. }
  revert Hl. unfold filter_prefixes; cbn [omap list_omap]. fold (filter_prefixes fs). intros Hl.
  destruct (filter_sane_cases f Hf) as [[Hd H0]|(p & Hd & Hlen & Hpos & Hlt)]; rewrite Hd in *; [by apply IH|].
  apply Forall_cons in Hl as [Hpl Hl]. destruct (0 <? flen f) eqn:E; bool_hyps; [|lia].
  cbn [length]. simpl. rewrite load_middle. cbn [mbind outcome_bind].
  rewrite slice_all by done. cbn [mbind outcome_bind].
  rewrite memcpy_cell by (done || lia || by left). cbn [mbind outcome_bind].
  rewrite store_middle. cbn [mbind outcome_bind].
  specialize (IH (pre ++ [cell p]) Hl). rewrite length_app in IH. simpl in IH.
  rewrite Nat.add_1_r in IH. rewrite IH, <-!app_assoc. done.
Qed.

Lemma fill_rules_spec ports plen rules pre k :
  plen <= MAX_PREFIX_LEN -> Forall (rule_sane ports) rules ->
  Forall (fun p => length p = plen) (port_prefixes rules) ->
  fill_rules plen rules (pre ++ replicate (length (port_prefixes rules) + k) zero_prefix) (length pre) =
    Ret ((pre ++ map cell (port_prefixes rules)) ++ replicate k zero_prefix,
         length (pre ++ map cell (port_prefixes rules))).
Proof.
  intros Hp Hf. revert pre. induction Hf as [|r rules [Hf _] _ IH]; intros pre Hl; simpl.
  { by rewrite app_nil_r. }
  cbn [port_prefixes flat_map] in *. fold (port_prefixes rules) in *.
  apply Forall_app in Hl as [Hl1 Hl2]. rewrite length_app, <-Nat.add_assoc, fill_filters_spec by done.
  cbn [mbind outcome_bind]. rewrite IH by done. by rewrite map_app, <-!app_assoc.
Qed.

Lemma StronglySorted_map_inv {A B} (f : A -> B) (R : relation B) (S : relation A) (P : A -> Prop) l :
  (forall x y, P x -> P y -> R (f x) (f y) -> S x y) -> Forall P l ->
  StronglySorted R (map f l) -> StronglySorted S l.
Proof.
  intros H. induction 1 as [|x l Hx Hl IH]; intros Hs; [constructor|].
  apply StronglySorted_inv in Hs as [Hs Hf]. constructor; [by apply IH|].
  change (Forall (R (f x)) (f <$> l)) in Hf. rewrite Forall_fmap in Hf.
  rewrite Forall_forall in *. intros y Hy. apply H; auto. by apply Hf.
Qed.

Lemma qsort_prefixes_cells plen l :
  plen <= MAX_PREFIX_LEN -> Forall (fun p => length p = plen) l ->
  exists l', qsort_prefixes plen (map cell l) = map cell l' /\ l' ≡ₚ l /\
    StronglySorted (fun a b => bytes_cmp a b <= 0)%Z l'.
Proof.
  intros Hp Hl. pose (R := fun a b => (compare_prefixes plen a b <= 0)%Z).
  assert (qsort_prefixes plen (map cell l) ≡ₚ map cell l) as Hperm by apply merge_sort_Permutation.
  destruct (Permutation_map_inv _ _ Hperm) as (l' & Heq & Hl'). exists l'.
  split_and!; [done|by symmetry|].
  assert (Forall (fun p => length p = plen) l') as Hlen by (by rewrite <-Hl').
  assert (StronglySorted R (qsort_prefixes plen (map cell l))) as Hs.
  { apply @StronglySorted_merge_sort.
    - intros a b c. apply bytes_cmp_trans.
    - intros a b. unfold compare_prefixes. rewrite (bytes_cmp_sym (take plen a)). lia. }
  rewrite Heq in Hs. eapply StronglySorted_map_inv; [|exact Hlen|exact Hs].
  intros a b Ha Hb. unfold R, compare_prefixes. simpl. by rewrite !take_cell.
Qed.

(** Dropping repeated neighbours of a sorted list leaves each element once. *)
Fixpoint dedup (prev : option (list Z)) (l : list (list Z)) : list (list Z) :=
  match l with
  | [] => []
  | e :: l' => if bool_decide (prev = Some e) then dedup prev l' else e :: dedup (Some e) l'
  end.

Lemma elem_of_dedup_1 prev l x : x ∈ dedup prev l -> x ∈ l.
Proof.
  revert prev; induction l as [|e l IH]; intros prev; simpl; [done|].
  case_bool_decide; [right; eauto|]. rewrite elem_of_cons. intros [->|?]; [left|right; eauto].
Qed.

Lemma elem_of_dedup_2 prev l x : x ∈ l -> x ∈ dedup prev l \/ prev = Some x.
Proof.
  revert prev; induction l as [|e l IH]; intros prev; simpl; [by intros ?%elem_of_nil|].
  rewrite elem_of_cons. intros [->|Hx]; case_bool_decide; auto; rewrite elem_of_cons; auto.
  destruct (IH (Some e) Hx) as [?|[= ->]]; auto.
Qed.

Lemma dedup_NoDup prev l :
  StronglySorted (fun a b => bytes_cmp a b <= 0)%Z l ->
  match prev with Some p => Forall (fun b => bytes_cmp p b <= 0)%Z l | None => True end ->
  NoDup (dedup prev l) /\ match prev with Some p => p ∉ dedup prev l | None => True end.
Proof.
  intros Hs. revert prev. induction Hs as [|e l Hs IH Hf]; intros prev Hp; simpl.
  { split; [constructor|]. destruct prev; [apply not_elem_of_nil|done]. }
  case_bool_decide as He.
  - subst prev. apply IH. by apply Forall_cons in Hp as [_ ?].
  - destruct (IH (Some e) Hf) as [Hn He']. split; [by constructor|].
    destruct prev as [p|]; [|done]. apply Forall_cons in Hp as [Hpe Hp].
    rewrite elem_of_cons. intros [->|Hin]; [done|].
    (* [p <= e <= p] *)
    apply elem_of_dedup_1 in Hin. rewrite Forall_forall in Hf. specialize (Hf _ Hin).
    apply He. f_equal. apply bytes_cmp_eq. rewrite bytes_cmp_sym in Hf. lia.
Qed.

Lemma dedup_loop_spec plen l prev pre k :
  plen <= MAX_PREFIX_LEN -> Forall (fun p => length p = plen) l ->
  match prev with Some p => length p = plen | None => True end ->
  exists k', dedup_loop plen (map cell l) (cell <$> prev) (pre ++ replicate (length l + k) zero_prefix) (length pre) =
    Ret ((pre ++ map cell (dedup prev l)) ++ replicate k' zero_prefix,
         length (pre ++ map cell (dedup prev l))).
Proof.
  intros Hp Hl. revert prev pre k. induction Hl as [|e l He _ IH]; intros prev pre k Hprev; simpl.
  { exists k. by rewrite app_nil_r. }
  assert (match cell <$> prev with
          | Some p => r ← memcmp p (cell e) plen; Ret (r =? 0)%Z
          | None => Ret false end = Ret (bool_decide (prev = Some e))) as Hsame.
  { destruct prev as [p|]; simpl; [|done].
    destruct (memcmp_zero (cell p) (cell e) plen) as (r & -> & Hr); [rewrite length_cell; lia..|].
    cbn [mbind outcome_bind]. rewrite Hr, !take_cell by done. f_equal. apply bool_decide_ext. split; congruence. }
  rewrite Hsame. cbn [mbind outcome_bind]. case_bool_decide as Heq.
  - destruct (IH prev pre (S k) Hprev) as [k' IH']. exists k'. rewrite <-IH'. by rewrite <-Nat.add_succ_comm.
  - cbn [replicate]. rewrite load_middle. cbn [mbind outcome_bind].
    rewrite slice_cell by done. cbn [mbind outcome_bind].
    rewrite memcpy_cell by (lia || by left). cbn [mbind outcome_bind].
    rewrite store_middle. cbn [mbind outcome_bind].
    destruct (IH (Some e) (pre ++ [cell e]) k He) as [k' IH']. exists k'.
    rewrite length_app in IH'. simpl in IH'. rewrite Nat.add_1_r in IH'.
    rewrite IH', <-!app_assoc. done.
Qed.

(** ** The prefixes of a port *)

(** [rp] holds the distinct prefixes [ks] of [rules], each in a zeroed cell. *)
Definition prefixes_good (rules : list forwarding_rule_t) (rp : rule_prefixes_t) (ks : list (list Z)) :
    Prop :=
  NoDup ks /\ (forall p, p ∈ ks <-> p ∈ port_prefixes rules) /\
  rp_count rp = length ks /\ take (length ks) (prefixes rp) = map cell ks /\
  ((ks = [] /\ prefix_len rp = SIZE_MAX) \/
   (ks <> [] /\ exists n, 0 < n <= MAX_PREFIX_LEN /\ prefix_len rp = Z.of_nat n /\
      Forall (fun p => length p = n) ks)).

Lemma port_prefixes_pos ports rules :
  Forall (rule_sane ports) rules -> Forall (fun p => 0 < length p) (port_prefixes rules).
Proof.
  induction 1 as [|r rules [Hf _] _ IH]; [constructor|]. cbn [port_prefixes flat_map].
  apply Forall_app. split; [|done]. induction Hf as [|f fs Hf _ IHf]; [constructor|].
  unfold filter_prefixes; cbn [omap list_omap]. destruct (filter_sane_cases f Hf) as [[-> _]|(p & -> & ? & ? & _)].
  - done.
  - constructor; [lia|done].
Qed.

Lemma extract_rule_prefixes_cases ports port accept al :
  Forall (rule_sane ports) (forwarding_rules_list port) ->
  length accept = length (forwarding_rules_list port) ->
  exists ap ac al' rp,
    extract_rule_prefixes ports port accept al = Ret (ap, ac, al', rp) /\
    match rp with
    | Some rp => prefixes_uniform (port_prefixes (forwarding_rules_list port)) /\
        ac <= length ap /\ take ac ap = accepting ports (forwarding_rules_list port) /\
        exists ks, prefixes_good (forwarding_rules_list port) rp ks
    | None => ~ prefixes_uniform (port_prefixes (forwarding_rules_list port))
    end.
Proof.
  set (rules := forwarding_rules_list port). intros Hr Hlen. unfold extract_rule_prefixes. fold rules.
  destruct (scan_rules_spec ports rules (mk_scan (-1) 0 accept 0 al) Hr) as (s & ok & Hs & H); [simpl; lia|].
  rewrite Hs. cbn [mbind outcome_bind]. simpl in H.
  pose proof (scan_len_spec (length <$> port_prefixes rules)) as Hsl.
  destruct (scan_len _ _) as [plen|].
  2: { subst ok. cbn [negb]. eexists _, _, _, None. split; [reflexivity|].
       intros (n & Hn & Hu). apply Hsl. exists n. split; [done|]. by apply Forall_fmap. }
  destruct H as (-> & -> & Htot & Hla & Hac & Htake). cbn [negb].
  assert (exists n, Z.to_nat plen = n /\ n <= MAX_PREFIX_LEN /\ Forall (fun p => length p = n) (port_prefixes rules) /\
    ((port_prefixes rules = [] /\ plen = (-1)%Z) \/ (port_prefixes rules <> [] /\ plen = Z.of_nat n))) as (n & Hn & Hn8 & Hu & Hcase).
  { destruct Hsl as [[Hnil ->]|(Hne & n & -> & Hn & Hu)].
    - apply fmap_nil_inv in Hnil. rewrite Hnil. exists 0. simpl. split_and!; [done|lia|done|]. by left.
    - exists n. rewrite Nat2Z.id. split_and!; [done..|by apply Forall_fmap in Hu|].
      right. split; [|done]. intros Hnil. by rewrite Hnil in Hne. }
  rewrite Hn, Htot. pose proof (fill_rules_spec ports n rules [] 0 Hn8 Hr Hu) as Hfill.
  rewrite Nat.add_0_r in Hfill. simpl in Hfill. rewrite app_nil_r in Hfill. rewrite Hfill.
  cbn [mbind outcome_bind]. rewrite length_map, Nat.eqb_refl. cbn [negb].
  destruct (qsort_prefixes_cells n (port_prefixes rules) Hn8 Hu) as (l' & Hq & Hperm & Hsort).
  rewrite Hq, <-(Permutation_length Hperm). assert (Forall (fun p => length p = n) l') as Hl' by (by rewrite Hperm).
  destruct (dedup_loop_spec n l' None [] 0 Hn8 Hl' I) as [k Hd].
  rewrite Nat.add_0_r in Hd. simpl in Hd. rewrite Hd. cbn [mbind outcome_bind].
  eexists _, _, _, (Some _). split; [reflexivity|]. cbn beta iota.
  destruct (dedup_NoDup None l' Hsort I) as [Hnd _].
  assert (forall p, p ∈ dedup None l' <-> p ∈ port_prefixes rules) as Hmem.
  { intros p. rewrite <-Hperm. split; [apply elem_of_dedup_1|]. intros Hp.
    by destruct (elem_of_dedup_2 None l' p Hp). }
  split; [by exists n|]. split; [lia|]. split; [by rewrite Htake|].
  exists (dedup None l'). unfold prefixes_good. cbn [rp_count prefixes prefix_len].
  split_and!; [done|done|by rewrite length_map|by rewrite take_app_length'; rewrite ?length_map|].
  destruct (dedup None l') as [|k0 ks] eqn:Ek.
  - left. split; [done|]. destruct Hcase as [[_ ->]|[Hne _]]; [done|]. exfalso.
    destruct (port_prefixes rules) as [|p ?]; [done|]. apply (not_elem_of_nil p), Hmem. left.
  - right. split; [done|]. exists n. assert (k0 ∈ port_prefixes rules) as Hk0 by (apply Hmem; left).
    pose proof (port_prefixes_pos _ _ Hr) as Hpos. rewrite Forall_forall in Hu, Hpos.
    specialize (Hpos _ Hk0). rewrite (Hu _ Hk0) in Hpos.
    destruct Hcase as [[Hnil _]|[_ ->]]; [rewrite Hnil in Hk0; by apply not_elem_of_nil in Hk0|].
    split_and!; [lia|done|rewrite u32_small; [done|unfold MAX_PREFIX_LEN in Hn8; lia]|].
    apply Forall_forall. intros p Hp. by apply Hu, Hmem.
Qed.

(** Extracting the prefixes of a port.  When all prefixes of the port's rules have one
    length of at most eight bytes, the result is the list of the distinct prefixes, each once
    and exactly those of the rules, with their common length, or [SIZE_MAX] when there are
    none; and the accept list holds the destinations of the rules whose last filter accepts,
    in order.  Otherwise it is NULL.  No access leaves the arrays allocated for it. *)
Theorem extract_rule_prefixes_spec ports port accept al :
  Forall (rule_sane ports) (forwarding_rules_list port) ->
  length accept = length (forwarding_rules_list port) ->
  exists ap ac al' rp,
    extract_rule_prefixes ports port accept al = Ret (ap, ac, al', rp) /\
    match rp with
    | Some rp => prefixes_uniform (port_prefixes (forwarding_rules_list port)) /\
        ac <= length ap /\ take ac ap = accepting ports (forwarding_rules_list port) /\
        exists ks, prefixes_good (forwarding_rules_list port) rp ks
    | None => ~ prefixes_uniform (port_prefixes (forwarding_rules_list port))
    end.
Proof. apply extract_rule_prefixes_cases. Qed.

(** ** Filling the cache *)

Section cache.
Context {C : Cmph}.

Lemma set_cached_id (c : rule_cache_t C) : set_cached c (cached_ports c) = c.
Proof. by destruct c. Qed.

Lemma store_replicate {A} (pre : list A) k x y :
  0 < k -> store (pre ++ replicate k x) (length pre) y = Ret ((pre ++ [y]) ++ replicate (k - 1) x).
Proof.
  destruct k as [|k]; [lia|]. intros _. cbn [replicate]. rewrite store_middle.
  by rewrite Nat.sub_1_r.
Qed.

(** One rule: nothing when no filter matches, else one more endpoint in the cell of [d]. *)
Lemma process_rule_cache ports r d h (c : rule_cache_t C) pfx pre k :
  rule_sane ports r -> hash c = Some h -> prefix_len (rule_prefixes c) = Z.of_nat (length d) ->
  length d <= MAX_PREFIX_LEN ->
  cached_ports c !! cmph_search h d = Some (mk_cached pfx (length pre) (pre ++ replicate k None)) ->
  pfx = zero_prefix \/ pfx = cell d ->
  process_forwarding_rule r (Some d) (cache_match_process ports) c =
    match routed ports [r] d with
    | [] => Ret c
    | e :: _ =>
        if 0 <? k then Ret (set_cached c (<[cmph_search h d :=
          mk_cached (cell d) (S (length pre)) ((pre ++ [e]) ++ replicate (k - 1) None)]> (cached_ports c)))
        else Undef
    end.
Proof.
  intros Hr Hh Hp Hd Hc Hpfx. rewrite (process_forwarding_rule_match ports) by done.
  cbn [routed flat_map]. rewrite app_nil_r, first_match_find.
  destruct (list_find _ _) as [[i f]|] eqn:Ef; [|done]. cbn [fmap option_fmap option_map compose snd].
  unfold cache_match_process. rewrite Hp, Z.ltb_irrefl, Hh, Nat2Z.id. cbn [mbind outcome_bind of_option].
  rewrite slice_all by done. cbn [mbind outcome_bind]. unfold load. rewrite Hc. cbn [of_option mbind outcome_bind].
  cbn [endpoints cp_count cp_prefix].
  assert (cmph_search h d < length (cached_ports c)) as Hlt by (by eapply lookup_lt_Some).
  assert (forall e, (es ← store (pre ++ replicate k None) (length pre) e;
      pfx' ← memcpy pfx 0 d;
      cps ← store (cached_ports c) (cmph_search h d) (mk_cached pfx' (S (length pre)) es);
      Ret (set_cached c cps)) =
    if 0 <? k then Ret (set_cached c (<[cmph_search h d :=
      mk_cached (cell d) (S (length pre)) ((pre ++ [e]) ++ replicate (k - 1) None)]> (cached_ports c)))
    else Undef) as Hst.
  { intros e. destruct (0 <? k) eqn:Ek; bool_hyps.
    2: { replace k with 0 by lia. cbn [replicate]. rewrite app_nil_r. unfold store.
         by rewrite Nat.ltb_irrefl. }
    rewrite store_replicate by done. cbn [mbind outcome_bind].
    rewrite memcpy_cell by done. cbn [mbind outcome_bind]. by rewrite store_ok. }
  destruct Hr as [_ [e He]]. destruct (action f).
  - rewrite He. rewrite (dst_pub_ept_ok _ _ _ He). apply Hst.
  - apply Hst.
Qed.

Lemma routed_cons ports r rules d : routed ports (r :: rules) d = routed ports [r] d ++ routed ports rules d.
Proof. unfold routed. simpl. by rewrite app_nil_r. Qed.

Lemma routed_one ports r d : routed ports [r] d = [] \/ exists e, routed ports [r] d = [e].
Proof. unfold routed. simpl. destruct (first_match _ _) as [[]|]; simpl; eauto. Qed.

(** All rules: the selected endpoints, in order, in the cell of [d]. *)
Lemma process_rules_cache ports rules d h (c : rule_cache_t C) pfx pre k :
  Forall (rule_sane ports) rules -> hash c = Some h ->
  prefix_len (rule_prefixes c) = Z.of_nat (length d) -> length d <= MAX_PREFIX_LEN ->
  cached_ports c !! cmph_search h d = Some (mk_cached pfx (length pre) (pre ++ replicate k None)) ->
  length (routed ports rules d) <= k -> pfx = zero_prefix \/ pfx = cell d ->
  exists pfx', process_forwarding_rules rules (Some d) (cache_match_process ports) c =
    Ret (set_cached c (<[cmph_search h d :=
      mk_cached pfx' (length (pre ++ routed ports rules d))
        ((pre ++ routed ports rules d) ++ replicate (k - length (routed ports rules d)) None)]> (cached_ports c))) /\
    (routed ports rules d <> [] \/ pfx = cell d -> pfx' = cell d).
Proof.
  intros Hr. revert c pfx pre k. induction Hr as [|r rules Hr Hrs IH]; intros c pfx pre k Hh Hp Hd Hc Hk Hpfx.
  { exists pfx. cbn [process_forwarding_rules routed flat_map length]. rewrite app_nil_r, Nat.sub_0_r.
    split; [|by intros [?|?]]. rewrite list_insert_id by done. by rewrite set_cached_id. }
  cbn [process_forwarding_rules]. rewrite (routed_cons ports r rules) in Hk. rewrite length_app in Hk.
  rewrite (process_rule_cache ports r d h c pfx pre k) by done.
  rewrite (routed_cons ports r rules). destruct (routed_one ports r d) as [He|[e He]]; rewrite He in *; cbn [app length] in *.
  - cbn [mbind outcome_bind]. destruct (IH c pfx pre k) as (pfx' & -> & Hp'); [done || lia..|]. by exists pfx'.
  - rewrite (proj2 (Nat.ltb_lt _ _)) by lia. cbn [mbind outcome_bind].
    assert (cmph_search h d < length (cached_ports c)) as Hlt by (by eapply lookup_lt_Some).
    destruct (IH (set_cached c (<[cmph_search h d := mk_cached (cell d) (S (length pre))
      ((pre ++ [e]) ++ replicate (k - 1) None)]> (cached_ports c))) (cell d) (pre ++ [e]) (k - 1))
      as (pfx' & -> & Hp'); [done|done|done| |lia|by right|].
    { cbn [set_cached cached_ports]. rewrite list_lookup_insert_eq by done. by rewrite length_app, Nat.add_1_r. }
    exists pfx'. split; [|intros _; apply Hp'; by right].
    unfold set_cached; cbn [cached_ports hash accept_ports_count accept_ports rule_prefixes rule_count rc_sub_ept].
    rewrite list_insert_insert_eq, <-!app_assoc. cbn [app length].
    by replace (k - 1 - length (routed ports rules d)) with (k - S (length (routed ports rules d))) by lia.
Qed.

(** More selected endpoints than cells left: the store leaves the array. *)
Lemma process_rules_overflow ports rules d h (c : rule_cache_t C) pfx pre k :
  Forall (rule_sane ports) rules -> hash c = Some h ->
  prefix_len (rule_prefixes c) = Z.of_nat (length d) -> length d <= MAX_PREFIX_LEN ->
  cached_ports c !! cmph_search h d = Some (mk_cached pfx (length pre) (pre ++ replicate k None)) ->
  k < length (routed ports rules d) -> pfx = zero_prefix \/ pfx = cell d ->
  process_forwarding_rules rules (Some d) (cache_match_process ports) c = Undef.
Proof.
  intros Hr. revert c pfx pre k. induction Hr as [|r rules Hr Hrs IH]; intros c pfx pre k Hh Hp Hd Hc Hk Hpfx.
  { cbn in Hk. lia. }
  rewrite (routed_cons ports r rules), length_app in Hk. cbn [process_forwarding_rules].
  rewrite (process_rule_cache ports r d h c pfx pre k) by done.
  destruct (routed_one ports r d) as [He|[e He]]; rewrite He in *; cbn [length] in Hk.
  - cbn [mbind outcome_bind]. by eapply (IH c pfx pre k).
  - destruct (0 <? k) eqn:Ek; bool_hyps; [|done]. cbn [mbind outcome_bind].
    assert (cmph_search h d < length (cached_ports c)) as Hlt by (by eapply lookup_lt_Some).
    eapply (IH _ (cell d) (pre ++ [e]) (k - 1)); [done|done|done| |lia|by right].
    cbn [set_cached cached_ports]. rewrite list_lookup_insert_eq by done. by rewrite length_app, Nat.add_1_r.
Qed.

Lemma first_match_member p fs : p ∈ filter_prefixes fs -> first_match p fs <> None.
Proof.
  induction fs as [|f fs IH]; [by intros ?%elem_of_nil|]. unfold filter_prefixes; cbn [omap list_omap].
  fold (filter_prefixes fs). cbn [first_match]. unfold matches. destruct (fdata f) as [q|]; [|done].
  rewrite elem_of_cons. intros [->|Hp].
  - by rewrite take_ge, bool_decide_eq_true_2 by done.
  - case_bool_decide; [done|auto].
Qed.

Lemma routed_member ports rules p : p ∈ port_prefixes rules -> routed ports rules p <> [].
Proof.
  induction rules as [|r rules IH]; [by intros ?%elem_of_nil|]. cbn [port_prefixes flat_map].
  rewrite elem_of_app, routed_cons. intros [Hp|Hp] [Hn1 Hn2]%app_nil; [|by apply IH].
  apply first_match_member in Hp. unfold routed in Hn1. simpl in Hn1.
  by destruct (first_match p _) as [[]|].
Qed.

(** The cell of a prefix once the cache is filled. *)
Definition final_cell (ports : list port_t) (rules : list forwarding_rule_t) (p : list Z) : cached_port_t :=
  mk_cached (cell p) (length (routed ports rules p))
    (routed ports rules p ++ replicate (length ports - length (routed ports rules p)) None).

Lemma cache_prefixes_spec ports rules n ks h (c : rule_cache_t C) :
  Forall (rule_sane ports) rules -> n <= MAX_PREFIX_LEN ->
  hash c = Some h -> prefix_len (rule_prefixes c) = Z.of_nat n ->
  Forall (fun p => length p = n /\ p ∈ port_prefixes rules) ks -> NoDup (map (cmph_search h) ks) ->
  (forall p, p ∈ ks ->
    cached_ports c !! cmph_search h p = Some (mk_cached zero_prefix 0 (replicate (length ports) None))) ->
  (exists cps, cache_prefixes ports rules n (map cell ks) c = Ret (set_cached c cps) /\
    Forall (fun p => length (routed ports rules p) <= length ports) ks /\
    length cps = length (cached_ports c) /\
    (forall p, p ∈ ks -> cps !! cmph_search h p = Some (final_cell ports rules p)) /\
    (forall i, i ∉ map (cmph_search h) ks -> cps !! i = cached_ports c !! i)) \/
  (cache_prefixes ports rules n (map cell ks) c = Undef /\
   ~ Forall (fun p => length (routed ports rules p) <= length ports) ks).
Proof.
  intros Hr Hn. revert c. induction ks as [|k ks IH]; intros c Hh Hp Hks Hnd Hfresh.
  { left. exists (cached_ports c). cbn. rewrite set_cached_id. split_and!; try done.
    by intros p ?%elem_of_nil. }
  apply Forall_cons in Hks as [[Hkn Hkm] Hks]. apply NoDup_cons in Hnd as [Hk Hnd].
  cbn [map cache_prefixes]. rewrite slice_cell by done. cbn [mbind outcome_bind].
  destruct (decide (length (routed ports rules k) <= length ports)) as [Hfit|Hover].
  2: { right. rewrite (process_rules_overflow ports rules k h c zero_prefix [] (length ports));
         [|done|done|by rewrite Hkn|lia|apply Hfresh; left|lia|by left].
       split; [done|]. by intros [? _]%Forall_cons. }
  destruct (process_rules_cache ports rules k h c zero_prefix [] (length ports)) as (pfx & -> & Hpfx);
    [done|done|by rewrite Hkn|lia|apply Hfresh; left|done|by left|].
  rewrite Hpfx by (left; by apply routed_member). cbn [mbind outcome_bind app].
  fold (final_cell ports rules k).
  assert (cmph_search h k < length (cached_ports c)) as Hlt.
  { eapply lookup_lt_Some, Hfresh. left. }
  destruct (IH (set_cached c (<[cmph_search h k := final_cell ports rules k]> (cached_ports c))))
    as [(cps & Hcps & Hfits & Hl & Hin & Hout)|[Hu Hno]]; [done|done|done|done| | |].
  - intros p Hpk. cbn [set_cached cached_ports]. rewrite list_lookup_insert_ne; [apply Hfresh; by right|].
    intros Heq. apply Hk. rewrite Heq. by apply (list_elem_of_fmap_2 (cmph_search h)).
  - left. exists cps. cbn [set_cached cached_ports] in *. rewrite length_insert in Hl.
    split_and!; [exact Hcps|by constructor|done|..].
    + intros p [->|Hpk]%elem_of_cons; [|by apply Hin].
      rewrite Hout by done. by rewrite list_lookup_insert_eq.
    + intros i [Hne Hi]%not_elem_of_cons. rewrite Hout by done. by rewrite list_lookup_insert_ne.
  - right. split; [exact Hu|]. by intros [_ ?]%Forall_cons.
Qed.
End cache.

(** ** The caches of a router *)

Section create.
Context {C : Cmph} `{!CmphSpec C}.

(** The cache of a port agrees with the port's rules. *)
Definition cache_good (ports : list port_t) (port : port_t) (c : rule_cache_t C) : Prop :=
  let rules := forwarding_rules_list port in
  rc_sub_ept c = sub_ept port /\ rule_count c = length rules /\
  accept_ports_count c <= length (accept_ports c) /\
  take (accept_ports_count c) (accept_ports c) = accepting ports rules /\
  exists ks, prefixes_good rules (rule_prefixes c) ks /\
    (ks <> [] -> exists h, hash c = Some h /\ cmph_new ks = Some h /\
       length (cached_ports c) = length ks /\
       forall p, p ∈ ks -> cached_ports c !! cmph_search h p = Some (final_cell ports rules p)).

Lemma cmph_keys_good rules rp ks :
  prefixes_good rules rp ks -> ks <> [] ->
  cmph_keys rp = ks.
Proof.
  intros (_ & _ & Hc & Ht & [[? _]|(_ & n & _ & Hn & Hl)]) Hne; [done|].
  unfold cmph_keys. rewrite Hc, Ht, Hn, Nat2Z.id, map_map. rewrite <-(map_id ks) at 2.
  apply map_ext_Forall. eapply Forall_impl; [exact Hl|]. intros p Hp. by apply take_cell.
Qed.

Lemma NoDup_search ks h : NoDup ks -> cmph_new ks = Some h -> NoDup (map (cmph_search h) ks).
Proof.
  intros Hnd Hh. assert (forall l, NoDup l -> l ⊆ ks -> NoDup (map (cmph_search h) l)) as H; [|by apply H].
  induction l as [|k l IH]; intros Hl Hsub; [constructor|]. apply NoDup_cons in Hl as [Hk Hl].
  cbn [map]. constructor; [|apply IH; [done|set_solver]].
  intros (k' & Heq & Hk')%(list_elem_of_fmap (cmph_search h)).
  assert (k = k') as ->; [|done]. eapply cmph_perfect; [exact Hnd|done|set_solver|set_solver|done].
Qed.

(** The three outcomes for a port, given a hash for its prefixes. *)
Lemma create_rule_cache_cases ports port al :
  Forall (rule_sane ports) (forwarding_rules_list port) ->
  let rules := forwarding_rules_list port in
  (~ prefixes_uniform (port_prefixes rules) /\
   exists al', create_rule_cache ports (length ports) port al = Ret (None, al')) \/
  (prefixes_uniform (port_prefixes rules) /\ prefixes_fit ports rules /\
   exists c al', create_rule_cache ports (length ports) port al = Ret (Some c, al') /\ cache_good ports port c) \/
  (prefixes_uniform (port_prefixes rules) /\ create_rule_cache ports (length ports) port al = Undef /\
   (~ prefixes_fit ports rules \/ exists ks, NoDup ks /\ ks <> [] /\ cmph_new ks = None)).
Proof.
  intros Hr. cbn zeta. unfold create_rule_cache.
  destruct (extract_rule_prefixes_cases ports port (replicate (length (forwarding_rules_list port)) None) al Hr)
    as (ap & ac & al' & rp & -> & H); [apply length_replicate|]. cbn [mbind outcome_bind].
  destruct rp as [rp|]; [|left; split; [done|by eexists]]. right.
  destruct H as (Hu & Hac & Hacc & ks & Hg). pose proof Hg as (Hnd & Hmem & Hc & Ht & Hcase).
  assert (Hfit : Forall (fun p => length (routed ports (forwarding_rules_list port) p) <= length ports) ks <->
    prefixes_fit ports (forwarding_rules_list port)).
  { unfold prefixes_fit. rewrite !Forall_forall. by setoid_rewrite Hmem. }
  destruct (0 <? rp_count rp) eqn:Ec; bool_hyps.
  2: { left. split; [done|]. assert (ks = []) as -> by (destruct ks; simpl in Hc; [done|lia]).
       split; [by apply Hfit; constructor|]. eexists _, _. split; [reflexivity|]. split_and!; try done.
       by exists []. }
  assert (ks <> []) as Hne by (intros ->; simpl in Hc; lia).
  rewrite (cmph_keys_good _ _ _ Hg Hne).
  destruct (cmph_new ks) as [h|] eqn:Hh; [|right; split_and!; [done..|right; by exists ks]].
  destruct Hcase as [[? _]|(_ & n & Hn & Hp & Hl)]; [done|]. rewrite Hp, Nat2Z.id, Hc, Ht.
  destruct (cache_prefixes_spec ports (forwarding_rules_list port) n ks h
    (mk_cache (Some h) (replicate (length ks) (mk_cached zero_prefix 0 (replicate (length ports) None)))
      ac ap rp (length (forwarding_rules_list port)) (sub_ept port)))
    as [(cps & -> & Hf & Hlc & Hin & _)|[-> Hno]]; [done|lia|done|done| |by apply NoDup_search| | |].
  - rewrite Forall_forall in *. intros p Hpk. split; [by apply Hl|by apply Hmem].
  - intros p Hpk. cbn [cached_ports]. apply lookup_replicate_2. by apply cmph_range.
  - left. split; [done|]. split; [by apply Hfit|]. cbn [mbind outcome_bind].
    eexists _, _. split; [reflexivity|]. cbn [cached_ports] in Hlc. rewrite length_replicate in Hlc.
    split_and!; try done. exists ks. split; [done|]. intros _. by exists h.
  - right. split_and!; [done..|left; by rewrite <-Hfit].
Qed.

Lemma create_rule_cache_spec ports port al :
  port_sane ports port ->
  (exists oc al', create_rule_cache ports (length ports) port al = Ret (oc, al') /\
     match oc with
     | Some c => prefixes_uniform (port_prefixes (forwarding_rules_list port)) /\ cache_good ports port c
     | None => ~ prefixes_uniform (port_prefixes (forwarding_rules_list port))
     end) \/
  create_rule_cache ports (length ports) port al = Undef /\
  exists ks, NoDup ks /\ ks <> [] /\ cmph_new ks = None.
Proof.
  intros [Hr Hfit].
  destruct (create_rule_cache_cases ports port al Hr) as [[? [al' ?]]|[(? & _ & c & al' & ? & ?)|(? & ? & [?|?])]].
  - left. by exists None, al'.
  - left. by exists (Some c), al'.
  - done.
  - by right.
Qed.

(** The cache of a port, on every branch.  It is refused when the port's prefixes differ
    in length or are longer than eight bytes; otherwise it is built, and agrees with the
    rules, exactly when no prefix is selected by more rules than the router has ports: with
    one rule more, the endpoint is stored past the end of the array allocated for it. *)
Theorem create_rule_cache_outcome ports port al :
  Forall (rule_sane ports) (forwarding_rules_list port) ->
  (forall ks, NoDup ks -> ks <> [] -> cmph_new ks <> None) ->
  let rules := forwarding_rules_list port in
  (~ prefixes_uniform (port_prefixes rules) ->
   exists al', create_rule_cache ports (length ports) port al = Ret (None, al')) /\
  (prefixes_uniform (port_prefixes rules) -> prefixes_fit ports rules ->
   exists c al', create_rule_cache ports (length ports) port al = Ret (Some c, al') /\ cache_good ports port c) /\
  (prefixes_uniform (port_prefixes rules) -> ~ prefixes_fit ports rules ->
   create_rule_cache ports (length ports) port al = Undef).
Proof.
  intros Hr Hnew. cbn zeta.
  destruct (create_rule_cache_cases ports port al Hr)
    as [[Hu H]|[(Hu & Hf & c & al' & H)|(Hu & H & [Hf|(ks & H1 & H2 & H3)])]];
    [split_and!; intros; by eauto..|by destruct (Hnew ks)].
Qed.

Lemma create_rule_caches_spec all ports al :
  Forall (port_sane all) ports ->
  (exists ocs al', create_rule_caches all (length all) ports al = Ret (ocs, al') /\
     match ocs with
     | Some cs => Forall (fun p => prefixes_uniform (port_prefixes (forwarding_rules_list p))) ports /\
         Forall2 (cache_good all) ports cs
     | None => ~ Forall (fun p => prefixes_uniform (port_prefixes (forwarding_rules_list p))) ports
     end) \/
  create_rule_caches all (length all) ports al = Undef /\
  exists ks, NoDup ks /\ ks <> [] /\ cmph_new ks = None.
Proof.
  intros Hs. revert al. induction Hs as [|p ports Hp _ IH]; intros al; cbn [create_rule_caches].
  { left. by eexists (Some []), _. }
  destruct (create_rule_cache_spec all p al Hp) as [(oc & al1 & -> & Hoc)|[-> ?]]; [|by right].
  cbn [mbind outcome_bind]. destruct oc as [c|].
  2: { left. eexists None, _. split; [done|]. by intros [? _]%Forall_cons. }
  destruct (IH al1) as [(ocs & al2 & -> & Hocs)|[-> ?]]; [|by right]. cbn [mbind outcome_bind]. left.
  destruct Hoc as [Hu Hc]. destruct ocs as [cs|].
  - destruct Hocs as [Hus Hcs]. eexists (Some _), _. split; [reflexivity|]. split; by constructor.
  - eexists None, _. split; [reflexivity|]. by intros [_ ?]%Forall_cons.
Qed.

(** The caches of a router that was created. *)
Lemma create_rule_caches_made all ports al cs al' :
  Forall (fun p => Forall (rule_sane all) (forwarding_rules_list p)) ports ->
  create_rule_caches all (length all) ports al = Ret (Some cs, al') -> Forall2 (cache_good all) ports cs.
Proof.
  intros Hs. revert al cs. induction Hs as [|p ports Hp _ IH]; intros al cs; cbn [create_rule_caches].
  { intros [= <- _]. constructor. }
  destruct (create_rule_cache_cases all p al Hp) as [(_ & al1 & ->)|[(_ & _ & c & al1 & -> & Hc)|(_ & -> & _)]]; [done| |done].
  cbn [mbind outcome_bind]. destruct (create_rule_caches all (length all) ports al1) as [[[cs'|] al2]| |] eqn:E; try done.
  cbn [mbind outcome_bind]. intros [= <- <-]. constructor; [done|]. by eapply IH.
Qed.

(** ** Routing through the cache *)

(** A minimal perfect hash hits every cell. *)
Lemma search_surjective ks h i :
  NoDup ks -> ks <> [] -> cmph_new ks = Some h -> i < length ks -> exists p, p ∈ ks /\ cmph_search h p = i.
Proof.
  intros Hnd Hne Hh Hi.
  assert (map (cmph_search h) ks ≡ₚ seq 0 (length ks)) as Hperm.
  { apply submseteq_length_Permutation; [|by rewrite length_seq, length_map].
    apply NoDup_submseteq; [by apply NoDup_search|]. intros x (p & -> & Hp)%(list_elem_of_fmap (cmph_search h)).
    apply elem_of_seq. split; [lia|]. by apply cmph_range. }
  assert (i ∈ map (cmph_search h) ks) as Hin by (rewrite Hperm; apply elem_of_seq; lia).
  apply (list_elem_of_fmap (cmph_search h)) in Hin as (p & -> & Hp). by exists p.
Qed.

(** The message begins with a prefix of the rules. *)
Definition has_prefix (rules : list forwarding_rule_t) (d : list Z) : bool :=
  existsb (fun p => bool_decide (take (length p) d = p)) (port_prefixes rules).

Lemma has_prefix_true rules d : has_prefix rules d = true <-> exists p, p ∈ port_prefixes rules /\ take (length p) d = p.
Proof.
  unfold has_prefix. rewrite existsb_exists. split.
  - intros (p & Hp & Hd). exists p. split; [by apply list_elem_of_In|by apply bool_decide_eq_true in Hd].
  - intros (p & Hp & Hd). exists p. split; [by apply list_elem_of_In|by apply bool_decide_eq_true].
Qed.

(** The cell that the hash names for a message is one of the cache's; a message shorter than the
    prefixes is not looked up. *)
Definition lookup_inside (c : rule_cache_t C) (d : list Z) : bool :=
  match hash c with
  | Some h => (Z.of_nat (length d) <? prefix_len (rule_prefixes c))%Z ||
      (cmph_search h (take (Z.to_nat (prefix_len (rule_prefixes c))) d) <? length (cached_ports c))
  | None => true
  end.

(** Where a message goes: by the rules if it begins with a prefix of the port, to the accept list
    otherwise. *)
Definition sent (ports : list port_t) (rules : list forwarding_rule_t) (d : list Z) : list send :=
  if has_prefix rules d then route ports rules d else send_all (accepting ports rules) d.

Lemma sent_regular ports rules d : Forall (rule_sane ports) rules -> Forall rule_regular rules ->
  sent ports rules d = route ports rules d.
Proof.
  intros Hs Hr. unfold sent. destruct (has_prefix rules d) eqn:E; [done|]. rewrite route_default; [done| |done].
  apply Forall_forall. intros p Hp. split.
  - pose proof (port_prefixes_pos _ _ Hs) as H. rewrite Forall_forall in H. specialize (H p Hp). lia.
  - intros Hd. assert (has_prefix rules d = true) as H by (apply has_prefix_true; by exists p). congruence.
Qed.

Lemma process_buffer_cases ports port (c : rule_cache_t C) d :
  let rules := forwarding_rules_list port in
  Forall (rule_sane ports) rules -> cache_good ports port c -> (Z.of_nat (length d) < SIZE_MAX)%Z ->
  process_buffer c d = (if lookup_inside c d then Ret (sent ports rules d) else Undef) /\
  (has_prefix rules d = true -> lookup_inside c d = true).
Proof.
  cbn zeta. intros Hr (_ & _ & Hac & Hacc & ks & Hg & Hks) Hd. set (rules := forwarding_rules_list port) in *.
  pose proof Hg as (Hnd & Hmem & Hcnt & Ht & Hcase).
  assert (Hdef : (es ← slice (accept_ports c) 0 (accept_ports_count c); Ret (send_all es d)) =
    Ret (send_all (accepting ports rules) d)).
  { rewrite slice_ok by done. cbn [mbind outcome_bind]. by rewrite drop_0, Hacc. }
  assert (Hno : (forall p, p ∈ ks -> take (length p) d <> p) -> has_prefix rules d = false).
  { intros Hno. apply not_true_is_false. intros (p & Hp & Heq)%has_prefix_true. by apply (Hno p); [apply Hmem|]. }
  unfold process_buffer, lookup_inside, sent. destruct Hcase as [[-> ->]|(Hne & n & Hn & Hp & Hl)].
  { rewrite Hno by (by intros p ?%elem_of_nil). destruct (_ <? SIZE_MAX)%Z eqn:E; bool_hyps; [|lia].
    rewrite Hdef. by destruct (hash c). }
  rewrite Hp, Nat2Z.id. rewrite Forall_forall in Hl.
  destruct (Hks Hne) as (h & -> & Hh & Hlc & Hcells). cbn [of_option mbind outcome_bind].
  destruct (_ <? _)%Z eqn:E; bool_hyps.
  { cbn [orb]. rewrite Hno, Hdef; [done|]. intros p Hpk Heq. apply (f_equal length) in Heq.
    rewrite length_take, (Hl p Hpk) in Heq. lia. }
  cbn [orb]. rewrite (slice_ok d), drop_0 by lia. cbn [mbind outcome_bind].
  destruct (cmph_search h (take n d) <? length (cached_ports c)) eqn:Ein; bool_hyps.
  2: { split; [unfold load; by rewrite lookup_ge_None_2 by lia|]. intros (p & Hpp & Heq)%has_prefix_true.
       apply Hmem in Hpp. rewrite (Hl p Hpp) in Heq. rewrite Heq in Ein.
       pose proof (cmph_range ks h p Hnd Hh Hpp). lia. }
  split; [|done]. destruct (search_surjective ks h (cmph_search h (take n d))) as (p & Hpk & Hps); [done|done|done|lia|].
  unfold load. rewrite <-Hps, (Hcells p Hpk). cbn [of_option mbind outcome_bind final_cell cp_prefix].
  assert (length (cell p) = MAX_PREFIX_LEN) as Hlp by (apply length_cell; rewrite (Hl p Hpk); lia).
  destruct (memcmp_zero (cell p) d n) as (r & -> & Hcmp); [lia..|]. cbn [mbind outcome_bind].
  rewrite Hcmp, take_cell by (by apply Hl). destruct (bool_decide_reflect (p = take n d)) as [Heq|Heq].
  - rewrite (proj2 (has_prefix_true rules d)) by (exists p; split; [by apply Hmem|by rewrite (Hl p Hpk)]).
    unfold final_cell. cbn [endpoints cp_count]. rewrite (slice_ok (_ ++ _)) by (rewrite length_app; lia).
    cbn [mbind outcome_bind].
    rewrite drop_0, take_app_length. rewrite route_routed by done. do 3 f_equal.
    rewrite Heq. apply routed_take; [lia|]. apply Forall_forall. intros q Hq. apply Hl. by apply Hmem.
  - rewrite Hno; [done|]. intros q Hq Hqd. rewrite (Hl q Hq) in Hqd. apply Heq.
    eapply cmph_perfect; [exact Hnd|exact Hh|done|by rewrite Hqd|]. by rewrite Hps, Hqd.
Qed.

(** A created router has a good cache for each port. *)
Lemma router_create_caches loaded load_endpoints (r : router_t C) i port c :
  router_create loaded load_endpoints = Ret (Some r) ->
  Forall (fun p => Forall (rule_sane (ports_list (router_cfg r))) (forwarding_rules_list p)) (ports_list (router_cfg r)) ->
  ports_list (router_cfg r) !! i = Some port -> port_rule_cache r !! i = Some c ->
  cache_good (ports_list (router_cfg r)) port c.
Proof.
  intros Hc Hs Hport Hcache. unfold router_create in Hc.
  destruct loaded as [[cfg|]| |]; try done. cbn [mbind outcome_bind] in Hc.
  destruct (load_endpoints cfg) as [[cfg' []]| |]; try done; cbn [mbind outcome_bind negb] in Hc;
    [|by destruct (router_cfg_teardown cfg')].
  destruct (create_rule_caches _ _ _ _) as [[ocs al]| |] eqn:E; try done.
  cbn [mbind outcome_bind] in Hc. destruct ocs as [cs|]; [|done]. injection Hc as <-.
  cbn [router_cfg port_rule_cache] in *. apply create_rule_caches_made in E; [|done].
  by eapply Forall2_lookup_lr.
Qed.

(** The configuration of a router that was created is one that was loaded, with endpoints. *)
Lemma router_create_cfg loaded load_endpoints (r : router_t C) :
  router_create loaded load_endpoints = Ret (Some r) ->
  exists cfg, loaded = Ret (Some cfg) /\ load_endpoints cfg = Ret (router_cfg r, true).
Proof.
  unfold router_create. destruct loaded as [[cfg|]| |]; try done. cbn [mbind outcome_bind].
  destruct (load_endpoints cfg) as [[cfg' []]| |] eqn:E; try done; cbn [mbind outcome_bind negb];
    [|by destruct (router_cfg_teardown cfg')].
  destruct (create_rule_caches _ _ _ _) as [[[cs|] al]| |]; try done.
  intros [= <-]. by exists cfg.
Qed.

(** Creating a router from a loaded configuration whose endpoints were created never
    accesses memory outside its tables when no prefix of a port is selected by more of the
    port's rules than the router has ports: it returns a router, one cache per port, if on every port the prefixes have one length of at
    most eight bytes, and NULL otherwise. *)
Theorem router_create_cases cfg load_endpoints cfg' :
  load_endpoints cfg = Ret (cfg', true) ->
  Forall (port_sane (ports_list cfg')) (ports_list cfg') ->
  (forall ks, NoDup ks -> ks <> [] -> cmph_new ks <> None) ->
  exists o, router_create (C := C) (Ret (Some cfg)) load_endpoints = Ret o /\
    match o with
    | Some r => router_cfg r = cfg' /\ length (port_rule_cache r) = length (ports_list cfg') /\
        Forall (fun p => prefixes_uniform (port_prefixes (forwarding_rules_list p))) (ports_list cfg')
    | None =>
        ~ Forall (fun p => prefixes_uniform (port_prefixes (forwarding_rules_list p))) (ports_list cfg')
    end.
Proof.
  intros Hl Hs Hnew. unfold router_create. cbn [mbind outcome_bind]. rewrite Hl. cbn [mbind outcome_bind negb].
  destruct (create_rule_caches_spec (ports_list cfg') (ports_list cfg') 0 Hs)
    as [(ocs & al & -> & H)|[_ (ks & H1 & H2 & H3)]]; [|by destruct (Hnew ks)].
  cbn [mbind outcome_bind]. destruct ocs as [cs|]; eexists; (split; [reflexivity|]); [|done].
  destruct H as [Hu Hg]. split_and!; [done| |done]. symmetry. by eapply Forall2_length.
Qed.
End create.

(** ** From the YAML file to a sane router *)

Lemma create_port_endpoints_spec create ps ps' :
  create_port_endpoints create ps = Ret (ps', true) ->
  Forall2 (fun p q => forwarding_rules_list q = forwarding_rules_list p /\ is_Some (pub_ept q)) ps ps'.
Proof.
  revert ps'; induction ps as [|p ps IH]; intros ps'; cbn [create_port_endpoints].
  { intros [= <-]. constructor. }
  destruct (endpoint_metric _ "pub_server") as [id| |]; try done. cbn [mbind outcome_bind].
  destruct (create (text (pub_addr p)) id true) as [pub|]; [|done].
  destruct (endpoint_metric _ "sub_server") as [id'| |]; try done. cbn [mbind outcome_bind].
  destruct (create (text (sub_addr p)) id' false) as [sub|]; [|done].
  destruct (create_port_endpoints create ps) as [[ps1 ok]| |] eqn:E; try done. cbn [mbind outcome_bind].
  intros [= <- ->]. constructor; [split; [done|by eexists]|by apply IH].
Qed.

(** The rules of a configuration that was loaded from YAML and whose endpoints were all created,
    when no prefix has 2^31 bytes. *)
Definition prefixes_int (ps : list port_t) : Prop :=
  Forall (fun q => Forall (fun r => Forall (fun f => Z.of_nat (flen f) < 2147483648)%Z (filters_list r))
    (forwarding_rules_list q)) ps.

Lemma loaded_rules_sane p cfg create cfg' :
  router_cfg_load true true true p = Ret (Some cfg) ->
  router_create_endpoints create cfg = Ret (cfg', true) ->
  prefixes_int (ports_list cfg') ->
  Forall2 (fun p q => forwarding_rules_list q = forwarding_rules_list p) (ports_list cfg) (ports_list cfg') /\
  Forall (fun q => Forall (rule_sane (ports_list cfg')) (forwarding_rules_list q)) (ports_list cfg').
Proof.
  intros Hload Hep Hb. apply router_cfg_load_good in Hload as [[_ Hok] Hres].
  unfold router_create_endpoints in Hep.
  destruct (create_port_endpoints create _) as [[ps ok]| |] eqn:E; try done.
  injection Hep as <- ->. cbn [ports_list] in *. apply create_port_endpoints_spec in E.
  split; [eapply Forall2_impl; [exact E|by intros ? ? [? _]]|].
  apply Forall_forall. intros q (i & Hq)%list_elem_of_lookup.
  destruct (Forall2_lookup_r _ _ _ _ _ E Hq) as (p0 & Hp0 & Hrules & _). unfold prefixes_int in Hb.
  rewrite Forall_lookup in Hb, Hok, Hres. specialize (Hb i q Hq). rewrite Hrules in Hb |- *.
  destruct (Hok i p0 Hp0) as (_ & _ & _ & _ & Hro). specialize (Hres i p0 Hp0).
  rewrite !Forall_forall in *. intros r Hr. split.
  - specialize (Hro r Hr) as [_ Hro]. specialize (Hb r Hr). rewrite Forall_forall in *.
    intros f Hff. split; auto.
  - destruct (Hres r Hr) as (j & t & Hj & Ht & _).
    destruct (Forall2_lookup_l _ _ _ _ _ E Ht) as (t' & Ht' & _ & e & He).
    exists e. unfold dst_pub_ept. rewrite Hj, Ht'. simpl. by rewrite He.
Qed.

(** They meet what [router_create_cases] asks of the ports, as long as no port has more rules
    than there are ports. *)
Theorem loaded_router_sane p cfg create cfg' :
  router_cfg_load true true true p = Ret (Some cfg) ->
  router_create_endpoints create cfg = Ret (cfg', true) ->
  prefixes_int (ports_list cfg') ->
  Forall (fun q => length (forwarding_rules_list q) <= length (ports_list cfg')) (ports_list cfg') ->
  Forall (port_sane (ports_list cfg')) (ports_list cfg').
Proof.
  intros Hload Hep Hb Hn. destruct (loaded_rules_sane _ _ _ _ Hload Hep Hb) as [_ Hs].
  rewrite !Forall_forall in *. intros q Hq. split; [by apply Hs|].
  unfold prefixes_fit. apply Forall_forall. intros d _. etransitivity; [apply length_routed|by apply Hn].
Qed.

(** ** Forwarding *)

Section forwards.
Context {C : Cmph} `{!CmphSpec C}.

(** C1: the router forwards as its configuration says.  Take any router created from YAML events
    (creation itself fails, or overruns a cell, for the configurations of [create_rule_cache_outcome];
    prefixes are shorter than 2^31 bytes) and any message shorter than 2^32 - 1 bytes.  With one
    lookup in the port's cache, a message that begins with a prefix of the port is sent, in rule
    order, to exactly the destinations of the rules whose first matching filter accepts it.  Any
    other message is sent to the rules whose last filter accepts, provided that the index cmph gives
    for its foreign bytes, of which nothing is documented, lies in the cache; if it does not, memory
    is read outside the array.  When in each rule the last filter decides the default (as it does if
    it is the only empty one), both are what the filters select. *)
Theorem router_forwards p create (r : router_t C) i port c d :
  router_create (router_cfg_load true true true p) (router_create_endpoints create) = Ret (Some r) ->
  prefixes_int (ports_list (router_cfg r)) ->
  ports_list (router_cfg r) !! i = Some port -> port_rule_cache r !! i = Some c ->
  (Z.of_nat (length d) < SIZE_MAX)%Z ->
  let ports := ports_list (router_cfg r) in
  let rules := forwarding_rules_list port in
  process_buffer c d =
    (if lookup_inside c d
     then Ret (if has_prefix rules d then route ports rules d else send_all (accepting ports rules) d)
     else Undef) /\
  (has_prefix rules d = true -> lookup_inside c d = true) /\
  (Forall rule_regular rules -> has_prefix rules d = false -> send_all (accepting ports rules) d = route ports rules d).
Proof.
  intros Hc Hb Hport Hcache Hd. cbn zeta. destruct (router_create_cfg _ _ _ Hc) as (cfg & Hl & He).
  destruct (loaded_rules_sane _ _ _ _ Hl He Hb) as [_ Hs].
  pose proof (router_create_caches _ _ _ _ _ _ Hc Hs Hport Hcache) as Hg.
  rewrite Forall_lookup in Hs. specialize (Hs i port Hport).
  destruct (process_buffer_cases _ port c d Hs Hg Hd) as [H1 H2]. split_and!; [done|done|].
  intros Hr Hn. rewrite <-sent_regular by done. unfold sent. by rewrite Hn.
Qed.
End forwards.

(** ** Witnesses *)

(** A hash by position in the list of keys. *)
Definition index_cmph : Cmph := {|
  cmph_t := list (list Z);
  cmph_new := fun keys => Some keys;
  cmph_search := fun h k => match list_find (fun x => x = k) h with Some (i, _) => i | None => 0 end;
|}.

#[export] Instance index_cmph_spec : CmphSpec index_cmph.
Proof.
  split; cbn.
  - intros keys h k1 k2 Hnd [= <-] H1 H2.
    destruct (list_find_elem_of (fun x => x = k1) keys k1 H1 eq_refl) as [[i a] E1].
    destruct (list_find_elem_of (fun x => x = k2) keys k2 H2 eq_refl) as [[j b] E2].
    rewrite E1, E2. intros ->. apply list_find_Some in E1 as (Ha & <- & _).
    apply list_find_Some in E2 as (Hb & <- & _). congruence.
  - intros keys h k Hnd [= <-] Hk.
    destruct (list_find_elem_of (fun x => x = k) keys k Hk eq_refl) as [[i a] E]. rewrite E.
    apply list_find_Some in E as (Ha & _). by eapply lookup_lt_Some.
Qed.

Definition example_create (addr identity : string) (is_pub : bool) : option nat :=
  if decide (addr = "ipc:///a_pub") then Some 10
  else if decide (addr = "ipc:///b_pub") then Some 20
  else Some 99.

Definition example_loaded : router_cfg_t :=
  Eval vm_compute in (dst_ports_set example_cfg).1.
Definition example_ready : router_cfg_t :=
  Eval vm_compute in
    match router_create_endpoints example_create example_loaded with Ret (c, _) => c | _ => example_loaded end.

(** Decide sanity of a concrete configuration. *)
Ltac prove_sane :=
  repeat match goal with
  | |- Forall _ _ => constructor
  | |- port_sane _ _ => split
  | |- prefixes_fit _ _ => unfold prefixes_fit; apply Forall_forall; intros ? _;
      etransitivity; [apply length_routed|]
  | |- rule_sane _ _ => split
  | |- prefixes_int _ => unfold prefixes_int
  | |- filter_sane _ => split
  | |- filter_ok _ => unfold filter_ok; simpl
  | |- _ /\ _ => split
  | |- bytes_ok _ => apply bytes_ok_decide; reflexivity
  | |- exists _, _ => eexists; reflexivity
  | |- _ = _ => reflexivity
  | |- (_ <= _)%nat => simpl; lia
  | |- (_ < _)%nat => simpl; lia
  | |- (_ < _)%Z => simpl; lia
  end.

Lemma example_ready_sane : Forall (port_sane (ports_list example_ready)) (ports_list example_ready).
Proof. prove_sane. Qed.

Lemma extract_rule_prefixes_spec_witness :
  exists port ap ac al' rp,
    extract_rule_prefixes (ports_list example_ready) port [None] 0 = Ret (ap, ac, al', rp) /\
    match rp with
    | Some rp => prefixes_uniform (port_prefixes (forwarding_rules_list port)) /\
        ac <= length ap /\ take ac ap = accepting (ports_list example_ready) (forwarding_rules_list port) /\
        exists ks, prefixes_good (forwarding_rules_list port) rp ks
    | None => ~ prefixes_uniform (port_prefixes (forwarding_rules_list port))
    end.
Proof.
  exists (ports_list example_ready !!! 0). apply extract_rule_prefixes_spec; [prove_sane|reflexivity].
Defined.

Lemma router_forwards_witness :
  exists r c,
    router_create (C := index_cmph) (router_cfg_load true true true (cfg_yaml example_cfg))
      (router_create_endpoints example_create) = Ret (Some r) /\
    port_rule_cache r !! 1 = Some c /\
    process_buffer c [0x55; 0x17; 0xff; 0x01]%Z = Ret [(Some 10, [0x55; 0x17; 0xff; 0x01]%Z)].
Proof.
  eexists _, _. split; [vm_compute; reflexivity|]. split; [vm_compute; reflexivity|].
  etransitivity.
  - eapply (router_forwards (C := index_cmph) (cfg_yaml example_cfg) example_create _ 1).
    + vm_compute; reflexivity.
    + prove_sane.
    + reflexivity.
    + reflexivity.
    + reflexivity.
  - vm_compute. reflexivity.
Defined.

Lemma router_create_cases_witness :
  exists o, router_create (C := index_cmph) (Ret (Some example_loaded))
      (router_create_endpoints example_create) = Ret o /\
    match o with
    | Some r => router_cfg r = example_ready /\ length (port_rule_cache r) = length (ports_list example_ready) /\
        Forall (fun p => prefixes_uniform (port_prefixes (forwarding_rules_list p))) (ports_list example_ready)
    | None =>
        ~ Forall (fun p => prefixes_uniform (port_prefixes (forwarding_rules_list p))) (ports_list example_ready)
    end.
Proof.
  apply router_create_cases; [vm_compute; reflexivity|exact example_ready_sane|done].
Defined.

Lemma loaded_router_sane_witness : Forall (port_sane (ports_list example_ready)) (ports_list example_ready).
Proof.
  apply (loaded_router_sane (cfg_yaml example_cfg) example_loaded example_create);
    [vm_compute; reflexivity|vm_compute; reflexivity|prove_sane|prove_sane].
Defined.

(** A port with more rules for one prefix than the router has ports: the second endpoint is
    written past the end of the cell's array. *)
Definition overflow_cfg : router_cfg_t :=
  let rule := mk_rule (strdup "A") (Some 0) [mk_filter FILTER_ACTION_ACCEPT (Some [1%Z]) 1] in
  mk_cfg (strdup "r")
    [mk_port (strdup "A") (strdup "a") (strdup "ipc:///a_pub") (strdup "ipc:///a_sub") None None [rule; rule]].

Definition overflow_port : port_t :=
  Eval vm_compute in
    match router_create_endpoints example_create overflow_cfg with
    | Ret (c, _) => ports_list c !!! 0 | _ => inhabitant end.

Lemma create_rule_cache_outcome_witness :
  create_rule_cache (C := index_cmph) [overflow_port] 1 overflow_port 0 = Undef /\
  exists c al', create_rule_cache (C := index_cmph) (ports_list example_ready) 2
      (ports_list example_ready !!! 1) 0 = Ret (Some c, al') /\
    cache_good (ports_list example_ready) (ports_list example_ready !!! 1) c.
Proof.
  split.
  - destruct (create_rule_cache_outcome (C := index_cmph) [overflow_port] overflow_port 0) as (_ & _ & H);
      [prove_sane|done|].
    apply H; [exists 1; split; [unfold MAX_PREFIX_LEN; lia|by repeat constructor]|].
    intros [Hf _]%Forall_cons. vm_compute in Hf. lia.
  - destruct (create_rule_cache_outcome (C := index_cmph) (ports_list example_ready)
      (ports_list example_ready !!! 1) 0) as (_ & H & _); [prove_sane|done|].
    apply H; [exists 3; split; [unfold MAX_PREFIX_LEN; lia|vm_compute; by repeat constructor]|].
    vm_compute; repeat constructor.
Defined.

Example router_create_overflow :
  router_create (C := index_cmph) (Ret (Some overflow_cfg)) (router_create_endpoints example_create) = Undef.
Proof. vm_compute. reflexivity. Qed.

(** A last filter that accepts a prefix is taken for a default accept: the message [2] is
    forwarded although no filter matches it. *)
Definition prefix_last_cfg : router_cfg_t :=
  mk_cfg (strdup "r")
    [mk_port (strdup "A") (strdup "a") (strdup "ipc:///a_pub") (strdup "ipc:///a_sub") None None
       [mk_rule (strdup "A") (Some 0) [mk_filter FILTER_ACTION_ACCEPT (Some [1%Z]) 1]]].

Example prefix_last_sent :
  exists r c, router_create (C := index_cmph) (Ret (Some prefix_last_cfg))
      (router_create_endpoints example_create) = Ret (Some r) /\
    port_rule_cache r !! 0 = Some c /\
    process_buffer c [2%Z] = Ret [(Some 10, [2%Z])] /\
    route (ports_list (router_cfg r)) (forwarding_rules_list (ports_list (router_cfg r) !!! 0)) [2%Z] = [].
Proof. eexists _, _. split; [vm_compute; reflexivity|]. by split_and!; vm_compute. Qed.

(** A hash that meets the laws and answers foreign strings with the number of keys: the message [2]
    is looked up behind the array. *)
Definition far_cmph : Cmph := {|
  cmph_t := list (list Z);
  cmph_new := fun keys => Some keys;
  cmph_search := fun h k => match list_find (fun x => x = k) h with Some (i, _) => i | None => length h end;
|}.

#[export] Instance far_cmph_spec : CmphSpec far_cmph.
Proof.
  split; cbn.
  - intros keys h k1 k2 Hnd Hk H1 H2. pose proof Hk as [= <-].
    destruct (list_find_elem_of (fun x => x = k1) keys k1 H1 eq_refl) as [[i a] E1].
    destruct (list_find_elem_of (fun x => x = k2) keys k2 H2 eq_refl) as [[j b] E2].
    pose proof (@cmph_perfect _ index_cmph_spec keys keys k1 k2 Hnd eq_refl H1 H2) as H. cbn in H.
    by rewrite E1, E2 in *.
  - intros keys h k Hnd Hk' Hk. pose proof Hk' as [= <-].
    destruct (list_find_elem_of (fun x => x = k) keys k Hk eq_refl) as [[i a] E].
    pose proof (@cmph_range _ index_cmph_spec keys keys k Hnd eq_refl Hk) as H. cbn in H. by rewrite E in *.
Qed.

Example foreign_prefix_outside :
  exists r c, router_create (C := far_cmph) (Ret (Some prefix_last_cfg))
      (router_create_endpoints example_create) = Ret (Some r) /\
    port_rule_cache r !! 0 = Some c /\ process_buffer c [2%Z] = Undef.
Proof. eexists _, _. split; [vm_compute; reflexivity|]. by split_and!; vm_compute. Qed.
