(* ===== verification/RouterMain.v ===== *)
(** * The router's event handlers and its metrics
      ([src/package/endpoint_router/endpoint_router/src/endpoint_router.c] and
      [endpoint_router_print.c])

    [router_reader] counts and routes one message, [loop_reader_callback] handles one wake-up
    of a SUB socket, [loop_1s_metrics] is the timer that publishes the metrics of the last
    second and resets them.  The metrics table is that of [Metrics]; the index variables of
    the source are the positions that [pk_metrics_setup] stores in them. *)

From stdpp Require Import pretty.
From S2P Require Import Prelude Libc Metrics RouterLoad Router.

Local Open Scope Z_scope.

(** ** The table *)

Module MI.
Definition bytes_dropped : nat := 0.
Definition count : nat := 1.
Definition size_total : nat := 2.
Definition size : nat := 3.
Definition wakeups : nat := 4.
Definition wakeups_max : nat := 5.
Definition wakeups_message_count : nat := 6.
Definition latency_max : nat := 7.
Definition latency_delta : nat := 8.
Definition latency_total : nat := 9.
Definition latency : nat := 10.
Definition frame_count : nat := 11.
Definition frame_leftovers : nat := 12.
Definition accept_last : nat := 13.
End MI.

Definition U32_ENTRY (folder name : string) (u : updater) : table_entry :=
  mk_entry folder name METRICS_TYPE_U32 u pk_metrics_reset_default None.
Definition TIME_ENTRY (folder name : string) (u : updater) (r : reseter) : table_entry :=
  mk_entry folder name METRICS_TYPE_TIME u r None.
Definition M_AVERAGE_OF (num dom : nat) : option pk_metrics_average :=
  Some (mk_average (Some num) (Some dom)).

Definition message_metrics_table : list table_entry :=
  [ U32_ENTRY "endpoint/bytes_dropped" "per_second" pk_metrics_updater_count;
    U32_ENTRY "message/count" "per_second" pk_metrics_updater_count;
    U32_ENTRY "message/size" ".total" pk_metrics_updater_sum;
    mk_entry "message/size" "per_second" METRICS_TYPE_U32 pk_metrics_updater_average
      pk_metrics_reset_default (M_AVERAGE_OF MI.size_total MI.count);
    U32_ENTRY "message/wake_ups" "per_second" pk_metrics_updater_count;
    U32_ENTRY "message/wake_ups" "max" pk_metrics_updater_max;
    U32_ENTRY "message/wake_ups" ".total" pk_metrics_updater_count;
    TIME_ENTRY "message/latency" "max" pk_metrics_updater_max pk_metrics_reset_default;
    TIME_ENTRY "message/latency" ".delta" pk_metrics_updater_delta pk_metrics_reset_time;
    TIME_ENTRY "message/latency" ".total" pk_metrics_updater_sum pk_metrics_reset_default;
    mk_entry "message/latency" "per_second" METRICS_TYPE_TIME pk_metrics_updater_average
      pk_metrics_reset_default (M_AVERAGE_OF MI.latency_total MI.count);
    U32_ENTRY "frame/count" "per_second" pk_metrics_updater_sum;
    U32_ENTRY "frame/leftover" "bytes" pk_metrics_updater_sum;
    U32_ENTRY "ports/accept_last" "count" pk_metrics_updater_assign ].

(** ** Handlers *)

Section handlers.
Variable f64 : f64_ops.
Context {C : Cmph}.

(** What a [PK_METRICS_UPDATE] without a value reads as one. *)
Variable junk : pk_metrics_value.

Abbreviation MR := (option pk_metrics).

Definition PK_METRICS_UPDATE (m : MR) (i : nat) (v : pk_metrics_value) : outcome MR :=
  r ← _pk_metrics_update f64 m i v; Ret (fst r).

Definition RESET (now : Z) (m : MR) (i : nat) : MR := fst (pk_metrics_reset now m i).

(** [pk_metrics_read] into a local that the code then uses: NULL metrics dereference. *)
Definition READ (m : MR) (i : nat) : outcome pk_metrics_value :=
  m ← of_option m; of_option (snd (pk_metrics_read m i)).

Definition router_reader (c : rule_cache_t C) (data : list Z) (m : MR) : outcome (MR * list send) :=
  m ← PK_METRICS_UPDATE m MI.count junk;
  m ← PK_METRICS_UPDATE m MI.wakeups_message_count junk;
  m ← PK_METRICS_UPDATE m MI.size_total (pk_metrics_u32 (Z.of_nat (length data)));
  sends ← process_buffer c data;
  Ret (m, sends).

Definition eagain_update_send_metric (bytes_dropped : Z) (m : MR) : outcome MR :=
  PK_METRICS_UPDATE m MI.bytes_dropped (pk_metrics_u32 bytes_dropped).

Definition pre_receive_metrics (now : Z) (m : MR) : outcome MR :=
  m ← PK_METRICS_UPDATE m MI.wakeups junk;
  let m := RESET now m MI.latency_delta in
  Ret (RESET now m MI.wakeups_message_count).

Definition post_receive_metrics (now : Z) (m : MR) : outcome MR :=
  count ← READ m MI.wakeups_message_count;
  m ← PK_METRICS_UPDATE m MI.wakeups_max count;
  m ← PK_METRICS_UPDATE m MI.latency_delta (pk_metrics_time now);
  current_latency ← READ m MI.latency_delta;
  m ← PK_METRICS_UPDATE m MI.latency_max current_latency;
  PK_METRICS_UPDATE m MI.latency_total current_latency.

(** [pk_endpoint_receive] runs the callback on the messages that have arrived, in order. *)
Fixpoint pk_endpoint_receive (c : rule_cache_t C) (msgs : list (list Z)) (m : MR) :
    outcome (MR * list send) :=
  match msgs with
  | [] => Ret (m, [])
  | d :: msgs' =>
      r ← router_reader c d m;
      r' ← pk_endpoint_receive c msgs' (fst r);
      Ret (fst r', snd r ++ snd r')
  end.

(** A wake-up: the messages read, and the clock before and after. *)
Record wakeup := mk_wakeup { w_cache : rule_cache_t C; w_msgs : list (list Z); w_t0 : Z; w_t1 : Z }.

Definition loop_reader_callback (w : wakeup) (m : MR) : outcome (MR * list send) :=
  m ← pre_receive_metrics (w_t0 w) m;
  r ← pk_endpoint_receive (w_cache w) (w_msgs w) m;
  m ← post_receive_metrics (w_t1 w) (fst r);
  Ret (m, snd r).

Definition loop_1s_metrics (now : Z) (m : MR) : outcome MR :=
  m ← PK_METRICS_UPDATE m MI.size junk;
  m ← PK_METRICS_UPDATE m MI.latency junk;
  m ← of_option m;
  let m := Some (pk_metrics_flush f64 m) in
  let m := RESET now m MI.count in
  let m := RESET now m MI.size_total in
  let m := RESET now m MI.wakeups in
  let m := RESET now m MI.wakeups_max in
  let m := RESET now m MI.latency in
  let m := RESET now m MI.latency_max in
  let m := RESET now m MI.latency_total in
  let m := RESET now m MI.frame_count in
  let m := RESET now m MI.frame_leftovers in
  Ret (RESET now m MI.bytes_dropped).

(** The event loop between two timer ticks. *)
Fixpoint run_wakeups (ws : list wakeup) (m : MR) : outcome (MR * list send) :=
  match ws with
  | [] => Ret (m, [])
  | w :: ws' =>
      r ← loop_reader_callback w m;
      r' ← run_wakeups ws' (fst r);
      Ret (fst r', snd r ++ snd r')
  end.
End handlers.

(** ** The table as values *)

Record vals := mk_vals {
  v_bytes_dropped : pk_metrics_value;
  v_count : pk_metrics_value;
  v_size_total : pk_metrics_value;
  v_size : pk_metrics_value;
  v_wakeups : pk_metrics_value;
  v_wakeups_max : pk_metrics_value;
  v_wakeups_message_count : pk_metrics_value;
  v_latency_max : pk_metrics_value;
  v_latency_delta : pk_metrics_value;
  v_latency_total : pk_metrics_value;
  v_latency : pk_metrics_value;
  v_frame_count : pk_metrics_value;
  v_frame_leftovers : pk_metrics_value;
  v_accept_last : pk_metrics_value;
}.

Definition val_list (x : vals) : list pk_metrics_value :=
  [v_bytes_dropped x; v_count x; v_size_total x; v_size x; v_wakeups x; v_wakeups_max x;
   v_wakeups_message_count x; v_latency_max x; v_latency_delta x; v_latency_total x; v_latency x;
   v_frame_count x; v_frame_leftovers x; v_accept_last x].

Definition entry_of (t : table_entry) (v : pk_metrics_value) (s : string) : metrics_descriptor :=
  mk_descriptor (te_type t) (te_updater t) (te_reseter t) s value_zero v (te_context t).

(** The router's table with the values [x] and the files [ss]. *)
Definition tbl (x : vals) (ss : nat -> string) : pk_metrics :=
  imap (fun i tv => entry_of (fst tv) (snd tv) (ss i)) (zip message_metrics_table (val_list x)).

(** ** The handlers on values *)

Definition reader_vals (x : vals) (d : list Z) : vals :=
  mk_vals (v_bytes_dropped x) (pk_metrics_u32 (as_u32 (v_count x) + 1))
    (pk_metrics_u32 (as_u32 (v_size_total x) + u32 (u32 (Z.of_nat (length d))))) (v_size x) (v_wakeups x)
    (v_wakeups_max x) (pk_metrics_u32 (as_u32 (v_wakeups_message_count x) + 1)) (v_latency_max x)
    (v_latency_delta x) (v_latency_total x) (v_latency x) (v_frame_count x) (v_frame_leftovers x)
    (v_accept_last x).

Definition pre_vals (t0 : Z) (x : vals) : vals :=
  mk_vals (v_bytes_dropped x) (v_count x) (v_size_total x) (v_size x)
    (pk_metrics_u32 (as_u32 (v_wakeups x) + 1)) (v_wakeups_max x) value_zero (v_latency_max x)
    (mk_value METRICS_TYPE_UNKNOWN (u64 t0)) (v_latency_total x) (v_latency x) (v_frame_count x)
    (v_frame_leftovers x) (v_accept_last x).

Definition post_vals (f64 : f64_ops) (t1 : Z) (x : vals) : vals :=
  let delta := pk_metrics_time (as_time (pk_metrics_time t1) - as_time (v_latency_delta x)) in
  mk_vals (v_bytes_dropped x) (v_count x) (v_size_total x) (v_size x) (v_wakeups x)
    (updater_max f64 METRICS_TYPE_U32 (v_wakeups_max x) (v_wakeups_message_count x))
    (v_wakeups_message_count x)
    (pk_metrics_time (SWFT_MAX (as_time (v_latency_max x)) (as_time delta))) delta
    (mk_value METRICS_TYPE_UNKNOWN (u64 (as_time (v_latency_total x) + as_time delta)))
    (v_latency x) (v_frame_count x) (v_frame_leftovers x) (v_accept_last x).

(** What the messages of a wake-up are sent to. *)
Fixpoint sends_of {C : Cmph} (c : rule_cache_t C) (msgs : list (list Z)) : outcome (list send) :=
  match msgs with
  | [] => Ret []
  | d :: msgs' => s ← process_buffer c d; s' ← sends_of c msgs'; Ret (s ++ s')
  end.

Section facts.
Variable f64 : f64_ops.
Context {C : Cmph}.
Variable junk : pk_metrics_value.

Lemma router_reader_tbl (c : rule_cache_t C) d x ss :
  router_reader f64 junk c d (Some (tbl x ss)) =
    sends ← process_buffer c d; Ret (Some (tbl (reader_vals x d) ss), sends).
Proof. reflexivity. Qed.

Lemma pk_endpoint_receive_tbl (c : rule_cache_t C) msgs x ss :
  pk_endpoint_receive f64 junk c msgs (Some (tbl x ss)) =
    sends ← sends_of c msgs; Ret (Some (tbl (fold_left reader_vals msgs x) ss), sends).
Proof.
  revert x; induction msgs as [|d msgs IH]; intros x; [reflexivity|].
  cbn [pk_endpoint_receive sends_of fold_left]. rewrite router_reader_tbl.
  destruct (process_buffer c d) as [s| |]; cbn [mbind outcome_bind]; [|done..].
  cbn [fst snd]. rewrite IH. by destruct (sends_of c msgs).
Qed.

Lemma pre_receive_tbl t0 x ss :
  pre_receive_metrics f64 junk t0 (Some (tbl x ss)) = Ret (Some (tbl (pre_vals t0 x) ss)).
Proof. reflexivity. Qed.

Lemma post_receive_tbl t1 x ss :
  post_receive_metrics f64 t1 (Some (tbl x ss)) = Ret (Some (tbl (post_vals f64 t1 x) ss)).
Proof. reflexivity. Qed.

Definition wake_vals (x : vals) (w : wakeup) : vals :=
  post_vals f64 (w_t1 w) (fold_left reader_vals (w_msgs w) (pre_vals (w_t0 w) x)).

Lemma loop_reader_callback_tbl (w : wakeup (C := C)) x ss :
  loop_reader_callback f64 junk w (Some (tbl x ss)) =
    sends ← sends_of (w_cache w) (w_msgs w); Ret (Some (tbl (wake_vals x w) ss), sends).
Proof.
  unfold loop_reader_callback. rewrite pre_receive_tbl. cbn [mbind outcome_bind].
  rewrite pk_endpoint_receive_tbl. destruct (sends_of _ _) as [s| |]; cbn [mbind outcome_bind fst snd]; [|done..].
  by rewrite post_receive_tbl.
Qed.

Fixpoint all_sends (ws : list (wakeup (C := C))) : outcome (list send) :=
  match ws with
  | [] => Ret []
  | w :: ws' => s ← sends_of (w_cache w) (w_msgs w); s' ← all_sends ws'; Ret (s ++ s')
  end.

Lemma run_wakeups_tbl ws x ss :
  run_wakeups f64 junk ws (Some (tbl x ss)) =
    sends ← all_sends ws; Ret (Some (tbl (fold_left wake_vals ws x) ss), sends).
Proof.
  revert x; induction ws as [|w ws IH]; intros x; [reflexivity|].
  cbn [run_wakeups all_sends fold_left]. rewrite loop_reader_callback_tbl.
  destruct (sends_of _ _) as [s| |]; cbn [mbind outcome_bind]; [|done..].
  cbn [fst snd]. rewrite IH. by destruct (all_sends ws).
Qed.

(** ** What an interval measures *)

Definition msgs_of (ws : list (wakeup (C := C))) : list (list Z) := flat_map w_msgs ws.
Definition bytes_of (msgs : list (list Z)) : Z := foldr (fun d n => Z.of_nat (length d) + n) 0 msgs.
Definition latency_of (w : wakeup (C := C)) : Z := u64 (u64 (w_t1 w) - u64 (w_t0 w)).

Definition max_latency (ws : list (wakeup (C := C))) : Z := foldr Z.max 0 (map latency_of ws).
Definition total_latency (ws : list (wakeup (C := C))) : Z := foldr Z.add 0 (map latency_of ws).

(** [n] messages, [b] bytes and [k] wake-ups counted, with that total and largest latency. *)
Definition measured (x : vals) (n b k tot mx : Z) : Prop :=
  as_u32 (v_count x) = u32 n /\ as_u32 (v_size_total x) = u32 b /\ as_u32 (v_wakeups x) = u32 k /\
  as_time (v_latency_total x) = u64 tot /\ as_time (v_latency_max x) = mx.

Lemma reader_vals_fold msgs x n b :
  as_u32 (v_count x) = u32 n -> as_u32 (v_size_total x) = u32 b ->
  let y := fold_left reader_vals msgs x in
  as_u32 (v_count y) = u32 (n + Z.of_nat (length msgs)) /\
  as_u32 (v_size_total y) = u32 (b + bytes_of msgs) /\
  v_wakeups y = v_wakeups x /\ v_latency_total y = v_latency_total x /\
  v_latency_max y = v_latency_max x /\ v_latency_delta y = v_latency_delta x.
Proof.
  revert x n b; induction msgs as [|d msgs IH]; intros x n b Hn Hb; cbn [fold_left length bytes_of foldr].
  { rewrite !Z.add_0_r. done. }
  destruct (IH (reader_vals x d) (n + 1) (b + Z.of_nat (length d))) as (Hn' & Hb' & Hr).
  { unfold as_u32 at 1, reader_vals, pk_metrics_u32; cbn [v_count vdata]. rewrite Hn.
    by autorewrite with piksi_wrap. }
  { unfold as_u32 at 1, reader_vals, pk_metrics_u32; cbn [v_size_total vdata]. rewrite Hb.
    by autorewrite with piksi_wrap. }
  cbn zeta. rewrite Hn', Hb'. fold (bytes_of msgs). split_and!; [f_equal; lia|f_equal; lia|apply Hr..].
Qed.

Lemma wake_vals_measured x w n b k tot mx :
  measured x n b k tot mx ->
  measured (wake_vals x w) (n + Z.of_nat (length (w_msgs w))) (b + bytes_of (w_msgs w)) (k + 1)
    (tot + latency_of w) (Z.max mx (latency_of w)).
Proof.
  intros (Hn & Hb & Hk & Ht & Hm).
  destruct (reader_vals_fold (w_msgs w) (pre_vals (w_t0 w) x) n b Hn Hb) as (Hn' & Hb' & Hw & Hlt & Hlm & Hld).
  assert (0 <= mx < 18446744073709551616) as Hmx by (rewrite <-Hm; apply u64_range).
  assert (as_time (pk_metrics_time (as_time (pk_metrics_time (w_t1 w)) -
    as_time (mk_value METRICS_TYPE_UNKNOWN (u64 (w_t0 w))))) = latency_of w) as Hlat.
  { unfold as_time, pk_metrics_time, latency_of; cbn [vdata]. by autorewrite with piksi_wrap. }
  unfold wake_vals, post_vals. unfold measured. cbn [v_count v_size_total v_wakeups v_latency_total v_latency_max].
  rewrite Hw, Hlt, Hlm, Hld. cbn [pre_vals v_wakeups v_latency_total v_latency_max v_latency_delta].
  rewrite Hlat, SWFT_MAX_max. split_and!; [done|done|..].
  - unfold as_u32 at 1, pk_metrics_u32; cbn [vdata]. rewrite Hk. by autorewrite with piksi_wrap.
  - unfold as_time at 1; cbn [vdata]. rewrite Ht. by autorewrite with piksi_wrap.
  - unfold as_time at 1, pk_metrics_time; cbn [vdata]. rewrite Hm, u64_idemp. apply u64_small.
    pose proof (u64_range (u64 (w_t1 w) - u64 (w_t0 w))). unfold latency_of. lia.
Qed.

Lemma bytes_of_app a b : bytes_of (a ++ b) = bytes_of a + bytes_of b.
Proof. unfold bytes_of. induction a as [|d a IH]; simpl; [done|]. rewrite IH. lia. Qed.

Lemma run_wakeups_measured ws x n b k tot mx :
  measured x n b k tot mx ->
  measured (fold_left wake_vals ws x) (n + Z.of_nat (length (msgs_of ws))) (b + bytes_of (msgs_of ws))
    (k + Z.of_nat (length ws)) (tot + total_latency ws) (Z.max mx (max_latency ws)).
Proof.
  revert x n b k tot mx; induction ws as [|w ws IH]; intros x n b k tot mx Hx.
  { cbn. rewrite !Z.add_0_r. destruct Hx as (? & ? & ? & ? & Hm).
    assert (0 <= mx) by (rewrite <-Hm; apply u64_range). rewrite Z.max_l by done. by split_and!. }
  cbn [fold_left msgs_of flat_map]. fold (msgs_of ws). eapply wake_vals_measured, IH in Hx.
  rewrite length_app, bytes_of_app. cbn [length]. unfold total_latency, max_latency in *. cbn [map foldr].
  replace (n + _) with (n + Z.of_nat (length (w_msgs w)) + Z.of_nat (length (msgs_of ws))) by lia.
  rewrite !Z.add_assoc, Z.max_assoc. replace (k + _) with (k + 1 + Z.of_nat (length ws)) by lia.
  exact Hx.
Qed.

(** ** The timer *)

Definition average32 (num dom : pk_metrics_value) : Z :=
  let d := u32 (u64 (as_u32 dom)) in if d =? 0 then 0 else as_u32 num / d.
Definition average64 (num dom : pk_metrics_value) : Z :=
  let d := u64 (u64 (as_u32 dom)) in if d =? 0 then 0 else as_time num / d.

Definition average_vals (x : vals) : vals :=
  mk_vals (v_bytes_dropped x) (v_count x) (v_size_total x)
    (pk_metrics_u32 (average32 (v_size_total x) (v_count x))) (v_wakeups x)
    (v_wakeups_max x) (v_wakeups_message_count x) (v_latency_max x) (v_latency_delta x) (v_latency_total x)
    (pk_metrics_time (average64 (v_latency_total x) (v_count x))) (v_frame_count x)
    (v_frame_leftovers x) (v_accept_last x).

Definition reset_vals (x : vals) : vals :=
  mk_vals value_zero value_zero value_zero (v_size x) value_zero value_zero (v_wakeups_message_count x)
    value_zero (v_latency_delta x) value_zero value_zero value_zero value_zero (v_accept_last x).

(** The file of each metric after a flush of the values [x]. *)
Definition files (x : vals) (i : nat) : string := write_metric f64 (tbl x (fun _ => EmptyString) !!! i).

Definition with_size (x : vals) (v : pk_metrics_value) : vals :=
  mk_vals (v_bytes_dropped x) (v_count x) (v_size_total x) v (v_wakeups x)
    (v_wakeups_max x) (v_wakeups_message_count x) (v_latency_max x) (v_latency_delta x) (v_latency_total x)
    (v_latency x) (v_frame_count x) (v_frame_leftovers x) (v_accept_last x).
Definition with_latency (x : vals) (v : pk_metrics_value) : vals :=
  mk_vals (v_bytes_dropped x) (v_count x) (v_size_total x) (v_size x) (v_wakeups x)
    (v_wakeups_max x) (v_wakeups_message_count x) (v_latency_max x) (v_latency_delta x) (v_latency_total x)
    v (v_frame_count x) (v_frame_leftovers x) (v_accept_last x).

Lemma update_size_tbl x ss :
  PK_METRICS_UPDATE f64 (Some (tbl x ss)) MI.size junk =
    Ret (Some (tbl (with_size x (pk_metrics_u32 (average32 (v_size_total x) (v_count x)))) ss)).
Proof.
  unfold PK_METRICS_UPDATE.
  change (_pk_metrics_update f64 (Some (tbl x ss)) MI.size junk) with
    (v ← quotient f64 METRICS_TYPE_U32 (v_size_total x) (u64 (as_u32 (v_count x)));
     Ret (Some (tbl (with_size x v) ss), METRICS_STATUS_SUCCESS)).
  cbn [quotient]. rewrite divide_number by apply u32_range. reflexivity.
Qed.

Lemma update_latency_tbl x ss :
  PK_METRICS_UPDATE f64 (Some (tbl x ss)) MI.latency junk =
    Ret (Some (tbl (with_latency x (pk_metrics_time (average64 (v_latency_total x) (v_count x)))) ss)).
Proof.
  unfold PK_METRICS_UPDATE.
  change (_pk_metrics_update f64 (Some (tbl x ss)) MI.latency junk) with
    (v ← quotient f64 METRICS_TYPE_TIME (v_latency_total x) (u64 (as_u32 (v_count x)));
     Ret (Some (tbl (with_latency x v) ss), METRICS_STATUS_SUCCESS)).
  cbn [quotient]. rewrite divide_number by apply u64_range. reflexivity.
Qed.

Lemma loop_1s_metrics_tbl now x ss :
  loop_1s_metrics f64 junk now (Some (tbl x ss)) =
    Ret (Some (tbl (reset_vals (average_vals x)) (files (average_vals x)))).
Proof.
  unfold loop_1s_metrics. rewrite update_size_tbl. cbn [mbind outcome_bind]. rewrite update_latency_tbl. reflexivity.
Qed.

(** Milliseconds, a point, and the remaining nanoseconds, as the source prints times. *)
Definition time_text (t : Z) : string := pretty (t / 1000000) +:+ "." +:+ pretty (t mod 1000000) +:+ newline.

(** What the metrics report.  From a fresh second on, whatever wake-ups and messages come
    (and whatever value the argument-less updates read), the messages are sent as the caches
    say; and at the next tick the files hold the number of messages, the number of wake-ups,
    the average message size, and the average and the largest latency of that second, all at
    the width of the counters, a second without messages averaging to zero; after which the
    counters are those of a fresh second again. *)
Theorem router_interval ws x ss sends now :
  measured x 0 0 0 0 0 -> all_sends ws = Ret sends ->
  exists x1, run_wakeups f64 junk ws (Some (tbl x ss)) = Ret (Some (tbl x1 ss), sends) /\
  exists x2 ss', loop_1s_metrics f64 junk now (Some (tbl x1 ss)) = Ret (Some (tbl x2 ss')) /\
    let n := u32 (Z.of_nat (length (msgs_of ws))) in
    let b := u32 (bytes_of (msgs_of ws)) in
    ss' MI.count = pretty n +:+ newline /\
    ss' MI.wakeups = pretty (u32 (Z.of_nat (length ws))) +:+ newline /\
    ss' MI.size = pretty (if n =? 0 then 0 else b / n) +:+ newline /\
    ss' MI.latency = time_text (if n =? 0 then 0 else u64 (total_latency ws) / n) /\
    ss' MI.latency_max = time_text (max_latency ws) /\
    measured x2 0 0 0 0 0.
Proof.
  intros Hx Hs. exists (fold_left wake_vals ws x). rewrite run_wakeups_tbl, Hs. split; [reflexivity|].
  eexists _, _. split; [apply loop_1s_metrics_tbl|]. cbn zeta.
  eapply (run_wakeups_measured ws) in Hx. destruct Hx as (Hn & Hb & Hk & Ht & Hm).
  rewrite !Z.add_0_l in *. set (x1 := fold_left wake_vals ws x) in *.
  set (n := u32 (Z.of_nat (length (msgs_of ws)))) in *.
  assert (0 <= n < 4294967296) as Hnr by apply u32_range.
  change (files (average_vals x1) MI.count) with (pretty (as_u32 (v_count x1)) +:+ newline).
  change (files (average_vals x1) MI.wakeups) with (pretty (as_u32 (v_wakeups x1)) +:+ newline).
  change (files (average_vals x1) MI.size) with
    (pretty (as_u32 (pk_metrics_u32 (if u32 (u64 (as_u32 (v_count x1))) =? 0 then 0
       else as_u32 (v_size_total x1) / u32 (u64 (as_u32 (v_count x1)))))) +:+ newline).
  change (files (average_vals x1) MI.latency) with
    (time_text (as_time (pk_metrics_time (if u64 (u64 (as_u32 (v_count x1))) =? 0 then 0
       else as_time (v_latency_total x1) / u64 (u64 (as_u32 (v_count x1))))))).
  change (files (average_vals x1) MI.latency_max) with (time_text (as_time (v_latency_max x1))).
  rewrite Hn, Hb, Hk, Ht, Hm. rewrite u64_idemp. rewrite (u64_small n), (u32_small n) by lia.
  assert (Z.max 0 (max_latency ws) = max_latency ws) as ->.
  { apply Z.max_r. unfold max_latency. induction (map latency_of ws); simpl; lia. }
  assert (forall y, 0 <= y -> 0 <= (if n =? 0 then 0 else y / n) <= y) as Hq.
  { intros y Hy. apply quotient_le; lia. }
  pose proof (u32_range (bytes_of (msgs_of ws))) as Hbr. pose proof (u64_range (total_latency ws)) as Htr.
  unfold as_u32, pk_metrics_u32, as_time, pk_metrics_time; cbn [vdata].
  rewrite u32_idemp, u64_idemp.
  rewrite (u32_small (if n =? 0 then 0 else _)) by (specialize (Hq _ (proj1 Hbr)); lia).
  rewrite (u64_small (if n =? 0 then 0 else _)) by (specialize (Hq _ (proj1 Htr)); lia).
  split_and!; done.
Qed.

(** ** The largest wake-up *)

Lemma reader_vals_wakeup msgs x :
  v_wakeups_max (fold_left reader_vals msgs x) = v_wakeups_max x /\
  (msgs <> [] -> v_wakeups_message_count (fold_left reader_vals msgs x) =
     pk_metrics_u32 (as_u32 (v_wakeups_message_count x) + Z.of_nat (length msgs))) /\
  (msgs = [] -> fold_left reader_vals msgs x = x).
Proof.
  revert x; induction msgs as [|d msgs IH]; intros x; [done|].
  cbn [fold_left length]. destruct (IH (reader_vals x d)) as (-> & Hc & He). split_and!; [done| |done].
  intros _. destruct msgs as [|d' msgs]; [done|]. rewrite Hc by done.
  unfold pk_metrics_u32. f_equal. unfold as_u32 at 1, reader_vals, pk_metrics_u32; cbn [vdata v_wakeups_message_count].
  autorewrite with piksi_wrap. f_equal. lia.
Qed.

(** The largest number of messages per wake-up.  A wake-up that delivers messages raises
    the maximum to their number if that is larger; but a wake-up that delivers none sets the
    maximum back to zero, because the per-wake-up counter then still has no type. *)
Theorem wakeups_max_cases w x ss s :
  sends_of (w_cache w) (w_msgs w) = Ret s ->
  exists x', loop_reader_callback f64 junk w (Some (tbl x ss)) = Ret (Some (tbl x' ss), s) /\
    as_u32 (v_wakeups_max x') =
      (if decide (w_msgs w = []) then 0
       else Z.max (as_u32 (v_wakeups_max x)) (u32 (Z.of_nat (length (w_msgs w))))).
Proof.
  intros Hs. exists (wake_vals x w). rewrite loop_reader_callback_tbl, Hs. split; [reflexivity|].
  unfold wake_vals, post_vals. cbn [v_wakeups_max].
  destruct (reader_vals_wakeup (w_msgs w) (pre_vals (w_t0 w) x)) as (-> & Hc & He). case_decide as Hm.
  - rewrite He by done. reflexivity.
  - rewrite Hc by done. cbn [pre_vals v_wakeups_message_count v_wakeups_max].
    unfold updater_max. cbn [pk_metrics_u32 vtype]. rewrite decide_False by auto.
    rewrite SWFT_MAX_max. unfold as_u32, pk_metrics_u32; cbn [vdata value_zero].
    rewrite !u32_idemp. change (u32 0) with 0. rewrite Z.add_0_l. apply u32_small.
    pose proof (u32_range (vdata (v_wakeups_max x))). pose proof (u32_range (Z.of_nat (length (w_msgs w)))). lia.
Qed.

(** ** Start-up *)

(** The table the router sets up at start is a fresh second's, and the positions the
    handlers use are the ones the set-up stores in the index variables. *)
Theorem router_metrics_start e ok base suffix m idx :
  pk_metrics_setup f64 e ok base suffix message_metrics_table = Some (m, idx) ->
  idx = [MI.bytes_dropped; MI.count; MI.size_total; MI.size; MI.wakeups; MI.wakeups_max;
         MI.wakeups_message_count; MI.latency_max; MI.latency_delta; MI.latency_total; MI.latency;
         MI.frame_count; MI.frame_leftovers; MI.accept_last] /\
  exists x ss, m = tbl x ss /\ measured x 0 0 0 0 0.
Proof.
  unfold pk_metrics_setup. destruct base as [b|]; [|done]. destruct ok; simpl negb; [|done]. cbn iota.
  intros H. apply setup_loop_spec in H as (_ & -> & ds & -> & Hds); [|vm_compute; lia].
  split; [reflexivity|].
  exists (mk_vals value_zero value_zero value_zero value_zero value_zero value_zero value_zero value_zero
    (mk_value METRICS_TYPE_UNKNOWN (u64 (env_now e))) value_zero value_zero value_zero value_zero value_zero),
    (fun i => md_stream (ds !!! i)).
  split; [|by split_and!]. unfold message_metrics_table in Hds.
  repeat match goal with
  | H : Forall2 _ (_ :: _) _ |- _ => apply Forall2_cons_inv_l in H as ([] & ? & ? & H & ->)
  | H : Forall2 _ [] _ |- _ => apply Forall2_nil_inv_l in H as ->
  end.
  cbn in *. destruct_and?; by subst.
Qed.
End facts.

(** ** Printing the configuration *)

(** [snprintf(prefix_new, 32, "%s<tabs>", prefix)] *)
Definition PREFIX_STRING_SIZE_MAX : nat := 32.
Definition prefix_tabs (prefix tabs : string) : string :=
  string_take (PREFIX_STRING_SIZE_MAX - 1) (prefix +:+ tabs).

Definition upper_hex_digit (d : Z) : string :=
  String.String (Ascii.ascii_of_nat (Z.to_nat (if d <? 10 then d + 48 else d + 55))) EmptyString.
(** [0x%02X ] *)
Definition print_data_byte (b : Z) : string :=
  "0x" +:+ upper_hex_digit (b / 16) +:+ upper_hex_digit (b mod 16) +:+ " ".

Definition strcat (l : list string) : string := foldr String.append EmptyString l.

Definition print_filter (prefix : string) (f : filter_t) : outcome string :=
  d ← slice (default [] (fdata f)) 0 (flen f);
  Ret (prefix +:+ (if decide (action f = FILTER_ACTION_ACCEPT) then "ACCEPT" else "REJECT") +:+ " " +:+
       strcat (map print_data_byte d) +:+ newline).

Fixpoint print_list {A} (print : A -> outcome string) (l : list A) : outcome string :=
  match l with
  | [] => Ret EmptyString
  | x :: l' => s ← print x; s' ← print_list print l'; Ret (s +:+ s')
  end.

Definition print_forwarding_rule (prefix : string) (r : forwarding_rule_t) : outcome string :=
  let prefix_new := prefix_tabs prefix tab in
  s ← print_list (print_filter prefix_new) (filters_list r);
  Ret (prefix +:+ "dst_port: " +:+ text (dst_port_name r) +:+ newline +:+
       prefix +:+ "filters:" +:+ newline +:+ s).

Definition print_port (prefix : string) (p : port_t) : outcome string :=
  let prefix_new := prefix_tabs prefix (tab +:+ tab) in
  s ← print_list (print_forwarding_rule prefix_new) (forwarding_rules_list p);
  Ret (prefix +:+ text (pname p) +:+ newline +:+
       prefix +:+ tab +:+ "pub_addr: " +:+ text (pub_addr p) +:+ newline +:+
       prefix +:+ tab +:+ "sub_addr: " +:+ text (sub_addr p) +:+ newline +:+
       prefix +:+ tab +:+ "forwarding_rules:" +:+ newline +:+ s).

Definition router_print (c : router_cfg_t) : outcome string :=
  s ← print_list (print_port (prefix_tabs "" tab)) (ports_list c);
  Ret (text (rname c) +:+ newline +:+ s).

(** A printed configuration stays within the filters' bytes. *)
Lemma print_list_total {A} (P : A -> Prop) (print : A -> outcome string) l :
  (forall x, P x -> exists s, print x = Ret s) -> Forall P l -> exists s, print_list print l = Ret s.
Proof.
  intros Hp. induction 1 as [|x l Hx _ [s' IH]]; [by eexists|].
  destruct (Hp x Hx) as [s Hs]. exists (s +:+ s'). cbn [print_list]. by rewrite Hs, IH.
Qed.

(** Printing a loaded configuration reads no filter byte beyond the filter's data. *)
Theorem router_print_total c : cfg_ok c -> exists s, router_print c = Ret s.
Proof.
  intros [_ Hps]. unfold router_print.
  destruct (print_list_total port_ok (print_port (prefix_tabs "" tab)) (ports_list c)) as [s ->];
    [|done|by eexists]. intros p (_ & _ & _ & _ & Hr). unfold print_port.
  destruct (print_list_total rule_ok (print_forwarding_rule (prefix_tabs (prefix_tabs "" tab) (tab +:+ tab)))
    (forwarding_rules_list p)) as [s ->]; [|done|by eexists].
  intros r [_ Hf]. unfold print_forwarding_rule.
  destruct (print_list_total filter_ok (print_filter (prefix_tabs (prefix_tabs (prefix_tabs "" tab) (tab +:+ tab)) tab))
    (filters_list r)) as [s ->]; [|done|by eexists].
  intros f Hfo. unfold print_filter, filter_ok in *. destruct (fdata f) as [d|]; cbn [default].
  - destruct Hfo as (Hl & _). rewrite slice_ok by (unfold id; lia). by eexists.
  - rewrite Hfo. by eexists.
Qed.

(** ** Witnesses *)

Lemma example_loaded_ok : cfg_ok example_loaded.
Proof.
  split; [done|]. repeat first
    [ apply Forall_cons; split | constructor; fail | progress unfold port_ok, rule_ok | split
    | apply bytes_ok_decide; reflexivity | progress (unfold filter_ok; simpl) | lia | done ].
Qed.

Lemma router_print_total_witness : exists s, router_print example_loaded = Ret s.
Proof. apply router_print_total. apply example_loaded_ok. Defined.

Definition no_cache : rule_cache_t index_cmph := mk_cache None [] 0 [] (mk_prefixes 0 SIZE_MAX []) 0 None.

(** The cache of the second port of the example router. *)
Definition example_cache : rule_cache_t index_cmph :=
  match router_create (C := index_cmph) (Ret (Some example_loaded)) (router_create_endpoints example_create) with
  | Ret (Some r) => default no_cache (port_rule_cache r !! 1%nat)
  | _ => no_cache
  end.

Definition zero_vals : vals :=
  mk_vals value_zero value_zero value_zero value_zero value_zero value_zero value_zero value_zero
    value_zero value_zero value_zero value_zero value_zero value_zero.

Definition example_wakeups : list (wakeup (C := index_cmph)) :=
  [mk_wakeup example_cache [[0x55; 0x17; 0xff]; [1; 2; 3; 4; 5]] 1000 3000;
   mk_wakeup example_cache [[]] 5000 6000].

Lemma router_interval_witness :
  exists x1, run_wakeups f64_int value_zero example_wakeups (Some (tbl zero_vals (fun _ => EmptyString))) =
    Ret (Some (tbl x1 (fun _ => EmptyString)), [(Some 10%nat, [0x55; 0x17; 0xff])]) /\
  exists x2 ss', loop_1s_metrics f64_int value_zero 9 (Some (tbl x1 (fun _ => EmptyString))) =
      Ret (Some (tbl x2 ss')) /\
    ss' MI.count = pretty 3 +:+ newline /\ ss' MI.wakeups = pretty 2 +:+ newline /\
    ss' MI.size = pretty 2 +:+ newline /\ ss' MI.latency = time_text 1000 /\
    ss' MI.latency_max = time_text 2000 /\ measured x2 0 0 0 0 0.
Proof.
  apply (router_interval f64_int value_zero example_wakeups zero_vals (fun _ => EmptyString)
    [(Some 10%nat, [0x55; 0x17; 0xff])] 9); [by split_and!|]. vm_compute. reflexivity.
Defined.

Lemma wakeups_max_cases_witness :
  exists x', loop_reader_callback f64_int value_zero (mk_wakeup example_cache [] 1 2)
      (Some (tbl zero_vals (fun _ => EmptyString))) = Ret (Some (tbl x' (fun _ => EmptyString)), []) /\
    as_u32 (v_wakeups_max x') = 0.
Proof.
  apply (wakeups_max_cases f64_int value_zero (mk_wakeup example_cache [] 1 2)). reflexivity.
Defined.

Lemma router_metrics_start_witness :
  exists m idx, pk_metrics_setup f64_int example_env true (Some "endpoint_router") "sbp"
      message_metrics_table = Some (m, idx) /\
    exists x ss, m = tbl x ss /\ measured x 0 0 0 0 0.
Proof.
  eexists _, _. split; [vm_compute; reflexivity|].
  apply (router_metrics_start f64_int example_env true (Some "endpoint_router") "sbp" _ (seq 0 14)).
  vm_compute. reflexivity.
Defined.
