(* ===== verification/FilterSbp.v ===== *)
(** * The SBP rate filter ([src/package/sbp_protocol/src/filter_sbp.c])

    The filter reads a file of lines "<message type> <divisor>" in hexadecimal and lets
    through every divisor-th message of each listed type.  The rule array keeps its capacity
    here, so writing past it is [Undef]; the file is the lines [fgets] delivers ([None] when
    it cannot be opened), and whether inotify reports a change is an input of each call. *)

From Stdlib Require Import Ascii.
From S2P Require Import Prelude Libc.

Local Open Scope Z_scope.

Definition SBP_MSG_TYPE_OFFSET : nat := 1.
Definition SBP_MSG_SIZE_MIN : Z := 6.
Definition RULES_COUNT_INIT : Z := 256.

Record filter_sbp_rule := mk_sbp_rule {
  rtype : Z;      (* uint16_t *)
  divisor : Z;    (* uint8_t *)
  counter : Z;    (* uint8_t *)
}.

#[export] Instance filter_sbp_rule_eq_dec : EqDecision filter_sbp_rule.
Proof. solve_decision. Defined.

(** [rules] is [None] for NULL; [rules_count] is the length of the used part. *)
Record filter_sbp_state := mk_sbp_filter { rules : option (list filter_sbp_rule) }.

Definition used_rules (s : filter_sbp_state) : list filter_sbp_rule := default [] (rules s).

(** The new rule and the return value (0 passes the message). *)
Definition process_rule (r : filter_sbp_rule) : filter_sbp_rule * Z :=
  if divisor r =? 0 then (r, 1)
  else
    let c := u8 (counter r + 1) in
    if divisor r <=? c then (mk_sbp_rule (rtype r) (divisor r) 0, 0)
    else (mk_sbp_rule (rtype r) (divisor r) c, 1).

(** ** Loading the file *)

(** The loop over the lines; [cap] is [rules_buffer_count] and [realloc_ok] says whether a
    reallocation to that many rules succeeds.  The boolean is [error]. *)
Fixpoint load_lines (realloc_ok : Z -> bool) (lines : list string) (cap : Z)
    (rs : list filter_sbp_rule) : outcome (option (list filter_sbp_rule) * bool) :=
  match lines with
  | [] => Ret (Some rs, false)
  | line :: lines' =>
      match sscanf_x_x line with
      | None => Ret (Some rs, true)
      | Some (msg_type, div) =>
          let grow := cap <=? Z.of_nat (length rs) in
          let cap' := if grow then u32 (cap * 2) else cap in
          if grow && negb (realloc_ok cap') then Ret (None, true)
          else if Z.of_nat (length rs) <? cap' then
            load_lines realloc_ok lines' cap' (rs ++ [mk_sbp_rule (u16 msg_type) (u8 div) 0])
          else Undef
      end
  end.

Definition filter_sbp_load_config (malloc_ok : bool) (realloc_ok : Z -> bool)
    (file : option (list string)) : outcome filter_sbp_state :=
  if negb malloc_ok then Ret (mk_sbp_filter None)
  else match file with
  | None => Ret (mk_sbp_filter (Some []))
  | Some lines =>
      r ← load_lines realloc_ok lines RULES_COUNT_INIT [];
      let '(rs, error) := r in
      Ret (mk_sbp_filter (if (error : bool) then match rs with Some _ => Some [] | None => None end else rs))
  end.

(** [filter_create]; the inotify set-up only logs its errors. *)
Definition filter_create := filter_sbp_load_config.

(** [filter_destroy]: the rules it frees. *)
Definition filter_destroy (s : filter_sbp_state) : option (list filter_sbp_rule) := rules s.

(** ** Filtering *)

(** The first rule of the type is processed in place. *)
Fixpoint search_rules (rs : list filter_sbp_rule) (msg_type : Z) : list filter_sbp_rule * Z :=
  match rs with
  | [] => ([], 1)
  | r :: rs' =>
      if rtype r =? msg_type then let '(r', res) := process_rule r in (r' :: rs', res)
      else let '(rs'', res) := search_rules rs' msg_type in (r :: rs'', res)
  end.

(** The little-endian 16-bit number at offset 1. *)
Definition sbp_msg_type (msg : list Z) : outcome Z :=
  lo ← load msg SBP_MSG_TYPE_OFFSET;
  hi ← load msg (S SBP_MSG_TYPE_OFFSET);
  Ret (Z.lor lo (Z.shiftl hi 8)).

(** [reload] is the freshly loaded state when inotify reported a change. *)
Definition filter_process (reload : option filter_sbp_state) (s : filter_sbp_state) (msg : list Z) :
    outcome (filter_sbp_state * Z) :=
  let s := default s reload in
  if (length (used_rules s) =? 0)%nat then Ret (s, 0)
  else if Z.of_nat (length msg) <? SBP_MSG_SIZE_MIN then Ret (s, 1)
  else
    t ← sbp_msg_type msg;
    let '(rs, res) := search_rules (used_rules s) t in
    Ret (mk_sbp_filter (Some rs), res).

(** The messages of a stream, one after the other, with no change of the file. *)
Fixpoint filter_run (s : filter_sbp_state) (msgs : list (list Z)) : outcome (filter_sbp_state * list Z) :=
  match msgs with
  | [] => Ret (s, [])
  | m :: msgs' =>
      r ← filter_process None s m;
      r' ← filter_run (fst r) msgs';
      Ret (fst r', snd r :: snd r')
  end.

(** ** Specification

    The divisor of a type is that of the first rule for it.  A message passes when it is the
    d-th, 2d-th, 3d-th, ... valid message of its type. *)

Definition type_of (msg : list Z) : Z := Z.lor (msg !!! 1%nat) (Z.shiftl (msg !!! 2%nat) 8).
Definition valid_msg (msg : list Z) : bool := negb (Z.of_nat (length msg) <? SBP_MSG_SIZE_MIN).

Definition divisor_of (rs : list filter_sbp_rule) (t : Z) : Z :=
  match list_find (fun r => rtype r = t) rs with Some (_, r) => divisor r | None => 0 end.

Definition seen (history : list (list Z)) (t : Z) : Z :=
  Z.of_nat (length (filter (fun m => valid_msg m = true /\ type_of m = t) history)).

Definition passes (rs : list filter_sbp_rule) (history : list (list Z)) (msg : list Z) : bool :=
  match rs with
  | [] => true
  | _ =>
      let d := divisor_of rs (type_of msg) in
      valid_msg msg && negb (d =? 0) && ((seen history (type_of msg) + 1) mod d =? 0)
  end.

Fixpoint spec_run (rs : list filter_sbp_rule) (history msgs : list (list Z)) : list Z :=
  match msgs with
  | [] => []
  | m :: msgs' =>
      (if passes rs history m then 0 else 1) :: spec_run rs (history ++ [m]) msgs'
  end.

(** ** Refinement *)

(** The rules of [s] are those of [rs0] with the counters of the first rule of each type
    advanced by the messages seen. *)
Definition advanced (rs0 rs : list filter_sbp_rule) (cnt : Z -> Z) : Prop :=
  Forall2 (fun r0 r => rtype r = rtype r0 /\ divisor r = divisor r0) rs0 rs /\
  forall t i r, list_find (fun r => rtype r = t) rs = Some (i, r) -> divisor r <> 0 ->
    counter r = cnt t mod divisor r.

Definition rules_ok (rs : list filter_sbp_rule) : Prop :=
  Forall (fun r => 0 <= divisor r < 256 /\ counter r = 0) rs.

Lemma search_rules_spec rs t :
  search_rules rs t =
    match list_find (fun r => rtype r = t) rs with
    | Some (i, r) => (<[i := fst (process_rule r)]> rs, snd (process_rule r))
    | None => (rs, 1)
    end.
Proof.
  induction rs as [|r rs IH]; [done|]. cbn [search_rules list_find].
  destruct (Z.eqb_spec (rtype r) t) as [Heq|Hne].
  - rewrite decide_True by done. by destruct (process_rule r).
  - rewrite decide_False, IH by done. by destruct (list_find _ rs) as [[??]|].
Qed.

Lemma find_same_types rs0 rs t :
  Forall2 (fun r0 r => rtype r = rtype r0 /\ divisor r = divisor r0) rs0 rs ->
  divisor_of rs0 t = divisor_of rs t.
Proof.
  unfold divisor_of. induction 1 as [|r0 r rs0 rs [Ht Hd] _ IH]; [done|]. cbn [list_find].
  rewrite <-Ht. case_decide; [done|]. destruct (list_find _ rs0) as [[??]|], (list_find _ rs) as [[??]|]; done.
Qed.

(** One step of the counter: it is reset exactly when the count reaches a multiple. *)
Lemma counter_step d n :
  0 < d < 256 -> 0 <= n ->
  let c := u8 (n mod d + 1) in
  (if d <=? c then (n + 1) mod d = 0 else (n + 1) mod d = c /\ (n + 1) mod d <> 0).
Proof.
  intros Hd Hn. pose proof (Z.mod_pos_bound n d ltac:(lia)) as Hm. cbn zeta.
  rewrite u8_small by lia. rewrite <-(Zplus_mod_idemp_l n 1 d). destruct (d <=? _) eqn:E; bool_hyps.
  - replace (n mod d + 1) with d by lia. apply Z_mod_same_full.
  - rewrite (Z.mod_small (n mod d + 1)) by lia. lia.
Qed.

Lemma process_rule_step r n :
  0 <= divisor r < 256 -> 0 <= n -> (divisor r <> 0 -> counter r = n mod divisor r) ->
  let '(r', res) := process_rule r in
  rtype r' = rtype r /\ divisor r' = divisor r /\
  (divisor r <> 0 -> counter r' = (n + 1) mod divisor r) /\
  res = (if negb (divisor r =? 0) && ((n + 1) mod divisor r =? 0) then 0 else 1).
Proof.
  intros Hd Hn Hc. unfold process_rule. destruct (divisor r =? 0) eqn:E; bool_hyps.
  { by rewrite E. }
  rewrite Hc by done. pose proof (counter_step (divisor r) n ltac:(lia) Hn) as Hs. cbn zeta in *.
  destruct (divisor r <=? _); cbn [rtype divisor counter negb andb].
  - rewrite Hs. by split_and!.
  - destruct Hs as [Hs Hne]. rewrite (proj2 (Z.eqb_neq _ _) Hne), Hs. by split_and!.
Qed.

Lemma seen_snoc h m t :
  seen (h ++ [m]) t = seen h t + (if decide (valid_msg m = true /\ type_of m = t) then 1 else 0).
Proof.
  unfold seen. rewrite filter_app, length_app. cbn [filter list_filter]. case_decide; simpl; lia.
Qed.

Lemma find_insert_other (rs : list filter_sbp_rule) i r r' t t' :
  list_find (fun r => rtype r = t) rs = Some (i, r) -> rtype r' = t -> t' <> t ->
  list_find (fun r => rtype r = t') (<[i := r']> rs) = list_find (fun r => rtype r = t') rs.
Proof.
  revert i; induction rs as [|x rs IH]; intros i Hf Hr' Hne; [done|]. cbn [list_find] in *.
  case_decide as Hx.
  - injection Hf as <- <-. cbn. rewrite !decide_False by congruence. done.
  - destruct (list_find (fun r => rtype r = t) rs) as [[j y]|] eqn:E; [|done].
    cbn in Hf. injection Hf as <- <-. change (<[S j := r']> (x :: rs)) with (x :: <[j := r']> rs).
    cbn [list_find]. case_decide; [done|]. by rewrite (IH j eq_refl).
Qed.

Lemma find_insert_same (rs : list filter_sbp_rule) i r r' t :
  list_find (fun r => rtype r = t) rs = Some (i, r) -> rtype r' = t ->
  list_find (fun r => rtype r = t) (<[i := r']> rs) = Some (i, r').
Proof.
  revert i; induction rs as [|x rs IH]; intros i Hf Hr'; [done|]. cbn [list_find] in *.
  case_decide as Hx.
  - injection Hf as <- <-. cbn. by rewrite decide_True.
  - destruct (list_find (fun r => rtype r = t) rs) as [[j y]|] eqn:E; [|done].
    cbn in Hf. injection Hf as <- <-. change (<[S j := r']> (x :: rs)) with (x :: <[j := r']> rs).
    cbn [list_find]. rewrite decide_False by done. by rewrite (IH j eq_refl).
Qed.

(** A valid message advances its type. *)
Lemma search_rules_advanced rs0 rs h m :
  Forall (fun r => 0 <= divisor r < 256) rs0 -> advanced rs0 rs (seen h) -> valid_msg m = true ->
  let '(rs', res) := search_rules rs (type_of m) in
  advanced rs0 rs' (seen (h ++ [m])) /\
  res = (let d := divisor_of rs0 (type_of m) in
         if negb (d =? 0) && ((seen h (type_of m) + 1) mod d =? 0) then 0 else 1).
Proof.
  intros Hd0 [Hsame Hcnt] Hv. rewrite search_rules_spec, (find_same_types rs0 rs) by done.
  set (t := type_of m). unfold divisor_of.
  destruct (list_find (fun r => rtype r = t) rs) as [[i r]|] eqn:Ef.
  2: { split; [|done]. split; [done|]. intros t' j r' Hf' Hd'. rewrite seen_snoc.
       rewrite decide_False, Z.add_0_r by (intros [_ Ht]; subst t'; fold t in Hf'; congruence).
       by eapply Hcnt. }
  pose proof Ef as Ef'. apply list_find_Some in Ef' as (Hi & Hrt & _).
  destruct (Forall2_lookup_r _ _ _ _ _ Hsame Hi) as (r0 & Hr0 & Ht0 & Hdr0).
  assert (0 <= divisor r < 256) as Hdr by (rewrite Hdr0; by eapply (Forall_lookup_1 _ _ _ _ Hd0)).
  pose proof (process_rule_step r (seen h t) Hdr ltac:(unfold seen; lia) (fun H => Hcnt t i r Ef H)) as Hp.
  destruct (process_rule r) as [r' res]. cbn [fst snd]. destruct Hp as (Hpt & Hpd & Hpc & Hres).
  split; [|done]. split.
  - apply list_insert_id in Hr0. rewrite <-Hr0. apply Forall2_insert; [done|]. by rewrite Hpt, Hpd.
  - intros t' j x Hf' Hdx. rewrite seen_snoc. destruct (decide (t' = t)) as [->|Hne].
    + rewrite (find_insert_same rs i r r' t Ef) in Hf' by congruence. injection Hf' as <- <-.
      rewrite decide_True by done. rewrite Hpc, Hpd by congruence. done.
    + rewrite (find_insert_other rs i r r' t t' Ef) in Hf' by congruence.
      rewrite decide_False, Z.add_0_r by (intros [_ Ht]; by apply Hne). by eapply Hcnt.
Qed.

Lemma filter_process_step rs0 rs h m :
  Forall (fun r => 0 <= divisor r < 256) rs0 -> advanced rs0 rs (seen h) ->
  exists rs', filter_process None (mk_sbp_filter (Some rs)) m =
      Ret (mk_sbp_filter (Some rs'), if passes rs0 h m then 0 else 1) /\
    advanced rs0 rs' (seen (h ++ [m])).
Proof.
  intros Hd0 Ha. pose proof Ha as [Hsame _]. unfold filter_process, used_rules. cbn [default rules].
  assert (forall t, valid_msg m = false -> seen (h ++ [m]) t = seen h t) as Hinv.
  { intros t Hv. rewrite seen_snoc, decide_False; [lia|]. by rewrite Hv; intros [? _]. }
  destruct rs as [|r rs].
  { inversion Hsame; subst. exists []. split; [done|]. split; [done|]. by intros. }
  destruct rs0 as [|r0 rs0]; [inversion Hsame|]. unfold id. cbn [length Nat.eqb].
  unfold passes. destruct (valid_msg m) eqn:Hv; unfold valid_msg in Hv.
  - apply negb_true_iff in Hv. rewrite Hv. bool_hyps.
    assert (sbp_msg_type m = Ret (type_of m)) as ->.
    { unfold sbp_msg_type, type_of, SBP_MSG_SIZE_MIN, load in *.
      rewrite !list_lookup_lookup_total_lt by (unfold SBP_MSG_TYPE_OFFSET; lia). done. }
    cbn [mbind outcome_bind].
    assert (valid_msg m = true) as Hv'.
    { unfold valid_msg. by rewrite (proj2 (Z.ltb_ge _ _)). }
    pose proof (search_rules_advanced (r0 :: rs0) (r :: rs) h m Hd0 Ha Hv') as Hs.
    destruct (search_rules _ _) as [rs' res]. destruct Hs as [Ha' ->]. exists rs'. split; [|done].
    by cbn zeta; cbn [andb].
  - apply negb_false_iff in Hv. rewrite Hv. cbn [andb]. exists (r :: rs). split; [done|].
    destruct Ha as [? Hc]. split; [done|]. intros t i x Hf Hdx. rewrite Hinv; [by eapply Hc|done].
Qed.

Lemma filter_run_refines rs0 rs h msgs :
  Forall (fun r => 0 <= divisor r < 256) rs0 -> advanced rs0 rs (seen h) ->
  exists s, filter_run (mk_sbp_filter (Some rs)) msgs = Ret (s, spec_run rs0 h msgs).
Proof.
  intros Hd. revert rs h; induction msgs as [|m msgs IH]; intros rs h Ha; [by eexists|].
  cbn [filter_run spec_run]. destruct (filter_process_step rs0 rs h m Hd Ha) as (rs' & -> & Ha').
  cbn [mbind outcome_bind fst snd]. destruct (IH rs' (h ++ [m]) Ha') as [s ->]. by eexists.
Qed.

Lemma rules_ok_advanced rs : rules_ok rs -> advanced rs rs (seen []).
Proof.
  intros Hr. split; [by apply Forall_Forall2_diag, Forall_true|]. intros t i r (Hi & _ & _)%list_find_Some Hd.
  eapply Forall_lookup_1 in Hr as [_ ->]; [|done]. by rewrite Z.mod_0_l.
Qed.

(** C32: the filter divides.  Starting from loaded rules, on any sequence of messages, it
    accesses no byte outside a message and lets through exactly the d-th, 2d-th, 3d-th, ...
    valid message of each type whose first rule has divisor d; a divisor of zero, a type
    without a rule and a message shorter than six bytes are rejected; and without any rule
    everything passes. *)
Theorem filter_sbp_divides rs msgs :
  rules_ok rs ->
  exists s, filter_run (mk_sbp_filter (Some rs)) msgs = Ret (s, spec_run rs [] msgs).
Proof.
  intros Hr. apply filter_run_refines; [|by apply rules_ok_advanced].
  eapply Forall_impl; [exact Hr|]. by intros r [? _].
Qed.

(** ** Loading *)

Definition rule_of (x : Z * Z) : filter_sbp_rule := mk_sbp_rule (u16 (fst x)) (u8 (snd x)) 0.

Lemma load_lines_spec lines cap rs :
  0 < cap -> Z.of_nat (length rs) <= cap -> cap <= 256 \/ cap <= 2 * Z.of_nat (length rs) ->
  Z.of_nat (length rs + length lines) < 2147483648 ->
  load_lines (fun _ => true) lines cap rs =
    Ret (match mapM sscanf_x_x lines with
         | Some l => (Some (rs ++ map rule_of l), false)
         | None => (match load_lines (fun _ => true) lines cap rs with Ret (x, _) => x | _ => None end, true)
         end) /\
  match load_lines (fun _ => true) lines cap rs with Ret (Some _, _) => True | _ => False end.
Proof.
  revert cap rs; induction lines as [|line lines IH]; intros cap rs Hpos Hle Hcap Hlen.
  { cbn. by rewrite app_nil_r. }
  cbn [load_lines mapM]. destruct (sscanf_x_x line) as [[t d]|]; [|done]. cbn [length] in Hlen.
  rewrite andb_false_r.
  set (cap' := if cap <=? Z.of_nat (length rs) then u32 (cap * 2) else cap).
  assert (Z.of_nat (length rs) < cap' /\ (cap' <= 256 \/ cap' <= 2 * (Z.of_nat (length rs) + 1))) as [Hc1 Hc2].
  { unfold cap'. destruct (cap <=? _) eqn:E; bool_hyps; [rewrite u32_small by lia|]; lia. }
  rewrite (proj2 (Z.ltb_lt _ _) Hc1).
  destruct (IH cap' (rs ++ [mk_sbp_rule (u16 t) (u8 d) 0])) as [IH1 IH2];
    [lia|rewrite length_app; cbn; lia|rewrite length_app; cbn; lia|rewrite length_app; cbn; lia|].
  split; [|exact IH2]. rewrite IH1 at 1. cbn [mbind option_bind].
  destruct (mapM sscanf_x_x lines) as [l|]; cbn; [|done]. by rewrite <-app_assoc.
Qed.

Lemma load_config_rules file :
  match file with Some lines => Z.of_nat (length lines) < 2147483648 | None => True end ->
  let rs := match file with
            | Some lines => match mapM sscanf_x_x lines with Some l => map rule_of l | None => [] end
            | None => []
            end in
  filter_sbp_load_config true (fun _ => true) file = Ret (mk_sbp_filter (Some rs)) /\ rules_ok rs.
Proof.
  intros Hlen. cbn zeta. split.
  - unfold filter_sbp_load_config. cbn [negb]. destruct file as [lines|]; [|done].
    destruct (load_lines_spec lines RULES_COUNT_INIT []) as [H1 H2]; [done|done|by left|done|].
    destruct (mapM sscanf_x_x lines) as [l|].
    + rewrite H1. done.
    + destruct (load_lines _ lines _ []) as [[[rs|] e]| |]; try done. injection H1 as ->. done.
  - destruct file as [lines|]; [|constructor]. destruct (mapM sscanf_x_x lines) as [l|]; [|constructor].
    apply Forall_forall. intros r (x & -> & _)%(list_elem_of_fmap rule_of). split; [apply u8_range|done].
Qed.

(** Loading the configuration.  With memory to be had, a file all of whose lines parse
    gives one rule per line, in order, however often the rule array has to grow; a file with
    a line that does not parse, or that cannot be opened, gives no rules at all (so that
    everything passes); every rule starts with a zero counter. *)
Theorem filter_sbp_load_config_spec file :
  match file with Some lines => Z.of_nat (length lines) < 2147483648 | None => True end ->
  let rs := match file with
            | Some lines => match mapM sscanf_x_x lines with Some l => map rule_of l | None => [] end
            | None => []
            end in
  filter_sbp_load_config true (fun _ => true) file = Ret (mk_sbp_filter (Some rs)) /\ rules_ok rs.
Proof. apply load_config_rules. Qed.

(** ** Witnesses *)

Definition example_rules : list filter_sbp_rule := [mk_sbp_rule 0x20A 2 0; mk_sbp_rule 0x102 0 0].
Definition example_msg : list Z := [0x55; 0x0A; 0x02; 0; 0; 0; 1; 2].

Lemma filter_sbp_divides_witness :
  exists s, filter_run (mk_sbp_filter (Some example_rules))
      [example_msg; example_msg; [1; 2; 3]; example_msg; example_msg] = Ret (s, [1; 0; 1; 1; 0]).
Proof.
  apply (filter_sbp_divides example_rules [example_msg; example_msg; [1; 2; 3]; example_msg; example_msg]).
  repeat constructor; cbn; lia.
Defined.

Lemma filter_sbp_load_config_spec_witness :
  filter_sbp_load_config true (fun _ => true) (Some ["20a 2"; "102 100"]) =
    Ret (mk_sbp_filter (Some [mk_sbp_rule 0x20A 2 0; mk_sbp_rule 0x102 0 0])) /\
  rules_ok [mk_sbp_rule 0x20A 2 0; mk_sbp_rule 0x102 0 0].
Proof. apply (filter_sbp_load_config_spec (Some ["20a 2"; "102 100"])). cbn. lia. Defined.
