(* ===== verification/Whitelists.v ===== *)
(** * The message whitelists of the ports ([src/package/ports_daemon/ports_daemon/src/whitelists.c])

    A whitelist is a setting, a string of message ids with rate dividers such as
    "1234,5678/2".  [whitelist_notify] parses it into an array of 128 entries and writes the
    file the SBP rate filter reads.  The array keeps its size here, so storing past it is
    [Undef]; the file is the list of the lines printed. *)

From Stdlib Require Import Ascii.
From S2P Require Import Prelude Libc FilterSbp.

Local Open Scope Z_scope.

(** ** The settings of the ports *)

Record port_whitelist_config_t := mk_whitelist { wname : string; wl : string }.

Definition WL_SIZE : nat := 256.       (* sizeof(wl) *)
Definition WHITELIST_COUNT : nat := 128.

Definition console_messages_uart : string :=
  "23,65,72,74,81,97,117,134,136,137,138,139,144,149,163,165,166,167,171,175,181,185,187,188,189,190,257,258,259,520,522,524,526,527,528,1025,2304/50,2305,2306/50,30583,65280,65282,65535".
Definition console_messages_server : string :=
  "23,65,72,74,81,97,117,134,136,137,138,139,144,149,163,165,166,167,171,175,181,185,187,188,189,190,257,258,259,520,522,524,526,527,528,1025,2304/50,2305,2306/50,4098,30583,65280,65282,65535".
Definition console_messages_client : string :=
  "23,65,72,74,81,97,117,134,136,137,138,139,144,149,163,165,166,167,171,181,185,187,188,189,190,257,258,259,520,522,524,526,527,528,1025,2304/50,2305,2306/50,4098,30583,65280,65282,65535".
Definition console_messages_can : string :=
  "23,65,72,74,81,97,117,134,136,137,138,139,144,149,163,165,166,167,171,175,181,185,187,188,189,190,257,258,259,520,522,524,526,527,528,1025,2304,2305,2306,4098,30583,65280,65282,65535".

Definition port_whitelist_config : list port_whitelist_config_t := [
  mk_whitelist "uart0" "72,74,117,65535";
  mk_whitelist "uart1" console_messages_uart;
  mk_whitelist "usb0" "";
  mk_whitelist "tcp_server0" console_messages_server;
  mk_whitelist "tcp_server1" console_messages_server;
  mk_whitelist "tcp_client0" console_messages_client;
  mk_whitelist "tcp_client1" console_messages_client;
  mk_whitelist "udp_server0" "";
  mk_whitelist "udp_server1" "";
  mk_whitelist "udp_client0" console_messages_client;
  mk_whitelist "udp_client1" console_messages_client;
  mk_whitelist "can0" console_messages_can;
  mk_whitelist "can1" console_messages_can
].

(** ** Parsing *)

Inductive parse_state := PARSE_ID | PARSE_AFTER_ID | PARSE_DIV | PARSE_AFTER_DIV.

#[export] Instance parse_state_eq_dec : EqDecision parse_state.
Proof. solve_decision. Defined.

Record wl_entry := mk_entry { id : Z; div : Z }.

(** The whitespace the parser skips: not the form feed. *)
Definition wl_space (c : ascii) : bool :=
  Ascii.eqb c " " || Ascii.eqb c (ascii_of_nat 9) || Ascii.eqb c (ascii_of_nat 10) ||
  Ascii.eqb c (ascii_of_nat 13) || Ascii.eqb c (ascii_of_nat 11).

(** A number [tmp] was read: the next state, array and number of entries; [None] is the
    return of a parse error.  The cells of the array are [None] until they are written. *)
Definition wl_number (tmp : Z) (state : parse_state) (whitelist : list (option wl_entry)) (entries : nat) :
    outcome (option (parse_state * list (option wl_entry) * nat)) :=
  match state with
  | PARSE_ID =>
      whitelist ← store whitelist entries (Some (mk_entry tmp 1));
      Ret (Some (PARSE_AFTER_ID, whitelist, S entries))
  | PARSE_DIV =>
      cell ← load whitelist (entries - 1);
      e ← of_option cell;
      whitelist ← store whitelist (entries - 1) (Some (mk_entry (id e) tmp));
      Ret (Some (PARSE_AFTER_DIV, whitelist, entries))
  | PARSE_AFTER_DIV | PARSE_AFTER_ID => Ret None
  end.

(** The loop; the fuel bounds the number of rounds. *)
Fixpoint whitelist_parse (fuel : nat) (c : string) (state : parse_state)
    (whitelist : list (option wl_entry)) (entries : nat) : outcome (option (list (option wl_entry) * nat)) :=
  match c with
  | EmptyString => Ret (Some (whitelist, entries))
  | String.String ch c' =>
      match fuel with
      | O => Diverge
      | S fuel' =>
          if isdigit ch then
            let '(tmp, rest) := strtoul10_digits c in
            r ← wl_number tmp state whitelist entries;
            match r with
            | Some (state, whitelist, entries) => whitelist_parse fuel' rest state whitelist entries
            | None => Ret None
            end
          else if Ascii.eqb ch "/" then
            if decide (state = PARSE_AFTER_ID) then whitelist_parse fuel' c' PARSE_DIV whitelist entries
            else Ret None
          else if Ascii.eqb ch "," then
            if decide (state = PARSE_AFTER_ID \/ state = PARSE_AFTER_DIV)
            then whitelist_parse fuel' c' PARSE_ID whitelist entries
            else Ret None
          else if wl_space ch then whitelist_parse fuel' c' state whitelist entries
          else Ret None
      end
  end.

(** ** The notification *)

Inductive settings_write_res := SETTINGS_WR_OK | SETTINGS_WR_PARSE_FAILED | SETTINGS_WR_SERVICE_FAILED.

(** [fprintf(cfg, "%x %x\n", id, div)] *)
Definition wl_line (e : wl_entry) : string := print_x (id e) +:+ " " +:+ print_x (div e) +:+ newline.

(** The lines of the entries, each of which must have been written. *)
Fixpoint wl_lines (es : list (option wl_entry)) : outcome (list string) :=
  match es with
  | [] => Ret []
  | e :: es' => e ← of_option e; ls ← wl_lines es'; Ret (wl_line e :: ls)
  end.

(** The result and the file written, by its name and its lines. *)
Definition whitelist_notify (fopen_ok : bool) (cfg : port_whitelist_config_t) :
    outcome (settings_write_res * option (string * list string)) :=
  r ← whitelist_parse (String.length (wl cfg)) (wl cfg) PARSE_ID (replicate WHITELIST_COUNT None) 0;
  match r with
  | None => Ret (SETTINGS_WR_PARSE_FAILED, None)
  | Some (whitelist, entries) =>
      let fn := "/etc/filter_out_config/" +:+ wname cfg in
      if (256 <=? String.length fn)%nat then Undef
      else if negb fopen_ok then Ret (SETTINGS_WR_SERVICE_FAILED, None)
      else
        used ← slice whitelist 0 entries;
        ls ← wl_lines used;
        Ret (SETTINGS_WR_OK, Some (fn, ls))
  end.

(** [whitelists_init]: the ports registered and the result; [register] is
    [pk_settings_register] of a port's setting. *)
Fixpoint whitelists_register (register : port_whitelist_config_t -> Z) (can_enabled : bool)
    (ports : list port_whitelist_config_t) : list port_whitelist_config_t * Z :=
  match ports with
  | [] => ([], 0)
  | p :: ports' =>
      if bool_decide (string_take 3 (wname p) = "can") && negb can_enabled
      then whitelists_register register can_enabled ports'
      else
        let rc := register p in
        if negb (rc =? 0) then ([p], rc)
        else let '(ps, rc) := whitelists_register register can_enabled ports' in (p :: ps, rc)
  end.

Definition whitelists_init (register : port_whitelist_config_t -> Z) (can_enabled : bool) :=
  whitelists_register register can_enabled port_whitelist_config.

(** ** Specification

    The text as tokens, read one character at a time, and the grammar of a whitelist: ids
    separated by commas, each with an optional divider.  A comma or a slash may end the text. *)

Inductive token := TNum (v : Z) | TSlash | TComma | TBad.

Definition ulong (v : Z) : Z := if 4294967295 <? v then 4294967295 else v.

Definition end_number (cur : option Z) (ts : list token) : list token :=
  match cur with Some v => TNum (ulong v) :: ts | None => ts end.

(** [cur] is the value of the digits that precede. *)
Fixpoint lex (s : string) (cur : option Z) : list token :=
  match s with
  | EmptyString => end_number cur []
  | String.String c s' =>
      match dec_digit c with
      | Some d => lex s' (Some (10 * default 0 cur + d))
      | None =>
          end_number cur
            (if Ascii.eqb c "/" then TSlash :: lex s' None
             else if Ascii.eqb c "," then TComma :: lex s' None
             else if wl_space c then lex s' None
             else TBad :: lex s' None)
      end
  end.

Fixpoint wl_grammar (ts : list token) : option (list wl_entry) :=
  match ts with
  | [] => Some []
  | [TNum i] | [TNum i; TSlash] => Some [mk_entry i 1]
  | [TNum i; TSlash; TNum d] => Some [mk_entry i d]
  | TNum i :: TComma :: ts' => cons (mk_entry i 1) <$> wl_grammar ts'
  | TNum i :: TSlash :: TNum d :: TComma :: ts' => cons (mk_entry i d) <$> wl_grammar ts'
  | _ => None
  end.

(** What a whitelist text means; [None] when it is not a whitelist. *)
Definition wl_meaning (s : string) : option (list wl_entry) := wl_grammar (lex s None).

(** ** The parser meets the grammar *)

(** The parser on tokens, with the entries read so far. *)
Definition wl_step (t : token) (st : parse_state) (es : list wl_entry) : option (parse_state * list wl_entry) :=
  match t, st with
  | TNum v, PARSE_ID => Some (PARSE_AFTER_ID, es ++ [mk_entry v 1])
  | TNum v, PARSE_DIV =>
      match last es with
      | Some e => Some (PARSE_AFTER_DIV, removelast es ++ [mk_entry (id e) v])
      | None => None
      end
  | TSlash, PARSE_AFTER_ID => Some (PARSE_DIV, es)
  | TComma, (PARSE_AFTER_ID | PARSE_AFTER_DIV) => Some (PARSE_ID, es)
  | _, _ => None
  end.

Fixpoint wl_run (ts : list token) (st : parse_state) (es : list wl_entry) : option (list wl_entry) :=
  match ts with
  | [] => Some es
  | t :: ts' => match wl_step t st es with Some (st', es') => wl_run ts' st' es' | None => None end
  end.

Lemma wl_run_grammar ts es : wl_run ts PARSE_ID es = app es <$> wl_grammar ts.
Proof.
  revert es. induction ts as [ts IH] using (induction_ltof1 _ length); intros es. unfold ltof in IH.
  destruct ts as [|[i| | |] [|[| | |] ts]]; try done; [cbn; by rewrite app_nil_r| |].
  - destruct ts as [|[d| | |] [|[| | |] ts]]; cbn; rewrite ?last_snoc; cbn; rewrite ?removelast_last; try done.
    rewrite IH by (cbn; lia). destruct (wl_grammar ts); cbn; by rewrite <-?app_assoc.
  - cbn [wl_run wl_step]. rewrite IH by (cbn; lia).
    change (wl_grammar (TNum i :: TComma :: ts)) with (cons (mk_entry i 1) <$> wl_grammar ts).
    destruct (wl_grammar ts); cbn; by rewrite <-?app_assoc.
Qed.

(** Reading a number is reading its digits. *)
Lemma lex_digits s v :
  lex s (Some v) = TNum (ulong (fst (dec_digits s v))) :: lex (snd (dec_digits s v)) None.
Proof.
  revert v. induction s as [|c s IH]; intros v; [done|]. cbn [lex dec_digits].
  destruct (dec_digit c) as [d|] eqn:E; [apply IH|]. cbn [fst snd lex]. by rewrite E.
Qed.

Lemma dec_digits_length s v : (String.length (snd (dec_digits s v)) <= String.length s)%nat.
Proof.
  revert v. induction s as [|c s IH]; intros v; [done|]. cbn [dec_digits].
  destruct (dec_digit c); [|done]. cbn [String.length]. specialize (IH (10 * v + z)). lia.
Qed.

(** The first token of a text whose first character is a digit, and the rest. *)
Lemma lex_number c s :
  isdigit c = true ->
  let '(tmp, rest) := strtoul10_digits (String.String c s) in
  lex (String.String c s) None = TNum tmp :: lex rest None /\ (String.length rest <= String.length s)%nat.
Proof.
  intros Hc. unfold strtoul10_digits. cbn [dec_digits lex].
  assert (dec_digit c = Some (Z.of_nat (nat_of_ascii c) - 48)) as -> by (unfold dec_digit; by rewrite Hc).
  cbn [default]. rewrite lex_digits.
  pose proof (dec_digits_length s (10 * 0 + (Z.of_nat (nat_of_ascii c) - 48))) as Hl.
  by destruct (dec_digits s _).
Qed.

(** The array that holds the entries read so far. *)
Definition wl_array (es : list wl_entry) : list (option wl_entry) :=
  map Some es ++ replicate (WHITELIST_COUNT - length es) None.

(** Room for the entries that [n] more tokens can add, every other token at most; a divider
    follows an entry. *)
Definition wl_room (st : parse_state) (es : list wl_entry) (n : nat) : Prop :=
  (2 * length es + n + (match st with PARSE_ID => 1 | _ => 0 end) <= 2 * WHITELIST_COUNT + 1)%nat /\
  (st = PARSE_DIV \/ st = PARSE_AFTER_ID -> es <> []).

Lemma wl_array_store es v :
  (length es < WHITELIST_COUNT)%nat ->
  store (wl_array es) (length es) (Some v) = Ret (wl_array (es ++ [v])).
Proof.
  intros H. unfold store, wl_array. rewrite length_app, length_map, length_replicate, length_app.
  destruct (_ <? _)%nat eqn:E; bool_hyps; [|lia]. f_equal. cbn [length].
  replace (WHITELIST_COUNT - length es)%nat with (S (WHITELIST_COUNT - (length es + 1))) by lia.
  rewrite insert_app_r_alt by (rewrite length_map; lia). rewrite length_map, Nat.sub_diag.
  cbn [replicate]. rewrite map_app, <-app_assoc. done.
Qed.

Lemma wl_number_step v st es n :
  wl_room st es (S n) ->
  wl_number v st (wl_array es) (length es) =
    Ret (match wl_step (TNum v) st es with
         | Some (st', es') => Some (st', wl_array es', length es') | None => None end).
Proof.
  intros [Hn Hne]. destruct st; cbn [wl_number wl_step]; [|done| |done].
  - rewrite wl_array_store by lia. cbn [mbind outcome_bind]. by rewrite length_app, Nat.add_1_r.
  - destruct (exists_last (Hne (or_introl eq_refl))) as (es0 & e & ->). rewrite last_snoc, removelast_last.
    rewrite !length_app in *. cbn [length] in *. rewrite Nat.add_sub.
    assert (wl_array (es0 ++ [e]) !! length es0 = Some (Some e)) as Hl.
    { unfold wl_array. rewrite map_app, <-app_assoc, lookup_app_r by (rewrite length_map; lia).
      by rewrite length_map, Nat.sub_diag. }
    unfold load. rewrite Hl. cbn [of_option mbind outcome_bind]. unfold store.
    destruct (_ <? _)%nat eqn:E; bool_hyps; [|apply lookup_lt_Some in Hl; lia]. cbn [mbind outcome_bind].
    do 4 f_equal. unfold wl_array. rewrite !map_app, !length_app, <-!app_assoc.
    rewrite insert_app_r_alt by (rewrite length_map; lia). by rewrite length_map, Nat.sub_diag.
Qed.

Lemma wl_step_room t st es n st' es' :
  wl_room st es (S n) -> wl_step t st es = Some (st', es') -> wl_room st' es' n.
Proof.
  intros [Hn Hne] Hs. unfold wl_room. destruct t, st; cbn in Hs; try done.
  - injection Hs as <- <-. rewrite length_app. cbn [length]. split; [lia|]. by intros _ [_ ?]%app_nil.
  - destruct (exists_last (Hne (or_introl eq_refl))) as (es0 & e & ->). rewrite last_snoc, removelast_last in Hs.
    injection Hs as <- <-. rewrite length_app in *. cbn [length] in *. split; [lia|]. by intros [|].
  - injection Hs as <- <-. split; [lia|]. auto.
  - injection Hs as <- <-. split; [lia|]. by intros [|].
  - injection Hs as <- <-. split; [lia|]. by intros [|].
Qed.

(** The parser refines the machine on tokens, and never stores past the array. *)
Lemma whitelist_parse_run fuel s st es :
  (String.length s <= fuel)%nat -> wl_room st es (length (lex s None)) ->
  whitelist_parse fuel s st (wl_array es) (length es) =
    Ret (match wl_run (lex s None) st es with Some es' => Some (wl_array es', length es') | None => None end).
Proof.
  revert s st es. induction fuel as [|fuel IH]; intros [|c s] st es Hf Hn; cbn [String.length] in Hf; try done;
    [lia|].
  cbn [whitelist_parse]. destruct (isdigit c) eqn:Hc.
  - pose proof (lex_number c s Hc) as H. destruct (strtoul10_digits _) as [tmp rest]. destruct H as [Hl Hr].
    rewrite Hl in *. cbn [length] in Hn. erewrite wl_number_step by done.
    cbn [mbind outcome_bind wl_run]. destruct (wl_step _ _ _) as [[st' es']|] eqn:Hs; [|done].
    apply IH; [lia|]. by eapply wl_step_room.
  - assert (dec_digit c = None) as Hd by (unfold dec_digit; by rewrite Hc).
    cbn [lex] in *. rewrite Hd in *. cbn [end_number] in *.
    destruct (Ascii.eqb c "/"); [|destruct (Ascii.eqb c ","); [|destruct (wl_space c); [by apply IH; [lia|]|done]]].
    + cbn [wl_run]. destruct (wl_step TSlash st es) as [[st' es']|] eqn:Hs.
      * pose proof (wl_step_room _ _ _ _ _ _ Hn Hs). destruct st; try done. injection Hs as <- <-.
        apply IH; [lia|done].
      * by destruct st.
    + cbn [wl_run]. destruct (wl_step TComma st es) as [[st' es']|] eqn:Hs.
      * pose proof (wl_step_room _ _ _ _ _ _ Hn Hs). destruct st; try done; injection Hs as <- <-;
          apply IH; [lia|done|lia|done].
      * by destruct st.
Qed.

Lemma lex_length s cur :
  (length (lex s cur) <= String.length s + match cur with Some _ => 1 | None => 0 end)%nat.
Proof.
  revert cur. induction s as [|c s IH]; intros cur; [by destruct cur|]. cbn [lex String.length].
  destruct (dec_digit c) as [d|]; [specialize (IH (Some (10 * default 0 cur + d))); destruct cur; lia|].
  specialize (IH None). cbv beta iota in IH. destruct cur; cbn [end_number];
    destruct (Ascii.eqb c "/"), (Ascii.eqb c ","), (wl_space c); cbn [length]; lia.
Qed.

Lemma wl_lines_all es : wl_lines (map Some es) = Ret (map wl_line es).
Proof. induction es as [|e es IH]; [done|]. cbn. by rewrite IH. Qed.

(** The notification follows the grammar. *)
Lemma whitelist_notify_meaning fopen_ok cfg :
  (String.length (wl cfg) < WL_SIZE)%nat -> (String.length (wname cfg) < 233)%nat ->
  whitelist_notify fopen_ok cfg =
    Ret (match wl_meaning (wl cfg) with
         | None => (SETTINGS_WR_PARSE_FAILED, None)
         | Some es =>
             if fopen_ok
             then (SETTINGS_WR_OK, Some ("/etc/filter_out_config/" +:+ wname cfg, map wl_line es))
             else (SETTINGS_WR_SERVICE_FAILED, None)
         end).
Proof.
  intros Hwl Hname. unfold whitelist_notify, WL_SIZE in *.
  change (replicate WHITELIST_COUNT None) with (wl_array []). change 0%nat with (length (A := wl_entry) []) at 1.
  rewrite whitelist_parse_run; [|done|].
  2: { pose proof (lex_length (wl cfg) None). split; [|by intros [|]]. unfold WHITELIST_COUNT. cbn [length] in *. lia. }
  cbn [mbind outcome_bind]. rewrite wl_run_grammar. unfold wl_meaning.
  destruct (wl_grammar _) as [es|]; [|done]. cbn [fmap option_fmap option_map app].
  destruct (_ <=? _)%nat eqn:E; bool_hyps.
  { rewrite string_length_app in E. cbn in E. lia. }
  destruct fopen_ok; [|done]. cbn [negb]. unfold wl_array.
  rewrite slice_ok by (rewrite length_app, length_map; lia). cbn [mbind outcome_bind].
  rewrite drop_0, take_app_length' by (by rewrite length_map). by rewrite wl_lines_all.
Qed.

(** Parsing a whitelist.  For every text the setting can hold (255 characters) the parser
    stops, stays within its 128 entries, and accepts exactly the whitelists of the grammar:
    it then writes the ids and dividers of the text, one line each, to the file of the port,
    and otherwise reports a parse error and writes nothing. *)
Theorem whitelist_notify_spec fopen_ok cfg :
  (String.length (wl cfg) < WL_SIZE)%nat -> (String.length (wname cfg) < 233)%nat ->
  whitelist_notify fopen_ok cfg =
    Ret (match wl_meaning (wl cfg) with
         | None => (SETTINGS_WR_PARSE_FAILED, None)
         | Some es =>
             if fopen_ok
             then (SETTINGS_WR_OK, Some ("/etc/filter_out_config/" +:+ wname cfg, map wl_line es))
             else (SETTINGS_WR_SERVICE_FAILED, None)
         end).
Proof. apply whitelist_notify_meaning. Qed.

(** ** From the setting to the filter *)

Definition entry_text (e : wl_entry) : string := print_u (id e) +:+ "/" +:+ print_u (div e).

(** The text of a whitelist. *)
Fixpoint wl_text (es : list wl_entry) : string :=
  match es with
  | [] => EmptyString
  | [e] => entry_text e
  | e :: es' => entry_text e +:+ "," +:+ wl_text es'
  end.

Definition entry_ok (e : wl_entry) : Prop := 0 <= id e <= 4294967295 /\ 0 <= div e <= 4294967295.

Lemma ulong_small v : 0 <= v <= 4294967295 -> ulong v = v.
Proof. intros. unfold ulong. destruct (_ <? _) eqn:E; bool_hyps; lia. Qed.

(** A printed number is one token. *)
Lemma lex_print_u v s :
  0 <= v <= 4294967295 -> (forall x, lex s (Some x) = TNum (ulong x) :: lex s None) ->
  lex (print_u v +:+ s) None = TNum v :: lex s None.
Proof.
  intros Hv Hs. destruct (print_u_props v) as (ds & -> & Hd & Hne & Hval). specialize (Hval Hv).
  destruct ds as [|d ds]; [done|]. apply Forall_cons in Hd as [Hd0 Hd].
  rewrite digit_string_cons. cbn [lex]. destruct (digit_char_props d) as (_ & H & _); [lia|].
  rewrite H by lia. cbn [default]. rewrite lex_digits, dec_digits_string by done.
  unfold digits_value in Hval. cbn [fold_left] in Hval.
  rewrite Hval.
  specialize (Hs v). rewrite lex_digits in Hs. rewrite Hs. by rewrite ulong_small.
Qed.

Lemma lex_entry e s :
  entry_ok e -> (forall x, lex s (Some x) = TNum (ulong x) :: lex s None) ->
  lex (entry_text e +:+ s) None = TNum (id e) :: TSlash :: TNum (div e) :: lex s None.
Proof.
  intros [Hi Hd] Hs. unfold entry_text.
  rewrite <-!string_app_assoc. rewrite lex_print_u; [|lia|done].
  change (lex ("/" +:+ print_u (div e) +:+ s) None) with (TSlash :: lex (print_u (div e) +:+ s) None).
  by rewrite lex_print_u by (lia || done).
Qed.

Lemma wl_text_meaning es : Forall entry_ok es -> wl_meaning (wl_text es) = Some es.
Proof.
  unfold wl_meaning. induction 1 as [|e es He Hes IH]; [done|]. destruct es as [|e' es].
  - cbn [wl_text]. rewrite <-(string_app_nil_r (entry_text e)), lex_entry by done. by destruct e.
  - change (wl_text (e :: e' :: es)) with (entry_text e +:+ "," +:+ wl_text (e' :: es)).
    rewrite lex_entry by done.
    change (lex ("," +:+ wl_text (e' :: es)) None) with (TComma :: lex (wl_text (e' :: es)) None).
    cbn [wl_grammar]. rewrite IH. by destruct e.
Qed.

Lemma wl_line_scan e :
  0 <= id e <= 4294967295 -> 0 <= div e <= 4294967295 -> sscanf_x_x (wl_line e) = Some (id e, div e).
Proof.
  intros Hi Hd. unfold sscanf_x_x, wl_line.
  change (" " +:+ print_x (div e) +:+ newline) with (String.String " " (print_x (div e) +:+ newline)).
  rewrite print_x_read by done.
  change (read_hex (String.String " " (print_x (div e) +:+ newline))) with (read_hex (print_x (div e) +:+ newline)).
  unfold newline. by rewrite print_x_read.
Qed.

Lemma mapM_wl_lines es :
  Forall (fun e => 0 <= id e <= 4294967295 /\ 0 <= div e <= 4294967295) es ->
  mapM sscanf_x_x (map wl_line es) = Some (map (fun e => (id e, div e)) es).
Proof.
  induction 1 as [|e es [Hi Hd] _ IH]; [done|]. cbn [map mapM]. rewrite wl_line_scan by done. cbn. by rewrite IH.
Qed.

(** C38: from the setting to the filter.  Writing the text of a list of message ids and
    dividers, each below 2^32, to the setting of a port is accepted; the file that is written
    is read by the SBP rate filter as these rules, in order, with the ids reduced to 16 bits
    and the dividers to 8 (so that those below 2^16 and 2^8 are exactly those set); and the
    filter then passes every message of each listed type whose turn comes with the divider so
    reduced (none for a divider that is a multiple of 256, see [divider_256_blocks]), and no
    message of a type that is not listed (everything, when the list is empty). *)
Theorem whitelist_reaches_filter name es msgs :
  Forall entry_ok es -> (String.length (wl_text es) < WL_SIZE)%nat -> (String.length name < 233)%nat ->
  let rs := map (fun e => mk_sbp_rule (u16 (id e)) (u8 (div e)) 0) es in
  exists fn lines, whitelist_notify true (mk_whitelist name (wl_text es)) = Ret (SETTINGS_WR_OK, Some (fn, lines)) /\
    filter_create true (fun _ => true) (Some lines) = Ret (mk_sbp_filter (Some rs)) /\
    exists s, filter_run (mk_sbp_filter (Some rs)) msgs = Ret (s, spec_run rs [] msgs).
Proof.
  intros Hes Hlen Hname. cbn zeta. eexists _, _. split.
  { rewrite whitelist_notify_meaning by done. cbn [wl wname]. by rewrite wl_text_meaning. }
  assert (Z.of_nat (length es) < 2147483648) as Hn.
  { assert (length es <= S (String.length (wl_text es)))%nat; [|unfold WL_SIZE in *; lia]. clear.
    induction es as [|e [|e' es] IH]; [cbn; lia..|].
    change (wl_text (e :: e' :: es)) with (entry_text e +:+ "," +:+ wl_text (e' :: es)).
    rewrite !string_length_app. cbn [length String.length] in *. lia. }
  destruct (load_config_rules (Some (map wl_line es))) as [Hl Hr]; [by rewrite length_map|].
  rewrite mapM_wl_lines in Hl, Hr by done.
  assert (map rule_of (map (fun e => (id e, div e)) es) = map (fun e => mk_sbp_rule (u16 (id e)) (u8 (div e)) 0) es) as Hmap
    by by rewrite map_map.
  rewrite Hmap in Hl, Hr. split; [exact Hl|].
  apply filter_run_refines; [|by apply rules_ok_advanced]. eapply Forall_impl; [exact Hr|]. by intros r [? _].
Qed.

(** The whitelists the ports start with are all accepted. *)
Definition entry_okb (e : wl_entry) : bool :=
  (0 <=? id e) && (id e <? 65536) && (0 <=? div e) && (div e <? 256).

Definition whitelist_okb (cfg : port_whitelist_config_t) : bool :=
  (String.length (wl cfg) <? WL_SIZE)%nat && (String.length (wname cfg) <? 233)%nat &&
  match wl_meaning (wl cfg) with Some es => forallb entry_okb es | None => false end.

Lemma default_whitelists_accepted : forallb whitelist_okb port_whitelist_config = true.
Proof. vm_compute. reflexivity. Qed.

(** Registration of the settings: all ports but, with CAN disabled, the CAN ports. *)
Lemma whitelists_init_ports can_enabled :
  whitelists_init (fun _ => 0) can_enabled =
    (if can_enabled then port_whitelist_config else take 11 port_whitelist_config, 0).
Proof. destruct can_enabled; vm_compute; reflexivity. Qed.

(** ** Witnesses *)

Definition example_whitelist : list wl_entry := [mk_entry 1234 1; mk_entry 5678 2; mk_entry 3456 10].

Lemma whitelist_notify_spec_witness :
  whitelist_notify true (mk_whitelist "uart0" " 1234 ,5678/2, 3456/10") =
    Ret (SETTINGS_WR_OK, Some ("/etc/filter_out_config/uart0", map wl_line example_whitelist)) /\
  whitelist_notify true (mk_whitelist "uart0" "12/3/4") = Ret (SETTINGS_WR_PARSE_FAILED, None).
Proof.
  split.
  - exact (whitelist_notify_spec true (mk_whitelist "uart0" " 1234 ,5678/2, 3456/10") ltac:(apply Nat.ltb_lt; reflexivity)
      ltac:(apply Nat.ltb_lt; reflexivity)).
  - exact (whitelist_notify_spec true (mk_whitelist "uart0" "12/3/4") ltac:(apply Nat.ltb_lt; reflexivity)
      ltac:(apply Nat.ltb_lt; reflexivity)).
Defined.

(** A divider of 256 is accepted, and the filter rejects the message for ever. *)
Example divider_256_blocks :
  match whitelist_notify true (mk_whitelist "uart0" "522/256") with
  | Ret (SETTINGS_WR_OK, Some (_, lines)) =>
      match filter_create true (fun _ => true) (Some lines) with
      | Ret s => match filter_run s (replicate 600 example_msg) with Ret (_, out) => bool_decide (Forall (fun x => x <> 0) out) | _ => false end
      | _ => false
      end
  | _ => false
  end = true.
Proof. vm_compute. reflexivity. Qed.

Lemma whitelist_reaches_filter_witness :
  exists fn lines, whitelist_notify true (mk_whitelist "uart0" "522/2") = Ret (SETTINGS_WR_OK, Some (fn, lines)) /\
    filter_create true (fun _ => true) (Some lines) = Ret (mk_sbp_filter (Some [mk_sbp_rule 0x20A 2 0])) /\
    exists s, filter_run (mk_sbp_filter (Some [mk_sbp_rule 0x20A 2 0])) [example_msg; example_msg] = Ret (s, [1; 0]).
Proof.
  apply (whitelist_reaches_filter "uart0" [mk_entry 522 2] [example_msg; example_msg]).
  - repeat constructor; cbn; lia.
  - vm_compute. lia.
  - cbn. lia.
Defined.
