(* ===== verification/Runit.v ===== *)
(** * Services under runit ([libpiksi/libpiksi/src/runit.c])

    Daemons start and stop programs as services of runit: [start_runit_service] writes the
    directory of a service and tells its supervisor to start it, [stop_runit_service] tells
    it to stop.  The supervisor is not part of the sources: what its status files hold is part
    of the state, and what it is told is recorded.  [fails] tells which system calls of an
    operation fail. *)

From S2P Require Import Prelude Libc.

Record runit_config_t := mk_cfg {
  service_dir : string;
  service_name : string;
  command_line : string;
  custom_down : option string;
  finish_command : option string;
  restart : bool;
}.

Inductive runit_stat_t := RUNIT_UNKNOWN | RUNIT_NO_STAT | RUNIT_NO_PID | RUNIT_RUNNING | RUNIT_RUNNING_OTHER | RUNIT_DOWN.
#[export] Instance runit_stat_eq_dec : EqDecision runit_stat_t.
Proof. solve_decision. Defined.

(** The files of a service's directory. *)
Record service := mk_service {
  sv_control_dir : bool;
  sv_down : bool;
  sv_run : option string;
  sv_custom_down : option string;
  sv_finish : option string;
}.
Definition no_service : service := mk_service false false None None None.

(** The status files of its supervisor ([supervise/stat] and [supervise/pid]). *)
Record supervise := mk_supervise { sup_stat : option string; sup_pid : option string }.

Inductive command := C_up | C_once | C_down.

Record runit_world := mk_runit {
  rw_services : gmap string service;            (* by path *)
  rw_supervise : gmap string supervise;
  rw_commands : list (string * command);        (* what supervisors were told, in order *)
}.

(** The system calls that are checked, in the order in which they are made. *)
Inductive fs_call :=
  | FS_mkdtemp | FS_mkdir | FS_down_open | FS_down_close | FS_run_open | FS_run_close | FS_run_chmod
  | FS_custom_open | FS_custom_close | FS_custom_chmod | FS_finish_open | FS_finish_close | FS_finish_chmod
  | FS_mv | FS_usleep | FS_control_open | FS_sv | FS_control_close | FS_stat_open | FS_pid_open | FS_close.

(** [snprintf_assert] *)
Definition snprintf_assert (size : Z) (s : string) : outcome string :=
  if (Z.of_nat (String.length s) <? size)%Z then Ret s else Undef.

Definition script (command : string) : string := "#!/bin/sh" +:+ newline +:+ "exec " +:+ command +:+ newline.

Section runit.
(** The wait for the control pipe goes through its [usleep] whenever the pipe is not there. *)
Variable control_ready : bool.
Variable fails : fs_call -> bool.

Definition service_path (cfg : runit_config_t) : string := service_dir cfg +:+ "/" +:+ service_name cfg.

Definition set_services (w : runit_world) (m : gmap string service) : runit_world := mk_runit m (rw_supervise w) (rw_commands w).
Definition tell (w : runit_world) (path : string) (c : command) : runit_world :=
  mk_runit (rw_services w) (rw_supervise w) (rw_commands w ++ [(path, c)]).

(** A write into the directory: seen at once when the service is in place, and else only when
    the temporary directory is moved there. *)
Definition put (fresh : bool) (path : string) (w : runit_world) (d : service) : runit_world :=
  if fresh then w else set_services w (<[path := d]> (rw_services w)).

(** Opening a file for writing empties it; then it is written, closed and made executable. *)
Definition write_script (fresh : bool) (path : string) (f_open f_close f_chmod : fs_call) (set : service -> string -> service)
    (command : string) (w : runit_world) (d : service) : runit_world * service * bool :=
  if fails f_open then (w, d, false)
  else
    let d := set d (script command) in
    let w := put fresh path w d in
    (w, d, negb (fails f_close) && negb (fails f_chmod)).

Definition set_run (d : service) (s : string) : service := mk_service (sv_control_dir d) (sv_down d) (Some s) (sv_custom_down d) (sv_finish d).
Definition set_custom (d : service) (s : string) : service := mk_service (sv_control_dir d) (sv_down d) (sv_run d) (Some s) (sv_finish d).
Definition set_finish (d : service) (s : string) : service := mk_service (sv_control_dir d) (sv_down d) (sv_run d) (sv_custom_down d) (Some s).

(** The files of the service: [true] when all were written. *)
Definition write_service (cfg : runit_config_t) (fresh : bool) (path : string) (w : runit_world) (d : service) :
    runit_world * service * bool :=
  let mkdir_ok := match custom_down cfg with Some _ => sv_control_dir d || negb (fails FS_mkdir) | None => true end in
  if negb mkdir_ok then (w, d, false)
  else
    let d := match custom_down cfg with
             | Some _ => mk_service true (sv_down d) (sv_run d) (sv_custom_down d) (sv_finish d)
             | None => d
             end in
    let w := put fresh path w d in
    if fails FS_down_open then (w, d, false)
    else
      let d := mk_service (sv_control_dir d) true (sv_run d) (sv_custom_down d) (sv_finish d) in
      let w := put fresh path w d in
      if fails FS_down_close then (w, d, false)
      else
        let '(w, d, ok) := write_script fresh path FS_run_open FS_run_close FS_run_chmod set_run (command_line cfg) w d in
        if negb ok then (w, d, false)
        else
          let '(w, d, ok) :=
            match custom_down cfg with
            | Some c => write_script fresh path FS_custom_open FS_custom_close FS_custom_chmod set_custom c w d
            | None => (w, d, true)
            end in
          if negb ok then (w, d, false)
          else
            match finish_command cfg with
            | Some c => write_script fresh path FS_finish_open FS_finish_close FS_finish_chmod set_finish c w d
            | None => (w, d, true)
            end.

Definition start_runit_service (cfg : runit_config_t) (w : runit_world) : outcome (runit_world * Z) :=
  path ← snprintf_assert PATH_MAX (service_path cfg);
  let '(fresh, d) := match rw_services w !! path with Some d => (false, d) | None => (true, no_service) end in
  if fresh && fails FS_mkdtemp then Ret (w, (-1)%Z)
  else
    _ ← snprintf_assert PATH_MAX (path +:+ "/supervise/control");
    let '(w, d, ok) := write_service cfg fresh path w d in
    if negb ok then Ret (w, (-1)%Z)
    else
      _ ← (if fresh then snprintf_assert 1024 ("/bin/mv /tmp/tmp.runit.XXXXXX " +:+ path) else Ret EmptyString);
      if fresh && fails FS_mv then Ret (w, (-1)%Z)
      else
        let w := if fresh then set_services w (<[path := d]> (rw_services w)) else w in
        if negb control_ready && fails FS_usleep then Ret (w, (-1)%Z)
        else if fails FS_control_open then Ret (w, (-1)%Z)
        else
          _ ← snprintf_assert 1024 ((if restart cfg then "/usr/bin/sv up " else "/usr/bin/sv once ") +:+ path);
          let w := tell w path (if restart cfg then C_up else C_once) in
          if fails FS_sv then Ret (w, (-1)%Z)
          else if fails FS_control_close then Ret (w, (-1)%Z)
          else Ret (w, 0%Z).

Definition is_prefix (p s : string) : bool := String.prefix p s.

(** [stat_runit_service]; a failing call returns -1, which is [RUNIT_UNKNOWN].  A status that
    fills the 64 bytes read has no NUL, and [strstr] runs past it. *)
Definition stat_runit_service (cfg : runit_config_t) (w : runit_world) : outcome runit_stat_t :=
  path ← snprintf_assert PATH_MAX (service_path cfg);
  _ ← snprintf_assert PATH_MAX (path +:+ "/supervise/stat");
  match rw_supervise w !! path ≫= sup_stat with
  | None => Ret RUNIT_NO_STAT
  | Some content =>
      if fails FS_stat_open then Ret RUNIT_UNKNOWN
      else
        let stat_buf := string_take 64 content in
        if bool_decide (stat_buf = "down" +:+ newline) then Ret (if fails FS_close then RUNIT_UNKNOWN else RUNIT_DOWN)
        else if bool_decide (stat_buf = "run" +:+ newline) || bool_decide (stat_buf = "run, want down" +:+ newline)
        then Ret (if fails FS_close then RUNIT_UNKNOWN else RUNIT_RUNNING)
        else
          let rest :=
            if is_prefix ("run" +:+ newline) stat_buf then Ret (if fails FS_close then RUNIT_UNKNOWN else RUNIT_RUNNING_OTHER)
            else if String.length stat_buf =? 64 then Undef
            else Ret RUNIT_UNKNOWN in
          if bool_decide (stat_buf = newline) then
            match rw_supervise w !! path ≫= sup_pid with
            | None => Ret (if fails FS_close then RUNIT_UNKNOWN else RUNIT_NO_PID)
            | Some pid =>
                if fails FS_pid_open || fails FS_close then Ret RUNIT_UNKNOWN
                else if bool_decide (string_take 64 pid = newline) then rest else Ret RUNIT_RUNNING
            end
          else rest
  end.

Definition stop_runit_service (cfg : runit_config_t) (w : runit_world) : outcome (runit_world * Z) :=
  stat ← stat_runit_service cfg w;
  match stat with
  | RUNIT_RUNNING =>
      path ← snprintf_assert PATH_MAX (service_path cfg);
      _ ← snprintf_assert PATH_MAX (path +:+ "/supervise/control");
      if fails FS_control_open then Ret (w, (-1)%Z)
      else
        let w := tell w path C_down in
        if fails FS_control_close then Ret (w, (-1)%Z) else Ret (w, 0%Z)
  | _ => Ret (w, (-1)%Z)
  end.
End runit.

(** ** What starting a service does *)

(** The files after a successful start, from those that were there. *)
Definition complete (cfg : runit_config_t) (d : service) : service :=
  mk_service (match custom_down cfg with Some _ => true | None => sv_control_dir d end) true (Some (script (command_line cfg)))
    (match custom_down cfg with Some c => Some (script c) | None => sv_custom_down d end)
    (match finish_command cfg with Some c => Some (script c) | None => sv_finish d end).

Lemma put_put fresh path w d d' : put fresh path (put fresh path w d) d' = put fresh path w d'.
Proof. destruct fresh; [done|]. unfold put, set_services. simpl. by rewrite insert_insert_eq. Qed.

(** [w'] is [w] with the files of the service as some sequence of writes left them. *)
Definition put_some (fresh : bool) (path : string) (w w' : runit_world) : Prop := w' = w \/ exists d, w' = put fresh path w d.

Lemma write_script_spec fails fresh path f1 f2 f3 set command w d w' d' ok w0 :
  write_script fails fresh path f1 f2 f3 set command w d = (w', d', ok) -> put_some fresh path w0 w ->
  put_some fresh path w0 w' /\ (ok = true -> d' = set d (script command) /\ w' = put fresh path w d').
Proof.
  unfold write_script. destruct (fails f1); intros E Hw; simplify_eq; [by split|]. split; [|done]. right.
  destruct Hw as [->|[d0 ->]]; eexists; [done|by rewrite put_put].
Qed.

Lemma write_service_spec fails cfg fresh path w d w' d' ok :
  write_service fails cfg fresh path w d = (w', d', ok) ->
  put_some fresh path w w' /\ (ok = true -> d' = complete cfg d /\ w' = put fresh path w d').
Proof.
  unfold write_service. intros E.
  destruct (negb match custom_down cfg with Some _ => _ | None => _ end); [simplify_eq; by split; [left|]|].
  set (d1 := match custom_down cfg with Some _ => _ | None => d end) in *.
  destruct (fails FS_down_open); [simplify_eq; split; [right; by eexists|done]|].
  rewrite put_put in E. set (d2 := mk_service (sv_control_dir d1) true _ _ _) in *.
  destruct (fails FS_down_close); [simplify_eq; split; [right; by eexists|done]|].
  destruct (write_script fails fresh path _ _ _ set_run _ _ _) as [[w3 d3] ok3] eqn:E3.
  apply (write_script_spec _ _ _ _ _ _ _ _ _ _ _ _ _ w) in E3 as [P3 H3]; [|right; by eexists].
  destruct ok3; simpl in E; [|simplify_eq; by split]. destruct (H3 eq_refl) as [-> W3]. rewrite put_put in W3. clear H3.
  assert (exists w4 d4 ok4, match custom_down cfg with
      | Some c => write_script fails fresh path FS_custom_open FS_custom_close FS_custom_chmod set_custom c w3 (set_run d2 (script (command_line cfg)))
      | None => (w3, set_run d2 (script (command_line cfg)), true) end = (w4, d4, ok4) /\ put_some fresh path w w4 /\
      (ok4 = true -> d4 = match custom_down cfg with Some c => set_custom (set_run d2 (script (command_line cfg))) (script c) | None => set_run d2 (script (command_line cfg)) end /\
        w4 = put fresh path w d4)) as (w4 & d4 & ok4 & E4 & P4 & H4).
  { destruct (custom_down cfg) as [c|]; [|by eexists _, _, _; split_and!].
    destruct (write_script fails fresh path FS_custom_open _ _ _ _ _ _) as [[w4 d4] ok4] eqn:E4. exists w4, d4, ok4.
    apply (write_script_spec _ _ _ _ _ _ _ _ _ _ _ _ _ w) in E4 as [P4 H4]; [|done]. split_and!; [done..|]. intros Hok.
    destruct (H4 Hok) as [-> ->]. by rewrite W3, put_put. }
  rewrite E4 in E. destruct ok4; simpl in E; [|simplify_eq; by split]. destruct (H4 eq_refl) as [-> W4]. clear H4 E4.
  unfold complete. destruct (finish_command cfg) as [c|].
  - apply (write_script_spec _ _ _ _ _ _ _ _ _ _ _ _ _ w) in E as [P5 H5]; [|done]. split; [done|]. intros Hok.
    destruct (H5 Hok) as [-> ->]. rewrite W4, put_put. split; [|done]. subst d2 d1. by destruct (custom_down cfg).
  - simplify_eq. split; [done|]. intros _. split; [|done]. subst d2 d1. by destruct (custom_down cfg).
Qed.

(** Starting a service.  Nothing but the directory of the service and the commands to its
    supervisor changes.  A service that was not there appears, if at all, with all its files;
    when 0 is returned its scripts run the commands of the configuration, it is marked not to
    start by itself, and its supervisor was told, once and last, to keep it up or to run it
    once, as configured. *)
Lemma start_runit_service_spec ready fails cfg w w' r :
  start_runit_service ready fails cfg w = Ret (w', r) ->
  let path := service_path cfg in
  let told := [(path, if restart cfg then C_up else C_once)] in
  (forall p, p <> path -> rw_services w' !! p = rw_services w !! p) /\ rw_supervise w' = rw_supervise w /\
  (rw_services w !! path = None -> rw_services w' !! path = None \/ rw_services w' !! path = Some (complete cfg no_service)) /\
  (rw_commands w' = rw_commands w \/ rw_commands w' = rw_commands w ++ told) /\
  (r = 0%Z -> rw_services w' !! path = Some (complete cfg (default no_service (rw_services w !! path))) /\
              rw_commands w' = rw_commands w ++ told).
Proof.
  intros E path told. unfold start_runit_service in E.
  apply outcome_bind_Ret in E as (p & Ep & E). unfold snprintf_assert in Ep.
  destruct (_ <? PATH_MAX)%Z in Ep; simplify_eq. change (service_path cfg) with path in E.
  set (d0 := default no_service (rw_services w !! path)).
  assert (exists fresh, match rw_services w !! path with Some d => (false, d) | None => (true, no_service) end = (fresh, d0) /\
    (fresh = true <-> rw_services w !! path = None)) as (fresh & Ef & Hfresh).
  { subst d0. destruct (rw_services w !! path); eexists; (split; [done|]); done. }
  rewrite Ef in E. destruct (fresh && fails FS_mkdtemp); [by simplify_eq; split_and!; auto|].
  apply outcome_bind_Ret in E as (? & _ & E).
  destruct (write_service fails cfg fresh path w d0) as [[w1 d1] ok1] eqn:Ew. apply write_service_spec in Ew as [P1 H1].
  assert (Hpart : forall w2, put_some fresh path w w2 -> (forall q, q <> path -> rw_services w2 !! q = rw_services w !! q) /\
    rw_supervise w2 = rw_supervise w /\ (rw_services w !! path = None -> rw_services w2 !! path = None) /\ rw_commands w2 = rw_commands w).
  { intros w2 [->|[d ->]]; [done|]. destruct fresh; simpl; [done|]. split_and!; try done.
    - intros q Hq. by rewrite lookup_insert_ne.
    - intros Hn. by apply Hfresh in Hn. }
  destruct ok1; simpl in E; [|simplify_eq; destruct (Hpart _ P1) as (? & ? & ? & ?); split_and!; auto; done].
  destruct (H1 eq_refl) as [-> ->]. clear H1.
  apply outcome_bind_Ret in E as (? & _ & E).
  destruct (fresh && fails FS_mv); [simplify_eq; destruct (Hpart _ P1) as (? & ? & ? & ?); split_and!; auto; done|].
  set (w2 := if fresh then _ else _) in E.
  assert (w2 = set_services w (<[path := complete cfg d0]> (rw_services w))) as Hw2 by (subst w2; by destruct fresh). rewrite Hw2 in E. clear w2 Hw2 P1.
  assert (Hnone : rw_services w !! path = None -> d0 = no_service) by (subst d0; by intros ->).
  assert (Hplace : forall cs, let w3 := mk_runit (<[path := complete cfg d0]> (rw_services w)) (rw_supervise w) cs in
    (forall q, q <> path -> rw_services w3 !! q = rw_services w !! q) /\ rw_supervise w3 = rw_supervise w /\
    (rw_services w !! path = None -> rw_services w3 !! path = None \/ rw_services w3 !! path = Some (complete cfg no_service)) /\
    rw_services w3 !! path = Some (complete cfg d0)).
  { intros cs w3. subst w3. simpl. split_and!; [intros; by rewrite lookup_insert_ne|done| |by rewrite lookup_insert_eq].
    intros Hn. right. rewrite lookup_insert_eq. by rewrite (Hnone Hn). }
  destruct (negb ready && fails FS_usleep); [simplify_eq; destruct (Hplace (rw_commands w)) as (? & ? & ? & ?); split_and!; auto; done|].
  destruct (fails FS_control_open); [simplify_eq; destruct (Hplace (rw_commands w)) as (? & ? & ? & ?); split_and!; auto; done|].
  apply outcome_bind_Ret in E as (? & _ & E).
  destruct (Hplace (rw_commands w ++ told)) as (? & ? & ? & ?).
  destruct (fails FS_sv); [by simplify_eq; split_and!; auto|]. destruct (fails FS_control_close); by simplify_eq; split_and!; auto.
Qed.

(** ** Totality *)

Lemma snprintf_assert_ok size s : (Z.of_nat (String.length s) < size)%Z -> snprintf_assert size s = Ret s.
Proof. intros Hs. unfold snprintf_assert. by destruct (_ <? _)%Z eqn:E; bool_hyps; [|lia]. Qed.

Lemma start_runit_service_total ready fails cfg w : String.length (service_path cfg) <= 900 ->
  exists w' r, start_runit_service ready fails cfg w = Ret (w', r).
Proof.
  intros Hl. unfold start_runit_service.
  repeat (rewrite (snprintf_assert_ok PATH_MAX) by (unfold PATH_MAX; rewrite ?string_length_app; simpl String.length; lia); simpl).
  destruct (match rw_services w !! service_path cfg with Some d => _ | None => _ end) as [fresh d].
  destruct (fresh && fails FS_mkdtemp); [by eauto|].
  destruct (write_service _ _ _ _ _ _) as [[w1 d1] ok1]. destruct ok1; simpl; [|by eauto].
  assert (exists x, (if fresh then snprintf_assert 1024 ("/bin/mv /tmp/tmp.runit.XXXXXX " +:+ service_path cfg) else Ret EmptyString) = Ret x) as [x ->].
  { destruct fresh; [|by eauto]. rewrite snprintf_assert_ok by (rewrite string_length_app; simpl String.length; lia). by eauto. }
  simpl. destruct (fresh && fails FS_mv); [by eauto|]. destruct (negb ready && _); [by eauto|]. destruct (fails FS_control_open); [by eauto|].
  rewrite snprintf_assert_ok by (rewrite string_length_app; destruct (restart cfg); simpl String.length; lia). simpl.
  destruct (fails FS_sv); [by eauto|]. destruct (fails FS_control_close); by eauto.
Qed.

(** Status files that the 64 bytes read hold, as runit writes them. *)
Definition supervise_ok (w : runit_world) : Prop :=
  forall path s content, rw_supervise w !! path = Some s -> sup_stat s = Some content -> String.length content < 64.

Lemma string_take_length n s : String.length (string_take n s) <= String.length s.
Proof. revert n. induction s as [|c s IH]; intros [|n]; simpl; [lia..|]. specialize (IH n). lia. Qed.

Lemma stat_runit_service_total fails cfg w : String.length (service_path cfg) <= 900 -> supervise_ok w ->
  exists s, stat_runit_service fails cfg w = Ret s.
Proof.
  intros Hl Hsup. unfold stat_runit_service.
  do 2 rewrite (snprintf_assert_ok PATH_MAX), bind_Ret by (unfold PATH_MAX; rewrite ?string_length_app; simpl String.length; lia).
  destruct (rw_supervise w !! service_path cfg ≫= sup_stat) as [content|] eqn:Es; [|by eexists].
  apply bind_Some in Es as (s & Es & Ec). destruct (fails FS_stat_open); [by eexists|].
  pose proof (Hsup _ _ _ Es Ec). pose proof (string_take_length 64 content). set (stat_buf := string_take 64 content) in *.
  destruct (String.length stat_buf =? 64) eqn:E64; bool_hyps; [lia|]. clearbody stat_buf. cbv zeta.
  destruct (bool_decide _); [by eexists|]. destruct (bool_decide _ || _); [by eexists|]. cbv zeta.
  set (rest := if is_prefix _ _ then _ else _). assert (exists s, rest = Ret s) as [s' Hrest].
  { subst rest. destruct (is_prefix _ _); by eexists. }
  rewrite Hrest. destruct (bool_decide _); [|by eexists]. destruct (rw_supervise w !! _ ≫= sup_pid) as [pid|]; [|by eexists].
  destruct (fails FS_pid_open || _); [by eexists|]. destruct (bool_decide _); by eexists.
Qed.

(** Stopping tells the supervisor, when it reports the service as running, and nothing else. *)
Lemma stop_runit_service_spec fails cfg w : String.length (service_path cfg) <= 900 -> supervise_ok w ->
  exists w' r, stop_runit_service fails cfg w = Ret (w', r) /\ rw_services w' = rw_services w /\ rw_supervise w' = rw_supervise w /\
    rw_commands w' = rw_commands w ++
      match stat_runit_service fails cfg w with
      | Ret RUNIT_RUNNING => if fails FS_control_open then [] else [(service_path cfg, C_down)]
      | _ => []
      end.
Proof.
  intros Hl Hsup. unfold stop_runit_service. destruct (stat_runit_service_total fails cfg w Hl Hsup) as [s ->]. simpl.
  destruct s; try (rewrite app_nil_r; by eexists _, _; split_and!).
  do 2 rewrite (snprintf_assert_ok PATH_MAX), bind_Ret by (unfold PATH_MAX; rewrite ?string_length_app; simpl String.length; lia).
  destruct (fails FS_control_open); [rewrite app_nil_r; by eexists _, _; split_and!|].
  destruct (fails FS_control_close); by eexists _, _; split_and!.
Qed.
