(* ===== verification/Ports.v ===== *)
(** * The ports daemon ([ports_daemon/ports_daemon/src/] [ports.c], [protocols.c], [can.c])

    Every port of the device has a mode (disabled, or one of the protocols that are installed)
    and runs, when it is enabled, an [endpoint_adapter] as a service of runit.  The daemon
    reacts to changes of the settings of the ports: it stops the service and starts it with
    the new command line.

    Protocols are shared libraries: what loading one gives is an input. *)

From S2P Require Import Prelude Libc Runit.

(** ** Protocols *)

Record protocol_t := mk_protocol {
  p_name : string;
  p_setting_name : string;
  p_adapter_opts : string -> string;            (* what port_adapter_opts_get prints for a port *)
}.

(** Importing the regular files of the directory, in its order; [None] for a library that
    cannot be loaded or lacks a symbol. *)
Definition protocols_import (protocol_list : list protocol_t) (dir : option (list (option protocol_t))) : list protocol_t * Z :=
  match dir with
  | None => (protocol_list, -1)%Z
  | Some files => (protocol_list ++ omap id files, 0%Z)
  end.

Definition protocols_count_get (l : list protocol_t) : nat := length l.
Definition protocols_get (l : list protocol_t) (index : Z) : option protocol_t :=
  if (index <? 0)%Z then None else l !! Z.to_nat index.

(** ** Ports *)

Inductive port_type_t := PORT_TYPE_UART | PORT_TYPE_USB | PORT_TYPE_TCP_SERVER | PORT_TYPE_TCP_CLIENT
  | PORT_TYPE_UDP_SERVER | PORT_TYPE_UDP_CLIENT | PORT_TYPE_CAN.
#[export] Instance port_type_eq_dec : EqDecision port_type_t.
Proof. solve_decision. Defined.

Inductive restart_type_t := DO_NOT_RESTART | RESTART.

Inductive opts_data_t :=
  | no_data
  | port_data (port : Z)                        (* tcp_server_data, udp_server_data *)
  | address_data (address : string)             (* tcp_client_data, udp_client_data *)
  | can_data (number : Z).

Record port_config_t := mk_port {
  pc_name : string;
  pc_opts : string;
  pc_opts_data : opts_data_t;
  pc_type : port_type_t;
  pc_mode_name_default : string;
  pc_mode : Z;
  pc_restart : restart_type_t;
  pc_first_start : bool;
}.

Definition MODE_NAME_SBP : string := "SBP".
Definition MODE_NAME_DISABLED : string := "Disabled".
Definition MODE_DISABLED : Z := 0.
Definition FIXED_SBP_USB_PORT_NAME : string := "usb2".
Definition RUNIT_SERVICE_DIR : string := "/var/run/ports_daemon/sv".

Definition port_configs : list port_config_t :=
  let tty (name dev outq : string) (t : port_type_t) :=
    mk_port name ("--name " +:+ name +:+ " --file " +:+ dev +:+ " --nonblock --outq " +:+ outq) no_data t
      MODE_NAME_SBP MODE_DISABLED RESTART true in
  let net (name : string) (data : opts_data_t) (t : port_type_t) (mode : string) :=
    mk_port name EmptyString data t mode MODE_DISABLED DO_NOT_RESTART true in
  [tty "uart0" "/dev/ttyPS0" "4096" PORT_TYPE_UART;
   tty "uart1" "/dev/ttyPS1" "4096" PORT_TYPE_UART;
   tty "usb0" "/dev/tty.usb0" "8192" PORT_TYPE_USB;
   tty FIXED_SBP_USB_PORT_NAME "/dev/tty.usb2" "8192" PORT_TYPE_USB;
   net "tcp_server0" (port_data 55555) PORT_TYPE_TCP_SERVER MODE_NAME_SBP;
   net "tcp_server1" (port_data 55556) PORT_TYPE_TCP_SERVER MODE_NAME_SBP;
   net "tcp_client0" (address_data "") PORT_TYPE_TCP_CLIENT MODE_NAME_DISABLED;
   net "tcp_client1" (address_data "") PORT_TYPE_TCP_CLIENT MODE_NAME_DISABLED;
   net "udp_server0" (port_data 55557) PORT_TYPE_UDP_SERVER MODE_NAME_SBP;
   net "udp_server1" (port_data 55558) PORT_TYPE_UDP_SERVER MODE_NAME_SBP;
   net "udp_client0" (address_data "") PORT_TYPE_UDP_CLIENT MODE_NAME_DISABLED;
   net "udp_client1" (address_data "") PORT_TYPE_UDP_CLIENT MODE_NAME_DISABLED;
   net "can0" (can_data 0) PORT_TYPE_CAN MODE_NAME_DISABLED;
   net "can1" (can_data 1) PORT_TYPE_CAN MODE_NAME_DISABLED].

(** [can.c]: the identifiers of the two CAN buses. *)
Record can_t := mk_can { can_name : string; can_id : Z; can_filter : Z }.
Definition cans : list can_t := [mk_can "can0" 0 0; mk_can "can1" 1 0].
Definition can_get_id (cs : list can_t) (can_number : Z) : outcome Z := c ← load cs (Z.to_nat can_number); Ret (can_id c).
Definition can_get_filter (cs : list can_t) (can_number : Z) : outcome Z := c ← load cs (Z.to_nat can_number); Ret (can_filter c).

Definition mode_to_protocol_index (mode : Z) : Z := mode - 1.
Definition protocol_index_to_mode (protocol_index : Z) : Z := u8 (protocol_index + 1).

(** The daemon: the ports, the buffer of [get_fileio_opts], which is static, the CAN buses, the
    services, and the commands run with [system], each with the number of orders that the supervisor
    had been given before. *)
Record daemon := mk_daemon {
  d_ports : list port_config_t;
  d_fileio_opts : string;
  d_cans : list can_t;
  d_runit : runit_world;
  d_system : list (nat * string);
}.
Definition ports_start (w : runit_world) : daemon := mk_daemon port_configs EmptyString cans w [].

Inductive settings_write_res := SETTINGS_WR_OK | SETTINGS_WR_VALUE_REJECTED | SETTINGS_WR_SERVICE_FAILED.

Section ports.
Variable protocols : list protocol_t.

Fixpoint mode_search (mode_name : string) (i : Z) (l : list protocol_t) : option Z :=
  match l with
  | [] => None
  | p :: l' => if strcaseeq (p_setting_name p) mode_name then Some (protocol_index_to_mode i) else mode_search mode_name (i + 1) l'
  end.
Definition mode_lookup (mode_name : string) : option Z :=
  if strcaseeq mode_name MODE_NAME_DISABLED then Some MODE_DISABLED else mode_search mode_name 0 protocols.

(** The names of the modes, the index of each being the mode; [None] ends the array.  A mode is
    a [u8], so with 255 protocols or more the stores wrap around into the first ones. *)
Definition mode_enum_names_get : list (option string) :=
  let count := Z.of_nat (protocols_count_get protocols) in
  let names := replicate (Z.to_nat (1 + protocol_index_to_mode count)) None in
  let names := <[Z.to_nat MODE_DISABLED := Some MODE_NAME_DISABLED]> names in
  let names := foldl (fun names '(i, p) => <[Z.to_nat (protocol_index_to_mode (Z.of_nat i)) := Some (p_setting_name p)]> names) names (imap pair protocols) in
  <[Z.to_nat (protocol_index_to_mode count) := None]> names.

Definition fileio_text (name : string) : string :=
  " --pub2 ipc:///var/run/sockets/fileio/" +:+ name +:+ ".sub " +:+ "--sub2 ipc:///var/run/sockets/fileio/" +:+ name +:+ ".pub ".

(** [get_fileio_opts]: the buffer is filled for a port in mode SBP, and returned as it is. *)
Definition get_fileio_opts (fileio_opts : string) (p : port_config_t) : outcome string :=
  match mode_lookup MODE_NAME_SBP with
  | None => Undef                               (* assert(rc == 0) *)
  | Some mode_sbp => if (pc_mode p =? mode_sbp)%Z then snprintf_assert 256 (fileio_text (pc_name p)) else Ret fileio_opts
  end.

(** [port_config->opts_get]: what is printed into [opts] (512 bytes), and the static buffer. *)
Definition opts_get (fileio_opts : string) (cs : list can_t) (p : port_config_t) : outcome (string * string) :=
  let with_fileio (s : string) := f ← get_fileio_opts fileio_opts p; Ret (string_take 511 (s +:+ f), f) in
  match pc_type p, pc_opts_data p with
  | (PORT_TYPE_UART | PORT_TYPE_USB), _ => with_fileio EmptyString
  | PORT_TYPE_TCP_SERVER, port_data port => with_fileio ("--name " +:+ pc_name p +:+ " --tcp-l " +:+ print_u port)
  | PORT_TYPE_TCP_CLIENT, address_data a => with_fileio ("--name " +:+ pc_name p +:+ " --tcp-c " +:+ a)
  | PORT_TYPE_UDP_SERVER, port_data port => Ret (string_take 511 ("--name " +:+ pc_name p +:+ " --udp-l " +:+ print_u port), fileio_opts)
  | PORT_TYPE_UDP_CLIENT, address_data a => Ret (string_take 511 ("--name " +:+ pc_name p +:+ " --udp-c " +:+ a), fileio_opts)
  | PORT_TYPE_CAN, can_data n =>
      id ← can_get_id cs n;
      filter ← can_get_filter cs n;
      Ret (string_take 511 ("--name can" +:+ print_u n +:+ " --can " +:+ print_u id +:+ " --can-f " +:+ print_u filter), fileio_opts)
  | _, _ => Undef                               (* the union holds other data *)
  end.

Variable ready : bool.
Variable fails : fs_call -> bool.

Definition set_port (d : daemon) (i : nat) (p : port_config_t) : daemon :=
  mk_daemon (<[i := p]> (d_ports d)) (d_fileio_opts d) (d_cans d) (d_runit d) (d_system d).
Definition started (p : port_config_t) : port_config_t :=
  mk_port (pc_name p) (pc_opts p) (pc_opts_data p) (pc_type p) (pc_mode_name_default p) (pc_mode p) (pc_restart p) false.

Definition service_cfg (p : port_config_t) (cmd : string) : runit_config_t :=
  mk_cfg RUNIT_SERVICE_DIR (pc_name p) cmd None None (match pc_restart p with RESTART => true | DO_NOT_RESTART => false end).

(** The command that is to kill adapters of USB ports that are left over. *)
Definition kill_usb_adapters : string :=
  "kill -9 `ps | grep GS0  | grep endpoint_adapter | awk -F' ' '{print $1}'`".

Definition kill_usb (t : port_type_t) (d : daemon) : daemon :=
  match t with
  | PORT_TYPE_USB => mk_daemon (d_ports d) (d_fileio_opts d) (d_cans d) (d_runit d)
                       (d_system d ++ [(length (rw_commands (d_runit d)), kill_usb_adapters)])
  | _ => d
  end.

(** [port_configure] of port [i]. *)
Definition port_configure (d : daemon) (i : nat) (updating_mode : bool) : outcome (daemon * settings_write_res) :=
  p ← load (d_ports d) i;
  if negb updating_mode && pc_first_start p then Ret (d, SETTINGS_WR_OK)
  else
    d ← (if pc_first_start p then Ret (set_port d i (started p))
         else r ← stop_runit_service fails (service_cfg p EmptyString) (d_runit d);
              Ret (mk_daemon (d_ports d) (d_fileio_opts d) (d_cans d) (fst r) (d_system d)));
    let d := kill_usb (pc_type p) d in
    if (pc_mode p =? MODE_DISABLED)%Z then Ret (d, SETTINGS_WR_OK)
    else
      match protocols_get protocols (mode_to_protocol_index (pc_mode p)) with
      | None => Ret (d, SETTINGS_WR_VALUE_REJECTED)
      | Some protocol =>
          let mode_opts := string_take 511 (p_adapter_opts protocol (pc_name p)) in
          o ← opts_get (d_fileio_opts d) (d_cans d) p;
          let '(opts, fileio_opts) := o in
          let cmd := string_take 1023 ("endpoint_adapter " +:+ pc_opts p +:+ " " +:+ opts +:+ " " +:+ mode_opts) in
          r ← start_runit_service ready fails (service_cfg p cmd) (d_runit d);
          let '(w, rc) := r in
          Ret (mk_daemon (d_ports d) fileio_opts (d_cans d) w (d_system d),
               if (rc =? 0)%Z then SETTINGS_WR_OK else SETTINGS_WR_SERVICE_FAILED)
      end.

(** Changes of the settings of a port: libsettings stores the new value and calls the notify
    function. *)
Inductive change := Set_mode (mode : Z) | Set_data (data : opts_data_t).
Definition apply_change (p : port_config_t) (c : change) : port_config_t :=
  match c with
  | Set_mode m => mk_port (pc_name p) (pc_opts p) (pc_opts_data p) (pc_type p) (pc_mode_name_default p) m (pc_restart p) (pc_first_start p)
  | Set_data o => mk_port (pc_name p) (pc_opts p) o (pc_type p) (pc_mode_name_default p) (pc_mode p) (pc_restart p) (pc_first_start p)
  end.
(** [setting_mode_notify] and the notify functions of ports and addresses *)
Definition setting_notify (d : daemon) (i : nat) (c : change) : outcome (daemon * settings_write_res) :=
  p ← load (d_ports d) i;
  port_configure (set_port d i (apply_change p c)) i (match c with Set_mode _ => true | Set_data _ => false end).

(** The settings that [ports_init] registers for a port. *)
Definition port_settings (can_enabled : bool) (p : port_config_t) : list string :=
  match pc_type p with
  | PORT_TYPE_TCP_SERVER | PORT_TYPE_UDP_SERVER => ["port"; "mode"]
  | PORT_TYPE_TCP_CLIENT | PORT_TYPE_UDP_CLIENT => ["address"; "mode"]
  | PORT_TYPE_CAN => if can_enabled then ["mode"] else []
  | _ => ["mode"]
  end.

Definition set_mode (p : port_config_t) (m : Z) : port_config_t := apply_change p (Set_mode m).

Fixpoint register_ports (can_enabled : bool) (indices : list nat) (d : daemon) : outcome (daemon * list (string * string)) :=
  match indices with
  | [] => Ret (d, [])
  | i :: rest =>
      p ← load (d_ports d) i;
      if String.eqb (pc_name p) FIXED_SBP_USB_PORT_NAME then
        r ← port_configure d i true;
        register_ports can_enabled rest (fst r)
      else
        r ← register_ports can_enabled rest d;
        Ret (fst r, map (pair (pc_name p)) (port_settings can_enabled p) ++ snd r)
  end.

(** [ports_init]: the default modes, then the settings, in order. *)
Definition ports_init (d : daemon) (can_enabled : bool) : outcome (daemon * list (string * string)) :=
  let mode_default := default MODE_DISABLED (mode_lookup MODE_NAME_SBP) in
  let ports := map (fun p => set_mode p (default mode_default (mode_lookup (pc_mode_name_default p)))) (d_ports d) in
  register_ports can_enabled (seq 0 (length ports)) (mk_daemon ports (d_fileio_opts d) (d_cans d) (d_runit d) (d_system d)).

(** [port_is_enabled] compares three characters. *)
Definition port_is_enabled (d : daemon) (name : string) : outcome bool :=
  if (String.length name <=? 3)%nat then Undef
  else Ret (existsb (fun p => String.eqb (string_take 3 name) (string_take 3 (pc_name p)) && negb (pc_mode p =? MODE_DISABLED)%Z) (d_ports d)).

(** [can_notify]: the result of changing a setting of a CAN bus. *)
Definition can_notify (can_settings_initialized : bool) (d : daemon) (c : can_t) : outcome Z :=
  if can_settings_initialized then e ← port_is_enabled d (can_name c); Ret (if (e : bool) then 1%Z else 0%Z) else Ret 0%Z.
End ports.

(** ** The command line of a port *)

Section spec.
Variable protocols : list protocol_t.
Variable ready : bool.

(** Changes of settings over time, each with the system calls that fail in it. *)
Definition port_event : Type := nat * change * (fs_call -> bool).
Fixpoint ports_run (d : daemon) (es : list port_event) : outcome daemon :=
  match es with
  | [] => Ret d
  | (i, c, fails) :: es' => r ← setting_notify protocols ready fails d i c; ports_run (fst r) es'
  end.

(** The ports whose command line asks for the file service. *)
Definition uses_fileio (p : port_config_t) : bool :=
  match pc_type p with
  | PORT_TYPE_UART | PORT_TYPE_USB | PORT_TYPE_TCP_SERVER | PORT_TYPE_TCP_CLIENT => true
  | _ => false
  end.

(** The data of a port fits its type. *)
Definition port_ok (p : port_config_t) : Prop :=
  match pc_type p, pc_opts_data p with
  | (PORT_TYPE_UART | PORT_TYPE_USB), _ => True
  | (PORT_TYPE_TCP_SERVER | PORT_TYPE_UDP_SERVER), port_data _ => True
  | (PORT_TYPE_TCP_CLIENT | PORT_TYPE_UDP_CLIENT), address_data _ => True
  | PORT_TYPE_CAN, can_data n => (0 <= n < 2)%Z
  | _, _ => False
  end /\ (String.length (pc_name p) <= 32)%nat.
Definition change_ok (p : port_config_t) (c : change) : Prop :=
  match c with Set_mode m => (0 <= m < 256)%Z | Set_data o => port_ok (apply_change p c) end.

(** The file service options in the command line of [p], when the buffer holds [f]. *)
Definition fileio_of (f : string) (p : port_config_t) : string :=
  if bool_decide (mode_lookup protocols MODE_NAME_SBP = Some (pc_mode p)) then fileio_text (pc_name p) else f.

(** What precedes them. *)
Definition own_opts (cs : list can_t) (p : port_config_t) : string :=
  match pc_type p, pc_opts_data p with
  | PORT_TYPE_TCP_SERVER, port_data port => "--name " +:+ pc_name p +:+ " --tcp-l " +:+ print_u port
  | PORT_TYPE_TCP_CLIENT, address_data a => "--name " +:+ pc_name p +:+ " --tcp-c " +:+ a
  | PORT_TYPE_UDP_SERVER, port_data port => "--name " +:+ pc_name p +:+ " --udp-l " +:+ print_u port
  | PORT_TYPE_UDP_CLIENT, address_data a => "--name " +:+ pc_name p +:+ " --udp-c " +:+ a
  | PORT_TYPE_CAN, can_data n =>
      let c := default (mk_can EmptyString 0 0) (cs !! Z.to_nat n) in
      "--name can" +:+ print_u n +:+ " --can " +:+ print_u (can_id c) +:+ " --can-f " +:+ print_u (can_filter c)
  | _, _ => EmptyString
  end.

Definition adapter_command (f : string) (cs : list can_t) (p : port_config_t) (protocol : protocol_t) : string :=
  string_take 1023 ("endpoint_adapter " +:+ pc_opts p +:+ " " +:+
    string_take 511 (own_opts cs p +:+ (if uses_fileio p then fileio_of f p else EmptyString)) +:+ " " +:+
    string_take 511 (p_adapter_opts protocol (pc_name p))).

Hypothesis Hsbp : is_Some (mode_lookup protocols MODE_NAME_SBP).

Lemma opts_get_spec f cs p : port_ok p -> (2 <= length cs)%nat ->
  opts_get protocols f cs p =
    Ret (string_take 511 (own_opts cs p +:+ (if uses_fileio p then fileio_of f p else EmptyString)),
         if uses_fileio p then fileio_of f p else f).
Proof.
  intros [Hp Hn] Hcs. destruct Hsbp as [m Hm].
  assert (Hf : get_fileio_opts protocols f p = Ret (fileio_of f p)).
  { unfold get_fileio_opts, fileio_of. rewrite Hm. destruct (pc_mode p =? m)%Z eqn:E; bool_hyps.
    - subst m. rewrite bool_decide_eq_true_2 by done. unfold snprintf_assert, fileio_text. rewrite !string_length_app. simpl String.length.
      destruct (_ <? 256)%Z eqn:El; bool_hyps; [done|lia].
    - rewrite bool_decide_eq_false_2 by congruence. done. }
  unfold opts_get, own_opts, uses_fileio in *. rewrite Hf. simpl.
  destruct (pc_type p), (pc_opts_data p) as [|port|a|n]; try done; rewrite ?string_app_nil_r; try done.
  unfold can_get_id, can_get_filter, load.
  destruct (cs !! Z.to_nat n) as [c|] eqn:Ec; [done|]. apply lookup_ge_None_1 in Ec. lia.
Qed.

Record ports_inv (d : daemon) : Prop := {
  pi_ports : Forall (fun p => port_ok p /\ (0 <= pc_mode p < 256)%Z) (d_ports d);
  pi_cans : (2 <= length (d_cans d))%nat;
  pi_supervise : supervise_ok (d_runit d);
}.

Definition port_path (p : port_config_t) : string := RUNIT_SERVICE_DIR +:+ "/" +:+ pc_name p.

Lemma service_cfg_path p cmd : service_path (service_cfg p cmd) = port_path p.
Proof. done. Qed.

Lemma port_path_length p : (String.length (pc_name p) <= 32)%nat -> (String.length (port_path p) <= 900)%nat.
Proof. intros Hn. unfold port_path. rewrite !string_length_app. simpl String.length. lia. Qed.

(** The protocol that a port runs. *)
Definition port_protocol (p : port_config_t) : option protocol_t :=
  if (pc_mode p =? MODE_DISABLED)%Z then None else protocols_get protocols (mode_to_protocol_index (pc_mode p)).

(** A change of a port that has not been started, other than of its mode, waits for the mode. *)
Definition waits (p : port_config_t) (c : change) : bool :=
  match c with Set_mode _ => false | Set_data _ => pc_first_start p end.

(** What the supervisor is told before a new start. *)
Definition stop_commands (fails : fs_call -> bool) (w : runit_world) (p : port_config_t) : list (string * command) :=
  if pc_first_start p then []
  else match stat_runit_service fails (service_cfg p EmptyString) w with
       | Ret RUNIT_RUNNING => if fails FS_control_open then [] else [(port_path p, C_down)]
       | _ => []
       end.

(** What is run with [system] after that. *)
Definition usb_commands (fails : fs_call -> bool) (w : runit_world) (p : port_config_t) : list (nat * string) :=
  match pc_type p with
  | PORT_TYPE_USB => [(length (rw_commands w ++ stop_commands fails w p), kill_usb_adapters)]
  | _ => []
  end.

Lemma apply_change_fields p c : pc_name (apply_change p c) = pc_name p /\ pc_first_start (apply_change p c) = pc_first_start p /\
  pc_type (apply_change p c) = pc_type p /\ pc_restart (apply_change p c) = pc_restart p.
Proof. by destruct c. Qed.

Lemma apply_change_ok p c : port_ok p -> (0 <= pc_mode p < 256)%Z -> change_ok p c ->
  port_ok (apply_change p c) /\ (0 <= pc_mode (apply_change p c) < 256)%Z.
Proof. intros Hp Hm Hc. by destruct c. Qed.

Lemma started_id p : pc_first_start p = false -> started p = p.
Proof. destruct p. simpl. by intros ->. Qed.

(** The first part of [port_configure]: the service is stopped, or the port has its first start. *)
Lemma configure_stop fails d i p : ports_inv d -> d_ports d !! i = Some p ->
  exists w, (if pc_first_start p then Ret (set_port d i (started p))
     else r ← stop_runit_service fails (service_cfg p EmptyString) (d_runit d);
          Ret (mk_daemon (d_ports d) (d_fileio_opts d) (d_cans d) (fst r) (d_system d))) =
    Ret (mk_daemon (<[i := started p]> (d_ports d)) (d_fileio_opts d) (d_cans d) w (d_system d)) /\
    rw_services w = rw_services (d_runit d) /\ supervise_ok w /\
    rw_commands w = rw_commands (d_runit d) ++ stop_commands fails (d_runit d) p.
Proof.
  intros [Hports _ Hsup] Hp. unfold stop_commands. destruct (pc_first_start p) eqn:Ef.
  - exists (d_runit d). rewrite app_nil_r. by split_and!.
  - assert (Hlen : (String.length (pc_name p) <= 32)%nat) by (eapply Forall_lookup_1 in Hports as [[_ ?] _]; done).
    destruct (stop_runit_service_spec fails (service_cfg p EmptyString) (d_runit d)) as (w & r & -> & Hs & Hv & Hc);
      [by apply port_path_length|done|]. exists w. rewrite bind_Ret. cbn [fst]. split_and!.
    + by rewrite started_id, list_insert_id.
    + done.
    + unfold supervise_ok. by rewrite Hv.
    + by rewrite Hc.
Qed.

(** What a change of a port's settings does. *)
Lemma setting_notify_effect fails d i p c : ports_inv d -> d_ports d !! i = Some p -> change_ok p c ->
  let p' := apply_change p c in
  exists d' r, setting_notify protocols ready fails d i c = Ret (d', r) /\ ports_inv d' /\ d_cans d' = d_cans d /\
    d_ports d' = <[i := if waits p c then p' else started p']> (d_ports d) /\
    (waits p c = true -> d_runit d' = d_runit d /\ d_fileio_opts d' = d_fileio_opts d /\ r = SETTINGS_WR_OK) /\
    d_system d' = d_system d ++ (if waits p c then [] else usb_commands fails (d_runit d) p') /\
    (waits p c = false ->
     match port_protocol p' with
     | None =>
         r = (if (pc_mode p' =? MODE_DISABLED)%Z then SETTINGS_WR_OK else SETTINGS_WR_VALUE_REJECTED) /\
         d_fileio_opts d' = d_fileio_opts d /\ rw_services (d_runit d') = rw_services (d_runit d) /\
         rw_commands (d_runit d') = rw_commands (d_runit d) ++ stop_commands fails (d_runit d) p'
     | Some protocol =>
         d_fileio_opts d' = (if uses_fileio p' then fileio_of (d_fileio_opts d) p' else d_fileio_opts d) /\
         (r = SETTINGS_WR_OK \/ r = SETTINGS_WR_SERVICE_FAILED) /\
         (r = SETTINGS_WR_OK ->
          (sv_run <$> rw_services (d_runit d') !! port_path p') = Some (Some (script (adapter_command (d_fileio_opts d) (d_cans d) p' protocol))) /\
          rw_commands (d_runit d') = rw_commands (d_runit d) ++ stop_commands fails (d_runit d) p' ++
            [(port_path p', match pc_restart p with RESTART => C_up | DO_NOT_RESTART => C_once end)])
     end).
Proof.
  intros Hinv Hp Hc p'. pose proof Hinv as [Hports Hcans Hsup].
  destruct (Forall_lookup_1 _ _ _ _ Hports Hp) as [Hok Hmode].
  destruct (apply_change_ok p c Hok Hmode Hc) as [Hok' Hmode']. fold p' in Hok', Hmode'.
  destruct (apply_change_fields p c) as (Hname & Hfirst & Htype & Hrestart). fold p' in Hname, Hfirst, Htype, Hrestart.
  pose proof (lookup_lt_Some _ _ _ Hp) as Hi.
  unfold setting_notify. rewrite (proj2 (load_Ret _ _ _) Hp), bind_Ret. fold p'.
  assert (Hinv1 : forall q f w ks, port_ok q -> (0 <= pc_mode q < 256)%Z -> supervise_ok w ->
    ports_inv (mk_daemon (<[i := q]> (d_ports d)) f (d_cans d) w ks)).
  { intros q f w ks Hq Hm Hw. constructor; simpl; try done. by apply Forall_insert. }
  unfold port_configure, set_port. cbn [d_ports d_fileio_opts d_cans d_runit d_system].
  rewrite (proj2 (load_Ret _ i p')), bind_Ret by by apply list_lookup_insert_eq.
  replace (negb _ && pc_first_start p') with (waits p c) by (rewrite Hfirst; by destruct c).
  destruct (waits p c).
  { eexists _, _. split; [done|]. split_and!; try done; [by apply Hinv1|by rewrite app_nil_r]. }
  destruct (configure_stop fails (set_port d i p') i p') as (w & Hstop & Hws & Hwsup & Hwc);
    [by apply Hinv1|by apply list_lookup_insert_eq|].
  unfold set_port in Hstop, Hws, Hwc. cbn [d_ports d_fileio_opts d_cans d_runit d_system] in Hstop, Hws, Hwc.
  rewrite Hstop, bind_Ret, list_insert_insert_eq. unfold port_protocol.
  assert (kill_usb (pc_type p') (mk_daemon (<[i := started p']> (d_ports d)) (d_fileio_opts d) (d_cans d) w (d_system d)) =
    mk_daemon (<[i := started p']> (d_ports d)) (d_fileio_opts d) (d_cans d) w
      (d_system d ++ usb_commands fails (d_runit d) p')) as ->.
  { unfold kill_usb, usb_commands. cbn [d_runit d_ports d_fileio_opts d_cans d_system]. rewrite <-Hwc.
    destruct (pc_type p'); by rewrite ?app_nil_r. }
  cbn [d_ports d_fileio_opts d_cans d_runit d_system].
  destruct (pc_mode p' =? MODE_DISABLED)%Z eqn:Em.
  { eexists _, _. split; [done|]. split_and!; try done. by apply Hinv1. }
  destruct (protocols_get protocols _) as [protocol|].
  2:{ eexists _, _. split; [done|]. split_and!; try done. by apply Hinv1. }
  rewrite opts_get_spec, bind_Ret by done. set (cmd := string_take 1023 _).
  destruct (start_runit_service_total ready fails (service_cfg p' cmd) w) as (w' & rc & Hstart).
  { apply port_path_length. by destruct Hok'. }
  rewrite Hstart, bind_Ret. apply start_runit_service_spec in Hstart as (_ & Hsv & _ & _ & Hdone).
  eexists _, _. split; [done|]. split_and!; try done.
  - apply Hinv1; try done. unfold supervise_ok. by rewrite Hsv.
  - intros _. split_and!; [done|destruct (rc =? 0)%Z; auto|]. destruct (rc =? 0)%Z eqn:Er; [|done]. bool_hyps. subst rc. intros _.
    destruct (Hdone eq_refl) as [Hd1 Hd2]. rewrite service_cfg_path in Hd1, Hd2. cbn [d_runit]. rewrite Hd1, Hd2, Hwc. split; [done|].
    rewrite <- app_assoc. cbn [restart service_cfg]. rewrite Hrestart. by destruct (pc_restart p).
Qed.

(** The ports and the file service options after changes of settings. *)
Definition settings_step (st : list port_config_t * string) (e : port_event) : list port_config_t * string :=
  let '(ports, f) := st in
  let '(i, c, _) := e in
  match ports !! i with
  | None => st
  | Some p =>
      let p' := apply_change p c in
      (<[i := if waits p c then p' else started p']> ports,
       match port_protocol p' with
       | Some _ => if negb (waits p c) && uses_fileio p' then fileio_of f p' else f
       | None => f
       end)
  end.

(** Changes of ports that exist, to values of their settings. *)
Definition event_ok (ports : list port_config_t) (e : port_event) : Prop :=
  exists p, ports !! e.1.1 = Some p /\ change_ok p e.1.2.

Lemma event_ok_step st e e' : event_ok st.1 e -> event_ok (settings_step st e').1 e.
Proof.
  destruct st as [ports f], e' as [[j c'] fl], e as [[i c] fl0]. intros (p & Hp & Hc). unfold event_ok, settings_step in *. simpl in *.
  destruct (ports !! j) as [q|] eqn:Eq; [|by exists p]. simpl. destruct (decide (i = j)) as [->|Hij].
  - rewrite list_lookup_insert_eq by by eapply lookup_lt_Some. eexists. split; [done|]. assert (q = p) as -> by congruence.
    destruct c as [m|o]; [done|]. simpl in *. by destruct (waits p c'), c'.
  - rewrite list_lookup_insert_ne by done. by exists p.
Qed.

Lemma notify_settings_step fails d i c p d' r : ports_inv d -> d_ports d !! i = Some p -> change_ok p c ->
  setting_notify protocols ready fails d i c = Ret (d', r) ->
  ports_inv d' /\ (d_ports d', d_fileio_opts d') = settings_step (d_ports d, d_fileio_opts d) (i, c, fails).
Proof.
  intros Hinv Hp Hc E. destruct (setting_notify_effect fails d i p c Hinv Hp Hc) as (d1 & r1 & E1 & Hinv1 & _ & Hports & Hw & _ & Hn).
  rewrite E in E1. simplify_eq. split; [done|]. unfold settings_step. rewrite Hp, Hports. f_equal.
  destruct (waits p c); simpl.
  - destruct (Hw eq_refl) as (_ & -> & _). by destruct (port_protocol _).
  - specialize (Hn eq_refl). destruct (port_protocol _); [by destruct Hn as (-> & _)|]. by destruct Hn as (_ & -> & _).
Qed.


(** The file service of another port.  The buffer of the file service options is static and is
    only filled for a port in mode SBP.  When a port is started in mode SBP and then another
    one of a kind that asks for the options in another mode, the command line of the second
    has the endpoints of the first. *)
Theorem port_borrows_fileio fails fails' d i j p q m protocol protocol' d1 d2 :
  ports_inv d -> d_ports d !! i = Some p -> d_ports d !! j = Some q -> i <> j ->
  uses_fileio p = true -> uses_fileio q = true -> mode_lookup protocols MODE_NAME_SBP = Some m -> (0 < m < 256)%Z ->
  forall m', (0 < m' < 256)%Z -> m' <> m ->
  protocols_get protocols (m - 1) = Some protocol -> protocols_get protocols (m' - 1) = Some protocol' ->
  setting_notify protocols ready fails d i (Set_mode m) = Ret (d1, SETTINGS_WR_OK) ->
  setting_notify protocols ready fails' d1 j (Set_mode m') = Ret (d2, SETTINGS_WR_OK) ->
  (sv_run <$> rw_services (d_runit d2) !! port_path q) = Some (Some (script (string_take 1023
    ("endpoint_adapter " +:+ pc_opts q +:+ " " +:+ string_take 511 (own_opts (d_cans d) q +:+ fileio_text (pc_name p)) +:+ " " +:+
     string_take 511 (p_adapter_opts protocol' (pc_name q)))))).
Proof.
  intros Hinv Hp Hq Hij Hup Huq Hm Hmr m' Hmr' Hne Hpr Hpr' E1 E2.
  destruct (setting_notify_effect fails d i p (Set_mode m) Hinv Hp ltac:(simpl; lia)) as (d1' & r1 & E1' & Hinv1 & Hcans1 & Hports1 & _ & _ & Hn1).
  rewrite E1 in E1'. simplify_eq. specialize (Hn1 eq_refl). unfold port_protocol in Hn1.
  change (pc_mode (apply_change p (Set_mode m))) with m in Hn1.
  destruct (m =? MODE_DISABLED)%Z eqn:Em; [unfold MODE_DISABLED in *; bool_hyps; lia|].
  unfold mode_to_protocol_index in Hn1. rewrite Hpr in Hn1. destruct Hn1 as (Hf & _).
  assert (d_fileio_opts d1' = fileio_text (pc_name p)) as Hf1.
  { rewrite Hf. change (uses_fileio (apply_change p (Set_mode m))) with (uses_fileio p). rewrite Hup. unfold fileio_of.
    by rewrite bool_decide_eq_true_2. }
  assert (d_ports d1' !! j = Some q) as Hq1 by by rewrite Hports1, list_lookup_insert_ne.
  destruct (setting_notify_effect fails' d1' j q (Set_mode m') Hinv1 Hq1 ltac:(simpl; lia)) as (d2' & r2 & E2' & _ & _ & _ & _ & _ & Hn2).
  rewrite E2 in E2'. simplify_eq. specialize (Hn2 eq_refl). unfold port_protocol in Hn2.
  change (pc_mode (apply_change q (Set_mode m'))) with m' in Hn2.
  destruct (m' =? MODE_DISABLED)%Z eqn:Em'; [unfold MODE_DISABLED in *; bool_hyps; lia|].
  unfold mode_to_protocol_index in Hn2. rewrite Hpr' in Hn2. destruct Hn2 as (_ & _ & Hn2). destruct (Hn2 eq_refl) as [Hrun _].
  change (port_path (apply_change q (Set_mode m'))) with (port_path q) in Hrun. rewrite Hrun. unfold adapter_command.
  change (uses_fileio (apply_change q (Set_mode m'))) with (uses_fileio q). rewrite Huq. unfold fileio_of.
  rewrite bool_decide_eq_false_2 by (cbn [pc_mode apply_change]; congruence). by rewrite Hf1, Hcans1.
Qed.
End spec.

(** ** Witnesses *)

Definition example_protocols : list protocol_t :=
  [mk_protocol "SBP" "SBP" (fun name => "-s ipc:///var/run/sockets/" +:+ name +:+ ".sub -f sbp");
   mk_protocol "NMEA" "NMEA OUT" (fun name => "-f nmea")].
Definition works : fs_call -> bool := fun _ => false.
Definition example_daemon : daemon := ports_start (mk_runit ∅ ∅ []).

Lemma example_inv : ports_inv example_daemon.
Proof.
  constructor; simpl.
  - repeat (apply Forall_cons; split; [split; [split; simpl; try done; lia|simpl; unfold MODE_DISABLED; lia]|]). constructor.
  - lia.
  - intros path s content. simpl. by rewrite lookup_empty.
Qed.


Lemma port_borrows_fileio_witness : exists d1 d2,
  setting_notify example_protocols true works example_daemon 0 (Set_mode 1) = Ret (d1, SETTINGS_WR_OK) /\
  setting_notify example_protocols true works d1 1 (Set_mode 2) = Ret (d2, SETTINGS_WR_OK) /\
  (sv_run <$> rw_services (d_runit d2) !! "/var/run/ports_daemon/sv/uart1") = Some (Some (script
    "endpoint_adapter --name uart1 --file /dev/ttyPS1 --nonblock --outq 4096  --pub2 ipc:///var/run/sockets/fileio/uart0.sub --sub2 ipc:///var/run/sockets/fileio/uart0.pub  -f nmea")).
Proof.
  destruct (setting_notify example_protocols true works example_daemon 0 (Set_mode 1)) as [[d1 r1]| |] eqn:E1; [|by vm_compute in E1..].
  assert (r1 = SETTINGS_WR_OK) as -> by (by vm_compute in E1; injection E1).
  destruct (setting_notify example_protocols true works d1 1 (Set_mode 2)) as [[d2 r2]| |] eqn:E2;
    [|vm_compute in E1; injection E1 as <-; by vm_compute in E2..].
  assert (r2 = SETTINGS_WR_OK) as -> by (vm_compute in E1; injection E1 as <-; by vm_compute in E2; injection E2).
  exists d1, d2. split_and!; [done..|].
  eapply (port_borrows_fileio example_protocols true ltac:(by eexists) works works example_daemon 0 1 _ _ 1 _ _ d1 d2 example_inv
    eq_refl eq_refl ltac:(done) eq_refl eq_refl eq_refl ltac:(lia) 2 ltac:(lia) ltac:(lia) eq_refl eq_refl E1 E2).
Defined.

(** The command looks for GS0 in the list of processes, but the adapters are started on
    /dev/tty.usb0 and /dev/tty.usb2. *)
Example usb_adapters_not_found :
  existsb (fun p => match pc_type p with PORT_TYPE_USB => true | _ => false end &&
    bool_decide (is_Some (String.index 0 "GS0" (pc_opts p)))) port_configs = false.
Proof. reflexivity. Qed.

(** A setting of one CAN bus cannot be changed while the other one is enabled, because the names
    are compared up to three characters. *)
Example can_name_prefix :
  can_notify true (set_port example_daemon 13 (set_mode (default (mk_port "" "" no_data PORT_TYPE_CAN "" 0 RESTART true) (port_configs !! 13)) 1))
    (mk_can "can0" 0 0) = Ret 1%Z.
Proof. reflexivity. Qed.
