(* ===== verification/Adapter.v ===== *)
(** * The endpoint adapter ([src/package/endpoint_adapter/src/endpoint_adapter.c])

    An adapter moves data between a file descriptor and a pub/sub endpoint.  What is read is
    pushed through the framer and the filter of the destination handle, and every frame that
    passes is written to the handle, an endpoint or a descriptor.

    The system calls are inputs of the model: [write_res k] is the outcome of the k-th
    [write], [send_ok k] of the k-th [pk_endpoint_send], [qlen k] the k-th answer of the
    TIOCOUTQ ioctl.  The state [io] holds their counters, what has reached the descriptor and
    the endpoints, and the metrics.  Loops take fuel; the theorems give amounts that are
    enough. *)

From S2P Require Import Prelude Libc Metrics Framer.

Local Open Scope Z_scope.

(** ** Metrics table *)

Module MI.
Definition mismatch : nat := 0.
Definition bytes_dropped : nat := 1.
Definition rx_frames : nat := 2.
Definition tx_frames : nat := 3.
Definition rx_read_count : nat := 4.
Definition rx_read_size_total : nat := 5.
Definition rx_read_size_average : nat := 6.
Definition tx_read_count : nat := 7.
Definition tx_read_size_total : nat := 8.
Definition tx_read_size_average : nat := 9.
Definition rx_write_count : nat := 10.
Definition rx_write_size_total : nat := 11.
Definition rx_write_size_average : nat := 12.
Definition tx_write_count : nat := 13.
Definition tx_write_size_total : nat := 14.
Definition tx_write_size_average : nat := 15.
Definition alt_read_count : nat := 16.
Definition alt_read_size_total : nat := 17.
Definition alt_read_size_average : nat := 18.
Definition alt_write_count : nat := 19.
Definition alt_write_size_total : nat := 20.
Definition alt_write_size_average : nat := 21.
End MI.

Definition count_entry (folder name : string) : table_entry :=
  mk_entry folder name METRICS_TYPE_U32 pk_metrics_updater_count pk_metrics_reset_default None.
Definition sum_entry (folder name : string) : table_entry :=
  mk_entry folder name METRICS_TYPE_U32 pk_metrics_updater_sum pk_metrics_reset_default None.
Definition average_entry (folder : string) (num dom : nat) : table_entry :=
  mk_entry folder "average" METRICS_TYPE_U32 pk_metrics_updater_average pk_metrics_reset_default
    (Some (mk_average (Some num) (Some dom))).

Definition metrics_table : list table_entry :=
  [ count_entry "error/mismatch" "total";
    count_entry "error/send/bytes_dropped" "per_second";
    sum_entry "rx/frame/count" "per_second";
    sum_entry "tx/frame/count" "per_second";
    count_entry "rx/read/count" "per_second";
    sum_entry "rx/read/size/per_second" "total";
    average_entry "rx/read/size/per_second" MI.rx_read_size_total MI.rx_read_count;
    count_entry "tx/read/count" "per_second";
    sum_entry "tx/read/size/per_second" "total";
    average_entry "tx/read/size/per_second" MI.tx_read_size_total MI.tx_read_count;
    count_entry "rx/write/count" "per_second";
    sum_entry "rx/write/size/per_second" "total";
    average_entry "rx/write/size/per_second" MI.rx_write_size_total MI.rx_write_count;
    count_entry "tx/write/count" "per_second";
    sum_entry "tx/write/size/per_second" "total";
    average_entry "tx/write/size/per_second" MI.tx_write_size_total MI.tx_write_count;
    count_entry "alt/read/count" "per_second";
    sum_entry "alt/read/size/per_second" "total";
    average_entry "alt/read/size/per_second" MI.alt_read_size_total MI.alt_read_count;
    count_entry "alt/write/count" "per_second";
    sum_entry "alt/write/size/per_second" "total";
    average_entry "alt/write/size/per_second" MI.alt_write_size_total MI.alt_write_count ].

(** ** State *)

Definition READ_BUFFER_SIZE : nat := 4 * 1024.
Definition MAX_SEND_SLEEP_MS : Z := 1000.
Definition SEND_SLEEP_NS : Z := 100.
Definition MS_TO_NS (ms : Z) : Z := ms * 1000000.

(** What a [write] of some bytes does: part of them written, interrupted, the queue full, or
    another error. *)
Inductive write_result := W_count (n : nat) | W_EINTR | W_EAGAIN | W_error.

Record io := mk_io {
  writes : nat;                   (* [write] calls so far *)
  sends : nat;                    (* [pk_endpoint_send] calls so far *)
  ioctls : nat;                   (* TIOCOUTQ calls so far *)
  fd_out : list Z;                (* bytes accepted by the descriptor *)
  ept_out : list (list Z);        (* messages accepted by the endpoint *)
  alt_out : list (list Z);        (* messages accepted by the alternate endpoint *)
  sleeps : nat;                   (* [nanosleep] calls *)
  eagain_warned : bool;
  metrics : option pk_metrics;
}.

Section adapter.
Context {S F : Type}.
Variable framer_process : framer_fn S.
Variable filter_process : F -> list Z -> outcome (F * Z).
Variable f64 : f64_ops.
Variable junk : pk_metrics_value.      (* read by updates without a value *)
Variable write_res : nat -> write_result.
Variable send_ok : nat -> bool.
Variable qlen : nat -> Z.
Variable outq_check : option Z.        (* [outq] when the descriptor is a tty and [outq > 0] *)
Variable has_alt_pub : bool.

(** [handle_t]: whether [pk_ept] is set, whether it is the alternate SUB endpoint, the framer
    and the filter. *)
Record handle_t := mk_handle { h_ept : bool; h_alt_sub : bool; h_framer : S; h_filter : F }.

Definition set_framer (h : handle_t) (s : S) : handle_t := mk_handle (h_ept h) (h_alt_sub h) s (h_filter h).
Definition set_filter (h : handle_t) (f : F) : handle_t := mk_handle (h_ept h) (h_alt_sub h) (h_framer h) f.

Definition upd (st : io) (i : nat) (v : pk_metrics_value) : outcome io :=
  r ← _pk_metrics_update f64 (metrics st) i v;
  Ret (mk_io (writes st) (sends st) (ioctls st) (fd_out st) (ept_out st) (alt_out st) (sleeps st)
         (eagain_warned st) (fst r)).

Definition UPDATE_IO_LOOP_METRIC (h : handle_t) (rx tx : nat) (v : pk_metrics_value) (st : io) : outcome io :=
  if negb (h_ept h) then upd st rx v else upd st tx v.

(** ** Writing *)

Definition did_write (st : io) (bytes : list Z) : io :=
  mk_io (Datatypes.S (writes st)) (sends st) (ioctls st) (fd_out st ++ bytes) (ept_out st) (alt_out st)
    (sleeps st) (eagain_warned st) (metrics st).
Definition did_sleep (st : io) : io :=
  mk_io (writes st) (sends st) (ioctls st) (fd_out st) (ept_out st) (alt_out st)
    (Datatypes.S (sleeps st)) (eagain_warned st) (metrics st).
Definition did_warn (st : io) : io :=
  mk_io (writes st) (sends st) (ioctls st) (fd_out st) (ept_out st) (alt_out st) (sleeps st) true (metrics st).
Definition did_send (st : io) (msg : option (list Z)) : io :=
  mk_io (writes st) (Datatypes.S (sends st)) (ioctls st) (fd_out st)
    (ept_out st ++ match msg with Some m => [m] | None => [] end) (alt_out st) (sleeps st)
    (eagain_warned st) (metrics st).
Definition did_alt_send (st : io) (msg : option (list Z)) : io :=
  mk_io (writes st) (Datatypes.S (sends st)) (ioctls st) (fd_out st) (ept_out st)
    (alt_out st ++ match msg with Some m => [m] | None => [] end) (sleeps st)
    (eagain_warned st) (metrics st).
Definition did_ioctl (st : io) : io :=
  mk_io (writes st) (sends st) (Datatypes.S (ioctls st)) (fd_out st) (ept_out st) (alt_out st) (sleeps st)
    (eagain_warned st) (metrics st).

(** The retry loop of [fd_write_with_timeout]. *)
Fixpoint fd_write_loop (fuel : nat) (buffer : list Z) (max_send_sleep_count sleep_count : Z) (st : io) :
    outcome (io * Z) :=
  match fuel with
  | O => Diverge
  | Datatypes.S fuel' =>
      match write_res (writes st) with
      | W_EINTR => fd_write_loop fuel' buffer max_send_sleep_count sleep_count (did_write st [])
      | W_EAGAIN =>
          let st := did_write st [] in
          let sleep_count := u32 (sleep_count + 1) in
          if max_send_sleep_count <=? sleep_count then
            fd_write_loop fuel' buffer max_send_sleep_count sleep_count (did_sleep st)
          else
            let st := if negb (eagain_warned st) then did_warn st else st in
            st ← upd st MI.bytes_dropped (pk_metrics_u32 (Z.of_nat (length buffer)));
            fd_write_loop fuel' buffer max_send_sleep_count 0 st
      | W_count n =>
          let n := Nat.min n (length buffer) in
          Ret (did_write st (take n buffer), Z.of_nat n)
      | W_error => Ret (did_write st [], -1)
      end
  end.

Definition fd_write_with_timeout (fuel : nat) (buffer : list Z) (max_send_sleep_ms per_retry_sleep_ns : Z)
    (st : io) : outcome (io * Z) :=
  if per_retry_sleep_ns =? 0 then Undef
  else fd_write_loop fuel buffer (u32 (MS_TO_NS max_send_sleep_ms) / per_retry_sleep_ns) 0 st.

(** The queue has room, or it is flushed and the new data is dropped. *)
Definition ensure_outq_space (count outq : Z) (st : io) : io * bool :=
  if u32 outq <? u32 (qlen (ioctls st) + count) then (did_ioctl (did_ioctl st), false)
  else (did_ioctl st, true).

Definition fd_write (fuel : nat) (buffer : list Z) (st : io) : outcome (io * Z) :=
  match outq_check with
  | Some outq =>
      let '(st, space) := ensure_outq_space (Z.of_nat (length buffer)) outq st in
      if negb space then Ret (st, Z.of_nat (length buffer))
      else fd_write_with_timeout fuel buffer MAX_SEND_SLEEP_MS SEND_SLEEP_NS st
  | None => fd_write_with_timeout fuel buffer MAX_SEND_SLEEP_MS SEND_SLEEP_NS st
  end.

Definition handle_write (fuel : nat) (h : handle_t) (buffer : list Z) (st : io) : outcome (io * Z) :=
  let count := Z.of_nat (length buffer) in
  if h_ept h then
    st ← upd st MI.rx_write_count junk;
    st ← upd st MI.rx_write_size_total (pk_metrics_u32 count);
    if negb (send_ok (sends st)) then Ret (did_send st None, -1)
    else Ret (did_send st (Some buffer), count)
  else
    st ← upd st MI.tx_write_count junk;
    st ← upd st MI.tx_write_size_total (pk_metrics_u32 count);
    fd_write fuel buffer st.

Fixpoint handle_write_all_loop (fuel : nat) (wfuel : nat) (h : handle_t) (buffer : list Z)
    (buffer_index : nat) (st : io) : outcome (io * Z) :=
  if (length buffer <=? buffer_index)%nat then Ret (st, Z.of_nat buffer_index)
  else match fuel with
  | O => Diverge
  | Datatypes.S fuel' =>
      r ← handle_write wfuel h (drop buffer_index buffer) st;
      let '(st, write_count) := r in
      if write_count <? 0 then Ret (st, write_count)
      else handle_write_all_loop fuel' wfuel h buffer (buffer_index + Z.to_nat write_count) st
  end.

Definition handle_write_all (fuel : nat) (h : handle_t) (buffer : list Z) (st : io) : outcome (io * Z) :=
  handle_write_all_loop fuel fuel h buffer 0 st.

(** ** Through the framer *)

(** The result is the handle, the state, the number of frames written and the return value. *)
Fixpoint write_one_loop (fuel wfuel : nat) (h : handle_t) (buffer : list Z) (buffer_index : nat)
    (frames : nat) (st : io) : outcome (handle_t * io * nat * Z) :=
  match fuel with
  | O => Diverge
  | Datatypes.S fuel' =>
      r ← framer_process (h_framer h) (drop buffer_index buffer);
      let '(s, n, frame) := r in
      let h := set_framer h s in
      let buffer_index := (buffer_index + n)%nat in
      match frame with
      | None => Ret (h, st, frames, Z.of_nat buffer_index)
      | Some frame =>
          r ← filter_process (h_filter h) frame;
          let '(f, res) := r in
          let h := set_filter h f in
          if negb (res =? 0) then write_one_loop fuel' wfuel h buffer buffer_index frames st
          else
            r ← handle_write_all wfuel h frame st;
            let '(st, write_count) := r in
            if write_count <? 0 then Ret (h, st, frames, write_count)
            else Ret (h, st, Datatypes.S frames, Z.of_nat buffer_index)
      end
  end.

Definition handle_write_one_via_framer (fuel : nat) (h : handle_t) (buffer : list Z) (frames : nat)
    (st : io) : outcome (handle_t * io * nat * Z) :=
  write_one_loop fuel fuel h buffer 0 frames st.

Fixpoint write_all_loop (fuel wfuel : nat) (h : handle_t) (buffer : list Z) (buffer_index frame_count : nat)
    (st : io) : outcome (handle_t * io * nat * Z) :=
  match fuel with
  | O => Diverge
  | Datatypes.S fuel' =>
      r ← handle_write_one_via_framer wfuel h (drop buffer_index buffer) frame_count st;
      let '(h, st, frame_count, write_result) := r in
      if write_result <? 0 then Ret (h, st, frame_count, write_result)
      else
        let buffer_index := (buffer_index + Z.to_nat write_result)%nat in
        if (length buffer <=? buffer_index)%nat then Ret (h, st, frame_count, Z.of_nat (length buffer))
        else write_all_loop fuel' wfuel h buffer buffer_index frame_count st
  end.

Definition handle_write_all_via_framer (fuel : nat) (h : handle_t) (buffer : list Z) (st : io) :
    outcome (handle_t * io * Z) :=
  r ← write_all_loop fuel fuel h buffer 0 0 st;
  let '(h, st, frame_count, write_result) := r in
  st ← UPDATE_IO_LOOP_METRIC h MI.tx_frames MI.rx_frames (pk_metrics_u32 (Z.of_nat frame_count)) st;
  Ret (h, st, write_result).

Definition handle_alt_write (h : handle_t) (buffer : list Z) (st : io) : outcome io :=
  if h_ept h && has_alt_pub then
    st ← upd st MI.alt_write_count junk;
    st ← upd st MI.alt_write_size_total (pk_metrics_u32 (Z.of_nat (length buffer)));
    Ret (did_alt_send st (if send_ok (sends st) then Some buffer else None))
  else Ret st.

(** The read side only needs to know which kind of handle it is. *)
Definition process_read_buffer (fuel : nat) (read_handle write_handle : handle_t) (buffer : list Z) (st : io) :
    outcome (handle_t * io * Z) :=
  st ← (if h_ept read_handle && h_alt_sub read_handle then
          st ← upd st MI.alt_read_count junk;
          upd st MI.alt_read_size_total (pk_metrics_u32 (Z.of_nat (length buffer)))
        else UPDATE_IO_LOOP_METRIC read_handle MI.rx_read_count MI.tx_read_count junk st);
  r ← handle_write_all_via_framer fuel write_handle buffer st;
  let '(h, st, write_count) := r in
  if write_count <? 0 then Ret (h, st, -1)
  else
    st ← (if negb (write_count =? Z.of_nat (length buffer)) then upd st MI.mismatch junk else Ret st);
    st ← handle_alt_write h buffer st;
    Ret (h, st, Z.of_nat (length buffer)).

(** [sub_ept_read] for the messages of one [pk_endpoint_receive], which stops at the first one
    whose callback fails: the bytes in total and the status. *)
Fixpoint sub_ept_reads (fuel : nat) (read_handle write_handle : handle_t) (msgs : list (list Z))
    (total : Z) (st : io) : outcome (handle_t * io * Z * Z) :=
  match msgs with
  | [] => Ret (write_handle, st, total, 0)
  | m :: msgs' =>
      r ← process_read_buffer fuel read_handle write_handle m st;
      let '(h, st, rc) := r in
      if rc <? 0 then Ret (h, st, total, -1)
      else sub_ept_reads fuel read_handle h msgs' (u32 (total + Z.of_nat (length m))) st
  end.

(** What a wake-up finds: messages on the SUB endpoint (or a receive error), or the result of
    reading the descriptor, [None] for an error. *)
Inductive readable :=
  | Received (msgs : list (list Z)) (rc : Z)
  | Read (data : option (list Z)).

(** The boolean is whether the loop goes on. *)
Definition io_loop_pubsub (fuel : nat) (read_handle write_handle : handle_t) (input : readable) (st : io) :
    outcome (handle_t * io * bool) :=
  r ← match input with
      | Received msgs rc =>
          r ← sub_ept_reads fuel read_handle write_handle msgs 0 st;
          let '(h, st, total, status) := r in
          Ret (h, st, if negb (rc =? 0) then rc else if status =? 0 then s32 total else status)
      | Read None => Ret (write_handle, st, -1)
      | Read (Some data) =>
          if 0 <? Z.of_nat (length data)
          then process_read_buffer fuel read_handle write_handle data st
          else Ret (write_handle, st, 0)
      end;
  let '(h, st, rc) := r in
  if rc <=? 0 then Ret (h, st, false)
  else
    st ← UPDATE_IO_LOOP_METRIC read_handle MI.rx_read_size_total MI.tx_read_size_total
           (pk_metrics_u32 rc) st;
    Ret (h, st, true).

(** ** The timer *)

Definition upd_all (l : list nat) (st : io) : outcome io :=
  foldl (fun o i => st ← o; upd st i junk) (Ret st) l.

Definition reset_all (now : Z) (l : list nat) (m : option pk_metrics) : option pk_metrics :=
  foldl (fun m i => fst (pk_metrics_reset now m i)) m l.

Definition timer_handler (now : Z) (st : io) : outcome io :=
  st ← upd_all [MI.rx_read_size_average; MI.rx_write_size_average; MI.tx_read_size_average;
                MI.tx_write_size_average; MI.alt_read_size_average; MI.alt_write_size_average] st;
  m ← of_option (metrics st);
  let m := Some (pk_metrics_flush f64 m) in
  let m := reset_all now
    [MI.bytes_dropped; MI.rx_frames; MI.tx_frames;
     MI.rx_read_count; MI.rx_read_size_total; MI.rx_read_size_average;
     MI.rx_write_count; MI.rx_write_size_total; MI.rx_write_size_average;
     MI.tx_read_count; MI.tx_read_size_total; MI.tx_read_size_average;
     MI.tx_write_count; MI.tx_write_size_total; MI.tx_write_size_average;
     MI.alt_read_count; MI.alt_read_size_total; MI.alt_read_size_average;
     MI.alt_write_count; MI.alt_write_size_total; MI.alt_write_size_average] m in
  Ret (mk_io (writes st) (sends st) (ioctls st) (fd_out st) (ept_out st) (alt_out st) (sleeps st) false m).
End adapter.

(** ** Loop status *)

Definition LOOP_UNKNOWN : Z := -1.
Definition LOOP_READ : Z := 0x1.
Definition LOOP_DISCONNECTED : Z := 0x2.
Definition LOOP_ERROR : Z := 0x4.

(** Whether the event is handled, and whether the loop is stopped. *)
Definition handle_loop_status (status : Z) : bool * bool :=
  if negb (Z.land status LOOP_DISCONNECTED =? 0) || negb (Z.land status LOOP_ERROR =? 0) then (false, true)
  else if status =? LOOP_UNKNOWN then (false, false)
  else if Z.land status LOOP_READ =? 0 then (false, false)
  else (true, false).

(** ** Metrics never get in the way *)

Definition metrics_good (st : io) : Prop := exists m, metrics st = Some m /\ metrics_wf m.

(** Equal but for the metrics. *)
Definition same_io (st st' : io) : Prop :=
  writes st' = writes st /\ sends st' = sends st /\ ioctls st' = ioctls st /\ fd_out st' = fd_out st /\
  ept_out st' = ept_out st /\ alt_out st' = alt_out st /\ sleeps st' = sleeps st /\
  eagain_warned st' = eagain_warned st.

Definition word64 (v : pk_metrics_value) : Prop := 0 <= vdata v < 18446744073709551616.

Lemma u32_word64 x : word64 (pk_metrics_u32 x).
Proof. unfold word64; simpl. pose proof (u32_range x). lia. Qed.

Lemma upd_good f64 st i v :
  metrics_good st -> word64 v -> exists st', upd f64 st i v = Ret st' /\ metrics_good st' /\ same_io st st'.
Proof.
  intros (m & Hm & Hwf) Hv. destruct (pk_metrics_update_good f64 m i v Hwf Hv) as (m' & rc & H & Hwf' & _).
  unfold upd. rewrite Hm, H. eexists; split; [reflexivity|]. split; [by exists m'|by split_and!].
Qed.

(** ** The frames of a stream *)

Section frames.
Context {S : Type} (process : framer_fn S) {SF : StreamFramer process}.

Lemma next_shorter l f r : sf_next l = Some (f, r) -> (length r < length l)%nat.
Proof. intros [Hf ?]%sf_next_shrinks. destruct f; [done|]. cbn [length] in *. lia. Qed.

Fixpoint frames_fuel (n : nat) (l : list Z) : list (list Z) :=
  match n with
  | O => []
  | Datatypes.S n' => match sf_next l with Some (f, r) => f :: frames_fuel n' r | None => [] end
  end.

(** All complete frames of [l], in order. *)
Definition frames_of (l : list Z) : list (list Z) := frames_fuel (Datatypes.S (length l)) l.

Lemma frames_fuel_enough n m l :
  (length l < n)%nat -> (length l < m)%nat -> frames_fuel n l = frames_fuel m l.
Proof.
  revert m l; induction n as [|n IH]; intros [|m] l Hn Hm; try lia. cbn [frames_fuel].
  destruct (sf_next l) as [[f r]|] eqn:E; [|done]. apply next_shorter in E.
  f_equal. apply IH; lia.
Qed.

Lemma frames_of_next l :
  frames_of l = match sf_next l with Some (f, r) => f :: frames_of r | None => [] end.
Proof.
  unfold frames_of at 1. cbn [frames_fuel]. destruct (sf_next l) as [[f r]|] eqn:E; [|done].
  apply next_shorter in E. f_equal. apply frames_fuel_enough; lia.
Qed.

(** Scanning [l], whatever comes after it, gives [fs] and then what scanning [l'] gives. *)
Definition yields (l : list Z) (fs : list (list Z)) (l' : list Z) : Prop :=
  forall more, frames_of (l ++ more) = fs ++ frames_of (l' ++ more).

Lemma yields_trans l fs l' gs l'' : yields l fs l' -> yields l' gs l'' -> yields l (fs ++ gs) l''.
Proof. intros H1 H2 more. by rewrite H1, H2, app_assoc. Qed.

Lemma yields_app l fs l' k : yields l fs l' -> yields (l ++ k) fs (l' ++ k).
Proof. intros H more. rewrite <-!app_assoc. apply H. Qed.

Lemma yields_frame l f r :
  (forall more, sf_next (l ++ more) = Some (f, r ++ more)) -> yields l [f] r /\ (length f + length r <= length l)%nat /\ f <> [].
Proof.
  intros H. split; [|specialize (H []); rewrite !app_nil_r in H; by apply sf_next_shrinks in H as [? ?]].
  intros more. rewrite frames_of_next, H. done.
Qed.

Lemma yields_none l r : (forall more, sf_next (r ++ more) = sf_next (l ++ more)) -> yields l [] r.
Proof. intros H more. rewrite (frames_of_next (l ++ more)), (frames_of_next (r ++ more)), H. done. Qed.
End frames.
Arguments frames_of {S} process {SF} l.
Arguments yields {S} process {SF} l fs l'.

(** ** Delivering the frames *)

Section deliver.
Context {S F : Type} (framer_process : framer_fn S) {SF : StreamFramer framer_process}.
Context (filter_process : F -> list Z -> outcome (F * Z)).
Context (f64 : f64_ops) (junk : pk_metrics_value) (write_res : nat -> write_result).
Context (send_ok : nat -> bool) (qlen : nat -> Z) (outq_check : option Z) (has_alt_pub : bool).

Abbreviation handle := (handle_t (S := S) (F := F)).

Abbreviation hwa := (handle_write_all f64 junk write_res send_ok qlen outq_check).

(** The frames a filter lets through, and the filter afterwards. *)
Fixpoint filter_frames (f : F) (fs : list (list Z)) : outcome (F * list (list Z)) :=
  match fs with
  | [] => Ret (f, [])
  | x :: fs' =>
      r ← filter_process f x;
      let '(f, res) := r in
      r ← filter_frames f fs';
      let '(f, acc) := r in
      Ret (f, if res =? 0 then x :: acc else acc)
  end.

Lemma filter_frames_app f fs gs f1 a1 f2 a2 :
  filter_frames f fs = Ret (f1, a1) -> filter_frames f1 gs = Ret (f2, a2) ->
  filter_frames f (fs ++ gs) = Ret (f2, a1 ++ a2).
Proof.
  revert f f1 a1; induction fs as [|x fs IH]; intros f f1 a1 H1 H2; cbn [filter_frames app] in *.
  { by injection H1 as <- <-. }
  destruct (filter_process f x) as [[f' res]| |]; try done. cbn [mbind outcome_bind] in *.
  destruct (filter_frames f' fs) as [[f'' acc]| |] eqn:E; try done. cbn [mbind outcome_bind] in *.
  injection H1 as -> <-. rewrite (IH f' _ _ E H2). cbn [mbind outcome_bind]. by destruct (res =? 0).
Qed.

(** The handle writes a frame in full: [out] grows by [emit frame]; [good] is what the
    system calls need for that. *)
Context {X : Type} (good : io -> Prop) (out : io -> list X) (emit : list Z -> list X).
Context (is_ept : bool) (wfuel : nat).
Hypothesis filter_total : forall f m, exists f' res, filter_process f m = Ret (f', res).
Hypothesis write_frame : forall (h : handle) frame st,
  h_ept h = is_ept -> frame <> [] -> (length frame <= wfuel)%nat -> good st ->
  exists st', hwa wfuel h frame st = Ret (st', Z.of_nat (length frame)) /\ good st' /\ out st' = out st ++ emit frame.

(** What a step leaves: [fs] are the frames it took from the stream. *)
Record step_ok (h h' : handle) (st st' : io) (stream stream' : list Z) (fs acc : list (list Z)) : Prop := {
  ok_ept : h_ept h' = h_ept h;
  ok_inv : sf_inv (h_framer h');
  ok_filter : filter_frames (h_filter h) fs = Ret (h_filter h', acc);
  ok_good : good st';
  ok_out : out st' = out st ++ flat_map emit acc;
  ok_yields : yields framer_process stream fs stream';
}.

Lemma step_trans h h1 h2 st st1 st2 l l1 l2 fs1 fs2 a1 a2 :
  step_ok h h1 st st1 l l1 fs1 a1 -> step_ok h1 h2 st1 st2 l1 l2 fs2 a2 ->
  step_ok h h2 st st2 l l2 (fs1 ++ fs2) (a1 ++ a2).
Proof.
  intros [] []. split; try done; [congruence|by eapply filter_frames_app| |by eapply yields_trans].
  rewrite flat_map_app. rewrite app_assoc. congruence.
Qed.

Definition stream_of (h : handle) (buffer : list Z) (idx : nat) : list Z :=
  sf_pending (h_framer h) ++ drop idx buffer.

Lemma step_refl h st l l' :
  sf_inv (h_framer h) -> good st -> yields framer_process l [] l' -> step_ok h h st st l l' [] [].
Proof. intros. split; try done. by rewrite app_nil_r. Qed.

(** A frame taken and filtered, the state otherwise unchanged. *)
Lemma step_one h s f st st' l l' frame res :
  sf_inv s -> good st' -> filter_process (h_filter h) frame = Ret (f, res) ->
  yields framer_process l [frame] l' ->
  out st' = out st ++ flat_map emit (if res =? 0 then [frame] else []) ->
  step_ok h (set_filter (set_framer h s) f) st st' l l' [frame] (if res =? 0 then [frame] else []).
Proof.
  intros Hs Hg Hf Hy Ho. split; try done. cbn [filter_frames]. rewrite Hf. cbn. by destruct (res =? 0).
Qed.

Abbreviation wol := (write_one_loop framer_process filter_process f64 junk write_res send_ok qlen outq_check).

Lemma write_one_loop_ok fuel h buffer idx n st :
  h_ept h = is_ept -> sf_inv (h_framer h) -> bytes_ok buffer -> (idx <= length buffer)%nat -> good st ->
  (length (stream_of h buffer idx) < fuel)%nat -> (length (stream_of h buffer idx) <= wfuel)%nat ->
  exists h' st' idx' fs acc,
    wol fuel wfuel h buffer idx n st = Ret (h', st', (n + length acc)%nat, Z.of_nat idx') /\
    (idx <= idx' <= length buffer)%nat /\
    step_ok h h' st st' (stream_of h buffer idx) (stream_of h' buffer idx') fs acc /\
    (idx' = length buffer \/
     (length (stream_of h' buffer idx') < length (stream_of h buffer idx))%nat).
Proof.
  revert h idx st. induction fuel as [|fuel IH]; intros h idx st He Hinv Hb Hidx Hg Hfuel Hw; [lia|].
  cbn [write_one_loop].
  destruct (sf_process (h_framer h) (drop idx buffer) Hinv) as (s & k & frame & Hp & Hinv' & Hk & Hframe);
    [by apply bytes_ok_drop|]. rewrite Hp. cbn [mbind outcome_bind]. rewrite length_drop in Hk.
  destruct frame as [frame|].
  2: { destruct Hframe as (Hkl & _ & Hsame). rewrite length_drop in Hkl.
       exists (set_framer h s), st, (idx + k)%nat, [], []. cbn [length]. rewrite Nat.add_0_r.
       split_and!; [done|lia|lia| |left; lia]. unfold stream_of. cbn [set_framer h_framer].
       rewrite (drop_ge buffer (idx + k)), app_nil_r by lia. split; try done; [by rewrite app_nil_r|].
       apply yields_none. intros more. rewrite Hsame. by rewrite app_assoc. }
  assert (forall more, sf_next ((sf_pending (h_framer h) ++ drop idx buffer) ++ more) =
    Some (frame, (sf_pending s ++ drop (idx + k) buffer) ++ more)) as Hnext.
  { intros more. rewrite <-app_assoc, Hframe, drop_drop, <-app_assoc. done. }
  apply yields_frame in Hnext as (Hy & Hlen & Hne). fold (stream_of h buffer idx) in Hy, Hlen.
  destruct (filter_total (h_filter h) frame) as (f & res & Hf). cbn [set_framer h_filter]. rewrite Hf.
  cbn [mbind outcome_bind]. set (h1 := set_filter (set_framer h s) f).
  change (sf_pending s ++ drop (idx + k) buffer) with (stream_of h1 buffer (idx + k)) in Hy, Hlen.
  assert (length frame <> 0)%nat as Hne' by (by destruct frame).
  destruct (res =? 0) eqn:Hres; cbn [negb].
  - destruct (write_frame h1 frame st) as (st' & Hst' & Hg' & Hout); [done|done|lia|done|].
    fold h1. rewrite Hst'. cbn [mbind outcome_bind]. rewrite (proj2 (Z.ltb_ge _ _)) by lia.
    exists h1, st', (idx + k)%nat, [frame], [frame]. cbn [length]. rewrite Nat.add_1_r.
    split_and!; [done|lia|lia| |right; lia].
    pose proof (step_one h s f st st' _ _ frame res Hinv' Hg' Hf Hy) as Hstep. rewrite Hres in Hstep.
    apply Hstep. cbn. by rewrite app_nil_r.
  - destruct (IH h1 (idx + k)%nat st) as (h' & st' & idx' & fs & acc & Hrun & Hidx' & Hstep & Hprog);
      [done|done|done|lia|done|lia|lia|].
    fold h1. exists h', st', idx', (frame :: fs), acc. split; [exact Hrun|]. split; [lia|].
    pose proof (step_one h s f st st _ _ frame res Hinv' Hg Hf Hy) as Hone. rewrite Hres in Hone.
    split; [|destruct Hprog; [by left|right; lia]].
    eapply (step_trans _ _ _ _ _ _ _ _ _ [frame] fs [] acc); [|exact Hstep]. apply Hone. cbn. by rewrite app_nil_r.
Qed.

Abbreviation wal := (write_all_loop framer_process filter_process f64 junk write_res send_ok qlen outq_check).

Lemma stream_of_drop h buffer i j : stream_of h (drop i buffer) j = stream_of h buffer (i + j).
Proof. unfold stream_of. by rewrite drop_drop. Qed.

Lemma write_all_loop_ok fuel h buffer idx n st :
  h_ept h = is_ept -> sf_inv (h_framer h) -> bytes_ok buffer -> (idx <= length buffer)%nat -> good st ->
  (length (stream_of h buffer idx) < fuel)%nat -> (length (stream_of h buffer idx) < wfuel)%nat ->
  exists h' st' fs acc,
    wal fuel wfuel h buffer idx n st = Ret (h', st', (n + length acc)%nat, Z.of_nat (length buffer)) /\
    step_ok h h' st st' (stream_of h buffer idx) (sf_pending (h_framer h')) fs acc.
Proof.
  revert h idx n st. induction fuel as [|fuel IH]; intros h idx n st He Hinv Hb Hidx Hg Hfuel Hw; [lia|].
  cbn [write_all_loop]. unfold handle_write_one_via_framer.
  destruct (write_one_loop_ok wfuel h (drop idx buffer) 0 n st)
    as (h1 & st1 & idx1 & fs1 & acc1 & -> & Hidx1 & Hstep1 & Hprog);
    [done|done|by apply bytes_ok_drop|lia|done|rewrite stream_of_drop, Nat.add_0_r; lia..|].
  rewrite length_drop in Hidx1, Hprog. rewrite !stream_of_drop, !Nat.add_0_r in *.
  cbn [mbind outcome_bind]. rewrite (proj2 (Z.ltb_ge _ _)), Nat2Z.id by lia.
  destruct (length buffer <=? idx + idx1)%nat eqn:E; bool_hyps.
  - exists h1, st1, fs1, acc1. split; [done|]. unfold stream_of at 2 in Hstep1.
    rewrite drop_ge, app_nil_r in Hstep1 by lia. done.
  - pose proof Hstep1 as [He1 Hinv1 _ Hg1 _ _].
    destruct (IH h1 (idx + idx1)%nat (n + length acc1)%nat st1) as (h2 & st2 & fs2 & acc2 & -> & Hstep2);
      [congruence|done|done|lia|done|destruct Hprog; lia..|].
    exists h2, st2, (fs1 ++ fs2), (acc1 ++ acc2). rewrite length_app, Nat.add_assoc.
    split; [done|]. by eapply step_trans.
Qed.

Hypothesis good_metrics : forall st, good st -> metrics_good st.
Hypothesis good_same : forall st st', good st -> same_io st st' -> metrics_good st' -> good st' /\ out st' = out st.

Abbreviation via_framer :=
  (handle_write_all_via_framer framer_process filter_process f64 junk write_res send_ok qlen outq_check).

Lemma via_framer_ok h buffer st :
  h_ept h = is_ept -> sf_inv (h_framer h) -> bytes_ok buffer -> good st ->
  (sf_max + length buffer < wfuel)%nat ->
  exists h' st' fs acc, via_framer wfuel h buffer st = Ret (h', st', Z.of_nat (length buffer)) /\
    step_ok h h' st st' (sf_pending (h_framer h) ++ buffer) (sf_pending (h_framer h')) fs acc.
Proof.
  intros He Hinv Hb Hg Hw. pose proof (sf_pending_max _ Hinv) as Hmax.
  destruct (write_all_loop_ok wfuel h buffer 0 0 st) as (h' & st1 & fs & acc & Hrun & Hstep);
    [done|done|done|lia|done|unfold stream_of; rewrite drop_0, length_app; lia..|].
  unfold handle_write_all_via_framer. rewrite Hrun. cbn [mbind outcome_bind].
  pose proof Hstep as [He' Hinv' Hf' Hg' Ho' Hy'].
  destruct (upd_good f64 st1 (if negb (h_ept h') then MI.tx_frames else MI.rx_frames)
    (pk_metrics_u32 (Z.of_nat (length acc))) (good_metrics _ Hg') (u32_word64 _)) as (st' & Hu & Hm & Hsame).
  assert (UPDATE_IO_LOOP_METRIC f64 h' MI.tx_frames MI.rx_frames
    (pk_metrics_u32 (Z.of_nat (0 + length acc))) st1 = Ret st') as ->.
  { unfold UPDATE_IO_LOOP_METRIC. by destruct (negb (h_ept h')). }
  cbn [mbind outcome_bind]. exists h', st', fs, acc. split; [done|].
  destruct (good_same st1 st' Hg' Hsame Hm) as [Hg'' Ho''].
  unfold stream_of in Hy'. rewrite drop_0 in Hy'. split; try done. congruence.
Qed.

(** Successive reads. *)
Fixpoint write_chunks (h : handle) (chunks : list (list Z)) (st : io) : outcome (handle * io * Z) :=
  match chunks with
  | [] => Ret (h, st, 0)
  | c :: chunks' =>
      r ← via_framer wfuel h c st;
      let '(h, st, rc) := r in
      if rc <? 0 then Ret (h, st, rc)
      else
        r ← write_chunks h chunks' st;
        let '(h, st, rc') := r in
        Ret (h, st, if rc' <? 0 then rc' else rc + rc')
  end.

Lemma write_chunks_ok h chunks st :
  h_ept h = is_ept -> sf_inv (h_framer h) -> Forall bytes_ok chunks -> good st ->
  Forall (fun c => sf_max + length c < wfuel)%nat chunks ->
  exists h' st' fs acc, write_chunks h chunks st = Ret (h', st', Z.of_nat (length (concat chunks))) /\
    step_ok h h' st st' (sf_pending (h_framer h) ++ concat chunks) (sf_pending (h_framer h')) fs acc.
Proof.
  revert h st; induction chunks as [|c chunks IH]; intros h st He Hinv Hb Hg Hw.
  { exists h, st, [], []. split; [done|]. apply step_refl; [done..|]. intros more. by rewrite app_nil_r. }
  apply Forall_cons in Hb as [Hb Hbs]. apply Forall_cons in Hw as [Hw Hws]. cbn [write_chunks concat].
  destruct (via_framer_ok h c st He Hinv Hb Hg Hw) as (h1 & st1 & fs1 & acc1 & -> & Hstep1).
  cbn [mbind outcome_bind]. rewrite (proj2 (Z.ltb_ge _ _)) by lia. pose proof Hstep1 as [He1 Hinv1 _ Hg1 _ Hy1].
  destruct (IH h1 st1) as (h2 & st2 & fs2 & acc2 & -> & Hstep2); [congruence|done..|].
  cbn [mbind outcome_bind]. rewrite (proj2 (Z.ltb_ge _ _)) by lia.
  exists h2, st2, (fs1 ++ fs2), (acc1 ++ acc2). split; [rewrite length_app; do 2 f_equal; lia|].
  eapply step_trans; [|exact Hstep2]. destruct Hstep1. split; try done.
  rewrite app_assoc. by apply yields_app.
Qed.
End deliver.

(** ** Writing to an endpoint *)

Section endpoint.
Context {S F : Type} (f64 : f64_ops) (junk : pk_metrics_value) (write_res : nat -> write_result).
Context (send_ok : nat -> bool) (qlen : nat -> Z) (outq_check : option Z).
Hypothesis junk_word : word64 junk.

Lemma endpoint_write_frame (sends_succeed : forall k, send_ok k = true) fuel (h : handle_t (S := S) (F := F)) frame st :
  h_ept h = true -> frame <> [] -> (length frame <= fuel)%nat -> metrics_good st ->
  exists st', handle_write_all f64 junk write_res send_ok qlen outq_check fuel h frame st =
      Ret (st', Z.of_nat (length frame)) /\
    metrics_good st' /\ ept_out st' = ept_out st ++ [frame].
Proof.
  intros He Hne Hf Hm. destruct fuel as [|fuel]; [destruct frame; simpl in *; [done|lia]|].
  unfold handle_write_all. cbn [handle_write_all_loop]. destruct (length frame <=? 0)%nat eqn:E; bool_hyps.
  { destruct frame; simpl in *; [done|lia]. }
  rewrite drop_0. unfold handle_write. rewrite He.
  destruct (upd_good f64 st MI.rx_write_count junk Hm junk_word) as (st1 & -> & Hm1 & Hs1).
  cbn [mbind outcome_bind].
  destruct (upd_good f64 st1 MI.rx_write_size_total _ Hm1 (u32_word64 (Z.of_nat (length frame))))
    as (st2 & -> & Hm2 & Hs2). cbn [mbind outcome_bind]. rewrite sends_succeed. cbn [negb mbind outcome_bind].
  rewrite (proj2 (Z.ltb_ge _ _)), Nat2Z.id by lia. exists (did_send st2 (Some frame)).
  destruct fuel; cbn [handle_write_all_loop]; rewrite Nat.add_0_l, (proj2 (Nat.leb_le _ _)) by lia.
  all: split; [done|]; split; [exact Hm2|]; cbn [did_send ept_out];
    destruct Hs1 as (_ & _ & _ & _ & <- & _); destruct Hs2 as (_ & _ & _ & _ & <- & _); done.
Qed.

(** ** Writing to a descriptor *)

(** The descriptor takes something again and again: at least once in [B] calls, and never
    nothing or an error. *)
Definition writes_progress (B : nat) : Prop :=
  (forall k, exists j n, (j < B)%nat /\ write_res (k + j) = W_count n) /\
  forall k, match write_res k with W_count n => (0 < n)%nat | W_error => False | _ => True end.

Lemma fd_write_loop_ok B fuel buffer st :
  writes_progress B -> buffer <> [] -> metrics_good st -> 
  (exists j n, (j < fuel)%nat /\ write_res (writes st + j) = W_count n) ->
  exists st' n, fd_write_loop f64 write_res fuel buffer 10000000 0 st = Ret (st', Z.of_nat n) /\
    (0 < n <= length buffer)%nat /\ metrics_good st' /\ fd_out st' = fd_out st ++ take n buffer /\
    sleeps st' = sleeps st.
Proof.
  intros [_ Hpos] Hne. revert st. induction fuel as [|fuel IH]; intros st Hm (j & n & Hj & Hw); [lia|].
  cbn [fd_write_loop]. specialize (Hpos (writes st)).
  assert (Hnext : forall st1, writes st1 = Datatypes.S (writes st) -> (forall m, write_res (writes st) <> W_count m) ->
    exists j n, (j < fuel)%nat /\ write_res (writes st1 + j) = W_count n).
  { intros st1 Hst1 Hno. destruct j as [|j]; [rewrite Nat.add_0_r in Hw; by destruct (Hno n)|].
    exists j, n. split; [lia|]. rewrite Hst1. by replace (Datatypes.S (writes st) + j)%nat with (writes st + Datatypes.S j)%nat by lia. }
  destruct (write_res (writes st)) as [m| | |] eqn:E.
  - eexists _, _. split; [reflexivity|].
    assert (0 < Nat.min m (length buffer) <= length buffer)%nat as Hmin by (destruct buffer; simpl in *; [done|lia]).
    split; [exact Hmin|]. by split_and!.
  - destruct (IH (did_write st [])) as (st' & k & -> & Hk & Hm' & Ho & Hs); [done|by apply Hnext|].
    cbn [did_write fd_out] in Ho. rewrite app_nil_r in Ho. by exists st', k.
  - change (u32 (0 + 1)) with 1. cbn [Z.leb]. change (10000000 <=? 1) with false. cbn iota.
    set (st1 := if negb (eagain_warned (did_write st [])) then did_warn (did_write st []) else did_write st []).
    assert (writes st1 = Datatypes.S (writes st) /\ metrics_good st1 /\ fd_out st1 = fd_out st /\ sleeps st1 = sleeps st)
      as (Hw1 & Hm1 & Ho1 & Hs1).
    { unfold st1. destruct (negb _); cbn; rewrite app_nil_r; done. }
    destruct (upd_good f64 st1 MI.bytes_dropped _ Hm1 (u32_word64 (Z.of_nat (length buffer))))
      as (st2 & -> & Hm2 & (Hw2 & _ & _ & Ho2 & _ & _ & Hs2 & _)). cbn [mbind outcome_bind].
    destruct (IH st2) as (st' & k & -> & Hk & Hm' & Ho & Hs); [done|apply Hnext; [congruence|done]|].
    exists st', k. split_and!; [done|lia|lia|done|congruence|congruence].
  - done.
Qed.

(** No limit on the output queue, or one that leaves room for [n] more bytes whenever it is asked. *)
Definition queue_room (n : nat) : Prop :=
  match outq_check with
  | None => True
  | Some outq => forall k c, 0 <= c <= Z.of_nat n -> u32 (qlen k + c) <= u32 outq
  end.

Lemma fd_write_room n fuel buffer st :
  queue_room n -> (length buffer <= n)%nat ->
  exists st', fd_write f64 write_res qlen outq_check fuel buffer st =
      fd_write_loop f64 write_res fuel buffer 10000000 0 st' /\
    writes st' = writes st /\ fd_out st' = fd_out st /\ sleeps st' = sleeps st /\ metrics st' = metrics st.
Proof.
  intros Hr Hn. unfold fd_write, queue_room in *. destruct outq_check as [outq|]; [|by exists st].
  unfold ensure_outq_space. destruct (u32 outq <? _) eqn:E; bool_hyps; [|by exists (did_ioctl st)].
  specialize (Hr (ioctls st) (Z.of_nat (length buffer))). lia.
Qed.

Lemma handle_write_fd_ok n B fuel (h : handle_t (S := S) (F := F)) buffer st :
  queue_room n -> (length buffer <= n)%nat ->
  h_ept h = false -> writes_progress B -> (B <= fuel)%nat -> buffer <> [] -> metrics_good st ->
  exists st' n, handle_write f64 junk write_res send_ok qlen outq_check fuel h buffer st = Ret (st', Z.of_nat n) /\
    (0 < n <= length buffer)%nat /\ metrics_good st' /\ fd_out st' = fd_out st ++ take n buffer /\
    sleeps st' = sleeps st.
Proof.
  intros Hr Hl He Hp Hf Hne Hm. unfold handle_write. rewrite He.
  destruct (upd_good f64 st MI.tx_write_count junk Hm junk_word) as (st1 & -> & Hm1 & (_ & _ & _ & Ho1 & _ & _ & Hs1 & _)).
  cbn [mbind outcome_bind].
  destruct (upd_good f64 st1 MI.tx_write_size_total _ Hm1 (u32_word64 (Z.of_nat (length buffer))))
    as (st2 & -> & Hm2 & (_ & _ & _ & Ho2 & _ & _ & Hs2 & _)). cbn [mbind outcome_bind].
  destruct (fd_write_room n fuel buffer st2 Hr Hl) as (st3 & -> & Hw3 & Ho3 & Hs3 & Hm3).
  assert (metrics_good st3) as Hg3 by (destruct Hm2 as (m & ? & ?); exists m; split; [congruence|done]).
  destruct (fd_write_loop_ok B fuel buffer st3 Hp Hne Hg3) as (st' & k & -> & Hn & Hm' & Ho' & Hs').
  { destruct (proj1 Hp (writes st3)) as (j & k & Hj & Hw). exists j, k. split; [lia|done]. }
  exists st', k. split_and!; [done|lia|lia|done|congruence|congruence].
Qed.

Lemma descriptor_write_loop n B fuel wfuel (h : handle_t (S := S) (F := F)) frame idx st :
  queue_room n -> (length frame <= n)%nat -> h_ept h = false -> writes_progress B -> (B <= wfuel)%nat -> (idx <= length frame)%nat ->
  (length frame - idx <= fuel)%nat -> metrics_good st ->
  exists st', handle_write_all_loop f64 junk write_res send_ok qlen outq_check fuel wfuel h frame idx st =
      Ret (st', Z.of_nat (length frame)) /\
    metrics_good st' /\ fd_out st' = fd_out st ++ drop idx frame /\ sleeps st' = sleeps st.
Proof.
  intros Hr Hl He Hp HB. revert idx st. induction fuel as [|fuel IH]; intros idx st Hidx Hf Hm.
  { cbn [handle_write_all_loop]. rewrite (proj2 (Nat.leb_le _ _)) by lia. exists st.
    rewrite drop_ge, app_nil_r by lia. split_and!; try done. by replace idx with (length frame) by lia. }
  cbn [handle_write_all_loop]. destruct (length frame <=? idx)%nat eqn:E; bool_hyps.
  { exists st. rewrite drop_ge, app_nil_r by lia. split_and!; try done. by replace idx with (length frame) by lia. }
  destruct (handle_write_fd_ok n B wfuel h (drop idx frame) st) as (st1 & k & -> & Hn & Hm1 & Ho1 & Hs1); try done.
  { rewrite length_drop. lia. }
  { intros H. apply (f_equal length) in H. rewrite length_drop in H. simpl in H. lia. }
  rewrite length_drop in Hn. cbn [mbind outcome_bind]. rewrite (proj2 (Z.ltb_ge _ _)), Nat2Z.id by lia.
  destruct (IH (idx + k)%nat st1) as (st' & -> & Hm' & Ho' & Hs'); [lia|lia|done|].
  exists st'. split_and!; [done|done| |congruence]. rewrite Ho', Ho1, <-app_assoc. f_equal.
  by rewrite <-drop_drop, take_drop.
Qed.

Lemma descriptor_write_frame n B fuel (h : handle_t (S := S) (F := F)) frame st :
  queue_room n -> (length frame <= n)%nat -> h_ept h = false -> writes_progress B -> (B <= fuel)%nat -> (length frame <= fuel)%nat ->
  metrics_good st ->
  exists st', handle_write_all f64 junk write_res send_ok qlen outq_check fuel h frame st =
      Ret (st', Z.of_nat (length frame)) /\
    metrics_good st' /\ fd_out st' = fd_out st ++ frame /\ sleeps st' = sleeps st.
Proof.
  intros. destruct (descriptor_write_loop n B fuel fuel h frame 0 st) as (st' & H'); [done|done|done|done|done|lia|lia|done|].
  rewrite drop_0 in H'. by exists st'.
Qed.
End endpoint.

(** ** The adapter's guarantees *)

Lemma flat_map_single {A} (l : list A) : flat_map (fun x => [x]) l = l.
Proof. induction l as [|x l IH]; simpl; [done|by f_equal]. Qed.

Lemma flat_map_self {A} (l : list (list A)) : flat_map (fun x => x) l = concat l.
Proof. induction l as [|x l IH]; simpl; [done|by f_equal]. Qed.

Section guarantees.
Context {S F : Type} (framer_process : framer_fn S) {SF : StreamFramer framer_process}.
Context (filter_process : F -> list Z -> outcome (F * Z)).
Context (f64 : f64_ops) (junk : pk_metrics_value) (write_res : nat -> write_result).
Context (send_ok : nat -> bool) (qlen : nat -> Z).

(** C3: from a descriptor to an endpoint, when every send succeeds.  Whatever the input and
    however the reads cut it, the adapter returns for every chunk.  The frames of the whole stream
    are those it took, followed by those that are complete in what the framer keeps when the input
    ends, at most [sf_max] bytes: the source stops as soon as it has handed all input to the framer
    ([frame_held_back]), and later input brings them out.  Of the frames it took, exactly those that
    the filter passes have been published, in order and each in one piece.  The framer keeps the
    promises of [StreamFramer], the filter returns. *)
Theorem adapter_delivers_endpoint outq_check fuel (h : handle_t (S := S) (F := F)) chunks st :
  (forall f m, exists f' res, filter_process f m = Ret (f', res)) -> word64 junk ->
  (forall k, send_ok k = true) ->
  h_ept h = true -> sf_inv (h_framer h) -> Forall bytes_ok chunks -> metrics_good st ->
  Forall (fun c => sf_max + length c < fuel)%nat chunks ->
  exists h' st' fs acc,
    write_chunks framer_process filter_process f64 junk write_res send_ok qlen outq_check fuel h chunks st =
      Ret (h', st', Z.of_nat (length (concat chunks))) /\
    frames_of framer_process (sf_pending (h_framer h) ++ concat chunks) =
      fs ++ frames_of framer_process (sf_pending (h_framer h')) /\
    filter_frames filter_process (h_filter h) fs = Ret (h_filter h', acc) /\
    ept_out st' = ept_out st ++ acc /\
    sf_inv (h_framer h') /\ (length (sf_pending (h_framer h')) <= sf_max)%nat /\ metrics_good st'.
Proof.
  intros Hfilter Hjunk Hsend He Hinv Hb Hm Hf.
  destruct (write_chunks_ok framer_process filter_process f64 junk write_res send_ok qlen outq_check
    metrics_good ept_out (fun f => [f]) true fuel Hfilter) with (h := h) (chunks := chunks) (st := st)
    as (h' & st' & fs & acc & Hrun & [_ Hinv' Hff Hm' Ho Hy]); try done.
  - intros. by apply endpoint_write_frame.
  - intros s s' _ (_ & _ & _ & _ & ? & _) ?. done.
  - exists h', st', fs, acc. specialize (Hy []). rewrite !app_nil_r in Hy.
    rewrite Ho, flat_map_single. split_and!; try done. by apply sf_pending_max.
Qed.


Lemma upd_sleeps st i v st' : upd f64 st i v = Ret st' -> sleeps st' = sleeps st.
Proof. unfold upd. destruct (_pk_metrics_update _ _ _ _); intros [= <-]; done. Qed.

Lemma fd_write_loop_sleeps fuel buffer st st' rc :
  fd_write_loop f64 write_res fuel buffer 10000000 0 st = Ret (st', rc) -> sleeps st' = sleeps st.
Proof.
  revert st; induction fuel as [|fuel IH]; intros st; [done|]. cbn [fd_write_loop].
  destruct (write_res (writes st)); [by intros [= <- <-]|by intros H%IH| |by intros [= <- <-]].
  change (u32 (0 + 1)) with 1. change (10000000 <=? 1) with false. cbn iota.
  match goal with |- context [upd f64 ?s ?i ?v] => destruct (upd f64 s i v) as [st1| |] eqn:E; try done;
    pose proof (upd_sleeps s i v st1 E) as Hs end.
  cbn [mbind outcome_bind]. intros H%IH. rewrite H, Hs. by destruct (negb _).
Qed.

(** Writing to a descriptor never sleeps, although it is meant to wait up to a second for
    a full queue: the test on the sleep counter is reversed and the counter is reset on every
    retry, so a full queue is polled without a pause. *)
Theorem fd_write_never_sleeps outq_check fuel buffer st st' rc :
  fd_write f64 write_res qlen outq_check fuel buffer st = Ret (st', rc) -> sleeps st' = sleeps st.
Proof.
  unfold fd_write, fd_write_with_timeout. change (SEND_SLEEP_NS =? 0) with false. cbn iota.
  change (u32 (MS_TO_NS MAX_SEND_SLEEP_MS) / SEND_SLEEP_NS) with 10000000.
  destruct outq_check as [q|]; [|apply fd_write_loop_sleeps].
  unfold ensure_outq_space. destruct (_ <? _); cbn [negb]; [by intros [= <- <-]|].
  intros H%fd_write_loop_sleeps. done.
Qed.
End guarantees.

(** A status that is not known is taken for a disconnection, since all its bits are set: the
    branch for it is never reached. *)
Example unknown_status_stops : handle_loop_status LOOP_UNKNOWN = (false, true).
Proof. reflexivity. Qed.

(** ** Witnesses *)

Definition adapter_metrics : pk_metrics :=
  match pk_metrics_setup f64_int example_env true (Some "endpoint_adapter") "usb0" metrics_table with
  | Some (m, _) => m
  | None => []
  end.

Lemma adapter_metrics_wf : metrics_wf adapter_metrics.
Proof.
  split; [vm_compute; lia|]. let m := eval vm_compute in adapter_metrics in change adapter_metrics with m.
  repeat (apply Forall_cons; split; [split_and!; [apply value_zero_ok|apply value_zero_ok|reflexivity|
    first [discriminate | intros _; by eexists]]|]).
  constructor.
Qed.

Definition idle_io : io := mk_io 0 0 0 [] [] [] 0 false (Some adapter_metrics).

Lemma idle_io_good : metrics_good idle_io.
Proof. exists adapter_metrics. split; [done|apply adapter_metrics_wf]. Qed.

(** An RTCM3 frame with a one-byte payload, cut after its second byte. *)
Definition example_frame : list Z := Eval vm_compute in FramerRtcm3.mk_frame [0x42].
Definition example_chunks : list (list Z) := [0x00 :: take 2 example_frame; drop 2 example_frame].

Lemma example_chunks_ok : Forall bytes_ok example_chunks.
Proof. repeat constructor; cbn; lia. Qed.

Lemma example_chunks_short :
  Forall (fun c => sf_max (process := FramerRtcm3.framer_process) + length c < 2000)%nat example_chunks.
Proof.
  apply Forall_forall. intros c Hc. assert (length c <= 10)%nat.
  { apply elem_of_cons in Hc as [->|Hc]; [cbn; lia|]. apply elem_of_cons in Hc as [->|Hc]; [cbn; lia|].
    by apply elem_of_nil in Hc. }
  cbn [sf_max rtcm3_stream_framer]. unfold FramerRtcm3.RTCM3_FRAME_SIZE_MAX. lia.
Qed.

Definition rtcm3_handle (is_ept : bool) : handle_t (S := FramerRtcm3.framer_rtcm3_state) (F := unit) :=
  mk_handle is_ept false FramerRtcm3.rtcm3_start tt.

Lemma adapter_delivers_endpoint_witness :
  exists h' st' fs acc,
    write_chunks FramerRtcm3.framer_process filter_none_process f64_int value_zero (fun _ => W_error)
      (fun _ => true) (fun _ => 0) None 2000 (rtcm3_handle true) example_chunks idle_io = Ret (h', st', 8) /\
    frames_of FramerRtcm3.framer_process (sf_pending (h_framer (rtcm3_handle true)) ++ concat example_chunks) =
      fs ++ frames_of FramerRtcm3.framer_process (sf_pending (h_framer h')) /\
    filter_frames filter_none_process tt fs = Ret (h_filter h', acc) /\
    ept_out st' = [] ++ acc /\
    sf_inv (h_framer h') /\ (length (sf_pending (h_framer h')) <= sf_max (process := FramerRtcm3.framer_process))%nat /\ metrics_good st'.
Proof.
  apply (adapter_delivers_endpoint FramerRtcm3.framer_process filter_none_process f64_int value_zero
    (fun _ => W_error) (fun _ => true) (fun _ => 0) None 2000 (rtcm3_handle true) example_chunks idle_io).
  - intros [] m. by eexists tt, 0.
  - split; cbn; lia.
  - done.
  - done.
  - apply FramerRtcm3.rtcm3_start_inv.
  - apply example_chunks_ok.
  - apply idle_io_good.
  - apply example_chunks_short.
Defined.


Lemma fd_write_never_sleeps_witness :
  exists st', fd_write f64_int (fun k => if (k <? 3)%nat then W_EAGAIN else W_count 2) (fun _ => 0) None 5 [1; 2]
      idle_io = Ret (st', 2) /\ sleeps st' = sleeps idle_io.
Proof.
  eexists. split; [vm_compute; reflexivity|].
  eapply (fd_write_never_sleeps f64_int (fun k => if (k <? 3)%nat then W_EAGAIN else W_count 2) (fun _ => 0) None 5
    [1; 2]). vm_compute. reflexivity.
Defined.

(** A false preamble whose length spans two frames that follow it.  All input is in the framer's
    buffer when it returns the first frame, and the second stays there until more input comes. *)
Example frame_held_back :
  exists h' st', write_chunks FramerRtcm3.framer_process filter_none_process f64_int value_zero (fun _ => W_error)
      (fun _ => true) (fun _ => 0) None 2000 (rtcm3_handle true)
      [[0xd3; 0x00; 0x0b] ++ example_frame ++ example_frame] idle_io = Ret (h', st', 17) /\
    ept_out st' = [example_frame] /\ sf_pending (h_framer h') = example_frame.
Proof. eexists _, _. split; [vm_compute; reflexivity|]. split; vm_compute; reflexivity. Qed.
