(* ===== verification/Endpoint.v ===== *)
(** * Endpoints ([src/package/libpiksi/libpiksi/src/endpoint.c], [loop.c])

    An endpoint is one end of a sequenced-packet UNIX socket: a client (PUB, SUB, REQ) or a
    server (PUB_SERVER, SUB_SERVER, REP) with a list of connected clients.  The event loop
    wakes the server for a new connection and for each client; a client whose connection
    ends is recorded in a second list and released at the end of the traversal.

    The heap of client nodes is a finite map: reading, unlinking or freeing a node that is
    not in it is [Undef].  The descriptor table is a finite set; the kernel's choices (what a
    system call answers, whether an allocation succeeds) are read from a [kernel] at the
    number [tick] of the call.  Log messages are not modelled.  The receive callback is a
    function on a state of its own and does not call back into the endpoint. *)

From S2P Require Import Prelude Libc Metrics.
From stdpp Require Import gmap.

Local Open Scope Z_scope.

(** ** Constants *)

Inductive pk_endpoint_type :=
  | PK_ENDPOINT_INVALID | PK_ENDPOINT_PUB | PK_ENDPOINT_PUB_SERVER | PK_ENDPOINT_SUB
  | PK_ENDPOINT_SUB_SERVER | PK_ENDPOINT_REP | PK_ENDPOINT_REQ.

#[export] Instance pk_endpoint_type_eq_dec : EqDecision pk_endpoint_type.
Proof. solve_decision. Defined.

Definition PKE_SUCCESS : Z := 0.
Definition PKE_ERROR : Z := -1.
Definition PKE_NOT_CONN : Z := -2.
Definition PKE_EAGAIN : Z := -3.

Definition PK_ENDPOINT_RECV_BUF_SIZE : nat := 8 * 1024.
Definition ENDPOINT_SERVICE_MAX : nat := 32.
Definition MAX_SEND_SLEEP_MS : Z := 10.
Definition MAX_SEND_SLEEP_NS : Z := MAX_SEND_SLEEP_MS * 1000000.
Definition SEND_SLEEP_NS : Z := 100.
Definition MAX_SEND_SLEEP_COUNT : Z := MAX_SEND_SLEEP_NS / SEND_SLEEP_NS.
Definition CONNECT_RETRIES_MAX : nat := 300.
Definition IPC_PREFIX : string := "ipc://".
Definition SUN_PATH_LEN : nat := 108.

Definition LOOP_SUCCESS : Z := 0x0.
Definition LOOP_READ : Z := 0x1.
Definition LOOP_DISCONNECTED : Z := 0x2.
Definition LOOP_ERROR : Z := 0x4.
Definition UV_READABLE : Z := 1.
Definition UV_DISCONNECT : Z := 4.

Definition has (status flag : Z) : bool := negb (Z.land status flag =? 0).

Module MI.
Definition client_count : nat := 0.
Definition wakes_per_s : nat := 1.
Definition send_close_count : nat := 2.
Definition read_close_count : nat := 3.
Definition read_discard_count : nat := 4.
Definition accept_count : nat := 5.
Definition accept_error : nat := 6.
Definition disconnect_count : nat := 7.
End MI.

Definition count_metric (folder name : string) : table_entry :=
  mk_entry folder name METRICS_TYPE_U32 pk_metrics_updater_count pk_metrics_reset_default None.

Definition endpoint_metrics_table : list table_entry :=
  [ mk_entry "client/count" "total" METRICS_TYPE_S32 pk_metrics_updater_assign
      pk_metrics_reset_default None;
    count_metric "client/wakes" "per_second";
    count_metric "send/close" "count";
    count_metric "read/close" "count";
    count_metric "read/discard" "count";
    count_metric "accept/count" "total";
    count_metric "accept/error" "total";
    count_metric "disconnect/count" "total" ].

(** ** The system below *)

Inductive errno := EINTR | EAGAIN | EPIPE | ECONNRESET | ENOTCONN | EBADF | EOTHER.

#[export] Instance errno_eq_dec : EqDecision errno.
Proof. solve_decision. Defined.

(** A message (empty when the peer has closed the connection) or an error. *)
Inductive recv_result := RV_data (l : list Z) | RV_err (e : errno).
Inductive send_result := SD_count (n : nat) | SD_err (e : errno).

Record kernel := {
  recv_res : nat -> recv_result;
  send_res : nat -> nat -> send_result;       (* by the length of the message *)
  shutdown_res : nat -> option errno;         (* None: success *)
  close_res : nat -> option errno;
  accept_ok : nat -> bool;
  malloc_ok : nat -> bool;
  poll_add_ok : nat -> bool;                  (* allocation and uv_poll_* succeed *)
  timer_add_ok : nat -> bool;
  fcntl_ok : nat -> bool;
  siocinq : nat -> Z;                         (* 0 when the ioctl fails *)
  siocoutq : nat -> Z;
  socket_ok : nat -> bool;
  bind_ok : nat -> string -> bool;            (* by the address *)
  connect_ok : nat -> string -> bool;
  listen_ok : nat -> bool;
  eventfd_ok : nat -> bool;
}.

(** A call that opens a descriptor gets a number that is not in use. *)
Class FdAlloc := {
  alloc_fd : gset Z -> Z;
  alloc_fd_fresh : forall X, alloc_fd X ∉ X;
  alloc_fd_pos : forall X, 0 <= alloc_fd X;
}.

(** ** State *)

(** [client_context_t]; [ept] is the one endpoint of the state. *)
Record client_context_t := mk_ctx {
  handle : Z;
  poll_handle : option nat;
  node : option nat;                          (* the address of the node it is part of *)
}.

Record pk_endpoint_t := mk_ept {
  ept_type : pk_endpoint_type;
  sock : Z;
  wakefd : Z;
  started : bool;
  nonblock : bool;
  woke : bool;
  client_nodes : list nat;                    (* head first *)
  removed_nodes : list nat;                   (* the [client_node] of each element *)
  client_count : Z;
  loop : option nat;
  ept_poll : option nat;
  path : string;
  metrics : option pk_metrics;
  metrics_timer : option nat;
  warned_on_discard : bool;
  has_eagain_cb : bool;
}.

Record sys := mk_sys {
  tick : nat;
  heap : gmap nat client_context_t;           (* the allocated client nodes *)
  next_id : nat;                              (* addresses and handles not used so far *)
  fds : gset Z;                               (* open descriptors *)
  polls : gmap nat (option nat);              (* active pollers: a client node or the server *)
  timers : gset nat;
  wake_counter : Z;                           (* of the eventfd *)
  sent : list (Z * list Z);                   (* messages the kernel has accepted *)
  closes : list Z;                            (* arguments of [close] *)
  eagain_calls : list Z;                      (* arguments of [eagain_cb] *)
  sleeps : nat;
}.

Record state := mk_state { ept : pk_endpoint_t; os : sys }.

Definition set_ept (s : state) (e : pk_endpoint_t) : state := mk_state e (os s).
Definition set_os (s : state) (o : sys) : state := mk_state (ept s) o.

Definition ept_metrics (e : pk_endpoint_t) (m : option pk_metrics) : pk_endpoint_t :=
  mk_ept (ept_type e) (sock e) (wakefd e) (started e) (nonblock e) (woke e) (client_nodes e)
    (removed_nodes e) (client_count e) (loop e) (ept_poll e) (path e) m (metrics_timer e)
    (warned_on_discard e) (has_eagain_cb e).
Definition ept_clients (e : pk_endpoint_t) (cn rn : list nat) (c : Z) : pk_endpoint_t :=
  mk_ept (ept_type e) (sock e) (wakefd e) (started e) (nonblock e) (woke e) cn rn c (loop e)
    (ept_poll e) (path e) (metrics e) (metrics_timer e) (warned_on_discard e) (has_eagain_cb e).
Definition ept_woke (e : pk_endpoint_t) (b : bool) : pk_endpoint_t :=
  mk_ept (ept_type e) (sock e) (wakefd e) (started e) (nonblock e) b (client_nodes e)
    (removed_nodes e) (client_count e) (loop e) (ept_poll e) (path e) (metrics e)
    (metrics_timer e) (warned_on_discard e) (has_eagain_cb e).
Definition ept_warned (e : pk_endpoint_t) : pk_endpoint_t :=
  mk_ept (ept_type e) (sock e) (wakefd e) (started e) (nonblock e) (woke e) (client_nodes e)
    (removed_nodes e) (client_count e) (loop e) (ept_poll e) (path e) (metrics e)
    (metrics_timer e) true (has_eagain_cb e).
Definition ept_socks (e : pk_endpoint_t) (sk wk : Z) (st : bool) : pk_endpoint_t :=
  mk_ept (ept_type e) sk wk st (nonblock e) (woke e) (client_nodes e) (removed_nodes e)
    (client_count e) (loop e) (ept_poll e) (path e) (metrics e) (metrics_timer e)
    (warned_on_discard e) (has_eagain_cb e).
Definition ept_attach (e : pk_endpoint_t) (nb : bool) (lp ph mt : option nat) : pk_endpoint_t :=
  mk_ept (ept_type e) (sock e) (wakefd e) (started e) nb (woke e) (client_nodes e)
    (removed_nodes e) (client_count e) lp ph (path e) (metrics e) mt (warned_on_discard e)
    (has_eagain_cb e).
Definition pk_endpoint_eagain_cb_set (s : state) (cb : bool) : state :=
  let e := ept s in
  set_ept s (mk_ept (ept_type e) (sock e) (wakefd e) (started e) (nonblock e) (woke e)
    (client_nodes e) (removed_nodes e) (client_count e) (loop e) (ept_poll e) (path e)
    (metrics e) (metrics_timer e) (warned_on_discard e) cb).

Definition os_tick (o : sys) : sys :=
  mk_sys (S (tick o)) (heap o) (next_id o) (fds o) (polls o) (timers o) (wake_counter o) (sent o)
    (closes o) (eagain_calls o) (sleeps o).
Definition os_heap (o : sys) (h : gmap nat client_context_t) (n : nat) : sys :=
  mk_sys (tick o) h n (fds o) (polls o) (timers o) (wake_counter o) (sent o) (closes o)
    (eagain_calls o) (sleeps o).
Definition os_fds (o : sys) (f : gset Z) (c : list Z) : sys :=
  mk_sys (tick o) (heap o) (next_id o) f (polls o) (timers o) (wake_counter o) (sent o) c
    (eagain_calls o) (sleeps o).
Definition os_polls (o : sys) (p : gmap nat (option nat)) (t : gset nat) (n : nat) : sys :=
  mk_sys (tick o) (heap o) n (fds o) p t (wake_counter o) (sent o) (closes o) (eagain_calls o)
    (sleeps o).
Definition os_wake (o : sys) (w : Z) : sys :=
  mk_sys (tick o) (heap o) (next_id o) (fds o) (polls o) (timers o) w (sent o) (closes o)
    (eagain_calls o) (sleeps o).
Definition os_sent (o : sys) (m : list (Z * list Z)) : sys :=
  mk_sys (tick o) (heap o) (next_id o) (fds o) (polls o) (timers o) (wake_counter o) m (closes o)
    (eagain_calls o) (sleeps o).
Definition os_eagain (o : sys) (l : list Z) : sys :=
  mk_sys (tick o) (heap o) (next_id o) (fds o) (polls o) (timers o) (wake_counter o) (sent o)
    (closes o) l (sleeps o).
Definition os_sleep (o : sys) : sys :=
  mk_sys (tick o) (heap o) (next_id o) (fds o) (polls o) (timers o) (wake_counter o) (sent o)
    (closes o) (eagain_calls o) (S (sleeps o)).

Definition now (s : state) : nat := tick (os s).
Definition step_tick (s : state) : state := set_os s (os_tick (os s)).

(** ** System calls *)

Section endpoint.
Context {FD : FdAlloc}.
Variable k : kernel.
Variable f64 : f64_ops.
Variable junk : pk_metrics_value.        (* read by metrics updates without a value *)
Variable fuel : nat.                     (* rounds of a loop that retries on EINTR *)

Definition recvmsg (fd : Z) (len : nat) (s : state) : recv_result * state :=
  (if bool_decide (fd ∈ fds (os s))
   then match recv_res k (now s) with RV_data l => RV_data (take len l) | r => r end
   else RV_err EBADF, step_tick s).

Definition sendmsg (fd : Z) (data : list Z) (s : state) : send_result * state :=
  if bool_decide (fd ∈ fds (os s)) then
    let r := send_res k (now s) (length data) in
    let s' := step_tick s in
    (r, match r with SD_count _ => set_os s' (os_sent (os s') (sent (os s') ++ [(fd, data)])) | _ => s' end)
  else (SD_err EBADF, step_tick s).

Definition shutdown (fd : Z) (s : state) : option errno * state :=
  (if bool_decide (fd ∈ fds (os s)) then shutdown_res k (now s) else Some EBADF, step_tick s).

(** Linux releases the descriptor whatever [close] answers. *)
Definition close (fd : Z) (s : state) : option errno * state :=
  let s' := step_tick s in
  (if bool_decide (fd ∈ fds (os s)) then close_res k (now s) else Some EBADF,
   set_os s' (os_fds (os s') (fds (os s') ∖ {[fd]}) (closes (os s') ++ [fd]))).

Definition open_fd (ok : bool) (s : state) : Z * state :=
  let s' := step_tick s in
  if ok then
    let fd := alloc_fd (fds (os s')) in
    (fd, set_os s' (os_fds (os s') ({[fd]} ∪ fds (os s')) (closes (os s'))))
  else (-1, s').

Definition pk_loop_poll_add (fd : Z) (who : option nat) (s : state) : outcome (option nat * state) :=
  if fd <? 0 then Undef                                            (* assert(fd >= 0) *)
  else
    let s' := step_tick s in
    if poll_add_ok k (now s) then
      let p := next_id (os s') in
      Ret (Some p, set_os s' (os_polls (os s') (<[p := who]> (polls (os s'))) (timers (os s')) (S p)))
    else Ret (None, s').

(** The handle [p] is closed; libuv frees it when the callback that runs has returned. *)
Definition unpoll (p : nat) (s : state) : state :=
  set_os s (os_polls (os s) (delete p (polls (os s))) (timers (os s)) (next_id (os s))).

(** Removing a handle that has been freed is undefined. *)
Definition pk_loop_poll_remove (p : nat) (s : state) : outcome state :=
  match polls (os s) !! p with Some _ => Ret (unpoll p s) | None => Undef end.

Definition pk_loop_timer_add (s : state) : option nat * state :=
  let s' := step_tick s in
  if timer_add_ok k (now s) then
    let t := next_id (os s') in
    (Some t, set_os s' (os_polls (os s') (polls (os s')) ({[t]} ∪ timers (os s')) (S t)))
  else (None, s').

Definition pk_loop_remove_handle (t : nat) (s : state) : state :=
  set_os s (os_polls (os s) (polls (os s)) (timers (os s) ∖ {[t]}) (next_id (os s))).

(** PK_METRICS_UPDATE(MR(ept), ...) *)
Definition upd (i : nat) (v : pk_metrics_value) (s : state) : outcome state :=
  r ← _pk_metrics_update f64 (metrics (ept s)) i v;
  Ret (set_ept s (ept_metrics (ept s) (fst r))).

Definition INT_MAX : Z := 2147483647.

(** [sizet_to_int] asserts that the value fits. *)
Definition sizet_to_int (n : nat) : outcome Z :=
  if Z.of_nat n <=? INT_MAX then Ret (Z.of_nat n) else Undef.

(** ** Helpers *)

Fixpoint retry_on_eintr (n : nat) (the_func : state -> option errno * state) (s : state) :
    outcome (bool * state) :=
  match n with
  | O => Diverge
  | S n' =>
      match the_func s with
      | (None, s') => Ret (true, s')
      | (Some EINTR, s') => retry_on_eintr n' the_func s'
      | (Some _, s') => Ret (false, s')
      end
  end.

Definition teardown_client (ctx : client_context_t) (s : state) : outcome (client_context_t * state) :=
  '(ctx, s) ←
    match loop (ept s), poll_handle ctx with
    | Some _, Some p => s ← pk_loop_poll_remove p s; Ret (mk_ctx (handle ctx) None (node ctx), s)
    | _, _ => Ret (ctx, s)
    end;
  match poll_handle ctx with
  | Some _ => Undef                                      (* ASSERT_TRACE(poll_handle == NULL) *)
  | None =>
      if handle ctx =? -1 then Ret (ctx, s)
      else
        '(_, s) ← retry_on_eintr fuel (shutdown (handle ctx)) s;
        '(_, s) ← retry_on_eintr fuel (close (handle ctx)) s;
        Ret (mk_ctx (-1) (poll_handle ctx) (node ctx), s)
  end.

Definition record_disconnect (n : nat) (s : state) : outcome state :=
  match heap (os s) !! n with
  | None => Undef                                        (* node->val.ept of a freed node *)
  | Some _ =>
      let e := ept s in
      let c := client_count e - 1 in
      s ← upd MI.client_count (pk_metrics_s32 c)
            (set_ept s (ept_clients e (client_nodes e) (removed_nodes e) c));
      let e := ept s in
      Ret (set_ept s (ept_clients e (client_nodes e) (n :: removed_nodes e) (client_count e)))
  end.

Definition record_ctx (ctx : client_context_t) (s : state) : outcome state :=
  match node ctx with Some n => record_disconnect n s | None => Ret s end.

(** The context, the code, the bytes received and whether [*length_loc] was set. *)
Fixpoint recv_impl (n : nat) (ctx : client_context_t) (len : nat) (s : state) :
    outcome (client_context_t * (Z * list Z) * state) :=
  match n with
  | O => Diverge
  | S n' =>
      match recvmsg (handle ctx) len s with
      | (RV_data [], s) =>
          s ← record_ctx ctx s;
          s ← upd MI.read_close_count junk s;
          '(ctx, s) ← teardown_client ctx s;
          Ret (ctx, (PKE_SUCCESS, []), s)
      | (RV_data l, s) => Ret (ctx, (PKE_SUCCESS, l), s)
      | (RV_err EINTR, s) => recv_impl n' ctx len s
      | (RV_err e, s) =>
          if nonblock (ept s) && bool_decide (e = EAGAIN) then Ret (ctx, (PKE_EAGAIN, []), s)
          else Ret (ctx, (if bool_decide (e = ENOTCONN) then PKE_NOT_CONN else PKE_ERROR, []), s)
      end
  end.

(** [rx_cb]: the new context and what it returns. *)
Fixpoint service_reads {X} (rx_cb : X -> list Z -> X * Z) (i : nat) (ctx : client_context_t)
    (x : X) (s : state) : outcome (client_context_t * X * Z * state) :=
  match i with
  | O => Ret (ctx, x, 0, s)
  | S i' =>
      '(ctx, (rc, l), s) ← recv_impl fuel ctx PK_ENDPOINT_RECV_BUF_SIZE s;
      if rc <? 0 then
        if (rc =? PKE_EAGAIN) || (rc =? PKE_NOT_CONN) then Ret (ctx, x, 0, s)
        else Ret (ctx, x, -1, s)
      else if (length l =? 0)%nat then Ret (ctx, x, 0, s)
      else
        let '(x, rc) := rx_cb x l in
        if negb (rc =? 0) then Ret (ctx, x, 0, s)
        else service_reads rx_cb i' ctx x s
  end.

Definition send_close_socket_helper (ctx : client_context_t) (s : state) :
    outcome (client_context_t * state) :=
  s ← record_ctx ctx s;
  s ← upd MI.send_close_count junk s;
  teardown_client ctx s.

Fixpoint send_impl (n : nat) (sleep_count : Z) (ctx : client_context_t) (data : list Z) (s : state) :
    outcome (client_context_t * Z * state) :=
  match n with
  | O => Diverge
  | S n' =>
      match sendmsg (handle ctx) data s with
      | (SD_count w, s) =>
          len ← sizet_to_int (length data);
          if Z.of_nat w =? len then Ret (ctx, 0, s) else Undef          (* ASSERT_TRACE *)
      | (SD_err EAGAIN, s) =>
          let sleep_count := sleep_count + 1 in
          if MAX_SEND_SLEEP_COUNT <=? sleep_count then
            send_impl n' sleep_count ctx data (set_os s (os_sleep (os s)))
          else
            len ← sizet_to_int (length data);
            let queued_total := len + siocinq k (now s) + siocoutq k (now s) in
            let s := if has_eagain_cb (ept s)
                     then set_os s (os_eagain (os s) (eagain_calls (os s) ++ [queued_total])) else s in
            '(ctx, s) ← send_close_socket_helper ctx s;
            Ret (ctx, -1, s)
      | (SD_err EINTR, s) => send_impl n' sleep_count ctx data s
      | (SD_err _, s) =>
          '(ctx, s) ← send_close_socket_helper ctx s;
          Ret (ctx, -1, s)
      end
  end.

(** The loop of [discard_read_data]; [len] is the variable [length], which a successful read
    overwrites. *)
Fixpoint discard_loop (count : nat) (ctx : client_context_t) (len : nat) (s : state) :
    outcome (client_context_t * state) :=
  match count with
  | O => Ret (ctx, s)
  | S count' =>
      match node ctx with
      | None => Ret (ctx, s)
      | Some _ =>
          '(ctx, (rc, l), s) ← recv_impl fuel ctx len s;
          if negb (rc =? 0) then Ret (ctx, s) else discard_loop count' ctx (length l) s
      end
  end.

Definition discard_read_data (ctx : client_context_t) (s : state) : outcome (client_context_t * state) :=
  s ← upd MI.read_discard_count junk s;
  discard_loop ENDPOINT_SERVICE_MAX ctx PK_ENDPOINT_RECV_BUF_SIZE s.

(** Run [f] on the context inside node [n]. *)
Definition with_node {A} (n : nat) (f : client_context_t -> state -> outcome (client_context_t * A * state))
    (s : state) : outcome (A * state) :=
  ctx ← of_option (heap (os s) !! n);
  '(ctx, a, s) ← f ctx s;
  Ret (a, set_os s (os_heap (os s) (<[n := ctx]> (heap (os s))) (next_id (os s)))).

Definition purge_client_node (n : nat) (s : state) : outcome state :=
  ctx ← of_option (heap (os s) !! n);
  let e := ept s in
  let s := set_ept s (ept_clients e (filter (fun m => m <> n) (client_nodes e)) (removed_nodes e)
                        (client_count e)) in
  '(_, s) ← teardown_client ctx s;
  Ret (set_os s (os_heap (os s) (delete n (heap (os s))) (next_id (os s)))).

Fixpoint process_removed (l : list nat) (s : state) : outcome state :=
  match l with
  | [] => Ret s
  | n :: l' =>
      let e := ept s in
      let s := set_ept s (ept_clients e (client_nodes e) l' (client_count e)) in
      s ← purge_client_node n s;
      process_removed l' s
  end.

Definition process_removed_clients (s : state) : outcome state :=
  process_removed (removed_nodes (ept s)) s.

Fixpoint foreach_loop {A} (foreach_fn : A -> nat -> state -> outcome (A * state)) (l : list nat)
    (a : A) (s : state) : outcome (A * state) :=
  match l with
  | [] => Ret (a, s)
  | n :: l' =>
      '(a, s) ← foreach_fn a n s;
      foreach_loop foreach_fn l' a s
  end.

Definition foreach_client {A} (foreach_fn : A -> nat -> state -> outcome (A * state)) (a : A)
    (s : state) : outcome (A * state) :=
  '(a, s) ← foreach_loop foreach_fn (client_nodes (ept s)) a s;
  s ← process_removed_clients s;
  Ret (a, s).

(** ** Event handlers *)

Definition handle_client_wake (n : nat) (status : Z) (s : state) : outcome state :=
  _ ← of_option (heap (os s) !! n);
  s ← upd MI.wakes_per_s junk s;
  if has status LOOP_ERROR || has status LOOP_DISCONNECTED then
    s ← upd MI.disconnect_count junk s;
    '(_, s) ← with_node n (fun ctx s => '(ctx, s) ← teardown_client ctx s; Ret (ctx, tt, s)) s;
    s ← record_disconnect n s;
    process_removed_clients s
  else if has status LOOP_READ && bool_decide (ept_type (ept s) = PK_ENDPOINT_PUB_SERVER) then
    let s := if warned_on_discard (ept s) then s else set_ept s (ept_warned (ept s)) in
    '(_, s) ← with_node n (fun ctx s => '(ctx, s) ← discard_read_data ctx s; Ret (ctx, tt, s)) s;
    Ret s
  else if woke (ept s) then Ret s
  else
    let s := set_ept s (ept_woke (ept s) true) in
    Ret (set_os s (os_wake (os s) (wake_counter (os s) + 1))).

Definition pk_endpoint_accept (s : state) : Z * state := open_fd (accept_ok k (now s)) s.

Definition accept_wake_handler (status : Z) (s : state) : outcome state :=
  s ← upd MI.accept_count junk s;
  if negb (has status LOOP_READ) && negb (status =? LOOP_SUCCESS) then upd MI.accept_error junk s
  else if negb (malloc_ok k (now s)) then
    let '(clientfd, s) := pk_endpoint_accept s in
    '(_, s) ← retry_on_eintr fuel (shutdown clientfd) s;
    '(_, s) ← retry_on_eintr fuel (close clientfd) s;
    upd MI.accept_error junk s
  else
    let n := next_id (os s) in
    let e := ept s in
    let s := set_ept s (ept_clients e (n :: client_nodes e) (removed_nodes e) (client_count e)) in
    let '(clientfd, s) := pk_endpoint_accept s in
    let s := set_os s (os_heap (os s) (<[n := mk_ctx clientfd None (Some n)]> (heap (os s))) (S n)) in
    let e := ept s in
    let c := client_count e + 1 in
    s ← upd MI.client_count (pk_metrics_s32 c)
          (set_ept s (ept_clients e (client_nodes e) (removed_nodes e) c));
    '(p, s) ← pk_loop_poll_add clientfd (Some n) s;
    match p with
    | None => Undef                                    (* ASSERT_TRACE(poll_handle != NULL) *)
    | Some _ =>
        Ret (set_os s (os_heap (os s) (<[n := mk_ctx clientfd p (Some n)]> (heap (os s)))
                         (next_id (os s))))
    end.

(** [uv_loop_poll_handler] of loop.c: the status given to the callback and whether the poller
    is removed before. *)
Definition uv_loop_status (uv_status events : Z) : Z * bool :=
  let loop_status := LOOP_SUCCESS in
  let '(loop_status, remove) :=
    if uv_status <? 0 then (Z.lor loop_status LOOP_ERROR, true) else (loop_status, false) in
  let loop_status := if has events UV_READABLE then Z.lor loop_status LOOP_READ else loop_status in
  if has events UV_DISCONNECT then (Z.lor loop_status LOOP_DISCONNECTED, true)
  else (loop_status, remove).

(** libuv calls the handler only for an active poller.  The poller that is removed before the
    callback is freed after it: until then removing it again does nothing, and no other handle gets
    its address. *)
Definition uv_loop_poll_handler (p : nat) (uv_status events : Z) (s : state) : outcome state :=
  match polls (os s) !! p with
  | None => Ret s
  | Some who =>
      let '(loop_status, remove) := uv_loop_status uv_status events in
      s ← match who with
          | None => accept_wake_handler loop_status s
          | Some n => handle_client_wake n loop_status s
          end;
      Ret (if remove then unpoll p s else s)
  end.

(** ** Reading *)

Definition valid_socket_type_for_read (t : pk_endpoint_type) : bool :=
  match t with
  | PK_ENDPOINT_SUB | PK_ENDPOINT_SUB_SERVER | PK_ENDPOINT_REP | PK_ENDPOINT_REQ => true
  | _ => false
  end.

(** [read_handler] returns its new context, the client's context and its code. *)
Definition read_and_receive_common {A}
    (read_handler : A -> client_context_t -> state -> outcome (client_context_t * (A * Z) * state))
    (a : A) (s : state) : outcome (A * Z * state) :=
  if negb (valid_socket_type_for_read (ept_type (ept s))) then Ret (a, -1, s)
  else
    match ept_type (ept s) with
    | PK_ENDPOINT_SUB_SERVER | PK_ENDPOINT_REP =>
        if negb (bool_decide (wakefd (ept s) ∈ fds (os s))) || (wake_counter (os s) =? 0)
        then Ret (a, -1, s)                                      (* read of the eventfd fails *)
        else
          let counter := wake_counter (os s) in
          let s := set_os s (os_wake (os s) 0) in
          if negb (counter =? 1) || negb (woke (ept s)) then Undef           (* ASSERT_TRACE *)
          else
            let s := set_ept s (ept_woke (ept s) false) in
            '(a, s) ← foreach_client
                        (fun a n s => '((a, _), s) ← with_node n (read_handler a) s; Ret (a, s)) a s;
            Ret (a, 0, s)
    | _ =>
        (* the context is a local variable: its changes are lost *)
        '(_, (a, rc), s) ← read_handler a (mk_ctx (sock (ept s)) (ept_poll (ept s)) None) s;
        Ret (a, rc, s)
    end.

(** The read handler of [pk_endpoint_read]: the length and the buffer are the caller's. *)
Definition read_handler (a : nat * list Z) (ctx : client_context_t) (s : state) :
    outcome (client_context_t * (nat * list Z * Z) * state) :=
  let '(length_, buffer) := a in
  '(ctx, (rc, l), s) ← recv_impl fuel ctx length_ s;
  Ret (ctx, (if rc =? 0 then (length l, l ++ drop (length l) buffer) else (length_, buffer), rc), s).

(** [pk_endpoint_read]: what it returns and the caller's buffer. *)
Definition pk_endpoint_read (buffer : list Z) (count : nat) (s : state) : outcome (Z * list Z * state) :=
  if (count =? 0)%nat then Ret (0, buffer, s)
  else
    '((length_, buffer), rc, s) ← read_and_receive_common read_handler (count, buffer) s;
    if rc <? 0 then Ret (rc, buffer, s) else Ret (Z.of_nat length_, buffer, s).

Definition pk_endpoint_receive {X} (rx_cb : X -> list Z -> X * Z) (x : X) (s : state) :
    outcome (X * Z * state) :=
  if negb (nonblock (ept s)) then Undef                                     (* ASSERT_TRACE *)
  else
    read_and_receive_common
      (fun x ctx s =>
         '(ctx, x, _, s) ← service_reads rx_cb ENDPOINT_SERVICE_MAX ctx x s;
         Ret (ctx, (x, 0), s)) x s.

(** ** Sending *)

Definition pk_endpoint_send (data : list Z) (s : state) : outcome (Z * state) :=
  match ept_type (ept s) with
  | PK_ENDPOINT_SUB | PK_ENDPOINT_SUB_SERVER => Undef                       (* ASSERT_TRACE *)
  | PK_ENDPOINT_PUB | PK_ENDPOINT_REQ =>
      '(_, rc, s) ← send_impl fuel 0 (mk_ctx (sock (ept s)) None None) data s;
      Ret (rc, s)
  | PK_ENDPOINT_PUB_SERVER | PK_ENDPOINT_REP =>
      foreach_client
        (fun rc n s =>
           '(_rc, s) ← with_node n (fun ctx s => send_impl fuel 0 ctx data s) s;
           Ret (if negb (_rc =? 0) then _rc else rc, s)) 0 s
  | PK_ENDPOINT_INVALID => Ret (0, s)
  end.

(** ** Attaching *)

Definition pk_endpoint_type_get (s : state) : pk_endpoint_type := ept_type (ept s).

Definition pk_endpoint_poll_handle_get (s : state) : outcome Z :=
  match ept_type (ept s) with
  | PK_ENDPOINT_SUB | PK_ENDPOINT_REQ => Ret (sock (ept s))
  | PK_ENDPOINT_SUB_SERVER | PK_ENDPOINT_REP => Ret (wakefd (ept s))
  | PK_ENDPOINT_PUB | PK_ENDPOINT_PUB_SERVER => Ret (-1)
  | PK_ENDPOINT_INVALID => Undef                                            (* assert *)
  end.

Definition pk_endpoint_set_non_blocking (s : state) : Z * state :=
  let e := ept s in
  if negb (fcntl_ok k (now s)) then (-1, s)
  else (0, set_ept s (ept_attach e true (loop e) (ept_poll e) (metrics_timer e))).

Definition pk_endpoint_loop_add (lp : nat) (s : state) : outcome (Z * state) :=
  let '(rc, s) := pk_endpoint_set_non_blocking s in
  if rc <? 0 then Ret (-1, s)
  else
    let e := ept s in
    match loop e with
    | Some l => Ret (if bool_decide (l = lp) then 0 else -1, s)
    | None =>
        match ept_type e with
        | PK_ENDPOINT_SUB | PK_ENDPOINT_PUB | PK_ENDPOINT_REQ =>
            Ret (0, set_ept s (ept_attach e (nonblock e) (Some lp) None (metrics_timer e)))
        | _ =>
            match ept_poll e with
            | Some _ => Undef                                               (* ASSERT_TRACE *)
            | None =>
                '(p, s) ← pk_loop_poll_add (sock e) None s;
                let '(t, s) := pk_loop_timer_add s in
                match t with
                | None => Undef                                             (* assert *)
                | Some _ =>
                    Ret (match p with Some _ => 0 | None => -1 end,
                         set_ept s (ept_attach e (nonblock e) (Some lp) p t))
                end
            end
        end
    end.

(** [read(sock, NULL, 0) == 0]: the descriptor is open. *)
Definition pk_endpoint_is_valid (s : option state) : bool :=
  match s with None => false | Some s => bool_decide (sock (ept s) ∈ fds (os s)) end.

Definition flush_endpoint_metrics (clock : Z) (s : state) : state :=
  match metrics (ept s) with
  | None => s
  | Some m =>
      set_ept s (ept_metrics (ept s)
        (fst (pk_metrics_reset clock (Some (pk_metrics_flush f64 m)) MI.wakes_per_s)))
  end.

(** ** Creation and destruction *)

Fixpoint purge_all (n : nat) (s : state) : outcome state :=
  match client_nodes (ept s) with
  | [] => Ret s
  | c :: _ =>
      match n with
      | O => Diverge
      | S n' => s ← purge_client_node c s; purge_all n' s
      end
  end.

(** [pk_endpoint_destroy] of an endpoint that is not NULL: what is left of the system. *)
Definition pk_endpoint_destroy (s : state) : outcome sys :=
  let sk := sock (ept s) in
  s ← (if started (ept s) && (0 <=? sk) then
         '(_, s) ← retry_on_eintr fuel (shutdown sk) s; Ret s
       else Ret s);
  s ← (if 0 <=? sk then
         '(_, s) ← retry_on_eintr fuel (close sk) s;
         Ret (set_ept s (ept_socks (ept s) (-1) (wakefd (ept s)) (started (ept s))))
       else Ret s);
  s ← purge_all (length (client_nodes (ept s))) s;
  s ← (if 0 <=? wakefd (ept s) then
         '(_, s) ← retry_on_eintr fuel (close (wakefd (ept s))) s;
         Ret (set_ept s (ept_socks (ept s) (sock (ept s)) (-1) (started (ept s))))
       else Ret s);
  s ← (match ept_poll (ept s) with
       | None => Ret s
       | Some p =>
           match loop (ept s) with None => Undef | Some _ => pk_loop_poll_remove p s end
       end);
  let s := match metrics_timer (ept s) with None => s | Some t => pk_loop_remove_handle t s end in
  Ret (os s).

Fixpoint string_drop (n : nat) (s : string) : string :=
  match n, s with
  | S n', String.String _ s' => string_drop n' s'
  | _, _ => s
  end.

(** [sun_path] after [strncpy(addr.sun_path, path, sizeof(addr.sun_path) - 1)] *)
Definition sun_path (path : string) : string := string_take (SUN_PATH_LEN - 1) path.

Definition create_un_socket (s : state) : Z * state := open_fd (socket_ok k (now s)) s.

Definition bind_un_socket (path : string) (s : state) : Z * state :=
  (if bind_ok k (now s) (sun_path path) then 0 else -1, step_tick s).

Definition start_un_listen (s : state) : Z * state :=
  (if listen_ok k (now s) then 0 else -1, step_tick s).

(** The rounds [retry], [retry + 1], ... of the loop; [n] are left. *)
Fixpoint connect_loop (n : nat) (retry : nat) (addr : string) (retry_connect : bool) (s : state) :
    bool * state :=
  let s := if (0 <? retry)%nat then set_os s (os_sleep (os s)) else s in
  let ok := connect_ok k (now s) addr in
  let s := step_tick s in
  match n with
  | O => (ok, s)
  | S n' => if ok || negb retry_connect then (ok, s) else connect_loop n' (S retry) addr retry_connect s
  end.

Definition connect_un_socket (path : string) (retry_connect : bool) (s : state) : Z * state :=
  let '(ok, s) := connect_loop CONNECT_RETRIES_MAX 0 (sun_path path) retry_connect s in
  (if ok then 0 else -1, s).

Record pk_endpoint_config_t := mk_cfg {
  cfg_endpoint : option string;
  cfg_identity : option string;
  cfg_type : pk_endpoint_type;
  cfg_retry_connect : bool;
}.

Definition pk_endpoint_config : pk_endpoint_config_t := mk_cfg None None PK_ENDPOINT_INVALID false.
Definition cfg_builder_endpoint (c : pk_endpoint_config_t) (e : string) : pk_endpoint_config_t :=
  mk_cfg (Some e) (cfg_identity c) (cfg_type c) (cfg_retry_connect c).
Definition cfg_builder_identity (c : pk_endpoint_config_t) (i : option string) : pk_endpoint_config_t :=
  mk_cfg (cfg_endpoint c) i (cfg_type c) (cfg_retry_connect c).
Definition cfg_builder_type (c : pk_endpoint_config_t) (t : pk_endpoint_type) : pk_endpoint_config_t :=
  mk_cfg (cfg_endpoint c) (cfg_identity c) t (cfg_retry_connect c).
Definition cfg_builder_retry_connect (c : pk_endpoint_config_t) (b : bool) : pk_endpoint_config_t :=
  mk_cfg (cfg_endpoint c) (cfg_identity c) (cfg_type c) b.

Definition do_bind (t : pk_endpoint_type) : bool :=
  match t with
  | PK_ENDPOINT_PUB_SERVER | PK_ENDPOINT_SUB_SERVER | PK_ENDPOINT_REP => true
  | _ => false
  end.

(** The address without the prefix: six characters are dropped when the prefix occurs anywhere. *)
Definition socket_path (endpoint : string) : string :=
  match String.index 0 IPC_PREFIX endpoint with
  | Some _ => string_drop (String.length IPC_PREFIX) endpoint
  | None => endpoint
  end.

Definition initial_ept (t : pk_endpoint_type) (endpoint : string) : pk_endpoint_t :=
  mk_ept t (-1) (-1) false false false [] [] 0 None None (string_take (Z.to_nat PATH_MAX) endpoint)
    None None false false.

(** [goto failure]: NULL, after the endpoint built so far is destroyed. *)
Definition create_failure (s : state) : outcome (option pk_endpoint_t * sys) :=
  o ← pk_endpoint_destroy s;
  Ret (None, o).

(** [menv] and [mok] are what the system calls of [pk_metrics_setup] answer. *)
Definition create_impl (menv : add_env) (mok : bool) (endpoint ident : option string)
    (t : pk_endpoint_type) (retry_connect : bool) (o : sys) : outcome (option pk_endpoint_t * sys) :=
  match endpoint with
  | None => Undef                                                           (* ASSERT_TRACE *)
  | Some endpoint =>
      if negb (malloc_ok k (tick o)) then Ret (None, os_tick o)
      else
        let s := mk_state (initial_ept t endpoint) (os_tick o) in
        if bool_decide (t = PK_ENDPOINT_INVALID) then create_failure s
        else
          let '(fd, s) := create_un_socket s in
          let s := set_ept s (ept_socks (ept s) fd (-1) false) in
          if fd <? 0 then create_failure s
          else
            let '(rc, s) := if do_bind t then bind_un_socket (socket_path endpoint) s
                            else connect_un_socket (socket_path endpoint) retry_connect s in
            let s := set_ept s (ept_socks (ept s) fd (-1) (rc =? 0)) in
            if negb (rc =? 0) then create_failure s
            else
              let '(listening, s) := if do_bind t then start_un_listen s else (0, s) in
              if listening <? 0 then create_failure s
              else
                let '(wfd, s) :=
                  if do_bind t then
                    let '(wfd, s) := open_fd (eventfd_ok k (now s)) s in
                    (wfd, set_os s (os_wake (os s) 0))
                  else (-1, s) in
                let s := set_ept s (ept_socks (ept s) fd wfd true) in
                if do_bind t && (wfd <? 0) then create_failure s
                else
                  match ident with
                  | None => Ret (Some (ept s), os s)
                  | Some ident =>
                      match pk_metrics_setup f64 menv mok (Some "endpoint"%string)
                              (string_take (Z.to_nat PATH_MAX) ident) endpoint_metrics_table with
                      | None => create_failure s
                      | Some (m, _) => Ret (Some (ept_metrics (ept s) (Some m)), os s)
                      end
                  end
  end.

Definition pk_endpoint_create (menv : add_env) (mok : bool) (cfg : pk_endpoint_config_t) (o : sys) :
    outcome (option pk_endpoint_t * sys) :=
  create_impl menv mok (cfg_endpoint cfg) (cfg_identity cfg) (cfg_type cfg) (cfg_retry_connect cfg) o.

(** ** Runs *)

(** What happens to an endpoint: its loop finds a poller ready, its owner reads or sends. *)
Inductive event :=
  | Ev_poll (p : nat) (uv_status events : Z)
  | Ev_receive
  | Ev_send (data : list Z)
  | Ev_flush (clock : Z).

Definition handle_event {X} (rx_cb : X -> list Z -> X * Z) (ev : event) (x : X) (s : state) :
    outcome (X * state) :=
  match ev with
  | Ev_poll p uv_status events => s ← uv_loop_poll_handler p uv_status events s; Ret (x, s)
  | Ev_receive => '(x, _, s) ← pk_endpoint_receive rx_cb x s; Ret (x, s)
  | Ev_send data => '(_, s) ← pk_endpoint_send data s; Ret (x, s)
  | Ev_flush clock => Ret (x, flush_endpoint_metrics clock s)
  end.

Fixpoint run_events {X} (rx_cb : X -> list Z -> X * Z) (evs : list event) (x : X) (s : state) :
    outcome (X * state) :=
  match evs with
  | [] => Ret (x, s)
  | ev :: evs' => '(x, s) ← handle_event rx_cb ev x s; run_events rx_cb evs' x s
  end.
End endpoint.
