(* ===== verification/EndpointSpec.v ===== *)
(** * Endpoints: what they guarantee ([src/package/libpiksi/libpiksi/src/endpoint.c])

    States are compared up to metrics and logs ([≈]); each operation is shown to lead to a
    state given by a short description of what changed.  The invariant of a server says which
    client nodes are allocated, that each client has a descriptor and a poller of its own, and
    that the counters agree; a server is settled when it holds and no client waits for
    removal.  The theorems on the life of a server, on publishing, creating, reading and on
    two ways to go wrong follow, with concrete runs as witnesses. *)

From S2P Require Import Prelude Libc Metrics Endpoint.
From stdpp Require Import gmap.

Local Open Scope Z_scope.

(** ** States up to logs

    Two states are equivalent when they differ at most in the metrics, the logs and the
    number of system calls made. *)

Definition view (s : state) : state :=
  let e := ept s in let o := os s in
  mk_state
    (mk_ept (ept_type e) (sock e) (wakefd e) (started e) (nonblock e) (woke e) (client_nodes e)
       (removed_nodes e) (client_count e) (loop e) (ept_poll e) (path e) None (metrics_timer e)
       false (has_eagain_cb e))
    (mk_sys 0 (heap o) (next_id o) (fds o) (polls o) (timers o) (wake_counter o) (sent o) [] [] 0).

Record veq (s s' : state) : Prop := mk_veq { veq_view : view s = view s' }.
Notation "s ≈ s'" := (veq s s') (at level 70, no associativity).

#[export] Instance veq_equiv : Equivalence veq.
Proof. split; [done|by intros ?? []|by intros ??? [H1] [H2]; split; rewrite H1]. Qed.

(** What a client loses: its descriptor, its poller and its place among the connected. *)
Definition closed (h : Z) (s : state) : state :=
  set_os s (os_fds (os s) (fds (os s) ∖ {[h]}) (closes (os s))).
Definition unpolled (p : option nat) (s : state) : state :=
  match p with Some p => unpoll p s | None => s end.
Definition torn (ctx : client_context_t) (s : state) : state :=
  let s := unpolled (poll_handle ctx) s in
  if handle ctx =? -1 then s else closed (handle ctx) s.
Definition recorded (n : option nat) (s : state) : state :=
  match n with
  | None => s
  | Some n => set_ept s (ept_clients (ept s) (client_nodes (ept s)) (n :: removed_nodes (ept s))
                           (client_count (ept s) - 1))
  end.
Definition stored (n : nat) (ctx : client_context_t) (s : state) : state :=
  set_os s (os_heap (os s) (<[n := ctx]> (heap (os s))) (next_id (os s))).
Definition said (l : list (Z * list Z)) (s : state) : state := set_os s (os_sent (os s) (sent (os s) ++ l)).

Definition gone (ctx : client_context_t) : client_context_t := mk_ctx (-1) None (node ctx).
Definition dropped (n : nat) (ctx : client_context_t) (s : state) : state :=
  stored n (gone ctx) (torn ctx (recorded (node ctx) s)).

Ltac veq_solve :=
  intros [[] []] [[] []] [?]; split; unfold view in *; cbn in *; simplify_eq; reflexivity.

#[export] Instance closed_proper h : Proper (veq ==> veq) (closed h).
Proof. veq_solve. Qed.
#[export] Instance unpoll_proper p : Proper (veq ==> veq) (unpoll p).
Proof. veq_solve. Qed.
#[export] Instance unpolled_proper p : Proper (veq ==> veq) (unpolled p).
Proof. destruct p; [apply _|by intros ??]. Qed.
#[export] Instance torn_proper ctx : Proper (veq ==> veq) (torn ctx).
Proof.
  intros s s' H. unfold torn. destruct (handle ctx =? -1); by rewrite H.
Qed.
#[export] Instance recorded_proper n : Proper (veq ==> veq) (recorded n).
Proof. destruct n; [veq_solve|by intros ??]. Qed.
#[export] Instance stored_proper n ctx : Proper (veq ==> veq) (stored n ctx).
Proof. veq_solve. Qed.
#[export] Instance said_proper l : Proper (veq ==> veq) (said l).
Proof. veq_solve. Qed.
#[export] Instance dropped_proper n ctx : Proper (veq ==> veq) (dropped n ctx).
Proof. intros s s' H. unfold dropped. by rewrite H. Qed.

(** Every projection that is not erased agrees on equivalent states. *)
Lemma veq_proj {A} (f : state -> A) s s' : (forall s, f (view s) = f s) -> s ≈ s' -> f s = f s'.
Proof. intros Hf H. rewrite <-(Hf s), <-(Hf s'). exact (f_equal f (veq_view _ _ H)). Qed.

Ltac veq_get H f := pose proof (veq_proj f _ _ (fun _ => eq_refl) H).

Definition mgood (s : state) : Prop :=
  match metrics (ept s) with Some m => metrics_wf m | None => True end.
Definition word64 (v : pk_metrics_value) : Prop := 0 <= vdata v < 18446744073709551616.

Lemma s32_word64 x : word64 (pk_metrics_s32 x).
Proof. unfold word64; simpl. pose proof (u32_range x). lia. Qed.

Lemma recorded_aux n s s' c :
  s' ≈ set_ept s (ept_clients (ept s) (client_nodes (ept s)) (removed_nodes (ept s)) c) ->
  set_ept s' (ept_clients (ept s') (client_nodes (ept s')) (n :: removed_nodes (ept s'))
                (client_count (ept s'))) ≈
  set_ept s (ept_clients (ept s) (client_nodes (ept s)) (n :: removed_nodes (ept s)) c).
Proof. revert s' s. veq_solve. Qed.

(** ** What the kernel promises *)

Definition quiet (k : kernel) (t : nat) : Prop :=
  recv_res k t <> RV_err EINTR /\ (forall n, send_res k t n <> SD_err EINTR) /\
  shutdown_res k t <> Some EINTR /\ close_res k t <> Some EINTR.

(** Interruptions stop within [fuel] calls, and a packet is sent whole or not at all. *)
Record kernel_ok (k : kernel) (fuel : nat) : Prop := {
  ko_quiet : forall t, exists j, (j < fuel)%nat /\ quiet k (t + j)%nat;
  ko_whole : forall t n w, send_res k t n = SD_count w -> w = n;
}.

Definition quiet_within (k : kernel) (n t : nat) : Prop := exists j, (j < n)%nat /\ quiet k (t + j)%nat.

Lemma quiet_within_S k n t :
  quiet_within k (S n) t -> quiet k t \/ quiet_within k n (S t).
Proof.
  intros (j & Hj & Hq). destruct j as [|j].
  - left. by rewrite Nat.add_0_r in Hq.
  - right. exists j. split; [lia|]. by replace (S t + j)%nat with (t + S j)%nat by lia.
Qed.

Lemma quiet_within_0 k t : ~ quiet_within k 0 t.
Proof. intros (j & Hj & _). lia. Qed.

(** ** The pieces *)

Section pieces.
Context {FD : FdAlloc}.
Variable k : kernel.
Variable f64 : f64_ops.
Variable junk : pk_metrics_value.
Variable fuel : nat.
Hypothesis Hk : kernel_ok k fuel.
Hypothesis Hjunk : word64 junk.

Lemma quiet_here s : quiet_within k fuel (now s).
Proof. apply Hk. Qed.

Lemma upd_ok i v s :
  mgood s -> word64 v -> exists s', upd f64 i v s = Ret s' /\ s' ≈ s /\ mgood s' /\ os s' = os s.
Proof.
  intros Hm Hv. unfold upd, mgood in *. destruct (metrics (ept s)) as [m|] eqn:E.
  - destruct (pk_metrics_update_good f64 m i v Hm Hv) as (m' & rc & -> & Hwf & _).
    eexists. split; [reflexivity|]. split_and!; done.
  - eexists. split; [reflexivity|]. by split_and!.
Qed.

Lemma retry_shutdown h n s :
  quiet_within k n (now s) ->
  exists b s', retry_on_eintr n (shutdown k h) s = Ret (b, s') /\ s' ≈ s /\ ept s' = ept s.
Proof.
  revert s. induction n as [|n IH]; intros s Hq; [by destruct (quiet_within_0 k _ Hq)|].
  cbn [retry_on_eintr]. unfold shutdown at 1.
  set (r := if bool_decide _ then _ else _).
  destruct (decide (r = Some EINTR)) as [Hr|Hr].
  - rewrite Hr. apply quiet_within_S in Hq as [Hq|Hq].
    + exfalso. destruct Hq as (_ & _ & Hq & _). subst r. by case_bool_decide.
    + destruct (IH (step_tick s) Hq) as (b & s' & -> & Hs & He).
      exists b, s'. split_and!; [done| |done]. by rewrite Hs.
  - destruct r as [[]|]; [done|by eexists _, _..].
Qed.

Lemma retry_close h n s :
  quiet_within k n (now s) ->
  exists b s', retry_on_eintr n (close k h) s = Ret (b, s') /\ s' ≈ closed h s /\ ept s' = ept s.
Proof.
  revert s. induction n as [|n IH]; intros s Hq; [by destruct (quiet_within_0 k _ Hq)|].
  cbn [retry_on_eintr]. unfold close at 1. cbv zeta.
  set (r := if bool_decide _ then _ else _). set (s1 := set_os _ _).
  destruct (decide (r = Some EINTR)) as [Hr|Hr].
  - rewrite Hr. apply quiet_within_S in Hq as [Hq|Hq].
    + exfalso. destruct Hq as (_ & _ & _ & Hq). subst r. by case_bool_decide.
    + destruct (IH s1 Hq) as (b & s' & -> & Hs & He). exists b, s'. split_and!; [done| |done].
      rewrite Hs. split. unfold view, closed, s1. cbn. do 2 f_equal. by rewrite difference_difference_l_L, union_idemp_L.
  - destruct r as [[]|]; [done|by eexists _, _..].
Qed.

(** The poller of a context, if it has one, is in the loop. *)
Definition poll_fine (ctx : client_context_t) (s : state) : Prop :=
  match poll_handle ctx with
  | None => True
  | Some p => is_Some (loop (ept s)) /\ is_Some (polls (os s) !! p)
  end.

Lemma poll_fine_same ctx s s' :
  loop (ept s') = loop (ept s) -> polls (os s') = polls (os s) -> poll_fine ctx s -> poll_fine ctx s'.
Proof. unfold poll_fine. by intros -> ->. Qed.

Lemma teardown_ok ctx s :
  poll_fine ctx s ->
  exists s', teardown_client k fuel ctx s = Ret (gone ctx, s') /\ s' ≈ torn ctx s /\ ept s' = ept s.
Proof.
  intros Hp. unfold teardown_client, torn.
  set (d := match loop (ept s) with Some _ => _ | None => _ end).
  assert (d = Ret (mk_ctx (handle ctx) None (node ctx), unpolled (poll_handle ctx) s)) as ->.
  { subst d. unfold poll_fine in Hp. destruct ctx as [h p nd], p as [p|]; cbn [poll_handle] in *.
    - destruct Hp as [[l ->] [w Hw]]. unfold pk_loop_poll_remove. by rewrite Hw.
    - by destruct (loop (ept s)). }
  rewrite bind_Ret. cbn -[retry_on_eintr]. destruct (handle ctx =? -1) eqn:Eh.
  - apply Z.eqb_eq in Eh. eexists. split; [unfold gone; by rewrite Eh|].
    split; [done|by destruct (poll_handle ctx)].
  - set (s0 := unpolled (poll_handle ctx) s).
    destruct (retry_shutdown (handle ctx) fuel s0 (quiet_here _)) as (b1 & s1 & -> & H1 & E1).
    rewrite bind_Ret.
    destruct (retry_close (handle ctx) fuel s1 (quiet_here _)) as (b2 & s2 & -> & H2 & E2).
    rewrite bind_Ret. eexists. split; [reflexivity|]. split; [by rewrite H2, H1|].
    rewrite E2, E1. unfold s0. by destruct (poll_handle ctx).
Qed.

Lemma record_ok ctx s :
  mgood s -> (forall n, node ctx = Some n -> is_Some (heap (os s) !! n)) ->
  exists s', record_ctx f64 ctx s = Ret s' /\ s' ≈ recorded (node ctx) s /\ mgood s' /\ os s' = os s.
Proof.
  intros Hm Hn. unfold record_ctx. destruct (node ctx) as [n|]; [|by eexists].
  destruct (Hn n eq_refl) as [c Hc]. unfold record_disconnect. rewrite Hc.
  set (s1 := set_ept s _).
  destruct (upd_ok MI.client_count (pk_metrics_s32 (client_count (ept s) - 1)) s1 Hm (s32_word64 _))
    as (s2 & -> & H2 & Hm2 & Ho). rewrite bind_Ret. eexists. split; [reflexivity|].
  split_and!; [|done|done]. exact (recorded_aux _ _ _ _ H2).
Qed.

(** Closing a connection: [record_ctx], a metric, [teardown_client]. *)
Lemma close_ok ctx s i :
  mgood s -> poll_fine ctx s ->
  (forall n, node ctx = Some n -> is_Some (heap (os s) !! n)) ->
  exists s', (s ← record_ctx f64 ctx s; s ← upd f64 i junk s; teardown_client k fuel ctx s)
               = Ret (gone ctx, s') /\
    s' ≈ torn ctx (recorded (node ctx) s) /\ mgood s'.
Proof.
  intros Hm Hp Hn. destruct (record_ok ctx s Hm Hn) as (s1 & -> & H1 & Hm1 & Ho1). rewrite bind_Ret.
  destruct (upd_ok i junk s1 Hm1 Hjunk) as (s2 & -> & H2 & Hm2 & Ho2). rewrite bind_Ret.
  destruct (teardown_ok ctx s2) as (s3 & E3 & H3 & He).
  { rewrite H1 in H2. eapply poll_fine_same; [..|exact Hp].
    - rewrite (veq_proj (fun s => loop (ept s)) _ _ (fun _ => eq_refl) H2). by destruct (node ctx).
    - rewrite (veq_proj (fun s => polls (os s)) _ _ (fun _ => eq_refl) H2). by destruct (node ctx). }
  exists s3. split_and!; [done|by rewrite H3, H2, H1|]. unfold mgood in *. by rewrite He.
Qed.

(** A context is usable when its poller can be removed and its node, if any, is allocated. *)
Definition usable (ctx : client_context_t) (s : state) : Prop :=
  poll_fine ctx s /\
  (forall n, node ctx = Some n -> is_Some (heap (os s) !! n)).

Lemma usable_veq ctx s s' : s ≈ s' -> usable ctx s -> usable ctx s'.
Proof.
  intros H [H1 H2]. veq_get H (fun s => loop (ept s)). veq_get H (fun s => heap (os s)).
  veq_get H (fun s => polls (os s)). cbn beta in *.
  split; [by eapply poll_fine_same; [..|exact H1]|intros n Hn; rewrite <-H3; by apply H2].
Qed.

Lemma step_tick_veq s : step_tick s ≈ s.
Proof. done. Qed.

Lemma recv_impl_n n ctx len s :
  quiet_within k n (now s) -> mgood s -> usable ctx s ->
  exists ctx' rc l s', recv_impl k f64 junk fuel n ctx len s = Ret (ctx', (rc, l), s') /\ mgood s' /\
    ((ctx' = ctx /\ s' ≈ s /\ rc = PKE_SUCCESS /\ l <> [] /\ (length l <= len)%nat) \/
     (ctx' = gone ctx /\ s' ≈ torn ctx (recorded (node ctx) s) /\ rc = PKE_SUCCESS /\ l = [] /\
        exists t l0, recv_res k t = RV_data l0 /\ take len l0 = []) \/
     (ctx' = ctx /\ s' ≈ s /\ rc < 0 /\ l = [])).
Proof.
  revert s. induction n as [|n IH]; intros s Hq Hm Hu; [by destruct (quiet_within_0 k _ Hq)|].
  cbn [recv_impl]. unfold recvmsg at 1.
  destruct (bool_decide (handle ctx ∈ fds (os s))) eqn:Eb.
  2: { cbn -[teardown_client]. rewrite andb_false_r. eexists _, _, _, _. split; [reflexivity|].
       split; [done|]. right; right. split_and!; [done|by rewrite step_tick_veq| |done]. done. }
  destruct (recv_res k (now s)) as [l0|er] eqn:Er.
  - destruct (take len l0) as [|z l] eqn:El.
    + destruct (close_ok ctx (step_tick s) MI.read_close_count) as (s1 & E1 & H1 & Hm1); [done|apply Hu..|].
      apply outcome_bind_Ret in E1 as (sa & Ea & E1). rewrite Ea, bind_Ret.
      apply outcome_bind_Ret in E1 as (sb & Eb' & E1). rewrite Eb', bind_Ret, E1, bind_Ret.
      eexists _, _, _, _. split; [reflexivity|]. split; [done|]. right; left.
      split_and!; [done|by rewrite H1, step_tick_veq|done|done|by exists (now s), l0].
    + eexists _, _, _, _. split; [reflexivity|]. split; [done|]. left.
      split_and!; [done|by rewrite step_tick_veq|done|done|]. rewrite <-El, length_take. lia.
  - destruct (decide (er = EINTR)) as [->|Hne].
    + apply quiet_within_S in Hq as [(Hq & _)|Hq]; [done|].
      destruct (IH (step_tick s) Hq Hm Hu) as (ctx' & rc & l & s' & -> & Hm' & Hc).
      eexists _, _, _, _. split; [reflexivity|]. split; [done|].
      destruct Hc as [(?&H&?)|[(?&H&?)|(?&H&?)]]; [left|right; left|right; right];
        (split; [done|]); rewrite H, step_tick_veq; (split; [done|done]).
    + assert (exists rc, (if nonblock (ept (step_tick s)) && bool_decide (er = EAGAIN)
        then Ret (ctx, (PKE_EAGAIN, []), step_tick s)
        else Ret (ctx, (if bool_decide (er = ENOTCONN) then PKE_NOT_CONN else PKE_ERROR, []), step_tick s))
        = Ret (ctx, (rc, [] : list Z), step_tick s) /\ rc < 0) as (rc & E & Hrc).
      { destruct (_ && _); [|destruct (bool_decide _)]; (eexists; split; [reflexivity|]);
          unfold PKE_EAGAIN, PKE_NOT_CONN, PKE_ERROR; repeat case_bool_decide; lia. }
      eexists _, rc, _, _. split; [by destruct er; [done|exact E..]|]. split; [done|].
      right; right. by split_and!.
Qed.

Lemma service_reads_ok {X} (rx_cb : X -> list Z -> X * Z) i ctx x s :
  mgood s -> usable ctx s ->
  exists ctx' x' rc s', service_reads k f64 junk fuel rx_cb i ctx x s = Ret (ctx', x', rc, s') /\
    mgood s' /\ ((ctx' = ctx /\ s' ≈ s) \/
      (ctx' = gone ctx /\ s' ≈ torn ctx (recorded (node ctx) s) /\ exists t, recv_res k t = RV_data [])).
Proof.
  revert x s. induction i as [|i IH]; intros x s Hm Hu.
  { eexists _, _, _, _. split; [reflexivity|]. split; [done|by left]. }
  cbn [service_reads].
  destruct (recv_impl_n fuel ctx PK_ENDPOINT_RECV_BUF_SIZE s (quiet_here _) Hm Hu)
    as (ctx1 & rc1 & l1 & s1 & -> & Hm1 & Hc). rewrite bind_Ret.
  destruct Hc as [(-> & H & -> & Hl & _)|[(-> & H & -> & -> & t & l0 & Ht & Hl0)|(-> & H & Hrc & ->)]].
  - change (PKE_SUCCESS <? 0) with false. cbn iota. destruct l1 as [|z l1]; [done|].
    change (length (z :: l1) =? 0)%nat with false. cbn iota. destruct (rx_cb x (z :: l1)) as [x1 r].
    destruct (negb (r =? 0)); [eexists _, _, _, _; split; [reflexivity|]; split; [done|by left]|].
    destruct (IH x1 s1 Hm1 (usable_veq _ _ _ (symmetry H) Hu)) as (c2 & x2 & r2 & s2 & -> & Hm2 & Hc).
    eexists _, _, _, _. split; [reflexivity|]. split; [done|].
    destruct Hc as [(->&H2)|(->&H2&?)]; [left|right]; (split; [done|]); rewrite H2, H; by try split.
  - eexists _, _, _, _. split; [reflexivity|]. split; [done|right]. split_and!; [done..|].
    exists t. destruct l0; [done|]. by destruct (Nat.eq_0_gt_0_cases PK_ENDPOINT_RECV_BUF_SIZE).
  - rewrite (proj2 (Z.ltb_lt _ _) Hrc). destruct (_ || _); eexists _, _, _, _; (split; [reflexivity|]);
      (split; [done|by left]).
Qed.

(** When no read finds the connection closed, discarding changes nothing but the metrics. *)
Lemma discard_loop_ok i ctx len s :
  (forall t, recv_res k t <> RV_data []) -> (0 < len)%nat -> mgood s -> usable ctx s ->
  exists s', discard_loop k f64 junk fuel i ctx len s = Ret (ctx, s') /\ mgood s' /\ s' ≈ s.
Proof.
  intros Hne. revert len s. induction i as [|i IH]; intros len s Hlen Hm Hu.
  { eexists. split; [reflexivity|]. done. }
  cbn [discard_loop]. destruct (node ctx); [|by eexists].
  destruct (recv_impl_n fuel ctx len s (quiet_here _) Hm Hu) as (ctx1 & rc1 & l1 & s1 & -> & Hm1 & Hc).
  rewrite bind_Ret.
  destruct Hc as [(-> & H & -> & Hl & _)|[(-> & H & -> & -> & t & l0 & Hr & Hl0)|(-> & H & Hrc & ->)]].
  - cbn -[discard_loop]. destruct (IH (length l1) s1) as (s2 & -> & Hm2 & H2);
      [destruct l1; cbn; [done|lia]|done|by eapply usable_veq|].
    eexists. split; [reflexivity|]. split; [done|]. by rewrite H2.
  - destruct l0; [by destruct (Hne t)|]. destruct len; [lia|done].
  - destruct (rc1 =? 0) eqn:E; [apply Z.eqb_eq in E; lia|]. by eexists.
Qed.

Lemma send_impl_n n sc ctx data s :
  quiet_within k n (now s) -> 0 <= sc < MAX_SEND_SLEEP_COUNT - 1 -> mgood s -> usable ctx s ->
  Z.of_nat (length data) <= INT_MAX ->
  exists ctx' rc s', send_impl k f64 junk fuel n sc ctx data s = Ret (ctx', rc, s') /\ mgood s' /\
    ((ctx' = ctx /\ rc = 0 /\ handle ctx ∈ fds (os s) /\ s' ≈ said [(handle ctx, data)] s) \/
     (ctx' = gone ctx /\ rc = -1 /\ s' ≈ torn ctx (recorded (node ctx) s) /\
        (handle ctx ∈ fds (os s) -> exists t e, send_res k t (length data) = SD_err e /\ e <> EINTR))).
Proof.
  intros Hq Hsc Hm Hu Hlen. revert s Hq Hm Hu.
  induction n as [|n IH]; intros s Hq Hm Hu; [by destruct (quiet_within_0 k _ Hq)|].
  assert (Hclose : forall s0, s0 ≈ s -> mgood s0 ->
    exists ctx' rc s', ('(ctx, s) ← send_close_socket_helper k f64 junk fuel ctx s0; Ret (ctx, -1, s))
      = Ret (ctx', rc, s') /\ mgood s' /\
      ctx' = gone ctx /\ rc = -1 /\ s' ≈ torn ctx (recorded (node ctx) s)).
  { intros s0 H0 Hm0. destruct (usable_veq _ _ _ (symmetry H0) Hu) as [Hu1 Hu2].
    destruct (close_ok ctx s0 MI.send_close_count) as (s1 & E1 & H1 & Hm1); [done..|].
    unfold send_close_socket_helper. rewrite E1, bind_Ret.
    eexists _, _, _. split; [reflexivity|]. split_and!; [done..|]. by rewrite H1, H0. }
  cbn [send_impl]. unfold sendmsg at 1.
  destruct (bool_decide (handle ctx ∈ fds (os s))) eqn:Eb.
  2: { destruct (Hclose (step_tick s) (step_tick_veq s) Hm) as (c' & rc & s' & -> & Hm' & Hc).
       eexists _, _, _. split; [reflexivity|]. split; [done|right].
       apply bool_decide_eq_false in Eb. destruct Hc as (?&?&?). by split_and!. }
  apply bool_decide_eq_true in Eb. cbv zeta.
  destruct (send_res k (now s) (length data)) as [w|er] eqn:Er.
  - unfold sizet_to_int. rewrite (proj2 (Z.leb_le _ _) Hlen), bind_Ret.
    rewrite (ko_whole _ _ Hk _ _ _ Er), Z.eqb_refl.
    eexists _, _, _. split; [reflexivity|]. split; [done|]. left. by split_and!.
  - destruct (decide (er = EINTR)) as [->|Hne].
    + apply quiet_within_S in Hq as [(_ & Hq & _)|Hq]; [by destruct (Hq (length data))|].
      destruct (IH (step_tick s) Hq Hm Hu) as (ctx' & rc & s' & -> & Hm' & Hc).
      eexists _, _, _. split; [reflexivity|]. split; [done|].
      destruct Hc as [(?&?&?&H)|(?&?&H&?)]; [left|right]; split_and!; try done; by rewrite H, step_tick_veq.
    + destruct (decide (er = EAGAIN)) as [->|Hna].
      * rewrite (proj2 (Z.leb_gt _ _)) by lia. unfold sizet_to_int.
        rewrite (proj2 (Z.leb_le _ _) Hlen), bind_Ret. cbv zeta.
        set (s0 := if has_eagain_cb _ then _ else _).
        assert (s0 ≈ s) as H0 by (subst s0; by destruct (has_eagain_cb _)).
        assert (mgood s0) as Hm0 by (subst s0; by destruct (has_eagain_cb _)).
        destruct (Hclose s0 H0 Hm0) as (c' & rc & s' & -> & Hm' & Hc).
        eexists _, _, _. split; [reflexivity|]. split; [done|right]. destruct Hc as (?&?&?).
        split_and!; [done..|]. intros _. by exists (now s), EAGAIN.
      * destruct (Hclose (step_tick s) (step_tick_veq s) Hm) as (c' & rc & s' & E & Hm' & Hc).
        eexists _, _, _. split; [by destruct er; [done|done|exact E..]|]. split; [done|right].
        destruct Hc as (?&?&?). split_and!; [done..|]. intros _. by exists (now s), er.
Qed.
End pieces.

(** ** The invariant of a server *)

(** A client that is not recorded as removed has a descriptor and a poller of its own. *)
Definition node_ok (s : state) (n : nat) (c : client_context_t) : Prop :=
  node c = Some n /\ (n < next_id (os s))%nat /\
  if decide (n ∈ removed_nodes (ept s)) then handle c = -1 /\ poll_handle c = None
  else 0 <= handle c /\ handle c ∈ fds (os s) /\ handle c <> sock (ept s) /\ handle c <> wakefd (ept s) /\
       exists p, poll_handle c = Some p /\ polls (os s) !! p = Some (Some n).

Record inv (s : state) : Prop := {
  inv_nodup : NoDup (client_nodes (ept s));
  inv_removed_nodup : NoDup (removed_nodes (ept s));
  inv_removed : forall n, n ∈ removed_nodes (ept s) -> n ∈ client_nodes (ept s);
  inv_count : client_count (ept s) =
    Z.of_nat (length (client_nodes (ept s))) - Z.of_nat (length (removed_nodes (ept s)));
  inv_heap : forall n, n ∈ client_nodes (ept s) <-> is_Some (heap (os s) !! n);
  inv_node : forall n c, heap (os s) !! n = Some c -> node_ok s n c;
  inv_inj : forall n1 n2 c1 c2, heap (os s) !! n1 = Some c1 -> heap (os s) !! n2 = Some c2 ->
    0 <= handle c1 -> handle c1 = handle c2 -> n1 = n2;
  inv_poll : forall p n, polls (os s) !! p = Some (Some n) ->
    exists c, heap (os s) !! n = Some c /\ poll_handle c = Some p;
  inv_server : forall p, polls (os s) !! p = Some None <-> ept_poll (ept s) = Some p;
  inv_fresh : forall p w, polls (os s) !! p = Some w -> (p < next_id (os s))%nat;
  inv_sock : 0 <= sock (ept s) /\ sock (ept s) ∈ fds (os s);
  inv_wakefd : 0 <= wakefd (ept s) /\ wakefd (ept s) ∈ fds (os s) /\ sock (ept s) <> wakefd (ept s);
  inv_loop : is_Some (loop (ept s));
  inv_nonblock : nonblock (ept s) = true;
  inv_wake : wake_counter (os s) = if woke (ept s) then 1 else 0;
}.

#[export] Instance inv_proper : Proper (veq ==> iff) inv.
Proof.
  assert (forall s, inv s <-> inv (view s)) as Hv by (intros s; split; intros []; by constructor).
  intros s s' H. rewrite (Hv s), (Hv s'). by rewrite (veq_view _ _ H).
Qed.

(** The part of the state that serving the clients leaves alone. *)
Definition attached (s : state) :=
  (ept_type (ept s), sock (ept s), wakefd (ept s), started (ept s), loop (ept s), ept_poll (ept s),
   metrics_timer (ept s), timers (os s)).

Definition fixed (s : state) :=
  (attached s, has_eagain_cb (ept s), next_id (os s), woke (ept s), wake_counter (os s)).

Lemma fixed_veq s s' : s ≈ s' -> fixed s = fixed s'.
Proof. by apply veq_proj. Qed.

Lemma fixed_dropped n c s : fixed (dropped n c s) = fixed s.
Proof.
  unfold dropped, torn. destruct (node c), (poll_handle c); cbn [recorded unpolled];
    destruct (handle c =? -1); reflexivity.
Qed.

(** A live client of a state that satisfies the invariant. *)
Definition live (s : state) (n : nat) (c : client_context_t) : Prop :=
  heap (os s) !! n = Some c /\ n ∉ removed_nodes (ept s).

Lemma live_veq s s' n c : s ≈ s' -> live s n c -> live s' n c.
Proof.
  intros H [H1 H2]. veq_get H (fun s => heap (os s)). veq_get H (fun s => removed_nodes (ept s)).
  cbn beta in *. split; congruence.
Qed.

Lemma live_usable s n c : inv s -> live s n c -> usable c s.
Proof.
  intros Hi [Hn Hr]. destruct (inv_node s Hi n c Hn) as (Hc & _ & Hp). rewrite decide_False in Hp by done.
  destruct Hp as (_ & _ & _ & _ & p & Hp & Hq).
  split; [unfold poll_fine; rewrite Hp; split; [apply Hi|by eexists]|]. intros n' Hn'. assert (n' = n) as -> by congruence. by exists c.
Qed.

Lemma live_fields s n c : inv s -> live s n c ->
  node c = Some n /\ 0 <= handle c /\ handle c ∈ fds (os s) /\ handle c <> sock (ept s) /\
  handle c <> wakefd (ept s) /\ exists p, poll_handle c = Some p /\ polls (os s) !! p = Some (Some n).
Proof.
  intros Hi [Hn Hr]. destruct (inv_node s Hi n c Hn) as (Hc & _ & H). by rewrite decide_False in H.
Qed.

(** What [dropped] does to each component. *)
Lemma dropped_eq s n c p : node c = Some n -> poll_handle c = Some p -> 0 <= handle c ->
  dropped n c s =
  mk_state (ept_clients (ept s) (client_nodes (ept s)) (n :: removed_nodes (ept s)) (client_count (ept s) - 1))
    (mk_sys (tick (os s)) (<[n := mk_ctx (-1) None (Some n)]> (heap (os s))) (next_id (os s))
       (fds (os s) ∖ {[handle c]}) (delete p (polls (os s))) (timers (os s)) (wake_counter (os s))
       (sent (os s)) (closes (os s)) (eagain_calls (os s)) (sleeps (os s))).
Proof.
  intros Hn Hp Hh. unfold dropped, gone, torn. rewrite Hn, Hp. cbn.
  destruct (handle c =? -1) eqn:E; [apply Z.eqb_eq in E; lia|]. reflexivity.
Qed.

Lemma inv_dropped s n c : inv s -> live s n c -> inv (dropped n c s).
Proof.
  intros Hi Hl. destruct (live_fields s n c Hi Hl) as (Hn & Hh & Hf & Hs & Hw & p & Hp & Hpn).
  destruct Hl as [Hc Hr]. rewrite (dropped_eq s n c p Hn Hp Hh).
  destruct Hi as [I1 I2 I3 I4 I5 I6 I7 I8 I0 I9 I10 I11 I12 I13 I14].
  constructor; cbn.
  - done.
  - by constructor.
  - intros m [->|Hm]%elem_of_cons; [|by apply I3]. apply I5. by exists c.
  - rewrite I4. lia.
  - intros m. rewrite I5. destruct (decide (m = n)) as [->|Hne].
    + rewrite lookup_insert_eq. split; by eexists.
    + by rewrite lookup_insert_ne by done.
  - intros m d. destruct (decide (m = n)) as [->|Hne].
    + rewrite lookup_insert_eq. intros [= <-]. destruct (I6 n c Hc) as (_ & Hlt & _).
      unfold node_ok; cbn. split_and!; [done|done|]. rewrite decide_True by (rewrite elem_of_cons; by left). done.
    + rewrite lookup_insert_ne by done. intros Hd. destruct (I6 m d Hd) as (Hd1 & Hd2 & Hd3).
      unfold node_ok; cbn. split_and!; [done|done|]. destruct (decide (m ∈ removed_nodes (ept s))).
      * rewrite decide_True by (rewrite elem_of_cons; by right). done.
      * rewrite decide_False by (rewrite elem_of_cons; tauto). destruct Hd3 as (?&?&?&?&q&?&Hq). split_and!; [done| |done..|].
        -- apply elem_of_difference. split; [done|]. intros Heq%elem_of_singleton.
           apply Hne. by eapply (I7 m n d c).
        -- exists q. split; [done|]. rewrite lookup_delete_ne; [done|congruence].
  - intros n1 n2 c1 c2. rewrite !lookup_insert_Some.
    intros [[_ <-]|[? ?]] [[_ <-]|[? ?]]; cbn; intros; try lia. by eapply I7.
  - intros q m [? Hq]%lookup_delete_Some. destruct (I8 q m Hq) as (d & Hd & Hdq).
    assert (m <> n). { intros ->. congruence. }
    exists d. by rewrite lookup_insert_ne by done.
  - intros q. rewrite lookup_delete_Some, I0. split; [tauto|]. intros Hq. split; [|done]. apply I0 in Hq. congruence.
  - intros q w [? Hq]%lookup_delete_Some. by eapply I9.
  - split; [apply I10|]. apply elem_of_difference. split; [apply I10|]. by intros ?%elem_of_singleton.
  - split; [apply I11|]. split; [|apply I11]. apply elem_of_difference. split; [apply I11|].
    by intros ?%elem_of_singleton.
  - done.
  - done.
  - done.
Qed.

Lemma inv_said l s : inv s <-> inv (said l s).
Proof. split; intros []; by constructor. Qed.

Lemma length_filter_remove (n : nat) l :
  NoDup l -> n ∈ l -> length l = S (length (filter (fun m => m <> n) l)).
Proof.
  induction l as [|m l IH]; intros Hnd Hn; [by apply elem_of_nil in Hn|].
  apply NoDup_cons in Hnd as [Hm Hnd]. rewrite filter_cons. apply elem_of_cons in Hn as [->|Hn].
  - rewrite decide_False by tauto. cbn. f_equal. assert (filter (fun x => x <> m) l = l) as ->; [|done].
    clear -Hm. induction l as [|x l IH]; [done|]. rewrite elem_of_cons in Hm.
    rewrite filter_cons, decide_True by (intros ->; tauto). rewrite IH; tauto.
  - rewrite decide_True by (by intros ->). cbn. f_equal. by apply IH.
Qed.

(** ** Visiting the clients *)

Section visits.
Context {FD : FdAlloc}.
Variable k : kernel.
Variable f64 : f64_ops.
Variable junk : pk_metrics_value.
Variable fuel : nat.
Hypothesis Hk : kernel_ok k fuel.
Hypothesis Hjunk : word64 junk.

(** A function on the context of a live client that keeps the connection or closes it. *)
Definition serves {A} (m : client_context_t -> list (Z * list Z))
    (f : client_context_t -> state -> outcome (client_context_t * A * state)) (Q : bool -> A -> Prop) : Prop :=
  forall s n c, inv s -> mgood s -> live s n c ->
  exists c' a s', f c s = Ret (c', a, s') /\ mgood s' /\
    ((c' = c /\ s' ≈ said (m c) s /\ Q true a) \/
     (c' = gone c /\ s' ≈ torn c (recorded (node c) s) /\ Q false a)).

Lemma stored_same s n c : heap (os s) !! n = Some c -> stored n c s = s.
Proof.
  intros H. destruct s as [e []]; unfold stored, set_os, os_heap; cbn in *. by rewrite insert_id.
Qed.

Lemma with_node_ok {A} m (f : client_context_t -> state -> outcome (client_context_t * A * state)) Q s n c :
  serves m f Q -> inv s -> mgood s -> live s n c ->
  exists a s', with_node n f s = Ret (a, s') /\ mgood s' /\
    ((s' ≈ said (m c) s /\ Q true a) \/ (s' ≈ dropped n c s /\ Q false a)).
Proof.
  intros Hf Hi Hm Hl. destruct (Hf s n c Hi Hm Hl) as (c' & a & s' & E & Hm' & Hc).
  unfold with_node. destruct Hl as [Hc' _]. rewrite Hc'. cbn [of_option]. rewrite bind_Ret, E, bind_Ret.
  exists a. eexists. split; [reflexivity|]. split; [done|].
  destruct Hc as [(-> & H & HQ)|(-> & H & HQ)]; [left|right]; (split; [|done]).
  - change (stored n c s' ≈ said (m c) s). rewrite stored_same; [done|].
    veq_get H (fun s => heap (os s)). cbn beta in *. by rewrite H0.
  - change (stored n (gone c) s' ≈ dropped n c s). unfold dropped. by rewrite H.
Qed.

(** The messages sent to the clients of [l] that are not in [d], with their context in [s]. *)
Definition messages (m : client_context_t -> list (Z * list Z)) (s : state) (d l : list nat) :=
  l ≫= (fun n => if decide (n ∈ d) then [] else from_option m [] (heap (os s) !! n)).

Lemma messages_app m s d l1 l2 : messages m s d (l1 ++ l2) = messages m s d l1 ++ messages m s d l2.
Proof. apply bind_app. Qed.

Lemma messages_ext m s s' d d' l :
  (forall n, n ∈ l -> (n ∈ d <-> n ∈ d') /\ (n ∉ d -> heap (os s) !! n = heap (os s') !! n)) ->
  messages m s d l = messages m s' d' l.
Proof.
  induction l as [|n l IH]; intros H; [done|].
  change (messages m s d ([n] ++ l) = messages m s' d' ([n] ++ l)). rewrite !messages_app. f_equal.
  - destruct (H n) as [Hd Hh]; [by left|]. unfold messages. cbn.
    do 2 case_decide; try tauto. by rewrite Hh.
  - apply IH. intros n' Hn'. apply H. by right.
Qed.

(** What a traversal leaves: [d] are the clients it has closed. *)
Record visited (m : client_context_t -> list (Z * list Z)) (l d : list nat) (s s' : state) : Prop := {
  vi_inv : inv s';
  vi_mgood : mgood s';
  vi_fixed : fixed s' = fixed s;
  vi_nodes : client_nodes (ept s') = client_nodes (ept s);
  vi_removed : removed_nodes (ept s') = d ++ removed_nodes (ept s);
  vi_sub : forall n, n ∈ d -> n ∈ l;
  vi_sent : sent (os s') = sent (os s) ++ messages m s d l;
  vi_heap : forall n, n ∉ d -> heap (os s') !! n = heap (os s) !! n;
  vi_fds : forall fd, fd ∈ fds (os s') <->
    fd ∈ fds (os s) /\ ~ exists n c, n ∈ d /\ heap (os s) !! n = Some c /\ handle c = fd;
}.

Lemma visited_keep m n c s s' : inv s -> mgood s' -> live s n c -> s' ≈ said (m c) s -> visited m [n] [] s s'.
Proof.
  intros Hi Hm [Hc Hr] H.
  constructor.
  - rewrite H. by apply inv_said.
  - done.
  - by rewrite (fixed_veq _ _ H).
  - by rewrite (veq_proj (fun s => client_nodes (ept s)) _ _ (fun _ => eq_refl) H).
  - by rewrite (veq_proj (fun s => removed_nodes (ept s)) _ _ (fun _ => eq_refl) H).
  - intros ? []%elem_of_nil.
  - rewrite (veq_proj (fun s => sent (os s)) _ _ (fun _ => eq_refl) H). unfold messages. cbn.
    rewrite Hc. cbn. by rewrite app_nil_r.
  - intros n' _. by rewrite (veq_proj (fun s => heap (os s)) _ _ (fun _ => eq_refl) H).
  - intros fd. rewrite (veq_proj (fun s => fds (os s)) _ _ (fun _ => eq_refl) H). cbn.
    split; [|tauto]. intros. split; [done|]. intros (? & ? & []%elem_of_nil & _).
Qed.

Lemma visited_drop m n c s s' : inv s -> mgood s' -> live s n c -> s' ≈ dropped n c s -> visited m [n] [n] s s'.
Proof.
  intros Hi Hm Hl H.
  destruct (live_fields s n c Hi Hl) as (Hn & Hh & _ & _ & _ & p & Hp & _).
  pose proof (inv_dropped s n c Hi Hl) as Hi'. pose proof (fixed_dropped n c s) as Hfix.
  pose proof (dropped_eq s n c p Hn Hp Hh) as He. destruct Hl as [Hc Hr].
  constructor.
  - by rewrite H.
  - done.
  - by rewrite (fixed_veq _ _ H).
  - rewrite (veq_proj (fun s => client_nodes (ept s)) _ _ (fun _ => eq_refl) H). by rewrite He.
  - rewrite (veq_proj (fun s => removed_nodes (ept s)) _ _ (fun _ => eq_refl) H). by rewrite He.
  - done.
  - rewrite (veq_proj (fun s => sent (os s)) _ _ (fun _ => eq_refl) H). rewrite He. cbn.
    rewrite decide_True by (by apply list_elem_of_singleton). by rewrite app_nil_r.
  - intros n' Hn'. rewrite (veq_proj (fun s => heap (os s)) _ _ (fun _ => eq_refl) H), He. cbn.
    apply lookup_insert_ne. intros ->. by apply Hn', list_elem_of_singleton.
  - intros fd. rewrite (veq_proj (fun s => fds (os s)) _ _ (fun _ => eq_refl) H), He. cbn.
    rewrite elem_of_difference, elem_of_singleton. split; intros [H1 H2]; (split; [done|]).
    + intros (m' & c' & Hm'%list_elem_of_singleton & Hc' & <-). subst m'. congruence.
    + intros ->. apply H2. exists n, c. split_and!; [by apply list_elem_of_singleton|done..].
Qed.

Lemma visited_app m l1 l2 d1 d2 s s1 s2 :
  NoDup (l1 ++ l2) -> visited m l1 d1 s s1 -> visited m l2 d2 s1 s2 ->
  visited m (l1 ++ l2) (d2 ++ d1) s s2.
Proof.
  intros (Hnd1 & Hdis & Hnd2)%NoDup_app [A1 A2 A3 A4 A5 A6 A7 A8 A9] [B1 B2 B3 B4 B5 B6 B7 B8 B9].
  constructor.
  - done.
  - done.
  - congruence.
  - congruence.
  - by rewrite B5, A5, app_assoc.
  - intros n. rewrite !elem_of_app. intros [?|?]; [right; by apply B6|left; by apply A6].
  - rewrite B7, A7, <-app_assoc. f_equal. rewrite messages_app. f_equal.
    + apply messages_ext. intros n Hn. split; [|done]. rewrite elem_of_app. split; [tauto|].
      intros [?%B6|?]; [by destruct (Hdis n)|done].
    + apply messages_ext. intros n Hn.
      assert (n ∉ d1) by (intros ?%A6; by destruct (Hdis n)).
      split; [rewrite elem_of_app; tauto|]. intros _. by rewrite A8.
  - intros n Hn. rewrite elem_of_app in Hn. rewrite B8 by tauto. apply A8. tauto.
  - intros fd. rewrite B9, A9. split.
    + intros [[H1 H2] H3]. split; [done|]. intros (n & c & Hn & Hc & Hf).
      apply elem_of_app in Hn as [Hn|Hn]; [|by apply H2; exists n, c].
      apply H3. exists n, c. split_and!; [done| |done]. rewrite A8; [done|].
      intros Hn'. apply (Hdis n); [by apply A6|by apply B6].
    + intros [H1 H2]. split_and!; [done| |].
      * intros (n & c & Hn & ? & ?). apply H2. exists n, c. rewrite elem_of_app. tauto.
      * intros (n & c & Hn & Hc & ?). apply H2. exists n, c. rewrite elem_of_app. split_and!; [tauto| |done].
        rewrite <-A8; [done|]. intros Hn'. apply (Hdis n); [by apply A6|by apply B6].
Qed.

(** A loop body that serves client [n]; [z] is the accumulator it leaves when it closes it, and
    [W] why it does. *)
Definition visits {A} (m : client_context_t -> list (Z * list Z)) (z : option A) (W : Prop)
    (f : A -> nat -> state -> outcome (A * state)) : Prop :=
  forall a s n c, inv s -> mgood s -> live s n c ->
  exists a' s', f a n s = Ret (a', s') /\ mgood s' /\
    ((s' ≈ said (m c) s /\ (is_Some z -> a' = a)) \/
     (s' ≈ dropped n c s /\ from_option (fun z => a' = z) True z /\ W)).

Lemma foreach_loop_ok {A} m z W (f : A -> nat -> state -> outcome (A * state)) l a s :
  visits m z W f -> inv s -> mgood s -> NoDup l -> (forall n, n ∈ l -> exists c, live s n c) ->
  exists a' s' d, foreach_loop f l a s = Ret (a', s') /\ visited m l d s s' /\
    from_option (fun z => a' = match d with [] => a | _ => z end) True z /\ (d <> [] -> W).
Proof.
  intros Hf. revert a s. induction l as [|n l IH]; intros a s Hi Hm Hnd Hl.
  { exists a, s, []. split_and!; [done| |by destruct z|done].
    constructor; try done; [by rewrite app_nil_r|].
    intros fd. split; [|tauto]. intros. split; [done|]. intros (? & ? & []%elem_of_nil & _). }
  apply NoDup_cons in Hnd as [Hn Hnd]. destruct (Hl n) as [c Hc]; [by left|].
  destruct (Hf a s n c Hi Hm Hc) as (a1 & s1 & E1 & Hm1 & Hcase).
  assert (exists d1, visited m [n] d1 s s1 /\ from_option (fun z => a1 = match d1 with [] => a | _ => z end) True z /\
    (d1 <> [] -> W)) as (d1 & Hv1 & Ha1 & Hw1).
  { destruct Hcase as [[H Ha]|(H & Ha & Hw)].
    - exists []. split; [by eapply visited_keep|]. split; [|done]. destruct z; [by apply Ha|done].
    - exists [n]. split; [by eapply visited_drop|]. split; [by destruct z|done]. }
  destruct (IH a1 s1 (vi_inv _ _ _ _ _ Hv1) Hm1 Hnd) as (a2 & s2 & d2 & E2 & Hv2 & Ha2 & Hw2).
  { intros n' Hn'. destruct (Hl n') as (c' & Hc' & Hr'); [by right|]. exists c'.
    assert (n' ∉ d1). { intros ?%(vi_sub _ _ _ _ _ Hv1)%list_elem_of_singleton. congruence. }
    split; [by rewrite (vi_heap _ _ _ _ _ Hv1)|]. rewrite (vi_removed _ _ _ _ _ Hv1), elem_of_app. tauto. }
  exists a2, s2, (d2 ++ d1). cbn [foreach_loop]. rewrite E1, bind_Ret. split_and!; [done| | |].
  - change (n :: l) with ([n] ++ l). eapply visited_app; [by apply NoDup_cons|done|done].
  - destruct z as [z|]; [|done]. cbn in *. subst a1 a2. destruct d2, d1; done.
  - destruct d2; [exact Hw1|intros _; by apply Hw2].
Qed.

(** Removing the head of the removed list. *)
Lemma purge_ok n l s :
  inv s -> mgood s -> removed_nodes (ept s) = n :: l ->
  exists s', purge_client_node k fuel n
      (set_ept s (ept_clients (ept s) (client_nodes (ept s)) l (client_count (ept s)))) = Ret s' /\
    inv s' /\ mgood s' /\ removed_nodes (ept s') = l /\
    s' ≈ set_os (set_ept s (ept_clients (ept s) (filter (fun m => m <> n) (client_nodes (ept s))) l (client_count (ept s))))
           (os_heap (os s) (delete n (heap (os s))) (next_id (os s))).
Proof.
  intros Hi Hm Hr. pose proof Hi as [I1 I2 I3 I4 I5 I6 I7 I8 I0 I9 I10 I11 I12 I13 I14].
  rewrite Hr in I2, I3, I4. apply NoDup_cons in I2 as [Hnl I2].
  assert (Hn : n ∈ client_nodes (ept s)) by (apply I3; by left).
  apply I5 in Hn as Hc. destruct Hc as [c Hc]. destruct (I6 n c Hc) as (Hc1 & Hc2 & Hc3).
  rewrite Hr, decide_True in Hc3 by (by left). destruct Hc3 as [Hh Hp].
  unfold purge_client_node. cbn [os set_ept heap]. rewrite Hc. cbn [of_option]. rewrite bind_Ret.
  unfold teardown_client. rewrite Hp. cbn [ept set_ept ept_clients loop].
  eexists. split.
  { destruct (loop (ept s)); cbn; rewrite Hp, Hh; reflexivity. }
  assert (Hlen : length (client_nodes (ept s)) = S (length (filter (fun m => m <> n) (client_nodes (ept s))))).
  { by apply length_filter_remove. }
  split_and!; [|done|done|done].
  assert (Hin : forall m, m ∈ filter (fun m => m <> n) (client_nodes (ept s)) <-> m <> n /\ m ∈ client_nodes (ept s))
    by (intros m; by rewrite list_elem_of_filter).
  constructor; cbn; try done.
  - by apply NoDup_filter.
  - intros m Hm'. apply Hin. split; [by intros ->|]. apply I3. by right.
  - rewrite I4, Hlen. cbn [length]. lia.
  - intros m. rewrite Hin, I5. destruct (decide (m = n)) as [->|Hne].
    + rewrite lookup_delete_eq. split; [tauto|by intros []].
    + rewrite lookup_delete_ne by done. tauto.
  - intros m d [Hne Hd]%lookup_delete_Some. destruct (I6 m d Hd) as (H1 & H2 & H3).
    unfold node_ok; cbn. split_and!; [done|done|]. rewrite Hr in H3.
    destruct (decide (m ∈ l)).
    + by rewrite decide_True in H3 by (by right).
    + by rewrite decide_False in H3 by (rewrite elem_of_cons; by intros [?|?]).
  - intros n1 n2 c1 c2 [_ ?]%lookup_delete_Some [_ ?]%lookup_delete_Some. by eapply I7.
  - intros p m Hpm. destruct (I8 p m Hpm) as (d & Hd & Hdp). exists d. split; [|done].
    rewrite lookup_delete_ne; [done|]. intros ->. congruence.
Qed.

Record purged (s s' : state) : Prop := {
  pu_inv : inv s';
  pu_mgood : mgood s';
  pu_removed : removed_nodes (ept s') = [];
  pu_nodes : client_nodes (ept s') = filter (fun n => n ∉ removed_nodes (ept s)) (client_nodes (ept s));
  pu_heap : forall n, heap (os s') !! n = if decide (n ∈ removed_nodes (ept s)) then None else heap (os s) !! n;
  pu_fixed : fixed s' = fixed s;
  pu_sent : sent (os s') = sent (os s);
  pu_fds : fds (os s') = fds (os s);
}.

Lemma process_removed_ok l s :
  inv s -> mgood s -> removed_nodes (ept s) = l ->
  exists s', process_removed k fuel l s = Ret s' /\ purged s s'.
Proof.
  revert s. induction l as [|n l IH]; intros s Hi Hm Hr.
  { exists s. split; [done|]. constructor; try done.
    - rewrite Hr. symmetry. induction (client_nodes (ept s)) as [|n l IH]; [done|].
      rewrite filter_cons, decide_True by apply not_elem_of_nil. by rewrite IH.
    - intros n. rewrite Hr, decide_False; [done|apply not_elem_of_nil]. }
  cbn [process_removed]. destruct (purge_ok n l s Hi Hm Hr) as (s1 & -> & Hi1 & Hm1 & Hr1 & H1).
  rewrite bind_Ret. destruct (IH s1 Hi1 Hm1 Hr1) as (s2 & -> & [P1 P2 P3 P4 P5 P6 P7 P8]).
  exists s2. split; [done|]. constructor; try done.
  - rewrite P4, Hr1, Hr, (veq_proj (fun s => client_nodes (ept s)) _ _ (fun _ => eq_refl) H1). cbn.
    rewrite list_filter_filter. apply list_filter_iff. intros x. rewrite elem_of_cons. tauto.
  - intros m. rewrite P5, Hr1, Hr, (veq_proj (fun s => heap (os s)) _ _ (fun _ => eq_refl) H1). cbn.
    destruct (decide (m = n)) as [->|Hne].
    + rewrite (decide_True (P := n ∈ n :: l)) by (by left). rewrite lookup_delete_eq. by case_decide.
    + rewrite lookup_delete_ne by done. repeat case_decide; try done.
      * by destruct H0; right.
      * apply elem_of_cons in H0 as [?|?]; done.
  - by rewrite P6, (fixed_veq _ _ H1).
  - by rewrite P7, (veq_proj (fun s => sent (os s)) _ _ (fun _ => eq_refl) H1).
  - by rewrite P8, (veq_proj (fun s => fds (os s)) _ _ (fun _ => eq_refl) H1).
Qed.

(** A server between two events. *)
Definition settled (s : state) : Prop := inv s /\ mgood s /\ removed_nodes (ept s) = [].

(** The state after a traversal that has closed the clients [d]. *)
Record served (m : client_context_t -> list (Z * list Z)) (d : list nat) (s s' : state) : Prop := {
  se_settled : settled s';
  se_sub : forall n, n ∈ d -> n ∈ client_nodes (ept s);
  se_nodes : client_nodes (ept s') = filter (fun n => n ∉ d) (client_nodes (ept s));
  se_heap : forall n, heap (os s') !! n = if decide (n ∈ d) then None else heap (os s) !! n;
  se_fixed : fixed s' = fixed s;
  se_sent : sent (os s') = sent (os s) ++ messages m s d (client_nodes (ept s));
  se_fds : forall fd, fd ∈ fds (os s') <->
    fd ∈ fds (os s) /\ ~ exists n c, n ∈ d /\ heap (os s) !! n = Some c /\ handle c = fd;
}.

Lemma settled_live s : settled s -> forall n, n ∈ client_nodes (ept s) -> exists c, live s n c.
Proof.
  intros (Hi & _ & Hr) n Hn. apply (inv_heap s Hi) in Hn as [c Hc]. exists c.
  split; [done|]. rewrite Hr. apply not_elem_of_nil.
Qed.

Lemma foreach_client_ok {A} m z W (f : A -> nat -> state -> outcome (A * state)) a s :
  visits m z W f -> settled s ->
  exists a' s' d, foreach_client k fuel f a s = Ret (a', s') /\ served m d s s' /\
    from_option (fun z => a' = match d with [] => a | _ => z end) True z /\ (d <> [] -> W).
Proof.
  intros Hf Hs. pose proof (settled_live s Hs) as Hl. destruct Hs as (Hi & Hm & Hr).
  destruct (foreach_loop_ok m z W f (client_nodes (ept s)) a s Hf Hi Hm (inv_nodup s Hi) Hl)
    as (a1 & s1 & d & E & [V1 V2 V3 V4 V5 V6 V7 V8 V9] & Ha & Hw).
  rewrite Hr, app_nil_r in V5.
  destruct (process_removed_ok (removed_nodes (ept s1)) s1 V1 V2 eq_refl) as (s2 & E2 & [P1 P2 P3 P4 P5 P6 P7 P8]).
  exists a1, s2, d. unfold foreach_client, process_removed_clients. rewrite E, bind_Ret, E2, bind_Ret.
  split_and!; [done| |done|done]. constructor; try done.
  - by rewrite P4, V4, V5.
  - intros n. rewrite P5, V5. case_decide; [done|]. by apply V8.
  - by rewrite P6.
  - by rewrite P7.
  - by rewrite P8.
Qed.

(** ** The bodies *)

Lemma usable_said c l s : usable c s -> usable c (said l s).
Proof. done. Qed.

Lemma said_nil s : said [] s ≈ s.
Proof. split. destruct s as [? []]. unfold said, view; cbn. by rewrite app_nil_r. Qed.

Lemma receive_visits {X} (rx_cb : X -> list Z -> X * Z) :
  visits (fun _ => []) None (exists t, recv_res k t = RV_data [])
    (fun x n s => '((x, _), s) ← with_node n (fun ctx s =>
         '(ctx, x, _, s) ← service_reads k f64 junk fuel rx_cb ENDPOINT_SERVICE_MAX ctx x s;
         Ret (ctx, (x, 0), s)) s; Ret (x, s)).
Proof.
  intros x s n c Hi Hm Hl.
  destruct (with_node_ok (fun _ => []) (fun ctx s =>
         '(ctx, x, _, s) ← service_reads k f64 junk fuel rx_cb ENDPOINT_SERVICE_MAX ctx x s;
         Ret (ctx, (x, 0), s)) (fun b _ => b = false -> exists t, recv_res k t = RV_data []) s n c) as ([x' r] & s' & -> & Hm' & Hc); [|done..|].
  - intros s0 n0 c0 Hi0 Hm0 Hl0.
    destruct (service_reads_ok k f64 junk fuel Hk Hjunk rx_cb ENDPOINT_SERVICE_MAX c0 x s0 Hm0
                (live_usable _ _ _ Hi0 Hl0)) as (c1 & x1 & rc & s1 & -> & Hm1 & Hc).
    rewrite bind_Ret. eexists _, _, _. split; [reflexivity|]. split; [done|].
    destruct Hc as [[-> H]|(-> & H & ?)]; [left|right]; split_and!; try done. by rewrite H, said_nil.
  - rewrite bind_Ret. eexists _, _. split; [reflexivity|]. split; [done|].
    destruct Hc as [[H _]|[H Hw]]; [left|right]; (split; [done|]); [by intros []|].
    split; [done|by apply Hw].
Qed.

Lemma send_visits data :
  Z.of_nat (length data) <= INT_MAX ->
  visits (fun c => [(handle c, data)]) (Some (-1))
    (exists t e, send_res k t (length data) = SD_err e /\ e <> EINTR)
    (fun rc n s => '(_rc, s) ← with_node n (fun ctx s => send_impl k f64 junk fuel fuel 0 ctx data s) s;
                   Ret (if negb (_rc =? 0) then _rc else rc, s)).
Proof.
  intros Hlen rc s n c Hi Hm Hl.
  destruct (with_node_ok (fun c => [(handle c, data)])
              (fun ctx s => send_impl k f64 junk fuel fuel 0 ctx data s)
              (fun b r => r = (if b then 0 else -1) /\
                 (b = false -> exists t e, send_res k t (length data) = SD_err e /\ e <> EINTR)) s n c) as (r & s' & -> & Hm' & Hc); [|done..|].
  - intros s0 n0 c0 Hi0 Hm0 Hl0.
    destruct (send_impl_n k f64 junk fuel Hk Hjunk fuel 0 c0 data s0) as (c1 & r & s1 & -> & Hm1 & Hc);
      [by apply Hk|split; vm_compute; congruence|done|by eapply live_usable|done|].
    eexists _, _, _. split; [reflexivity|]. split; [done|].
    destruct Hc as [(-> & -> & _ & H)|(-> & -> & H & Hw)]; [left|right]; split_and!; try done.
    intros _. apply Hw. by destruct (live_fields _ _ _ Hi0 Hl0) as (_ & _ & ? & _).
  - rewrite bind_Ret. eexists _, _. split; [reflexivity|]. split; [done|].
    destruct Hc as [[H [-> _]]|[H [-> Hw]]]; [left|right]; split_and?; try done. by apply Hw.
Qed.

(** ** The event handlers *)

Lemma uv_loop_status_remove u e st r : uv_loop_status u e = (st, r) ->
  has st LOOP_ERROR || has st LOOP_DISCONNECTED = r.
Proof.
  unfold uv_loop_status. destruct (u <? 0), (has e UV_READABLE), (has e UV_DISCONNECT);
    intros [= <- <-]; reflexivity.
Qed.

Lemma settled_veq s s' : s ≈ s' -> mgood s' -> settled s -> settled s'.
Proof.
  intros H Hm (Hi & _ & Hr). split_and!; [by rewrite <-H|done|].
  by rewrite <-(veq_proj (fun s => removed_nodes (ept s)) _ _ (fun _ => eq_refl) H).
Qed.

Lemma drop_order n c s : node c = Some n -> recorded (Some n) (stored n (gone c) (torn c s)) = dropped n c s.
Proof.
  intros Hn. unfold dropped, torn. rewrite Hn. destruct (poll_handle c); cbn [unpolled];
    destruct (handle c =? -1); reflexivity.
Qed.

(** The end of a connection reported by the loop: client [n] and nothing else goes. *)
Lemma disconnect_ok n c p s s0 status :
  settled s -> live s n c -> poll_handle c = Some p -> mgood s0 -> s0 ≈ s ->
  has status LOOP_ERROR || has status LOOP_DISCONNECTED = true ->
  exists s', handle_client_wake k f64 junk fuel n status s0 = Ret s' /\ settled s' /\
    client_nodes (ept s') = filter (fun m => m <> n) (client_nodes (ept s)) /\
    fds (os s') = fds (os s) ∖ {[handle c]} /\ sent (os s') = sent (os s) /\ fixed s' = fixed s /\
    (forall m, heap (os s') !! m = if decide (m = n) then None else heap (os s) !! m).
Proof.
  intros (Hi & Hm & Hr) Hl Hp Hm0 H0 Hst.
  destruct (live_fields s n c Hi Hl) as (Hn & Hh & _ & _ & _ & p' & Hp' & _).
  assert (Hh0 : heap (os s0) !! n = Some c).
  { rewrite (veq_proj (fun s => heap (os s)) _ _ (fun _ => eq_refl) H0). apply Hl. }
  unfold handle_client_wake. rewrite Hh0. cbn [of_option]. rewrite bind_Ret.
  destruct (upd_ok f64 MI.wakes_per_s junk s0 Hm0 Hjunk) as (s1 & -> & H1 & Hm1 & Ho1).
  rewrite bind_Ret, Hst.
  destruct (upd_ok f64 MI.disconnect_count junk s1 Hm1 Hjunk) as (s2 & -> & H2 & Hm2 & Ho2).
  rewrite bind_Ret. unfold with_node. rewrite Ho2, Ho1, Hh0. cbn [of_option]. rewrite bind_Ret.
  destruct (teardown_ok k fuel Hk c s2) as (s3 & -> & H3 & E3).
  { eapply usable_veq; [|by eapply live_usable]. by rewrite H2, H1, H0. }
  rewrite !bind_Ret. change (set_os s3 _) with (stored n (gone c) s3).
  assert (Hm3 : mgood s3) by (unfold mgood in *; by rewrite E3).
  destruct (record_ok f64 (gone c) (stored n (gone c) s3)) as (s4 & E4 & H4 & Hm4 & _).
  { done. }
  { cbn. rewrite Hn. intros ? [= <-]. rewrite lookup_insert_eq. by eexists. }
  unfold record_ctx in E4. cbn [node gone] in E4, H4. rewrite Hn in E4, H4. rewrite E4, bind_Ret.
  assert (Hd : s4 ≈ dropped n c s).
  { rewrite H4, H3, H2, H1, H0, drop_order; done. }
  assert (Hi4 : inv s4) by (rewrite Hd; by apply inv_dropped).
  unfold process_removed_clients.
  destruct (process_removed_ok (removed_nodes (ept s4)) s4 Hi4 Hm4 eq_refl) as (s5 & -> & P).
  exists s5. split; [done|]. destruct P as [P1 P2 P3 P4 P5 P6 P7 P8]. split; [done|].
  rewrite P4, P6, P7, P8, (fixed_veq _ _ Hd), fixed_dropped.
  rewrite (veq_proj (fun s => removed_nodes (ept s)) _ _ (fun _ => eq_refl) Hd).
  rewrite (veq_proj (fun s => client_nodes (ept s)) _ _ (fun _ => eq_refl) Hd).
  rewrite (veq_proj (fun s => fds (os s)) _ _ (fun _ => eq_refl) Hd).
  rewrite (veq_proj (fun s => sent (os s)) _ _ (fun _ => eq_refl) Hd).
  rewrite (dropped_eq s n c p Hn Hp Hh). cbn. rewrite Hr. split_and!; [|done..|].
  - apply list_filter_iff. intros x. by rewrite list_elem_of_singleton.
  - intros m. rewrite P5. rewrite (veq_proj (fun s => removed_nodes (ept s)) _ _ (fun _ => eq_refl) Hd).
    rewrite (veq_proj (fun s => heap (os s)) _ _ (fun _ => eq_refl) Hd), (dropped_eq s n c p Hn Hp Hh). cbn.
    rewrite Hr. destruct (decide (m = n)) as [->|Hne].
    + by rewrite decide_True by (by left).
    + rewrite decide_False by (by rewrite list_elem_of_singleton). by rewrite lookup_insert_ne.
Qed.

(** A client that is ready for reading wakes the server, or is drained by a PUB server. *)
Lemma client_ready_ok n c s status :
  settled s -> live s n c -> has status LOOP_ERROR || has status LOOP_DISCONNECTED = false ->
  (ept_type (ept s) = PK_ENDPOINT_PUB_SERVER -> forall t, recv_res k t <> RV_data []) ->
  exists s', handle_client_wake k f64 junk fuel n status s = Ret s' /\ settled s' /\
    client_nodes (ept s') = client_nodes (ept s) /\ fds (os s') = fds (os s) /\
    sent (os s') = sent (os s) /\ attached s' = attached s /\ heap (os s') = heap (os s).
Proof.
  intros (Hi & Hm & Hr) Hl Hst Hdis. unfold handle_client_wake. rewrite (proj1 Hl). cbn [of_option].
  rewrite bind_Ret. destruct (upd_ok f64 MI.wakes_per_s junk s Hm Hjunk) as (s1 & -> & H1 & Hm1 & Ho1).
  rewrite bind_Ret, Hst.
  assert (Hs1 : settled s1) by (by eapply (settled_veq s); [symmetry| |]).
  assert (Hsame : forall s', s' ≈ s1 -> mgood s' -> settled s' /\
    client_nodes (ept s') = client_nodes (ept s) /\ fds (os s') = fds (os s) /\
    sent (os s') = sent (os s) /\ attached s' = attached s /\ heap (os s') = heap (os s)).
  { intros s' H Hm'. rewrite H1 in H. split; [by eapply (settled_veq s); [symmetry| |]|].
    split_and!; [exact (veq_proj (fun s => client_nodes (ept s)) _ _ (fun _ => eq_refl) H)
      |exact (veq_proj (fun s => fds (os s)) _ _ (fun _ => eq_refl) H)
      |exact (veq_proj (fun s => sent (os s)) _ _ (fun _ => eq_refl) H)
      |exact (veq_proj attached _ _ (fun _ => eq_refl) H)
      |exact (veq_proj (fun s => heap (os s)) _ _ (fun _ => eq_refl) H)]. }
  destruct (has status LOOP_READ && bool_decide (ept_type (ept s1) = PK_ENDPOINT_PUB_SERVER)) eqn:Ed.
  - apply andb_prop in Ed as [_ Et%bool_decide_eq_true].
    rewrite (veq_proj (fun s => ept_type (ept s)) _ _ (fun _ => eq_refl) H1) in Et. specialize (Hdis Et).
    set (s2 := if warned_on_discard (ept s1) then s1 else _). cbv zeta.
    assert (H2 : s2 ≈ s1) by (subst s2; by destruct (warned_on_discard _)).
    assert (Hm2 : mgood s2) by (subst s2; by destruct (warned_on_discard _)).
    assert (Hl2 : live s2 n c) by (eapply live_veq; [|exact Hl]; by rewrite H2, H1).
    unfold with_node. rewrite (proj1 Hl2). cbn [of_option]. rewrite bind_Ret.
    unfold discard_read_data.
    destruct (upd_ok f64 MI.read_discard_count junk s2 Hm2 Hjunk) as (s3 & -> & H3 & Hm3 & Ho3). rewrite bind_Ret.
    destruct (discard_loop_ok k f64 junk fuel Hk Hjunk ENDPOINT_SERVICE_MAX c PK_ENDPOINT_RECV_BUF_SIZE s3)
      as (s4 & -> & Hm4 & H4); [done|vm_compute; lia|done| |].
    { eapply usable_veq; [|by eapply live_usable]. by rewrite H3, H2, H1. }
    rewrite !bind_Ret. eexists. split; [reflexivity|]. apply Hsame; [|done].
    change (set_os s4 _) with (stored n c s4). rewrite stored_same; [by rewrite H4, H3, H2|].
    rewrite H3, H2, H1 in H4. by rewrite (veq_proj (fun s => heap (os s)) _ _ (fun _ => eq_refl) H4), (proj1 Hl).
  - destruct (woke (ept s1)) eqn:Ew; [by exists s1; split; [done|]; apply Hsame|].
    eexists. split; [reflexivity|]. destruct Hs1 as (Hi1 & _ & Hr1). split_and!; [split_and!| | | | |].
    + destruct Hi1 as [I1 I2 I3 I4 I5 I6 I7 I8 I0 I9 I10 I11 I12 I13 I14]. constructor; try done.
      cbn. rewrite I14, Ew. done.
    + done.
    + done.
    + exact (veq_proj (fun s => client_nodes (ept s)) _ _ (fun _ => eq_refl) H1).
    + exact (veq_proj (fun s => fds (os s)) _ _ (fun _ => eq_refl) H1).
    + exact (veq_proj (fun s => sent (os s)) _ _ (fun _ => eq_refl) H1).
    + exact (veq_proj attached _ _ (fun _ => eq_refl) H1).
    + exact (veq_proj (fun s => heap (os s)) _ _ (fun _ => eq_refl) H1).
Qed.

(** A new connection becomes the first client of the list. *)
Definition accepted (fd : Z) (s : state) : state :=
  let n := next_id (os s) in
  mk_state (ept_clients (ept s) (n :: client_nodes (ept s)) (removed_nodes (ept s)) (client_count (ept s) + 1))
    (mk_sys (tick (os s)) (<[n := mk_ctx fd (Some (S n)) (Some n)]> (heap (os s))) (S (S n))
       ({[fd]} ∪ fds (os s)) (<[S n := Some n]> (polls (os s))) (timers (os s)) (wake_counter (os s))
       (sent (os s)) (closes (os s)) (eagain_calls (os s)) (sleeps (os s))).

#[export] Instance accepted_proper fd : Proper (veq ==> veq) (accepted fd).
Proof. veq_solve. Qed.

Lemma inv_accepted fd s : inv s -> removed_nodes (ept s) = [] -> 0 <= fd -> fd ∉ fds (os s) -> inv (accepted fd s).
Proof.
  intros [I1 I2 I3 I4 I5 I6 I7 I8 I0 I9 I10 I11 I12 I13 I14] Hr Hpos Hfd.
  set (n := next_id (os s)).
  assert (Hn : heap (os s) !! n = None).
  { destruct (heap (os s) !! n) as [c|] eqn:E; [|done]. destruct (I6 n c E) as (_ & ? & _). subst n. lia. }
  assert (Hlt : forall m c, heap (os s) !! m = Some c -> m <> n) by (intros m c H ->; congruence).
  assert (Hp : forall p w, polls (os s) !! p = Some w -> p <> S n) by (intros p w H%I9 ->; subst n; lia).
  constructor; cbn; fold n; rewrite ?Hr in *.
  - constructor; [|done]. intros [c Hc]%I5. congruence.
  - constructor.
  - intros m []%elem_of_nil.
  - rewrite I4. cbn. lia.
  - intros m. rewrite elem_of_cons, I5. destruct (decide (m = n)) as [->|Hne].
    + rewrite lookup_insert_eq. split; [by eexists|by left].
    + rewrite lookup_insert_ne by done. split; [by intros [?|?]|by right].
  - intros m c. unfold node_ok; cbn. fold n. rewrite Hr. rewrite decide_False by apply not_elem_of_nil.
    rewrite lookup_insert_Some. intros [[<- <-]|[Hne Hc]]; cbn.
    + split_and!; [done|lia|done|set_solver|by intros ->; apply Hfd, I10|by intros ->; apply Hfd, I11|].
      eexists. split; [done|]. by rewrite lookup_insert_eq.
    + destruct (I6 m c Hc) as (H1 & H2 & H3). rewrite Hr, decide_False in H3 by apply not_elem_of_nil.
      destruct H3 as (?&?&?&?&q&?&Hq). split_and!; [done|lia|done|set_solver|done|done|].
      exists q. split; [done|]. rewrite lookup_insert_ne; [done|]. intros <-. by apply (Hp _ _ Hq).
  - intros n1 n2 c1 c2. rewrite !lookup_insert_Some.
    intros [[<- <-]|[? H1]] [[<- <-]|[? H2]]; cbn; try done.
    + intros _ ->. destruct (I6 n2 c2 H2) as (_ & _ & H3). rewrite Hr, decide_False in H3 by apply not_elem_of_nil.
      destruct Hfd. apply H3.
    + intros _ <-. destruct (I6 n1 c1 H1) as (_ & _ & H3). rewrite Hr, decide_False in H3 by apply not_elem_of_nil.
      destruct Hfd. apply H3.
    + by apply (I7 n1 n2).
  - intros p m. rewrite lookup_insert_Some. intros [[<- [= <-]]|[_ Hq]].
    + eexists. by rewrite lookup_insert_eq.
    + destruct (I8 p m Hq) as (c & Hc & ?). exists c. split; [|done].
      rewrite lookup_insert_ne; [done|]. by apply not_eq_sym, (Hlt _ _ Hc).
  - intros p. rewrite lookup_insert_Some. split; [intros [[_ ?]|[_ Hq]]; [done|by apply I0]|].
    intros Hq%I0. right. split; [by apply not_eq_sym, (Hp _ _ Hq)|done].
  - intros p w. rewrite lookup_insert_Some. intros [[<- _]|[_ Hq%I9]]; lia.
  - set_solver.
  - set_solver.
  - done.
  - done.
  - done.
Qed.

Lemma closed_opened fd s s' : s ≈ s' -> fd ∉ fds (os s') ->
  closed fd (set_os (step_tick s) (os_fds (os_tick (os s')) ({[fd]} ∪ fds (os s')) (closes (os_tick (os s'))))) ≈ s'.
Proof.
  intros H Hfd. assert (({[fd]} ∪ fds (os s')) ∖ {[fd]} = fds (os s')) as E by set_solver.
  revert H. destruct s as [[] []], s' as [[] []]. unfold closed; cbn in *. rewrite E.
  intros [H]. split. unfold view in *; cbn in *. simplify_eq. reflexivity.
Qed.

Definition refuses (status : Z) : bool := negb (has status LOOP_READ) && negb (status =? LOOP_SUCCESS).

(** [accept_wake_handler] when accepting and polling succeed. *)
Lemma accept_handler_ok status s :
  settled s -> (forall t, accept_ok k t = true) -> (forall t, poll_add_ok k t = true) ->
  exists s', accept_wake_handler k f64 junk fuel status s = Ret s' /\ settled s' /\
    s' ≈ (if refuses status || negb (malloc_ok k (now s)) then s else accepted (alloc_fd (fds (os s))) s).
Proof.
  intros Hset Hacc Hpoll. destruct (Hset) as (Hi & Hm & Hr). unfold accept_wake_handler.
  destruct (upd_ok f64 MI.accept_count junk s Hm Hjunk) as (s1 & -> & H1 & Hm1 & Ho1). rewrite bind_Ret.
  fold (refuses status). destruct (refuses status).
  { destruct (upd_ok f64 MI.accept_error junk s1 Hm1 Hjunk) as (s2 & -> & H2 & Hm2 & Ho2).
    rewrite H1 in H2. exists s2. split_and!; [done|by eapply (settled_veq s); [symmetry| |]|done]. }
  replace (now s1) with (now s) by (unfold now; by rewrite Ho1). cbn [orb].
  set (fd := alloc_fd (fds (os s))).
  assert (Hfd : fd ∉ fds (os s)) by apply alloc_fd_fresh.
  destruct (malloc_ok k (now s)); cbn [negb].
  - unfold pk_endpoint_accept, open_fd. rewrite Hacc. cbv zeta. cbn [os set_os set_ept step_tick os_tick fds].
    rewrite Ho1. fold fd. cbn.
    match goal with |- context [upd f64 MI.client_count ?v ?x] =>
      destruct (upd_ok f64 MI.client_count v x Hm1 (s32_word64 _)) as (s3 & -> & H3 & Hm3 & Ho3) end.
    rewrite bind_Ret. unfold pk_loop_poll_add. pose proof (alloc_fd_pos (fds (os s))) as Hpos. fold fd in Hpos.
    rewrite (proj2 (Z.ltb_ge _ _) Hpos), Hpoll, bind_Ret. cbv zeta. eexists. split; [reflexivity|].
    match goal with |- settled ?x /\ _ => assert (Hv : x ≈ accepted fd s) end.
    { clear -H1 H3. clearbody fd. destruct H1 as [H1], H3 as [H3]. split. unfold view, accepted in *.
      destruct s3 as [[] []], s1 as [[] []], s as [[] []]. cbn in *. simplify_eq.
      by rewrite insert_insert_eq. }
    split; [|done]. eapply settled_veq; [symmetry; exact Hv|done|].
    split_and!; [by apply inv_accepted|done|done].
  - unfold pk_endpoint_accept, open_fd. rewrite Hacc. cbv zeta. cbn [os set_os step_tick os_tick fds].
    rewrite Ho1. fold fd. set (s2 := set_os _ _).
    destruct (retry_shutdown k fd fuel s2) as (b1 & s3 & -> & H3 & E3); [apply Hk|]. rewrite bind_Ret.
    destruct (retry_close k fd fuel s3) as (b2 & s4 & -> & H4 & E4); [apply Hk|]. rewrite bind_Ret.
    assert (Hm4 : mgood s4) by (unfold mgood in *; by rewrite E4, E3).
    destruct (upd_ok f64 MI.accept_error junk s4 Hm4 Hjunk) as (s5 & -> & H5 & Hm5 & Ho5).
    exists s5. split; [done|].
    assert (s5 ≈ s) as H.
    { rewrite H5, H4, H3. apply (closed_opened fd s1 s); [done|done]. }
    split; [by eapply (settled_veq s); [symmetry| |]|done].
Qed.

(** ** Descriptors

    [F] are the descriptors of the rest of the process: what is open besides them is the
    endpoint's own. *)

Definition owns (F : gset Z) (s : state) : Prop :=
  (forall fd, fd ∈ fds (os s) <-> fd ∈ F \/ fd = sock (ept s) \/ fd = wakefd (ept s) \/
     exists n c, heap (os s) !! n = Some c /\ handle c = fd) /\
  (sock (ept s) ∉ F) /\ (wakefd (ept s) ∉ F) /\ (forall n c, heap (os s) !! n = Some c -> handle c ∉ F).

Lemma settled_handle s n c : settled s -> heap (os s) !! n = Some c ->
  0 <= handle c /\ handle c <> sock (ept s) /\ handle c <> wakefd (ept s).
Proof.
  intros (Hi & Hm & Hr) Hc. assert (live s n c) as Hl by (split; [done|rewrite Hr; apply not_elem_of_nil]).
  destruct (live_fields s n c Hi Hl) as (_ & ? & _ & ? & ? & _). done.
Qed.

Lemma owns_drop F (d : list nat) s s' :
  settled s -> owns F s -> attached s' = attached s ->
  (forall n, heap (os s') !! n = if decide (n ∈ d) then None else heap (os s) !! n) ->
  (forall fd, fd ∈ fds (os s') <->
    fd ∈ fds (os s) /\ ~ exists n c, n ∈ d /\ heap (os s) !! n = Some c /\ handle c = fd) ->
  owns F s'.
Proof.
  intros Hs (HF & Hsk & Hwk & Hh) Ha Hheap Hfds.
  assert (sock (ept s') = sock (ept s) /\ wakefd (ept s') = wakefd (ept s)) as [E1 E2]
    by (unfold attached in Ha; by simplify_eq).
  unfold owns. rewrite E1, E2. split_and!; [|done|done|].
  - intros fd. rewrite Hfds, HF. split.
    + intros [[?|[?|[?|(n & c & Hc & Hf)]]] Hno]; [tauto..|]. do 3 right. exists n, c. split; [|done].
      rewrite Hheap, decide_False; [done|]. intros Hn. apply Hno. by exists n, c.
    + intros [H|[H|[H|(n & c & Hc & Hf)]]].
      * split; [tauto|]. intros (n & c & _ & Hc & <-). by apply (Hh n c).
      * split; [tauto|]. intros (n & c & _ & Hc & Hf). destruct (settled_handle s n c Hs Hc); naive_solver.
      * split; [tauto|]. intros (n & c & _ & Hc & Hf). destruct (settled_handle s n c Hs Hc); naive_solver.
      * rewrite Hheap in Hc. case_decide as Hn; [done|]. split; [do 3 right; by exists n, c|].
        intros (n' & c' & Hn' & Hc' & Hf'). destruct Hs as (Hi & Hs). apply Hn.
        rewrite (inv_inj s Hi n n' c c'); try done; [|congruence].
        destruct (settled_handle s n c (conj Hi Hs) Hc). done.
  - intros n c Hc. rewrite Hheap in Hc. case_decide; [done|]. by apply (Hh n c).
Qed.

Lemma owns_same F s s' : attached s' = attached s -> heap (os s') = heap (os s) ->
  fds (os s') = fds (os s) -> owns F s -> owns F s'.
Proof.
  intros Ha Hh Hf. assert (sock (ept s') = sock (ept s) /\ wakefd (ept s') = wakefd (ept s)) as [E1 E2]
    by (unfold attached in Ha; by simplify_eq).
  unfold owns. by rewrite E1, E2, Hh, Hf.
Qed.

Lemma owns_veq F s s' : s' ≈ s -> owns F s -> owns F s'.
Proof.
  intros H. apply owns_same.
  - exact (veq_proj attached _ _ (fun _ => eq_refl) H).
  - exact (veq_proj (fun s => heap (os s)) _ _ (fun _ => eq_refl) H).
  - exact (veq_proj (fun s => fds (os s)) _ _ (fun _ => eq_refl) H).
Qed.

Lemma owns_accepted F fd s : settled s -> owns F s -> fd ∉ fds (os s) -> owns F (accepted fd s).
Proof.
  intros (Hi & _ & _) (HF & Hsk & Hwk & Hh) Hfd.
  assert (Hn : heap (os s) !! next_id (os s) = None).
  { destruct (heap (os s) !! _) as [c|] eqn:E; [|done]. destruct (inv_node s Hi _ c E) as (_ & ? & _). lia. }
  split_and!; [|done|done|]; cbn.
  - intros x. rewrite elem_of_union, elem_of_singleton, HF. split.
    + intros [->|[?|[?|[?|(n & c & Hc & Hx)]]]]; [|tauto..|].
      * do 3 right. eexists _, _. by rewrite lookup_insert_eq.
      * do 3 right. exists n, c. rewrite lookup_insert_ne; [done|]. intros <-. congruence.
    + intros [?|[?|[?|(n & c & Hc & Hx)]]]; [tauto..|].
      apply lookup_insert_Some in Hc as [[_ <-]|[_ Hc]]; [by left|]. right; do 3 right. by exists n, c.
  - intros n c [[_ <-]|[_ Hc]]%lookup_insert_Some; [|by apply (Hh n c)]. cbn. intros Hx. apply Hfd, HF. by left.
Qed.

Lemma served_attached m d s s' : served m d s s' -> attached s' = attached s.
Proof. intros H. exact (f_equal (fun x => x.1.1.1.1) (se_fixed _ _ _ _ H)). Qed.

Lemma served_owns F m d s s' : settled s -> owns F s -> served m d s s' -> owns F s'.
Proof.
  intros Hs Ho H. eapply owns_drop; [done..|by eapply served_attached|apply H|apply H].
Qed.

(** ** Every event *)

Definition is_server (t : pk_endpoint_type) : Prop :=
  t = PK_ENDPOINT_PUB_SERVER \/ t = PK_ENDPOINT_SUB_SERVER \/ t = PK_ENDPOINT_REP.

(** Sending on a SUB server is refused by an assertion, and so is a message over 2 GiB.  An error
    on the listening socket, whose poller is [sp], makes the loop free the poller that the endpoint
    keeps ([accept_error_dangles]). *)
Definition event_ok (t : pk_endpoint_type) (sp : option nat) (ev : event) : Prop :=
  match ev with
  | Ev_send data => t <> PK_ENDPOINT_SUB_SERVER /\ Z.of_nat (length data) <= INT_MAX
  | Ev_poll p uv_status events => sp = Some p -> snd (uv_loop_status uv_status events) = false
  | _ => True
  end.

(** The poller of a client that has gone is not in the loop. *)
Lemma unpoll_gone n p s s' :
  settled s -> settled s' -> polls (os s) !! p = Some (Some n) -> attached s' = attached s ->
  (forall m, heap (os s') !! m = if decide (m = n) then None else heap (os s) !! m) -> unpoll p s' = s'.
Proof.
  intros Hs Hs' Hp Ha Hh. destruct (polls (os s') !! p) as [[m|]|] eqn:E.
  - exfalso. destruct (inv_poll s' (proj1 Hs') p m E) as (d & Hd & Hdp). rewrite Hh in Hd. case_decide; [done|].
    destruct (inv_node s (proj1 Hs) m d Hd) as (_ & _ & H'). rewrite (proj2 (proj2 Hs)), decide_False in H'
      by apply not_elem_of_nil. destruct H' as (_ & _ & _ & _ & q & Hq & Hqm). congruence.
  - exfalso. apply (inv_server s' (proj1 Hs')) in E. unfold attached in Ha. simplify_eq.
    assert (polls (os s) !! p = Some None) by (apply (inv_server s (proj1 Hs)); congruence). congruence.
  - unfold unpoll. rewrite delete_id by done. by destruct s' as [? []].
Qed.

Lemma poll_event_ok F p u ev s :
  settled s -> owns F s -> event_ok (ept_type (ept s)) (ept_poll (ept s)) (Ev_poll p u ev) ->
  (forall t, accept_ok k t = true) -> (forall t, poll_add_ok k t = true) ->
  (ept_type (ept s) = PK_ENDPOINT_PUB_SERVER -> forall t, recv_res k t <> RV_data []) ->
  exists s', uv_loop_poll_handler k f64 junk fuel p u ev s = Ret s' /\ settled s' /\ owns F s' /\
    attached s' = attached s.
Proof.
  intros Hs Ho Hev Hacc Hpoll Hdis. unfold uv_loop_poll_handler.
  destruct (polls (os s) !! p) as [[n|]|] eqn:Ep; [| |by exists s].
  - destruct (uv_loop_status u ev) as [st r] eqn:Est. apply uv_loop_status_remove in Est.
    destruct (inv_poll s (proj1 Hs) p n Ep) as (c & Hc & Hcp).
    assert (Hl : live s n c) by (split; [done|rewrite (proj2 (proj2 Hs)); apply not_elem_of_nil]).
    destruct r.
    + destruct (disconnect_ok n c p s s st) as (s' & -> & Hs' & _ & Hf & _ & Hfix & Hheap);
        [done..|by destruct Hs as (_ & ? & _)|done|done|].
      assert (attached s' = attached s) as Ha by exact (f_equal (fun x => x.1.1.1.1) Hfix).
      rewrite bind_Ret, (unpoll_gone n p s s') by done.
      exists s'. split; [done|]. split; [done|].
      split; [|done]. eapply (owns_drop F [n] s); [done..| |].
      * intros m. rewrite Hheap. repeat case_decide; try done; subst.
        -- by destruct H0; left.
        -- by apply list_elem_of_singleton in H0.
      * intros fd. rewrite Hf, elem_of_difference, elem_of_singleton. split; intros [H1 H2]; (split; [done|]).
        -- intros (m & c' & ->%list_elem_of_singleton & Hc' & <-). congruence.
        -- intros ->. apply H2. exists n, c. split_and!; [by left|done..].
    + destruct (client_ready_ok n c s st) as (s' & -> & Hs' & _ & Hf & _ & Ha & Hheap); [done..|].
      rewrite bind_Ret. exists s'. split_and!; [done|done| |done]. by eapply owns_same.
  - destruct (uv_loop_status u ev) as [st r] eqn:Est.
    cbn [event_ok] in Hev. rewrite Est in Hev. cbn [snd] in Hev.
    rewrite Hev by (by apply (inv_server s (proj1 Hs))).
    destruct (accept_handler_ok st s Hs Hacc Hpoll) as (s' & -> & Hs' & H). rewrite bind_Ret.
    exists s'. split; [done|]. split; [done|]. split.
    + eapply owns_veq; [exact H|]. destruct (_ || _); [done|]. apply owns_accepted; [done..|apply alloc_fd_fresh].
    + rewrite (veq_proj attached _ _ (fun _ => eq_refl) H). by destruct (_ || _).
Qed.

Lemma flush_mgood clock s : mgood s -> mgood (flush_endpoint_metrics f64 clock s) /\ flush_endpoint_metrics f64 clock s ≈ s.
Proof.
  intros Hm. unfold flush_endpoint_metrics, mgood in *. destruct (metrics (ept s)) as [m|] eqn:E; [|by rewrite E].
  split; [|done].
  destruct (pk_metrics_reset_wf clock (pk_metrics_flush f64 m) MI.wakes_per_s) as (m' & st & E' & Hwf);
    [by apply pk_metrics_flush_wf|].
  cbn -[pk_metrics_reset]. by rewrite E'.
Qed.

Lemma receive_ok {X} (rx_cb : X -> list Z -> X * Z) x s :
  settled s -> is_server (ept_type (ept s)) ->
  exists x' rc s' d, pk_endpoint_receive k f64 junk fuel rx_cb x s = Ret (x', rc, s') /\ settled s' /\
    attached s' = attached s /\
    ((s' = s /\ rc = -1 /\ x' = x /\ (valid_socket_type_for_read (ept_type (ept s)) = false \/ woke (ept s) = false)) \/
     (rc = 0 /\ woke (ept s) = true /\ woke (ept s') = false /\
      served (fun _ => []) d (set_ept (set_os s (os_wake (os s) 0)) (ept_woke (ept s) false)) s' /\
      (d <> [] -> exists t, recv_res k t = RV_data []))).
Proof.
  intros Hs Ht. destruct (Hs) as (Hi & Hm & Hr). unfold pk_endpoint_receive. rewrite (inv_nonblock s Hi). cbn [negb].
  unfold read_and_receive_common.
  destruct (valid_socket_type_for_read (ept_type (ept s))) eqn:Ev; cbn [negb].
  2: { exists x, (-1), s, []. split_and!; try done. left. split_and!; try done. by left. }
  assert (Hgo : forall (A : Type) (a b : A), match ept_type (ept s) with PK_ENDPOINT_SUB_SERVER | PK_ENDPOINT_REP => a | _ => b end = a)
    by (intros; destruct Ht as [E|[E|E]]; rewrite E in *; done).
  rewrite Hgo. destruct (inv_wakefd s Hi) as (_ & Hw & _). rewrite bool_decide_eq_true_2 by done. cbn [negb orb].
  pose proof (inv_wake s Hi) as Hwake. destruct (woke (ept s)) eqn:Ew; rewrite Hwake; cbn [Z.eqb Pos.eqb negb orb]; cbv zeta.
  2: { exists x, (-1), s, []. split_and!; try done. left. split_and!; try done. by right. }
  cbn [ept set_os]. rewrite Ew. cbn [negb orb].
  set (s0 := set_ept _ _).
  assert (Hs0 : settled s0).
  { split_and!; [|done|done]. destruct Hi as [I1 I2 I3 I4 I5 I6 I7 I8 I0 I9 I10 I11 I12 I13 I14]. by constructor. }
  destruct (foreach_client_ok (fun _ => []) None _ _ x s0 (receive_visits rx_cb) Hs0) as (x' & s' & d & E & Hsv & _ & Hwhy).
    rewrite E, bind_Ret. exists x', 0, s', d. split; [done|]. split; [apply Hsv|].
  split; [exact (served_attached _ _ _ _ Hsv)|]. right. split_and!; try done. exact (f_equal (fun x => x.1.2) (se_fixed _ _ _ _ Hsv)).
Qed.

Lemma send_ok data s :
  settled s -> ept_type (ept s) = PK_ENDPOINT_PUB_SERVER \/ ept_type (ept s) = PK_ENDPOINT_REP ->
  Z.of_nat (length data) <= INT_MAX ->
  exists rc s' d, pk_endpoint_send k f64 junk fuel data s = Ret (rc, s') /\
    served (fun c => [(handle c, data)]) d s s' /\ rc = match d with [] => 0 | _ => -1 end /\
    (d <> [] -> exists t e, send_res k t (length data) = SD_err e /\ e <> EINTR).
Proof.
  intros Hs Ht Hlen.
  destruct (foreach_client_ok _ (Some (-1)) _ _ 0 s (send_visits data Hlen) Hs) as (rc & s' & d & E & Hsv & Hrc & Hw).
  exists rc, s', d. unfold pk_endpoint_send. split; [by destruct Ht as [-> | ->]|done].
Qed.

(** ** Destruction *)

Definition purge1 (n : nat) (c : client_context_t) (s : state) : state :=
  let e := ept s in
  let s := torn c (set_ept s (ept_clients e (filter (fun m => m <> n) (client_nodes e)) (removed_nodes e)
                                (client_count e))) in
  set_os s (os_heap (os s) (delete n (heap (os s))) (next_id (os s))).

Lemma purge_any n c s :
  heap (os s) !! n = Some c -> poll_fine c s ->
  exists s', purge_client_node k fuel n s = Ret s' /\ s' ≈ purge1 n c s.
Proof.
  intros Hc Hp. unfold purge_client_node. rewrite Hc. cbn [of_option]. rewrite bind_Ret.
  set (s1 := set_ept s _). destruct (teardown_ok k fuel Hk c s1 Hp) as (s2 & -> & H2 & E2). rewrite bind_Ret.
  eexists. split; [reflexivity|]. unfold purge1. fold s1. clear -H2. generalize dependent (torn c s1).
  clear. revert s2. veq_solve.
Qed.

(** The descriptors and pollers of the clients [l]. *)
Definition handles_of (s : state) (l : list nat) (fd : Z) : Prop :=
  exists n c, n ∈ l /\ heap (os s) !! n = Some c /\ handle c = fd.
Definition polls_of (s : state) (l : list nat) (p : nat) : Prop :=
  exists n c, n ∈ l /\ heap (os s) !! n = Some c /\ poll_handle c = Some p.

Record purged_all (l : list nat) (s s' : state) : Prop := {
  pa_attached : attached s' = attached s;
  pa_heap : forall n, heap (os s') !! n = if decide (n ∈ l) then None else heap (os s) !! n;
  pa_fds : forall fd, 0 <= fd -> (fd ∈ fds (os s') <-> fd ∈ fds (os s) /\ ~ handles_of s l fd);
  pa_polls : forall p w, polls (os s') !! p = Some w <-> polls (os s) !! p = Some w /\ ~ polls_of s l p;
}.

Lemma torn_fields c s :
  attached (torn c s) = attached s /\ heap (os (torn c s)) = heap (os s) /\
  client_nodes (ept (torn c s)) = client_nodes (ept s) /\
  (forall fd, 0 <= fd -> (fd ∈ fds (os (torn c s)) <-> fd ∈ fds (os s) /\ fd <> handle c)) /\
  (forall p w, polls (os (torn c s)) !! p = Some w <-> polls (os s) !! p = Some w /\ poll_handle c <> Some p).
Proof.
  unfold torn. destruct (poll_handle c) as [q|]; cbn [unpolled];
    destruct (handle c =? -1) eqn:E; bool_hyps; cbn; split_and!; try done;
    try (intros fd Hfd; rewrite elem_of_difference, elem_of_singleton; tauto);
    try (intros fd Hfd; split; [intros; split; [done|lia]|tauto]);
    intros p w; rewrite ?lookup_delete_Some; split; intros; destruct_and?; split_and?; congruence.
Qed.

(** The poller of a client is its own. *)
Definition own_poller (s : state) (n : nat) (c : client_context_t) : Prop :=
  forall p, poll_handle c = Some p -> polls (os s) !! p = Some (Some n).

Lemma purge_all_ok l s :
  client_nodes (ept s) = l -> NoDup l -> (l <> [] -> is_Some (loop (ept s))) ->
  (forall n, n ∈ l -> exists c, heap (os s) !! n = Some c /\ own_poller s n c) ->
  exists s', purge_all k fuel (length l) s = Ret s' /\ purged_all l s s'.
Proof.
  revert s. induction l as [|n l IH]; intros s Hl Hnd Hloop Hh.
  { exists s. cbn [purge_all length]. rewrite Hl. split; [done|]. constructor; try done.
    - intros fd _. split; [|tauto]. intros. split; [done|]. by intros (? & ? & []%elem_of_nil & _).
    - intros p w. split; [|tauto]. intros. split; [done|]. by intros (? & ? & []%elem_of_nil & _). }
  apply NoDup_cons in Hnd as [Hn Hnd]. destruct (Hh n) as (c & Hc & Hcp); [by left|].
  destruct (purge_any n c s Hc) as (s1 & E1 & H1).
  { unfold poll_fine. destruct (poll_handle c) as [p|] eqn:Ep; [|done]. split; [by apply Hloop|].
    rewrite (Hcp p Ep). by eexists. }
  cbn [purge_all length]. rewrite Hl, E1, bind_Ret.
  assert (Hflt : filter (fun m => m <> n) (n :: l) = l).
  { rewrite filter_cons, decide_False by tauto. clear -Hn. induction l as [|x l IH]; [done|].
    rewrite elem_of_cons in Hn. rewrite filter_cons, decide_True by (intros ->; tauto). rewrite IH; tauto. }
  set (s0 := set_ept s (ept_clients (ept s) l (removed_nodes (ept s)) (client_count (ept s)))).
  unfold purge1 in H1. rewrite Hl, Hflt in H1. fold s0 in H1.
  destruct (torn_fields c s0) as (T1 & T2 & T3 & T4 & T5).
  pose proof (veq_proj (fun s => heap (os s)) _ _ (fun _ => eq_refl) H1) as V1.
  pose proof (veq_proj (fun s => fds (os s)) _ _ (fun _ => eq_refl) H1) as V2.
  pose proof (veq_proj (fun s => polls (os s)) _ _ (fun _ => eq_refl) H1) as V3.
  pose proof (veq_proj (fun s => client_nodes (ept s)) _ _ (fun _ => eq_refl) H1) as V4.
  pose proof (veq_proj attached _ _ (fun _ => eq_refl) H1) as V5.
  cbn in V1, V2, V3, V4. rewrite T2 in V1. rewrite T3 in V4. rewrite <-V2 in T4. rewrite <-V3 in T5.
  assert (V6 : attached s1 = attached s) by (rewrite V5; exact T1).
  destruct (IH s1) as (s2 & -> & [P1 P2 P3 P4]).
  { done. } { done. }
  { intros _. assert (loop (ept s1) = loop (ept s)) as -> by (unfold attached in V6; by simplify_eq). by apply Hloop. }
  { intros m Hm. rewrite V1, lookup_delete_ne by (intros <-; done). destruct (Hh m) as (d & Hd & Hdp); [by right|].
    exists d. split; [done|]. intros q Hq. apply T5. split; [by apply Hdp|]. intros Hcq.
    specialize (Hdp q Hq). specialize (Hcp q Hcq). by simplify_eq. }
  assert (Hs1 : forall m, m ∈ l -> heap (os s1) !! m = heap (os s) !! m).
  { intros m Hm. rewrite V1. apply lookup_delete_ne. intros <-. done. }
  exists s2. split; [done|]. constructor.
  - congruence.
  - intros m. rewrite P2. destruct (decide (m ∈ l)).
    + by rewrite decide_True by (by right).
    + destruct (decide (m = n)) as [->|Hne].
      * rewrite decide_True by (by left). rewrite V1. apply lookup_delete_eq.
      * rewrite decide_False by (by intros [?|?]%elem_of_cons). rewrite V1. by apply lookup_delete_ne.
  - intros fd Hfd. rewrite (P3 fd Hfd), (T4 fd Hfd). cbn. split.
    + intros [[H2 H3] H4]. split; [done|]. intros (m & d & [->|Hm]%elem_of_cons & Hd & Hx); [congruence|].
      apply H4. exists m, d. by rewrite Hs1.
    + intros [H2 H3]. split_and!; [done| |].
      * intros ->. apply H3. exists n, c. split_and!; [by left|done..].
      * intros (m & d & Hm & Hd & Hx). apply H3. exists m, d. rewrite <-Hs1 by done. split; [by right|done].
  - intros p w. rewrite (P4 p w), (T5 p w). cbn. split.
    + intros [[H2 H3] H4]. split; [done|]. intros (m & d & [->|Hm]%elem_of_cons & Hd & Hx); [congruence|].
      apply H4. exists m, d. by rewrite Hs1.
    + intros [H2 H3]. split_and!; [done| |].
      * intros Hp. apply H3. exists n, c. split_and!; [by left|done..].
      * intros (m & d & Hm & Hd & Hx). apply H3. exists m, d. rewrite <-Hs1 by done. split; [by right|done].
Qed.

(** An endpoint that can be destroyed: its nodes are allocated and its pollers have a loop. *)
Record destroyable (s : state) : Prop := {
  de_nodup : NoDup (client_nodes (ept s));
  de_heap : forall n, n ∈ client_nodes (ept s) -> exists c, heap (os s) !! n = Some c /\ own_poller s n c;
  de_poll : forall p, ept_poll (ept s) = Some p -> polls (os s) !! p = Some None;
  de_loop : client_nodes (ept s) <> [] \/ is_Some (ept_poll (ept s)) -> is_Some (loop (ept s));
}.

Record released (s : state) (o : sys) : Prop := {
  re_fds : forall fd, 0 <= fd ->
    (fd ∈ fds o <-> fd ∈ fds (os s) /\ fd <> sock (ept s) /\ fd <> wakefd (ept s) /\
                    ~ handles_of s (client_nodes (ept s)) fd);
  re_heap : forall n, heap o !! n = if decide (n ∈ client_nodes (ept s)) then None else heap (os s) !! n;
  re_polls : forall p w, polls o !! p = Some w <->
    polls (os s) !! p = Some w /\ (~ polls_of s (client_nodes (ept s)) p) /\ ept_poll (ept s) <> Some p;
  re_timers : timers o = from_option (fun t => timers (os s) ∖ {[t]}) (timers (os s)) (metrics_timer (ept s));
}.

(** Closing [fd] if it is one: [K] stands for what that leaves alone. *)
Lemma close_phase {T} (K : state -> T) fd (g : state -> state) s :
  (forall s, K (view s) = K s) -> (forall s, K (g s) = K s) -> (forall s, K (closed fd s) = K s) ->
  (forall s, fds (os (g s)) = fds (os s)) ->
  exists s', (if 0 <=? fd then '(_, s') ← retry_on_eintr fuel (close k fd) s; Ret (g s') else Ret s) = Ret s' /\
    K s' = K s /\ (forall x, 0 <= x -> (x ∈ fds (os s') <-> x ∈ fds (os s) /\ x <> fd)).
Proof.
  intros Kv Kg Kc Hg. destruct (0 <=? fd) eqn:E; bool_hyps.
  - destruct (retry_close k fd fuel s) as (b & s1 & -> & H & _); [apply Hk|]. rewrite bind_Ret.
    eexists. split; [reflexivity|]. rewrite Kg, (veq_proj K _ _ Kv H), Kc. split; [done|].
    intros x _. rewrite Hg, (veq_proj (fun s => fds (os s)) _ _ (fun _ => eq_refl) H). cbn.
    by rewrite elem_of_difference, elem_of_singleton.
  - exists s. split_and!; [done..|]. intros x Hx. split; [intros; split; [done|lia]|tauto].
Qed.

Lemma shutdown_phase (b : bool) fd s :
  exists s', (if b then '(_, s) ← retry_on_eintr fuel (shutdown k fd) s; Ret s else Ret s) = Ret s' /\ s' ≈ s.
Proof.
  destruct b; [|by exists s]. destruct (retry_shutdown k fd fuel s) as (b & s1 & -> & H & _); [apply Hk|].
  rewrite bind_Ret. by exists s1.
Qed.

(** The last phase: the server's poller and the metrics timer. *)
Lemma unpoll_phase s :
  (is_Some (ept_poll (ept s)) -> is_Some (loop (ept s))) ->
  (forall p, ept_poll (ept s) = Some p -> is_Some (polls (os s) !! p)) ->
  exists s', match ept_poll (ept s) with
    | None => Ret s
    | Some p => match loop (ept s) with None => Undef | Some _ => pk_loop_poll_remove p s end
    end = Ret s' /\ s' = unpolled (ept_poll (ept s)) s.
Proof.
  intros H Hp. destruct (ept_poll (ept s)) as [p|]; [|by eexists].
  destruct H as [l ->]; [by eexists|]. destruct (Hp p eq_refl) as [w Hw]. unfold pk_loop_poll_remove. rewrite Hw. by eexists.
Qed.

Definition without_timer (t : option nat) (s : state) : state :=
  match t with None => s | Some t => pk_loop_remove_handle t s end.

Lemma unpolled_fields p t s :
  fds (os (without_timer t (unpolled p s))) = fds (os s) /\
  heap (os (without_timer t (unpolled p s))) = heap (os s) /\
  timers (os (without_timer t (unpolled p s))) = from_option (fun t => timers (os s) ∖ {[t]}) (timers (os s)) t /\
  forall q w, polls (os (without_timer t (unpolled p s))) !! q = Some w <-> polls (os s) !! q = Some w /\ p <> Some q.
Proof.
  destruct p, t; cbn; split_and!; try done; intros q w; rewrite ?lookup_delete_Some;
    (split; intros; destruct_and?; split_and?; congruence).
Qed.

Definition kept (s : state) :=
  (client_nodes (ept s), heap (os s), polls (os s), timers (os s), loop (ept s), ept_poll (ept s),
   metrics_timer (ept s)).

Lemma destroy_ok s : destroyable s -> exists o, pk_endpoint_destroy k fuel s = Ret o /\ released s o.
Proof.
  intros [Hnd Hh Hpl Hloop]. unfold pk_endpoint_destroy. cbv zeta.
  destruct (shutdown_phase (started (ept s) && (0 <=? sock (ept s))) (sock (ept s)) s) as (s1 & -> & H1).
  rewrite bind_Ret.
  destruct (close_phase (fun s => (kept s, wakefd (ept s))) (sock (ept s))
    (fun s => set_ept s (ept_socks (ept s) (-1) (wakefd (ept s)) (started (ept s)))) s1)
    as (s2 & E2 & K2 & F2); [done..|]. cbn beta in E2, K2. rewrite E2, bind_Ret.
  rewrite (veq_proj kept _ _ (fun _ => eq_refl) H1) in K2.
  rewrite (veq_proj (fun s => wakefd (ept s)) _ _ (fun _ => eq_refl) H1) in K2.
  rewrite (veq_proj (fun s => fds (os s)) _ _ (fun _ => eq_refl) H1) in F2.
  unfold kept in K2. injection K2 as C2 Hp2 Po2 T2 L2 Ep2 M2 W2. clear E2 H1.
  destruct (purge_all_ok (client_nodes (ept s2)) s2) as (s3 & -> & [P1 P2 P3 P4]);
    [done|by rewrite C2|rewrite C2, L2; auto|unfold own_poller; rewrite C2, Hp2, Po2; exact Hh|]. rewrite bind_Ret.
  unfold attached in P1. injection P1 as A1 A2 A3 A4 A5 A6 A7 A8.
  destruct (close_phase kept (wakefd (ept s3))
    (fun s => set_ept s (ept_socks (ept s) (sock (ept s)) (-1) (started (ept s)))) s3)
    as (s4 & E4 & K4 & F4); [done..|]. cbn beta in E4. rewrite E4, bind_Ret.
  unfold kept in K4. injection K4 as C4 Hp4 Po4 T4 L4 Ep4 M4. clear E4.
  destruct (unpoll_phase s4) as (s5 & -> & ->).
  { rewrite L4, A5, L2, Ep4, A6, Ep2. auto. }
  { intros p. rewrite Ep4, A6, Ep2, Po4. intros Hp. exists None. apply P4. rewrite Po2. split; [by apply Hpl|].
    intros (n & c & Hn & Hc & Hcp). rewrite C2 in Hn. rewrite Hp2 in Hc. destruct (Hh n Hn) as (d & Hd & Hdp).
    simplify_eq. specialize (Hdp p Hcp). specialize (Hpl p Hp). congruence. }
  rewrite bind_Ret. eexists. split; [reflexivity|].
  assert (metrics_timer (ept (unpolled (ept_poll (ept s4)) s4)) = metrics_timer (ept s)) as ->
    by (destruct (ept_poll (ept s4)); cbn; congruence).
  change (match metrics_timer (ept s) with None => ?x | Some t => pk_loop_remove_handle t ?x end)
    with (without_timer (metrics_timer (ept s)) x).
  destruct (unpolled_fields (ept_poll (ept s4)) (metrics_timer (ept s)) s4) as (U1 & U2 & U3 & U4).
  constructor.
  - intros fd Hfd. rewrite U1, (F4 fd Hfd), (P3 fd Hfd), (F2 fd Hfd), A3, W2, C2. unfold handles_of. rewrite Hp2. tauto.
  - intros n. by rewrite U2, Hp4, P2, C2, Hp2.
  - intros p w. rewrite U4, Po4, P4, Po2, Ep4, A6, Ep2. unfold polls_of. rewrite C2, Hp2. tauto.
  - by rewrite U3, T4, A8, T2.
Qed.

(** ** Runs *)

Lemma handle_event_ok {X} (rx_cb : X -> list Z -> X * Z) F ev x s :
  settled s -> owns F s -> is_server (ept_type (ept s)) -> event_ok (ept_type (ept s)) (ept_poll (ept s)) ev ->
  (forall t, accept_ok k t = true) -> (forall t, poll_add_ok k t = true) ->
  (ept_type (ept s) = PK_ENDPOINT_PUB_SERVER -> forall t, recv_res k t <> RV_data []) ->
  exists x' s', handle_event k f64 junk fuel rx_cb ev x s = Ret (x', s') /\ settled s' /\ owns F s' /\
    attached s' = attached s.
Proof.
  intros Hs Ho Ht Hev Hacc Hpoll Hdis. destruct ev as [p u e| |data|clock]; cbn [handle_event].
  - destruct (poll_event_ok F p u e s Hs Ho Hev Hacc Hpoll Hdis) as (s' & -> & H). rewrite bind_Ret. by eexists _, _.
  - destruct (receive_ok rx_cb x s Hs Ht) as (x' & rc & s' & d & -> & Hs' & Ha & Hc). rewrite bind_Ret.
    eexists _, _. split; [reflexivity|]. split_and!; [done| |done].
    destruct Hc as [(-> & _)|(_ & _ & _ & Hsv & _)]; [done|].
    eapply served_owns; [| |exact Hsv]; [|by apply (owns_same F s)].
    destruct Hs as (Hi & Hm & Hr). split_and!; [|done|done].
    destruct Hi as [I1 I2 I3 I4 I5 I6 I7 I8 I0 I9 I10 I11 I12 I13 I14]. by constructor.
  - destruct Hev as [Hne Hlen]. destruct (send_ok data s Hs) as (rc & s' & d & -> & Hsv & _); [|done|].
    { destruct Ht as [?|[?|?]]; [by left|done|by right]. }
    rewrite bind_Ret. eexists _, _. split; [reflexivity|].
    split_and!; [apply Hsv|by eapply served_owns|by eapply served_attached].
  - destruct (flush_mgood clock s (proj1 (proj2 Hs))) as [Hm H]. eexists _, _. split; [reflexivity|].
    split_and!; [by eapply (settled_veq s); [symmetry| |]|by eapply owns_veq|].
    exact (veq_proj attached _ _ (fun _ => eq_refl) H).
Qed.

Lemma run_events_ok {X} (rx_cb : X -> list Z -> X * Z) F evs x s :
  settled s -> owns F s -> is_server (ept_type (ept s)) -> Forall (event_ok (ept_type (ept s)) (ept_poll (ept s))) evs ->
  (forall t, accept_ok k t = true) -> (forall t, poll_add_ok k t = true) ->
  (ept_type (ept s) = PK_ENDPOINT_PUB_SERVER -> forall t, recv_res k t <> RV_data []) ->
  exists x' s', run_events k f64 junk fuel rx_cb evs x s = Ret (x', s') /\ settled s' /\ owns F s' /\
    attached s' = attached s.
Proof.
  revert x s. induction evs as [|ev evs IH]; intros x s Hs Ho Ht Hev Hacc Hpoll Hdis; [by eexists _, _|].
  apply Forall_cons in Hev as [Hev Hevs].
  destruct (handle_event_ok rx_cb F ev x s) as (x1 & s1 & E & Hs1 & Ho1 & Ha1); [done..|].
  assert (ept_type (ept s1) = ept_type (ept s)) as Et by (unfold attached in Ha1; by simplify_eq).
  assert (ept_poll (ept s1) = ept_poll (ept s)) as Ep by (unfold attached in Ha1; by simplify_eq).
  destruct (IH x1 s1) as (x2 & s2 & E2 & Hs2 & Ho2 & Ha2); [by rewrite ?Et, ?Ep..|].
  exists x2, s2. cbn [run_events]. rewrite E, bind_Ret. by split_and!; [done..|rewrite Ha2].
Qed.

Lemma settled_destroyable s : settled s -> destroyable s.
Proof.
  intros (Hi & _ & Hr). constructor; [apply Hi| |intros p Hp; by apply Hi|intros _; apply Hi].
  intros n Hn. apply (inv_heap s Hi) in Hn as [c Hc]. exists c. split; [done|]. intros p Hp.
  destruct (inv_node s Hi n c Hc) as (_ & _ & H). rewrite Hr, decide_False in H by apply not_elem_of_nil.
  destruct H as (_ & _ & _ & _ & q & Hq & Hqn). by simplify_eq.
Qed.

(** Destroying a server returns the process to the descriptors [F]; nothing of it stays in the
    heap or in the loop. *)
Lemma settled_released F s o : settled s -> owns F s -> released s o ->
  (forall fd, 0 <= fd -> (fd ∈ fds o <-> fd ∈ F)) /\ heap o = ∅ /\ polls o = ∅.
Proof.
  intros Hs (HF & Hsk & Hwk & Hh) [R1 R2 R3 R4]. split_and!.
  - intros fd Hfd. rewrite (R1 fd Hfd), HF. split.
    + intros ([?|[?|[?|(n & c & Hc & Hx)]]] & H1 & H2 & H3); [done..|]. destruct H3. exists n, c.
      split; [|done]. apply (inv_heap s (proj1 Hs)). by exists c.
    + intros H. split_and!; [by left|congruence|congruence|]. intros (n & c & _ & Hc & <-). by apply (Hh n c).
  - apply map_eq. intros n. rewrite R2, lookup_empty. case_decide as Hn; [done|].
    destruct (heap (os s) !! n) as [c|] eqn:E; [|done]. destruct Hn. apply (inv_heap s (proj1 Hs)). by exists c.
  - apply map_eq. intros p. rewrite lookup_empty. destruct (polls o !! p) as [w|] eqn:E; [|done].
    apply R3 in E as (E & Hno & Hne). destruct w as [n|].
    + destruct (inv_poll s (proj1 Hs) p n E) as (c & Hc & Hp). destruct Hno. exists n, c.
      split; [apply (inv_heap s (proj1 Hs)); by exists c|done].
    + by destruct Hne; apply (inv_server s (proj1 Hs)).
Qed.

(** ** Creation *)

Lemma connect_loop_ok n r a b s : exists ok s', connect_loop k n r a b s = (ok, s') /\ s' ≈ s /\ ept s' = ept s.
Proof.
  revert r s. induction n as [|n IH]; intros r s; cbn [connect_loop]; set (s1 := if (0 <? r)%nat then _ else _).
  - assert (s1 ≈ s /\ ept s1 = ept s) as [H E] by (subst s1; by destruct (0 <? r)%nat).
    eexists _, _. split; [reflexivity|]. split; [by rewrite step_tick_veq|done].
  - assert (s1 ≈ s /\ ept s1 = ept s) as [H E] by (subst s1; by destruct (0 <? r)%nat).
    destruct (_ || _); [eexists _, _; split; [reflexivity|]; split; [by rewrite step_tick_veq|done]|].
    destruct (IH (S r) (step_tick s1)) as (ok & s2 & -> & H2 & E2). eexists _, _. split; [reflexivity|].
    split; [by rewrite H2, step_tick_veq|by rewrite E2].
Qed.

Lemma endpoint_metrics_wf menv mok i m idx :
  pk_metrics_setup f64 menv mok (Some "endpoint"%string) i endpoint_metrics_table = Some (m, idx) -> metrics_wf m.
Proof.
  unfold pk_metrics_setup. destruct mok; cbn [negb]; [|done]. intros H.
  apply setup_loop_spec in H as (Hl & _ & ds & -> & Hf); [|vm_compute; lia].
  split; [done|]. cbn [app length] in *. clear Hl.
  assert (Forall (fun t => te_updater t <> pk_metrics_updater_average /\ te_reseter t = pk_metrics_reset_default /\
      entry_kind_ok (te_type t) (te_updater t) = true)
    endpoint_metrics_table) as Ht by (repeat constructor; done).
  revert Ht Hf. generalize (length ds) endpoint_metrics_table. intros n table Ht Hf. revert Ht.
  induction Hf as [|t d table ds (H1 & H2 & H3 & H4 & H5 & H6) Hf IH]; intros Ht; [constructor|].
  apply Forall_cons in Ht as [(Hu & Hr & Hkind) Ht]. constructor; [|by apply IH].
  split_and!; [|rewrite H5; apply value_zero_ok|by rewrite H1, H2|congruence].
  rewrite H6, Hr. apply value_zero_ok.
Qed.

Record created (t : pk_endpoint_type) (o : sys) (e : pk_endpoint_t) (o' : sys) : Prop := {
  cr_type : ept_type e = t;
  cr_sock : 0 <= sock e /\ (sock e ∉ fds o);
  cr_started : started e = true;
  cr_plain : woke e = false /\ client_nodes e = [] /\ removed_nodes e = [] /\ client_count e = 0 /\
    loop e = None /\ ept_poll e = None /\ metrics_timer e = None;
  cr_mgood : mgood (mk_state e o');
  cr_same : heap o' = heap o /\ polls o' = polls o /\ timers o' = timers o /\ next_id o' = next_id o;
  cr_fds : forall fd, fd ∈ fds o' <-> fd ∈ fds o \/ fd = sock e \/ (0 <= wakefd e /\ fd = wakefd e);
  cr_wake : if do_bind t
    then 0 <= wakefd e /\ (wakefd e ∉ fds o) /\ wakefd e <> sock e /\ wake_counter o' = 0
    else wakefd e = -1;
}.

(** Nothing of a failed creation stays open. *)
Definition unchanged (o o' : sys) : Prop :=
  (forall fd, 0 <= fd -> (fd ∈ fds o' <-> fd ∈ fds o)) /\ heap o' = heap o /\ polls o' = polls o /\
  timers o' = timers o.

(** A state of [create_impl] that may jump to [failure]: [sk] and [wk] are what it has opened. *)
Record building (t : pk_endpoint_type) (ep : string) (o : sys) (sk wk : Z) (b : bool) (s : state) : Prop := {
  bu_ept : ept s = ept_socks (initial_ept t ep) sk wk b;
  bu_same : heap (os s) = heap o /\ polls (os s) = polls o /\ timers (os s) = timers o /\ next_id (os s) = next_id o;
  bu_fds : forall fd, fd ∈ fds (os s) <-> fd ∈ fds o \/ (0 <= sk /\ fd = sk) \/ (0 <= wk /\ fd = wk);
  bu_new : (sk ∉ fds o) /\ (wk ∉ fds o) \/ (sk ∉ fds o) /\ wk < 0 \/ sk < 0 /\ wk < 0;
}.

Lemma failure_ok t ep o sk wk b s : building t ep o sk wk b s ->
  exists o', create_failure k fuel s = Ret (None, o') /\ unchanged o o'.
Proof.
  intros [He (H1 & H2 & H3 & _) Hf Hn].
  destruct (destroy_ok s) as (o' & E & [R1 R2 R3 R4]).
  { constructor; rewrite He; [constructor|by intros ? []%elem_of_nil|by intros ? ?|by intros [?|[]]]. }
  unfold create_failure. rewrite E, bind_Ret. exists o'. split; [done|].
  unfold handles_of, polls_of in *. rewrite He in *. cbn in *. rewrite H1, H2, H3 in *. split_and!.
  - intros fd Hfd. rewrite (R1 fd Hfd), (Hf fd). split; [tauto|]. intros Hin. split_and!; [tauto|..].
    + intros ->. destruct Hn as [?|[?|?]]; [tauto..|lia].
    + intros ->. destruct Hn as [?|[?|?]]; [tauto|lia..].
    + by intros (? & ? & []%elem_of_nil & _).
  - apply map_eq. intros n. rewrite R2. by rewrite decide_False by apply not_elem_of_nil.
  - apply map_eq. intros p. apply option_eq. intros w. rewrite R3. split; [tauto|]. intros.
    split_and!; [done| |done]. by intros (? & ? & []%elem_of_nil & _).
  - done.
Qed.

Lemma socks_twice e a b c a' b' c' : ept_socks (ept_socks e a b c) a' b' c' = ept_socks e a' b' c'.
Proof. reflexivity. Qed.

Lemma building_same t ep o sk wk b s s' :
  s' ≈ s -> ept s' = ept s -> building t ep o sk wk b s -> building t ep o sk wk b s'.
Proof.
  intros H He [H1 H2 H3 H4]. split; [congruence| | |done].
  - rewrite (veq_proj (fun s => heap (os s)) _ _ (fun _ => eq_refl) H).
    rewrite (veq_proj (fun s => polls (os s)) _ _ (fun _ => eq_refl) H).
    rewrite (veq_proj (fun s => timers (os s)) _ _ (fun _ => eq_refl) H).
    by rewrite (veq_proj (fun s => next_id (os s)) _ _ (fun _ => eq_refl) H).
  - by rewrite (veq_proj (fun s => fds (os s)) _ _ (fun _ => eq_refl) H).
Qed.

(** [started] is set, whatever it was. *)
Lemma building_next t ep o sk wk b s s' b' :
  building t ep o sk wk b s -> s' ≈ s -> ept s' = ept s ->
  building t ep o sk wk b' (set_ept s' (ept_socks (ept s') sk wk b')).
Proof.
  intros Hb H He. destruct (building_same _ _ _ _ _ _ _ _ H He Hb) as [H1 H2 H3 H4].
  split; [|done..]. cbn [ept set_ept]. by rewrite H1, socks_twice.
Qed.

Lemma create_ok menv mok endpoint ident t retry o :
  exists r o', create_impl k f64 fuel menv mok (Some endpoint) ident t retry o = Ret (r, o') /\
    match r with Some e => created t o e o' | None => unchanged o o' end.
Proof.
  cbn [create_impl]. destruct (malloc_ok k (tick o)); cbn [negb]; [|by eexists _, _].
  set (s0 := mk_state _ _).
  assert (Hfail : forall sk wk b s, building t endpoint o sk wk b s -> exists r o',
    create_failure k fuel s = Ret (r, o') /\ match r with Some e => created t o e o' | None => unchanged o o' end).
  { intros sk wk b s H. destruct (failure_ok _ _ _ _ _ _ _ H) as (o' & E & Hu). by exists None, o'. }
  assert (Hb0 : building t endpoint o (-1) (-1) false s0).
  { split; [done|done|cbn; intros; split; [tauto|by intros [?|[[]|[]]]; [|lia..]]|right; right; lia]. }
  case_bool_decide as Ht; [by eapply Hfail|].
  unfold create_un_socket, open_fd. destruct (socket_ok k (now s0)).
  2: { apply (Hfail (-1) (-1) false). destruct Hb0. by constructor. }
  set (fd := alloc_fd (fds (os (step_tick s0)))).
  assert (Hfd : fd ∉ fds o) by apply alloc_fd_fresh. assert (Hpos : 0 <= fd) by apply alloc_fd_pos.
  rewrite (proj2 (Z.ltb_ge _ _) Hpos). set (s1 := set_ept _ _).
  assert (Hb1 : building t endpoint o fd (-1) false s1).
  { split; [done|done| |right; left; split; [done|lia]]. cbn. intros x.
    rewrite elem_of_union, elem_of_singleton. split; [tauto|]. intros [?|[?|[]]]; [tauto..|lia]. }
  assert (exists rc s2, (if do_bind t then bind_un_socket k (socket_path endpoint) s1
    else connect_un_socket k (socket_path endpoint) retry s1) = (rc, s2) /\ s2 ≈ s1 /\ ept s2 = ept s1)
    as (rc & s2 & -> & H2 & E2).
  { destruct (do_bind t); [by eexists _, _|]. unfold connect_un_socket.
    destruct (connect_loop_ok CONNECT_RETRIES_MAX 0 (sun_path (socket_path endpoint)) retry s1) as (ok & s2 & -> & H).
    by eexists _, _. }
  set (s3 := set_ept s2 _).
  assert (Hb3 : building t endpoint o fd (-1) (rc =? 0) s3) by (by eapply building_next).
  destruct (rc =? 0); cbn [negb]; [|by eapply Hfail].
  assert (exists li s4, (if do_bind t then start_un_listen k s3 else (0, s3)) = (li, s4) /\ s4 ≈ s3 /\ ept s4 = ept s3)
    as (li & s4 & -> & H4 & E4) by (destruct (do_bind t); by eexists _, _).
  assert (Hb4 : building t endpoint o fd (-1) true s4) by (by eapply building_same).
  destruct (li <? 0); [by eapply Hfail|].
  assert (Hfin : forall wk s, building t endpoint o fd wk true s ->
    (if do_bind t then 0 <= wk /\ (wk ∉ fds o) /\ wk <> fd /\ wake_counter (os s) = 0 else wk = -1) ->
    exists r o', match ident with
      | None => Ret (Some (ept s), os s)
      | Some ident =>
          match pk_metrics_setup f64 menv mok (Some "endpoint"%string)
                  (string_take (Z.to_nat PATH_MAX) ident) endpoint_metrics_table with
          | None => create_failure k fuel s
          | Some (m, _) => Ret (Some (ept_metrics (ept s) (Some m)), os s)
          end
      end = Ret (r, o') /\ match r with Some e => created t o e o' | None => unchanged o o' end).
  { intros wk s Hb Hw. destruct (Hb) as [B1 B2 B3 B4].
    assert (B5 : forall x, x ∈ fds (os s) <-> x ∈ fds o \/ x = fd \/ 0 <= wk /\ x = wk)
      by (intros x; rewrite B3; tauto).
    destruct ident as [i|]; [destruct (pk_metrics_setup _ _ _ _ _ _) as [[m idx]|] eqn:Em|];
      [|by eapply Hfail|]; (eexists (Some _), _; split; [reflexivity|]); rewrite B1;
      split; try done. unfold mgood; cbn. by eapply endpoint_metrics_wf. }
  destruct (do_bind t) eqn:Ed; cbn [andb].
  - unfold open_fd. destruct (eventfd_ok k (now s4)).
    + set (wfd := alloc_fd (fds (os (step_tick s4)))).
      assert (Hw : wfd ∉ fds (os s4)) by apply alloc_fd_fresh. assert (Hwpos : 0 <= wfd) by apply alloc_fd_pos.
      rewrite (proj2 (Z.ltb_ge _ _) Hwpos).
      assert (Hw' : (wfd ∉ fds o) /\ wfd <> fd).
      { rewrite (bu_fds _ _ _ _ _ _ _ Hb4 wfd) in Hw. split; [tauto|]. intros ->. tauto. }
      apply (Hfin wfd); [|rewrite ?Ed; destruct Hw'; by split_and!].
      destruct Hb4 as [B1 B2 B3 B4]. split; [cbn [ept set_ept set_os step_tick]; by rewrite B1, socks_twice|done| |left; tauto].
      intros x. cbn. rewrite elem_of_union, elem_of_singleton, B3. split; [|tauto].
      intros [?|[?|[?|[? ?]]]]; [tauto..|lia].
    + change (-1 <? 0) with true. cbn iota. apply (Hfail fd (-1) true). destruct Hb4 as [B1 B2 B3 B4].
      split; [cbn [ept set_ept set_os step_tick]; by rewrite B1, socks_twice|done..].
  - apply (Hfin (-1)); [|by rewrite ?Ed]. destruct Hb4 as [B1 B2 B3 B4]. split; [cbn [ept set_ept set_os step_tick]; by rewrite B1, socks_twice|done..].
Qed.

(** Attaching a created server to its loop gives a settled server without clients. *)
Lemma attach_ok t o e o1 lp s :
  is_server t -> created t o e o1 -> heap o = ∅ -> polls o = ∅ -> timers o = ∅ ->
  pk_endpoint_loop_add k lp (mk_state e o1) = Ret (0, s) ->
  settled s /\ owns (fds o) s /\ ept_type (ept s) = t /\
  exists tm, metrics_timer (ept s) = Some tm /\ timers (os s) = {[tm]}.
Proof.
  intros Ht [C1 [C2 C2'] C3 (P1 & P2 & P3 & P4 & P5 & P6 & P7) C4 (S1 & S2 & S3 & S4) C5 C6] Ho Hp Htm.
  assert (do_bind t = true) as Hb by (destruct Ht as [->|[->| ->]]; done). rewrite Hb in C6.
  destruct C6 as (W1 & W2 & W3 & W4).
  unfold pk_endpoint_loop_add, pk_endpoint_set_non_blocking. cbn [ept].
  destruct (fcntl_ok k _); cbn [negb]; [|done]. change (0 <? 0) with false. cbn iota.
  cbn [ept set_ept ept_attach loop ept_type ept_poll nonblock sock]. rewrite P5, P6.
  assert (Hm : forall A (a b : A),
    match ept_type e with PK_ENDPOINT_SUB | PK_ENDPOINT_PUB | PK_ENDPOINT_REQ => a | _ => b end = b)
    by (intros; rewrite C1; destruct Ht as [->|[->| ->]]; done).
  rewrite Hm. unfold pk_loop_poll_add. rewrite (proj2 (Z.ltb_ge _ _) C2).
  destruct (poll_add_ok k _); rewrite bind_Ret; unfold pk_loop_timer_add; destruct (timer_add_ok k _); cbn; try done.
  intros [= <-]. rewrite Ho in S1. rewrite Hp in S2. rewrite Htm in S3. split_and!; [split_and!| | |].
  - constructor; unfold node_ok; cbn; rewrite ?P2, ?P3, ?P4, ?P1, ?W4, ?S1, ?S2; try done; try (by constructor).
    + intros n. rewrite lookup_empty. split; [intros []%elem_of_nil|by intros []].
    + intros p n. rewrite lookup_insert_Some, lookup_empty. by intros [[_ ?]|[_ ?]].
    + intros p. rewrite lookup_insert_Some, lookup_empty. split; [by intros [[-> _]|[_ ?]]|]. intros [= ->]. by left.
    + intros p w. rewrite lookup_insert_Some, lookup_empty. intros [[<- _]|[_ ?]]; [lia|done].
    + split; [done|]. apply C5. by right; left.
    + split_and!; [done|apply C5; by right; right|congruence].
  - done.
  - done.
  - split_and!; [|done|done|]; cbn; rewrite ?S1.
    + intros fd. rewrite C5. split; [tauto|]. intros [?|[?|[?|(n & c & Hc & _)]]]; [tauto..|].
      by rewrite lookup_empty in Hc.
    + intros n c. by rewrite lookup_empty.
  - done.
  - cbn. rewrite S3. eexists. split; [reflexivity|]. apply union_empty_r_L.
Qed.

End visits.

(** ** Theorems *)

(** C7: The life of a server endpoint.  However its loop reports connections, readable clients
    and disconnections, and however its owner reads and publishes in between, a server that was
    created and attached never touches a freed client or an unset handle, never aborts and
    never hangs; its client count is the number of its clients; and destroying it closes every
    descriptor it has opened and removes everything it has put into the loop.  The hypotheses: of
    the kernel, that interruptions stop, packets are sent whole, and that accepting a connection
    and polling it succeed (the process is aborted by an assertion otherwise); on a PUB server, that
    the end of a connection is reported by the loop and not found while input is discarded
    ([discarded_client_freed_twice]); of the events, that no error is reported on the listening
    socket ([accept_error_dangles]) and that nothing is sent on a SUB server or is 2 GiB long. *)
Theorem endpoint_lifecycle {FD : FdAlloc} {X} k f64 junk fuel menv mok cfg o e o1 lp s1
    (rx_cb : X -> list Z -> X * Z) evs x :
  kernel_ok k fuel -> word64 junk -> (forall t, accept_ok k t = true) -> (forall t, poll_add_ok k t = true) ->
  (cfg_type cfg = PK_ENDPOINT_PUB_SERVER -> forall t, recv_res k t <> RV_data []) ->
  is_server (cfg_type cfg) -> heap o = ∅ -> polls o = ∅ -> timers o = ∅ ->
  pk_endpoint_create k f64 fuel menv mok cfg o = Ret (Some e, o1) ->
  pk_endpoint_loop_add k lp (mk_state e o1) = Ret (0, s1) ->
  Forall (event_ok (cfg_type cfg) (ept_poll (ept s1))) evs ->
  exists x' s2 o2, run_events k f64 junk fuel rx_cb evs x s1 = Ret (x', s2) /\
    client_count (ept s2) = Z.of_nat (length (client_nodes (ept s2))) /\
    pk_endpoint_destroy k fuel s2 = Ret o2 /\
    (forall fd, 0 <= fd -> (fd ∈ fds o2 <-> fd ∈ fds o)) /\ heap o2 = ∅ /\ polls o2 = ∅ /\ timers o2 = ∅.
Proof.
  intros Hk Hj Hacc Hpoll Hdis Ht Ho Hp Htm Hc Ha Hev.
  unfold pk_endpoint_create in Hc. destruct (cfg_endpoint cfg) as [ep|]; [|done].
  destruct (create_ok k f64 fuel Hk menv mok ep (cfg_identity cfg) (cfg_type cfg) (cfg_retry_connect cfg) o)
    as (r & o' & E & Hr). rewrite E in Hc. injection Hc as -> ->.
  destruct (attach_ok k _ _ _ _ _ _ Ht Hr Ho Hp Htm Ha) as (Hs1 & Ho1 & Hty & tm & Etm & Etms).
  destruct (run_events_ok k f64 junk fuel Hk Hj rx_cb (fds o) evs x s1) as (x' & s2 & E2 & Hs2 & Ho2 & Ha2);
    [done|done|by rewrite ?Hty..|].
  destruct (destroy_ok k fuel Hk s2 (settled_destroyable s2 Hs2)) as (o2 & E3 & Hrel).
  destruct (settled_released (fds o) s2 o2 Hs2 Ho2 Hrel) as (R1 & R2 & R3).
  exists x', s2, o2. split_and!; try done.
  - destruct Hs2 as (Hi & _ & Hr2). rewrite (inv_count s2 Hi), Hr2. cbn. lia.
  - destruct Hrel as [_ _ _ ->]. unfold attached in Ha2. injection Ha2 as _ _ _ _ _ _ -> ->.
    rewrite Etm, Etms. cbn. apply difference_diag_L.
Qed.

(** C8: Publishing on a server delivers the message once to each client that stays, in the
    order of the list, and to no other; a client is dropped only after the kernel refused a
    send, and then its descriptor is closed; the result is 0 exactly when none was dropped. *)
Theorem pk_endpoint_send_broadcasts {FD : FdAlloc} k f64 junk fuel data s :
  kernel_ok k fuel -> word64 junk -> settled s ->
  ept_type (ept s) = PK_ENDPOINT_PUB_SERVER \/ ept_type (ept s) = PK_ENDPOINT_REP ->
  Z.of_nat (length data) <= INT_MAX ->
  exists rc s' d, pk_endpoint_send k f64 junk fuel data s = Ret (rc, s') /\ settled s' /\
    client_nodes (ept s') = filter (fun n => n ∉ d) (client_nodes (ept s)) /\
    sent (os s') = sent (os s) ++
      (client_nodes (ept s') ≫= fun n => from_option (fun c => [(handle c, data)]) [] (heap (os s) !! n)) /\
    (forall fd, fd ∈ fds (os s') <-> fd ∈ fds (os s) /\ ~ handles_of s d fd) /\
    (rc = 0 <-> client_nodes (ept s') = client_nodes (ept s)) /\
    (d <> [] -> exists t err, send_res k t (length data) = SD_err err /\ err <> EINTR).
Proof.
  intros Hk Hj Hs Ht Hlen.
  destruct (send_ok k f64 junk fuel Hk Hj data s Hs Ht Hlen) as (rc & s' & d & E & [V1 V2 V3 V4 V5 V6 V7] & Hrc & Hw).
  exists rc, s', d. split_and!; try done.
  - rewrite V6. f_equal. unfold messages. rewrite V3. clear. induction (client_nodes (ept s)) as [|n l IH]; [done|].
    rewrite filter_cons. cbn. case_decide; case_decide; cbn; try tauto; by rewrite IH.
  - rewrite Hrc. destruct d as [|n d].
    + split; [|done]. intros _. rewrite V3. clear. induction (client_nodes (ept s)) as [|m l IH]; [done|].
      rewrite filter_cons, decide_True by apply not_elem_of_nil. by rewrite IH.
    + split; [done|]. intros Heq. exfalso. assert (n ∈ client_nodes (ept s)) as Hn by (apply V2; by left).
      rewrite <-Heq, V3 in Hn. apply list_elem_of_filter in Hn as [Hn _]. apply Hn. by left.
Qed.

(** Creating an endpoint always returns, and on every failure - of an allocation, of a
    system call, of the metrics, or for an invalid type - it has closed what it had opened. *)
Theorem endpoint_create_cases {FD : FdAlloc} k f64 fuel menv mok ep cfg o :
  kernel_ok k fuel -> cfg_endpoint cfg = Some ep ->
  exists r o', pk_endpoint_create k f64 fuel menv mok cfg o = Ret (r, o') /\
    match r with
    | Some e => created (cfg_type cfg) o e o'
    | None => unchanged o o'
    end.
Proof.
  intros Hk He. unfold pk_endpoint_create. rewrite He. by apply create_ok.
Qed.

(** ** A client found closed while its input is discarded *)

Section undefined.
Context {FD : FdAlloc}.
Variable k : kernel.
Variable f64 : f64_ops.
Variable junk : pk_metrics_value.
Variable fuel : nat.
Hypothesis Hk : kernel_ok k fuel.
Hypothesis Hjunk : word64 junk.

(** What a traversal needs of a node, and what it leaves: weaker than the invariant, it holds
    also of a client that is recorded as removed. *)
Definition visitable (s : state) (n : nat) : Prop :=
  exists c, heap (os s) !! n = Some c /\ node c = Some n /\ own_poller s n c.

Lemma send_node_weak n c data s :
  heap (os s) !! n = Some c -> node c = Some n -> own_poller s n c -> is_Some (loop (ept s)) -> mgood s ->
  Z.of_nat (length data) <= INT_MAX ->
  exists rc s', with_node n (fun ctx s => send_impl k f64 junk fuel fuel 0 ctx data s) s = Ret (rc, s') /\ mgood s' /\
    ((s' ≈ said [(handle c, data)] s /\ handle c ∈ fds (os s)) \/ s' ≈ dropped n c s).
Proof.
  intros Hc Hn Hq Hl Hm Hlen. unfold with_node. rewrite Hc. cbn [of_option]. rewrite bind_Ret.
  assert (Hu : usable c s).
  { split; [|intros m Hm'; rewrite Hn in Hm'; simplify_eq; by exists c].
    unfold poll_fine. destruct (poll_handle c) as [p|] eqn:Ep; [|done]. split; [done|]. rewrite (Hq p Ep). by eexists. }
  destruct (send_impl_n k f64 junk fuel Hk Hjunk fuel 0 c data s) as (c1 & r & s1 & -> & Hm1 & Hcase);
    [by apply Hk|split; vm_compute; congruence|done..|].
  rewrite bind_Ret. eexists _, _. split; [reflexivity|]. split; [done|].
  destruct Hcase as [(-> & _ & Hf & H)|(-> & _ & H & _)]; [left|right].
  - split; [|done]. change (stored n c s1 ≈ said [(handle c, data)] s). rewrite stored_same; [done|].
    by rewrite (veq_proj (fun s => heap (os s)) _ _ (fun _ => eq_refl) H).
  - change (stored n (gone c) s1 ≈ dropped n c s). unfold dropped. by rewrite H.
Qed.

Lemma dropped_fields n c s : node c = Some n ->
  removed_nodes (ept (dropped n c s)) = n :: removed_nodes (ept s) /\
  client_nodes (ept (dropped n c s)) = client_nodes (ept s) /\ loop (ept (dropped n c s)) = loop (ept s) /\
  heap (os (dropped n c s)) = <[n := gone c]> (heap (os s)) /\
  (forall fd, fd ∈ fds (os (dropped n c s)) -> fd ∈ fds (os s)) /\
  (own_poller s n c -> forall p m, m <> n -> polls (os s) !! p = Some (Some m) -> polls (os (dropped n c s)) !! p = Some (Some m)).
Proof.
  intros Hn. unfold dropped, torn, own_poller. rewrite Hn. destruct (poll_handle c) as [q|] eqn:Eq; cbn [unpolled recorded];
    destruct (handle c =? -1); cbn; split_and!; try done;
    try (intros fd Hfd; by apply elem_of_difference in Hfd as [? _]);
    intros Hq p m Hm Hp; rewrite lookup_delete_ne; try done; intros ->; specialize (Hq p eq_refl); congruence.
Qed.

(** The result of one visit, and of a traversal, in the terms of [visitable]. *)
Record weakly (l d : list nat) (s s' : state) : Prop := {
  we_mgood : mgood s';
  we_loop : loop (ept s') = loop (ept s);
  we_removed : removed_nodes (ept s') = d ++ removed_nodes (ept s);
  we_heap : forall n c, heap (os s) !! n = Some c -> exists c', heap (os s') !! n = Some c' /\ node c' = node c /\
    (handle c = -1 -> handle c' = -1) /\ (own_poller s n c -> own_poller s' n c');
  we_fds : forall fd, fd ∈ fds (os s') -> fd ∈ fds (os s);
  we_gone : forall n c, n ∈ l -> heap (os s) !! n = Some c -> handle c = -1 -> -1 ∉ fds (os s) -> n ∈ d;
}.

Lemma visit_weakly n data rc s :
  visitable s n -> is_Some (loop (ept s)) -> mgood s -> Z.of_nat (length data) <= INT_MAX ->
  exists rc' s' d, ('(_rc, s) ← with_node n (fun ctx s => send_impl k f64 junk fuel fuel 0 ctx data s) s;
                    Ret (if negb (_rc =? 0) then _rc else rc, s)) = Ret (rc', s') /\ weakly [n] d s s'.
Proof.
  intros (c & Hc & Hn & Hq) Hl Hm Hlen.
  destruct (send_node_weak n c data s Hc Hn Hq Hl Hm Hlen) as (r & s' & -> & Hm' & Hcase). rewrite bind_Ret.
  destruct Hcase as [[H Hf]|H].
  { eexists _, s', []. split; [reflexivity|]. split; [done|..].
  - exact (veq_proj (fun s => loop (ept s)) _ _ (fun _ => eq_refl) H).
  - exact (veq_proj (fun s => removed_nodes (ept s)) _ _ (fun _ => eq_refl) H).
  - intros m c' Hc'. exists c'. unfold own_poller. rewrite (veq_proj (fun s => heap (os s)) _ _ (fun _ => eq_refl) H).
    by rewrite (veq_proj (fun s => polls (os s)) _ _ (fun _ => eq_refl) H).
  - intros fd. by rewrite (veq_proj (fun s => fds (os s)) _ _ (fun _ => eq_refl) H).
  - intros m c' ->%list_elem_of_singleton Hc' Hh Hno. congruence. }
  eexists _, s', [n]. split; [reflexivity|]. split; [done|..].
  - rewrite (veq_proj (fun s => loop (ept s)) _ _ (fun _ => eq_refl) H). by apply dropped_fields.
  - rewrite (veq_proj (fun s => removed_nodes (ept s)) _ _ (fun _ => eq_refl) H).
    destruct (dropped_fields n c s Hn) as (-> & _). done.
  - intros m c' Hc'. rewrite (veq_proj (fun s => heap (os s)) _ _ (fun _ => eq_refl) H).
    destruct (dropped_fields n c s Hn) as (_ & _ & _ & -> & _ & Hpo). destruct (decide (m = n)) as [->|Hne].
    + rewrite lookup_insert_eq. eexists. split; [done|]. assert (c' = c) as -> by congruence. done.
    + rewrite lookup_insert_ne by done. exists c'. split_and!; [done..|]. unfold own_poller.
      rewrite (veq_proj (fun s => polls (os s)) _ _ (fun _ => eq_refl) H). intros Hq' p Hp. by apply Hpo; [..|apply Hq'].
  - intros fd. rewrite (veq_proj (fun s => fds (os s)) _ _ (fun _ => eq_refl) H). by apply dropped_fields.
  - done.
Qed.

Lemma foreach_weakly data l rc s :
  (forall n, n ∈ l -> visitable s n) -> is_Some (loop (ept s)) -> mgood s -> Z.of_nat (length data) <= INT_MAX ->
  exists rc' s' d, foreach_loop (fun rc n s =>
      '(_rc, s) ← with_node n (fun ctx s => send_impl k f64 junk fuel fuel 0 ctx data s) s;
      Ret (if negb (_rc =? 0) then _rc else rc, s)) l rc s = Ret (rc', s') /\ weakly l d s s'.
Proof.
  revert rc s. induction l as [|n l IH]; intros rc s Hv Hl Hm Hlen.
  { exists rc, s, []. split; [done|]. split; try done. by intros n c Hc; exists c. }
  destruct (visit_weakly n data rc s) as (rc1 & s1 & d1 & E1 & [W1 W2 W3 W4 W5 W6]); [apply Hv; by left|done..|].
  destruct (IH rc1 s1) as (rc2 & s2 & d2 & E2 & [V1 V2 V3 V4 V5 V6]); [|by rewrite W2|done..|].
  { intros m Hm'. destruct (Hv m) as (c & Hc & Hn & Hq); [by right|]. destruct (W4 m c Hc) as (c' & Hc' & Hn' & _ & Hq').
    exists c'. split_and!; [done|congruence|auto]. }
  exists rc2, s2, (d2 ++ d1). cbn [foreach_loop]. rewrite E1, bind_Ret. split; [done|]. split; try done.
  - congruence.
  - by rewrite V3, W3, app_assoc.
  - intros m c Hc. destruct (W4 m c Hc) as (c1 & Hc1 & Hn1 & Hh1 & Hq1). destruct (V4 m c1 Hc1) as (c2 & Hc2 & Hn2 & Hh2 & Hq2).
    exists c2. split_and!; [done|congruence|auto..].
  - auto.
  - intros m c [->|Hm']%elem_of_cons Hc Hh Hno; apply elem_of_app; [right; eapply W6; [by left|done..]|left].
    destruct (W4 m c Hc) as (c1 & Hc1 & _ & Hh1 & _). eapply V6; [done|exact Hc1|auto|]. intros ?. by apply Hno, W5.
Qed.

Lemma purge1_fields n c s :
  heap (os (purge1 n c s)) = delete n (heap (os s)) /\ loop (ept (purge1 n c s)) = loop (ept s).
Proof. unfold purge1, torn. by destruct (poll_handle c), (handle c =? -1). Qed.

(** One round of [process_removed_clients]. *)
Lemma process_round n l s : is_Some (loop (ept s)) ->
  process_removed k fuel (n :: l) s = Undef \/
  exists s', process_removed k fuel (n :: l) s = process_removed k fuel l s' /\
    heap (os s') = delete n (heap (os s)) /\ is_Some (loop (ept s')).
Proof.
  intros Hl. cbn [process_removed]. set (s1 := set_ept s _). destruct (heap (os s) !! n) as [c|] eqn:Hc.
  - destruct (poll_handle c) as [p|] eqn:Ep; [destruct (polls (os s) !! p) as [w|] eqn:Ew|].
    2: { left. destruct Hl as [lp Hl]. unfold purge_client_node, teardown_client. subst s1. cbn [os set_ept]. rewrite Hc.
         cbn [of_option]. rewrite bind_Ret. cbn [ept set_ept ept_clients loop]. rewrite Hl, Ep.
         unfold pk_loop_poll_remove. cbn [os set_ept]. by rewrite Ew. }
    all: right; destruct (purge_any k fuel Hk n c s1) as (s2 & -> & H2);
      [done|unfold poll_fine; rewrite Ep; first [done|split; [done|by exists w]]|]; rewrite bind_Ret;
    exists s2; (split; [done|]); destruct (purge1_fields n c s1) as [F1 F2];
    rewrite (veq_proj (fun s => heap (os s)) _ _ (fun _ => eq_refl) H2), F1;
    by rewrite (veq_proj (fun s => loop (ept s)) _ _ (fun _ => eq_refl) H2), F2.
  - left. unfold purge_client_node. subst s1. cbn [os set_ept]. by rewrite Hc.
Qed.

Lemma process_freed n l s : n ∈ l -> heap (os s) !! n = None -> is_Some (loop (ept s)) ->
  process_removed k fuel l s = Undef.
Proof.
  revert s. induction l as [|m l IH]; intros s Hn Hh Hl; [by apply elem_of_nil in Hn|].
  destruct (process_round m l s Hl) as [?|(s' & E & Hs' & Hl')]; [done|].
  destruct (decide (n = m)) as [<-|Hne].
  - cbn [process_removed]. unfold purge_client_node. cbn [os set_ept]. by rewrite Hh.
  - rewrite E. apply IH; [by apply elem_of_cons in Hn as [?|?]| |done]. rewrite Hs'. by rewrite lookup_delete_ne.
Qed.

Lemma process_twice n l1 l2 s : n ∈ l1 -> n ∈ l2 -> is_Some (loop (ept s)) ->
  process_removed k fuel (l1 ++ l2) s = Undef.
Proof.
  intros Hn Hn2. revert s. induction l1 as [|m l1 IH]; intros s Hl; [by apply elem_of_nil in Hn|].
  cbn [app]. destruct (process_round m (l1 ++ l2) s Hl) as [?|(s' & -> & Hs' & Hl')]; [done|].
  apply elem_of_cons in Hn as [<-|Hn]; [|by apply IH].
  apply (process_freed n); [apply elem_of_app; by right| |done]. rewrite Hs'. apply lookup_delete_eq.
Qed.

(** [recv_impl] on a closed descriptor. *)
Lemma recv_closed n ctx len s : handle ctx ∉ fds (os s) ->
  recv_impl k f64 junk fuel (S n) ctx len s = Ret (ctx, (PKE_ERROR, []), step_tick s).
Proof.
  intros H. cbn [recv_impl]. unfold recvmsg. rewrite bool_decide_eq_false_2 by done. cbn -[teardown_client].
  by rewrite andb_false_r.
Qed.

Lemma fuel_pos : exists f, fuel = S f.
Proof. destruct (ko_quiet _ _ Hk 0%nat) as (j & Hj & _). destruct fuel as [|f]; [lia|by exists f]. Qed.

Lemma discard_closed c len s n :
  recv_res k (now s) = RV_data [] -> handle c ∈ fds (os s) -> -1 ∉ fds (os s) -> mgood s -> usable c s ->
  node c = Some n ->
  exists s', discard_loop k f64 junk fuel 32 c len s = Ret (gone c, s') /\ mgood s' /\
    s' ≈ torn c (recorded (node c) s).
Proof.
  intros Hr Hf Hno Hm Hu Hn. destruct fuel_pos as (f & Ef).
  assert (Hfuel : forall c len s, recv_impl k f64 junk fuel fuel c len s = recv_impl k f64 junk fuel (S f) c len s)
    by (intros; by rewrite <-Ef).
  cbn [discard_loop]. rewrite Hn.
  assert (exists s1, recv_impl k f64 junk fuel fuel c len s = Ret (gone c, (PKE_SUCCESS, []), s1) /\ mgood s1 /\
    s1 ≈ torn c (recorded (node c) s)) as (s1 & E1 & Hm1 & H1).
  { rewrite Hfuel. cbn [recv_impl]. unfold recvmsg. rewrite bool_decide_eq_true_2 by done. rewrite Hr.
    rewrite take_nil.
    destruct (close_ok k f64 junk fuel Hk Hjunk c (step_tick s) MI.read_close_count) as (s1 & E1 & H1 & Hm1);
      [done|apply Hu..|].
    apply outcome_bind_Ret in E1 as (sa & -> & E1). rewrite bind_Ret.
    apply outcome_bind_Ret in E1 as (sb & -> & E1). rewrite bind_Ret, E1, bind_Ret.
    exists s1. split_and!; [done|done|]. by rewrite H1, step_tick_veq. }
  rewrite E1, bind_Ret. cbn -[recv_impl]. rewrite Hn.
  assert (Hno1 : handle (gone c) ∉ fds (os s1)).
  { rewrite (veq_proj (fun s => fds (os s)) _ _ (fun _ => eq_refl) H1). cbn [handle gone]. intros Hin. apply Hno.
    unfold torn in Hin. rewrite Hn in Hin. destruct (poll_handle c), (handle c =? -1); cbn in Hin; try done;
      by apply elem_of_difference in Hin as [? _]. }
  rewrite Hfuel, recv_closed, bind_Ret by done. cbn.
  eexists. split; [reflexivity|]. split; [done|]. rewrite step_tick_veq, H1. by rewrite Hn.
Qed.

Lemma discard_wake_ok n c s :
  settled s -> live s n c -> ept_type (ept s) = PK_ENDPOINT_PUB_SERVER -> -1 ∉ fds (os s) ->
  recv_res k (now s) = RV_data [] ->
  exists s', handle_client_wake k f64 junk fuel n LOOP_READ s = Ret s' /\ mgood s' /\ s' ≈ dropped n c s.
Proof.
  intros (Hi & Hm & Hr) Hl Ht Hno Hrecv.
  destruct (live_fields s n c Hi Hl) as (Hn & Hh & Hf & _). unfold handle_client_wake. rewrite (proj1 Hl).
  cbn [of_option]. rewrite bind_Ret.
  destruct (upd_ok f64 MI.wakes_per_s junk s Hm Hjunk) as (s1 & -> & H1 & Hm1 & Ho1). rewrite bind_Ret.
  change (has LOOP_READ LOOP_ERROR || has LOOP_READ LOOP_DISCONNECTED) with false. cbn iota.
  rewrite (veq_proj (fun s => ept_type (ept s)) _ _ (fun _ => eq_refl) H1), Ht.
  change (has LOOP_READ LOOP_READ && _) with true. cbn iota. cbv zeta.
  set (s2 := if warned_on_discard (ept s1) then s1 else _).
  assert (H2 : s2 ≈ s1) by (subst s2; by destruct (warned_on_discard _)).
  assert (Hm2 : mgood s2) by (subst s2; by destruct (warned_on_discard _)).
  assert (Ho2 : os s2 = os s) by (subst s2; rewrite <-Ho1; by destruct (warned_on_discard _)).
  unfold with_node. rewrite Ho2, (proj1 Hl). cbn [of_option]. rewrite bind_Ret. unfold discard_read_data.
  destruct (upd_ok f64 MI.read_discard_count junk s2 Hm2 Hjunk) as (s3 & -> & H3 & Hm3 & Ho3). rewrite bind_Ret.
  assert (Hu : usable c s3).
  { eapply usable_veq; [|by eapply live_usable]. by rewrite H3, H2, H1. }
  change ENDPOINT_SERVICE_MAX with 32%nat.
  destruct (discard_closed c PK_ENDPOINT_RECV_BUF_SIZE s3 n) as (s4 & -> & Hm4 & H4);
    [unfold now; by rewrite Ho3, Ho2|by rewrite Ho3, Ho2|by rewrite Ho3, Ho2|done..|].
  rewrite !bind_Ret. eexists. split; [reflexivity|]. split; [done|].
  change (set_os s4 _) with (stored n (gone c) s4). unfold dropped. by rewrite H4, H3, H2, H1.
Qed.

Lemma send_freed n c data s s' :
  settled s -> live s n c -> ept_type (ept s) = PK_ENDPOINT_PUB_SERVER -> -1 ∉ fds (os s) ->
  mgood s' -> s' ≈ dropped n c s -> Z.of_nat (length data) <= INT_MAX ->
  pk_endpoint_send k f64 junk fuel data s' = Undef.
Proof.
  intros (Hi & Hm & Hr) Hl Ht Hno Hm' H Hlen.
  destruct (live_fields s n c Hi Hl) as (Hn & _). destruct (dropped_fields n c s Hn) as (F1 & F2 & F3 & F4 & F5 & F6).
  rewrite <-(veq_proj (fun s => removed_nodes (ept s)) _ _ (fun _ => eq_refl) H) in F1.
  rewrite <-(veq_proj (fun s => client_nodes (ept s)) _ _ (fun _ => eq_refl) H) in F2.
  rewrite <-(veq_proj (fun s => loop (ept s)) _ _ (fun _ => eq_refl) H) in F3.
  rewrite <-(veq_proj (fun s => heap (os s)) _ _ (fun _ => eq_refl) H) in F4.
  rewrite <-(veq_proj (fun s => fds (os s)) _ _ (fun _ => eq_refl) H) in F5.
  pose proof (f_equal (fun x => x.1.1.1.1) (fixed_dropped n c s)) as Ha. cbn beta in Ha.
  rewrite <-(fixed_veq _ _ H) in Ha.
  assert (ept_type (ept s') = PK_ENDPOINT_PUB_SERVER) as Ht' by (unfold fixed, attached in Ha; cbn in Ha; congruence).
  unfold pk_endpoint_send. rewrite Ht'. unfold foreach_client. rewrite F2.
  assert (Hlp : is_Some (loop (ept s'))) by (rewrite F3; apply Hi).
  destruct (foreach_weakly data (client_nodes (ept s)) 0 s') as (rc & s2 & d & -> & [W1 W2 W3 W4 W5 W6]); [|done..|].
  { intros m [c' Hc']%(inv_heap s Hi). destruct (inv_node s Hi m c' Hc') as (Hn' & _). unfold visitable, own_poller. rewrite F4.
    destruct (decide (m = n)) as [->|Hne]; [rewrite lookup_insert_eq; by eexists|].
    rewrite lookup_insert_ne by done. exists c'. split_and!; [done..|]. intros q Hq.
    rewrite (veq_proj (fun s => polls (os s)) _ _ (fun _ => eq_refl) H). apply F6; [|done|].
    - intros p Hp. destruct (live_fields s n c Hi Hl) as (_ & _ & _ & _ & _ & p' & Hp' & ?). by simplify_eq.
    - destruct (live_fields s m c' Hi) as (_ & _ & _ & _ & _ & p' & Hp' & ?); [|by simplify_eq].
      split; [done|]. rewrite Hr. apply not_elem_of_nil. }
  rewrite bind_Ret. unfold process_removed_clients. rewrite W3, F1, Hr.
  rewrite (process_twice n d [n]); [done| |by left|by rewrite W2].
  eapply (W6 n (gone c)); [|rewrite F4; by rewrite lookup_insert_eq|done|by intros ?%F5].
  apply (inv_heap s Hi). destruct Hl as [Hc _]. by exists c.
Qed.
End undefined.

(** A client that closes its connection just as a PUB server discards its input is recorded
    as removed but stays in the list of clients; publishing any message then records it a
    second time, and the server unlinks and frees a node it has already freed. *)
Theorem discarded_client_freed_twice {FD : FdAlloc} k f64 junk fuel s p n data :
  kernel_ok k fuel -> word64 junk -> settled s -> ept_type (ept s) = PK_ENDPOINT_PUB_SERVER ->
  -1 ∉ fds (os s) -> polls (os s) !! p = Some (Some n) -> recv_res k (now s) = RV_data [] ->
  Z.of_nat (length data) <= INT_MAX ->
  exists s', uv_loop_poll_handler k f64 junk fuel p 0 UV_READABLE s = Ret s' /\
    pk_endpoint_send k f64 junk fuel data s' = Undef.
Proof.
  intros Hk Hj Hs Ht Hno Hp Hr Hlen. destruct (inv_poll s (proj1 Hs) p n Hp) as (c & Hc & _).
  assert (Hl : live s n c) by (split; [done|rewrite (proj2 (proj2 Hs)); apply not_elem_of_nil]).
  unfold uv_loop_poll_handler. rewrite Hp. change (uv_loop_status 0 UV_READABLE) with (LOOP_READ, false). cbn iota.
  destruct (discard_wake_ok k f64 junk fuel Hk Hj n c s) as (s' & E & Hm' & H); [done..|].
  exists s'. rewrite E, bind_Ret. split; [done|]. by eapply send_freed.
Qed.

(** ** Sending never waits *)

Section waiting.
Context {FD : FdAlloc}.
Variable k : kernel.
Variable f64 : f64_ops.
Variable junk : pk_metrics_value.
Variable fuel : nat.

Definition awake (s s' : state) : Prop := sleeps (os s') = sleeps (os s).

Lemma upd_awake i v s s' : upd f64 i v s = Ret s' -> awake s s'.
Proof. unfold upd. intros H. apply outcome_bind_Ret in H as (r & _ & [= <-]). done. Qed.

Lemma record_awake ctx s s' : record_ctx f64 ctx s = Ret s' -> awake s s'.
Proof.
  unfold record_ctx, record_disconnect. destruct (node ctx) as [n|]; [|by intros [= <-]].
  destruct (heap (os s) !! n); [|done]. intros H. apply outcome_bind_Ret in H as (s1 & H1 & [= <-]).
  by apply upd_awake in H1.
Qed.

Lemma retry_awake n f s b s' : (forall s, awake s (f s).2) -> retry_on_eintr n f s = Ret (b, s') -> awake s s'.
Proof.
  intros Hf. revert s. induction n as [|n IH]; intros s; cbn [retry_on_eintr]; [done|].
  pose proof (Hf s) as H. destruct (f s) as [[[]|] s1]; intros E; try (by simplify_eq).
  unfold awake in *. rewrite (IH _ E). done.
Qed.

Lemma teardown_awake ctx s ctx' s' : teardown_client k fuel ctx s = Ret (ctx', s') -> awake s s'.
Proof.
  unfold teardown_client. set (d := match loop (ept s) with Some _ => _ | None => _ end).
  assert (forall c s1, d = Ret (c, s1) -> awake s s1) as Hd.
  { intros c s1. subst d. destruct (loop (ept s)), (poll_handle ctx) as [p|]; try by intros [= _ <-].
    unfold pk_loop_poll_remove. destruct (polls (os s) !! p); [|done]. by intros [= _ <-]. }
  intros H. apply outcome_bind_Ret in H as ([c s1] & E & H). apply Hd in E. revert H. destruct (poll_handle c); [done|].
  destruct (handle c =? -1); [by intros [= _ <-]|].
  intros H. apply outcome_bind_Ret in H as ([b2 s2] & H2 & H). apply outcome_bind_Ret in H as ([b3 s3] & H3 & [= _ <-]).
  apply retry_awake in H2; [|done]. apply retry_awake in H3; [|done]. unfold awake in *. congruence.
Qed.

Lemma helper_awake ctx s ctx' s' : send_close_socket_helper k f64 junk fuel ctx s = Ret (ctx', s') -> awake s s'.
Proof.
  unfold send_close_socket_helper. intros H.
  apply outcome_bind_Ret in H as (s1 & H1%record_awake & H). apply outcome_bind_Ret in H as (s2 & H2%upd_awake & H3%teardown_awake).
  unfold awake in *. congruence.
Qed.

(** The test of the sleep counter is the wrong way round: the branch that sleeps is taken only
    from the hundred-thousandth refusal on, and the first one already gives up. *)
Lemma send_awake n sc ctx data s ctx' rc s' : sc < MAX_SEND_SLEEP_COUNT - 1 ->
  send_impl k f64 junk fuel n sc ctx data s = Ret (ctx', rc, s') -> awake s s'.
Proof.
  intros Hsc. revert s. induction n as [|n IH]; intros s; cbn [send_impl]; [done|].
  destruct (sendmsg k (handle ctx) data s) as [r s1] eqn:E1.
  assert (H1 : awake s s1).
  { revert E1. unfold sendmsg. destruct (bool_decide _); [|by intros [= _ <-]].
    destruct (send_res k (now s) (length data)); by intros [= _ <-]. }
  assert (Hclose : forall s0, awake s s0 -> ('(ctx, s) ← send_close_socket_helper k f64 junk fuel ctx s0; Ret (ctx, -1, s))
      = Ret (ctx', rc, s') -> awake s s').
  { intros s0 H0 H. apply outcome_bind_Ret in H as ([c2 s2] & H2%helper_awake & [= _ _ <-]). unfold awake in *. congruence. }
  destruct r as [w|[]].
  - intros H. apply outcome_bind_Ret in H as (len & _ & H). destruct (Z.of_nat w =? len); [|done]. by injection H as _ _ <-.
  - intros H. apply IH in H. unfold awake in *. congruence.
  - rewrite (proj2 (Z.leb_gt _ _)) by lia. intros H. apply outcome_bind_Ret in H as (len & _ & H).
    eapply Hclose; [|exact H]. by destruct (has_eagain_cb (ept s1)).
  - by apply Hclose.
  - by apply Hclose.
  - by apply Hclose.
  - by apply Hclose.
  - by apply Hclose.
Qed.
End waiting.

(** Publishing on a client endpoint either hands the message to the kernel, or - at the
    first refusal, whatever it is, a full queue included - closes the socket; it never waits
    for a queue to drain.  The endpoint keeps the number of the descriptor it has closed, so
    that a later failure closes whatever the process has opened under that number since. *)
Theorem pub_send_cases {FD : FdAlloc} k f64 junk fuel data s :
  kernel_ok k fuel -> word64 junk -> mgood s ->
  ept_type (ept s) = PK_ENDPOINT_PUB \/ ept_type (ept s) = PK_ENDPOINT_REQ ->
  0 <= sock (ept s) -> Z.of_nat (length data) <= INT_MAX ->
  exists rc s', pk_endpoint_send k f64 junk fuel data s = Ret (rc, s') /\ sleeps (os s') = sleeps (os s) /\
    sock (ept s') = sock (ept s) /\
    ((rc = 0 /\ sent (os s') = sent (os s) ++ [(sock (ept s), data)] /\ fds (os s') = fds (os s)) \/
     (rc = -1 /\ sent (os s') = sent (os s) /\ fds (os s') = fds (os s) ∖ {[sock (ept s)]})).
Proof.
  intros Hk Hj Hm Ht Hpos Hlen.
  destruct (send_impl_n k f64 junk fuel Hk Hj fuel 0 (mk_ctx (sock (ept s)) None None) data s)
    as (c & rc & s' & E & Hm' & Hc); [by apply Hk|split; vm_compute; congruence|done|by split|done|].
  exists rc, s'. split; [|split; [by eapply (send_awake _ _ _ _ fuel 0); [vm_compute|exact E]|]].
  { unfold pk_endpoint_send. by destruct Ht as [-> | ->]; rewrite E, bind_Ret. }
  destruct Hc as [(_ & -> & _ & H)|(_ & -> & H & _)].
  - split; [exact (veq_proj (fun s => sock (ept s)) _ _ (fun _ => eq_refl) H)|left].
    rewrite (veq_proj (fun s => sent (os s)) _ _ (fun _ => eq_refl) H).
    by rewrite (veq_proj (fun s => fds (os s)) _ _ (fun _ => eq_refl) H).
  - unfold torn in H. cbn [poll_handle unpolled handle node recorded] in H.
    destruct (sock (ept s) =? -1) eqn:Es; bool_hyps; [lia|].
    split; [exact (veq_proj (fun s => sock (ept s)) _ _ (fun _ => eq_refl) H)|right].
    rewrite (veq_proj (fun s => sent (os s)) _ _ (fun _ => eq_refl) H).
    by rewrite (veq_proj (fun s => fds (os s)) _ _ (fun _ => eq_refl) H).
Qed.

(** ** Reading from a server *)

Lemma read_node_eagain {FD : FdAlloc} k f64 junk f a s n c :
  (forall t, recv_res k t = RV_err EAGAIN) -> inv s -> live s n c ->
  with_node n (read_handler k f64 junk (S f) a) s = Ret ((a, PKE_EAGAIN), step_tick s).
Proof.
  intros Hr Hi Hc. destruct (live_fields s n c Hi Hc) as (_ & _ & Hf & _). destruct a as [len buf].
  unfold with_node, read_handler. rewrite (proj1 Hc). cbn [of_option]. rewrite !bind_Ret.
  cbn [recv_impl]. unfold recvmsg. rewrite bool_decide_eq_true_2, Hr by done. cbn iota.
  assert (nonblock (ept (step_tick s)) = true) as -> by apply Hi. cbn [andb].
  rewrite bool_decide_eq_true_2 by done. rewrite !bind_Ret. change (PKE_EAGAIN =? 0) with false. cbn iota.
  change (set_os (step_tick s) _) with (stored n c (step_tick s)). by rewrite stored_same by apply Hc.
Qed.

Lemma read_eagain_loop {FD : FdAlloc} k f64 junk f (count : nat) (buffer : list Z) l s :
  (forall t, recv_res k t = RV_err EAGAIN) -> inv s -> (forall n, n ∈ l -> exists c, live s n c) ->
  exists s', foreach_loop (fun a n s => '((a, _), s) ← with_node n (read_handler k f64 junk (S f) a) s;
      Ret (a, s)) l (count, buffer) s = Ret ((count, buffer), s') /\ s' ≈ s /\ ept s' = ept s.
Proof.
  intros Hr. revert s. induction l as [|n l IH]; intros s Hi Hl; [by exists s|].
  destruct (Hl n) as [c Hc]; [by left|]. cbn [foreach_loop].
  rewrite (read_node_eagain k f64 junk f _ s n c), !bind_Ret by done.
  destruct (IH (step_tick s)) as (s' & -> & H & E).
  { by rewrite step_tick_veq. }
  { intros m Hm. destruct (Hl m) as [c' Hc']; [by right|]. by exists c'. }
  exists s'. split_and!; [done| |by rewrite E]. by rewrite H, step_tick_veq.
Qed.

(** [pk_endpoint_read] on a server that was woken although no client has anything to read
    returns the size of the caller's buffer, as if it had been filled. *)
Theorem pk_endpoint_read_nothing {FD : FdAlloc} k f64 junk fuel buffer count s :
  kernel_ok k fuel -> settled s -> woke (ept s) = true ->
  ept_type (ept s) = PK_ENDPOINT_SUB_SERVER \/ ept_type (ept s) = PK_ENDPOINT_REP ->
  (0 < count)%nat -> (forall t, recv_res k t = RV_err EAGAIN) ->
  exists s', pk_endpoint_read k f64 junk fuel buffer count s = Ret (Z.of_nat count, buffer, s').
Proof.
  intros Hk Hs Hw Ht Hc Hr. pose proof (settled_live s Hs) as Hl. destruct (Hs) as (Hi & Hm & Hrem).
  destruct (fuel_pos k fuel Hk) as (f & ->). unfold pk_endpoint_read.
  destruct (count =? 0)%nat eqn:E0; [apply Nat.eqb_eq in E0; lia|]. unfold read_and_receive_common.
  assert (valid_socket_type_for_read (ept_type (ept s)) = true) as -> by (destruct Ht as [-> | ->]; done). cbn [negb].
  assert (Hgo : forall (A : Type) (a b : A), match ept_type (ept s) with PK_ENDPOINT_SUB_SERVER | PK_ENDPOINT_REP => a | _ => b end = a)
    by (intros; destruct Ht as [-> | ->]; done).
  rewrite Hgo. destruct (inv_wakefd s Hi) as (_ & Hwf & _). rewrite bool_decide_eq_true_2 by done.
  rewrite (inv_wake s Hi), Hw. cbn [Z.eqb Pos.eqb negb orb]. cbv zeta. cbn [ept set_os]. rewrite Hw. cbn [negb orb].
  set (s0 := set_ept _ _).
  assert (Hi0 : inv s0).
  { destruct Hi as [I1 I2 I3 I4 I5 I6 I7 I8 I0 I9 I10 I11 I12 I13 I14]. by constructor. }
  unfold foreach_client.
  destruct (read_eagain_loop k f64 junk f count buffer (client_nodes (ept s0)) s0 Hr Hi0 Hl) as (s1 & E1 & H1 & He).
  rewrite E1, bind_Ret. unfold process_removed_clients. rewrite He. cbn [ept set_ept removed_nodes ept_woke s0].
  subst s0. cbn [ept set_ept removed_nodes ept_woke set_os]. rewrite Hrem. cbn [process_removed]. rewrite !bind_Ret.
  by eexists.
Qed.

(** A connection that cannot be accepted (too many open files, say) aborts the process: the
    client is added with descriptor -1, which the loop refuses by an assertion. *)
Lemma accept_failure_aborts {FD : FdAlloc} k f64 junk fuel s :
  mgood s -> word64 junk -> malloc_ok k (now s) = true -> accept_ok k (now s) = false ->
  accept_wake_handler k f64 junk fuel LOOP_READ s = Undef.
Proof.
  intros Hm Hj Hmal Hacc. unfold accept_wake_handler.
  destruct (upd_ok f64 MI.accept_count junk s Hm Hj) as (s1 & -> & H1 & Hm1 & Ho1). rewrite bind_Ret.
  change (negb (has LOOP_READ LOOP_READ) && _) with false. cbn iota. unfold now. rewrite Ho1. fold (now s).
  rewrite Hmal. cbn [negb]. cbv zeta. unfold pk_endpoint_accept, open_fd, now. cbn [os set_ept]. rewrite Ho1.
  fold (now s). rewrite Hacc. cbn iota.
  match goal with |- context [upd f64 MI.client_count ?v ?x] =>
    destruct (upd_ok f64 MI.client_count v x Hm1 (s32_word64 _)) as (s3 & -> & _) end.
  reflexivity.
Qed.

(** ** Examples *)

Definition top_fd (X : gset Z) : Z := set_fold Z.max 2 X.

Lemma top_fd_le X x : x ∈ X -> x <= top_fd X.
Proof.
  revert x. unfold top_fd. apply (set_fold_ind_L (fun r X => forall x, x ∈ X -> x <= r)); [set_solver|].
  intros y X' r Hy IH x [->%elem_of_singleton|Hx%IH]%elem_of_union; lia.
Qed.

Lemma top_fd_pos X : 2 <= top_fd X.
Proof. unfold top_fd. apply (set_fold_ind_L (fun r _ => 2 <= r)); lia. Qed.

Definition next_fd (X : gset Z) : Z := top_fd X + 1.

Lemma next_fd_fresh X : next_fd X ∉ X.
Proof. unfold next_fd. intros H%top_fd_le. lia. Qed.

Lemma next_fd_pos X : 0 <= next_fd X.
Proof. unfold next_fd. pose proof (top_fd_pos X). lia. Qed.

(** Descriptors in increasing order. *)
#[export] Instance next_fd_alloc : FdAlloc :=
  {| alloc_fd := next_fd; alloc_fd_fresh := next_fd_fresh; alloc_fd_pos := next_fd_pos |}.

(** A kernel that does everything it is asked; what is received is an input. *)
Definition obliging (recv : recv_result) (send : nat -> send_result) : kernel := {|
  recv_res _ := recv; send_res _ n := send n; shutdown_res _ := None; close_res _ := None;
  accept_ok _ := true; malloc_ok _ := true; poll_add_ok _ := true; timer_add_ok _ := true;
  fcntl_ok _ := true; siocinq _ := 0; siocoutq _ := 0; socket_ok _ := true; bind_ok _ _ := true;
  connect_ok _ _ := true; listen_ok _ := true; eventfd_ok _ := true |}.

Lemma obliging_ok recv send :
  recv <> RV_err EINTR -> (forall n, send n = SD_count n \/ exists e, send n = SD_err e /\ e <> EINTR) ->
  kernel_ok (obliging recv send) 1.
Proof.
  intros Hr Hs. split.
  - intros t. exists 0%nat. split; [lia|]. split_and!; [done| |done|done]. intros n. cbn.
    destruct (Hs n) as [->|(e & -> & He)]; congruence.
  - intros t n w. cbn. destruct (Hs n) as [->|(e & -> & He)]; congruence.
Qed.

Definition no_sys : sys := mk_sys 0 ∅ 0 (list_to_set [0; 1; 2]) ∅ ∅ 0 [] [] [] 0.
Definition example_kernel : kernel := obliging (RV_err EAGAIN) SD_count.
Definition example_cfg (t : pk_endpoint_type) : pk_endpoint_config_t :=
  cfg_builder_endpoint (cfg_builder_type pk_endpoint_config t) "ipc:///var/run/sockets/example".

Definition example_created (t : pk_endpoint_type) : pk_endpoint_t * sys :=
  match pk_endpoint_create example_kernel f64_int 1 example_env true (example_cfg t) no_sys with
  | Ret (Some e, o) => (e, o)
  | _ => (initial_ept t "", no_sys)
  end.

Definition example_attached (t : pk_endpoint_type) : state :=
  match pk_endpoint_loop_add example_kernel 0 (mk_state (fst (example_created t)) (snd (example_created t))) with
  | Ret (_, s) => s
  | _ => mk_state (fst (example_created t)) (snd (example_created t))
  end.

(** The receive callback of the examples keeps the messages. *)
Definition keep_all (x : list (list Z)) (m : list Z) : list (list Z) * Z := (x ++ [m], 0).

Definition example_run (t : pk_endpoint_type) (evs : list event) : state :=
  match run_events example_kernel f64_int value_zero 1 keep_all evs [] (example_attached t) with
  | Ret (_, s) => s
  | _ => example_attached t
  end.

(** Two connections: the server's poller is 0, the clients' are 3 and 5. *)
Definition two_clients : list event := [Ev_poll 0 0 UV_READABLE; Ev_poll 0 0 UV_READABLE].

Lemma example_kernel_ok : kernel_ok example_kernel 1.
Proof. apply obliging_ok; [done|]. intros n. by left. Qed.

Lemma zero_word64 : word64 value_zero.
Proof. unfold word64; cbn. lia. Qed.

Lemma example_created_eq t : is_server t ->
  pk_endpoint_create example_kernel f64_int 1 example_env true (example_cfg t) no_sys =
    Ret (Some (fst (example_created t)), snd (example_created t)).
Proof. intros [-> | [-> | ->]]; vm_compute; reflexivity. Qed.

Lemma example_attached_eq t : is_server t ->
  pk_endpoint_loop_add example_kernel 0 (mk_state (fst (example_created t)) (snd (example_created t))) =
    Ret (0, example_attached t).
Proof. intros [-> | [-> | ->]]; vm_compute; reflexivity. Qed.

Lemma example_settled t evs : is_server t -> Forall (event_ok t (ept_poll (ept (example_attached t)))) evs ->
  settled (example_run t evs) /\ ept_type (ept (example_run t evs)) = t /\
  exists x, run_events example_kernel f64_int value_zero 1 keep_all evs [] (example_attached t) = Ret (x, example_run t evs).
Proof.
  intros Ht Hev.
  destruct (create_ok example_kernel f64_int 1 example_kernel_ok example_env true "ipc:///var/run/sockets/example" None t false no_sys)
    as (r & o & E & Hr).
  pose proof (example_created_eq t Ht) as E'. unfold pk_endpoint_create in E'.
  change (cfg_endpoint (example_cfg t)) with (Some "ipc:///var/run/sockets/example"%string) in E'.
  change (cfg_identity (example_cfg t)) with (@None string) in E'. change (cfg_type (example_cfg t)) with t in E'.
  change (cfg_retry_connect (example_cfg t)) with false in E'. rewrite E in E'. injection E' as -> ->.
  destruct (attach_ok example_kernel t no_sys _ _ 0 _ Ht Hr eq_refl eq_refl eq_refl (example_attached_eq t Ht))
    as (Hs & Ho & Hty & _).
  destruct (run_events_ok example_kernel f64_int value_zero 1 example_kernel_ok zero_word64 keep_all (fds no_sys) evs []
    (example_attached t)) as (x & s & Er & Hs' & Ho' & Ha); [by rewrite ?Hty..|].
  unfold example_run. rewrite Er. split_and!; [done| |by exists x].
  rewrite <-Hty. unfold attached in Ha. by simplify_eq.
Qed.

(** Kernels whose first answer, at call [t0], differs from the rest. *)
Definition first_then (t0 : nat) (first rest : recv_result) : kernel := {|
  recv_res t := if (t =? t0)%nat then first else rest; send_res _ n := SD_count n; shutdown_res _ := None;
  close_res _ := None; accept_ok _ := true; malloc_ok _ := true; poll_add_ok _ := true; timer_add_ok _ := true;
  fcntl_ok _ := true; siocinq _ := 0; siocoutq _ := 0; socket_ok _ := true; bind_ok _ _ := true;
  connect_ok _ _ := true; listen_ok _ := true; eventfd_ok _ := true |}.

Definition woken : state := example_run PK_ENDPOINT_SUB_SERVER (two_clients ++ [Ev_poll 3 0 UV_READABLE]).

(** A server with two clients that have both sent a message: the second read is cut to the
    length of the first and overwrites it. *)
Example read_second_truncates :
  match pk_endpoint_read (first_then (now woken) (RV_data [1; 2; 3]) (RV_data [9; 8; 7; 6; 5])) f64_int value_zero 1
          (replicate 8 0) 8 woken with
  | Ret (rc, buffer, s) => (rc, buffer, length (client_nodes (ept s))) = (3, [9; 8; 7; 0; 0; 0; 0; 0], 2%nat)
  | _ => False
  end.
Proof. vm_compute. reflexivity. Qed.

(** When the first client has closed its connection, the next is read with a buffer of length
    0, taken for closed too and disconnected, its message lost. *)
Example read_closes_second :
  match pk_endpoint_read (first_then (now woken) (RV_data []) (RV_data [9; 8; 7])) f64_int value_zero 1
          (replicate 8 0) 8 woken with
  | Ret (rc, _, s) => (rc, client_nodes (ept s), client_count (ept s)) = (0, [], 0)
  | _ => False
  end.
Proof. vm_compute. reflexivity. Qed.

Lemma endpoint_lifecycle_witness :
  exists x' s2 o2, run_events example_kernel f64_int value_zero 1 keep_all
      (two_clients ++ [Ev_poll 3 0 UV_READABLE; Ev_receive; Ev_poll 3 0 UV_DISCONNECT; Ev_send [1; 2; 3]; Ev_flush 5])
      [] (example_attached PK_ENDPOINT_REP) = Ret (x', s2) /\
    client_count (ept s2) = Z.of_nat (length (client_nodes (ept s2))) /\
    pk_endpoint_destroy example_kernel 1 s2 = Ret o2 /\
    (forall fd, 0 <= fd -> (fd ∈ fds o2 <-> fd ∈ fds no_sys)) /\ heap o2 = ∅ /\ polls o2 = ∅ /\ timers o2 = ∅.
Proof.
  apply (endpoint_lifecycle example_kernel f64_int value_zero 1 example_env true (example_cfg PK_ENDPOINT_REP) no_sys
    (fst (example_created PK_ENDPOINT_REP)) (snd (example_created PK_ENDPOINT_REP)) 0 (example_attached PK_ENDPOINT_REP)
    keep_all).
  - exact example_kernel_ok.
  - exact zero_word64.
  - done.
  - done.
  - done.
  - by right; right.
  - reflexivity.
  - reflexivity.
  - reflexivity.
  - apply example_created_eq. by right; right.
  - apply example_attached_eq. by right; right.
  - repeat (apply Forall_cons_2; [first [exact I | intros _; reflexivity | intros [=] | split; [discriminate|vm_compute; congruence]]|]). constructor.
Defined.

(** An error reported on the listening socket: the loop frees its poller, the handler only logs,
    and the endpoint removes the freed poller when it is destroyed. *)
Example accept_error_dangles :
  match uv_loop_poll_handler example_kernel f64_int value_zero 1 0 (-9) 0 (example_attached PK_ENDPOINT_REP) with
  | Ret s => polls (os s) !! 0%nat = None /\ ept_poll (ept s) = Some 0%nat /\
      pk_endpoint_destroy example_kernel 1 s = Undef
  | _ => False
  end.
Proof. vm_compute. auto. Qed.

Definition published : state := example_run PK_ENDPOINT_PUB_SERVER two_clients.

Lemma published_settled : settled published /\ ept_type (ept published) = PK_ENDPOINT_PUB_SERVER.
Proof.
  destruct (example_settled PK_ENDPOINT_PUB_SERVER two_clients) as (H1 & H2 & _);
    [by left|apply Forall_cons_2; [intros _; reflexivity|apply Forall_cons_2; [intros _; reflexivity|constructor]]|].
  exact (conj H1 H2).
Qed.

Lemma pk_endpoint_send_broadcasts_witness :
  exists rc s' d, pk_endpoint_send example_kernel f64_int value_zero 1 [1; 2; 3] published = Ret (rc, s') /\ settled s' /\
    client_nodes (ept s') = filter (fun n => n ∉ d) (client_nodes (ept published)) /\
    sent (os s') = sent (os published) ++
      (client_nodes (ept s') ≫= fun n => from_option (fun c => [(handle c, [1; 2; 3])]) [] (heap (os published) !! n)) /\
    (forall fd, fd ∈ fds (os s') <-> fd ∈ fds (os published) /\ ~ handles_of published d fd) /\
    (rc = 0 <-> client_nodes (ept s') = client_nodes (ept published)) /\
    (d <> [] -> exists t err, send_res example_kernel t 3 = SD_err err /\ err <> EINTR).
Proof.
  apply (pk_endpoint_send_broadcasts example_kernel f64_int value_zero 1 [1; 2; 3] published).
  - exact example_kernel_ok.
  - exact zero_word64.
  - apply published_settled.
  - left. apply published_settled.
  - vm_compute. congruence.
Defined.

Lemma endpoint_create_cases_witness :
  exists r o', pk_endpoint_create example_kernel f64_int 1 example_env true (example_cfg PK_ENDPOINT_INVALID) no_sys = Ret (r, o') /\
    match r with Some e => created PK_ENDPOINT_INVALID no_sys e o' | None => unchanged no_sys o' end.
Proof.
  apply (endpoint_create_cases example_kernel f64_int 1 example_env true "ipc:///var/run/sockets/example"
    (example_cfg PK_ENDPOINT_INVALID) no_sys); [exact example_kernel_ok|reflexivity].
Defined.

Definition closing_kernel : kernel := obliging (RV_data []) SD_count.

Lemma discarded_client_freed_twice_witness :
  exists s', uv_loop_poll_handler closing_kernel f64_int value_zero 1 3 0 UV_READABLE published = Ret s' /\
    pk_endpoint_send closing_kernel f64_int value_zero 1 [1; 2; 3] s' = Undef.
Proof.
  apply (discarded_client_freed_twice closing_kernel f64_int value_zero 1 published 3 2 [1; 2; 3]).
  - apply obliging_ok; [done|]. intros n. by left.
  - exact zero_word64.
  - apply published_settled.
  - apply published_settled.
  - apply (bool_decide_unpack (-1 ∉ fds (os published))). vm_compute. exact I.
  - vm_compute. reflexivity.
  - reflexivity.
  - vm_compute. congruence.
Defined.

Lemma pub_send_cases_witness :
  let s := mk_state (ept_socks (initial_ept PK_ENDPOINT_PUB "") 2 (-1) true) no_sys in
  let k := obliging (RV_err EAGAIN) (fun _ => SD_err EAGAIN) in
  exists rc s', pk_endpoint_send k f64_int value_zero 1 [1; 2; 3] s = Ret (rc, s') /\ sleeps (os s') = sleeps (os s) /\
    sock (ept s') = sock (ept s) /\
    ((rc = 0 /\ sent (os s') = sent (os s) ++ [(sock (ept s), [1; 2; 3])] /\ fds (os s') = fds (os s)) \/
     (rc = -1 /\ sent (os s') = sent (os s) /\ fds (os s') = fds (os s) ∖ {[sock (ept s)]})).
Proof.
  intros s k. apply (pub_send_cases k f64_int value_zero 1 [1; 2; 3] s).
  - apply obliging_ok; [done|]. intros n. right. by exists EAGAIN.
  - exact zero_word64.
  - exact I.
  - by left.
  - vm_compute. congruence.
  - vm_compute. congruence.
Defined.

Lemma pk_endpoint_read_nothing_witness :
  exists s', pk_endpoint_read example_kernel f64_int value_zero 1 (replicate 8 0) 8 woken = Ret (Z.of_nat 8, replicate 8 0, s').
Proof.
  assert (settled woken /\ ept_type (ept woken) = PK_ENDPOINT_SUB_SERVER) as [Hs Ht].
  { destruct (example_settled PK_ENDPOINT_SUB_SERVER (two_clients ++ [Ev_poll 3 0 UV_READABLE])) as (H1 & H2 & _);
      [by right; left|do 3 (apply Forall_cons_2; [intros _; reflexivity|]); constructor|]. exact (conj H1 H2). }
  apply (pk_endpoint_read_nothing example_kernel f64_int value_zero 1 (replicate 8 0) 8 woken).
  - exact example_kernel_ok.
  - exact Hs.
  - vm_compute. reflexivity.
  - by left.
  - lia.
  - done.
Defined.
