(* ===== verification/ResLines.v ===== *)
(** * Command output, line by line
    ([resource_monitor/resource_monitor/src/resmon_common.c] and the command runner of
    [libpiksi/libpiksi/src/util.c])

    The queries of the resource monitor run a command, read its output in pieces and hand it on
    line by line; a line is cut into fields that are stored where a table of [line_spec_t] says.
    The main theorem: however the output is cut into pieces, the line function sees the lines of
    the whole output, each once and in order. *)

From Stdlib Require Import Ascii.
From S2P Require Import Prelude Libc Text.

(** ** Numbers *)

Definition ULONG_MAX : Z := 4294967295.

(** [strtoul(s, &end, 10)]: the value and what [end] points at. *)
Definition strtoul10 (s : string) : Z * string :=
  let '(neg, s') := skip_sign (skip_space s) in
  match s' with
  | String.String c _ =>
      match dec_digit c with
      | Some _ =>
          let '(v, rest) := dec_digits s' 0 in
          ((if ULONG_MAX <? v then ULONG_MAX else if neg : bool then u32 (- v) else v)%Z, rest)
      | None => (0%Z, s)
      end
  | EmptyString => (0%Z, s)
  end.

(** The test of the end pointer in [strtoul_all] and [strtod_all]. *)
Definition all_consumed (str endptr : string) : bool :=
  match skip_space endptr with
  | EmptyString => negb (bool_decide (str = EmptyString))
  | _ => false
  end.

Definition strtoul_all (str : string) : bool * Z :=
  let '(v, endptr) := strtoul10 str in (all_consumed str endptr, v).

(** ** Doubles

    What the queries use of [double]: the conversion functions of the C library, sums and the
    scaling of a share of a total to eight bits.  A conversion that the type [u8] cannot hold
    is undefined. *)
Class Doubles := {
  f64 : Type;
  f64_zero : f64;
  f64_of_Z : Z -> f64;
  f64_add : f64 -> f64 -> f64;
  f64_mul : f64 -> f64 -> f64;
  f64_div : f64 -> f64 -> f64;
  f64_to_u8 : f64 -> outcome Z;
  strtod : string -> f64 * string;
}.

Section doubles.
Context `{!Doubles}.

Definition strtod_all (str : string) : bool * f64 :=
  let '(v, endptr) := strtod str in (all_consumed str endptr, v).

(** [(u8)((1u << (sizeof(u8) * 8)) * share)] *)
Definition share_u8 (share : f64) : outcome Z := f64_to_u8 (f64_mul (f64_of_Z 256) share).

(** ** Fields of a line *)

Inductive field_type_t := FT_F64 | FT_U16 | FT_U32 | FT_STR.

(** [dst] is the number of the object that the pointer in the specification names. *)
Record line_spec_t := mk_spec {
  spec_type : field_type_t;
  spec_next : nat;
  spec_desc : string;
  buflen : nat;
  dst : nat;
}.

(** The objects that a parse may write: variables of the caller. *)
Inductive object :=
  | O_u16 (v : Z)
  | O_u32 (v : Z)
  | O_f64 (v : f64)
  | O_str (buf : text).

(** [strncpy(object, field, n)]: with [n = 0] nothing is written, whatever the object. *)
Definition strncpy_object (o : object) (field : text) (n : nat) : outcome object :=
  match o with
  | O_str buf => buf ← strncpy buf field n; Ret (O_str buf)
  | _ => if n =? 0 then Ret o else Undef
  end.

(** The value that a field of this type stores, [None] if the field cannot be read. *)
Definition convert_field (sp : line_spec_t) (field : text) (o : object) : outcome (option object) :=
  match spec_type sp with
  | FT_U16 =>
      let '(ok, v) := strtoul_all (string_of field) in
      Ret (if ok : bool then Some (O_u16 (u16 v)) else None)
  | FT_U32 =>
      let '(ok, v) := strtoul_all (string_of field) in
      Ret (if ok : bool then Some (O_u32 (u32 v)) else None)
  | FT_F64 =>
      let '(ok, v) := strtod_all (string_of field) in
      Ret (if ok : bool then Some (O_f64 v) else None)
  | FT_STR => o ← strncpy_object o field (buflen sp); Ret (Some o)
  end.

Fixpoint fields_loop (line_specs : list line_spec_t) (final_state : nat) (fields : list text)
    (state : nat) (env : list object) : outcome (bool * list object) :=
  match fields with
  | [] =>
      if state =? final_state then Ret (true, env)
      else _ ← of_option (line_specs !! state); Ret (false, env)     (* the log prints its desc *)
  | field :: fields' =>
      sp ← of_option (line_specs !! state);
      if state =? final_state then Ret (false, env)                      (* too many fields *)
      else
        o ← of_option (env !! dst sp);
        r ← convert_field sp field o;
        match r with
        | None => Ret (false, env)
        | Some o => fields_loop line_specs final_state fields' (spec_next sp) (<[dst sp := o]> env)
        end
  end.

Definition parse_tab_line (line : text) (start_state final_state : nat)
    (line_specs : list line_spec_t) (separators : list ascii) (env : list object) :
    outcome (bool * list object) :=
  fields_loop line_specs final_state (strtok separators line) start_state env.

Definition parse_ps_line (line : text) (start_state final_state : nat)
    (line_specs : list line_spec_t) (env : list object) : outcome (bool * list object) :=
  parse_tab_line line start_state final_state line_specs [tab_char] env.
End doubles.

(** ** Counting lines *)

Fixpoint count_sz_loop (sz : text) (count : nat) (newline_eof : bool) : nat :=
  match sz with
  | [] => if newline_eof then count else S count
  | c :: sz' =>
      if bool_decide (c = newline_char)
      then count_sz_loop sz' (S count) (bool_decide (sz' = []))
      else count_sz_loop sz' count newline_eof
  end.

(** [sz] is the C string that the argument points at. *)
Definition count_sz_lines (sz : text) : nat :=
  match sz with [] => 0 | _ => count_sz_loop sz 0 false end.

(** [None] is a file that cannot be opened. *)
Definition count_lines (file : option text) : Z :=
  match file with
  | None => -1
  | Some t => Z.of_nat (length (filter (fun c => c = newline_char) t))
  end.

(** [fscanf(fp, "MemTotal: %ms", ...)]: the word after the label. *)
Definition scan_mem_total (file : text) : option string :=
  if String.prefix "MemTotal:" (string_of file) then
    match take_while (fun c => negb (isspace c)) (drop_while isspace (drop 9 file)) with
    | [] => None
    | w => Some (string_of w)
    end
  else None.

Definition fetch_mem_total (file : option text) : outcome Z :=
  match file with
  | None => Undef                                                        (* fclose(NULL) *)
  | Some t =>
      match scan_mem_total t with
      | None => Ret 0%Z
      | Some w =>
          let '(ok, mem_total) := strtoul_all w in Ret (if ok : bool then mem_total else 0%Z)
      end
  end.

(** ** Lines of a buffer *)

Record leftover_t := mk_leftover { lo_buf : text; lo_size : nat; lo_line_count : nat }.

Section lines.
Context {St : Type}.
Variable line_fn : text -> St -> outcome (St * bool).

(** The loop of [foreach_line] over the tokens of [lines].  The result is the value returned
    ([None]: -1 for the missing leftover), the leftover and the state of the line function;
    [strtok_r] has overwritten no character that the test of the last one reads. *)
Fixpoint line_loop (lines : text) (total_len : nat) (toks : list text) (consumed line_count : nat)
    (leftover : option leftover_t) (s : St) : outcome (option nat * nat * option leftover_t * St) :=
  match toks with
  | [] => Ret (Some consumed, line_count, leftover, s)
  | line :: toks' =>
      let len := length line in
      let consumed := consumed + len in
      partial ← (if consumed =? total_len
                 then c ← load lines (total_len - 1); Ret (negb (bool_decide (c = newline_char)))
                 else Ret false);
      if (partial : bool) then
        match leftover with
        | None => Ret (None, line_count, leftover, s)
        | Some lo =>
            buf ← memcpy (lo_buf lo) 0 (replicate (len + 1) NUL);
            buf ← memcpy buf 0 line;
            Ret (Some consumed, line_count, Some (mk_leftover buf len (lo_line_count lo)), s)
        end
      else
        '(s, continue) ← line_fn line s;
        if (continue : bool)
        then line_loop lines total_len toks' (consumed + 1) (line_count + 1) leftover s
        else Ret (Some (consumed + 1), line_count + 1, leftover, s)
  end.

Definition foreach_line (lines_ro : text) (leftover : option leftover_t) (s : St) :
    outcome (Z * option leftover_t * St) :=
  let lines_ro := c_str lines_ro in
  let total_len := length lines_ro in
  let '(lines, total_len) :=
    match leftover with
    | Some lo =>
        if lo_size lo =? 0 then (lines_ro, total_len)
        else (c_str (take (lo_size lo) (lo_buf lo)) ++ lines_ro, total_len + lo_size lo)
    | None => (lines_ro, total_len)
    end in
  let leftover := option_map (fun lo => mk_leftover (lo_buf lo) 0 0) leftover in
  '(consumed, line_count, leftover, s) ←
    line_loop lines total_len (strtok [newline_char] lines) 0 0 leftover s;
  match consumed with
  | None => Ret ((-1)%Z, leftover, s)
  | Some consumed =>
      Ret (Z.of_nat consumed, option_map (fun lo => mk_leftover (lo_buf lo) (lo_size lo) line_count) leftover, s)
  end.

(** ** The buffer functions of the queries

    Their state: the leftover, the count of pieces without a newline, what the lines build. *)

Record lines_ctx := mk_lines_ctx { leftover : leftover_t; no_line_count : nat; lines_state : St }.

Definition lines_buffer_fn (ctx : lines_ctx) (output : text) (offset length : nat) :
    outcome (lines_ctx * text * Z) :=
  output ← store output (offset + length) NUL;
  '(consumed, lo, s) ← foreach_line (drop offset output) (Some (leftover ctx)) (lines_state ctx);
  lo ← of_option lo;
  if (consumed <? 0)%Z then Ret (mk_lines_ctx lo (no_line_count ctx) s, output, (-1)%Z)
  else
    let no_lines := lo_line_count lo =? 0 in
    let no_line_count := if no_lines then no_line_count ctx + 1 else no_line_count ctx in
    if no_lines && (2 <=? no_line_count) then Ret (mk_lines_ctx lo no_line_count s, output, (-1)%Z)
    else Ret (mk_lines_ctx lo 0 s, output, Z.of_nat length).
End lines.
Arguments lines_ctx : clear implicits.

(** ** Running a command *)

(** A child process: whether it could be started, what each [read] from its output returns
    until the end, its status. *)
Record child := mk_child { started : bool; reads : list text; status : Z }.

Section run.
Context {C : Type}.
Variable buffer_fn : C -> text -> nat -> nat -> outcome (C * text * Z).

(** The loop that hands one piece to the function; it is left when the function fails. *)
Fixpoint consume_loop (fuel : nat) (ctx : C) (output : text) (offset read_size : nat) :
    outcome (C * text) :=
  if read_size =? 0 then Ret (ctx, output)
  else
    match fuel with
    | O => Diverge
    | S fuel' =>
        '(ctx, output, consumed_result) ← buffer_fn ctx output offset read_size;
        if (consumed_result <? 0)%Z then Ret (ctx, output)
        else
          let consumed_count := Z.to_nat consumed_result in
          if consumed_count <? read_size
          then consume_loop fuel' ctx output (offset + consumed_count) (read_size - consumed_count)
          else Ret (ctx, output)
    end.

Fixpoint read_loop (output_size : nat) (pieces : list text) (ctx : C) (output : text) :
    outcome (C * text) :=
  match pieces with
  | [] => Ret (ctx, output)
  | piece :: pieces' =>
      let read_size := length piece in
      if read_size =? 0 then Ret (ctx, output)
      else if output_size <? read_size then Undef                          (* assert *)
      else
        output ← memcpy output 0 piece;
        '(ctx, output) ← consume_loop read_size ctx output 0 read_size;
        read_loop output_size pieces' ctx output
  end.

(** [run_command] with a function and no input file. *)
Definition run_command (ch : child) (output : text) (output_size : nat) (ctx : C) :
    outcome (Z * C * text) :=
  if negb (started ch) then Ret (1%Z, ctx, output)
  else
    '(ctx, output) ← read_loop output_size (reads ch) ctx output;
    Ret (status ch, ctx, output).
End run.

(** The loop that fills the buffer when there is no function. *)
Fixpoint fill_loop (pieces : list text) (total output_size : nat) (output : text) : outcome (nat * text) :=
  match pieces with
  | [] => Ret (total, output)
  | piece :: pieces' =>
      if output_size <=? total then Ret (total, output)
      else
        let got := take (output_size - total) piece in
        if length got =? 0 then Ret (total, output)
        else output ← memcpy output total got; fill_loop pieces' (total + length got) output_size output
  end.

Definition run_with_stdin_file (ch : child) (output : text) (output_size : nat) : outcome (Z * text) :=
  if negb (started ch) then Ret (1%Z, output)
  else
    '(total, output) ← fill_loop (reads ch) 0 output_size output;
    output ← (if output_size <=? total then store output (output_size - 1) NUL else store output total NUL);
    Ret (status ch, output).

(** ** Lines of a text *)

(** The lines that a newline ends, and what follows the last one. *)
Fixpoint cut_from (cur t : text) : list text * text :=
  match t with
  | [] => ([], rev cur)
  | c :: t' =>
      if bool_decide (c = newline_char)
      then let '(ls, tl) := cut_from [] t' in (rev cur :: ls, tl)
      else cut_from (c :: cur) t'
  end.
Definition cut_lines (t : text) : list text * text := cut_from [] t.

Definition unlines (ls : list text) : text := concat (map (fun l => l ++ [newline_char]) ls).

Definition one_line (l : text) : Prop := newline_char ∉ l.

Lemma not_elem_of_rev {A} (x : A) l : x ∉ rev l <-> x ∉ l.
Proof. rewrite !list_elem_of_In. by rewrite <-in_rev. Qed.

Lemma cut_from_spec cur t ls tl :
  one_line cur -> cut_from cur t = (ls, tl) ->
  rev cur ++ t = unlines ls ++ tl /\ Forall one_line ls /\ one_line tl.
Proof.
  unfold one_line. revert cur ls. induction t as [|c t IH]; simpl; intros cur ls Hc H; simplify_eq/=.
  - rewrite app_nil_r. repeat split; [constructor|]. by rewrite not_elem_of_rev.
  - case_bool_decide as Hn; simplify_eq/=.
    + destruct (cut_from [] t) as [ls' tl'] eqn:E. simplify_eq/=.
      edestruct IH as (He & Hf & Ht); [|exact E|]; [apply not_elem_of_nil|]. simpl in He. rewrite He.
      repeat split; [|constructor; [by rewrite not_elem_of_rev|done]|done].
      unfold unlines. simpl. by rewrite <-!app_assoc.
    + edestruct IH as (He & Hf & Ht); [|exact H|]; [by apply not_elem_of_cons|].
      simpl in He. rewrite <-app_assoc in He. done.
Qed.

Lemma cut_lines_spec t ls tl :
  cut_lines t = (ls, tl) -> t = unlines ls ++ tl /\ Forall one_line ls /\ one_line tl.
Proof. intros H. by apply (cut_from_spec []) in H; [|apply not_elem_of_nil]. Qed.

Lemma cut_from_app cur a b ls tl :
  cut_from cur a = (ls, tl) ->
  cut_from cur (a ++ b) = let '(ls', tl') := cut_from (rev tl) b in (ls ++ ls', tl').
Proof.
  revert cur ls. induction a as [|c a IH]; simpl; intros cur ls H; simplify_eq/=.
  - rewrite rev_involutive. by destruct (cut_from cur b).
  - case_bool_decide.
    + destruct (cut_from [] a) as [ls' tl'] eqn:E. simplify_eq/=. rewrite (IH _ _ E).
      by destruct (cut_from (rev tl) b).
    + by apply IH.
Qed.

Lemma cut_from_one cur t : one_line t -> cut_from cur t = ([], rev cur ++ t).
Proof.
  unfold one_line. revert cur. induction t as [|c t IH]; simpl; intros cur H.
  - by rewrite app_nil_r.
  - apply not_elem_of_cons in H as [Hc H]. rewrite bool_decide_eq_false_2 by done.
    rewrite IH by done. simpl. by rewrite <-app_assoc.
Qed.

Lemma cut_lines_app a b ls tl :
  cut_lines a = (ls, tl) ->
  cut_lines (a ++ b) = let '(ls', tl') := cut_lines (tl ++ b) in (ls ++ ls', tl').
Proof.
  intros H. pose proof (cut_lines_spec a ls tl H) as (_ & _ & Ht). unfold cut_lines in *.
  rewrite (cut_from_app _ a b ls tl H).
  rewrite (cut_from_app [] tl b [] tl); [by destruct (cut_from (rev tl) b)|].
  by rewrite cut_from_one.
Qed.

Definition full_line (l : text) : Prop := one_line l /\ l <> [].

Lemma one_line_seps l : one_line l -> Forall (fun x => x ∉ [newline_char]) l.
Proof.
  intros H. apply Forall_forall. intros x Hx ->%list_elem_of_singleton. done.
Qed.

(** Without blank lines [strtok_r] finds the lines and what follows them. *)
Lemma strtok_lines ls tl :
  Forall full_line ls -> one_line tl ->
  strtok [newline_char] (unlines ls ++ tl) = ls ++ match tl with [] => [] | _ => [tl] end.
Proof.
  intros Hl Ht. induction Hl as [|l ls [Hl Hne] _ IH].
  - unfold unlines; cbn [map concat app]. destruct tl; [done|].
    apply strtok_one; [by apply one_line_seps|done].
  - unfold unlines in *. cbn [map concat]. rewrite <-!app_assoc. cbn [app].
    rewrite strtok_cons; [|by apply one_line_seps|done|set_solver]. by rewrite IH.
Qed.

(** ** Every line once, in order *)

Section every_line.
Context {St : Type}.
Variable line_fn : text -> St -> outcome (St * bool).
(** The line function goes on after the lines [Q] that it meets in states [P]. *)
Variable P : St -> Prop.
Variable Q : text -> Prop.
Hypothesis line_fn_continues : forall l s s' b,
  Q l -> P s -> line_fn l s = Ret (s', b) -> b = true /\ P s'.

(** The specification: the lines one after the other. *)
Fixpoint fold_lines (ls : list text) (s : St) : outcome St :=
  match ls with
  | [] => Ret s
  | l :: ls' => '(s, _) ← line_fn l s; fold_lines ls' s
  end.

Lemma bind_assoc {A B C} (m : outcome A) (f : A -> outcome B) (g : B -> outcome C) :
  ((m ≫= f) ≫= g) = (m ≫= fun a => f a ≫= g).
Proof. by destruct m. Qed.

Lemma bind_ext {A B} (m : outcome A) (f g : A -> outcome B) :
  (forall a, m = Ret a -> f a = g a) -> (m ≫= f) = (m ≫= g).
Proof. destruct m; simpl; auto. Qed.

Lemma fold_lines_app a b s : fold_lines (a ++ b) s = (fold_lines a s ≫= fold_lines b).
Proof.
  revert s. induction a as [|l a IH]; intros s; simpl; [done|].
  rewrite bind_assoc. apply bind_ext. intros [s' c] _. apply IH.
Qed.

Lemma fold_lines_inv ls s s' : Forall Q ls -> P s -> fold_lines ls s = Ret s' -> P s'.
Proof.
  intros Hq. revert s. induction Hq as [|l ls Hl _ IH]; intros s Hp; cbn [fold_lines]; [by intros [= <-]|].
  intros ([s1 b] & Hl1 & Hr)%outcome_bind_Ret. apply (line_fn_continues _ _ _ _ Hl Hp) in Hl1 as [_ Hp1]. by eapply IH.
Qed.

(** The leftover buffer holds the beginning of a line. *)
Definition holds (lo : leftover_t) (t : text) : Prop :=
  lo_size lo = length t /\ take (length t) (lo_buf lo) = t /\ no_nul t /\ one_line t.

(** The buffer after [t] has been saved in it. *)
Definition saved (buf t : text) : text :=
  match t with [] => buf | _ => t ++ NUL :: drop (length t + 1) buf end.

Lemma length_saved buf t : length t < length buf -> length (saved buf t) = length buf.
Proof.
  intros. destruct t as [|c t]; [done|]. unfold saved. rewrite length_app. cbn [length] in *.
  rewrite length_drop. lia.
Qed.

Lemma save_line buf t :
  t <> [] -> length t < length buf ->
  (buf ← memcpy buf 0 (replicate (length t + 1) NUL); memcpy buf 0 t) = Ret (saved buf t).
Proof.
  intros Hne Hl. rewrite memcpy_ok by (rewrite length_replicate; lia). rewrite bind_Ret.
  rewrite !length_replicate, take_0, app_nil_l, Nat.add_0_l.
  rewrite memcpy_ok by (rewrite length_app, length_replicate, length_drop; lia).
  destruct t as [|c t']; [done|]. set (t := c :: t') in *. unfold saved. fold t.
  replace (match t with [] => buf | _ :: _ => t ++ NUL :: drop (length t + 1) buf end)
    with (t ++ NUL :: drop (length t + 1) buf) by done.
  rewrite take_0, app_nil_l, Nat.add_0_l. f_equal. f_equal.
  rewrite drop_app_le by (rewrite length_replicate; lia). rewrite drop_replicate.
  replace (length t + 1 - length t) with 1 by lia. done.
Qed.

Lemma holds_saved lo t n : no_nul t -> one_line t -> length t < length (lo_buf lo) ->
  holds (mk_leftover (saved (lo_buf lo) t) (length t) n) t.
Proof.
  intros Hn Ho Hl. split; [done|]. split; [|done]. cbn [lo_buf]. destruct t as [|c t]; [done|].
  unfold saved. apply take_app_length.
Qed.

Lemma line_loop_lines pre ls tl lo n s :
  Forall full_line ls -> Forall Q ls -> P s -> one_line tl -> length tl < length (lo_buf lo) ->
  line_loop line_fn (pre ++ unlines ls ++ tl) (length (pre ++ unlines ls ++ tl))
      (ls ++ match tl with [] => [] | _ => [tl] end) (length pre) n (Some lo) s =
    (s ← fold_lines ls s;
     Ret (Some (length (pre ++ unlines ls ++ tl)), n + length ls,
          Some (match tl with [] => lo | _ => mk_leftover (saved (lo_buf lo) tl) (length tl) (lo_line_count lo) end),
          s)).
Proof.
  intros Hf Hq Hps Ht Hl. revert pre n s Hq Hps. induction Hf as [|l ls [Hl1 Hne] _ IH]; intros pre n s Hq Hps.
  - cbn [fold_lines length app]. rewrite bind_Ret, Nat.add_0_r. unfold unlines; cbn [map concat app].
    destruct tl as [|c tl']; [by rewrite app_nil_r|]. set (tl := c :: tl') in *.
    cbn [line_loop]. rewrite length_app, Nat.eqb_refl.
    assert (exists x, (pre ++ tl) !! (length pre + length tl - 1) = Some x /\ x ∈ tl) as (x & Hx & Hin).
    { destruct (lookup_lt_is_Some_2 tl (length tl - 1)) as [x Hx]; [cbn [length tl]; lia|].
      exists x. split; [|by eapply list_elem_of_lookup_2].
      rewrite lookup_app_r by (cbn [length tl]; lia). rewrite <-Hx. f_equal. cbn [length tl]; lia. }
    unfold load. rewrite Hx. cbn [of_option]. rewrite !bind_Ret.
    rewrite bool_decide_eq_false_2 by (intros ->; done). cbn [negb].
    rewrite <-bind_assoc. rewrite save_line by done. by rewrite bind_Ret.
  - cbn [app line_loop fold_lines]. unfold unlines. cbn [map concat].
    rewrite <-!app_assoc. cbn [app].
    destruct (length pre + length l =? _) eqn:E; bool_hyps.
    { rewrite !length_app in E. cbn [length] in E. lia. }
    rewrite bind_Ret, bind_assoc. apply bind_ext. intros [s' b] Hs.
    apply Forall_cons in Hq as [Hql Hq]. apply (line_fn_continues _ _ _ _ Hql Hps) in Hs as [-> Hps'].
    specialize (IH (pre ++ l ++ [newline_char]) (n + 1) s' Hq Hps').
    unfold unlines in IH. rewrite <-!app_assoc in IH. cbn [app] in IH.
    replace (length (pre ++ l ++ [newline_char])) with (length pre + length l + 1) in IH
      by (rewrite !length_app; cbn [length]; lia).
    rewrite IH. cbn [length]. by replace (n + 1 + length ls) with (n + S (length ls)) by lia.
Qed.

Lemma no_nul_tail t ls tl : cut_lines t = (ls, tl) -> no_nul t -> no_nul tl.
Proof. intros (-> & _ & _)%cut_lines_spec [_ ?]%no_nul_app. done. Qed.

Lemma holds_text lo tl piece :
  holds lo tl ->
  (if lo_size lo =? 0 then (piece, length piece)
   else (c_str (take (lo_size lo) (lo_buf lo)) ++ piece, length piece + lo_size lo)) =
  (tl ++ piece, length (tl ++ piece)).
Proof.
  intros (Hs & Ht & Hn & _). rewrite Hs, Ht, c_str_no_nul by done. destruct tl as [|c tl]; [done|].
  cbn [length Nat.eqb]. f_equal. rewrite length_app. cbn [length]. lia.
Qed.

(** What one piece of output does: [tl] was left over, [ls] are the lines now complete. *)
Lemma foreach_line_piece piece rest lo tl ls tl' s :
  no_nul piece -> holds lo tl -> cut_lines (tl ++ piece) = (ls, tl') ->
  Forall (fun l => l <> []) ls -> Forall Q ls -> P s -> length tl' < length (lo_buf lo) ->
  let lo' := mk_leftover (saved (lo_buf lo) tl') (length tl') (length ls) in
  holds lo' tl' /\ length (lo_buf lo') = length (lo_buf lo) /\
  exists consumed, 0 <= consumed /\
  foreach_line line_fn (piece ++ NUL :: rest) (Some lo) s =
    (s ← fold_lines ls s; Ret (Z.of_nat consumed, Some lo', s)).
Proof.
  intros Hp Hh Hc Hne HQ HP Hl lo'. pose proof (cut_lines_spec _ _ _ Hc) as (He & Hf & Ht).
  pose proof Hh as (_ & _ & Htl & _).
  assert (no_nul tl') as Hn' by (eapply no_nul_tail; [exact Hc|by apply no_nul_app]).
  assert (Forall full_line ls) as Hfull by (apply Forall_and; by split).
  split; [by apply holds_saved|]. split; [by apply length_saved|].
  exists (length (tl ++ piece)). split; [lia|].
  unfold foreach_line. rewrite c_str_app_nul by done. cbv beta iota zeta.
  match goal with |- context [if lo_size lo =? 0 then ?x else ?y] =>
    replace (if lo_size lo =? 0 then x else y) with (tl ++ piece, length (tl ++ piece))
      by (symmetry; by apply holds_text) end.
  cbn [option_map].
  rewrite He. rewrite strtok_lines by done.
  pose proof (line_loop_lines [] ls tl' (mk_leftover (lo_buf lo) 0 0) 0 s Hfull HQ HP Ht Hl) as Hloop.
  cbn [app length lo_buf lo_line_count] in Hloop. rewrite Hloop. rewrite bind_assoc.
  apply bind_ext. intros s' _. rewrite bind_Ret. unfold lo'. by destruct tl'.
Qed.

Lemma lines_buffer_fn_piece piece rest lo tl ls tl' s :
  no_nul piece -> holds lo tl -> cut_lines (tl ++ piece) = (ls, tl') ->
  Forall (fun l => l <> []) ls -> Forall Q ls -> P s -> length tl' < length (lo_buf lo) -> rest <> [] ->
  let lo' := mk_leftover (saved (lo_buf lo) tl') (length tl') (length ls) in
  lines_buffer_fn line_fn (mk_lines_ctx lo 0 s) (piece ++ rest) 0 (length piece) =
    (s ← fold_lines ls s;
     Ret (mk_lines_ctx lo' 0 s, piece ++ NUL :: drop 1 rest, Z.of_nat (length piece))).
Proof.
  intros Hp Hh Hc Hne HQ HP Hl Hr lo'. unfold lines_buffer_fn, store. rewrite length_app, Nat.add_0_l.
  destruct rest as [|c rest]; [done|]. cbn [length drop].
  destruct (_ <? _) eqn:E; bool_hyps; [|lia]. rewrite bind_Ret.
  rewrite insert_app_r_alt, Nat.sub_diag by lia. cbn [insert list_insert].
  rewrite drop_0. cbn [leftover lines_state no_line_count].
  destruct (foreach_line_piece piece rest lo tl ls tl' s Hp Hh Hc Hne HQ HP Hl) as (_ & _ & n & _ & ->).
  fold lo'. rewrite bind_assoc. apply bind_ext. intros s' _. rewrite bind_Ret. cbn [of_option].
  rewrite bind_Ret. destruct (Z.of_nat n <? 0)%Z eqn:En; [apply Z.ltb_lt in En; lia|].
  by destruct (lo_line_count lo' =? 0).
Qed.

Lemma consume_piece piece rest lo tl ls tl' s :
  no_nul piece -> holds lo tl -> cut_lines (tl ++ piece) = (ls, tl') ->
  Forall (fun l => l <> []) ls -> Forall Q ls -> P s -> length tl' < length (lo_buf lo) -> rest <> [] -> piece <> [] ->
  consume_loop (lines_buffer_fn line_fn) (length piece) (mk_lines_ctx lo 0 s) (piece ++ rest) 0 (length piece) =
    (s ← fold_lines ls s;
     Ret (mk_lines_ctx (mk_leftover (saved (lo_buf lo) tl') (length tl') (length ls)) 0 s,
          piece ++ NUL :: drop 1 rest)).
Proof.
  intros Hp Hh Hc Hne HQ HP Hl Hr Hpn.
  assert (exists k, length piece = S k) as [k Hk] by (destruct piece; [done|by eexists]).
  rewrite Hk at 1. cbn [consume_loop].
  destruct (length piece =? 0) eqn:E0; bool_hyps; [lia|].
  rewrite (lines_buffer_fn_piece piece rest lo tl ls tl') by done. rewrite bind_assoc.
  apply bind_ext. intros s' _. rewrite bind_Ret.
  destruct (Z.of_nat (length piece) <? 0)%Z eqn:E1; [apply Z.ltb_lt in E1; lia|].
  rewrite Nat2Z.id. by rewrite Nat.ltb_irrefl.
Qed.

(** A line under construction is no longer than the line it becomes. *)
Lemma tail_short tl rest ls tl' n :
  one_line tl -> cut_lines (tl ++ rest) = (ls, tl') ->
  Forall (fun l => length l < n) (tl' :: ls) -> length tl < n.
Proof.
  intros Ho Hc Hf. unfold cut_lines in Hc.
  rewrite (cut_from_app [] tl rest [] tl) in Hc by (by rewrite cut_from_one). cbn [app] in Hc.
  enough (exists l, l ∈ tl' :: ls /\ length tl <= length l) as (l & Hin & Hle).
  { rewrite Forall_forall in Hf. specialize (Hf l Hin). lia. }
  rewrite <-(length_rev tl). generalize (rev tl), Hc. clear. intros cur.
  revert cur. induction rest as [|c rest IH]; simpl; intros cur H.
  - simplify_eq. exists (rev cur). rewrite length_rev. split; [left|done].
  - case_bool_decide.
    + destruct (cut_from [] rest). simplify_eq. exists (rev cur). rewrite length_rev.
      split; [right; left|done].
    + destruct (IH (c :: cur)) as (l & Hl & Hle); [by destruct (cut_from (c :: cur) rest)|].
      exists l. cbn [length] in Hle. split; [done|lia].
Qed.

(** The pieces that a buffer of [n] bytes can take. *)
Definition piece_ok (n : nat) (p : text) : Prop := p <> [] /\ length p <= n /\ no_nul p.

Lemma read_loop_lines pieces n lo tl output ls tl' :
  Forall (piece_ok n) pieces -> n < length output -> holds lo tl ->
  cut_lines (tl ++ concat pieces) = (ls, tl') ->
  Forall (fun l => l <> []) ls -> Forall Q ls ->
  Forall (fun l => length l < length (lo_buf lo)) (tl' :: ls) ->
  exists lo' output', holds lo' tl' /\ forall s, P s ->
    read_loop (lines_buffer_fn line_fn) n pieces (mk_lines_ctx lo 0 s) output =
      (s ← fold_lines ls s; Ret (mk_lines_ctx lo' 0 s, output')).
Proof.
  intros Hp. revert lo tl output ls.
  induction Hp as [|p ps (Hne & Hlen & Hnul) _ IH]; intros lo tl output ls Hn Hh Hc Hb HQ Hl.
  - cbn [concat] in Hc. rewrite app_nil_r in Hc. unfold cut_lines in Hc.
    rewrite cut_from_one in Hc by apply Hh. cbn [rev app] in Hc. simplify_eq. by exists lo, output.
  - cbn [concat] in Hc. rewrite app_assoc in Hc.
    destruct (cut_lines (tl ++ p)) as [ls1 tl1] eqn:E1.
    rewrite (cut_lines_app _ _ _ _ E1) in Hc.
    destruct (cut_lines (tl1 ++ concat ps)) as [ls2 tl2] eqn:E2. simplify_eq.
    apply Forall_app in Hb as [Hb1 Hb2]. apply Forall_app in HQ as [HQ1 HQ2]. apply Forall_cons in Hl as [Hlt Hl].
    pose proof Hl as [Hl1 Hl2]%Forall_app.
    assert (length tl1 < length (lo_buf lo)) as Hs.
    { eapply tail_short; [|exact E2|by constructor]. by apply cut_lines_spec in E1 as (_ & _ & ?). }
    assert (no_nul tl1) as Hnn by (eapply no_nul_tail; [exact E1|]; apply no_nul_app; split; [apply Hh|done]).
    set (lo1 := mk_leftover (saved (lo_buf lo) tl1) (length tl1) (length ls1)).
    set (out1 := p ++ NUL :: drop 1 (drop (length p) output)).
    destruct (IH lo1 tl1 out1 ls2) as (lo' & out' & Hho & Hr); [| |done|done|done| |].
    { unfold out1. rewrite length_app. cbn [length]. rewrite !length_drop. lia. }
    { apply holds_saved; [done|by apply cut_lines_spec in E1 as (_ & _ & ?)|done]. }
    { unfold lo1; cbn [lo_buf]. rewrite length_saved by done. by constructor. }
    exists lo', out'. split; [done|]. intros s HP.
    cbn [read_loop]. destruct (length p =? 0) eqn:E0; bool_hyps; [by destruct p|].
    destruct (n <? length p) eqn:En; bool_hyps; [lia|].
    rewrite memcpy_ok by lia. rewrite bind_Ret, take_0, app_nil_l, Nat.add_0_l.
    rewrite (consume_piece p _ lo tl ls1 tl1) by (done || (intros Hx; apply (f_equal length) in Hx;
      rewrite length_drop in Hx; cbn [length] in Hx; lia)).
    rewrite fold_lines_app, !bind_assoc. apply bind_ext. intros s1 Hs1. rewrite bind_Ret.
    apply Hr. exact (fold_lines_inv ls1 s s1 HQ1 HP Hs1).
Qed.

(** The output of a command reaches the line function line by line.  However the output is
    cut into pieces by the reads, as long as it has no NUL and no blank line and no line fills
    the leftover buffer, running the command with the buffer function of a query is the same as
    passing the complete lines of the whole output to the line function, each once and in order
    (if a line is undefined behaviour, so is the run); what follows the last newline stays in
    the leftover buffer and is never passed on. *)
Lemma run_lines ch lo output n ls tl :
  started ch = true -> Forall (piece_ok n) (reads ch) -> n < length output -> lo_size lo = 0 ->
  cut_lines (concat (reads ch)) = (ls, tl) ->
  Forall (fun l => l <> []) ls -> Forall Q ls -> Forall (fun l => length l < length (lo_buf lo)) (tl :: ls) ->
  exists lo' output', holds lo' tl /\ forall s, P s ->
    run_command (lines_buffer_fn line_fn) ch output n (mk_lines_ctx lo 0 s) =
      (s ← fold_lines ls s; Ret (status ch, mk_lines_ctx lo' 0 s, output')).
Proof.
  intros Hst Hp Hn Hlo Hc Hb HQ Hl.
  destruct (read_loop_lines (reads ch) n lo [] output ls tl) as (lo' & out' & Hh & Hr); try done.
  { split; [done|]. split; [done|]. split; apply not_elem_of_nil. }
  exists lo', out'. split; [done|]. intros s HP. unfold run_command. rewrite Hst. cbn [negb].
  rewrite Hr, bind_assoc by done. by apply bind_ext.
Qed.

End every_line.

Section any_cut.
Context {St : Type}.
Variable line_fn : text -> St -> outcome (St * bool).
(** The line function goes on after the lines [Q] that it meets in states [P]. *)
Variable P : St -> Prop.
Variable Q : text -> Prop.
Hypothesis line_fn_continues : forall l s s' b,
  Q l -> P s -> line_fn l s = Ret (s', b) -> b = true /\ P s'.

(** C9: the output of a command reaches the line function line by line.  For a line function that
    never asks to stop at the lines of this output (the one of the file descriptor query asks to
    stop at a file name that is too long), and as long as the output has no NUL and no blank line
    and no line fills the leftover buffer: however the reads cut the output into pieces, running
    the command with the buffer function of a query is the same as passing the complete lines of
    the whole output to the line function, each once and in order (if a line is undefined
    behaviour, so is the run), with what follows the last newline left in the leftover buffer;
    and any other way of cutting the same output gives the same result. *)
Theorem run_command_lines ch ch' lo output n ls tl s :
  started ch = true -> started ch' = true -> status ch' = status ch ->
  Forall (piece_ok n) (reads ch) -> Forall (piece_ok n) (reads ch') ->
  concat (reads ch) = concat (reads ch') ->
  n < length output -> lo_size lo = 0 -> cut_lines (concat (reads ch)) = (ls, tl) ->
  Forall (fun l => l <> []) ls -> Forall (fun l => length l < length (lo_buf lo)) (tl :: ls) ->
  Forall Q ls -> P s ->
  let result r := '(rc, ctx, _) ← r; Ret (rc, take (lo_size (leftover ctx)) (lo_buf (leftover ctx)), lines_state ctx) in
  let run c := result (run_command (lines_buffer_fn line_fn) c output n (mk_lines_ctx lo 0 s)) in
  run ch = (s ← fold_lines line_fn ls s; Ret (status ch, tl, s)) /\ run ch' = run ch.
Proof.
  intros Hst Hst' Hss Hp Hp' Heq Hn Hlo Hc Hb Hl HQ HP result run.
  assert (forall c, started c = true -> Forall (piece_ok n) (reads c) ->
            cut_lines (concat (reads c)) = (ls, tl) ->
            run c = (s ← fold_lines line_fn ls s; Ret (status c, tl, s))) as Hrun.
  { intros c Hc1 Hc2 Hc3. unfold run, result.
    destruct (run_lines line_fn P Q line_fn_continues c lo output n ls tl)
      as (lo' & out' & (Hsz & Htk & _) & ->); try done.
    rewrite bind_assoc. apply bind_ext. intros s' _. rewrite bind_Ret. cbn [leftover lines_state].
    by rewrite Hsz, Htk. }
  rewrite (Hrun ch), (Hrun ch') by congruence. by rewrite Hss.
Qed.
End any_cut.

Lemma run_command_lines_witness :
  let collect (l : text) (s : list text) := Ret (s ++ [l], true) in
  let run c := '(rc, ctx, _) ← run_command (lines_buffer_fn collect) c (replicate 9 NUL) 8
                 (mk_lines_ctx (mk_leftover (replicate 9 NUL) 0 0) 0 []);
               Ret (rc, take (lo_size (leftover ctx)) (lo_buf (leftover ctx)), lines_state ctx) in
  let out := text_of "ab" ++ [newline_char] ++ text_of "c" ++ [newline_char] ++ text_of "d" in
  run (mk_child true [out] 0) = Ret (0%Z, text_of "d", [text_of "ab"; text_of "c"]) /\
  run (mk_child true [take 1 out; drop 1 out] 0) = run (mk_child true [out] 0).
Proof.
  intros collect run out.
  apply (run_command_lines collect (fun _ => True) (fun _ => True) ltac:(by intros ? ? ? ? _ _ [= _ <-])
           (mk_child true [out] 0)
           (mk_child true [take 1 out; drop 1 out] 0) (mk_leftover (replicate 9 NUL) 0 0)
           (replicate 9 NUL) 8 [text_of "ab"; text_of "c"] (text_of "d") []);
    try reflexivity; repeat constructor; try (intros Hx; discriminate Hx); try (cbn; lia);
    try (apply (bool_decide_unpack _); vm_compute; exact I).
Defined.

(** ** What the conditions are for *)

Section partial_lines.
Context {St : Type}.
Variable line_fn : text -> St -> outcome (St * bool).

(** A piece without a newline is added to the leftover. *)
Lemma foreach_line_partial lo tl piece rest s :
  holds lo tl -> no_nul piece -> one_line piece -> tl ++ piece <> [] ->
  foreach_line line_fn (piece ++ NUL :: rest) (Some lo) s =
    (buf ← (buf ← memcpy (lo_buf lo) 0 (replicate (length (tl ++ piece) + 1) NUL);
            memcpy buf 0 (tl ++ piece));
     Ret (Z.of_nat (length (tl ++ piece)), Some (mk_leftover buf (length (tl ++ piece)) 0), s)).
Proof.
  intros Hh Hp Ho Hne. pose proof Hh as (_ & _ & _ & Ht).
  assert (one_line (tl ++ piece)) as Hl by (unfold one_line in *; rewrite elem_of_app; tauto).
  unfold foreach_line. rewrite c_str_app_nul by done. cbv beta iota zeta.
  match goal with |- context [if lo_size lo =? 0 then ?x else ?y] =>
    replace (if lo_size lo =? 0 then x else y) with (tl ++ piece, length (tl ++ piece))
      by (symmetry; by apply holds_text) end.
  cbn [option_map]. rewrite strtok_one by (try apply one_line_seps; done).
  generalize dependent (tl ++ piece). intros t Hne Hl. cbn [line_loop].
  rewrite Nat.add_0_l, Nat.eqb_refl.
  destruct (lookup_lt_is_Some_2 t (length t - 1)) as [x Hx]; [destruct t; cbn [length]; [done|lia]|].
  unfold load. rewrite Hx. cbn [of_option]. rewrite !bind_Ret.
  rewrite bool_decide_eq_false_2 by (intros ->; apply Hl; by eapply list_elem_of_lookup_2).
  cbn [negb lo_buf lo_line_count]. rewrite <-(bind_assoc _ (fun buf => memcpy buf 0 t)), !bind_assoc.
  apply bind_ext. intros buf _. apply bind_ext. intros buf' _. by rewrite !bind_Ret.
Qed.

Lemma memcpy_over {A} (d : list A) off src : length d < off + length src -> memcpy d off src = Undef.
Proof. intros. unfold memcpy. by destruct (_ <=? _) eqn:E; bool_hyps; [lia|]. Qed.

Lemma drop_nonempty {A} (l : list A) n : n < length l -> drop n l <> [].
Proof. intros Hn Hx. apply (f_equal length) in Hx. rewrite length_drop in Hx. cbn [length] in Hx. lia. Qed.

Lemma consume_partial lo tl p rest s :
  holds lo tl -> p <> [] -> no_nul p -> one_line p -> rest <> [] ->
  consume_loop (lines_buffer_fn line_fn) (length p) (mk_lines_ctx lo 0 s) (p ++ rest) 0 (length p) =
    (buf ← (buf ← memcpy (lo_buf lo) 0 (replicate (length (tl ++ p) + 1) NUL);
            memcpy buf 0 (tl ++ p));
     Ret (mk_lines_ctx (mk_leftover buf (length (tl ++ p)) 0) 0 s, p ++ NUL :: drop 1 rest)).
Proof.
  intros Hh Hne Hn Ho Hr.
  assert (exists k, length p = S k) as [k Hk] by (destruct p; [done|by eexists]).
  assert (tl ++ p <> []) as Hne' by (destruct tl, p; done).
  rewrite Hk at 1. cbn [consume_loop]. destruct (length p =? 0) eqn:E0; bool_hyps; [lia|].
  destruct rest as [|c rest]; [done|]. unfold lines_buffer_fn, store. rewrite length_app, Nat.add_0_l.
  cbn [length drop]. destruct (_ <? _) eqn:E; bool_hyps; [|lia]. rewrite !bind_Ret.
  rewrite insert_app_r_alt, Nat.sub_diag by lia. cbn [insert list_insert].
  rewrite drop_0. cbn [leftover lines_state no_line_count].
  rewrite (foreach_line_partial lo tl) by done. rewrite !bind_assoc.
  apply bind_ext. intros buf _. apply bind_ext. intros buf' _.
  rewrite !bind_Ret. cbn [of_option]. rewrite !bind_Ret.
  destruct (Z.of_nat (length (tl ++ p)) <? 0)%Z eqn:En; [apply Z.ltb_lt in En; lia|].
  cbn [lo_line_count Nat.eqb Nat.add Nat.leb andb]. rewrite bind_Ret.
  destruct (Z.of_nat (length p) <? 0)%Z eqn:E1; [apply Z.ltb_lt in E1; lia|].
  rewrite Nat2Z.id. by rewrite Nat.ltb_irrefl.
Qed.

(** A line that does not fit is written past the leftover buffer.  The buffer functions mean
    to stop when two pieces in a row have no newline, but they clear their count after every
    piece, so the test never holds: two pieces without a newline that are together as long as
    the leftover buffer make [foreach_line] write outside of it. *)
Theorem long_line_overflows ch lo output n p1 p2 ps s :
  started ch = true -> reads ch = p1 :: p2 :: ps -> Forall (piece_ok n) (reads ch) ->
  n < length output -> lo_size lo = 0 -> one_line (p1 ++ p2) ->
  length p1 < length (lo_buf lo) <= length (p1 ++ p2) ->
  run_command (lines_buffer_fn line_fn) ch output n (mk_lines_ctx lo 0 s) = Undef.
Proof.
  intros Hst Hr Hp Hn Hlo Ho [Hl1 Hl2]. rewrite Hr in Hp.
  apply Forall_cons in Hp as [(Hne1 & Hlen1 & Hnul1) Hp].
  apply Forall_cons in Hp as [(Hne2 & Hlen2 & Hnul2) _].
  assert (one_line p1 /\ one_line p2) as [Ho1 Ho2]
    by (unfold one_line in *; rewrite elem_of_app in Ho; tauto).
  assert (holds lo []) as Hh
    by (split; [done|]; split; [done|]; split; apply not_elem_of_nil).
  unfold run_command. rewrite Hst, Hr. cbn [negb read_loop].
  destruct (length p1 =? 0) eqn:E1; bool_hyps; [by destruct p1|].
  destruct (length p2 =? 0) eqn:E2; bool_hyps; [by destruct p2|].
  destruct (n <? length p1) eqn:E3; bool_hyps; [lia|].
  destruct (n <? length p2) eqn:E4; bool_hyps; [lia|].
  rewrite memcpy_ok, bind_Ret, take_0, app_nil_l, Nat.add_0_l by lia.
  rewrite (consume_partial lo []) by (done || by apply drop_nonempty; lia).
  cbn [app]. rewrite save_line by done. rewrite !bind_Ret.
  rewrite memcpy_ok; cycle 1.
  { rewrite length_app. cbn [length]. rewrite !length_drop. lia. }
  rewrite bind_Ret, take_0, app_nil_l, Nat.add_0_l.
  rewrite (consume_partial _ p1); [| |done..|]; cycle 1.
  { by apply (holds_saved (mk_leftover (lo_buf lo) 0 0)). }
  { apply drop_nonempty. rewrite length_app. cbn [length]. rewrite !length_drop. lia. }
  rewrite memcpy_over; [done|]. cbn [lo_buf]. rewrite length_replicate, length_saved by done. lia.
Qed.
End partial_lines.

Lemma long_line_overflows_witness :
  run_command (lines_buffer_fn (fun _ s => Ret (s, true)))
    (mk_child true [text_of "abc"; text_of "de"] 0) (replicate 4 NUL) 3
    (mk_lines_ctx (mk_leftover (replicate 5 NUL) 0 0) 0 tt) = Undef.
Proof.
  apply (long_line_overflows _ (mk_child true [text_of "abc"; text_of "de"] 0) _ _ 3
           (text_of "abc") (text_of "de") []); try reflexivity; try (cbn; lia);
    repeat constructor; try (intros Hx; discriminate Hx); try (cbn; lia);
    try (apply (bool_decide_unpack _); vm_compute; exact I).
Defined.

(** A blank line hides where the text ends: the beginning of a line is taken for a whole one,
    and its rest for another. *)
Example blank_line_splits_line :
  let collect (l : text) (s : list text) := Ret (s ++ [l], true) in
  let run ps := '(_, ctx, _) ← run_command (lines_buffer_fn collect) (mk_child true ps 0)
                  (replicate 9 NUL) 8 (mk_lines_ctx (mk_leftover (replicate 9 NUL) 0 0) 0 []);
                Ret (lines_state ctx) in
  let nl := [newline_char] in
  run [text_of "a" ++ nl ++ nl ++ text_of "b"; text_of "c" ++ nl] =
    Ret [text_of "a"; text_of "b"; text_of "c"].
Proof. reflexivity. Qed.

(** ** Storing fields *)

(** The fields fit in the arrays of the parser. *)
Definition short (n : nat) (f : text) : bool := (length f <? n) && negb (bool_decide (NUL ∈ f)).

(** The C string in an array. *)
Definition is_str (a s : text) : Prop := buf_str a = Ret s.

Section storing.
Context `{!Doubles}.

Lemma short_spec n f : short n f = true -> length f < n /\ no_nul f.
Proof.
  unfold short, no_nul. rewrite andb_true_iff, negb_true_iff, Nat.ltb_lt, bool_decide_eq_false. tauto.
Qed.

(** An array of the parser after its field has been stored. *)
Lemma convert_str n m d (f : text) buf next desc :
  n = m -> length buf = n -> short n f = true ->
  convert_field (mk_spec FT_STR next desc m d) f (O_str buf) = Ret (Some (O_str (pad n f))).
Proof.
  intros -> Hb [Hl _]%short_spec. unfold convert_field. cbn [spec_type buflen strncpy_object].
  by rewrite strncpy_pad by lia.
Qed.

Lemma fields_step specs final f fs n env sp o r :
  specs !! n = Some sp -> (n =? final) = false -> env !! dst sp = Some o ->
  convert_field sp f o = Ret (Some r) ->
  fields_loop specs final (f :: fs) n env = fields_loop specs final fs (spec_next sp) (<[dst sp := r]> env).
Proof. intros Hs Hn He Hc. cbn [fields_loop]. rewrite Hs. cbn [of_option].
  rewrite bind_Ret, Hn, He. cbn [of_option]. by rewrite bind_Ret, Hc, bind_Ret. Qed.

Lemma fields_stop specs final f fs n env sp o :
  specs !! n = Some sp -> (n =? final) = false -> env !! dst sp = Some o ->
  convert_field sp f o = Ret None -> fields_loop specs final (f :: fs) n env = Ret (false, env).
Proof. intros Hs Hn He Hc. cbn [fields_loop]. rewrite Hs. cbn [of_option].
  rewrite bind_Ret, Hn, He. cbn [of_option]. by rewrite bind_Ret, Hc, bind_Ret. Qed.

(** What an object is, whatever its value. *)
Definition kind (o : object) : field_type_t * nat :=
  match o with
  | O_u16 _ => (FT_U16, 0) | O_u32 _ => (FT_U32, 0) | O_f64 _ => (FT_F64, 0) | O_str b => (FT_STR, length b)
  end.

(** The object that a specification names can take its field. *)
Definition fits_spec (sp : line_spec_t) (k : field_type_t * nat) : bool :=
  match spec_type sp, k with
  | FT_U16, (FT_U16, _) | FT_U32, (FT_U32, _) | FT_F64, (FT_F64, _) => true
  | FT_STR, (FT_STR, n) => buflen sp <=? n
  | FT_STR, _ => buflen sp =? 0
  | _, _ => false
  end.

(** The states follow each other up to the last and their objects fit. *)
Definition specs_fit (specs : list line_spec_t) (final : nat) (kinds : list (field_type_t * nat)) : bool :=
  (final <? length specs) &&
  forallb (fun i => match specs !! i with
                    | Some sp => (spec_next sp =? S i) &&
                        match kinds !! dst sp with Some k => fits_spec sp k | None => false end
                    | None => false
                    end) (seq 0 final).

Lemma convert_kind sp f o :
  fits_spec sp (kind o) = true ->
  exists r, convert_field sp f o = Ret r /\ forall o', r = Some o' -> kind o' = kind o.
Proof.
  unfold fits_spec, convert_field. destruct (spec_type sp), o as [v|v|v|b]; cbn [kind]; intros Hfit; try discriminate Hfit.
  - destruct (strtod_all _) as [[] ?]; eexists; (split; [reflexivity|]); intros o' Ho'; by simplify_eq/=.
  - destruct (strtoul_all _) as [[] ?]; eexists; (split; [reflexivity|]); intros o' Ho'; by simplify_eq/=.
  - destruct (strtoul_all _) as [[] ?]; eexists; (split; [reflexivity|]); intros o' Ho'; by simplify_eq/=.
  - cbn [strncpy_object]. rewrite Hfit, bind_Ret. eexists. split; [reflexivity|]. intros o' Ho'; by simplify_eq/=.
  - cbn [strncpy_object]. rewrite Hfit, bind_Ret. eexists. split; [reflexivity|]. intros o' Ho'; by simplify_eq/=.
  - cbn [strncpy_object]. rewrite Hfit, bind_Ret. eexists. split; [reflexivity|]. intros o' Ho'; by simplify_eq/=.
  - bool_hyps. cbn [strncpy_object]. unfold strncpy.
    rewrite memcpy_ok by (rewrite length_take, length_app, length_replicate; lia). rewrite !bind_Ret.
    eexists. split; [reflexivity|]. intros o' Ho'. simplify_eq. cbn [kind]. f_equal.
    rewrite take_0, app_nil_l, length_app, length_drop, length_take, length_app, length_replicate. lia.
Qed.

(** A line with another number of fields is refused, whatever its fields are. *)
Lemma fields_miscounted specs final fs n env :
  specs_fit specs final (kind <$> env) = true -> n <= final -> length fs <> final - n ->
  exists env', fields_loop specs final fs n env = Ret (false, env').
Proof.
  intros Hfit. pose proof Hfit as [Hlen Hall]%andb_true_iff. bool_hyps.
  rewrite forallb_forall in Hall.
  revert n env Hfit Hall. induction fs as [|f fs IH]; intros n env Hfit Hall Hn Hc; cbn [fields_loop].
  - cbn [length] in Hc. rewrite (proj2 (Nat.eqb_neq n final)) by lia.
    destruct (lookup_lt_is_Some_2 specs n) as [sp ->]; [lia|]. by eexists.
  - destruct (lookup_lt_is_Some_2 specs n) as [sp Hsp]; [lia|]. rewrite Hsp. cbn [of_option]. rewrite bind_Ret.
    destruct (n =? final) eqn:En; bool_hyps; [by eexists|].
    pose proof (Hall n) as Hat. rewrite Hsp, list_lookup_fmap in Hat.
    apply andb_true_iff in Hat as [Hnext Hk]; [|apply in_seq; lia]. bool_hyps.
    destruct (env !! dst sp) as [o|] eqn:Eo; [|discriminate Hk]. cbn [fmap option_fmap option_map of_option] in *.
    rewrite bind_Ret. destruct (convert_kind sp f o Hk) as (r & -> & Hr). rewrite bind_Ret.
    destruct r as [o'|]; [|by eexists].
    assert (kind <$> <[dst sp := o']> env = kind <$> env) as Hkinds.
    { rewrite list_fmap_insert, (Hr o' eq_refl). apply list_insert_id. by rewrite list_lookup_fmap, Eo. }
    rewrite Hnext. apply IH; rewrite ?Hkinds; [done|done|lia|cbn [length] in Hc; lia].
Qed.

Lemma is_str_pad n f : short n f = true -> is_str (pad n f) f.
Proof. intros [? ?]%short_spec. by apply buf_str_pad. Qed.

End storing.

(** Store one string field of a line. *)
Ltac str_field H :=
  erewrite fields_step; [|reflexivity|reflexivity|reflexivity|
    apply convert_str; [reflexivity| |exact H];
    first [apply length_replicate | apply length_pad; apply Nat.lt_le_incl; eapply short_spec; eassumption]];
  cbn [spec_next dst insert list_insert].

(** ** A command without a function

    What its output is, up to the first read that returns nothing, and what the buffer then holds:
    as much of it as fits, terminated. *)

Definition printed (ch : child) : text :=
  concat (take_while (fun p => negb (length p =? 0)) (reads ch)).

Lemma fill_loop_printed pieces acc size :
  length acc <= size ->
  let p := take size (acc ++ concat (take_while (fun p => negb (length p =? 0)) pieces)) in
  fill_loop pieces (length acc) size (pad size acc) = Ret (length p, pad size p).
Proof.
  revert acc. induction pieces as [|piece pieces IH]; intros acc Hacc.
  - cbn. by rewrite app_nil_r, take_ge by lia.
  - cbn [fill_loop]. destruct (size <=? length acc) eqn:E; bool_hyps.
    + cbn zeta. by rewrite take_app_le, take_ge by lia.
    + set (got := take (size - length acc) piece). cbn [take_while].
      destruct (length got =? 0) eqn:Eg; bool_hyps.
      * assert (length piece = 0) as Hp by (unfold got in Eg; rewrite length_take in Eg; lia).
        rewrite Hp. cbn. by rewrite app_nil_r, take_ge by lia.
      * assert (length piece <> 0) as Hp by (intros Hp; apply Eg; unfold got; rewrite length_take; lia).
        destruct (length piece =? 0) eqn:Ep; bool_hyps; [done|]. cbn [negb concat].
        assert (length got <= size - length acc) as Hg by (unfold got; rewrite length_take; lia).
        rewrite memcpy_ok by (rewrite length_pad; lia). rewrite bind_Ret.
        assert (take (length acc) (pad size acc) ++ got ++ drop (length acc + length got) (pad size acc)
                = pad size (acc ++ got)) as ->.
        { unfold pad. rewrite take_app_length, drop_app_ge, drop_replicate, length_app, <-app_assoc by lia.
          do 3 f_equal. lia. }
        rewrite <-length_app, IH by (rewrite length_app; lia). cbn zeta.
        assert (forall rest, take size ((acc ++ got) ++ rest) =
                take size (acc ++ piece ++ rest) \/ size <= length acc + length got) as Hsplit.
        { intros rest. destruct (decide (length piece <= size - length acc)).
          - left. unfold got. rewrite (take_ge piece) by lia. by rewrite <-app_assoc.
          - right. unfold got. rewrite length_take. lia. }
        destruct (Hsplit (concat (take_while (fun p => negb (length p =? 0)) pieces))) as [->|Hfull]; [done|].
        rewrite take_app_le by (rewrite length_app; lia).
        assert (take size (acc ++ got) = take size (acc ++ piece ++ concat (take_while (fun p => negb (length p =? 0)) pieces))) as ->; [|done].
        rewrite take_ge by (rewrite length_app; lia). rewrite take_app_ge by lia. f_equal.
        unfold got in *. rewrite length_take in *. rewrite take_app_le by lia. done.
Qed.

Lemma run_with_stdin_file_printed ch size :
  0 < size ->
  run_with_stdin_file ch (replicate size NUL) size =
  Ret (if started ch then (status ch, pad size (take (size - 1) (printed ch))) else (1%Z, replicate size NUL)).
Proof.
  intros Hs. unfold run_with_stdin_file. destruct (started ch); [|done]. cbn [negb].
  pose proof (fill_loop_printed (reads ch) [] size ltac:(simpl; lia)) as H. cbn [length app] in H.
  replace (pad size []) with (replicate size NUL) in H by (unfold pad; simpl; by rewrite Nat.sub_0_r).
  rewrite H, bind_Ret. fold (printed ch). set (p := printed ch). clear H.
  destruct (size <=? length (take size p)) eqn:E; bool_hyps; rewrite length_take in E.
  - rewrite store_ok by (rewrite length_pad by (rewrite length_take; lia); lia). rewrite bind_Ret. do 2 f_equal.
    unfold pad. rewrite !length_take, (Nat.min_l size), Nat.sub_diag, app_nil_r by lia.
    rewrite (Nat.min_l (size - 1)) by lia. replace (size - (size - 1)) with 1 by lia.
    rewrite insert_take_drop by (rewrite length_take; lia). rewrite take_take, (Nat.min_l (size - 1)) by lia.
    by rewrite drop_ge by (rewrite length_take; lia).
  - rewrite store_ok by (rewrite length_pad by (rewrite length_take; lia); rewrite length_take; lia). rewrite bind_Ret. do 2 f_equal.
    rewrite (take_ge p), (take_ge p) by lia. apply list_insert_id. unfold pad.
    rewrite lookup_app_r, Nat.sub_diag by lia. apply lookup_replicate_2. lia.
Qed.
