(* ===== verification/ResQuery.v ===== *)
(** * The registry of queries and the monitor's events
    ([resource_monitor/resource_monitor/src/]: [resource_query.c], [resource_monitor.c], [sbp.c])

    Query modules register an interface of functions.  When the update interval is set the
    monitor tears the modules down and initialises them again, in the order of their priorities;
    on every tick of its timer it runs each initialised module and sends the messages that the
    module prepares.  The theorem: over any sequence of events no module is run without a
    context, no context is lost, and leaving frees them all, unless a function of a module fails
    on a context of its own. *)

From Stdlib Require Import Ascii.
From S2P Require Import Prelude.

Inductive resq_property_t :=
  | RESQ_PROP_NONE | RESQ_PROP_U8 | RESQ_PROP_U16 | RESQ_PROP_U32 | RESQ_PROP_U64 | RESQ_PROP_F64
  | RESQ_PROP_STR.

#[export] Instance resq_property_eq_dec : EqDecision resq_property_t.
Proof. solve_decision. Defined.

(** [property] is the number in the union; no module has another kind of property. *)
Record resq_read_property_t := mk_prop { prop_id : Z; prop_type : resq_property_t; property : Z }.

Definition RESQ_PRIORITY_1 : nat := 0.
Definition RESQ_PRIORITY_2 : nat := 1.
Definition RESQ_PRIORITY_COUNT : nat := 4.

Section registry.
(** [W]: the machine that the modules ask; [Msg]: SBP messages. *)
Context {W Msg : Type}.

(** What [init] calls to read a property of another module. *)
Definition reader : Type := string -> resq_read_property_t -> outcome (bool * resq_read_property_t).

(** A module.  [init] returns [None] for NULL; [prepare_sbp] [None] for false. *)
Record resq_interface_t := mk_interface {
  priority : nat;
  ctx_t : Type;
  init : option (reader -> W -> outcome (option ctx_t * W));
  describe : string;
  read_property : option (resq_read_property_t -> ctx_t -> bool * resq_read_property_t);
  run_query : ctx_t -> W -> outcome (ctx_t * W);
  prepare_sbp : ctx_t -> W -> outcome (option Msg * ctx_t * W);
  teardown : option (ctx_t -> W -> outcome W);
}.

(** [context] is [None] for NULL. *)
Record resq_node_t := mk_node {
  query : resq_interface_t;
  init_success : bool;
  context : option (ctx_t query);
}.

(** The registry, the machine, the messages sent, and how many contexts have been made and
    freed. *)
Record registry := mk_registry {
  interface_list : list resq_node_t;
  machine : W;
  sent : list Msg;
  made : nat;
  freed : nat;
}.

Definition set_nodes (r : registry) (l : list resq_node_t) : registry :=
  mk_registry l (machine r) (sent r) (made r) (freed r).

Definition resq_register (q : resq_interface_t) (r : registry) : registry :=
  set_nodes r (mk_node q false None :: interface_list r).

(** The loop of [resq_read_property] over the list. *)
Fixpoint read_loop (l : list resq_node_t) (query_name : string) (p : resq_read_property_t) :
    outcome (bool * resq_read_property_t) :=
  match l with
  | [] => Ret (false, p)
  | node :: l' =>
      if negb (init_success node) then read_loop l' query_name p
      else
        match read_property (query node) with
        | None => read_loop l' query_name p
        | Some f =>
            if negb (bool_decide (query_name = describe (query node))) then read_loop l' query_name p
            else
              c ← of_option (context node);                              (* NULL is dereferenced *)
              let '(ok, p1) := f (mk_prop (prop_id p) RESQ_PROP_NONE 0) c in
              if negb ok then Ret (false, p)
              else if bool_decide (prop_type p1 = RESQ_PROP_NONE) then Ret (false, p)
              else if negb (bool_decide (prop_type p1 = prop_type p)) then Ret (false, p)
              else Ret (true, p1)
        end
  end.

Definition resq_read_property (l : list resq_node_t) : reader := fun query_name p =>
  if bool_decide (prop_type p = RESQ_PROP_NONE) then Ret (false, p) else read_loop l query_name p.

(** ** Initialisation *)

(** One node of the loop of [resq_initialize_all].  The context that was there is overwritten. *)
Definition init_node (i : nat) (r : registry) : outcome registry :=
  node ← of_option (interface_list r !! i);
  let put b c m n := mk_registry (<[i := mk_node (query node) b c]> (interface_list r)) m (sent r) n (freed r) in
  match init (query node) with
  | None => Ret (put true (context node) (machine r) (made r))
  | Some f =>
      '(c, w) ← f (resq_read_property (<[i := mk_node (query node) true (context node)]> (interface_list r)))
                  (machine r);
      match c with
      | None => Ret (put false None w (made r))
      | Some c => Ret (put true (Some c) w (S (made r)))
      end
  end.

(** [LIST_FOREACH] over the nodes of one priority; [idx] are the positions left. *)
Fixpoint init_pass (prio : nat) (idx : list nat) (r : registry) : outcome registry :=
  match idx with
  | [] => Ret r
  | i :: idx' =>
      node ← of_option (interface_list r !! i);
      r ← (if priority (query node) =? prio then init_node i r else Ret r);
      init_pass prio idx' r
  end.

Fixpoint init_priorities (prios : list nat) (r : registry) : outcome registry :=
  match prios with
  | [] => Ret r
  | p :: prios' => r ← init_pass p (seq 0 (length (interface_list r))) r; init_priorities prios' r
  end.

Definition resq_initialize_all (r : registry) : outcome registry :=
  init_priorities (seq RESQ_PRIORITY_1 (RESQ_PRIORITY_COUNT - RESQ_PRIORITY_1)) r.

(** ** Running *)

(** [while (prepare_sbp(...)) sbp_tx_send(...)] *)
Fixpoint send_loop (q : resq_interface_t) (fuel : nat) (c : ctx_t q) (w : W) (out : list Msg) :
    outcome (ctx_t q * W * list Msg) :=
  match fuel with
  | O => Diverge
  | S fuel' =>
      '(m, c, w) ← prepare_sbp q c w;
      match m with
      | None => Ret (c, w, out)
      | Some m => send_loop q fuel' c w (out ++ [m])
      end
  end.

Definition run_node (fuel : nat) (node : resq_node_t) (w : W) (out : list Msg) :
    outcome (resq_node_t * W * list Msg) :=
  if negb (init_success node) then Ret (node, w, out)
  else
    c ← of_option (context node);
    '(c, w) ← run_query (query node) c w;
    '(c, w, out) ← send_loop (query node) fuel c w out;
    Ret (mk_node (query node) (init_success node) (Some c), w, out).

Fixpoint run_nodes (fuel : nat) (l : list resq_node_t) (w : W) (out : list Msg) :
    outcome (list resq_node_t * W * list Msg) :=
  match l with
  | [] => Ret ([], w, out)
  | node :: l' =>
      '(node, w, out) ← run_node fuel node w out;
      '(l', w, out) ← run_nodes fuel l' w out;
      Ret (node :: l', w, out)
  end.

Definition resq_run_all (fuel : nat) (r : registry) : outcome registry :=
  '(l, w, out) ← run_nodes fuel (interface_list r) (machine r) (sent r);
  Ret (mk_registry l w out (made r) (freed r)).

(** What is sent does not depend on what was sent before. *)
Lemma send_loop_out q fuel c w out :
  send_loop q fuel c w out = ('(c, w, o) ← send_loop q fuel c w []; Ret (c, w, out ++ o)).
Proof.
  revert c w out. induction fuel as [|fuel IH]; intros c w out; cbn [send_loop]; [done|].
  destruct (prepare_sbp q c w) as [[[[m|] c'] w']| |]; [|by rewrite !bind_Ret, app_nil_r|done..].
  rewrite !bind_Ret, (IH _ _ (out ++ [m])), (IH _ _ ([] ++ [m])).
  destruct (send_loop q fuel c' w' []) as [[[c2 w2] o]| |]; [|done..].
  rewrite !bind_Ret. by rewrite <-app_assoc.
Qed.

(** ** Teardown *)

(** [teardown(&node->context)]: the modules return at once on NULL, and set the pointer to NULL
    after they freed it. *)
Definition teardown_node (node : resq_node_t) (w : W) (n : nat) : outcome (resq_node_t * W * nat) :=
  match teardown (query node), context node with
  | Some f, Some c =>
      if init_success node
      then w ← f c w; Ret (mk_node (query node) (init_success node) None, w, S n)
      else Ret (node, w, n)
  | _, _ => Ret (node, w, n)
  end.

Fixpoint teardown_nodes (l : list resq_node_t) (w : W) (n : nat) :
    outcome (list resq_node_t * W * nat) :=
  match l with
  | [] => Ret ([], w, n)
  | node :: l' =>
      '(node, w, n) ← teardown_node node w n;
      '(l', w, n) ← teardown_nodes l' w n;
      Ret (node :: l', w, n)
  end.

Definition resq_teardown_all (r : registry) : outcome registry :=
  '(l, w, n) ← teardown_nodes (interface_list r) (machine r) (freed r);
  Ret (mk_registry l w (sent r) (made r) n).

(** [resq_destroy_all] takes the nodes off the list one by one. *)
Fixpoint destroy_loop (l : list resq_node_t) (r : registry) : outcome registry :=
  match l with
  | [] => Ret r
  | node :: l' =>
      '(_, w, n) ← teardown_node node (machine r) (freed r);
      destroy_loop l' (mk_registry l' w (sent r) (made r) n)
  end.

Definition resq_destroy_all (r : registry) : outcome registry := destroy_loop (interface_list r) r.

(** ** Events *)

(** [timer] is the period in milliseconds of the timer in the loop. *)
Record monitor := mk_monitor {
  reg : registry;
  resource_monitor_interval_s : Z;
  previous_interval : Z;
  timer : option Z;
}.

Definition TO_MILLISECONDS (x : Z) : Z := u32 (u32 x * 1000).

(** [ok] says whether a timer can be added. *)
Definition sbp_update_timer_interval (ok : bool) (timer_interval : Z) (m : monitor) : monitor :=
  let set t := mk_monitor (reg m) (resource_monitor_interval_s m) (previous_interval m) t in
  if (timer_interval =? 0)%Z then set None
  else if ok then set (Some timer_interval) else set None.

Definition notify_interval_changed (ok : bool) (m : monitor) : outcome monitor :=
  m ← (if (previous_interval m =? resource_monitor_interval_s m)%Z then Ret m
       else
         r ← resq_teardown_all (reg m);
         r ← (if negb (resource_monitor_interval_s m =? 0)%Z then resq_initialize_all r else Ret r);
         Ret (mk_monitor r (resource_monitor_interval_s m) (resource_monitor_interval_s m) (timer m)));
  Ret (sbp_update_timer_interval ok (TO_MILLISECONDS (resource_monitor_interval_s m)) m).

Definition update_metrics (fuel : nat) (m : monitor) : outcome monitor :=
  r ← resq_run_all fuel (reg m);
  Ret (mk_monitor r (resource_monitor_interval_s m) (previous_interval m) (timer m)).

(** What the loop delivers: the setting is written, or the timer fires if there is one. *)
Inductive event := E_setting (interval : Z) (ok : bool) | E_tick.

Definition handle_event (fuel : nat) (ev : event) (m : monitor) : outcome monitor :=
  match ev with
  | E_setting v ok =>
      notify_interval_changed ok (mk_monitor (reg m) v (previous_interval m) (timer m))
  | E_tick => match timer m with Some _ => update_metrics fuel m | None => Ret m end
  end.

Fixpoint run_events (fuel : nat) (evs : list event) (m : monitor) : outcome monitor :=
  match evs with
  | [] => Ret m
  | ev :: evs' => m ← handle_event fuel ev m; run_events fuel evs' m
  end.

Definition DEFAULT_UPDATE_INTERVAL : Z := 0.

(** Before the first event: modules registered by the constructors, none initialised. *)
Definition initial_monitor (qs : list resq_interface_t) (w : W) : monitor :=
  mk_monitor (foldr resq_register (mk_registry [] w [] 0 0) qs) DEFAULT_UPDATE_INTERVAL (-1) None.

(** [main] from the first event to [cleanup]. *)
Definition monitor_main (fuel : nat) (evs : list event) (qs : list resq_interface_t) (w : W) :
    outcome registry :=
  m ← run_events fuel evs (initial_monitor qs w);
  resq_destroy_all (reg m).

(** ** What a module owes the registry *)

(** The contexts that a module can have between runs. *)
Inductive reachable (fuel : nat) (q : resq_interface_t) : ctx_t q -> Prop :=
  | reach_init f rd w c w' : init q = Some f -> f rd w = Ret (Some c, w') -> reachable fuel q c
  | reach_run c w c1 w1 c2 w2 out out' :
      reachable fuel q c -> run_query q c w = Ret (c1, w1) ->
      send_loop q fuel c1 w1 out = Ret (c2, w2, out') -> reachable fuel q c2.

(** A reader that answers for modules that are initialised before [q]. *)
Definition safe_reader (qs : list resq_interface_t) (q : resq_interface_t) (rd : reader) : Prop :=
  forall name p,
    (forall q', q' ∈ qs -> describe q' = name -> is_Some (read_property q') -> priority q' < priority q) ->
    exists r, rd name p = Ret r.

(** The functions of the module return: [init] as long as it reads properties of modules of a
    lower number only, the others on the contexts of the module, and it prepares fewer than
    [fuel] messages in a row. *)
Record query_ok (fuel : nat) (qs : list resq_interface_t) (q : resq_interface_t) : Prop := {
  ok_priority : priority q < RESQ_PRIORITY_COUNT;
  ok_init : exists f, init q = Some f /\
    forall rd w, safe_reader qs q rd -> exists c w', f rd w = Ret (c, w');
  ok_run : forall c w out, reachable fuel q c ->
    exists c1 w1 r, run_query q c w = Ret (c1, w1) /\ send_loop q fuel c1 w1 out = Ret r;
  ok_teardown : exists f, teardown q = Some f /\
    forall c w, reachable fuel q c -> exists w', f c w = Ret w';
}.

(** ** Whose fault it is *)

Definition no_ret {A} (m : outcome A) : Prop := forall a, m <> Ret a.

(** A function of the module does not return although the registry has kept its side: [init] was
    given a reader that answers for the modules initialised before, the others a context that the
    module has made itself. *)
Inductive failing (fuel : nat) (qs : list resq_interface_t) (q : resq_interface_t) : Prop :=
  | failing_init f rd w : init q = Some f -> safe_reader qs q rd -> no_ret (f rd w) -> failing fuel qs q
  | failing_run c w : reachable fuel q c ->
      no_ret ('(c, w) ← run_query q c w; send_loop q fuel c w []) -> failing fuel qs q
  | failing_teardown f c w : teardown q = Some f -> reachable fuel q c -> no_ret (f c w) -> failing fuel qs q.

Lemma query_ok_not_failing fuel qs q : query_ok fuel qs q -> ~ failing fuel qs q.
Proof.
  intros [_ (fi & Hfi & Hi) Hr (ft & Hft & Ht)] [f rd w Hf Hrd H|c w Hc H|f c w Hf Hc H].
  - destruct (Hi rd w Hrd) as (c & w' & E). simplify_eq. by eapply H.
  - destruct (Hr c w [] Hc) as (c1 & w1 & r & E & E'). rewrite E, bind_Ret in H. by eapply H.
  - destruct (Ht c w Hc) as [w' E]. simplify_eq. by eapply H.
Qed.

(** What every module has. *)
Definition complete (q : resq_interface_t) : Prop :=
  priority q < RESQ_PRIORITY_COUNT /\ is_Some (init q) /\ is_Some (teardown q).

(** ** The invariant *)

Section lifecycle.
Variable fuel : nat.
Variable qs : list resq_interface_t.
Hypothesis qs_complete : Forall complete qs.

(** A result of the registry: it meets [P], or a module is to blame for there being none. *)
Definition safe {A} (m : outcome A) (P : A -> Prop) : Prop :=
  match m with Ret a => P a | _ => exists q, q ∈ qs /\ failing fuel qs q end.

Lemma safe_bind {A B} (m : outcome A) (f : A -> outcome B) P Q :
  safe m P -> (forall a, P a -> safe (f a) Q) -> safe (m ≫= f) Q.
Proof. destruct m; cbn; auto. Qed.

Lemma safe_mono {A} (m : outcome A) (P Q : A -> Prop) : safe m P -> (forall a, P a -> Q a) -> safe m Q.
Proof. destruct m; cbn; auto. Qed.

(** A call of a function of the module [q]. *)
Lemma safe_call {A} (m : outcome A) q : q ∈ qs -> (no_ret m -> failing fuel qs q) -> safe m (fun a => m = Ret a).
Proof. intros Hq Hf. destruct m; cbn; [done|exists q..]; (split; [done|]; by apply Hf). Qed.

Definition has_context (node : resq_node_t) : bool := bool_decide (is_Some (context node)).
Definition live (l : list resq_node_t) : nat := length (filter (fun node => has_context node = true) l).

(** A context that is there belongs to an initialised node. *)
Definition node_ok (node : resq_node_t) : Prop :=
  forall c, context node = Some c -> init_success node = true /\ reachable fuel (query node) c.

(** The node can be run. *)
Definition node_ready (node : resq_node_t) : Prop := init_success node = true -> is_Some (context node).

Record reg_inv (r : registry) : Prop := {
  ri_queries : query <$> interface_list r = qs;
  ri_nodes : Forall node_ok (interface_list r);
  ri_count : made r = freed r + live (interface_list r);
}.

Definition all_ready (r : registry) : Prop := Forall node_ready (interface_list r).
Definition all_off (r : registry) : Prop := Forall (fun node => context node = None) (interface_list r).

Lemma live_cons node l : live (node :: l) = (if has_context node then 1 else 0) + live l.
Proof. unfold live. rewrite filter_cons. by destruct (has_context node). Qed.

Lemma live_insert l i node node' :
  l !! i = Some node ->
  live (<[i := node']> l) + (if has_context node then 1 else 0) =
    live l + (if has_context node' then 1 else 0).
Proof.
  revert i. induction l as [|x l IH]; intros [|i] H; simplify_eq/=; rewrite !live_cons; [lia|].
  specialize (IH _ H). lia.
Qed.

Lemma node_query_in r i node : reg_inv r -> interface_list r !! i = Some node -> query node ∈ qs.
Proof.
  intros Hr Hi. rewrite <-(ri_queries r Hr).
  apply list_elem_of_fmap. exists node. split; [done|]. by eapply list_elem_of_lookup_2.
Qed.

Lemma node_complete q : q ∈ qs -> complete q.
Proof. rewrite Forall_forall in qs_complete. apply qs_complete. Qed.

Lemma reg_queries_in r : reg_inv r -> Forall (fun node => query node ∈ qs) (interface_list r).
Proof.
  intros Hr. apply Forall_forall. intros node [i Hi]%list_elem_of_lookup_1. by eapply node_query_in.
Qed.

(** *** Running *)

Lemma run_node_ok node w out :
  query node ∈ qs -> node_ok node -> node_ready node ->
  safe (run_node fuel node w out) (fun '(node', _, _) =>
    query node' = query node /\ node_ok node' /\ node_ready node' /\ has_context node' = has_context node).
Proof.
  intros Hq Hn Hr. unfold run_node. destruct (init_success node) eqn:Ei; cbn [negb]; [|done].
  destruct (Hr Ei) as [c Hc]. rewrite Hc. cbn [of_option]. rewrite bind_Ret.
  destruct (Hn c Hc) as [_ Hreach].
  pose proof (safe_call _ _ Hq (failing_run fuel qs _ c w Hreach)) as Hcall.
  destruct (run_query (query node) c w) as [[c1 w1]| |] eqn:Hrun; [|exact Hcall..].
  cbn [mbind outcome_bind] in Hcall. rewrite bind_Ret, send_loop_out.
  destruct (send_loop (query node) fuel c1 w1 []) as [[[c2 w2] o]| |] eqn:Hsend; [|exact Hcall..].
  rewrite !bind_Ret. cbn. split; [done|]. split; [|split; [by intros _; exists c2|]].
  - intros c' [= <-]. split; [done|]. by eapply reach_run.
  - unfold has_context; cbn [context]. by rewrite Hc.
Qed.

Lemma run_nodes_ok l w out :
  Forall (fun node => query node ∈ qs) l -> Forall node_ok l -> Forall node_ready l ->
  safe (run_nodes fuel l w out) (fun '(l', _, _) =>
    query <$> l' = query <$> l /\ Forall node_ok l' /\ Forall node_ready l' /\ live l' = live l).
Proof.
  intros Hq. revert w out. induction Hq as [|node l Hq _ IH]; intros w out Hn Hr; [done|].
  apply Forall_cons in Hn as [Hn Hns]. apply Forall_cons in Hr as [Hr Hrs]. cbn [run_nodes].
  eapply safe_bind; [by apply run_node_ok|]. intros [[n' w1] o1] (Hq' & Hn' & Hr' & Hc').
  eapply safe_bind; [by apply IH|]. intros [[l' w2] o2] (Hql & Hnl & Hrl & Hll). unfold safe. rewrite !fmap_cons.
  rewrite Hq', Hql, !live_cons, Hc', Hll. split_and!; [done|by constructor|by constructor|done].
Qed.

Lemma resq_run_all_ok r :
  reg_inv r -> all_ready r -> safe (resq_run_all fuel r) (fun r' => reg_inv r' /\ all_ready r').
Proof.
  intros Hr Ha. unfold resq_run_all.
  eapply safe_bind; [apply run_nodes_ok; [by apply reg_queries_in|by apply Hr|done]|].
  intros [[l w] out] (Hq & Hn & Hrd & Hl). split; [|done]. destruct Hr as [Hq' _ Hc].
  split; cbn [interface_list made freed]; [by rewrite Hq|done|by rewrite Hl].
Qed.

(** *** Teardown *)

Lemma teardown_node_ok node w n :
  query node ∈ qs -> node_ok node ->
  safe (teardown_node node w n) (fun '(node', _, n') =>
    n' = n + (if has_context node then 1 else 0) /\ query node' = query node /\ context node' = None).
Proof.
  intros Hq Hn. unfold teardown_node. destruct (node_complete _ Hq) as (_ & _ & f & Hf). rewrite Hf.
  unfold has_context. destruct (context node) as [c|] eqn:Ec.
  - destruct (Hn c Ec) as [-> Hre].
    eapply safe_bind; [apply (safe_call _ _ Hq), (failing_teardown _ _ _ f c w); done|]. intros w' _. cbn.
    by rewrite Nat.add_1_r.
  - cbn. by rewrite Nat.add_0_r.
Qed.

Lemma node_off_ok node : context node = None -> node_ok node.
Proof. intros Hn c Hc. congruence. Qed.

Lemma teardown_nodes_ok l w n :
  Forall (fun node => query node ∈ qs) l -> Forall node_ok l ->
  safe (teardown_nodes l w n) (fun '(l', _, n') =>
    n' = n + live l /\ query <$> l' = query <$> l /\ Forall (fun node => context node = None) l').
Proof.
  intros Hq. revert w n. induction Hq as [|node l Hq _ IH]; intros w n Hn.
  { unfold safe, teardown_nodes, live. rewrite filter_nil. by rewrite Nat.add_0_r. }
  apply Forall_cons in Hn as [Hn Hns]. cbn [teardown_nodes].
  eapply safe_bind; [by apply teardown_node_ok|]. intros [[n' w1] k] (-> & Hq' & Hc').
  eapply safe_bind; [by apply IH|]. intros [[l' w2] k'] (-> & Hql & Hcl). unfold safe. rewrite !fmap_cons.
  rewrite live_cons, Nat.add_assoc, Hq', Hql. split_and!; [done|done|by constructor].
Qed.

Lemma live_off l : Forall (fun node => context node = None) l -> live l = 0.
Proof.
  induction 1 as [|node l Hn _ IH]; [done|]. rewrite live_cons, IH. unfold has_context. by rewrite Hn.
Qed.

Lemma resq_teardown_all_ok r : reg_inv r -> safe (resq_teardown_all r) (fun r' => reg_inv r' /\ all_off r').
Proof.
  intros Hr. unfold resq_teardown_all.
  eapply safe_bind; [apply teardown_nodes_ok; [by apply reg_queries_in|by apply Hr]|].
  intros [[l w] n] (-> & Hq & Hc). split; [|done]. destruct Hr as [Hq' _ Hm].
  split; cbn [interface_list made freed].
  - by rewrite Hq.
  - eapply Forall_impl; [exact Hc|]. apply node_off_ok.
  - rewrite (live_off l) by done. lia.
Qed.

Lemma resq_destroy_all_ok r :
  reg_inv r -> safe (resq_destroy_all r) (fun r' => interface_list r' = [] /\ made r' = freed r').
Proof.
  intros Hr. unfold resq_destroy_all. pose proof (reg_queries_in r Hr) as Hqs. destruct Hr as [_ Hn Hm].
  remember (interface_list r) as l eqn:El. revert r El Hm.
  induction Hn as [|node l Hn _ IH]; intros r El Hm; cbn [destroy_loop].
  { split; [done|]. unfold live in Hm. rewrite filter_nil in Hm. cbn [length] in Hm. lia. }
  apply Forall_cons in Hqs as [Hq Hqs].
  eapply safe_bind; [by apply teardown_node_ok|]. intros [[n' w] k] (-> & _ & _).
  apply IH; [done|done|]. cbn [made freed]. rewrite live_cons in Hm. lia.
Qed.

(** *** Initialisation *)

Lemma read_loop_ret l name p :
  Forall (fun node => describe (query node) = name -> is_Some (read_property (query node)) -> node_ready node) l ->
  exists r, read_loop l name p = Ret r.
Proof.
  induction 1 as [|node l Hn _ IH]; cbn [read_loop]; [by eexists|].
  destruct (init_success node) eqn:Ei; cbn [negb]; [|done].
  destruct (read_property (query node)) as [f|] eqn:Ef; [|done].
  destruct (bool_decide (name = describe (query node))) eqn:Eb; cbn [negb]; [|done].
  apply bool_decide_eq_true in Eb. destruct (Hn (eq_sym Eb) (ltac:(by eexists)) Ei) as [c ->].
  cbn [of_option]. rewrite bind_Ret. destruct (f _ c) as [[] p1]; cbn [negb]; [|by eexists].
  repeat case_bool_decide; cbn [negb]; by eexists.
Qed.

Lemma reg_reader_safe r i node b :
  reg_inv r -> interface_list r !! i = Some node ->
  (forall j n, interface_list r !! j = Some n -> priority (query n) < priority (query node) -> node_ready n) ->
  safe_reader qs (query node)
    (resq_read_property (<[i := mk_node (query node) b (context node)]> (interface_list r))).
Proof.
  intros Hr Hi Hlow name p Hname. unfold resq_read_property. case_bool_decide; [by eexists|].
  apply read_loop_ret, Forall_lookup. intros j n Hj Hd Hs.
  assert (query n ∈ qs) as Hin.
  { destruct (decide (i = j)) as [<-|Hne].
    - rewrite list_lookup_insert_eq in Hj by (by eapply lookup_lt_Some). simplify_eq. by apply (node_query_in r i node).
    - rewrite list_lookup_insert_ne in Hj by done. by eapply node_query_in. }
  specialize (Hname _ Hin Hd Hs). destruct (decide (i = j)) as [<-|Hne].
  - rewrite list_lookup_insert_eq in Hj by (by eapply lookup_lt_Some). simplify_eq. cbn [query] in Hname. lia.
  - rewrite list_lookup_insert_ne in Hj by done. by eapply Hlow.
Qed.

Lemma init_node_ok r i node :
  reg_inv r -> interface_list r !! i = Some node -> context node = None ->
  (forall j n, interface_list r !! j = Some n -> priority (query n) < priority (query node) -> node_ready n) ->
  safe (init_node i r) (fun r' => reg_inv r' /\ exists node',
    interface_list r' = <[i := node']> (interface_list r) /\ query node' = query node /\ node_ready node').
Proof.
  intros Hr Hi Hoff Hlow. unfold init_node. rewrite Hi. cbn [of_option]. rewrite bind_Ret.
  pose proof (node_query_in r i node Hr Hi) as Hin.
  destruct (node_complete _ Hin) as (_ & [f Hf] & _). rewrite Hf.
  eapply safe_bind; [apply (safe_call _ _ Hin), (failing_init fuel qs _ f); [done|by apply reg_reader_safe]|].
  intros [c w] Hc. destruct Hr as [Hq Hn Hm].
  assert (forall node', query node' = query node ->
            query <$> <[i := node']> (interface_list r) = qs) as Hqs.
  { intros node' Hq'. rewrite list_fmap_insert, Hq', Hq. apply list_insert_id.
    rewrite <-Hq, list_lookup_fmap, Hi. done. }
  assert (has_context node = false) as Hh by (unfold has_context; by rewrite Hoff).
  destruct c as [c|]; (split; [|eexists; split_and!; [reflexivity|done|]]).
  - split; cbn [interface_list made freed]; [by apply Hqs| |].
    + apply Forall_insert; [done|]. intros c' [= <-]. split; [done|]. by eapply reach_init.
    + pose proof (live_insert (interface_list r) i node (mk_node (query node) true (Some c)) Hi) as Hl.
      rewrite Hh in Hl. unfold has_context in Hl at 1. cbn [context] in Hl.
      rewrite bool_decide_eq_true_2 in Hl by (by eexists). lia.
  - by intros _; exists c.
  - split; cbn [interface_list made freed]; [by apply Hqs| |].
    + apply Forall_insert; [done|]. by apply node_off_ok.
    + pose proof (live_insert (interface_list r) i node (mk_node (query node) false None) Hi) as Hl.
      rewrite Hh in Hl. unfold has_context in Hl at 1. cbn [context] in Hl.
      rewrite bool_decide_eq_false_2 in Hl by (by intros [? ?]). lia.
  - intros [=].
Qed.

(** Up to position [k] of priority [p] the nodes are ready, the others have no context. *)
Definition init_inv (p k : nat) (r : registry) : Prop :=
  reg_inv r /\ forall i node, interface_list r !! i = Some node ->
    let prio := priority (query node) in
    if decide (prio < p \/ (prio = p /\ i < k)) then node_ready node else context node = None.

Lemma init_step_ok p k r node :
  init_inv p k r -> interface_list r !! k = Some node ->
  safe (if priority (query node) =? p then init_node k r else Ret r) (fun r' =>
    init_inv p (S k) r' /\ length (interface_list r') = length (interface_list r)).
Proof.
  intros [Hr Hd] Hi. pose proof (lookup_lt_Some _ _ _ Hi) as Hk.
  destruct (priority (query node) =? p) eqn:Ep; bool_hyps.
  - eapply safe_mono; [apply (init_node_ok r k node Hr Hi)|].
    + specialize (Hd k node Hi). cbn zeta in Hd. by rewrite decide_False in Hd by lia.
    + intros j n Hj Hlt. specialize (Hd j n Hj). cbn zeta in Hd. by rewrite decide_True in Hd by lia.
    + intros r1 (Hr1 & node' & Hl & Hq & Hrd). rewrite Hl, length_insert. split; [|done]. split; [done|].
      intros j n Hj. cbn zeta. rewrite Hl in Hj. destruct (decide (k = j)) as [<-|Hne].
      * rewrite list_lookup_insert_eq in Hj by lia. simplify_eq.
        by rewrite decide_True by (rewrite Hq; lia).
      * rewrite list_lookup_insert_ne in Hj by done. specialize (Hd j n Hj). cbn zeta in Hd.
        repeat case_decide; try done; exfalso; lia.
  - split; [|done]. split; [done|]. intros j n Hj. cbn zeta.
    specialize (Hd j n Hj). cbn zeta in Hd. repeat case_decide; try done; exfalso.
    all: assert (j = k) by lia; simplify_eq; lia.
Qed.

Lemma init_pass_ok p k m r :
  init_inv p k r -> k + m = length (interface_list r) ->
  safe (init_pass p (seq k m) r) (fun r' => init_inv p (k + m) r' /\
    length (interface_list r') = length (interface_list r)).
Proof.
  revert k r. induction m as [|m IH]; intros k r Hr Hk; [by rewrite Nat.add_0_r|].
  cbn [seq init_pass]. destruct (lookup_lt_is_Some_2 (interface_list r) k) as [node Hi]; [lia|].
  rewrite Hi. cbn [of_option]. rewrite bind_Ret.
  eapply safe_bind; [by apply init_step_ok|]. intros r1 [Hr1 Hlen].
  eapply safe_mono; [apply (IH (S k) r1 Hr1); lia|]. intros r' [Hr' Hlen'].
  replace (k + S m) with (S k + m) by lia. split; [done|lia].
Qed.

Lemma init_priorities_ok p m r :
  init_inv p 0 r -> safe (init_priorities (seq p m) r) (init_inv (p + m) 0).
Proof.
  revert p r. induction m as [|m IH]; intros p r Hr; [by rewrite Nat.add_0_r|].
  cbn [seq init_priorities].
  eapply safe_bind; [apply (init_pass_ok p 0 _ r Hr eq_refl)|]. intros r1 [[Hr1 Hd] Hlen].
  replace (p + S m) with (S p + m) by lia. apply IH. split; [done|].
  intros i node Hi. specialize (Hd i node Hi). cbn zeta in *.
  pose proof (lookup_lt_Some _ _ _ Hi). repeat case_decide; try done; exfalso; lia.
Qed.

Lemma resq_initialize_all_ok r :
  reg_inv r -> all_off r -> safe (resq_initialize_all r) (fun r' => reg_inv r' /\ all_ready r').
Proof.
  intros Hr Hoff. unfold resq_initialize_all.
  eapply safe_mono; [apply init_priorities_ok|].
  - split; [done|]. intros i node Hi. cbn zeta. unfold RESQ_PRIORITY_1. rewrite decide_False by lia.
    unfold all_off in Hoff. rewrite Forall_lookup in Hoff. by eapply Hoff.
  - intros r' [Hr' Hd]. split; [done|]. apply Forall_lookup. intros i node Hi. specialize (Hd i node Hi).
    cbn zeta in Hd. pose proof (node_complete _ (node_query_in r' i node Hr' Hi)) as [Hp _].
    unfold RESQ_PRIORITY_1, RESQ_PRIORITY_COUNT in *. by rewrite decide_True in Hd by lia.
Qed.

(** *** Events *)

Definition mon_inv (m : monitor) : Prop :=
  reg_inv (reg m) /\ (previous_interval m <> 0%Z -> all_ready (reg m)) /\
  (timer m <> None -> previous_interval m <> 0%Z).

Lemma timer_inv m ok :
  reg_inv (reg m) -> (previous_interval m <> 0%Z -> all_ready (reg m)) ->
  previous_interval m = resource_monitor_interval_s m ->
  mon_inv (sbp_update_timer_interval ok (TO_MILLISECONDS (resource_monitor_interval_s m)) m).
Proof.
  intros Hr Ha Heq. unfold sbp_update_timer_interval.
  destruct (TO_MILLISECONDS _ =? 0)%Z eqn:E; [by split_and!|].
  assert (previous_interval m <> 0%Z) as Hp.
  { intros Hz. rewrite <-Heq, Hz in E. done. }
  by destruct ok; split_and!.
Qed.

Lemma notify_interval_changed_ok ok m : mon_inv m -> safe (notify_interval_changed ok m) mon_inv.
Proof.
  intros (Hr & Ha & _). unfold notify_interval_changed.
  destruct (previous_interval m =? resource_monitor_interval_s m)%Z eqn:E.
  { rewrite bind_Ret. apply Z.eqb_eq in E. by apply timer_inv. }
  eapply (safe_bind _ _ (fun m' => reg_inv (reg m') /\ (previous_interval m' <> 0%Z -> all_ready (reg m')) /\
    previous_interval m' = resource_monitor_interval_s m')); [|by intros m' (? & ? & ?); apply timer_inv].
  eapply safe_bind; [by apply resq_teardown_all_ok|]. intros r1 [Hr1 Hoff].
  destruct (resource_monitor_interval_s m =? 0)%Z eqn:Ez; cbn [negb].
  - rewrite bind_Ret. apply Z.eqb_eq in Ez. cbn. split_and!; [done|by intros []|done].
  - eapply safe_bind; [by apply resq_initialize_all_ok|]. by intros r2 [Hr2 Ha2].
Qed.

Lemma monitor_event_ok ev m : mon_inv m -> safe (handle_event fuel ev m) mon_inv.
Proof.
  intros Hm. destruct ev as [v ok|]; cbn [handle_event].
  - by apply notify_interval_changed_ok.
  - destruct (timer m) as [t|] eqn:Et; [|done]. unfold update_metrics. pose proof Hm as (Hr & Ha & Ht).
    assert (previous_interval m <> 0%Z) as Hp by (apply Ht; by rewrite Et).
    eapply safe_bind; [by apply (resq_run_all_ok _ Hr), Ha|]. by intros r' [Hr' Ha'].
Qed.

Lemma monitor_events_ok evs m : mon_inv m -> safe (run_events fuel evs m) mon_inv.
Proof.
  revert m. induction evs as [|ev evs IH]; intros m Hm; cbn [run_events]; [done|].
  eapply safe_bind; [by apply monitor_event_ok|]. apply IH.
Qed.

Lemma initial_inv w : mon_inv (initial_monitor qs w).
Proof.
  assert (forall l, let r := foldr resq_register (mk_registry [] w [] 0 0) l in
            query <$> interface_list r = l /\
            Forall (fun node => context node = None /\ init_success node = false) (interface_list r) /\
            made r = 0 /\ freed r = 0) as Hl.
  { induction l as [|q l IH]; cbn zeta in *; [by split_and!|]. cbn [foldr]. destruct IH as (H1 & H2 & H3 & H4).
    unfold resq_register, set_nodes. cbn [interface_list made freed].
    split_and!; [simpl; by f_equal|by constructor|done|done]. }
  destruct (Hl qs) as (H1 & H2 & H3 & H4). unfold initial_monitor. split_and!; cbn [reg previous_interval timer].
  - split; [done| |].
    + eapply Forall_impl; [exact H2|]. intros node [Hn _]. by apply node_off_ok.
    + rewrite H3, H4, live_off; [done|]. eapply Forall_impl; [exact H2|]. by intros node [Hn _].
  - intros _. eapply Forall_impl; [exact H2|]. intros node [_ Hi] Hs. congruence.
  - done.
Qed.

End lifecycle.
End registry.
Arguments resq_interface_t : clear implicits.
Arguments resq_node_t : clear implicits.
Arguments registry : clear implicits.
Arguments monitor : clear implicits.

(** ** A module that meets the contract *)

(** It sends the numbers 2 and 1; the machine counts its contexts. *)
Definition countdown_query : resq_interface_t nat nat := {|
  priority := RESQ_PRIORITY_1;
  ctx_t := nat;
  init := Some (fun _ w => Ret (Some 0, S w));
  describe := "countdown";
  read_property := None;
  run_query := fun _ w => Ret (2, w);
  prepare_sbp := fun c w => match c with 0 => Ret (None, 0, w) | S c' => Ret (Some c, c', w) end;
  teardown := Some (fun _ w => Ret (pred w));
|}.

Lemma countdown_ok qs : query_ok 3 qs countdown_query.
Proof.
  split.
  - cbn. unfold RESQ_PRIORITY_1, RESQ_PRIORITY_COUNT. lia.
  - eexists. split; [reflexivity|]. intros. by eexists _, _.
  - intros. eexists _, _, _. split; reflexivity.
  - eexists. split; [reflexivity|]. intros. by eexists.
Qed.


(** Two contexts in that history, two messages, none left. *)
Example countdown_history :
  (r ← monitor_main 3 [E_setting 5 true; E_tick; E_setting 9 true; E_setting 0 true; E_tick]
         [countdown_query] 0;
   Ret (sent r, made r, freed r, machine r)) = Ret ([2; 1], 2, 2, 0).
Proof. reflexivity. Qed.
