(* ===== verification/ResSockets.v ===== *)
(** * The socket query ([resource_monitor/resource_monitor/src/query_sockets.c])

    The query runs [ss], adds up the sockets of every process in a table and reports the ten
    processes with the most sockets.  The theorems: what the table holds for a process is the
    sum over the lines of the output that belong to it; the report is the ten largest counts, in
    order; and it is undefined behaviour when fewer than ten processes have sockets. *)

From Stdlib Require Import Ascii.
From S2P Require Import Prelude Libc Text Table ResLines ResQuery.

(** ** Constants and data *)

Definition ITEM_COUNT : nat := 10.
Definition MAX_PROCESS_COUNT : nat := 1024.

Module ST.
Definition TCP : Z := 0x0001.
Definition UDP : Z := 0x0002.
Definition UNIX_STR : Z := 0x0004.
Definition UNIX_DGR : Z := 0x0008.
Definition UNIX_SEQ : Z := 0x0010.
Definition UNKNOWN : Z := 0x8000.
End ST.

Module SS.
Definition ESTAB : Z := 0x0001.
Definition SYN_SENT : Z := 0x0002.
Definition SYN_RECV : Z := 0x0004.
Definition FIN_WAIT1 : Z := 0x0008.
Definition FIN_WAIT2 : Z := 0x0010.
Definition TIME_WAIT : Z := 0x0020.
Definition CLOSED : Z := 0x0040.
Definition CLOSE_WAIT : Z := 0x0080.
Definition LAST_ACK : Z := 0x0100.
Definition LISTEN : Z := 0x0200.
Definition CLOSING : Z := 0x0400.
Definition UNCONNECTED : Z := 0x0800.
Definition UNKNOWN : Z := 0x8000.
End SS.

(** The values of [send_state_t], in order: ten [SEND_SOCKET_COUNTS_i], ten
    [SEND_SOCKET_QUEUES_i], [SEND_DONE]. *)
Definition SEND_SOCKET_COUNTS_0 : nat := 0.
Definition SEND_SOCKET_COUNTS_9 : nat := 9.
Definition SEND_DONE : nat := 20.

(** [command_line] is never written and left out. *)
Record pid_entry_t := mk_entry {
  pid_str : string;
  pid : Z;
  socket_count : Z;
  socket_types : Z;
  socket_states : Z;
  total_queue : Z;
  send_queue : Z;
  recv_queue : Z;
  max_queue : Z;
  max_queue_address : string;
}.

(** A slot of [top10_counts] points to a key of the table of one run, which [table_destroy]
    frees at the next run: [Some (run, key)]; [None] is NULL. *)
Record resq_state_t := mk_resq {
  send_state : nat;
  pid_table : option (table pid_entry_t);
  run_id : nat;
  top10_counts : list (option (nat * string));
  top10_queues : list (option (nat * string));
}.

(** The states of the two line parsers, and the objects they write. *)
Module UDS_STATE.
Definition SOCKET_TYPE : nat := 0.
Definition DONE : nat := 9.
End UDS_STATE.
Module STATE.
Definition SOCKET_TYPE : nat := 0.
Definition DONE : nat := 7.
End STATE.

(** ** One socket *)

Definition socket_state_flag (s : string) : Z :=
  if bool_decide (s = "ESTAB") then SS.ESTAB
  else if bool_decide (s = "LISTEN") then SS.LISTEN
  else if bool_decide (s = "UNCONN") then SS.UNCONNECTED
  else if bool_decide (s = "SYN-SENT") then SS.SYN_SENT
  else if bool_decide (s = "SYN-RECV") then SS.SYN_RECV
  else if bool_decide (s = "FIN-WAIT-1") then SS.FIN_WAIT1
  else if bool_decide (s = "FIN-WAIT-2") then SS.FIN_WAIT2
  else if bool_decide (s = "TIME-WAIT") then SS.TIME_WAIT
  else if bool_decide (s = "CLOSED") then SS.CLOSED
  else if bool_decide (s = "CLOSE-WAIT") then SS.CLOSE_WAIT
  else if bool_decide (s = "LAST-ACK") then SS.LAST_ACK
  else if bool_decide (s = "CLOSING") then SS.CLOSING
  else SS.UNKNOWN.

Definition socket_type_flag (s : string) : Z :=
  if bool_decide (s = "u_str") then ST.UNIX_STR
  else if bool_decide (s = "u_dgr") then ST.UNIX_DGR
  else if bool_decide (s = "u_seq") then ST.UNIX_SEQ
  else if bool_decide (s = "tcp") then ST.TCP
  else if bool_decide (s = "udp") then ST.UDP
  else ST.UNKNOWN.

Definition max_queue_address_size : nat := 64.

Definition new_pid_entry (pid_str : string) (pid : Z) : pid_entry_t :=
  mk_entry pid_str (u16 pid) 0 0 0 0 0 0 0 "".

(** What [process_ss_entry] does to the entry of the process: [addr] is the text that
    [snprintf] forms from the four addresses, cut to its size of 63 bytes. *)
Definition add_socket (type state : Z) (recv_q send_q : Z) (addr : string) (e : pid_entry_t) : pid_entry_t :=
  let total := u32 (recv_q + send_q) in
  let bigger := (max_queue e <? total)%Z in
  mk_entry (pid_str e) (pid e) (u16 (socket_count e + 1))
    (Z.lor (socket_types e) type) (Z.lor (socket_states e) state)
    (u32 (total_queue e + total)) (u32 (send_queue e + send_q)) (u32 (recv_queue e + recv_q))
    (if bigger then total else max_queue e)
    (if bigger then string_take (max_queue_address_size - 2) addr else max_queue_address e).

(** The arrays that the line parsers fill. *)
Record ss_fields := mk_fields {
  f_type : text; f_state : text; f_recv_q : Z; f_send_q : Z;
  f_local1 : text; f_local2 : text; f_remote1 : text; f_remote2 : text; f_extra : text;
}.

(** The entry of the process, created if there is none: [None] when [process_ss_entry] gives up. *)
Definition find_or_add (t : table pid_entry_t) (key : string) : option (table pid_entry_t) :=
  match table_get t key with
  | Some _ => Some t
  | None =>
      if 16 <=? String.length key then None                    (* failed to copy pid string *)
      else
        let '(ok, pid) := strtoul_all key in
        if negb ok then None
        else
          let '(t, added) := table_put t key (new_pid_entry key pid) in
          if (added : bool) then Some t else None
  end.

Definition process_ss_entry (t : table pid_entry_t) (f : ss_fields) (key : string) :
    outcome (table pid_entry_t) :=
  match find_or_add t key with
  | None => Ret t
  | Some t =>
      state ← buf_str (f_state f);
      type ← buf_str (f_type f);
      e ← of_option (table_get t key);
      addr ← (if (max_queue e <? u32 (f_recv_q f + f_send_q f))%Z then
                a ← buf_str (f_local1 f); b ← buf_str (f_local2 f);
                c ← buf_str (f_remote1 f); d ← buf_str (f_remote2 f);
                Ret (string_of a +:+ "," +:+ string_of b +:+ "," +:+ string_of c +:+ "," +:+ string_of d)
              else Ret "");
      Ret (table_update t key
             (add_socket (socket_type_flag (string_of type)) (socket_state_flag (string_of state))
                (f_recv_q f) (f_send_q f) addr))
  end.

(** [sscanf(pid_eq, "pid=%m[^,]", &pid_str)]: the result and the string; the input begins with
    the literal. *)
Definition scan_pid (pid_eq : text) : Z * option text :=
  match drop 4 pid_eq with
  | [] => ((-1)%Z, None)                                                  (* EOF *)
  | rest =>
      match take_while (fun c => negb (bool_decide (c = ","%char))) rest with
      | [] => (0%Z, None)
      | w => (1%Z, Some w)
      end
  end.

Definition parse_socket_common (t : table pid_entry_t) (f : ss_fields) :
    outcome (bool * table pid_entry_t) :=
  extra_info ← buf_str (f_extra f);
  match strstr extra_info (text_of "pid=") with
  | None => Ret (false, t)
  | Some pid_eq =>
      let '(items, pid_str) := scan_pid pid_eq in
      if (items =? 0)%Z then Ret (false, t)
      else
        pid_str ← of_option pid_str;                                      (* assert *)
        t ← process_ss_entry t f (string_of pid_str);
        Ret (true, t)
  end.

(** ** Lines of [ss] *)

(** [pid_to_count_t] and [pid_to_queue_t]: a number and the key of a process. *)
Notation pid_to_count_t := (Z * string)%type.

Definition chars (n : nat) : text := replicate n NUL.

Section lines.
Context `{!Doubles}.

Definition done_spec : line_spec_t := mk_spec FT_F64 0 "done" 0 0.

(** The send queue has the type of a string and no length; the second remote address is written
    over the first. *)
Definition uds_line_specs : list line_spec_t :=
  [mk_spec FT_STR 1 "socket type" 32 0; mk_spec FT_STR 2 "socket state" 32 1;
   mk_spec FT_U32 3 "receive queue" 0 2; mk_spec FT_STR 4 "send queue" 0 3;
   mk_spec FT_STR 5 "local address 1" 128 4; mk_spec FT_STR 6 "local address 2" 128 5;
   mk_spec FT_STR 7 "remote address 1" 128 6; mk_spec FT_STR 8 "remote address 2" 128 6;
   mk_spec FT_STR 9 "extra info" 256 8; done_spec].

Definition uds_objects : list object :=
  [O_str (chars 32); O_str (chars 32); O_u32 0; O_u32 0; O_str (chars 128); O_str (chars 128);
   O_str (chars 128); O_str (chars 128); O_str (chars 256)].

Definition parse_uds_socket_line (t : table pid_entry_t) (line : text) :
    outcome (bool * table pid_entry_t) :=
  '(ok, env) ← parse_tab_line line UDS_STATE.SOCKET_TYPE UDS_STATE.DONE uds_line_specs [space_char]
                 uds_objects;
  if negb ok then Ret (false, t)
  else
    match env with
    | [O_str type; O_str state; O_u32 recv_q; O_u32 send_q; O_str local1; O_str local2;
       O_str remote1; O_str remote2; O_str extra] =>
        parse_socket_common t (mk_fields type state recv_q send_q local1 local2 remote1 remote2 extra)
    | _ => Undef
    end.

Definition ext_line_specs : list line_spec_t :=
  [mk_spec FT_STR 1 "socket type" 32 0; mk_spec FT_STR 2 "socket state" 32 1;
   mk_spec FT_U32 3 "receive queue" 0 2; mk_spec FT_STR 4 "send queue" 0 3;
   mk_spec FT_STR 5 "local address" 128 4; mk_spec FT_STR 6 "remote address" 128 5;
   mk_spec FT_STR 7 "extra info" 256 6; done_spec].

Definition ext_objects : list object :=
  [O_str (chars 32); O_str (chars 32); O_u32 0; O_u32 0; O_str (chars 128); O_str (chars 128);
   O_str (chars 256)].

Definition parse_ext_socket_line (t : table pid_entry_t) (line : text) :
    outcome (bool * table pid_entry_t) :=
  '(ok, env) ← parse_tab_line line STATE.SOCKET_TYPE STATE.DONE ext_line_specs [space_char] ext_objects;
  if negb ok then Ret (false, t)
  else
    match env with
    | [O_str type; O_str state; O_u32 recv_q; O_u32 send_q; O_str local; O_str remote; O_str extra] =>
        parse_socket_common t (mk_fields type state recv_q send_q local [NUL] remote [NUL] extra)
    | _ => Undef
    end.

Definition starts (s : string) (line : text) : bool := starts_with (text_of s) line.

Definition line_func (line : text) (t : table pid_entry_t) : outcome (table pid_entry_t * bool) :=
  if starts "Netid" line then Ret (t, true)
  else if starts "nl" line then Ret (t, true)
  else if bool_decide (is_Some (strstr line (text_of "TIME-WAIT"))) then Ret (t, true)
  else if starts "u_str" line || starts "u_dgr" line || starts "u_seq" line then
    '(_, t) ← parse_uds_socket_line t line; Ret (t, true)
  else '(_, t) ← parse_ext_socket_line t line; Ret (t, true).

(** ** Sorting *)

Definition compare_counts (a b : pid_to_count_t) : Z := - (a.1 - b.1).
(** The casts to [int]; the difference must be one. *)
Definition compare_queues (a b : pid_to_count_t) : Z := - (s32 a.1 - s32 b.1).
Definition int_range (z : Z) : bool := ((-2147483648 <? z) && (z <? 2147483648))%Z.
(** Sorting may compare any two elements. *)
Definition comparable (l : list pid_to_count_t) : bool :=
  forallb (fun a => forallb (fun b => int_range (compare_queues a b)) l) l.

(** [qsort] of the C library: some order of the elements that the comparison allows. *)
Class QsortSpec (qsort : (pid_to_count_t -> pid_to_count_t -> Z) -> list pid_to_count_t ->
                         list pid_to_count_t) : Prop := {
  qsort_perm cmp l : qsort cmp l ≡ₚ l;
  qsort_sorted cmp l :
    (forall x y, (cmp x y <= 0 \/ cmp y x <= 0)%Z) ->
    (forall x y z, cmp x y <= 0 -> cmp y z <= 0 -> cmp x z <= 0)%Z ->
    StronglySorted (fun x y => cmp x y <= 0)%Z (qsort cmp l);
}.
Variable qsort : (pid_to_count_t -> pid_to_count_t -> Z) -> list pid_to_count_t -> list pid_to_count_t.

(** ** The query *)

(** The callback of [table_foreach_key]: it fills both arrays. *)
Definition collect (t : table pid_entry_t) (key : string) (index : nat)
    (ctx : outcome (list pid_to_count_t * list pid_to_count_t)) :
    outcome (list pid_to_count_t * list pid_to_count_t) * bool :=
  ('(counts, queues) ← ctx;
   e ← of_option (table_get t key);
   counts ← store counts index (socket_count e, key);
   queues ← store queues index (total_queue e, key);
   Ret (counts, queues), true).

(** The loop that fills [top10]. *)
Fixpoint top10_loop (fuel i pid_count run : nat) (sorted : list pid_to_count_t)
    (top10 : list (option (nat * string))) : outcome (list (option (nat * string))) :=
  match fuel with
  | O => Ret top10
  | S fuel' =>
      if i <? pid_count then
        x ← load sorted i;
        top10 ← store top10 i (Some (run, x.2));
        top10_loop fuel' (S i) pid_count run sorted top10
      else Ret top10
  end.

Definition output_buffer : text := replicate (Z.to_nat 8192) NUL.
Definition leftover_buffer : text := replicate (Z.to_nat 4096) NUL.

Definition run_resource_query (ch : child) (st : resq_state_t) : outcome resq_state_t :=
  let run := S (run_id st) in
  let st t := mk_resq SEND_SOCKET_COUNTS_0 (Some t) run (top10_counts st) (top10_queues st) in
  '(rc, ctx, _) ← run_command (lines_buffer_fn line_func) ch output_buffer
                    (length leftover_buffer - 1)
                    (mk_lines_ctx (mk_leftover leftover_buffer 0 0) 0 (table_create MAX_PROCESS_COUNT));
  let t := lines_state ctx in
  if negb (rc =? 0)%Z then Ret (st t)
  else
    let pid_count := table_count t in
    '(counts, queues) ← table_foreach_key t (Ret (replicate pid_count (0%Z, ""), replicate pid_count (0%Z, "")))
                          (collect t);
    if negb (comparable queues) then Undef
    else
      let counts := qsort compare_counts counts in
      let queues := qsort compare_queues queues in
      c ← top10_loop ITEM_COUNT 0 pid_count run counts (top10_counts (st t));
      q ← top10_loop ITEM_COUNT 0 pid_count run queues (top10_queues (st t));
      Ret (mk_resq SEND_SOCKET_COUNTS_0 (Some t) run c q).

(** ** Messages *)

Record socket_counts_msg := mk_counts_msg {
  m_index : Z; m_pid : Z; m_socket_count : Z; m_socket_types : Z; m_socket_states : Z;
}.

(** [None]: nothing is written to the buffer. *)
Definition query_sockets_prepare (st : resq_state_t) :
    outcome (option (option socket_counts_msg) * resq_state_t) :=
  if send_state st =? SEND_DONE then Ret (None, st)
  else
    let current_state := send_state st in
    let is_count := current_state <=? SEND_SOCKET_COUNTS_9 in
    let next := if negb is_count then current_state
                else if current_state =? SEND_SOCKET_COUNTS_9 then SEND_DONE else S current_state in
    let st := mk_resq next (pid_table st) (run_id st) (top10_counts st) (top10_queues st) in
    if is_count then
      t ← of_option (pid_table st);
      slot ← load (top10_counts st) current_state;
      '(run, key) ← of_option slot;                                       (* strlen(NULL) *)
      if negb (run =? run_id st) then Undef                               (* a freed key *)
      else
        entry ← of_option (table_get t key);
        Ret (Some (Some (mk_counts_msg (u8 (Z.of_nat current_state)) (pid entry) (socket_count entry)
                     (u16 (socket_types entry)) (u16 (socket_states entry)))), st)
    else Ret (Some None, st).

(** [init_resource_query], given the property that the system state module reports. *)
Definition init_resource_query (pid_count : option Z) : option resq_state_t :=
  match pid_count with
  | None => None
  | Some n =>
      if (Z.of_nat MAX_PROCESS_COUNT <? n)%Z then None
      else Some (mk_resq 0 None 0 (replicate ITEM_COUNT None) (replicate ITEM_COUNT None))
  end.
End lines.

(** ** What a line says *)

(** A socket of a process, as a line of [ss] gives it. *)
Record socket := mk_socket {
  sk_pid : string; sk_type : Z; sk_state : Z; sk_recv_q : Z; sk_addr : string;
}.

(** The key that [process_ss_entry] accepts for a new process. *)
Definition pid_valid (key : string) : bool := (String.length key <? 16) && (strtoul_all key).1.

(** The process that the last field names. *)
Definition extra_pid (extra : text) : option string :=
  pid_eq ← strstr extra (text_of "pid=");
  w ← (scan_pid pid_eq).2;
  let key := string_of w in if pid_valid key then Some key else None.

Definition addresses (a b c d : text) : string :=
  string_of a +:+ "," +:+ string_of b +:+ "," +:+ string_of c +:+ "," +:+ string_of d.

Definition fields_socket (ty st rq extra : text) (addr : string) : option socket :=
  let '(ok, q) := strtoul_all (string_of rq) in
  if ok : bool then
    key ← extra_pid extra;
    Some (mk_socket key (socket_type_flag (string_of ty)) (socket_state_flag (string_of st)) (u32 q) addr)
  else None.

(** The specification of a line.  The second remote address of a local socket takes the place of
    the first, and the send queue is not used. *)
Definition line_socket (line : text) : option socket :=
  if starts "Netid" line || starts "nl" line || bool_decide (is_Some (strstr line (text_of "TIME-WAIT")))
  then None
  else if starts "u_str" line || starts "u_dgr" line || starts "u_seq" line then
    match strtok [space_char] line with
    | [ty; st; rq; _; l1; l2; _; r2; ex] => fields_socket ty st rq ex (addresses l1 l2 r2 [])
    | _ => None
    end
  else
    match strtok [space_char] line with
    | [ty; st; rq; _; l; r; ex] => fields_socket ty st rq ex (addresses l [] r [])
    | _ => None
    end.

(** What follows the label [pid=], if it is there, is not the end of the line. *)
Definition pid_present (extra : text) : bool :=
  match strstr extra (text_of "pid=") with
  | Some pid_eq => negb ((scan_pid pid_eq).1 =? -1)%Z
  | None => true
  end.

Definition fields_fit (fields : list text) : bool :=
  match fields with
  | [ty; st; _; _; l1; l2; r1; r2; ex] =>
      short 32 ty && short 32 st && short 128 l1 && short 128 l2 && short 128 r1 && short 128 r2 &&
      short 256 ex && pid_present ex
  | [ty; st; _; _; l; r; ex] =>
      short 32 ty && short 32 st && short 128 l && short 128 r && short 256 ex && pid_present ex
  | _ => false
  end.

(** The number of fields that the parser of the line expects. *)
Definition fields_expected (line : text) : nat :=
  if starts "u_str" line || starts "u_dgr" line || starts "u_seq" line then 9 else 7.

(** A line that is skipped, or has another number of fields (a socket without an owner has no last
    field), or whose fields fit in the arrays of the parser. *)
Definition line_fits (line : text) : bool :=
  starts "Netid" line || starts "nl" line || bool_decide (is_Some (strstr line (text_of "TIME-WAIT"))) ||
  negb (length (strtok [space_char] line) =? fields_expected line) ||
  fields_fit (strtok [space_char] line).

(** The effect of a socket on the table. *)
Definition put_socket (sk : socket) (t : table pid_entry_t) : table pid_entry_t :=
  match find_or_add t (sk_pid sk) with
  | None => t
  | Some t =>
      table_update t (sk_pid sk)
        (add_socket (sk_type sk) (sk_state sk) (sk_recv_q sk) 0 (sk_addr sk))
  end.

Section line_lemmas.
Context `{!Doubles}.

Definition keys_valid (t : table pid_entry_t) : Prop :=
  forall key e, table_get t key = Some e -> pid_valid key = true.

Lemma find_or_add_invalid t key :
  keys_valid t -> pid_valid key = false -> find_or_add t key = None.
Proof.
  intros Hv Hk. unfold find_or_add. destruct (table_get t key) as [e|] eqn:E.
  { apply Hv in E. congruence. }
  unfold pid_valid in Hk. destruct (16 <=? String.length key) eqn:El; [done|]. bool_hyps.
  destruct (String.length key <? 16) eqn:El'; bool_hyps; [|lia]. cbn [andb] in Hk.
  destruct (strtoul_all key) as [ok v]. cbn [fst] in Hk. by subst.
Qed.

Lemma find_or_add_get t key t' : find_or_add t key = Some t' -> is_Some (table_get t' key).
Proof.
  unfold find_or_add. destruct (table_get t key) as [e|] eqn:E; [intros [=<-]; by exists e|].
  destruct (_ <=? _); [done|]. destruct (strtoul_all key) as [[] v]; [|done]. cbn [negb].
  destruct (table_put t key _) as [t1 []] eqn:Ep; intros [=<-].
  rewrite (table_get_put _ _ _ _ Ep), decide_True by done. by eexists.
Qed.

Lemma process_ss_entry_put t ty st q a b c d a' b' c' d' ex key :
  is_str a a' -> is_str b b' -> is_str c c' -> is_str d d' ->
  short 32 ty = true -> short 32 st = true ->
  process_ss_entry t (mk_fields (pad 32 ty) (pad 32 st) q 0 a b c d ex) key =
    Ret (put_socket (mk_socket key (socket_type_flag (string_of ty)) (socket_state_flag (string_of st)) q
                       (addresses a' b' c' d')) t).
Proof.
  intros Ha Hb Hc Hd [Hty Hty']%short_spec [Hst Hst']%short_spec. unfold process_ss_entry, put_socket.
  cbn [sk_pid sk_type sk_state sk_recv_q sk_addr f_state f_type f_recv_q f_send_q f_local1 f_local2
       f_remote1 f_remote2].
  destruct (find_or_add t key) as [t'|] eqn:E; [|done].
  apply find_or_add_get in E as [e He].
  rewrite !buf_str_pad by done. rewrite !bind_Ret, He. cbn [of_option]. rewrite bind_Ret.
  unfold is_str in *. rewrite Ha, Hb, Hc, Hd, !bind_Ret. fold (addresses a' b' c' d').
  destruct (max_queue e <? u32 (q + 0))%Z eqn:Eq; rewrite bind_Ret; [done|].
  f_equal. unfold table_update. f_equal.
  apply hash_alter_ext. intros e' He'. assert (e' = e) as -> by (unfold table_get in He; congruence).
  unfold add_socket. by rewrite Eq.
Qed.

Lemma parse_common_put t ty st q a b c d a' b' c' d' ex :
  keys_valid t ->
  is_str a a' -> is_str b b' -> is_str c c' -> is_str d d' ->
  short 32 ty = true -> short 32 st = true -> short 256 ex = true -> pid_present ex = true ->
  exists r, parse_socket_common t (mk_fields (pad 32 ty) (pad 32 st) q 0 a b c d (pad 256 ex)) =
    Ret (r, match extra_pid ex with
            | Some key => put_socket (mk_socket key (socket_type_flag (string_of ty))
                            (socket_state_flag (string_of st)) q (addresses a' b' c' d')) t
            | None => t
            end).
Proof.
  intros Hv Ha Hb Hc Hd Hty Hst [Hex Hex']%short_spec Hp. unfold parse_socket_common, extra_pid.
  cbn [f_extra]. rewrite buf_str_pad by done. rewrite bind_Ret. unfold pid_present in Hp.
  destruct (strstr ex (text_of "pid=")) as [pe|]; [|by exists false].
  change (Some pe ≫= ?f) with (f pe). cbv beta.
  destruct (scan_pid pe) as [items w] eqn:Es. cbn [fst snd] in *.
  assert ((items = 0%Z /\ w = None) \/ (items =? 0)%Z = false /\ exists w', w = Some w') as [[-> ->]|[Hi [w' ->]]].
  { unfold scan_pid in Es. destruct (drop 4 pe); simplify_eq/=.
    destruct (negb _); simplify_eq/=; eauto. }
  - by exists false.
  - rewrite Hi. cbn [of_option]. rewrite bind_Ret. change (Some w' ≫= ?f) with (f w'). cbv beta zeta.
    rewrite (process_ss_entry_put _ _ _ _ _ _ _ _ a' b' c' d') by done. rewrite bind_Ret. exists true.
    destruct (pid_valid (string_of w')) eqn:Epv; [done|].
    unfold put_socket. cbn [sk_pid]. by rewrite find_or_add_invalid.
Qed.

Lemma is_str_nil : is_str [NUL] [].
Proof. reflexivity. Qed.

Lemma uds_fields ty st rq sq l1 l2 r1 r2 ex :
  fields_fit [ty; st; rq; sq; l1; l2; r1; r2; ex] = true ->
  fields_loop uds_line_specs UDS_STATE.DONE [ty; st; rq; sq; l1; l2; r1; r2; ex] UDS_STATE.SOCKET_TYPE uds_objects =
  Ret (let '(ok, q) := strtoul_all (string_of rq) in
       if ok : bool then
         (true, [O_str (pad 32 ty); O_str (pad 32 st); O_u32 (u32 q); O_u32 0; O_str (pad 128 l1); O_str (pad 128 l2);
                 O_str (pad 128 r2); O_str (chars 128); O_str (pad 256 ex)])
       else (false, [O_str (pad 32 ty); O_str (pad 32 st); O_u32 0; O_u32 0; O_str (chars 128); O_str (chars 128);
                 O_str (chars 128); O_str (chars 128); O_str (chars 256)])).
Proof.
  unfold fields_fit. rewrite !andb_true_iff. intros (((((((Hty & Hst) & Hl1) & Hl2) & Hr1) & Hr2) & Hex) & _).
  unfold uds_objects.
  str_field Hty. str_field Hst.
  destruct (strtoul_all (string_of rq)) as [[] q] eqn:Eq.
  - erewrite fields_step; [|reflexivity|reflexivity|reflexivity|]; cycle 1.
    { unfold convert_field. cbn [spec_type]. by rewrite Eq. }
    cbn [spec_next dst insert list_insert].
    erewrite fields_step; [|reflexivity|reflexivity|reflexivity|reflexivity].
    cbn [spec_next dst insert list_insert].
    str_field Hl1. str_field Hl2. str_field Hr1. str_field Hr2. str_field Hex. reflexivity.
  - erewrite fields_stop; [reflexivity|reflexivity|reflexivity|reflexivity|].
    unfold convert_field. cbn [spec_type]. by rewrite Eq.
Qed.

Lemma ext_fields ty st rq sq l r ex :
  fields_fit [ty; st; rq; sq; l; r; ex] = true ->
  fields_loop ext_line_specs STATE.DONE [ty; st; rq; sq; l; r; ex] STATE.SOCKET_TYPE ext_objects =
  Ret (let '(ok, q) := strtoul_all (string_of rq) in
       if ok : bool then
         (true, [O_str (pad 32 ty); O_str (pad 32 st); O_u32 (u32 q); O_u32 0; O_str (pad 128 l); O_str (pad 128 r);
                 O_str (pad 256 ex)])
       else (false, [O_str (pad 32 ty); O_str (pad 32 st); O_u32 0; O_u32 0; O_str (chars 128); O_str (chars 128);
                 O_str (chars 256)])).
Proof.
  unfold fields_fit. rewrite !andb_true_iff. intros (((((Hty & Hst) & Hl) & Hr) & Hex) & _).
  unfold ext_objects. str_field Hty. str_field Hst.
  destruct (strtoul_all (string_of rq)) as [[] q] eqn:Eq.
  - erewrite fields_step; [|reflexivity|reflexivity|reflexivity|]; cycle 1.
    { unfold convert_field. cbn [spec_type]. by rewrite Eq. }
    cbn [spec_next dst insert list_insert].
    erewrite fields_step; [|reflexivity|reflexivity|reflexivity|reflexivity].
    cbn [spec_next dst insert list_insert].
    str_field Hl. str_field Hr. str_field Hex. reflexivity.
  - erewrite fields_stop; [reflexivity|reflexivity|reflexivity|reflexivity|].
    unfold convert_field. cbn [spec_type]. by rewrite Eq.
Qed.

(** A line that fits does to the table what its socket says. *)
Lemma line_func_put line t :
  keys_valid t -> line_fits line = true ->
  line_func line t = Ret (match line_socket line with Some sk => put_socket sk t | None => t end, true).
Proof.
  intros Hv. unfold line_fits, line_func, line_socket.
  destruct (starts "Netid" line); [done|]. destruct (starts "nl" line); [done|].
  destruct (bool_decide (is_Some (strstr line (text_of "TIME-WAIT")))); [done|]. cbn [orb].
  unfold parse_uds_socket_line, parse_ext_socket_line, parse_tab_line, fields_expected.
  destruct (starts "u_str" line || starts "u_dgr" line || starts "u_seq" line).
  all: destruct (length (strtok [space_char] line) =? _) eqn:En; bool_hyps; cbn [negb orb].
  2:{ intros _. destruct (fields_miscounted uds_line_specs UDS_STATE.DONE (strtok [space_char] line)
        UDS_STATE.SOCKET_TYPE uds_objects) as [env ->]; [reflexivity|unfold UDS_STATE.SOCKET_TYPE, UDS_STATE.DONE; lia..|].
      rewrite !bind_Ret. cbn [negb]. rewrite bind_Ret.
      by destruct (strtok [space_char] line) as [|? [|? [|? [|? [|? [|? [|? [|? [|? [|]]]]]]]]]]. }
  3:{ intros _. destruct (fields_miscounted ext_line_specs STATE.DONE (strtok [space_char] line)
        STATE.SOCKET_TYPE ext_objects) as [env ->]; [reflexivity|unfold STATE.SOCKET_TYPE, STATE.DONE; lia..|].
      rewrite !bind_Ret. cbn [negb]. rewrite bind_Ret.
      by destruct (strtok [space_char] line) as [|? [|? [|? [|? [|? [|? [|? [|]]]]]]]]. }
  all: intros Hf; destruct (strtok [space_char] line) as [|ty [|st [|rq [|sq [|l1 [|l2 [|r1 [|r2 [|ex [|]]]]]]]]]];
    try discriminate Hf; try discriminate En.
  - rewrite uds_fields by done. rewrite bind_Ret. unfold fields_socket.
    destruct (strtoul_all (string_of rq)) as [[] q]; [|done]. cbn [negb].
    unfold fields_fit in Hf. rewrite !andb_true_iff in Hf.
    destruct Hf as (((((((Hty & Hst) & Hl1) & Hl2) & Hr1) & Hr2) & Hex) & Hp).
    destruct (parse_common_put t ty st (u32 q) (pad 128 l1) (pad 128 l2) (pad 128 r2) (chars 128)
                l1 l2 r2 [] ex) as [b ->]; try done; try (by apply is_str_pad).
    rewrite bind_Ret. by destruct (extra_pid ex).
  - rewrite ext_fields by done. rewrite bind_Ret. unfold fields_socket.
    destruct (strtoul_all (string_of rq)) as [[] q]; [|done]. cbn [negb].
    unfold fields_fit in Hf. rewrite !andb_true_iff in Hf.
    destruct Hf as (((((Hty & Hst) & Hl) & Hr) & Hex) & Hp).
    destruct (parse_common_put t ty st (u32 q) (pad 128 l1) [NUL] (pad 128 l2) [NUL] l1 [] l2 [] r1) as [b ->];
      try done; try (by apply is_str_pad).
    rewrite bind_Ret. by destruct (extra_pid r1).
Qed.
End line_lemmas.

(** ** What the table holds *)

Definition max_recv (l : list socket) : Z := foldl Z.max 0%Z (sk_recv_q <$> l).

(** The first socket with the longest queue. *)
Definition busiest (l : list socket) : option socket :=
  head (filter (fun sk => sk_recv_q sk = max_recv l /\ (0 < max_recv l)%Z) l).

(** The specification: what the sockets [l] of one process add up to. *)
Definition summary (key : string) (l : list socket) : pid_entry_t :=
  let queue := u32 (foldl Z.add 0%Z (sk_recv_q <$> l)) in
  mk_entry key (u16 (strtoul_all key).2) (u16 (Z.of_nat (length l)))
    (foldl Z.lor 0%Z (sk_type <$> l)) (foldl Z.lor 0%Z (sk_state <$> l))
    queue 0 queue (max_recv l)
    (match busiest l with Some sk => string_take (max_queue_address_size - 2) (sk_addr sk) | None => "" end).

Definition sockets_of (key : string) (l : list socket) : list socket :=
  filter (fun sk => sk_pid sk = key) l.

Definition pid_summary (l : list socket) (key : string) : option pid_entry_t :=
  match sockets_of key l with [] => None | k => Some (summary key k) end.

Definition socket_wf (sk : socket) : Prop := pid_valid (sk_pid sk) = true /\ (0 <= sk_recv_q sk < 2 ^ 32)%Z.

Definition pids (l : list socket) : gset string := list_to_set (sk_pid <$> l).

Lemma line_socket_wf line sk : line_socket line = Some sk -> socket_wf sk.
Proof.
  assert (forall ty st rq ex addr, fields_socket ty st rq ex addr = Some sk -> socket_wf sk) as Hf.
  { intros ty st rq ex addr. unfold fields_socket, extra_pid.
    destruct (strtoul_all (string_of rq)) as [[] q]; [|done].
    destruct (strstr ex _) as [pe|]; [|done]. change (Some pe ≫= ?f) with (f pe). cbv beta.
    destruct (snd (scan_pid pe)) as [w|]; [|done]. change (Some w ≫= ?f) with (f w). cbv beta zeta.
    destruct (pid_valid _) eqn:E; [|done]. cbn [mbind option_bind]. intros [=<-].
    split; [done|]. apply u32_range. }
  unfold line_socket. repeat case_match; try done; eauto.
Qed.

Lemma foldl_snoc {A B} (f : A -> B -> A) a l x : foldl f a (l ++ [x]) = f (foldl f a l) x.
Proof. by rewrite foldl_app. Qed.

Lemma max_recv_snoc l sk : max_recv (l ++ [sk]) = Z.max (max_recv l) (sk_recv_q sk).
Proof. unfold max_recv. rewrite fmap_app. apply foldl_snoc. Qed.

Lemma max_recv_spec l :
  (0 <= max_recv l)%Z /\ Forall (fun sk => sk_recv_q sk <= max_recv l)%Z l /\
  ((0 < max_recv l)%Z -> exists sk, sk ∈ l /\ sk_recv_q sk = max_recv l).
Proof.
  induction l as [|sk l (H0 & Hall & Hex)] using rev_ind.
  { split; [done|]. split; [constructor|]. done. }
  rewrite max_recv_snoc. split; [lia|]. split.
  - apply Forall_app. split; [|constructor; [lia|constructor]]. eapply Forall_impl; [exact Hall|].
    simpl. intros; lia.
  - intros Hpos. destruct (Z.max_spec (max_recv l) (sk_recv_q sk)) as [[? ->]|[? Hm]].
    + exists sk. split; [set_solver|done].
    + rewrite Hm in *. destruct (Hex Hpos) as (k & Hk & ?). exists k. split; [set_solver|done].
Qed.

Lemma busiest_snoc l sk :
  busiest (l ++ [sk]) = if (max_recv l <? sk_recv_q sk)%Z then Some sk else busiest l.
Proof.
  destruct (max_recv_spec l) as (H0 & Hall & Hex). unfold busiest. rewrite max_recv_snoc, filter_app.
  destruct (max_recv l <? sk_recv_q sk)%Z eqn:E.
  - apply Z.ltb_lt in E. rewrite Z.max_r by lia.
    assert (filter (fun k => sk_recv_q k = sk_recv_q sk /\ (0 < sk_recv_q sk)%Z) l = []) as ->.
    { destruct (filter _ l) as [|k fl] eqn:Ef; [done|].
      assert (k ∈ filter (fun k => sk_recv_q k = sk_recv_q sk /\ (0 < sk_recv_q sk)%Z) l) as Hk
        by (rewrite Ef; left). apply list_elem_of_filter in Hk as [[Hk _] Hin].
      rewrite Forall_forall in Hall. specialize (Hall k Hin). lia. }
    by rewrite filter_cons, decide_True by lia.
  - apply Z.ltb_ge in E. rewrite Z.max_l by lia.
    destruct (decide (0 < max_recv l)%Z) as [Hp|Hp].
    + destruct (Hex Hp) as (k & Hk & He).
      destruct (filter _ l) as [|k' fl] eqn:Ef; [|done]. exfalso.
      assert (k ∈ filter (fun sk0 => sk_recv_q sk0 = max_recv l /\ (0 < max_recv l)%Z) l) as Hin
        by (by apply list_elem_of_filter). rewrite Ef in Hin. by apply not_elem_of_nil in Hin.
    + rewrite filter_cons, decide_False by lia. by rewrite filter_nil, app_nil_r.
Qed.

(** One more socket. *)
Lemma summary_snoc key l sk :
  (0 <= sk_recv_q sk < 2 ^ 32)%Z ->
  add_socket (sk_type sk) (sk_state sk) (sk_recv_q sk) 0 (sk_addr sk) (summary key l) =
  summary key (l ++ [sk]).
Proof.
  intros Hq. unfold summary, add_socket.
  cbn [pid_str pid socket_count socket_types socket_states total_queue send_queue recv_queue max_queue
       max_queue_address].
  rewrite max_recv_snoc, busiest_snoc, !fmap_app. cbn [fmap list_fmap]. rewrite !foldl_snoc, length_app.
  cbn [length]. rewrite Z.add_0_r, (u32_small (sk_recv_q sk)) by lia. rewrite !u32_add_l.
  f_equal.
  - rewrite Nat2Z.inj_add. unfold u16. by rewrite Zplus_mod_idemp_l.
  - destruct (_ <? _)%Z eqn:E; [apply Z.ltb_lt in E|apply Z.ltb_ge in E]; lia.
  - by destruct (_ <? _)%Z.
Qed.

Definition put_sockets (l : list socket) (t : table pid_entry_t) : table pid_entry_t :=
  foldl (fun t sk => put_socket sk t) t l.

Definition empty_table : table pid_entry_t := table_create MAX_PROCESS_COUNT.

(** The table after the sockets [l]. *)
Record table_for (l : list socket) (t : table pid_entry_t) : Prop := {
  tf_wf : table_wf t;
  tf_max : max_entries t = MAX_PROCESS_COUNT;
  tf_get : forall key, table_get t key = pid_summary l key;
}.

Lemma pid_summary_None l key : pid_summary l key = None <-> key ∉ pids l.
Proof.
  unfold pid_summary, pids, sockets_of. rewrite elem_of_list_to_set, list_elem_of_fmap.
  split.
  - destruct (filter _ l) eqn:E; [|done]. intros _ (sk & -> & Hin).
    assert (sk ∈ filter (fun k => sk_pid k = sk_pid sk) l) as Hx by (by apply list_elem_of_filter).
    rewrite E in Hx. by apply not_elem_of_nil in Hx.
  - intros Hn. destruct (filter _ l) as [|sk fl] eqn:E; [done|]. exfalso. apply Hn. exists sk.
    assert (sk ∈ filter (fun k => sk_pid k = key) l) as Hx by (rewrite E; left).
    apply list_elem_of_filter in Hx as [? ?]. done.
Qed.

Lemma pid_summary_snoc l sk key :
  (0 <= sk_recv_q sk < 2 ^ 32)%Z ->
  pid_summary (l ++ [sk]) key =
    if decide (key = sk_pid sk)
    then Some (add_socket (sk_type sk) (sk_state sk) (sk_recv_q sk) 0 (sk_addr sk)
                 (default (summary key []) (pid_summary l key)))
    else pid_summary l key.
Proof.
  intros Hq. unfold pid_summary, sockets_of. rewrite filter_app, filter_cons, filter_nil.
  destruct (decide (key = sk_pid sk)) as [->|Hne].
  - rewrite decide_True by done. destruct (filter _ l) as [|k fl] eqn:E; cbn [app default from_option id].
    + by rewrite (summary_snoc _ []).
    + by rewrite summary_snoc.
  - rewrite decide_False by done. by rewrite app_nil_r.
Qed.

Lemma new_entry_summary key : new_pid_entry key (strtoul_all key).2 = summary key [].
Proof. reflexivity. Qed.

Lemma table_for_count l t : table_for l t -> table_count t = size (pids l).
Proof.
  intros [Hwf _ Hget]. rewrite table_count_size by done. rewrite <-size_dom. f_equal.
  apply set_eq. intros key. rewrite elem_of_dom. specialize (Hget key). unfold table_get in Hget.
  rewrite hash_find_map in Hget. unfold tbl_map. rewrite Hget.
  rewrite <-not_eq_None_Some, pid_summary_None. split; [|tauto].
  intros Hn. destruct (decide (key ∈ pids l)); tauto.
Qed.

Lemma put_socket_for l t sk :
  table_for l t -> socket_wf sk -> size (pids (l ++ [sk])) <= MAX_PROCESS_COUNT ->
  table_for (l ++ [sk]) (put_socket sk t).
Proof.
  intros Ht [Hv Hq] Hsz. pose proof (table_for_count l t Ht) as Hc. destruct Ht as [Hwf Hmax Hget].
  unfold put_socket, find_or_add.
  destruct (table_get t (sk_pid sk)) as [e|] eqn:E.
  { split; [by apply table_update_wf|done|]. intros key. rewrite table_get_update.
    rewrite pid_summary_snoc by done. rewrite <-!Hget. destruct (decide (key = sk_pid sk)) as [->|]; [|done].
    by rewrite E. }
  unfold pid_valid in Hv. apply andb_true_iff in Hv as [Hl Hs].
  destruct (16 <=? String.length (sk_pid sk)) eqn:El; bool_hyps; [lia|].
  destruct (strtoul_all (sk_pid sk)) as [ok v] eqn:Ev. cbn [fst] in Hs. subst ok. cbn [negb].
  assert (table_count t < max_entries t) as Hroom.
  { rewrite Hc, Hmax. eapply Nat.lt_le_trans; [|exact Hsz]. apply subset_size.
    rewrite Hget in E. apply pid_summary_None in E.
    split; [unfold pids; set_solver|]. intros Hsub. apply E, Hsub.
    unfold pids. set_solver. }
  pose proof (table_put_wf t (sk_pid sk) (new_pid_entry (sk_pid sk) v) Hwf) as Hwf'.
  destruct (table_put t (sk_pid sk) _) as [t' b] eqn:Ep.
  pose proof Ep as Ep'. rewrite table_put_new, decide_True in Ep' by done. simplify_eq.
  split; [by apply table_update_wf|done|]. intros key. rewrite table_get_update.
  rewrite pid_summary_snoc by done. rewrite !(table_get_put _ _ _ _ Ep), <-!Hget.
  destruct (decide (key = sk_pid sk)) as [->|]; [|done]. rewrite decide_True, E by done.
  cbn [fmap option_fmap option_map default from_option id].
  by rewrite <-new_entry_summary, Ev.
Qed.

Lemma pids_app l k : pids (l ++ k) = pids l ∪ pids k.
Proof. unfold pids. rewrite fmap_app. apply list_to_set_app_L. Qed.

Lemma put_sockets_for l :
  Forall socket_wf l -> size (pids l) <= MAX_PROCESS_COUNT -> table_for l (put_sockets l empty_table).
Proof.
  induction l as [|sk l IH] using rev_ind; intros Hw Hsz.
  - split; [|reflexivity|intros; reflexivity]. split; [constructor|]. apply Nat.le_0_l.
  - apply Forall_app in Hw as [Hw Hsk]. rewrite Forall_singleton in Hsk. unfold put_sockets. rewrite foldl_snoc.
    apply put_socket_for; [|exact Hsk|exact Hsz]. apply IH; [done|].
    etrans; [|exact Hsz]. apply subseteq_size. rewrite pids_app. apply union_subseteq_l.
Qed.

Section fold.
Context `{!Doubles}.

Lemma table_for_keys l t : Forall socket_wf l -> table_for l t -> keys_valid t.
Proof.
  intros Hw Ht key e He. rewrite (tf_get _ _ Ht) in He.
  destruct (decide (key ∈ pids l)) as [Hin|Hn].
  - unfold pids in Hin. apply elem_of_list_to_set, list_elem_of_fmap in Hin as (sk & -> & Hin).
    rewrite Forall_forall in Hw. by apply Hw.
  - apply pid_summary_None in Hn. congruence.
Qed.

Lemma omap_line_wf ls : Forall socket_wf (omap line_socket ls).
Proof.
  apply Forall_forall. intros sk (l & _ & Hl)%list_elem_of_omap. by eapply line_socket_wf.
Qed.

(** The lines of the output build the table of their sockets. *)
Lemma fold_lines_sockets ls :
  Forall (fun l => line_fits l = true) ls -> size (pids (omap line_socket ls)) <= MAX_PROCESS_COUNT ->
  fold_lines line_func ls empty_table = Ret (put_sockets (omap line_socket ls) empty_table).
Proof.
  induction ls as [|l ls IH] using rev_ind; intros Hf Hsz; [done|].
  apply Forall_app in Hf as [Hf Hl]. rewrite Forall_singleton in Hl.
  rewrite omap_app in *. rewrite pids_app in Hsz.
  assert (size (pids (omap line_socket ls)) <= MAX_PROCESS_COUNT) as Hsz'.
  { etrans; [|exact Hsz]. apply subseteq_size, union_subseteq_l. }
  rewrite fold_lines_app, IH, bind_Ret by done. cbn [fold_lines].
  pose proof (put_sockets_for _ (omap_line_wf ls) Hsz') as Ht.
  rewrite line_func_put; [|eapply table_for_keys; [apply omap_line_wf|exact Ht]|exact Hl].
  rewrite bind_Ret. unfold put_sockets. rewrite foldl_app. simpl.
  by destruct (line_socket l).
Qed.
End fold.

(** ** The report *)

Section report.
Context `{!Doubles}.
Variable qsort : (pid_to_count_t -> pid_to_count_t -> Z) -> list pid_to_count_t -> list pid_to_count_t.
Context `{!QsortSpec qsort}.
(** What the [n]-th run of [ss] prints. *)
Variable ss : nat -> child.
Context {Msg : Type} (wrap : option socket_counts_msg -> Msg).

Definition QUERY_SYS_STATE_NAME : string := "system state".
Definition QUERY_SYS_PROP_PID_COUNT : Z := 0.

(** The module's interface; the machine counts the commands run. *)
Definition sockets_query : resq_interface_t nat Msg := {|
  priority := RESQ_PRIORITY_2;
  ctx_t := resq_state_t;
  init := Some (fun rd w =>
    '(ok, p) ← rd QUERY_SYS_STATE_NAME (mk_prop QUERY_SYS_PROP_PID_COUNT RESQ_PROP_U16 0);
    Ret (init_resource_query (if ok : bool then Some (property p) else None), w));
  describe := "sockets";
  read_property := None;
  run_query := fun st w => st ← run_resource_query qsort (ss w) st; Ret (st, S w);
  prepare_sbp := fun st w => '(m, st) ← query_sockets_prepare st; Ret (option_map wrap m, st, w);
  teardown := Some (fun _ w => Ret w);
|}.

(** *** The arrays that are sorted *)

Definition count_of (x : string * pid_entry_t) : pid_to_count_t := (socket_count x.2, x.1).
Definition queue_of (x : string * pid_entry_t) : pid_to_count_t := (total_queue x.2, x.1).

Lemma store_next {A} (f : list A) x y n i :
  length f = i -> store (f ++ replicate (S n) y) i x = Ret ((f ++ [x]) ++ replicate n y).
Proof.
  intros <-. unfold store. rewrite length_app, length_replicate.
  destruct (_ <? _) eqn:E; bool_hyps; [|lia]. f_equal. rewrite insert_app_r_alt, Nat.sub_diag by lia.
  cbn [replicate insert list_insert]. by rewrite <-app_assoc.
Qed.

Lemma collect_loop (t : table pid_entry_t) pre post :
  (forall k e, (k, e) ∈ post -> table_get t k = Some e) ->
  foreach_loop (collect t) post (length pre)
    (Ret ((count_of <$> pre) ++ replicate (length post) (0%Z, ""),
          (queue_of <$> pre) ++ replicate (length post) (0%Z, ""))) =
  Ret (count_of <$> (pre ++ post), queue_of <$> (pre ++ post)).
Proof.
  revert pre. induction post as [|[k e] post IH]; intros pre Hg; cbn [foreach_loop length].
  { by rewrite !app_nil_r. }
  unfold collect at 1. cbv beta iota. rewrite bind_Ret, (Hg k e) by set_solver. cbn [of_option]. rewrite bind_Ret.
  rewrite !store_next by (by rewrite length_fmap). rewrite !bind_Ret.
  specialize (IH (pre ++ [(k, e)]) ltac:(set_solver)). rewrite length_app in IH. cbn [length] in IH.
  rewrite Nat.add_1_r in IH. rewrite !fmap_app, <-!app_assoc in IH. rewrite <-!app_assoc, !fmap_app. exact IH.
Qed.

Lemma table_get_entry {D} (t : table D) k e : table_wf t -> (k, e) ∈ hash_entries t -> table_get t k = Some e.
Proof.
  intros [Hnd _] Hin. unfold table_get. rewrite hash_find_map. by apply elem_of_list_to_map.
Qed.

Lemma collect_all (t : table pid_entry_t) :
  table_wf t ->
  table_foreach_key t (Ret (replicate (table_count t) (0%Z, ""), replicate (table_count t) (0%Z, ""))) (collect t) =
  Ret (count_of <$> hash_entries t, queue_of <$> hash_entries t).
Proof.
  intros Hwf. apply (collect_loop t []). intros k e. by apply table_get_entry.
Qed.

(** *** The ten slots *)

Lemma top10_loop_spec run sorted fuel i top :
  fuel + i <= length top ->
  exists top', top10_loop fuel i (length sorted) run sorted top = Ret top' /\ length top' = length top /\
    forall j, top' !! j = if decide (i <= j < i + fuel /\ j < length sorted)
                          then (fun x => Some (run, x.2)) <$> sorted !! j else top !! j.
Proof.
  revert i top.
  induction fuel as [|fuel IH]; intros i top Hl; cbn [top10_loop].
  { exists top. split_and!; [done|done|]. intros j. by rewrite decide_False by lia. }
  destruct (i <? length sorted) eqn:E; bool_hyps.
  - destruct (lookup_lt_is_Some_2 sorted i E) as [x Hx]. rewrite (proj2 (load_Ret sorted i x) Hx).
    rewrite bind_Ret. unfold store at 1. destruct (i <? length top) eqn:Et; bool_hyps; [|lia].
    rewrite bind_Ret. destruct (IH (S i) (<[i := Some (run, x.2)]> top)) as (top' & -> & Hlen & Hj);
      [rewrite length_insert; lia|].
    rewrite length_insert in Hlen. exists top'. split_and!; [done|done|]. intros j. rewrite Hj.
    destruct (decide (j = i)) as [->|Hne].
    + rewrite decide_False by lia. rewrite decide_True by lia.
      by rewrite list_lookup_insert_eq, Hx by lia.
    + rewrite list_lookup_insert_ne by done. repeat case_decide; try done; exfalso; lia.
  - exists top. split_and!; [done|done|]. intros j. by rewrite decide_False by lia.
Qed.

(** *** One run *)

Definition BUF : nat := Z.to_nat 4096.

(** The output [ch] of [ss] has the complete lines [ls]: it has no NUL and no blank line, its
    lines fit in the leftover buffer and their fields in the parser's arrays. *)
Record ss_output (ch : child) (ls : list text) (tl : text) : Prop := {
  so_started : started ch = true;
  so_pieces : Forall (piece_ok (BUF - 1)) (reads ch);
  so_lines : cut_lines (concat (reads ch)) = (ls, tl);
  so_blank : Forall (fun l => l <> []) ls;
  so_short : Forall (fun l => length l < BUF) (tl :: ls);
  so_fit : Forall (fun l => line_fits l = true) ls;
  so_room : size (pids (omap line_socket ls)) <= MAX_PROCESS_COUNT;
}.

Lemma line_func_continues l t t' b : line_func l t = Ret (t', b) -> b = true.
Proof.
  unfold line_func. repeat case_match; intros Hl; simplify_eq; try done;
    apply outcome_bind_Ret in Hl as ([? ?] & _ & Hl); by simplify_eq.
Qed.

Lemma run_ss ch ls tl :
  ss_output ch ls tl ->
  exists ctx out,
    run_command (lines_buffer_fn line_func) ch output_buffer (length leftover_buffer - 1)
      (mk_lines_ctx (mk_leftover leftover_buffer 0 0) 0 (table_create MAX_PROCESS_COUNT)) =
      Ret (status ch, ctx, out) /\
    lines_state ctx = put_sockets (omap line_socket ls) empty_table.
Proof.
  intros [Hst Hp Hc Hb Hs Hf Hr].
  assert (length leftover_buffer = BUF) as Hlen by apply length_replicate.
  destruct (run_lines line_func (fun _ => True) (fun _ => True) ltac:(eauto using line_func_continues) ch
              (mk_leftover leftover_buffer 0 0) output_buffer
              (length leftover_buffer - 1) ls tl) as (lo & out & _ & Hrun);
    [done|by rewrite Hlen| |done|done|done|by apply Forall_true| |].
  - unfold output_buffer. rewrite Hlen, length_replicate. unfold BUF. lia.
  - cbn [lo_buf]. rewrite Hlen. exact Hs.
  - rewrite Hrun by done. fold empty_table. rewrite fold_lines_sockets by done. rewrite bind_Ret.
    eexists _, _. split; reflexivity.
Qed.

Lemma entries_perm l t : table_for l t -> (hash_entries t).*1 ≡ₚ elements (pids l).
Proof.
  intros Ht. apply NoDup_Permutation; [apply Ht|apply NoDup_elements|]. intros key.
  rewrite elem_of_elements. destruct (decide (key ∈ pids l)) as [Hin|Hn].
  - split; [done|]. intros _. destruct (pid_summary l key) as [e|] eqn:E.
    + rewrite <-(tf_get _ _ Ht) in E. unfold table_get in E. rewrite hash_find_map in E.
      apply elem_of_list_to_map_2 in E. apply list_elem_of_fmap. by exists (key, e).
    + by apply pid_summary_None in E.
  - split; [|done]. intros ([k e] & -> & Hin)%list_elem_of_fmap. exfalso. apply Hn.
    apply (table_get_entry t k e (tf_wf _ _ Ht)) in Hin. rewrite (tf_get _ _ Ht) in Hin.
    destruct (decide (k ∈ pids l)) as [|Hk]; [done|]. apply pid_summary_None in Hk. congruence.
Qed.

(** The number of sockets of a process. *)
Definition count_for (l : list socket) (key : string) : Z := u16 (Z.of_nat (length (sockets_of key l))).

(** The queues can be compared. *)
Definition queues_ok (l : list socket) : Prop :=
  Forall (fun key => foldl Z.add 0 (sk_recv_q <$> sockets_of key l) < 2147483648)%Z (elements (pids l)).

Lemma summary_of_entry l t k e :
  table_for l t -> (k, e) ∈ hash_entries t -> e = summary k (sockets_of k l) /\ k ∈ pids l.
Proof.
  intros Ht Hin. apply (table_get_entry t k e (tf_wf _ _ Ht)) in Hin. rewrite (tf_get _ _ Ht) in Hin.
  split.
  - unfold pid_summary in Hin. by destruct (sockets_of k l); simplify_eq.
  - destruct (decide (k ∈ pids l)) as [|Hk]; [done|]. apply pid_summary_None in Hk. congruence.
Qed.

Lemma sum_nonneg l : Forall socket_wf l -> forall a, (0 <= a)%Z -> (0 <= foldl Z.add a (sk_recv_q <$> l))%Z.
Proof.
  induction 1 as [|sk l [_ Hq] _ IH]; intros a Ha; cbn [fmap list_fmap foldl]; [done|]. apply IH. lia.
Qed.

Lemma sockets_of_wf k l : Forall socket_wf l -> Forall socket_wf (sockets_of k l).
Proof.
  rewrite !Forall_forall. intros Hw sk [_ Hin]%list_elem_of_filter. by apply Hw.
Qed.

Lemma entries_comparable l t :
  Forall socket_wf l -> queues_ok l -> table_for l t -> comparable (queue_of <$> hash_entries t) = true.
Proof.
  intros Hw Hq Ht.
  assert (forall x, x ∈ queue_of <$> hash_entries t -> 0 <= s32 x.1 < 2147483648)%Z as Hx.
  { intros x ([k e] & -> & Hin)%list_elem_of_fmap. destruct (summary_of_entry l t k e Ht Hin) as [-> Hk].
    unfold queue_of. cbn [fst snd]. unfold summary. cbn [total_queue].
    unfold queues_ok in Hq. rewrite Forall_forall in Hq. specialize (Hq k). rewrite elem_of_elements in Hq.
    specialize (Hq Hk). pose proof (sum_nonneg (sockets_of k l) (sockets_of_wf k l Hw) 0%Z ltac:(lia)).
    rewrite u32_small, s32_small by lia. lia. }
  unfold comparable. apply forallb_forall. intros a Ha. apply forallb_forall. intros b Hb.
  apply list_elem_of_In in Ha, Hb. apply Hx in Ha, Hb. unfold int_range, compare_queues.
  apply andb_true_iff. rewrite !Z.ltb_lt. lia.
Qed.

(** The slots of earlier runs. *)
Definition slots_old (st : resq_state_t) : Prop :=
  length (top10_counts st) = ITEM_COUNT /\ length (top10_queues st) = ITEM_COUNT /\
  forall i r k, top10_counts st !! i = Some (Some (r, k)) -> r <= run_id st.

(** What a run leaves: the table, and in the slots the processes with the most sockets. *)
Lemma run_resource_query_ok ch ls tl st :
  ss_output ch ls tl -> status ch = 0%Z -> queues_ok (omap line_socket ls) -> slots_old st ->
  let l := omap line_socket ls in
  exists st' t order,
    run_resource_query qsort ch st = Ret st' /\
    send_state st' = SEND_SOCKET_COUNTS_0 /\ pid_table st' = Some t /\ table_for l t /\
    run_id st' = S (run_id st) /\ slots_old st' /\
    order ≡ₚ elements (pids l) /\
    StronglySorted (fun a b => count_for l b <= count_for l a)%Z order /\
    forall i, i < ITEM_COUNT ->
      top10_counts st' !! i =
        if decide (i < length order) then (fun k => Some (S (run_id st), k)) <$> order !! i
        else top10_counts st !! i.
Proof.
  intros Ho Hs Hq (Hl1 & Hl2 & Hold) l. pose proof (omap_line_wf ls) as Hw. fold l in Hw, Hq.
  pose proof (put_sockets_for l Hw (so_room _ _ _ Ho)) as Ht.
  destruct (run_ss ch ls tl Ho) as (ctx & out & Hrun & Hctx). fold l in Hctx.
  unfold run_resource_query. rewrite Hrun, bind_Ret, Hctx, Hs. cbn [Z.eqb negb].
  set (t := put_sockets l empty_table) in *. rewrite collect_all by apply Ht. rewrite bind_Ret.
  rewrite (entries_comparable l t) by done. cbn [negb].
  set (counts := qsort compare_counts (count_of <$> hash_entries t)).
  set (queues := qsort compare_queues (queue_of <$> hash_entries t)).
  assert (counts ≡ₚ count_of <$> hash_entries t) as Hpc by apply qsort_perm.
  assert (length counts = table_count t) as Hlc by (rewrite Hpc; apply length_fmap).
  assert (length queues = table_count t) as Hlq
    by (unfold queues; rewrite (qsort_perm _ _); apply length_fmap).
  cbn [top10_counts top10_queues].
  destruct (top10_loop_spec (S (run_id st)) counts ITEM_COUNT 0 (top10_counts st)) as (c & Hc & Hc1 & Hc2);
    [rewrite Hl1; lia|]. rewrite Hlc in Hc. rewrite Hc, bind_Ret.
  destruct (top10_loop_spec (S (run_id st)) queues ITEM_COUNT 0 (top10_queues st)) as (q & Hqe & Hq1 & _);
    [rewrite Hl2; lia|]. rewrite Hlq in Hqe. rewrite Hqe, bind_Ret.
  exists (mk_resq SEND_SOCKET_COUNTS_0 (Some t) (S (run_id st)) c q), t, counts.*2.
  split; [reflexivity|]. split_and!; try reflexivity; [done|..].
  - split; [by rewrite <-Hl1|]. split; [by rewrite <-Hl2|]. cbn [top10_counts run_id].
    intros i r k. rewrite Hc2. case_decide as Hd.
    + destruct (counts !! i); cbn [fmap option_fmap option_map]; [|done]. intros [= <- _]. lia.
    + intros Hi%Hold. lia.
  - rewrite <-(entries_perm l t Ht), Hpc. rewrite <-list_fmap_compose. done.
  - assert (StronglySorted (fun a b => compare_counts a b <= 0)%Z counts) as Hsort.
    { apply qsort_sorted; unfold compare_counts; intros; lia. }
    assert (Forall (fun x => x.1 = count_for l x.2) counts) as Hcf.
    { rewrite Hpc. apply Forall_fmap, Forall_forall. intros [k e] Hin. cbn [fst snd compose count_of].
      destruct (summary_of_entry l t k e Ht Hin) as [-> _]. done. }
    clear -Hsort Hcf. induction Hsort as [|x cs _ IH Hx]; cbn [fmap list_fmap]; constructor.
    + apply IH. by apply Forall_cons in Hcf as [_ ?].
    + apply Forall_cons in Hcf as [Hx1 Hcf]. apply Forall_fmap, Forall_forall. intros y Hy.
      rewrite Forall_forall in Hx, Hcf. specialize (Hx y Hy). specialize (Hcf y Hy).
      unfold compare_counts in Hx. cbn [compose]. lia.
  - intros i Hi. cbn [top10_counts]. rewrite Hc2, length_fmap, list_lookup_fmap.
    repeat case_decide; try lia; [|done]. by destruct (counts !! i).
Qed.

(** *** The messages *)

(** The message for process [key] at place [i]. *)
Definition socket_msg (l : list socket) (i : nat) (key : string) : socket_counts_msg :=
  let e := summary key (sockets_of key l) in
  mk_counts_msg (u8 (Z.of_nat i)) (pid e) (socket_count e) (u16 (socket_types e)) (u16 (socket_states e)).

Definition state_at (st : resq_state_t) (s : nat) : resq_state_t :=
  mk_resq s (pid_table st) (run_id st) (top10_counts st) (top10_queues st).

Definition state_after (n : nat) : nat := if n =? ITEM_COUNT then SEND_DONE else n.

Lemma prepare_slot l t st i k w out f :
  table_for l t -> pid_table st = Some t -> k ∈ pids l -> i < ITEM_COUNT ->
  top10_counts st !! i = Some (Some (run_id st, k)) ->
  send_loop sockets_query (S f) (state_at st i) w out =
    send_loop sockets_query f (state_at st (state_after (S i))) w (out ++ [wrap (Some (socket_msg l i k))]).
Proof.
  intros Ht Hp Hk Hi Hs. cbn [send_loop prepare_sbp sockets_query]. unfold query_sockets_prepare.
  assert (i <= 9) as Hi9 by (unfold ITEM_COUNT in Hi; lia).
  cbn [state_at send_state pid_table top10_counts run_id]. rewrite Hp. cbn [of_option]. rewrite bind_Ret.
  destruct (i =? SEND_DONE) eqn:Ed; bool_hyps; [unfold SEND_DONE in Ed; lia|].
  destruct (i <=? SEND_SOCKET_COUNTS_9) eqn:E9; bool_hyps; [|unfold SEND_SOCKET_COUNTS_9 in E9; lia].
  rewrite (proj2 (load_Ret _ i _) Hs), bind_Ret. cbn [of_option]. rewrite bind_Ret.
  rewrite Nat.eqb_refl. cbn [negb]. rewrite (tf_get _ _ Ht). unfold pid_summary.
  assert (sockets_of k l <> []) as Hne.
  { intros Hx. assert (pid_summary l k = None) as Hn by (unfold pid_summary; by rewrite Hx).
    by apply pid_summary_None in Hn. }
  destruct (sockets_of k l) as [|sk sks] eqn:Es; [done|]. cbn [of_option]. rewrite !bind_Ret.
  cbn [option_map]. unfold socket_msg. rewrite Es. f_equal.
  unfold state_at, state_after. f_equal. unfold SEND_SOCKET_COUNTS_9, ITEM_COUNT.
  by destruct (i =? 9) eqn:E1, (S i =? 10) eqn:E2; bool_hyps; try lia; subst.
Qed.

Lemma send_slots l t st order n w f :
  table_for l t -> pid_table st = Some t -> order ≡ₚ elements (pids l) ->
  (forall i, i < n -> top10_counts st !! i = (fun k => Some (run_id st, k)) <$> order !! i) ->
  n <= ITEM_COUNT -> n <= length order ->
  send_loop sockets_query (n + f) (state_at st 0) w [] =
    send_loop sockets_query f (state_at st (state_after n)) w
      (imap (fun i k => wrap (Some (socket_msg l i k))) (take n order)).
Proof.
  intros Ht Hp Ho. revert f. induction n as [|n IH]; intros f Hs Hn Hl; [done|].
  replace (S n + f) with (n + S f) by lia. rewrite IH by (try lia; intros; apply Hs; lia).
  destruct (lookup_lt_is_Some_2 order n) as [k Hk]; [lia|].
  replace (state_after n) with n
    by (unfold state_after; destruct (n =? ITEM_COUNT) eqn:E; bool_hyps; [lia|done]).
  assert (k ∈ pids l) as Hin by (rewrite <-elem_of_elements, <-Ho; by eapply list_elem_of_lookup_2).
  assert (top10_counts st !! n = Some (Some (run_id st, k))) as Hslot by (rewrite Hs by lia; by rewrite Hk).
  rewrite (prepare_slot l t st n k) by done.
  rewrite (take_S_lookup order n k) by done. rewrite imap_app. cbn [imap].
  rewrite length_take, Nat.min_l, Nat.add_0_r by lia. done.
Qed.

(** The report, as the registry uses it. *)
Lemma sockets_report_ok ls tl st w :
  ss_output (ss w) ls tl -> status (ss w) = 0%Z -> queues_ok (omap line_socket ls) -> slots_old st ->
  let l := omap line_socket ls in
  exists st1, run_query sockets_query st w = Ret (st1, S w) /\ slots_old st1 /\
    (ITEM_COUNT <= size (pids l) ->
     exists top rest st2,
       top ++ rest ≡ₚ elements (pids l) /\ length top = ITEM_COUNT /\
       StronglySorted (fun a b => count_for l b <= count_for l a)%Z (top ++ rest) /\
       send_loop sockets_query (S ITEM_COUNT) st1 (S w) [] =
         Ret (st2, S w, imap (fun i k => wrap (Some (socket_msg l i k))) top) /\
       slots_old st2 /\ send_state st2 = SEND_DONE) /\
    (size (pids l) < ITEM_COUNT -> send_loop sockets_query (S ITEM_COUNT) st1 (S w) [] = Undef).
Proof.
  intros Ho Hs Hq Hold l.
  destruct (run_resource_query_ok (ss w) ls tl st Ho Hs Hq Hold)
    as (st1 & t & order & Hrun & Hst & Hpt & Ht & Hid & Hold1 & Hperm & Hsort & Hslots).
  fold l in Ht, Hperm, Hsort.
  exists st1. cbn [run_query sockets_query]. rewrite Hrun, bind_Ret. split; [done|]. split; [done|].
  assert (length order = size (pids l)) as Hlen by (rewrite Hperm; done).
  assert (st1 = state_at st1 0) as Hat by (destruct st1; cbn in Hst; by subst).
  assert (forall i, i < ITEM_COUNT -> i < length order ->
            top10_counts st1 !! i = (fun k => Some (run_id st1, k)) <$> order !! i) as Hsl.
  { intros i Hi Hlt. rewrite Hslots by done. rewrite decide_True, Hid by done. done. }
  split.
  - intros H10. exists (take ITEM_COUNT order), (drop ITEM_COUNT order), (state_at st1 SEND_DONE).
    rewrite take_drop. split_and!; [done|rewrite length_take; lia|done| |exact Hold1|done].
    rewrite Hat. rewrite <-Nat.add_1_r, (send_slots l t st1 order) by (done || lia || (intros; apply Hsl; lia)).
    done.
  - intros Hlt. rewrite Hat. replace (S ITEM_COUNT) with (length order + S (ITEM_COUNT - length order)) by lia.
    rewrite (send_slots l t st1 order) by (done || lia || (intros; apply Hsl; lia)).
    replace (state_after (length order)) with (length order)
      by (unfold state_after; destruct (length order =? ITEM_COUNT) eqn:E; bool_hyps; [lia|done]).
    cbn [send_loop prepare_sbp sockets_query]. unfold query_sockets_prepare.
    unfold ITEM_COUNT in *. cbn [state_at send_state pid_table top10_counts run_id].
    destruct (length order =? SEND_DONE) eqn:Ed; bool_hyps; [unfold SEND_DONE in Ed; lia|].
    destruct (length order <=? SEND_SOCKET_COUNTS_9) eqn:E9; bool_hyps; [|unfold SEND_SOCKET_COUNTS_9 in E9; lia].
    rewrite Hpt. cbn [of_option]. rewrite bind_Ret. unfold load.
    specialize (Hslots (length order) ltac:(lia)). rewrite decide_False in Hslots by lia. rewrite Hslots.
    destruct (top10_counts st !! length order) as [[[r k]|]|] eqn:Es; try done.
    cbn [of_option]. rewrite !bind_Ret. cbn [of_option]. rewrite bind_Ret.
    destruct Hold as (_ & _ & Hold). apply Hold in Es.
    by destruct (r =? run_id st1) eqn:Er; bool_hyps; [lia|].
Qed.

(** C11: the report of the socket query.  The conditions on the output of [ss]: it succeeds; no line
    is blank, has a NUL or fills the 4096 bytes of the buffer; in a line with as many fields as its
    parser expects the fields are shorter than the arrays of the parser and [pid=] is not its end;
    the sockets belong to at most [MAX_PROCESS_COUNT] processes, and the receive queues of
    each add up to less than 2^31.  Then the run adds up the sockets of the output by process; lines with
    another number of fields (sockets without an owner) and lines without a process add nothing.  If at least ten processes have sockets, the module then
    prepares exactly ten messages, for the ten processes with the most sockets, most first, each
    with the count, types and states of that process, and is done.  If fewer than ten have
    sockets, it follows a slot that was never set, or that points to a key of an earlier table,
    which is undefined behaviour. *)
Theorem sockets_report ls tl st w :
  ss_output (ss w) ls tl -> status (ss w) = 0%Z -> queues_ok (omap line_socket ls) -> slots_old st ->
  let l := omap line_socket ls in
  exists st1, run_query sockets_query st w = Ret (st1, S w) /\ slots_old st1 /\
    (ITEM_COUNT <= size (pids l) ->
     exists top rest st2,
       top ++ rest ≡ₚ elements (pids l) /\ length top = ITEM_COUNT /\
       StronglySorted (fun a b => count_for l b <= count_for l a)%Z (top ++ rest) /\
       send_loop sockets_query (S ITEM_COUNT) st1 (S w) [] =
         Ret (st2, S w, imap (fun i k => wrap (Some (socket_msg l i k))) top) /\
       slots_old st2 /\ send_state st2 = SEND_DONE) /\
    (size (pids l) < ITEM_COUNT -> send_loop sockets_query (S ITEM_COUNT) st1 (S w) [] = Undef).
Proof. apply sockets_report_ok. Qed.

(** A run of [ss] that cannot be started leaves an empty table and the old slots. *)
Theorem ss_failure_undefined st w :
  started (ss w) = false -> slots_old st ->
  exists st1, run_query sockets_query st w = Ret (st1, S w) /\
    send_loop sockets_query (S ITEM_COUNT) st1 (S w) [] = Undef.
Proof.
  intros Hs (Hl & _ & Hold). cbn [run_query sockets_query]. unfold run_resource_query, run_command.
  rewrite Hs. cbn [negb]. rewrite !bind_Ret. cbn [Z.eqb negb]. rewrite bind_Ret. eexists. split; [reflexivity|].
  unfold ITEM_COUNT in *. cbn [send_loop prepare_sbp sockets_query]. unfold query_sockets_prepare.
  cbn [send_state pid_table top10_counts run_id].
  change (SEND_SOCKET_COUNTS_0 =? SEND_DONE) with false.
  change (SEND_SOCKET_COUNTS_0 <=? SEND_SOCKET_COUNTS_9) with true. cbv iota. cbn [of_option]. rewrite bind_Ret.
  unfold load, SEND_SOCKET_COUNTS_0.
  destruct (top10_counts st !! 0) as [[[r k]|]|] eqn:Es; [|done..].
  cbn [of_option]. rewrite !bind_Ret. cbn [of_option]. rewrite bind_Ret. apply Hold in Es.
  by destruct (r =? S (run_id st)) eqn:Er; bool_hyps; [lia|].
Qed.

(** *** The promise to the registry *)

Definition ss_fine : Prop :=
  forall n, exists ls tl, ss_output (ss n) ls tl /\ status (ss n) = 0%Z /\
    queues_ok (omap line_socket ls) /\ ITEM_COUNT <= size (pids (omap line_socket ls)).

Lemma sockets_reachable c :
  ss_fine -> reachable (S ITEM_COUNT) sockets_query c -> slots_old c.
Proof.
  intros Hss Hr. induction Hr as [f rd w c w' Hf Hi|c w c1 w1 c2 w2 out out' _ IH Hrun Hsend].
  - cbn [init sockets_query] in Hf. injection Hf as <-. apply outcome_bind_Ret in Hi as ([ok p] & _ & Hi).
    injection Hi as Hi _. unfold init_resource_query in Hi. repeat case_match; try done.
    assert (c = mk_resq 0 None 0 (replicate ITEM_COUNT None) (replicate ITEM_COUNT None)) as -> by congruence.
    split; [done|]. split; [done|]. intros i r k Hx. cbn [top10_counts] in Hx.
    by apply lookup_replicate in Hx as [Hx _].
  - destruct (Hss w) as (ls & tl & Ho & Hs & Hq & Hten).
    destruct (sockets_report_ok ls tl c w Ho Hs Hq IH) as (st1 & Hrun' & _ & Hmany & _).
    destruct (Hmany Hten) as (top & rest & st2 & _ & _ & _ & Hsend' & Hold & _).
    rewrite Hrun in Hrun'. injection Hrun' as -> ->.
    rewrite send_loop_out, Hsend', bind_Ret in Hsend. by injection Hsend as <- _ _.
Qed.

Lemma sockets_query_ok qs :
  ss_fine ->
  (forall q, q ∈ qs -> describe q = QUERY_SYS_STATE_NAME -> is_Some (read_property q) ->
             priority q < RESQ_PRIORITY_2) ->
  query_ok (S ITEM_COUNT) qs sockets_query.
Proof.
  intros Hss Hsys. split.
  - cbn [priority sockets_query]. unfold RESQ_PRIORITY_2, RESQ_PRIORITY_COUNT. lia.
  - cbn [init sockets_query]. eexists. split; [reflexivity|]. intros rd w Hrd.
    destruct (Hrd QUERY_SYS_STATE_NAME (mk_prop QUERY_SYS_PROP_PID_COUNT RESQ_PROP_U16 0)) as [[ok p] ->];
      [done|]. rewrite bind_Ret. by eexists _, _.
  - intros c w out Hre. pose proof (sockets_reachable c Hss Hre) as Hold.
    destruct (Hss w) as (ls & tl & Ho & Hs & Hq & Hten).
    destruct (sockets_report_ok ls tl c w Ho Hs Hq Hold) as (st1 & -> & _ & Hmany & _).
    destruct (Hmany Hten) as (top & rest & st2 & _ & _ & _ & Hsend & _ & _).
    exists st1, (S w). rewrite send_loop_out, Hsend, bind_Ret. by eexists.
  - cbn [teardown sockets_query]. eexists. split; [reflexivity|]. intros c w _. by eexists.
Qed.
End report.

(** ** A sort that meets the interface, and witnesses *)

Definition qsort_merge (cmp : pid_to_count_t -> pid_to_count_t -> Z) (l : list pid_to_count_t) :
    list pid_to_count_t :=
  @merge_sort _ (fun x y => cmp x y <= 0)%Z (fun x y => Z_le_dec (cmp x y) 0) l.

#[export] Instance qsort_merge_spec : QsortSpec qsort_merge.
Proof.
  split.
  - intros. apply merge_sort_Permutation.
  - intros cmp l Htot Htrans. unfold qsort_merge.
    apply @StronglySorted_merge_sort; [intros x y z; apply Htrans|intros x y; apply Htot].
Qed.

(** Doubles for the witnesses: hundredths, of digits only. *)
#[export] Instance hundredths : Doubles := {|
  f64 := Z; f64_zero := 0; f64_of_Z z := 100 * z; f64_add := Z.add;
  f64_mul a b := a * b / 100; f64_div a b := a * 100 / b;
  f64_to_u8 z := if ((0 <=? z) && (z <? 25600))%Z then Ret (z / 100) else Undef;
  strtod s := let '(v, rest) := strtoul10 s in (100 * v, rest);
|}%Z.

(** Two outputs of [ss].  In the first, eleven processes have a socket each, the process 7 two more,
    and one connection has no owner; in the second one process has two. *)
Definition ss_example (n : nat) : child :=
  let line pid := text_of "tcp LISTEN 5 128 0.0.0.0:22 0.0.0.0:* users:((sshd,pid=" ++ text_of pid ++ text_of ",fd=3))" ++ [newline_char] in
  match n with
  | 0 => mk_child true [line "1" ++ line "2"; line "3"; line "4" ++ line "5" ++ line "6";
           text_of "tcp FIN-WAIT-2 0 0 10.0.0.1:22 10.0.0.2:4711" ++ [newline_char];
           line "7" ++ line "7"; line "8" ++ line "9" ++ line "10" ++ line "11"; take 40 (line "7"); drop 40 (line "7")] 0
  | _ => mk_child true [line "7"; line "7"] 0
  end.

Lemma sockets_report_witness :
  let st := mk_resq 0 None 0 (replicate 10 None) (replicate 10 None) in
  let q := sockets_query qsort_merge ss_example (fun m => m) in
  let l := omap line_socket (cut_lines (concat (reads (ss_example 0)))).1 in
  (exists st1 top rest st2, run_query q st 0 = Ret (st1, 1) /\
    top ++ rest ≡ₚ elements (pids l) /\ length top = ITEM_COUNT /\
    StronglySorted (fun a b => count_for l b <= count_for l a)%Z (top ++ rest) /\
    send_loop q (S ITEM_COUNT) st1 1 [] = Ret (st2, 1, imap (fun i k => Some (socket_msg l i k)) top)) /\
  (exists st1, run_query q st 1 = Ret (st1, 2) /\ send_loop q (S ITEM_COUNT) st1 2 [] = Undef).
Proof.
  intros st q l.
  assert (slots_old st) as Hst.
  { split; [reflexivity|]. split; [reflexivity|]. intros i r k Hx. cbn [top10_counts st] in Hx.
    apply lookup_replicate in Hx as [Hx _]. discriminate Hx. }
  set (ls n := (cut_lines (concat (reads (ss_example n)))).1). split.
  - destruct (sockets_report qsort_merge ss_example (fun m => m) (ls 0) [] st 0) as (st1 & Hrun & _ & Hmany & _).
    + split; try (apply (bool_decide_unpack _); vm_compute; exact I); reflexivity.
    + reflexivity.
    + apply (bool_decide_unpack _); vm_compute; exact I.
    + exact Hst.
    + destruct Hmany as (top & rest & st2 & H1 & H2 & H3 & H4 & _).
      * apply (bool_decide_unpack _); vm_compute; exact I.
      * exists st1, top, rest, st2. split; [exact Hrun|]. split; [exact H1|]. split; [exact H2|].
        split; [exact H3|exact H4].
  - destruct (sockets_report qsort_merge ss_example (fun m => m) (ls 1) [] st 1) as (st1 & Hrun & _ & _ & Hfew).
    + split; try (apply (bool_decide_unpack _); vm_compute; exact I); reflexivity.
    + reflexivity.
    + apply (bool_decide_unpack _); vm_compute; exact I.
    + exact Hst.
    + exists st1. split; [exact Hrun|]. apply Hfew. apply (bool_decide_unpack _); vm_compute; exact I.
Defined.
