(* ===== verification/ResFds.v ===== *)
(** * The file descriptor query
    ([resource_monitor/resource_monitor/src/query_process_file_descriptor.c])

    The query runs [lsof], counts the open descriptors of every process and of every file, and
    reports the ten processes with the most descriptors and a summary of the ten most opened
    files.  It composes the line reader with tables and k-minimum selection.  The theorems: the
    counts are those of the lines, the slots hold the largest, and the summary never leaves its
    message. *)

From Stdlib Require Import Ascii.
From S2P Require Import Prelude Libc Text Kmin Table ResLines ResQuery.

(** ** Constants and data *)

Definition ITEM_COUNT : nat := 10.
Definition MAX_PROCESS_COUNT : nat := 2048.
Definition MAX_FILE_COUNT : nat := Z.to_nat (1024 * 16).
Definition SBP_FRAMING_MAX_PAYLOAD_SIZE : nat := 255.
Definition LSOF_CMD_BUF_LENGTH : nat := Z.to_nat (1024 * 4).
Definition COMMAND_LINE_MAX : nat := 256.
Definition NAME_MAX : nat := 255.

(** The values of [send_state_t], in order: ten [SEND_FD_COUNTS_i], then these. *)
Definition SEND_FD_COUNTS_0 : nat := 0.
Definition SEND_FD_SUMMARY : nat := 10.
Definition SEND_DONE : nat := 11.
Definition SEND_ERROR : nat := 12.

Record pid_entry_t := mk_pid { id_str : string; pid : Z; pid_fd_count : Z; cmdline : text }.
Record file_entry_t := mk_file { file_str : string; file_fd_count : Z }.

(** A slot of a top ten is the key of the table of a run; [None] is the empty string. *)
Notation slot := (option (nat * string)).

Record resq_state_t := mk_fd_state {
  send_state : nat;
  error_code : Z;
  total_fd_count : Z;
  pid_table : option (table pid_entry_t);
  file_table : option (table file_entry_t);
  run_id : nat;
  top10_pid_counts : list slot;
  top10_file_counts : list slot;
}.

(** ** One descriptor *)

Definition is_real_file_path (path : string) : bool :=
  negb (String.prefix "pipe" path || String.prefix "socket" path).

(** The tables and the count that the lines of a run build. *)
Record tables := mk_tables { t_total : Z; t_pids : table pid_entry_t; t_files : table file_entry_t }.

Definition count_pid (e : pid_entry_t) : pid_entry_t :=
  mk_pid (id_str e) (pid e) (u16 (pid_fd_count e + 1)) (cmdline e).
Definition count_file (e : file_entry_t) : file_entry_t :=
  mk_file (file_str e) (u16 (file_fd_count e + 1)).

Definition find_or_add_pid (t : table pid_entry_t) (key : string) : option (table pid_entry_t) :=
  match table_get t key with
  | Some _ => Some t
  | None =>
      if 16 <=? String.length key then None
      else
        let '(ok, n) := strtoul_all key in
        if negb ok then None
        else
          let '(t, added) := table_put t key (mk_pid key (u16 n) 0 (replicate COMMAND_LINE_MAX NUL)) in
          if (added : bool) then Some t else None
  end.

Definition find_or_add_file (t : table file_entry_t) (key : string) : option (table file_entry_t) :=
  match table_get t key with
  | Some _ => Some t
  | None =>
      if 128 <=? String.length key then None
      else
        let '(t, added) := table_put t key (mk_file key 0) in
        if (added : bool) then Some t else None
  end.

Definition process_fd_entry (s : tables) (file id : string) : bool * tables :=
  let total := u32 (t_total s + 1) in
  match find_or_add_pid (t_pids s) id with
  | None => (false, mk_tables total (t_pids s) (t_files s))
  | Some pids =>
      let pids := table_update pids id count_pid in
      if is_real_file_path file then
        match find_or_add_file (t_files s) file with
        | None => (false, mk_tables total pids (t_files s))
        | Some files => (true, mk_tables total pids (table_update files file count_file))
        end
      else (true, mk_tables total pids (t_files s))
  end.

Module FD_STATE.
Definition ID_STR : nat := 0.
Definition DONE : nat := 3.
End FD_STATE.

Section fds.
Context `{!Doubles}.

Definition fd_line_specs : list line_spec_t :=
  [mk_spec FT_STR 1 "pid" 16 0; mk_spec FT_STR 2 "executable" NAME_MAX 1;
   mk_spec FT_STR 3 "file descriptor" (Z.to_nat PATH_MAX) 2; mk_spec FT_F64 0 "done" 0 0].

Definition fd_objects : list object :=
  [O_str (replicate 16 NUL); O_str (replicate NAME_MAX NUL); O_str (replicate (Z.to_nat PATH_MAX) NUL)].

Definition parse_fd_line (s : tables) (line : text) : outcome (bool * tables) :=
  '(ok, env) ← parse_tab_line line FD_STATE.ID_STR FD_STATE.DONE fd_line_specs [tab_char] fd_objects;
  if negb ok then Ret (false, s)
  else
    match env with
    | [O_str id; O_str _; O_str file] =>
        id ← buf_str id;
        file ← buf_str file;
        Ret (process_fd_entry s (string_of file) (string_of id))
    | _ => Undef
    end.

Definition line_func (line : text) (s : tables) : outcome (tables * bool) :=
  '(ok, s) ← parse_fd_line s line; Ret (s, ok).

(** ** The largest counts *)

Variable tim_sort : (kmin_element -> kmin_element -> Z) -> list kmin_element -> list kmin_element.

(** [populate_ctx_t] *)
Record populate_ctx_t := mk_populate { put_success : bool; max_fds : kmin }.

(** The callbacks of [populate_max_by_pid] and [populate_max_by_file]; a key that is not in the
    table is dereferenced as NULL. *)
Definition put_pid_count (t : table pid_entry_t) (key : string) (index : nat)
    (ctx : outcome populate_ctx_t) : outcome populate_ctx_t * bool :=
  match ctx with
  | Ret c =>
      match table_get t key with
      | None => (Undef, false)
      | Some e =>
          let '(k, ok) := kmin_put (max_fds c) index (pid_fd_count e) (Some key) in
          (Ret (mk_populate ok k), ok)
      end
  | bad => (bad, false)
  end.

Definition put_file_count (t : table file_entry_t) (key : string) (index : nat)
    (ctx : outcome populate_ctx_t) : outcome populate_ctx_t * bool :=
  match ctx with
  | Ret c =>
      match table_get t key with
      | None => (Undef, false)
      | Some e =>
          if negb (String.prefix "/" key) then (Ret c, true)
          else
            let '(k, ok) := kmin_put (max_fds c) index (file_fd_count e) (Some key) in
            (Ret (mk_populate ok k), ok)
      end
  | bad => (bad, false)
  end.

(** The loop that copies the results; NULL would be stored for a result without a name. *)
Fixpoint copy_top10 (k : kmin) (run : nat) (n i : nat) (top10 : list slot) : outcome (list slot) :=
  match n with
  | O => Ret top10
  | S n' =>
      id ← of_option (kmin_ident_at k i);
      key ← of_option id;
      top10 ← store top10 i (Some (run, key));
      copy_top10 k run n' (S i) top10
  end.

Definition populate_maximums {D} (ok_create ok_compact ok_find : bool) (run : nat) (t : table D)
    (foreach_key_fn : string -> nat -> outcome populate_ctx_t -> outcome populate_ctx_t * bool) :
    outcome (list slot) :=
  let top10 := replicate ITEM_COUNT None in
  match kmin_create ok_create ok_create (table_count t) with
  | None => Ret top10
  | Some k =>
      ctx ← table_foreach_key t (Ret (mk_populate true (kmin_invert k true))) foreach_key_fn;
      if negb (put_success ctx) then Ret top10
      else
        let '(k, compact) := kmin_compact ok_compact (max_fds ctx) in
        if negb compact then Ret top10
        else
          let '(k, kmin_count) := kmin_find tim_sort ok_find k 0 ITEM_COUNT in
          if (kmin_count <? 0)%Z then Ret top10
          else copy_top10 k run (Z.to_nat kmin_count) 0 top10
  end.

(** ** The query *)

(** [ok_pid] and [ok_file]: whether the tables can be created.  The allocations of the
    selection succeed. *)
Definition run_resource_query (ok_pid ok_file : bool) (ch : child) (st : resq_state_t) :
    outcome resq_state_t :=
  let run := S (run_id st) in
  let err code total p f :=
    mk_fd_state SEND_ERROR code total p f run (top10_pid_counts st) (top10_file_counts st) in
  let pids := if ok_pid then Some (table_create MAX_PROCESS_COUNT) else None in
  let files := if ok_file then Some (table_create MAX_FILE_COUNT) else None in
  match pids, files with
  | None, _ => Ret (err 1%Z 0%Z pids files)
  | Some _, None => Ret (err 2%Z 0%Z pids files)
  | Some pids, Some files =>
      '(rc, ctx, _) ← run_command (lines_buffer_fn line_func) ch (replicate LSOF_CMD_BUF_LENGTH NUL)
                        (LSOF_CMD_BUF_LENGTH - 1)
                        (mk_lines_ctx (mk_leftover (replicate LSOF_CMD_BUF_LENGTH NUL) 0 0) 0
                           (mk_tables 0 pids files));
      let s := lines_state ctx in
      if negb (rc =? 0)%Z then Ret (err 3%Z (t_total s) (Some (t_pids s)) (Some (t_files s)))
      else
        top_pids ← populate_maximums true true true run (t_pids s) (put_pid_count (t_pids s));
        top_files ← populate_maximums true true true run (t_files s) (put_file_count (t_files s));
        Ret (mk_fd_state SEND_FD_COUNTS_0 0 (t_total s) (Some (t_pids s)) (Some (t_files s)) run
               top_pids top_files)
  end.
End fds.

(** ** Messages *)

(** The messages of libsbp that the module fills: the fields that the code writes, and the
    length of the payload. *)
Inductive fd_msg :=
  | Msg_fd_count (index pid fd_count : Z) (cmdline : text) (len : Z)
  | Msg_fd_summary (sys_fd_count : Z) (most_opened : text) (len : Z).

Section prepare.
(** The sizes of [msg_linux_process_fd_count_t] and [msg_linux_process_fd_summary_t]. *)
Variables fd_count_size fd_summary_size : nat.
(** The bytes that the buffer of the caller holds before. *)
Variable stale : ascii.
(** What the [n]-th command prints, given its arguments. *)
Variable get_cmdline : nat -> list string -> child.

(** The buffer function of [get_proc_cmdline]. *)
Definition spaces_fn (ctx : unit) (output : text) (offset length : nat) : outcome (unit * text * Z) :=
  Ret (ctx,
       imap (fun i c => if (offset <=? i) && (i <? offset + length) && bool_decide (c = NUL)
                        then space_char else c) output,
       Z.of_nat length).

Definition the_command (id_str : string) : list string := ["sudo"; "/usr/bin/get_proc_cmdline"; id_str].

Definition get_proc_cmdline (w : nat) (id_str : string) (buf : text) : outcome text :=
  '(_, _, buf) ← run_command spaces_fn (get_cmdline w (the_command id_str)) buf COMMAND_LINE_MAX tt;
  Ret buf.

(** [snprintf(&buf[off], size, ...)] of the text [t]: at most [size] bytes with the NUL. *)
Definition snprintf (buf : text) (off size : nat) (t : text) : outcome (text * nat) :=
  if size =? 0 then Ret (buf, length t)
  else buf ← memcpy buf off (take (size - 1) t ++ [NUL]); Ret (buf, length t).

(** ["%d%c%s"] with a NUL between the count and the name. *)
Definition summary_item (e : file_entry_t) : text :=
  text_of (print_u (file_fd_count e)) ++ [NUL] ++ text_of (file_str e).

Definition fd_summary_max_size : nat := SBP_FRAMING_MAX_PAYLOAD_SIZE - fd_summary_size.

(** The loop over the ten slots. *)
Fixpoint summary_loop (run : nat) (t : table file_entry_t) (slots : list slot) (consumed : nat)
    (most_opened : text) : outcome (nat * text) :=
  match slots with
  | [] => Ret (consumed, most_opened)
  | None :: slots' => summary_loop run t slots' consumed most_opened
  | Some (r, key) :: slots' =>
      if negb (r =? run) then Undef
      else
        let remaining := fd_summary_max_size - consumed in
        e ← of_option (table_get t key);
        '(most_opened, n) ← snprintf most_opened consumed remaining (summary_item e);
        let consumed := consumed + n + 1 in
        if fd_summary_max_size <? consumed then
          let consumed := fd_summary_max_size in
          most_opened ← store most_opened (consumed - 2) NUL;
          most_opened ← store most_opened (consumed - 1) NUL;
          Ret (consumed, most_opened)
        else summary_loop run t slots' consumed most_opened
  end.

Definition prepare_summary (st : resq_state_t) (t : table file_entry_t) : outcome fd_msg :=
  '(consumed, buf) ← summary_loop (run_id st) t (top10_file_counts st) 0
                       (replicate fd_summary_max_size stale);
  '(consumed, buf) ← (if consumed <? fd_summary_max_size
                      then buf ← store buf consumed NUL; Ret (consumed + 1, buf)
                      else Ret (consumed, buf));
  Ret (Msg_fd_summary (total_fd_count st) (take consumed buf)
         (u8 (Z.of_nat (fd_summary_size + consumed)))).

(** The message for the process in slot [index]; its command line is asked for once. *)
Definition prepare_count (st : resq_state_t) (t : table pid_entry_t) (key : string) (w : nat) :
    outcome (fd_msg * table pid_entry_t * nat) :=
  e ← of_option (table_get t key);
  '(line, w) ← (if bool_decide (head (cmdline e) = Some NUL)
                then line ← get_proc_cmdline w key (cmdline e); Ret (line, S w)
                else Ret (cmdline e, w));
  let t := table_update t key (fun e => mk_pid (id_str e) (pid e) (pid_fd_count e) line) in
  cmd ← buf_str line;                                                    (* strlen *)
  let len := if SBP_FRAMING_MAX_PAYLOAD_SIZE <? length cmd + fd_count_size
             then SBP_FRAMING_MAX_PAYLOAD_SIZE - fd_count_size else length cmd in
  Ret (Msg_fd_count (u8 (Z.of_nat (send_state st))) (pid e) (pid_fd_count e) (take len cmd)
         (u8 (Z.of_nat (fd_count_size + len))), t, w).

Definition with_send (st : resq_state_t) (s : nat) (code : Z) (t : option (table pid_entry_t)) : resq_state_t :=
  mk_fd_state s code (total_fd_count st) t (file_table st) (run_id st) (top10_pid_counts st)
    (top10_file_counts st).

(** [None] is false. *)
Definition query_fd_prepare (st : resq_state_t) (w : nat) :
    outcome (option fd_msg * resq_state_t * nat) :=
  if send_state st =? SEND_DONE then Ret (None, st, w)
  else
    pids ← of_option (pid_table st);                                      (* table_count(NULL) *)
    few ← (if table_count pids <? ITEM_COUNT then Ret true
           else files ← of_option (file_table st); Ret (table_count files <? ITEM_COUNT));
    let st := if (few : bool) then with_send st SEND_ERROR 4 (pid_table st) else st in
    let index := send_state st in
    if index <? SEND_FD_SUMMARY then
      slot ← load (top10_pid_counts st) index;
      match slot with
      | None => Ret (None, st, w)
      | Some (run, key) =>
          if negb (run =? run_id st) then Undef
          else
            '(m, pids, w) ← prepare_count st pids key w;
            Ret (Some m, with_send st (S index) (error_code st) (Some pids), w)
      end
    else if index =? SEND_FD_SUMMARY then
      files ← of_option (file_table st);
      m ← prepare_summary st files;
      Ret (Some m, with_send st (S index) (error_code st) (pid_table st), w)
    else Ret (None, st, w).

Definition init_resource_query (pid_count : option Z) : option resq_state_t :=
  match pid_count with
  | None => None
  | Some n =>
      if (Z.of_nat MAX_PROCESS_COUNT <? n)%Z then None
      else Some (mk_fd_state 0 0 0 None None 0 (replicate ITEM_COUNT None) (replicate ITEM_COUNT None))
  end.
End prepare.

Section query.
Context `{!Doubles}.
Variable tim_sort : (kmin_element -> kmin_element -> Z) -> list kmin_element -> list kmin_element.
Variables fd_count_size fd_summary_size : nat.
Variable stale : ascii.
Variable lsof : nat -> child.
Variable get_cmdline : nat -> list string -> child.
Context {Msg : Type} (wrap : fd_msg -> Msg).

(** The module's interface; the machine counts the commands run.  The tables can be created. *)
Definition fd_query : resq_interface_t nat Msg := {|
  priority := RESQ_PRIORITY_2;
  ctx_t := resq_state_t;
  init := Some (fun rd w =>
    '(ok, p) ← rd "system state" (mk_prop 0 RESQ_PROP_U16 0);
    Ret (init_resource_query (if ok : bool then Some (property p) else None), w));
  describe := "process file descriptor";
  read_property := None;
  run_query := fun st w => st ← run_resource_query tim_sort true true (lsof w) st; Ret (st, S w);
  prepare_sbp := fun st w =>
    '(m, st, w) ← query_fd_prepare fd_count_size fd_summary_size stale get_cmdline st w;
    Ret (option_map wrap m, st, w);
  teardown := Some (fun _ w => Ret w);
|}.
End query.

(** ** The summary message *)

Section summary.
Variable fd_summary_size : nat.
Hypothesis size_small : fd_summary_size + 2 <= SBP_FRAMING_MAX_PAYLOAD_SIZE.
Notation M := (fd_summary_max_size fd_summary_size).

(** The files that the slots name. *)
Fixpoint slot_entries (run : nat) (t : table file_entry_t) (slots : list slot) : option (list file_entry_t) :=
  match slots with
  | [] => Some []
  | None :: slots' => slot_entries run t slots'
  | Some (r, key) :: slots' =>
      if r =? run then e ← table_get t key; es ← slot_entries run t slots'; Some (e :: es) else None
  end.

(** The text that the files make: count, NUL, name, NUL, one after the other. *)
Definition summary_text (es : list file_entry_t) : text :=
  concat (map (fun e => summary_item e ++ [NUL]) es).

(** What the message holds: all of it and one more NUL if there is room, or as much as fits
    with its last two bytes cleared. *)
Definition summary_body (es : list file_entry_t) : text :=
  let full := summary_text es in
  if M <? length full then take (M - 2) full ++ [NUL; NUL]
  else if length full <? M then full ++ [NUL] else full.

Lemma M_large : 2 <= M.
Proof. unfold fd_summary_max_size. lia. Qed.

Lemma store_last_two (b : text) :
  length b = M ->
  (b ← store b (M - 2) NUL; store b (M - 1) NUL) = Ret (take (M - 2) b ++ [NUL; NUL]).
Proof.
  intros Hl. pose proof M_large as Hm.
  rewrite store_ok by lia. rewrite bind_Ret. rewrite store_ok by (rewrite length_insert; lia). f_equal.
  apply list_eq. intros i. destruct (decide (i < M - 2)) as [Hi|Hi].
  - rewrite !list_lookup_insert_ne by lia.
    rewrite lookup_app_l by (rewrite length_take; lia). by rewrite lookup_take_lt.
  - rewrite lookup_app_r by (rewrite length_take; lia). rewrite length_take.
    replace (i - (M - 2) `min` length b) with (i - (M - 2)) by lia.
    destruct (decide (i = M - 2)) as [->|H1].
    { rewrite list_lookup_insert_ne, list_lookup_insert_eq, Nat.sub_diag by lia. done. }
    destruct (decide (i = M - 1)) as [->|H2].
    { rewrite list_lookup_insert_eq by (rewrite length_insert; lia).
      by replace (M - 1 - (M - 2)) with 1 by lia. }
    rewrite !list_lookup_insert_ne by lia. rewrite (lookup_ge_None_2 b) by lia.
    symmetry. apply lookup_ge_None_2. cbn [length]. lia.
Qed.

Lemma snprintf_fits (b : text) off t :
  length b = M -> off + length t < M ->
  exists b', snprintf b off (M - off) t = Ret (b', length t) /\ length b' = M /\
    take (off + length t + 1) b' = take off b ++ t ++ [NUL].
Proof.
  intros Hb Hf. unfold snprintf. destruct (_ =? 0) eqn:E; bool_hyps; [lia|].
  rewrite take_ge by lia. rewrite memcpy_ok by (rewrite length_app; cbn [length]; lia).
  rewrite bind_Ret. eexists. split; [reflexivity|].
  split; [rewrite length_memcpy; [done|rewrite length_app; cbn [length]; lia]|].
  replace (off + length t + 1) with (off + length (t ++ [NUL])) by (rewrite length_app; cbn [length]; lia).
  apply take_memcpy. rewrite length_app. cbn [length]. lia.
Qed.

Lemma snprintf_cut (b : text) off t :
  length b = M -> off <= M -> M <= off + length t ->
  exists b', snprintf b off (M - off) t = Ret (b', length t) /\ length b' = M /\
    take (M - 1) b' = take (M - 1) (take off b ++ t).
Proof.
  intros Hb Ho Hf. unfold snprintf. destruct (_ =? 0) eqn:E; bool_hyps.
  - assert (off = M) as -> by lia. exists b. rewrite (take_ge b M) by lia.
    split_and!; [done|done|]. by rewrite take_app_le by lia.
  - assert (length (take (M - off - 1) t ++ [NUL]) = M - off) as Hl
      by (rewrite length_app, length_take; cbn [length]; lia).
    rewrite memcpy_ok by (rewrite Hl; lia). rewrite bind_Ret, Hl.
    replace (off + (M - off)) with M by lia. rewrite (drop_ge b M), app_nil_r by lia.
    eexists. split; [reflexivity|].
    assert (length (take off b) = off) as Ht by (rewrite length_take; lia).
    split; [rewrite length_app, Hl, Ht; lia|].
    rewrite app_assoc, take_app_le by (rewrite length_app, Ht, length_take; lia).
    rewrite take_ge by (rewrite length_app, Ht, length_take; lia).
    rewrite take_app, Ht, (take_ge (take off b)) by lia. f_equal. f_equal. lia.
Qed.

Lemma summary_loop_spec run t slots es done_ b :
  slot_entries run t slots = Some es -> length b = M -> length done_ <= M ->
  take (length done_) b = done_ ->
  exists n b', summary_loop fd_summary_size run t slots (length done_) b = Ret (n, b') /\ length b' = M /\
    let full := done_ ++ summary_text es in
    if M <? length full then n = M /\ b' = take (M - 2) full ++ [NUL; NUL]
    else n = length full /\ take n b' = full.
Proof.
  revert es done_ b. induction slots as [|[[r key]|] slots IH]; intros es d b Hs Hb Hd Ht; cbn [slot_entries] in Hs.
  - injection Hs as <-. cbn [summary_loop]. exists (length d), b. unfold summary_text; cbn [map concat].
    rewrite app_nil_r. cbn zeta. destruct (M <? length d) eqn:E; bool_hyps; [lia|]. by split_and!.
  - cbn [summary_loop]. destruct (r =? run); [|done]. cbn [negb].
    destruct (table_get t key) as [e|]; [|done]. cbn [of_option]. rewrite bind_Ret.
    cbn [mbind option_bind] in Hs. destruct (slot_entries run t slots) as [es'|] eqn:Es; [|done].
    cbn [mbind option_bind] in Hs. injection Hs as <-.
    assert (summary_text (e :: es') = (summary_item e ++ [NUL]) ++ summary_text es') as Htxt by done.
    rewrite Htxt. generalize (summary_item e). intros F. clear Htxt e.
    destruct (decide (length d + length F < M)) as [Hf|Hf].
    + destruct (snprintf_fits b (length d) F Hb Hf) as (b1 & -> & Hb1 & Ht1). rewrite bind_Ret.
      destruct (M <? length d + length F + 1) eqn:E; bool_hyps; [lia|].
      assert (length (d ++ F ++ [NUL]) = length d + length F + 1) as Hl
        by (rewrite !length_app; cbn [length]; lia).
      destruct (IH es' (d ++ F ++ [NUL]) b1) as (n & b' & Hr & Hb' & Hfull); try done; try lia.
      { rewrite Hl, Ht1. by rewrite Ht. }
      rewrite Hl in Hr. exists n, b'. split; [done|]. split; [done|].
      by rewrite <-!app_assoc in *.
    + destruct (snprintf_cut b (length d) F Hb ltac:(lia) ltac:(lia)) as (b1 & -> & Hb1 & Ht1). rewrite bind_Ret.
      destruct (M <? length d + length F + 1) eqn:E; bool_hyps; [|lia].
      rewrite <-bind_assoc, store_last_two, bind_Ret by done. eexists _, _. split; [reflexivity|].
      pose proof M_large. split; [rewrite length_app, length_take; cbn [length]; lia|].
      cbn zeta. destruct (M <? length _) eqn:E2; bool_hyps.
      2:{ rewrite !length_app in E2. cbn [length] in E2. lia. }
      split; [done|]. f_equal. rewrite Ht in Ht1.
      replace (take (M - 2) b1) with (take (M - 2) (take (M - 1) b1)) by (rewrite take_take; f_equal; lia).
      rewrite Ht1, take_take. replace ((M - 2) `min` (M - 1)) with (M - 2) by lia.
      rewrite app_assoc, app_assoc. rewrite <-(app_assoc (d ++ F)).
      by rewrite (take_app_le (d ++ F)) by (rewrite length_app; lia).
  - cbn [summary_loop]. by apply IH.
Qed.

Lemma prepare_summary_ok stale st t es :
  slot_entries (run_id st) t (top10_file_counts st) = Some es ->
  prepare_summary fd_summary_size stale st t =
    Ret (Msg_fd_summary (total_fd_count st) (summary_body es)
           (Z.of_nat (fd_summary_size + length (summary_body es)))) /\
  fd_summary_size + length (summary_body es) <= SBP_FRAMING_MAX_PAYLOAD_SIZE.
Proof.
  intros Hs. pose proof M_large as Hm. unfold prepare_summary.
  destruct (summary_loop_spec (run_id st) t (top10_file_counts st) es [] (replicate M stale))
    as (n & b & Hr & Hb & Hfull); [done|apply length_replicate|cbn [length]; lia|done|].
  cbn [length] in Hr. rewrite Hr, bind_Ret. cbn [app] in Hfull. cbn zeta in Hfull. unfold summary_body.
  cbn zeta. destruct (M <? length (summary_text es)) eqn:E; bool_hyps.
  - destruct Hfull as [-> ->]. rewrite Nat.ltb_irrefl, bind_Ret.
    assert (length (take (M - 2) (summary_text es) ++ [NUL; NUL]) = M) as Hl
      by (rewrite length_app, length_take; cbn [length]; lia).
    rewrite take_ge by lia. rewrite Hl. unfold fd_summary_max_size in *.
    rewrite u8_small by (unfold SBP_FRAMING_MAX_PAYLOAD_SIZE in *; lia). split; [done|lia].
  - destruct Hfull as [-> Hfull]. destruct (length (summary_text es) <? M) eqn:E2; bool_hyps.
    + rewrite store_ok, !bind_Ret by lia. rewrite length_app. cbn [length].
      rewrite Nat.add_1_r, (take_S_lookup _ _ NUL) by (apply list_lookup_insert_eq; lia).
      rewrite take_insert_ge, Hfull by done. unfold fd_summary_max_size in *.
      rewrite u8_small by (unfold SBP_FRAMING_MAX_PAYLOAD_SIZE in *; lia).
      replace (S (length (summary_text es))) with (length (summary_text es) + 1) by lia. split; [done|lia].
    + assert (length (summary_text es) = M) as Hl by lia. rewrite bind_Ret, Hfull, Hl.
      unfold fd_summary_max_size in *.
      rewrite u8_small by (unfold SBP_FRAMING_MAX_PAYLOAD_SIZE in *; lia). split; [done|lia].
Qed.

(** C39: the summary of the most opened files stays in its message.  Whatever the names, the loop
    writes inside the payload, which ends up as the list of counts and names, each followed by a
    NUL, with one more NUL if there is room for it (so a list that fits exactly, and an empty one, end
    with a single NUL); when the list is too long the payload is full
    and holds its beginning with the last two bytes cleared; the length never exceeds a payload. *)
Theorem fd_summary_message stale st t es :
  slot_entries (run_id st) t (top10_file_counts st) = Some es ->
  prepare_summary fd_summary_size stale st t =
    Ret (Msg_fd_summary (total_fd_count st) (summary_body es)
           (Z.of_nat (fd_summary_size + length (summary_body es)))) /\
  fd_summary_size + length (summary_body es) <= SBP_FRAMING_MAX_PAYLOAD_SIZE.
Proof. apply prepare_summary_ok. Qed.
End summary.

(** ** The ten largest *)

Section maximums.
Variable tim_sort : (kmin_element -> kmin_element -> Z) -> list kmin_element -> list kmin_element.
Context `{!SortSpec tim_sort}.
Context {D : Type}.
(** The score of the entries that are put, [None] for those left out. *)
Variable score_of : string -> D -> option Z.

Definition element_of (x : string * D) : kmin_element :=
  match score_of x.1 x.2 with Some sc => mk_element true sc (Some x.1) | None => zero_element end.

(** What the callbacks do for an entry of the table. *)
Definition puts_score (t : table D)
    (f : string -> nat -> outcome populate_ctx_t -> outcome populate_ctx_t * bool) : Prop :=
  forall key d i b k, table_get t key = Some d ->
    f key i (Ret (mk_populate b k)) =
      match score_of key d with
      | Some sc => let '(k, ok) := kmin_put k i sc (Some key) in (Ret (mk_populate ok k), ok)
      | None => (Ret (mk_populate b k), true)
      end.

Lemma insert_next {A} (l : list A) x y n :
  <[length l := x]> (l ++ replicate (S n) y) = (l ++ [x]) ++ replicate n y.
Proof.
  rewrite insert_app_r_alt, Nat.sub_diag by lia. cbn [replicate insert list_insert]. by rewrite <-app_assoc.
Qed.

Lemma count_filled_app a b : count_filled (a ++ b) = count_filled a + count_filled b.
Proof. unfold count_filled. by rewrite filter_app, length_app. Qed.

(** The array while the table is being walked. *)
Definition partial_kmin (pre : list (string * D)) (n : nat) : kmin :=
  mk_kmin ((element_of <$> pre) ++ replicate n zero_element) (length pre + n)
    (count_filled (element_of <$> pre)) true None 0.

Lemma kmin_put_next pre x n sc :
  score_of x.1 x.2 = Some sc ->
  kmin_put (partial_kmin pre (S n)) (length pre) sc (Some x.1) = (partial_kmin (pre ++ [x]) n, true).
Proof.
  intros Hs. unfold kmin_put, drop_result, partial_kmin.
  cbn [arr size filled invert result result_count].
  destruct (_ <=? _) eqn:E; bool_hyps; [lia|].
  rewrite (list_lookup_total_alt _ (length pre)), lookup_app_r, length_fmap, Nat.sub_diag
    by (rewrite length_fmap; lia).
  cbn [replicate lookup list_lookup default from_option ident zero_element id].
  assert (element_of x = mk_element true sc (Some x.1)) as He by (unfold element_of; by rewrite Hs).
  rewrite fmap_app. cbn [fmap list_fmap]. rewrite He.
  change (zero_element :: replicate n zero_element) with (replicate (S n) zero_element).
  rewrite <-(length_fmap element_of pre) at 1. rewrite insert_next.
  rewrite count_filled_app, length_app. cbn [length]. f_equal. f_equal; [lia|].
  change (count_filled [_]) with 1. lia.
Qed.

Lemma partial_skip pre x n :
  score_of x.1 x.2 = None -> partial_kmin pre (S n) = partial_kmin (pre ++ [x]) n.
Proof.
  intros Hs. unfold partial_kmin. rewrite fmap_app. cbn [fmap list_fmap].
  assert (element_of x = zero_element) as -> by (unfold element_of; by rewrite Hs).
  rewrite count_filled_app, length_app. cbn [length]. rewrite <-app_assoc. cbn [app replicate].
  f_equal; [lia|]. change (count_filled [_]) with 0. lia.
Qed.

Lemma walk_table t f pre post :
  puts_score t f -> (forall k d, (k, d) ∈ post -> table_get t k = Some d) ->
  foreach_loop f post (length pre) (Ret (mk_populate true (partial_kmin pre (length post)))) =
    Ret (mk_populate true (partial_kmin (pre ++ post) 0)).
Proof.
  intros Hf. revert pre. induction post as [|[k d] post IH]; intros pre Hg; cbn [foreach_loop length].
  { by rewrite app_nil_r. }
  rewrite (Hf k d) by (apply Hg; left).
  specialize (IH (pre ++ [(k, d)]) ltac:(set_solver)). rewrite length_app in IH. cbn [length] in IH.
  rewrite Nat.add_1_r in IH. rewrite <-app_assoc in IH. cbn [app] in IH.
  destruct (score_of k d) as [sc|] eqn:Es.
  - pose proof (kmin_put_next pre (k, d) (length post) sc Es) as Hput. cbn [fst] in Hput.
    rewrite Hput. exact IH.
  - rewrite (partial_skip pre (k, d)) by done. exact IH.
Qed.

Lemma partial_wf pre : kmin_wf (partial_kmin pre 0).
Proof.
  unfold partial_kmin, kmin_wf. cbn [arr size filled result]. cbn [replicate]. rewrite app_nil_r.
  split_and!; [rewrite length_fmap; lia|done| |done]. apply Forall_fmap, Forall_forall.
  intros [k d] _. cbn [compose]. unfold element_of. destruct (score_of _ _); cbn.
  - split; [by eexists|done].
  - split; [done|by intros [? ?]].
Qed.

(** The names and scores of the elements that a table gives. *)
Definition selected (l : list (string * D)) : list (string * Z) :=
  omap (fun x => (fun sc => (x.1, sc)) <$> score_of x.1 x.2) l.

Definition element (x : string * Z) : kmin_element := mk_element true x.2 (Some x.1).

Lemma filled_elements l :
  filter (fun e => is_filled e = true) (element_of <$> l) = element <$> selected l.
Proof.
  induction l as [|[k d] l IH]; [done|]. rewrite fmap_cons, filter_cons, IH.
  assert (selected ((k, d) :: l) =
          match score_of k d with Some sc => (k, sc) :: selected l | None => selected l end) as ->.
  { unfold selected. cbn [omap list_omap fst snd]. by destruct (score_of k d). }
  assert (element_of (k, d) =
          match score_of k d with Some sc => element (k, sc) | None => zero_element end) as -> by done.
  destruct (score_of k d) as [sc|]; case_decide as Hd; done.
Qed.

Lemma element_fmap_inv l es : es ≡ₚ element <$> l -> exists l', es = element <$> l' /\ l' ≡ₚ l.
Proof.
  intros Hp. apply Permutation_map_inv in Hp as (l' & -> & Hl). exists l'.
  split; [done|]. by symmetry.
Qed.

(** The slots that the names [order] fill. *)
Definition slots_of (run : nat) (order : list string) : list slot :=
  (fun i => (fun key => (run, key)) <$> order !! i) <$> seq 0 ITEM_COUNT.

Lemma slots_of_lookup run order j :
  slots_of run order !! j =
    if decide (j < ITEM_COUNT) then Some ((fun key => (run, key)) <$> order !! j) else None.
Proof.
  unfold slots_of. rewrite list_lookup_fmap. generalize ITEM_COUNT. intros n. case_decide.
  - by rewrite lookup_seq_lt.
  - by rewrite lookup_seq_ge by lia.
Qed.

Lemma copy_top10_spec k run order n top10 :
  (forall i, i < n -> kmin_ident_at k i = (fun key => Some key) <$> order !! i) -> n <= length order ->
  length top10 = ITEM_COUNT -> n <= ITEM_COUNT ->
  forall m i, i + m = n -> exists top, copy_top10 k run m i top10 = Ret top /\ length top = ITEM_COUNT /\
    forall j, top !! j = if decide (i <= j < n) then (fun key => Some (run, key)) <$> order !! j else top10 !! j.
Proof.
  intros Hk Hn Hl Hc m. revert top10 Hl. induction m as [|m IH]; intros top10 Hl i Hi; cbn [copy_top10].
  { exists top10. split_and!; [done|done|]. intros j. by rewrite decide_False by lia. }
  rewrite Hk by lia. destruct (lookup_lt_is_Some_2 order i) as [key Hkey]; [lia|]. rewrite Hkey.
  cbn [fmap option_fmap option_map of_option]. rewrite bind_Ret. cbn [of_option]. rewrite bind_Ret.
  rewrite store_ok, bind_Ret by lia.
  destruct (IH (<[i := Some (run, key)]> top10) ltac:(by rewrite length_insert) (S i) ltac:(lia))
    as (top & -> & Hlt & Hj).
  exists top. split_and!; [done|done|]. intros j. rewrite Hj. destruct (decide (j = i)) as [->|Hne].
  - rewrite decide_False, decide_True by lia. by rewrite list_lookup_insert_eq, Hkey by lia.
  - rewrite list_lookup_insert_ne by done. repeat case_decide; try done; exfalso; lia.
Qed.

Lemma StronglySorted_fmap {A B} (f : A -> B) (R : relation B) (S : relation A) l :
  (forall x y, R (f x) (f y) -> S x y) -> StronglySorted R (f <$> l) -> StronglySorted S l.
Proof.
  intros HRS. induction l as [|x l IH]; intros Hs; [constructor|].
  rewrite fmap_cons in Hs. inversion_clear Hs as [|? ? Hs' Hx]. constructor; [by apply IH|].
  rewrite Forall_fmap in Hx. eapply Forall_impl; [exact Hx|]. simpl. intros y. apply HRS.
Qed.

(** The slots after [populate_maximums]: the names with the largest scores, largest first. *)
Lemma populate_maximums_ok run t f :
  table_wf t -> puts_score t f ->
  exists order : list (string * Z),
    populate_maximums tim_sort true true true run t f = Ret (slots_of run order.*1) /\
    order ≡ₚ selected (hash_entries t) /\
    StronglySorted (fun a b => b.2 <= a.2)%Z order.
Proof.
  intros Hwf Hf. unfold populate_maximums, kmin_create. cbn [negb].
  assert (kmin_invert (mk_kmin (replicate (table_count t) zero_element) (table_count t) 0 false None 0) true =
          partial_kmin [] (length (hash_entries t))) as -> by done.
  unfold table_foreach_key.
  pose proof (walk_table t f [] (hash_entries t) Hf) as Hw. cbn [length app] in Hw. rewrite Hw.
  2:{ intros k d Hin. destruct Hwf as [Hnd _]. unfold table_get. rewrite hash_find_map.
      by apply elem_of_list_to_map. }
  rewrite bind_Ret. cbn [put_success negb max_fds].
  set (k := partial_kmin (hash_entries t) 0). pose proof (partial_wf (hash_entries t)) as Hkwf. fold k in Hkwf.
  assert (filter (fun e => is_filled e = true) (arr k) = element <$> selected (hash_entries t)) as Hfil.
  { unfold k, partial_kmin. cbn [arr replicate]. rewrite app_nil_r. apply filled_elements. }
  assert (filled k = length (selected (hash_entries t))) as Hfl.
  { destruct Hkwf as (_ & -> & _). unfold count_filled. by rewrite Hfil, length_fmap. }
  destruct (selected (hash_entries t)) as [|x sel] eqn:Esel.
  - exists []. split_and!; [|done|constructor]. cbn [length] in Hfl.
    unfold kmin_compact. destruct (filled k =? size k) eqn:E; bool_hyps; cbn [negb].
    + unfold kmin_find. rewrite E, Nat.eqb_refl, <-E, Hfl. done.
    + rewrite Hfl. unfold kmin_find. cbn [filled size Nat.eqb negb Nat.leb]. done.
  - rewrite <-Esel in *. destruct (kmin_compact_find tim_sort k ITEM_COUNT Hkwf)
      as (k' & k'' & top & rest & -> & Hfind & Hlen & Hperm & Hsort & Hres).
    { rewrite Hfl, Esel. cbn [length]. lia. }
    cbn [negb]. rewrite Hfind. destruct (_ <? 0)%Z eqn:Ez; [apply Z.ltb_lt in Ez; lia|]. rewrite Nat2Z.id.
    rewrite Hfil in Hperm. apply element_fmap_inv in Hperm as (order & Heq & Hord).
    assert (top = element <$> take (length top) order) as Htop.
    { rewrite <-(take_app_length top rest), Heq at 1. by rewrite fmap_take. }
    assert (length order = filled k) as Hlo by (rewrite Hord; done).
    destruct (copy_top10_spec k'' run order.*1 (length top) (replicate ITEM_COUNT None))
      with (m := length top) (i := 0) as (slots & -> & Hsl & Hj).
    + intros i Hi. unfold kmin_ident_at. rewrite Hres, Htop, list_lookup_fmap, list_lookup_fmap.
      rewrite lookup_take_lt by done. by destruct (order !! i).
    + rewrite length_fmap. lia.
    + apply length_replicate.
    + lia.
    + lia.
    + exists order. split_and!; [|done|].
      * f_equal. apply list_eq. intros j. rewrite Hj, slots_of_lookup.
        destruct (decide (j < length top)) as [Hjt|Hjt].
        -- rewrite !decide_True by lia. destruct (order.*1 !! j) eqn:Eo; [done|].
           apply lookup_ge_None in Eo. rewrite length_fmap in Eo. lia.
        -- rewrite decide_False by lia. case_decide.
           ++ rewrite lookup_replicate_2 by done.
              by rewrite (lookup_ge_None_2 order.*1) by (rewrite length_fmap; lia).
           ++ apply lookup_ge_None_2. rewrite length_replicate. lia.
      * rewrite Heq in Hsort. eapply StronglySorted_fmap; [|exact Hsort]. intros a b. done.
Qed.
End maximums.

(** ** Counting with a table *)

Section counting.
Context {D : Type}.
Variable new : string -> D.
Variable inc : D -> D.
Variable valid : string -> bool.
Variable max : nat.

(** The entry of a key, made if there is none. *)
Definition find_or_add (t : table D) (key : string) : option (table D) :=
  match table_get t key with
  | Some _ => Some t
  | None =>
      if valid key then let '(t, added) := table_put t key (new key) in if added : bool then Some t else None
      else None
  end.

Definition occurrences (key : string) (ks : list string) : nat := length (filter (fun k => k = key) ks).
Definition keys (ks : list string) : gset string := list_to_set ks.

(** The table after the keys [ks]. *)
Record counted (ks : list string) (t : table D) : Prop := {
  cd_wf : table_wf t;
  cd_max : max_entries t = max;
  cd_get : forall key, table_get t key =
    match occurrences key ks with 0 => None | n => Some (Nat.iter n inc (new key)) end;
}.

Lemma occurrences_pos key ks : occurrences key ks = 0 <-> key ∉ keys ks.
Proof.
  unfold occurrences, keys. rewrite length_zero_iff_nil, elem_of_list_to_set. split.
  - intros Hf Hin. assert (key ∈ filter (fun k => k = key) ks) as Hx by (by apply list_elem_of_filter).
    rewrite Hf in Hx. by apply not_elem_of_nil in Hx.
  - intros Hn. destruct (filter _ ks) as [|k l] eqn:E; [done|].
    assert (k ∈ filter (fun k => k = key) ks) as Hx by (rewrite E; left).
    apply list_elem_of_filter in Hx as [-> ?]. done.
Qed.

Lemma occurrences_snoc key ks k :
  occurrences key (ks ++ [k]) = occurrences key ks + (if decide (k = key) then 1 else 0).
Proof.
  unfold occurrences. rewrite filter_app, length_app, filter_cons, filter_nil. by destruct (decide (k = key)).
Qed.

Lemma counted_size ks t : counted ks t -> table_count t = base.size (keys ks).
Proof.
  intros [Hwf _ Hget]. rewrite table_count_size by done. rewrite <-size_dom. f_equal.
  apply set_eq. intros key. rewrite elem_of_dom. specialize (Hget key). unfold table_get in Hget.
  rewrite hash_find_map in Hget. unfold tbl_map. rewrite Hget. pose proof (occurrences_pos key ks) as Ho.
  destruct (occurrences key ks) as [|n].
  - split; [by intros [? ?]|]. intros Hin. exfalso. by apply Ho.
  - split; [|by eexists]. intros _. destruct (decide (key ∈ keys ks)) as [|Hn]; [done|]. apply Ho in Hn. lia.
Qed.

Lemma counted_snoc ks t key :
  counted ks t -> valid key = true -> base.size (keys (ks ++ [key])) <= max ->
  exists t', find_or_add t key = Some t' /\ counted (ks ++ [key]) (table_update t' key inc).
Proof.
  intros Hc Hv Hsz. pose proof (counted_size ks t Hc) as Hcount. destruct Hc as [Hwf Hmax Hget].
  assert (forall k, match occurrences k (ks ++ [key]) with 0 => None | n => Some (Nat.iter n inc (new k)) end =
    if decide (k = key) then Some (inc (Nat.iter (occurrences key ks) inc (new key)))
    else match occurrences k ks with 0 => None | n => Some (Nat.iter n inc (new k)) end) as Hocc.
  { intros k. rewrite occurrences_snoc. destruct (decide (key = k)) as [->|Hne].
    - rewrite decide_True, Nat.add_1_r by done. done.
    - rewrite decide_False, Nat.add_0_r by congruence. done. }
  unfold find_or_add. destruct (table_get t key) as [d|] eqn:E.
  - exists t. split; [done|]. split; [by apply table_update_wf|done|]. intros k.
    rewrite table_get_update, Hocc. destruct (decide (k = key)) as [->|]; [|by rewrite Hget].
    rewrite Hget in E |- *. destruct (occurrences key ks); [done|]. done.
  - rewrite Hv. rewrite Hget in E.
    assert (occurrences key ks = 0) as Hz by (destruct (occurrences key ks); done).
    assert (table_count t < max_entries t) as Hroom.
    { rewrite Hcount, Hmax. eapply Nat.lt_le_trans; [|exact Hsz]. apply subset_size.
      apply occurrences_pos in Hz. unfold keys in *. rewrite list_to_set_app_L. split; [set_solver|].
      intros Hsub. apply Hz, Hsub. set_solver. }
    assert (table_get t key = None) as E' by (rewrite Hget; by rewrite Hz).
    pose proof (table_put_wf t key (new key) Hwf) as Hwf'.
    destruct (table_put t key (new key)) as [t' b] eqn:Ep.
    pose proof Ep as Ep'. rewrite table_put_new, decide_True in Ep' by done. simplify_eq.
    eexists. split; [reflexivity|]. split; [by apply table_update_wf|done|]. intros k.
    rewrite table_get_update, Hocc, !(table_get_put _ _ _ _ Ep).
    destruct (decide (k = key)) as [->|]; [|by rewrite Hget]. rewrite decide_True by done. by rewrite Hz.
Qed.

Lemma counted_entries ks t :
  counted ks t ->
  hash_entries t ≡ₚ (fun k => (k, Nat.iter (occurrences k ks) inc (new k))) <$> elements (keys ks).
Proof.
  intros Hc. pose proof Hc as [[Hnd _] _ Hget]. apply NoDup_Permutation.
  - by eapply NoDup_fmap_1.
  - apply NoDup_fmap_2; [by intros ? ? [= ->]|]. apply NoDup_elements.
  - intros [k d]. rewrite list_elem_of_fmap. specialize (Hget k). unfold table_get in Hget.
    rewrite hash_find_map in Hget. pose proof (occurrences_pos k ks) as Ho. split.
    + intros Hin. apply (elem_of_list_to_map_1 _ _ _ Hnd) in Hin. rewrite Hget in Hin.
      exists k. destruct (occurrences k ks) as [|n] eqn:E; [done|]. injection Hin as <-.
      rewrite elem_of_elements. split; [done|]. destruct (decide (k ∈ keys ks)) as [|Hn]; [done|].
      apply Ho in Hn. lia.
    + intros (k' & [= <- ->] & Hin). rewrite elem_of_elements in Hin.
      apply elem_of_list_to_map_2. rewrite Hget. destruct (occurrences k ks) as [|n]; [|done].
      exfalso. by apply Ho.
Qed.
End counting.

(** ** What the lines count *)

Definition new_pid (key : string) : pid_entry_t :=
  mk_pid key (u16 (strtoul_all key).2) 0 (replicate COMMAND_LINE_MAX NUL).
Definition new_file (key : string) : file_entry_t := mk_file key 0.

(** The identifiers and names that the tables take. *)
Definition pid_ok (key : string) : bool := (String.length key <? 16) && (strtoul_all key).1.
Definition file_ok (key : string) : bool := String.length key <? 128.

Lemma find_or_add_pid_eq t key : find_or_add_pid t key = find_or_add new_pid pid_ok t key.
Proof.
  unfold find_or_add_pid, find_or_add, pid_ok, new_pid. destruct (table_get t key); [done|].
  destruct (16 <=? _) eqn:E1, (_ <? 16) eqn:E2; bool_hyps; try lia; [done|]. cbn [andb].
  by destruct (strtoul_all key) as [[] n].
Qed.

Lemma find_or_add_file_eq t key : find_or_add_file t key = find_or_add new_file file_ok t key.
Proof.
  unfold find_or_add_file, find_or_add, file_ok, new_file. destruct (table_get t key); [done|].
  destruct (128 <=? _) eqn:E1, (_ <? 128) eqn:E2; bool_hyps; try lia; done.
Qed.

(** An open descriptor: the process and what it is open on. *)
Definition descriptor : Type := string * string.

Definition real_files (l : list descriptor) : list string :=
  filter (fun f => is_real_file_path f = true) l.*2.

Definition descriptor_ok (d : descriptor) : bool :=
  pid_ok d.1 && (negb (is_real_file_path d.2) || file_ok d.2).

(** The tables after the descriptors [l]. *)
Record tables_for (l : list descriptor) (s : tables) : Prop := {
  tf_total : t_total s = u32 (Z.of_nat (length l));
  tf_pids : counted new_pid count_pid MAX_PROCESS_COUNT l.*1 (t_pids s);
  tf_files : counted new_file count_file MAX_FILE_COUNT (real_files l) (t_files s);
}.

Definition room (l : list descriptor) : Prop :=
  base.size (keys l.*1) <= MAX_PROCESS_COUNT /\ base.size (keys (real_files l)) <= MAX_FILE_COUNT.

Lemma process_fd_entry_for l s id file :
  tables_for l s -> descriptor_ok (id, file) = true -> room (l ++ [(id, file)]) ->
  exists s', process_fd_entry s file id = (true, s') /\ tables_for (l ++ [(id, file)]) s'.
Proof.
  intros [Ht Hp Hf] Hok [Hr1 Hr2]. unfold descriptor_ok in Hok. apply andb_true_iff in Hok as [Hok1 Hok2].
  cbn [fst snd] in Hok1, Hok2. unfold process_fd_entry, real_files in *.
  rewrite fmap_app in Hr1. rewrite fmap_app, filter_app in Hr2.
  change (([(id, file)] : list descriptor).*1) with [id] in *.
  change (([(id, file)] : list descriptor).*2) with [file] in *.
  assert (u32 (t_total s + 1) = u32 (Z.of_nat (length (l ++ [(id, file)])))) as Htot.
  { rewrite Ht, u32_add_l, length_app. cbn [length]. f_equal. lia. }
  destruct (counted_snoc _ _ pid_ok _ _ _ id Hp Hok1 Hr1) as (tp & Htp & Hp').
  rewrite find_or_add_pid_eq, Htp. rewrite filter_cons, filter_nil in Hr2.
  destruct (is_real_file_path file) eqn:Ef.
  - rewrite decide_True in Hr2 by done. cbn [negb orb] in Hok2.
    destruct (counted_snoc _ _ file_ok _ _ _ file Hf Hok2 Hr2) as (tfl & Htf & Hf').
    rewrite find_or_add_file_eq, Htf. eexists. split; [reflexivity|]. split; cbn [t_total t_pids t_files].
    + done.
    + by rewrite fmap_app.
    + unfold real_files. rewrite fmap_app, filter_app.
      change (([(id, file)] : list descriptor).*2) with [file]. rewrite filter_cons, filter_nil.
      by rewrite decide_True.
  - eexists. split; [reflexivity|]. split; cbn [t_total t_pids t_files].
    + done.
    + by rewrite fmap_app.
    + unfold real_files. rewrite fmap_app, filter_app.
      change (([(id, file)] : list descriptor).*2) with [file]. rewrite filter_cons, filter_nil.
      rewrite decide_False by congruence. by rewrite app_nil_r.
Qed.

(** *** Lines *)

Definition line_descriptor (line : text) : option descriptor :=
  match strtok [tab_char] line with
  | [id; _; file] => Some (string_of id, string_of file)
  | _ => None
  end.

Definition line_fits (line : text) : bool :=
  match strtok [tab_char] line with
  | [id; exe; file] =>
      short 16 id && short NAME_MAX exe && short (Z.to_nat PATH_MAX) file &&
      descriptor_ok (string_of id, string_of file)
  | _ => false
  end.

Section lines.
Context `{!Doubles}.

Lemma line_func_fits line s :
  line_fits line = true ->
  exists d, line_descriptor line = Some d /\ descriptor_ok d = true /\
    line_func line s = Ret (let '(ok, s') := process_fd_entry s d.2 d.1 in (s', ok)).
Proof.
  unfold line_fits, line_descriptor, line_func, parse_fd_line, parse_tab_line.
  destruct (strtok [tab_char] line) as [|id [|exe [|file [|]]]]; try done.
  rewrite !andb_true_iff. intros (((Hid & Hexe) & Hfile) & Hok).
  exists (string_of id, string_of file). split; [done|]. split; [done|].
  unfold fd_objects. str_field Hid. str_field Hexe. str_field Hfile.
  cbn [fields_loop FD_STATE.DONE Nat.eqb]. rewrite bind_Ret. cbn [negb].
  rewrite (is_str_pad 16 id Hid), bind_Ret, (is_str_pad _ file Hfile), bind_Ret, bind_Ret.
  cbn [fst snd]. by destruct (process_fd_entry s (string_of file) (string_of id)).
Qed.

(** The descriptors of the lines. *)
Definition descriptors (ls : list text) : list descriptor := omap line_descriptor ls.

(** Names that all fit in the tables. *)
Definition within (all l : list descriptor) : Prop :=
  keys l.*1 ⊆ keys all.*1 /\ keys (real_files l) ⊆ keys (real_files all).

Lemma within_room all l : room all -> within all l -> room l.
Proof.
  intros [Hr1 Hr2] [Hw1 Hw2].
  split; (etrans; [by apply subseteq_size|done]).
Qed.

Lemma real_files_app a b : real_files (a ++ b) = real_files a ++ real_files b.
Proof. unfold real_files. by rewrite fmap_app, filter_app. Qed.

Lemma within_app all a b : within all (a ++ b) <-> within all a /\ within all b.
Proof.
  unfold within, keys. rewrite fmap_app, real_files_app, !list_to_set_app_L. set_solver.
Qed.

Definition building (all : list descriptor) (s : tables) : Prop :=
  exists l, tables_for l s /\ within all l.

Definition counts_line (all : list descriptor) (line : text) : Prop :=
  line_fits line = true /\ forall d, line_descriptor line = Some d -> within all [d].

Lemma line_func_counts all line s l d :
  room all -> counts_line all line -> tables_for l s -> within all l -> line_descriptor line = Some d ->
  exists s', line_func line s = Ret (s', true) /\ tables_for (l ++ [d]) s' /\ within all (l ++ [d]).
Proof.
  intros Hr [Hf Hw] Hs Hl Hd. destruct (line_func_fits line s Hf) as ([id file] & Hd' & Hok & ->).
  assert (d = (id, file)) as -> by congruence.
  assert (within all (l ++ [(id, file)])) as Hw' by (apply within_app; auto).
  destruct (process_fd_entry_for l s id file Hs Hok) as (s' & Hp & Hs'); [by eapply within_room|].
  cbn [fst snd]. rewrite Hp. by exists s'.
Qed.

Lemma fd_line_continues all line s s' b :
  room all -> counts_line all line -> building all s -> line_func line s = Ret (s', b) ->
  b = true /\ building all s'.
Proof.
  intros Hr Hc (l & Hs & Hl) He. destruct (line_func_fits line s (proj1 Hc)) as (d & Hd & _ & _).
  destruct (line_func_counts all line s l d Hr Hc Hs Hl Hd) as (s1 & Hs1 & Ht1 & Hw1).
  rewrite Hs1 in He. injection He as <- <-. split; [done|]. by exists (l ++ [d]).
Qed.

Definition empty_tables : tables :=
  mk_tables 0 (table_create MAX_PROCESS_COUNT) (table_create MAX_FILE_COUNT).

Lemma tables_for_nil : tables_for [] empty_tables.
Proof.
  split; [done| |].
  - split; [split; [constructor|apply Nat.le_0_l]|reflexivity|intros; reflexivity].
  - split; [split; [constructor|apply Nat.le_0_l]|reflexivity|intros; reflexivity].
Qed.

Lemma fold_lines_counts all ls :
  room all -> Forall (counts_line all) ls ->
  exists s, fold_lines line_func ls empty_tables = Ret s /\ tables_for (descriptors ls) s /\
    within all (descriptors ls).
Proof.
  intros Hr. induction ls as [|line ls IH] using rev_ind; intros Hf.
  { exists empty_tables. split_and!; [done|apply tables_for_nil|]. split; set_solver. }
  apply Forall_app in Hf as [Hf Hl]. rewrite Forall_singleton in Hl.
  destruct (IH Hf) as (s & Hs & Ht & Hw). rewrite fold_lines_app, Hs, bind_Ret. cbn [fold_lines].
  destruct (line_func_fits line s (proj1 Hl)) as (d & Hd & _ & _).
  destruct (line_func_counts all line s _ d Hr Hl Ht Hw Hd) as (s' & -> & Ht' & Hw').
  rewrite !bind_Ret. exists s'. unfold descriptors in *. rewrite omap_app. cbn [omap list_omap]. rewrite Hd.
  by split_and!.
Qed.
End lines.

(** ** One run *)

Lemma iter_count_pid n key : Nat.iter n count_pid (new_pid key) =
  mk_pid key (u16 (strtoul_all key).2) (u16 (Z.of_nat n)) (replicate COMMAND_LINE_MAX NUL).
Proof.
  induction n as [|n IH]; [done|]. cbn [Nat.iter nat_rect]. unfold Nat.iter in IH. rewrite IH.
  unfold count_pid. cbn [id_str pid pid_fd_count cmdline]. f_equal.
  unfold u16. rewrite Zplus_mod_idemp_l. f_equal. lia.
Qed.

Lemma iter_count_file n key : Nat.iter n count_file (new_file key) = mk_file key (u16 (Z.of_nat n)).
Proof.
  induction n as [|n IH]; [done|]. cbn [Nat.iter nat_rect]. unfold Nat.iter in IH. rewrite IH.
  unfold count_file. cbn [file_str file_fd_count]. f_equal.
  unfold u16. rewrite Zplus_mod_idemp_l. f_equal. lia.
Qed.

(** How often each of the names occurs, as the 16-bit counters tell. *)
Definition tally (ks : list string) (names : list string) : list (string * Z) :=
  (fun k => (k, u16 (Z.of_nat (occurrences k ks)))) <$> names.

Definition absolute (key : string) : Prop := String.prefix "/" key = true.

Section run.
Context `{!Doubles}.
Variable tim_sort : (kmin_element -> kmin_element -> Z) -> list kmin_element -> list kmin_element.
Context `{!SortSpec tim_sort}.

Definition pid_score (key : string) (e : pid_entry_t) : option Z := Some (pid_fd_count e).
Definition file_score (key : string) (e : file_entry_t) : option Z :=
  if String.prefix "/" key then Some (file_fd_count e) else None.

Lemma put_pid_count_puts t : puts_score pid_score t (put_pid_count t).
Proof. intros key d i b k Hg. unfold put_pid_count. by rewrite Hg. Qed.

Lemma put_file_count_puts t : puts_score file_score t (put_file_count t).
Proof.
  intros key d i b k Hg. unfold put_file_count, file_score. rewrite Hg.
  by destruct (String.prefix "/" key).
Qed.

Lemma omap_fmap {A B C} (f : B -> option C) (g : A -> B) (l : list A) : omap f (g <$> l) = omap (fun x => f (g x)) l.
Proof. induction l as [|x l IH]; [done|]. cbn. destruct (f (g x)); [f_equal|]; exact IH. Qed.

Lemma omap_Some {A B} (f : A -> B) (l : list A) : omap (fun x => Some (f x)) l = f <$> l.
Proof. induction l as [|x l IH]; [done|]. cbn [omap list_omap fmap list_fmap]. by f_equal. Qed.

Lemma selected_pids l t :
  counted new_pid count_pid MAX_PROCESS_COUNT l t ->
  selected pid_score (hash_entries t) ≡ₚ tally l (elements (keys l)).
Proof.
  intros Hc. unfold selected. rewrite (counted_entries _ _ _ _ _ Hc), omap_fmap.
  unfold pid_score. cbn [fst snd fmap option_fmap option_map].
  rewrite (omap_Some (fun k => (k, pid_fd_count (Nat.iter (occurrences k l) count_pid (new_pid k))))).
  unfold tally. apply reflexive_eq. apply list_fmap_ext. intros _ k _. by rewrite iter_count_pid.
Qed.

Lemma selected_files l t :
  counted new_file count_file MAX_FILE_COUNT l t ->
  selected file_score (hash_entries t) ≡ₚ tally l (filter (fun k => String.prefix "/" k = true) (elements (keys l))).
Proof.
  intros Hc. unfold selected. rewrite (counted_entries _ _ _ _ _ Hc), omap_fmap. cbn [fst snd].
  unfold tally. generalize (elements (keys l)). intros es. apply reflexive_eq.
  induction es as [|k es IH]; [done|]. rewrite filter_cons. cbn [omap list_omap].
  destruct (String.prefix "/" k) eqn:E.
  - rewrite decide_True by done. rewrite fmap_cons, <-IH. unfold file_score at 1. rewrite E, iter_count_file. done.
  - rewrite decide_False by done. rewrite <-IH. unfold file_score at 1. rewrite E. done.
Qed.

(** The output of [lsof] has the complete lines [ls], and they fit. *)
Record lsof_output (ch : child) (ls : list text) (tl : text) : Prop := {
  lo_started : started ch = true;
  lo_pieces : Forall (piece_ok (LSOF_CMD_BUF_LENGTH - 1)) (reads ch);
  lo_lines : cut_lines (concat (reads ch)) = (ls, tl);
  lo_blank : Forall (fun l => l <> []) ls;
  lo_short : Forall (fun l => length l < LSOF_CMD_BUF_LENGTH) (tl :: ls);
  lo_fit : Forall (fun l => line_fits l = true) ls;
  lo_room : room (descriptors ls);
}.

Lemma run_lsof ch ls tl :
  lsof_output ch ls tl ->
  exists ctx out,
    run_command (lines_buffer_fn line_func) ch (replicate LSOF_CMD_BUF_LENGTH NUL) (LSOF_CMD_BUF_LENGTH - 1)
      (mk_lines_ctx (mk_leftover (replicate LSOF_CMD_BUF_LENGTH NUL) 0 0) 0 empty_tables) =
      Ret (status ch, ctx, out) /\
    tables_for (descriptors ls) (lines_state ctx).
Proof.
  intros [Hst Hp Hc Hb Hs Hf Hr]. set (all := descriptors ls) in *.
  assert (Forall (counts_line all) ls) as Hq.
  { apply Forall_forall. intros line Hin. rewrite Forall_forall in Hf. split; [by apply Hf|]. intros d Hd.
    assert (d ∈ all) as Hda by (apply list_elem_of_omap; eauto).
    apply list_elem_of_split in Hda as (a & b & ->). apply within_app with (a := [d]) (b := b).
    apply (within_app _ a). split; done. }
  destruct (run_lines line_func (building all) (counts_line all)
              (fun l s s' b Hl Hs => fd_line_continues all l s s' b Hr Hl Hs) ch
              (mk_leftover (replicate LSOF_CMD_BUF_LENGTH NUL) 0 0) (replicate LSOF_CMD_BUF_LENGTH NUL)
              (LSOF_CMD_BUF_LENGTH - 1) ls tl) as (lo & out & _ & Hrun);
    [done|done| |done|done|done|done| |].
  - rewrite length_replicate. unfold LSOF_CMD_BUF_LENGTH. lia.
  - cbn [lo_buf]. rewrite length_replicate. exact Hs.
  - rewrite Hrun; [|exists []; split; [apply tables_for_nil|split; apply empty_subseteq]].
    destruct (fold_lines_counts all ls Hr Hq) as (s & -> & Ht & _). rewrite bind_Ret.
    eexists _, _. split; [reflexivity|]. exact Ht.
Qed.

(** What a run leaves. *)
Definition after_run (ls : list text) (run : nat) (st : resq_state_t) : Prop :=
  let l := descriptors ls in
  exists s pids files,
    st = mk_fd_state SEND_FD_COUNTS_0 0 (u32 (Z.of_nat (length l))) (Some (t_pids s)) (Some (t_files s)) run
           (slots_of run pids.*1) (slots_of run files.*1) /\
    tables_for l s /\
    pids ≡ₚ tally l.*1 (elements (keys l.*1)) /\ StronglySorted (fun a b => b.2 <= a.2)%Z pids /\
    files ≡ₚ tally (real_files l) (filter absolute (elements (keys (real_files l)))) /\
    StronglySorted (fun a b => b.2 <= a.2)%Z files.

Lemma fd_run_ok ch ls tl st :
  lsof_output ch ls tl -> status ch = 0%Z ->
  exists st', run_resource_query tim_sort true true ch st = Ret st' /\ after_run ls (S (run_id st)) st'.
Proof.
  intros Ho Hs. destruct (run_lsof ch ls tl Ho) as (ctx & out & Hrun & Ht). unfold run_resource_query.
  fold empty_tables. rewrite Hrun, bind_Ret, Hs. cbn [Z.eqb negb]. set (s := lines_state ctx) in *.
  destruct (populate_maximums_ok tim_sort pid_score (S (run_id st)) (t_pids s) (put_pid_count (t_pids s)))
    as (po & -> & Hpp & Hps); [apply Ht|apply put_pid_count_puts|]. rewrite bind_Ret.
  destruct (populate_maximums_ok tim_sort file_score (S (run_id st)) (t_files s) (put_file_count (t_files s)))
    as (fo & -> & Hfp & Hfs); [apply Ht|apply put_file_count_puts|]. rewrite bind_Ret.
  eexists. split; [reflexivity|]. rewrite (tf_total _ _ Ht). exists s, po, fo.
  split_and!; [done|done| |done| |done].
  - rewrite Hpp. apply selected_pids, Ht.
  - rewrite Hfp. apply selected_files, Ht.
Qed.
End run.

(** ** The report *)

(** A command line as the message shows it. *)
Definition spaces (p : text) : text := map (fun c => if bool_decide (c = NUL) then space_char else c) p.

Section report.
Context `{!Doubles}.
Variable tim_sort : (kmin_element -> kmin_element -> Z) -> list kmin_element -> list kmin_element.
Context `{!SortSpec tim_sort}.
Variables fd_count_size fd_summary_size : nat.
Hypothesis count_small : fd_count_size <= SBP_FRAMING_MAX_PAYLOAD_SIZE.
Hypothesis summary_small : fd_summary_size + 2 <= SBP_FRAMING_MAX_PAYLOAD_SIZE.
Variable stale : ascii.
Variable lsof : nat -> child.
Variable get_cmdline : nat -> list string -> child.
(** The command line of a process comes in one piece that leaves room for a NUL. *)
Variable command_line : nat -> string -> text.
Hypothesis get_cmdline_fine : forall n key,
  started (get_cmdline n (the_command key)) = true /\ reads (get_cmdline n (the_command key)) = [command_line n key] /\
  0 < length (command_line n key) < COMMAND_LINE_MAX.
Context {Msg : Type} (wrap : fd_msg -> Msg).

Notation query := (fd_query tim_sort fd_count_size fd_summary_size stale lsof get_cmdline wrap).

Lemma no_nul_spaces p : no_nul (spaces p).
Proof.
  unfold no_nul, spaces. rewrite list_elem_of_fmap. intros (c & Hc & _). case_bool_decide; done.
Qed.

Lemma get_proc_cmdline_ok n key :
  get_proc_cmdline get_cmdline n key (replicate COMMAND_LINE_MAX NUL) =
    Ret (pad COMMAND_LINE_MAX (spaces (command_line n key))).
Proof.
  destruct (get_cmdline_fine n key) as (Hs & Hr & Hl). unfold get_proc_cmdline, run_command.
  rewrite Hs, Hr. cbn [negb ResLines.read_loop]. generalize dependent (command_line n key). intros p _ Hl.
  destruct (length p =? 0) eqn:E0; bool_hyps; [lia|].
  destruct (COMMAND_LINE_MAX <? length p) eqn:E1; bool_hyps; [lia|].
  rewrite memcpy_ok, bind_Ret, take_0, app_nil_l, Nat.add_0_l by (rewrite length_replicate; lia).
  assert (exists k, length p = S k) as [k Hk] by (exists (pred (length p)); lia).
  rewrite Hk at 1. cbn [consume_loop]. rewrite Hk. cbn [Nat.eqb]. unfold spaces_fn. rewrite !bind_Ret.
  destruct (Z.of_nat (S k) <? 0)%Z eqn:Ez; [apply Z.ltb_lt in Ez; lia|]. rewrite Nat2Z.id, Nat.ltb_irrefl.
  rewrite !bind_Ret. f_equal. rewrite <-Hk. apply list_eq. intros i. rewrite list_lookup_imap.
  unfold pad, spaces. rewrite length_map. destruct (decide (i < length p)) as [Hi|Hi].
  - rewrite !lookup_app_l by (rewrite ?length_map; lia). rewrite list_lookup_fmap.
    destruct (lookup_lt_is_Some_2 p i Hi) as [c Hc]. rewrite Hc. cbn [fmap option_fmap option_map].
    f_equal. destruct (i <? 0 + length p) eqn:Ei; bool_hyps; [|lia]. done.
  - rewrite !lookup_app_r by (rewrite ?length_map; lia). rewrite length_map, drop_replicate.
    destruct (replicate _ NUL !! (i - length p)) eqn:Er; cbn [fmap option_fmap option_map]; [|done].
    f_equal. destruct (i <? 0 + length p) eqn:Ei; bool_hyps; [lia|]. by rewrite andb_false_r.
Qed.

(** *** One message *)

Definition cmd_len (cmd : text) : nat :=
  Nat.min (length cmd) (SBP_FRAMING_MAX_PAYLOAD_SIZE - fd_count_size).

(** The message for process [key] at place [i]. *)
Definition count_msg (l : list descriptor) (i : nat) (key : string) (cmd : text) : fd_msg :=
  Msg_fd_count (u8 (Z.of_nat i)) (u16 (strtoul_all key).2) (u16 (Z.of_nat (occurrences key l.*1)))
    (take (cmd_len cmd) cmd) (Z.of_nat (fd_count_size + cmd_len cmd)).

Definition fresh_entry (l : list descriptor) (key : string) : pid_entry_t :=
  mk_pid key (u16 (strtoul_all key).2) (u16 (Z.of_nat (occurrences key l.*1)))
    (replicate COMMAND_LINE_MAX NUL).

Lemma prepare_count_ok l st t key w :
  table_get t key = Some (fresh_entry l key) ->
  prepare_count fd_count_size get_cmdline st t key w =
    Ret (count_msg l (send_state st) key (spaces (command_line w key)),
         table_update t key (fun e => mk_pid (id_str e) (pid e) (pid_fd_count e)
                               (pad COMMAND_LINE_MAX (spaces (command_line w key)))), S w).
Proof.
  intros Hg. unfold prepare_count. rewrite Hg. cbn [of_option]. rewrite bind_Ret.
  unfold fresh_entry at 1 2. cbn [cmdline pid pid_fd_count].
  rewrite bool_decide_eq_true_2 by done. rewrite get_proc_cmdline_ok, !bind_Ret.
  destruct (get_cmdline_fine w key) as (_ & _ & Hl).
  rewrite buf_str_pad; [|apply no_nul_spaces|unfold spaces; rewrite length_map; lia]. rewrite bind_Ret.
  unfold count_msg, cmd_len. set (cmd := spaces (command_line w key)).
  assert ((if SBP_FRAMING_MAX_PAYLOAD_SIZE <? length cmd + fd_count_size
           then SBP_FRAMING_MAX_PAYLOAD_SIZE - fd_count_size else length cmd) =
          Nat.min (length cmd) (SBP_FRAMING_MAX_PAYLOAD_SIZE - fd_count_size)) as ->.
  { destruct (_ <? _) eqn:E; bool_hyps; lia. }
  rewrite (u8_small (Z.of_nat (fd_count_size + _))) by (unfold SBP_FRAMING_MAX_PAYLOAD_SIZE in *; lia). done.
Qed.

(** *** The ten processes *)

(** The state while the counts are being sent. *)
Definition sending (st : resq_state_t) (n : nat) (t : table pid_entry_t) : resq_state_t :=
  with_send st n (error_code st) (Some t).

Lemma send_counts l st tp tf pids n w f :
  send_state st = 0 ->
  pid_table st = Some tp -> file_table st = Some tf ->
  ITEM_COUNT <= table_count tp -> ITEM_COUNT <= table_count tf ->
  top10_pid_counts st = slots_of (run_id st) pids -> NoDup pids ->
  (forall key, key ∈ pids -> table_get tp key = Some (fresh_entry l key)) ->
  n <= ITEM_COUNT -> n <= length pids ->
  exists t, table_count t = table_count tp /\
    (forall key, key ∉ take n pids -> table_get t key = table_get tp key) /\
    send_loop query (n + f) st w [] =
      send_loop query f (sending st n t) (w + n)
        (imap (fun i k => wrap (count_msg l i k (spaces (command_line (w + i) k)))) (take n pids)).
Proof.
  intros Hs Hp Hf Hc1 Hc2 Hslots Hnd Hfresh. revert f. induction n as [|n IH]; intros f Hn Hl.
  { exists tp. split_and!; [done|done|]. rewrite Nat.add_0_r. cbn [Nat.add take imap].
    f_equal. unfold sending, with_send. destruct st; cbn in *; by subst. }
  destruct (IH (S f)) as (t & Hct & Hg & Hloop); [lia..|].
  replace (S n + f) with (n + S f) by lia. rewrite Hloop.
  destruct (lookup_lt_is_Some_2 pids n) as [key Hkey]; [lia|].
  assert (key ∉ take n pids) as Hnot.
  { intros Hin. apply list_elem_of_lookup in Hin as [i Hi]. apply lookup_take_Some in Hi as [Hi Hin].
    pose proof (NoDup_lookup pids i n key Hnd Hi Hkey). lia. }
  assert (key ∈ pids) as Hin by (by eapply list_elem_of_lookup_2).
  exists (table_update t key (fun e => mk_pid (id_str e) (pid e) (pid_fd_count e)
                               (pad COMMAND_LINE_MAX (spaces (command_line (w + n) key))))).
  split; [by rewrite table_update_count|]. split.
  { intros k Hk. rewrite (take_S_lookup pids n key) in Hk by done. rewrite table_get_update.
    rewrite decide_False by set_solver. apply Hg. set_solver. }
  cbn [send_loop prepare_sbp fd_query]. unfold query_fd_prepare, sending.
  cbn [with_send send_state pid_table file_table of_option top10_pid_counts run_id error_code].
  assert (n < 10) as Hn10 by (unfold ITEM_COUNT in Hn; lia).
  destruct (n =? SEND_DONE) eqn:Ed; bool_hyps; [unfold SEND_DONE in Ed; lia|].
  rewrite bind_Ret, Hf. cbn [of_option]. rewrite bind_Ret.
  destruct (table_count t <? ITEM_COUNT) eqn:E1; bool_hyps; [lia|].
  destruct (table_count tf <? ITEM_COUNT) eqn:E2; bool_hyps; [lia|]. rewrite bind_Ret.
  cbn [with_send send_state pid_table file_table of_option top10_pid_counts run_id error_code].
  destruct (n <? SEND_FD_SUMMARY) eqn:E3; bool_hyps; [|unfold SEND_FD_SUMMARY in E3; lia].
  rewrite Hslots. unfold load. rewrite slots_of_lookup, decide_True, Hkey by lia.
  cbn [of_option fmap option_fmap option_map]. rewrite bind_Ret, Nat.eqb_refl. cbn [negb].
  rewrite (prepare_count_ok l) by (rewrite Hg by done; by apply Hfresh). rewrite !bind_Ret. cbn [option_map].
  replace (w + S n) with (S (w + n)) by lia.
  rewrite (take_S_lookup pids n key) by done. rewrite imap_app, length_take, Nat.min_l by lia.
  cbn [imap send_state with_send]. by rewrite Nat.add_0_r.
Qed.

Lemma slot_entries_files run l t ks :
  counted new_file count_file MAX_FILE_COUNT l t -> Forall (fun k => k ∈ keys l) ks ->
  slot_entries run t (slots_of run ks) =
    Some ((fun k => mk_file k (u16 (Z.of_nat (occurrences k l)))) <$> take ITEM_COUNT ks).
Proof.
  intros Hc Hk. unfold slots_of.
  assert (forall n m, slot_entries run t ((fun i => (fun key => (run, key)) <$> ks !! i) <$> seq m n) =
    Some ((fun k => mk_file k (u16 (Z.of_nat (occurrences k l)))) <$> take n (drop m ks))) as Hgen; [|by apply Hgen].
  induction n as [|n IH]; intros m; [done|]. cbn [seq fmap list_fmap].
  destruct (ks !! m) as [k|] eqn:Em; cbn [option_fmap option_map fmap slot_entries].
  - rewrite Nat.eqb_refl, (cd_get _ _ _ _ _ Hc). rewrite Forall_forall in Hk.
    specialize (Hk k ltac:(by eapply list_elem_of_lookup_2)). pose proof (occurrences_pos k l) as Ho.
    pose proof (iter_count_file (occurrences k l) k) as Hi.
    destruct (occurrences k l) as [|c] eqn:Eo; [exfalso; by apply Ho|]. rewrite Hi.
    cbn [mbind option_bind]. specialize (IH (S m)). cbn [fmap list_fmap] in IH. rewrite IH. cbn [mbind option_bind].
    rewrite (drop_S ks k m) by done. cbn [take fmap list_fmap]. by rewrite Eo.
  - specialize (IH (S m)). cbn [fmap list_fmap] in IH. rewrite IH.
    apply lookup_ge_None in Em. by rewrite !drop_ge, !take_nil by lia.
Qed.

Lemma tally_keys ks names : (tally ks names).*1 = names.
Proof. unfold tally. rewrite <-list_fmap_compose. induction names as [|k names IH]; [done|]. cbn. by f_equal. Qed.

Lemma tally_member ks names l k : l ≡ₚ tally ks names -> k ∈ l.*1 -> k ∈ names.
Proof. intros Hp Hin. by rewrite Hp, tally_keys in Hin. Qed.

(** What the summary says about the first [ITEM_COUNT] of the files. *)
Definition summary_msg (l : list descriptor) (files : list string) : fd_msg :=
  let es := (fun k => mk_file k (u16 (Z.of_nat (occurrences k (real_files l))))) <$> take ITEM_COUNT files in
  let body := summary_body fd_summary_size es in
  Msg_fd_summary (u32 (Z.of_nat (length l))) body (Z.of_nat (fd_summary_size + length body)).

Lemma prepare_at_summary st tp tf es w :
  send_state st = SEND_FD_SUMMARY -> pid_table st = Some tp -> file_table st = Some tf ->
  ITEM_COUNT <= table_count tp -> ITEM_COUNT <= table_count tf ->
  slot_entries (run_id st) tf (top10_file_counts st) = Some es ->
  query_fd_prepare fd_count_size fd_summary_size stale get_cmdline st w =
    Ret (Some (Msg_fd_summary (total_fd_count st) (summary_body fd_summary_size es)
                 (Z.of_nat (fd_summary_size + length (summary_body fd_summary_size es)))),
         with_send st SEND_DONE (error_code st) (pid_table st), w).
Proof.
  intros Hs Hp Hf Hcp Hcf He. unfold query_fd_prepare. rewrite Hs, Hp, Hf. cbn [of_option].
  change (SEND_FD_SUMMARY =? SEND_DONE) with false. cbv iota. rewrite !bind_Ret.
  destruct (table_count tp <? ITEM_COUNT) eqn:E1; bool_hyps; [lia|].
  destruct (table_count tf <? ITEM_COUNT) eqn:E2; bool_hyps; [lia|]. rewrite bind_Ret. cbv zeta iota.
  rewrite Hs, Hf. change (SEND_FD_SUMMARY <? SEND_FD_SUMMARY) with false.
  change (SEND_FD_SUMMARY =? SEND_FD_SUMMARY) with true. cbv iota. cbn [of_option]. rewrite bind_Ret.
  destruct (prepare_summary_ok fd_summary_size summary_small stale st tf es He) as [-> _]. by rewrite bind_Ret, Hp.
Qed.

Lemma prepare_few st tp tf w :
  send_state st = SEND_FD_COUNTS_0 -> pid_table st = Some tp -> file_table st = Some tf ->
  table_count tp < ITEM_COUNT \/ table_count tf < ITEM_COUNT ->
  query_fd_prepare fd_count_size fd_summary_size stale get_cmdline st w =
    Ret (None, with_send st SEND_ERROR 4 (Some tp), w).
Proof.
  intros Hs Hp Hf Hfew. unfold query_fd_prepare. rewrite Hs, Hp, Hf. cbn [of_option].
  change (SEND_FD_COUNTS_0 =? SEND_DONE) with false. cbv iota. rewrite !bind_Ret.
  destruct (table_count tp <? ITEM_COUNT) eqn:E1; bool_hyps; [done|].
  destruct (table_count tf <? ITEM_COUNT) eqn:E2; bool_hyps; [done|]. lia.
Qed.

Lemma fd_report_ok ls tl st w :
  lsof_output (lsof w) ls tl -> status (lsof w) = 0%Z ->
  let l := descriptors ls in
  exists st1, run_query query st w = Ret (st1, S w) /\
    (ITEM_COUNT <= base.size (keys l.*1) -> ITEM_COUNT <= base.size (keys (real_files l)) ->
     exists pids files st2,
       pids ≡ₚ tally l.*1 (elements (keys l.*1)) /\ StronglySorted (fun a b => b.2 <= a.2)%Z pids /\
       files ≡ₚ tally (real_files l) (filter absolute (elements (keys (real_files l)))) /\
       StronglySorted (fun a b => b.2 <= a.2)%Z files /\
       send_loop query (ITEM_COUNT + 2) st1 (S w) [] =
         Ret (st2, S w + ITEM_COUNT,
              imap (fun i k => wrap (count_msg l i k (spaces (command_line (S w + i) k)))) (take ITEM_COUNT pids.*1)
              ++ [wrap (summary_msg l files.*1)])) /\
    (base.size (keys l.*1) < ITEM_COUNT \/ base.size (keys (real_files l)) < ITEM_COUNT ->
     exists st2, send_loop query (ITEM_COUNT + 2) st1 (S w) [] = Ret (st2, S w, [])).
Proof.
  intros Ho Hs l. destruct (fd_run_ok tim_sort (lsof w) ls tl st Ho Hs)
    as (st1 & Hrun & s & pids & files & Hst1 & Ht & Hp & Hps & Hf & Hfs). fold l in Hst1, Ht, Hp, Hf.
  exists st1. cbn [run_query fd_query]. rewrite Hrun, bind_Ret. split; [done|].
  pose proof (counted_size _ _ _ _ _ (tf_pids _ _ Ht)) as Hcp.
  pose proof (counted_size _ _ _ _ _ (tf_files _ _ Ht)) as Hcf. split.
  - intros H10 H10f.
    assert (pids.*1 ≡ₚ elements (keys l.*1)) as Hpk by (rewrite Hp; by rewrite tally_keys).
    destruct (send_counts l st1 (t_pids s) (t_files s) pids.*1 ITEM_COUNT (S w) 2) as (t & Hct & _ & Hloop);
      try (by rewrite Hst1); try lia.
    + rewrite Hpk. apply NoDup_elements.
    + intros key Hin. rewrite (cd_get _ _ _ _ _ (tf_pids _ _ Ht)). rewrite Hpk, elem_of_elements in Hin.
      pose proof (occurrences_pos key l.*1) as Hoc. pose proof (iter_count_pid (occurrences key l.*1) key) as Hi.
      unfold fresh_entry. destruct (occurrences key l.*1) as [|c] eqn:Eo; [exfalso; by apply Hoc|]. by rewrite Hi.
    + rewrite Hpk. change (length (elements (keys l.*1))) with (base.size (keys l.*1)). lia.
    + assert (slot_entries (run_id st1) (t_files s) (top10_file_counts st1) =
              Some ((fun k => mk_file k (u16 (Z.of_nat (occurrences k (real_files l))))) <$> take ITEM_COUNT files.*1))
        as Hes.
      { rewrite Hst1. apply slot_entries_files; [apply Ht|]. apply Forall_forall. intros k Hin.
        apply (tally_member _ _ _ _ Hf) in Hin. apply list_elem_of_filter in Hin as [_ Hin].
        by apply elem_of_elements. }
      exists pids, files. eexists. split_and!; [done..|]. rewrite Hloop. cbn [send_loop prepare_sbp fd_query].
      pose proof (prepare_at_summary (sending st1 ITEM_COUNT t) t (t_files s) _ (S w + ITEM_COUNT) eq_refl eq_refl
                    ltac:(by rewrite Hst1) ltac:(lia) ltac:(lia) Hes) as Hprep.
      rewrite Hprep, !bind_Ret. cbn [option_map].
      unfold query_fd_prepare at 1. cbn [with_send send_state].
      change (SEND_DONE =? SEND_DONE) with true. cbv iota. rewrite !bind_Ret. cbn [option_map].
      unfold summary_msg. cbn [sending with_send total_fd_count].
      assert (total_fd_count st1 = u32 (Z.of_nat (length l))) as -> by (by rewrite Hst1). reflexivity.
  - intros Hfew. eexists. cbn [Nat.add ITEM_COUNT send_loop prepare_sbp fd_query].
    rewrite (prepare_few st1 (t_pids s) (t_files s)) by (by rewrite Hst1 || lia).
    by rewrite !bind_Ret.
Qed.

(** C12: the report of the descriptor query.  The conditions: [lsof] succeeds, no line is blank, has a
    NUL or fills the buffer, every line has three fields (a process identifier that is a number of
    less than 16 characters, an executable, a file) that fit in the arrays of the parser, a real
    file has a name of less than 128 characters, and there is room in the tables; the command that
    is asked for the command line of a process prints it in one piece of 1 to 255 bytes.  Then the
    module counts the descriptors of every process and every real file.  If there are at least ten of
    each, it then sends the ten processes with the most descriptors, most first, each with its
    count and the command line that was printed for this very process, cut to the payload, and one
    summary with the number of all descriptors and the ten most opened files with absolute names; with fewer processes or files
    it sends nothing. *)
Theorem fd_report ls tl st w :
  lsof_output (lsof w) ls tl -> status (lsof w) = 0%Z ->
  let l := descriptors ls in
  exists st1, run_query query st w = Ret (st1, S w) /\
    (ITEM_COUNT <= base.size (keys l.*1) -> ITEM_COUNT <= base.size (keys (real_files l)) ->
     exists pids files st2,
       pids ≡ₚ tally l.*1 (elements (keys l.*1)) /\ StronglySorted (fun a b => b.2 <= a.2)%Z pids /\
       files ≡ₚ tally (real_files l) (filter absolute (elements (keys (real_files l)))) /\
       StronglySorted (fun a b => b.2 <= a.2)%Z files /\
       send_loop query (ITEM_COUNT + 2) st1 (S w) [] =
         Ret (st2, S w + ITEM_COUNT,
              imap (fun i k => wrap (count_msg l i k (spaces (command_line (S w + i) k)))) (take ITEM_COUNT pids.*1)
              ++ [wrap (summary_msg l files.*1)])) /\
    (base.size (keys l.*1) < ITEM_COUNT \/ base.size (keys (real_files l)) < ITEM_COUNT ->
     exists st2, send_loop query (ITEM_COUNT + 2) st1 (S w) [] = Ret (st2, S w, [])).
Proof. apply fd_report_ok. Qed.

(** The promise to the registry. *)
Lemma fd_query_ok qs :
  (forall n, exists ls tl, lsof_output (lsof n) ls tl /\ status (lsof n) = 0%Z) ->
  (forall q, q ∈ qs -> describe q = "system state" -> is_Some (read_property q) ->
             priority q < RESQ_PRIORITY_2) ->
  query_ok (ITEM_COUNT + 2) qs query.
Proof.
  intros Hl Hsys. split.
  - cbn [priority fd_query]. unfold RESQ_PRIORITY_2, RESQ_PRIORITY_COUNT. lia.
  - cbn [init fd_query]. eexists. split; [reflexivity|]. intros rd w Hrd.
    destruct (Hrd "system state" (mk_prop 0 RESQ_PROP_U16 0)) as [[ok p] ->]; [done|].
    rewrite bind_Ret. by eexists _, _.
  - intros c w out _. destruct (Hl w) as (ls & tl & Ho & Hs).
    destruct (fd_report_ok ls tl c w Ho Hs) as (st1 & -> & Hmany & Hfew).
    exists st1, (S w). rewrite send_loop_out.
    destruct (decide (ITEM_COUNT <= base.size (keys (descriptors ls).*1) /\
                      ITEM_COUNT <= base.size (keys (real_files (descriptors ls))))) as [[H1 H2]|Hn].
    + destruct (Hmany H1 H2) as (pids & files & st2 & _ & _ & _ & _ & ->). rewrite bind_Ret. by eexists.
    + destruct Hfew as (st2 & ->); [lia|]. rewrite bind_Ret. by eexists.
  - cbn [teardown fd_query]. eexists. split; [reflexivity|]. intros c w _. by eexists.
Qed.

(** If the table of processes cannot be created the module notes an error, but it asks the
    missing table for its size before it looks at the error. *)
Theorem pid_table_failure ch st ok_file w :
  exists st1, run_resource_query tim_sort false ok_file ch st = Ret st1 /\ send_state st1 = SEND_ERROR /\
    query_fd_prepare fd_count_size fd_summary_size stale get_cmdline st1 w = Undef.
Proof. eexists. split; [reflexivity|]. by split. Qed.

(** The failure of the other table is seen: the empty table of processes is found first. *)
Theorem file_table_failure ch st w :
  exists st1 st2, run_resource_query tim_sort true false ch st = Ret st1 /\
    query_fd_prepare fd_count_size fd_summary_size stale get_cmdline st1 w = Ret (None, st2, w).
Proof. eexists _, _. split; reflexivity. Qed.
End report.

(** ** Witnesses *)

#[local] Instance whole_numbers : Doubles := {|
  f64 := Z; f64_zero := 0; f64_of_Z z := z; f64_add := Z.add; f64_mul := Z.mul; f64_div := Z.div;
  f64_to_u8 z := if ((0 <=? z) && (z <? 256))%Z then Ret z else Undef; strtod := strtoul10;
|}%Z.

(** In the first output ten processes have a file of their own open each, the process 7 a pipe
    too; in the second there are two processes. *)
Definition lsof_example (n : nat) : child :=
  let line id file := text_of id ++ [tab_char] ++ text_of "/bin/sh" ++ [tab_char] ++ text_of file ++ [newline_char] in
  match n with
  | 0 => mk_child true (((fun i => line i ("/tmp/" +:+ i)) <$> ["1"; "2"; "3"; "4"; "5"; "6"; "7"; "8"; "9"; "10"])
           ++ [line "7" "pipe:[3]"]) 0
  | _ => mk_child true [line "7" "/dev/null"; line "7" "pipe:[3]"; line "8" "/dev/null"] 0
  end.

(** The command prints the name of the shell and the process that it was asked for. *)
Definition printed_example (id : string) : text := text_of "sh" ++ [NUL] ++ take 16 (text_of id).
Definition cmdline_example (_ : nat) (argv : list string) : child :=
  match argv with [_; _; id] => mk_child true [printed_example id] 0 | _ => mk_child false [] 1 end.

Lemma cmdline_example_fine n key :
  started (cmdline_example n (the_command key)) = true /\
  reads (cmdline_example n (the_command key)) = [printed_example key] /\
  0 < length (printed_example key) < COMMAND_LINE_MAX.
Proof.
  split; [done|]. split; [done|]. unfold printed_example, COMMAND_LINE_MAX.
  rewrite !length_app, length_take. cbn [length text_of]. change (length (text_of "sh")) with 2. lia.
Qed.

Lemma fd_report_witness :
  let q := fd_query merge_sort_by 5 4 NUL lsof_example cmdline_example (fun m => m) in
  let st := mk_fd_state 0 0 0 None None 0 (replicate 10 None) (replicate 10 None) in
  let l := descriptors (cut_lines (concat (reads (lsof_example 0)))).1 in
  (exists st1 pids files st2, run_query q st 0 = Ret (st1, 1) /\
    pids ≡ₚ tally l.*1 (elements (keys l.*1)) /\ StronglySorted (fun a b => b.2 <= a.2)%Z pids /\
    files ≡ₚ tally (real_files l) (filter absolute (elements (keys (real_files l)))) /\
    send_loop q 12 st1 1 [] =
      Ret (st2, 11, imap (fun i k => count_msg 5 l i k (spaces (printed_example k))) (take ITEM_COUNT pids.*1)
                    ++ [summary_msg 4 l files.*1])) /\
  (exists st1 st2, run_query q st 1 = Ret (st1, 2) /\ send_loop q 12 st1 2 [] = Ret (st2, 2, [])).
Proof.
  intros q st l. set (ls n := (cut_lines (concat (reads (lsof_example n)))).1). split.
  - destruct (fd_report merge_sort_by 5 4 ltac:(unfold SBP_FRAMING_MAX_PAYLOAD_SIZE; lia)
                ltac:(unfold SBP_FRAMING_MAX_PAYLOAD_SIZE; lia) NUL lsof_example cmdline_example
                (fun _ => printed_example) cmdline_example_fine (fun m => m) (ls 0) [] st 0) as (st1 & Hrun & Hmany & _).
    + split; try reflexivity; apply (bool_decide_unpack _); vm_compute; exact I.
    + reflexivity.
    + destruct Hmany as (pids & files & st2 & H1 & H2 & H3 & _ & H5);
        [apply (bool_decide_unpack _); vm_compute; exact I..|].
      exists st1, pids, files, st2. split; [exact Hrun|]. split; [exact H1|]. split; [exact H2|].
      split; [exact H3|exact H5].
  - destruct (fd_report merge_sort_by 5 4 ltac:(unfold SBP_FRAMING_MAX_PAYLOAD_SIZE; lia)
                ltac:(unfold SBP_FRAMING_MAX_PAYLOAD_SIZE; lia) NUL lsof_example cmdline_example
                (fun _ => printed_example) cmdline_example_fine (fun m => m) (ls 1) [] st 1) as (st1 & Hrun & _ & Hfew).
    + split; try reflexivity; apply (bool_decide_unpack _); vm_compute; exact I.
    + reflexivity.
    + exists st1. destruct Hfew as (st2 & Hsend); [left; apply (bool_decide_unpack _); vm_compute; exact I|].
      exists st2. split; [exact Hrun|exact Hsend].
Defined.

Lemma fd_summary_message_witness :
  let t := mk_table 3 [("/dev/null", mk_file "/dev/null" 2)] in
  let st := mk_fd_state 10 0 3 None (Some t) 1 (replicate 10 None) (Some (1, "/dev/null") :: replicate 9 None) in
  exists body, prepare_summary 4 NUL st t = Ret (Msg_fd_summary 3 body (Z.of_nat (4 + length body))) /\
    4 + length body <= 255 /\ length body = 13.
Proof.
  intros t st. destruct (fd_summary_message 4 ltac:(unfold SBP_FRAMING_MAX_PAYLOAD_SIZE; lia) NUL st t
                           [mk_file "/dev/null" 2] ltac:(reflexivity)) as [H1 H2].
  exists (summary_body 4 [mk_file "/dev/null" 2]). split; [exact H1|]. split; [exact H2|reflexivity].
Defined.
