(* ===== verification/ResUsage.v ===== *)
(** * The CPU, memory and system state queries
    ([resource_monitor/resource_monitor/src/]: [query_cpu_usage.c], [query_mem_usage.c],
    [query_sys_state.c])

    Each query runs [ps] into a buffer and parses its lines.  The theorems: what the parser and
    the report do with a line that has a field too many, or a command that fills its array; a
    message stays within its payload otherwise; how many processes [init] counts. *)

From Stdlib Require Import Ascii.
From S2P Require Import Prelude Libc Text ResLines ResQuery.

Definition ITEM_COUNT : nat := 10.
Definition COMMAND_LINE_MAX : nat := 256.
Definition SBP_PAYLOAD_SIZE_MAX : nat := 255.

(** [query_item_t] of both modules: [share] is [pcpu] or [pmem]. *)
Record query_item_t := mk_item { i_pid : Z; share : Z; thread_name : text; command_line : text }.

(** A message about one process: index, pid, share, name, command line and payload length. *)
Record usage_msg := mk_usage {
  u_index : Z; u_pid : Z; u_share : Z; u_tname : text; u_cmdline : text; u_len : Z;
}.

Section usage.
Context `{!Doubles}.

(** The fields of a line: pid, usage, thread name, command line.  There is no entry for the
    final state. *)
Definition usage_specs (usage : field_type_t) (desc : string) (name_max : nat) : list line_spec_t :=
  [mk_spec FT_U16 1 "pid" 0 0; mk_spec usage 2 desc 0 1;
   mk_spec FT_STR 3 "thread name" name_max 2; mk_spec FT_STR 4 "command line" COMMAND_LINE_MAX 3].
Definition STATE_PID : nat := 0.
Definition STATE_DONE : nat := 4.

Definition blank_item (name_max : nat) : query_item_t :=
  mk_item 0 0 (replicate name_max NUL) (replicate COMMAND_LINE_MAX NUL).

(** Parse a line into an item: the result and the item, which a failed parse leaves half
    written.  [measure] turns the second field into the share. *)
Definition parse_usage_line (usage : field_type_t) (desc : string) (name_max : nat) (zero : object)
    (measure : object -> outcome Z) (line : text) (it : query_item_t) : outcome (bool * query_item_t) :=
  '(ok, env) ← parse_ps_line line STATE_PID STATE_DONE (usage_specs usage desc name_max)
                 [O_u16 (i_pid it); zero; O_str (thread_name it); O_str (command_line it)];
  match env with
  | [O_u16 p; u; O_str tn; O_str cl] =>
      if negb ok then Ret (false, mk_item p (share it) tn cl)
      else sh ← measure u; Ret (true, mk_item p sh tn cl)
  | _ => Undef
  end.

(** *** CPU *)

Definition CPU_THREAD_NAME_MAX : nat := 32.

Definition parse_ps_cpu_line : text -> query_item_t -> outcome (bool * query_item_t) :=
  parse_usage_line FT_F64 "pcpu" CPU_THREAD_NAME_MAX (O_f64 f64_zero)
    (fun u => match u with O_f64 pcpu => share_u8 (f64_div pcpu (f64_of_Z 100)) | _ => Undef end).

(** The state of the module: the index of the next message and the items. *)
Record cpu_state := mk_cpu { cpu_index : Z; cpu_items : list query_item_t }.

(** The loop over the lines of the buffer. *)
Fixpoint cpu_loop (lines : list text) (item_index : nat) (items : list query_item_t) :
    outcome (list query_item_t) :=
  match lines with
  | [] => Ret items
  | line :: lines' =>
      if ITEM_COUNT <=? item_index then Ret items
      else
        it ← load items item_index;
        '(ok, it) ← parse_ps_cpu_line line it;
        items ← store items item_index it;
        if negb ok then Ret items else cpu_loop lines' (S item_index) items
  end.

Definition PS_BUFFER : nat := Z.to_nat 4096.

Definition cpu_run (ch : child) (st : cpu_state) : outcome cpu_state :=
  '(_, buf) ← run_with_stdin_file ch (replicate PS_BUFFER NUL) PS_BUFFER;
  items ← cpu_loop (strtok [newline_char] (c_str buf)) 0 (replicate ITEM_COUNT (blank_item CPU_THREAD_NAME_MAX));
  Ret (mk_cpu 0 items).

(** The message for one item; [size] is the size of the message structure, [tname] of its name. *)
Definition prepare_item (size tname : nat) (index : nat) (it : query_item_t) : outcome usage_msg :=
  cmd ← buf_str (command_line it);                                       (* strlen *)
  let copy_len := Nat.min (length cmd) (SBP_PAYLOAD_SIZE_MAX - size) in
  Ret (mk_usage (u8 (Z.of_nat index)) (i_pid it) (share it)
         (take tname (c_str (thread_name it))) (take copy_len cmd) (u8 (Z.of_nat (size + copy_len)))).

Definition cpu_prepare (size tname : nat) (st : cpu_state) : outcome (option usage_msg * cpu_state) :=
  if (Z.of_nat ITEM_COUNT <=? cpu_index st)%Z then Ret (None, st)
  else
    it ← load (cpu_items st) (Z.to_nat (cpu_index st));
    m ← prepare_item size tname (Z.to_nat (cpu_index st)) it;
    Ret (Some m, mk_cpu (u8 (cpu_index st + 1)) (cpu_items st)).

(** The items are static: they outlive the context. *)
Definition cpu_init (items : list query_item_t) : cpu_state := mk_cpu 0 items.

(** *** Memory *)

Definition MEM_THREAD_NAME_MAX : nat := 16.

Record mem_state := mk_mem { total_memory : Z; mem_index : Z; mem_items : list query_item_t }.

Definition parse_ps_mem_line (total : Z) : text -> query_item_t -> outcome (bool * query_item_t) :=
  parse_usage_line FT_U32 "vsz" MEM_THREAD_NAME_MAX (O_u32 0)
    (fun u => match u with O_u32 vsz => share_u8 (f64_div (f64_of_Z vsz) (f64_of_Z total)) | _ => Undef end).

(** The line function: its state is the index and the items. *)
Definition mem_line_fn (total : Z) (line : text) (s : nat * list query_item_t) :
    outcome ((nat * list query_item_t) * bool) :=
  let '(item_index, items) := s in
  if ITEM_COUNT <=? item_index then Ret (s, false)
  else
    it ← load items item_index;
    '(ok, it) ← parse_ps_mem_line total line it;
    items ← store items item_index it;
    Ret ((S item_index, items), ok).

Definition mem_run (ch : child) (st : mem_state) : outcome mem_state :=
  '(rc, buf) ← run_with_stdin_file ch (replicate PS_BUFFER NUL) PS_BUFFER;
  if negb (rc =? 0)%Z then Ret (mk_mem (total_memory st) 0 (mem_items st))
  else
    '(_, _, s) ← foreach_line (mem_line_fn (total_memory st)) buf None
                   (0, replicate ITEM_COUNT (blank_item MEM_THREAD_NAME_MAX));
    Ret (mk_mem (total_memory st) 0 s.2).

Definition mem_prepare (size tname : nat) (st : mem_state) : outcome (option usage_msg * mem_state) :=
  if (Z.of_nat ITEM_COUNT <=? mem_index st)%Z then Ret (None, st)
  else
    it ← load (mem_items st) (Z.to_nat (mem_index st));
    m ← prepare_item size tname (Z.to_nat (mem_index st)) it;
    Ret (Some m, mk_mem (total_memory st) (u8 (mem_index st + 1)) (mem_items st)).

Definition mem_init (meminfo : option text) (items : list query_item_t) : outcome (option mem_state) :=
  total ← fetch_mem_total meminfo;
  let total := u32 total in
  Ret (if (total =? 0)%Z then None
       else Some (mk_mem total 0 items)).

(** *** System state *)

(** [service] says whether [extrace] has been started last or stopped. *)
Record prep_state_t := mk_sys {
  sent_sbp : Z; procs_started : Z; procs_exitted : Z; service : bool;
  pcpu_used : f64; mem_used : Z; mem_total : Z; pid_count : Z;
}.

Definition sys_specs : list line_spec_t := [mk_spec FT_F64 1 "pcpu" 0 0; mk_spec FT_U32 2 "vsz" 0 1].

Definition parse_ps_cpu_mem_line (line : text) (st : prep_state_t) : outcome (bool * prep_state_t) :=
  '(ok, env) ← parse_ps_line line 0 2 sys_specs [O_f64 f64_zero; O_u32 0];
  if negb ok then Ret (false, st)
  else
    match env with
    | [O_f64 pcpu; O_u32 vsz] =>
        Ret (true, mk_sys (sent_sbp st) (procs_started st) (procs_exitted st) (service st)
                     (f64_add (pcpu_used st) pcpu) (u32 (mem_used st + vsz)) (mem_total st) (pid_count st))
    | _ => Undef
    end.

Definition sys_line_fn (line : text) (st : prep_state_t) : outcome (prep_state_t * bool) :=
  let st := mk_sys (sent_sbp st) (procs_started st) (procs_exitted st) (service st) (pcpu_used st)
              (mem_used st) (mem_total st) (u16 (pid_count st + 1)) in
  '(ok, st) ← parse_ps_cpu_mem_line line st; Ret (st, ok).

(** What [grep -c] printed, [None] if the pipeline failed. *)
Definition grep_count (out : option string) : Z :=
  match out with None => 0%Z | Some s => (strtoul_all s).2 end.

Definition SYS_BUFFER : nat := Z.to_nat (16 * 1024).

Definition sys_run (started exited : option string) (ch : child) (st : prep_state_t) : outcome prep_state_t :=
  let st := mk_sys 0 (grep_count started) (grep_count exited) false f64_zero 0 (mem_total st) 0 in
  '(rc, buf) ← run_with_stdin_file ch (replicate SYS_BUFFER NUL) SYS_BUFFER;
  if negb (rc =? 0)%Z then Ret st
  else
    '(consumed, _, st) ← foreach_line sys_line_fn buf None st;
    if (consumed <? 0)%Z then Ret st
    else Ret (mk_sys (sent_sbp st) (procs_started st) (procs_exitted st) true (pcpu_used st) (mem_used st)
                (mem_total st) (pid_count st)).

Definition QUERY_SYS_PROP_PID_COUNT : Z := 0.

Definition sys_read_property (p : resq_read_property_t) (st : prep_state_t) : bool * resq_read_property_t :=
  if (prop_id p =? QUERY_SYS_PROP_PID_COUNT)%Z
  then (true, mk_prop (prop_id p) RESQ_PROP_U16 (pid_count st)) else (false, p).

(** [msg_linux_sys_state_t] *)
Record sys_msg := mk_sys_msg {
  s_mem_total : Z; s_pcpu : Z; s_pmem : Z; s_procs_starting : Z; s_procs_stopping : Z; s_pid_count : Z;
}.

(** The message is filled in whether it is sent or not. *)
Definition sys_prepare (st : prep_state_t) : outcome (option sys_msg * prep_state_t) :=
  let mem_mb := u16 (mem_total st / 1024) in
  pcpu ← share_u8 (f64_div (pcpu_used st) (f64_of_Z 100));
  pmem ← share_u8 (f64_div (f64_of_Z (mem_used st)) (f64_of_Z mem_mb));
  let m := mk_sys_msg mem_mb pcpu pmem (u16 (procs_started st)) (u16 (procs_exitted st)) (pid_count st) in
  let st' := mk_sys (sent_sbp st + 1) (procs_started st) (procs_exitted st) (service st) (pcpu_used st)
               (mem_used st) (mem_total st) (pid_count st) in
  Ret (if (sent_sbp st =? 0)%Z then Some m else None, st').

(** The buffer function of [init]: it adds the lines of a piece. *)
Definition count_fn (line_count : Z) (output : text) (offset length : nat) : outcome (Z * text * Z) :=
  output ← store output (offset + length) NUL;
  Ret ((line_count + Z.of_nat (count_sz_lines (c_str (drop offset output))))%Z, output, Z.of_nat length).

Definition sys_init (meminfo : option text) (ch : child) : outcome (option prep_state_t) :=
  total ← fetch_mem_total meminfo;
  '(rc, n, _) ← run_command count_fn ch (replicate PS_BUFFER NUL) (PS_BUFFER - 1) 0%Z;
  Ret (if negb (rc =? 0)%Z then None
       else Some (mk_sys 0 0 0 true f64_zero 0 total (u16 n))).

Definition sys_teardown (st : prep_state_t) : prep_state_t :=
  mk_sys (sent_sbp st) (procs_started st) (procs_exitted st) false (pcpu_used st) (mem_used st)
    (mem_total st) (pid_count st).
End usage.

(** ** Counting lines of pieces *)

Definition newlines (t : list ascii) : nat := length (filter (fun c => c = newline_char) t).

(** 1 if the text ends in the middle of a line. *)
Definition open_end (t : text) : nat :=
  match last t with Some c => if bool_decide (c = newline_char) then 0 else 1 | None => 0 end.

Lemma newlines_cons c (t : list ascii) : newlines (c :: t) = (if bool_decide (c = newline_char) then 1 else 0) + newlines t.
Proof. unfold newlines. rewrite filter_cons. case_bool_decide; by repeat case_decide. Qed.

Lemma newlines_app (a b : list ascii) : newlines (a ++ b) = newlines a + newlines b.
Proof. unfold newlines. by rewrite filter_app, length_app. Qed.

Lemma count_sz_loop_spec t n : t <> [] -> count_sz_loop t n false = n + newlines t + open_end t.
Proof.
  revert n. induction t as [|c t IH]; intros n Hne; [done|]. cbn [count_sz_loop]. rewrite newlines_cons.
  destruct t as [|c' t].
  - unfold open_end. cbn [last]. case_bool_decide; cbn [count_sz_loop]; unfold newlines; rewrite filter_nil;
      cbn [length]; [rewrite bool_decide_eq_true_2 by done|]; lia.
  - change (open_end (c :: c' :: t)) with (open_end (c' :: t)).
    rewrite (bool_decide_eq_false_2 (c' :: t = [])) by done. case_bool_decide; rewrite IH by done; lia.
Qed.

Lemma count_sz_lines_spec t : count_sz_lines t = newlines t + open_end t.
Proof. destruct t as [|c t]; [done|]. by apply count_sz_loop_spec. Qed.

(** A line that the pieces cut in two is counted twice. *)
Lemma count_pieces ps n output k :
  Forall (piece_ok n) ps -> n < length output ->
  exists output', ResLines.read_loop count_fn n ps k output =
    Ret ((k + Z.of_nat (newlines (concat ps)) + Z.of_nat (list_sum (open_end <$> ps)))%Z, output').
Proof.
  intros Hp. revert k output. induction Hp as [|p ps (Hne & Hlen & Hnul) _ IH]; intros k output Hn.
  { exists output. cbn. by rewrite !Z.add_0_r. }
  cbn [ResLines.read_loop]. destruct (length p =? 0) eqn:E0; bool_hyps; [by destruct p|].
  destruct (n <? length p) eqn:E1; bool_hyps; [lia|].
  rewrite memcpy_ok, bind_Ret, take_0, app_nil_l, Nat.add_0_l by lia.
  destruct (drop (length p) output) as [|c rest] eqn:Ed.
  { apply (f_equal length) in Ed. rewrite length_drop in Ed. cbn [length] in Ed. lia. }
  assert (length rest < length output - length p) as Hlr.
  { apply (f_equal length) in Ed. rewrite length_drop in Ed. cbn [length] in Ed. lia. }
  assert (consume_loop count_fn (length p) k (p ++ c :: rest) 0 (length p) =
          Ret ((k + Z.of_nat (newlines p + open_end p))%Z, p ++ NUL :: rest)) as ->.
  { assert (exists j, length p = S j) as [j Hj] by (exists (pred (length p)); lia).
    rewrite Hj at 1. cbn [consume_loop]. destruct (length p =? 0) eqn:E2; bool_hyps; [lia|].
    unfold count_fn. rewrite store_ok by (rewrite length_app; cbn [length]; lia). rewrite !bind_Ret.
    rewrite Nat.add_0_l, insert_app_r_alt, Nat.sub_diag by lia. cbn [insert list_insert].
    rewrite drop_0, c_str_app_nul by done. rewrite count_sz_lines_spec.
    destruct (Z.of_nat (length p) <? 0)%Z eqn:Ez; [apply Z.ltb_lt in Ez; lia|].
    by rewrite Nat2Z.id, Nat.ltb_irrefl. }
  rewrite bind_Ret. destruct (IH (k + Z.of_nat (newlines p + open_end p))%Z (p ++ NUL :: rest)) as (out' & ->).
  { rewrite length_app. cbn [length]. apply (f_equal length) in Ed. rewrite length_drop in Ed. cbn [length] in Ed. lia. }
  exists out'. f_equal. f_equal. cbn [concat]. rewrite newlines_app, fmap_cons.
  change (list_sum (open_end p :: ?l)) with (open_end p + list_sum l). lia.
Qed.

Section theorems.
Context `{!Doubles}.

(** The number of processes that the system state module starts with: the lines that [ps]
    printed, and one more for every read that ended in the middle of a line. *)
Theorem sys_init_counts t ch :
  started ch = true -> status ch = 0%Z -> Forall (piece_ok (PS_BUFFER - 1)) (reads ch) ->
  sys_init (Some t) ch =
    (total ← fetch_mem_total (Some t);
     Ret (Some (mk_sys 0 0 0 true f64_zero 0 total
                  (u16 (Z.of_nat (newlines (concat (reads ch)) + list_sum (open_end <$> reads ch))))))).
Proof.
  intros Hs Hst Hp. unfold sys_init. apply bind_ext. intros total _. unfold run_command. rewrite Hs. cbn [negb].
  destruct (count_pieces (reads ch) (PS_BUFFER - 1) (replicate PS_BUFFER NUL) 0 Hp) as (out & ->).
  { rewrite length_replicate. unfold PS_BUFFER. lia. }
  rewrite !bind_Ret, Hst. cbn [Z.eqb negb]. do 4 f_equal. lia.
Qed.

(** ** What does not fit *)

(** The first two fields of a line can be read, the third fits. *)
Definition fields_fine (name_max : nat) (p u tn : text) (v : f64) : Prop :=
  (strtoul_all (string_of p)).1 = true /\ strtod_all (string_of u) = (true, v) /\ short name_max tn = true.

Lemma cpu_fields p u tn v cl fs it :
  fields_fine CPU_THREAD_NAME_MAX p u tn v -> length (thread_name it) = CPU_THREAD_NAME_MAX ->
  length (command_line it) = COMMAND_LINE_MAX ->
  fields_loop (usage_specs FT_F64 "pcpu" CPU_THREAD_NAME_MAX) STATE_DONE (p :: u :: tn :: cl :: fs) STATE_PID
    [O_u16 (i_pid it); O_f64 f64_zero; O_str (thread_name it); O_str (command_line it)] =
  fields_loop (usage_specs FT_F64 "pcpu" CPU_THREAD_NAME_MAX) STATE_DONE fs STATE_DONE
    [O_u16 (u16 (strtoul_all (string_of p)).2); O_f64 v; O_str (pad CPU_THREAD_NAME_MAX tn);
     O_str (take COMMAND_LINE_MAX (cl ++ replicate (COMMAND_LINE_MAX - length cl) NUL))].
Proof.
  intros (Hp & Hu & Ht) Hl1 Hl2.
  destruct (strtoul_all (string_of p)) as [ok w] eqn:Ep. cbn [fst snd] in *. subst ok.
  erewrite fields_step; [|reflexivity|reflexivity|reflexivity|].
  2:{ unfold convert_field. cbn [spec_type]. by rewrite Ep. }
  cbn [spec_next dst insert list_insert].
  erewrite fields_step; [|reflexivity|reflexivity|reflexivity|].
  2:{ unfold convert_field. cbn [spec_type]. by rewrite Hu. }
  cbn [spec_next dst insert list_insert].
  erewrite fields_step; [|reflexivity|reflexivity|reflexivity|apply convert_str; [reflexivity|exact Hl1|exact Ht]].
  cbn [spec_next dst insert list_insert].
  erewrite fields_step; [|reflexivity|reflexivity|reflexivity|].
  2:{ unfold convert_field. cbn [spec_type buflen strncpy_object]. unfold strncpy.
      assert (length (take COMMAND_LINE_MAX (cl ++ replicate (COMMAND_LINE_MAX - length cl) NUL)) = COMMAND_LINE_MAX) as Hl.
      { rewrite length_take, length_app, length_replicate. lia. }
      rewrite memcpy_ok by lia. rewrite take_0, app_nil_l, Nat.add_0_l, drop_ge, app_nil_r by lia.
      rewrite !bind_Ret. reflexivity. }
  reflexivity.
Qed.

(** What [ps] prints is taken on trust.  A line with more than four fields makes the parser
    print the description of a state that the table does not have; a command line of 256
    characters or more is stored without a NUL, and the report measures its length past the end
    of the array. *)
Theorem cpu_line_undefined line p u tn v cl fs it :
  strtok [tab_char] line = p :: u :: tn :: cl :: fs ->
  fields_fine CPU_THREAD_NAME_MAX p u tn v ->
  length (thread_name it) = CPU_THREAD_NAME_MAX -> length (command_line it) = COMMAND_LINE_MAX ->
  (fs <> [] -> parse_ps_cpu_line line it = Undef) /\
  (fs = [] -> no_nul cl -> COMMAND_LINE_MAX <= length cl ->
   forall pcpu, share_u8 (f64_div v (f64_of_Z 100)) = Ret pcpu ->
   exists it', parse_ps_cpu_line line it = Ret (true, it') /\
     forall size tname i, prepare_item size tname i it' = Undef).
Proof.
  intros Hs Hf Hl1 Hl2. unfold parse_ps_cpu_line, parse_usage_line, parse_ps_line, parse_tab_line.
  rewrite Hs, (cpu_fields p u tn v) by done. split.
  - intros Hfs. destruct fs as [|x fs]; [done|]. reflexivity.
  - intros -> Hn Hlen pcpu Hsh. cbn [fields_loop]. change (STATE_DONE =? STATE_DONE) with true. cbv iota.
    rewrite bind_Ret. cbn [negb]. rewrite Hsh, bind_Ret. eexists. split; [reflexivity|]. intros size tname i.
    unfold prepare_item. cbn [command_line]. rewrite take_app_le by lia. unfold buf_str.
    rewrite bool_decide_eq_false_2; [done|]. intros Hin. apply Hn.
    apply elem_of_take in Hin as (j & Hj & _). by eapply list_elem_of_lookup_2.
Qed.

(** A message stays within a payload. *)
Theorem prepare_item_fits size tname i it cmd :
  size <= SBP_PAYLOAD_SIZE_MAX -> i < 256 -> buf_str (command_line it) = Ret cmd ->
  let n := Nat.min (length cmd) (SBP_PAYLOAD_SIZE_MAX - size) in
  prepare_item size tname i it =
    Ret (mk_usage (Z.of_nat i) (i_pid it) (share it) (take tname (c_str (thread_name it))) (take n cmd)
           (Z.of_nat (size + n))) /\ size + n <= SBP_PAYLOAD_SIZE_MAX.
Proof.
  intros Hs Hi Hc n. unfold prepare_item. rewrite Hc, bind_Ret. fold n. unfold SBP_PAYLOAD_SIZE_MAX in *.
  rewrite !u8_small by lia. split; [done|lia].
Qed.
End theorems.

(** ** Witness and examples *)

#[local] Instance small_numbers : Doubles := {|
  f64 := Z; f64_zero := 0; f64_of_Z z := 1000 * z; f64_add := Z.add;
  f64_mul a b := a * b / 1000; f64_div a b := a * 1000 / b;
  f64_to_u8 z := if ((0 <=? z) && (z <? 256000))%Z then Ret (z / 1000) else Undef;
  strtod s := let '(v, rest) := strtoul10 s in (1000 * v, rest);
|}%Z.

Definition ps_line (cmd : text) : text :=
  text_of "12" ++ [tab_char] ++ text_of "3" ++ [tab_char] ++ text_of "sh" ++ [tab_char] ++ cmd.

Lemma cpu_line_undefined_witness :
  let it := blank_item CPU_THREAD_NAME_MAX in
  parse_ps_cpu_line (ps_line (text_of "a" ++ [tab_char] ++ text_of "b")) it = Undef /\
  exists it', parse_ps_cpu_line (ps_line (replicate 256 "x"%char)) it = Ret (true, it') /\
    forall size tname i, prepare_item size tname i it' = Undef.
Proof.
  intros it. split.
  - apply (@cpu_line_undefined small_numbers (ps_line (text_of "a" ++ [tab_char] ++ text_of "b")) (text_of "12") (text_of "3")
             (text_of "sh") 3000%Z (text_of "a") [text_of "b"] it); try reflexivity; [|discriminate].
    split; [reflexivity|]. split; reflexivity.
  - apply (@cpu_line_undefined small_numbers (ps_line (replicate 256 "x"%char)) (text_of "12") (text_of "3")
             (text_of "sh") 3000%Z (replicate 256 "x"%char) [] it) with (pcpu := 7%Z); try reflexivity.
    + split; [reflexivity|]. split; reflexivity.
    + apply (bool_decide_unpack _). vm_compute. exact I.
Defined.

(** The share of the memory in use is taken of the total in megabytes, the use being in
    kilobytes: a system that uses a tenth of its memory is out of range. *)
Example sys_pmem_units :
  sys_prepare (mk_sys 0 0 0 true 0%Z 100000 1000000 50) = Undef.
Proof. reflexivity. Qed.

(** A processor in full use does not fit in the eight bits of its share either. *)
Example cpu_full_share : share_u8 (f64_div (strtod "100").1 (f64_of_Z 100)) = Undef.
Proof. reflexivity. Qed.
