(* ===== verification/Network.v ===== *)
(** * Network transfers ([libnetwork/src/libnetwork.c])

    The library behind the NTRIP, Skylark and OTA clients: a context with its settings, the
    callbacks that libcurl calls while it transfers, and the loop that reconnects.  libcurl is
    outside the sources: a connection is the list of callbacks it makes, with what the system
    calls inside each answer, and the code it returns if none of them ends it; what it does with
    the result of a callback is its documented behaviour.  Times are seconds, without a bound.

    The theorems: what reaches the descriptor is, connection by connection, a prefix of what the
    server sent, within the limit of bytes, and all of it when the request succeeds; what a short
    or failing write does; when a connection is given up; which GGA sentences are sent and how
    often; what the control FIFOs do to the descriptor 0. *)

From Stdlib Require Import Ascii.
From S2P Require Import Prelude Libc Text.

(** ** The context *)

Inductive network_type_t :=
  | NETWORK_TYPE_INVALID | NETWORK_TYPE_NTRIP_DOWNLOAD | NETWORK_TYPE_SKYLARK_UPLOAD
  | NETWORK_TYPE_SKYLARK_DOWNLOAD | NETWORK_TYPE_OTA | NETWORK_TYPE_ALL.
#[export] Instance network_type_eq_dec : EqDecision network_type_t.
Proof. solve_decision. Defined.

Inductive network_status_t :=
  | NETWORK_STATUS_INVALID_SETTING | NETWORK_STATUS_URL_TOO_LARGE | NETWORK_STATUS_USERNAME_TOO_LARGE
  | NETWORK_STATUS_PASSWORD_TOO_LARGE | NETWORK_STATUS_FIFO_ERROR | NETWORK_STATUS_WRITE_ERROR
  | NETWORK_STATUS_READ_ERROR | NETWORK_STATUS_SUCCESS.
#[export] Instance network_status_eq_dec : EqDecision network_status_t.
Proof. solve_decision. Defined.

Definition LIBNETWORK_USERNAME_MAX_LENGTH : nat := 512.
Definition LIBNETWORK_PASSWORD_MAX_LENGTH : nat := 512.
Definition LIBNETWORK_URL_MAX_LENGTH : nat := Z.to_nat 4096.
Definition MAX_STALL_TIME_S : Z := 10.
Definition ERROR_REPORTING_INTERVAL : Z := 10.
Definition NTRIP_INIT_RETRY_COUNT_MAX : nat := Z.to_nat (200000 / 200).

Record fifo_info_t := mk_fifo {
  configured : bool; req_fd : Z; rep_fd : Z; req_read_fd : Z; rep_write_fd : Z;
  req_path : text; rep_path : text;
}.

(** The counters that a reconnection resets. *)
Record counters_t := mk_counters {
  bytes_transfered : Z; byte_move_time : Z; cur_bytes : Z; last_xfer_time : Z;
}.

(** The cache of the last GGA sentence: [gga_xfer_buflen] is the length of the buffer. *)
Record gga_t := mk_gga { gga_xfer_buffer : option text; gga_xfer_fill : nat; gga_error_count : Z }.

(** What the setters set. *)
Record conf_t := mk_conf {
  type : network_type_t; fd : Z; username : text; password : text; url : text;
  continuous : bool; max_bytes : Z; gga_xfer_secs : Z; gga_rev1 : bool; debug : bool; report_errors : bool;
}.

(** [network_context_s], its fields grouped.  [response_code_check] and [refresh_headers_fn] say
    whether the pointer is set: only one function is ever stored in each. *)
Record network_context_t := mk_ctx {
  conf : conf_t; counters : counters_t; gga : gga_t;
  shutdown_signaled : bool; cycle_connection_signaled : bool;
  response_code : Z; response_code_check : bool; last_curl_error_time : Z;
  control_fifo_info : fifo_info_t; headers : list text; refresh_headers_fn : bool;
}.

Definition empty_context : network_context_t := mk_ctx
  (mk_conf NETWORK_TYPE_INVALID (-1) (replicate LIBNETWORK_USERNAME_MAX_LENGTH NUL)
     (replicate LIBNETWORK_PASSWORD_MAX_LENGTH NUL) (replicate LIBNETWORK_URL_MAX_LENGTH NUL)
     true SIZE_MAX (-1) false false true)
  (mk_counters 0 0 0 0) (mk_gga None 0 0) false false 0 false 0
  (mk_fifo false (-1) (-1) (-1) (-1) [] []) [] false.

Definition set_conf (c : network_context_t) (x : conf_t) : network_context_t :=
  mk_ctx x (counters c) (gga c) (shutdown_signaled c) (cycle_connection_signaled c) (response_code c)
    (response_code_check c) (last_curl_error_time c) (control_fifo_info c) (headers c) (refresh_headers_fn c).
Definition set_counters (c : network_context_t) (x : counters_t) : network_context_t :=
  mk_ctx (conf c) x (gga c) (shutdown_signaled c) (cycle_connection_signaled c) (response_code c)
    (response_code_check c) (last_curl_error_time c) (control_fifo_info c) (headers c) (refresh_headers_fn c).
Definition set_gga (c : network_context_t) (x : gga_t) : network_context_t :=
  mk_ctx (conf c) (counters c) x (shutdown_signaled c) (cycle_connection_signaled c) (response_code c)
    (response_code_check c) (last_curl_error_time c) (control_fifo_info c) (headers c) (refresh_headers_fn c).
Definition set_signals (c : network_context_t) (shutdown cycle : bool) : network_context_t :=
  mk_ctx (conf c) (counters c) (gga c) shutdown cycle (response_code c)
    (response_code_check c) (last_curl_error_time c) (control_fifo_info c) (headers c) (refresh_headers_fn c).
Definition set_response (c : network_context_t) (code : Z) : network_context_t :=
  mk_ctx (conf c) (counters c) (gga c) (shutdown_signaled c) (cycle_connection_signaled c) code
    (response_code_check c) (last_curl_error_time c) (control_fifo_info c) (headers c) (refresh_headers_fn c).
Definition set_error_time (c : network_context_t) (t : Z) : network_context_t :=
  mk_ctx (conf c) (counters c) (gga c) (shutdown_signaled c) (cycle_connection_signaled c) (response_code c)
    (response_code_check c) t (control_fifo_info c) (headers c) (refresh_headers_fn c).
Definition set_fifo (c : network_context_t) (x : fifo_info_t) : network_context_t :=
  mk_ctx (conf c) (counters c) (gga c) (shutdown_signaled c) (cycle_connection_signaled c) (response_code c)
    (response_code_check c) (last_curl_error_time c) x (headers c) (refresh_headers_fn c).
Definition set_headers (c : network_context_t) (hs : list text) : network_context_t :=
  mk_ctx (conf c) (counters c) (gga c) (shutdown_signaled c) (cycle_connection_signaled c) (response_code c)
    (response_code_check c) (last_curl_error_time c) (control_fifo_info c) hs (refresh_headers_fn c).
Definition set_hooks (c : network_context_t) (check refresh : bool) : network_context_t :=
  mk_ctx (conf c) (counters c) (gga c) (shutdown_signaled c) (cycle_connection_signaled c) (response_code c)
    check (last_curl_error_time c) (control_fifo_info c) (headers c) refresh.

(** *** The list of contexts *)

Definition libnetwork_create (t : network_type_t) (l : list network_context_t) : list network_context_t :=
  let e := conf empty_context in
  set_conf empty_context
    (mk_conf t (fd e) (username e) (password e) (url e) (continuous e) (max_bytes e) (gga_xfer_secs e)
       (gga_rev1 e) (debug e) (report_errors e)) :: l.

Definition libnetwork_shutdown (t : network_type_t) (c : network_context_t) : network_context_t :=
  if bool_decide (t = NETWORK_TYPE_ALL) || bool_decide (t = type (conf c))
  then set_signals c true (cycle_connection_signaled c) else c.

Definition libnetwork_cycle_connection (c : network_context_t) : network_context_t :=
  set_signals c (shutdown_signaled c) true.

(** The descriptors that destroying a context closes. *)
Definition libnetwork_destroy (c : network_context_t) : list Z :=
  let f := control_fifo_info c in
  filter (fun d => (0 <= d)%Z) [req_fd f; req_read_fd f; rep_fd f; rep_write_fd f].

(** *** Setters *)

Definition libnetwork_report_errors (yesno : bool) (c : network_context_t) : network_context_t :=
  let x := conf c in
  set_conf c (mk_conf (type x) (fd x) (username x) (password x) (url x) (continuous x) (max_bytes x)
    (gga_xfer_secs x) (gga_rev1 x) (debug x) yesno).
Definition libnetwork_set_fd (d : Z) (c : network_context_t) : network_context_t :=
  let x := conf c in
  set_conf c (mk_conf (type x) d (username x) (password x) (url x) (continuous x) (max_bytes x)
    (gga_xfer_secs x) (gga_rev1 x) (debug x) (report_errors x)).
Definition libnetwork_set_debug (b : bool) (c : network_context_t) : network_context_t :=
  let x := conf c in
  set_conf c (mk_conf (type x) (fd x) (username x) (password x) (url x) (continuous x) (max_bytes x)
    (gga_xfer_secs x) (gga_rev1 x) b (report_errors x)).
Definition libnetwork_set_gga_upload_rev1 (b : bool) (c : network_context_t) : network_context_t :=
  let x := conf c in
  set_conf c (mk_conf (type x) (fd x) (username x) (password x) (url x) (continuous x) (max_bytes x)
    (gga_xfer_secs x) b (debug x) (report_errors x)).
Definition libnetwork_set_continuous (b : bool) (c : network_context_t) : network_context_t :=
  let x := conf c in
  set_conf c (mk_conf (type x) (fd x) (username x) (password x) (url x) b (max_bytes x)
    (gga_xfer_secs x) (gga_rev1 x) (debug x) (report_errors x)).
Definition libnetwork_set_max_bytes (max : Z) (c : network_context_t) : outcome network_context_t :=
  if negb (max <? SIZE_MAX)%Z then Undef
  else
    let x := conf c in
    Ret (set_conf c (mk_conf (type x) (fd x) (username x) (password x) (url x) (continuous x) max
      (gga_xfer_secs x) (gga_rev1 x) (debug x) (report_errors x))).
Definition libnetwork_set_gga_upload_interval (gga_interval : Z) (c : network_context_t) :
    network_status_t * network_context_t :=
  let x := conf c in
  if negb (bool_decide (type x = NETWORK_TYPE_NTRIP_DOWNLOAD)) then (NETWORK_STATUS_INVALID_SETTING, c)
  else (NETWORK_STATUS_SUCCESS,
        set_conf c (mk_conf (type x) (fd x) (username x) (password x) (url x) (continuous x) (max_bytes x)
          gga_interval (gga_rev1 x) (debug x) (report_errors x))).

(** The three string setters: the length test and the copy.  All report the status for a URL. *)
Definition copy_setting (dst : text) (max : nat) (s : text) : outcome (network_status_t * text) :=
  if max <? length s + 1 then Ret (NETWORK_STATUS_URL_TOO_LARGE, dst)
  else d ← strncpy dst s (max - 1); Ret (NETWORK_STATUS_SUCCESS, d).
Definition libnetwork_set_username (s : text) (c : network_context_t) :
    outcome (network_status_t * network_context_t) :=
  let x := conf c in
  '(st, d) ← copy_setting (username x) LIBNETWORK_USERNAME_MAX_LENGTH s;
  Ret (st, set_conf c (mk_conf (type x) (fd x) d (password x) (url x) (continuous x) (max_bytes x)
    (gga_xfer_secs x) (gga_rev1 x) (debug x) (report_errors x))).
Definition libnetwork_set_password (s : text) (c : network_context_t) :
    outcome (network_status_t * network_context_t) :=
  let x := conf c in
  '(st, d) ← copy_setting (password x) LIBNETWORK_PASSWORD_MAX_LENGTH s;
  Ret (st, set_conf c (mk_conf (type x) (fd x) (username x) d (url x) (continuous x) (max_bytes x)
    (gga_xfer_secs x) (gga_rev1 x) (debug x) (report_errors x))).
Definition libnetwork_set_url (s : text) (c : network_context_t) :
    outcome (network_status_t * network_context_t) :=
  let x := conf c in
  '(st, d) ← copy_setting (url x) LIBNETWORK_URL_MAX_LENGTH s;
  Ret (st, set_conf c (mk_conf (type x) (fd x) (username x) (password x) d (continuous x) (max_bytes x)
    (gga_xfer_secs x) (gga_rev1 x) (debug x) (report_errors x))).

(** [mkfifo] returns 0 when it succeeds, and that is stored as a descriptor. *)
Definition libnetwork_configure_control (req_ok rep_ok : bool) (req_name rep_name : text)
    (c : network_context_t) : network_status_t * network_context_t * list Z :=
  if negb req_ok then (NETWORK_STATUS_FIFO_ERROR, c, [])
  else if negb rep_ok then (NETWORK_STATUS_FIFO_ERROR, c, [0%Z])           (* close(req_fd) *)
  else
    let f := control_fifo_info c in
    (NETWORK_STATUS_SUCCESS,
         set_fifo c (mk_fifo true 0 0 (req_read_fd f) (rep_write_fd f)
                       (take (Z.to_nat PATH_MAX) req_name) (take (Z.to_nat PATH_MAX) rep_name)), []).

(** [strtol(s, NULL, 10)] of at most three characters. *)
Definition strtol_short (s : string) : Z :=
  let '(neg, s) := skip_sign (skip_space s) in
  let v := (strtoul10_digits s).1 in if (neg : bool) then (- v)%Z else v.

(** [libnetwork_request_health]: the status, the code read, and the descriptors closed.  [open],
    [write] and [read] answer as given. *)
Definition libnetwork_request_health (req : option Z) (wrote : Z) (rep : option Z) (answer : option text) :
    network_status_t * option Z * list Z :=
  let bye rep_fd req_fd := filter (fun d => (0 <= d)%Z) [rep_fd; req_fd] in
  match req with
  | None => (NETWORK_STATUS_FIFO_ERROR, None, [])
  | Some q =>
      if (wrote <=? 0)%Z then (NETWORK_STATUS_WRITE_ERROR, None, bye (-1)%Z q)
      else
        match rep with
        | None => (NETWORK_STATUS_FIFO_ERROR, None, q :: bye (-1)%Z q)
        | Some p =>
            match answer with
            | None => (NETWORK_STATUS_READ_ERROR, None, q :: bye p q)
            | Some t =>
                (NETWORK_STATUS_SUCCESS, Some (strtol_short (string_of (c_str (take 3 t)))), q :: p :: bye p q)
            end
        end
  end.

(** ** The state of a transfer

    The context, the bytes written to its descriptor, those sent to the server, the GGA lines sent
    with their times, the times of the errors reported over SBP, and the replies on the control
    FIFO. *)
Record net := mk_net {
  ctx : network_context_t; sink : list Z; uploaded : list Z; gga_sent : list (Z * text);
  reports : list Z; replies : list text;
}.

Definition with_ctx (n : net) (c : network_context_t) : net :=
  mk_net c (sink n) (uploaded n) (gga_sent n) (reports n) (replies n).
Definition with_sink (n : net) (b : list Z) : net :=
  mk_net (ctx n) (sink n ++ b) (uploaded n) (gga_sent n) (reports n) (replies n).
Definition with_uploaded (n : net) (b : list Z) : net :=
  mk_net (ctx n) (sink n) (uploaded n ++ b) (gga_sent n) (reports n) (replies n).

(** The line of [ctx->cur_bytes += n], a [size_t] and an [ssize_t]. *)
Definition add_cur_bytes (n : net) (k : Z) : net :=
  let c := counters (ctx n) in
  with_ctx n (set_counters (ctx n)
    (mk_counters (bytes_transfered c) (byte_move_time c) (u32 (cur_bytes c + k)) (last_xfer_time c))).

Definition log_with_rate_limit (now : Z) (n : net) : net :=
  let c := ctx n in
  if ((ERROR_REPORTING_INTERVAL <=? now - last_curl_error_time c)%Z && report_errors (conf c))
  then mk_net (set_error_time c now) (sink n) (uploaded n) (gga_sent n) (reports n ++ [now]) (replies n)
  else n.

(** *** Downloading *)

Definition network_byte_limit (c : network_context_t) (incoming : Z) : bool :=
  if (max_bytes (conf c) =? SIZE_MAX)%Z then false
  else (max_bytes (conf c) <? u32 (cur_bytes (counters c) + incoming))%Z.

(** What a [write] or a [read] answers: [EINTR], another error, or a count of bytes taken. *)
Inductive write_result := W_eintr | W_error | W_count (k : nat).

(** The loop of [network_download_write].  After each call the offset grows by what remains, not
    by what was written; a failed call counts as one byte more that remains.  It returns the
    result of the last call, and goes on for ever when the answers run out. *)
Fixpoint write_loop (ws : list write_result) (buf : list Z) (remaining offset : Z) (n : net) :
    outcome (Z * net) :=
  match ws with
  | [] => Diverge
  | W_eintr :: ws' => write_loop ws' buf remaining offset n
  | W_error :: ws' =>
      let n := add_cur_bytes n (-1) in
      let remaining := u32 (remaining + 1) in
      let offset := u32 (offset + remaining) in
      if (remaining =? 0)%Z then Ret (0%Z, n) else write_loop ws' buf remaining offset n
  | W_count k :: ws' =>
      written ← slice buf (Z.to_nat offset) k;
      let n := add_cur_bytes (with_sink n written) (Z.of_nat k) in
      let remaining := u32 (remaining - Z.of_nat k) in
      let offset := u32 (offset + remaining) in
      if (remaining =? 0)%Z then Ret (Z.of_nat k, n) else write_loop ws' buf remaining offset n
  end.

Definition network_download_write (buf : list Z) (ws : list write_result) (n : net) : outcome (Z * net) :=
  if network_byte_limit (ctx n) (Z.of_nat (length buf)) then Ret (0%Z, n)
  else write_loop ws buf (Z.of_nat (length buf)) 0 n.

(** *** Uploading from the descriptor: what each [read] answers. *)
Inductive read_result := R_eintr | R_error | R_data (d : list Z).

Definition CURL_READFUNC_ABORT : Z := 0x10000000.
Definition CURL_READFUNC_PAUSE : Z := 0x10000001.

Fixpoint read_loop (rs : list read_result) (room : nat) (n : net) : outcome (Z * net) :=
  match rs with
  | [] => Diverge
  | R_eintr :: rs' => read_loop rs' room n
  | R_error :: _ => Ret (CURL_READFUNC_ABORT, add_cur_bytes n (-1))
  | R_data d :: _ =>
      if room <? length d then Undef
      else Ret (Z.of_nat (length d), add_cur_bytes (with_uploaded n d) (Z.of_nat (length d)))
  end.

Definition network_upload_read (room : nat) (rs : list read_result) (n : net) : outcome (Z * net) :=
  if network_byte_limit (ctx n) (Z.of_nat room) then Ret (0%Z, n) else read_loop rs room n.

(** *** GGA sentences *)

(** The file with the sentence: missing, or what [fread] finds in it and whether it then fails. *)
Inductive gga_file := G_missing | G_read (data : text) (failed : bool).

Definition crlf : text := [ascii_of_nat 13; ascii_of_nat 10].

(** [trim_crlf]: the buffer and the length of its string. *)
Definition trim_crlf (buf : text) : outcome (text * nat) :=
  s ← buf_str buf;
  match strstr s crlf with
  | None => Ret (buf, length s)
  | Some rest =>
      buf ← store buf (length s - length rest) NUL;
      Ret (buf, length s - length rest)
  end.

(** [junk] fills the memory that [malloc] returns. *)
Definition cache_gga_xfer_buffer (junk : ascii) (g : gga_t) (buf : text) (buflen fill : nat) : outcome gga_t :=
  let cache := match gga_xfer_buffer g with
               | Some b => if length b =? buflen then b else replicate buflen junk
               | None => replicate buflen junk
               end in
  src ← slice buf 0 fill;
  cache ← memcpy cache 0 src;
  Ret (mk_gga (Some cache) fill (gga_error_count g)).

Definition fill_with_gga_xfer_cache (g : gga_t) (buf : text) (buflen : nat) : outcome (nat * text) :=
  match gga_xfer_buffer g with
  | None => Ret (0, buf)
  | Some cache =>
      let fill := if buflen <? gga_xfer_fill g then buflen else gga_xfer_fill g in
      src ← slice cache 0 fill;
      buf ← memcpy buf 0 src;
      Ret (fill, buf)
  end.

Definition fetch_gga_buffer (junk : ascii) (f : gga_file) (g : gga_t) (buf : text) (buf_size : nat) :
    outcome (nat * text * gga_t) :=
  match f with
  | G_missing => '(k, buf) ← fill_with_gga_xfer_cache g buf buf_size; Ret (k, buf, g)
  | G_read data failed =>
      let got := take (buf_size - 1) data in
      buf ← memcpy buf 0 got;
      if (length got =? 0) || failed then
        let g := mk_gga (gga_xfer_buffer g) (gga_xfer_fill g) (gga_error_count g + 1) in
        '(k, buf) ← fill_with_gga_xfer_cache g buf buf_size; Ret (k, buf, g)
      else
        buf ← store buf (length got) NUL;
        '(buf, gga_str_len) ← trim_crlf buf;
        let g := mk_gga (gga_xfer_buffer g) (gga_xfer_fill g) 0 in
        g ← cache_gga_xfer_buffer junk g buf buf_size gga_str_len;
        Ret (gga_str_len, buf, g)
  end.

Definition gga_line (rev1 : bool) (s : text) : text :=
  (if rev1 then s else text_of "Ntrip-GGA: " ++ s) ++ crlf.

(** The read callback of the NTRIP client; [room] is the size of libcurl's buffer. *)
Definition network_upload_write (junk : ascii) (now : Z) (room : nat) (f : gga_file) (n : net) :
    outcome (Z * net) :=
  let c := ctx n in
  if (now - last_xfer_time (counters c) <? gga_xfer_secs (conf c))%Z then Ret (CURL_READFUNC_PAUSE, n)
  else
    '(byte_count, gga_string, g) ← fetch_gga_buffer junk f (gga c) (replicate 256 NUL) 255;
    let n := with_ctx n (set_gga c g) in
    if byte_count =? 0 then Ret (CURL_READFUNC_PAUSE, n)
    else
      s ← buf_str gga_string;
      let line := gga_line (gga_rev1 (conf c)) s in
      if room <=? length line then Ret (CURL_READFUNC_PAUSE, n)
      else
        let k := counters c in
        let c := set_counters (ctx n)
                   (mk_counters (bytes_transfered k) (byte_move_time k) (cur_bytes k) now) in
        Ret (Z.of_nat (length line),
             mk_net c (sink n) (uploaded n) (gga_sent n ++ [(now, line)]) (reports n) (replies n)).

(** *** The control FIFO *)

(** What the calls of [service_control_fifo] answer: the response code libcurl knows, [open] of
    the request FIFO, the command read, [open] of the reply FIFO, and whether [write] works. *)
Record fifo_calls := mk_fifo_calls {
  fc_code : Z; fc_req : option Z; fc_cmd : option ascii; fc_rep : option Z; fc_write : bool;
}.

(** The first three characters of ["%03ld"]. *)
Definition status_text (code : Z) : text :=
  let d := text_of (print_u code) in take 3 (replicate (3 - length d) "0"%char ++ d).

Definition service_control_fifo (fc : fifo_calls) (n : net) : net :=
  let c := ctx n in
  let f := control_fifo_info c in
  if negb (configured f) then n
  else
    let code := if (fc_code fc =? 0)%Z && negb (response_code c =? 0)%Z then response_code c else fc_code fc in
    match (if (req_read_fd f <? 0)%Z then fc_req fc else Some (req_read_fd f)) with
    | None => n
    | Some rd =>
        let f := mk_fifo (configured f) (req_fd f) (rep_fd f) rd (rep_write_fd f) (req_path f) (rep_path f) in
        let n := with_ctx n (set_fifo c f) in
        match fc_cmd fc with
        | None => n
        | Some _ =>
            match (if (rep_write_fd f <? 0)%Z then fc_rep fc else Some (rep_write_fd f)) with
            | None => n
            | Some wr =>
                let f := mk_fifo (configured f) (req_fd f) (rep_fd f) rd wr (req_path f) (rep_path f) in
                mk_net (set_fifo c f) (sink n) (uploaded n) (gga_sent n) (reports n)
                  (if fc_write fc then replies n ++ [status_text code] else replies n)
            end
        end
    end.

(** *** Progress *)

(** [network_progress_check]; the download and upload callbacks pass their own count. *)
Definition network_progress_check (now : Z) (fc : fifo_calls) (bytes : Z) (n : net) : Z * net :=
  let n := service_control_fifo fc n in
  let c := ctx n in
  let k := counters c in
  if shutdown_signaled c then ((-1)%Z, n)
  else if cycle_connection_signaled c then
    let n := log_with_rate_limit now n in
    ((-1)%Z, with_ctx n (set_signals (ctx n) (shutdown_signaled (ctx n)) false))
  else if (bytes_transfered k =? bytes)%Z then
    if (MAX_STALL_TIME_S <=? now - byte_move_time k)%Z
    then ((-1)%Z, log_with_rate_limit now n) else (0%Z, n)
  else (0%Z, with_ctx n (set_counters c (mk_counters bytes now (cur_bytes k) (last_xfer_time k)))).
Definition network_download_progress (now : Z) (fc : fifo_calls) (dlnow ulnow : Z) (n : net) : Z * net :=
  network_progress_check now fc dlnow n.
Definition network_upload_progress (now : Z) (fc : fifo_calls) (dlnow ulnow : Z) (n : net) : Z * net :=
  network_progress_check now fc ulnow n.

(** ** Requests *)

Inductive CURLcode := CURLE_OK | CURLE_WRITE_ERROR | CURLE_ABORTED_BY_CALLBACK | CURLE_OTHER.
#[export] Instance CURLcode_eq_dec : EqDecision CURLcode.
Proof. solve_decision. Defined.

(** What happens while libcurl performs a transfer: it delivers data, asks for data to upload,
    asks for a GGA sentence, or reports progress; signals set the flags of the context. *)
Inductive curl_event :=
  | Ev_data (data : list Z) (ws : list write_result)
  | Ev_upload (room : nat) (rs : list read_result)
  | Ev_gga (now : Z) (room : nat) (f : gga_file)
  | Ev_download_progress (now : Z) (fc : fifo_calls) (dlnow ulnow : Z)
  | Ev_upload_progress (now : Z) (fc : fifo_calls) (dlnow ulnow : Z)
  | Ev_shutdown (t : network_type_t)
  | Ev_cycle.

#[export] Instance write_result_eq_dec : EqDecision write_result.
Proof. solve_decision. Defined.
#[export] Instance read_result_eq_dec : EqDecision read_result.
Proof. solve_decision. Defined.
#[export] Instance gga_file_eq_dec : EqDecision gga_file.
Proof. solve_decision. Defined.
#[export] Instance fifo_calls_eq_dec : EqDecision fifo_calls.
Proof. solve_decision. Defined.
#[export] Instance curl_event_eq_dec : EqDecision curl_event.
Proof. solve_decision. Defined.

Section transfers.
Variable junk : ascii.

(** One event.  [Some code] ends the transfer: a write callback that does not return the number
    of bytes it was given, a progress callback that does not return 0, a read callback that
    returns [CURL_READFUNC_ABORT]. *)
Definition callback (ev : curl_event) (n : net) : outcome (option CURLcode * net) :=
  match ev with
  | Ev_data data ws =>
      '(r, n) ← network_download_write data ws n;
      Ret (if (r =? Z.of_nat (length data))%Z then None else Some CURLE_WRITE_ERROR, n)
  | Ev_upload room rs =>
      '(r, n) ← network_upload_read room rs n;
      Ret (if (r =? CURL_READFUNC_ABORT)%Z then Some CURLE_ABORTED_BY_CALLBACK else None, n)
  | Ev_gga now room f =>
      '(_, n) ← network_upload_write junk now room f n; Ret (None, n)
  | Ev_download_progress now fc dlnow ulnow =>
      let '(r, n) := network_download_progress now fc dlnow ulnow n in
      Ret (if (r =? 0)%Z then None else Some CURLE_ABORTED_BY_CALLBACK, n)
  | Ev_upload_progress now fc dlnow ulnow =>
      let '(r, n) := network_upload_progress now fc dlnow ulnow n in
      Ret (if (r =? 0)%Z then None else Some CURLE_ABORTED_BY_CALLBACK, n)
  | Ev_shutdown t => Ret (None, with_ctx n (libnetwork_shutdown t (ctx n)))
  | Ev_cycle => Ret (None, with_ctx n (libnetwork_cycle_connection (ctx n)))
  end.

(** [curl_easy_perform]: the events in order until a callback ends the transfer; otherwise it
    ends with [code]. *)
Fixpoint curl_easy_perform (evs : list curl_event) (code : CURLcode) (n : net) : outcome (CURLcode * net) :=
  match evs with
  | [] => Ret (code, n)
  | ev :: evs' =>
      '(stop, n) ← callback ev n;
      match stop with Some code => Ret (code, n) | None => curl_easy_perform evs' code n end
  end.

(** A connection: its events, its end, the HTTP response, the time after it, and the file with
    the sentence that the headers of the next one are built from. *)
Record connection := mk_connection {
  cn_events : list curl_event; cn_end : CURLcode; cn_response : Z; cn_now : Z; cn_file : gga_file;
}.

Definition HTTP_RESPONSE_CODE_OK : Z := 200.

Definition network_reset_counters (now : Z) (c : network_context_t) : network_context_t :=
  set_counters c (mk_counters 0 now 0 now).

(** The number of times [ntrip_init_headers] sleeps, if the time is known after [known] sleeps. *)
Fixpoint gps_wait (known retries : nat) : nat :=
  match retries with
  | O => 0
  | S r => match known with O => 0 | S k => S (gps_wait k r) end
  end.

(** [ntrip_init_headers]: the headers, built anew; a failing assertion is [Undef]. *)
Definition ntrip_init_headers (f : gga_file) (c : network_context_t) : outcome network_context_t :=
  let hs := [text_of "Ntrip-Version: Ntrip/2.0"; text_of "Expect:"] in
  '(gga_len, gga_string, g) ← fetch_gga_buffer junk f (gga c) (replicate 128 NUL) 127;
  let c := set_gga c g in
  if gga_len =? 0 then Ret (set_headers c hs)
  else
    s ← buf_str gga_string;
    let h := text_of "Ntrip-GGA: " ++ s in
    if negb (length h <? 256) then Undef else Ret (set_headers c (hs ++ [h])).

Definition refresh_headers (f : gga_file) (c : network_context_t) : outcome network_context_t :=
  if refresh_headers_fn c then ntrip_init_headers f c else Ret c.

(** What [network_request] does with a transfer that no callback aborted: it notes the response
    and logs errors, at most every ten seconds over SBP.  [ntrip_response_code_check] is only
    called for a response that is not 200 and then tests for 200: it does nothing. *)
Definition note_response (code : CURLcode) (cn : connection) (n : net) : net :=
  match code with
  | CURLE_OK =>
      let n := with_ctx n (set_response (ctx n) (cn_response cn)) in
      if (cn_response cn =? HTTP_RESPONSE_CODE_OK)%Z then n else log_with_rate_limit (cn_now cn) n
  | _ => log_with_rate_limit (cn_now cn) n
  end.

(** The loop of [network_request]: it goes on when the connections run out. *)
Fixpoint network_request (cns : list connection) (n : net) : outcome (CURLcode * net) :=
  match cns with
  | [] => Diverge
  | cn :: cns' =>
      '(code, n) ← curl_easy_perform (cn_events cn) (cn_end cn) n;
      if shutdown_signaled (ctx n) then Ret (code, n)
      else
        let aborted := bool_decide (code = CURLE_ABORTED_BY_CALLBACK) in
        let n := if aborted then n else note_response code cn n in
        if negb aborted && negb (continuous (conf (ctx n))) then Ret (code, n)
        else
          c ← refresh_headers (cn_file cn) (network_reset_counters (cn_now cn) (ctx n));
          network_request cns' (with_ctx n c)
  end.

(** [network_setup]; [ok] says whether libcurl could be initialised. *)
Definition network_setup (ok : bool) (now : Z) (c : network_context_t) : bool * network_context_t :=
  let k := counters c in
  (ok, set_counters (set_signals c false (cycle_connection_signaled c))
         (mk_counters 0 now (cur_bytes k) now)).

Definition network_setup_download (now : Z) (n : net) : net :=
  with_ctx n (network_reset_counters now (ctx n)).

(** [network_teardown] frees the headers. *)
Definition network_teardown (n : net) : net := with_ctx n (set_headers (ctx n) []).

(** [f] is the file with the sentence when the first headers are built. *)
Definition ntrip_download (ok : bool) (now : Z) (f : gga_file) (cns : list connection) (n : net) : outcome net :=
  let '(ok, c) := network_setup ok now (ctx n) in
  if negb ok then Ret (with_ctx n c)
  else
    c ← ntrip_init_headers f c;
    let c := if (0 <? gga_xfer_secs (conf c))%Z
             then set_headers c (headers c ++ [text_of "Transfer-Encoding:"])
             else set_hooks c true (refresh_headers_fn c) in
    let c := set_hooks c (response_code_check c) true in
    '(_, n) ← network_request cns (network_setup_download now (with_ctx n c));
    Ret (network_teardown n).

(** The header with the identity of the device, as [snprintf] cuts it. *)
Definition device_header (uuid : text) : text := take 255 (text_of "Device-Uid: " ++ uuid).

Definition skylark_download (uuid : text) (ok : bool) (now : Z) (cns : list connection) (n : net) : outcome net :=
  let '(ok, c) := network_setup ok now (ctx n) in
  if negb ok then Ret (with_ctx n c)
  else
    let c := set_headers c [device_header uuid;
                            text_of "Accept: application/vnd.swiftnav.broker.v1+sbp2"] in
    '(_, n) ← network_request cns (network_setup_download now (with_ctx n c));
    Ret (network_teardown n).

Definition skylark_upload (uuid : text) (ok : bool) (now : Z) (cns : list connection) (n : net) : outcome net :=
  let '(ok, c) := network_setup ok now (ctx n) in
  if negb ok then Ret (with_ctx n c)
  else
    let c := set_headers c [device_header uuid; text_of "Transfer-Encoding: chunked";
                            text_of "Content-Type: application/vnd.swiftnav.broker.v1+sbp2"] in
    '(_, n) ← network_request cns (with_ctx n (network_reset_counters now c));
    Ret (network_teardown n).

(** The identity and the version of the device fit their headers, or the assertion fails. *)
Definition ota_enquire (uuid version : text) (ok : bool) (now : Z) (cns : list connection) (n : net) :
    outcome (bool * net) :=
  let '(ok, c) := network_setup ok now (ctx n) in
  if negb ok then Ret (false, with_ctx n c)
  else
    let uuid_hdr := text_of "Device-Uid: " ++ uuid in
    let fw_hdr := text_of "Current-Version: " ++ version in
    if negb ((length uuid_hdr <? 270) && (length fw_hdr <? 64)) then Undef
    else
      let c := set_headers c (headers c ++ [uuid_hdr; fw_hdr;
                               text_of "Accept: application/vnd.swiftnav.devices.v1+json"]) in
      '(ret, n) ← network_request cns (network_setup_download now (with_ctx n c));
      Ret (bool_decide (ret = CURLE_OK), network_teardown n).

Definition ota_download (ok : bool) (now : Z) (cns : list connection) (n : net) : outcome (bool * net) :=
  let '(ok, c) := network_setup ok now (ctx n) in
  if negb ok then Ret (false, with_ctx n c)
  else
    '(ret, n) ← network_request cns (network_setup_download now (with_ctx n c));
    Ret (bool_decide (ret = CURLE_OK), network_teardown n).
End transfers.

(** ** What a write callback does *)

(** libcurl passes at most this many bytes to a write callback. *)
Definition CURL_MAX_WRITE_SIZE : Z := 16384.

(** A [write] that takes everything, perhaps after some interruptions. *)
Definition full_write (len : nat) (ws : list write_result) : Prop :=
  exists m rest, ws = replicate m W_eintr ++ W_count len :: rest.

Lemma write_loop_eintr m ws buf r o n :
  write_loop (replicate m W_eintr ++ ws) buf r o n = write_loop ws buf r o n.
Proof. induction m; simpl; auto. Qed.

Lemma write_loop_full ws buf n :
  full_write (length buf) ws ->
  write_loop ws buf (Z.of_nat (length buf)) 0 n =
  Ret (Z.of_nat (length buf), add_cur_bytes (with_sink n buf) (Z.of_nat (length buf))).
Proof.
  intros (m & rest & ->). rewrite write_loop_eintr. cbn [write_loop].
  change (Z.to_nat 0) with 0. rewrite slice_ok by lia. rewrite bind_Ret, drop_0, take_ge by lia.
  by rewrite Z.sub_diag.
Qed.

Lemma network_download_write_full buf ws n :
  full_write (length buf) ws -> network_byte_limit (ctx n) (Z.of_nat (length buf)) = false ->
  network_download_write buf ws n =
  Ret (Z.of_nat (length buf), add_cur_bytes (with_sink n buf) (Z.of_nat (length buf))).
Proof. intros Hw Hl. unfold network_download_write. rewrite Hl. by apply write_loop_full. Qed.

Lemma write_loop_errors m buf r o n :
  (0 < r)%Z -> (r + Z.of_nat m < 2 ^ 32)%Z -> write_loop (replicate m W_error) buf r o n = Diverge.
Proof.
  revert r o n. induction m as [|m IH]; intros r o n Hr Hm; [done|].
  cbn [replicate write_loop]. rewrite (u32_small (r + 1)) by lia.
  destruct (Z.eqb_spec (r + 1) 0) as [E|E]; [lia|]. apply IH; lia.
Qed.

Lemma network_byte_limit_sink n b k : network_byte_limit (ctx (with_sink n b)) k = network_byte_limit (ctx n) k.
Proof. done. Qed.

(** A write that does not take everything.  If the descriptor takes [k] of the bytes and then
    the rest, the second call begins at the number of bytes that remain instead of after those
    written: with less than half written it reads past the data, otherwise the wrong bytes follow;
    and the callback returns the second count only, so that libcurl gives the transfer up.  After
    an error any further write is past the data, and while errors go on (a full disk, a closed
    pipe) the callback never returns. *)
Theorem download_write_failures data n :
  data <> [] -> (Z.of_nat (length data) <= CURL_MAX_WRITE_SIZE)%Z ->
  network_byte_limit (ctx n) (Z.of_nat (length data)) = false ->
  (forall k ws, 0 < k < length data ->
     let rest := length data - k in
     let r := network_download_write data (W_count k :: W_count rest :: ws) n in
     if length data <? 2 * rest then r = Undef
     else exists n', r = Ret (Z.of_nat rest, n') /\ (rest < length data)%nat /\
            sink n' = sink n ++ take k data ++ take rest (drop rest data)) /\
  (forall k ws, network_download_write data (W_error :: W_count k :: ws) n = Undef) /\
  (forall m, (Z.of_nat m < 2 ^ 31)%Z -> network_download_write data (replicate m W_error) n = Diverge).
Proof.
  intros Hne Hlen Hlim. unfold CURL_MAX_WRITE_SIZE in Hlen. unfold network_download_write. rewrite Hlim.
  assert (0 < length data) as Hpos by (destruct data; [done|simpl; lia]).
  split; [|split].
  - intros k ws Hk. cbn zeta. remember (length data - k) as rest eqn:Er. cbn [write_loop]. change (Z.to_nat 0) with 0. rewrite (slice_ok data 0 k) by lia.
    rewrite bind_Ret, drop_0, Z.add_0_l.
    assert (u32 (Z.of_nat (length data) - Z.of_nat k) = Z.of_nat rest) as -> by (rewrite u32_small; lia).
    rewrite (u32_small (Z.of_nat rest)) by lia. destruct (Z.eqb_spec (Z.of_nat rest) 0) as [E|_]; [lia|].
    rewrite Nat2Z.id. unfold slice. destruct (length data <? 2 * rest) eqn:E; bool_hyps.
    + destruct (rest + rest <=? length data) eqn:E2; bool_hyps; [lia|done].
    + destruct (rest + rest <=? length data) eqn:E2; bool_hyps; [|lia]. rewrite bind_Ret, Z.sub_diag.
      eexists. split; [reflexivity|]. split; [lia|]. simpl. by rewrite <-app_assoc.
  - intros k ws. cbn [write_loop]. rewrite (u32_small (Z.of_nat (length data) + 1)) by lia.
    destruct (Z.eqb_spec (Z.of_nat (length data) + 1) 0) as [E|_]; [lia|]. rewrite Z.add_0_l, (u32_small (Z.of_nat (length data) + 1)) by lia.
    unfold slice. destruct (_ <=? _) eqn:E; bool_hyps; [lia|done].
  - intros m Hm. apply write_loop_errors; lia.
Qed.

Lemma download_write_failures_witness :
  exists n' : net, network_download_write [1; 2; 3; 4; 5]%Z [W_count 3; W_count 2] (mk_net empty_context [] [] [] [] [])
    = Ret (2%Z, n') /\ sink n' = [1; 2; 3; 3; 4]%Z.
Proof.
  destruct (download_write_failures [1; 2; 3; 4; 5]%Z (mk_net empty_context [] [] [] [] []))
    as [H _]; [done|vm_compute; discriminate|reflexivity|].
  destruct (H 3 [] ltac:(simpl; lia)) as (n' & H1 & _ & H2). exists n'. split; [exact H1|exact H2].
Defined.

(** ** The cached sentence *)

(** What the cache holds, and that it is in order. *)
Definition cached (g : gga_t) : option text := take (gga_xfer_fill g) <$> gga_xfer_buffer g.
Definition gga_ok (g : gga_t) : Prop :=
  match gga_xfer_buffer g with
  | None => True
  | Some b => gga_xfer_fill g <= length b /\ no_nul (take (gga_xfer_fill g) b)
  end.

(** A text up to its first line end. *)
Definition first_line (t : text) : text :=
  match strstr t crlf with None => t | Some rest => take (length t - length rest) t end.

(** The sentence after a look at the file: its first line if something was read, else the old one. *)
Definition seen (room : nat) (f : gga_file) (old : option text) : option text :=
  match f with
  | G_read data false =>
      if length (take room data) =? 0 then old else Some (first_line (c_str (take room data)))
  | _ => old
  end.

(** A read that fails has delivered nothing. *)
Definition clean_read (f : gga_file) : Prop :=
  match f with G_read data true => data = [] | _ => True end.

Lemma first_line_nul t : no_nul t -> no_nul (first_line t).
Proof. intros. unfold first_line. case_match; [by apply no_nul_take|done]. Qed.

Lemma trim_crlf_ok s buf :
  in_buf s buf -> exists buf', trim_crlf buf = Ret (buf', length (first_line s)) /\
                               in_buf (first_line s) buf' /\ length buf' = length buf.
Proof.
  intros Hin. pose proof Hin as (Hs & rest & ->). unfold trim_crlf. rewrite (in_buf_str s) by done.
  rewrite bind_Ret. unfold first_line. destruct (strstr s crlf) as [tail|] eqn:E.
  - apply strstr_suffix in E as [pre ->]. rewrite length_app. replace (_ + _ - _) with (length pre) by lia.
    rewrite take_app_length. rewrite store_ok by (rewrite !length_app; simpl; lia). rewrite bind_Ret.
    eexists. split; [done|]. rewrite <-!app_assoc. split; [|by rewrite length_insert].
    split; [intros H; apply Hs; set_solver|].
    rewrite insert_app_r_alt, Nat.sub_diag by lia.
    destruct (tail ++ NUL :: rest) as [|c t] eqn:Et; [by destruct tail|]. by exists t.
  - eexists. split; [done|]. split; [done|done].
Qed.

Lemma fill_with_ok g buf bs :
  gga_ok g -> bs <= length buf ->
  let c := take bs (default [] (cached g)) in
  fill_with_gga_xfer_cache g buf bs = Ret (length c, c ++ drop (length c) buf).
Proof.
  intros Hg Hb. unfold gga_ok in Hg. unfold fill_with_gga_xfer_cache, cached.
  destruct (gga_xfer_buffer g) as [b|]; simpl.
  - destruct Hg as [Hf _].
    assert ((if bs <? gga_xfer_fill g then bs else gga_xfer_fill g) = Nat.min bs (gga_xfer_fill g)) as ->.
    { destruct (_ <? _) eqn:E; bool_hyps; lia. }
    rewrite slice_ok by lia. rewrite bind_Ret, drop_0.
    rewrite take_take. rewrite memcpy_ok by (rewrite length_take; lia).
    rewrite bind_Ret, take_0, app_nil_l, Nat.add_0_l, !length_take.
    rewrite (Nat.min_l _ (length b)) by lia. done.
  - by rewrite take_nil.
Qed.

Lemma first_line_length t : length (first_line t) <= length t.
Proof. unfold first_line. case_match; [rewrite length_take; lia|done]. Qed.

Lemma cached_nul g : gga_ok g -> no_nul (default [] (cached g)).
Proof. unfold gga_ok, cached. destruct (gga_xfer_buffer g); simpl; [by intros [_ H]|intros _; by apply not_elem_of_nil]. Qed.

(** [n] bytes at the front of a cleared buffer. *)
Lemma front_in_buf c n : no_nul c -> length c < n -> in_buf c (c ++ drop (length c) (replicate n NUL)).
Proof.
  intros Hc Hl. split; [done|]. rewrite drop_replicate. destruct (n - length c) as [|m] eqn:E; [lia|].
  by exists (replicate m NUL).
Qed.

Lemma fill_cleared g bs :
  gga_ok g ->
  let c := take bs (default [] (cached g)) in
  exists buf, fill_with_gga_xfer_cache g (replicate (S bs) NUL) bs = Ret (length c, buf) /\
              in_buf c buf /\ length buf = S bs.
Proof.
  intros Hg c. rewrite fill_with_ok by (done || rewrite length_replicate; lia). fold c.
  assert (length c <= bs) by (unfold c; rewrite length_take; lia).
  eexists. split; [done|]. split; [apply front_in_buf; [by apply no_nul_take, cached_nul|lia]|].
  rewrite length_app, drop_replicate, length_replicate. lia.
Qed.

Lemma cache_ok junk g buf bs s :
  in_buf s buf -> length s <= bs ->
  exists g', cache_gga_xfer_buffer junk g buf bs (length s) = Ret g' /\ gga_ok g' /\ cached g' = Some s.
Proof.
  intros (Hs & rest & ->) Hl. unfold cache_gga_xfer_buffer.
  cbn zeta. set (cache := match gga_xfer_buffer g with Some b => if length b =? bs then b else replicate bs junk
                          | None => replicate bs junk end).
  assert (length cache = bs) as Hc.
  { unfold cache. destruct (gga_xfer_buffer g) as [b|]; [destruct (length b =? bs) eqn:E; bool_hyps|];
      rewrite ?length_replicate; done. }
  rewrite slice_ok by (rewrite length_app; lia). rewrite bind_Ret, drop_0, take_app_length.
  rewrite memcpy_ok by lia. rewrite bind_Ret, take_0, app_nil_l. eexists. split; [done|].
  unfold gga_ok, cached. simpl. rewrite take_app_length, length_app. split; [split; [lia|done]|done].
Qed.

Lemma fetch_ok junk f g bs :
  gga_ok g -> 1 <= bs ->
  exists k buf g', fetch_gga_buffer junk f g (replicate (S bs) NUL) bs = Ret (k, buf, g') /\
    gga_ok g' /\ NUL ∈ buf /\ length buf = S bs /\
    (clean_read f -> cached g' = seen (bs - 1) f (cached g) /\
       let c := take bs (default [] (cached g')) in k = length c /\ in_buf c buf).
Proof.
  intros Hg Hbs.
  assert (forall s buf, in_buf s buf -> NUL ∈ buf) as Hnul by (intros s buf (_ & r & ->); set_solver).
  destruct f as [|data failed]; unfold fetch_gga_buffer.
  - destruct (fill_cleared g bs Hg) as (buf & -> & Hin & Hl). rewrite bind_Ret.
    eexists _, _, g. split; [done|]. split; [done|]. split; [by eapply Hnul|]. split; [done|].
    intros _. split; [done|]. split; [done|done].
  - set (got := take (bs - 1) data). assert (length got <= bs - 1) as Hgot by (unfold got; rewrite length_take; lia).
    rewrite memcpy_ok by (rewrite length_replicate; lia).
    rewrite bind_Ret, take_0, app_nil_l, Nat.add_0_l. set (buf1 := got ++ _).
    assert (buf1 = got ++ NUL :: replicate (bs - length got) NUL) as Hb1.
    { unfold buf1. rewrite drop_replicate. by replace (S bs - length got) with (S (bs - length got)) by lia. }
    assert (length buf1 = S bs) as Hlb by (rewrite Hb1, length_app; simpl; rewrite length_replicate; lia).
    destruct ((length got =? 0) || failed) eqn:E.
    + set (g' := mk_gga _ _ _). assert (gga_ok g') as Hg' by done. assert (cached g' = cached g) as Hcg by done.
      rewrite fill_with_ok by (done || lia). rewrite bind_Ret, Hcg. set (c := take bs _).
      assert (length c <= bs) as Hlc by (unfold c; rewrite length_take; lia).
      eexists _, _, g'. split; [done|]. split; [done|].
      assert (NUL ∈ drop (length c) buf1) as Hn.
      { apply (list_elem_of_lookup_2 _ (bs - length c)). rewrite lookup_drop, Hb1, lookup_app_r by lia.
        destruct (length c + (bs - length c) - length got) as [|i] eqn:Ei; [done|]. simpl.
        apply lookup_replicate_2. lia. }
      split; [apply elem_of_app; by right|]. split; [rewrite length_app, length_drop; lia|].
      intros Hcl. simpl in Hcl.
      assert (got = []) as Hgn.
      { destruct failed; [subst data; unfold got; by rewrite take_nil|]. apply nil_length_inv.
        rewrite orb_false_r in E. by bool_hyps. }
      split.
      { unfold seen. destruct failed; [done|]. fold got. by rewrite Hgn. }
      rewrite Hcg. fold c. split; [done|]. unfold buf1. rewrite Hgn. apply front_in_buf; [|lia].
      by apply no_nul_take, cached_nul.
    + apply orb_false_iff in E as [E ->]. bool_hyps.
      rewrite store_ok by lia. rewrite bind_Ret.
      assert (<[length got := NUL]> buf1 = buf1) as ->.
      { apply list_insert_id. rewrite Hb1, lookup_app_r, Nat.sub_diag by lia. done. }
      assert (in_buf (c_str got) buf1) as Hin.
      { pose proof (in_buf_c_str buf1) as H. rewrite Hb1, c_str_app_nul_r in H. rewrite Hb1. apply H. set_solver. }
      destruct (trim_crlf_ok _ _ Hin) as (buf2 & -> & Hin2 & Hl2). rewrite bind_Ret.
      assert (length (first_line (c_str got)) <= bs) as Hfl.
      { pose proof (first_line_length (c_str got)). pose proof (c_str_length got). lia. }
      destruct (cache_ok junk (mk_gga (gga_xfer_buffer g) (gga_xfer_fill g) 0) buf2 bs _ Hin2 Hfl)
        as (g' & -> & Hg' & Hcg). rewrite bind_Ret.
      eexists _, _, g'. split; [done|]. split; [done|]. split; [by eapply Hnul|]. split; [congruence|].
      intros _. rewrite Hcg. split.
      { simpl. fold got. by destruct (length got =? 0) eqn:E0; bool_hyps. }
      simpl. rewrite take_ge by lia. split; [done|done].
Qed.

(** ** Which sentences are sent *)

Definition gga_call : Type := Z * nat * gga_file.

(** Without buffers: the time of the last sentence and the last sentence seen.  A call that comes
    too early does nothing; otherwise the sentence in the file, or the last one seen, is sent if
    there is one and it fits. *)
Definition gga_spec_step (secs : Z) (rev1 : bool) (call : gga_call) (s : Z * option text) :
    (Z * option text) * list (Z * text) :=
  let '(now, room, f) := call in
  let '(last, old) := s in
  if (now - last <? secs)%Z then (s, [])
  else
    let c := seen 254 f old in
    let l := default [] c in
    if (length l =? 0) || (room <=? length (gga_line rev1 l)) then ((last, c), [])
    else ((now, c), [(now, gga_line rev1 l)]).

Fixpoint gga_spec_run (secs : Z) (rev1 : bool) (calls : list gga_call) (s : Z * option text) : list (Z * text) :=
  match calls with
  | [] => []
  | call :: calls' =>
      let '(s, out) := gga_spec_step secs rev1 call s in out ++ gga_spec_run secs rev1 calls' s
  end.

(** Sentences at least [secs] apart, the first that long after [last]. *)
Fixpoint spaced (secs last : Z) (l : list (Z * text)) : Prop :=
  match l with [] => True | (t, _) :: l' => (last + secs <= t)%Z /\ spaced secs t l' end.

Fixpoint uploads (junk : ascii) (calls : list gga_call) (n : net) : outcome net :=
  match calls with
  | [] => Ret n
  | (now, room, f) :: calls' => '(_, n) ← network_upload_write junk now room f n; uploads junk calls' n
  end.

(** The cached sentence fits the buffer of the read callback. *)
Definition gga_fits (g : gga_t) : Prop := gga_ok g /\ length (default [] (cached g)) <= 254.

Lemma seen_length room f old :
  length (default [] old) <= room -> length (default [] (seen room f old)) <= room.
Proof.
  intros H. unfold seen. destruct f as [|data []]; [done..|]. case_match; [done|]. simpl.
  pose proof (first_line_length (c_str (take room data))). pose proof (c_str_length (take room data)).
  rewrite length_take in *. lia.
Qed.

Lemma network_upload_write_spec junk now room f n :
  gga_fits (gga (ctx n)) -> clean_read f ->
  let c := ctx n in
  let '((last, ca), out) := gga_spec_step (gga_xfer_secs (conf c)) (gga_rev1 (conf c)) (now, room, f)
                              (last_xfer_time (counters c), cached (gga c)) in
  exists r n', network_upload_write junk now room f n = Ret (r, n') /\ conf (ctx n') = conf c /\
    gga_fits (gga (ctx n')) /\ cached (gga (ctx n')) = ca /\ last_xfer_time (counters (ctx n')) = last /\
    gga_sent n' = gga_sent n ++ out.
Proof.
  intros [Hg Hl] Hcl c. unfold gga_spec_step, network_upload_write. fold c.
  destruct (now - last_xfer_time (counters c) <? gga_xfer_secs (conf c))%Z eqn:E.
  - eexists _, n. rewrite app_nil_r. repeat split; done.
  - destruct (fetch_ok junk f (gga c) 255 Hg ltac:(lia)) as (k & buf & g' & -> & Hg' & _ & _ & Hc).
    destruct (Hc Hcl) as [Hseen [Hk Hin]]. rewrite bind_Ret. change (255 - 1) with 254 in Hseen.
    rewrite <-Hseen. pose proof (seen_length 254 f (cached (gga c)) Hl) as Hl'. rewrite <-Hseen in Hl'.
    rewrite take_ge in Hk, Hin by lia. set (l := default [] (cached g')) in *.
    assert (gga_fits g') as Hfit by done.
    rewrite Hk. destruct (length l =? 0) eqn:E0; cbn [orb].
    + eexists _, _. split; [done|]. rewrite app_nil_r. repeat split; done.
    + rewrite (in_buf_str l) by done. rewrite bind_Ret.
      destruct (room <=? length (gga_line (gga_rev1 (conf c)) l)).
      * eexists _, _. split; [done|]. rewrite app_nil_r. repeat split; done.
      * eexists _, _. split; [done|]. repeat split; done.
Qed.

Lemma gga_spec_spaced secs rev1 calls last ca :
  spaced secs last (gga_spec_run secs rev1 calls (last, ca)).
Proof.
  revert last ca. induction calls as [|[[now room] f] calls IH]; intros last ca; [done|].
  cbn [gga_spec_run gga_spec_step]. destruct (now - last <? secs)%Z eqn:E; [apply IH|].
  bool_hyps. destruct (_ || _); [apply IH|]. simpl. split; [lia|apply IH].
Qed.

(** C25: which GGA sentences reach the caster.  Over any calls of the read callback of the NTRIP
    client, whatever is in the file at each, if a read that fails delivers nothing, the lines sent
    are those of a specification without buffers: when the interval has passed, the first line of
    the file, or the last one seen if the file cannot be read or is empty, in the format asked
    for, unless it does not fit; two lines are never sent less than the interval apart. *)
Theorem gga_uploads_refine junk calls n :
  gga_fits (gga (ctx n)) -> Forall (fun call => clean_read call.2) calls ->
  let c := ctx n in
  exists n', uploads junk calls n = Ret n' /\
    let out := gga_spec_run (gga_xfer_secs (conf c)) (gga_rev1 (conf c)) calls
                 (last_xfer_time (counters c), cached (gga c)) in
    gga_sent n' = gga_sent n ++ out /\ spaced (gga_xfer_secs (conf c)) (last_xfer_time (counters c)) out.
Proof.
  intros Hg Hcl c.
  cut (exists n', uploads junk calls n = Ret n' /\ gga_sent n' = gga_sent n ++
         gga_spec_run (gga_xfer_secs (conf c)) (gga_rev1 (conf c)) calls (last_xfer_time (counters c), cached (gga c))).
  { intros (n' & H1 & H2). exists n'. split; [done|]. split; [done|]. apply gga_spec_spaced. }
  unfold c. clear c. revert n Hg. induction Hcl as [|[[now room] f] calls Hf _ IH]; intros n Hg.
  - exists n. by rewrite app_nil_r.
  - pose proof (network_upload_write_spec junk now room f n Hg Hf) as H. cbn zeta in H.
    cbn [uploads gga_spec_run]. destruct (gga_spec_step _ _ _ _) as [[last ca] out].
    destruct H as (r & n1 & -> & Hconf & Hg1 & Hca & Hlast & Hsent). rewrite bind_Ret.
    destruct (IH n1 Hg1) as (n' & -> & Hs). exists n'. split; [done|].
    rewrite Hs, Hsent, Hconf, Hca, Hlast. by rewrite <-app_assoc.
Qed.

Definition gga_client (secs : Z) : net :=
  mk_net (set_conf empty_context
    (mk_conf NETWORK_TYPE_NTRIP_DOWNLOAD 5 [] [] [] true SIZE_MAX secs false false true))
    [] [] [] [] [].

Lemma gga_uploads_refine_witness :
  exists n', uploads "000"%char
    [(10%Z, 100, G_read (text_of "$GPGGA" ++ crlf) false); (15%Z, 100, G_missing); (20%Z, 100, G_missing)] (gga_client 10)
    = Ret n' /\ gga_sent n' = [(10%Z, text_of "Ntrip-GGA: $GPGGA" ++ crlf); (20%Z, text_of "Ntrip-GGA: $GPGGA" ++ crlf)].
Proof.
  destruct (gga_uploads_refine "000"%char
    [(10%Z, 100, G_read (text_of "$GPGGA" ++ crlf) false); (15%Z, 100, G_missing); (20%Z, 100, G_missing)]
    (gga_client 10)) as (n' & H1 & H2 & _).
  - split; [exact I|]. simpl. lia.
  - repeat constructor.
  - exists n'. split; [exact H1|]. rewrite H2. vm_compute. reflexivity.
Defined.

(** A read that fails after it has delivered data leaves the rest of that data behind the cached
    sentence, and both are sent. *)
Example dirty_read_sent :
  match uploads "000"%char
    [(10%Z, 100, G_read (text_of "$GP1" ++ crlf) false); (20%Z, 100, G_read (text_of "0123456789") true)] (gga_client 10)
  with Ret n' => map snd (gga_sent n') | _ => [] end
  = [text_of "Ntrip-GGA: $GP1" ++ crlf; text_of "Ntrip-GGA: $GP1456789" ++ crlf].
Proof. reflexivity. Qed.

(** ** What reaches the descriptor *)

Definition ev_bytes (ev : curl_event) : list Z := match ev with Ev_data d _ => d | _ => [] end.

(** The events of a download whose writes take everything. *)
Definition download_ok (ev : curl_event) : Prop :=
  match ev with
  | Ev_data d ws => full_write (length d) ws /\ (Z.of_nat (length d) <= CURL_MAX_WRITE_SIZE)%Z
  | Ev_upload _ _ | Ev_upload_progress _ _ _ _ => False
  | _ => True
  end.

(** The limit of bytes is not near the end of [size_t], and has been kept. *)
Definition limited (c : network_context_t) : bool := negb (max_bytes (conf c) =? SIZE_MAX)%Z.
Definition limit_ok (c : network_context_t) : Prop :=
  limited c = true -> (max_bytes (conf c) + CURL_MAX_WRITE_SIZE < 2 ^ 32)%Z /\
                      (0 <= cur_bytes (counters c) <= max_bytes (conf c))%Z.

(** What the callbacks of a download leave alone, and what they add. *)
Record moved (n n' : net) (d : list Z) : Prop := {
  moved_conf : conf (ctx n') = conf (ctx n);
  moved_refresh : refresh_headers_fn (ctx n') = refresh_headers_fn (ctx n);
  moved_gga : gga_ok (gga (ctx n')); moved_limit : limit_ok (ctx n');
  moved_sink : sink n' = sink n ++ d;
  moved_cur : limited (ctx n) = true ->
              cur_bytes (counters (ctx n')) = (cur_bytes (counters (ctx n)) + Z.of_nat (length d))%Z;
}.

Lemma moved_refl n : gga_ok (gga (ctx n)) -> limit_ok (ctx n) -> moved n n [].
Proof. intros. split; [done..|by rewrite app_nil_r|simpl; lia]. Qed.

Lemma moved_trans n1 n2 n3 d1 d2 : moved n1 n2 d1 -> moved n2 n3 d2 -> moved n1 n3 (d1 ++ d2).
Proof.
  intros [A1 R1 B1 C1 D1 E1] [A2 R2 B2 C2 D2 E2]. split; [congruence|congruence|done..| |].
  - rewrite D2, D1. by rewrite app_assoc.
  - intros H. rewrite E2, E1; [rewrite length_app; lia|done|]. unfold limited in *. by rewrite A1.
Qed.

(** Contexts that agree on what matters above. *)
Lemma moved_same n c :
  gga_ok (gga (ctx n)) -> limit_ok (ctx n) ->
  conf c = conf (ctx n) -> gga c = gga (ctx n) -> cur_bytes (counters c) = cur_bytes (counters (ctx n)) ->
  refresh_headers_fn c = refresh_headers_fn (ctx n) ->
  forall rp, moved n (mk_net c (sink n) (uploaded n) (gga_sent n) (reports n) rp) [].
Proof.
  intros Hg Hl H1 H2 H3 H4 rp. split; simpl; [done|done|by rewrite H2| |by rewrite app_nil_r|intros; lia].
  unfold limit_ok, limited in *. by rewrite H1, H3.
Qed.

Lemma log_moved now n : gga_ok (gga (ctx n)) -> limit_ok (ctx n) -> moved n (log_with_rate_limit now n) [].
Proof.
  intros Hg Hl. unfold log_with_rate_limit. case_match; [|by apply moved_refl].
  split; simpl; [done..|by rewrite app_nil_r|intros; lia].
Qed.

Lemma service_moved fc n : gga_ok (gga (ctx n)) -> limit_ok (ctx n) -> moved n (service_control_fifo fc n) [].
Proof.
  intros Hg Hl. unfold service_control_fifo. cbn zeta. repeat case_match; try by apply moved_refl.
  all: by apply (moved_same n).
Qed.

Lemma progress_moved now fc b n :
  gga_ok (gga (ctx n)) -> limit_ok (ctx n) -> moved n (network_progress_check now fc b n).2 [].
Proof.
  intros Hg Hl. unfold network_progress_check. pose proof (service_moved fc n Hg Hl) as Hm.
  set (n1 := service_control_fifo fc n) in *. cbn zeta.
  assert (forall m, moved n1 m [] -> moved n m []) as Ht by (intros m H; exact (moved_trans _ _ _ _ _ Hm H)).
  destruct Hm as [_ _ Hg1 Hl1 _ _].
  destruct (shutdown_signaled _); [by apply Ht, moved_refl|]. destruct (cycle_connection_signaled _).
  - apply Ht. pose proof (log_moved now n1 Hg1 Hl1) as H2. change (@nil Z) with ([] ++ @nil Z).
    eapply moved_trans; [exact H2|]. destruct H2. by apply moved_same.
  - destruct (_ =? _)%Z; [destruct (_ <=? _)%Z|]; simpl.
    + by apply Ht, log_moved.
    + by apply Ht, moved_refl.
    + apply Ht. by apply moved_same.
Qed.

Lemma callback_download junk ev n :
  download_ok ev -> gga_ok (gga (ctx n)) -> limit_ok (ctx n) ->
  exists stop n', callback junk ev n = Ret (stop, n') /\
    moved n n' (match stop with None => ev_bytes ev | _ => [] end) /\
    (stop = None \/ stop = Some CURLE_WRITE_ERROR \/ stop = Some CURLE_ABORTED_BY_CALLBACK).
Proof.
  intros Hev Hg Hl. destruct ev as [d ws| | now room f|now fc dl ul| |t|]; simpl in Hev; try done; cbn [callback ev_bytes].
  - destruct Hev as [Hw Hd]. destruct (network_byte_limit (ctx n) (Z.of_nat (length d))) eqn:E.
    + unfold network_download_write. rewrite E, bind_Ret. eexists _, n. split; [done|].
      destruct (Z.eqb_spec 0 (Z.of_nat (length d))) as [E0|E0]; [|split; [by apply moved_refl|auto]].
      destruct d; [|simpl in E0; lia]. split; [by apply moved_refl|auto].
    + rewrite network_download_write_full by done. rewrite bind_Ret, Z.eqb_refl. eexists None, _.
      split; [done|]. split; [|auto].
      assert (limited (ctx n) = true ->
              u32 (cur_bytes (counters (ctx n)) + Z.of_nat (length d)) = (cur_bytes (counters (ctx n)) + Z.of_nat (length d))%Z
              /\ (cur_bytes (counters (ctx n)) + Z.of_nat (length d) <= max_bytes (conf (ctx n)))%Z) as Hcur.
      { intros Hlim. destruct (Hl Hlim) as [H1 H2]. unfold CURL_MAX_WRITE_SIZE in *. rewrite u32_small by lia. split; [done|].
        unfold network_byte_limit, limited in *. destruct (_ =? _)%Z; [done|]. rewrite u32_small in E by lia.
        by bool_hyps. }
      split; simpl; [done..| |done|].
      * intros Hlim. destruct (Hl Hlim) as [H1 H2]. destruct (Hcur Hlim) as [-> H3]. simpl. split; [done|lia].
      * intros Hlim. by destruct (Hcur Hlim) as [-> _].
  - unfold network_upload_write. case_match.
    + rewrite bind_Ret. eexists None, _. split; [done|]. split; [by apply moved_refl|auto].
    + destruct (fetch_ok junk f (gga (ctx n)) 255 Hg ltac:(lia)) as (k & buf & g' & -> & Hg' & Hn & _ & _).
      rewrite bind_Ret. destruct (k =? 0).
      * rewrite bind_Ret. eexists None, _. split; [done|]. split; [|auto].
        split; simpl; [done..|by rewrite app_nil_r|intros; lia].
      * rewrite (in_buf_str _ _ (in_buf_c_str buf Hn)), bind_Ret. case_match; rewrite bind_Ret;
          eexists None, _; (split; [done|]); (split; [|auto]); split; simpl;
          try done; try (by rewrite app_nil_r); intros; lia.
  - unfold network_download_progress. destruct (network_progress_check now fc dl n) as [r n'] eqn:E.
    pose proof (progress_moved now fc dl n Hg Hl) as Hm. rewrite E in Hm. simpl in Hm.
    eexists _, n'. split; [done|]. destruct (r =? 0)%Z; auto.
  - eexists None, _. split; [done|]. split; [|auto]. unfold libnetwork_shutdown. case_match.
    + by apply moved_same.
    + apply moved_same; done.
  - eexists None, _. split; [done|]. split; [|auto]. by apply moved_same.
Qed.

(** The bytes of the first [k] events. *)
Definition delivered (k : nat) (evs : list curl_event) : list Z := concat (ev_bytes <$> take k evs).

Lemma note_moved code cn n : gga_ok (gga (ctx n)) -> limit_ok (ctx n) -> moved n (note_response code cn n) [].
Proof.
  intros Hg Hl. destruct code; simpl; try by apply log_moved.
  assert (moved n (with_ctx n (set_response (ctx n) (cn_response cn))) []) as Hm by by apply moved_same.
  case_match; [done|]. change (@nil Z) with ([] ++ @nil Z). eapply moved_trans; [exact Hm|]. by apply log_moved.
Qed.

(** A new connection begins with fresh counters and headers. *)
Lemma reconnect_ok junk f now n :
  gga_ok (gga (ctx n)) -> limit_ok (ctx n) ->
  exists c, refresh_headers junk f (network_reset_counters now (ctx n)) = Ret c /\
    conf c = conf (ctx n) /\ gga_ok (gga c) /\ limit_ok c /\ refresh_headers_fn c = refresh_headers_fn (ctx n) /\
    counters c = mk_counters 0 now 0 now /\ shutdown_signaled c = shutdown_signaled (ctx n) /\
    cycle_connection_signaled c = cycle_connection_signaled (ctx n).
Proof.
  intros Hg Hl. unfold refresh_headers.
  assert (forall c, conf c = conf (ctx n) -> cur_bytes (counters c) = 0%Z -> limit_ok c) as Hlim.
  { intros c Hc Hcur Hc'. unfold limit_ok, limited in *. rewrite Hc, Hcur in *. destruct (Hl Hc'). lia. }
  cbn [refresh_headers_fn network_reset_counters set_counters].
  destruct (refresh_headers_fn (ctx n)) eqn:Er.
  - unfold ntrip_init_headers. cbn zeta.
    destruct (fetch_ok junk f (gga (ctx n)) 127 Hg ltac:(lia)) as (k & buf & g' & H & Hg' & Hn & Hlen & _).
    cbn [gga network_reset_counters set_counters]. rewrite H, bind_Ret. destruct (k =? 0).
    + eexists. split; [done|]. simpl. split_and!; try done; by apply Hlim.
    + pose proof (in_buf_c_str buf Hn) as Hin. rewrite (in_buf_str _ _ Hin), bind_Ret.
      assert ((length (text_of "Ntrip-GGA: " ++ c_str buf) <? 256) = true) as ->.
      { apply Nat.ltb_lt. rewrite length_app. change (length (text_of "Ntrip-GGA: ")) with 11.
        pose proof (c_str_length buf). lia. }
      eexists. split; [done|]. simpl. split_and!; try done; by apply Hlim.
  - eexists. split; [done|]. simpl. split_and!; try done; by apply Hlim.
Qed.

(** ** When a connection is given up *)

(** The first report of progress that comes [MAX_STALL_TIME_S] after the last one at which the
    count of bytes had changed. *)
Fixpoint first_stall (bytes time : Z) (evs : list curl_event) : option nat :=
  match evs with
  | [] => None
  | Ev_download_progress now _ b _ :: evs' =>
      if (b =? bytes)%Z
      then if (MAX_STALL_TIME_S <=? now - time)%Z then Some 0 else S <$> first_stall bytes time evs'
      else S <$> first_stall b now evs'
  | _ :: evs' => S <$> first_stall bytes time evs'
  end.

Lemma log_ctx now n :
  shutdown_signaled (ctx (log_with_rate_limit now n)) = shutdown_signaled (ctx n) /\
  cycle_connection_signaled (ctx (log_with_rate_limit now n)) = cycle_connection_signaled (ctx n) /\
  counters (ctx (log_with_rate_limit now n)) = counters (ctx n).
Proof. unfold log_with_rate_limit. by case_match. Qed.

Lemma service_ctx fc n :
  shutdown_signaled (ctx (service_control_fifo fc n)) = shutdown_signaled (ctx n) /\
  cycle_connection_signaled (ctx (service_control_fifo fc n)) = cycle_connection_signaled (ctx n) /\
  counters (ctx (service_control_fifo fc n)) = counters (ctx n).
Proof. unfold service_control_fifo. cbn zeta. by repeat case_match. Qed.

(** ** The specification of a download

    What a download watches: the bytes it has taken on this connection, the last count that was
    reported and when it changed, and the two signals. *)
Record watch := mk_watch { w_cur : Z; w_bytes : Z; w_time : Z; w_shutdown : bool; w_cycle : bool }.

(** The data would exceed the limit of bytes. *)
Definition exceeds (max cur : Z) (d : list Z) : bool :=
  negb (max =? SIZE_MAX)%Z && (max <? cur + Z.of_nat (length d))%Z.

(** An event, and the code with which it ends the transfer if it does. *)
Definition spec_event (max : Z) (ty : network_type_t) (ev : curl_event) (w : watch) : option CURLcode * watch :=
  let '(mk_watch cur bytes time stop cycle) := w in
  match ev with
  | Ev_data d _ =>
      if exceeds max cur d then (Some CURLE_WRITE_ERROR, w)
      else (None, mk_watch (cur + Z.of_nat (length d)) bytes time stop cycle)
  | Ev_download_progress now _ b _ =>
      if stop then (Some CURLE_ABORTED_BY_CALLBACK, w)
      else if cycle then (Some CURLE_ABORTED_BY_CALLBACK, mk_watch cur bytes time stop false)
      else if (b =? bytes)%Z
      then (if (MAX_STALL_TIME_S <=? now - time)%Z then Some CURLE_ABORTED_BY_CALLBACK else None, w)
      else (None, mk_watch cur b now stop cycle)
  | Ev_shutdown t =>
      (None, mk_watch cur bytes time (stop || bool_decide (t = NETWORK_TYPE_ALL) || bool_decide (t = ty)) cycle)
  | Ev_cycle => (None, mk_watch cur bytes time stop true)
  | _ => (None, w)
  end.

(** A connection: the bytes taken from it, and how it ends. *)
Fixpoint spec_perform (max : Z) (ty : network_type_t) (evs : list curl_event) (code : CURLcode) (w : watch) :
    list Z * CURLcode * watch :=
  match evs with
  | [] => ([], code, w)
  | ev :: evs' =>
      match spec_event max ty ev w with
      | (Some c, w) => ([], c, w)
      | (None, w) => let '(b, c, w) := spec_perform max ty evs' code w in (ev_bytes ev ++ b, c, w)
      end
  end.

(** A request: the next connection is made after one that a callback has aborted and, if the
    request is continuous, after any other; [None] when more connections would be needed. *)
Fixpoint spec_request (max : Z) (ty : network_type_t) (cont : bool) (cns : list connection) (w : watch) :
    option (CURLcode * list Z) :=
  match cns with
  | [] => None
  | cn :: cns' =>
      let '(b, code, w) := spec_perform max ty (cn_events cn) (cn_end cn) w in
      if w_shutdown w || negb (bool_decide (code = CURLE_ABORTED_BY_CALLBACK)) && negb cont then Some (code, b)
      else
        '(code, b') ← spec_request max ty cont cns' (mk_watch 0 0 (cn_now cn) (w_shutdown w) (w_cycle w));
        Some (code, b ++ b')
  end.

(** The context is what the specification watches. *)
Record tracks (c : network_context_t) (w : watch) : Prop := {
  tr_cur : limited c = true -> cur_bytes (counters c) = w_cur w;
  tr_bytes : bytes_transfered (counters c) = w_bytes w;
  tr_time : byte_move_time (counters c) = w_time w;
  tr_shutdown : shutdown_signaled c = w_shutdown w;
  tr_cycle : cycle_connection_signaled c = w_cycle w;
}.

Definition watch_of (c : network_context_t) : watch :=
  mk_watch (cur_bytes (counters c)) (bytes_transfered (counters c)) (byte_move_time (counters c))
    (shutdown_signaled c) (cycle_connection_signaled c).

Lemma tracks_self c : tracks c (watch_of c).
Proof. by constructor. Qed.

Lemma tracks_moved n n' d w w' :
  moved n n' d -> tracks (ctx n) w -> w_cur w' = (w_cur w + Z.of_nat (length d))%Z ->
  bytes_transfered (counters (ctx n')) = w_bytes w' -> byte_move_time (counters (ctx n')) = w_time w' ->
  shutdown_signaled (ctx n') = w_shutdown w' -> cycle_connection_signaled (ctx n') = w_cycle w' ->
  tracks (ctx n') w'.
Proof.
  intros Hm Ht Hcur. constructor; try done. intros Hl. rewrite Hcur.
  assert (limited (ctx n) = true) as Hl' by (unfold limited in *; by rewrite (moved_conf _ _ _ Hm) in Hl).
  by rewrite (moved_cur _ _ _ Hm Hl'), (tr_cur _ _ Ht Hl').
Qed.

Lemma exceeds_limit c d w :
  limit_ok c -> tracks c w -> (Z.of_nat (length d) <= CURL_MAX_WRITE_SIZE)%Z ->
  network_byte_limit c (Z.of_nat (length d)) = exceeds (max_bytes (conf c)) (w_cur w) d.
Proof.
  intros Hl Ht Hd. unfold network_byte_limit, exceeds. destruct (max_bytes (conf c) =? SIZE_MAX)%Z eqn:E; [done|].
  assert (limited c = true) as Hlim by (unfold limited; by rewrite E).
  destruct (Hl Hlim) as [H1 H2]. unfold CURL_MAX_WRITE_SIZE in *. cbn [negb andb].
  rewrite <-(tr_cur _ _ Ht Hlim), u32_small by lia. done.
Qed.

Lemma gga_watches junk now room f n r n' :
  network_upload_write junk now room f n = Ret (r, n') ->
  bytes_transfered (counters (ctx n')) = bytes_transfered (counters (ctx n)) /\
  byte_move_time (counters (ctx n')) = byte_move_time (counters (ctx n)) /\
  shutdown_signaled (ctx n') = shutdown_signaled (ctx n) /\
  cycle_connection_signaled (ctx n') = cycle_connection_signaled (ctx n).
Proof.
  unfold network_upload_write. intros H. case_match; [by simplify_eq|].
  destruct (fetch_gga_buffer _ _ _ _ _) as [[[k buf] g']| |]; [|done..]. rewrite bind_Ret in H.
  destruct (k =? 0); [by simplify_eq|]. destruct (buf_str buf) as [s| |]; [|done..]. rewrite bind_Ret in H.
  case_match; by simplify_eq.
Qed.

Lemma progress_spec now fc b ul max ty n w :
  tracks (ctx n) w ->
  let '(stop, w') := spec_event max ty (Ev_download_progress now fc b ul) w in
  let '(r, n') := network_progress_check now fc b n in
  (if (r =? 0)%Z then None else Some CURLE_ABORTED_BY_CALLBACK) = stop /\ w_cur w' = w_cur w /\
  bytes_transfered (counters (ctx n')) = w_bytes w' /\ byte_move_time (counters (ctx n')) = w_time w' /\
  shutdown_signaled (ctx n') = w_shutdown w' /\ cycle_connection_signaled (ctx n') = w_cycle w'.
Proof.
  intros [_ T1 T2 T3 T4]. destruct w as [cur bytes time stop cycle]. cbn [spec_event w_cur w_bytes w_time w_shutdown w_cycle] in *.
  unfold network_progress_check. cbn zeta.
  destruct (service_ctx fc n) as (S1 & S2 & S3). set (n1 := service_control_fifo fc n) in *.
  rewrite S1, S2, S3, T1, T2, T3, T4, (Z.eqb_sym bytes b). destruct (log_ctx now n1) as (L1 & L2 & L3).
  destruct stop; [by rewrite S1, S2, S3|]. destruct cycle.
  { simpl. by rewrite L1, L3, S1, S3. }
  destruct (b =? bytes)%Z; [destruct (_ <=? _)%Z|]; simpl; rewrite ?L1, ?L2, ?L3, ?S1, ?S2, ?S3; by split_and!.
Qed.

Lemma callback_spec junk ev n w :
  download_ok ev -> gga_ok (gga (ctx n)) -> limit_ok (ctx n) -> tracks (ctx n) w ->
  let '(stop, w') := spec_event (max_bytes (conf (ctx n))) (type (conf (ctx n))) ev w in
  exists n', callback junk ev n = Ret (stop, n') /\ tracks (ctx n') w' /\
    moved n n' (match stop with None => ev_bytes ev | _ => [] end).
Proof.
  intros Hev Hg Hl Ht. destruct (callback_download junk ev n Hev Hg Hl) as (stop & n' & Hcb & Hm & _).
  pose proof Ht as [_ T1 T2 T3 T4]. destruct ev as [d ws| |now room f|now fc b ul| |t|]; simpl in Hev; try done.
  - destruct Hev as [Hw Hd]. pose proof (exceeds_limit (ctx n) d w Hl Ht Hd) as Hlim. cbn [callback] in Hcb |- *.
    destruct w as [cur bytes time shut cycle]. cbn [spec_event w_cur w_bytes w_time w_shutdown w_cycle] in *.
    destruct (exceeds (max_bytes (conf (ctx n))) cur d) eqn:Ex.
    + unfold network_download_write in *. rewrite Hlim, bind_Ret in *.
      assert ((0 =? Z.of_nat (length d))%Z = false) as E0.
      { apply Z.eqb_neq. intros E0. unfold exceeds in Ex. apply andb_true_iff in Ex as [Ex1 Ex2].
        destruct (Hl Ex1) as [_ H2]. rewrite (tr_cur _ _ Ht Ex1) in H2. cbn [w_cur] in H2. bool_hyps. lia. }
      rewrite E0 in *. simplify_eq. exists n'. done.
    + rewrite network_download_write_full in * by done. rewrite bind_Ret, Z.eqb_refl in *. simplify_eq.
      eexists. split; [done|]. split; [|exact Hm]. by eapply tracks_moved.
  - cbn [callback] in Hcb. destruct (network_upload_write junk now room f n) as [[r n1]| |] eqn:E; [|done..].
    rewrite bind_Ret in Hcb. simplify_eq. destruct (gga_watches _ _ _ _ _ _ _ E) as (G1 & G2 & G3 & G4).
    destruct w. cbn [spec_event]. exists n'. cbn [callback]. rewrite E, bind_Ret. split; [done|]. split; [|exact Hm].
    eapply tracks_moved; [exact Hm|exact Ht|simpl; lia|congruence..].
  - pose proof (progress_spec now fc b ul (max_bytes (conf (ctx n))) (type (conf (ctx n))) n w Ht) as Hp.
    destruct (spec_event _ _ _ w) as [stop' w']. cbn [callback] in *. unfold network_download_progress in *.
    destruct (network_progress_check now fc b n) as [r n1]. destruct Hp as (<- & P1 & P2 & P3 & P4 & P5).
    simplify_eq. exists n'. split; [done|].
    assert ((match (if (r =? 0)%Z then None else Some CURLE_ABORTED_BY_CALLBACK) with
             | Some _ => [] | None => ev_bytes (Ev_download_progress now fc b ul) end) = []) as E0 by by destruct (r =? 0)%Z.
    rewrite E0 in *. split; [|exact Hm]. eapply tracks_moved; [exact Hm|exact Ht|simpl; lia|congruence..].
  - cbn [callback] in *. simplify_eq. destruct w as [cur bytes time shut cycle].
    cbn [spec_event w_cur w_bytes w_time w_shutdown w_cycle] in *. eexists. split; [done|]. split; [|exact Hm].
    eapply tracks_moved; [exact Hm|exact Ht|simpl; lia|..]; unfold libnetwork_shutdown; cbn [ctx with_ctx];
      destruct (bool_decide (t = NETWORK_TYPE_ALL)), (bool_decide (t = type (conf (ctx n)))), shut; simpl in *; congruence.
  - cbn [callback] in *. simplify_eq. destruct w as [cur bytes time shut cycle].
    cbn [spec_event w_cur w_bytes w_time w_shutdown w_cycle] in *. eexists. split; [done|]. split; [|exact Hm].
    eapply tracks_moved; [exact Hm|exact Ht|simpl; lia|..]; simpl in *; congruence.
Qed.

Lemma perform_spec junk evs code n w :
  Forall download_ok evs -> gga_ok (gga (ctx n)) -> limit_ok (ctx n) -> tracks (ctx n) w ->
  let '(b, code', w') := spec_perform (max_bytes (conf (ctx n))) (type (conf (ctx n))) evs code w in
  exists n', curl_easy_perform junk evs code n = Ret (code', n') /\ tracks (ctx n') w' /\ moved n n' b.
Proof.
  intros Hev. revert n w. induction Hev as [|ev evs Hev _ IH]; intros n w Hg Hl Ht.
  { exists n. split; [done|]. split; [done|]. by apply moved_refl. }
  cbn [spec_perform curl_easy_perform]. pose proof (callback_spec junk ev n w Hev Hg Hl Ht) as Hcb.
  destruct (spec_event _ _ ev w) as [stop w1]. destruct Hcb as (n1 & -> & Ht1 & Hm1). rewrite bind_Ret.
  destruct stop as [c|]; [by exists n1|].
  specialize (IH n1 w1 (moved_gga _ _ _ Hm1) (moved_limit _ _ _ Hm1) Ht1). rewrite (moved_conf _ _ _ Hm1) in IH.
  destruct (spec_perform _ _ evs code w1) as [[b code'] w']. destruct IH as (n' & -> & Ht' & Hm').
  exists n'. split; [done|]. split; [done|]. by eapply moved_trans.
Qed.

Lemma note_tracks code cn n w : tracks (ctx n) w -> tracks (ctx (note_response code cn n)) w.
Proof.
  intros Ht. assert (forall now m, tracks (ctx m) w -> tracks (ctx (log_with_rate_limit now m)) w) as Hlog.
  { intros now m []. unfold log_with_rate_limit. case_match; by constructor. }
  unfold note_response. destruct code; try by apply Hlog.
  assert (tracks (set_response (ctx n) (cn_response cn)) w) by (destruct Ht; by constructor).
  case_match; [done|]. by apply Hlog.
Qed.

(** What a request does over any list of connections. *)
Lemma request_spec junk cns n w :
  Forall (fun cn => Forall download_ok (cn_events cn)) cns ->
  gga_ok (gga (ctx n)) -> limit_ok (ctx n) -> tracks (ctx n) w ->
  match spec_request (max_bytes (conf (ctx n))) (type (conf (ctx n))) (continuous (conf (ctx n))) cns w with
  | None => network_request junk cns n = Diverge
  | Some (code, bytes) =>
      exists n', network_request junk cns n = Ret (code, n') /\ sink n' = sink n ++ bytes /\
        conf (ctx n') = conf (ctx n) /\ gga_ok (gga (ctx n'))
  end.
Proof.
  intros Hall. revert n w. induction Hall as [|cn cns Hcn _ IH]; intros n w Hg Hl Ht; [done|].
  cbn [spec_request network_request]. pose proof (perform_spec junk (cn_events cn) (cn_end cn) n w Hcn Hg Hl Ht) as Hp.
  destruct (spec_perform _ _ _ _ w) as [[b code] w1]. destruct Hp as (n1 & -> & Ht1 & Hm1). rewrite bind_Ret.
  rewrite (tr_shutdown _ _ Ht1). destruct (w_shutdown w1) eqn:Es; cbn [orb]; [exists n1; split; [done|]; split_and!; apply Hm1|].
  set (aborted := bool_decide _). set (n2 := if aborted then n1 else note_response code cn n1).
  assert (moved n n2 b) as Hm2.
  { unfold n2. destruct aborted; [done|]. rewrite <-(app_nil_r b).
    eapply moved_trans; [exact Hm1|]. apply note_moved; apply Hm1. }
  assert (tracks (ctx n2) w1) as Ht2 by (unfold n2; destruct aborted; [done|by apply note_tracks]).
  rewrite (moved_conf _ _ _ Hm2). destruct (negb aborted && negb (continuous (conf (ctx n)))).
  { exists n2. split; [done|]. split_and!; apply Hm2. }
  destruct (reconnect_ok junk (cn_file cn) (cn_now cn) n2) as (c & -> & Hc1 & Hc2 & Hc3 & _ & Hc4 & Hc5 & Hc6); [apply Hm2..|].
  rewrite bind_Ret.
  specialize (IH (with_ctx n2 c) (mk_watch 0 0 (cn_now cn) (w_shutdown w1) (w_cycle w1)) Hc2 Hc3).
  cbn [with_ctx ctx sink] in IH. rewrite Hc1, (moved_conf _ _ _ Hm2), Es in IH.
  destruct (spec_request _ _ _ cns _) as [[code' b']|]; cbn [mbind option_bind].
  - destruct IH as (n' & -> & Hs & Hcf & Hgg).
    { constructor; cbn [w_cur w_bytes w_time w_shutdown w_cycle]; rewrite ?Hc4, ?Hc5, ?Hc6; try done; [|apply Ht2].
      by rewrite (tr_shutdown _ _ Ht2). }
    exists n'. split; [done|]. rewrite Hs, (moved_sink _ _ _ Hm2). by rewrite <-app_assoc.
  - apply IH. constructor; cbn [w_cur w_bytes w_time w_shutdown w_cycle]; rewrite ?Hc4, ?Hc5, ?Hc6; try done; [|apply Ht2].
    by rewrite (tr_shutdown _ _ Ht2).
Qed.

(** C13: what a download writes, exactly.  If the descriptor takes every write whole (interruptions
    apart; a short write makes the code send wrong bytes, [download_write_failures]) and the limit of
    bytes, if there is one, is not near the end of [size_t], then a request - with all its buffers, the
    cache of sentences, the control FIFO, its headers and its reports - is the specification
    [spec_request], whatever the server sends, however the connections break and whenever signals
    arrive: it writes, of each connection in turn, all that was delivered up to the end of the
    connection or to the event that ended it - data beyond the limit of bytes, or a report of
    progress after a shutdown or a new connection was asked for or after ten seconds without
    movement - and it makes the next one exactly when a callback has aborted this one or the request
    is continuous, and no shutdown has come; its result is the code of the last. *)
Theorem download_delivers junk cns n :
  Forall (fun cn => Forall download_ok (cn_events cn)) cns ->
  gga_ok (gga (ctx n)) -> limit_ok (ctx n) ->
  match spec_request (max_bytes (conf (ctx n))) (type (conf (ctx n))) (continuous (conf (ctx n))) cns (watch_of (ctx n)) with
  | None => network_request junk cns n = Diverge
  | Some (code, bytes) => exists n', network_request junk cns n = Ret (code, n') /\ sink n' = sink n ++ bytes
  end.
Proof.
  intros H1 H2 H3. pose proof (request_spec junk cns n _ H1 H2 H3 (tracks_self (ctx n))) as H.
  destruct (spec_request _ _ _ _ _) as [[code bytes]|]; [|done]. destruct H as (n' & Hr & Hs & _). by exists n'.
Qed.

Definition ota_client (max : Z) : net :=
  mk_net (set_conf empty_context
    (mk_conf NETWORK_TYPE_OTA 5 [] [] [] false max (-1) false false true))
    [] [] [] [] [].
Definition no_fifo : fifo_calls := mk_fifo_calls 0 None None None true.
Definition two_connections : list connection :=
  [mk_connection [Ev_data [1; 2]%Z [W_count 2]; Ev_download_progress 10 no_fifo 0 0] CURLE_OK 200 20 G_missing;
   mk_connection [Ev_data [1; 2]%Z [W_eintr; W_count 2]; Ev_data [3]%Z [W_count 1]] CURLE_OK 200 30 G_missing].

Lemma download_delivers_witness :
  exists n', network_request "000"%char two_connections (ota_client 100) = Ret (CURLE_OK, n') /\
    sink n' = [1; 2; 1; 2; 3]%Z.
Proof.
  apply (download_delivers "000"%char two_connections (ota_client 100)).
  - repeat constructor; (exists 0, []; reflexivity) || (exists 1, []; reflexivity) || (vm_compute; discriminate).
  - exact I.
  - intros _; split; [reflexivity|split; vm_compute; discriminate].
Defined.

(** ** A download without signals *)

(** No signal arrives. *)
Definition quiet (ev : curl_event) : Prop := match ev with Ev_shutdown _ | Ev_cycle => False | _ => True end.
Definition no_signals (c : network_context_t) : Prop :=
  shutdown_signaled c = false /\ cycle_connection_signaled c = false.

Definition watching (c : network_context_t) (bytes time : Z) : Prop :=
  no_signals c /\ bytes_transfered (counters c) = bytes /\ byte_move_time (counters c) = time.

(** Without a limit and without signals only the watch on the bytes ends a download. *)
Lemma callback_quiet junk ev n bytes time :
  download_ok ev -> quiet ev -> gga_ok (gga (ctx n)) -> limit_ok (ctx n) -> limited (ctx n) = false ->
  watching (ctx n) bytes time ->
  exists n', callback junk ev n =
      Ret (match first_stall bytes time [ev] with Some _ => Some CURLE_ABORTED_BY_CALLBACK | None => None end, n') /\
    moved n n' (match first_stall bytes time [ev] with Some _ => [] | None => ev_bytes ev end) /\
    no_signals (ctx n') /\
    forall evs, S <$> match ev with
                      | Ev_download_progress now _ b _ =>
                          if (b =? bytes)%Z then first_stall bytes time evs else first_stall b now evs
                      | _ => first_stall bytes time evs
                      end = S <$> first_stall (bytes_transfered (counters (ctx n'))) (byte_move_time (counters (ctx n'))) evs.
Proof.
  intros Hev Hq Hg Hl Hlim ([Hs Hc] & <- & <-).
  destruct (callback_download junk ev n Hev Hg Hl) as (stop & n' & Hcb & Hm & _).
  destruct ev as [d ws| |now room f|now fc b ul| | |]; simpl in Hev, Hq; try done.
  - (* data *)
    destruct Hev as [Hw _]. cbn [callback] in *. cbn [first_stall fmap option_fmap option_map].
    rewrite network_download_write_full in * by (done || by unfold network_byte_limit, limited in *; destruct (_ =? _)%Z).
    rewrite bind_Ret, Z.eqb_refl in *. simplify_eq. eexists. split; [done|]. split; [done|].
    split; [done|]. intros evs. done.
  - (* a sentence *)
    cbn [first_stall fmap option_fmap option_map]. rewrite Hcb. cbn [callback] in Hcb.
    assert (stop = None) as ->.
    { destruct (network_upload_write _ _ _ _ _) as [[r n1]| |]; simpl in Hcb; congruence. }
    eexists. split; [done|]. split; [done|]. unfold network_upload_write in Hcb. case_match.
    + rewrite bind_Ret in Hcb. simplify_eq. split; [done|]. intros evs. done.
    + destruct (fetch_ok junk f (gga (ctx n)) 255 Hg ltac:(lia)) as (k & buf & g' & Hf & _ & Hn & _ & _).
      rewrite Hf, bind_Ret in Hcb. destruct (k =? 0).
      { rewrite bind_Ret in Hcb. simplify_eq. split; [done|]. intros evs. done. }
      rewrite (in_buf_str _ _ (in_buf_c_str buf Hn)), bind_Ret in Hcb.
      case_match; rewrite bind_Ret in Hcb; simplify_eq; (split; [done|]); intros evs; done.
  - (* progress *)
    cbn [callback] in *. cbn [first_stall].
    unfold network_download_progress, network_progress_check in *. cbn zeta in *.
    destruct (service_ctx fc n) as (S1 & S2 & S3). set (n1 := service_control_fifo fc n) in *.
    rewrite S1, S2, S3, Hs, Hc, (Z.eqb_sym (bytes_transfered _) b) in *. destruct (b =? bytes_transfered _)%Z eqn:E.
    + destruct (MAX_STALL_TIME_S <=? now - byte_move_time _)%Z.
      * change ((-1 =? 0)%Z) with false in *. simplify_eq. eexists. split; [done|]. split; [done|].
        destruct (log_ctx now n1) as (L1 & L2 & L3). unfold no_signals. rewrite ?L1, ?L2, ?L3, ?S1, ?S2, ?S3, ?Hs, ?Hc.
        split; [done|]. intros evs. done.
      * change ((0 =? 0)%Z) with true in *. simplify_eq. eexists. split; [done|]. split; [done|].
        unfold no_signals. rewrite ?S1, ?S2, ?S3, ?Hs, ?Hc. split; [done|]. intros evs. done.
    + change ((0 =? 0)%Z) with true in *. simplify_eq. eexists. split; [done|]. split; [done|].
      unfold no_signals. simpl. rewrite ?S1, ?S2, ?Hs, ?Hc. by split.
Qed.

Lemma first_stall_cons bytes time ev evs :
  first_stall bytes time (ev :: evs) =
  match first_stall bytes time [ev] with
  | Some _ => Some 0
  | None => S <$> match ev with
                  | Ev_download_progress now _ b _ =>
                      if (b =? bytes)%Z then first_stall bytes time evs else first_stall b now evs
                  | _ => first_stall bytes time evs
                  end
  end.
Proof. destruct ev; try done. simpl. by repeat case_match. Qed.

Lemma perform_quiet junk evs code n bytes time :
  Forall download_ok evs -> Forall quiet evs -> gga_ok (gga (ctx n)) -> limit_ok (ctx n) ->
  limited (ctx n) = false -> watching (ctx n) bytes time ->
  let k := first_stall bytes time evs in
  exists n', curl_easy_perform junk evs code n =
      Ret (match k with Some _ => CURLE_ABORTED_BY_CALLBACK | None => code end, n') /\
    moved n n' (delivered (default (length evs) k) evs) /\ no_signals (ctx n').
Proof.
  intros Hev. revert n bytes time. induction Hev as [|ev evs Hev _ IH]; intros n bytes time Hq Hg Hl Hlim Hw.
  - exists n. split; [done|]. split; [by apply moved_refl|]. by destruct Hw.
  - inversion Hq as [|? ? Hq1 Hq2]; subst. cbn [curl_easy_perform]. rewrite first_stall_cons.
    destruct (callback_quiet junk ev n bytes time) as (n1 & -> & Hm & Hs & Hf); [done..|].
    rewrite bind_Ret. rewrite (Hf evs). destruct (first_stall bytes time [ev]).
    + exists n1. by split.
    + cbn zeta. destruct (IH n1 (bytes_transfered (counters (ctx n1))) (byte_move_time (counters (ctx n1))))
        as (n' & -> & Hm' & Hs'); [done|apply Hm..| |by split|].
      { unfold limited. by rewrite (moved_conf _ _ _ Hm). }
      exists n'. set (k := first_stall _ _ evs) in *.
      split; [by destruct k|]. split; [|done].
      assert (default (length (ev :: evs)) (S <$> k) = S (default (length evs) k)) as -> by by destruct k.
      unfold delivered. simpl. by eapply moved_trans.
Qed.

(** C26: a connection on which nothing arrives is given up.  With writes that are taken whole,
    without signals and without a limit of bytes, a download goes on until the first report of
    progress that comes ten seconds after the last movement of bytes (not after the 30 intervals
    of the comment in the code), and is then replaced by a new connection with fresh counters; it is
    not given up before.  A connection that ends by itself is replaced as well if the request is
    continuous, and otherwise ends it with its code. *)
Theorem stalled_connection_replaced junk cn cns n :
  Forall download_ok (cn_events cn) -> Forall quiet (cn_events cn) -> cn_end cn <> CURLE_ABORTED_BY_CALLBACK ->
  gga_ok (gga (ctx n)) -> limited (ctx n) = false -> no_signals (ctx n) ->
  let evs := cn_events cn in
  let k := first_stall (bytes_transfered (counters (ctx n))) (byte_move_time (counters (ctx n))) evs in
  exists n', sink n' = sink n ++ delivered (default (length evs) k) evs /\
    if bool_decide (is_Some k) || continuous (conf (ctx n))
    then network_request junk (cn :: cns) n = network_request junk cns n' /\
         counters (ctx n') = mk_counters 0 (cn_now cn) 0 (cn_now cn)
    else network_request junk (cn :: cns) n = Ret (cn_end cn, n').
Proof.
  intros Hev Hq Hend Hg Hlim Hsig evs k.
  assert (limit_ok (ctx n)) as Hl by (intros H; congruence).
  destruct (perform_quiet junk evs (cn_end cn) n (bytes_transfered (counters (ctx n)))
              (byte_move_time (counters (ctx n)))) as (n1 & Hp & Hm & Hs1 & Hs2); [done..|].
  fold k in Hp, Hm. cbn [network_request]. fold evs. rewrite Hp, bind_Ret, Hs1.
  assert (forall n2, moved n1 n2 [] -> exists c,
    refresh_headers junk (cn_file cn) (network_reset_counters (cn_now cn) (ctx n2)) = Ret c /\
    counters c = mk_counters 0 (cn_now cn) 0 (cn_now cn)) as Hre.
  { intros n2 H2. destruct (reconnect_ok junk (cn_file cn) (cn_now cn) n2) as (c & H & _ & _ & _ & _ & Hc & _);
      [apply H2..|]. by exists c. }
  pose proof (moved_sink _ _ _ Hm) as Hsink. destruct k as [i|]; cbn [default] in *.
  - rewrite (bool_decide_eq_true_2 (CURLE_ABORTED_BY_CALLBACK = _)) by done. cbn [negb andb].
    destruct (Hre n1) as (c & -> & Hc); [apply moved_refl; apply Hm|]. rewrite bind_Ret.
    exists (with_ctx n1 c). split; [done|]. rewrite bool_decide_eq_true_2 by done. simpl. by split.
  - rewrite (bool_decide_eq_false_2 (cn_end cn = _)) by done. cbn [negb andb].
    rewrite (bool_decide_eq_false_2 (is_Some None)) by (intros [? ?]; done). cbn [orb].
    pose proof (note_moved (cn_end cn) cn n1 (moved_gga _ _ _ Hm) (moved_limit _ _ _ Hm)) as Hm2.
    set (n2 := note_response (cn_end cn) cn n1) in *.
    assert (sink n2 = sink n1) as Hs by (rewrite (moved_sink _ _ _ Hm2); by rewrite app_nil_r).
    rewrite (moved_conf _ _ _ Hm2), (moved_conf _ _ _ Hm). destruct (continuous (conf (ctx n))); cbn [negb].
    + destruct (Hre n2 Hm2) as (c & -> & Hc). rewrite bind_Ret. exists (with_ctx n2 c). simpl.
      split; [by rewrite Hs|]. by split.
    + exists n2. split; [by rewrite Hs|done].
Qed.

Definition stalled_connection : connection :=
  mk_connection [Ev_data [7]%Z [W_count 1]; Ev_download_progress 2 no_fifo 1 0; Ev_download_progress 11 no_fifo 1 0;
                 Ev_download_progress 12 no_fifo 1 0; Ev_data [8]%Z [W_count 1]] CURLE_OK 200 13 G_missing.

Lemma stalled_connection_replaced_witness :
  exists n', sink n' = [7]%Z /\
    network_request "000"%char [stalled_connection] (ota_client SIZE_MAX) = network_request "000"%char [] n'.
Proof.
  destruct (stalled_connection_replaced "000"%char stalled_connection [] (ota_client SIZE_MAX)) as (n' & Hs & H).
  - repeat constructor; (exists 0, []; reflexivity) || (vm_compute; discriminate).
  - repeat constructor.
  - discriminate.
  - exact I.
  - reflexivity.
  - split; reflexivity.
  - exists n'. split; [exact Hs|]. exact (proj1 H).
Defined.

(** ** The control FIFOs

    [mkfifo] returns 0, not a descriptor: destroying a context with control FIFOs closes the
    descriptor 0 twice. *)
Lemma control_closes_stdin req rep c :
  control_fifo_info c = control_fifo_info empty_context ->
  let '(st, c', _) := libnetwork_configure_control true true req rep c in
  st = NETWORK_STATUS_SUCCESS /\ libnetwork_destroy c' = [0; 0]%Z.
Proof. intros Hf. unfold libnetwork_configure_control, libnetwork_destroy. simpl. by rewrite Hf. Qed.

(** A string setting is stored whole and terminated, or refused. *)
Lemma copy_setting_cases dst max s :
  length dst = max -> 0 < max -> dst !! (max - 1) = Some NUL -> no_nul s ->
  exists d, copy_setting dst max s =
    Ret (if length s <? max then NETWORK_STATUS_SUCCESS else NETWORK_STATUS_URL_TOO_LARGE, d) /\
    buf_str d = (if length s <? max then Ret s else buf_str dst).
Proof.
  intros Hd Hm Hn Hs. unfold copy_setting. destruct (length s <? max) eqn:E; bool_hyps.
  - destruct (max <? length s + 1) eqn:E2; bool_hyps; [lia|]. unfold strncpy. fold (pad (max - 1) s).
    rewrite take_ge by (rewrite length_pad; lia). rewrite memcpy_ok by (rewrite length_pad; lia).
    rewrite bind_Ret, take_0, app_nil_l, length_pad by lia. eexists. split; [done|].
    apply in_buf_str. split; [done|]. unfold pad. rewrite <-app_assoc.
    assert (drop (0 + (max - 1)) dst = [NUL]) as ->.
    { rewrite Nat.add_0_l, (drop_S _ NUL) by done. by rewrite drop_ge by lia. }
    destruct (max - 1 - length s) as [|m]; [by exists []|]. by exists (replicate m NUL ++ [NUL]).
  - destruct (max <? length s + 1) eqn:E2; bool_hyps; [|lia]. eauto.
Qed.

(** The headers of a reconnection of the NTRIP client lack [Transfer-Encoding:]. *)
Example reconnect_headers :
  let n := gga_client 10 in
  let c0 := network_setup true 0 (ctx n) in
  match ntrip_init_headers "000"%char G_missing c0.2 with
  | Ret c =>
      let c := set_headers (set_hooks c false true) (headers c ++ [text_of "Transfer-Encoding:"]) in
      match refresh_headers "000"%char G_missing (network_reset_counters 5 c) with
      | Ret c' => (length (headers c), length (headers c'))
      | _ => (0, 0)
      end
  | _ => (0, 0)
  end = (3, 2).
Proof. reflexivity. Qed.
