(* ===== verification/Version.v ===== *)
(** * Versions ([libpiksi/libpiksi/src/version.c], [sha256.c], and [file_read_string] of [util.c])

    Firmware versions as text, and their comparison: [v2.1.0-develop] is a prefix and a suffix
    for development builds around three numbers.  The theorems: a version that is printed is
    parsed back; a comparison is 0 exactly for equal versions; a prefix of 64 characters is
    stored without a terminator, and reading it back runs past its array. *)

From Stdlib Require Import Ascii.
From S2P Require Import Prelude Libc Text ResLines.

(** ** Reading a line of a file

    [file_read_string]: the result and the array, cleared and then filled by [fgets] with the
    first line of the file, newline included, as far as it fits. *)
Definition file_read_string (file : option text) (str_size : nat) : Z * text :=
  match file with
  | None | Some [] => ((-1)%Z, replicate str_size NUL)
  | Some t =>
      let line := take_while (fun c => negb (bool_decide (c = newline_char))) t in
      let line := if length line <? length t then line ++ [newline_char] else line in
      (0%Z, pad str_size (take (str_size - 1) line))
  end.

(** ** Versions *)

Definition VERSION_MAXLEN : nat := 128.
Definition VERSION_DEVSTRING_MAXLEN : nat := 64.

Record piksi_version_t := mk_version { marketing : Z; major : Z; patch : Z; devstr : text }.

(** [%d] of [sscanf]: blanks, a sign, digits; out of range gives the nearest [int]. *)
Definition read_int (t : text) : option (Z * text) :=
  let '(neg, s) := skip_sign (skip_space (string_of t)) in
  match s with
  | String.String c _ =>
      if isdigit c then
        let '(v, rest) := dec_digits s 0 in
        let v := (if (neg : bool) then - v else v)%Z in
        Some (Z.max (- 2 ^ 31) (Z.min (2 ^ 31 - 1) v), text_of rest)
      else None
  | EmptyString => None
  end.

Definition read_dot (t : text) : option text :=
  match t with c :: t' => if bool_decide (c = "."%char) then Some t' else None | [] => None end.

(** [sscanf(str, "%d.%d.%d%s", ...)]: the number of conversions, the numbers (0 where none was
    stored) and the word that follows. *)
Definition scan_version (t : text) : nat * Z * Z * Z * text :=
  match read_int t with
  | None => (0, 0%Z, 0%Z, 0%Z, [])
  | Some (a, t) =>
      match read_dot t ≫= read_int with
      | None => (1, a, 0%Z, 0%Z, [])
      | Some (b, t) =>
          match read_dot t ≫= read_int with
          | None => (2, a, b, 0%Z, [])
          | Some (c, t) =>
              let tail := take_while (fun x => negb (isspace x)) (drop_while isspace t) in
              if length tail =? 0 then (3, a, b, c, []) else (4, a, b, c, tail)
          end
      end
  end.

Definition version_parse_str (str : text) : outcome (Z * piksi_version_t) :=
  let len := length str in
  let idx := length (take_while (fun c => negb (isdigit c)) str) in
  if (len <=? idx) || (VERSION_DEVSTRING_MAXLEN <? idx)
  then Ret (1%Z, mk_version 0 0 0 (replicate VERSION_DEVSTRING_MAXLEN NUL))
  else
    dev ← memcpy (replicate VERSION_DEVSTRING_MAXLEN NUL) 0 (take idx str);
    let '(res, a, b, c, tail) := scan_version (drop idx str) in
    if len <? length tail + 1 then Undef                                  (* char tail[len] *)
    else
      match res with
      | 3 => Ret (0%Z, mk_version a b c dev)
      | 4 =>
          if starts_with (text_of "-") tail then
            let room := VERSION_DEVSTRING_MAXLEN - idx in
            dev ← (if room =? 0 then Ret dev else memcpy dev idx (take (room - 1) tail ++ [NUL]));
            Ret (0%Z, mk_version a b c dev)
          else Ret (1%Z, mk_version a b c dev)
      | _ => Ret (1%Z, mk_version a b c dev)
      end.

Definition version_is_dev (v : piksi_version_t) : outcome bool :=
  s ← buf_str (devstr v);
  Ret (match s with [] => false | [c] => negb (bool_decide (c = "v"%char)) | _ => true end).

(** The difference of two [int]s, undefined when it does not fit. *)
Definition int_sub (a b : Z) : outcome Z :=
  if ((- 2 ^ 31 <=? a - b) && (a - b <? 2 ^ 31))%Z then Ret (a - b)%Z else Undef.

Definition version_cmp (a b : piksi_version_t) : outcome Z :=
  if negb (marketing a =? marketing b)%Z then int_sub (marketing a) (marketing b)
  else if negb (major a =? major b)%Z then int_sub (major a) (major b)
  else int_sub (patch a) (patch b).

(** [strcmp] *)
Fixpoint strcmp (a b : text) : Z :=
  match a, b with
  | [], [] => 0%Z
  | [], c :: _ => (- Z.of_nat (nat_of_ascii c))%Z
  | c :: _, [] => Z.of_nat (nat_of_ascii c)
  | c :: a', d :: b' =>
      if bool_decide (c = d) then strcmp a' b' else (Z.of_nat (nat_of_ascii c) - Z.of_nat (nat_of_ascii d))%Z
  end.

Definition version_devstr_cmp (a b : piksi_version_t) : outcome Z :=
  x ← buf_str (devstr a); y ← buf_str (devstr b); Ret (strcmp x y).

Definition version_current_get_str (file : option text) (str_size : nat) : Z * text :=
  file_read_string file str_size.

Definition version_current_get (file : option text) : outcome (Z * option piksi_version_t) :=
  let '(rc, ver) := file_read_string file 64 in
  if negb (rc =? 0)%Z then Ret ((-1)%Z, None)
  else
    '(rc, v) ← version_parse_str (c_str ver);
    Ret (if negb (rc =? 0)%Z then (-1)%Z else 0%Z, Some v).

(** ** Checksums *)

Definition SHA256SUM_LEN : nat := 65.

(** [ch] is the command [sha256sum] on the file. *)
Definition sha256sum_file (ch : child) (sha : text) (sha_size : nat) : outcome (Z * text) :=
  if negb (SHA256SUM_LEN <=? sha_size) then Undef else run_with_stdin_file ch sha sha_size.

Definition sha256sum_cmp (a b : text) : Z :=
  if negb (length a =? SHA256SUM_LEN - 1) || negb (length b =? SHA256SUM_LEN - 1) then (-1)%Z
  else strcmp a b.

(** ** Comparison *)

Lemma ascii_code_inj c d : Z.of_nat (nat_of_ascii c) = Z.of_nat (nat_of_ascii d) -> c = d.
Proof. intros H. rewrite <-(ascii_nat_embedding c), <-(ascii_nat_embedding d). f_equal. lia. Qed.

Lemma strcmp_eq a b : no_nul a -> no_nul b -> strcmp a b = 0%Z <-> a = b.
Proof.
  revert b. induction a as [|c a IH]; intros [|d b] Ha Hb; simpl; try done.
  - split; [|done]. intros H. exfalso. apply Hb, elem_of_cons. left. apply ascii_code_inj. change (nat_of_ascii NUL) with 0. lia.
  - split; [|done]. intros H. exfalso. apply Ha, elem_of_cons. left. apply ascii_code_inj. change (nat_of_ascii NUL) with 0. lia.
  - apply not_elem_of_cons in Ha as [_ Ha]. apply not_elem_of_cons in Hb as [_ Hb].
    case_bool_decide as E.
    + subst. rewrite IH by done. split; congruence.
    + split; [|congruence]. intros H. exfalso. apply E, ascii_code_inj. lia.
Qed.

(** A version as the parser leaves it: numbers of an [int] that were printed without a sign, and
    a terminated string. *)
Definition is_int (z : Z) : Prop := (0 <= z < 2 ^ 31)%Z.
Record version_ok (v : piksi_version_t) (dev : text) : Prop := {
  ok_marketing : is_int (marketing v); ok_major : is_int (major v); ok_patch : is_int (patch v);
  ok_dev : in_buf dev (devstr v);
}.

Lemma int_sub_ok a b : is_int a -> is_int b -> int_sub a b = Ret (a - b)%Z.
Proof.
  unfold is_int, int_sub. intros Ha Hb.
  destruct ((- 2 ^ 31 <=? a - b) && (a - b <? 2 ^ 31))%Z eqn:E; [done|].
  apply andb_false_iff in E as [E|E]; bool_hyps; lia.
Qed.

(** The comparison of two versions is defined and orders them by their three numbers. *)
Lemma version_cmp_spec a b da db :
  version_ok a da -> version_ok b db ->
  exists r, version_cmp a b = Ret r /\
    (r = 0%Z <-> marketing a = marketing b /\ major a = major b /\ patch a = patch b) /\
    ((0 < r)%Z <-> marketing b < marketing a \/ marketing a = marketing b /\
       (major b < major a \/ major a = major b /\ patch b < patch a))%Z.
Proof.
  intros [Ha1 Ha2 Ha3 _] [Hb1 Hb2 Hb3 _]. unfold version_cmp.
  destruct (Z.eqb_spec (marketing a) (marketing b)); simpl.
  - destruct (Z.eqb_spec (major a) (major b)); simpl;
      rewrite int_sub_ok by done; eexists; (split; [done|]); split; lia.
  - rewrite int_sub_ok by done. eexists. split; [done|]. split; lia.
Qed.

(** ** Printing and parsing *)

Definition print_version (pre : text) (a b c : Z) (suf : text) : text :=
  pre ++ text_of (print_u a) ++ text_of "." ++ text_of (print_u b) ++ text_of "." ++ text_of (print_u c) ++ suf.

(** What may stand before and after the numbers. *)
Definition prefix_ok (pre : text) : Prop := Forall (fun c => isdigit c = false) pre /\ no_nul pre.
Definition suffix_ok (suf : text) : Prop :=
  no_nul suf /\ (suf = [] \/ exists t, suf = text_of "-" ++ t /\ Forall (fun c => isspace c = false) t).

(** A printed number is read back up to a character that is not a digit. *)
Lemma read_int_print v rest :
  is_int v -> match rest with c :: _ => isdigit c = false | [] => True end ->
  read_int (text_of (print_u v) ++ rest) = Some (v, rest).
Proof.
  intros Hv Hr. unfold is_int in Hv. destruct (print_u_props v) as (ds & -> & Hd & Hne & Hval).
  unfold read_int. rewrite string_of_app. destruct ds as [|d ds]; [done|].
  assert (Hd1 := Hd). apply Forall_cons in Hd1 as [Hd1 _].
  destruct (digit_char_props d) as (_ & H2 & H3 & H4 & H5 & _); [lia|].
  rewrite digit_string_cons. cbn [skip_space]. rewrite H3. cbn [skip_sign]. rewrite H4, H5.
  assert (isdigit (digit_char d) = true) as ->.
  { specialize (H2 (proj2 Hd1)). unfold dec_digit in H2. by destruct (isdigit (digit_char d)). }
  rewrite <-digit_string_cons, dec_digits_string by done. fold (digits_value 10 (d :: ds)). rewrite Hval by lia.
  assert (dec_digits (string_of rest) v = (v, string_of rest)) as ->.
  { destruct rest as [|c rest]; [done|]. unfold string_of. simpl. unfold dec_digit. by rewrite Hr. }
  rewrite text_string. do 2 f_equal. lia.
Qed.

Lemma print_u_digit v rest : is_int v -> exists c t, text_of (print_u v) ++ rest = c :: t /\ isdigit c = true.
Proof.
  intros Hv. destruct (print_u_props v) as (ds & -> & Hd & Hne & _). destruct ds as [|d ds]; [done|].
  apply Forall_cons in Hd as [Hd1 _]. destruct (digit_char_props d) as (_ & H2 & _); [lia|].
  specialize (H2 (proj2 Hd1)). eexists _, _. split; [reflexivity|]. unfold dec_digit in H2. by destruct (isdigit _).
Qed.

Lemma take_while_prefix {A} (f : A -> bool) a c b :
  Forall (fun x => f x = true) a -> f c = false -> take_while f (a ++ c :: b) = a.
Proof. intros Ha Hc. induction Ha as [|x a Hx _ IH]; simpl; [by rewrite Hc|]. by rewrite Hx, IH. Qed.

Lemma scan_version_print a b c suf :
  is_int a -> is_int b -> is_int c -> suffix_ok suf ->
  scan_version (text_of (print_u a) ++ text_of "." ++ text_of (print_u b) ++ text_of "." ++ text_of (print_u c) ++ suf)
  = (if length suf =? 0 then 3 else 4, a, b, c, suf).
Proof.
  intros Ha Hb Hc [_ Hs]. unfold scan_version.
  assert (forall v rest, is_int v -> read_int (text_of (print_u v) ++ text_of "." ++ rest) = Some (v, text_of "." ++ rest)) as Hrd.
  { intros v rest Hv. by apply read_int_print. }
  assert (forall rest, read_dot (text_of "." ++ rest) = Some rest) as Hdot by done.
  rewrite Hrd, Hdot by done. cbn [mbind option_bind]. rewrite Hrd, Hdot by done. cbn [mbind option_bind].
  rewrite read_int_print; [|done|].
  2:{ destruct Hs as [->|(t & -> & _)]; done. }
  destruct Hs as [->|(t & -> & Ht)]; [done|].
  change (text_of "-" ++ t) with ("-"%char :: t). cbn [drop_while].
  change (isspace "-") with false. cbv iota.
  assert (take_while (fun x => negb (isspace x)) ("-"%char :: t) = "-"%char :: t) as ->; [|done].
  apply take_while_all. constructor; [done|]. eapply Forall_impl; [exact Ht|]. intros x ->. done.
Qed.

(** Versions round trip.  A version printed with any prefix without digits (such as [v]) and
    any suffix that begins with a dash, both together shorter than 64 characters, is parsed back
    into its numbers and the joined prefix and suffix. *)
Theorem version_roundtrip pre a b c suf :
  prefix_ok pre -> suffix_ok suf -> length pre + length suf < VERSION_DEVSTRING_MAXLEN ->
  is_int a -> is_int b -> is_int c ->
  exists v, version_parse_str (print_version pre a b c suf) = Ret (0%Z, v) /\
    v = mk_version a b c (pad VERSION_DEVSTRING_MAXLEN (pre ++ suf)) /\ version_ok v (pre ++ suf).
Proof.
  intros [Hp Hpn] Hs Hlen Ha Hb Hc. unfold version_parse_str, print_version.
  set (nums := text_of (print_u a) ++ _). destruct (print_u_digit a (text_of "." ++ text_of (print_u b) ++ text_of "." ++ text_of (print_u c) ++ suf) Ha) as (d & t & Hd & Hdig).
  fold nums in Hd.
  assert (take_while (fun c => negb (isdigit c)) (pre ++ nums) = pre) as ->.
  { rewrite Hd. apply take_while_prefix; [|by rewrite Hdig]. eapply Forall_impl; [exact Hp|]. by intros x ->. }
  unfold VERSION_DEVSTRING_MAXLEN in *.
  assert ((length (pre ++ nums) <=? length pre) = false) as ->.
  { apply Nat.leb_gt. rewrite length_app, Hd. simpl. lia. }
  destruct (64 <? length pre) eqn:E; bool_hyps; [lia|]. cbn [orb].
  rewrite take_app_length, drop_app_length, memcpy_ok by (rewrite length_replicate; lia).
  rewrite bind_Ret, take_0, app_nil_l, Nat.add_0_l, drop_replicate.
  assert (Hs' := Hs). unfold nums at 1. rewrite scan_version_print by done. destruct Hs' as [Hsn Hs'].
  assert ((length (pre ++ nums) <? length suf + 1) = false) as ->.
  { apply Nat.ltb_ge. unfold nums. rewrite !length_app. change (length (text_of ".")) with 1. lia. }
  assert (version_ok (mk_version a b c (pad 64 (pre ++ suf))) (pre ++ suf)) as Hok.
  { split; [done..|]. split; [unfold no_nul in *; set_solver|]. unfold pad. simpl. rewrite length_app.
    destruct (64 - (length pre + length suf)) as [|m] eqn:Em; [lia|]. by exists (replicate m NUL). }
  exists (mk_version a b c (pad 64 (pre ++ suf))). split; [|split; [reflexivity|exact Hok]]. clear Hok.
  destruct Hs' as [->|(u & -> & _)]; cbn [length Nat.eqb].
  - unfold pad. by rewrite app_nil_r.
  - change (length (text_of "-" ++ u) =? 0) with false. cbv iota. change (length (text_of "-" ++ u)) with (S (length u)) in Hlen.
    assert (starts_with (text_of "-") (text_of "-" ++ u) = true) as -> by by apply bool_decide_eq_true_2.
    destruct (64 - length pre =? 0) eqn:E2; bool_hyps; [lia|].
    change (text_of "-" ++ u) with ("-"%char :: u). rewrite take_ge by (simpl; lia).
    rewrite memcpy_ok by (rewrite !length_app, length_replicate; simpl; lia).
    rewrite bind_Ret. do 3 f_equal. unfold pad.
    rewrite take_app_length, <-!app_assoc. f_equal. simpl. f_equal. f_equal.
    rewrite drop_app_ge by (rewrite ?length_app; simpl; lia). rewrite drop_replicate, !length_app. simpl.
    replace (64 - (length pre + S (length u))) with (S (63 - (length pre + S (length u)))) by lia. simpl.
    do 2 f_equal. lia.
Qed.

Lemma version_roundtrip_witness :
  exists v, version_parse_str (text_of "v2.10.3-rc1") = Ret (0%Z, v) /\ marketing v = 2%Z /\ major v = 10%Z /\ patch v = 3%Z.
Proof.
  destruct (version_roundtrip (text_of "v") 2 10 3 (text_of "-rc1")) as (v & Hv & -> & _).
  - split; [repeat constructor|]. unfold no_nul. apply (bool_decide_unpack _). vm_compute. exact I.
  - split; [apply (bool_decide_unpack _); vm_compute; exact I|]. right. exists (text_of "rc1"). split; [done|]. repeat constructor.
  - vm_compute. lia.
  - unfold is_int. lia.
  - unfold is_int. lia.
  - unfold is_int. lia.
  - eexists. split; [exact Hv|]. done.
Defined.

(** A prefix of exactly 64 characters is stored without a NUL. *)
Lemma long_prefix_unterminated pre a b c :
  prefix_ok pre -> length pre = VERSION_DEVSTRING_MAXLEN -> is_int a -> is_int b -> is_int c ->
  exists v, version_parse_str (print_version pre a b c []) = Ret (0%Z, v) /\ version_is_dev v = Undef.
Proof.
  intros [Hp Hpn] Hlen Ha Hb Hc. unfold version_parse_str, print_version.
  set (nums := text_of (print_u a) ++ _). destruct (print_u_digit a (text_of "." ++ text_of (print_u b) ++ text_of "." ++ text_of (print_u c) ++ []) Ha) as (d & t & Hd & Hdig).
  fold nums in Hd.
  assert (take_while (fun c => negb (isdigit c)) (pre ++ nums) = pre) as ->.
  { rewrite Hd. apply take_while_prefix; [|by rewrite Hdig]. eapply Forall_impl; [exact Hp|]. by intros x ->. }
  unfold VERSION_DEVSTRING_MAXLEN in *. rewrite Hlen.
  assert ((length (pre ++ nums) <=? 64) = false) as ->.
  { apply Nat.leb_gt. rewrite length_app, Hd. simpl. lia. }
  change (64 <? 64) with false. cbn [orb].
  rewrite take_app_length', drop_app_length' by done. rewrite memcpy_ok by (rewrite length_replicate; lia).
  rewrite bind_Ret. unfold nums at 1.
  rewrite scan_version_print by (done || (split; [by apply not_elem_of_nil|by left])).
  destruct (length (pre ++ nums) <? length [] + 1) eqn:E; bool_hyps; [rewrite length_app in E; simpl in E; lia|].
  eexists. split; [done|]. unfold version_is_dev, buf_str. cbn [devstr].
  rewrite take_0, app_nil_l, drop_ge, app_nil_r by (rewrite length_replicate; lia).
  by rewrite bool_decide_eq_false_2.
Qed.
