(* ===== verification/Ota.v ===== *)
(** * Over-the-air upgrades ([ota_daemon/src/ota_daemon.c])

    The client asks a server for the current firmware, compares versions, downloads the image,
    checks its checksum and starts the upgrade.  Outside the sources: the JSON parser ([json] gives
    the members of the object that the response is, as text, [None] for a NULL; it is [None] itself
    for a response that is not a JSON object), the command [sha256sum], and what the system calls
    of each round answer.

    The theorems: an upgrade is only started on an image that was downloaded completely in that
    round and whose checksum is the one the response names, for a version that differs from the
    installed one; when the client reads outside a mapping or an array; and that a request to stop
    between the two transfers of a round is forgotten. *)

From Stdlib Require Import Ascii.
From S2P Require Import Prelude Libc Text ResLines Runit Network Version.

Definition OTA_ENQUIRE_MAX_BYTES : Z := 4 * 1024.
Definition OTA_DOWNLOAD_MAX_BYTES : Z := 30 * 1024 * 1024.
Definition PAGE_SIZE : nat := Z.to_nat 4096.

(** [ota_resp_t]: the strings in its arrays. *)
Record ota_resp_t := mk_resp { resp_url : text; resp_sha256 : text; resp_version : text }.

(** What the system answers in a round of the loop. *)
Record ota_round := mk_round {
  r_timeout : bool;                                      (* [sigtimedwait] timed out *)
  r_fd_resp : option Z; r_fd_img : option Z;             (* [open] of the two files *)
  r_uuid_file : option text; r_version_file : option text;
  r_enq_ok : bool; r_enq_now : Z; r_enq : list connection;
  r_map_ok : bool;                                       (* [open], [fstat] and [mmap] of the response *)
  r_term : bool;                                         (* a signal to stop between the transfers *)
  r_dl_ok : bool; r_dl_now : Z; r_dl : list connection;
  r_ready : bool; r_fails : fs_call -> bool;             (* for [start_runit_service] *)
}.

(** The state of the client: its context, the two files and their descriptors (-1 when closed),
    the services, and the images on which an upgrade was started. *)
Record ota := mk_ota {
  o_ctx : network_context_t; o_resp : list Z; o_img : list Z; o_fd_resp : Z; o_fd_img : Z;
  o_runit : runit_world; o_started : list (list Z);
}.

Section ota.
Variable junk : ascii.
Variable json : list Z -> option (text -> option text).
Variable sha256sum : list Z -> child.
Variables (opt_url : text) (opt_debug : bool).

Definition upgrade_config : runit_config_t :=
  mk_cfg "/var/run/ota_daemon/sv" "upgrade_tool"
    "sh -c 'set -o pipefail; sudo upgrade_tool --debug /data/ota/image && sudo /etc/init.d/do_sbp_msg_reset'"
    None None false.

(** [true] when something failed. *)
Definition configure_libnetwork (fd : Z) (url : text) (max : Z) (c : network_context_t) :
    outcome (bool * network_context_t) :=
  '(status, c) ← libnetwork_set_url url c;
  if negb (bool_decide (status = NETWORK_STATUS_SUCCESS)) then Ret (true, c)
  else
    c ← libnetwork_set_max_bytes max (libnetwork_set_continuous false
          (libnetwork_set_debug opt_debug (libnetwork_set_fd fd c)));
    Ret (false, c).

Definition ota_upgrade (ready : bool) (fails : fs_call -> bool) (w : runit_world) : outcome (runit_world * Z) :=
  start_runit_service ready fails upgrade_config w.

(** 0 when the checksum of the image is the expected one. *)
Definition ota_sha256sum (image : list Z) (expected : text) : outcome Z :=
  '(rc, actual) ← sha256sum_file (sha256sum image) (replicate SHA256SUM_LEN NUL) SHA256SUM_LEN;
  if negb (rc =? 0)%Z then Ret (-1)%Z
  else
    actual ← buf_str actual;
    Ret (if (sha256sum_cmp actual expected =? 0)%Z then 0%Z else (-1)%Z).

Definition ota_dev_version_check (offered current : piksi_version_t) : outcome Z :=
  _ ← version_is_dev offered; _ ← version_is_dev current;
  version_devstr_cmp offered current.

Definition ota_version_check (offered : text) (file : option text) : outcome Z :=
  '(rc, offered_parsed) ← version_parse_str offered;
  if negb (rc =? 0)%Z then Ret 0%Z
  else
    let '(rc, current) := version_current_get_str file VERSION_MAXLEN in
    if negb (rc =? 0)%Z then Ret 0%Z
    else
      '(rc, current_parsed) ← version_parse_str (c_str current);
      if negb (rc =? 0)%Z then Ret 0%Z
      else
        ret ← ota_dev_version_check offered_parsed current_parsed;
        if negb (ret =? 0)%Z then Ret ret else version_cmp offered_parsed current_parsed.

(** A member of the response as [snprintf] stores it (a NULL prints as [(null)], and a member of
    what is not an object is NULL), and whether it fitted. *)
Definition ota_get_json_str (response : list Z) (name : text) (size : nat) : bool * text :=
  let s := default (text_of "(null)") (members ← json response; members name) in
  (length s <? size, take (size - 1) s).

(** The file is mapped and parsed as a string: it has no NUL, so a file that fills its last page
    is read past the mapping; an empty one cannot be mapped.  The object is then cleaned up with
    [json_object_object_del], which must be given an object. *)
Definition ota_parse_response (map_ok : bool) (response : list Z) : outcome (bool * ota_resp_t) :=
  if negb map_ok || (length response =? 0) then Ret (false, mk_resp [] [] [])
  else if (length response mod PAGE_SIZE =? 0) then Undef
  else
    let '(ok1, u) := ota_get_json_str response (text_of "url") (Z.to_nat 4096) in
    let '(ok2, v) := ota_get_json_str response (text_of "version") 64 in
    let '(ok3, s) := ota_get_json_str response (text_of "sha256") 65 in
    _ ← of_option (json response);                          (* json_object_object_del(fjson, "") *)
    Ret (ok1 && ok2 && ok3, mk_resp u s v).

(** [ota_create_files]: both files are emptied. *)
Definition ota_create_files (r : ota_round) (st : ota) : bool * ota :=
  match r_fd_resp r with
  | None => (false, mk_ota (o_ctx st) (o_resp st) (o_img st) (-1) (o_fd_img st) (o_runit st) (o_started st))
  | Some a =>
      match r_fd_img r with
      | None => (false, mk_ota (o_ctx st) [] (o_img st) a (-1) (o_runit st) (o_started st))
      | Some b => (true, mk_ota (o_ctx st) [] [] a b (o_runit st) (o_started st))
      end
  end.

Definition ota_close_files (st : ota) : ota :=
  mk_ota (o_ctx st) (o_resp st) (o_img st) (-1) (-1) (o_runit st) (o_started st).

Definition with_net (st : ota) (c : network_context_t) : ota :=
  mk_ota c (o_resp st) (o_img st) (o_fd_resp st) (o_fd_img st) (o_runit st) (o_started st).
Definition net_of (c : network_context_t) : net := mk_net c [] [] [] [] [].

(** How a round ends: the loop goes on, or it is left with a result. *)
Inductive ota_end := Go_on | Leave (ret : bool).

Definition ota_round_body (r : ota_round) (st : ota) : outcome (ota_end * ota) :=
  let '(ok, st) := ota_create_files r st in
  if negb ok then Ret (Leave false, st)
  else
    '(failed, c) ← configure_libnetwork (o_fd_resp st) opt_url OTA_ENQUIRE_MAX_BYTES (o_ctx st);
    let st := with_net st c in
    if (failed : bool) then Ret (Leave false, st)
    else
      '(enquired, n) ← ota_enquire junk (c_str (file_read_string (r_uuid_file r) 256).2)
                         (c_str (version_current_get_str (r_version_file r) 32).2)
                         (r_enq_ok r) (r_enq_now r) (r_enq r) (net_of (o_ctx st));
      let st := mk_ota (ctx n) (sink n) (o_img st) (o_fd_resp st) (o_fd_img st) (o_runit st) (o_started st) in
      if negb enquired then Ret (Go_on, ota_close_files st)
      else
        '(parsed, resp) ← ota_parse_response (r_map_ok r) (o_resp st);
        if negb parsed then Ret (Go_on, ota_close_files st)
        else
          check ← ota_version_check (resp_version resp) (r_version_file r);
          if (check =? 0)%Z then Ret (Go_on, ota_close_files st)
          else
            let st := if r_term r then with_net st (libnetwork_shutdown NETWORK_TYPE_OTA (o_ctx st)) else st in
            '(failed, c) ← configure_libnetwork (o_fd_img st) (resp_url resp) OTA_DOWNLOAD_MAX_BYTES (o_ctx st);
            let st := with_net st c in
            if (failed : bool) then Ret (Leave false, st)
            else
              '(downloaded, n) ← ota_download junk (r_dl_ok r) (r_dl_now r) (r_dl r) (net_of (o_ctx st));
              let st := mk_ota (ctx n) (o_resp st) (sink n) (o_fd_resp st) (o_fd_img st) (o_runit st) (o_started st) in
              let st := ota_close_files st in
              if negb downloaded then Ret (Go_on, st)
              else
                mismatch ← ota_sha256sum (o_img st) (resp_sha256 resp);
                if negb (mismatch =? 0)%Z then Ret (Go_on, st)
                else
                  '(w, _) ← ota_upgrade (r_ready r) (r_fails r) (o_runit st);
                  Ret (Go_on, mk_ota (o_ctx st) (o_resp st) (o_img st) (o_fd_resp st) (o_fd_img st) w
                                (o_started st ++ [o_img st])).

(** The loop over the rounds; [None] while it goes on.  Leaving it closes the files. *)
Fixpoint ota_client_loop (rounds : list ota_round) (st : ota) : outcome (option bool * ota) :=
  match rounds with
  | [] => Ret (None, st)
  | r :: rounds' =>
      if shutdown_signaled (o_ctx st) || negb (r_timeout r) then Ret (Some true, ota_close_files st)
      else
        '(e, st) ← ota_round_body r st;
        match e with
        | Leave ret => Ret (Some ret, ota_close_files st)
        | Go_on => ota_client_loop rounds' st
        end
  end.

Definition ota_start (w : runit_world) : ota :=
  mk_ota (hd empty_context (libnetwork_create NETWORK_TYPE_OTA [])) [] [] (-1) (-1) w [].
End ota.

(** ** Invariant and contracts *)

(** A context as the client keeps it: the cache of sentences in order, the array of the URL, the type. *)
Definition ctx_ok (c : network_context_t) : Prop :=
  gga_ok (gga c) /\ length (url (conf c)) = LIBNETWORK_URL_MAX_LENGTH /\ type (conf c) = NETWORK_TYPE_OTA.

(** The transfers of a round deliver to files that take every write. *)
Definition round_ok (r : ota_round) : Prop :=
  Forall (fun cn => Forall download_ok (cn_events cn)) (r_enq r) /\
  Forall (fun cn => Forall download_ok (cn_events cn)) (r_dl r).

Lemma configure_ok dbg d u max c :
  ctx_ok c -> (max < SIZE_MAX)%Z ->
  exists failed c', configure_libnetwork dbg d u max c = Ret (failed, c') /\ ctx_ok c' /\
    (failed = false -> max_bytes (conf c') = max /\ continuous (conf c') = false).
Proof.
  intros (Hg & Hu & Hty) Hm. unfold configure_libnetwork, libnetwork_set_url, copy_setting.
  destruct (LIBNETWORK_URL_MAX_LENGTH <? length u + 1) eqn:E.
  - rewrite !bind_Ret. eexists true, _. split; [done|]. split; [by split_and!|done].
  - unfold strncpy. bool_hyps. rewrite memcpy_ok by (rewrite Hu, length_take, length_app, length_replicate; lia).
    rewrite !bind_Ret. rewrite bool_decide_eq_true_2 by done. cbn [negb]. unfold libnetwork_set_max_bytes.
    assert ((max <? SIZE_MAX)%Z = true) as -> by by apply Z.ltb_lt. cbn [negb]. rewrite bind_Ret.
    eexists false, _. split; [done|]. split; [|done]. split; [done|]. split; [|done].
    cbn [url conf set_conf libnetwork_set_continuous libnetwork_set_debug libnetwork_set_fd]. rewrite <-Hu. apply (length_memcpy (url (conf c)) 0). rewrite length_take, length_app, length_replicate. lia.
Qed.

(** What a transfer begun at [now] delivers with success, by the specification of downloads;
    [cycle]: a new connection was asked for before. *)
Definition fetched (now : Z) (cns : list connection) (max : Z) (bytes : list Z) : Prop :=
  exists cycle, spec_request max NETWORK_TYPE_OTA false cns (mk_watch 0 0 now false cycle) = Some (CURLE_OK, bytes).

(** The transfer needs more connections than these. *)
Definition unfinished (now : Z) (cns : list connection) (max : Z) : Prop :=
  exists cycle, spec_request max NETWORK_TYPE_OTA false cns (mk_watch 0 0 now false cycle) = None.

Lemma request_ok junk cns now max c :
  ctx_ok c -> max_bytes (conf c) = max -> (0 <= max)%Z -> (max + CURL_MAX_WRITE_SIZE < 2 ^ 32)%Z ->
  Forall (fun cn => Forall download_ok (cn_events cn)) cns ->
  continuous (conf c) = false -> shutdown_signaled c = false ->
  match network_request junk cns (network_setup_download now (net_of c)) with
  | Undef => False
  | Diverge => unfinished now cns max
  | Ret (code, n) => ctx_ok (ctx n) /\ (code = CURLE_OK -> fetched now cns max (sink n))
  end.
Proof.
  intros (Hg & Hu & Hty) Hm H0 H1 Hall Hcont Hstop.
  assert (limit_ok (ctx (network_setup_download now (net_of c)))) as Hl.
  { intros _. simpl. rewrite Hm. lia. }
  pose proof (request_spec junk cns (network_setup_download now (net_of c)) _ Hall Hg Hl (tracks_self _)) as H.
  assert (exists cycle, watch_of (ctx (network_setup_download now (net_of c))) = mk_watch 0 0 now false cycle)
    as [cycle Hw] by (unfold watch_of; simpl; rewrite Hstop; by eexists).
  assert (conf (ctx (network_setup_download now (net_of c))) = conf c) as Hc by done.
  rewrite Hw, Hc, Hm, Hty, Hcont in H. destruct (spec_request _ _ _ _ _) as [[code bytes]|] eqn:E.
  - destruct H as (n' & -> & Hs & Hcf & Hgg). simpl in Hs. split; [split_and!; [done|by rewrite Hcf..]|].
    intros ->. exists cycle. by rewrite Hs.
  - rewrite H. by exists cycle.
Qed.

Lemma file_read_string_length f size : 0 < size -> length (file_read_string f size).2 = size.
Proof.
  intros Hs. unfold file_read_string. destruct f as [[|x t]|]; simpl; try apply length_replicate.
  apply length_pad. rewrite length_take. lia.
Qed.

(** What both transfers of a round promise. *)
Definition transfer_spec (now : Z) (cns : list connection) (max : Z) (o : outcome (bool * net)) : Prop :=
  match o with
  | Undef => False
  | Diverge => unfinished now cns max
  | Ret (ok, n) => ctx_ok (ctx n) /\ (ok = true -> fetched now cns max (sink n))
  end.

Lemma ota_enquire_ok junk uf vf ok now cns c :
  ctx_ok c -> max_bytes (conf c) = OTA_ENQUIRE_MAX_BYTES /\ continuous (conf c) = false ->
  Forall (fun cn => Forall download_ok (cn_events cn)) cns ->
  transfer_spec now cns OTA_ENQUIRE_MAX_BYTES
    (ota_enquire junk (c_str (file_read_string uf 256).2) (c_str (file_read_string vf 32).2) ok now cns (net_of c)).
Proof.
  intros Hc [Hm Hcont] Hall. unfold ota_enquire. cbn [net_of ctx network_setup]. destruct ok; cbn [negb]; [|by split].
  assert ((length (text_of "Device-Uid: " ++ c_str (file_read_string uf 256).2) <? 270) &&
          (length (text_of "Current-Version: " ++ c_str (file_read_string vf 32).2) <? 64) = true) as ->.
  { apply andb_true_iff. rewrite !Nat.ltb_lt, !length_app.
    change (length (text_of "Device-Uid: ")) with 12. change (length (text_of "Current-Version: ")) with 17.
    pose proof (c_str_length (file_read_string uf 256).2) as H1. rewrite file_read_string_length in H1 by lia.
    pose proof (c_str_length (file_read_string vf 32).2) as H2. rewrite file_read_string_length in H2 by lia. lia. }
  cbn [negb]. match goal with |- context [with_ctx _ ?x] => set (c1 := x) end.
  assert (ctx_ok c1) as Hc1 by done.
  pose proof (request_ok junk cns now OTA_ENQUIRE_MAX_BYTES c1 Hc1 Hm) as H.
  change (with_ctx (net_of c) c1) with (net_of c1).
  specialize (H ltac:(done) ltac:(done) Hall Hcont eq_refl). destruct (network_request junk cns _) as [[code n]| |]; [|done..].
  destruct H as [Hn Hw]. simpl. split; [done|]. intros Hok. apply bool_decide_eq_true in Hok. by apply Hw.
Qed.

Lemma ota_download_ok junk ok now cns c :
  ctx_ok c -> max_bytes (conf c) = OTA_DOWNLOAD_MAX_BYTES /\ continuous (conf c) = false ->
  Forall (fun cn => Forall download_ok (cn_events cn)) cns ->
  transfer_spec now cns OTA_DOWNLOAD_MAX_BYTES (ota_download junk ok now cns (net_of c)).
Proof.
  intros Hc [Hm Hcont] Hall. unfold ota_download. cbn [net_of ctx network_setup]. destruct ok; cbn [negb]; [|by split].
  match goal with |- context [with_ctx _ ?x] => set (c1 := x) end. assert (ctx_ok c1) as Hc1 by done.
  pose proof (request_ok junk cns now OTA_DOWNLOAD_MAX_BYTES c1 Hc1 Hm) as H.
  change (with_ctx (net_of c) c1) with (net_of c1).
  specialize (H ltac:(done) ltac:(done) Hall Hcont eq_refl). destruct (network_request junk cns _) as [[code n]| |]; [|done..].
  destruct H as [Hn Hw]. simpl. split; [done|]. intros Hok. apply bool_decide_eq_true in Hok. by apply Hw.
Qed.

(** ** Versions

    The comparison of versions has no loop of its own. *)
Definition returns {A} (m : outcome A) : Prop := m <> Diverge.

Lemma returns_bind {A B} (m : outcome A) (f : A -> outcome B) :
  returns m -> (forall a, returns (f a)) -> returns (a ← m; f a).
Proof. intros Hm Hf. destruct m; [apply Hf|done|done]. Qed.

Lemma version_parse_returns s : returns (version_parse_str s).
Proof.
  unfold version_parse_str. case_match; [done|]. apply returns_bind; [unfold memcpy; by case_match|]. intros dev.
  destruct (scan_version _) as [[[[res a] b] c] tail]. case_match; [done|]. do 5 (destruct res as [|res]; try done).
  case_match; [|done]. apply returns_bind; [|done]. case_match; [done|]. unfold memcpy. by case_match.
Qed.

Lemma ota_version_check_returns v f : returns (ota_version_check v f).
Proof.
  assert (forall b, returns (buf_str b)) as Hb by (intros b; unfold buf_str; by case_match).
  assert (forall a b, returns (int_sub a b)) as Hi by (intros a b; unfold int_sub; by case_match).
  unfold ota_version_check. apply returns_bind; [apply version_parse_returns|]. intros [rc o]. case_match; [done|].
  destruct (version_current_get_str _ _) as [rc' cur]. case_match; [done|].
  apply returns_bind; [apply version_parse_returns|]. intros [rc'' c]. case_match; [done|].
  apply returns_bind.
  - unfold ota_dev_version_check, version_is_dev, version_devstr_cmp. repeat (apply returns_bind; [|intros]); auto; done.
  - intros ret. case_match; [done|]. unfold version_cmp. repeat case_match; auto.
Qed.

(** ** Checksums *)

Lemma c_str_full t : length (c_str t) = length t -> c_str t = t.
Proof.
  unfold c_str. induction t as [|c t IH]; simpl; [done|]. case_bool_decide; simpl; [lia|]. intros Hl. by rewrite IH by lia.
Qed.

(** The checksum is accepted when the command succeeds and its first 64 characters are those
    expected, and the check always returns. *)
Lemma ota_sha256sum_spec sha256sum image expected :
  no_nul expected ->
  exists r, ota_sha256sum sha256sum image expected = Ret r /\
    (r = 0%Z -> status (sha256sum image) = 0%Z /\ length expected = 64 /\
                take 64 (printed (sha256sum image)) = expected).
Proof.
  intros He. unfold ota_sha256sum, sha256sum_file. change (negb (SHA256SUM_LEN <=? SHA256SUM_LEN)) with false. cbv iota.
  rewrite run_with_stdin_file_printed by (unfold SHA256SUM_LEN; lia). rewrite bind_Ret.
  set (ch := sha256sum image). destruct (started ch); [|by eexists].
  destruct (Z.eqb_spec (status ch) 0) as [Hst|]; cbn [negb]; [|by eexists].
  unfold SHA256SUM_LEN in *. cbn [Nat.sub]. set (t := take 64 (printed ch)).
  assert (length t <= 64) as Ht by (unfold t; rewrite length_take; lia).
  assert (NUL ∈ pad 65 t) as Hn.
  { unfold pad. apply elem_of_app. right. apply elem_of_replicate. split; [done|lia]. }
  rewrite (in_buf_str _ _ (in_buf_c_str _ Hn)), bind_Ret. eexists. split; [done|].
  assert (c_str (pad 65 t) = c_str t) as ->.
  { unfold pad. destruct (65 - length t) as [|m] eqn:E; [lia|]. apply c_str_app_nul_r. }
  destruct (sha256sum_cmp (c_str t) expected =? 0)%Z eqn:E; [|done]. intros _. bool_hyps. split; [done|].
  unfold sha256sum_cmp, SHA256SUM_LEN in E. cbn [Nat.sub] in E.
  destruct (length (c_str t) =? 64) eqn:E1; [|done]. destruct (length expected =? 64) eqn:E2; [|done].
  cbn [negb orb] in E. bool_hyps. split; [done|]. apply strcmp_eq in E; [|apply c_str_nul|done].
  rewrite <-E. symmetry. apply c_str_full. pose proof (c_str_length t). lia.
Qed.

(** ** What an upgrade has gone through *)

Section verified.
Variable junk : ascii.
Variable json : list Z -> option (text -> option text).
Variable sha256sum : list Z -> child.
Variables (opt_url : text) (opt_debug : bool).
(** A member of the response is a C string. *)
Hypothesis json_no_nul : forall response members name t,
  json response = Some members -> members name = Some t -> no_nul t.

(** In this round the server answered the enquiry completely, the answer names a version that
    differs from the installed one and a checksum; the image is what a complete download
    delivered, and the command that computes checksums printed that checksum for it. *)
Definition verified (r : ota_round) (img : list Z) : Prop :=
  exists response members version sha,
    fetched (r_enq_now r) (r_enq r) OTA_ENQUIRE_MAX_BYTES response /\ json response = Some members /\
    members (text_of "version") = Some version /\ members (text_of "sha256") = Some sha /\
    (exists d, ota_version_check version (r_version_file r) = Ret d /\ d <> 0%Z) /\
    fetched (r_dl_now r) (r_dl r) OTA_DOWNLOAD_MAX_BYTES img /\
    status (sha256sum img) = 0%Z /\ length sha = 64 /\ take 64 (printed (sha256sum img)) = sha.

(** The answer to the enquiry fills its last page, or is not a JSON object, or names a version on
    which the comparison of versions is undefined. *)
Definition bad_round (r : ota_round) : Prop :=
  exists response, fetched (r_enq_now r) (r_enq r) OTA_ENQUIRE_MAX_BYTES response /\
    (length response mod PAGE_SIZE = 0 \/ json response = None \/
     exists members version, json response = Some members /\ members (text_of "version") = Some version /\
       length version < 64 /\ ota_version_check version (r_version_file r) = Undef).

(** A transfer of the round did not end with the connections that it has. *)
Definition stuck_round (r : ota_round) : Prop :=
  unfinished (r_enq_now r) (r_enq r) OTA_ENQUIRE_MAX_BYTES \/ unfinished (r_dl_now r) (r_dl r) OTA_DOWNLOAD_MAX_BYTES.

Definition round_spec (r : ota_round) (st : ota) (o : outcome (ota_end * ota)) : Prop :=
  match o with
  | Undef => bad_round r
  | Diverge => stuck_round r
  | Ret (_, st') =>
      ctx_ok (o_ctx st') /\
      (o_started st' = o_started st \/ exists img, o_started st' = o_started st ++ [img] /\ verified r img)
  end.

Lemma null_version f : ota_version_check (text_of "(null)") f = Ret 0%Z.
Proof. reflexivity. Qed.

(** A member that fitted its array. *)
Lemma json_str_fits response members name size t :
  json response = Some members -> ota_get_json_str json response name size = (true, t) ->
  members name = Some t /\ length t < size \/ members name = None /\ t = text_of "(null)".
Proof.
  intros Hj. unfold ota_get_json_str. rewrite Hj. cbn [mbind option_bind].
  destruct (members name) as [s|]; simpl; intros [= E <-]; bool_hyps.
  - left. rewrite take_ge by lia. done.
  - right. split; [done|]. rewrite take_ge; [done|]. simpl. lia.
Qed.

Lemma download_round r st resp response members check :
  ctx_ok (o_ctx st) -> round_ok r -> fetched (r_enq_now r) (r_enq r) OTA_ENQUIRE_MAX_BYTES response ->
  json response = Some members -> members (text_of "version") = Some (resp_version resp) ->
  (members (text_of "sha256") = Some (resp_sha256 resp) \/ resp_sha256 resp = text_of "(null)") ->
  no_nul (resp_sha256 resp) ->
  ota_version_check (resp_version resp) (r_version_file r) = Ret check -> check <> 0%Z ->
  round_spec r st
    ('(failed, c) ← configure_libnetwork opt_debug (o_fd_img st) (resp_url resp) OTA_DOWNLOAD_MAX_BYTES (o_ctx st);
     let st := with_net st c in
     if (failed : bool) then Ret (Leave false, st)
     else
       '(downloaded, n) ← ota_download junk (r_dl_ok r) (r_dl_now r) (r_dl r) (net_of (o_ctx st));
       let st := mk_ota (ctx n) (o_resp st) (sink n) (o_fd_resp st) (o_fd_img st) (o_runit st) (o_started st) in
       let st := ota_close_files st in
       if negb downloaded then Ret (Go_on, st)
       else
         mismatch ← ota_sha256sum sha256sum (o_img st) (resp_sha256 resp);
         if negb (mismatch =? 0)%Z then Ret (Go_on, st)
         else
           '(w, _) ← ota_upgrade (r_ready r) (r_fails r) (o_runit st);
           Ret (Go_on, mk_ota (o_ctx st) (o_resp st) (o_img st) (o_fd_resp st) (o_fd_img st) w
                         (o_started st ++ [o_img st]))).
Proof.
  intros Hc [_ Hdl] Hw Hmem Hver Hsha Hnn Hchk Hne.
  destruct (configure_ok opt_debug (o_fd_img st) (resp_url resp) OTA_DOWNLOAD_MAX_BYTES (o_ctx st) Hc)
    as (failed & c & -> & Hc' & Hmax); [done|]. rewrite bind_Ret.
  destruct failed; [by split; [|left]|].
  pose proof (ota_download_ok junk (r_dl_ok r) (r_dl_now r) (r_dl r) c Hc' (Hmax eq_refl) Hdl) as H.
  cbn [with_net o_ctx]. destruct (ota_download _ _ _ _ _) as [[ok n]| |]; [|done|by right]. rewrite bind_Ret.
  destruct H as [Hcn Hwr]. destruct ok; cbn [negb]; [|by split; [|left]]. specialize (Hwr eq_refl).
  destruct (ota_sha256sum_spec sha256sum (sink n) (resp_sha256 resp) Hnn) as (m & Hm & Hok).
  cbn [ota_close_files o_img]. rewrite Hm, bind_Ret.
  destruct (Z.eqb_spec m 0) as [->|]; cbn [negb]; [|by split; [|left]].
  destruct (start_runit_service_total (r_ready r) (r_fails r) upgrade_config (o_runit st)) as (w & rc & Hs); [simpl; lia|].
  unfold ota_upgrade. cbn [o_runit with_net ota_close_files]. rewrite Hs, bind_Ret. split; [done|]. right. exists (sink n). split; [done|].
  destruct (Hok eq_refl) as (H1 & H2 & H3). exists response, members, (resp_version resp), (resp_sha256 resp).
  split; [done|]. split; [done|]. split; [done|]. split.
  { destruct Hsha as [?|E]; [done|]. rewrite E in H2. done. }
  split; [by exists check|]. by split_and!.
Qed.

Lemma round_body_spec r st :
  ctx_ok (o_ctx st) -> round_ok r ->
  round_spec r st (ota_round_body junk json sha256sum opt_url opt_debug r st).
Proof.
  intros Hc Hr. pose proof Hr as [Henq _]. unfold ota_round_body.
  assert (exists ok st1, ota_create_files r st = (ok, st1) /\ o_ctx st1 = o_ctx st /\ o_started st1 = o_started st)
    as (ok & st1 & -> & Hctx & Hst).
  { unfold ota_create_files. destruct (r_fd_resp r), (r_fd_img r); eauto 10. }
  destruct ok; cbn [negb]; [|split; [by rewrite Hctx|by left]].
  destruct (configure_ok opt_debug (o_fd_resp st1) opt_url OTA_ENQUIRE_MAX_BYTES (o_ctx st1))
    as (failed & c & -> & Hc' & Hmax); [by rewrite Hctx|done|]. rewrite bind_Ret.
  destruct failed; [split; [done|by left]|]. cbn [with_net o_ctx].
  pose proof (ota_enquire_ok junk (r_uuid_file r) (r_version_file r) (r_enq_ok r) (r_enq_now r) (r_enq r) c Hc'
                (Hmax eq_refl) Henq) as H.
  unfold version_current_get_str. destruct (ota_enquire _ _ _ _ _ _ _) as [[ok n]| |]; [|done|by left]. rewrite bind_Ret.
  destruct H as [Hcn Hwr]. destruct ok; cbn [negb]; [|split; [done|by left]]. specialize (Hwr eq_refl).
  cbn [o_resp]. unfold ota_parse_response.
  destruct (negb (r_map_ok r) || (length (sink n) =? 0)); [rewrite bind_Ret; split; [done|by left]|].
  destruct (length (sink n) mod PAGE_SIZE =? 0) eqn:Ep.
  { bool_hyps. exists (sink n). split; [done|]. by left. }
  destruct (ota_get_json_str json (sink n) (text_of "url") _) as [ok1 u].
  destruct (ota_get_json_str json (sink n) (text_of "version") 64) as [ok2 v] eqn:Ev.
  destruct (ota_get_json_str json (sink n) (text_of "sha256") 65) as [ok3 s] eqn:Es.
  destruct (json (sink n)) as [members|] eqn:Ej; cbn [of_option]; [|exists (sink n); split; [done|]; by right; left].
  rewrite !bind_Ret. destruct ok1, ok2, ok3; try (split; [done|by left]). cbn [andb negb resp_version].
  apply (json_str_fits _ members) in Ev as [[Ev Hlv]|[_ ->]]; [| |done].
  2:{ rewrite null_version, bind_Ret. split; [done|by left]. }
  destruct (ota_version_check v (r_version_file r)) as [check| |] eqn:Ec; [|exists (sink n); split; [done|]; right; right; by exists members, v|].
  2:{ by destruct (ota_version_check_returns v (r_version_file r)). }
  rewrite bind_Ret. destruct (Z.eqb_spec check 0) as [|Hne]; [split; [done|by left]|].
  assert ((members (text_of "sha256") = Some s \/ s = text_of "(null)") /\ no_nul s) as [Hs Hnn].
  { apply (json_str_fits _ members) in Es as [[Es _]|[_ ->]]; [split; [by left|by eapply json_no_nul]| |done].
    split; [by right|]. apply (bool_decide_unpack _). vm_compute. exact I. }
  match goal with |- context [if r_term r then with_net ?a ?b else ?a] => set (st2 := a); set (c2 := b) end.
  assert (ctx_ok c2) as Hc2.
  { unfold c2, libnetwork_shutdown. by case_match. }
  destruct (r_term r).
  - pose proof (download_round r (with_net st2 c2) (mk_resp u s v) (sink n) members check) as Hd.
    unfold round_spec in *. cbn [with_net o_ctx o_started] in Hd. cbn [o_started st2] in *. rewrite <-Hst. apply Hd; done.
  - pose proof (download_round r st2 (mk_resp u s v) (sink n) members check) as Hd.
    unfold round_spec in *. cbn [o_started st2] in Hd. rewrite <-Hst. apply Hd; done.
Qed.

(** C14: an upgrade is only started on a verified image.  Over any rounds of the client in which the
    files take every write whole, whatever the server answers, however the transfers break and
    whatever the installed version: every image on which an upgrade was started is what the
    download of one of the rounds delivered with success (of each connection at most the limit of
    bytes), has the checksum that the answer to the enquiry of the same round names, and is
    offered for a version that differs from the installed one; when the loop is left both files are
    closed; the behaviour is undefined only if an answer fills its last page exactly, or is not a
    JSON object, or names a version on which the comparison of versions is undefined (a
    development string that fills its array); and the client is held up in a round only while a
    transfer needs further connections. *)
Theorem ota_upgrades_verified rounds w :
  Forall round_ok rounds ->
  match ota_client_loop junk json sha256sum opt_url opt_debug rounds (ota_start w) with
  | Undef => exists r, r ∈ rounds /\ bad_round r
  | Diverge => exists r, r ∈ rounds /\ stuck_round r
  | Ret (res, st) =>
      Forall (fun img => exists r, r ∈ rounds /\ verified r img) (o_started st) /\
      (res <> None -> o_fd_resp st = (-1)%Z /\ o_fd_img st = (-1)%Z)
  end.
Proof.
  intros Hr.
  assert (forall rs st, Forall round_ok rs -> (forall r, r ∈ rs -> r ∈ rounds) -> ctx_ok (o_ctx st) ->
    Forall (fun img => exists r, r ∈ rounds /\ verified r img) (o_started st) ->
    match ota_client_loop junk json sha256sum opt_url opt_debug rs st with
    | Undef => exists r, r ∈ rounds /\ bad_round r
    | Diverge => exists r, r ∈ rounds /\ stuck_round r
    | Ret (res, st) =>
        Forall (fun img => exists r, r ∈ rounds /\ verified r img) (o_started st) /\
        (res <> None -> o_fd_resp st = (-1)%Z /\ o_fd_img st = (-1)%Z)
    end) as Hgen.
  { clear Hr. intros rs st Hrs. revert st. induction Hrs as [|r rs Hr _ IH]; intros st Hin Hc Hst; cbn [ota_client_loop]; [done|].
    destruct (shutdown_signaled (o_ctx st) || negb (r_timeout r)); [done|].
    pose proof (round_body_spec r st Hc Hr) as H. assert (r ∈ rounds) as Hir by (apply Hin, elem_of_cons; by left).
    destruct (ota_round_body _ _ _ _ _ r st) as [[e st']| |]; cbn [round_spec] in H; [|by exists r..].
    rewrite bind_Ret. destruct H as [Hc' Hs].
    assert (Forall (fun img => exists r, r ∈ rounds /\ verified r img) (o_started st')) as Hst'.
    { destruct Hs as [->|(img & -> & Hv)]; [done|]. apply Forall_app. split; [done|]. constructor; [by exists r|done]. }
    destruct e as [|ret]; [|done]. apply IH; [|done..].
    intros r' Hr'. apply Hin, elem_of_cons. by right. }
  apply Hgen; [done|done|split; [exact I|split; [apply length_replicate|done]]|constructor].
Qed.
End verified.

Section example.
Local Definition sum : text := replicate 64 "a"%char.
Local Definition body (bytes : list Z) : list connection :=
  [mk_connection [Ev_data bytes [W_count (length bytes)]] CURLE_OK 200 5 G_missing].
Local Definition sample_round : ota_round :=
  mk_round true (Some 5%Z) (Some 6%Z) (Some (text_of "id")) (Some (text_of "v2.1.0")) true 1%Z (body [123; 125]%Z) true false
    true 2%Z (body [1; 2; 3]%Z) true (fun _ => false).
Local Definition sample_json (_ : list Z) : option (text -> option text) := Some (fun name =>
  if bool_decide (name = text_of "version") then Some (text_of "v2.2.0")
  else if bool_decide (name = text_of "sha256") then Some sum else Some (text_of "http://host/image")).
Local Definition sample_sum (_ : list Z) : child := mk_child true [sum ++ text_of "  /data/ota/image"] 0.

Lemma ota_upgrades_verified_witness :
  match ota_client_loop "000"%char sample_json sample_sum (text_of "http://host") false [sample_round]
          (ota_start (mk_runit ∅ ∅ [])) with
  | Ret (_, st) => o_started st = [[1; 2; 3]%Z] /\
      Forall (fun img => exists r, r ∈ [sample_round] /\ verified sample_json sample_sum r img) (o_started st)
  | _ => False
  end.
Proof.
  pose proof (ota_upgrades_verified "000"%char sample_json sample_sum (text_of "http://host") false) as H.
  assert (forall response members name t, sample_json response = Some members -> members name = Some t -> no_nul t) as Hj.
  { intros response members name t [= <-]. repeat case_bool_decide; intros [= <-];
      apply (bool_decide_unpack _); vm_compute; exact I. }
  specialize (H Hj [sample_round] (mk_runit ∅ ∅ [])).
  assert (Forall round_ok [sample_round]) as Hr.
  { repeat constructor; (exists 0, []; reflexivity) || (vm_compute; discriminate). }
  specialize (H Hr).
  assert (match ota_client_loop "000"%char sample_json sample_sum (text_of "http://host") false [sample_round]
            (ota_start (mk_runit ∅ ∅ [])) with Ret (_, st) => o_started st | _ => [] end = [[1; 2; 3]%Z]) as Hv
    by (vm_compute; reflexivity).
  destruct (ota_client_loop _ _ _ _ _ _ _) as [[res st]| |]; [|discriminate..]. split; [exact Hv|]. exact (proj1 H).
Defined.

(** An answer that is not a JSON object - an error page, say - is passed on as a NULL object. *)
Example error_page_undefined :
  ota_client_loop "000"%char (fun _ => None) sample_sum (text_of "http://host") false [sample_round]
    (ota_start (mk_runit ∅ ∅ [])) = Undef.
Proof. vm_compute. reflexivity. Qed.
End example.

(** ** A request to stop that is lost

    Both transfers begin by clearing the flag that the handler of the signal sets: a signal
    between them does not end the loop, and the download is made all the same. *)
Lemma setup_forgets_shutdown ok now t c : shutdown_signaled (network_setup ok now (libnetwork_shutdown t c)).2 = false.
Proof. done. Qed.
