(* ===== verification/Rpmsg.v ===== *)
(** * The [rpmsg_piksi] kernel driver

    [rpmsg_piksi/src/rpmsg_piksi.c]: three character devices, each over an endpoint of the message
    bus to the other processor.  The kernel is outside the sources: what it holds for the driver is
    a ledger of resources (acquiring one twice, releasing one that is not held and following an
    error pointer are [Undef]) and the channels of the bus that exist (following one that is gone
    is [Undef]), its answers are inputs, and its record FIFO is an interface with the documented
    laws. *)

From S2P Require Import Prelude.

Definition NUM_ENDPOINTS : nat := 3.
Definition RX_FIFO_SIZE : nat := Z.to_nat (16 * 1024).
Definition TX_BUFF_SIZE : nat := 496.
Definition MAX_BUF_SUBMIT : nat := Z.to_nat 4096.
Definition endpoint_addr_config : list Z := [100; 101; 102]%Z.

Definition EINTR : Z := 4.
Definition EAGAIN : Z := 11.
Definition EACCES : Z := 13.
Definition EFAULT : Z := 14.
Definition ENODEV : Z := 19.
Definition EINVAL : Z := 22.
Definition ERESTARTSYS : Z := 512.

(** ** The record FIFO

    [kfifo_in] answers the number of bytes added, [kfifo_to_user] an error and the bytes that reach
    the user, whose number it stores; the flag says whether the copy to the user succeeds. *)
Class RecFifo (F : Type) := {
  kfifo_new : F;
  kfifo_in : list Z -> F -> nat * F;
  kfifo_to_user : bool -> nat -> F -> Z * list Z * F;
  kfifo_is_empty : F -> bool;
  kfifo_len : F -> Z;
  kfifo_avail : F -> Z;
}.

(** The bytes that records take, each with a header of two. *)
Definition rec_bytes (rs : list (list Z)) : nat := sum_list ((fun r => 2 + length r) <$> rs).

(** A record is added whole or not at all, and taken whole, what does not fit the user's buffer
    being lost.  Whether a record whose copy fails is taken is left open. *)
Class RecFifoLaws (F : Type) `{RecFifo F} := {
  records : F -> list (list Z);
  records_new : records kfifo_new = [];
  records_in d f : (kfifo_in d f).1 = (if rec_bytes (records f) + 2 + length d <=? RX_FIFO_SIZE then length d else 0) /\
    records (kfifo_in d f).2 =
      if rec_bytes (records f) + 2 + length d <=? RX_FIFO_SIZE then records f ++ [d] else records f;
  records_out ok len f : kfifo_is_empty f = false ->
    exists r rs, records f = r :: rs /\
      if (ok : bool) then records (kfifo_to_user ok len f).2 = rs /\ (kfifo_to_user ok len f).1 = (0%Z, take len r)
      else (records (kfifo_to_user ok len f).2 = rs \/ records (kfifo_to_user ok len f).2 = r :: rs) /\
           (kfifo_to_user ok len f).1.1 = (- EFAULT)%Z;
  records_empty f : kfifo_is_empty f = bool_decide (records f = []);
}.

(** ** Data *)

(** What a kernel function that returns a pointer answers. *)
Inductive kptr := K_null | K_err | K_ok.
#[export] Instance kptr_eq_dec : EqDecision kptr.
Proof. solve_decision. Defined.

Inductive resource :=
  | R_params | R_class | R_region | R_driver
  | R_cdev (i : nat) | R_device (i : nat) | R_endpoint (i : nat).
#[export] Instance resource_eq_dec : EqDecision resource.
Proof. solve_decision. Defined.

Section driver.
Context {F : Type} `{RecFifo F}.

(** [struct ept_params]; that [rpmsg_ept] is live is in the ledger. *)
Record ept_params := mk_ept {
  dev : Z; addr : Z; device : kptr; rx_fifo : F; tx_buff : list Z;
  rpmsg_chnl : option nat; rpmsg_ready : bool;
}.

(** The variables of the module, the resources it holds, the messages it has sent (the channel,
    the destination, [None] being the channel's own, and the bytes), and the channels that exist,
    which belong to the bus. *)
Record driver := mk_driver {
  epts : list ept_params; probed : bool; dev_class : kptr;
  live : list resource; sent : list (nat * option Z * list Z); channels : list nat;
}.

Definition acquire (r : resource) (d : driver) : outcome driver :=
  if bool_decide (r ∈ live d) then Undef
  else Ret (mk_driver (epts d) (probed d) (dev_class d) (r :: live d) (sent d) (channels d)).
Definition forget (r : resource) (d : driver) : driver :=
  mk_driver (epts d) (probed d) (dev_class d) (filter (fun x => x <> r) (live d)) (sent d) (channels d).
Definition release (r : resource) (d : driver) : outcome driver :=
  if bool_decide (r ∈ live d) then Ret (forget r d) else Undef.

Definition set_ept (i : nat) (e : ept_params) (d : driver) : driver :=
  mk_driver (<[i := e]> (epts d)) (probed d) (dev_class d) (live d) (sent d) (channels d).
Definition set_probed (b : bool) (d : driver) : driver :=
  mk_driver (epts d) b (dev_class d) (live d) (sent d) (channels d).
Definition set_class (c : kptr) (d : driver) : driver :=
  mk_driver (epts d) (probed d) c (live d) (sent d) (channels d).
Definition add_sent (m : nat * option Z * list Z) (d : driver) : driver :=
  mk_driver (epts d) (probed d) (dev_class d) (live d) (sent d ++ [m]) (channels d).
Definition set_channels (cs : list nat) (d : driver) : driver :=
  mk_driver (epts d) (probed d) (dev_class d) (live d) (sent d) cs.

(** A function of the bus follows the pointer to the channel. *)
Definition follow_channel (c : nat) (d : driver) : outcome unit :=
  if bool_decide (c ∈ channels d) then Ret () else Undef.

Definition set_ready (e : ept_params) (c : option nat) (b : bool) : ept_params :=
  mk_ept (dev e) (addr e) (device e) (rx_fifo e) (tx_buff e) c b.
Definition set_fifo (e : ept_params) (f : F) : ept_params :=
  mk_ept (dev e) (addr e) (device e) f (tx_buff e) (rpmsg_chnl e) (rpmsg_ready e).
Definition set_tx (e : ept_params) (b : list Z) : ept_params :=
  mk_ept (dev e) (addr e) (device e) (rx_fifo e) b (rpmsg_chnl e) (rpmsg_ready e).

(** [dev_err] follows the pointer to the device. *)
Definition dev_err (e : ept_params) : outcome unit :=
  match device e with K_ok => Ret () | _ => Undef end.

(** ** The files *)

(** The loop of [ept_cdev_write].  [copy k] and [send k] are what the [k]-th copy from the user
    and the [k]-th [rpmsg_sendto] answer. *)
Fixpoint write_loop (fuel : nat) (copy : nat -> bool) (send : nat -> Z) (i : nat) (ubuff : list Z)
    (k offset : nat) (d : driver) : outcome (Z * driver) :=
  e ← load (epts d) i;
  let len := length ubuff - offset in
  let finish :=
    if 0 <? len then _ ← dev_err e; Ret (Z.of_nat offset, d) else Ret (Z.of_nat offset, d) in
  if negb (0 <? len) then finish
  else
    match fuel with
    | O => Diverge
    | S fuel' =>
        let size := if len <=? TX_BUFF_SIZE then len else TX_BUFF_SIZE in
        if MAX_BUF_SUBMIT <? offset + size then finish
        else if negb (copy k) then _ ← dev_err e; Ret ((-1)%Z, d)
        else
          src ← slice ubuff offset size;
          b ← memcpy (tx_buff e) 0 src;
          let e := set_tx e b in
          let d := set_ept i e d in
          c ← of_option (rpmsg_chnl e);
          _ ← follow_channel c d;
          if negb (send k =? 0)%Z then _ ← dev_err e; Ret (send k, d)
          else
            write_loop fuel' copy send i ubuff (S k) (offset + size)
              (add_sent (c, Some (addr e), take size b) d)
    end.

Definition ept_cdev_write (lock : bool) (copy : nat -> bool) (send : nat -> Z) (i : nat) (ubuff : list Z)
    (d : driver) : outcome (Z * driver) :=
  e ← load (epts d) i;
  if negb lock then Ret ((- EINTR)%Z, d)
  else if negb (rpmsg_ready e) then Ret (Z.of_nat (length ubuff), d)
  else write_loop (length ubuff) copy send i ubuff 0 0 d.

(** One pass of [ept_cdev_read], up to the point where it waits ([None]) or returns. *)
Definition ept_cdev_read (lock nonblock copy : bool) (i len : nat) (d : driver) :
    outcome (option (Z * list Z) * driver) :=
  e ← load (epts d) i;
  if negb lock then Ret (Some ((- EINTR)%Z, []), d)
  else if kfifo_is_empty (rx_fifo e) then
    Ret (if (nonblock : bool) then Some ((- EAGAIN)%Z, []) else None, d)
  else
    let '(retval, bytes, f) := kfifo_to_user copy len (rx_fifo e) in
    Ret (Some (if (retval =? 0)%Z then Z.of_nat (length bytes) else retval, bytes), set_ept i (set_fifo e f) d).

(** [POLLIN | POLLRDNORM] when there is a record, [POLLOUT | POLLWRNORM] always. *)
Definition ept_cdev_poll (i : nat) (d : driver) : outcome Z :=
  e ← load (epts d) i;
  Ret (Z.lor (if kfifo_is_empty (rx_fifo e) then 0 else Z.lor 1 0x40) (Z.lor 4 0x100))%Z.

Definition ept_cdev_ioctl (copy : bool) (cmd : Z) (i : nat) (d : driver) : outcome (Z * option Z) :=
  e ← load (epts d) i;
  let answer (v : Z) := if copy then (0%Z, Some v) else ((- EACCES)%Z, None) in
  Ret (match cmd with
       | 1 => answer (Z.of_nat RX_FIFO_SIZE)
       | 2 => answer (kfifo_len (rx_fifo e))
       | 3 => answer (kfifo_avail (rx_fifo e))
       | _ => ((- EINVAL)%Z, None)
       end)%Z.

(** ** The bus *)

(** The callback of an endpoint; the flag says whether it wakes the readers. *)
Definition ept_rpmsg_cb (data : list Z) (i : nat) (d : driver) : outcome (bool * driver) :=
  e ← load (epts d) i;
  if length data =? 0 then Ret (false, d)
  else
    let '(len_in, f) := kfifo_in data (rx_fifo e) in
    let d := set_ept i (set_fifo e f) d in
    if negb (len_in =? length data) then _ ← dev_err e; Ret (false, d)
    else Ret (true, d).

Definition ept_rpmsg_setup (lock created : bool) (i rpdev : nat) (d : driver) : outcome (Z * driver) :=
  e ← load (epts d) i;
  if negb lock then Ret ((- EINTR)%Z, d)
  else
    let d := set_ept i (set_ready e (Some rpdev) (rpmsg_ready e)) d in
    _ ← follow_channel rpdev d;
    if negb created then Ret ((- ENODEV)%Z, d)
    else
      d ← acquire (R_endpoint i) d;
      Ret (0%Z, set_ept i (set_ready e (Some rpdev) true) d).

Definition ept_rpmsg_remove (i : nat) (d : driver) : outcome driver :=
  e ← load (epts d) i;
  release (R_endpoint i) (set_ept i (set_ready e (rpmsg_chnl e) false) d).

(** Removal of the endpoints below [i], the last first. *)
Fixpoint rpmsg_rollback (i : nat) (d : driver) : outcome driver :=
  match i with O => Ret d | S i => d ← ept_rpmsg_remove i d; rpmsg_rollback i d end.

(** The loop of [drv_probe] over the [n] endpoints from [i] on; [answers] tells for each whether
    its lock was taken and its endpoint created. *)
Fixpoint probe_loop (answers : nat -> bool * bool) (rpdev n i : nat) (d : driver) : outcome (bool * driver) :=
  match n with
  | O => Ret (true, d)
  | S n =>
      '(status, d) ← ept_rpmsg_setup (answers i).1 (answers i).2 i rpdev d;
      if negb (status =? 0)%Z then d ← rpmsg_rollback i d; Ret (false, d)
      else probe_loop answers rpdev n (S i) d
  end.

Definition startup_message : list Z := [115; 116; 97; 114; 116; 117; 112]%Z.

Definition drv_probe (answers : nat -> bool * bool) (rpdev : nat) (d : driver) : outcome (Z * driver) :=
  _ ← follow_channel rpdev d;
  if probed d then Ret ((- ENODEV)%Z, d)
  else
    '(ok, d) ← probe_loop answers rpdev NUM_ENDPOINTS 0 (set_probed true d);
    if negb ok then Ret ((- ENODEV)%Z, d)
    else _ ← follow_channel rpdev d; Ret (0%Z, add_sent (rpdev, None, startup_message) d).

(** Removal of [n] endpoints from [i] on, in order. *)
Fixpoint remove_loop (n i : nat) (d : driver) : outcome driver :=
  match n with O => Ret d | S n => d ← ept_rpmsg_remove i d; remove_loop n (S i) d end.

Definition drv_remove (d : driver) : outcome driver :=
  d ← remove_loop NUM_ENDPOINTS 0 d; Ret (set_probed false d).

(** ** Loading and unloading *)

Definition ept_cdev_remove (i : nat) (d : driver) : outcome driver :=
  release (R_cdev i) (forget (R_device i) d).

Fixpoint cdevs_rollback (i : nat) (d : driver) : outcome driver :=
  match i with O => Ret d | S i => d ← ept_cdev_remove i d; cdevs_rollback i d end.

Fixpoint cdevs_remove (n i : nat) (d : driver) : outcome driver :=
  match n with O => Ret d | S n => d ← ept_cdev_remove i d; cdevs_remove n (S i) d end.
Definition ept_cdevs_remove (d : driver) : outcome driver := cdevs_remove NUM_ENDPOINTS 0 d.

(** [device_create] follows the pointer to the class. *)
Definition device_create (answer : kptr) (i : nat) (d : driver) : outcome driver :=
  match dev_class d with
  | K_ok => match answer with K_ok => acquire (R_device i) d | _ => Ret d end
  | _ => Undef
  end.

Definition ept_cdev_setup (added : bool) (created : kptr) (dev_start : Z) (i : nat) (d : driver) :
    outcome (Z * driver) :=
  e ← load (epts d) i;
  a ← load endpoint_addr_config i;
  let e := mk_ept (dev_start + Z.of_nat i) a (device e) kfifo_new (tx_buff e) (rpmsg_chnl e) false in
  let d := set_ept i e d in
  if negb added then Ret ((- ENODEV)%Z, d)
  else
    d ← acquire (R_cdev i) d;
    d ← device_create created i d;
    let d := set_ept i (mk_ept (dev e) (addr e) created (rx_fifo e) (tx_buff e) (rpmsg_chnl e) false) d in
    if bool_decide (created = K_null) then d ← release (R_cdev i) d; Ret ((- ENODEV)%Z, d)
    else Ret (0%Z, d).

(** What the kernel answers while the module is loaded. *)
Record init_answers := mk_answers {
  a_alloc : bool; a_class : kptr; a_region : option Z;
  a_added : nat -> bool; a_device : nat -> kptr; a_driver : bool;
}.

Fixpoint cdev_loop (a : init_answers) (dev_start : Z) (n i : nat) (d : driver) : outcome (bool * driver) :=
  match n with
  | O => Ret (true, d)
  | S n =>
      '(status, d) ← ept_cdev_setup (a_added a i) (a_device a i) dev_start i d;
      if negb (status =? 0)%Z then d ← cdevs_rollback i d; Ret (false, d)
      else cdev_loop a dev_start n (S i) d
  end.

Definition zeroed_ept : ept_params := mk_ept 0 0 K_null kfifo_new (replicate TX_BUFF_SIZE 0%Z) None false.
Definition unloaded : driver := mk_driver [] false K_null [] [] [].

(** [class_destroy] and the end of [init] and [fini]: freeing the structure takes the endpoints
    with it. *)
Definition class_destroy (d : driver) : outcome driver :=
  match dev_class d with K_ok => release R_class d | _ => Ret d end.
Definition free_params (d : driver) : outcome driver :=
  d ← release R_params d; Ret (mk_driver [] (probed d) (dev_class d) (live d) (sent d) (channels d)).

Definition init (a : init_answers) (d : driver) : outcome (Z * driver) :=
  let fail d := Ret ((- ENODEV)%Z, d) in
  let error1 d := d ← free_params d; fail d in
  let error2 d := d ← class_destroy d; error1 d in
  let error3 d := d ← release R_region d; error2 d in
  if negb (a_alloc a) then fail d
  else
    d ← acquire R_params (mk_driver (replicate NUM_ENDPOINTS zeroed_ept) (probed d) (dev_class d) (live d) (sent d) (channels d));
    let d := set_class (a_class a) d in
    d ← (if bool_decide (a_class a = K_ok) then acquire R_class d else Ret d);
    if bool_decide (a_class a = K_null) then error1 d
    else
      match a_region a with
      | None => error2 d
      | Some dev_start =>
          d ← acquire R_region d;
          '(ok, d) ← cdev_loop a dev_start NUM_ENDPOINTS 0 d;
          if negb ok then error3 d
          else if negb (a_driver a) then d ← ept_cdevs_remove d; error3 d
          else d ← acquire R_driver d; Ret (0%Z, d)
      end.

(** Unregistering the driver removes it from the device it is bound to. *)
Definition fini (bound : bool) (d : driver) : outcome driver :=
  d ← (if bound then drv_remove d else Ret d);
  d ← release R_driver d;
  d ← ept_cdevs_remove d;
  d ← release R_region d;
  d ← class_destroy d;
  free_params d.
End driver.

(** ** The driver on its bus

    The bus probes the driver with channels it is not bound to, binds it when a probe succeeds and
    removes it only from a channel it is bound to; a channel that is refused, and one that the
    driver has been removed from, are gone at once.  It delivers messages to live endpoints.  A reader that waits is resumed when it finds
    a record, or interrupted by a signal. *)
Section system.
Context {F : Type} `{RecFifo F}.

Record system := mk_sys { drv : @driver F; bound : bool; waiting : list (nat * (nat * nat)) }.

Inductive event :=
  | E_probe (answers : nat -> bool * bool) (rpdev : nat)
  | E_remove
  | E_rx (i : nat) (data : list Z)
  | E_write (i : nat) (ubuff : list Z) (lock : bool) (copy : nat -> bool) (send : nat -> Z)
  | E_read (id i len : nat) (nonblock lock copy : bool)
  | E_wake (id : nat) (lock copy : bool)
  | E_signal (id : nat).

Inductive output :=
  | O_probe (status : Z)
  | O_queued (i : nat) (data : list Z)
  | O_lost (i : nat) (data : list Z)
  | O_written (i : nat) (result : Z)
  | O_read (i len : nat) (result : Z) (bytes : list Z)
  | O_quiet.

Definition sys_read (id i len : nat) (nonblock lock copy : bool) (s : system) : outcome (output * system) :=
  '(r, d) ← ept_cdev_read lock nonblock copy i len (drv s);
  match r with
  | Some (v, bytes) => Ret (O_read i len v bytes, mk_sys d (bound s) (waiting s))
  | None => Ret (O_quiet, mk_sys d (bound s) ((id, (i, len)) :: waiting s))
  end.

Definition no_longer (id : nat) (s : system) : system :=
  mk_sys (drv s) (bound s) (filter (fun w => w.1 <> id) (waiting s)).
Definition waiter (id : nat) (s : system) : option (nat * nat) :=
  snd <$> list_find (fun w => w.1 = id) (waiting s) ≫= fun w => Some w.2.

Definition sys_step (ev : event) (s : system) : outcome (output * system) :=
  match ev with
  | E_probe answers rpdev =>
      let cs := channels (drv s) in
      if bool_decide (rpdev ∈ cs) then Ret (O_quiet, s)
      else
        '(status, d) ← drv_probe answers rpdev (set_channels (rpdev :: cs) (drv s));
        Ret (O_probe status, if (status =? 0)%Z then mk_sys d true (waiting s)
                             else mk_sys (set_channels cs d) (bound s) (waiting s))
  | E_remove =>
      if negb (bound s) then Ret (O_quiet, s)
      else d ← drv_remove (drv s); Ret (O_quiet, mk_sys (set_channels [] d) false (waiting s))
  | E_rx i data =>
      if negb (bool_decide (R_endpoint i ∈ live (drv s))) then Ret (O_quiet, s)
      else
        '(wake, d) ← ept_rpmsg_cb data i (drv s);
        Ret (if (wake : bool) then O_queued i data else O_lost i data, mk_sys d (bound s) (waiting s))
  | E_write i ubuff lock copy send =>
      '(v, d) ← ept_cdev_write lock copy send i ubuff (drv s);
      Ret (O_written i v, mk_sys d (bound s) (waiting s))
  | E_read id i len nonblock lock copy => sys_read id i len nonblock lock copy s
  | E_wake id lock copy =>
      match waiter id s with
      | None => Ret (O_quiet, s)
      | Some (i, len) =>
          e ← load (epts (drv s)) i;
          if kfifo_is_empty (rx_fifo e) then Ret (O_quiet, s)
          else sys_read id i len false lock copy (no_longer id s)
      end
  | E_signal id =>
      match waiter id s with
      | None => Ret (O_quiet, s)
      | Some (i, len) => Ret (O_read i len (- ERESTARTSYS) [], no_longer id s)
      end
  end.

Fixpoint sys_run (evs : list event) (s : system) : outcome (list output * system) :=
  match evs with
  | [] => Ret ([], s)
  | ev :: evs' =>
      '(o, s) ← sys_step ev s;
      '(os, s) ← sys_run evs' s;
      Ret (o :: os, s)
  end.

(** The events of a device that exists. *)
Definition event_ok (ev : event) : Prop :=
  match ev with
  | E_rx i _ | E_write i _ _ _ _ | E_read _ i _ _ _ _ => i < NUM_ENDPOINTS
  | _ => True
  end.
End system.

(** ** Invariant *)

Section invariant.
Context {F : Type} `{RecFifo F}.
Implicit Types (d : @driver F) (e : @ept_params F).
(** The devices that could be created; of the others the driver has an error pointer. *)
Variable D : nat -> bool.

(** An endpoint of a loaded driver that is attached or not, to a channel that exists. *)
Record ept_ok (ok b : bool) (cs : list nat) e : Prop := {
  ept_device : device e = if ok then K_ok else K_err;
  ept_tx : length (tx_buff e) = TX_BUFF_SIZE;
  ept_ready : rpmsg_ready e = b;
  ept_chnl : b = true -> exists c, rpmsg_chnl e = Some c /\ c ∈ cs;
}.

(** A loaded driver whose attached endpoints are [P]: what it holds is exactly what it was given. *)
Record loaded (P : nat -> bool) d : Prop := {
  loaded_length : length (epts d) = NUM_ENDPOINTS;
  loaded_class : dev_class d = K_ok;
  loaded_live r : r ∈ live d <->
    match r with
    | R_params | R_class | R_region | R_driver => True
    | R_cdev i => i < NUM_ENDPOINTS
    | R_device i => i < NUM_ENDPOINTS /\ D i = true
    | R_endpoint i => i < NUM_ENDPOINTS /\ P i = true
    end;
  loaded_epts i e : epts d !! i = Some e -> ept_ok (D i) (P i) (channels d) e;
}.

(** What an operation on endpoints does not change. *)
Definition kept d d' : Prop :=
  probed d' = probed d /\ rx_fifo <$> epts d' = rx_fifo <$> epts d /\ channels d' = channels d.

Lemma kept_refl d : kept d d.
Proof. done. Qed.
Lemma kept_trans d1 d2 d3 : kept d1 d2 -> kept d2 d3 -> kept d1 d3.
Proof. intros (H1 & H2 & H3) (H4 & H5 & H6). split_and!; congruence. Qed.

Lemma follow_ok c d : c ∈ channels d -> follow_channel c d = Ret ().
Proof. intros Hc. unfold follow_channel. by rewrite bool_decide_eq_true_2. Qed.

Lemma loaded_ext P Q d : (forall i, i < NUM_ENDPOINTS -> P i = Q i) -> loaded P d -> loaded Q d.
Proof.
  intros HPQ [Hl Hc Hr He]. split; [done..| |].
  - intros r. rewrite Hr. destruct r; try done. split; intros [? ?]; (split; [done|]); [by rewrite <-HPQ|by rewrite HPQ].
  - intros i e Hi. rewrite <-HPQ; [by apply He|]. rewrite <-Hl. by eapply lookup_lt_Some.
Qed.

Lemma loaded_load P d i : loaded P d -> i < NUM_ENDPOINTS ->
  exists e, load (epts d) i = Ret e /\ epts d !! i = Some e /\ ept_ok (D i) (P i) (channels d) e.
Proof.
  intros Hd Hi. destruct (lookup_lt_is_Some_2 (epts d) i) as [e He]; [by rewrite (loaded_length _ _ Hd)|].
  exists e. split; [by apply load_Ret|]. split; [done|]. by eapply loaded_epts.
Qed.

Lemma set_ept_kept i e e' d :
  epts d !! i = Some e -> rx_fifo e' = rx_fifo e -> kept d (set_ept i e' d).
Proof.
  intros He Hf. split; [done|]. split; [|done]. simpl. rewrite list_fmap_insert, Hf. apply list_insert_id.
  by rewrite list_lookup_fmap, He.
Qed.

Lemma set_ept_loaded P i e' d :
  loaded P d -> ept_ok (D i) (P i) (channels d) e' -> loaded P (set_ept i e' d).
Proof.
  intros [Hl Hc Hr He] He'. split; [by simpl; rewrite length_insert|done|done|].
  intros j e Hj. simpl in Hj. apply list_lookup_insert_Some in Hj as [(<- & <- & _)|[_ Hj]]; [done|by apply He].
Qed.

(** The channels may change while nothing is attached, or as long as those in use remain. *)
Lemma set_channels_loaded P cs d :
  loaded P d -> (forall i, i < NUM_ENDPOINTS -> P i = false) \/ channels d ⊆ cs -> loaded P (set_channels cs d).
Proof.
  intros [Hl Hc Hr He] Hcs. split; [done..|]. intros i e Hi. cbn [set_channels epts channels] in *.
  destruct (He i e Hi) as [H1 H2 H3 H4]. split; [done..|]. intros HP. destruct Hcs as [Hn|Hcs].
  - rewrite Hn in HP; [done|]. rewrite <-Hl. by eapply lookup_lt_Some.
  - destruct (H4 HP) as (c & Hc1 & Hc2). exists c. split; [done|]. by apply Hcs.
Qed.

Definition upd (P : nat -> bool) (i : nat) (b : bool) (j : nat) : bool := if decide (j = i) then b else P j.
Lemma upd_eq P i b : upd P i b i = b.
Proof. unfold upd. by rewrite decide_True. Qed.
Lemma upd_ne P i b j : j <> i -> upd P i b j = P j.
Proof. intros. unfold upd. by rewrite decide_False. Qed.

Lemma elem_forget r x d : x ∈ live (forget r d) <-> x <> r /\ x ∈ live d.
Proof. simpl. by rewrite list_elem_of_filter. Qed.

Lemma setup_ok P lock created i rpdev d :
  loaded P d -> i < NUM_ENDPOINTS -> P i = false -> rpdev ∈ channels d ->
  exists st d', ept_rpmsg_setup lock created i rpdev d = Ret (st, d') /\ kept d d' /\
    loaded (if (st =? 0)%Z then upd P i true else P) d' /\ (st =? 0)%Z = lock && created.
Proof.
  intros Hd Hi HP Hch. destruct (loaded_load P d i Hd Hi) as (e & Hld & He & Hok). unfold ept_rpmsg_setup. rewrite Hld, bind_Ret.
  destruct lock; [|by eexists _, d]. destruct Hok as [Hdev Htx Hrdy _]. rewrite HP in Hrdy.
  assert (kept d (set_ept i (set_ready e (Some rpdev) (rpmsg_ready e)) d)) as Hk by by eapply set_ept_kept.
  set (d1 := set_ept i _ d) in *. rewrite follow_ok by done. rewrite bind_Ret.
  destruct created; cbn [negb andb].
  - unfold acquire. rewrite bool_decide_eq_false_2 by (simpl; rewrite (loaded_live _ _ Hd), HP; naive_solver).
    rewrite bind_Ret. eexists _, _. split; [done|]. split; [|split; [|done]].
    + split; [done|]. split; [|done]. simpl. rewrite list_insert_insert_eq.
      by apply (set_ept_kept i e (set_ready e (Some rpdev) true)).
    + change (0 =? 0)%Z with true. cbv iota. split; simpl.
      * rewrite !length_insert. apply Hd.
      * apply Hd.
      * intros r. rewrite elem_of_cons, (loaded_live _ _ Hd). split.
        -- intros [->|Hr]; [by rewrite upd_eq|]. destruct r as [| | | |?|?|j]; try done. destruct Hr as [? Hj]. split; [done|].
           unfold upd. by case_decide.
        -- destruct r as [| | | |?|?|j]; auto. intros [? Hj]. unfold upd in Hj. case_decide; [left; congruence|by right].
      * intros j e' Hj. apply list_lookup_insert_Some in Hj as [(<- & <- & _)|[Hne Hj]].
        -- rewrite upd_eq. split; simpl; [done..|]. intros _. by exists rpdev.
        -- rewrite list_lookup_insert_ne in Hj by done. rewrite upd_ne by done. by eapply loaded_epts.
  - eexists _, _. split; [done|]. split; [done|]. split; [|done]. change (- ENODEV =? 0)%Z with false. cbv iota.
    apply set_ept_loaded; [done|]. rewrite HP. by split.
Qed.

Lemma remove_ok P i d :
  loaded P d -> i < NUM_ENDPOINTS -> P i = true ->
  exists d', ept_rpmsg_remove i d = Ret d' /\ kept d d' /\ loaded (upd P i false) d'.
Proof.
  intros Hd Hi HP. destruct (loaded_load P d i Hd Hi) as (e & Hld & He & Hok). unfold ept_rpmsg_remove. rewrite Hld, bind_Ret.
  destruct Hok as [Hdev Htx Hrdy Hch]. unfold release.
  rewrite bool_decide_eq_true_2 by (simpl; by rewrite (loaded_live _ _ Hd)).
  eexists. split; [done|]. split; [by apply (set_ept_kept i e)|]. split; simpl.
  - rewrite length_insert. apply Hd.
  - apply Hd.
  - intros r. rewrite list_elem_of_filter, (loaded_live _ _ Hd). split.
    + intros [Hne Hr]. destruct r as [| | | |?|?|j]; try done. destruct Hr as [? ?]. split; [done|]. rewrite upd_ne; [done|congruence].
    + intros Hr. destruct r as [| | | |?|?|j]; try (split; [done|exact Hr]). destruct Hr as [? Hj]. unfold upd in Hj. case_decide; [done|].
      split; [congruence|done].
  - intros j e' Hj. apply list_lookup_insert_Some in Hj as [(<- & <- & _)|[Hne Hj]].
    + rewrite upd_eq. by split.
    + rewrite upd_ne by done. by eapply loaded_epts.
Qed.

Definition below (n i : nat) : bool := i <? n.
Lemma below_up i j : upd (below i) i true j = below (S i) j.
Proof. unfold upd, below. case_decide; subst; symmetry; [apply Nat.ltb_lt; lia|]. apply eq_true_iff_eq. rewrite !Nat.ltb_lt. lia. Qed.
Lemma below_down i j : upd (below (S i)) i false j = below i j.
Proof. unfold upd, below. case_decide; subst; symmetry; [apply Nat.ltb_ge; lia|]. apply eq_true_iff_eq. rewrite !Nat.ltb_lt. lia. Qed.

Lemma rollback_ok i d :
  loaded (below i) d -> i <= NUM_ENDPOINTS ->
  exists d', rpmsg_rollback i d = Ret d' /\ kept d d' /\ loaded (below 0) d'.
Proof.
  revert d. induction i as [|i IH]; intros d Hd Hi; cbn [rpmsg_rollback]; [by exists d|].
  destruct (remove_ok (below (S i)) i d Hd) as (d1 & -> & Hk & Hd1); [lia|unfold below; apply Nat.ltb_lt; lia|].
  rewrite bind_Ret. destruct (IH d1) as (d' & -> & Hk' & Hd'); [|lia|].
  - eapply loaded_ext; [|exact Hd1]. intros; apply below_down.
  - exists d'. split; [done|]. split; [by eapply kept_trans|done].
Qed.

Lemma probe_ok answers rpdev n i d :
  loaded (below i) d -> i + n = NUM_ENDPOINTS -> rpdev ∈ channels d ->
  exists ok d', probe_loop answers rpdev n i d = Ret (ok, d') /\ kept d d' /\
    loaded (below (if ok then NUM_ENDPOINTS else 0)) d'.
Proof.
  revert i d. induction n as [|n IH]; intros i d Hd Hi Hch; cbn [probe_loop].
  { exists true, d. split; [done|]. split; [done|]. by replace NUM_ENDPOINTS with i by lia. }
  destruct (setup_ok (below i) (answers i).1 (answers i).2 i rpdev d Hd) as (st & d1 & -> & Hk & Hd1 & _);
    [lia|unfold below; apply Nat.ltb_ge; lia|done|]. rewrite bind_Ret.
  destruct (st =? 0)%Z; cbn [negb].
  - destruct (IH (S i) d1) as (ok & d' & -> & Hk' & Hd'); [|lia|by rewrite (proj2 (proj2 Hk))|].
    + eapply loaded_ext; [|exact Hd1]. intros; apply below_up.
    + exists ok, d'. split; [done|]. split; [by eapply kept_trans|done].
  - destruct (rollback_ok i d1 Hd1) as (d' & -> & Hk' & Hd'); [lia|]. rewrite bind_Ret.
    exists false, d'. split; [done|]. split; [by eapply kept_trans|done].
Qed.

Lemma probe_fails answers rpdev n i d ok d' :
  loaded (below i) d -> i + n = NUM_ENDPOINTS -> rpdev ∈ channels d -> probe_loop answers rpdev n i d = Ret (ok, d') ->
  (exists j, i <= j < NUM_ENDPOINTS /\ (answers j).1 && (answers j).2 = false) -> ok = false.
Proof.
  revert i d. induction n as [|n IH]; intros i d Hd Hi Hch Hp (j & Hj & Hans); cbn [probe_loop] in Hp; [lia|].
  destruct (setup_ok (below i) (answers i).1 (answers i).2 i rpdev d Hd) as (st & d1 & Hs & Hk & Hd1 & Hst);
    [lia|unfold below; apply Nat.ltb_ge; lia|done|]. rewrite Hs, bind_Ret in Hp.
  destruct (st =? 0)%Z; cbn [negb] in Hp.
  - eapply (IH (S i) d1); [eapply loaded_ext; [|exact Hd1]; intros; apply below_up|lia|by rewrite (proj2 (proj2 Hk))|done|].
    exists j. split; [|done]. destruct (decide (j = i)) as [->|]; [congruence|lia].
  - destruct (rpmsg_rollback i d1) as [x| |]; [|done..]. rewrite bind_Ret in Hp. by simplify_eq.
Qed.

Definition from (n i : nat) : bool := (n <=? i) && (i <? NUM_ENDPOINTS).
Lemma remove_loop_ok n i d :
  loaded (from i) d -> i + n = NUM_ENDPOINTS ->
  exists d', remove_loop n i d = Ret d' /\ kept d d' /\ loaded (below 0) d'.
Proof.
  revert i d. induction n as [|n IH]; intros i d Hd Hi; cbn [remove_loop].
  { exists d. split; [done|]. split; [done|]. eapply loaded_ext; [|exact Hd]. intros j Hj. unfold from, below.
    apply andb_false_iff. left. apply Nat.leb_gt. lia. }
  destruct (remove_ok (from i) i d Hd) as (d1 & -> & Hk & Hd1); [lia|unfold from; apply andb_true_iff; rewrite Nat.leb_le, Nat.ltb_lt; lia|].
  rewrite bind_Ret. destruct (IH (S i) d1) as (d' & -> & Hk' & Hd'); [|lia|].
  - eapply loaded_ext; [|exact Hd1]. intros j Hj. unfold upd, from. case_decide; apply eq_true_iff_eq;
      rewrite ?andb_true_iff, ?Nat.leb_le, ?Nat.ltb_lt; [split; [done|lia]|lia].
  - exists d'. split; [done|]. split; [by eapply kept_trans|done].
Qed.
End invariant.

(** ** Writing *)

Section writing.
Context {F : Type} `{RecFifo F}.
Implicit Types (d : @driver F) (e : @ept_params F).
Variable D : nat -> bool.

(** How much of a write is taken when nothing fails: whole buffers up to the limit. *)
Definition accepted_length (len : nat) : nat := if len <=? MAX_BUF_SUBMIT then len else 8 * TX_BUFF_SIZE.

(** The messages of a write from [offset] on, and its result. *)
Record wrote (copy : nat -> bool) (send : nat -> Z) (ubuff : list Z) (offset : nat) (c : nat) (a : Z) (v : Z)
    (d d' : @driver F) (msgs : list (list Z)) : Prop := {
  wrote_sent : sent d' = sent d ++ ((fun m => (c, Some a, m)) <$> msgs);
  wrote_bytes : concat msgs = take (length (concat msgs)) (drop offset ubuff);
  wrote_sizes : Forall (fun m => 0 < length m <= TX_BUFF_SIZE) msgs;
  wrote_result :
    v = Z.of_nat (offset + length (concat msgs)) /\ offset + length (concat msgs) = accepted_length (length ubuff) \/
    (exists k, copy k = false /\ v = (-1)%Z) \/ (exists k, send k <> 0%Z /\ v = send k);
}.

Definition write_offset (ubuff : list Z) (offset : nat) : Prop :=
  offset <= length ubuff /\ offset <= MAX_BUF_SUBMIT /\
  ((exists j, offset = j * TX_BUFF_SIZE) \/ offset = length ubuff).

Lemma write_offset_end ubuff offset :
  write_offset ubuff offset ->
  (length ubuff - offset = 0 \/
   MAX_BUF_SUBMIT < offset + if length ubuff - offset <=? TX_BUFF_SIZE then length ubuff - offset else TX_BUFF_SIZE) ->
  offset = accepted_length (length ubuff).
Proof.
  unfold write_offset, accepted_length, TX_BUFF_SIZE. intros (H1 & H2 & H3) H4.
  assert (MAX_BUF_SUBMIT = Z.to_nat 4096) as HM by done. set (M := MAX_BUF_SUBMIT) in *. clearbody M.
  destruct (Nat.leb_spec (length ubuff - offset) 496), (Nat.leb_spec (length ubuff) M);
    destruct H4, H3 as [[j ->]|]; try lia.
Qed.

(** A report follows the pointer to the device. *)
Lemma dev_err_ok ok b cs e : ept_ok ok b cs e -> dev_err e = if ok then Ret () else Undef.
Proof. intros He. unfold dev_err. rewrite (ept_device _ _ _ _ He). by destruct ok. Qed.

(** The write ends here without another message. *)
Local Ltac stop_here :=
  right; eexists _, _, _, _, []; do 3 (split; [done|]); split; [apply kept_refl|]; split; [done|].
(** It ends with a report, which is undefined without a device. *)
Local Ltac report H :=
  rewrite H; match goal with |- context [if D ?i then _ else _] => destruct (D i) eqn:ED end; [rewrite bind_Ret|by left].

Lemma write_loop_ok copy send i ubuff P fuel k offset d :
  loaded D P d -> i < NUM_ENDPOINTS -> P i = true -> write_offset ubuff offset -> length ubuff - offset <= fuel ->
  write_loop fuel copy send i ubuff k offset d = Undef /\ D i = false \/
  exists e c v d' msgs, epts d !! i = Some e /\ rpmsg_chnl e = Some c /\
    write_loop fuel copy send i ubuff k offset d = Ret (v, d') /\ kept d d' /\ loaded D P d' /\
    wrote copy send ubuff offset c (addr e) v d d' msgs.
Proof.
  intros Hd Hi HP. revert k offset d Hd. induction fuel as [|fuel IH]; intros k offset d Hd Hoff Hfuel.
  all: destruct (loaded_load D P d i Hd Hi) as (e & Hld & He & Hok); pose proof (dev_err_ok _ _ _ _ Hok) as Hrep;
    destruct Hok as [Hdev Htx Hrdy Hch]; destruct (Hch HP) as (c & Hc & Hcs).
  all: assert (forall v, (v = Z.of_nat offset /\ offset = accepted_length (length ubuff) \/
      (exists k, copy k = false /\ v = (-1)%Z)) -> wrote copy send ubuff offset c (addr e) v d d []) as Hnone.
  1,3: intros v Hv; split; simpl; [by rewrite app_nil_r|done|constructor|]; rewrite Nat.add_0_r; destruct Hv; auto.
  all: cbn [write_loop]; rewrite Hld, bind_Ret; cbn zeta.
  all: destruct (Nat.ltb_spec 0 (length ubuff - offset)) as [Hlen|Hlen]; cbn [negb].
  - lia.
  - stop_here. apply Hnone. left. split; [done|].
    apply write_offset_end; [done|]. left. lia.
  - set (size := if length ubuff - offset <=? TX_BUFF_SIZE then _ else _).
    assert (0 < size <= TX_BUFF_SIZE /\ offset + size <= length ubuff) as [Hsize Hfit].
    { unfold size, TX_BUFF_SIZE. destruct (Nat.leb_spec (length ubuff - offset) 496); lia. }
    destruct (Nat.ltb_spec MAX_BUF_SUBMIT (offset + size)) as [Hmax|Hmax].
    { report Hrep. stop_here. apply Hnone. left. split; [done|].
      apply write_offset_end; [done|]. by right. }
    destruct (copy k) eqn:Ecopy; cbn [negb].
    2:{ report Hrep. stop_here. apply Hnone. right. by exists k. }
    rewrite slice_ok by lia. rewrite bind_Ret.
    set (src := take size (drop offset ubuff)). assert (length src = size) as Hsrc by (unfold src; rewrite length_take, length_drop; lia).
    rewrite memcpy_ok by (rewrite Htx; lia). rewrite bind_Ret. set (b := take 0 _ ++ _).
    assert (length b = TX_BUFF_SIZE) as Hb by (rewrite <-Htx; apply (length_memcpy (tx_buff e) 0); rewrite Htx; lia).
    assert (take size b = src) as Hout by (unfold b; simpl; rewrite take_app_le by lia; apply take_ge; lia).
    cbn [set_tx rpmsg_chnl addr]. rewrite Hc. cbn [of_option]. rewrite bind_Ret.
    rewrite follow_ok, bind_Ret by done.
    assert (kept d (set_ept i (set_tx e b) d)) as Hk by by eapply set_ept_kept.
    assert (loaded D P (set_ept i (set_tx e b) d)) as Hd1 by (apply set_ept_loaded; [done|]; split; simpl; congruence || auto).
    set (d1 := set_ept i (set_tx e b) d) in *.
    destruct (Z.eqb_spec (send k) 0) as [Es|Es]; cbn [negb].
    2:{ change (dev_err (set_tx e b)) with (dev_err e). report Hrep. right. eexists _, _, _, d1, []. do 3 (split; [done|]). split; [done|]. split; [done|].
        split; simpl; [by rewrite app_nil_r|done|constructor|]. right. right. by exists k. }
    rewrite Hout. set (d2 := add_sent (c, Some (addr e), src) d1).
    assert (loaded D P d2) as Hd2 by (destruct Hd1; by split).
    destruct (IH (S k) (offset + size) d2 Hd2) as [Hun|(e2 & c2 & v & d' & msgs & He2 & Hc2 & -> & Hk2 & Hd' & Hw)].
    { destruct Hoff as (H1 & H2 & H3). split; [lia|]. split; [lia|].
      unfold size in *. destruct (Nat.leb_spec (length ubuff - offset) TX_BUFF_SIZE); [right; lia|].
      destruct H3 as [[j ->]|]; [|lia]. left. exists (S j). lia. }
    { lia. }
    { by left. }
    assert (c2 = c /\ addr e2 = addr e) as [-> Ha].
    { simpl in He2. rewrite list_lookup_insert_eq in He2 by (rewrite (loaded_length _ _ _ Hd); done). simplify_eq. simpl in Hc2. split; [congruence|done]. }
    right. exists e, c, v, d', (src :: msgs). do 3 (split; [done|]). split; [by eapply kept_trans|]. split; [done|].
    destruct Hw as [W1 W2 W3 W4]. simpl. split; simpl.
    + rewrite W1, Ha. simpl. by rewrite <-app_assoc.
    + rewrite length_app, Hsrc. rewrite W2 at 1. unfold src. rewrite <-drop_drop. apply take_take_drop.
    + constructor; [lia|done].
    + rewrite length_app, Hsrc. replace (offset + (size + length (concat msgs))) with (offset + size + length (concat msgs)) by lia. done.
  - stop_here. apply Hnone. left. split; [done|].
    apply write_offset_end; [done|]. left. lia.
Qed.

Lemma write_ok P lock copy send i ubuff d :
  loaded D P d -> i < NUM_ENDPOINTS ->
  ept_cdev_write lock copy send i ubuff d = Undef /\ D i = false \/
  exists v d', ept_cdev_write lock copy send i ubuff d = Ret (v, d') /\ kept d d' /\ loaded D P d'.
Proof.
  intros Hd Hi. unfold ept_cdev_write. destruct (loaded_load D P d i Hd Hi) as (e & Hld & _ & Hok). rewrite Hld, bind_Ret.
  destruct lock; [|by right; eexists _, d]. rewrite (ept_ready _ _ _ _ Hok). destruct (P i) eqn:HP; cbn [negb]; [|by right; eexists _, d].
  destruct (write_loop_ok copy send i ubuff P (length ubuff) 0 0 d) as [Hun|(_ & _ & v & d' & _ & _ & _ & -> & ? & ? & _)]; try done.
  - split; [lia|]. split; [lia|]. left. by exists 0.
  - lia.
  - by left.
  - right. by exists v, d'.
Qed.
End writing.

(** ** The queues of the devices

    Each device is a bounded queue of messages: the bus appends one when it fits, a read takes
    the first. *)
Section queues.
Context {F : Type} `{RecFifoLaws F}.
Implicit Types (d : @driver F) (e : @ept_params F) (s : @system F).
Variable D : nat -> bool.

Definition queues d : list (list (list Z)) := records <$> (rx_fifo <$> epts d).

Definition fits (rs : list (list Z)) (data : list Z) : Prop := rec_bytes rs + 2 + length data <= RX_FIFO_SIZE.

(** A read of the first message [r]: it is taken and as much of it returned as the buffer holds;
    or the copy to the user fails, and it is taken or not. *)
Definition took (len : nat) (r : list Z) (v : Z) (bytes : list Z) : Prop :=
  v = Z.of_nat (length bytes) /\ bytes = take len r.

Definition no_record (v : Z) : Prop := v = (- EINTR)%Z \/ v = (- EAGAIN)%Z \/ v = (- ERESTARTSYS)%Z.
#[global] Instance no_record_dec v : Decision (no_record v).
Proof. unfold no_record. apply _. Defined.

Definition queue_step (o : output) (q q' : list (list (list Z))) : Prop :=
  match o with
  | O_queued i data => data <> [] /\ exists rs, q !! i = Some rs /\ fits rs data /\ q' = <[i := rs ++ [data]]> q
  | O_lost i data => q' = q /\ (data = [] \/ exists rs, q !! i = Some rs /\ ~ fits rs data)
  | O_read i len v bytes =>
      q' = q /\ no_record v /\ bytes = [] \/
      exists r rs, q !! i = Some (r :: rs) /\
        (took len r v bytes /\ q' = <[i := rs]> q \/ v = (- EFAULT)%Z /\ (q' = q \/ q' = <[i := rs]> q))
  | _ => q' = q
  end.

Lemma kept_queues d d' : kept d d' -> queues d' = queues d.
Proof. intros (_ & Hf & _). unfold queues. by rewrite Hf. Qed.

Lemma queues_set i e f d :
  epts d !! i = Some e -> queues (set_ept i (set_fifo e f) d) = <[i := records f]> (queues d).
Proof. intros He. unfold queues. simpl. by rewrite !list_fmap_insert. Qed.

Lemma queues_lookup i e d : epts d !! i = Some e -> queues d !! i = Some (records (rx_fifo e)).
Proof. intros He. unfold queues. by rewrite !list_lookup_fmap, He. Qed.

Lemma set_fifo_loaded P i e f d : loaded D P d -> epts d !! i = Some e -> loaded D P (set_ept i (set_fifo e f) d).
Proof. intros Hd He. apply set_ept_loaded; [done|]. destruct (loaded_epts _ _ _ Hd i e He). by split. Qed.

Lemma rx_ok P data i d :
  loaded D P d -> i < NUM_ENDPOINTS ->
  ept_rpmsg_cb data i d = Undef /\ D i = false \/
  exists wake d', ept_rpmsg_cb data i d = Ret (wake, d') /\ probed d' = probed d /\ loaded D P d' /\
    queue_step (if wake then O_queued i data else O_lost i data) (queues d) (queues d').
Proof.
  intros Hd Hi. destruct (loaded_load D P d i Hd Hi) as (e & Hld & He & Hok). unfold ept_rpmsg_cb. rewrite Hld, bind_Ret.
  destruct (Nat.eqb_spec (length data) 0) as [Hz|Hz].
  { right. exists false, d. do 3 (split; [done|]). split; [done|]. left. by apply nil_length_inv. }
  destruct (records_in data (rx_fifo e)) as [Hn Hr]. destruct (kfifo_in data (rx_fifo e)) as [n f]. simpl in Hn, Hr.
  pose proof (queues_set i e f d He) as Hq. pose proof (set_fifo_loaded P i e f d Hd He) as Hd'.
  set (d' := set_ept i (set_fifo e f) d) in *.
  destruct (Nat.leb_spec (rec_bytes (records (rx_fifo e)) + 2 + length data) RX_FIFO_SIZE) as [Hfit|Hfit]; subst n.
  - rewrite Nat.eqb_refl. right. exists true, d'. do 3 (split; [done|]). split; [by intros ->|].
    exists (records (rx_fifo e)). split; [by apply queues_lookup|]. split; [done|]. by rewrite Hq, Hr.
  - destruct (Nat.eqb_spec 0 (length data)); [lia|]. cbn [negb]. rewrite (dev_err_ok _ _ _ _ Hok).
    destruct (D i) eqn:ED; [rewrite bind_Ret; right|by left].
    exists false, d'. do 3 (split; [done|]). split.
    + rewrite Hq, Hr. apply list_insert_id. by apply queues_lookup.
    + right. exists (records (rx_fifo e)). split; [by apply queues_lookup|]. unfold fits. lia.
Qed.

Lemma read_ok P lock nonblock copy i len d :
  loaded D P d -> i < NUM_ENDPOINTS ->
  exists r d', ept_cdev_read lock nonblock copy i len d = Ret (r, d') /\ probed d' = probed d /\ loaded D P d' /\
    match r with
    | Some (v, bytes) => queue_step (O_read i len v bytes) (queues d) (queues d')
    | None => d' = d /\ queues d !! i = Some []
    end.
Proof.
  intros Hd Hi. destruct (loaded_load D P d i Hd Hi) as (e & Hld & He & Hok). unfold ept_cdev_read. rewrite Hld, bind_Ret.
  destruct lock; cbn [negb].
  2:{ eexists _, d. do 3 (split; [done|]). left. split; [done|]. split; [by left|done]. }
  destruct (kfifo_is_empty (rx_fifo e)) eqn:Ee.
  { eexists _, d. do 3 (split; [done|]). rewrite records_empty in Ee. apply bool_decide_eq_true in Ee. destruct nonblock.
    - left. split; [done|]. split; [by right; left|done].
    - split; [done|]. by rewrite (queues_lookup i e d He), Ee. }
  destruct (records_out copy len (rx_fifo e) Ee) as (r & rs & Hr & Hout). pose proof (queues_lookup i e d He) as Hql. rewrite Hr in Hql.
  destruct (kfifo_to_user copy len (rx_fifo e)) as [[retval bytes] f]. simpl in Hout.
  pose proof (queues_set i e f d He) as Hq. pose proof (set_fifo_loaded P i e f d Hd He) as Hd'.
  eexists _, _. do 3 (split; [done|]). right. exists r, rs. split; [done|]. destruct copy.
  - destruct Hout as [Hrs Hout]. simplify_eq. left. by rewrite Hq.
  - destruct Hout as [Hrs ->]. right. split; [done|]. rewrite Hq. destruct Hrs as [-> | ->]; [by right|left].
    by apply list_insert_id.
Qed.

Record sys_ok s : Prop := {
  sys_loaded : loaded D (below (if bound s then NUM_ENDPOINTS else 0)) (drv s);
  sys_probed : bound s = true -> probed (drv s) = true;
  sys_waiting : Forall (fun w => w.2.1 < NUM_ENDPOINTS) (waiting s);
}.

Lemma waiting_filter id (l : list (nat * (nat * nat))) :
  Forall (fun w => w.2.1 < NUM_ENDPOINTS) l ->
  Forall (fun w => w.2.1 < NUM_ENDPOINTS) (filter (fun w => w.1 <> id) l).
Proof. rewrite !Forall_forall. intros Hl w Hw. apply Hl. by apply list_elem_of_filter in Hw as [_ ?]. Qed.

Lemma waiter_lt id s i len : sys_ok s -> waiter id s = Some (i, len) -> i < NUM_ENDPOINTS.
Proof.
  intros Hs Hw. unfold waiter in Hw. destruct (list_find _ (waiting s)) as [[k w]|] eqn:E; [|done]. simpl in Hw. simplify_eq.
  apply list_find_Some in E as (Hk & _ & _). pose proof (Forall_lookup_1 _ _ _ _ (sys_waiting _ Hs) Hk) as Hi.
  simpl in Hi. by rewrite Hw in Hi.
Qed.

Lemma sys_read_ok id i len nonblock lock copy s :
  sys_ok s -> i < NUM_ENDPOINTS ->
  exists o s', sys_read id i len nonblock lock copy s = Ret (o, s') /\ sys_ok s' /\
    queue_step o (queues (drv s)) (queues (drv s')).
Proof.
  intros [Hl Hp Hw] Hi. unfold sys_read.
  destruct (read_ok _ lock nonblock copy i len (drv s) Hl Hi) as (r & d' & -> & Hpr & Hd' & Hq). rewrite bind_Ret.
  destruct r as [[v bytes]|].
  - eexists _, _. split; [done|]. split; [|done]. split; simpl; [done|by rewrite Hpr|done].
  - destruct Hq as [-> Hq]. eexists _, _. split; [done|]. split; [|done]. split; simpl; [done..|]. by constructor.
Qed.

(** A probe. *)
Lemma sys_probe_ok answers rpdev s :
  sys_ok s -> exists o s', sys_step (E_probe answers rpdev) s = Ret (o, s') /\ sys_ok s' /\ queue_step o (queues (drv s)) (queues (drv s')).
Proof.
  intros Hs. pose proof Hs as [Hl Hp Hw]. cbn [sys_step]. cbv zeta.
  case_bool_decide; [by eexists _, s|]. unfold drv_probe. set (d0 := set_channels (rpdev :: channels (drv s)) (drv s)).
  assert (loaded D (below (if bound s then NUM_ENDPOINTS else 0)) d0) as Hd0
    by (apply set_channels_loaded; [done|right; set_solver]).
  rewrite follow_ok, bind_Ret by (cbn; set_solver). change (probed d0) with (probed (drv s)).
  destruct (probed (drv s)) eqn:Epr.
  { rewrite bind_Ret. eexists _, _. split; [done|]. split; [|done]. by destruct (drv s), s. }
  destruct (bound s) eqn:Eb; [by specialize (Hp eq_refl); congruence|].
  destruct (probe_ok D answers rpdev NUM_ENDPOINTS 0 (set_probed true d0)) as (ok & d' & -> & (Hk1 & Hk2 & Hk3) & Hd').
  { destruct Hd0. by split. }
  { done. }
  { cbn. set_solver. }
  rewrite bind_Ret. assert (queues d' = queues (drv s)) as Hq by (unfold queues; by rewrite Hk2).
  destruct ok; cbn [negb].
  - rewrite follow_ok by (rewrite Hk3; cbn; set_solver). rewrite !bind_Ret.
    eexists _, _. split; [done|]. split; [|exact Hq]. split; simpl; [by destruct Hd'|done|done].
  - rewrite bind_Ret. eexists _, _. split; [done|]. split; [|exact Hq]. split; simpl; [|done|done].
    apply set_channels_loaded; [done|]. by left.
Qed.

Lemma sys_step_ok ev s :
  sys_ok s -> event_ok ev ->
  sys_step ev s = Undef /\ (exists i, i < NUM_ENDPOINTS /\ D i = false) \/
  exists o s', sys_step ev s = Ret (o, s') /\ sys_ok s' /\ queue_step o (queues (drv s)) (queues (drv s')).
Proof.
  intros Hs Hev. pose proof Hs as [Hl Hp Hw].
  destruct ev as [answers rpdev| |i data|i ubuff lock copy send|id i len nonblock lock copy|id lock copy|id];
    simpl in Hev; [right; by apply sys_probe_ok|cbn [sys_step]..].
  - right. destruct (bound s) eqn:Eb; cbn [negb]; [|by eexists _, s].
    unfold drv_remove. destruct (remove_loop_ok D NUM_ENDPOINTS 0 (drv s)) as (d' & -> & Hk & Hd'); [|done|].
    { eapply loaded_ext; [|exact Hl]. intros j Hj. unfold below, from. apply eq_true_iff_eq.
      rewrite andb_true_iff, Nat.leb_le, Nat.ltb_lt. lia. }
    rewrite !bind_Ret. eexists _, _. split; [done|]. split; [split; simpl; [|done|done]|exact (kept_queues _ _ Hk)].
    apply set_channels_loaded; [by destruct Hd'|by left].
  - case_bool_decide as Hin; cbn [negb]; [|by right; eexists _, s].
    destruct (rx_ok _ data i (drv s) Hl Hev) as [[-> HD]|(wake & d' & -> & Hpr & Hd' & Hq)]; [left; split; [done|by exists i]|right].
    rewrite bind_Ret. eexists _, _. split; [done|]. split; [|done]. split; simpl; [done|by rewrite Hpr|done].
  - destruct (write_ok D _ lock copy send i ubuff (drv s) Hl Hev) as [[-> HD]|(v & d' & -> & Hk & Hd')];
      [left; split; [done|by exists i]|right].
    rewrite bind_Ret. eexists _, _. split; [done|]. split; [|by apply kept_queues]. split; simpl; [done|by rewrite (proj1 Hk)|done].
  - right. by apply sys_read_ok.
  - right. destruct (waiter id s) as [[i len]|] eqn:Ew; [|by eexists _, s]. pose proof (waiter_lt id s i len Hs Ew) as Hi.
    destruct (loaded_load _ _ _ i Hl Hi) as (e & -> & _). rewrite bind_Ret. destruct (kfifo_is_empty _); [by eexists _, s|].
    apply (sys_read_ok id i len false lock copy (no_longer id s)); [|done]. split; simpl; [done..|]. by apply waiting_filter.
  - right. destruct (waiter id s) as [[i len]|]; [|by eexists _, s]. eexists _, _. split; [done|]. split.
    + split; simpl; [done..|]. by apply waiting_filter.
    + left. split; [done|]. split; [by right; right|done].
Qed.
End queues.

(** ** Loading and unloading *)

Section loading.
Context {F : Type} `{RecFifo F}.
Implicit Types (d : @driver F) (e : @ept_params F).
Variable D : nat -> bool.

(** What is held after the devices below [n] have been made. *)
Fixpoint held (n : nat) : list resource :=
  match n with O => [R_region; R_class; R_params] | S k => (if D k then [R_device k] else []) ++ R_cdev k :: held k end.

Lemma held_elem n r : r ∈ held n <->
  match r with
  | R_params | R_class | R_region => True
  | R_cdev i => i < n
  | R_device i => i < n /\ D i = true
  | _ => False
  end.
Proof.
  induction n as [|n IH]; cbn [held].
  - rewrite !elem_of_cons, elem_of_nil. destruct r; naive_solver lia.
  - rewrite elem_of_app, elem_of_cons, IH.
    assert (r ∈ (if D n then [R_device n] else []) <-> r = R_device n /\ D n = true) as ->
      by (destruct (D n); rewrite ?list_elem_of_singleton, ?elem_of_nil; naive_solver).
    destruct r; try naive_solver lia.
    + split; [intros [?|[?|?]]; naive_solver lia|]. intros. destruct (decide (i = n)) as [->|]; [auto|]. right. right. lia.
    + split; [intros [?|[?|?]]; naive_solver lia|]. intros [? ?]. destruct (decide (i = n)) as [->|]; [auto|]. right. right. split; [lia|done].
Qed.

Lemma filter_not_in (r : resource) (l : list resource) : r ∉ l -> filter (fun x => x <> r) l = l.
Proof.
  induction l as [|x l IH]; [done|]. intros Hr. apply not_elem_of_cons in Hr as [H1 H2].
  rewrite filter_cons_True by done. by rewrite IH.
Qed.

Record loading (n : nat) d : Prop := {
  lg_length : length (epts d) = NUM_ENDPOINTS;
  lg_class : dev_class d = K_ok;
  lg_probed : probed d = false;
  lg_live : live d = held n;
  lg_epts i e : epts d !! i = Some e ->
    length (tx_buff e) = TX_BUFF_SIZE /\ (i < n -> ept_ok (D i) false (channels d) e /\ rx_fifo e = kfifo_new);
}.

Lemma release_in r d : r ∈ live d -> release r d = Ret (forget r d).
Proof. intros Hr. unfold release. by rewrite bool_decide_eq_true_2. Qed.

Definition hold r d : driver := mk_driver (epts d) (probed d) (dev_class d) (r :: live d) (sent d) (channels d).
Lemma acquire_new r d : r ∉ live d -> acquire r d = Ret (hold r d).
Proof. intros Hr. unfold acquire. by rewrite bool_decide_eq_false_2. Qed.

(** What is left when a device has been removed. *)
Lemma held_remove i : filter (fun x => x <> R_cdev i) (filter (fun x => x <> R_device i) (held (S i))) = held i.
Proof.
  cbn [held]. rewrite filter_app, filter_cons_True by done.
  assert (filter (fun x => x <> R_device i) (if D i then [R_device i] else []) = []) as ->
    by (destruct (D i); [by rewrite filter_cons_False by naive_solver|done]).
  cbn [app]. rewrite filter_cons_False by naive_solver. rewrite (filter_not_in (R_device i)), filter_not_in; [done|rewrite held_elem; lia..].
Qed.

Lemma cdev_remove_loading i d : loading (S i) d ->
  exists d', ept_cdev_remove i d = Ret d' /\ loading i d'.
Proof.
  intros [H1 H2 H3 H4 H5]. unfold ept_cdev_remove. rewrite release_in.
  2:{ rewrite elem_forget, H4. split; [done|]. apply held_elem. lia. }
  eexists. split; [done|]. split; simpl; [done..| |].
  - rewrite H4. apply held_remove.
  - intros j e Hj. destruct (H5 j e Hj) as [? Hlt]. split; [done|]. intros. apply Hlt. lia.
Qed.

Lemma rollback_loading i d : loading i d -> exists d', cdevs_rollback i d = Ret d' /\ loading 0 d'.
Proof.
  revert d. induction i as [|i IH]; intros d Hd; cbn [cdevs_rollback]; [by exists d|].
  destruct (cdev_remove_loading i d Hd) as (d1 & -> & Hd1). rewrite bind_Ret. by apply IH.
Qed.

Lemma cdev_setup_loading added created dev_start i d :
  loading i d -> i < NUM_ENDPOINTS -> D i = bool_decide (created = K_ok) ->
  exists st d', ept_cdev_setup added created dev_start i d = Ret (st, d') /\ loading (if (st =? 0)%Z then S i else i) d'.
Proof.
  intros [H1 H2 H3 H4 H5] Hi Hne. unfold ept_cdev_setup.
  destruct (lookup_lt_is_Some_2 (epts d) i) as [e He]; [by rewrite H1|]. rewrite (proj2 (load_Ret _ _ _) He), bind_Ret.
  destruct (lookup_lt_is_Some_2 endpoint_addr_config i) as [a Ha]; [done|]. rewrite (proj2 (load_Ret _ _ _) Ha), bind_Ret. cbn zeta.
  destruct (H5 i e He) as [Htx _].
  assert (forall e', length (tx_buff e') = TX_BUFF_SIZE -> forall j x, <[i:=e']> (epts d) !! j = Some x ->
    length (tx_buff x) = TX_BUFF_SIZE /\ (j < i -> ept_ok (D j) false (channels d) x /\ rx_fifo x = kfifo_new)) as Hset.
  { intros e' He' j x Hj. apply list_lookup_insert_Some in Hj as [(<- & <- & _)|[_ Hj]]; [split; [done|lia]|by apply H5]. }
  destruct added; cbn [negb].
  2:{ eexists _, _. split; [done|]. split; simpl; [by rewrite length_insert|done..|]. by apply Hset. }
  rewrite acquire_new by (simpl; rewrite H4, held_elem; lia). rewrite bind_Ret.
  unfold device_create. cbn [dev_class set_ept hold]. rewrite H2. destruct created.
  - rewrite bind_Ret, bool_decide_eq_true_2 by done. rewrite release_in by (simpl; apply elem_of_cons; by left). rewrite bind_Ret.
    eexists _, _. split; [done|]. split; simpl; [by rewrite !length_insert|done..| |].
    + rewrite H4, filter_cons_False by naive_solver. apply filter_not_in. rewrite held_elem. lia.
    + rewrite list_insert_insert_eq. by apply Hset.
  - rewrite bool_decide_eq_false_2 in Hne by done. rewrite bind_Ret, bool_decide_eq_false_2 by done. eexists _, _. split; [done|].
    split; simpl; [by rewrite !length_insert|done..|by rewrite H4, Hne|].
    rewrite list_insert_insert_eq. intros j x Hj. apply list_lookup_insert_Some in Hj as [(<- & <- & _)|[Hji Hj]].
    + split; [done|]. intros _. split; [|done]. by split; simpl; rewrite ?Hne.
    + destruct (H5 j x Hj) as [? Hlt]. split; [done|]. intros. apply Hlt. lia.
  - rewrite bool_decide_eq_true_2 in Hne by done.
    rewrite acquire_new by (simpl; rewrite elem_of_cons, H4, held_elem; intros [|]; [done|lia]). rewrite bind_Ret, bool_decide_eq_false_2 by done. eexists _, _. split; [done|].
    split; simpl; [by rewrite !length_insert|done..|by rewrite H4, Hne|].
    rewrite list_insert_insert_eq. intros j x Hj. apply list_lookup_insert_Some in Hj as [(<- & <- & _)|[Hji Hj]].
    + split; [done|]. intros _. split; [|done]. by split; simpl; rewrite ?Hne.
    + destruct (H5 j x Hj) as [? Hlt]. split; [done|]. intros. apply Hlt. lia.
Qed.

Lemma cdev_loop_loading a dev_start n i d :
  loading i d -> i + n = NUM_ENDPOINTS -> (forall j, D j = bool_decide (a_device a j = K_ok)) ->
  exists ok d', cdev_loop a dev_start n i d = Ret (ok, d') /\ loading (if ok then NUM_ENDPOINTS else 0) d'.
Proof.
  intros Hd Hi Hne. revert i d Hd Hi. induction n as [|n IH]; intros i d Hd Hi; cbn [cdev_loop].
  { exists true, d. split; [done|]. by replace NUM_ENDPOINTS with i by lia. }
  destruct (cdev_setup_loading (a_added a i) (a_device a i) dev_start i d) as (st & d1 & -> & Hd1); [done|lia|done|].
  rewrite bind_Ret. destruct (st =? 0)%Z; cbn [negb]; [apply IH; [done|lia]|].
  destruct (rollback_loading i d1 Hd1) as (d2 & -> & Hd2). rewrite bind_Ret. by exists false, d2.
Qed.

Lemma cdevs_remove_loading d :
  loading NUM_ENDPOINTS d -> exists d', ept_cdevs_remove d = Ret d' /\
    length (epts d') = NUM_ENDPOINTS /\ dev_class d' = K_ok /\ live d' = held 0.
Proof.
  intros [H1 H2 H3 H4 _]. unfold ept_cdevs_remove, NUM_ENDPOINTS. cbn [cdevs_remove]. unfold ept_cdev_remove.
  rewrite release_in by (rewrite elem_forget, H4; split; [done|]; apply held_elem; unfold NUM_ENDPOINTS; lia). rewrite bind_Ret.
  rewrite release_in by (rewrite !elem_forget, H4; split_and!; try done; apply held_elem; unfold NUM_ENDPOINTS; lia). rewrite bind_Ret.
  rewrite release_in by (rewrite !elem_forget, H4; split_and!; try done; apply held_elem; unfold NUM_ENDPOINTS; lia). rewrite bind_Ret.
  eexists. split; [done|]. split; [done|]. split; [done|]. cbn [live forget]. rewrite H4. unfold NUM_ENDPOINTS. cbn [held].
  destruct (D 0), (D 1), (D 2); reflexivity.
Qed.

Lemma unload_ok d :
  dev_class d = K_ok -> live d = held 0 ->
  exists d', (d ← release R_region d; d ← class_destroy d; free_params d) = Ret d' /\ live d' = [].
Proof.
  intros Hc Hl. rewrite release_in by (rewrite Hl; by apply held_elem). rewrite bind_Ret. unfold class_destroy.
  cbn [dev_class forget]. rewrite Hc. rewrite release_in by (rewrite elem_forget, Hl; split; [done|]; by apply held_elem).
  rewrite bind_Ret. unfold free_params.
  rewrite release_in by (rewrite !elem_forget, Hl; split_and!; try done; by apply held_elem). rewrite bind_Ret.
  eexists. split; [done|]. simpl. by rewrite Hl.
Qed.

End loading.

Section loading_cases.
Context {F : Type} `{RecFifo F}.
Implicit Types (d : @driver F) (e : @ept_params F).

(** The devices the kernel creates. *)
Definition created_devices (a : init_answers) (i : nat) : bool := bool_decide (a_device a i = K_ok).

(** Whatever fails, loading either holds nothing or everything, unless it follows the error pointer
    of a class. *)
Lemma init_cases a :
  init a (@unloaded F) = Undef /\ a_class a = K_err \/
  exists rc d, init a (@unloaded F) = Ret (rc, d) /\
    (rc = (- ENODEV)%Z /\ live d = [] \/
     rc = 0%Z /\ loaded (created_devices a) (below 0) d /\ probed d = false /\ Forall (fun e => rx_fifo e = kfifo_new) (epts d)).
Proof.
  unfold init. cbn zeta. destruct (a_alloc a); cbn [negb]; [|right; eexists _, _; split; [done|]; by left].
  rewrite acquire_new by apply not_elem_of_nil. rewrite bind_Ret.
  destruct (a_class a) eqn:Ec.
  { right. rewrite (bool_decide_eq_false_2 (K_null = K_ok)), bind_Ret, (bool_decide_eq_true_2 (K_null = K_null)) by done. unfold free_params.
    rewrite release_in by (simpl; apply elem_of_cons; by left). rewrite !bind_Ret. eexists _, _. split; [done|]. left. split; [done|]. reflexivity. }
  { rewrite (bool_decide_eq_false_2 (K_err = K_ok)), bind_Ret, (bool_decide_eq_false_2 (K_err = K_null)) by done.
    destruct (a_region a) as [dev_start|]; [|by right; eexists _, _; split; [reflexivity|left]].
    unfold NUM_ENDPOINTS. cbn [cdev_loop]. unfold ept_cdev_setup. destruct (a_added a 0).
    - left. split; [reflexivity|done].
    - right. eexists _, _. split; [reflexivity|]. left. split; reflexivity. }
  right.
  rewrite (bool_decide_eq_true_2 (K_ok = K_ok)) by done. rewrite acquire_new by (simpl; set_solver).
  rewrite bind_Ret, (bool_decide_eq_false_2 (K_ok = K_null)) by done. destruct (a_region a) as [dev_start|].
  2:{ unfold class_destroy. simpl dev_class. cbv iota. rewrite release_in by (simpl; set_solver). rewrite bind_Ret. unfold free_params.
      rewrite release_in by (apply elem_forget; simpl; set_solver). rewrite !bind_Ret. eexists _, _. split; [done|]. left. split; [done|]. reflexivity. }
  rewrite acquire_new by (simpl; set_solver). rewrite bind_Ret.
  match goal with |- context [cdev_loop a dev_start NUM_ENDPOINTS 0 ?x] => set (d0 := x) end.
  assert (loading (created_devices a) 0 d0) as Hd0.
  { split; [done..|]. intros i e Hi. split; [|lia]. change (replicate NUM_ENDPOINTS zeroed_ept !! i = Some e) in Hi. apply lookup_replicate in Hi as [-> _]. apply length_replicate. }
  destruct (cdev_loop_loading _ a dev_start NUM_ENDPOINTS 0 d0 Hd0 eq_refl (fun _ => eq_refl)) as (ok & d1 & -> & Hd1). rewrite bind_Ret.
  assert (forall d, dev_class d = K_ok -> live d = held (created_devices a) 0 -> exists rc d',
    (d ← release R_region d; d ← class_destroy d; d ← free_params d; Ret ((- ENODEV)%Z, d)) = Ret (rc, d') /\
    rc = (- ENODEV)%Z /\ live d' = []) as Hbye.
  { intros d Hc Hl. destruct (unload_ok _ d Hc Hl) as (d' & Hd' & Hl'). apply outcome_bind_Ret in Hd' as (x & -> & Hd').
    rewrite bind_Ret. apply outcome_bind_Ret in Hd' as (y & -> & Hd'). rewrite bind_Ret, Hd', bind_Ret. by eexists _, d'. }
  destruct ok; cbn [negb].
  2:{ destruct (Hbye d1) as (rc & d' & -> & Hrc); [apply Hd1..|]. exists rc, d'. split; [done|]. by left. }
  destruct (a_driver a); cbn [negb].
  2:{ destruct (cdevs_remove_loading _ d1 Hd1) as (d2 & -> & _ & Hc2 & Hl2). rewrite bind_Ret.
      destruct (Hbye d2 Hc2 Hl2) as (rc & d' & -> & Hrc). exists rc, d'. split; [done|]. by left. }
  destruct Hd1 as [H1 H2 H3 H4 H5]. rewrite acquire_new by (rewrite H4, held_elem; tauto).
  rewrite bind_Ret. eexists _, _. split; [done|]. right. split; [done|]. split; [|split; [done|]].
  - split; simpl; [done..| |].
    + intros r. rewrite elem_of_cons, H4, held_elem. destruct r; unfold below; naive_solver lia.
    + intros i e Hi. pose proof (lookup_lt_Some _ _ _ Hi) as Hlt. rewrite H1 in Hlt. by apply H5 in Hi as [_ [? _]].
  - apply Forall_lookup. intros i e Hi. simpl in Hi. pose proof (lookup_lt_Some _ _ _ Hi) as Hlt. rewrite H1 in Hlt.
    by apply H5 in Hi as [_ [_ ?]].
Qed.

Lemma fini_ok D (b : bool) d :
  loaded D (below (if b then NUM_ENDPOINTS else 0)) d -> exists d', fini b d = Ret d' /\ live d' = [].
Proof.
  intros Hd. unfold fini.
  assert (exists d0, (if b then drv_remove d else Ret d) = Ret d0 /\ loaded D (below 0) d0) as (d0 & -> & Hd0).
  { destruct b; [|by exists d]. unfold drv_remove. destruct (remove_loop_ok D NUM_ENDPOINTS 0 d) as (d1 & -> & _ & Hd1); [|done|].
    - eapply loaded_ext; [|exact Hd]. intros j Hj. unfold below, from. apply eq_true_iff_eq.
      rewrite andb_true_iff, Nat.leb_le, Nat.ltb_lt. lia.
    - rewrite bind_Ret. eexists. split; [done|]. by destruct Hd1. }
  rewrite bind_Ret. clear Hd. pose proof (loaded_live _ _ _ Hd0) as Hl. pose proof (loaded_class _ _ _ Hd0) as Hc.
  rewrite release_in by by apply Hl. rewrite bind_Ret. unfold ept_cdevs_remove, NUM_ENDPOINTS. cbn [cdevs_remove]. unfold ept_cdev_remove.
  do 4 (rewrite release_in by (rewrite !elem_forget; split_and!; try done; apply Hl; unfold NUM_ENDPOINTS; auto; lia); rewrite !bind_Ret).
  unfold class_destroy. cbn [dev_class forget]. rewrite Hc. unfold free_params.
  do 2 (rewrite release_in by (rewrite !elem_forget; split_and!; try done; by apply Hl); rewrite !bind_Ret).
  eexists. split; [done|]. cbn [live]. apply elem_of_nil_inv. intros r Hr.
  change (r ∈ live (forget R_params (forget R_class (forget R_region (forget (R_cdev 2) (forget (R_device 2)
    (forget (R_cdev 1) (forget (R_device 1) (forget (R_cdev 0) (forget (R_device 0) (forget R_driver d0))))))))))) in Hr.
  rewrite !elem_forget, Hl in Hr. unfold NUM_ENDPOINTS in Hr.
  destruct r as [| | | |i|i|i]; try (by destruct Hr as (? & ? & ? & ? & ? & ? & ? & ? & ? & ? & ?)).
  - destruct i as [|[|[|i]]]; naive_solver lia.
  - destruct i as [|[|[|i]]]; naive_solver lia.
  - unfold below in Hr. naive_solver lia.
Qed.
End loading_cases.

(** ** Theorems *)

Section theorems.
Context {F : Type} `{RecFifoLaws F}.
Implicit Types (d : @driver F) (s : @system F).

Fixpoint queue_run (os : list output) (q q' : list (list (list Z))) : Prop :=
  match os with [] => q' = q | o :: os => exists q1, queue_step o q q1 /\ queue_run os q1 q' end.

Lemma sys_run_ok D evs s :
  sys_ok D s -> Forall event_ok evs ->
  sys_run evs s = Undef /\ (exists i, i < NUM_ENDPOINTS /\ D i = false) \/
  exists os s', sys_run evs s = Ret (os, s') /\ sys_ok D s' /\ queue_run os (queues (drv s)) (queues (drv s')).
Proof.
  intros Hs Hev. revert s Hs. induction Hev as [|ev evs Hev _ IH]; intros s Hs; cbn [sys_run]; [by right; exists [], s|].
  destruct (sys_step_ok D ev s Hs Hev) as [[-> HD]|(o & s1 & -> & Hs1 & Hq)]; [by left|]. rewrite bind_Ret.
  destruct (IH s1 Hs1) as [[-> HD]|(os & s' & -> & Hs' & Hqs)]; [by left|]. rewrite bind_Ret. right. exists (o :: os), s'.
  split; [done|]. split; [done|]. by exists (queues (drv s1)).
Qed.

Definition start d : system := mk_sys d false [].
Lemma start_ok D d : loaded D (below 0) d -> sys_ok D (start d).
Proof. intros Hd. split; [done..|constructor]. Qed.

Lemma not_created a i : created_devices a i = false -> a_device a i <> K_ok.
Proof. apply bool_decide_eq_false_1. Qed.

(** C22: Nothing the driver holds is lost or used after it is given back.  Whatever fails while the
    module is loaded, it ends up holding nothing, or everything it needs; then over any probes,
    removals, messages, reads, writes and signals it follows no pointer to a channel that is gone
    and releases only what it holds, its three endpoints being attached all together or not at all;
    and unloading it, bound or not, leaves nothing held.  Undefined behaviour is possible only
    through the error pointers that the code takes for objects: while it is loaded if [class_create]
    answers one, and afterwards if [device_create] did not make one of the devices. *)
Theorem rpmsg_lifecycle a evs :
  Forall event_ok evs ->
  match init a (@unloaded F) with
  | Ret (rc, d) =>
      rc = (- ENODEV)%Z /\ live d = [] \/
      rc = 0%Z /\
      match sys_run evs (start d) with
      | Ret (_, s) =>
          (forall i, i < NUM_ENDPOINTS -> R_endpoint i ∈ live (drv s) <-> bound s = true) /\
          exists d', fini (bound s) (drv s) = Ret d' /\ live d' = []
      | Undef => exists i, i < NUM_ENDPOINTS /\ a_device a i <> K_ok
      | Diverge => False
      end
  | Undef => a_class a = K_err
  | Diverge => False
  end.
Proof.
  intros Hev. destruct (init_cases a) as [[-> Hc]|(rc & d & -> & [Hfail|(-> & Hd & _)])]; [done|by left|right]. split; [done|].
  destruct (sys_run_ok _ evs (start d) (start_ok _ d Hd) Hev) as [[-> (i & Hi & HD)]|(os & s & -> & Hs & _)].
  - exists i. split; [done|]. by apply not_created.
  - split; [|by eapply fini_ok, Hs].
    intros i Hi. rewrite (loaded_live _ _ _ (sys_loaded _ _ Hs)). unfold below. destruct (bound s); rewrite Nat.ltb_lt; naive_solver lia.
Qed.

(** The messages queued for a device, and the reads that took one. *)
Definition queued (i : nat) (os : list output) : list (list Z) :=
  omap (fun o => match o with O_queued j data => if bool_decide (j = i) then Some data else None | _ => None end) os.
Definition reads (i : nat) (os : list output) : list (nat * Z * list Z) :=
  omap (fun o => match o with
                 | O_read j len v bytes =>
                     if bool_decide (j = i) && negb (bool_decide (no_record v)) then Some (len, v, bytes) else None
                 | _ => None end) os.

(** The reads that found a message, explained by the messages they took. *)
Inductive explained : list (list Z) -> list (nat * Z * list Z) -> Prop :=
  | Ex_none : explained [] []
  | Ex_read len r v bytes rs xs : took len r v bytes -> explained rs xs -> explained (r :: rs) ((len, v, bytes) :: xs)
  | Ex_lost len r bytes rs xs : explained rs xs -> explained (r :: rs) ((len, - EFAULT, bytes)%Z :: xs)
  | Ex_kept len bytes rs xs : explained rs xs -> explained rs ((len, - EFAULT, bytes)%Z :: xs).

Lemma took_not_no_record len r v bytes : took len r v bytes \/ v = (- EFAULT)%Z -> ~ no_record v.
Proof. unfold took, no_record, EFAULT, EINTR, EAGAIN, ERESTARTSYS. lia. Qed.

Lemma queue_run_order os q q' i rs :
  queue_run os q q' -> q !! i = Some rs ->
  exists taken rs', q' !! i = Some rs' /\ rs ++ queued i os = taken ++ rs' /\ explained taken (reads i os).
Proof.
  revert q rs. induction os as [|o os IH]; intros q rs Hrun Hi; simpl in Hrun.
  { subst. exists [], rs. split; [done|]. split; [by simpl; rewrite app_nil_r|constructor]. }
  destruct Hrun as (q1 & Hstep & Hrun).
  assert (forall rs1, q1 !! i = Some rs1 -> exists taken rs', q' !! i = Some rs' /\ rs1 ++ queued i os = taken ++ rs' /\
    explained taken (reads i os)) as IH1 by (intros; by eapply IH).
  destruct o as [st|j data|j data|j v|j len v bytes|]; simpl in Hstep; cbn [queued reads omap list_omap];
    try (subst q1; by apply IH1).
  - destruct Hstep as (_ & rs0 & Hj & _ & ->). case_bool_decide as Eji.
    + subst j. simplify_eq. destruct (IH1 (rs0 ++ [data])) as (taken & rs' & H1 & H2 & H3).
      { rewrite list_lookup_insert_eq; [done|]. by eapply lookup_lt_Some. }
      exists taken, rs'. split; [done|]. split; [|done]. rewrite <-H2, <-app_assoc. done.
    + apply IH1. by rewrite list_lookup_insert_ne.
  - destruct Hstep as [-> _]. by apply IH1.
  - destruct Hstep as [(-> & Hv & _)|(r & rs0 & Hj & Ht)].
    + rewrite (bool_decide_eq_true_2 (no_record v)) by done. rewrite andb_false_r. by apply IH1.
    + rewrite (bool_decide_eq_false_2 (no_record v)) by (eapply (took_not_no_record len r v bytes); naive_solver). rewrite andb_true_r.
      case_bool_decide as Eji.
      2:{ apply IH1. destruct Ht as [[_ ->]|[_ [-> | ->]]]; [|done|]; by rewrite list_lookup_insert_ne. }
      subst j. simplify_eq. pose proof (lookup_lt_Some _ _ _ Hj) as Hlt.
      destruct Ht as [[Ht ->]|[-> [-> | ->]]].
      * destruct (IH1 rs0) as (taken & rs' & H1 & H2 & H3); [by rewrite list_lookup_insert_eq|].
        exists (r :: taken), rs'. split; [done|]. split; [by simpl; f_equal|]. by constructor.
      * destruct (IH1 _ Hj) as (taken & rs' & H1 & H2 & H3).
        exists taken, rs'. split; [done|]. split; [done|]. by apply Ex_kept.
      * destruct (IH1 rs0) as (taken & rs' & H1 & H2 & H3); [by rewrite list_lookup_insert_eq|].
        exists (r :: taken), rs'. split; [done|]. split; [by simpl; f_equal|]. by apply Ex_lost.
Qed.

(** C23: What the readers of a device get.  After the module is loaded, over any events: each device
    is a bounded queue (the step relation says which messages are queued and which lost), the
    messages queued are, in order, those that reads have taken and those still in the queue, and
    each read that finds one takes the first and returns as much of it as its buffer holds, or,
    when the copy to the user fails, returns EFAULT and has taken that message or, as the FIFO
    decides, not.  There is undefined behaviour only if [device_create] did not make one of the
    devices, whose error pointer is then followed. *)
Theorem rpmsg_reads_in_order a d evs :
  init a (@unloaded F) = Ret (0%Z, d) -> Forall event_ok evs ->
  match sys_run evs (start d) with
  | Ret (os, s) =>
      queue_run os (replicate NUM_ENDPOINTS []) (queues (drv s)) /\
      forall i, i < NUM_ENDPOINTS -> exists taken rest, queues (drv s) !! i = Some rest /\
        queued i os = taken ++ rest /\ explained taken (reads i os)
  | Undef => exists i, i < NUM_ENDPOINTS /\ a_device a i <> K_ok
  | Diverge => False
  end.
Proof.
  intros Hi Hev. destruct (init_cases a) as [[Hu _]|(rc & d0 & Hi' & Hcase)]; [congruence|]. rewrite Hi in Hi'. simplify_eq.
  destruct Hcase as [[? _]|(_ & Hd & _ & Hf)]; [done|].
  destruct (sys_run_ok _ evs (start d0) (start_ok _ d0 Hd) Hev) as [[-> (i & Hlt & HD)]|(os & s & -> & Hs & Hq)].
  { exists i. split; [done|]. by apply not_created. }
  assert (queues (drv (start d0)) = replicate NUM_ENDPOINTS []) as Hq0.
  { cbn [start drv]. rewrite <-(loaded_length _ _ _ Hd). unfold queues. clear -Hf.
    induction Hf as [|e l He _ IH]; [done|]. cbn [fmap list_fmap length replicate]. rewrite He, records_new. by f_equal. }
  rewrite Hq0 in Hq. split; [done|]. intros i Hlt.
  destruct (queue_run_order os _ _ i [] Hq) as (taken & rest & H1 & H2 & H3); [by apply lookup_replicate_2|]. by exists taken, rest.
Qed.

(** What a write sends.  On an attached device the messages are cut from the user's buffer in
    order, each of at most the size of the transmit buffer; if nothing fails the result is the
    number of bytes sent: all of them up to 4096, and 3968 of anything longer.  A copy or a message
    that fails decides the result, although the messages before it have been sent.  A device that
    is not attached takes everything and sends nothing. *)
Theorem rpmsg_write_messages P copy send i ubuff d :
  loaded (fun _ => true) P d -> i < NUM_ENDPOINTS ->
  exists v d', ept_cdev_write true copy send i ubuff d = Ret (v, d') /\
    if P i then exists c a msgs, wrote copy send ubuff 0 c a v d d' msgs
    else v = Z.of_nat (length ubuff) /\ d' = d.
Proof.
  intros Hd Hi. unfold ept_cdev_write. destruct (loaded_load _ P d i Hd Hi) as (e & Hld & _ & Hok). rewrite Hld, bind_Ret.
  cbn [negb]. rewrite (ept_ready _ _ _ _ Hok). destruct (P i) eqn:HP; cbn [negb]; [|by eexists _, d].
  destruct (write_loop_ok (fun _ => true) copy send i ubuff P (length ubuff) 0 0 d) as [[_ ?]|(e' & c & v & d' & msgs & _ & _ & -> & _ & _ & Hw)]; try done.
  - split; [lia|]. split; [lia|]. left. by exists 0.
  - lia.
  - exists v, d'. split; [done|]. by exists c, (addr e'), msgs.
Qed.

(** A probe that is refused leaves the driver as it was. *)
Lemma probed_stays evs s :
  sys_ok (fun _ => true) s -> bound s = false -> probed (drv s) = true -> Forall event_ok evs ->
  exists os s', sys_run evs s = Ret (os, s') /\ bound s' = false /\
    Forall (fun o => forall st, o = O_probe st -> st = (- ENODEV)%Z) os.
Proof.
  intros Hs Hb Hp Hev. revert s Hs Hb Hp. induction Hev as [|ev evs Hev _ IH]; intros s Hs Hb Hp; cbn [sys_run]; [by exists [], s|].
  assert (exists o s1, sys_step ev s = Ret (o, s1) /\ sys_ok (fun _ => true) s1 /\ bound s1 = false /\ probed (drv s1) = true /\
            forall st, o = O_probe st -> st = (- ENODEV)%Z) as (o & s1 & -> & H1 & H2 & H3 & H4).
  { destruct (sys_step_ok _ ev s Hs Hev) as [[_ (? & _ & ?)]|(o & s1 & Hst & Hs1 & _)]; [done|]. exists o, s1. split; [done|]. split; [done|].
    destruct Hs as [Hl _ _]. destruct ev as [answers rpdev| |i data|i ubuff lock copy send|id i len nonblock lock copy|id lock copy|id];
      cbn [sys_step] in Hst; simpl in Hev.
    - cbv zeta in Hst. case_bool_decide; [by simplify_eq|]. unfold drv_probe in Hst.
      rewrite follow_ok, bind_Ret in Hst by (cbn; set_solver). cbn [set_channels probed] in Hst. rewrite Hp, bind_Ret in Hst.
      simplify_eq. split; [done|]. split; [done|]. intros st [= <-]. done.
    - rewrite Hb in Hst. simpl in Hst. by simplify_eq.
    - case_bool_decide; simpl in Hst; [|by simplify_eq].
      destruct (rx_ok _ _ data i (drv s) Hl Hev) as [[_ ?]|(wake & d' & Hcb & Hpr & _)]; [done|]. rewrite Hcb, bind_Ret in Hst. simplify_eq. simpl.
      split; [done|]. split; [congruence|]. by destruct wake.
    - destruct (write_ok _ _ lock copy send i ubuff (drv s) Hl Hev) as [[_ ?]|(v & d' & Hw & Hk & _)]; [done|]. rewrite Hw, bind_Ret in Hst. simplify_eq. simpl.
      split; [done|]. split; [by rewrite (proj1 Hk)|done].
    - unfold sys_read in Hst. destruct (read_ok _ _ lock nonblock copy i len (drv s) Hl Hev) as (r & d' & Hr & Hpr & _).
      rewrite Hr, bind_Ret in Hst. destruct r as [[v bytes]|]; simplify_eq; simpl; (split; [done|]); (split; [congruence|done]).
    - destruct (waiter id s) as [[i len]|] eqn:Ew; [|by simplify_eq].
      destruct (load (epts (drv s)) i) as [e| |] eqn:El; [|done..]. rewrite bind_Ret in Hst. destruct (kfifo_is_empty _); [by simplify_eq|].
      unfold sys_read in Hst. cbn [drv no_longer] in Hst.
      assert (i < NUM_ENDPOINTS) as Hi by (apply load_Ret, lookup_lt_Some in El; by rewrite (loaded_length _ _ _ Hl) in El).
      destruct (read_ok _ _ lock false copy i len (drv s) Hl Hi) as (r & d' & Hr & Hpr & _).
      rewrite Hr, bind_Ret in Hst. destruct r as [[v bytes]|]; simplify_eq; simpl; (split; [done|]); (split; [congruence|done]).
    - destruct (waiter id s) as [[i len]|]; by simplify_eq. }
  rewrite bind_Ret. destruct (IH s1 H1 H2 H3) as (os & s' & -> & Hb' & Hos). rewrite bind_Ret. exists (o :: os), s'.
  split; [done|]. split; [done|]. by constructor.
Qed.

(** A probe that fails is the last.  If an endpoint cannot be set up, the endpoints set up
    before are removed but the driver remains marked as probed: every later probe is refused, so
    until the module is reloaded it is never attached again. *)
Theorem failed_probe_is_final answers rpdev evs d :
  loaded (fun _ => true) (below 0) d -> probed d = false -> channels d = [] -> (exists i, i < NUM_ENDPOINTS /\ (answers i).1 && (answers i).2 = false) ->
  Forall event_ok evs ->
  exists os s, sys_run (E_probe answers rpdev :: evs) (start d) = Ret (os, s) /\ bound s = false /\
    Forall (fun o => forall st, o = O_probe st -> st = (- ENODEV)%Z) os.
Proof.
  intros Hd Hp Hcs Hans Hev. cbn [sys_run sys_step start drv]. rewrite Hcs. rewrite bool_decide_eq_false_2 by apply not_elem_of_nil.
  set (d0 := set_channels [rpdev] d). assert (loaded (fun _ => true) (below 0) (set_probed true d0)) as Hd0.
  { assert (loaded (fun _ => true) (below 0) d0) as [] by (apply set_channels_loaded; [done|by left]). by split. }
  unfold drv_probe. rewrite follow_ok, bind_Ret by (cbn; set_solver). change (probed d0) with (probed d). rewrite Hp.
  destruct (probe_ok _ answers rpdev NUM_ENDPOINTS 0 (set_probed true d0) Hd0 eq_refl) as (ok & d' & Hpr & (Hk & _) & Hd'); [cbn; set_solver|].
  assert (ok = false) as ->.
  { eapply (probe_fails _ answers rpdev NUM_ENDPOINTS 0 (set_probed true d0)); [done|done|cbn; set_solver|done|].
    destruct Hans as (i & ? & ?). exists i. split; [lia|done]. }
  rewrite Hpr, bind_Ret. cbn [negb]. rewrite !bind_Ret.
  destruct (probed_stays evs (mk_sys (set_channels [] d') false [])) as (os & s & Hrun & Hb & Hos); try done.
  { split; [|done|constructor]. apply set_channels_loaded; [done|by left]. }
  change (- ENODEV =? 0)%Z with false. cbn [waiting start bound]. rewrite Hrun, bind_Ret. exists (O_probe (- ENODEV) :: os), s. split; [done|]. split; [done|].
  constructor; [|done]. by intros st [= <-].
Qed.
End theorems.

(** ** A FIFO that keeps the laws, and runs of the driver on it *)

#[export] Instance list_fifo : RecFifo (list (list Z)) := {
  kfifo_new := [];
  kfifo_in d f := if rec_bytes f + 2 + length d <=? RX_FIFO_SIZE then (length d, f ++ [d]) else (0, f);
  kfifo_to_user ok len f :=
    match f with
    | [] => (0%Z, [], [])
    | r :: rs => if ok then (0%Z, take len r, rs) else ((- EFAULT)%Z, [], r :: rs)
    end;
  kfifo_is_empty f := match f with [] => true | _ => false end;
  kfifo_len f := Z.of_nat (rec_bytes f);
  kfifo_avail f := Z.of_nat (RX_FIFO_SIZE - rec_bytes f - 2);
}.

#[export] Instance list_fifo_laws : RecFifoLaws (list (list Z)).
Proof.
  refine (Build_RecFifoLaws _ _ (fun f => f) _ _ _ _).
  - done.
  - intros d f. simpl. by destruct (_ <=? _).
  - intros ok len [|r rs] Hne; [done|]. exists r, rs. split; [done|]. destruct ok; [by split|split; [by right|done]].
  - by intros [|r rs].
Defined.

Definition all_good : init_answers := mk_answers true K_ok (Some 250%Z) (fun _ => true) (fun _ => K_ok) true.
Definition loaded_driver : @driver (list (list Z)) :=
  match init all_good unloaded with Ret (_, d) => d | _ => unloaded end.
Definition sample_events : list event :=
  [E_read 7 1 2 false true true; E_probe (fun _ => (true, true)) 4; E_rx 1 [1; 2; 3]%Z; E_wake 7 true true;
   E_rx 1 [4]%Z; E_rx 1 []; E_write 0 [9; 9]%Z true (fun _ => true) (fun _ => 0%Z)].

Lemma sample_events_ok : Forall event_ok sample_events.
Proof. repeat constructor. Defined.

Lemma rpmsg_lifecycle_witness :
  exists d s d', init all_good (@unloaded (list (list Z))) = Ret (0%Z, d) /\
    (exists os, sys_run sample_events (start d) = Ret (os, s)) /\ bound s = true /\
    fini (bound s) (drv s) = Ret d' /\ live d' = [].
Proof.
  pose proof (rpmsg_lifecycle (F := list (list Z)) all_good sample_events sample_events_ok) as H.
  assert (init all_good (@unloaded (list (list Z))) = Ret (0%Z, loaded_driver)) as Hi by (vm_compute; reflexivity).
  rewrite Hi in H. destruct H as [[H _]|[_ H]]; [discriminate H|].
  assert (match sys_run sample_events (start loaded_driver) with Ret (_, s) => bound s | _ => false end = true) as Hb by (vm_compute; reflexivity).
  destruct (sys_run sample_events (start loaded_driver)) as [[os s]| |] eqn:E; [|discriminate Hb..].
  destruct H as (_ & d' & Hf & Hl). exists loaded_driver, s, d'. split; [exact Hi|]. split; [exists os; exact E|].
  split; [exact Hb|]. split; [exact Hf|exact Hl].
Defined.

Lemma rpmsg_reads_in_order_witness :
  (match sys_run sample_events (start loaded_driver) with Ret (os, _) => reads 1 os | _ => [] end) = [(2, 2%Z, [1; 2]%Z)] /\
  exists os s, sys_run sample_events (start loaded_driver) = Ret (os, s) /\
    exists taken rest, queues (drv s) !! 1 = Some rest /\ queued 1 os = taken ++ rest /\ explained taken (reads 1 os).
Proof.
  split; [vm_compute; reflexivity|].
  assert (init all_good (@unloaded (list (list Z))) = Ret (0%Z, loaded_driver)) as Hi by (vm_compute; reflexivity).
  pose proof (rpmsg_reads_in_order all_good loaded_driver sample_events Hi sample_events_ok) as H.
  assert (match sys_run sample_events (start loaded_driver) with Ret _ => true | _ => false end = true) as Hb by (vm_compute; reflexivity).
  destruct (sys_run sample_events (start loaded_driver)) as [[os s]| |]; [|discriminate Hb..].
  exists os, s. split; [reflexivity|]. destruct H as [_ H]. apply (H 1). unfold NUM_ENDPOINTS. lia.
Defined.

Lemma loaded_ext_devices D D' P (d : @driver (list (list Z))) : (forall i, D i = D' i) -> loaded D P d -> loaded D' P d.
Proof.
  intros HD [Hl Hc Hr He]. split; [done..| |].
  - intros r. rewrite Hr. destruct r; try done. by rewrite HD.
  - intros i e Hi. rewrite <-HD. by apply He.
Qed.

Lemma loaded_driver_ok : loaded (fun _ => true) (below 0) loaded_driver /\ probed loaded_driver = false.
Proof.
  destruct (@init_cases (list (list Z)) _ all_good) as [[_ ?]|(rc & d & Hi & [[? Hl]|(-> & Hd & Hp & _)])]; [discriminate| |].
  - exfalso. subst rc. assert (match init all_good (@unloaded (list (list Z))) with Ret (rc, _) => rc | _ => 1%Z end = 0%Z) as H0
      by (vm_compute; reflexivity). rewrite Hi in H0. discriminate.
  - unfold loaded_driver. rewrite Hi. split; [|exact Hp]. eapply loaded_ext_devices; [|exact Hd]. intros i. reflexivity.
Qed.

Lemma rpmsg_write_messages_witness :
  exists v d', ept_cdev_write true (fun _ => true) (fun _ => 0%Z) 0 (replicate 5 7%Z) loaded_driver = Ret (v, d') /\
    v = 5%Z /\ d' = loaded_driver.
Proof.
  destruct (rpmsg_write_messages (below 0) (fun _ => true) (fun _ => 0%Z) 0 (replicate 5 7%Z) loaded_driver)
    as (v & d' & Hw & Hv & Hd); [apply loaded_driver_ok|unfold NUM_ENDPOINTS; lia|].
  exists v, d'. split; [exact Hw|]. split; [exact Hv|exact Hd].
Defined.

Lemma failed_probe_is_final_witness :
  exists os s, sys_run [E_probe (fun i => (true, negb (i =? 1))) 4; E_probe (fun _ => (true, true)) 4] (start loaded_driver) = Ret (os, s) /\
    bound s = false.
Proof.
  destruct (failed_probe_is_final (fun i => (true, negb (i =? 1))) 4 [E_probe (fun _ => (true, true)) 4] loaded_driver)
    as (os & s & Hrun & Hb & _).
  - apply loaded_driver_ok.
  - apply loaded_driver_ok.
  - reflexivity.
  - exists 1. split; [unfold NUM_ENDPOINTS; lia|reflexivity].
  - repeat constructor.
  - exists os, s. split; [exact Hrun|exact Hb].
Defined.

(** A long write: eight whole buffers. *)
Example long_write :
  match sys_run [E_probe (fun _ => (true, true)) 4; E_write 0 (replicate (Z.to_nat 4200) 1%Z) true (fun _ => true) (fun _ => 0%Z)]
          (start loaded_driver) with
  | Ret (os, s) => (last os, length (sent (drv s)))
  | _ => (None, 0)
  end = (Some (O_written 0 3968), 9).
Proof. vm_compute. reflexivity. Qed.

(** An error pointer from [class_create] passes for a class, and is followed. *)
Example class_error_followed :
  init (mk_answers true K_err (Some 250%Z) (fun _ => true) (fun _ => K_ok) true) (@unloaded (list (list Z))) = Undef.
Proof. vm_compute. reflexivity. Qed.
