(* ===== verification/Logger.v ===== *)
(** * The standalone file logger

    [standalone_file_logger/standalone_file_logger/src/]: [rotating_logger.cc], which writes the
    frames it is given to a sequence of files, and the callbacks of [standalone_file_logger.cc]
    that create, configure and feed it.

    The thread of the logger takes one frame per step; the calls of the other thread come between
    its steps, as the mutex around the queue orders them.  Times are nanoseconds of the steady clock.
    [check_slice_time] divides doubles; for times below [2 ^ 53 / 60] seconds the truncated quotient
    is that of the integers, which is what is computed here.  The comparison of [check_disk_full] is
    a parameter.  A file is sparse: beyond its data it reads as zeros, up to its size.  The bytes of
    a stream are taken to reach the disk when it is closed; that they may get there earlier makes a
    difference only if one file gets more than [2 ^ 32] bytes or [fwrite] takes part of a frame, as
    the file is then cut below what has been written. *)

From stdpp Require Import gmap.
From stdpp Require Export strings.
From Stdlib Require Import Ascii.
From S2P Require Import Prelude Libc Text.

Definition NEW_FILE_PAD_SIZE : Z := 15 * 1024 * 1024.
Definition MAX_QUEUE_SIZE : Z := 1 * 1024 * 1024.
Definition LOG_SUFFIX : string := ".sbp".
Definition LOG_NAME_LEN : nat := 4 + 1 + 5 + 4.

(** ** Files *)

Record file := mk_file { fdata : list Z; fsize : Z }.

Definition ftruncate (n : Z) (f : file) : file :=
  mk_file (if (n <? Z.of_nat (length (fdata f)))%Z then take (Z.to_nat n) (fdata f) else fdata f) n.

(** A [write] of [d] from the beginning of the file on. *)
Definition overwrite (d : list Z) (f : file) : file :=
  mk_file (d ++ drop (length d) (fdata f)) (Z.max (fsize f) (Z.of_nat (length d))).

(** A directory and a name in it. *)
Abbreviation path := (string * string)%type.

(** An open log file: what has been handed to its stream, which is flushed when it is closed. *)
Record stream := mk_stream { st_path : path; st_data : list Z }.

(** ** The state *)

Record config := mk_config {
  out_dir : string; slice_duration : Z; poll_period : Z; disk_full_threshold : Z;
}.

Record session := mk_session {
  dest_available : bool; session_count : Z; minute_count : Z; session_start_time : Z;
  cur_file : option stream; bytes_written : Z;
}.

(** The queue holds frames, and [None] for the end; [opened] is the list of the files opened. *)
Record logger := mk_logger {
  cfg : config; ses : session; queue : list (option (list Z)); queue_bytes : Z;
  disk : gmap path file; opened : list path;
}.

(** What the system answers while the thread handles one frame: the clock at each place that
    reads it, whether [opendir], [open] and the two [ftruncate]s succeed, what [statvfs] says, how
    many bytes [fwrite] takes, and how many of a stream's bytes reach the disk at its end. *)
Record answers := mk_answers {
  t_poll : Z; t_valid : Z; t_session : Z; t_slice : Z; t_fail : Z;
  a_dir : bool; a_stat : option (Z * Z); a_open : bool; a_pad : bool; a_trunc : bool;
  a_written : nat -> nat; a_flushed : nat -> nat;
}.

(** [sprintf("%0wu")] of a number. *)
Definition print_0u (w : nat) (v : Z) : string :=
  if (v <? 10 ^ Z.of_nat w)%Z then digit_string (digits 10 w v) else print_u v.

Definition log_name (s m : Z) : string := print_0u 4 s +:+ "-" +:+ print_0u 5 m +:+ LOG_SUFFIX.

(** [strtol(name, NULL, 10)], as a [size_t]. *)
Definition strtol10 (s : string) : Z :=
  let '(neg, s) := skip_sign (skip_space s) in
  let v := (dec_digits s 0).1 in
  u32 (if (neg : bool) then Z.max (- v) (- 2 ^ 31) else Z.min v (2 ^ 31 - 1)).

Section logger.
(** [percent_below blocks bavail threshold]: the comparison of doubles. *)
Variable percent_below : Z -> Z -> Z -> bool.

Definition set_count (s : session) (n m : Z) : session :=
  mk_session (dest_available s) n m (session_start_time s) (cur_file s) (bytes_written s).
Definition set_start (s : session) (t : Z) : session :=
  mk_session (dest_available s) (session_count s) (minute_count s) t (cur_file s) (bytes_written s).
Definition set_file (s : session) (b : bool) (f : option stream) : session :=
  mk_session b (session_count s) (minute_count s) (session_start_time s) f (bytes_written s).
Definition set_bytes (s : session) (n : Z) : session :=
  mk_session (dest_available s) (session_count s) (minute_count s) (session_start_time s) (cur_file s) n.

(** [close_current_file]: the file is cut to the bytes counted if it was not filled, then the
    stream is flushed. *)
Definition close_current_file (a : answers) (s : session) (dk : gmap path file) : session * gmap path file :=
  match cur_file s with
  | None => (s, dk)
  | Some st =>
      let f := default (mk_file [] 0) (dk !! st_path st) in
      let f := if (bytes_written s <? NEW_FILE_PAD_SIZE)%Z && a_trunc a then ftruncate (bytes_written s) f else f in
      let f := overwrite (take (a_flushed a (length (st_data st))) (st_data st)) f in
      (set_bytes (set_file s (dest_available s) None) 0, <[st_path st := f]> dk)
  end.

Definition pad_new_file (a : answers) (s : session) (dk : gmap path file) : gmap path file :=
  match cur_file s with
  | None => dk
  | Some st =>
      let f := default (mk_file [] 0) (dk !! st_path st) in
      <[st_path st := if a_pad a then ftruncate NEW_FILE_PAD_SIZE f else f]> dk
  end.

(** -1, 0 or 1 *)
Definition check_disk_full (a : answers) (c : config) : Z :=
  match a_stat a with
  | None => (-1)%Z
  | Some (blocks, bavail) => if percent_below blocks bavail (disk_full_threshold c) then 0%Z else 1%Z
  end.

(** The state that opening a file works on. *)
Definition opening : Type := session * gmap path file * list path.

Definition open_new_file (a : answers) (c : config) (x : opening) : outcome (bool * opening) :=
  let '(s, dk, op) := x in
  if (9999 <=? session_count s)%Z then Ret (false, x)
  else
    let '(s, dk) := close_current_file a s dk in
    if (check_disk_full a c =? 1)%Z then Ret (false, (s, dk, op))
    else
      let s := if (99999 <? minute_count s)%Z then set_count s (u32 (session_count s + 1)) 0 else s in
      let name := log_name (session_count s) (minute_count s) in
      if negb (String.length name <=? LOG_NAME_LEN) then Undef                (* log_name_buf *)
      else
        let p := (out_dir c, name) in
        let s := set_file s (a_open a) (if a_open a then Some (mk_stream p []) else None) in
        let dk := if a_open a then <[p := default (mk_file [] 0) (dk !! p)]> dk else dk in
        let dk := pad_new_file a s dk in
        Ret (dest_available s, (s, dk, if a_open a then op ++ [p] else op)).

(** In whole seconds. *)
Definition get_time_passed (now : Z) (s : session) : Z := Z.quot (now - session_start_time s) (10 ^ 9).

Definition check_slice_time (a : answers) (c : config) (x : opening) : outcome (bool * opening) :=
  let '(s, dk, op) := x in
  if (slice_duration c =? 0)%Z then Undef                                     (* inf or nan as a size_t *)
  else
    let periods := Z.quot (get_time_passed (t_slice a) s - 60 * minute_count s) (60 * slice_duration c) in
    if (periods <? 0)%Z || (2 ^ 32 <=? periods)%Z then Undef                  (* not a size_t *)
    else if (periods =? 0)%Z then Ret (true, x)
    else
      let s := set_count s (session_count s) (u32 (minute_count s + u32 (slice_duration c * periods))) in
      open_new_file a c (s, dk, op).

(** The largest session number below 9999 among the names of a directory. *)
Definition is_log_name (n : string) : bool :=
  (String.length n =? LOG_NAME_LEN) && bool_decide (is_Some (strstr (text_of n) (text_of LOG_SUFFIX))).
Definition scan_name (n : string) (best : Z) : Z :=
  let k := strtol10 n in if is_log_name n && (k <? 9999)%Z && (best <? k)%Z then k else best.
Definition names_in (dir : string) (dk : gmap path file) : list string :=
  omap (fun kv : path * file => if bool_decide (kv.1.1 = dir) then Some kv.1.2 else None) (map_to_list dk).
Definition last_session (dir : string) (dk : gmap path file) : Z := foldr scan_name 0%Z (names_in dir dk).

Definition start_new_session (a : answers) (c : config) (x : opening) : outcome (bool * opening) :=
  let '(s, dk, op) := x in
  if negb (a_dir a) then Ret (false, x)
  else
    let s := set_start (set_count s (u32 (last_session (out_dir c) dk + 1)) 0) (t_session a) in
    open_new_file a c (s, dk, op).

Definition ensure_session_valid (a : answers) (c : config) (x : opening) : outcome (bool * opening) :=
  let '(s, dk, op) := x in
  if dest_available s then check_slice_time a c x
  else if negb (session_start_time s =? 0)%Z && (get_time_passed (t_poll a) s <? poll_period c)%Z then Ret (false, x)
  else
    '(ok, x) ← start_new_session a c (set_start s (t_valid a), dk, op);
    if negb ok then Ret (false, x) else check_slice_time a c x.

(** What [process_frame] does with a frame. *)
Definition write_frame (a : answers) (frame : list Z) (s : session) (dk : gmap path file) : session * gmap path file :=
  let size := Z.of_nat (length frame) in
  let num_written :=
    match cur_file s with Some _ => Z.of_nat (a_written a (length frame) `min` length frame) | None => 0%Z end in
  let s := match cur_file s with
           | Some st => set_file s (dest_available s) (Some (mk_stream (st_path st) (st_data st ++ take (Z.to_nat num_written) frame)))
           | None => s end in
  let '(s, dk) :=
    if negb (num_written =? size)%Z then
      let '(s, dk) := close_current_file a s dk in (set_start (set_file s false (cur_file s)) (t_fail a), dk)
    else (s, dk) in
  (set_bytes s (u32 (bytes_written s + size)), dk).

(** One round of the thread.  [None]: the queue is empty and the thread waits; [Some false]: it has
    taken the end. *)
Definition process_frame (a : answers) (l : logger) : outcome (option bool * logger) :=
  match queue l with
  | [] => Ret (None, l)
  | None :: q => Ret (Some false, mk_logger (cfg l) (ses l) q (queue_bytes l) (disk l) (opened l))
  | Some frame :: q =>
      let qb := u32 (queue_bytes l - Z.of_nat (length frame)) in
      '(ok, (s, dk, op)) ← ensure_session_valid a (cfg l) (ses l, disk l, opened l);
      let '(s, dk) := if (ok : bool) then write_frame a frame s dk else (s, dk) in
      Ret (Some true, mk_logger (cfg l) s q qb dk op)
  end.

(** ** The calls of the other thread *)

Definition frame_handler (data : list Z) (l : logger) : logger :=
  if (MAX_QUEUE_SIZE <? u32 (queue_bytes l + Z.of_nat (length data)))%Z then l
  else mk_logger (cfg l) (ses l) (queue l ++ [Some data]) (u32 (queue_bytes l + Z.of_nat (length data)))
         (disk l) (opened l).

Definition set_cfg (l : logger) (c : config) : logger :=
  mk_logger c (ses l) (queue l) (queue_bytes l) (disk l) (opened l).
Definition update_dir (d : string) (l : logger) : logger :=
  set_cfg l (mk_config d (slice_duration (cfg l)) (poll_period (cfg l)) (disk_full_threshold (cfg l))).
Definition update_fill_threshold (n : Z) (l : logger) : logger :=
  set_cfg l (mk_config (out_dir (cfg l)) (slice_duration (cfg l)) (poll_period (cfg l)) n).
Definition update_slice_duration (n : Z) (l : logger) : logger :=
  set_cfg l (mk_config (out_dir (cfg l)) n (poll_period (cfg l)) (disk_full_threshold (cfg l))).

(** The constructor: nothing is opened before the first frame. *)
Definition RotatingLogger (c : config) (dk : gmap path file) : logger :=
  mk_logger c (mk_session false 0 0 0 None 0) [] 0 dk [].

(** The destructor, and the rounds of the thread that [stop_thread] waits for. *)
Definition stop_thread (l : logger) : logger :=
  mk_logger (cfg l) (ses l) (queue l ++ [None]) (queue_bytes l) (disk l) (opened l).
Fixpoint drain (ans : nat -> answers) (fuel k : nat) (l : logger) : outcome logger :=
  match fuel with
  | O => Diverge
  | S fuel =>
      '(r, l) ← process_frame (ans k) l;
      match r with
      | Some true => drain ans fuel (S k) l
      | Some false => Ret l
      | None => Diverge
      end
  end.
Definition destroy (ans : nat -> answers) (fin : answers) (l : logger) : outcome logger :=
  let l := stop_thread l in
  l ← drain ans (length (queue l)) 0 l;
  let '(s, dk) := close_current_file fin (ses l) (disk l) in
  Ret (mk_logger (cfg l) s (queue l) (queue_bytes l) dk (opened l)).
End logger.

(** ** The callbacks of the daemon *)

Inductive logging_fs_t := LOGGING_FILESYSTEM_FAT | LOGGING_FILESYSTEM_F2FS | LOGGING_FILESYSTEM_NTFS.
#[export] Instance logging_fs_eq_dec : EqDecision logging_fs_t.
Proof. solve_decision. Defined.

Inductive fs_type_transition_t :=
  | FSTT_UNKNOWN | FSTT_NO_DIFFERENCE
  | FSTT_NONE_TO_F2FS | FSTT_NONE_TO_NTFS | FSTT_NONE_TO_FAT
  | FSTT_FAT_TO_F2FS | FSTT_FAT_TO_NTFS | FSTT_F2FS_TO_NTFS | FSTT_NTFS_TO_F2FS
  | FSTT_F2FS_TO_FAT | FSTT_NTFS_TO_FAT.

(** [None]: no previous value is set.  The test for a change from nothing to FAT asks for NTFS. *)
Definition classify_fs_transition (prev : option logging_fs_t) (cur : logging_fs_t) : fs_type_transition_t :=
  match prev, cur with
  | Some LOGGING_FILESYSTEM_FAT, LOGGING_FILESYSTEM_FAT
  | Some LOGGING_FILESYSTEM_F2FS, LOGGING_FILESYSTEM_F2FS
  | Some LOGGING_FILESYSTEM_NTFS, LOGGING_FILESYSTEM_NTFS => FSTT_NO_DIFFERENCE
  | None, LOGGING_FILESYSTEM_F2FS => FSTT_NONE_TO_F2FS
  | None, LOGGING_FILESYSTEM_NTFS => FSTT_NONE_TO_NTFS
  | Some LOGGING_FILESYSTEM_FAT, LOGGING_FILESYSTEM_F2FS => FSTT_FAT_TO_F2FS
  | Some LOGGING_FILESYSTEM_FAT, LOGGING_FILESYSTEM_NTFS => FSTT_FAT_TO_NTFS
  | Some LOGGING_FILESYSTEM_F2FS, LOGGING_FILESYSTEM_NTFS => FSTT_F2FS_TO_NTFS
  | Some LOGGING_FILESYSTEM_NTFS, LOGGING_FILESYSTEM_F2FS => FSTT_NTFS_TO_F2FS
  | Some LOGGING_FILESYSTEM_NTFS, LOGGING_FILESYSTEM_FAT => FSTT_NTFS_TO_FAT
  | Some LOGGING_FILESYSTEM_F2FS, LOGGING_FILESYSTEM_FAT => FSTT_F2FS_TO_FAT
  | None, LOGGING_FILESYSTEM_FAT => FSTT_UNKNOWN
  end.

(** Whether the warning is issued, and the value kept. *)
Definition logging_filesystem_notify (prev : option logging_fs_t) (cur : logging_fs_t) : bool * option logging_fs_t :=
  (match classify_fs_transition prev cur with
   | FSTT_NONE_TO_F2FS | FSTT_NONE_TO_NTFS | FSTT_FAT_TO_NTFS | FSTT_FAT_TO_F2FS
   | FSTT_F2FS_TO_NTFS | FSTT_NTFS_TO_F2FS => true
   | _ => false
   end, Some cur).

Section daemon.
Variable percent_below : Z -> Z -> Z -> bool.

Record usb_settings := mk_usb { u_enable : bool; u_dir : string; u_max_fill : Z; u_slice : Z }.

(** The [int]s of the settings become [size_t]s.  The disk is passed in and out, as it outlives the
    logger. *)
Definition stop_logging (ans : nat -> answers) (fin : answers) (l : option logger) (dk : gmap path file) :
    outcome (option logger * gmap path file) :=
  match l with
  | None => Ret (None, dk)
  | Some l => l ← destroy percent_below ans fin l; Ret (None, disk l)
  end.
Definition setting_usb_logging_notify (poll_period_s : Z) (ans : nat -> answers) (fin : answers) (u : usb_settings)
    (l : option logger) (dk : gmap path file) : outcome (option logger * gmap path file) :=
  if u_enable u then
    match l with
    | None =>
        Ret (Some (RotatingLogger (mk_config (u_dir u) (u32 (u_slice u)) (u32 poll_period_s) (u32 (u_max_fill u))) dk), dk)
    | Some l =>
        Ret (Some (update_slice_duration (u32 (u_slice u)) (update_fill_threshold (u32 (u_max_fill u)) (update_dir (u_dir u) l))), dk)
    end
  else stop_logging ans fin l dk.

Definition log_frame_callback (data : list Z) (l : option logger) : option logger := frame_handler data <$> l.
End daemon.

(** ** Names *)

Lemma length_digits base n v : length (digits base n v) = n.
Proof. revert v. induction n as [|n IH]; intros v; simpl; [done|]. rewrite length_app, IH. simpl. lia. Qed.

Lemma digit_string_length ds : String.length (digit_string ds) = length ds.
Proof. induction ds as [|d ds IH]; simpl; [done|]. by rewrite <-IH. Qed.

Lemma print_0u_small w v : (0 <= v < 10 ^ Z.of_nat w)%Z ->
  print_0u w v = digit_string (digits 10 w v) /\ digits_value 10 (digits 10 w v) = v.
Proof.
  intros Hv. unfold print_0u. rewrite (proj2 (Z.ltb_lt _ _)) by lia. split; [done|].
  rewrite digits_value_mod by lia. apply Z.mod_small. lia.
Qed.

(** The numbers a log name can hold. *)
Definition name_ok (s m : Z) : Prop := (0 <= s <= 9999 /\ 0 <= m <= 99999)%Z.

Lemma log_name_digits s m : name_ok s m ->
  log_name s m = digit_string (digits 10 4 s) +:+ "-" +:+ digit_string (digits 10 5 m) +:+ LOG_SUFFIX.
Proof. intros [Hs Hm]. unfold log_name. by rewrite (proj1 (print_0u_small 4 s ltac:(simpl; lia))), (proj1 (print_0u_small 5 m ltac:(simpl; lia))). Qed.

Lemma log_name_length s m : name_ok s m -> String.length (log_name s m) = LOG_NAME_LEN.
Proof.
  intros H. rewrite log_name_digits by done. rewrite !string_length_app, !digit_string_length, !length_digits. done.
Qed.

Lemma dec_digits_of n v rest : (0 <= v < 10 ^ Z.of_nat n)%Z ->
  dec_digits (digit_string (digits 10 n v) +:+ rest) 0 = dec_digits rest v.
Proof.
  intros Hv. rewrite dec_digits_string by (apply digits_range; lia). f_equal.
  change (digits_value 10 (digits 10 n v) = v). rewrite digits_value_mod by lia. apply Z.mod_small. lia.
Qed.

Lemma log_name_strtol s m : name_ok s m -> strtol10 (log_name s m) = s.
Proof.
  intros H. pose proof H as [Hs _]. rewrite log_name_digits by done. unfold strtol10.
  set (rest := "-" +:+ digit_string (digits 10 5 m) +:+ LOG_SUFFIX).
  pose proof (dec_digits_of 4 s rest ltac:(simpl; lia)) as Hd.
  pose proof (digits_range 10 4 s ltac:(lia)) as Hr. pose proof (length_digits 10 4 s) as Hlen.
  destruct (digits 10 4 s) as [|d ds]; [done|]. apply Forall_cons in Hr as [Hd0 _].
  destruct (digit_char_props d ltac:(lia)) as (_ & _ & Hsp & Hm & Hp & _).
  rewrite digit_string_cons in *. cbn [skip_space]. rewrite Hsp. cbn [skip_sign]. rewrite Hm, Hp, Hd.
  change rest with (String.String "-" (digit_string (digits 10 5 m) +:+ LOG_SUFFIX)). cbn [dec_digits].
  change (dec_digit "-") with (@None Z). cbn [fst]. rewrite Z.min_l by lia. apply u32_small. lia.
Qed.

Lemma strstr_finds a needle : is_Some (strstr (a ++ needle) needle).
Proof.
  induction a as [|c a IH]; simpl.
  - assert (starts_with needle needle = true) as Hs by (apply bool_decide_eq_true_2; by rewrite take_ge).
    destruct needle as [|x n]; [by eexists|]. cbn [strstr app]. rewrite Hs. by eexists.
  - by destruct (starts_with _ _); [eexists|].
Qed.

Lemma log_name_is_log s m : name_ok s m -> is_log_name (log_name s m) = true.
Proof.
  intros H. unfold is_log_name. rewrite log_name_length by done. rewrite Nat.eqb_refl. simpl. apply bool_decide_eq_true_2.
  rewrite log_name_digits by done. rewrite !string_app_assoc.
  assert (forall a b, text_of (a +:+ b) = text_of a ++ text_of b) as ->.
  { intros a b. induction a as [|c a IH]; simpl; [done|]. by f_equal. }
  apply strstr_finds.
Qed.

Lemma log_name_inj s m m' : name_ok s m -> name_ok s m' -> log_name s m = log_name s m' -> m = m'.
Proof.
  intros H H' E. rewrite !log_name_digits in E by done. apply (inj (String.append _)) in E. apply (inj (String.append _)) in E.
  apply (f_equal (fun t => (dec_digits t 0).1)) in E. destruct H as [_ Hm], H' as [_ Hm'].
  rewrite !dec_digits_of in E by (simpl; lia). done.
Qed.

(** ** Sessions *)

Lemma scan_name_ge n best : (best <= scan_name n best)%Z.
Proof. unfold scan_name. destruct (_ && _) eqn:E; [|lia]. bool_hyps. lia. Qed.

Lemma last_session_ge dir dk n :
  n ∈ names_in dir dk -> is_log_name n = true -> (strtol10 n < 9999)%Z -> (strtol10 n <= last_session dir dk)%Z.
Proof.
  unfold last_session. induction (names_in dir dk) as [|x l IH]; intros Hn Hlog Hlt; [by apply elem_of_nil in Hn|].
  cbn [foldr]. apply elem_of_cons in Hn as [->|Hn].
  - unfold scan_name. rewrite Hlog. destruct (strtol10 x <? 9999)%Z eqn:E1; [|bool_hyps; lia]. cbn [andb].
    destruct (_ <? strtol10 x)%Z eqn:E2; bool_hyps; lia.
  - pose proof (scan_name_ge x (foldr scan_name 0%Z l)). specialize (IH Hn Hlog Hlt). lia.
Qed.

Lemma last_session_range dir dk : (0 <= last_session dir dk < 9999)%Z.
Proof.
  unfold last_session. induction (names_in dir dk) as [|x l IH]; cbn [foldr]; [lia|]. unfold scan_name at 1 3.
  destruct (is_log_name x && (strtol10 x <? 9999)%Z && _) eqn:E; [|done].
  apply andb_true_iff in E as [E E3]. apply andb_true_iff in E as [_ E2]. apply Z.ltb_lt in E2, E3. lia.
Qed.

Lemma names_in_elem dir dk n : is_Some (dk !! (dir, n)) -> n ∈ names_in dir dk.
Proof.
  intros [f Hf]. unfold names_in. apply list_elem_of_omap. exists ((dir, n), f). split; [by apply elem_of_map_to_list|].
  simpl. by rewrite bool_decide_eq_true_2.
Qed.

(** No file has the number of a new session. *)
Lemma new_session_fresh dir dk m :
  (last_session dir dk + 1 < 9999)%Z -> (0 <= m <= 99999)%Z -> dk !! (dir, log_name (last_session dir dk + 1) m) = None.
Proof.
  intros Hs Hm. pose proof (last_session_range dir dk). set (s := (last_session dir dk + 1)%Z) in *.
  assert (name_ok s m) as Hok by (split; lia).
  destruct (dk !! (dir, log_name s m)) as [f|] eqn:E; [|done]. exfalso.
  pose proof (last_session_ge dir dk (log_name s m) (names_in_elem _ _ _ (mk_is_Some _ _ E)) (log_name_is_log _ _ Hok)) as Hle.
  rewrite log_name_strtol in Hle by done. specialize (Hle ltac:(lia)). lia.
Qed.

(** ** What is logged *)

(** The other thread hands over a frame or changes a setting; the thread of the logger runs a round. *)
Inductive event := Frame (data : list Z) | Work (a : answers) | Slice (n : Z) | Fill (n : Z).

Section runs.
Variable percent_below : Z -> Z -> Z -> bool.

(** A step, with the frame it has put into the queue. *)
Definition log_step (ev : event) (l : logger) : outcome (list (list Z) * logger) :=
  match ev with
  | Frame data =>
      Ret (if (MAX_QUEUE_SIZE <? u32 (queue_bytes l + Z.of_nat (length data)))%Z then [] else [data], frame_handler data l)
  | Work a => '(_, l) ← process_frame percent_below a l; Ret ([], l)
  | Slice n => Ret ([], update_slice_duration n l)
  | Fill n => Ret ([], update_fill_threshold n l)
  end.

Fixpoint log_run (evs : list event) (l : logger) : outcome (list (list Z) * logger) :=
  match evs with
  | [] => Ret ([], l)
  | ev :: evs' =>
      '(acc, l) ← log_step ev l;
      '(acc', l) ← log_run evs' l;
      Ret (acc ++ acc', l)
  end.

(** A disk that takes everything, and has room under the thresholds that are set. *)
Variable thr_ok : Z -> Prop.
Record clean (a : answers) : Prop := {
  cl_dir : a_dir a = true;
  cl_open : a_open a = true;
  cl_trunc : a_trunc a = true;
  cl_written n : a_written a n = n;
  cl_flushed n : a_flushed a n = n;
  cl_room c : thr_ok (disk_full_threshold c) -> check_disk_full percent_below a c <> 1%Z;
}.

(** The clock goes forward, within 99999 minutes. *)
Definition LAST_TIME : Z := 60 * 99999 * 10 ^ 9.
Record clocked (t : Z) (a : answers) : Prop := {
  ck_poll : (0 < t <= t_poll a)%Z;
  ck_valid : (t_poll a <= t_valid a)%Z;
  ck_session : (t_valid a <= t_session a)%Z;
  ck_slice : (t_session a <= t_slice a)%Z;
  ck_fail : (t_slice a <= t_fail a < LAST_TIME)%Z;
}.

Fixpoint events_ok (t : Z) (evs : list event) : Prop :=
  match evs with
  | [] => True
  | Work a :: evs' => clean a /\ clocked t a /\ events_ok (t_fail a) evs'
  | Slice n :: evs' => (0 < n < 2 ^ 32)%Z /\ events_ok t evs'
  | Fill n :: evs' => thr_ok n /\ events_ok t evs'
  | _ :: evs' => events_ok t evs'
  end.

Fixpoint rounds_ok (t : Z) (ans : nat -> answers) (k n : nat) : Prop :=
  match n with
  | O => True
  | S n => clean (ans k) /\ clocked t (ans k) /\ rounds_ok (t_fail (ans k)) ans (S k) n
  end.

(** ** Invariant *)

Section invariant.
Variables (dir : string) (dk0 : gmap path file).
Definition S0 : Z := (last_session dir dk0 + 1)%Z.
Hypothesis room : (S0 < 9999)%Z.
Definition pth (m : Z) : path := (dir, log_name S0 m).

Abbreviation part := (Z * list Z)%type.
Definition flen (d : list Z) : Z := Z.of_nat (length d).

Record parts_ok (done : list part) (m : Z) : Prop := {
  po_min : (0 <= m <= 99999)%Z;
  po_done : Forall (fun x => 0 <= x.1 < m)%Z done;
  po_nodup : NoDup done.*1;
}.

Definition ses_ok (t : Z) (s : session) (m : Z) (d : list Z) : Prop :=
  exists st, s = mk_session true S0 m st (Some (mk_stream (pth m) d)) (flen d) /\
    (0 < st <= t)%Z /\ (60 * m * 10 ^ 9 <= t - st)%Z.

(** The files that are complete, and the others as they were. *)
Definition disk_ok (dk : gmap path file) (done : list part) (cur : option Z) : Prop :=
  Forall (fun x => dk !! pth x.1 = Some (mk_file x.2 (flen x.2))) done /\
  (forall m, cur = Some m -> exists sz, dk !! pth m = Some (mk_file [] sz) /\ (sz <= NEW_FILE_PAD_SIZE)%Z) /\
  (forall p, p ∉ pth <$> done.*1 -> (forall m, cur = Some m -> p <> pth m) -> dk !! p = dk0 !! p).

Definition started (t : Z) (done : list part) (m : Z) (d : list Z) (x : opening) : Prop :=
  let '(s, dk, op) := x in
  parts_ok done m /\ ses_ok t s m d /\ disk_ok dk done (Some m) /\ op = (pth <$> done.*1) ++ [pth m].

Lemma S0_ok m : (0 <= m <= 99999)%Z -> name_ok S0 m.
Proof. intros Hm. unfold name_ok, S0. pose proof (last_session_range dir dk0). unfold S0 in room. lia. Qed.

Lemma pth_inj m m' : (0 <= m <= 99999)%Z -> (0 <= m' <= 99999)%Z -> pth m = pth m' -> m = m'.
Proof. intros Hm Hm' [= E]. eapply log_name_inj; [| |exact E]; by apply S0_ok. Qed.

Lemma pth_not_in done m : parts_ok done m -> pth m ∉ pth <$> done.*1.
Proof.
  intros [Hm Hd _] Hin. apply list_elem_of_fmap in Hin as (m' & E & Hm'). apply list_elem_of_fmap in Hm' as (x & -> & Hx).
  rewrite Forall_forall in Hd. specialize (Hd x Hx). apply pth_inj in E; lia.
Qed.

Lemma pth_in (x : part) done : x ∈ done -> pth x.1 ∈ pth <$> done.*1.
Proof. intros Hx. by apply list_elem_of_fmap_2, (list_elem_of_fmap_2 fst). Qed.

Lemma ftruncate_empty n sz : ftruncate n (mk_file [] sz) = mk_file [] n.
Proof. unfold ftruncate. cbn [fdata]. by destruct (_ <? _)%Z; rewrite ?take_nil. Qed.

(** Closing the current file completes it. *)
Lemma log_close_ok a t s m d dk done :
  clean a -> parts_ok done m -> ses_ok t s m d -> disk_ok dk done (Some m) ->
  exists st dk', close_current_file a s dk = (mk_session true S0 m st None 0, dk') /\
    session_start_time s = st /\ disk_ok dk' (done ++ [(m, d)]) None.
Proof.
  intros Ha Hp (st & -> & _ & _) (Hd1 & Hd2 & Hd3). unfold close_current_file. cbn [cur_file st_path st_data bytes_written].
  destruct (Hd2 m eq_refl) as (sz & Hsz & Hpad). rewrite Hsz. cbn [default from_option id]. rewrite (cl_trunc _ Ha), (cl_flushed _ Ha), firstn_all, andb_true_r.
  set (f := overwrite d _). assert (f = mk_file d (flen d)) as ->.
  { unfold f, overwrite, flen. destruct (Z.ltb_spec (Z.of_nat (length d)) NEW_FILE_PAD_SIZE) as [Hlt|Hge];
      rewrite ?ftruncate_empty; cbn [fdata fsize]; rewrite drop_nil, app_nil_r; f_equal; lia. }
  eexists st, _. split; [done|]. split; [done|].
  assert (forall x, x ∈ done -> pth x.1 <> pth m) as Hne.
  { intros x Hx E. apply (pth_not_in done m Hp). rewrite <-E. by apply pth_in. }
  split; [|split; [done|]].
  - apply Forall_app. split; [|constructor; [|done]].
    + rewrite Forall_forall in Hd1 |- *. intros x Hx. rewrite lookup_insert_ne by (intros E; by apply (Hne x Hx)). by apply Hd1.
    + by rewrite lookup_insert_eq.
  - intros p Hp1 _. rewrite !fmap_app, not_elem_of_app in Hp1. simpl in Hp1. destruct Hp1 as [Hp1 Hp2].
    apply not_elem_of_cons in Hp2 as [Hp2 _]. rewrite lookup_insert_ne by done. apply Hd3; [done|]. intros m' [= <-]. done.
Qed.

(** Opening a file for a minute that has none. *)
Lemma open_fresh a c s dk op done m t :
  clean a -> out_dir c = dir -> thr_ok (disk_full_threshold c) -> parts_ok done m ->
  s = mk_session (dest_available s) S0 m (session_start_time s) None 0 ->
  (0 < session_start_time s <= t)%Z -> (60 * m * 10 ^ 9 <= t - session_start_time s)%Z ->
  disk_ok dk done None -> op = pth <$> done.*1 ->
  exists x, open_new_file percent_below a c (s, dk, op) = Ret (true, x) /\ started t done m [] x.
Proof.
  intros Ha Hdir Hthr Hp -> Ht Hm (Hd1 & _ & Hd3) ->. pose proof Hp as [Hmin _ _].
  unfold open_new_file. cbn [session_count]. rewrite (proj2 (Z.leb_gt 9999 S0)) by lia.
  unfold close_current_file. cbn [cur_file]. rewrite (proj2 (Z.eqb_neq _ 1)) by by apply (cl_room _ Ha).
  cbn [minute_count]. rewrite (proj2 (Z.ltb_ge 99999 m)) by lia. cbn [session_count minute_count].
  rewrite log_name_length by by apply S0_ok. rewrite Nat.leb_refl. cbn [negb]. rewrite (cl_open _ Ha), Hdir.
  change (dir, log_name S0 m) with (pth m). unfold pad_new_file. cbn [cur_file set_file st_path dest_available].
  pose proof (pth_not_in done m Hp) as Hni.
  assert (dk !! pth m = None) as Hnone.
  { rewrite Hd3 by done. by apply new_session_fresh. }
  rewrite Hnone, lookup_insert_eq. cbn [default from_option id]. eexists. split; [done|]. split; [done|]. split; [|split; [|done]].
  - exists (session_start_time s). done.
  - rewrite insert_insert_eq. split; [|split].
    + rewrite Forall_forall in Hd1 |- *. intros x Hx. rewrite lookup_insert_ne; [by apply Hd1|].
      intros E. apply Hni. rewrite E. by apply pth_in.
    + intros m' [= <-]. rewrite lookup_insert_eq. destruct (a_pad a); [|by exists 0%Z].
      rewrite ftruncate_empty. by eexists.
    + intros p Hp1 Hp2. rewrite lookup_insert_ne by (intros E; by apply (Hp2 m)). by apply Hd3.
Qed.

(** Rolling over: the file is kept, or completed and followed by one for a later minute. *)
Lemma log_slice_ok a c x t done m d :
  clean a -> out_dir c = dir -> thr_ok (disk_full_threshold c) -> (0 < slice_duration c < 2 ^ 32)%Z -> (t <= t_slice a)%Z -> (t_slice a < LAST_TIME)%Z ->
  started t done m d x ->
  exists x', check_slice_time percent_below a c x = Ret (true, x') /\
    (started (t_slice a) done m d x' \/ exists m', started (t_slice a) (done ++ [(m, d)]) m' [] x').
Proof.
  intros Ha Hdir Hthr Hsl Ht Hlast. destruct x as [[s dk] op]. intros (Hp & (st & -> & Hst & Hmt) & Hd & ->).
  unfold check_slice_time. rewrite (proj2 (Z.eqb_neq _ 0)) by lia. unfold get_time_passed. cbn [session_start_time minute_count].
  assert (0 <= t_slice a - st)%Z as H0 by lia. rewrite (Z.quot_div_nonneg (t_slice a - st)) by lia.
  set (q := ((t_slice a - st) / 10 ^ 9)%Z).
  assert (60 * m <= q /\ q < 60 * 99999)%Z as [Hq1 Hq2].
  { unfold q, LAST_TIME in *. change (10 ^ 9)%Z with 1000000000%Z in *.
    split; [apply Z.div_le_lower_bound|apply Z.div_lt_upper_bound]; lia. }
  assert (1000000000 * q <= t_slice a - st)%Z as Hq3 by (apply (Z.mul_div_le _ 1000000000); lia).
  rewrite Z.quot_div_nonneg by lia. set (k := ((q - 60 * m) / (60 * slice_duration c))%Z).
  assert (60 * slice_duration c * k <= q - 60 * m)%Z as Hk by (apply Z.mul_div_le; lia).
  assert (0 <= k)%Z as Hk0 by (apply Z.div_pos; lia). 
  pose proof Hp as [Hmin Hdone Hnd].
  assert (k <= slice_duration c * k)%Z as Hk2 by nia. assert (slice_duration c * k <= 99999)%Z as Hk3 by lia.
  rewrite (proj2 (Z.ltb_ge k 0)) by lia. rewrite (proj2 (Z.leb_gt (2 ^ 32) k)) by lia. cbn [orb].
  destruct (Z.eqb_spec k 0) as [Ek|Ek].
  { eexists. split; [done|]. left. split; [done|]. split; [|done]. exists st. split; [done|]. lia. }
  assert (0 < slice_duration c * k)%Z as Hsk by lia.
  rewrite (u32_small (slice_duration c * k)) by lia.
  set (m' := (m + slice_duration c * k)%Z). assert (m < m' <= 99999)%Z as Hm' by (unfold m'; lia).
  rewrite (u32_small m') by lia. unfold set_count. cbn [session_count dest_available session_start_time cur_file bytes_written].
  unfold open_new_file at 1. cbn [session_count]. rewrite (proj2 (Z.leb_gt 9999 S0)) by lia.
  set (s1 := mk_session true S0 m' st _ _).
  assert (close_current_file a s1 dk = let '(s', dk') := close_current_file a (mk_session true S0 m st (Some (mk_stream (pth m) d)) (flen d)) dk in
            (mk_session (dest_available s') S0 m' (session_start_time s') (cur_file s') (bytes_written s'), dk')) as -> by done.
  destruct (log_close_ok a t _ m d dk done Ha Hp (ex_intro _ st (conj eq_refl (conj Hst Hmt))) Hd) as (st' & dk' & Hcl & <- & Hdk').
  rewrite Hcl. cbn [dest_available session_start_time cur_file bytes_written session_start_time].
  assert (parts_ok (done ++ [(m, d)]) m') as Hp'.
  { split; [lia| |].
    - apply Forall_app. split; [|constructor; [simpl; lia|done]]. eapply Forall_impl; [exact Hdone|]. simpl. lia.
    - rewrite fmap_app. apply NoDup_app. split; [done|]. split; [|apply NoDup_singleton].
      intros y Hy Hm0. simpl in Hm0. apply list_elem_of_singleton in Hm0 as ->. apply list_elem_of_fmap in Hy as (z & -> & Hz).
      rewrite Forall_forall in Hdone. specialize (Hdone z Hz). lia. }
  destruct (open_fresh a c (mk_session true S0 m' st None 0) dk' (pth <$> (done ++ [(m, d)]).*1) (done ++ [(m, d)]) m' (t_slice a))
    as (x' & Hop & Hx'); try done; [simpl; lia|simpl; change (Z.pow_pos 10 9) with 1000000000%Z; unfold m'; lia|].
  exists x'. split; [|right; by exists m'].
  revert Hop. unfold open_new_file. cbn [session_count]. rewrite (proj2 (Z.leb_gt 9999 S0)) by lia.
  change (close_current_file a (mk_session true S0 m' st None 0) dk') with (mk_session true S0 m' st None 0%Z, dk').
  rewrite !fmap_app. done.
Qed.

Definition waiting_ok (t : Z) (x : opening) : Prop :=
  exists dk, x = (mk_session false 0 0 0 None 0, dk, []) /\ dk = dk0.

Definition open_state (t : Z) (data : list Z) (x : opening) : Prop :=
  exists done m d, started t done m d x /\ data = concat done.*2 ++ d.

Lemma ensure_ok a c x t data :
  clean a -> clocked t a -> out_dir c = dir -> thr_ok (disk_full_threshold c) -> (0 < slice_duration c < 2 ^ 32)%Z ->
  (waiting_ok t x /\ data = [] \/ open_state t data x) ->
  exists x', ensure_session_valid percent_below a c x = Ret (true, x') /\ open_state (t_slice a) data x'.
Proof.
  intros Ha Hck Hdir Hthr Hsl Hx. destruct Hck. unfold ensure_session_valid.
  assert (forall x, open_state (t_session a) data x -> exists x', check_slice_time percent_below a c x = Ret (true, x') /\
            open_state (t_slice a) data x') as Hslice.
  { intros y (done & m & d & Hst & ->).
    destruct (log_slice_ok a c y (t_session a) done m d) as (x' & Hs & [H|[m' H]]); [done..|lia|lia|done| |]; exists x'; (split; [done|]).
    - by exists done, m, d.
    - exists (done ++ [(m, d)]), m', []. split; [done|]. rewrite fmap_app, concat_app. simpl. by rewrite !app_nil_r. }
  destruct Hx as [[(dk & -> & ->) ->]|Hopen].
  - cbn [dest_available session_start_time Z.eqb negb andb]. unfold start_new_session. rewrite (cl_dir _ Ha). cbn [negb].
    unfold set_start, set_count. cbn [dest_available session_count minute_count cur_file bytes_written session_start_time]. rewrite Hdir.
    change (last_session dir dk0 + 1)%Z with S0. pose proof (last_session_range dir dk0) as Hr.
    rewrite (u32_small S0) by (unfold S0 in *; lia).
    destruct (open_fresh a c (mk_session false S0 0 (t_session a) None 0) dk0 [] [] 0 (t_session a)) as (x' & -> & Hx'); try done.
    + split; [lia|constructor|constructor].
    + cbn [session_start_time]. lia.
    + cbn [session_start_time]. lia.
    + rewrite bind_Ret. cbn [negb]. apply Hslice. by exists [], 0%Z, [].
  - destruct Hopen as (done & m & d & Hst & ->). destruct x as [[s dk] op]. pose proof Hst as (Hp & (st & -> & Hs1 & Hs2) & Hd & ->).
    cbn [dest_available]. apply Hslice. exists done, m, d. split; [|done]. split; [done|]. split; [|done]. exists st. split; [done|]. lia.
Qed.

Lemma log_write_ok a frame t data s dk op :
  clean a -> open_state t data (s, dk, op) -> (flen data + flen frame < 2 ^ 32)%Z ->
  exists s', write_frame a frame s dk = (s', dk) /\ open_state t (data ++ frame) (s', dk, op).
Proof.
  intros Ha (done & m & d & (Hp & (st & -> & Hs) & Hd & ->) & ->) Hlen. unfold write_frame.
  unfold set_file, set_bytes. cbn [cur_file dest_available]. rewrite (cl_written _ Ha), Nat.min_id, Z.eqb_refl. cbn [negb]. rewrite Nat2Z.id, firstn_all.
  cbn [bytes_written dest_available session_count minute_count session_start_time cur_file st_path st_data].
  eexists. split; [done|]. exists done, m, (d ++ frame). split; [|by rewrite app_assoc].
  split; [done|]. split; [|done]. exists st. split; [|done]. f_equal. unfold flen in *. rewrite !length_app in *.
  rewrite u32_small by lia. lia.
Qed.

Definition view (l : logger) : opening := (ses l, disk l, opened l).

(** The logger at time [t], when the frames [acc] have been put into its queue. *)
Definition logger_ok (t : Z) (acc : list (list Z)) (l : logger) : Prop :=
  out_dir (cfg l) = dir /\ thr_ok (disk_full_threshold (cfg l)) /\ (0 < slice_duration (cfg l) < 2 ^ 32)%Z /\
  exists data frames, queue l = Some <$> frames /\ queue_bytes l = flen (concat frames) /\
    (queue_bytes l <= MAX_QUEUE_SIZE)%Z /\ concat acc = data ++ concat frames /\
    (waiting_ok t (view l) /\ data = [] \/ open_state t data (view l)).

Lemma open_state_mono t t' data x : (t <= t')%Z -> open_state t data x -> open_state t' data x.
Proof.
  intros Ht (done & m & d & Hst & ->). exists done, m, d. split; [|done]. destruct x as [[s dk] op].
  destruct Hst as (Hp & (st & -> & H1 & H2) & Hd & Hop). split; [done|]. split; [|done]. exists st. split; [done|]. lia.
Qed.

Lemma work_ok a t acc l :
  clean a -> clocked t a -> logger_ok t acc l -> (flen (concat acc) < 2 ^ 32)%Z ->
  exists r l', process_frame percent_below a l = Ret (r, l') /\ logger_ok (t_fail a) acc l' /\
    match queue l with [] => r = None | _ => r = Some true /\ queue l' = tail (queue l) end.
Proof.
  intros Ha Hck (Hdir & Hthr & Hsl & data & frames & Hq & Hqb & Hmax & Hacc & Hx) Hlen. unfold process_frame. rewrite Hq.
  destruct frames as [|f frames]; cbn [fmap list_fmap].
  { exists None, l. split; [done|]. split; [|done]. do 3 (split; [done|]). exists data, []. split_and!; try done.
    destruct Hx as [Hx|Hx]; [by left|right]. eapply open_state_mono; [|exact Hx]. destruct Hck; lia. }
  destruct (ensure_ok a (cfg l) (view l) t data Ha Hck Hdir Hthr Hsl Hx) as ([[s dk] op] & Hen & Hopen).
  unfold view in Hen. rewrite Hen, bind_Ret.
  assert (flen (concat acc) = flen data + flen f + flen (concat frames))%Z as Hsum.
  { rewrite Hacc. unfold flen. simpl. rewrite !length_app. lia. }
  destruct (log_write_ok a f (t_slice a) data s dk op Ha Hopen) as (s' & -> & Hopen'); [unfold flen in *; lia|].
  eexists _, _. split; [done|]. split; [|done]. do 3 (split; [done|]). exists (data ++ f), frames.
  assert (u32 (queue_bytes l - Z.of_nat (length f)) = flen (concat frames)) as Hu.
  { rewrite Hqb. unfold flen in *. simpl. rewrite length_app. rewrite u32_small by lia. lia. }
  cbn [queue queue_bytes]. rewrite Hu. split; [done|]. split; [done|]. split.
  { unfold flen in *. simpl in Hqb. rewrite length_app in Hqb. lia. }
  split; [by rewrite Hacc; simpl; rewrite app_assoc|]. right. eapply open_state_mono; [|exact Hopen']. destruct Hck; lia.
Qed.

Fixpoint ev_bytes (evs : list event) : Z :=
  match evs with [] => 0 | Frame d :: evs' => flen d + ev_bytes evs' | _ :: evs' => ev_bytes evs' end.
Fixpoint end_time (t : Z) (evs : list event) : Z :=
  match evs with [] => t | Work a :: evs' => end_time (t_fail a) evs' | _ :: evs' => end_time t evs' end.

Lemma ev_bytes_nonneg evs : (0 <= ev_bytes evs)%Z.
Proof. induction evs as [|[] evs IH]; simpl; unfold flen; lia. Qed.

Lemma step_ok ev evs t acc l :
  events_ok t (ev :: evs) -> logger_ok t acc l -> (flen (concat acc) + ev_bytes (ev :: evs) < 2 ^ 32)%Z ->
  exists new l', log_step ev l = Ret (new, l') /\ logger_ok (end_time t [ev]) (acc ++ new) l' /\
    (flen (concat (acc ++ new)) + ev_bytes evs < 2 ^ 32)%Z.
Proof.
  intros Hev Hl Hlen. pose proof (ev_bytes_nonneg evs) as Hnn. destruct ev as [d|a|n|n]; cbn [log_step end_time].
  - simpl in Hlen. eexists _, _. split; [done|]. destruct Hl as (Hdir & Hthr & Hsl & data & frames & Hq & Hqb & Hmax & Hacc & Hx).
    assert (flen (concat frames) + flen d < 2 ^ 32)%Z as Hs by (rewrite Hacc in Hlen; unfold flen in *; rewrite length_app in Hlen; lia).
    unfold frame_handler, MAX_QUEUE_SIZE in *. rewrite Hqb. rewrite u32_small by (unfold flen in *; lia).
    destruct (Z.ltb_spec (1 * 1024 * 1024) (flen (concat frames) + Z.of_nat (length d))) as [Hlt|Hge].
    + rewrite app_nil_r. split; [|unfold flen in *; lia]. do 3 (split; [done|]). by exists data, frames.
    + rewrite concat_app. simpl. rewrite app_nil_r. split; [|unfold flen in *; rewrite length_app; lia].
      do 3 (split; [done|]). exists data, (frames ++ [d]). cbn [queue queue_bytes cfg view].
      rewrite fmap_app, Hq, concat_app. simpl. rewrite app_nil_r. split; [done|].
      split; [unfold flen; rewrite length_app; lia|]. split; [unfold flen, MAX_QUEUE_SIZE in *; lia|].
      split; [by rewrite concat_app, Hacc, app_assoc; simpl; rewrite app_nil_r|done].
  - destruct Hev as (Ha & Hck & _). simpl in Hlen. destruct (work_ok a t acc l Ha Hck Hl) as (r & l' & -> & Hl' & _); [lia|].
    rewrite bind_Ret. eexists _, _. split; [done|]. by rewrite app_nil_r.
  - destruct Hev as [Hn _]. simpl in Hlen. eexists _, _. split; [done|]. rewrite app_nil_r. split; [|done].
    destruct Hl as (Hdir & Hthr & _ & Hrest). do 3 (split; [done|]). exact Hrest.
  - destruct Hev as [Hn _]. simpl in Hlen. eexists _, _. split; [done|]. rewrite app_nil_r. split; [|done].
    destruct Hl as (Hdir & _ & Hsl & Hrest). do 3 (split; [done|]). exact Hrest.
Qed.

Lemma log_run_ok evs t acc l :
  events_ok t evs -> logger_ok t acc l -> (flen (concat acc) + ev_bytes evs < 2 ^ 32)%Z ->
  exists new l', log_run evs l = Ret (new, l') /\ logger_ok (end_time t evs) (acc ++ new) l' /\ (flen (concat (acc ++ new)) < 2 ^ 32)%Z.
Proof.
  revert t acc l. induction evs as [|ev evs IH]; intros t acc l Hev Hl Hlen; cbn [log_run].
  { exists [], l. rewrite app_nil_r. split; [done|]. split; [done|]. simpl in Hlen. lia. }
  destruct (step_ok ev evs t acc l Hev Hl Hlen) as (new & l1 & -> & Hl1 & Hlen1). rewrite bind_Ret.
  destruct (IH (end_time t [ev]) (acc ++ new) l1) as (new' & l' & -> & Hl' & Hlen'); [by destruct ev; simpl in Hev |- *; tauto|done|done|].
  rewrite bind_Ret. exists (new ++ new'), l'. rewrite app_assoc. split; [done|]. split; [by destruct ev|done].
Qed.

(** The rounds that empty the queue. *)
Lemma drain_ok ans n k t acc l :
  logger_ok t acc l -> length (queue l) = n -> rounds_ok t ans k n -> (flen (concat acc) < 2 ^ 32)%Z ->
  exists l', drain percent_below ans (S n) k (stop_thread l) = Ret l' /\
    exists t' data, concat acc = data /\ (waiting_ok t' (view l') /\ data = [] \/ open_state t' data (view l')).
Proof.
  revert k t l. induction n as [|n IH]; intros k t l Hl Hn Hr Hlen; pose proof Hl as (Hdir & Hthr & Hsl & data & frames & Hq & Hqb & Hmax & Hacc & Hx).
  - cbn [drain]. unfold process_frame. apply nil_length_inv in Hn. rewrite Hn in Hq. destruct frames; [|done].
    unfold stop_thread. cbn [queue]. rewrite Hn. cbn [app]. rewrite bind_Ret. eexists. split; [done|]. exists t, data.
    split; [|done]. rewrite Hacc. simpl. by rewrite app_nil_r.
  - destruct Hr as (Ha & Hck & Hr). destruct (work_ok (ans k) t acc l Ha Hck Hl Hlen) as (r & l1 & Hp & Hl1 & Hq1).
    destruct (queue l) as [|o q] eqn:Eq; [done|]. destruct Hq1 as [-> Hq1]. simpl in Hq1.
    assert (process_frame percent_below (ans k) (stop_thread l) = Ret (Some true, stop_thread l1)) as Hp'.
    { clear Hq1 Hl1. unfold process_frame in *. unfold stop_thread. cbn [queue cfg ses disk opened queue_bytes]. rewrite Eq in *. cbn [app]. destruct o as [f|]; [|simpl in Hp; congruence].
      destruct (ensure_session_valid _ _ _ _) as [[ok [[s dk] op]]| |]; [|done..].
      rewrite bind_Ret in *. destruct (if ok then write_frame (ans k) f s dk else (s, dk)) as [s' dk'] eqn:Ew.
      simplify_eq. done. }
    change (drain percent_below ans (S (S n)) k (stop_thread l)) with
      (r ← process_frame percent_below (ans k) (stop_thread l);
       let '(r, l) := r in match r with Some true => drain percent_below ans (S n) (S k) l | Some false => Ret l | None => Diverge end).
    rewrite Hp', bind_Ret. apply (IH (S k) (t_fail (ans k)) l1); [done|by rewrite Hq1; simpl in Hn; lia|done|done].
Qed.

Lemma log_destroy_ok ans fin t acc l :
  logger_ok t acc l -> rounds_ok t ans 0 (length (queue l)) -> clean fin -> (flen (concat acc) < 2 ^ 32)%Z ->
  exists l' parts, destroy percent_below ans fin l = Ret l' /\ concat parts = concat acc /\
    Forall2 (fun p d => disk l' !! p = Some (mk_file d (flen d))) (opened l') parts /\ NoDup (opened l') /\
    (forall p, p ∈ opened l' -> dk0 !! p = None) /\ (forall p, p ∉ opened l' -> disk l' !! p = dk0 !! p).
Proof.
  intros Hl Hr Hfin Hlen. unfold destroy. cbn zeta.
  destruct (drain_ok ans (length (queue l)) 0 t acc l Hl eq_refl Hr Hlen) as (l1 & Hd & t' & data & Hacc & Hx).
  assert (length (queue (stop_thread l)) = S (length (queue l))) as -> by (simpl; rewrite length_app; simpl; lia).
  rewrite Hd, bind_Ret. destruct Hx as [[(dk & Hv & ->) ->]|(done & m & d & Hst & ->)].
  - injection Hv as Hs Hdk Hop. rewrite Hs, Hdk, Hop. cbn [close_current_file cur_file]. eexists _, [].
    split; [done|]. split; [by rewrite Hacc|]. cbn [opened disk]. split; [constructor|]. split; [constructor|]. split; [|done].
    intros p Hp. by apply elem_of_nil in Hp.
  - unfold view in Hst. destruct Hst as (Hp & Hs & Hdk & Hop).
    destruct (log_close_ok fin t' (ses l1) m d (disk l1) done Hfin Hp Hs Hdk) as (st & dk' & -> & _ & Hd1 & _ & Hd3).
    eexists _, (done.*2 ++ [d]). split; [reflexivity|]. cbn [opened disk]. rewrite Hop.
    assert ((pth <$> done.*1) ++ [pth m] = pth <$> (done ++ [(m, d)]).*1) as -> by by rewrite !fmap_app.
    assert (done.*2 ++ [d] = (done ++ [(m, d)]).*2) as -> by by rewrite fmap_app.
    split; [by rewrite Hacc, fmap_app, concat_app; simpl; rewrite app_nil_r|].
    assert (Forall (fun x => 0 <= x.1 <= 99999)%Z (done ++ [(m, d)])) as Hrng.
    { destruct Hp as [H1 H2 _]. apply Forall_app. split; [|by constructor]. eapply Forall_impl; [exact H2|]. simpl. lia. }
    split; [|split; [|split; [|intros p Hp1; by apply Hd3]]].
    + clear -Hd1. induction Hd1; simpl; constructor; done.
    + apply NoDup_fmap_2_strong. { intros x y Hx Hy E. apply list_elem_of_fmap in Hx as (x' & -> & Hx), Hy as (y' & -> & Hy).
        rewrite Forall_forall in Hrng. apply pth_inj in E; [done|by apply Hrng..]. }
      rewrite fmap_app. destruct Hp as [_ H2 H3]. apply NoDup_app. split; [done|]. split; [|apply NoDup_singleton].
      intros y Hy Hm0. simpl in Hm0. apply list_elem_of_singleton in Hm0 as ->. apply list_elem_of_fmap in Hy as (z & -> & Hz).
      rewrite Forall_forall in H2. specialize (H2 z Hz). simpl in H2. lia.
    + intros p Hp1. apply list_elem_of_fmap in Hp1 as (m' & -> & Hm'). apply list_elem_of_fmap in Hm' as (x & -> & Hx).
      rewrite Forall_forall in Hrng. apply new_session_fresh; [done|by apply Hrng].
Qed.
End invariant.
End runs.

(** ** Theorems *)

(** C17: Every frame is logged once, under these assumptions.  The disk takes everything: it is
    never full, every open, write and truncation succeeds, and its directory can be read.  The
    clock goes forward and the logger has been up less than 99999 minutes (after that see
    [minutes_roll_over]).  The slice duration is never zero (with zero it is divided by, see the
    findings), the highest session on the disk is below 9998, and fewer than 2^32 bytes come.
    The output directory stays the one the logger was made with: a change of it, which would
    make the old session number overwrite logs of the new directory (see the findings), is not
    among the events; changes of the slice duration and of the full-disk threshold are.
    Then, whatever frames come between the rounds of the thread, the frames that the queue had
    room for are, when the logger is destroyed, in order and without gaps the contents of the
    files it opened, each cut to its length; no two of them have the same name, none existed
    before, and no other file is touched. *)
Theorem log_files_complete percent_below thr_ok c dk evs t :
  thr_ok (disk_full_threshold c) -> (last_session (out_dir c) dk + 1 < 9999)%Z -> (0 < slice_duration c < 2 ^ 32)%Z ->
  events_ok percent_below thr_ok t evs -> (ev_bytes evs < 2 ^ 32)%Z ->
  exists acc l, log_run percent_below evs (RotatingLogger c dk) = Ret (acc, l) /\
    forall ans fin, rounds_ok percent_below thr_ok (end_time t evs) ans 0 (length (queue l)) -> clean percent_below thr_ok fin ->
    exists l' parts, destroy percent_below ans fin l = Ret l' /\ concat parts = concat acc /\
      Forall2 (fun p d => disk l' !! p = Some (mk_file d (Z.of_nat (length d)))) (opened l') parts /\ NoDup (opened l') /\
      (forall p, p ∈ opened l' -> dk !! p = None) /\ (forall p, p ∉ opened l' -> disk l' !! p = dk !! p).
Proof.
  intros Hthr Hs Hsl Hev Hlen.
  assert (logger_ok thr_ok (out_dir c) dk t [] (RotatingLogger c dk)) as H0.
  { do 3 (split; [done|]). exists [], []. split_and!; try done. left. split; [|done]. by exists dk. }
  destruct (log_run_ok percent_below thr_ok (out_dir c) dk Hs evs t [] _ Hev H0 Hlen) as (acc & l & Hrun & Hl & Hacc).
  exists acc, l. split; [done|]. intros ans fin Hr Hfin. by apply (log_destroy_ok percent_below thr_ok (out_dir c) dk Hs ans fin (end_time t evs) acc l).
Qed.

Definition good (t : Z) : answers := mk_answers t t t t t true (Some (100, 90)%Z) true true true (fun n => n) (fun n => n).
Definition below (blocks bavail thr : Z) : bool := ((blocks - bavail) * 100 <? thr * blocks)%Z.
Definition sample_config : config := mk_config "/media/usb" 10 30 95.
Definition minute_ns : Z := 60 * 10 ^ 9.
Definition sample_log : list event :=
  [Frame [1; 2]%Z; Work (good minute_ns); Frame [3]%Z; Frame [4; 5]%Z; Work (good (2 * minute_ns)); Slice 5; Work (good (13 * minute_ns))].

Definition above_half (n : Z) : Prop := (50 <= n)%Z.

Lemma good_clean t : clean below above_half (good t).
Proof.
  split; [reflexivity..|]. intros c Hc. unfold check_disk_full, above_half, below in *. simpl.
  destruct (Z.ltb_spec ((100 - 90) * 100) (disk_full_threshold c * 100)); [discriminate|lia].
Defined.

Lemma log_files_complete_witness :
  exists acc l l' parts, log_run below sample_log (RotatingLogger sample_config ∅) = Ret (acc, l) /\
    destroy below (fun _ => good (14 * minute_ns)) (good (14 * minute_ns)) l = Ret l' /\ concat parts = concat acc /\
    opened l' = [("/media/usb", "0001-00000.sbp"); ("/media/usb", "0001-00010.sbp")].
Proof.
  destruct (log_files_complete below above_half sample_config ∅ sample_log minute_ns) as (acc & l & Hrun & Hd).
  - vm_compute. discriminate.
  - vm_compute. reflexivity.
  - split; vm_compute; reflexivity.
  - repeat (split || apply good_clean); vm_compute; reflexivity || discriminate.
  - vm_compute. reflexivity.
  - assert (match log_run below sample_log (RotatingLogger sample_config ∅) with Ret (_, l) => queue l | _ => [None] end = []) as Hq
      by (vm_compute; reflexivity).
    rewrite Hrun in Hq. destruct (Hd (fun _ => good (14 * minute_ns)) (good (14 * minute_ns))) as (l' & parts & Hl' & Hp & _).
    + rewrite Hq. exact I.
    + apply good_clean.
    + exists acc, l, l', parts. split; [exact Hrun|]. split; [exact Hl'|]. split; [exact Hp|].
      assert (match log_run below sample_log (RotatingLogger sample_config ∅) with
              | Ret (_, l) => match destroy below (fun _ => good (14 * minute_ns)) (good (14 * minute_ns)) l with Ret l' => opened l' | _ => [] end
              | _ => [] end = [("/media/usb", "0001-00000.sbp"); ("/media/usb", "0001-00010.sbp")]) as Ho by (vm_compute; reflexivity).
      rewrite Hrun, Hl' in Ho. exact Ho.
Defined.

(** *** After 99999 minutes *)

Lemma roll_over_step percent_below thr_ok a n st f b l frame q :
  clean percent_below thr_ok a -> thr_ok (disk_full_threshold (cfg l)) -> ses l = mk_session true n 0 st (Some f) b -> queue l = Some frame :: q ->
  (0 <= n < 9999)%Z -> (0 < slice_duration (cfg l) < 2 ^ 32)%Z ->
  (60 * 10 ^ 9 * (99999 + slice_duration (cfg l)) <= t_slice a - st < 60 * 10 ^ 9 * 2 ^ 32)%Z ->
  exists l' f' b' p, process_frame percent_below a l = Ret (Some true, l') /\ ses l' = mk_session true (n + 1) 0 st (Some f') b' /\
    queue l' = q /\ cfg l' = cfg l /\ opened l' = opened l ++ [p] /\ st_data f' = frame.
Proof.
  intros Ha Hthr Hs Hq Hn Hsl Ht. unfold process_frame. rewrite Hq, Hs. unfold ensure_session_valid. cbn [dest_available].
  unfold check_slice_time. rewrite (proj2 (Z.eqb_neq _ 0)) by lia. unfold get_time_passed. cbn [session_start_time minute_count].
  change (10 ^ 9)%Z with 1000000000%Z in *. rewrite (Z.quot_div_nonneg (t_slice a - st)) by lia.
  set (x := ((t_slice a - st) / 1000000000)%Z).
  assert (60 * (99999 + slice_duration (cfg l)) <= x < 60 * 2 ^ 32)%Z as Hx
    by (unfold x; split; [apply Z.div_le_lower_bound|apply Z.div_lt_upper_bound]; lia).
  rewrite Z.mul_0_r, Z.sub_0_r, Z.quot_div_nonneg by lia. set (k := (x / (60 * slice_duration (cfg l)))%Z).
  pose proof (Z.mul_div_le x (60 * slice_duration (cfg l)) ltac:(lia)) as Hk1.
  pose proof (Z.mul_succ_div_gt x (60 * slice_duration (cfg l)) ltac:(lia)) as Hk2. fold k in Hk1, Hk2.
  assert (0 < k)%Z as Hk by nia. assert (k <= slice_duration (cfg l) * k)%Z as Hk3 by nia.
  rewrite (proj2 (Z.ltb_ge k 0)), (proj2 (Z.leb_gt (2 ^ 32) k)), (proj2 (Z.eqb_neq k 0)) by lia. cbn [orb].
  rewrite (u32_small (slice_duration (cfg l) * k)), Z.add_0_l, (u32_small (slice_duration (cfg l) * k)) by lia.
  assert (99999 < slice_duration (cfg l) * k)%Z as Hm by lia.
  unfold open_new_file, set_count. cbn [session_count]. rewrite (proj2 (Z.leb_gt 9999 n)) by lia.
  unfold close_current_file. cbn [cur_file]. rewrite (proj2 (Z.eqb_neq _ 1)) by by apply (cl_room _ _ _ Ha).
  unfold set_bytes, set_file. cbn [minute_count session_count dest_available session_start_time cur_file bytes_written].
  rewrite (proj2 (Z.ltb_lt 99999 _)) by done. rewrite (u32_small (n + 1)) by lia.
  cbn [minute_count session_count dest_available session_start_time cur_file bytes_written].
  rewrite log_name_length by (split; lia). rewrite Nat.leb_refl. cbn [negb]. rewrite (cl_open _ _ _ Ha), bind_Ret.
  unfold write_frame, set_file, set_bytes. cbn [cur_file dest_available session_count minute_count session_start_time bytes_written st_path st_data app].
  rewrite (cl_written _ _ _ Ha), Nat.min_id, Z.eqb_refl, Nat2Z.id, firstn_all. cbn [negb cur_file dest_available session_count minute_count session_start_time bytes_written].
  eexists _, _, _, _. split; [reflexivity|]. cbn [ses queue cfg opened]. done.
Qed.

(** Sessions are used up after 99999 minutes.  The number of minutes starts again from 0 in a new
    session, but the time it is compared with does not: from then on every frame opens a file of
    its own in a session of its own, until the number of sessions is exhausted. *)
Theorem minutes_roll_over percent_below thr_ok ans n st f b frames l :
  Forall (clean percent_below thr_ok) ans -> thr_ok (disk_full_threshold (cfg l)) -> ses l = mk_session true n 0 st (Some f) b -> queue l = Some <$> frames ->
  length ans = length frames -> (0 <= n)%Z -> (n + Z.of_nat (length frames) <= 9999)%Z -> (0 < slice_duration (cfg l) < 2 ^ 32)%Z ->
  Forall (fun a => 60 * 10 ^ 9 * (99999 + slice_duration (cfg l)) <= t_slice a - st < 60 * 10 ^ 9 * 2 ^ 32)%Z ans ->
  exists l', log_run percent_below (Work <$> ans) l = Ret ([], l') /\
    session_count (ses l') = (n + Z.of_nat (length frames))%Z /\ length (opened l') = length (opened l) + length frames.
Proof.
  revert n f b frames l. induction ans as [|a ans IH]; intros n f b frames l Hcl Hthr Hs Hq Hlen Hn Hroom Hsl Ht.
  { destruct frames; [|done]. exists l. split; [done|]. rewrite Hs. simpl. split; lia. }
  destruct frames as [|fr frames]; [done|]. apply Forall_cons in Hcl as [Ha Hcl], Ht as [Ht1 Ht].
  simpl in Hlen, Hroom. cbn [fmap list_fmap] in Hq.
  destruct (roll_over_step percent_below thr_ok a n st f b l fr (Some <$> frames) Ha Hthr Hs Hq) as (l1 & f' & b' & p & Hp & Hs1 & Hq1 & Hc1 & Ho1 & _);
    [lia|done|done|].
  destruct (IH (n + 1)%Z f' b' frames l1 Hcl ltac:(by rewrite Hc1) Hs1 Hq1) as (l' & Hrun & Hcount & Hopen); [lia|lia|lia|by rewrite Hc1|by rewrite Hc1|].
  exists l'. cbn [fmap list_fmap log_run log_step]. rewrite Hp, !bind_Ret. cbn [fmap list_fmap] in Hrun. rewrite Hrun, bind_Ret.
  split; [done|]. simpl. rewrite Hcount, Hopen, Ho1, length_app. simpl. split; lia.
Qed.

Definition late : answers := good (100010 * minute_ns).
Definition late_logger : logger :=
  mk_logger sample_config (mk_session true 7 0 1 (Some (mk_stream ("/media/usb", "0007-00000.sbp") [])) 0) [Some [1]%Z; Some [2]%Z] 2 ∅ [].

Lemma minutes_roll_over_witness :
  exists l', log_run below (Work <$> [late; late]) late_logger = Ret ([], l') /\ session_count (ses l') = 9%Z.
Proof.
  destruct (minutes_roll_over below above_half [late; late] 7 1 (mk_stream ("/media/usb", "0007-00000.sbp") []) 0 [[1]%Z; [2]%Z] late_logger)
    as (l' & Hrun & Hc & _).
  - repeat constructor; apply good_clean.
  - vm_compute. discriminate.
  - reflexivity.
  - reflexivity.
  - reflexivity.
  - vm_compute. discriminate.
  - vm_compute. discriminate.
  - vm_compute. split; reflexivity.
  - repeat constructor; vm_compute; discriminate || reflexivity.
  - exists l'. split; [exact Hrun|]. rewrite Hc. reflexivity.
Defined.

(** *** After a write that failed

    The bytes of the frame are counted after the file has been closed, so they count for the next
    file, which is then cut too long: here one byte of data and three of padding. *)
Example failed_write_pads_next :
  match log_run below
          [Frame [1; 2; 3]%Z; Frame [9]%Z; Work (mk_answers 1 1 1 1 1 true (Some (100, 90)%Z) true true true (fun _ => 1) (fun n => n));
           Work (good minute_ns)] (RotatingLogger sample_config ∅) with
  | Ret (_, l) => match destroy below (fun _ => good (2 * minute_ns)) (good (2 * minute_ns)) l with
                  | Ret l' => disk l' !! ("/media/usb", "0002-00000.sbp")
                  | _ => None
                  end
  | _ => None
  end = Some (mk_file [9]%Z 4).
Proof. vm_compute. reflexivity. Qed.

(** The warning is given for every change to a file system other than FAT. *)
Lemma logging_filesystem_warns prev cur :
  (logging_filesystem_notify prev cur).1 = true <-> cur <> LOGGING_FILESYSTEM_FAT /\ prev <> Some cur.
Proof. destruct prev as [[]|], cur; simpl; naive_solver. Qed.
