(* ===== verification/Getopt.v ===== *)
(** * Command lines

    What the programs use of the C library and the shell to pass command lines: [getopt_long], with
    abbreviated names, arguments in the same or the next word and words that are not options;
    [strtol]; [snprintf] of an [int]; and how [/bin/sh] splits a line into words, for the
    characters it has no other use for. *)

From Stdlib Require Import Ascii.
From S2P Require Import Prelude Libc.

(** ** getopt_long *)

Inductive has_arg := no_argument | required_argument.
#[export] Instance has_arg_eq_dec : EqDecision has_arg.
Proof. solve_decision. Defined.

Section getopt.
(** The values that identify the options. *)
Context {A : Type} `{EqDecision A}.

Record long_option := mk_option { o_name : string; o_has_arg : has_arg; o_val : A }.

(** What a call returns: an option with its argument, or ['?']. *)
Inductive opt_result := Opt (v : A) (arg : option string) | Bad_opt.

Variable long_opts : list long_option.
(** The letters of [optstring]. *)
Variable short_opts : list (ascii * has_arg * A).

(** The name up to a ['='], and what follows it. *)
Fixpoint split_eq (s : string) : string * option string :=
  match s with
  | EmptyString => (EmptyString, None)
  | String.String c s' =>
      if Ascii.eqb c "=" then (EmptyString, Some s') else let '(n, v) := split_eq s' in (String.String c n, v)
  end.

(** An option of that name; otherwise the option that the name abbreviates, if there is one, or
    all of them are the same. *)
Definition find_long (name : string) : option long_option :=
  match list_find (fun o => o_name o = name) long_opts with
  | Some (_, o) => Some o
  | None =>
      match filter (fun o => String.prefix name (o_name o) = true) long_opts with
      | [] => None
      | o :: os => if forallb (fun o' => bool_decide (o_has_arg o' = o_has_arg o /\ o_val o' = o_val o)) os then Some o else None
      end
  end.

(** What a word that begins with two dashes asks for: a result, or an argument in the next word. *)
Definition long_word (s : string) : opt_result + A :=
  let '(name, value) := split_eq s in
  match find_long name with
  | None => inl Bad_opt
  | Some o =>
      match o_has_arg o, value with
      | no_argument, None => inl (Opt (o_val o) None)
      | no_argument, Some _ => inl Bad_opt
      | required_argument, Some v => inl (Opt (o_val o) (Some v))
      | required_argument, None => inr (o_val o)
      end
  end.

(** The letters of a word that begins with one dash. *)
Fixpoint short_word (s : string) : list opt_result * option A :=
  match s with
  | EmptyString => ([], None)
  | String.String c s' =>
      match list_find (fun x => x.1.1 = c) short_opts with
      | None => let '(os, need) := short_word s' in (Bad_opt :: os, need)
      | Some (_, (_, no_argument, v)) => let '(os, need) := short_word s' in (Opt v None :: os, need)
      | Some (_, (_, required_argument, v)) =>
          match s' with EmptyString => ([], Some v) | _ => ([Opt v (Some s')], None) end
      end
  end.

(** The results of the calls until they return -1.  [argv] does not include the name of the program. *)
Fixpoint getopt_long (argv : list string) : list opt_result :=
  match argv with
  | [] => []
  | String.String "-" (String.String "-" EmptyString) :: _ => []
  | String.String "-" (String.String "-" s) :: rest =>
      match long_word s with
      | inl r => r :: getopt_long rest
      | inr v => match rest with [] => [Bad_opt] | x :: rest' => Opt v (Some x) :: getopt_long rest' end
      end
  | String.String "-" (String.String c s) :: rest =>
      let '(os, need) := short_word (String.String c s) in
      os ++ match need with
            | None => getopt_long rest
            | Some v => match rest with [] => [Bad_opt] | x :: rest' => Opt v (Some x) :: getopt_long rest' end
            end
  | _ :: rest => getopt_long rest
  end.
End getopt.
Arguments opt_result : clear implicits.
Arguments long_option : clear implicits.

(** ** Numbers *)

(** [strtol(s, &end, 10)]: the value and what follows it. *)
Definition strtol (s : string) : Z * string :=
  let '(neg, s1) := skip_sign (skip_space s) in
  match s1 with
  | String.String c _ =>
      if isdigit c then
        let '(v, rest) := dec_digits s1 0 in
        (if (neg : bool) then Z.max (- v) (- 2 ^ 31) else Z.min v (2 ^ 31 - 1), rest)%Z
      else (0%Z, s)
  | EmptyString => (0%Z, s)
  end.
Definition atoi (s : string) : Z := (strtol s).1.

(** [snprintf("%d")] *)
Definition print_d (v : Z) : string := if (v <? 0)%Z then "-" +:+ print_u (- v) else print_u v.

Lemma isdigit_dec_digit c : isdigit c = bool_decide (is_Some (dec_digit c)).
Proof. unfold dec_digit. by destruct (isdigit c). Qed.

Lemma strtol_digits ds : Forall (fun d => 0 <= d < 10)%Z ds -> ds <> [] ->
  strtol (digit_string ds) = (Z.min (digits_value 10 ds) (2 ^ 31 - 1), EmptyString)%Z /\
  strtol ("-" +:+ digit_string ds) = (Z.max (- digits_value 10 ds) (- 2 ^ 31), EmptyString)%Z.
Proof.
  intros Hd Hne. pose proof (dec_digits_string ds 0 EmptyString Hd) as Hv. rewrite string_app_nil_r in Hv. cbn [dec_digits] in Hv.
  destruct ds as [|d ds]; [done|]. apply Forall_cons in Hd as [Hd0 Hd].
  destruct (digit_char_props d ltac:(lia)) as (_ & Hdd & Hsp & Hm & Hp & _).
  assert (isdigit (digit_char d) = true) as Hi by (rewrite isdigit_dec_digit, Hdd by lia; by apply bool_decide_eq_true_2).
  change (digit_string (d :: ds)) with (String.String (digit_char d) (digit_string ds)) in *. unfold strtol. split.
  - cbn [skip_space]. rewrite Hsp. cbn [skip_sign]. rewrite Hm, Hp, Hi, Hv. done.
  - change ("-" +:+ String.String (digit_char d) (digit_string ds)) with (String.String "-" (String.String (digit_char d) (digit_string ds))).
    cbn [skip_space]. change (isspace "-") with false. cbn [skip_sign]. change (Ascii.eqb "-" "-") with true. cbv beta match. rewrite Hi, Hv. done.
Qed.

Lemma strtol_print_d v : (- 2 ^ 31 <= v < 2 ^ 31)%Z -> strtol (print_d v) = (v, EmptyString).
Proof.
  intros Hv. unfold print_d. destruct (Z.ltb_spec v 0).
  - destruct (print_u_props (- v)) as (ds & -> & Hd & Hne & Hval). destruct (strtol_digits ds Hd Hne) as [_ ->].
    rewrite Hval by lia. f_equal. lia.
  - destruct (print_u_props v) as (ds & -> & Hd & Hne & Hval). destruct (strtol_digits ds Hd Hne) as [-> _].
    rewrite Hval by lia. f_equal. lia.
Qed.

Lemma atoi_print_u v : (0 <= v < 2 ^ 31)%Z -> atoi (print_u v) = v.
Proof.
  intros Hv. pose proof (strtol_print_d v ltac:(lia)) as H. unfold print_d in H. destruct (Z.ltb_spec v 0); [lia|]. unfold atoi. by rewrite H.
Qed.

(** ** Words *)

Definition isalnum (c : ascii) : bool :=
  let n := nat_of_ascii c in
  isdigit c || (Nat.leb 65 n && Nat.leb n 90) || (Nat.leb 97 n && Nat.leb n 122).
(** The characters that stand for themselves. *)
Definition plain (c : ascii) : bool :=
  isalnum c || bool_decide (c ∈ ["-"; "_"; "."; "/"; ":"; ","; "="; "+"; "@"; "%"]%char).
Fixpoint plain_word (s : string) : bool :=
  match s with EmptyString => true | String.String c s' => plain c && plain_word s' end.

(** [None]: the line has something else in it, or an open quote. *)
Fixpoint sh_split (word : option string) (quoted : bool) (s : string) : option (list string) :=
  match s with
  | EmptyString => if quoted then None else Some (option_list word)
  | String.String c s' =>
      if quoted then
        if Ascii.eqb c "'" then sh_split word false s'
        else sh_split (Some (default EmptyString word +:+ String.String c EmptyString)) true s'
      else if Ascii.eqb c "'" then sh_split (Some (default EmptyString word)) true s'
      else if Ascii.eqb c " " then
        match word with
        | None => sh_split None false s'
        | Some w => cons w <$> sh_split None false s'
        end
      else if plain c then sh_split (Some (default EmptyString word +:+ String.String c EmptyString)) false s'
      else None
  end.
Definition sh_words (s : string) : option (list string) := sh_split None false s.

Lemma plain_not c : plain c = true -> Ascii.eqb c "'" = false /\ Ascii.eqb c " " = false.
Proof. intros H. split; apply Ascii.eqb_neq; intros ->; by vm_compute in H. Qed.

Lemma sh_split_plain w w' s : plain_word w = true -> sh_split (Some w') false (w +:+ s) = sh_split (Some (w' +:+ w)) false s.
Proof.
  revert w'. induction w as [|c w IH]; intros w' Hw; [by rewrite string_app_nil_r|].
  cbn [plain_word] in Hw. apply andb_true_iff in Hw as [Hc Hw]. destruct (plain_not c Hc) as [Hq Hb].
  change (String.String c w +:+ s) with (String.String c (w +:+ s)). cbn [sh_split]. rewrite Hq, Hb, Hc. cbn [default from_option id].
  rewrite IH by done. by rewrite <- string_app_assoc.
Qed.

(** A word of plain characters before a blank. *)
Lemma sh_words_cons w s : plain_word w = true -> w <> EmptyString ->
  sh_words (w +:+ String.String " " s) = cons w <$> sh_words s.
Proof.
  intros Hw Hne. destruct w as [|c w]; [done|]. cbn [plain_word] in Hw. apply andb_true_iff in Hw as [Hc Hw]. destruct (plain_not c Hc) as [Hq Hb].
  unfold sh_words. change (String.String c w +:+ String.String " " s) with (String.String c (w +:+ String.String " " s)). cbn [sh_split]. rewrite Hq, Hb, Hc.
  cbn [default from_option id]. rewrite sh_split_plain by done. done.
Qed.

Lemma sh_words_blank s : sh_words (String.String " " s) = sh_words s.
Proof. done. Qed.

Lemma plain_word_digits ds : Forall (fun d => 0 <= d < 10)%Z ds -> plain_word (digit_string ds) = true.
Proof.
  induction 1 as [|d ds Hd _ IH]; [done|].
  change (digit_string (d :: ds)) with (String.String (digit_char d) (digit_string ds)). cbn [plain_word]. rewrite IH, andb_true_r.
  unfold plain, isalnum. destruct (digit_char_props d ltac:(lia)) as (_ & Hdd & _).
  rewrite isdigit_dec_digit, Hdd by lia. by rewrite bool_decide_eq_true_2.
Qed.

Lemma plain_word_print_u v : plain_word (print_u v) = true /\ print_u v <> EmptyString.
Proof.
  destruct (print_u_props v) as (ds & -> & Hd & Hne & _). split; [by apply plain_word_digits|]. by destruct ds.
Qed.

Lemma string_take_all n s : String.length s <= n -> string_take n s = s.
Proof. revert n. induction s as [|c s IH]; intros [|n] H; simpl in *; try done; [lia|]. by rewrite IH by lia. Qed.

Lemma print_u_length v : String.length (print_u v) <= 10.
Proof.
  assert (forall ds, String.length (digit_string ds) = length ds) as Hl by (intros ds; induction ds as [|d ds IH]; [done|]; simpl; by rewrite <- IH).
  assert (forall ds, length (strip_zeros ds) <= length ds) as Hs.
  { intros ds. induction ds as [|d ds IH]; [done|]. cbn [strip_zeros]. destruct d; [|simpl; lia..]. destruct ds; simpl in *; lia. }
  unfold print_u. rewrite Hl. etrans; [apply Hs|]. done.
Qed.

Lemma print_d_length v : print_d v <> EmptyString /\ String.length (print_d v) <= 11.
Proof.
  unfold print_d. destruct (v <? 0)%Z.
  - split; [done|]. rewrite string_length_app. pose proof (print_u_length (- v)). simpl. lia.
  - split; [apply plain_word_print_u|]. pose proof (print_u_length v). lia.
Qed.
