(* ===== verification/AdapterOpts.v ===== *)
(** * The options of the endpoint adapter

    [endpoint_adapter/src/endpoint_adapter.c]: [parse_options]; [libpiksi/libpiksi/src/protocols.c]:
    the import of protocol libraries, which decides what framers and filters can be named; and the
    options that the protocols of the repository, [sbp_protocol], [nmea_protocol],
    [rtcm3_in_protocol] and [rtcm3_out_protocol], ask the ports daemon to pass ([info_*.c]).
    The theorem joins them with [Ports]: what the daemon writes into the script of a service is
    what the adapter takes it for. *)

From Stdlib Require Import Ascii.
From S2P Require Import Prelude Libc Getopt Crc24q FramerRtcm3 Framer Runit Ports.

(** ** Importing protocols *)

(** What a library in the directory provides; [None] for a file that is not one or has no name.
    Whether its allocations succeed is part of it. *)
Record library := mk_library {
  lib_name : string;
  lib_framer : option framer_ops;
  lib_filter : option filter_ops;
  lib_alloc : bool;
}.
Record registries := mk_registries { framers : list (interface framer_ops); filters : list (interface filter_ops) }.

Definition import_framer (l : library) (r : registries) : registries * Z :=
  match lib_framer l with
  | None => (r, -1)%Z
  | Some o => let '(fs, rc) := interface_register (lib_alloc l) (lib_alloc l) (framers r) (lib_name l) o in (mk_registries fs (filters r), rc)
  end.
Definition import_filter (l : library) (r : registries) : registries * Z :=
  match lib_filter l with
  | None => (r, -1)%Z
  | Some o => let '(fs, rc) := interface_register (lib_alloc l) (lib_alloc l) (filters r) (lib_name l) o in (mk_registries (framers r) fs, rc)
  end.
Definition import (l : option library) (r : registries) : registries * Z :=
  match l with
  | None => (r, -1)%Z
  | Some l => let r := (import_framer l r).1 in let r := (import_filter l r).1 in (r, 0%Z)
  end.

Definition none_filter_ops : filter_ops := mk_filter_ops unit (filter_none_create true) filter_none_process.

(** [dir]: the regular files of the directory, [None] if it cannot be opened. *)
Definition protocols_import (alloc : bool) (dir : option (list (option library))) : registries * Z :=
  let '(fr, rc) := interface_register alloc alloc [] "none" (none_ops true) in
  if negb (rc =? 0)%Z then (mk_registries fr [], (-1)%Z)
  else
    let '(fi, rc) := interface_register alloc alloc [] "none" none_filter_ops in
    if negb (rc =? 0)%Z then (mk_registries fr fi, (-1)%Z)
    else match dir with
         | None => (mk_registries fr fi, (-1)%Z)
         | Some files => (foldl (fun r f => (import f r).1) (mk_registries fr fi) files, 0%Z)
         end.

(** ** Options *)

Inductive io_mode_t := IO_INVALID | IO_STDIO | IO_FILE | IO_TCP_LISTEN | IO_TCP_CONNECT | IO_UDP_LISTEN | IO_UDP_CONNECT | IO_CAN.
Inductive endpoint_mode_t := ENDPOINT_INVALID | ENDPOINT_PUBSUB.

Inductive opt_id :=
  | OPT_ID_STDIO | OPT_ID_NAME | OPT_ID_FILE | OPT_ID_TCP_LISTEN | OPT_ID_TCP_CONNECT | OPT_ID_UDP_LISTEN | OPT_ID_UDP_CONNECT
  | OPT_ID_STARTUP_DELAY | OPT_ID_DEBUG | OPT_ID_FILTER_IN | OPT_ID_FILTER_OUT | OPT_ID_FILTER_IN_CONFIG
  | OPT_ID_FILTER_OUT_CONFIG | OPT_ID_NONBLOCK | OPT_ID_OUTQ | OPT_ID_CAN | OPT_ID_CAN_FILTER | OPT_ID_RETRY_PUBSUB
  | OPT_ID_FRAMER_IN | OPT_ID_FRAMER_OUT | OPT_ID_BYPASS_PUB | OPT_ID_BYPASS_SUB | OPT_p | OPT_s.
#[export] Instance opt_id_eq_dec : EqDecision opt_id.
Proof. solve_decision. Defined.

Definition long_opts : list (long_option opt_id) :=
  [mk_option "pub" required_argument OPT_p;
   mk_option "sub" required_argument OPT_s;
   mk_option "framer-in" required_argument OPT_ID_FRAMER_IN;
   mk_option "framer-out" required_argument OPT_ID_FRAMER_OUT;
   mk_option "stdio" no_argument OPT_ID_STDIO;
   mk_option "name" required_argument OPT_ID_NAME;
   mk_option "file" required_argument OPT_ID_FILE;
   mk_option "tcp-l" required_argument OPT_ID_TCP_LISTEN;
   mk_option "tcp-c" required_argument OPT_ID_TCP_CONNECT;
   mk_option "udp-l" required_argument OPT_ID_UDP_LISTEN;
   mk_option "udp-c" required_argument OPT_ID_UDP_CONNECT;
   mk_option "startup-delay" required_argument OPT_ID_STARTUP_DELAY;
   mk_option "filter-in" required_argument OPT_ID_FILTER_IN;
   mk_option "filter-out" required_argument OPT_ID_FILTER_OUT;
   mk_option "filter-in-config" required_argument OPT_ID_FILTER_IN_CONFIG;
   mk_option "filter-out-config" required_argument OPT_ID_FILTER_OUT_CONFIG;
   mk_option "debug" no_argument OPT_ID_DEBUG;
   mk_option "nonblock" no_argument OPT_ID_NONBLOCK;
   mk_option "outq" required_argument OPT_ID_OUTQ;
   mk_option "can" required_argument OPT_ID_CAN;
   mk_option "can-f" required_argument OPT_ID_CAN_FILTER;
   mk_option "retry" no_argument OPT_ID_RETRY_PUBSUB;
   mk_option "pub2" required_argument OPT_ID_BYPASS_PUB;
   mk_option "sub2" required_argument OPT_ID_BYPASS_SUB].
Definition short_opts : list (ascii * has_arg * opt_id) := [("p"%char, required_argument, OPT_p); ("s"%char, required_argument, OPT_s)].

(** The static variables that options set. *)
Record io_opts := mk_io {
  io_mode : io_mode_t; file_path : string; tcp_listen_port : Z; tcp_connect_addr : option string;
  udp_listen_port : Z; udp_connect_addr : option string; can_id : Z; can_filter : Z;
}.
Record frame_opts := mk_frame {
  framer_in_name : string; framer_out_name : string; filter_in_name : string; filter_out_name : string;
  filter_in_config : option string; filter_out_config : option string;
}.
Record addr_opts := mk_addr {
  endpoint_mode : endpoint_mode_t; pub_addr : option string; sub_addr : option string;
  alt_pub_addr : option string; alt_sub_addr : option string;
}.
Record misc_opts := mk_misc { port_name : option string; debug : bool; startup_delay_ms : Z; nonblock : bool; outq : Z; retry_pubsub : bool }.
Record options := mk_options { o_io : io_opts; o_frame : frame_opts; o_addr : addr_opts; o_misc : misc_opts }.

Definition FRAMER_NONE_NAME : string := "none".
Definition FILTER_NONE_NAME : string := "none".
Definition options_init : options :=
  mk_options (mk_io IO_INVALID EmptyString (-1) None (-1) None (-1) (-1))
    (mk_frame FRAMER_NONE_NAME FRAMER_NONE_NAME FRAMER_NONE_NAME FRAMER_NONE_NAME None None)
    (mk_addr ENDPOINT_INVALID None None None None) (mk_misc None false 0 false 0 false).

Definition with_io (o : options) (x : io_opts) : options := mk_options x (o_frame o) (o_addr o) (o_misc o).
Definition with_frame (o : options) (x : frame_opts) : options := mk_options (o_io o) x (o_addr o) (o_misc o).
Definition with_addr (o : options) (x : addr_opts) : options := mk_options (o_io o) (o_frame o) x (o_misc o).
Definition with_misc (o : options) (x : misc_opts) : options := mk_options (o_io o) (o_frame o) (o_addr o) x.

Section parse.
Variable reg : registries.
(** What [realpath] leaves in the buffer, which the code goes on with also when it fails. *)
Variable realpath : string -> string.

Definition framer_valid (name : string) : bool := (interface_valid (framers reg) name =? 0)%Z.
Definition filter_valid (name : string) : bool := (interface_valid (filters reg) name =? 0)%Z.

(** The body of the loop; [None] for its early return. *)
Definition option_step (r : opt_result opt_id) (o : options) : option options :=
  let i := o_io o in let f := o_frame o in let a := o_addr o in let m := o_misc o in
  match r with
  | Opt OPT_ID_CAN (Some s) =>
      Some (with_io o (mk_io IO_CAN (file_path i) (tcp_listen_port i) (tcp_connect_addr i) (udp_listen_port i) (udp_connect_addr i) (atoi s) (can_filter i)))
  | Opt OPT_ID_CAN_FILTER (Some s) =>
      Some (with_io o (mk_io (io_mode i) (file_path i) (tcp_listen_port i) (tcp_connect_addr i) (udp_listen_port i) (udp_connect_addr i) (can_id i) (atoi s)))
  | Opt OPT_ID_STDIO None =>
      Some (with_io o (mk_io IO_STDIO (file_path i) (tcp_listen_port i) (tcp_connect_addr i) (udp_listen_port i) (udp_connect_addr i) (can_id i) (can_filter i)))
  | Opt OPT_ID_NAME (Some s) => Some (with_misc o (mk_misc (Some s) (debug m) (startup_delay_ms m) (nonblock m) (outq m) (retry_pubsub m)))
  | Opt OPT_ID_FILE (Some s) =>
      Some (with_io o (mk_io IO_FILE (realpath s) (tcp_listen_port i) (tcp_connect_addr i) (udp_listen_port i) (udp_connect_addr i) (can_id i) (can_filter i)))
  | Opt OPT_ID_TCP_LISTEN (Some s) =>
      Some (with_io o (mk_io IO_TCP_LISTEN (file_path i) (atoi s) (tcp_connect_addr i) (udp_listen_port i) (udp_connect_addr i) (can_id i) (can_filter i)))
  | Opt OPT_ID_TCP_CONNECT (Some s) =>
      Some (with_io o (mk_io IO_TCP_CONNECT (file_path i) (tcp_listen_port i) (Some s) (udp_listen_port i) (udp_connect_addr i) (can_id i) (can_filter i)))
  | Opt OPT_ID_UDP_LISTEN (Some s) =>
      Some (with_io o (mk_io IO_UDP_LISTEN (file_path i) (tcp_listen_port i) (tcp_connect_addr i) (atoi s) (udp_connect_addr i) (can_id i) (can_filter i)))
  | Opt OPT_ID_UDP_CONNECT (Some s) =>
      Some (with_io o (mk_io IO_UDP_CONNECT (file_path i) (tcp_listen_port i) (tcp_connect_addr i) (udp_listen_port i) (Some s) (can_id i) (can_filter i)))
  | Opt OPT_ID_STARTUP_DELAY (Some s) => Some (with_misc o (mk_misc (port_name m) (debug m) (atoi s) (nonblock m) (outq m) (retry_pubsub m)))
  | Opt OPT_ID_FILTER_IN (Some s) =>
      if filter_valid s then Some (with_frame o (mk_frame (framer_in_name f) (framer_out_name f) s (filter_out_name f) (filter_in_config f) (filter_out_config f)))
      else None
  | Opt OPT_ID_FILTER_OUT (Some s) =>
      if filter_valid s then Some (with_frame o (mk_frame (framer_in_name f) (framer_out_name f) (filter_in_name f) s (filter_in_config f) (filter_out_config f)))
      else None
  | Opt OPT_ID_FILTER_IN_CONFIG (Some s) =>
      Some (with_frame o (mk_frame (framer_in_name f) (framer_out_name f) (filter_in_name f) (filter_out_name f) (Some s) (filter_out_config f)))
  | Opt OPT_ID_FILTER_OUT_CONFIG (Some s) =>
      Some (with_frame o (mk_frame (framer_in_name f) (framer_out_name f) (filter_in_name f) (filter_out_name f) (filter_in_config f) (Some s)))
  | Opt OPT_ID_DEBUG None => Some (with_misc o (mk_misc (port_name m) true (startup_delay_ms m) (nonblock m) (outq m) (retry_pubsub m)))
  | Opt OPT_ID_NONBLOCK None => Some (with_misc o (mk_misc (port_name m) (debug m) (startup_delay_ms m) true (outq m) (retry_pubsub m)))
  | Opt OPT_ID_OUTQ (Some s) => Some (with_misc o (mk_misc (port_name m) (debug m) (startup_delay_ms m) (nonblock m) (atoi s) (retry_pubsub m)))
  | Opt OPT_p (Some s) => Some (with_addr o (mk_addr ENDPOINT_PUBSUB (Some s) (sub_addr a) (alt_pub_addr a) (alt_sub_addr a)))
  | Opt OPT_s (Some s) => Some (with_addr o (mk_addr ENDPOINT_PUBSUB (pub_addr a) (Some s) (alt_pub_addr a) (alt_sub_addr a)))
  | Opt OPT_ID_BYPASS_PUB (Some s) => Some (with_addr o (mk_addr (endpoint_mode a) (pub_addr a) (sub_addr a) (Some s) (alt_sub_addr a)))
  | Opt OPT_ID_BYPASS_SUB (Some s) => Some (with_addr o (mk_addr (endpoint_mode a) (pub_addr a) (sub_addr a) (alt_pub_addr a) (Some s)))
  | Opt OPT_ID_FRAMER_IN (Some s) =>
      if framer_valid s then Some (with_frame o (mk_frame s (framer_out_name f) (filter_in_name f) (filter_out_name f) (filter_in_config f) (filter_out_config f)))
      else None
  | Opt OPT_ID_FRAMER_OUT (Some s) =>
      if framer_valid s then Some (with_frame o (mk_frame (framer_in_name f) s (filter_in_name f) (filter_out_name f) (filter_in_config f) (filter_out_config f)))
      else None
  | Opt OPT_ID_RETRY_PUBSUB None => Some (with_misc o (mk_misc (port_name m) (debug m) (startup_delay_ms m) (nonblock m) (outq m) true))
  | _ => None
  end.

Fixpoint options_loop (rs : list (opt_result opt_id)) (o : options) : option options :=
  match rs with
  | [] => Some o
  | r :: rs' => match option_step r o with Some o => options_loop rs' o | None => None end
  end.

(** The checks after the loop. *)
Definition options_checks (o : options) : bool :=
  bool_decide (is_Some (port_name (o_misc o))) &&
  match io_mode (o_io o) with IO_INVALID => false | _ => true end &&
  match endpoint_mode (o_addr o) with ENDPOINT_INVALID => false | _ => true end &&
  eqb (strcaseeq (filter_in_name (o_frame o)) FILTER_NONE_NAME) (bool_decide (filter_in_config (o_frame o) = None)) &&
  eqb (strcaseeq (filter_out_name (o_frame o)) FILTER_NONE_NAME) (bool_decide (filter_out_config (o_frame o) = None)).

(** [argv] without the name of the program; [None] for a result of -1. *)
Definition parse_options (argv : list string) : option options :=
  o ← options_loop (getopt_long long_opts short_opts argv) options_init;
  if options_checks o then Some o else None.
End parse.

(** ** The protocols of the repository *)

Inductive repo_protocol := P_sbp | P_nmea | P_rtcm3_in | P_rtcm3_out.

Definition info_sbp : protocol_t := mk_protocol "SBP" "SBP" (fun port_name =>
  "--framer-in sbp --framer-out sbp --filter-out sbp --filter-out-config /etc/filter_out_config/" +:+ port_name +:+
  " -p 'ipc:///var/run/sockets/external.sub' -s 'ipc:///var/run/sockets/external.pub'").
Definition info_nmea : protocol_t := mk_protocol "NMEA" "NMEA OUT" (fun _ =>
  "-p 'ipc:///var/run/sockets/nmea_external.sub' -s 'ipc:///var/run/sockets/nmea_external.pub'").
Definition info_rtcm3_in : protocol_t := mk_protocol "RTCM3" "RTCMv3 IN" (fun _ =>
  "--framer-in rtcm3 --framer-out none -p 'ipc:///var/run/sockets/rtcm3_external.sub'").
Definition info_rtcm3_out : protocol_t := mk_protocol "RTCM3Out" "RTCMv3 OUT" (fun _ =>
  "-s 'ipc:///var/run/sockets/rtcm3_external.pub'").
Definition protocol_of (k : repo_protocol) : protocol_t :=
  match k with P_sbp => info_sbp | P_nmea => info_nmea | P_rtcm3_in => info_rtcm3_in | P_rtcm3_out => info_rtcm3_out end.

(** ** What each part of the command line means *)

Definition wanted_frame (k : repo_protocol) (name : string) : frame_opts :=
  match k with
  | P_sbp => mk_frame "sbp" "sbp" "none" "sbp" None (Some ("/etc/filter_out_config/" +:+ name))
  | P_rtcm3_in => mk_frame "rtcm3" "none" "none" "none" None None
  | _ => mk_frame "none" "none" "none" "none" None None
  end.
Definition wanted_pub (k : repo_protocol) : option string :=
  match k with
  | P_sbp => Some "ipc:///var/run/sockets/external.sub"
  | P_nmea => Some "ipc:///var/run/sockets/nmea_external.sub"
  | P_rtcm3_in => Some "ipc:///var/run/sockets/rtcm3_external.sub"
  | P_rtcm3_out => None
  end.
Definition wanted_sub (k : repo_protocol) : option string :=
  match k with
  | P_sbp => Some "ipc:///var/run/sockets/external.pub"
  | P_nmea => Some "ipc:///var/run/sockets/nmea_external.pub"
  | P_rtcm3_in => None
  | P_rtcm3_out => Some "ipc:///var/run/sockets/rtcm3_external.pub"
  end.

(** The port whose file service a text names. *)
Definition fileio_addr (owner : option string) (suffix : string) : option string :=
  match owner with Some n => Some ("ipc:///var/run/sockets/fileio/" +:+ (n +:+ suffix)) | None => None end.
Definition fileio_text_of (owner : option string) : string := match owner with Some n => fileio_text n | None => EmptyString end.

Definition wanted_addr (k : repo_protocol) (owner : option string) : addr_opts :=
  mk_addr ENDPOINT_PUBSUB (wanted_pub k) (wanted_sub k) (fileio_addr owner ".sub") (fileio_addr owner ".pub").

Section wanted.
Variable realpath : string -> string.

Definition device (p : port_config_t) : string * Z :=
  if bool_decide (pc_name p = "uart0") then ("/dev/ttyPS0", 4096%Z)
  else if bool_decide (pc_name p = "uart1") then ("/dev/ttyPS1", 4096%Z)
  else if bool_decide (pc_name p = "usb0") then ("/dev/tty.usb0", 8192%Z)
  else ("/dev/tty.usb2", 8192%Z).

Definition wanted_io (cs : list can_t) (p : port_config_t) : io_opts :=
  match pc_type p, pc_opts_data p with
  | PORT_TYPE_TCP_SERVER, port_data n => mk_io IO_TCP_LISTEN EmptyString n None (-1) None (-1) (-1)
  | PORT_TYPE_TCP_CLIENT, address_data a => mk_io IO_TCP_CONNECT EmptyString (-1) (Some a) (-1) None (-1) (-1)
  | PORT_TYPE_UDP_SERVER, port_data n => mk_io IO_UDP_LISTEN EmptyString (-1) None n None (-1) (-1)
  | PORT_TYPE_UDP_CLIENT, address_data a => mk_io IO_UDP_CONNECT EmptyString (-1) None (-1) (Some a) (-1) (-1)
  | PORT_TYPE_CAN, can_data n =>
      let c := default (mk_can EmptyString 0 0) (cs !! Z.to_nat n) in
      mk_io IO_CAN EmptyString (-1) None (-1) None (Ports.can_id c) (Ports.can_filter c)
  | _, _ => mk_io IO_FILE (realpath (device p).1) (-1) None (-1) None (-1) (-1)
  end.
Definition wanted_misc (p : port_config_t) : misc_opts :=
  match pc_type p with
  | PORT_TYPE_UART | PORT_TYPE_USB => mk_misc (Some (pc_name p)) false 0 true (device p).2 false
  | _ => mk_misc (Some (pc_name p)) false 0 false 0 false
  end.
Definition wanted (cs : list can_t) (p : port_config_t) (owner : option string) (k : repo_protocol) : options :=
  mk_options (wanted_io cs p) (wanted_frame k (pc_name p)) (wanted_addr k (if uses_fileio p then owner else None)) (wanted_misc p).
End wanted.

(** ** Splitting the line *)

Lemma sh_split_app w q a ws b : sh_split w q a = Some ws ->
  sh_split w q (a +:+ String.String " " b) = app ws <$> sh_words b.
Proof.
  revert w q ws. induction a as [|c a IH]; intros w q ws.
  - cbn [sh_split]. destruct q; [done|]. intros [= <-]. change (EmptyString +:+ String.String " " b) with (String.String " " b). cbn [sh_split].
    change (Ascii.eqb " " "'") with false. change (Ascii.eqb " " " ") with true. cbv beta match. unfold sh_words.
    destruct w; simpl; [done|]. by destruct (sh_split None false b).
  - change (String.String c a +:+ String.String " " b) with (String.String c (a +:+ String.String " " b)). cbn [sh_split].
    destruct q; [destruct (Ascii.eqb c "'"); apply IH|]. destruct (Ascii.eqb c "'"); [apply IH|]. destruct (Ascii.eqb c " ").
    + destruct w as [w|]; [|apply IH]. destruct (sh_split None false a) as [ws'|] eqn:E; [|done]. cbn [fmap option_fmap option_map].
      intros [= <-]. rewrite (IH None false ws') by done. by destruct (sh_words b).
    + destruct (plain c); [apply IH|done].
Qed.

Lemma sh_words_app a b wa wb : sh_words a = Some wa -> sh_words b = Some wb -> sh_words (a +:+ String.String " " b) = Some (wa ++ wb).
Proof. intros Ha Hb. unfold sh_words at 1. rewrite (sh_split_app _ _ _ _ _ Ha), Hb. done. Qed.

Lemma sh_words_one w : plain_word w = true -> w <> EmptyString -> sh_words w = Some [w].
Proof.
  intros Hw Hne. destruct w as [|c w]; [done|]. cbn [plain_word] in Hw. apply andb_true_iff in Hw as [Hc Hw]. destruct (plain_not c Hc) as [Hq Hb].
  unfold sh_words. cbn [sh_split]. rewrite Hq, Hb, Hc. cbn [default from_option id].
  rewrite <-(string_app_nil_r w) at 1. rewrite sh_split_plain by done. done.
Qed.

(** Words before a word of plain characters. *)
Lemma sh_words_snoc a w wa : sh_words a = Some wa -> plain_word w = true -> w <> EmptyString -> sh_words (a +:+ String.String " " w) = Some (wa ++ [w]).
Proof. intros. apply sh_words_app; [done|]. by apply sh_words_one. Qed.

Lemma plain_word_app a b : plain_word (a +:+ b) = plain_word a && plain_word b.
Proof. induction a as [|c a IH]; [done|]. change (String.String c a +:+ b) with (String.String c (a +:+ b)). cbn [plain_word]. by rewrite IH, andb_assoc. Qed.

Lemma options_loop_app reg rp a b o : options_loop reg rp (a ++ b) o = options_loop reg rp a o ≫= options_loop reg rp b.
Proof. revert o. induction a as [|r a IH]; intros o; [done|]. cbn [app options_loop]. destruct (option_step reg rp r o); [apply IH|done]. Qed.

(** ** Known ports *)

Definition data_known (t : port_type_t) (name : string) (o : opts_data_t) : Prop :=
  match t, o with
  | (PORT_TYPE_UART | PORT_TYPE_USB), _ => True
  | (PORT_TYPE_TCP_SERVER | PORT_TYPE_UDP_SERVER), port_data n => (0 <= n < 65536)%Z
  | (PORT_TYPE_TCP_CLIENT | PORT_TYPE_UDP_CLIENT), address_data a => plain_word a = true /\ String.length a <= 255
  | PORT_TYPE_CAN, can_data n => (n = 0 \/ n = 1)%Z /\ name = "can" +:+ print_u n
  | _, _ => False
  end.

(** A port of the table, with data that settings can give it. *)
Record known_port (p : port_config_t) : Prop := {
  kp_table : Exists (fun q => pc_name p = pc_name q /\ pc_opts p = pc_opts q /\ pc_type p = pc_type q) port_configs;
  kp_data : data_known (pc_type p) (pc_name p) (pc_opts_data p);
}.

Definition has_address (p : port_config_t) : Prop := pc_opts_data p <> address_data EmptyString.

Definition cans_known (cs : list can_t) : Prop :=
  2 <= length cs /\ Forall (fun c => 0 <= Ports.can_id c < 2 ^ 31 /\ 0 <= Ports.can_filter c < 2 ^ 31)%Z cs.

Definition owner_known (owner : option string) : Prop :=
  match owner with Some n => plain_word n = true /\ String.length n <= 32 | None => True end.

(** What the options before those of the file service and the protocol mean. *)
Definition own_part (realpath : string -> string) (cs : list can_t) (p : port_config_t) : options :=
  with_misc (with_io options_init (wanted_io realpath cs p)) (wanted_misc p).

Abbreviation adapter_getopt := (getopt_long long_opts short_opts).

(** Words that do not take an argument from those that follow. *)
Definition complete (ws : list string) : Prop := forall rest, adapter_getopt (ws ++ rest) = adapter_getopt ws ++ adapter_getopt rest.

Lemma data_words name flag w : plain_word name = true -> name <> EmptyString -> plain_word w = true -> w <> EmptyString ->
  plain_word flag = true -> flag <> EmptyString ->
  sh_words (String.String " " ("--name " +:+ name +:+ String.String " " (flag +:+ String.String " " w))) = Some ["--name"; name; flag; w].
Proof.
  intros Hn Hn0 Hw Hw0 Hf Hf0. rewrite sh_words_blank. apply (sh_words_app "--name" _ ["--name"] [name; flag; w]); [done|].
  apply (sh_words_app name _ [name] [flag; w]); [by apply sh_words_one|].
  apply (sh_words_app flag _ [flag] [w]); by apply sh_words_one.
Qed.

Lemma can_words n id f : (n = 0 \/ n = 1)%Z ->
  sh_words (String.String " " ("--name can" +:+ print_u n +:+ " --can " +:+ print_u id +:+ " --can-f " +:+  print_u f)) =
    Some ["--name"; "can" +:+ print_u n; "--can"; print_u id; "--can-f"; print_u f].
Proof.
 intros Hn. rewrite sh_words_blank. apply (sh_words_app "--name" _ ["--name"] ["can" +:+ print_u n; "--can"; print_u id; "--can-f"; print_u f]); [done|].
  destruct (plain_word_print_u n) as [Hn1 _], (plain_word_print_u id) as [Hi1 Hi2], (plain_word_print_u f) as [Hf1 Hf2].
  apply (sh_words_app ("can" +:+ print_u n) _ ["can" +:+ print_u n] ["--can"; print_u id; "--can-f"; print_u f]);
    [apply sh_words_one; [by rewrite plain_word_app, Hn1|done]|].
  apply (sh_words_app "--can" _ ["--can"] [print_u id; "--can-f"; print_u f]); [done|].
  apply (sh_words_app (print_u id) _ [print_u id] ["--can-f"; print_u f]); [by apply sh_words_one|].
  apply (sh_words_app "--can-f" _ ["--can-f"] [print_u f]); [done|by apply sh_words_one].
Qed.

(** The options of the port itself. *)
Lemma own_options cs p : known_port p -> has_address p -> cans_known cs ->
  exists ws, sh_words (pc_opts p +:+ String.String " " (own_opts cs p)) = Some ws /\ complete ws /\
    forall reg rp, options_loop reg rp (adapter_getopt ws) options_init = Some (own_part rp cs p).
Proof.
  intros [Ht Hd] Ha [Hc1 Hc2]. unfold has_address in Ha. destruct p as [name opts o t def m r fs]. cbn [pc_name pc_opts pc_type pc_opts_data] in *.
  unfold own_part, wanted_io, wanted_misc, own_opts. cbn [pc_name pc_opts pc_type pc_opts_data].
  unfold port_configs in Ht. rewrite !Exists_cons, Exists_nil in Ht. cbn [pc_name pc_opts pc_type] in Ht.
  destruct_or! Ht; destruct Ht as (-> & -> & ->).
  1-4: eexists; split; [reflexivity|]; split; [intros rest; reflexivity|]; intros; destruct o; reflexivity.
  all: destruct o as [|n|a|n]; try done; cbn [data_known] in Hd.
  all: lazymatch goal with
    | Hd : (0 <= ?n < _)%Z |- context [" --tcp-l "] => destruct (plain_word_print_u n) as [Hn1 Hn2]; eexists; split; [apply (data_words _ "--tcp-l" (print_u n)); done|]
    | Hd : (0 <= ?n < _)%Z |- context [" --udp-l "] => destruct (plain_word_print_u n) as [Hn1 Hn2]; eexists; split; [apply (data_words _ "--udp-l" (print_u n)); done|]
    | Hd : plain_word ?a = true /\ _ |- context [" --tcp-c "] => destruct Hd as [Hp _]; assert (a <> EmptyString) by (by intros ->); eexists; split; [apply (data_words _ "--tcp-c" a); done|]
    | Hd : plain_word ?a = true /\ _ |- context [" --udp-c "] => destruct Hd as [Hp _]; assert (a <> EmptyString) by (by intros ->); eexists; split; [apply (data_words _ "--udp-c" a); done|]
    | _ => destruct Hd as [Hn Hname]; eexists; split; [apply can_words; exact Hn|]; rewrite <- Hname
    end; (split; [intros rest; reflexivity|]); intros reg rp.
  1-2, 5-6: pose proof (atoi_print_u n ltac:(lia)) as Hw; revert Hw; generalize (print_u n); intros w <-; reflexivity.
  1-4: reflexivity.
  all: assert (exists c, cs !! Z.to_nat n = Some c) as [c Hc] by (apply lookup_lt_is_Some; lia); rewrite Hc; cbn [default from_option id].
  all: destruct (proj1 (Forall_lookup _ _) Hc2 _ _ Hc) as [Hi Hf]; 
    pose proof (atoi_print_u _ Hi) as Hwi; pose proof (atoi_print_u _ Hf) as Hwf; revert Hwi Hwf;
    generalize (print_u (Ports.can_id c)); generalize (print_u (Ports.can_filter c)); generalize (Ports.can_id c); generalize (Ports.can_filter c);
    intros f id wf wi <- <-; reflexivity.
Qed.

(** The options of the file service. *)
Lemma fileio_options owner : owner_known owner ->
  exists ws, sh_words (fileio_text_of owner) = Some ws /\ complete ws /\
    forall reg rp o, alt_pub_addr (o_addr o) = None -> alt_sub_addr (o_addr o) = None ->
      options_loop reg rp (adapter_getopt ws) o =
        Some (with_addr o (mk_addr (endpoint_mode (o_addr o)) (pub_addr (o_addr o)) (sub_addr (o_addr o)) (fileio_addr owner ".sub") (fileio_addr owner ".pub"))).
Proof.
  destruct owner as [n|].
  2:{ intros _. exists []. split; [done|]. split; [intros rest; done|]. intros reg rp [i f [] m]. simpl. by intros -> ->. }
  intros [Hn _]. pose (f s := "ipc:///var/run/sockets/fileio/" +:+ (n +:+ s)).
  assert (forall s, plain_word s = true -> plain_word (f s) = true) as Hf by (intros s Hs; unfold f; by rewrite !plain_word_app, Hn, Hs).
  exists ["--pub2"; f ".sub"; "--sub2"; f ".pub"]. split; [|split; [intros rest; reflexivity|intros reg rp [i fr [] m] _ _; reflexivity]].
  change (fileio_text_of (Some n)) with (String.String " " ("--pub2" +:+ String.String " " ("ipc:///var/run/sockets/fileio/" +:+ (n +:+
    (".sub" +:+ String.String " " ("--sub2" +:+ String.String " " ("ipc:///var/run/sockets/fileio/" +:+ (n +:+ (".pub" +:+ String.String " " EmptyString))))))))).
  rewrite sh_words_blank. apply (sh_words_app "--pub2" _ ["--pub2"] [f ".sub"; "--sub2"; f ".pub"]); [done|].
  rewrite (string_app_assoc n ".sub"), (string_app_assoc "ipc:///var/run/sockets/fileio/" (n +:+ ".sub")).
  apply (sh_words_app (f ".sub") _ [f ".sub"] ["--sub2"; f ".pub"]); [apply sh_words_one; [by apply Hf|done]|].
  apply (sh_words_app "--sub2" _ ["--sub2"] [f ".pub"]); [done|].
  rewrite (string_app_assoc n ".pub"), (string_app_assoc "ipc:///var/run/sockets/fileio/" (n +:+ ".pub")).
  apply (sh_words_app (f ".pub") _ [f ".pub"] []); [apply sh_words_one; [by apply Hf|done]|done].
Qed.

(** The names that the protocols use are registered. *)
Record names_valid (reg : registries) : Prop := {
  nv_framer n : n ∈ ["none"; "sbp"; "rtcm3"] -> framer_valid reg n = true;
  nv_filter n : n ∈ ["none"; "sbp"] -> filter_valid reg n = true;
}.

(** The options of the protocol, which complete the configuration. *)
Lemma mode_options k name : plain_word name = true -> name <> EmptyString ->
  exists ws, sh_words (p_adapter_opts (protocol_of k) name) = Some ws /\
    forall reg rp i m pa sa, names_valid reg -> io_mode i <> IO_INVALID -> port_name m = Some name ->
      let o := mk_options i (o_frame options_init) (mk_addr ENDPOINT_INVALID None None pa sa) m in
      exists o', options_loop reg rp (adapter_getopt ws) o = Some o' /\ options_checks o' = true /\
        o' = mk_options i (wanted_frame k name) (mk_addr ENDPOINT_PUBSUB (wanted_pub k) (wanted_sub k) pa sa) m.
Proof.
  intros Hn Hne.
  assert (exists ws, sh_words (p_adapter_opts (protocol_of k) name) = Some ws /\
    ws = (match k with
          | P_sbp => ["--framer-in"; "sbp"; "--framer-out"; "sbp"; "--filter-out"; "sbp"; "--filter-out-config"; "/etc/filter_out_config/" +:+ name]
          | P_rtcm3_in => ["--framer-in"; "rtcm3"; "--framer-out"; "none"]
          | _ => []
          end) ++ match wanted_pub k with Some a => ["-p"; a] | None => [] end ++ match wanted_sub k with Some a => ["-s"; a] | None => [] end) as (ws & Hws & ->).
  { destruct k; [|eexists; split; reflexivity..]. eexists. split; [|reflexivity].
    apply (sh_words_app "--framer-in sbp --framer-out sbp --filter-out sbp --filter-out-config"
      _ ["--framer-in"; "sbp"; "--framer-out"; "sbp"; "--filter-out"; "sbp"; "--filter-out-config"]
      ["/etc/filter_out_config/" +:+ name; "-p"; "ipc:///var/run/sockets/external.sub"; "-s"; "ipc:///var/run/sockets/external.pub"]); [done|].
    apply (sh_words_app ("/etc/filter_out_config/" +:+ name) _ ["/etc/filter_out_config/" +:+ name] ["-p"; _; "-s"; _]); [|reflexivity].
    apply sh_words_one; [by rewrite plain_word_app, Hn|done]. }
  eexists. split; [exact Hws|]. intros reg rp i m pa sa [Hfr Hfi] Hio Hm. cbn zeta.
  pose proof (Hfr "sbp" ltac:(set_solver)) as H1. pose proof (Hfr "rtcm3" ltac:(set_solver)) as H2. pose proof (Hfr "none" ltac:(set_solver)) as H3.
  pose proof (Hfi "sbp" ltac:(set_solver)) as H4.
  eexists. split; [|split; [|reflexivity]].
  - destruct k; lazy -[framer_valid filter_valid String.app]; rewrite ?H1, ?H2, ?H3, ?H4; reflexivity.
  - unfold options_checks. cbn [o_misc o_io o_frame o_addr]. rewrite Hm. destruct (io_mode i); [done|..]; by destruct k.
Qed.

(** ** The command line of a port *)

Lemma known_lengths cs p : known_port p -> plain_word (pc_name p) = true /\ pc_name p <> EmptyString /\ String.length (pc_name p) <= 32 /\
  String.length (pc_opts p) <= 80 /\ String.length (own_opts cs p) <= 320 /\ io_mode (wanted_io (fun s => s) cs p) <> IO_INVALID.
Proof.
  intros [Ht Hd]. destruct p as [name opts o t def m r fs]. cbn [pc_name pc_opts pc_type pc_opts_data] in *.
  unfold own_opts, wanted_io. cbn [pc_name pc_opts pc_type pc_opts_data].
  unfold port_configs in Ht. rewrite !Exists_cons, Exists_nil in Ht. cbn [pc_name pc_opts pc_type] in Ht.
  destruct_or! Ht; destruct Ht as (-> & -> & ->).
  all: split; [reflexivity|]; split; [done|]; split; [vm_compute; lia|]; split; [vm_compute; lia|]; destruct o as [|n|a|n]; try done; cbn [data_known] in Hd.
  all: (split; [|done]); try (cbn [String.length]; lia).
  all: rewrite !string_length_app; cbn [String.length]; try (pose proof (print_u_length n); lia); try lia.
  all: set (c := default _ _); pose proof (print_u_length n); pose proof (print_u_length (Ports.can_id c)); pose proof (print_u_length (Ports.can_filter c)); lia.
Qed.

Lemma wanted_io_valid rp cs p : io_mode (wanted_io (fun s => s) cs p) <> IO_INVALID -> io_mode (wanted_io rp cs p) <> IO_INVALID.
Proof. unfold wanted_io. by destruct (pc_type p), (pc_opts_data p). Qed.

Lemma fileio_text_shape owner : owner_known owner ->
  String.length (fileio_text_of owner) <= 160 /\ (fileio_text_of owner = EmptyString \/ exists s, fileio_text_of owner = String.String " " s).
Proof.
  destruct owner as [n|]; [|simpl; split; [lia|by left]]. intros [_ Hn]. split; [|right; by eexists].
  unfold fileio_text_of, fileio_text. rewrite !string_length_app. cbn [String.length]. lia.
Qed.

Lemma mode_length k name : String.length name <= 32 -> String.length (p_adapter_opts (protocol_of k) name) <= 300.
Proof.
  intros Hn. destruct k; cbn [protocol_of p_adapter_opts info_sbp info_nmea info_rtcm3_in info_rtcm3_out]; rewrite ?string_length_app; cbn [String.length]; lia.
Qed.

Section command.
Variable protocols : list protocol_t.

(** The file service that the command line of a port names. *)
Definition named_owner (p : port_config_t) (owner : option string) : option string :=
  if bool_decide (mode_lookup protocols MODE_NAME_SBP = Some (pc_mode p)) then Some (pc_name p) else owner.

Lemma command_options cs p owner k : known_port p -> has_address p -> cans_known cs -> owner_known owner ->
  exists argv, sh_words (adapter_command protocols (fileio_text_of owner) cs p (protocol_of k)) = Some ("endpoint_adapter" :: argv) /\
    forall reg rp, names_valid reg -> parse_options reg rp argv = Some (wanted rp cs p (named_owner p owner) k).
Proof.
  intros Hp Ha Hcs Ho. destruct (known_lengths cs p Hp) as (Hn & Hne & Hl1 & Hl2 & Hl3 & Hio).
  pose (own := if uses_fileio p then named_owner p owner else None).
  assert (owner_known own) as Hown by (unfold own, named_owner; destruct (uses_fileio p); [case_bool_decide|]; done).
  assert ((if uses_fileio p then fileio_of protocols (fileio_text_of owner) p else EmptyString) = fileio_text_of own) as HF.
  { unfold own, named_owner, fileio_of. destruct (uses_fileio p); [by case_bool_decide|done]. }
  destruct (own_options cs p Hp Ha Hcs) as (w1 & Hw1 & Hc1 & Ho1). destruct (fileio_options own Hown) as (w2 & Hw2 & Hc2 & Ho2).
  destruct (mode_options k (pc_name p) Hn Hne) as (w3 & Hw3 & Ho3). destruct (fileio_text_shape own Hown) as [Hlf Hf].
  pose proof (mode_length k (pc_name p) Hl1) as Hlm. exists (w1 ++ w2 ++ w3). split.
  - unfold adapter_command. rewrite HF. rewrite (string_take_all 511 (own_opts _ _ +:+ _)), (string_take_all 511 (p_adapter_opts _ _)), string_take_all
      by (rewrite ?string_length_app; cbn [String.length]; lia).
    apply (sh_words_app "endpoint_adapter" _ ["endpoint_adapter"] (w1 ++ w2 ++ w3)); [done|]. rewrite app_assoc.
    change (" " +:+ p_adapter_opts (protocol_of k) (pc_name p)) with (String.String " " (p_adapter_opts (protocol_of k) (pc_name p))).
    assert (forall a b c : string, a +:+ " " +:+ b +:+ c = (a +:+ String.String " " b) +:+ c) as Hassoc
      by (intros a b c; rewrite <- !string_app_assoc; done).
    rewrite Hassoc. apply sh_words_app; [|done]. destruct Hf as [Hf|[s Hf]]; rewrite Hf in *.
    + rewrite string_app_nil_r. injection Hw2 as <-. by rewrite app_nil_r.
    + replace (pc_opts p +:+ String.String " " (own_opts cs p +:+ String.String " " s)) with ((pc_opts p +:+ String.String " " (own_opts cs p)) +:+ String.String " " s)
        by (rewrite <- string_app_assoc; done). by apply sh_words_app.
  - intros reg rp Hreg. unfold parse_options. rewrite Hc1, options_loop_app, Ho1. cbn [mbind option_bind].
    rewrite Hc2, options_loop_app, Ho2 by done. cbn [mbind option_bind].
    destruct (Ho3 reg rp (wanted_io rp cs p) (wanted_misc p) (fileio_addr own ".sub") (fileio_addr own ".pub") Hreg) as (o' & Hl & Hck & ->);
      [by apply wanted_io_valid|unfold wanted_misc; by destruct (pc_type p)|].
    unfold own_part, with_misc, with_io, with_addr, options_init. cbn [o_io o_misc o_frame o_addr endpoint_mode pub_addr sub_addr].
    unfold options_init in Hl. cbn [o_frame] in Hl. rewrite Hl. cbn [mbind option_bind]. rewrite Hck. done.
Qed.
End command.

(** ** The names that are registered *)

Lemma lookup_registered {Ops} (l : list (interface Ops)) i n : is_Some (interface_lookup l n) -> is_Some (interface_lookup (l ++ [i]) n).
Proof. intros [x Hx]. rewrite interface_lookup_app, Hx. done. Qed.

Lemma valid_lookup {Ops} (l : list (interface Ops)) n : (interface_valid l n =? 0)%Z = true <-> is_Some (interface_lookup l n).
Proof. unfold interface_valid. destruct (interface_lookup l n); split; try done; by intros [? ?]. Qed.

Lemma import_keeps f r n :
  (framer_valid r n = true -> framer_valid (import f r).1 n = true) /\ (filter_valid r n = true -> filter_valid (import f r).1 n = true).
Proof.
  unfold framer_valid, filter_valid. rewrite !valid_lookup. destruct f as [l|]; [|done]. unfold import, import_framer, import_filter, interface_register.
  destruct (lib_framer l), (lib_filter l), (lib_alloc l); cbn [negb fst framers filters]; split; try done; apply lookup_registered.
Qed.

Lemma import_adds l r n : lib_alloc l = true -> strcaseeq n (lib_name l) = true ->
  (is_Some (lib_framer l) -> framer_valid (import (Some l) r).1 n = true) /\ (is_Some (lib_filter l) -> filter_valid (import (Some l) r).1 n = true).
Proof.
  intros Ha Hn. unfold framer_valid, filter_valid. rewrite !valid_lookup. unfold import, import_framer, import_filter, interface_register. rewrite Ha.
  split; intros [o Ho]; rewrite Ho; [destruct (lib_filter l)|destruct (lib_framer l)]; cbn [negb fst framers filters];
    rewrite interface_lookup_app; cbn [iname]; rewrite Hn; by destruct (interface_lookup _ n).
Qed.

Definition imports (files : list (option library)) (r : registries) : registries := foldl (fun r f => (import f r).1) r files.

Lemma imports_keeps files r n :
  (framer_valid r n = true -> framer_valid (imports files r) n = true) /\ (filter_valid r n = true -> filter_valid (imports files r) n = true).
Proof.
  revert r. induction files as [|f files IH]; intros r; [done|]. cbn [imports foldl]. destruct (import_keeps f r n), (IH (import f r).1). split; auto.
Qed.

Lemma imports_adds files r n l : Some l ∈ files -> lib_alloc l = true -> strcaseeq n (lib_name l) = true ->
  (is_Some (lib_framer l) -> framer_valid (imports files r) n = true) /\ (is_Some (lib_filter l) -> filter_valid (imports files r) n = true).
Proof.
  intros Hl Ha Hn. revert r. induction files as [|f files IH]; intros r; [by apply elem_of_nil in Hl|]. cbn [imports foldl].
  apply elem_of_cons in Hl as [<-|Hl]; [|by apply IH]. destruct (import_adds l r n Ha Hn) as [H1 H2].
  destruct (imports_keeps files (import (Some l) r).1 n) as [H3 H4]. split; auto.
Qed.

(** The libraries of SBP and RTCM3 are among those imported. *)
Definition protocols_installed (files : list (option library)) : Prop :=
  (exists l, Some l ∈ files /\ lib_alloc l = true /\ lib_name l = "SBP" /\ is_Some (lib_framer l) /\ is_Some (lib_filter l)) /\
  (exists l, Some l ∈ files /\ lib_alloc l = true /\ lib_name l = "RTCM3" /\ is_Some (lib_framer l)).

Lemma installed_names files : protocols_installed files -> names_valid (protocols_import true (Some files)).1.
Proof.
  intros [(l & Hl & Ha & Hn & Hfr & Hfi) (l' & Hl' & Ha' & Hn' & Hfr')].
  change (protocols_import true (Some files)).1 with (imports files (mk_registries [mk_interface "none" (none_ops true)] [mk_interface "none" none_filter_ops])).
  set (r := mk_registries _ _).
  destruct (imports_adds files r "sbp" l Hl Ha ltac:(by rewrite Hn)) as [H1 H2]. destruct (imports_adds files r "rtcm3" l' Hl' Ha' ltac:(by rewrite Hn')) as [H3 _].
  destruct (imports_keeps files r "none") as [H4 H5].
  split; intros n H; rewrite !elem_of_cons, elem_of_nil in H; destruct_or! H; subst; auto.
Qed.

(** ** The daemon and the adapter *)

Definition port_like (p q : port_config_t) : Prop :=
  pc_name p = pc_name q /\ pc_opts p = pc_opts q /\ pc_type p = pc_type q /\ data_known (pc_type q) (pc_name q) (pc_opts_data p).

Record daemon_known (d : daemon) : Prop := {
  dk_ports : Forall2 port_like (d_ports d) port_configs;
  dk_fileio : exists owner, owner_known owner /\ d_fileio_opts d = fileio_text_of owner;
  dk_cans : cans_known (d_cans d);
}.

(** The changes that the settings of a port allow: its mode, and the number or the address of a
    server or client, here of characters that the shell takes as they are. *)
Definition change_known (q : port_config_t) (c : change) : Prop :=
  match c with
  | Set_mode m => (0 <= m < 256)%Z
  | Set_data o =>
      data_known (pc_type q) (pc_name q) o /\ match pc_type q with PORT_TYPE_UART | PORT_TYPE_USB | PORT_TYPE_CAN => False | _ => True end
  end.
Definition event_known (e : port_event) : Prop := exists q, port_configs !! e.1.1 = Some q /\ change_known q e.1.2.

Lemma port_like_known q p : q ∈ port_configs -> port_like p q -> known_port p.
Proof.
  intros Hq (Hn & Ho & Ht & Hd). split; [|by rewrite Ht, Hn]. apply Exists_exists. exists q. split; [done|done].
Qed.

Lemma port_like_change p q c : port_like p q -> change_known q c -> String.length (pc_name q) <= 32 -> change_ok p c /\ port_like (apply_change p c) q.
Proof.
  intros (Hn & Ho & Ht & Hd) Hc Hl. destruct c as [m|o]; [done|]. destruct Hc as [Hdk Htt]. unfold change_ok, port_ok, port_like.
  cbn [apply_change pc_name pc_opts pc_type pc_opts_data]. rewrite Hn, Ht. split; [|done]. split; [|done].
  by destruct (pc_type q), o.
Qed.

Lemma table_names q : q ∈ port_configs -> plain_word (pc_name q) = true /\ String.length (pc_name q) <= 32.
Proof.
  intros Hq. assert (Forall (fun q => plain_word (pc_name q) = true /\ String.length (pc_name q) <= 32) port_configs) as H
    by (unfold port_configs; repeat (apply Forall_cons; split; [split; [reflexivity|vm_compute; lia]|]); constructor).
  by apply (proj1 (Forall_forall _ _) H).
Qed.

Lemma started_like p q : port_like p q -> port_like (started p) q.
Proof. done. Qed.

Section joint.
Variable protocols : list protocol_t.
Variable ready : bool.
Hypothesis Hsbp : is_Some (mode_lookup protocols MODE_NAME_SBP).

Lemma notify_known fails d i q c : ports_inv d -> daemon_known d -> port_configs !! i = Some q -> change_known q c ->
  exists p d' r, d_ports d !! i = Some p /\ setting_notify protocols ready fails d i c = Ret (d', r) /\ port_like (apply_change p c) q /\
    change_ok p c /\ ports_inv d' /\ daemon_known d' /\ d_cans d' = d_cans d /\
    d_ports d' = <[i := if waits p c then apply_change p c else started (apply_change p c)]> (d_ports d).
Proof.
  intros Hinv [Hports (owner & Ho & Hf) Hcans] Hq Hc.
  destruct (table_names q ltac:(by eapply list_elem_of_lookup_2)) as [Hplain Hlen].
  destruct (Forall2_lookup_r _ _ _ _ _ Hports Hq) as (p & Hp & Hpq). destruct (port_like_change p q c Hpq Hc Hlen) as [Hok Hlike].
  destruct (setting_notify_effect protocols ready Hsbp fails d i p c Hinv Hp Hok) as (d' & r & E & Hinv' & Hcans' & Hports' & Hw & _ & Hn).
  exists p, d', r. do 5 (split; [done|]). split; [|done]. split.
  - rewrite Hports'. assert (Forall2 port_like (<[i := if waits p c then apply_change p c else started (apply_change p c)]> (d_ports d)) (<[i := q]> port_configs)) as H
      by (apply Forall2_insert; [done|by destruct (waits p c)]). by rewrite (list_insert_id port_configs) in H.
  - pose proof (notify_settings_step protocols ready Hsbp fails d i c p d' r Hinv Hp Hok E) as [_ Hst]. unfold settings_step in Hst. rewrite Hp in Hst.
    injection Hst as _ Hf'. rewrite Hf'. destruct (port_protocol protocols (apply_change p c)); [|by exists owner].
    destruct (negb (waits p c) && uses_fileio (apply_change p c)); [|by exists owner]. unfold fileio_of. case_bool_decide; [|by exists owner].
    exists (Some (pc_name (apply_change p c))). split; [|done]. destruct Hlike as (Hn1 & _). unfold owner_known. rewrite Hn1. done.
  - by rewrite Hcans'.
Qed.

Lemma run_known es d : ports_inv d -> daemon_known d -> Forall event_known es ->
  exists d', ports_run protocols ready d es = Ret d' /\ ports_inv d' /\ daemon_known d' /\
    (d_ports d', d_fileio_opts d') = foldl (settings_step protocols) (d_ports d, d_fileio_opts d) es.
Proof.
  revert d. induction es as [|[[i c] fails] es IH]; intros d Hinv Hk Hes; [by exists d|]. apply Forall_cons in Hes as [(q & Hq & Hc) Hes].
  destruct (notify_known fails d i q c Hinv Hk Hq Hc) as (p & d' & r & Hp & E & _ & Hok & Hinv' & Hk' & _).
  destruct (notify_settings_step protocols ready Hsbp fails d i c p d' r Hinv Hp Hok E) as [_ Hst].
  destruct (IH d' Hinv' Hk' Hes) as (d'' & E' & H1 & H2 & H3). exists d''. split_and!; [|done|done|].
  - cbn [ports_run]. by rewrite E, bind_Ret.
  - cbn [foldl]. by rewrite <-Hst.
Qed.

Hypothesis Hrepo : Forall (fun pr => exists k, pr = protocol_of k) protocols.

Lemma port_protocol_repo p pr : port_protocol protocols p = Some pr -> exists k, pr = protocol_of k.
Proof.
  unfold port_protocol, protocols_get. destruct (_ =? _)%Z; [done|]. destruct (_ <? _)%Z; [done|]. intros H.
  by apply (proj1 (Forall_lookup _ _) Hrepo) in H.
Qed.

End joint.

(** ** Witness *)

Definition repo_protocols : list protocol_t := [info_sbp; info_nmea; info_rtcm3_in; info_rtcm3_out].
Definition sample_files : list (option library) :=
  [Some (mk_library "NMEA" None None true); None;
   Some (mk_library "RTCM3" (Some (none_ops true)) None true);
   Some (mk_library "SBP" (Some (none_ops true)) (Some none_filter_ops) true)].
Definition sample_world : runit_world := mk_runit ∅ ∅ [].
Definition sample_changes : list port_event :=
  [(0, Set_mode 1, works); (6, Set_data (address_data "192.168.0.222:55555"), works)].

Lemma sample_installed : protocols_installed sample_files.
Proof.
  split; [exists (mk_library "SBP" (Some (none_ops true)) (Some none_filter_ops) true)|exists (mk_library "RTCM3" (Some (none_ops true)) None true)].
  - split; [apply (list_elem_of_lookup_2 _ 3); reflexivity|]. repeat split; by eexists.
  - split; [apply (list_elem_of_lookup_2 _ 2); reflexivity|]. repeat split; by eexists.
Defined.

Lemma repo_protocols_known : Forall (fun pr => exists k, pr = protocol_of k) repo_protocols.
Proof. repeat constructor; [exists P_sbp|exists P_nmea|exists P_rtcm3_in|exists P_rtcm3_out]; reflexivity. Defined.


(** *** An address that has not been set

    Nothing keeps a client from being enabled while its address is empty: the adapter then takes
    the next option for the address, and misses the option itself. *)
Definition no_address (t : port_type_t) : port_config_t :=
  mk_port "client" EmptyString (address_data EmptyString) t MODE_NAME_DISABLED 1 DO_NOT_RESTART false.
Example empty_address_takes_option :
  let parse t := argv ← sh_words (adapter_command repo_protocols EmptyString cans (no_address t) info_sbp);
                 parse_options (protocols_import true (Some sample_files)).1 (fun s => s) (tail argv) in
  ((fun o => (tcp_connect_addr (o_io o), alt_pub_addr (o_addr o))) <$> parse PORT_TYPE_TCP_CLIENT) = Some (Some "--pub2", None) /\
  ((fun o => (udp_connect_addr (o_io o), framer_in_name (o_frame o))) <$> parse PORT_TYPE_UDP_CLIENT) = Some (Some "--framer-in", "none").
Proof. split; vm_compute; reflexivity. Qed.
