(* ===== verification/Children.v ===== *)
(** * Tables of child processes

    What the NTRIP and Skylark settings daemons ([ntrip_daemon/src/ntrip_settings.c],
    [skylark_daemon/src/skylark_settings.c]) share: a table of the identifiers of child processes,
    [fork], [kill], the exits recorded by the handler of [SIGCHLD] and [reap_children] of
    [libpiksi]'s [util.c], with the invariant that the theorems on both daemons rest on.

    The handler of [SIGCHLD] runs between any two steps of the daemon.  Where it may do so a step
    takes the next entry of [irqs], the children that end there.  A child that has not been reaped
    is in [kids], with the signals it has been sent; a signal to a process that is not, to the whole
    process group (0) or to every process (-1) is kept in [stray].  The results of [fork] are those of [forks]. *)

From stdpp Require Import gmap.
From S2P Require Import Prelude.

(** ** Processes *)

Inductive signal := SIGTERM | SIGKILL | SIGUSR1.
#[export] Instance signal_eq_dec : EqDecision signal.
Proof. solve_decision. Defined.

(** Which entry of the table it was started for, what it executes, the signals it has been sent. *)
Record child := mk_child { c_index : nat; c_argv : list string; c_signals : list signal }.

Record sys := mk_sys {
  pids : list Z;
  kids : gmap Z child;
  reaped : list (Z * child);
  stray : list (Z * signal);
  irqs : list (list Z);
  forks : nat -> Z;
  forked : nat;                              (* the calls of [fork] so far *)
}.

Definition set_pids (s : sys) (l : list Z) : sys := mk_sys l (kids s) (reaped s) (stray s) (irqs s) (forks s) (forked s).
Definition set_pid (i : nat) (p : Z) (s : sys) : sys := set_pids s (<[i := p]> (pids s)).
Definition pid (i : nat) (s : sys) : Z := default 0%Z (pids s !! i).

(** The result is true for 0; a signal to a group finds a process. *)
Definition kill (p : Z) (sig : signal) (s : sys) : bool * sys :=
  match kids s !! p with
  | Some c => (true, mk_sys (pids s) (<[p := mk_child (c_index c) (c_argv c) (c_signals c ++ [sig])]> (kids s)) (reaped s) (stray s) (irqs s) (forks s) (forked s))
  | None => ((p <=? 0)%Z, mk_sys (pids s) (kids s) (reaped s) (stray s ++ [(p, sig)]) (irqs s) (forks s) (forked s))
  end.

(** [ntrip_record_exit], [skylark_record_exit] *)
Fixpoint record_exit (p : Z) (l : list Z) : list Z :=
  match l with
  | [] => []
  | q :: l' => if negb (q =? 0)%Z && (q =? p)%Z then 0%Z :: l' else q :: record_exit p l'
  end.

(** [reap_children] when [ends] are the children that have ended; [record] tells whether an exit
    handler is given. *)
Definition reap_one (record : bool) (s : sys) (p : Z) : sys :=
  match kids s !! p with
  | None => s
  | Some c =>
      mk_sys (if record then record_exit p (pids s) else pids s) (delete p (kids s)) (reaped s ++ [(p, c)]) (stray s) (irqs s) (forks s) (forked s)
  end.
Definition reap_children (record : bool) (ends : list Z) (s : sys) : sys := foldl (reap_one record) s ends.

(** A place where the handler may run. *)
Definition tick (s : sys) : sys :=
  match irqs s with
  | [] => s
  | ends :: rest => reap_children true ends (mk_sys (pids s) (kids s) (reaped s) (stray s) rest (forks s) (forked s))
  end.

(** [process->pid = fork()] with the child executing [argv]; the handler may run before the store. *)
Definition fork_store (i : nat) (argv : list string) (s : sys) : sys :=
  let p := forks s (forked s) in
  let s := mk_sys (pids s) (if (p <? 0)%Z then kids s else <[p := mk_child i argv []]> (kids s)) (reaped s) (stray s) (irqs s) (forks s) (S (forked s)) in
  set_pid i p (tick s).

(** ** The table of processes *)

(** What is known of the child in an entry of the table: it runs, it is being stopped, or it has
    been sent the signal that ends it. *)
Inductive phase := Running | Stopping | Ended.

Section table.
(** The size of the table, what each entry executes, and the signal that ends a child. *)
Variables (n : nat) (av : nat -> list string) (ender : signal).

Definition undisturbed (c : child) : Prop := SIGTERM ∉ c_signals c /\ SIGKILL ∉ c_signals c.
Definition slot_ok (ph : phase) (i : nat) (c : child) : Prop :=
  match ph with Running => c_argv c = av i /\ undisturbed c | Stopping => True | Ended => ender ∈ c_signals c end.

(** What may go to the whole group, when the handler clears an entry between its test and its use:
    a request to reconnect, and for a daemon that ends its children with SIGTERM that signal too. *)
Definition to_group (sig : signal) : Prop := sig = SIGUSR1 \/ (sig = SIGTERM /\ ender = SIGTERM).

(** [ex]: a child that has not been stored in the table yet. *)
Record inv (ph : nat -> phase) (ex : option Z) (s : sys) : Prop := {
  i_len : length (pids s) = n;
  i_slot i p c : pids s !! i = Some p -> p <> 0%Z -> kids s !! p = Some c -> c_index c = i /\ slot_ok (ph i) i c;
  i_kids p c : kids s !! p = Some c -> (0 < p)%Z /\ (ender ∈ c_signals c \/ pids s !! c_index c = Some p \/ ex = Some p);
  i_stale i p : pids s !! i = Some p -> p <> 0%Z ->
    (0 < p)%Z /\ (kids s !! p = None -> exists c, (p, c) ∈ reaped s /\ c_index c = i /\ (ph i = Running -> c_argv c = av i /\ undisturbed c));
  i_run i : i < n -> ph i = Running -> pids s !! i = Some 0%Z -> exists p c, (p, c) ∈ reaped s /\ c_index c = i /\ c_argv c = av i /\ undisturbed c;
  i_stray p sig : (p, sig) ∈ stray s -> (p ∈ (reaped s).*1 /\ (0 < p)%Z) \/ (p = 0%Z /\ to_group sig);
  i_forks k : forked s <= k -> (0 < forks s k)%Z /\ kids s !! forks s k = None /\ forks s k ∉ pids s;
  i_new k k' : forked s <= k -> forked s <= k' -> forks s k = forks s k' -> k = k';
}.

(** [p] is or has been the child of entry [i]. *)
Definition mine (i : nat) (p : Z) (s : sys) : Prop :=
  (0 < p)%Z /\ (forall c, kids s !! p = Some c -> c_index c = i) /\ (kids s !! p = None -> p ∈ (reaped s).*1).

Lemma inv_mine ph ex s i p : inv ph ex s -> pids s !! i = Some p -> p <> 0%Z -> mine i p s.
Proof.
  intros Hi Hp Hne. destruct (i_stale _ _ _ Hi i p Hp Hne) as [Hpos Hst]. split; [done|]. split; [intros c Hc; by apply (i_slot _ _ _ Hi i p c)|].
  intros Hn. destruct (Hst Hn) as (c & Hc & _). apply list_elem_of_fmap. by exists (p, c).
Qed.

Lemma inv_weaken ph ph' ex s : inv ph ex s ->
  (forall i p c, pids s !! i = Some p -> p <> 0%Z -> kids s !! p = Some c -> slot_ok (ph i) i c -> slot_ok (ph' i) i c) ->
  (forall i, i < n -> ph' i = Running -> ph i = Running) -> inv ph' ex s.
Proof.
  intros [] H1 H2. constructor; try done.
  - intros i p c Hp Hne Hc. destruct (i_slot0 i p c Hp Hne Hc) as [Hi Hs]. split; [done|]. by eapply H1.
  - intros i p Hp Hne. destruct (i_stale0 i p Hp Hne) as [Hpos Hst]. split; [done|]. intros Hn. destruct (Hst Hn) as (c & Hc & Hi & Hav).
    exists c. split; [done|]. split; [done|]. intros Hr. apply Hav, H2; [|done]. rewrite <- i_len0. by eapply lookup_lt_Some.
  - intros i Hi Hph. by apply i_run0; [|apply H2].
Qed.

(** *** Reaping *)

Lemma record_exit_length p l : length (record_exit p l) = length l.
Proof. induction l as [|q l IH]; [done|]. cbn [record_exit]. destruct (_ && _); simpl; lia. Qed.

Lemma record_exit_lookup p l i q : record_exit p l !! i = Some q -> l !! i = Some q \/ (l !! i = Some p /\ q = 0%Z /\ p <> 0%Z).
Proof.
  revert i. induction l as [|x l IH]; intros i; [done|]. cbn [record_exit]. destruct (_ && _) eqn:E.
  - apply andb_true_iff in E as [E1 E2]. apply negb_true_iff, Z.eqb_neq in E1. apply Z.eqb_eq in E2 as ->. destruct i; simpl; [|by left].
    intros [= <-]. by right.
  - destruct i; simpl; [by left|]. apply IH.
Qed.

Lemma record_exit_other p l i q : l !! i = Some q -> q <> p -> record_exit p l !! i = Some q.
Proof.
  revert i. induction l as [|x l IH]; intros i; [done|]. cbn [record_exit]. destruct (_ && _) eqn:E; destruct i; simpl; try done; [|apply IH].
  intros [= ->] Hne. apply andb_true_iff in E as [_ E2]. apply Z.eqb_eq in E2. done.
Qed.

(** Two entries are never the same child. *)
Lemma inv_slots_differ ph ex s i j p c : inv ph ex s -> pids s !! i = Some p -> pids s !! j = Some p -> p <> 0%Z -> kids s !! p = Some c -> i = j.
Proof. intros Hi H1 H2 Hne Hc. destruct (i_slot _ _ _ Hi i p c H1 Hne Hc), (i_slot _ _ _ Hi j p c H2 Hne Hc). congruence. Qed.

Lemma reap_one_inv ph ex s p : inv ph ex s -> inv ph ex (reap_one true s p).
Proof.
  intros Hi. unfold reap_one. destruct (kids s !! p) as [c|] eqn:Ec; [|done]. destruct (i_kids _ _ _ Hi p c Ec) as [Hpos _]. constructor; cbn [pids kids reaped stray forks forked].
  - rewrite record_exit_length. apply (i_len _ _ _ Hi).
  - intros i q d Hq Hne Hd. apply lookup_delete_Some in Hd as [Hne2 Hd]. apply record_exit_lookup in Hq as [Hq|(_ & -> & _)]; [|done]. by apply (i_slot _ _ _ Hi i q).
  - intros q d Hd. apply lookup_delete_Some in Hd as [Hne Hd]. destruct (i_kids _ _ _ Hi q d Hd) as [Hq Hor]. split; [done|].
    destruct Hor as [H|[H|H]]; [auto| |auto]. right. left. apply record_exit_other; [done|congruence].
  - intros i q Hq Hne. apply record_exit_lookup in Hq as [Hq|(_ & -> & _)]; [|done]. destruct (i_stale _ _ _ Hi i q Hq Hne) as [Hq1 Hq2]. split; [done|].
    intros Hd. destruct (decide (q = p)) as [->|Hqp].
    + exists c. split; [apply elem_of_app; right; by apply list_elem_of_singleton|]. destruct (i_slot _ _ _ Hi i p c Hq Hne Ec) as [Hidx Hs].
      split; [done|]. intros Hr. rewrite Hr in Hs. by destruct Hs.
    + rewrite lookup_delete_ne in Hd by done. destruct (Hq2 Hd) as (d & Hin & Hd'). exists d. split; [apply elem_of_app; by left|done].
  - intros i Hlt Hph H0. apply record_exit_lookup in H0 as [H0|(Hp & _ & Hne)].
    + destruct (i_run _ _ _ Hi i Hlt Hph H0) as (q & d & Hin & Hd). exists q, d. split; [|done]. apply elem_of_app. by left.
    + exists p, c. split; [apply elem_of_app; right; by apply list_elem_of_singleton|]. destruct (i_slot _ _ _ Hi i p c Hp Hne Ec) as [Hidx Hs].
      rewrite Hph in Hs. by destruct Hs.
  - intros q sig Hin. destruct (i_stray _ _ _ Hi q sig Hin) as [[H1 H2]|H]; [left|by right]. split; [|done]. rewrite fmap_app. apply elem_of_app. by left.
  - intros k Hk. destruct (i_forks _ _ _ Hi k Hk) as (H1 & H2 & H3). split; [done|]. split; [by rewrite lookup_delete_None; right|].
    intros Hin. apply H3. apply list_elem_of_lookup in Hin as [i Hin]. apply record_exit_lookup in Hin as [Hin|(_ & H0 & _)]; [by eapply list_elem_of_lookup_2|lia].
  - apply (i_new _ _ _ Hi).
Qed.

Lemma reap_inv ph ex s ends : inv ph ex s -> inv ph ex (reap_children true ends s).
Proof. revert s. unfold reap_children. induction ends as [|p ends IH]; intros s Hi; [done|]. cbn [foldl]. by apply IH, reap_one_inv. Qed.

Lemma tick_inv ph ex s : inv ph ex s -> inv ph ex (tick s).
Proof. intros Hi. unfold tick. destruct (irqs s); [done|]. apply reap_inv. by destruct Hi; constructor. Qed.

(** What reaping leaves. *)
Record after (s s' : sys) : Prop := {
  a_kids p c : kids s' !! p = Some c -> kids s !! p = Some c;
  a_gone p c : kids s !! p = Some c -> kids s' !! p = None -> (p, c) ∈ reaped s';
  a_reaped x : x ∈ reaped s -> x ∈ reaped s';
  a_pids i q : pids s' !! i = Some q -> pids s !! i = Some q \/ q = 0%Z;
  a_len : length (pids s') = length (pids s);
  a_forks : forks s' = forks s /\ forked s' = forked s;
}.

Lemma after_refl s : after s s.
Proof. constructor; try done; auto. intros p c H1 H2. congruence. Qed.

Lemma reap_one_after s p : after s (reap_one true s p).
Proof.
  unfold reap_one. destruct (kids s !! p) as [c|] eqn:Ec; [|apply after_refl]. constructor; cbn [pids kids reaped stray forks forked]; try done.
  - intros q d Hd. by apply lookup_delete_Some in Hd as [_ Hd].
  - intros q d Hd Hn. destruct (decide (p = q)) as [->|Hne]; [|rewrite lookup_delete_ne in Hn by done; congruence].
    assert (d = c) as -> by congruence. apply elem_of_app. right. by apply list_elem_of_singleton.
  - intros x Hx. apply elem_of_app. by left.
  - intros i q Hq. apply record_exit_lookup in Hq as [Hq|(_ & -> & _)]; auto.
  - apply record_exit_length.
Qed.

Lemma after_trans s1 s2 s3 : after s1 s2 -> after s2 s3 -> after s1 s3.
Proof.
  intros H1 H2. constructor.
  - intros p c H. by apply (a_kids _ _ H1), (a_kids _ _ H2).
  - intros p c H Hn. destruct (kids s2 !! p) as [d|] eqn:E.
    + pose proof (a_kids _ _ H1 p d E). assert (d = c) as -> by congruence. by apply (a_gone _ _ H2).
    + by apply (a_reaped _ _ H2), (a_gone _ _ H1).
  - intros x H. by apply (a_reaped _ _ H2), (a_reaped _ _ H1).
  - intros i q H. destruct (a_pids _ _ H2 i q H) as [H'| ->]; [|auto]. by apply (a_pids _ _ H1).
  - rewrite (a_len _ _ H2). apply (a_len _ _ H1).
  - destruct (a_forks _ _ H1), (a_forks _ _ H2). split; congruence.
Qed.

Lemma tick_after s : after s (tick s).
Proof.
  unfold tick. destruct (irqs s) as [|ends rest]; [apply after_refl|]. unfold reap_children.
  assert (forall s1, after s s1 -> after s (foldl (reap_one true) s1 ends)) as H.
  { induction ends as [|p ends IH]; intros s1 H1; [done|]. cbn [foldl]. apply IH. eapply after_trans; [done|apply reap_one_after]. }
  apply H. constructor; try done; auto. cbn. intros. congruence.
Qed.

Lemma mine_after i p s s' : after s s' -> mine i p s -> mine i p s'.
Proof.
  intros Ha (Hp & Hk & Hr). split; [done|]. split; [intros c Hc; by apply Hk, (a_kids _ _ Ha)|]. intros Hn.
  destruct (kids s !! p) as [c|] eqn:E; [apply list_elem_of_fmap; exists (p, c); split; [done|]; by apply (a_gone _ _ Ha)|]. specialize (Hr eq_refl).
  apply list_elem_of_fmap in Hr as ([q e] & -> & Hin). apply list_elem_of_fmap. exists (q, e). split; [done|]. by apply (a_reaped _ _ Ha).
Qed.

(** *** Signals *)

Definition signalled (c : child) (sig : signal) : child := mk_child (c_index c) (c_argv c) (c_signals c ++ [sig]).
Definition upd (ph : nat -> phase) (i : nat) (x : phase) : nat -> phase := fun j => if j =? i then x else ph j.

Lemma kill_inv ph ph' ex s i p sig : inv ph ex s -> mine i p s ->
  (forall j, j <> i -> ph' j = ph j) -> (ph' i = Running -> ph i = Running) ->
  (forall c, pids s !! i = Some p -> kids s !! p = Some c -> slot_ok (ph i) i c -> slot_ok (ph' i) i (signalled c sig)) ->
  (forall q c, pids s !! i = Some q -> q <> p -> kids s !! q = Some c -> slot_ok (ph i) i c -> slot_ok (ph' i) i c) ->
  inv ph' ex (kill p sig s).2.
Proof.
  intros Hi (Hpos & Hidx & Hst) Hj Hr Hp Hq.
  assert (forall j q, (exists c, (q, c) ∈ reaped s /\ c_index c = j /\ (ph j = Running -> c_argv c = av j /\ undisturbed c)) ->
    exists c, (q, c) ∈ reaped s /\ c_index c = j /\ (ph' j = Running -> c_argv c = av j /\ undisturbed c)) as Hrun.
  { intros j q (c & H1 & H2 & H3). exists c. split; [done|]. split; [done|]. intros H. apply H3. destruct (decide (j = i)) as [->|Hji]; [by apply Hr|by rewrite <- Hj]. }
  unfold kill. destruct (kids s !! p) as [c|] eqn:Ec; cbn [snd].
  - specialize (Hidx c eq_refl). constructor; cbn [pids kids reaped stray forks forked].
    + apply (i_len _ _ _ Hi).
    + intros j q d Hq1 Hne Hd. destruct (decide (p = q)) as [<-|Hpq].
      * rewrite lookup_insert_eq in Hd. injection Hd as <-. cbn [c_index]. destruct (i_slot _ _ _ Hi j p c Hq1 Hne Ec) as [Hcj Hs].
        split; [done|]. assert (j = i) as -> by congruence. by apply (Hp c).
      * rewrite lookup_insert_ne in Hd by done. destruct (i_slot _ _ _ Hi j q d Hq1 Hne Hd) as [Hdj Hs]. split; [done|].
        destruct (decide (j = i)) as [->|Hji]; [by apply (Hq q)|by rewrite Hj].
    + intros q d Hd. destruct (decide (p = q)) as [<-|Hpq].
      * rewrite lookup_insert_eq in Hd. injection Hd as <-. cbn [c_index c_signals]. destruct (i_kids _ _ _ Hi p c Ec) as [_ [H|H]]; split; try done.
        -- left. apply elem_of_app. by left.
        -- by right.
      * rewrite lookup_insert_ne in Hd by done. by apply (i_kids _ _ _ Hi).
    + intros j q Hq1 Hne. destruct (i_stale _ _ _ Hi j q Hq1 Hne) as [H1 H2]. split; [done|]. intros Hn.
      destruct (decide (p = q)) as [<-|Hpq]; [by rewrite lookup_insert_eq in Hn|rewrite lookup_insert_ne in Hn by done]. by apply Hrun, H2.
    + intros j Hlt Hph H0. apply (i_run _ _ _ Hi j Hlt); [|done]. destruct (decide (j = i)) as [->|Hji]; [by apply Hr|by rewrite <- Hj].
    + apply (i_stray _ _ _ Hi).
    + intros k Hk. destruct (i_forks _ _ _ Hi k Hk) as (H1 & H2 & H3). split; [done|]. split; [|done]. rewrite lookup_insert_ne; [done|]. intros ->. congruence.
    + apply (i_new _ _ _ Hi).
  - constructor; cbn [pids kids reaped stray forks forked]; try by destruct Hi.
    + intros j q d Hq1 Hne Hd. destruct (i_slot _ _ _ Hi j q d Hq1 Hne Hd) as [Hdj Hs]. split; [done|].
      destruct (decide (j = i)) as [->|Hji]; [|by rewrite Hj]. apply (Hq q); try done. intros ->. congruence.
    + intros j q Hq1 Hne. destruct (i_stale _ _ _ Hi j q Hq1 Hne) as [H1 H2]. split; [done|]. intros Hn. by apply Hrun, H2.
    + intros j Hlt Hph H0. apply (i_run _ _ _ Hi j Hlt); [|done]. destruct (decide (j = i)) as [->|Hji]; [by apply Hr|by rewrite <- Hj].
    + intros q sg Hin. apply elem_of_app in Hin as [Hin|Hin]; [by apply (i_stray _ _ _ Hi q sg)|]. apply list_elem_of_singleton in Hin as [= -> ->].
      left. split; [by apply Hst|done].
Qed.

(** A signal to the whole group. *)
Lemma kill_group ph ex s sig : inv ph ex s -> to_group sig -> inv ph ex (kill 0 sig s).2.
Proof.
  intros Hi Hg. unfold kill. destruct (kids s !! 0%Z) as [c|] eqn:Ec; [destruct (i_kids _ _ _ Hi 0%Z c Ec); lia|].
  cbn [snd]. constructor; cbn [pids kids reaped stray forks forked]; try by destruct Hi.
  intros q sg Hin. apply elem_of_app in Hin as [Hin|Hin]; [by apply (i_stray _ _ _ Hi q sg)|].
  apply list_elem_of_singleton in Hin as [= -> ->]. by right.
Qed.

Lemma upd_same ph i x : upd ph i x i = x.
Proof. unfold upd. by rewrite Nat.eqb_refl. Qed.
Lemma upd_other ph i x j : j <> i -> upd ph i x j = ph j.
Proof. intros H. unfold upd. by rewrite (proj2 (Nat.eqb_neq _ _) H). Qed.

(** An entry that is being stopped. *)
Lemma kill_stopping ph ex s i p sig : inv ph ex s -> mine i p s -> inv (upd ph i Stopping) ex (kill p sig s).2.
Proof.
  intros Hi Hm. apply (kill_inv ph _ ex s i p sig Hi Hm); rewrite ?upd_same; try done. intros j Hj. by apply upd_other.
Qed.

Lemma kill_ended ph ex s i p : inv ph ex s -> mine i p s -> (forall q, pids s !! i = Some q -> q = 0%Z \/ q = p) ->
  inv (upd ph i Ended) ex (kill p ender s).2.
Proof.
  intros Hi Hm Hz. apply (kill_inv ph _ ex s i p ender Hi Hm); rewrite ?upd_same; try done.
  - intros j Hj. by apply upd_other.
  - intros c _ _ _. simpl. apply elem_of_app. right. by apply list_elem_of_singleton.
  - intros q c Hq Hne Hc _. destruct (Hz q Hq) as [->|]; [|done]. destruct (i_kids _ _ _ Hi 0%Z c Hc). lia.
Qed.

Lemma kill_fields p sig s : pids (kill p sig s).2 = pids s /\ forks (kill p sig s).2 = forks s /\ forked (kill p sig s).2 = forked s /\ reaped (kill p sig s).2 = reaped s.
Proof. unfold kill. by destruct (kids s !! p). Qed.

Lemma set_zero ph ex s i : inv ph ex s -> (ph i = Ended \/ pids s !! i = Some 0%Z) -> inv (upd ph i Stopping) ex (set_pid i 0 s).
Proof.
  intros Hi Hz. unfold set_pid, set_pids.
  assert (forall j q, <[i := 0%Z]> (pids s) !! j = Some q -> q <> 0%Z -> j <> i /\ pids s !! j = Some q) as Hl.
  { intros j q Hq Hne. destruct (decide (j = i)) as [->|Hji].
    - destruct (decide (i < length (pids s))); [rewrite list_lookup_insert_eq in Hq by done; congruence|].
      rewrite list_insert_ge in Hq by lia. apply lookup_lt_Some in Hq. lia.
    - by rewrite list_lookup_insert_ne in Hq by done. }
  constructor; cbn [pids kids reaped stray forks forked]; try by destruct Hi.
  - rewrite length_insert. apply (i_len _ _ _ Hi).
  - intros j q c Hq Hne Hc. destruct (Hl j q Hq Hne) as [Hji Hq']. rewrite upd_other by done. by apply (i_slot _ _ _ Hi j q).
  - intros q c Hc. destruct (i_kids _ _ _ Hi q c Hc) as [Hq Hor]. split; [done|]. destruct Hor as [H|[H|H]]; [auto| |auto].
    destruct (decide (c_index c = i)) as [Hci|Hci]; [|right; left; by rewrite list_lookup_insert_ne]. rewrite Hci in H.
    destruct Hz as [Hz|Hz]; [|assert (q = 0%Z) by congruence; lia]. destruct (i_slot _ _ _ Hi i q c H ltac:(lia) Hc) as [_ Hs]. rewrite Hz in Hs. by left.
  - intros j q Hq Hne. destruct (Hl j q Hq Hne) as [Hji Hq']. rewrite upd_other by done. by apply (i_stale _ _ _ Hi j q).
  - intros j Hlt Hph H0. assert (j <> i) as Hji by (intros ->; by rewrite upd_same in Hph). rewrite upd_other in Hph by done.
    rewrite list_lookup_insert_ne in H0 by done. by apply (i_run _ _ _ Hi j).
  - intros k Hk. destruct (i_forks _ _ _ Hi k Hk) as (H1 & H2 & H3). split; [done|]. split; [done|]. intros Hin.
    apply list_elem_of_lookup in Hin as [j Hin]. destruct (Hl j _ Hin ltac:(lia)) as [_ Hin']. apply H3. by eapply list_elem_of_lookup_2.
Qed.

(** *** Starting *)

Lemma fork_inv ph s i : inv ph None s -> i < n -> pids s !! i = Some 0%Z -> inv (upd ph i Running) None (fork_store i (av i) s).
Proof.
  intros Hi Hlt H0. unfold fork_store. set (p := forks s (forked s)). cbn zeta.
  destruct (i_forks _ _ _ Hi (forked s) ltac:(lia)) as (Hp & Hk & Hnin). fold p in Hp, Hk, Hnin. rewrite (proj2 (Z.ltb_ge p 0)) by lia.
  set (s1 := mk_sys _ _ _ _ _ _ _).
  assert (forall k, S (forked s) <= k -> forks s k <> p) as Hpk.
  { intros k Hk' E. pose proof (i_new _ _ _ Hi k (forked s) ltac:(lia) ltac:(lia) E). lia. }
  assert (inv (upd ph i Stopping) (Some p) s1) as H1.
  { assert (inv (upd ph i Stopping) None s) as Hi' by
      (eapply inv_weaken; [exact Hi| |]; [intros j q c _ _ _ Hs; destruct (decide (j = i)) as [->|]; [by rewrite upd_same|by rewrite upd_other]|
         intros j _ Hj; destruct (decide (j = i)) as [->|]; [by rewrite upd_same in Hj|by rewrite upd_other in Hj]]).
    constructor; cbn [s1 pids kids reaped stray forks forked]; try by destruct Hi'.
    - intros j q c Hq Hne Hc. rewrite lookup_insert_ne in Hc by (intros ->; apply Hnin; by eapply list_elem_of_lookup_2). by apply (i_slot _ _ _ Hi' j q).
    - intros q c Hc. destruct (decide (p = q)) as [<-|Hpq]; [auto|]. rewrite lookup_insert_ne in Hc by done. destruct (i_kids _ _ _ Hi' q c Hc) as [Hq Hor].
      split; [done|]. naive_solver.
    - intros j q Hq Hne. destruct (i_stale _ _ _ Hi' j q Hq Hne) as [Hq1 Hq2]. split; [done|]. intros Hn. apply Hq2. by apply lookup_insert_None in Hn as [? _].
    - intros k Hk'. destruct (i_forks _ _ _ Hi k ltac:(lia)) as (Ha & Hb & Hc). split; [done|]. split; [|done]. rewrite lookup_insert_ne; [done|]. intros E. by apply (Hpk k).
    - intros k k' Hk1 Hk2. apply (i_new _ _ _ Hi); lia. }
  pose proof (tick_inv _ _ _ H1) as H2. pose proof (tick_after s1) as Ha.
  assert (pids (tick s1) !! i = Some 0%Z) as Hz.
  { destruct (pids (tick s1) !! i) as [q|] eqn:E; [|apply lookup_ge_None in E; rewrite (i_len _ _ _ H2) in E; lia].
    destruct (a_pids _ _ Ha i q E) as [H| ->]; [|done]. change (pids s1) with (pids s) in H. congruence. }
  assert (forall c, kids (tick s1) !! p = Some c -> c = mk_child i (av i) []) as Hc.
  { intros c Hc. apply (a_kids _ _ Ha) in Hc. cbn [s1 kids] in Hc. rewrite lookup_insert_eq in Hc. congruence. }
  assert (kids (tick s1) !! p = None -> (p, mk_child i (av i) []) ∈ reaped (tick s1)) as Hr.
  { intros Hn. apply (a_gone _ _ Ha p (mk_child i (av i) [])); [|done]. cbn [s1 kids]. apply lookup_insert_eq. }
  assert (p ∉ pids (tick s1)) as Hnin1.
  { intros Hin. apply list_elem_of_lookup in Hin as [j Hj]. destruct (a_pids _ _ Ha j p Hj) as [H|]; [|lia]. apply Hnin. by eapply list_elem_of_lookup_2. }
  destruct (a_forks _ _ Ha) as [Hf1 Hf2]. cbn [s1 forks forked] in Hf1, Hf2.
  assert (forall j q, <[i := p]> (pids (tick s1)) !! j = Some q -> (j = i /\ q = p) \/ (j <> i /\ pids (tick s1) !! j = Some q)) as Hl.
  { intros j q Hq. destruct (decide (j = i)) as [->|Hji]; [left; rewrite list_lookup_insert_eq in Hq by (by eapply lookup_lt_Some); split; congruence|].
    right. by rewrite list_lookup_insert_ne in Hq by done. }
  unfold set_pid, set_pids. constructor; cbn [pids kids reaped stray forks forked]; try by destruct H2.
  - rewrite length_insert. apply (i_len _ _ _ H2).
  - intros j q c Hq Hne Hq2. destruct (Hl j q Hq) as [[-> ->]|[Hji Hq']].
    + rewrite upd_same. rewrite (Hc c Hq2). split; [done|]. split; [done|]. split; apply not_elem_of_nil.
    + rewrite upd_other by done. destruct (i_slot _ _ _ H2 j q c Hq' Hne Hq2) as [Hcj Hs]. by rewrite upd_other in Hs.
  - intros q c Hq. destruct (i_kids _ _ _ H2 q c Hq) as [Hpos Hor]. split; [done|]. destruct Hor as [H|[H|H]]; [auto| |].
    + right. left. destruct (decide (c_index c = i)) as [Hci|Hci]; [rewrite Hci in H; assert (q = 0%Z) by congruence; lia|by rewrite list_lookup_insert_ne].
    + injection H as <-. right. left. rewrite (Hc c Hq). simpl. apply list_lookup_insert_eq. by eapply lookup_lt_Some.
  - intros j q Hq Hne. destruct (Hl j q Hq) as [[-> ->]|[Hji Hq']].
    + split; [done|]. intros Hn. exists (mk_child i (av i) []). split; [by apply Hr|]. split; [done|]. split; [done|]. split; apply not_elem_of_nil.
    + destruct (i_stale _ _ _ H2 j q Hq' Hne) as [Hs1 Hs2]. split; [done|]. intros Hn. rewrite upd_other in * by done. by apply Hs2.
  - intros j Hj Hph Hq. destruct (Hl j 0%Z Hq) as [[-> Hp0]|[Hji Hq']]; [lia|]. rewrite upd_other in Hph by done. apply (i_run _ _ _ H2 j); [done|by rewrite upd_other|done].
  - intros k Hk'. destruct (i_forks _ _ _ H2 k Hk') as (Hq1 & Hq2 & Hq3). split; [done|]. split; [done|]. intros Hin.
    apply list_elem_of_lookup in Hin as [j Hin]. destruct (Hl j _ Hin) as [[-> E]|[Hji Hq']].
    + rewrite Hf1 in E. rewrite Hf2 in Hk'. by apply (Hpk k).
    + apply Hq3. by eapply list_elem_of_lookup_2.
Qed.

(** *** Stopping *)

Definition stopping (ph : nat -> phase) (i : nat) : nat -> phase := upd ph i Stopping.

Lemma stopping_weaken ph ex s i : inv ph ex s -> inv (stopping ph i) ex s.
Proof.
  intros Hi. eapply inv_weaken; [exact Hi| |].
  - intros j q c _ _ _ Hs. unfold stopping. destruct (decide (j = i)) as [->|]; [by rewrite upd_same|by rewrite upd_other].
  - intros j _ Hj. unfold stopping in Hj. destruct (decide (j = i)) as [->|]; [by rewrite upd_same in Hj|by rewrite upd_other in Hj].
Qed.

Lemma upd_upd ph i x y j : upd (upd ph i x) i y j = upd ph i y j.
Proof. unfold upd. by destruct (j =? i). Qed.
Lemma inv_ext ph ph' ex s : (forall j, ph j = ph' j) -> inv ph ex s -> inv ph' ex s.
Proof. intros E Hi. eapply inv_weaken; [exact Hi| |]; intros j; by rewrite E. Qed.
#[local] Hint Resolve tick_inv : core.

(** The last signal, and the entry cleared. *)
Lemma finish_stop ph ex s i p : inv ph ex s -> mine i p s -> (forall q, pids s !! i = Some q -> q = 0%Z \/ q = p) -> i < n ->
  let s' := set_pid i 0 (tick (kill p ender s).2) in inv (stopping ph i) ex s' /\ pids s' !! i = Some 0%Z.
Proof.
  intros Hi Hm Hz Hlt. cbn zeta. pose proof (tick_inv _ _ _ (kill_ended ph ex s i p Hi Hm Hz)) as H. split.
  - apply (inv_ext (upd (upd ph i Ended) i Stopping)); [intros; apply upd_upd|]. apply set_zero; [done|]. left. apply upd_same.
  - simpl. apply list_lookup_insert_eq. by rewrite (i_len _ _ _ H).
Qed.

Lemma pid_lookup ph ex s i : inv ph ex s -> i < n -> pids s !! i = Some (pid i s).
Proof.
  intros Hi Hlt. unfold pid. destruct (pids s !! i) eqn:E; [done|]. apply lookup_ge_None in E. rewrite (i_len _ _ _ Hi) in E. lia.
Qed.

Lemma tick_slot ph ex s i p : inv ph ex s -> i < n -> pid i s = p -> forall q, pids (tick s) !! i = Some q -> q = 0%Z \/ q = p.
Proof.
  intros Hi Hlt Hp q Hq. destruct (a_pids _ _ (tick_after s) i q Hq) as [H| ->]; [|by left]. rewrite (pid_lookup _ _ _ _ Hi Hlt) in H. right. congruence.
Qed.
End table.

(** A change of what the entries execute, while none of them runs. *)
Lemma inv_idle n av av' ender ph ex s : inv n av ender ph ex s -> (forall i, i < n -> pids s !! i = Some 0%Z) ->
  inv n av' ender (fun _ => Stopping) ex s.
Proof.
  intros Hi Hz. assert (forall i p, pids s !! i = Some p -> p = 0%Z) as H0.
  { intros i p Hp. rewrite Hz in Hp by (rewrite <- (i_len _ _ _ _ _ _ Hi); by eapply lookup_lt_Some). congruence. }
  destruct Hi. constructor; try done.
  - intros i p c Hp Hne. by rewrite (H0 i p Hp) in Hne.
  - intros i p Hp Hne. by rewrite (H0 i p Hp) in Hne.
Qed.

(** *** Restarting all entries *)

Definition keeps_zero (s s' : sys) : Prop := forall i, pids s !! i = Some 0%Z -> pids s' !! i = Some 0%Z.

Lemma tick_keeps_zero s : keeps_zero s (tick s).
Proof.
  intros i Hz. destruct (pids (tick s) !! i) as [q|] eqn:E.
  - destruct (a_pids _ _ (tick_after s) i q E) as [H| ->]; [congruence|done].
  - apply lookup_ge_None in E. rewrite (a_len _ _ (tick_after s)) in E. apply lookup_lt_Some in Hz. lia.
Qed.

Lemma kill_keeps_zero p sig s : keeps_zero s (kill p sig s).2.
Proof. intros i Hz. by rewrite (proj1 (kill_fields p sig s)). Qed.

Lemma set_keeps_zero i s : keeps_zero s (set_pid i 0 s).
Proof.
  intros j Hz. simpl. destruct (decide (i = j)) as [->|]; [apply list_lookup_insert_eq; by eapply lookup_lt_Some|by rewrite list_lookup_insert_ne].
Qed.

Lemma keeps_zero_trans s1 s2 s3 : keeps_zero s1 s2 -> keeps_zero s2 s3 -> keeps_zero s1 s3.
Proof. intros H1 H2 i Hz. by apply H2, H1. Qed.
Create HintDb zero.
#[export] Hint Resolve tick_keeps_zero kill_keeps_zero set_keeps_zero : zero.

Section tables.
Variables (n : nat) (av : nat -> list string) (ender : signal).

(** The table when all entries are restarted, or stopped. *)
Definition table_ok (act : bool) (s : sys) : Prop :=
  inv n av ender (fun _ => if act then Running else Stopping) None s /\ (act = false -> forall i, i < n -> pids s !! i = Some 0%Z).

Lemma table_tick act s : table_ok act s -> table_ok act (tick s).
Proof. intros [H1 H2]. split; [by apply tick_inv|]. intros Ha i Hlt. by apply tick_keeps_zero, H2. Qed.

Lemma table_usr1 act s i : table_ok act s -> i < n -> table_ok act (kill (pid i s) SIGUSR1 (tick s)).2.
Proof.
  intros [H1 H2] Hlt. pose proof (pid_lookup _ _ _ _ _ _ _ H1 Hlt) as Hp. split.
  - destruct (decide (pid i s = 0%Z)) as [E|Hne]; [rewrite E; apply kill_group; [by apply tick_inv|by left]|].
    apply (kill_inv n av ender (fun _ => if act then Running else Stopping) _ None (tick s) i (pid i s) SIGUSR1); try done.
    + by apply tick_inv.
    + eapply mine_after; [apply tick_after|]. by eapply inv_mine.
    + intros c _ _. destruct act; [|done]. intros [Hav [Hu1 Hu2]]. split; [done|]. split; simpl; rewrite elem_of_app, list_elem_of_singleton; naive_solver.
  - intros Ha j Hj. by apply kill_keeps_zero, tick_keeps_zero, H2.
Qed.

(** What this says of the children. *)
Lemma table_children act s : table_ok act s ->
  (forall p c, kids s !! p = Some c ->
     ender ∈ c_signals c \/
     (act = true /\ pids s !! c_index c = Some p /\ c_argv c = av (c_index c) /\ undisturbed c)) /\
  (act = true -> forall i, i < n ->
     (exists p c, kids s !! p = Some c /\ c_index c = i /\ undisturbed c) \/
     (exists p c, (p, c) ∈ reaped s /\ c_index c = i /\ c_argv c = av i /\ undisturbed c)) /\
  (forall p sig, (p, sig) ∈ stray s -> p ∈ (reaped s).*1 \/ (p = 0%Z /\ to_group ender sig)).
Proof.
  intros [Hi Hz]. split; [|split].
  - intros p c Hc. destruct (i_kids _ _ _ _ _ _ Hi p c Hc) as [Hpos [H|[H|H]]]; [by left| |done]. right.
    destruct (i_slot _ _ _ _ _ _ Hi _ _ _ H ltac:(lia) Hc) as [_ Hs]. destruct act; [by destruct Hs|].
    pose proof (lookup_lt_Some _ _ _ H) as Hlt. rewrite (i_len _ _ _ _ _ _ Hi) in Hlt. rewrite (Hz eq_refl _ Hlt) in H. simplify_eq. lia.
  - intros -> i Hlt. pose proof (pid_lookup _ _ _ _ _ _ _ Hi Hlt) as Hp. destruct (decide (pid i s = 0%Z)) as [E|Hne].
    + right. rewrite E in Hp. by apply (i_run _ _ _ _ _ _ Hi i).
    + destruct (kids s !! pid i s) as [c|] eqn:Ec.
      * left. exists (pid i s), c. destruct (i_slot _ _ _ _ _ _ Hi _ _ _ Hp Hne Ec) as [Hidx [_ Hu]]. done.
      * right. destruct (i_stale _ _ _ _ _ _ Hi i _ Hp Hne) as [_ Hst]. destruct (Hst Ec) as (c & Hin & Hidx & Hav). exists (pid i s), c. split; [done|]. split; [done|]. by apply Hav.
  - intros p sig Hin. destruct (i_stray _ _ _ _ _ _ Hi p sig Hin) as [[H _]|H]; [by left|by right].
Qed.
End tables.

Section restart.
Variables (n : nat) (av : nat -> list string) (ender : signal) (stop : nat -> sys -> sys).
Hypothesis stop_inv : forall ph ex s i, inv n av ender ph ex s -> i < n -> inv n av ender (stopping ph i) ex (stop i s) /\ pids (stop i s) !! i = Some 0%Z.
Hypothesis stop_zero : forall i s, keeps_zero s (stop i s).

(** The body of the loops that restart the processes. *)
Definition restart (act : bool) (s : sys) (i : nat) : sys :=
  let s := stop i (tick s) in if act then fork_store i (av i) (tick s) else s.

Lemma restart_inv (act : bool) ph s i : inv n av ender ph None s -> i < n ->
  inv n av ender (upd ph i (if act then Running else Stopping)) None (restart act s i) /\
  (act = false -> pids (restart act s i) !! i = Some 0%Z /\ keeps_zero s (restart act s i)).
Proof.
  intros Hi Hlt. unfold restart. destruct (stop_inv ph None (tick s) i (tick_inv _ _ _ _ _ _ Hi) Hlt) as [H1 H2]. destruct act.
  - split; [|done]. eapply inv_ext; [intros j; apply (upd_upd ph i Stopping)|].
    apply fork_inv; [by apply tick_inv|done|by apply tick_keeps_zero].
  - split; [done|]. intros _. split; [done|]. eapply keeps_zero_trans; [apply tick_keeps_zero|apply stop_zero].
Qed.

Lemma restart_all (act : bool) s ph k : inv n av ender ph None s -> k <= n ->
  let s' := foldl (restart act) s (seq 0 k) in
  inv n av ender (fun j => if j <? k then (if act then Running else Stopping) else ph j) None s' /\
  (act = false -> forall i, i < k -> pids s' !! i = Some 0%Z).
Proof.
  intros Hi. cbn zeta. induction k as [|k IH]; intros Hk; [split; [eapply inv_ext; [|exact Hi]; done|intros; lia]|].
  destruct (IH ltac:(lia)) as [H1 H2]. rewrite seq_S, foldl_app. cbn [Nat.add foldl].
  destruct (restart_inv act _ _ k H1 ltac:(lia)) as [H3 H4]. split.
  - eapply inv_ext; [|exact H3]. intros j. unfold upd. destruct (Nat.eqb_spec j k) as [->|Hne].
    + by rewrite (proj2 (Nat.ltb_lt k (S k))) by lia.
    + destruct (Nat.ltb_spec j k), (Nat.ltb_spec j (S k)); (done || lia).
  - intros Ha i Hlt. destruct (H4 Ha) as [Hz Hkeep]. destruct (decide (i = k)) as [->|]; [done|]. apply Hkeep, H2; [done|lia].
Qed.

Lemma restarted act ph s : inv n av ender ph None s -> table_ok n av ender act (foldl (restart act) s (seq 0 n)).
Proof.
  intros Hi. destruct (restart_all act s ph n Hi ltac:(lia)) as [H1 H2]. split; [|done].
  eapply inv_weaken; [exact H1| |].
  - intros i p c Hp _ _. apply lookup_lt_Some in Hp. rewrite (i_len _ _ _ _ _ _ H1) in Hp. cbv beta. by rewrite (proj2 (Nat.ltb_lt i n)).
  - intros i Hlt. cbv beta. by rewrite (proj2 (Nat.ltb_lt i n)).
Qed.

End restart.

(** The state of a daemon that has just been started. *)
Record fresh (n : nat) (s : sys) : Prop := {
  f_pids : pids s = replicate n 0%Z;
  f_kids : kids s = ∅;
  f_stray : stray s = [];
  f_forks k : (0 < forks s k)%Z;
  f_new k k' : forks s k = forks s k' -> k = k';
}.

Lemma fresh_inv n av ender s : fresh n s -> inv n av ender (fun _ => Stopping) None s.
Proof.
  intros [Hp Hk Hs Hf Hn]. constructor; rewrite ?Hp, ?Hk, ?Hs; try done.
  - apply length_replicate.
  - intros i p Hl. by apply lookup_replicate in Hl as [-> _].
  - intros p sig Hin. by apply elem_of_nil in Hin.
  - intros k _. split; [done|]. split; [done|]. intros Hin. apply elem_of_replicate in Hin as [E _]. pose proof (Hf k). lia.
  - intros k k' _ _. apply Hn.
Qed.

(** Every entry is restarted: what they ran before does not matter. *)
Lemma inv_forget n av av' ender ph ex s : inv n av ender ph ex s -> inv n av' ender (fun _ => Stopping) ex s.
Proof.
  intros Hi. destruct Hi. constructor; try done.
  - intros i p c Hp Hne Hc. by destruct (i_slot0 i p c Hp Hne Hc).
  - intros i p Hp Hne. destruct (i_stale0 i p Hp Hne) as [H1 H2]. split; [done|]. intros Hn. destruct (H2 Hn) as (c & ? & ? & _). by exists c.
Qed.


(** ** Signals to other processes *)

Lemma kill_none p sig s : kids s !! p = None ->
  (kill p sig s).2 = mk_sys (pids s) (kids s) (reaped s) (stray s ++ [(p, sig)]) (irqs s) (forks s) (forked s).
Proof. intros H. unfold kill. by rewrite H. Qed.

Lemma tick_stray s : stray (tick s) = stray s.
Proof.
  unfold tick. destruct (irqs s) as [|ends rest]; [done|]. unfold reap_children.
  assert (forall s1, stray (foldl (reap_one true) s1 ends) = stray s1) as H.
  { induction ends as [|p ends IH]; intros s1; [done|]. cbn [foldl]. rewrite IH. unfold reap_one. by destruct (kids s1 !! p). }
  by rewrite H.
Qed.

Lemma tick_keeps_slot s i q : pids s !! i = Some q -> kids s !! q = None -> pids (tick s) !! i = Some q /\ kids (tick s) !! q = None.
Proof.
  intros Hp Hk. unfold tick. destruct (irqs s) as [|ends rest]; [done|]. unfold reap_children.
  assert (forall s1, pids s1 !! i = Some q -> kids s1 !! q = None -> pids (foldl (reap_one true) s1 ends) !! i = Some q /\ kids (foldl (reap_one true) s1 ends) !! q = None) as H.
  { induction ends as [|p ends IH]; intros s1 H1 H2; [done|]. cbn [foldl]. apply IH; unfold reap_one; destruct (kids s1 !! p) as [c|] eqn:E; try done; cbn [pids kids].
    - apply record_exit_other; [done|congruence].
    - by rewrite lookup_delete_None; right. }
  by apply H.
Qed.


(** *** A state for examples *)

Definition sample_sys (n : nat) (irqs : list (list Z)) : sys := mk_sys (replicate n 0%Z) ∅ [] [] irqs (fun k => (100 + Z.of_nat k)%Z) 0.

Lemma sample_fresh n irqs : fresh n (sample_sys n irqs).
Proof. constructor; try done; simpl; intros; lia. Defined.

