(* ===== verification/Ntrip.v ===== *)
(** * The NTRIP settings daemon

    [ntrip_daemon/src/ntrip_settings.c], the signal handlers of [ntrip_daemon.c] and the control
    socket of [libpiksi]'s [settings_client.c]: the daemon keeps an adapter and an NTRIP client, which
    it starts, stops and signals as its settings change.  [sleep(0.5)] is [sleep(0)].  That libsettings
    takes back a value that a notify function has refused is a hypothesis on a parameter. *)

From stdpp Require Import gmap.
From S2P Require Import Prelude Libc Getopt Children.

Definition FIFO_FILE_PATH : string := "/var/run/ntrip/fifo".
Definition processes_count : nat := 2.

Record settings := mk_settings {
  enabled : bool; debug : bool; username : string; password : string; url : string; interval : Z; rev1gga : bool;
}.

(** The arrays of arguments.  [ntrip_interval_s] has 16 bytes. *)
Definition interval_s (c : settings) : string := string_take 15 (print_d (interval c)).
Definition rev1gga_s (c : settings) : string := if rev1gga c then "y" else "n".
Definition ntrip_argv (c : settings) : list string :=
  ["ntrip_daemon"] ++ (if debug c then ["--debug"] else []) ++ ["--file"; FIFO_FILE_PATH] ++
  (if negb (bool_decide (username c = EmptyString)) && negb (bool_decide (password c = EmptyString))
   then ["--username"; username c; "--password"; password c] else []) ++
  ["--url"; url c; "--interval"; interval_s c; "--rev1gga"; rev1gga_s c].
Definition adapter_argv : list string :=
  ["endpoint_adapter"; "--name"; "ntrip_daemon"; "--framer-in"; "rtcm3"; "--file"; FIFO_FILE_PATH;
   "-p"; "ipc:///var/run/sockets/rtcm3_external.sub"].
(** [ntrip_processes]: the adapter, then the client. *)
Definition execfn (c : settings) (i : nat) : list string := if i =? 0 then adapter_argv else ntrip_argv c.

Record daemon := mk_daemon { conf : settings; initialized : bool; enabled_file : option bool; os : sys }.
Definition with_os (d : daemon) (s : sys) : daemon := mk_daemon (conf d) (initialized d) (enabled_file d) s.

Definition stop_process (i : nat) (s : sys) : sys :=
  let process_pid := pid i s in
  if (process_pid =? 0)%Z then s
  else
    let s := (kill process_pid SIGTERM (tick s)).2 in
    let s := tick s in
    let process_pid := pid i s in
    let s := tick s in
    let s := if (process_pid =? 0)%Z then s else (kill process_pid SIGKILL s).2 in
    set_pid i 0 (tick s).

Definition active (c : settings) : bool := enabled c && negb (bool_decide (url c = EmptyString)).

(** The body of the loop of [ntrip_start_processes]. *)
Definition start_process (d : daemon) (i : nat) : daemon :=
  let s := stop_process i (tick (os d)) in
  if negb (active (conf d)) then mk_daemon (conf d) (initialized d) (Some false) s
  else mk_daemon (conf d) (initialized d) (Some true) (fork_store i (execfn (conf d) i) (tick s)).
Definition start_processes (d : daemon) : daemon := foldl start_process d (seq 0 processes_count).
Definition stop_processes (s : sys) : sys := foldl (fun s i => stop_process i (tick s)) s (seq 0 processes_count).

(** Results other than SETTINGS_WR_OK *)
Inductive write_res := WR_OK | WR_MODIFY_DISABLED.

Definition notify_generic (d : daemon) : write_res :=
  if enabled (conf d) && initialized d then WR_MODIFY_DISABLED else WR_OK.
Definition notify_enable (d : daemon) : daemon := if initialized d then start_processes d else d.

(** The settings and what a write changes. *)
Inductive change :=
  | Set_enable (b : bool) | Set_debug (b : bool) | Set_username (s : string) | Set_password (s : string)
  | Set_url (s : string) | Set_interval (n : Z) | Set_rev1gga (b : bool).
Definition apply_change (x : change) (c : settings) : settings :=
  match x with
  | Set_enable b => mk_settings b (debug c) (username c) (password c) (url c) (interval c) (rev1gga c)
  | Set_debug b => mk_settings (enabled c) b (username c) (password c) (url c) (interval c) (rev1gga c)
  | Set_username s => mk_settings (enabled c) (debug c) s (password c) (url c) (interval c) (rev1gga c)
  | Set_password s => mk_settings (enabled c) (debug c) (username c) s (url c) (interval c) (rev1gga c)
  | Set_url s => mk_settings (enabled c) (debug c) (username c) (password c) s (interval c) (rev1gga c)
  | Set_interval n => mk_settings (enabled c) (debug c) (username c) (password c) (url c) n (rev1gga c)
  | Set_rev1gga b => mk_settings (enabled c) (debug c) (username c) (password c) (url c) (interval c) b
  end.
Definition set_conf (d : daemon) (c : settings) : daemon := mk_daemon c (initialized d) (enabled_file d) (os d).

(** [ntrip_reconnect]: the entry is tested, and read again for [kill]. *)
Definition reconnect (d : daemon) : bool * daemon :=
  if (pid 1 (os d) =? 0)%Z then (false, d)
  else
    let s := tick (os d) in
    let '(ok, s) := kill (pid 1 s) SIGUSR1 (tick s) in (ok, with_os d s).

Section library.
(** What the variables hold after a write that the notify function has refused, given the values
    before and after it. *)
Variable refused : settings -> settings -> settings.

(** libsettings stores the value and calls the notify function. *)
Definition write_setting (x : change) (d : daemon) : daemon :=
  let d' := set_conf d (apply_change x (conf d)) in
  match x with
  | Set_enable _ => notify_enable d'
  | _ => match notify_generic d' with WR_OK => d' | WR_MODIFY_DISABLED => set_conf d (refused (conf d) (conf d')) end
  end.

(** [ntrip_settings_init]: registering a setting writes the value of the configuration file, if it
    has one. *)
Definition settings_init (stored : list change) (c : settings) (s : sys) : daemon :=
  let d := foldl (fun d x => write_setting x d) (mk_daemon c false None s) stored in
  start_processes (mk_daemon (conf d) true (enabled_file d) (os d)).

(** ** The control socket of [settings_client.c] *)

(** [command_receive_callback] on the messages that are there *)
Definition received (msgs : list (list Z)) : Z := foldl (fun r m => match m with [b] => b | _ => r end) 0%Z msgs.
(** [control_handler]: [None] for an error; the reply, if there is one. *)
Definition control_handler (command : Z) (msgs : option (list (list Z))) (d : daemon) : option Z * daemon :=
  match msgs with
  | None => (None, d)
  | Some ms =>
      if negb (received ms =? command)%Z then (None, d)
      else let '(ok, d) := reconnect d in (Some (if ok then 1 else 0)%Z, d)
  end.

(** [ntrip_loop_terminate]; [ends]: the children that have ended when the last ones are reaped. *)
Definition loop_terminate (ends : list Z) (d : daemon) : daemon := with_os d (reap_children false ends (stop_processes (os d))).

Inductive event := Write (x : change) | Command (msgs : option (list (list Z))) | Idle.
Definition NTRIP_CONTROL_COMMAND_RECONNECT : Z := 114.
Definition step (d : daemon) (e : event) : daemon :=
  match e with
  | Write x => write_setting x d
  | Command msgs => (control_handler NTRIP_CONTROL_COMMAND_RECONNECT msgs d).2
  | Idle => with_os d (tick (os d))
  end.
Definition run (d : daemon) (es : list event) : daemon := foldl step d es.
End library.

(** ** Invariant *)

Lemma ntrip_stop_inv n av ph ex s i : inv n av SIGKILL ph ex s -> i < n ->
  inv n av SIGKILL (stopping ph i) ex (Ntrip.stop_process i s) /\ pids (Ntrip.stop_process i s) !! i = Some 0%Z.
Proof.
  intros Hi Hlt. unfold Ntrip.stop_process. destruct (Z.eqb_spec (pid i s) 0) as [E|Hne].
  { split; [by apply stopping_weaken|]. by rewrite (pid_lookup _ _ _ _ _ _ _ Hi Hlt), E. }
  set (p := pid i s) in *. pose proof (pid_lookup _ _ _ _ _ _ _ Hi Hlt) as Hp. fold p in Hp.
  pose proof (inv_mine _ _ _ _ _ _ _ _ Hi Hp Hne) as Hm.
  pose proof (kill_stopping n av SIGKILL _ _ (tick s) i p SIGTERM (tick_inv _ _ _ _ _ _ Hi) (mine_after _ _ _ _ (tick_after s) Hm)) as H1.
  set (s1 := (kill p SIGTERM (tick s)).2) in *. pose proof (tick_inv _ _ _ _ _ _ H1) as H2. set (s2 := tick s1) in *. pose proof (tick_inv _ _ _ _ _ _ H2) as H3.
  destruct (Z.eqb_spec (pid i s2) 0) as [E2|Hne2].
  - assert (pids (tick s2) !! i = Some 0%Z) as Hz.
    { pose proof (pid_lookup _ _ _ _ _ _ _ H3 Hlt) as Hz. destruct (tick_slot _ _ _ _ _ _ i 0 H2 Hlt E2 _ Hz) as [E|E]; by rewrite Hz, E. }
    pose proof (tick_inv _ _ _ _ _ _ H3) as H4. split; [|simpl; apply list_lookup_insert_eq; by rewrite (i_len _ _ _ _ _ _ H4)].
    apply (inv_ext n av SIGKILL (upd (upd ph i Stopping) i Stopping)); [intros; apply upd_upd|]. apply set_zero; [done|]. right.
    pose proof (pid_lookup _ _ _ _ _ _ _ H4 Hlt) as Hz4. destruct (a_pids _ _ (tick_after (tick s2)) i _ Hz4) as [E|E]; [|by rewrite Hz4, E]. congruence.
  - pose proof (pid_lookup _ _ _ _ _ _ _ H2 Hlt) as Hp2.
    destruct (finish_stop n av SIGKILL _ _ (tick s2) i (pid i s2) H3 (mine_after _ _ _ _ (tick_after s2) (inv_mine _ _ _ _ _ _ _ _ H2 Hp2 Hne2))
      (tick_slot _ _ _ _ _ _ i _ H2 Hlt eq_refl) Hlt) as [H4 H5]. split; [|done].
    eapply inv_ext; [|exact H4]. intros j. apply upd_upd.
Qed.

Lemma ntrip_stop_keeps_zero i s : keeps_zero s (Ntrip.stop_process i s).
Proof.
  unfold Ntrip.stop_process. destruct (_ =? 0)%Z; [by intros j|]. cbn zeta.
  eapply keeps_zero_trans; [|apply set_keeps_zero]. eapply keeps_zero_trans; [|apply tick_keeps_zero].
  destruct (_ =? 0)%Z; repeat (eapply keeps_zero_trans; [|solve [eauto with zero]]); by intros j.
Qed.

Section ntrip.
(** libsettings takes back a value that has been refused. *)
Variable refused : settings -> settings -> settings.
Hypothesis refused_restores : forall old new, refused old new = old.

Definition ntrip_ok (d : daemon) : Prop :=
  initialized d = true /\ enabled_file d = Some (active (conf d)) /\ table_ok 2 (execfn (conf d)) SIGKILL (active (conf d)) (os d).

Lemma start_processes_sys d :
  start_processes d = mk_daemon (conf d) (initialized d) (Some (active (conf d)))
    (foldl (restart (execfn (conf d)) stop_process (active (conf d))) (os d) (seq 0 2)).
Proof. unfold start_processes, start_process, restart. cbn [foldl seq processes_count]. by destruct (active (conf d)) eqn:E; cbn [negb conf os]; rewrite E. Qed.

Lemma ntrip_start_ok d ph : initialized d = true -> inv 2 (execfn (conf d)) SIGKILL ph None (os d) -> ntrip_ok (start_processes d).
Proof.
  intros Hin Hi. rewrite start_processes_sys. split; [done|]. split; [done|]. cbn [conf os].
  apply (restarted 2 _ SIGKILL stop_process (ntrip_stop_inv 2 _) ntrip_stop_keeps_zero _ ph). done.
Qed.

Lemma ntrip_write_ok x d : ntrip_ok d -> ntrip_ok (write_setting refused x d).
Proof.
  intros Hd. pose proof Hd as (Hin & Hf & Ht). pose proof Ht as [Hi Hz]. unfold write_setting.
  assert (forall x, ntrip_ok d -> enabled (apply_change x (conf d)) = enabled (conf d) ->
    ntrip_ok (match notify_generic (set_conf d (apply_change x (conf d))) with
              | WR_OK => set_conf d (apply_change x (conf d))
              | WR_MODIFY_DISABLED => set_conf d (refused (conf d) (apply_change x (conf d))) end)) as Hgen.
  { intros y _ He. unfold notify_generic. cbn [conf initialized set_conf]. rewrite He, Hin, andb_true_r. destruct (enabled (conf d)) eqn:E.
    - rewrite refused_restores. by destruct d.
    - assert (active (conf d) = false) as Ha by (unfold active; by rewrite E). rewrite Ha in *.
      assert (active (apply_change y (conf d)) = false) as Ha' by (unfold active; by rewrite He).
      split; [done|]. unfold set_conf. cbn [enabled_file conf os]. rewrite Ha'. split; [done|]. split; [|done].
      by apply (inv_idle 2 (execfn (conf d)) _ SIGKILL (fun _ => Stopping)), Hz. }
  destruct x as [b| | | | | |]; try (by apply (Hgen _ Hd)).
  unfold notify_enable, set_conf. cbn [initialized]. rewrite Hin. by apply (ntrip_start_ok _ (fun _ => if active (conf d) then Running else Stopping)).
Qed.

Lemma ntrip_reconnect_ok d : ntrip_ok d -> ntrip_ok (reconnect d).2.
Proof.
  intros (Hin & Hf & Ht). unfold reconnect. destruct (Z.eqb_spec (pid 1 (os d)) 0) as [|Hne]; [done|].
  assert (table_ok 2 (execfn (conf d)) SIGKILL (active (conf d)) (kill (pid 1 (tick (os d))) SIGUSR1 (tick (tick (os d)))).2) as H
    by (apply table_usr1; [by apply table_tick|lia]).
  by destruct (kill _ _ _) as [ok s].
Qed.

Lemma ntrip_step_ok e d : ntrip_ok d -> ntrip_ok (step refused d e).
Proof.
  intros Hd. destruct e as [x|[ms|]|]; cbn [step].
  - by apply ntrip_write_ok.
  - unfold control_handler. destruct (negb _); [done|]. pose proof (ntrip_reconnect_ok d Hd) as H. by destruct (reconnect d).
  - done.
  - destruct Hd as (Hin & Hf & Ht). split; [done|]. split; [done|]. by apply table_tick.
Qed.

Lemma ntrip_run_ok es d : ntrip_ok d -> ntrip_ok (run refused d es).
Proof. revert d. unfold run. induction es as [|e es IH]; intros d Hd; [done|]. cbn [foldl]. by apply IH, ntrip_step_ok. Qed.

(** Values read from the configuration file start nothing. *)
Lemma stored_quiet stored d : initialized d = false ->
  let d' := foldl (fun d x => write_setting refused x d) d stored in initialized d' = false /\ os d' = os d.
Proof.
  cbn zeta. revert d. induction stored as [|x stored IH]; intros d Hin; [done|]. cbn [foldl].
  assert (initialized (write_setting refused x d) = false /\ os (write_setting refused x d) = os d) as [H1 H2].
  { unfold write_setting. destruct x; unfold notify_enable, notify_generic, set_conf; cbn [initialized conf os]; rewrite Hin, ?andb_false_r; done. }
  destruct (IH _ H1) as [H3 H4]. split; [done|]. by rewrite H4.
Qed.

Lemma init_ok stored c s : fresh 2 s -> ntrip_ok (settings_init refused stored c s).
Proof.
  intros Hs. unfold settings_init. destruct (stored_quiet stored (mk_daemon c false None s) eq_refl) as [_ Hos].
  apply (ntrip_start_ok _ (fun _ => Stopping)); [done|]. cbn [os conf]. rewrite Hos. by apply fresh_inv.
Qed.

End ntrip.


(** ** A fork that fails *)

(** C40: A failed fork signals every process.  When [fork] fails its -1 is stored as a process
    identifier, and the next time the entry is stopped, SIGTERM and SIGKILL go to -1, which means
    every process that the daemon may signal. *)
Theorem failed_fork_signals_all i argv s : i < length (pids s) -> forks s (forked s) = (-1)%Z -> kids s !! (-1)%Z = None ->
  stray (Ntrip.stop_process i (fork_store i argv s)) = stray s ++ [((-1)%Z, SIGTERM); ((-1)%Z, SIGKILL)].
Proof.
  intros Hi Hf Hk. unfold fork_store. rewrite Hf. cbn [Z.ltb Z.compare]. set (s1 := mk_sys _ _ _ _ _ _ _). cbn zeta.
  pose proof (tick_after s1) as Ha. pose proof (tick_stray s1) as Hs.
  assert (kids (tick s1) !! (-1)%Z = None) as Hk1.
  { destruct (kids (tick s1) !! (-1)%Z) as [c|] eqn:E; [|done]. apply (a_kids _ _ Ha) in E. change (kids s1) with (kids s) in E. congruence. }
  set (s2 := set_pid i (-1) (tick s1)).
  assert (pids s2 !! i = Some (-1)%Z) as Hp2. { simpl. apply list_lookup_insert_eq. rewrite (a_len _ _ Ha). done. }
  assert (kids s2 !! (-1)%Z = None) as Hk2 by done. assert (stray s2 = stray s) as Hs2 by done. clearbody s2.
  unfold Ntrip.stop_process, pid. rewrite Hp2. cbn [default from_option id Z.eqb].
  destruct (tick_keeps_slot s2 i _ Hp2 Hk2) as [Hp3 Hk3]. pose proof (tick_stray s2) as Hs3. set (s3 := tick s2) in *. clearbody s3.
  rewrite (kill_none (-1) SIGTERM s3 Hk3). set (s4 := mk_sys _ _ _ _ _ _ _).
  destruct (tick_keeps_slot s4 i (-1)%Z Hp3 Hk3) as [Hp5 Hk5]. pose proof (tick_stray s4) as Hs5. set (s5 := tick s4) in *. clearbody s5.
  rewrite Hp5. cbn [default from_option id Z.eqb]. destruct (tick_keeps_slot s5 i (-1)%Z Hp5 Hk5) as [Hp6 Hk6]. pose proof (tick_stray s5) as Hs6.
  set (s6 := tick s5) in *. clearbody s6. rewrite (kill_none (-1) SIGKILL s6 Hk6). unfold set_pid, set_pids. cbn [stray]. rewrite tick_stray. cbn [stray].
  rewrite Hs6, Hs5. cbn [s4 stray]. rewrite Hs3, Hs2, <- app_assoc. done.
Qed.

(** ** Witnesses *)

Definition sample_ntrip : Ntrip.settings := Ntrip.mk_settings false false "" "" "" 0 false.
Definition keep_old (old new : Ntrip.settings) : Ntrip.settings := old.


Lemma failed_fork_signals_all_witness :
  stray (Ntrip.stop_process 0 (fork_store 0 Ntrip.adapter_argv (mk_sys [0; 0]%Z ∅ [] [] [] (fun _ => (-1)%Z) 0))) = [((-1)%Z, SIGTERM); ((-1)%Z, SIGKILL)].
Proof.
  exact (failed_fork_signals_all 0 Ntrip.adapter_argv (mk_sys [0; 0]%Z ∅ [] [] [] (fun _ => (-1)%Z) 0) ltac:(simpl; lia) eq_refl eq_refl).
Defined.

(** A stopped NTRIP process is killed at once: it has no time to act on the first signal. *)
Example killed_at_once :
  let s := fork_store 0 Ntrip.adapter_argv (sample_sys 2 []) in
  (c_signals <$> kids (Ntrip.stop_process 0 s) !! 100%Z) = Some [SIGTERM; SIGKILL].
Proof. vm_compute. reflexivity. Qed.

(** The client ends between the test of its entry and the call of [kill]: the request to reconnect
    goes to the whole process group. *)
Example reconnect_signals_group :
  let d := Ntrip.mk_daemon sample_ntrip true None (mk_sys [100; 101]%Z {[101%Z := mk_child 1 [] []]} [] [] [[101%Z]] (fun k => Z.of_nat k + 200)%Z 0) in
  stray (Ntrip.os (Ntrip.reconnect d).2) = [(0%Z, SIGUSR1)].
Proof. vm_compute. reflexivity. Qed.
