(* ===== verification/Skylark.v ===== *)
(** * The Skylark settings daemon

    [skylark_daemon/src/skylark_settings.c]: the daemon keeps two adapters and two clients, for upload
    and download, and restarts all of them whenever a setting is written.  [sleep(0.1)] is
    [sleep(0)]; [process->pid] is read once where the code reads it in adjacent expressions. *)

From stdpp Require Import gmap.
From S2P Require Import Prelude Libc Children.

Definition UPLOAD_FIFO_FILE_PATH : string := "/var/run/skylark/upload".
Definition DOWNLOAD_FIFO_FILE_PATH : string := "/var/run/skylark/download".
Definition SKYLARK_URL : string := "https://broker.skylark.swiftnav.com".
Definition processes_count : nat := 4.

Record settings := mk_settings { enabled : bool; url : string }.

Definition get_skylark_url (c : settings) : string := if bool_decide (url c = EmptyString) then SKYLARK_URL else url c.
Definition upload_daemon_argv (c : settings) : list string :=
  ["skylark_daemon"; "--upload"; "--no-error-reporting"; "--file"; UPLOAD_FIFO_FILE_PATH; "--url"; get_skylark_url c].
Definition upload_adapter_argv : list string :=
  ["endpoint_adapter"; "--name"; "skylark_upload"; "--file"; UPLOAD_FIFO_FILE_PATH; "-s"; "ipc:///var/run/sockets/skylark.pub";
   "--filter-out"; "sbp"; "--filter-out-config"; "/etc/skylark_upload_filter_out_config"].
Definition download_adapter_argv : list string :=
  ["endpoint_adapter"; "--name"; "skylark_download"; "--framer-in"; "sbp"; "--file"; DOWNLOAD_FIFO_FILE_PATH;
   "-p"; "ipc:///var/run/sockets/skylark.sub"].
Definition download_daemon_argv (c : settings) : list string :=
  ["skylark_daemon"; "--download"; "--file"; DOWNLOAD_FIFO_FILE_PATH; "--url"; get_skylark_url c].
(** [skylark_processes] *)
Definition execfn (c : settings) (i : nat) : list string :=
  match i with 0 => upload_daemon_argv c | 1 => upload_adapter_argv | 2 => download_adapter_argv | _ => download_daemon_argv c end.

Record daemon := mk_daemon { conf : settings; enabled_file : option bool; os : sys }.

Definition stop_process (i : nat) (s : sys) : sys :=
  if (pid i s =? 0)%Z then s
  else let s := tick s in set_pid i 0 (tick (kill (pid i s) SIGTERM (tick s)).2).
Definition stop_processes (s : sys) : sys := foldl (fun s i => stop_process i (tick s)) s (seq 0 processes_count).

(** The body of the loop of [skylark_notify]. *)
Definition restart_process (d : daemon) (i : nat) : daemon :=
  let s := stop_process i (tick (os d)) in
  if negb (enabled (conf d)) then mk_daemon (conf d) (Some false) s
  else mk_daemon (conf d) (Some true) (fork_store i (execfn (conf d) i) (tick s)).
Definition notify (d : daemon) : daemon := foldl restart_process d (seq 0 processes_count).

Definition reconnect_dl (d : daemon) : bool * daemon :=
  if (pid 3 (os d) =? 0)%Z then (false, d)
  else
    let s := tick (os d) in
    let '(ok, s) := kill (pid 3 s) SIGUSR1 (tick s) in (ok, mk_daemon (conf d) (enabled_file d) s).

(** A write of a setting: libsettings stores the value and calls [skylark_notify], which accepts it. *)
Inductive change := Set_enable (b : bool) | Set_url (s : string).
Definition apply_change (x : change) (c : settings) : settings :=
  match x with Set_enable b => mk_settings b (url c) | Set_url s => mk_settings (enabled c) s end.
Definition write_setting (d : daemon) (x : change) : daemon := notify (mk_daemon (apply_change x (conf d)) (enabled_file d) (os d)).

Definition loop_terminate (ends : list Z) (d : daemon) : daemon :=
  mk_daemon (conf d) (enabled_file d) (reap_children false ends (stop_processes (os d))).

Inductive event := Write (x : change) | Reconnect | Idle.
Definition step (d : daemon) (e : event) : daemon :=
  match e with
  | Write x => write_setting d x
  | Reconnect => (reconnect_dl d).2
  | Idle => mk_daemon (conf d) (enabled_file d) (tick (os d))
  end.
Definition run (d : daemon) (es : list event) : daemon := foldl step d es.

(** ** Invariant *)

Lemma skylark_stop_inv n av ph ex s i : inv n av SIGTERM ph ex s -> i < n ->
  inv n av SIGTERM (stopping ph i) ex (Skylark.stop_process i s) /\ pids (Skylark.stop_process i s) !! i = Some 0%Z.
Proof.
  intros Hi Hlt. unfold Skylark.stop_process. destruct (Z.eqb_spec (pid i s) 0) as [E|Hne].
  { split; [by apply stopping_weaken|]. by rewrite (pid_lookup _ _ _ _ _ _ _ Hi Hlt), E. }
  clear Hne. pose proof (tick_inv _ _ _ _ _ _ Hi) as Hi1. clear Hi. cbn zeta. set (s1 := tick s) in *. clearbody s1.
  pose proof (pid_lookup _ _ _ _ _ _ _ Hi1 Hlt) as Hp. destruct (Z.eqb_spec (pid i s1) 0) as [E|Hne].
  - rewrite E in *. assert (inv n av SIGTERM ph ex (tick (kill 0 SIGTERM (tick s1)).2)) as H2.
    { apply tick_inv, kill_group; [by apply tick_inv|by right]. }
    split; [|simpl; apply list_lookup_insert_eq; by rewrite (i_len _ _ _ _ _ _ H2)].
    apply set_zero; [done|]. right. by apply tick_keeps_zero, kill_keeps_zero, tick_keeps_zero.
  - apply (finish_stop n av SIGTERM _ _ (tick s1) i (pid i s1) (tick_inv _ _ _ _ _ _ Hi1)
      (mine_after _ _ _ _ (tick_after s1) (inv_mine _ _ _ _ _ _ _ _ Hi1 Hp Hne)) (tick_slot _ _ _ _ _ _ i _ Hi1 Hlt eq_refl) Hlt).
Qed.

Lemma skylark_stop_keeps_zero i s : keeps_zero s (Skylark.stop_process i s).
Proof.
  unfold Skylark.stop_process. destruct (_ =? 0)%Z; [by intros j|]. cbn zeta.
  repeat (eapply keeps_zero_trans; [|solve [eauto with zero]]). by intros j.
Qed.

Section skylark.

Definition skylark_ok (d : daemon) : Prop :=
  enabled_file d = Some (enabled (conf d)) /\ table_ok 4 (execfn (conf d)) SIGTERM (enabled (conf d)) (os d).

Lemma notify_sys d :
  notify d = mk_daemon (conf d) (Some (enabled (conf d))) (foldl (restart (execfn (conf d)) stop_process (enabled (conf d))) (os d) (seq 0 4)).
Proof. unfold notify, restart_process, restart. cbn [foldl seq processes_count]. destruct d as [c f s]. cbn [conf os enabled_file]. destruct (enabled c) eqn:E; do 5 (cbn [negb conf os]; rewrite ?E); reflexivity. Qed.

Lemma notify_ok d ph : inv 4 (execfn (conf d)) SIGTERM ph None (os d) -> skylark_ok (notify d).
Proof.
  intros Hi. rewrite notify_sys. split; [done|]. cbn [conf os].
  apply (restarted 4 _ SIGTERM stop_process (skylark_stop_inv 4 _) skylark_stop_keeps_zero _ ph). done.
Qed.

Lemma skylark_step_ok e d : skylark_ok d -> skylark_ok (step d e).
Proof.
  intros [Hf Hd]. destruct e as [x| |]; cbn [step].
  - unfold write_setting. destruct Hd as [Hi _]. eapply notify_ok. by eapply inv_forget.
  - unfold reconnect_dl. destruct (Z.eqb_spec (pid 3 (os d)) 0) as [|Hne]; [done|].
    assert (table_ok 4 (execfn (conf d)) SIGTERM (enabled (conf d)) (kill (pid 3 (tick (os d))) SIGUSR1 (tick (tick (os d)))).2) as H
      by (apply table_usr1; [by apply table_tick|lia]).
    by destruct (kill _ _ _) as [ok s].
  - split; [done|]. by apply table_tick.
Qed.

(** The Skylark processes follow the settings.  From start-up, over any writes of settings and
    requests to reconnect, whichever children end at whatever moment: the file tells whether Skylark is
    enabled; a child that has not been told to stop is the one in the table and runs with the URL as it is now; while Skylark is
    disabled there is none; while it is enabled each of the four processes runs or has ended without
    having been told to stop; and signals are only sent to the daemon's own children, to identifiers
    of children that have been reaped, or, when an entry is cleared between its test and the call of
    [kill], to the whole process group.  Children that have been told to stop are not waited for. *)
Theorem skylark_follows_settings c s x es : fresh 4 s ->
  let d := run (write_setting (mk_daemon c None s) x) es in
  enabled_file d = Some (enabled (conf d)) /\
  (forall p ch, kids (os d) !! p = Some ch ->
     SIGTERM ∈ c_signals ch \/
     (enabled (conf d) = true /\ pids (os d) !! c_index ch = Some p /\ c_argv ch = execfn (conf d) (c_index ch) /\ undisturbed ch)) /\
  (enabled (conf d) = true -> forall i, i < 4 ->
     (exists p ch, kids (os d) !! p = Some ch /\ c_index ch = i /\ undisturbed ch) \/
     (exists p ch, (p, ch) ∈ reaped (os d) /\ c_index ch = i /\ c_argv ch = execfn (conf d) i /\ undisturbed ch)) /\
  (forall p sig, (p, sig) ∈ stray (os d) -> p ∈ (reaped (os d)).*1 \/ (p = 0%Z /\ to_group SIGTERM sig)).
Proof.
  intros Hs. cbn zeta.
  assert (forall d, skylark_ok d -> skylark_ok (run d es)) as Hrun.
  { unfold run. induction es as [|e es IH]; intros d Hd; [done|]. cbn [foldl]. by apply IH, skylark_step_ok. }
  assert (skylark_ok (write_setting (mk_daemon c None s) x)) as H0 by (eapply notify_ok; by apply fresh_inv).
  destruct (Hrun _ H0) as [Hf Ht]. split; [done|]. by apply table_children in Ht.
Qed.
End skylark.

(** ** Witness *)

Lemma skylark_follows_settings_witness :
  let d := Skylark.run (Skylark.write_setting (Skylark.mk_daemon (Skylark.mk_settings false "") None (sample_sys 4 [])) (Skylark.Set_enable true))
             [Skylark.Reconnect; Skylark.Write (Skylark.Set_url "https://example.com")] in
  Skylark.enabled_file d = Some true /\ (forall p sig, (p, sig) ∈ stray (Skylark.os d) -> p ∈ (reaped (Skylark.os d)).*1 \/ (p = 0%Z /\ to_group SIGTERM sig)).
Proof.
  pose proof (skylark_follows_settings (Skylark.mk_settings false "") (sample_sys 4 []) (Skylark.Set_enable true)
    [Skylark.Reconnect; Skylark.Write (Skylark.Set_url "https://example.com")] (sample_fresh 4 [])) as (_ & _ & _ & H).
  split; [vm_compute; reflexivity|exact H].
Defined.

(** A Skylark process is not waited for: here the old uploader and the new one share the FIFO. *)
Example skylark_overlap :
  let d := Skylark.write_setting (Skylark.mk_daemon (Skylark.mk_settings true "") None (sample_sys 4 [])) (Skylark.Set_url "a") in
  let d := Skylark.write_setting d (Skylark.Set_url "b") in
  (c_index <$> kids (Skylark.os d) !! 100%Z) = Some 0 /\ (c_index <$> kids (Skylark.os d) !! 104%Z) = Some 0.
Proof. vm_compute. split; reflexivity. Qed.
