(* ===== verification/NtripClient.v ===== *)
(** * The NTRIP client

    [ntrip_daemon/src/ntrip_daemon.c]: the options with which the settings daemon starts the client and
    what it configures before it downloads. *)

From Stdlib Require Import Ascii.
From S2P Require Import Prelude Libc Text Getopt Ntrip Network.

Inductive opt_id := OPT_ID_FILE | OPT_ID_URL | OPT_ID_DEBUG | OPT_ID_INTERVAL | OPT_ID_REV1GGA | OPT_ID_USERNAME | OPT_ID_PASSWORD
  | OPT_ID_MODE_NTRIP | OPT_ID_MODE_SETTINGS | OPT_ID_MODE_RECONNECT.
#[export] Instance opt_id_eq_dec : EqDecision opt_id.
Proof. solve_decision. Defined.

(** The name of the option for the URL ends in two blanks; ["--url"] is an abbreviation of it. *)
Definition long_opts : list (long_option opt_id) :=
  [mk_option "ntrip" no_argument OPT_ID_MODE_NTRIP;
   mk_option "settings" no_argument OPT_ID_MODE_SETTINGS;
   mk_option "reconnect" no_argument OPT_ID_MODE_RECONNECT;
   mk_option "file" required_argument OPT_ID_FILE;
   mk_option "username" required_argument OPT_ID_USERNAME;
   mk_option "password" required_argument OPT_ID_PASSWORD;
   mk_option "url  " required_argument OPT_ID_URL;
   mk_option "interval" required_argument OPT_ID_INTERVAL;
   mk_option "rev1gga" required_argument OPT_ID_REV1GGA;
   mk_option "debug" no_argument OPT_ID_DEBUG].

Inductive operating_mode := OP_MODE_NTRIP_CLIENT | OP_MODE_SETTINGS_DAEMON | OP_MODE_REQ_RECONNECT.
Record options := mk_options {
  op_mode : operating_mode; fifo_file_path : option string; o_username : option string; o_password : option string;
  o_url : option string; o_debug : bool; o_rev1gga : bool; o_gga_xfer_secs : Z;
}.
Definition options_init : options := mk_options OP_MODE_NTRIP_CLIENT None None None None false false 0.

Definition option_step (r : opt_result opt_id) (o : options) : option options :=
  let '(mk_options m f u p l d v g) := o in
  match r with
  | Opt OPT_ID_MODE_NTRIP None => Some (mk_options OP_MODE_NTRIP_CLIENT f u p l d v g)
  | Opt OPT_ID_MODE_SETTINGS None => Some (mk_options OP_MODE_SETTINGS_DAEMON f u p l d v g)
  | Opt OPT_ID_MODE_RECONNECT None => Some (mk_options OP_MODE_REQ_RECONNECT f u p l d v g)
  | Opt OPT_ID_FILE (Some s) => Some (mk_options m (Some s) u p l d v g)
  | Opt OPT_ID_USERNAME (Some s) => Some (mk_options m f (Some s) p l d v g)
  | Opt OPT_ID_PASSWORD (Some s) => Some (mk_options m f u (Some s) l d v g)
  | Opt OPT_ID_URL (Some s) => Some (mk_options m f u p (Some s) d v g)
  | Opt OPT_ID_DEBUG None => Some (mk_options m f u p l true v g)
  | Opt OPT_ID_REV1GGA (Some s) => Some (mk_options m f u p l d (match s with String.String c _ => Ascii.eqb c "y" | EmptyString => false end) g)
  | Opt OPT_ID_INTERVAL (Some s) =>
      let '(v', rest) := strtol s in
      if negb (bool_decide (s = EmptyString)) && bool_decide (rest = EmptyString) then Some (mk_options m f u p l d v v') else None
  | _ => None
  end.

Fixpoint options_loop (rs : list (opt_result opt_id)) (o : options) : option options :=
  match rs with
  | [] => Some o
  | r :: rs' => match option_step r o with Some o => options_loop rs' o | None => None end
  end.

Definition parse_options (argv : list string) : option options :=
  o ← options_loop (getopt_long long_opts [] argv) options_init;
  match op_mode o with
  | OP_MODE_NTRIP_CLIENT => if bool_decide (is_Some (fifo_file_path o)) && bool_decide (is_Some (o_url o)) then Some o else None
  | _ => Some o
  end.

(** [false] when a setter fails *)
Definition set_optional (set : text -> network_context_t -> outcome (network_status_t * network_context_t)) (s : option string) (c : network_context_t) :
    outcome (bool * network_context_t) :=
  match s with
  | None => Ret (true, c)
  | Some s => '(st, c) ← set (text_of s) c; Ret (bool_decide (st = NETWORK_STATUS_SUCCESS), c)
  end.
Definition configure_libnetwork (o : options) (fd : Z) (c : network_context_t) : outcome (bool * network_context_t) :=
  '(ok, c) ← set_optional libnetwork_set_username (o_username o) c;
  if negb ok then Ret (false, c)
  else
    '(ok, c) ← set_optional libnetwork_set_password (o_password o) c;
    if negb ok then Ret (false, c)
    else
      match o_url o with
      | None => Undef                                       (* strlen of a NULL pointer *)
      | Some url =>
          '(st, c) ← libnetwork_set_url (text_of url) c;
          if negb (bool_decide (st = NETWORK_STATUS_SUCCESS)) then Ret (false, c)
          else
            let c := libnetwork_set_debug (o_debug o) (libnetwork_set_fd fd c) in
            let '(st, c) := libnetwork_set_gga_upload_interval (o_gga_xfer_secs o) c in
            if negb (bool_decide (st = NETWORK_STATUS_SUCCESS)) then Ret (false, c)
            else Ret (true, libnetwork_set_gga_upload_rev1 (o_rev1gga o) c)
      end.

(** [ntrip_client_loop] up to the download: the context that it starts with.  [fd]: the FIFO, if it can be opened. *)
Definition client_context (o : options) (fd : option Z) : outcome (option network_context_t) :=
  match fd with
  | None => Ret None
  | Some fd =>
      '(ok, c) ← configure_libnetwork o fd (default empty_context (head (libnetwork_create NETWORK_TYPE_NTRIP_DOWNLOAD [])));
      Ret (if (ok : bool) then Some c else None)
  end.

(** What the client makes of its options. *)

Lemma interval_s_read c : (- 2 ^ 31 <= Ntrip.interval c < 2 ^ 31)%Z ->
  strtol (Ntrip.interval_s c) = (Ntrip.interval c, EmptyString) /\ Ntrip.interval_s c <> EmptyString.
Proof.
  intros Hi. unfold Ntrip.interval_s. destruct (print_d_length (Ntrip.interval c)) as [Hne Hl].
  rewrite string_take_all by lia. split; [by apply strtol_print_d|done].
Qed.

(** The user name and password that are passed on. *)
Definition credentials (c : Ntrip.settings) : option (string * string) :=
  if negb (bool_decide (Ntrip.username c = EmptyString)) && negb (bool_decide (Ntrip.password c = EmptyString))
  then Some (Ntrip.username c, Ntrip.password c) else None.

Lemma parse_ntrip c : (- 2 ^ 31 <= Ntrip.interval c < 2 ^ 31)%Z ->
  parse_options (tail (Ntrip.ntrip_argv c)) =
    Some (mk_options OP_MODE_NTRIP_CLIENT (Some Ntrip.FIFO_FILE_PATH) (fst <$> credentials c) (snd <$> credentials c)
            (Some (Ntrip.url c)) (Ntrip.debug c) (Ntrip.rev1gga c) (Ntrip.interval c)).
Proof.
  intros Hi. destruct (interval_s_read c Hi) as [Hs Hne]. unfold Ntrip.ntrip_argv, credentials, Ntrip.rev1gga_s.
  revert Hs Hne. generalize (Ntrip.interval_s c). intros w Hs Hne.
  assert (forall rs o, options_loop (Opt OPT_ID_INTERVAL (Some w) :: rs) o =
    options_loop rs (mk_options (op_mode o) (fifo_file_path o) (o_username o) (o_password o)
            (o_url o) (o_debug o) (o_rev1gga o) (Ntrip.interval c))) as Hloop.
  { intros rs [m f u p l d v g]. cbn. rewrite Hs, bool_decide_eq_false_2, bool_decide_eq_true_2 by done. done. }
  clear Hs Hne Hi.
  destruct (negb _ && negb _), (Ntrip.debug c), (Ntrip.rev1gga c); unfold parse_options;
    match goal with |- context [options_loop ?x _] => let y := eval lazy in x in change x with y end;
    repeat match goal with
    | |- context [options_loop (Opt OPT_ID_INTERVAL _ :: _) _] => rewrite Hloop
    | |- context [options_loop (?r :: ?rs) ?o] =>
        let o' := eval lazy in (option_step r o) in
        match o' with Some ?o1 => change (options_loop (r :: rs) o) with (options_loop rs o1) end
    end; reflexivity.
Qed.

Lemma set_string (set : text -> network_context_t -> outcome (network_status_t * network_context_t)) get max put s c :
  (forall x, set x c = '(st, d) ← copy_setting (get (Network.conf c)) max x; Ret (st, put d)) ->
  length (get (Network.conf c)) = max -> 0 < max -> get (Network.conf c) !! (max - 1) = Some NUL -> no_nul s -> length s < max ->
  exists d, set s c = Ret (NETWORK_STATUS_SUCCESS, put d) /\ buf_str d = Ret s.
Proof.
  intros Hset Hl Hm Hn Hs Hlen. destruct (copy_setting_cases _ max s Hl Hm Hn Hs) as (d & Hc & Hd).
  rewrite (proj2 (Nat.ltb_lt _ _) Hlen) in *. exists d. rewrite Hset, Hc, bind_Ret. done.
Qed.

Definition setting_ok (s : string) : Prop := no_nul (text_of s) /\ length (text_of s) < 256.

Definition new_context : network_context_t := default empty_context (head (libnetwork_create NETWORK_TYPE_NTRIP_DOWNLOAD [])).

(** The context in which only strings have been set. *)
Definition strings_set (u p l : text) : network_context_t :=
  let x := Network.conf new_context in
  Network.set_conf new_context (mk_conf NETWORK_TYPE_NTRIP_DOWNLOAD (Network.fd x) u p l (continuous x) (max_bytes x)
    (gga_xfer_secs x) (gga_rev1 x) (Network.debug x) (report_errors x)).

Definition EMPTY_SHORT : text := replicate LIBNETWORK_USERNAME_MAX_LENGTH NUL.
Definition EMPTY_URL : text := replicate LIBNETWORK_URL_MAX_LENGTH NUL.

Lemma replicate_last k : 0 < k -> replicate k NUL !! (k - 1) = Some NUL.
Proof. intros H. apply lookup_replicate_2. lia. Qed.

Lemma buf_str_empty k : 0 < k -> buf_str (replicate k NUL) = Ret [].
Proof. intros H. destruct k as [|k]; [lia|]. apply in_buf_str. split; [apply not_elem_of_nil|]. by exists (replicate k NUL). Qed.

Lemma max_lengths : 0 < LIBNETWORK_USERNAME_MAX_LENGTH /\ 256 <= LIBNETWORK_USERNAME_MAX_LENGTH /\ LIBNETWORK_PASSWORD_MAX_LENGTH = LIBNETWORK_USERNAME_MAX_LENGTH /\ 256 <= LIBNETWORK_URL_MAX_LENGTH.
Proof. split_and!; [apply Nat.leb_le; vm_compute; reflexivity..|reflexivity|apply Nat.leb_le; vm_compute; reflexivity]. Qed.
#[local] Opaque LIBNETWORK_USERNAME_MAX_LENGTH LIBNETWORK_PASSWORD_MAX_LENGTH LIBNETWORK_URL_MAX_LENGTH.

Lemma set_username_ok s p l : setting_ok s ->
  exists u, libnetwork_set_username (text_of s) (strings_set EMPTY_SHORT p l) = Ret (NETWORK_STATUS_SUCCESS, strings_set u p l) /\ buf_str u = Ret (text_of s).
Proof.
  intros [Hn Hl]. destruct max_lengths as (H0 & H1 & H2 & H3).
  apply (set_string libnetwork_set_username Network.username LIBNETWORK_USERNAME_MAX_LENGTH (fun u => strings_set u p l)); rewrite ?H2;
    first [done|lia|apply length_replicate|apply replicate_last; lia].
Qed.

Lemma set_password_ok s u l : setting_ok s ->
  exists p, libnetwork_set_password (text_of s) (strings_set u EMPTY_SHORT l) = Ret (NETWORK_STATUS_SUCCESS, strings_set u p l) /\ buf_str p = Ret (text_of s).
Proof.
  intros [Hn Hl]. destruct max_lengths as (H0 & H1 & H2 & H3).
  apply (set_string libnetwork_set_password Network.password LIBNETWORK_PASSWORD_MAX_LENGTH (fun p => strings_set u p l)); rewrite ?H2;
    first [done|lia|apply length_replicate|apply replicate_last; lia].
Qed.

Lemma set_url_ok s u p : setting_ok s ->
  exists l, libnetwork_set_url (text_of s) (strings_set u p EMPTY_URL) = Ret (NETWORK_STATUS_SUCCESS, strings_set u p l) /\ buf_str l = Ret (text_of s).
Proof.
  intros [Hn Hl]. destruct max_lengths as (H0 & H1 & H2 & H3).
  apply (set_string libnetwork_set_url Network.url LIBNETWORK_URL_MAX_LENGTH (fun l => strings_set u p l)); rewrite ?H2;
    first [done|lia|apply length_replicate|apply replicate_last; lia].
Qed.

Lemma new_context_strings : new_context = strings_set EMPTY_SHORT EMPTY_SHORT EMPTY_URL.
Proof. unfold EMPTY_SHORT. rewrite <- (proj1 (proj2 (proj2 max_lengths))) at 2. reflexivity. Qed.

Lemma set_credentials creds : match creds with Some (u, p) => setting_ok u /\ setting_ok p | None => True end ->
  exists u p c, set_optional libnetwork_set_username (fst <$> creds) new_context = Ret (true, c) /\
    set_optional libnetwork_set_password (snd <$> creds) c = Ret (true, strings_set u p EMPTY_URL) /\
    buf_str u = Ret (default [] (text_of <$> (fst <$> creds))) /\ buf_str p = Ret (default [] (text_of <$> (snd <$> creds))).
Proof.
  rewrite new_context_strings. destruct creds as [[u p]|].
  - intros [Hu Hp]. destruct (set_username_ok u EMPTY_SHORT EMPTY_URL Hu) as (bu & Eu & Bu). destruct (set_password_ok p bu EMPTY_URL Hp) as (bp & Ep & Bp).
    exists bu, bp, (strings_set bu EMPTY_SHORT EMPTY_URL). cbn [fmap option_fmap option_map fst snd set_optional]. by rewrite Eu, Ep, !bind_Ret.
  - intros _. exists EMPTY_SHORT, EMPTY_SHORT, (strings_set EMPTY_SHORT EMPTY_SHORT EMPTY_URL). split; [done|]. split; [done|].
    split; apply buf_str_empty, max_lengths.
Qed.

(** C24: The NTRIP client works with the settings.  The arguments with which the daemon starts the
    client are accepted, and the context in which it downloads has the URL, the interval, the
    format of the GGA messages and the debug flag of the settings, and the user name and the
    password if both have been set. *)
Theorem ntrip_client_as_set c fd : setting_ok (Ntrip.url c) -> setting_ok (Ntrip.username c) -> setting_ok (Ntrip.password c) ->
  (- 2 ^ 31 <= Ntrip.interval c < 2 ^ 31)%Z ->
  exists o ctx, parse_options (tail (Ntrip.ntrip_argv c)) = Some o /\ fifo_file_path o = Some Ntrip.FIFO_FILE_PATH /\
    client_context o (Some fd) = Ret (Some ctx) /\
    let x := Network.conf ctx in
    type x = NETWORK_TYPE_NTRIP_DOWNLOAD /\ Network.fd x = fd /\ buf_str (Network.url x) = Ret (text_of (Ntrip.url c)) /\
    gga_xfer_secs x = Ntrip.interval c /\ gga_rev1 x = Ntrip.rev1gga c /\ Network.debug x = Ntrip.debug c /\
    buf_str (Network.username x) = Ret (default [] (text_of <$> (fst <$> credentials c))) /\
    buf_str (Network.password x) = Ret (default [] (text_of <$> (snd <$> credentials c))).
Proof.
  intros Hl Hu Hp Hi. rewrite (parse_ntrip c Hi).
  destruct (set_credentials (credentials c)) as (bu & bp & c1 & E1 & E2 & Bu & Bp); [unfold credentials; by destruct (_ && _)|].
  destruct (set_url_ok (Ntrip.url c) bu bp Hl) as (bl & E3 & Bl). eexists _, _. split; [done|]. split; [done|].
  unfold client_context, configure_libnetwork. cbn [o_username o_password o_url].
  fold new_context.
  rewrite E1, bind_Ret. cbn [negb]. rewrite E2, bind_Ret. cbn [negb].
  rewrite E3, bind_Ret.
  split; [reflexivity|]. cbn zeta. split_and!; (reflexivity || assumption).
Qed.

(** ** Witness *)

Lemma ntrip_client_as_set_witness :
  exists o ctx, parse_options (tail (Ntrip.ntrip_argv (Ntrip.mk_settings true true "me" "secret" "caster:2101/mount" (-5) true))) = Some o /\
    client_context o (Some 7%Z) = Ret (Some ctx) /\ buf_str (Network.username (Network.conf ctx)) = Ret (text_of "me").
Proof.
  destruct (ntrip_client_as_set (Ntrip.mk_settings true true "me" "secret" "caster:2101/mount" (-5) true) 7) as (o & ctx & H1 & _ & H2 & H3).
  1-3: split; [unfold no_nul; intros H; apply list_elem_of_In in H; vm_compute in H; repeat (destruct H as [H|H]; [discriminate H|]); exact H|apply Nat.ltb_lt; vm_compute; reflexivity].
  - split; vm_compute; discriminate || reflexivity.
  - exists o, ctx. split; [exact H1|]. split; [exact H2|]. apply H3.
Defined.

