(* ===== verification/SkylarkClient.v ===== *)
(** * The Skylark clients

    [skylark_daemon/src/skylark_daemon.c]: the options with which the settings daemon starts the
    clients and what they configure; and what the adapters of NTRIP and Skylark, which read and write
    the other ends of their FIFOs, take from theirs. *)

From Stdlib Require Import Ascii.
From S2P Require Import Prelude Libc Text Getopt AdapterOpts Ntrip Skylark Network.

(** ** Adapters *)
(** The adapters on the other ends of the FIFOs are accepted too, with the framer and the sockets
    of their direction. *)
Lemma adapters_accepted files rp : protocols_installed files ->
  let parse argv := AdapterOpts.parse_options (AdapterOpts.protocols_import true (Some files)).1 rp (tail argv) in
  let summary o := (io_mode (o_io o), file_path (o_io o), framer_in_name (o_frame o), filter_out_name (o_frame o), pub_addr (o_addr o), sub_addr (o_addr o)) in
  summary <$> parse Ntrip.adapter_argv =
    Some (IO_FILE, rp Ntrip.FIFO_FILE_PATH, "rtcm3", "none", Some "ipc:///var/run/sockets/rtcm3_external.sub", None) /\
  summary <$> parse Skylark.upload_adapter_argv =
    Some (IO_FILE, rp Skylark.UPLOAD_FIFO_FILE_PATH, "none", "sbp", None, Some "ipc:///var/run/sockets/skylark.pub") /\
  summary <$> parse Skylark.download_adapter_argv =
    Some (IO_FILE, rp Skylark.DOWNLOAD_FIFO_FILE_PATH, "sbp", "none", Some "ipc:///var/run/sockets/skylark.sub", None).
Proof.
  intros Hf. destruct (installed_names files Hf) as [Hfr Hfi]. cbn zeta.
  pose proof (Hfr "sbp" ltac:(set_solver)) as H1. pose proof (Hfr "rtcm3" ltac:(set_solver)) as H2. pose proof (Hfi "sbp" ltac:(set_solver)) as H3.
  revert H1 H2 H3. clear Hfr Hfi. generalize (AdapterOpts.protocols_import true (Some files)).1. intros reg H1 H2 H3.
  split_and!; lazy -[framer_valid filter_valid]; rewrite ?H1, ?H2, ?H3; reflexivity.
Qed.

(** ** Clients *)

Inductive opt_id := OPT_ID_FILE | OPT_ID_URL | OPT_ID_DEBUG | OPT_ID_UPLOAD | OPT_ID_DOWNLOAD | OPT_ID_SETTINGS | OPT_ID_RECONNECT_DL
  | OPT_ID_NO_ERROR_REPORTING | OPT_ID_GET_HEALTH.
#[export] Instance opt_id_eq_dec : EqDecision opt_id.
Proof. solve_decision. Defined.

Definition long_opts : list (long_option opt_id) :=
  [mk_option "upload" no_argument OPT_ID_UPLOAD;
   mk_option "download" no_argument OPT_ID_DOWNLOAD;
   mk_option "settings" no_argument OPT_ID_SETTINGS;
   mk_option "reconnect-dl" no_argument OPT_ID_RECONNECT_DL;
   mk_option "no-error-reporting" no_argument OPT_ID_NO_ERROR_REPORTING;
   mk_option "get-health" no_argument OPT_ID_GET_HEALTH;
   mk_option "file" required_argument OPT_ID_FILE;
   mk_option "url  " required_argument OPT_ID_URL;
   mk_option "debug" no_argument OPT_ID_DEBUG].

Inductive operating_mode := OP_MODE_NONE | OP_MODE_DOWNLOAD | OP_MODE_UPLOAD | OP_MODE_SETTINGS | OP_MODE_RECONNECT_DL | OP_MODE_GET_HEALTH.
Record options := mk_options { op_mode : operating_mode; fifo_file_path : option string; o_url : option string; o_debug : bool; no_error_reporting : bool }.
Definition options_init : options := mk_options OP_MODE_NONE None None false false.

Definition option_step (r : opt_result opt_id) (o : options) : option options :=
  let '(mk_options m f l d e) := o in
  match r with
  | Opt OPT_ID_UPLOAD None => Some (mk_options OP_MODE_UPLOAD f l d e)
  | Opt OPT_ID_DOWNLOAD None => Some (mk_options OP_MODE_DOWNLOAD f l d e)
  | Opt OPT_ID_SETTINGS None => Some (mk_options OP_MODE_SETTINGS f l d e)
  | Opt OPT_ID_RECONNECT_DL None => Some (mk_options OP_MODE_RECONNECT_DL f l d e)
  | Opt OPT_ID_FILE (Some s) => Some (mk_options m (Some s) l d e)
  | Opt OPT_ID_URL (Some s) => Some (mk_options m f (Some s) d e)
  | Opt OPT_ID_DEBUG None => Some (mk_options m f l true e)
  | Opt OPT_ID_NO_ERROR_REPORTING None => Some (mk_options m f l d true)
  | Opt OPT_ID_GET_HEALTH None => Some (mk_options OP_MODE_GET_HEALTH f l d e)
  | _ => None
  end.

Fixpoint options_loop (rs : list (opt_result opt_id)) (o : options) : option options :=
  match rs with
  | [] => Some o
  | r :: rs' => match option_step r o with Some o => options_loop rs' o | None => None end
  end.

Definition parse_options (argv : list string) : option options :=
  o ← options_loop (getopt_long long_opts [] argv) options_init;
  match op_mode o with
  | OP_MODE_DOWNLOAD | OP_MODE_UPLOAD => if bool_decide (is_Some (fifo_file_path o)) && bool_decide (is_Some (o_url o)) then Some o else None
  | _ => Some o
  end.

(** [req_ok], [rep_ok]: whether the control FIFOs can be made. *)
Definition configure_libnetwork (o : options) (req_ok rep_ok : bool) (req_name rep_name : text) (fd : Z) (c : network_context_t) :
    outcome (bool * network_context_t) :=
  match o_url o with
  | None => Undef
  | Some url =>
      '(st, c) ← libnetwork_set_url (text_of url) c;
      if negb (bool_decide (st = NETWORK_STATUS_SUCCESS)) then Ret (false, c)
      else
        let c := libnetwork_set_debug (o_debug o) (libnetwork_set_fd fd c) in
        let '(ok, c) :=
          match op_mode o with
          | OP_MODE_DOWNLOAD =>
              let '(st, c, _) := libnetwork_configure_control req_ok rep_ok req_name rep_name c in (bool_decide (st = NETWORK_STATUS_SUCCESS), c)
          | _ => (true, c)
          end in
        if negb ok then Ret (false, c)
        else Ret (true, if no_error_reporting o then libnetwork_report_errors false c else c)
  end.

(** The clients accept their arguments, and work with the URL that is set, or with the default. *)
Lemma skylark_clients_accepted c :
  parse_options (tail (Skylark.upload_daemon_argv c)) =
    Some (mk_options OP_MODE_UPLOAD (Some Skylark.UPLOAD_FIFO_FILE_PATH) (Some (Skylark.get_skylark_url c)) false true) /\
  parse_options (tail (Skylark.download_daemon_argv c)) =
    Some (mk_options OP_MODE_DOWNLOAD (Some Skylark.DOWNLOAD_FIFO_FILE_PATH) (Some (Skylark.get_skylark_url c)) false false).
Proof. split; reflexivity. Qed.
