(* ===== verification/OtaSettings.v ===== *)
(** * The settings of over-the-air upgrades

    [ota_daemon/src/ota_settings.c]: the notify functions, which start and stop the OTA client as a
    runit service; and [parse_options] of [ota_daemon.c], which the client applies to the command
    line that was written for it.  That libsettings takes back a value that a notify function has
    refused is a hypothesis on a parameter. *)

From Stdlib Require Import Ascii.
From S2P Require Import Prelude Libc Getopt Runit AdapterOpts.

Definition OTA_BASE_CMD : string := "ota_daemon --ota ".
Definition OTA_DBG_SWITCH : string := "--debug ".
Definition OTA_URL_SWITCH : string := "--url ".
Definition OTA_RUNIT_SERVICE_DIR : string := "/var/run/ota_daemon/sv".
Definition OTA_RUNIT_SERVICE_NAME : string := "ota_daemon".
Definition OTA_DEFAULT_URL : string := "https://upgrader.skylark.swiftnav.com/images".

Record settings := mk_settings { ota_enabled : bool; ota_debug : bool; ota_url : string }.

Definition runit_cfg (cmd : string) : runit_config_t := mk_cfg OTA_RUNIT_SERVICE_DIR OTA_RUNIT_SERVICE_NAME cmd None None false.

(** The buffer [cmd] has room for all of it. *)
Definition ota_command (c : settings) : string :=
  OTA_BASE_CMD +:+ ((if ota_debug c then OTA_DBG_SWITCH else EmptyString) +:+
    (if 0 <? String.length (ota_url c) then OTA_URL_SWITCH +:+ ota_url c else EmptyString)).

Inductive write_res := SETTINGS_WR_OK | SETTINGS_WR_SERVICE_FAILED | SETTINGS_WR_MODIFY_DISABLED.

Section notify.
Variable ready : bool.
Variable fails : fs_call -> bool.

Definition ota_notify_enable (c : settings) (w : runit_world) : outcome (runit_world * write_res) :=
  '(w, ret) ←
    (if ota_enabled c then start_runit_service ready fails (runit_cfg (ota_command c)) w
     else
       stat ← stat_runit_service fails (runit_cfg (ota_command c)) w;
       if bool_decide (stat = RUNIT_RUNNING) then stop_runit_service fails (runit_cfg (ota_command c)) w else Ret (w, 0%Z));
  Ret (w, if negb (ret =? 0)%Z then SETTINGS_WR_SERVICE_FAILED else SETTINGS_WR_OK).

Definition ota_notify_generic (w : runit_world) : outcome write_res :=
  stat ← stat_runit_service fails (runit_cfg EmptyString) w;
  Ret (if bool_decide (stat = RUNIT_RUNNING) then SETTINGS_WR_MODIFY_DISABLED else SETTINGS_WR_OK).
End notify.

(** ** Writing the settings *)

Inductive change := Set_enabled (b : bool) | Set_debug (b : bool) | Set_url (s : string).
Definition apply_change (x : change) (c : settings) : settings :=
  match x with
  | Set_enabled b => mk_settings b (ota_debug c) (ota_url c)
  | Set_debug b => mk_settings (ota_enabled c) b (ota_url c)
  | Set_url s => mk_settings (ota_enabled c) (ota_debug c) s
  end.

(** The supervisor of the client changes between the writes. *)
Record write := mk_write { w_change : change; w_ready : bool; w_fails : fs_call -> bool; w_supervise : gmap string supervise }.
Definition seen (w : runit_world) (e : write) : runit_world := mk_runit (rw_services w) (w_supervise e) (rw_commands w).

Section library.
Variable refused : settings -> settings -> settings.

Definition write_setting (s : settings * runit_world) (e : write) : outcome (settings * runit_world) :=
  let '(c, w) := s in
  let c' := apply_change (w_change e) c in
  let w := seen w e in
  match w_change e with
  | Set_enabled _ =>
      '(w, res) ← ota_notify_enable (w_ready e) (w_fails e) c' w;
      Ret (match res with SETTINGS_WR_OK => c' | _ => refused c c' end, w)
  | _ =>
      res ← ota_notify_generic (w_fails e) w;
      Ret (match res with SETTINGS_WR_OK => c' | _ => refused c c' end, w)
  end.
Fixpoint run (s : settings * runit_world) (es : list write) : outcome (settings * runit_world) :=
  match es with [] => Ret s | e :: es' => s ← write_setting s e; run s es' end.
End library.

(** ** The options of the client *)

Inductive opt_id := OPT_ID_DEBUG | OPT_ID_MODE_OTA | OPT_ID_MODE_SETTINGS | OPT_ID_URL.
#[export] Instance opt_id_eq_dec : EqDecision opt_id.
Proof. solve_decision. Defined.

Definition long_opts : list (long_option opt_id) :=
  [mk_option "debug" no_argument OPT_ID_DEBUG;
   mk_option "ota" no_argument OPT_ID_MODE_OTA;
   mk_option "settings" no_argument OPT_ID_MODE_SETTINGS;
   mk_option "url" required_argument OPT_ID_URL].

Inductive ota_op_mode := OP_MODE_OTA_CLIENT | OP_MODE_SETTINGS_DAEMON | OP_MODE_COUNT.
Record options := mk_options { op_mode : ota_op_mode; opt_url : option string; opt_debug : bool }.

Definition option_step (r : opt_result opt_id) (o : options) : option options :=
  match r with
  | Opt OPT_ID_MODE_OTA None => Some (mk_options OP_MODE_OTA_CLIENT (opt_url o) (opt_debug o))
  | Opt OPT_ID_MODE_SETTINGS None => Some (mk_options OP_MODE_SETTINGS_DAEMON (opt_url o) (opt_debug o))
  | Opt OPT_ID_URL (Some s) => Some (mk_options (op_mode o) (Some s) (opt_debug o))
  | Opt OPT_ID_DEBUG None => Some (mk_options (op_mode o) (opt_url o) true)
  | _ => None
  end.
Fixpoint options_loop (rs : list (opt_result opt_id)) (o : options) : option options :=
  match rs with
  | [] => Some o
  | r :: rs' => match option_step r o with Some o => options_loop rs' o | None => None end
  end.
Definition parse_options (argv : list string) : option options :=
  o ← options_loop (getopt_long long_opts [] argv) (mk_options OP_MODE_COUNT None false);
  Some (match op_mode o, opt_url o with OP_MODE_OTA_CLIENT, None => mk_options (op_mode o) (Some OTA_DEFAULT_URL) (opt_debug o) | _, _ => o end).

(** ** What the client takes from its command line *)

Definition effective_url (c : settings) : string := if 0 <? String.length (ota_url c) then ota_url c else OTA_DEFAULT_URL.

Lemma ota_command_words c : plain_word (ota_url c) = true ->
  exists argv, sh_words (ota_command c) = Some ("ota_daemon" :: argv) /\
    parse_options argv = Some (mk_options OP_MODE_OTA_CLIENT (Some (effective_url c)) (ota_debug c)).
Proof.
  intros Hp. unfold ota_command, effective_url. destruct (Nat.ltb_spec 0 (String.length (ota_url c))) as [Hl|Hl].
  - assert (ota_url c <> EmptyString) as Hne by (intros E; rewrite E in Hl; simpl in Hl; lia).
    pose proof (sh_words_one _ Hp Hne) as Hw. destruct (ota_debug c).
    + exists ["--ota"; "--debug"; "--url"; ota_url c]. split; [|reflexivity].
      apply (sh_words_app "ota_daemon --ota --debug --url" (ota_url c) ["ota_daemon"; "--ota"; "--debug"; "--url"] [ota_url c]); done.
    + exists ["--ota"; "--url"; ota_url c]. split; [|reflexivity].
      apply (sh_words_app "ota_daemon --ota --url" (ota_url c) ["ota_daemon"; "--ota"; "--url"] [ota_url c]); done.
  - destruct (ota_debug c); [exists ["--ota"; "--debug"]|exists ["--ota"]]; split; reflexivity.
Qed.

Lemma ota_path_length cmd : String.length (service_path (runit_cfg cmd)) <= 900.
Proof. apply Nat.leb_le. reflexivity. Qed.

(** Every write is answered. *)
Lemma write_setting_total refused s e : supervise_ok (seen s.2 e) -> exists s', write_setting refused s e = Ret s'.
Proof.
  intros Hs. destruct s as [c w]. unfold write_setting. cbn [snd] in Hs. set (w0 := seen w e) in *.
  assert (forall cmd, exists st, stat_runit_service (w_fails e) (runit_cfg cmd) w0 = Ret st) as Hst
    by (intros cmd; apply stat_runit_service_total; [apply ota_path_length|done]).
  assert (exists r, ota_notify_generic (w_fails e) w0 = Ret r) as [r Hr].
  { unfold ota_notify_generic. destruct (Hst EmptyString) as [st ->]. by eexists. }
  destruct (w_change e); [|rewrite Hr, bind_Ret; by eexists..].
  unfold ota_notify_enable. destruct (ota_enabled _).
  - destruct (start_runit_service_total (w_ready e) (w_fails e) (runit_cfg (ota_command (apply_change (Set_enabled b) c))) w0 (ota_path_length _)) as (w' & rc & ->).
    rewrite !bind_Ret. by eexists.
  - destruct (Hst (ota_command (apply_change (Set_enabled b) c))) as [st ->]. rewrite bind_Ret. case_bool_decide; [|rewrite !bind_Ret; by eexists].
    destruct (stop_runit_service_spec (w_fails e) (runit_cfg (ota_command (apply_change (Set_enabled b) c))) w0 (ota_path_length _) Hs) as (w' & rc & -> & _).
    rewrite !bind_Ret. by eexists.
Qed.

(** While the supervisor reports the client as running its settings stay, if the library takes back
    what is refused. *)
Lemma running_keeps_settings refused c w e : (forall old new, refused old new = old) ->
  stat_runit_service (w_fails e) (runit_cfg EmptyString) (seen w e) = Ret RUNIT_RUNNING ->
  match w_change e with Set_enabled _ => True | _ => write_setting refused (c, w) e = Ret (c, seen w e) end.
Proof.
  intros Hr Hst. unfold write_setting, ota_notify_generic. rewrite Hst, bind_Ret. rewrite bool_decide_eq_true_2 by done.
  destruct (w_change e); [done|..]; by rewrite bind_Ret, Hr.
Qed.

(** The OTA client runs with its settings.  When enabling it is reported to have succeeded, the
    service has the command line of the settings and its supervisor has been told once to run it,
    and the client, started by the shell with that line, takes from it the URL that is set, or the
    default one, and the debug flag. *)
Theorem ota_client_as_set ready fails c w w' : ota_enabled c = true -> plain_word (ota_url c) = true ->
  ota_notify_enable ready fails c w = Ret (w', SETTINGS_WR_OK) ->
  let path := OTA_RUNIT_SERVICE_DIR +:+ "/" +:+ OTA_RUNIT_SERVICE_NAME in
  exists cmd argv, (sv_run <$> rw_services w' !! path) = Some (Some (script cmd)) /\ rw_commands w' = rw_commands w ++ [(path, C_once)] /\
    sh_words cmd = Some ("ota_daemon" :: argv) /\
    parse_options argv = Some (mk_options OP_MODE_OTA_CLIENT (Some (effective_url c)) (ota_debug c)).
Proof.
  intros He Hp E path. unfold ota_notify_enable in E. rewrite He in E.
  destruct (start_runit_service ready fails (runit_cfg (ota_command c)) w) as [[w1 rc]| |] eqn:Es; [|done..]. rewrite bind_Ret in E.
  destruct (Z.eqb_spec rc 0) as [->|]; [|done]. cbn [negb] in E. injection E as <-.
  apply start_runit_service_spec in Es as (_ & _ & _ & _ & Hdone). destruct (Hdone eq_refl) as [H1 H2].
  destruct (ota_command_words c Hp) as (argv & Hw & Hparse). exists (ota_command c), argv. split; [|split; [exact H2|done]].
  change path with (service_path (runit_cfg (ota_command c))). by rewrite H1.
Qed.

Definition sample_ota : settings := mk_settings true true "https://example.com/images".

Lemma ota_client_as_set_witness :
  exists w argv, ota_notify_enable true (fun _ => false) sample_ota (mk_runit ∅ ∅ []) = Ret (w, SETTINGS_WR_OK) /\
    parse_options argv = Some (mk_options OP_MODE_OTA_CLIENT (Some "https://example.com/images") true).
Proof.
  destruct (ota_notify_enable true (fun _ => false) sample_ota (mk_runit ∅ ∅ [])) as [[w r]| |] eqn:E; [|vm_compute in E; discriminate E..].
  assert (r = SETTINGS_WR_OK) as -> by (vm_compute in E; injection E; congruence).
  destruct (ota_client_as_set true (fun _ => false) sample_ota (mk_runit ∅ ∅ []) w eq_refl ltac:(vm_compute; reflexivity) E) as (cmd & argv & _ & _ & _ & H).
  exists w, argv. split; [reflexivity|exact H].
Defined.

(** A URL with a character that the shell interprets is not passed on as it is. *)
Example ota_url_unquoted : sh_words (ota_command (mk_settings true false "https://example.com/?a=1&b=2")) = None.
Proof. vm_compute. reflexivity. Qed.
