(* ===== verification/AtCommand.v ===== *)
(** * Talking to the cellular modem

    [cell_modem_daemon/src/at_command_utils.c] (a command on a serial port and the signal quality
    read from its answer) with [libpiksi/libpiksi/src/serial_utils.c], the status message of
    [cell_modem_daemon.c], and [cell_modem_probe.c] (is there a modem behind a device?).  What the
    port delivers is a list of answers to [select] and [read]; buffers are arrays with their bounds. *)

From Stdlib Require Import Ascii.
From S2P Require Import Prelude Libc Text Getopt.

Definition CR : ascii := ascii_of_nat 13.
Definition is_eol (c : ascii) : bool := bool_decide (c = CR) || bool_decide (c = newline_char).
Definition OK : text := ["O"; "K"]%char.
Definition ERROR : text := ["E"; "R"; "R"; "O"; "R"]%char.
Definition crlf : text := [CR; newline_char].

(** ** The serial port *)

Definition SERIAL_PORT_NAME_MAX_LENGTH : nat := 128.
Record serial_port := mk_port { port_name : string; port_fd : Z; is_open : bool }.

Definition serial_port_create (name : string) : option serial_port :=
  if (0 <? String.length name) && (String.length name <? SERIAL_PORT_NAME_MAX_LENGTH) then Some (mk_port name (-1) false) else None.

(** [fd]: what [open] answers. *)
Definition serial_port_open (fd : option Z) (p : serial_port) : serial_port :=
  if is_open p then p else match fd with Some fd => mk_port (port_name p) fd true | None => p end.
Definition serial_port_close (p : serial_port) : serial_port :=
  if is_open p then mk_port (port_name p) (-1) false else p.

(** ** A command and its answer *)

Definition AT_RESULT_MAX_LENGTH : nat := 128.
Definition AT_COMMAND_MAX_LENGTH : nat := 128.
Record at_command := mk_command { command : string; result : text; result_length : nat; complete : bool }.

Definition at_serial_port_command_create (c : string) : option at_command :=
  if (0 <? String.length c) && (String.length c <? AT_COMMAND_MAX_LENGTH)
  then Some (mk_command c (replicate AT_RESULT_MAX_LENGTH NUL) 0 false) else None.

(** What [read] answers, one entry per call: the data at hand, or an error; no data when a second
    has passed, as after the last entry. *)
Definition reads := list (option text).

(** The tests for the end of an answer, at [current]. *)
Definition answer_ends (buf : text) (current : nat) : bool :=
  ((4 <=? current) && bool_decide (is_Some (strstr (c_str (drop (current - 4) buf)) OK))) ||
  ((7 <=? current) && bool_decide (is_Some (strstr (c_str (drop (current - 7) buf)) ERROR))).

(** The loop of [at_serial_port_wait_command_response]: the buffer, [current] and [complete]. *)
Fixpoint wait_loop (rs : reads) (buf : text) (current : nat) : outcome (text * nat * bool) :=
  match rs with
  | Some data :: rs' =>
      let data := take (AT_RESULT_MAX_LENGTH - current - 1) data in
      match data with
      | [] => Ret (buf, current, false)
      | _ =>
          buf ← memcpy buf current data;
          let current := current + length data in
          last ← load buf (current - 1);
          '(buf, complete) ←
            (if is_eol last then buf ← store buf current NUL; Ret (buf, answer_ends buf current) else Ret (buf, false));
          if (complete : bool) || (current =? AT_RESULT_MAX_LENGTH - 1) then Ret (buf, current, complete)
          else wait_loop rs' buf current
      end
  | _ => Ret (buf, current, false)
  end.
Definition at_serial_port_wait_command_response (rs : reads) (c : at_command) : outcome at_command :=
  '(buf, current, complete) ← wait_loop rs (result c) 0;
  buf ← store buf current NUL;
  Ret (mk_command (command c) buf current complete).

(** What the port answers to one command: [open], the two calls of [write], the reads. *)
Record exchange := mk_exchange { x_open : option Z; x_written : Z * Z; x_reads : reads }.

Definition at_serial_port_execute_command (x : exchange) (p : serial_port) (c : at_command) : outcome (Z * serial_port * at_command) :=
  let p := serial_port_open (x_open x) p in
  if negb (is_open p) then Ret ((-1)%Z, p, c)
  else if negb ((x_written x).1 + (x_written x).2 =? Z.of_nat (String.length (command c)) + 1)%Z
  then Ret ((-1)%Z, serial_port_close p, c)
  else
    c ← at_serial_port_wait_command_response (x_reads x) c;
    Ret (if complete c then 0%Z else (-1)%Z, serial_port_close p, c).

(** ** The signal quality *)

Definition signal_to_dbm_lookup : list Z :=
  [-113; -111; -109; -107; -105; -103; -101; -99; -97; -95; -93;
   -91; -89; -87; -85; -83; -81; -79; -77; -75; -73;
   -71; -69; -67; -65; -63; -61; -59; -57; -55; -53; -51]%Z.
Definition modem_signal_strength_to_dbm (signal_raw : Z) : Z :=
  if (signal_raw <? 32)%Z then default 0%Z (signal_to_dbm_lookup !! Z.to_nat signal_raw) else 0%Z.

(** The rates in tenths of a percent; the code has the nearest [float]. *)
Definition error_to_percent_lookup : list Z := [2; 3; 6; 12; 24; 48; 96; 128]%Z.
Definition modem_error_rate_to_percent (error_raw : Z) : Z :=
  if (error_raw <? 8)%Z then default 0%Z (error_to_percent_lookup !! Z.to_nat error_raw) else 0%Z.

(** [strtoul(s, &end, 10)]; [None] when there is no number or it is out of range. *)
Definition strtoul10 (s : string) : option (Z * string) :=
  let '(neg, s1) := skip_sign (skip_space s) in
  match s1 with
  | String.String c _ =>
      if isdigit c then
        let '(v, rest) := dec_digits s1 0 in
        if (SIZE_MAX <? v)%Z then None else Some (u32 (if (neg : bool) then - v else v)%Z, rest)
      else None
  | EmptyString => None
  end.

(** The parser of [at_command_report_signal_quality]: the result with what it has stored through
    its two pointers. *)
Definition parse_csq (res : text) (quality : Z * Z) : Z * (Z * Z) :=
  match strstr res (text_of "+CSQ:") with
  | None => ((-1)%Z, quality)
  | Some parse_ref =>
      match strtoul10 (string_of (drop 5 parse_ref)) with
      | None => ((-1)%Z, quality)
      | Some (signal_raw, rest) =>
          let quality := (modem_signal_strength_to_dbm signal_raw, quality.2) in
          match rest with
          | String.String c rest =>
              if negb (Ascii.eqb c ",") then ((-1)%Z, quality)
              else match strtoul10 rest with
                   | None => ((-1)%Z, quality)
                   | Some (error_raw, _) => (0%Z, (quality.1, modem_error_rate_to_percent error_raw))
                   end
          | EmptyString => ((-1)%Z, quality)
          end
      end
  end.

Definition csq_command : string := "AT+CSQ".
Definition at_command_report_signal_quality (x : exchange) (p : serial_port) (quality : Z * Z) : outcome (Z * (Z * Z) * serial_port) :=
  match at_serial_port_command_create csq_command with
  | None => Ret ((-1)%Z, quality, p)
  | Some c =>
      '(_, p, c) ← at_serial_port_execute_command x p c;
      res ← buf_str (result c);
      Ret (parse_csq res quality, p)
  end.

(** [cell_status_timer_callback]: the strength and the error rate of the message sent, if any. *)
Definition send_cell_modem_status (x : exchange) (p : serial_port) : outcome (option (Z * Z) * serial_port) :=
  '(ret, quality, p) ← at_command_report_signal_quality x p (0, 0)%Z;
  Ret (if negb (ret =? 0)%Z then None else Some quality, p).
Definition cell_status_timer_callback (enabled : bool) (x : exchange) (p : serial_port) : outcome (option (Z * Z) * serial_port) :=
  if enabled then send_cell_modem_status x p else Ret (None, p).

(** *** What is received, without the buffer *)

Definition at_end (t : text) : bool := match last t with Some c => is_eol c && answer_ends t (length t) | None => false end.

Fixpoint received (rs : reads) (t : text) : text * bool :=
  match rs with
  | Some data :: rs' =>
      match take (AT_RESULT_MAX_LENGTH - length t - 1) data with
      | [] => (t, false)
      | data =>
          let t := t ++ data in
          if at_end t || (length t =? AT_RESULT_MAX_LENGTH - 1) then (t, at_end t) else received rs' t
      end
  | _ => (t, false)
  end.

Lemma answer_ends_pad t m : length t <= m -> answer_ends (pad m t) (length t) = answer_ends t (length t).
Proof.
  intros Hm. unfold answer_ends. assert (forall k, k <= length t -> c_str (drop k (pad m t)) = c_str (drop k t)) as H.
  { intros k Hk. unfold pad. rewrite drop_app_le by done. destruct (m - length t) as [|j]; [by rewrite app_nil_r|].
    change (replicate (S j) NUL) with (NUL :: replicate j NUL). apply c_str_app_nul_r. }
  by rewrite !H by lia.
Qed.

Lemma memcpy_pad m t data : length t + length data <= m -> memcpy (pad m t) (length t) data = Ret (pad m (t ++ data)).
Proof.
  intros Hm. rewrite memcpy_ok by (rewrite length_pad; lia). f_equal. unfold pad. rewrite take_app_length, <-app_assoc, length_app.
  f_equal. f_equal. rewrite drop_app_ge, drop_replicate by lia. f_equal. lia.
Qed.

Lemma store_pad m t : length t < m -> store (pad m t) (length t) NUL = Ret (pad m t).
Proof.
  intros Hm. rewrite store_ok by (rewrite length_pad; lia). f_equal. unfold pad.
  destruct (m - length t) as [|j] eqn:E; [lia|]. rewrite insert_app_r_alt by lia. by rewrite Nat.sub_diag.
Qed.

Lemma load_pad_last m t c data : load (pad m (t ++ c :: data)) (length (t ++ c :: data) - 1) = of_option (last (t ++ c :: data)).
Proof.
  unfold load, pad. rewrite lookup_app_l by (rewrite length_app; simpl; lia). by rewrite last_lookup, Nat.sub_1_r.
Qed.

(** Whatever the port delivers, waiting for the answer stays inside the buffer and keeps what was
    received up to the end of the answer, the end of the buffer or a read without data. *)
Lemma wait_loop_received rs t : length t < AT_RESULT_MAX_LENGTH ->
  let '(t', c) := received rs t in
  wait_loop rs (pad AT_RESULT_MAX_LENGTH t) (length t) = Ret (pad AT_RESULT_MAX_LENGTH t', length t', c) /\ length t' < AT_RESULT_MAX_LENGTH.
Proof.
  revert t. induction rs as [|[data|] rs IH]; intros t Ht; [done| |done]. cbn [received wait_loop].
  destruct (take (AT_RESULT_MAX_LENGTH - length t - 1) data) as [|c d] eqn:Ed; [done|].
  assert (length (c :: d) <= AT_RESULT_MAX_LENGTH - length t - 1) as Hd by (rewrite <-Ed, length_take; lia).
  rewrite memcpy_pad, bind_Ret by lia. rewrite <-length_app, load_pad_last. cbv zeta.
  set (t1 := t ++ c :: d) in *. assert (length t1 < AT_RESULT_MAX_LENGTH) as H1 by (unfold t1; rewrite length_app; lia).
  assert (exists e, last t1 = Some e) as [e He].
  { destruct (last t1) eqn:E; [by eexists|]. apply last_None in E. unfold t1 in E. by apply app_nil in E as [_ ?]. }
  unfold at_end. rewrite He. cbn [of_option]. rewrite bind_Ret.
  destruct (is_eol e).
  - rewrite store_pad, bind_Ret, bind_Ret by done. cbn [andb]. rewrite answer_ends_pad by lia.
    destruct (answer_ends t1 (length t1)); cbn [orb]; [done|]. destruct (_ =? _); [done|]. by apply IH.
  - rewrite bind_Ret. cbn [andb orb]. destruct (_ =? _); [done|]. by apply IH.
Qed.

Lemma wait_command_response_total rs c : result c = replicate AT_RESULT_MAX_LENGTH NUL ->
  let '(t, b) := received rs [] in
  at_serial_port_wait_command_response rs c = Ret (mk_command (command c) (pad AT_RESULT_MAX_LENGTH t) (length t) b) /\
  length t < AT_RESULT_MAX_LENGTH.
Proof.
  intros Hc. pose proof (wait_loop_received rs [] ltac:(unfold AT_RESULT_MAX_LENGTH; simpl; lia)) as H.
  destruct (received rs []) as [t b]. destruct H as [H Ht]. split; [|done].
  unfold at_serial_port_wait_command_response. rewrite Hc. change (replicate AT_RESULT_MAX_LENGTH NUL) with (pad AT_RESULT_MAX_LENGTH []).
  change 0 with (length (@nil ascii)). rewrite H, bind_Ret, store_pad by done. done.
Qed.

(** An answer that is delivered in pieces is kept up to the end of a piece at which it is found to
    be complete. *)
Lemma received_pieces reply chunks t : t ++ concat chunks = reply -> Forall (fun d => d <> []) chunks ->
  length reply < AT_RESULT_MAX_LENGTH - 1 -> at_end reply = true -> chunks <> [] ->
  exists t', received (Some <$> chunks) t = (t', true) /\ t' `prefix_of` reply /\ at_end t' = true.
Proof.
  revert t. induction chunks as [|d chunks IH]; intros t Heq Hne Hl He Hc; [done|]. apply Forall_cons in Hne as [Hd Hne].
  cbn [fmap list_fmap received]. cbn [concat] in Heq.
  assert (length t + length d + length (concat chunks) = length reply) as Hlen by (rewrite <-Heq, !length_app; lia).
  rewrite take_ge by lia. destruct d as [|c d]; [done|].
  destruct (at_end (t ++ c :: d)) eqn:Ee.
  - cbn [orb]. eexists. split; [done|]. split; [|done]. exists (concat chunks). by rewrite <-Heq, app_assoc.
  - cbn [orb]. assert (length (t ++ c :: d) =? AT_RESULT_MAX_LENGTH - 1 = false) as -> by (apply Nat.eqb_neq; rewrite length_app; lia).
    apply IH; try done; [by rewrite <-app_assoc|]. intros ->. cbn [concat] in Heq. rewrite app_nil_r in Heq. congruence.
Qed.

(** ** The answer of a modem to AT+CSQ *)

Definition csq_reply (echo : bool) (rssi ber : Z) : text :=
  (if echo then text_of csq_command ++ [CR] else []) ++ crlf ++ text_of ("+CSQ: " +:+ print_u rssi +:+ "," +:+ print_u ber) ++
  crlf ++ crlf ++ OK ++ crlf.

Definition dbm (rssi : Z) : Z := if (rssi <=? 31)%Z then (2 * rssi - 113)%Z else 0%Z.

(** What comes before the end of the answer. *)
Definition csq_core (echo : bool) (rssi ber : Z) : text :=
  (if echo then text_of csq_command ++ [CR] else []) ++ crlf ++ text_of ("+CSQ: " +:+ print_u rssi +:+ "," +:+ print_u ber).

Lemma strstr_in s needle c : is_Some (strstr s needle) -> c ∈ needle -> c ∈ s.
Proof.
  induction s as [|x s IH]; cbn [strstr]; unfold starts_with; case_bool_decide as E; intros [r Hr] Hc; try done.
  - rewrite <-E in Hc. by rewrite take_nil in Hc.
  - rewrite <-E in Hc. eapply elem_of_submseteq; [exact Hc|]. apply sublist_submseteq, sublist_take.
  - apply elem_of_cons. right. apply IH; [by eexists|done].
Qed.

Lemma c_str_in t c : c ∈ c_str t -> c ∈ t.
Proof.
  unfold c_str. induction t as [|x t IH]; cbn [take_while]; [done|]. destruct (negb _); [|by intros ?%not_elem_of_nil].
  intros [->|H]%elem_of_cons; apply elem_of_cons; [by left|right; by apply IH].
Qed.

(** A complete answer has a letter of OK or ERROR. *)
Lemma at_end_has t : at_end t = true -> ("K"%char ∈ t) \/ ("E"%char ∈ t).
Proof.
  unfold at_end, answer_ends. destruct (last t); [|done]. intros H. apply andb_true_iff in H as [_ H].
  assert (forall k needle c, bool_decide (is_Some (strstr (c_str (drop k t)) needle)) = true -> c ∈ needle -> c ∈ t) as Hin.
  { intros k needle c Hs Hc. apply bool_decide_eq_true in Hs. apply (strstr_in _ _ _ Hs), c_str_in in Hc.
    eapply elem_of_submseteq; [exact Hc|]. apply sublist_submseteq, sublist_drop. }
  apply orb_true_iff in H as [[_ H]%andb_true_iff|[_ H]%andb_true_iff].
  - left. apply (Hin _ _ _ H). set_solver.
  - right. apply (Hin _ _ _ H). set_solver.
Qed.

(** A number is read back, with or without a blank before it. *)
Lemma strtoul10_print_u v s : (0 <= v <= SIZE_MAX)%Z -> match s with String.String c _ => isdigit c = false | EmptyString => True end ->
  strtoul10 (print_u v +:+ s) = Some (v, s) /\ strtoul10 (String.String " " (print_u v +:+ s)) = Some (v, s).
Proof.
  intros Hv Hs. unfold SIZE_MAX in Hv. destruct (print_u_props v) as (ds & -> & Hd & Hne & Hval). specialize (Hval ltac:(lia)).
  destruct (decimal_head ds s Hd Hne Hs) as (c & t & -> & Hc & Hsp & Hsg & Hdd). rewrite Hval in Hdd.
  assert (u32 v = v) as Hu by (apply u32_small; lia). assert ((SIZE_MAX <? v)%Z = false) as Hlt by (apply Z.ltb_ge; unfold SIZE_MAX; lia).
  unfold strtoul10. cbn [skip_space]. change (isspace " ") with true. cbv match. by rewrite Hsp, Hsg, Hc, Hdd, Hlt, Hu.
Qed.

Lemma csq_core_plain echo rssi ber c : c ∈ csq_core echo rssi ber -> c <> "K"%char /\ c <> "E"%char /\ c <> NUL.
Proof.
  unfold csq_core. rewrite !text_of_app. intros Hc.
  assert (isdigit c = true \/ c ∈ text_of csq_command ++ [CR] ++ crlf ++ text_of "+CSQ: " ++ text_of ",") as [H|H].
  { destruct echo; rewrite !elem_of_app in Hc; rewrite !elem_of_app;
      repeat match goal with H : _ \/ _ |- _ => destruct H as [H|H] | H : _ ∈ text_of (print_u _) |- _ => apply print_u_in in H
        | H : _ ∈ [] |- _ => by apply not_elem_of_nil in H end; tauto. }
  - split_and!; intros ->; done.
  - clear Hc. revert c H. apply Forall_forall, (bool_decide_unpack _). vm_compute. exact I.
Qed.

(** Every prefix at which the answer counts as complete holds both numbers. *)
Lemma csq_prefix echo rssi ber p : p `prefix_of` csq_reply echo rssi ber -> at_end p = true ->
  exists rest, p = csq_core echo rssi ber ++ CR :: rest /\ CR :: rest `prefix_of` crlf ++ crlf ++ OK ++ crlf.
Proof.
  intros [q Hq] He. assert (csq_reply echo rssi ber = csq_core echo rssi ber ++ crlf ++ crlf ++ OK ++ crlf) as Hr
    by (unfold csq_reply, csq_core; rewrite <-!app_assoc; done).
  rewrite Hr in Hq. apply app_eq_app in Hq as (l & [[Hq1 Hq2]|[Hq1 Hq2]]).
  - apply at_end_has in He. assert (p `prefix_of` csq_core echo rssi ber) as [q' Hp] by (by exists l).
    destruct He as [He|He]; exfalso; destruct (csq_core_plain echo rssi ber _ ltac:(rewrite Hp; apply elem_of_app; left; exact He)) as (? & ? & ?); done.
  - destruct l as [|c l].
    + rewrite app_nil_r in Hq1. subst p. apply at_end_has in He.
      destruct He as [He|He]; exfalso; by destruct (csq_core_plain echo rssi ber _ He) as (? & ? & ?).
    + pose proof Hq2 as Hq3. unfold crlf in Hq3. cbn [app] in Hq3. injection Hq3 as <- _. exists l. split; [done|]. by exists q.
Qed.

Lemma parse_csq_core echo rssi ber rest quality : (0 <= rssi <= SIZE_MAX)%Z -> (0 <= ber <= SIZE_MAX)%Z ->
  parse_csq (csq_core echo rssi ber ++ CR :: rest) quality =
    (0, (modem_signal_strength_to_dbm rssi, modem_error_rate_to_percent ber))%Z.
Proof.
  intros Hr Hb. unfold csq_core. rewrite !text_of_app. set (a := text_of (print_u rssi)). set (b := text_of (print_u ber)).
  assert (strstr (((if echo then text_of csq_command ++ [CR] else []) ++ crlf ++ text_of "+CSQ: " ++ a ++ text_of "," ++ b) ++ CR :: rest) (text_of "+CSQ:") =
    Some (text_of "+CSQ: " ++ a ++ text_of "," ++ b ++ CR :: rest)) as Hs.
  { rewrite <-!app_assoc. destruct echo; reflexivity. }
  unfold parse_csq. rewrite Hs. change (drop 5 (text_of "+CSQ: " ++ a ++ text_of "," ++ b ++ CR :: rest)) with (" "%char :: a ++ "," :: b ++ CR :: rest)%char.
  change (string_of (" "%char :: a ++ ","%char :: b ++ CR :: rest)) with (String.String " " (string_of (a ++ ","%char :: b ++ CR :: rest))).
  unfold a, b. rewrite string_of_app.
  change (string_of (","%char :: text_of (print_u ber) ++ CR :: rest)) with (String.String "," (string_of (text_of (print_u ber) ++ CR :: rest))).
  rewrite string_of_app. change (string_of (CR :: rest)) with (String.String CR (string_of rest)).
  rewrite (proj2 (strtoul10_print_u rssi (String.String "," _) Hr eq_refl)). cbn [Ascii.eqb negb].
  by rewrite (proj1 (strtoul10_print_u ber (String.String CR _) Hb eq_refl)).
Qed.

Lemma dbm_table : forallb (fun k => bool_decide (modem_signal_strength_to_dbm (Z.of_nat k) = dbm (Z.of_nat k))) (seq 0 100) = true.
Proof. reflexivity. Qed.

(** ** Is there a modem? *)

Inductive modem_type := MODEM_TYPE_INVALID | MODEM_TYPE_GSM | MODEM_TYPE_CDMA.
#[export] Instance modem_type_eq_dec : EqDecision modem_type.
Proof. solve_decision. Defined.

(** What the device answers to a call of [select] and the [read] after it. *)
Inductive answer := Silent | Select_error | Read_error | Data (t : text).

(** The answers to come.  After them the device is silent, or it has been hung up: then it is always
    ready and there is nothing to read. *)
Record device := mk_device { answers : list answer; hung_up : bool }.

Definition RESPONSE_OK : nat := 0.
Definition response_strs : list text := [OK ++ crlf; ERROR ++ crlf].

(** The first response that [n] characters of the buffer end in. *)
Fixpoint find_response (responses : list text) (i : nat) (buf : text) (n : nat) : option (nat * text) :=
  match responses with
  | [] => None
  | r :: rs => if (length r <=? n) && bool_decide (c_str (drop (n - length r) buf) = r) then Some (i, r) else find_response rs (S i) buf n
  end.

Section modem.
Variable gone : bool.

(** The result, the buffer and the answers that are left. *)
Fixpoint modem_read (rs : list answer) (buf : text) (n : nat) : outcome (Z * text * list answer) :=
  match rs with
  | [] => if gone then Diverge else Ret ((-1)%Z, buf, [])
  | Silent :: rs' => Ret ((-1)%Z, buf, rs')
  | Select_error :: rs' => Ret ((-2)%Z, buf, rs')
  | Read_error :: rs' => Ret ((-3)%Z, buf, rs')
  | Data t :: rs' =>
      let room := length buf - n - 1 in
      let left := match drop room t with [] => rs' | t' => Data t' :: rs' end in
      let data := take room t in
      buf ← memcpy buf n data;
      let n := n + length data in
      buf ← store buf n NUL;
      match find_response response_strs 0 buf n with
      | Some (i, r) => buf ← store buf (n - length r) NUL; Ret (Z.of_nat i, buf, left)
      | None => if n <? length buf - 1 then modem_read rs' buf n else Ret ((-4)%Z, buf, left)
      end
  end.

(** Clearing the end of line before [i] characters: the index runs below 0 when there is nothing else. *)
Fixpoint strip_tail (buf : text) (i : nat) : outcome text :=
  match i with
  | O => Undef
  | S i' =>
      c ← load buf i';
      if is_eol c then buf ← store buf i' NUL; strip_tail buf i' else Ret buf
  end.

(** [response]: the array for the answer, of its length. *)
Definition cell_modem_command (rs : list answer) (cmd : text) (response : option text) : outcome (Z * option text * list answer) :=
  '(r, buf, rs) ← modem_read rs (replicate 256 NUL) 0;
  if negb (r =? Z.of_nat RESPONSE_OK)%Z then Ret ((-1)%Z, response, rs)
  else if negb (bool_decide (take (length cmd) (c_str buf) = cmd)) then Ret ((-2)%Z, response, rs)
  else
    match response with
    | None => Ret (0%Z, None, rs)
    | Some resp =>
        buf ← strip_tail buf (length (c_str buf));
        let rest := drop_while is_eol (drop (length cmd) buf) in
        resp ← strncpy resp (c_str rest) (length resp);
        Ret (0%Z, Some resp, rs)
    end.

(** The first command, sent at most seven times: [retries] of the code goes from 5 to below 0. *)
Fixpoint probe_at (retries : nat) (rs : list answer) (r : text) : outcome (bool * list answer) :=
  '(res, _, rs) ← cell_modem_command rs (text_of "AT") (Some r);
  if (res =? 0)%Z then Ret (true, rs)
  else match retries with O => Ret (false, rs) | S retries' => probe_at retries' rs r end.

(** The questions about the modem; each answer is logged as a string. *)
Fixpoint probe_params (cmds : list string) (rs : list answer) (r : text) : outcome (bool * list answer) :=
  match cmds with
  | [] => Ret (true, rs)
  | c :: cmds' =>
      '(res, resp, rs) ← cell_modem_command rs (text_of c) (Some r);
      if (res <? 0)%Z then Ret (false, rs)
      else _ ← buf_str (default r resp); probe_params cmds' rs r
  end.
End modem.

Definition param_commands : list string := ["AT+CGMI"; "AT+CGMM"; "AT+CGMR"; "AT+CGSN"].

(** What [open], [isatty] and [tcsetattr] answer, then the device. *)
Record tty := mk_tty { t_open : bool; t_isatty : bool; t_setattr : bool; t_device : device }.

Definition starts (p s : string) : bool := String.prefix p s.

(** [r]: what is in the uninitialised array for an answer. *)
Definition cell_modem_probe (dev : string) (t : tty) (r : text) : outcome modem_type :=
  if negb (starts "ttyUSB" dev) && negb (starts "ttyACM" dev) then Ret MODEM_TYPE_INVALID
  else if negb (t_open t && t_isatty t && t_setattr t) then Ret MODEM_TYPE_INVALID
  else
    let gone := hung_up (t_device t) in
    '(ok, rs) ← probe_at gone 6 (answers (t_device t)) r;
    if negb (ok : bool) then Ret MODEM_TYPE_INVALID
    else
      '(ok, rs) ← probe_params gone param_commands rs r;
      if negb (ok : bool) then Ret MODEM_TYPE_INVALID
      else
        '(res, _, _) ← cell_modem_command gone rs (text_of "AT+CGDCONT?") None;
        Ret (if (res =? 0)%Z then MODEM_TYPE_GSM else MODEM_TYPE_CDMA).

(** ** What is read of an answer *)

Definition response_at (t : text) : option (nat * text) := find_response response_strs 0 t (length t).

Lemma find_response_pad responses i m t : length t < m ->
  find_response responses i (pad m t) (length t) = find_response responses i t (length t).
Proof.
  intros Hm. revert i. induction responses as [|r rs IH]; intros i; [done|]. cbn [find_response]. rewrite IH.
  destruct (Nat.leb_spec (length r) (length t)); [|done]. cbn [andb].
  assert (c_str (drop (length t - length r) (pad m t)) = c_str (drop (length t - length r) t)) as ->; [|done].
  unfold pad. rewrite drop_app_le by lia. destruct (m - length t) as [|j] eqn:E; [lia|].
  change (replicate (S j) NUL) with (NUL :: replicate j NUL). apply c_str_app_nul_r.
Qed.

(** An answer within the buffer that ends only once. *)
Definition framed (t : text) : Prop :=
  length t < 256 /\ forall p, p `prefix_of` t -> p <> t -> response_at p = None.

Lemma modem_read_pieces gone chunks rs reply i r t : t ++ concat chunks = reply -> Forall (fun d => d <> []) chunks -> chunks <> [] ->
  framed reply -> response_at reply = Some (i, r) ->
  modem_read gone ((Data <$> chunks) ++ rs) (pad 256 t) (length t) =
    buf ← store (pad 256 reply) (length reply - length r) NUL; Ret (Z.of_nat i, buf, rs).
Proof.
  intros Heq Hne Hc [Hl Hf] Hr. revert t Heq. induction Hne as [|d chunks Hd Hne IH]; intros t Heq; [done|].
  cbn [concat] in Heq. assert (length t + length d + length (concat chunks) = length reply) as Hlen by (rewrite <-Heq, !length_app; lia).
  cbn [fmap list_fmap app modem_read]. rewrite length_pad by lia. rewrite drop_ge, take_ge by lia. cbv zeta.
  rewrite memcpy_pad, bind_Ret by lia. rewrite <-length_app. rewrite store_pad, bind_Ret by (rewrite length_app; lia).
  rewrite find_response_pad by (rewrite length_app; lia). rewrite app_assoc in Heq.
  destruct chunks as [|d' chunks].
  - cbn [concat] in Heq. rewrite app_nil_r in Heq. rewrite Heq. unfold response_at in Hr. by rewrite Hr.
  - assert (response_at (t ++ d) = None) as Hn.
    { apply Hf; [by exists (concat (d' :: chunks))|]. intros E. rewrite <-Heq in E.
      apply Forall_cons in Hne as [Hd' _]. apply (f_equal length) in E. cbn [concat] in E. rewrite !length_app in E.
      destruct d'; [done|]. simpl in E. lia. }
    unfold response_at in Hn. rewrite Hn, length_pad by (rewrite length_app; lia).
    destruct (Nat.ltb_spec (length (t ++ d)) (256 - 1)) as [_|Hx].
    + by apply IH.
    + rewrite length_app in Hx. apply Forall_cons in Hne as [Hd' _]. cbn [concat] in Hlen. rewrite length_app in Hlen. destruct d'; [done|]. simpl in Hlen. lia.
Qed.

(** An answer that fills the buffer before it ends. *)
Definition overlong (t : text) : Prop :=
  255 <= length t /\ forall p, p `prefix_of` take 255 t -> response_at p = None.

Lemma modem_read_overlong gone chunks rs reply t : t ++ concat chunks = reply -> length t < 255 -> overlong reply ->
  exists buf rs', modem_read gone ((Data <$> chunks) ++ rs) (pad 256 t) (length t) = Ret ((-4)%Z, buf, rs').
Proof.
  intros Heq Ht [Hl Hn]. revert t Ht Heq. induction chunks as [|d chunks IH]; intros t Ht Heq.
  { rewrite app_nil_r in Heq. subst reply. lia. }
  cbn [concat] in Heq. cbn [fmap list_fmap app modem_read]. rewrite length_pad by lia. cbv zeta.
  set (d1 := take (256 - length t - 1) d). assert (length d1 <= 256 - length t - 1) as Hd1 by (unfold d1; rewrite length_take; lia).
  rewrite memcpy_pad, bind_Ret by lia. rewrite <-length_app. rewrite store_pad, bind_Ret by (rewrite length_app; lia).
  rewrite find_response_pad by (rewrite length_app; lia).
  assert (response_at (t ++ d1) = None) as Hr.
  { apply Hn. rewrite <-Heq. rewrite take_app_ge by lia. apply prefix_app. unfold d1.
    replace (256 - length t - 1) with (255 - length t) by lia. rewrite take_app. apply prefix_app_r. done. }
  unfold response_at in Hr. rewrite Hr, length_pad by (rewrite length_app; lia).
  destruct (Nat.ltb_spec (length (t ++ d1)) (256 - 1)) as [Hlt|Hge]; [|by eexists _, _].
  rewrite length_app in Hlt. unfold d1 in *. rewrite length_take in Hlt. rewrite take_ge in * by lia.
  apply IH; [rewrite length_app; lia|]. by rewrite <-app_assoc.
Qed.

Lemma strip_tail_spec x trail y c : last x = Some c -> is_eol c = false -> Forall (fun c => is_eol c = true) trail ->
  strip_tail (x ++ trail ++ y) (length x + length trail) = Ret (x ++ replicate (length trail) NUL ++ y).
Proof.
  intros Hx Hc. revert y. induction trail as [|e trail IH] using rev_ind; intros y Ht.
  - cbn [length app replicate]. rewrite Nat.add_0_r. apply last_Some in Hx as [x' ->].
    rewrite length_app. cbn [length]. rewrite Nat.add_1_r. cbn [strip_tail]. rewrite <-app_assoc. cbn [app].
    unfold load. rewrite list_lookup_middle by done. cbn [of_option]. by rewrite bind_Ret, Hc.
  - apply Forall_app in Ht as [Ht He]. apply Forall_cons in He as [He _]. rewrite length_app. cbn [length].
    replace (length x + (length trail + 1)) with (S (length x + length trail)) by lia. cbn [strip_tail].
    rewrite <-app_assoc. cbn [app]. rewrite app_assoc. rewrite <-length_app.
    unfold load. rewrite list_lookup_middle by done. cbn [of_option]. rewrite bind_Ret, He.
    rewrite store_ok by (rewrite !length_app; simpl; lia). rewrite bind_Ret.
    rewrite insert_app_r_alt, Nat.sub_diag by done. cbn [insert list_insert]. rewrite length_app, <-app_assoc, IH by done.
    f_equal. f_equal. rewrite replicate_add, <-app_assoc. done.
Qed.

(** The answer to a command: the echo, end of lines, the body, end of lines and OK. *)
Definition reply_of (cmd body t : text) : Prop :=
  exists lead trail, t = cmd ++ lead ++ body ++ trail ++ OK ++ crlf /\
    Forall (fun c => is_eol c = true) lead /\ Forall (fun c => is_eol c = true) trail /\ no_nul body /\
    (body = [] -> lead = []) /\ (forall c, head body = Some c \/ last body = Some c -> is_eol c = false).

(** The commands of the probe. *)
Definition plain_cmd (cmd : text) : Prop := no_nul cmd /\ exists c, last cmd = Some c /\ is_eol c = false.

Lemma eol_no_nul l : Forall (fun c => is_eol c = true) l -> no_nul l.
Proof. unfold no_nul. intros H Hn. rewrite Forall_forall in H. apply H in Hn. done. Qed.

Lemma drop_while_app (f : ascii -> bool) a b : Forall (fun c => f c = true) a -> drop_while f (a ++ b) = drop_while f b.
Proof. induction 1 as [|c a H _ IH]; [done|]. cbn. by rewrite H. Qed.

(** What a command makes of a proper answer. *)
Lemma command_reply gone cmd body reply chunks rs resp : plain_cmd cmd -> reply_of cmd body reply -> framed reply ->
  response_at reply = Some (RESPONSE_OK, OK ++ crlf) -> concat chunks = reply -> Forall (fun d => d <> []) chunks ->
  cell_modem_command gone ((Data <$> chunks) ++ rs) cmd resp =
    match resp with
    | None => Ret (0%Z, None, rs)
    | Some r => r ← strncpy r body (length r); Ret (0%Z, Some r, rs)
    end.
Proof.
  intros [Hcn (cl & Hcl & Hce)] (lead & trail & Ht & Hlead & Htrail & Hnul & Hbl & Hbe) Hf Hr Hcat Hne.
  assert (chunks <> []) as Hc0. { intros ->. cbn in Hcat. rewrite Ht in Hcat. apply (f_equal length) in Hcat. rewrite !length_app in Hcat. simpl in Hcat. lia. }
  unfold cell_modem_command. change (replicate 256 NUL) with (pad 256 []).
  pose proof (modem_read_pieces gone chunks rs reply RESPONSE_OK (OK ++ crlf) [] Hcat Hne Hc0 Hf Hr) as Hread.
  cbn [length] in Hread. rewrite Hread. clear Hread.
  set (x := cmd ++ lead ++ body). assert (reply = (x ++ trail) ++ OK ++ crlf) as Hx by (unfold x; rewrite Ht, <-!app_assoc; done).
  assert (length reply - length (OK ++ crlf) = length (x ++ trail)) as -> by (rewrite Hx, (length_app (x ++ trail)); lia).
  assert (no_nul (x ++ trail)) as Hnx by (unfold x; rewrite !no_nul_app; auto using eol_no_nul).
  destruct Hf as [Hl _]. assert (exists y, store (pad 256 reply) (length (x ++ trail)) NUL = Ret ((x ++ trail) ++ NUL :: y)) as [y ->].
  { rewrite store_ok by (rewrite length_pad by lia; rewrite Hx, length_app in Hl; lia).
    unfold pad. rewrite Hx. set (z := replicate _ _). rewrite <-(app_assoc (x ++ trail) (OK ++ crlf) z), insert_app_r_alt, Nat.sub_diag by done. by eexists. }
  rewrite !bind_Ret. change (negb (Z.of_nat RESPONSE_OK =? Z.of_nat RESPONSE_OK)%Z) with false. cbv match.
  rewrite c_str_app_nul by done.
  assert (take (length cmd) (x ++ trail) = cmd) as Htk by (unfold x; rewrite <-!app_assoc; apply take_app_length).
  rewrite bool_decide_eq_true_2 by done. cbn [negb]. destruct resp as [r|]; [|done].
  assert (exists c, last x = Some c /\ is_eol c = false) as (c & Hlast & Hec).
  { unfold x. destruct body as [|b0 body]; [rewrite Hbl by done; rewrite !app_nil_r; by exists cl|].
    destruct (last (b0 :: body)) as [c|] eqn:El; [|by apply last_None in El]. exists c. split; [|apply Hbe; by right].
    by rewrite !last_app, El. }
  rewrite <-app_assoc, length_app. rewrite (strip_tail_spec x trail (NUL :: y) c) by done. rewrite bind_Ret.
  assert (drop_while is_eol (drop (length cmd) (x ++ replicate (length trail) NUL ++ NUL :: y)) = body ++ replicate (length trail) NUL ++ NUL :: y) as ->.
  { unfold x. rewrite <-!app_assoc, drop_app_length, drop_while_app by done. destruct body as [|b0 body]; [by destruct trail|].
    cbn [app drop_while]. by rewrite (Hbe b0 (or_introl eq_refl)). }
  assert (c_str (body ++ replicate (length trail) NUL ++ NUL :: y) = body) as -> by (destruct trail; cbn [length replicate app]; by rewrite c_str_app_nul). done.
Qed.

(** A modem's side of one command: the body of its answer, which arrives in pieces. *)
Record turn := mk_turn { body : text; pieces : list text }.
Definition turn_ok (cmd : string) (t : turn) : Prop :=
  reply_of (text_of cmd) (body t) (concat (pieces t)) /\ framed (concat (pieces t)) /\
  response_at (concat (pieces t)) = Some (RESPONSE_OK, OK ++ crlf) /\ Forall (fun d => d <> []) (pieces t).
Definition turn_data (t : turn) : list answer := Data <$> pieces t.

Lemma plain_cmds : Forall (fun c => plain_cmd (text_of c)) ("AT" :: "AT+CGDCONT?" :: param_commands).
Proof.
  repeat constructor; try (by eexists); apply (bool_decide_unpack _); vm_compute; exact I.
Qed.

Lemma command_turn gone cmd t rs r : cmd ∈ "AT" :: "AT+CGDCONT?" :: param_commands -> turn_ok cmd t ->
  cell_modem_command gone (turn_data t ++ rs) (text_of cmd) r =
    match r with None => Ret (0%Z, None, rs) | Some r => r ← strncpy r (body t) (length r); Ret (0%Z, Some r, rs) end.
Proof.
  intros Hin (Hr & Hf & He & Hne). pose proof plain_cmds as Hp. rewrite Forall_forall in Hp. by eapply command_reply; eauto.
Qed.

(** The answer is cut to the array, and is a string when there is room for its NUL. *)
Lemma strncpy_answer r b : no_nul b ->
  exists r', strncpy r b (length r) = Ret r' /\ length r' = length r /\
    buf_str r' = if length b <? length r then Ret b else Undef.
Proof.
  intros Hb. unfold strncpy. set (s := take (length r) (b ++ replicate (length r - length b) NUL)).
  assert (length s = length r) as Hs by (unfold s; rewrite length_take, length_app, length_replicate; lia).
  rewrite memcpy_ok by lia. exists s. rewrite take_0, app_nil_l, drop_ge, app_nil_r by lia. split; [done|]. split; [done|].
  destruct (Nat.ltb_spec (length b) (length r)).
  - assert (s = pad (length r) b) as -> by (unfold s, pad; rewrite take_ge; [done|rewrite length_app, length_replicate; lia]). by apply buf_str_pad.
  - unfold buf_str. rewrite bool_decide_eq_false_2; [done|]. unfold s. rewrite take_app_le by lia. by apply no_nul_take.
Qed.

Lemma turn_no_nul cmd t : turn_ok cmd t -> no_nul (body t).
Proof. intros [(lead & trail & _ & _ & _ & H & _) _]. done. Qed.

Lemma probe_params_turns gone cmds ts rs r : Forall (fun c => c ∈ param_commands) cmds -> Forall2 turn_ok cmds ts -> length r = 20 ->
  probe_params gone cmds (flat_map turn_data ts ++ rs) r =
    if forallb (fun t => length (body t) <? 20) ts then Ret (true, rs) else Undef.
Proof.
  intros Hin Hts Hr. induction Hts as [|c t cmds ts Ht _ IH]; [done|]. apply Forall_cons in Hin as [Hc Hin].
  cbn [probe_params flat_map forallb]. rewrite <-app_assoc, command_turn by (set_solver || done).
  destruct (strncpy_answer r (body t) (turn_no_nul _ _ Ht)) as (r' & Hs & _ & Hb). rewrite Hs, !bind_Ret. cbn [default from_option id Z.ltb Z.compare].
  rewrite Hb, Hr. destruct (length (body t) <? 20); cbn [andb]; [|done]. rewrite bind_Ret. by apply IH.
Qed.

(** What the modem says to the last command, AT+CGDCONT?: a list of contexts and OK, an error, or a
    list that is too long for the buffer. *)
Inductive last_answer := Accepted | Refused | Too_long.
Definition last_ok (l : last_answer) (ps : list text) : Prop :=
  match l with
  | Accepted => exists b, turn_ok "AT+CGDCONT?" (mk_turn b ps)
  | Refused => framed (concat ps) /\ response_at (concat ps) = Some (1, ERROR ++ crlf) /\ Forall (fun d => d <> []) ps
  | Too_long => overlong (concat ps)
  end.

(** C19: Probing a device behind which a modem answers.  The modem echoes AT and the four questions
    about itself and answers each with a body and OK, in pieces cut anywhere, the echo, the answer and
    OK together being at most 255 bytes and ending only once ([framed]; a longer reply to a question
    makes the device no modem, see [overlong_answer_refused]).  Then a device of a serial USB name is
    found to be a GSM modem if the reply to the last command ends with OK within 255 bytes, and a CDMA
    modem if the command is refused or, although it was accepted, its reply fills the buffer before it
    ends.  But if one of the four answers has 20 characters or more it fills its array without a NUL
    and is then read past the end. *)
Theorem probe_identifies dev at_turn turns last_pieces l rest gone r :
  starts "ttyUSB" dev || starts "ttyACM" dev = true -> length r = 20 ->
  turn_ok "AT" at_turn -> Forall2 turn_ok param_commands turns -> last_ok l last_pieces ->
  cell_modem_probe dev (mk_tty true true true (mk_device (turn_data at_turn ++ flat_map turn_data turns ++ (Data <$> last_pieces) ++ rest) gone)) r =
    if forallb (fun t => length (body t) <? 20) turns
    then Ret (match l with Accepted => MODEM_TYPE_GSM | Refused | Too_long => MODEM_TYPE_CDMA end) else Undef.
Proof.
  intros Hd Hr Hat Hts Hlast. unfold cell_modem_probe. rewrite <-negb_orb, Hd. cbn [negb t_open t_isatty t_setattr t_device andb answers hung_up].
  cbn [probe_at]. rewrite command_turn by (set_solver || done).
  destruct (strncpy_answer r (body at_turn) (turn_no_nul _ _ Hat)) as (r' & -> & _). rewrite !bind_Ret. cbn [Z.eqb]. rewrite bind_Ret. cbn [negb].
  rewrite probe_params_turns by (done || (apply Forall_forall; done)). destruct (forallb _ turns); [|done]. rewrite bind_Ret. cbn [negb].
  destruct l.
  - destruct Hlast as [b Hb]. pose proof (command_turn gone "AT+CGDCONT?" (mk_turn b last_pieces) rest None ltac:(set_solver) Hb) as H.
    unfold turn_data in H. cbn [pieces] in H. rewrite H. done.
  - destruct Hlast as (Hf & He & Hne). unfold cell_modem_command. change (replicate 256 NUL) with (pad 256 []).
    assert (last_pieces <> []) as Hn0 by (intros ->; by vm_compute in He).
    pose proof (modem_read_pieces gone last_pieces rest (concat last_pieces) 1 (ERROR ++ crlf) [] eq_refl Hne Hn0 Hf He) as H.
    cbn [length] in H. rewrite H. destruct Hf as [Hl _].
    rewrite store_ok by (rewrite length_pad; lia). done.
  - unfold cell_modem_command. change (replicate 256 NUL) with (pad 256 []).
    destruct (modem_read_overlong gone last_pieces rest (concat last_pieces) [] eq_refl ltac:(simpl; lia) Hlast) as (buf & rs' & H).
    cbn [length] in H. by rewrite H.
Qed.

(** A device that is hung up while it is being probed is always ready and never has data: the
    probe does not return, and with it the daemon's event loop. *)
Theorem probe_hangs dev r : starts "ttyUSB" dev || starts "ttyACM" dev = true ->
  cell_modem_probe dev (mk_tty true true true (mk_device [] true)) r = Diverge.
Proof. intros Hd. unfold cell_modem_probe. by rewrite <-negb_orb, Hd. Qed.

(** ** Whatever is behind a device *)

Lemma modem_read_total rs t : length t < 255 ->
  exists z t' k left, modem_read false rs (pad 256 t) (length t) = Ret (z, (if (z =? 0)%Z || (z =? 1)%Z then <[k := NUL]> (pad 256 t') else pad 256 t'), left) /\ length t' < 256.
Proof.
  revert t. induction rs as [|[| | |d] rs IH]; intros t Ht.
  1: exists (-1)%Z. 2: exists (-1)%Z. 3: exists (-2)%Z. 4: exists (-3)%Z. 1-4: eexists t, 0, _; (split; [done|lia]).
  cbn [modem_read]. rewrite length_pad by lia. set (data := take (256 - length t - 1) d).
  assert (length data <= 256 - length t - 1) as Hd by (unfold data; rewrite length_take; lia).
  rewrite memcpy_pad, bind_Ret by lia. rewrite <-length_app. rewrite store_pad, bind_Ret by (rewrite length_app; lia).
  set (t1 := t ++ data). assert (length t1 < 256) as H1 by (unfold t1; rewrite length_app; lia).
  rewrite find_response_pad by done. destruct (find_response response_strs 0 t1 (length t1)) as [[i resp]|] eqn:Ef.
  - rewrite store_ok, bind_Ret by (rewrite length_pad; lia).
    assert (i = 0 \/ i = 1) as Hi. { unfold response_strs in Ef. cbn [find_response] in Ef. repeat case_match; simplify_eq; auto. }
    exists (Z.of_nat i), t1, (length t1 - length resp). eexists. split; [|done]. by destruct Hi as [-> | ->].
  - destruct (Nat.ltb_spec (length t1) (length (pad 256 t1) - 1)) as [Hlt|]; [|exists (-4)%Z; eexists t1, 0, _; (split; [done|lia])].
    apply IH. rewrite length_pad in Hlt; lia.
Qed.

Lemma strip_tail_total buf i j c : buf !! j = Some c -> is_eol c = false -> j < i <= length buf ->
  exists buf', strip_tail buf i = Ret buf'.
Proof.
  intros Hj Hc. revert buf Hj. induction i as [|i IH]; intros buf Hj Hi; [lia|]. cbn [strip_tail].
  destruct (lookup_lt_is_Some_2 buf i) as [e He]; [lia|]. unfold load. rewrite He. cbn [of_option]. rewrite bind_Ret.
  destruct (is_eol e) eqn:Ee; [|by eexists]. rewrite store_ok, bind_Ret by lia.
  assert (j <> i) by congruence. apply IH; [by rewrite list_lookup_insert_ne|]. rewrite length_insert. lia.
Qed.

(** A command always returns when the device is not hung up. *)
Lemma cell_modem_command_total rs cmd resp : plain_cmd cmd -> exists x, cell_modem_command false rs cmd resp = Ret x.
Proof.
  intros [_ (c & Hl & Hc)]. unfold cell_modem_command. change (replicate 256 NUL) with (pad 256 []).
  destruct (modem_read_total rs [] ltac:(simpl; lia)) as (z & t & k & left & H & Ht). cbn [length] in H. rewrite H, bind_Ret.
  set (buf := if (z =? 0)%Z || (z =? 1)%Z then <[k:=NUL]> (pad 256 t) else pad 256 t).
  destruct (negb (z =? _)%Z); [by eexists|]. case_bool_decide as Hp; cbn [negb]; [|by eexists]. destruct resp as [r|]; [|by eexists].
  assert (last (take (length cmd) (c_str buf)) = Some c) as Hlast by by rewrite Hp.
  rewrite last_lookup in Hlast. apply lookup_take_Some in Hlast as [Hlast _].
  assert (exists y, buf = c_str buf ++ y) as [y Hy].
  { unfold c_str. clear. induction buf as [|b buf [y IH]]; [by exists []|]. cbn [take_while]. destruct (negb _); [|by exists (b :: buf)].
    exists y. cbn [app]. by f_equal. }
  set (j := pred _) in Hlast. destruct (strip_tail_total buf (length (c_str buf)) j c) as [buf' ->]; [|done| |].
  - rewrite Hy. by apply lookup_app_l_Some.
  - split; [by apply lookup_lt_Some in Hlast|]. apply (f_equal length) in Hy. rewrite length_app in Hy. lia.
  - rewrite bind_Ret. unfold strncpy. rewrite memcpy_ok; [by eexists|]. rewrite length_take. lia.
Qed.

(** Probing a device that is not hung up ends, whatever it answers. *)
Theorem probe_returns dev t r : hung_up (t_device t) = false -> cell_modem_probe dev t r <> Diverge.
Proof.
  intros Hg. unfold cell_modem_probe. destruct (_ && _); [done|]. destruct (negb _); [done|]. rewrite Hg. cbv zeta.
  pose proof plain_cmds as Hp. rewrite Forall_forall in Hp.
  assert (forall n rs, exists x, probe_at false n rs r = Ret x) as Hat.
  { induction n as [|n IH]; intros rs; cbn [probe_at];
      destruct (cell_modem_command_total rs (text_of "AT") (Some r) (Hp "AT" ltac:(set_solver))) as [[[z o] rs'] ->]; rewrite bind_Ret; destruct (z =? 0)%Z; try by eexists.
    apply IH. }
  assert (forall cmds rs, Forall (fun c => c ∈ param_commands) cmds -> probe_params false cmds rs r <> Diverge) as Hpar.
  { induction cmds as [|c cmds IH]; intros rs Hc; [done|]. apply Forall_cons in Hc as [Hc Hcs]. cbn [probe_params].
    destruct (cell_modem_command_total rs (text_of c) (Some r) (Hp c ltac:(set_solver))) as [[[z o] rs'] ->]. rewrite bind_Ret.
    destruct (z <? 0)%Z; [done|]. unfold buf_str. case_bool_decide; [|done]. rewrite bind_Ret. by apply IH. }
  destruct (Hat 6 (answers (t_device t))) as [[ok rs] ->]. rewrite bind_Ret. destruct (negb ok); [done|].
  specialize (Hpar param_commands rs ltac:(by apply Forall_forall)). destruct (probe_params _ _ _ _) as [[ok' rs']| |]; [|done..].
  rewrite bind_Ret. destruct (negb ok'); [done|].
  destruct (cell_modem_command_total rs' (text_of "AT+CGDCONT?") None (Hp "AT+CGDCONT?" ltac:(set_solver))) as [[[z o] rs2] ->]. done.
Qed.

Lemma csq_reply_complete echo rssi ber :
  at_end (csq_reply echo rssi ber) = true /\ length (csq_reply echo rssi ber) < AT_RESULT_MAX_LENGTH - 1.
Proof.
  assert (exists x, csq_reply echo rssi ber = x ++ OK ++ crlf /\ length x < 60) as (x & -> & Hx).
  { eexists ((if echo then text_of csq_command ++ [CR] else []) ++ crlf ++ text_of ("+CSQ: " +:+ print_u rssi +:+ "," +:+ print_u ber) ++ crlf ++ crlf).
    split; [unfold csq_reply; rewrite <-!app_assoc; done|]. rewrite !length_app, text_of_length, !string_length_app.
    pose proof (print_u_length rssi). pose proof (print_u_length ber). destruct echo; simpl length; simpl String.length; lia. }
  split; [|rewrite length_app; unfold AT_RESULT_MAX_LENGTH; simpl; lia].
  unfold at_end. rewrite last_app. change (last (OK ++ crlf)) with (Some newline_char). cbv match. change (is_eol newline_char) with true.
  unfold answer_ends. assert (length (x ++ OK ++ crlf) - 4 = length x) as -> by (rewrite length_app; simpl; lia). rewrite drop_app_length.
  assert (4 <=? length (x ++ OK ++ crlf) = true) as -> by (apply Nat.leb_le; rewrite length_app; simpl; lia). reflexivity.
Qed.

(** The signal quality.  When the modem answers AT+CSQ, with or without an echo and in pieces
    cut anywhere, the status message has the strength and the error rate of its answer: the
    strength in dBm, or 0 when the modem does not know it.  The port is closed again. *)
Theorem signal_quality_reported x p echo rssi ber pieces :
  (0 <= rssi <= 99)%Z -> (0 <= ber <= 99)%Z -> is_open p = false -> is_Some (x_open x) ->
  x_written x = (Z.of_nat (String.length csq_command), 1%Z) ->
  x_reads x = Some <$> pieces -> Forall (fun d => d <> []) pieces -> concat pieces = csq_reply echo rssi ber ->
  exists p', cell_status_timer_callback true x p = Ret (Some (dbm rssi, modem_error_rate_to_percent ber), p') /\ is_open p' = false.
Proof.
  intros Hr Hb Hp [fd Hfd] Hw Hrd Hne Hcat. unfold cell_status_timer_callback, send_cell_modem_status, at_command_report_signal_quality.
  change (at_serial_port_command_create csq_command) with (Some (mk_command csq_command (replicate AT_RESULT_MAX_LENGTH NUL) 0 false)). cbv beta match.
  set (c := mk_command _ _ _ _). unfold at_serial_port_execute_command, serial_port_open. rewrite Hp, Hfd, Hw. cbn [is_open negb fst snd].
  change (command c) with csq_command. rewrite Z.eqb_refl. cbn [negb].
  pose proof (wait_command_response_total (x_reads x) c eq_refl) as Hwait.
  destruct (csq_reply_complete echo rssi ber) as [He Hl].
  destruct (received_pieces (csq_reply echo rssi ber) pieces [] Hcat Hne Hl He) as (t & Ht & Hpre & Hend).
  { intros ->. cbn in Hcat. rewrite <-Hcat in He. done. }
  assert (received (x_reads x) [] = (t, true)) as Ht' by (rewrite Hrd; exact Ht). rewrite Ht' in Hwait. destruct Hwait as [-> Htl]. rewrite bind_Ret. cbn [complete]. rewrite !bind_Ret. cbn [result].
  destruct (csq_prefix _ _ _ _ Hpre Hend) as (rest & -> & Hrest).
  rewrite buf_str_pad, bind_Ret.
  - rewrite parse_csq_core by (unfold SIZE_MAX; lia). rewrite bind_Ret. cbn [negb Z.eqb].
    pose proof dbm_table as Hd. rewrite forallb_forall in Hd. specialize (Hd (Z.to_nat rssi) ltac:(apply in_seq; lia)).
    rewrite Z2Nat.id in Hd by lia. apply bool_decide_eq_true in Hd. rewrite Hd. by eexists.
  - apply no_nul_app; split; [unfold no_nul; intros Hin; by destruct (csq_core_plain _ _ _ _ Hin) as (_ & _ & ?)|].
    destruct Hrest as [q Hq]. unfold no_nul. intros Hin. assert (NUL ∈ (CR :: rest) ++ q) as H by (apply elem_of_app; by left). rewrite <-Hq in H.
    revert H. apply (bool_decide_unpack (NUL ∉ _)). vm_compute. exact I.
  - done.
Qed.

(** ** Concrete modems *)

Definition sample_answer (cmd : string) (b : string) : turn :=
  mk_turn (text_of b) [text_of cmd ++ [CR]; crlf ++ text_of b; crlf ++ crlf ++ OK; crlf].
Definition sample_at : turn := mk_turn [] [text_of "AT" ++ [CR] ++ crlf; OK ++ crlf].
Definition sample_turns : list turn :=
  [sample_answer "AT+CGMI" "Telit"; sample_answer "AT+CGMM" "HE910"; sample_answer "AT+CGMR" "12.00.005"; sample_answer "AT+CGSN" "357164040047120"].
Definition sample_gsm : list text := [text_of "AT+CGDCONT?"; [CR] ++ crlf ++ OK ++ crlf].

(** [framed], decided. *)
Definition framed_b (t : text) : bool :=
  (length t <? 256) && forallb (fun k => bool_decide (response_at (take k t) = None)) (seq 0 (length t)).
Lemma framed_b_ok t : framed_b t = true -> framed t.
Proof.
  unfold framed_b. intros [Hl Hf]%andb_true_iff. apply Nat.ltb_lt in Hl. split; [done|]. intros p [q ->] Hne.
  rewrite forallb_forall in Hf. specialize (Hf (length p)). rewrite take_app_length in Hf.
  apply (bool_decide_unpack _), Is_true_true, Hf, in_seq. rewrite length_app. destruct q; [by rewrite app_nil_r in Hne|]. simpl. lia.
Qed.

Lemma reply_of_intro cmd lead b trail : forallb is_eol lead = true -> forallb is_eol trail = true ->
  bool_decide (NUL ∉ b) = true -> (b = [] -> lead = []) -> forallb (fun o => match o with Some c => negb (is_eol c) | None => true end) [head b; last b] = true ->
  reply_of cmd b (cmd ++ lead ++ b ++ trail ++ OK ++ crlf).
Proof.
  intros H1 H2 H3 H4 H5. exists lead, trail. split; [done|].
  assert (forall l, forallb is_eol l = true -> Forall (fun c => is_eol c = true) l) as Hall
    by (intros l Hl; rewrite forallb_forall in Hl; apply Forall_forall; intros c Hc; by apply Hl, list_elem_of_In).
  split; [by apply Hall|]. split; [by apply Hall|].
  split; [by apply bool_decide_eq_true in H3|]. split; [done|]. cbn [forallb] in H5. intros c [Hc|Hc]; rewrite Hc in H5; destruct (is_eol c); [|done| |done];
    cbn [negb andb] in H5; [done|]. by rewrite andb_false_r in H5.
Qed.

Lemma sample_turn_ok cmd b : framed_b (concat (pieces (sample_answer cmd b))) = true ->
  response_at (concat (pieces (sample_answer cmd b))) = Some (RESPONSE_OK, OK ++ crlf) ->
  bool_decide (NUL ∉ text_of b) = true -> b <> EmptyString -> cmd <> EmptyString ->
  forallb (fun o => match o with Some c => negb (is_eol c) | None => true end) [head (text_of b); last (text_of b)] = true ->
  turn_ok cmd (sample_answer cmd b).
Proof.
  intros Hf Hr Hn Hb Hc He. split; [|split; [by apply framed_b_ok|split; [done|]]].
  - cbn [sample_answer pieces body concat]. rewrite app_nil_r, <-!app_assoc.
    apply (reply_of_intro (text_of cmd) ([CR] ++ crlf) (text_of b) (crlf ++ crlf)); try done. by destruct b.
  - cbn [sample_answer pieces]. repeat constructor; try done. by destruct cmd.
Qed.

Lemma sample_turns_ok : Forall2 turn_ok param_commands sample_turns.
Proof. unfold param_commands, sample_turns. repeat (apply Forall2_cons; split; [apply sample_turn_ok; by vm_compute|]). by apply Forall2_nil. Qed.
Lemma sample_at_ok : turn_ok "AT" sample_at.
Proof.
  split; [|split; [by apply framed_b_ok|split; [done|by repeat constructor]]].
  apply (reply_of_intro (text_of "AT") [] [] ([CR] ++ crlf)); done.
Qed.
Lemma sample_gsm_ok : turn_ok "AT+CGDCONT?" (mk_turn [] sample_gsm).
Proof.
  split; [|split; [by apply framed_b_ok|split; [done|by repeat constructor]]].
  apply (reply_of_intro (text_of "AT+CGDCONT?") [] [] ([CR] ++ crlf)); done.
Qed.

Lemma probe_identifies_witness :
  cell_modem_probe "ttyACM0" (mk_tty true true true (mk_device (turn_data sample_at ++ flat_map turn_data sample_turns ++ (Data <$> sample_gsm) ++ []) false))
    (replicate 20 NUL) = Ret MODEM_TYPE_GSM.
Proof.
  apply (probe_identifies "ttyACM0" sample_at sample_turns sample_gsm Accepted [] false (replicate 20 NUL));
    [reflexivity|reflexivity|exact sample_at_ok|exact sample_turns_ok|exists []; exact sample_gsm_ok].
Defined.

(** A modem whose model name is longer than the buffer is taken for no modem. *)
Example overlong_answer_refused :
  cell_modem_probe "ttyACM0" (mk_tty true true true (mk_device (turn_data sample_at ++ turn_data (sample_answer "AT+CGMI" "Telit") ++
      [Data (text_of "AT+CGMM" ++ [CR] ++ crlf ++ replicate 260 "x"%char ++ crlf ++ OK ++ crlf)]) false)) (replicate 20 NUL) = Ret MODEM_TYPE_INVALID.
Proof. vm_compute. reflexivity. Qed.

(** A GSM modem that lists many contexts is taken for a CDMA modem. *)
Example many_contexts_cdma :
  cell_modem_probe "ttyACM0" (mk_tty true true true (mk_device (turn_data sample_at ++ flat_map turn_data sample_turns ++
      [Data (text_of "AT+CGDCONT?" ++ [CR] ++ crlf ++ replicate 260 "1"%char ++ crlf ++ OK ++ crlf)]) false)) (replicate 20 NUL) = Ret MODEM_TYPE_CDMA.
Proof. vm_compute. reflexivity. Qed.

Lemma signal_quality_reported_witness :
  exists p', cell_status_timer_callback true
    (mk_exchange (Some 7%Z) (6, 1)%Z [Some (text_of "AT+CSQ"); Some ([CR] ++ crlf ++ text_of "+CSQ: 17,99" ++ crlf ++ crlf ++ OK ++ crlf)])
    (mk_port "/dev/ttyACM0" (-1) false) = Ret (Some (-79, 0)%Z, p') /\ is_open p' = false.
Proof.
  apply (signal_quality_reported _ _ true 17 99 [text_of "AT+CSQ"; [CR] ++ crlf ++ text_of "+CSQ: 17,99" ++ crlf ++ crlf ++ OK ++ crlf]);
    [lia|lia|reflexivity|by eexists|reflexivity|reflexivity|by repeat constructor|vm_compute; reflexivity].
Defined.
