(* ===== verification/CellModem.v ===== *)
(** * The cellular modem daemon

    [cell_modem_daemon/src/cell_modem_inotify.c], which finds the modem among the devices that are
    there, appear and go, and [cell_modem_settings.c], which runs [pppd] on it as a service.  Both
    keep the device: the context of the watch, and the variables of the settings.  Each device that
    is tried is probed as in [AtCommand]; the service is that of [Runit].  What [readdir], [stat] and
    inotify answer is part of the events, and the status files of the supervisor are a function of
    what it has been told. *)

From Stdlib Require Import Ascii.
From S2P Require Import Prelude Libc Text Getopt Runit AtCommand.

Definition RUNIT_SERVICE_DIR : string := "/var/run/cell_modem_daemon/sv".
Definition RUNIT_SERVICE_NAME : string := "pppd_daemon".
Definition CELL_MODEM_DEV_OVERRIDE_DEFAULT : string := "ttyACM0".
Definition CELL_MODEM_MAX_BOOT_RETRIES : Z := 10.

Record settings := mk_settings { apn : string; enabled : bool; debug : bool; dev_override : string }.

(** [inotify_ctx_t]: the device and its type. *)
Record inotify_ctx := mk_ctx { c_dev : option string; c_type : modem_type }.

(** The variables of [cell_modem_settings.c], the timers of the loop that are running, and the
    services. *)
Record daemon := mk_daemon {
  conf : settings;
  cell_modem_dev : option string;
  g_type : modem_type;
  ictx : option inotify_ctx;
  retry_timers : nat;
  respawn_timers : nat;
  probe_retries : Z;
  services : runit_world;
}.

Definition set_services (d : daemon) (w : runit_world) : daemon :=
  mk_daemon (conf d) (cell_modem_dev d) (g_type d) (ictx d) (retry_timers d) (respawn_timers d) (probe_retries d) w.
Definition set_device (d : daemon) (dev : option string) (type : modem_type) : daemon :=
  mk_daemon (conf d) dev type (ictx d) (retry_timers d) (respawn_timers d) (probe_retries d) (services d).
Definition set_ctx (d : daemon) (c : option inotify_ctx) : daemon :=
  mk_daemon (conf d) (cell_modem_dev d) (g_type d) c (retry_timers d) (respawn_timers d) (probe_retries d) (services d).
Definition set_timers (d : daemon) (retry respawn : nat) : daemon :=
  mk_daemon (conf d) (cell_modem_dev d) (g_type d) (ictx d) retry respawn (probe_retries d) (services d).
Definition set_conf (d : daemon) (c : settings) : daemon :=
  mk_daemon c (cell_modem_dev d) (g_type d) (ictx d) (retry_timers d) (respawn_timers d) (probe_retries d) (services d).
Definition set_retries (d : daemon) (n : Z) : daemon :=
  mk_daemon (conf d) (cell_modem_dev d) (g_type d) (ictx d) (retry_timers d) (respawn_timers d) n (services d).

(** What an operation on the service meets: the calls that fail, and the status files. *)
Record service_answer := mk_answer { sa_fails : fs_call -> bool; sa_supervise : list (string * Runit.command) -> gmap string supervise }.
Definition seen (w : runit_world) (a : service_answer) : runit_world :=
  mk_runit (rw_services w) (sa_supervise a (rw_commands w)) (rw_commands w).
Record env := mk_env { on_stat : service_answer; on_stop : service_answer; on_start : service_answer; control_ready : bool }.

(** ** [cell_modem_settings.c] *)

Inductive write_res := SETTINGS_WR_OK | SETTINGS_WR_SERVICE_FAILED | SETTINGS_WR_MODIFY_DISABLED.

Definition cfg_stop : runit_config_t := mk_cfg RUNIT_SERVICE_DIR RUNIT_SERVICE_NAME EmptyString None None false.
Definition cfg_start (command_line : string) : runit_config_t :=
  mk_cfg RUNIT_SERVICE_DIR RUNIT_SERVICE_NAME command_line (Some "sudo /etc/init.d/kill_pppd_service") None true.
Definition pppd_path : string := service_path cfg_stop.

Definition chat_command (type : modem_type) (apn : string) : string :=
  match type with
  | MODEM_TYPE_GSM => string_take 255 ("/usr/bin/chat_command gsm " +:+ apn)
  | _ => "/usr/bin/chat_command cdma"
  end.
Definition pppd_command (dev : string) (type : modem_type) (apn : string) (debug : bool) : string :=
  "sudo /usr/sbin/pppd " +:+ dev +:+ " connect '" +:+ chat_command type apn +:+ "' " +:+ (if debug then "debug" else EmptyString) +:+ " " +:+
  (if debug then "| sbp_log --debug" else EmptyString).

Definition usable (d : daemon) : option (string * modem_type) :=
  if negb (enabled (conf d)) then None
  else match cell_modem_dev d with
       | Some dev => if bool_decide (g_type d = MODEM_TYPE_INVALID) then None else Some (dev, g_type d)
       | None => None
       end.

Definition cell_modem_notify (e : env) (d : daemon) : outcome (daemon * write_res) :=
  '(w, _) ← stop_runit_service (sa_fails (on_stop e)) cfg_stop (seen (services d) (on_stop e));
  let d := set_services d w in
  match usable d with
  | None => Ret (d, SETTINGS_WR_OK)
  | Some (dev, type) =>
      command_line ← snprintf_assert 1024 (pppd_command dev type (apn (conf d)) (debug (conf d)));
      '(w, r) ← start_runit_service (control_ready e) (sa_fails (on_start e)) (cfg_start command_line) (seen (services d) (on_start e));
      Ret (set_services d w, if negb (r =? 0)%Z then SETTINGS_WR_SERVICE_FAILED else SETTINGS_WR_OK)
  end.

Definition cell_modem_set_dev (e : env) (dev : option string) (type : modem_type) (d : daemon) : outcome daemon :=
  let d := set_device d dev type in
  stat ← stat_runit_service (sa_fails (on_stat e)) cfg_stop (seen (services d) (on_stat e));
  match usable d with
  | Some _ => if bool_decide (stat = RUNIT_RUNNING) then Ret d else '(d, _) ← cell_modem_notify e d; Ret d
  | None => Ret d
  end.

Definition cell_modem_get_dev_override (c : settings) : option string :=
  if String.length (dev_override c) =? 0 then None else Some (dev_override c).

(** ** [cell_modem_inotify.c] *)

(** A device that is tried: its name, whether [stat] finds a character device, and what is behind
    it; the array of the probe that is not initialised; what the service meets. *)
Record attempt := mk_attempt { a_name : string; a_exists : bool; a_tty : tty; a_junk : text; a_env : env }.

(** Result, context and daemon. *)
Definition update_dev_from_probe (a : attempt) (c : inotify_ctx) (d : daemon) : outcome (Z * inotify_ctx * daemon) :=
  let dev := a_name a in
  let ov := cell_modem_get_dev_override (conf d) in
  if (String.length dev =? 0) || negb (a_exists a) then Ret (1%Z, c, d)
  else if bool_decide (is_Some ov /\ ov <> Some dev) then Ret (1%Z, c, d)
  else
    type ← cell_modem_probe dev (a_tty a) (a_junk a);
    if negb (bool_decide (type = MODEM_TYPE_INVALID)) then
      d ← cell_modem_set_dev (a_env a) (Some dev) type d;
      Ret (0%Z, mk_ctx (Some dev) type, d)
    else
      let c := mk_ctx (c_dev c) type in
      if bool_decide (ov = Some dev) then Ret ((-1)%Z, c, d) else Ret (1%Z, c, d).

Definition cell_modem_set_dev_to_invalid (e : env) (c : inotify_ctx) (d : daemon) : outcome (inotify_ctx * daemon) :=
  d ← cell_modem_set_dev e None MODEM_TYPE_INVALID d;
  Ret (mk_ctx None MODEM_TYPE_INVALID, d).

(** The entries of /dev, with whether they are character devices. *)
Definition dev_dir := list (bool * attempt).
Fixpoint scan_loop (ents : dev_dir) (result : Z) (c : inotify_ctx) (d : daemon) : outcome (Z * inotify_ctx * daemon) :=
  match ents with
  | [] => Ret (result, c, d)
  | (false, _) :: ents' => scan_loop ents' result c d
  | (true, a) :: ents' =>
      '(result, c, d) ← update_dev_from_probe a c d;
      if (result <=? 0)%Z then Ret (result, c, d) else scan_loop ents' result c d
  end.
(** [None]: /dev cannot be opened; then [readdir] is called with a null pointer. *)
Definition cell_modem_scan_for_modem (ents : option dev_dir) (c : inotify_ctx) (d : daemon) : outcome (Z * inotify_ctx * daemon) :=
  match ents with Some ents => scan_loop ents (-1) c d | None => Undef end.

(** A record that inotify delivers; [before]: what [stat] finds before the pause of 100 ms. *)
Inductive inotify_event :=
  | IN_CREATE (before : bool) (a : attempt)
  | IN_DELETE (name : string) (e : env)
  | IN_OTHER.

Definition handle_event (ev : inotify_event) (c : inotify_ctx) (d : daemon) : outcome (inotify_ctx * daemon) :=
  match ev with
  | IN_CREATE before a =>
      if bool_decide (c_type c = MODEM_TYPE_INVALID) && before
      then '(_, c, d) ← update_dev_from_probe a c d; Ret (c, d) else Ret (c, d)
  | IN_DELETE name e =>
      if bool_decide (c_dev c = Some name) then cell_modem_set_dev_to_invalid e c d else Ret (c, d)
  | IN_OTHER => Ret (c, d)
  end.
Fixpoint inotify_output_cb (evs : list inotify_event) (c : inotify_ctx) (d : daemon) : outcome (inotify_ctx * daemon) :=
  match evs with
  | [] => Ret (c, d)
  | ev :: evs' => '(c, d) ← handle_event ev c d; inotify_output_cb evs' c d
  end.

(** Whether [calloc], [inotify_init1], [inotify_add_watch] and [pk_loop_poll_add] succeed. *)
Record create_answers := mk_create { k_calloc : bool; k_init : bool; k_watch : bool; k_poll : bool }.
Definition inotify_ctx_create (k : create_answers) : option inotify_ctx :=
  if k_calloc k && k_init k && k_watch k && k_poll k then Some (mk_ctx None MODEM_TYPE_INVALID) else None.

Definition async_wait_for_tty (k : create_answers) (ents : option dev_dir) (d : daemon) : outcome (option inotify_ctx * daemon) :=
  match inotify_ctx_create k with
  | None => Ret (None, set_timers d (retry_timers d) (S (respawn_timers d)))
  | Some c =>
      '(r, c, d) ← cell_modem_scan_for_modem ents c d;
      Ret (Some c, if negb (r =? 0)%Z then set_timers d (S (retry_timers d)) (respawn_timers d) else d)
  end.

(** ** The timers and the settings *)

Definition pppd_respawn (k : create_answers) (ents : option dev_dir) (d : daemon) : outcome daemon :=
  '(c, d) ← async_wait_for_tty k ents d;
  Ret (set_timers (set_ctx d c) (retry_timers d) (pred (respawn_timers d))).

(** The context of the timer is the one that the settings hold. *)
Definition override_probe_retry (ents : option dev_dir) (c : inotify_ctx) (d : daemon) : outcome daemon :=
  let stop d := set_timers d (pred (retry_timers d)) (respawn_timers d) in
  if bool_decide (is_Some (cell_modem_get_dev_override (conf d))) && bool_decide (cell_modem_dev d = None) then
    let n := probe_retries d in
    let d := set_retries d (u32 (n + 1)) in
    if (n <? CELL_MODEM_MAX_BOOT_RETRIES)%Z then
      '(_, c, d) ← cell_modem_scan_for_modem ents c d; Ret (set_ctx d (Some c))
    else Ret (stop d)
  else Ret (stop d).

Definition cell_modem_notify_dev_override (e1 e2 : env) (ents : option dev_dir) (d : daemon) : outcome (daemon * write_res) :=
  match ictx d with
  | None => Ret (d, SETTINGS_WR_OK)
  | Some c =>
      if enabled (conf d) then Ret (d, SETTINGS_WR_MODIFY_DISABLED)
      else
        '(c, d) ← cell_modem_set_dev_to_invalid e1 c d;
        '(d, _) ← cell_modem_notify e2 d;
        '(_, c, d) ← cell_modem_scan_for_modem ents c d;
        Ret (set_ctx d (Some c), SETTINGS_WR_OK)
  end.

Inductive change := Set_apn (s : string) | Set_enable (b : bool) | Set_debug (b : bool) | Set_override (s : string).
Definition apply_change (x : change) (c : settings) : settings :=
  match x with
  | Set_apn s => mk_settings s (enabled c) (debug c) (dev_override c)
  | Set_enable b => mk_settings (apn c) b (debug c) (dev_override c)
  | Set_debug b => mk_settings (apn c) (enabled c) b (dev_override c)
  | Set_override s => mk_settings (apn c) (enabled c) (debug c) s
  end.

Inductive event :=
  | E_inotify (evs : list inotify_event)
  | E_retry (ents : option dev_dir)
  | E_respawn (k : create_answers) (ents : option dev_dir)
  | E_write (x : change) (e1 e2 : env) (ents : option dev_dir).

Section library.
(** What libsettings makes of a value that is refused. *)
Variable refused : settings -> settings -> settings.

Definition write_setting (x : change) (e1 e2 : env) (ents : option dev_dir) (d : daemon) : outcome daemon :=
  let old := conf d in
  let d := set_conf d (apply_change x old) in
  '(d, res) ←
    match x with
    | Set_apn _ | Set_enable _ => cell_modem_notify e1 d
    | Set_debug _ => Ret (d, SETTINGS_WR_OK)
    | Set_override _ => cell_modem_notify_dev_override e1 e2 ents d
    end;
  Ret (match res with SETTINGS_WR_OK => d | _ => set_conf d (refused old (conf d)) end).

(** A callback of the loop, when it can occur. *)
Definition step (ev : event) (d : daemon) : outcome daemon :=
  match ev with
  | E_inotify evs =>
      match ictx d with
      | Some c => '(c, d) ← inotify_output_cb evs c d; Ret (set_ctx d (Some c))
      | None => Ret d
      end
  | E_retry ents =>
      match ictx d with
      | Some c => if 0 <? retry_timers d then override_probe_retry ents c d else Ret d
      | None => Ret d
      end
  | E_respawn k ents => if 0 <? respawn_timers d then pppd_respawn k ents d else Ret d
  | E_write x e1 e2 ents => write_setting x e1 e2 ents d
  end.
Fixpoint run (evs : list event) (d : daemon) : outcome daemon :=
  match evs with [] => Ret d | ev :: evs' => d ← step ev d; run evs' d end.

Definition boot (w : runit_world) : daemon :=
  mk_daemon (mk_settings "hologram" false false CELL_MODEM_DEV_OVERRIDE_DEFAULT) None MODEM_TYPE_GSM None 0 0 0 w.

(** [cell_modem_init]: the stored settings are written while they are registered; then the watch is
    set up.  After it the loop runs. *)
Definition cell_modem_init (stored : list event) (k : create_answers) (ents : option dev_dir) (d : daemon) : outcome daemon :=
  d ← run stored d;
  '(c, d) ← async_wait_for_tty k ents d;
  Ret (set_ctx d c).
Definition life (stored : list event) (k : create_answers) (ents : option dev_dir) (evs : list event) (w : runit_world) : outcome daemon :=
  d ← cell_modem_init stored k ents (boot w); run evs d.
End library.

(** ** What the service is told *)

(** The supervisor was last told to keep the service up. *)
Definition up (w : runit_world) : bool := match last (rw_commands w) with Some (_, C_up) => true | _ => false end.

(** No call fails, and a service that was told to be up reads as running whenever it is asked
    for: it has not crashed and is not just being started.  Of one that was told to be down, or
    never told anything, the status file may be missing or read anything: down, still running,
    running with [want down], finishing. *)
Definition alive (a : service_answer) : Prop :=
  (forall f, sa_fails a f = false) /\
  forall w, match sa_supervise a (rw_commands w) !! pppd_path with
            | Some (mk_supervise (Some text) _) => String.length text < 64 /\ (up w = true -> text = "run" +:+ newline)
            | _ => up w = false
            end.

(** A service that was not told to be up is not reported as running. *)
Definition ended (a : service_answer) : Prop :=
  forall w, up w = false -> stat_runit_service (sa_fails a) cfg_stop (seen w a) <> Ret RUNIT_RUNNING.

Section service.
(** Whether a service that is told to stop has ended by the time a modem is found. *)
Variable prompt : bool.

Definition env_ok (e : env) : Prop :=
  alive (on_stat e) /\ alive (on_stop e) /\ (forall f, sa_fails (on_start e) f = false) /\ (prompt = true -> ended (on_stat e)).

Lemma alive_stat a w : alive a ->
  exists s, stat_runit_service (sa_fails a) cfg_stop (seen w a) = Ret s /\ (up w = true -> s = RUNIT_RUNNING).
Proof.
  intros [Hf Hs]. specialize (Hs w).
  destruct (stat_runit_service_total (sa_fails a) cfg_stop
    (mk_runit (rw_services w) (filter (fun x => x.1 = pppd_path) (sa_supervise a (rw_commands w))) (rw_commands w))) as [s Hst].
  { vm_compute. lia. }
  { intros path x content Hx Hc. cbn [rw_supervise] in Hx. apply map_lookup_filter_Some in Hx as [Hx Hp]. cbn in Hp. subst path.
    rewrite Hx in Hs. destruct x as [st pid]. cbn [sup_stat] in Hc. subst st. apply Hs. }
  exists s. unfold stat_runit_service in Hst |- *.
  change (snprintf_assert PATH_MAX (service_path cfg_stop)) with (@Ret string pppd_path) in *. rewrite bind_Ret in *.
  change (snprintf_assert PATH_MAX (pppd_path +:+ "/supervise/stat")) with (Ret (pppd_path +:+ "/supervise/stat")) in *. rewrite bind_Ret in *.
  cbn [seen rw_supervise] in *.
  assert (filter (fun x => x.1 = pppd_path) (sa_supervise a (rw_commands w)) !! pppd_path =
    sa_supervise a (rw_commands w) !! pppd_path) as Hl.
  { destruct (sa_supervise a (rw_commands w) !! pppd_path) eqn:E; [by apply map_lookup_filter_Some_2|].
    by apply map_lookup_filter_None_2; left. }
  rewrite Hl in Hst. split; [done|]. intros Hu. destruct (sa_supervise a (rw_commands w) !! pppd_path) as [[[text|] pid]|]; [|congruence..].
  destruct Hs as [_ Ht]. rewrite (Ht Hu) in Hst. cbn [option_bind mbind sup_stat] in Hst. rewrite !Hf in Hst. by injection Hst as <-.
Qed.

Lemma alive_stop a w : alive a ->
  exists w' r, stop_runit_service (sa_fails a) cfg_stop (seen w a) = Ret (w', r) /\ up w' = false /\ rw_services w' = rw_services w.
Proof.
  intros Ha. unfold stop_runit_service. destruct (alive_stat a w Ha) as (s & -> & Hs). rewrite bind_Ret.
  destruct (decide (s = RUNIT_RUNNING)) as [-> | Hne].
  - change (snprintf_assert PATH_MAX (service_path cfg_stop)) with (@Ret string pppd_path). rewrite bind_Ret.
    change (snprintf_assert PATH_MAX (pppd_path +:+ "/supervise/control")) with (Ret (pppd_path +:+ "/supervise/control")). rewrite bind_Ret.
    rewrite !(proj1 Ha). eexists _, _. split; [done|]. split; [|done]. unfold up, tell. cbn [rw_commands]. by rewrite last_snoc.
  - assert (up w = false) as Hu by (destruct (up w); [by destruct Hne, Hs|done]).
    exists (seen w a), (-1)%Z. split; [by destruct s|]. by split.
Qed.

Lemma start_up ready a cmd w : (forall f, sa_fails a f = false) ->
  exists w', start_runit_service ready (sa_fails a) (cfg_start cmd) (seen w a) = Ret (w', 0%Z) /\ up w' = true /\
    (sv_run <$> rw_services w' !! pppd_path) = Some (Some (script cmd)).
Proof.
  intros Hf. assert (exists w', start_runit_service ready (sa_fails a) (cfg_start cmd) (seen w a) = Ret (w', 0%Z)) as [w' Hw].
  { unfold start_runit_service. change (snprintf_assert PATH_MAX (service_path (cfg_start cmd))) with (@Ret string pppd_path). rewrite bind_Ret.
    destruct (match rw_services (seen w a) !! pppd_path with Some d => _ | None => _ end) as [fresh d].
    rewrite Hf, andb_false_r. change (snprintf_assert PATH_MAX (pppd_path +:+ "/supervise/control")) with (Ret (pppd_path +:+ "/supervise/control")). rewrite bind_Ret.
    destruct (write_service (sa_fails a) (cfg_start cmd) fresh pppd_path (seen w a) d) as [[w1 d1] ok] eqn:E.
    assert (ok = true) as ->.
    { unfold write_service, write_script in E. cbn [cfg_start custom_down finish_command] in E. rewrite !Hf in E. cbn [negb orb andb] in E.
      rewrite orb_true_r in E. cbn [negb] in E. by injection E. }
    cbn [negb]. assert (exists x, (if fresh then snprintf_assert 1024 ("/bin/mv /tmp/tmp.runit.XXXXXX " +:+ pppd_path) else Ret EmptyString) = Ret x) as [x ->] by (destruct fresh; by eexists).
    rewrite bind_Ret, Hf, andb_false_r, !Hf, andb_false_r.
    change (snprintf_assert 1024 ((if restart (cfg_start cmd) then "/usr/bin/sv up " else "/usr/bin/sv once ") +:+ pppd_path)) with (Ret ("/usr/bin/sv up " +:+ pppd_path)).
    rewrite bind_Ret. by eexists. }
  exists w'. split; [done|]. apply start_runit_service_spec in Hw as (_ & _ & _ & _ & Hd). destruct (Hd eq_refl) as [H1 H2].
  split; [unfold up; by rewrite H2, last_snoc|]. change pppd_path with (service_path (cfg_start cmd)). by rewrite H1.
Qed.

(** ** Invariants *)

(** The device that is used is the one that the settings allow. *)
Definition allowed (c : settings) (n : string) : Prop := dev_override c = EmptyString \/ dev_override c = n.

(** What runs: [pppd] on a device that is allowed, with the access point of the settings. *)
Definition runs_as_set (d : daemon) : Prop :=
  exists n type dbg, allowed (conf d) n /\ type <> MODEM_TYPE_INVALID /\
    (sv_run <$> rw_services (services d) !! pppd_path) = Some (Some (script (pppd_command n type (apn (conf d)) dbg))).

(** The settings, the device and the service belong together; [c] is the context, if there is one. *)
Record coherent (c : option inotify_ctx) (d : daemon) : Prop := {
  co_apn : String.length (apn (conf d)) <= 31;
  co_ctx : match c with
           | Some c => cell_modem_dev d = c_dev c /\ (c_dev c = None <-> c_type c = MODEM_TYPE_INVALID) /\ (is_Some (c_dev c) -> g_type d = c_type c)
           | None => cell_modem_dev d = None /\ up (services d) = false
           end;
  co_dev : forall n, cell_modem_dev d = Some n -> allowed (conf d) n /\ String.length n <= 255;
  co_up : up (services d) = true -> enabled (conf d) = true /\ runs_as_set d;
  co_run : prompt = true -> enabled (conf d) = true -> is_Some (cell_modem_dev d) -> up (services d) = true;
}.

Lemma string_take_le n s : String.length (string_take n s) <= n.
Proof. revert s. induction n as [|n IH]; intros [|c s]; simpl; [lia..|]. specialize (IH s). lia. Qed.

Lemma pppd_command_fits n type a dbg : String.length n <= 255 ->
  snprintf_assert 1024 (pppd_command n type a dbg) = Ret (pppd_command n type a dbg).
Proof.
  intros Hn. apply snprintf_assert_ok. unfold pppd_command. rewrite !string_length_app.
  assert (String.length (chat_command type a) <= 255) by (destruct type; [simpl; lia|apply string_take_le|simpl; lia]).
  destruct dbg; simpl String.length; lia.
Qed.

(** The settings that the service depends on. *)
Definition device_ok (d : daemon) : Prop := forall n, cell_modem_dev d = Some n -> allowed (conf d) n /\ String.length n <= 255.

(** Notification: the service is stopped, and started again if it can be. *)
Lemma cell_modem_notify_ok e d : env_ok e -> device_ok d ->
  exists w, cell_modem_notify e d = Ret (set_services d w, SETTINGS_WR_OK) /\
    match usable d with
    | None => up w = false
    | Some (n, type) => up w = true /\ (sv_run <$> rw_services w !! pppd_path) = Some (Some (script (pppd_command n type (apn (conf d)) (debug (conf d)))))
    end.
Proof.
  intros (_ & Hstop & Hstart & _) Hdev. unfold cell_modem_notify. destruct (alive_stop _ (services d) Hstop) as (w & r & -> & Hup & _). rewrite bind_Ret.
  change (usable (set_services d w)) with (usable d). destruct (usable d) as [[n type]|] eqn:Eu; [|by exists w].
  assert (cell_modem_dev d = Some n) as Hn. { unfold usable in Eu. repeat case_match; by simplify_eq. }
  cbn [set_services conf services]. rewrite pppd_command_fits, bind_Ret by by apply Hdev.
  destruct (start_up (control_ready e) (on_start e) (pppd_command n type (apn (conf d)) (debug (conf d))) w Hstart) as (w' & -> & Hu & Hs).
  rewrite bind_Ret. by exists w'.
Qed.

(** What the handlers below leave alone. *)
Definition same_frame (d d' : daemon) : Prop :=
  conf d' = conf d /\ ictx d' = ictx d /\ retry_timers d' = retry_timers d /\ respawn_timers d' = respawn_timers d /\ probe_retries d' = probe_retries d.

Lemma coherent_frame c d d' : coherent c d -> conf d' = conf d -> cell_modem_dev d' = cell_modem_dev d -> g_type d' = g_type d -> services d' = services d -> coherent c d'.
Proof. intros [H1 H2 H3 H4 H5] E1 E2 E3 E4. split; rewrite ?E1, ?E2, ?E3, ?E4 in *; try done. unfold runs_as_set in *. by rewrite E1, E4. Qed.

Lemma set_dev_found e n type c d : env_ok e -> coherent (Some c) d -> allowed (conf d) n -> String.length n <= 255 -> type <> MODEM_TYPE_INVALID ->
  exists d', cell_modem_set_dev e (Some n) type d = Ret d' /\ coherent (Some (mk_ctx (Some n) type)) d' /\ same_frame d d'.
Proof.
  intros He [Hapn _ _ Hup _] Hn Hl Ht. unfold cell_modem_set_dev. set (d1 := set_device d (Some n) type).
  assert (device_ok d1) as Hd1 by (intros n' [= <-]; done).
  assert (forall w, (up w = true -> enabled (conf d) = true /\ runs_as_set (set_services d1 w)) -> (prompt = true -> enabled (conf d) = true -> up w = true) ->
    coherent (Some (mk_ctx (Some n) type)) (set_services d1 w)) as Hco.
  { intros w Hw1 Hw2. split; try done. by intros Hp Hen _; apply Hw2. }
  destruct He as (Hst & He'). destruct (alive_stat _ (services d1) Hst) as (s & Hs & Hsu). rewrite Hs, bind_Ret.
  assert (usable d1 = if enabled (conf d) then Some (n, type) else None) as Hu.
  { unfold usable. cbn [d1 set_device conf cell_modem_dev g_type]. destruct (enabled (conf d)); [|done]. by rewrite bool_decide_eq_false_2. }
  rewrite Hu. destruct (enabled (conf d)) eqn:Een.
  - destruct (bool_decide (s = RUNIT_RUNNING)) eqn:Er.
    + apply bool_decide_eq_true in Er as ->. exists d1. split; [done|]. split; [|done].
      apply (Hco (services d)); [intros Hu1; split; [done|]; by apply Hup in Hu1 as [_ ?]|].
      intros Hp _. destruct (up (services d)) eqn:E; [done|]. destruct He' as (_ & _ & Hend). by destruct (Hend Hp (services d) E).
    + destruct (cell_modem_notify_ok e d1 (conj Hst He') Hd1) as (w & -> & Hw). rewrite bind_Ret.
      rewrite Hu in Hw. destruct Hw as [Hw1 Hw2]. exists (set_services d1 w). split; [done|]. split; [|done]. apply Hco; [|done]. intros _.
      split; [done|]. exists n, type, (debug (conf d)). done.
  - exists d1. split; [done|]. split; [|done]. apply (Hco (services d)); [|done]. intros Hx. by destruct (Hup Hx).
Qed.

Lemma set_dev_gone e d : env_ok e -> cell_modem_set_dev e None MODEM_TYPE_INVALID d = Ret (set_device d None MODEM_TYPE_INVALID).
Proof.
  intros (Hst & _). unfold cell_modem_set_dev. destruct (alive_stat _ (services (set_device d None MODEM_TYPE_INVALID)) Hst) as (s & -> & _).
  rewrite bind_Ret. unfold usable. cbn [set_device conf cell_modem_dev].
  by destruct (negb _).
Qed.

Lemma coherent_gone c d : coherent (Some c) d -> coherent (Some (mk_ctx None MODEM_TYPE_INVALID)) (set_device d None MODEM_TYPE_INVALID).
Proof. intros [H1 _ _ H4 _]. split; first [done|by intros _ _ [? ?]|split; [done|split; [done|by intros [? ?]]]]. Qed.

Lemma coherent_new d : coherent None d -> coherent (Some (mk_ctx None MODEM_TYPE_INVALID)) d.
Proof. intros [H1 [H2 H2'] H3 H4 H5]. split; try done. cbn [c_dev c_type]. split; [done|]. split; [done|by intros [? ?]]. Qed.

(** A device whose probe returns. *)
Definition attempt_ok (a : attempt) : Prop :=
  String.length (a_name a) <= 255 /\ env_ok (a_env a) /\ exists type, cell_modem_probe (a_name a) (a_tty a) (a_junk a) = Ret type.

Lemma update_dev_ok a c d : attempt_ok a -> coherent (Some c) d -> c_dev c = None ->
  exists r c' d', update_dev_from_probe a c d = Ret (r, c', d') /\ coherent (Some c') d' /\ same_frame d d' /\ (r <> 0%Z -> c_dev c' = None).
Proof.
  intros (Hl & He & type & Hp) Hd Hc. unfold update_dev_from_probe. cbv zeta.
  destruct (_ || _) eqn:E0; [by exists 1%Z, c, d|]. destruct (bool_decide (is_Some _ /\ _)) eqn:E1; [by exists 1%Z, c, d|].
  rewrite Hp, bind_Ret. destruct (bool_decide (type = MODEM_TYPE_INVALID)) eqn:Et; cbn [negb].
  - apply bool_decide_eq_true in Et as ->. assert (coherent (Some (mk_ctx (c_dev c) MODEM_TYPE_INVALID)) d) as Hd'.
    { destruct Hd as [H1 (H2 & H2' & H2'') H3 H4 H5]. split; try done. cbn [c_dev c_type]. split; [done|]. rewrite Hc. split; [done|by intros [? ?]]. }
    clear E1. case_bool_decide; eexists _, _, d; (split; [reflexivity|]); (split; [done|]); (split; [done|]); by intros _.
  - apply bool_decide_eq_false in Et. destruct (set_dev_found (a_env a) (a_name a) type c d) as (d' & -> & Hd' & Hs); try done.
    + apply bool_decide_eq_false in E1. unfold allowed, cell_modem_get_dev_override in *.
      destruct (String.length (dev_override (conf d)) =? 0) eqn:Eo; [left; by destruct (dev_override (conf d))|]. right.
      destruct (decide (dev_override (conf d) = a_name a)); [done|]. exfalso. apply E1. split; [by eexists|congruence].
    + rewrite bind_Ret. eexists _, _, d'. done.
Qed.

Definition scan_ok (ents : option dev_dir) : Prop := exists l, ents = Some l /\ Forall (fun x => attempt_ok x.2) l.

Lemma same_frame_trans d1 d2 d3 : same_frame d1 d2 -> same_frame d2 d3 -> same_frame d1 d3.
Proof. unfold same_frame. intuition congruence. Qed.

Lemma scan_loop_ok ents r c d : Forall (fun x => attempt_ok x.2) ents -> coherent (Some c) d -> c_dev c = None ->
  exists r' c' d', scan_loop ents r c d = Ret (r', c', d') /\ coherent (Some c') d' /\ same_frame d d'.
Proof.
  intros He. revert r c d. induction He as [|[chr a] ents Ha _ IH]; intros r c d Hd Hc; cbn [scan_loop]; [by exists r, c, d|].
  destruct chr; [|by apply IH]. destruct (update_dev_ok a c d Ha Hd Hc) as (r' & c' & d' & -> & Hd' & Hs & Hr). rewrite bind_Ret.
  destruct (Z.leb_spec r' 0); [by exists r', c', d'|]. destruct (IH r' c' d' Hd') as (r2 & c2 & d2 & -> & H2 & Hs2); [apply Hr; lia|].
  exists r2, c2, d2. split; [done|]. split; [done|]. by eapply same_frame_trans.
Qed.

Lemma scan_ok_ret ents c d : scan_ok ents -> coherent (Some c) d -> c_dev c = None ->
  exists r c' d', cell_modem_scan_for_modem ents c d = Ret (r, c', d') /\ coherent (Some c') d' /\ same_frame d d'.
Proof. intros (l & -> & Hl). by apply scan_loop_ok. Qed.

Definition event_ok (ev : inotify_event) : Prop :=
  match ev with IN_CREATE _ a => attempt_ok a | IN_DELETE _ e => env_ok e | IN_OTHER => True end.

Lemma inotify_ok evs c d : Forall event_ok evs -> coherent (Some c) d ->
  exists c' d', inotify_output_cb evs c d = Ret (c', d') /\ coherent (Some c') d' /\ same_frame d d'.
Proof.
  intros He. revert c d. induction He as [|ev evs Hev _ IH]; intros c d Hd; cbn [inotify_output_cb]; [by exists c, d|].
  assert (exists c' d', handle_event ev c d = Ret (c', d') /\ coherent (Some c') d' /\ same_frame d d') as (c1 & d1 & -> & H1 & Hs1).
  { destruct ev as [before a|name e|]; cbn [handle_event]; [| |by exists c, d].
    - destruct (bool_decide (c_type c = _) && before) eqn:E; [|by exists c, d]. apply andb_true_iff in E as [E _]. apply bool_decide_eq_true in E.
      assert (c_dev c = None) as Hc by (by apply (proj1 (proj2 (co_ctx _ _ Hd)))).
      destruct (update_dev_ok a c d Hev Hd Hc) as (r & c' & d' & -> & H & Hs & _). rewrite bind_Ret. by exists c', d'.
    - case_bool_decide; [|by exists c, d]. unfold cell_modem_set_dev_to_invalid. rewrite set_dev_gone, bind_Ret by done.
      eexists _, _. split; [done|]. split; [by eapply coherent_gone|done]. }
  rewrite bind_Ret. destruct (IH c1 d1 H1) as (c2 & d2 & -> & H2 & Hs2). exists c2, d2. split; [done|]. split; [done|]. by eapply same_frame_trans.
Qed.

(** ** The daemon as a whole *)

(** There is a timer for another try only while there is no context. *)
Definition daemon_ok (d : daemon) : Prop :=
  coherent (ictx d) d /\ respawn_timers d <= match ictx d with Some _ => 0 | None => 1 end.

Definition write_ok (x : change) : Prop := match x with Set_apn s => String.length s <= 31 | _ => True end.
Definition step_ok (ev : event) : Prop :=
  match ev with
  | E_inotify evs => Forall event_ok evs
  | E_retry ents => scan_ok ents
  | E_respawn _ ents => scan_ok ents
  | E_write x e1 e2 ents => write_ok x /\ env_ok e1 /\ env_ok e2 /\ scan_ok ents
  end.

Lemma async_wait_ok k ents d : scan_ok ents -> coherent None d ->
  exists c d', async_wait_for_tty k ents d = Ret (c, d') /\ coherent c d' /\ ictx d' = ictx d /\
    respawn_timers d' = respawn_timers d + match c with Some _ => 0 | None => 1 end.
Proof.
  intros Hs Hd. unfold async_wait_for_tty. destruct (inotify_ctx_create k) as [c|] eqn:Ek.
  - assert (c = mk_ctx None MODEM_TYPE_INVALID) as -> by (unfold inotify_ctx_create in Ek; case_match; by simplify_eq).
    destruct (scan_ok_ret ents _ d Hs (coherent_new d Hd) eq_refl) as (r & c' & d' & -> & Hd' & (F1 & F2 & F3 & F4 & F5)). rewrite bind_Ret.
    eexists _, _. split; [done|]. destruct (negb _); cbn [ictx respawn_timers set_timers].
    + split; [by eapply coherent_frame|]. split; [done|lia].
    + split; [done|]. split; [done|lia].
  - eexists _, _. split; [done|]. split; [by eapply coherent_frame|]. split; [done|]. cbn [set_timers respawn_timers]. lia.
Qed.

Lemma coherent_set_ctx c d x : coherent c d -> coherent c (set_ctx d x).
Proof. intros H. by eapply coherent_frame. Qed.

Lemma usable_enabled c d : coherent (Some c) d -> enabled (conf d) = true -> forall n, cell_modem_dev d = Some n -> usable d = Some (n, g_type d).
Proof.
  intros Hd He n Hn. unfold usable. rewrite He, Hn. cbn [negb]. destruct (co_ctx _ _ Hd) as (H1 & H2 & H3). rewrite Hn in H1.
  rewrite bool_decide_eq_false_2; [done|]. rewrite H3 by (rewrite <-H1; by eexists). intros Ht. apply H2 in Ht. congruence.
Qed.

(** The settings that are not the name of the device. *)
Lemma notify_coherent e c d : env_ok e -> String.length (apn (conf d)) <= 31 -> device_ok d ->
  match c with
  | Some c => cell_modem_dev d = c_dev c /\ (c_dev c = None <-> c_type c = MODEM_TYPE_INVALID) /\ (is_Some (c_dev c) -> g_type d = c_type c)
  | None => cell_modem_dev d = None
  end ->
  exists w, cell_modem_notify e d = Ret (set_services d w, SETTINGS_WR_OK) /\ coherent c (set_services d w) /\
    (usable d = None -> up w = false).
Proof.
  intros He Ha Hdev Hc. destruct (cell_modem_notify_ok e d He Hdev) as (w & Hn & Hw). exists w. split; [done|].
  assert (usable d = None -> up w = false) as Hw0 by (intros E; by rewrite E in Hw). split; [|done].
  assert (forall n t, usable d = Some (n, t) -> cell_modem_dev d = Some n /\ enabled (conf d) = true /\ t <> MODEM_TYPE_INVALID) as Hus.
  { intros n t. unfold usable. destruct (enabled (conf d)); [|done]. cbn [negb]. destruct (cell_modem_dev d); [|done]. case_bool_decide; [done|]. by intros [= -> <-]. }
  assert (enabled (conf d) = true -> is_Some (cell_modem_dev d) -> is_Some (usable d)) as Hus'.
  { intros Hen [n Hn0]. destruct c as [c|]; [|congruence]. destruct Hc as (H1 & H2 & H3). unfold usable. rewrite Hen, Hn0. cbn [negb].
    rewrite bool_decide_eq_false_2; [by eexists|]. rewrite H3 by (rewrite <-H1; by eexists). intros Ht. apply H2 in Ht. congruence. }
  split; cbn [set_services conf cell_modem_dev g_type services].
  - done.
  - destruct c; [done|]. split; [done|]. apply Hw0. unfold usable. rewrite Hc. by destruct (negb _).
  - done.
  - intros Hu. destruct (usable d) as [[n t]|] eqn:E; [|by rewrite Hw0 in Hu]. destruct (Hus n t eq_refl) as (Hn0 & Hen & Ht). split; [done|].
    exists n, t, (debug (conf d)). split; [by apply Hdev|]. split; [done|]. apply Hw.
  - intros _ Hen Hs. destruct (Hus' Hen Hs) as [[n t] E]. rewrite E in Hw. apply Hw.
Qed.

Section library.
Variable refused : settings -> settings -> settings.
Hypothesis refused_restores : forall old new, refused old new = old.

Lemma set_conf_same d c : conf d = c -> set_conf d c = d.
Proof. intros <-. by destruct d. Qed.

Lemma write_setting_ok x e1 e2 ents d : write_ok x -> env_ok e1 -> env_ok e2 -> scan_ok ents -> coherent (ictx d) d ->
  exists d', write_setting refused x e1 e2 ents d = Ret d' /\ coherent (ictx d') d' /\ respawn_timers d' = respawn_timers d /\
    (ictx d' = None <-> ictx d = None).
Proof.
  intros Hx He1 He2 Hs Hd. unfold write_setting. set (d1 := set_conf d (apply_change x (conf d))).
  assert (match ictx d with
          | Some c => cell_modem_dev d = c_dev c /\ (c_dev c = None <-> c_type c = MODEM_TYPE_INVALID) /\ (is_Some (c_dev c) -> g_type d = c_type c)
          | None => cell_modem_dev d = None end) as Hctx by (pose proof (co_ctx _ _ Hd) as H; destruct (ictx d); [done|by destruct H]).
  destruct x as [s|b|b|s]; cbv zeta.
  1,2: destruct (notify_coherent e1 (ictx d) d1 He1) as (w & Hn & Hw & _); [first [done|apply (co_apn _ _ Hd)]|exact (co_dev _ _ Hd)|done|];
    rewrite Hn, bind_Ret; eexists; (split; [done|]); done.
  - rewrite bind_Ret. exists d1. split; [done|]. split; [|done]. by destruct Hd.
  - unfold cell_modem_notify_dev_override. change (ictx d1) with (ictx d). destruct (ictx d) as [c|] eqn:Ec.
    2: { rewrite bind_Ret. exists d1. split; [done|]. split; [|by rewrite <-Ec]. destruct Hd as [H1 [H2 H2'] H3 H4 H5].
         change (ictx d1) with (ictx d). rewrite Ec. split; try done.
         - intros n. cbn [d1 set_conf cell_modem_dev]. by rewrite H2.
         - cbn [d1 set_conf services]. by rewrite H2'. }
    change (enabled (conf d1)) with (enabled (conf d)). destruct (enabled (conf d)) eqn:Een.
    + rewrite bind_Ret. cbv match. eexists. split; [done|]. rewrite refused_restores.
      change (set_conf d1 (conf d)) with (set_conf d (conf d)). rewrite set_conf_same by done. rewrite Ec. done.
    + unfold cell_modem_set_dev_to_invalid. rewrite set_dev_gone, !bind_Ret by done. set (d2 := set_device d1 None MODEM_TYPE_INVALID).
      destruct (notify_coherent e2 (Some (mk_ctx None MODEM_TYPE_INVALID)) d2 He2) as (w & -> & Hw & _); [apply (co_apn _ _ Hd)|done|split; [done|split; [done|by intros [? ?]]]|].
      rewrite bind_Ret. destruct (scan_ok_ret ents _ _ Hs Hw eq_refl) as (r & c' & d' & -> & Hd' & (F1 & F2 & F3 & F4 & F5)). rewrite !bind_Ret.
      eexists. split; [done|]. split; [by apply coherent_set_ctx|]. split; [done|]. split; by intros ?.
Qed.

Lemma step_coherent ev d : step_ok ev -> daemon_ok d -> exists d', step refused ev d = Ret d' /\ daemon_ok d'.
Proof.
  intros Hev [Hd Ht]. destruct ev as [evs|ents|k ents|x e1 e2 ents]; cbn [step step_ok] in *.
  - destruct (ictx d) as [c|] eqn:Ec; [|exists d; split; [done|]; split; by rewrite Ec].
    destruct (inotify_ok evs c d Hev Hd) as (c' & d' & -> & Hd' & (F1 & F2 & F3 & F4 & F5)). rewrite bind_Ret. eexists. split; [done|].
    split; [by apply coherent_set_ctx|]. cbn [set_ctx ictx respawn_timers]. lia.
  - destruct (ictx d) as [c|] eqn:Ec; [|exists d; split; [done|]; split; by rewrite Ec].
    destruct (0 <? retry_timers d); [|exists d; split; [done|]; split; by rewrite Ec]. unfold override_probe_retry.
    assert (forall n, daemon_ok (set_timers (set_retries d n) (pred (retry_timers d)) (respawn_timers d)) /\
      daemon_ok (set_timers d (pred (retry_timers d)) (respawn_timers d))) as Hstop.
    { intros n. split; (split; cbn [set_timers set_retries ictx respawn_timers]; rewrite Ec; [by eapply coherent_frame|done]). }
    destruct (_ && _) eqn:E; [|eexists; split; [done|]; by apply (Hstop 0%Z)]. apply andb_true_iff in E as [_ E]. apply bool_decide_eq_true in E.
    destruct (_ <? _)%Z; [|eexists; split; [done|]; by apply Hstop].
    assert (c_dev c = None) as Hc by (destruct (co_ctx _ _ Hd) as (H1 & _); congruence).
    destruct (scan_ok_ret ents c (set_retries d (u32 (probe_retries d + 1))) Hev) as (r & c' & d' & -> & Hd' & (F1 & F2 & F3 & F4 & F5)); [by eapply coherent_frame|done|].
    rewrite bind_Ret. eexists. split; [done|]. split; [by apply coherent_set_ctx|]. cbn [set_ctx ictx respawn_timers set_retries] in *. lia.
  - destruct (Nat.ltb_spec 0 (respawn_timers d)) as [Hr|Hr]; [|by exists d].
    destruct (ictx d) as [c|] eqn:Ec; [lia|]. unfold pppd_respawn.
    destruct (async_wait_ok k ents d Hev Hd) as (c & d' & -> & Hd' & Hi & Hrt). rewrite bind_Ret. eexists. split; [done|].
    split; cbn [set_timers set_ctx ictx respawn_timers]; [by eapply coherent_frame|]. destruct c; lia.
  - destruct Hev as (Hx & He1 & He2 & Hs). destruct (write_setting_ok x e1 e2 ents d Hx He1 He2 Hs Hd) as (d' & -> & Hd' & Hr & Hi).
    exists d'. split; [done|]. split; [done|]. rewrite Hr. destruct (ictx d') eqn:E1, (ictx d) eqn:E2; try lia; [by destruct Hi as [_ Hi]; specialize (Hi eq_refl)].
Qed.

Lemma run_coherent evs d : Forall step_ok evs -> daemon_ok d -> exists d', run refused evs d = Ret d' /\ daemon_ok d'.
Proof.
  intros He. revert d. induction He as [|ev evs Hev _ IH]; intros d Hd; cbn [run]; [by exists d|].
  destruct (step_coherent ev d Hev Hd) as (d' & -> & Hd'). rewrite bind_Ret. by apply IH.
Qed.

(** The settings that are read back while they are registered. *)
Definition stored_ok (ev : event) : Prop := step_ok ev /\ match ev with E_write _ _ _ _ => True | _ => False end.

Lemma run_stored evs d : Forall stored_ok evs -> coherent None d -> ictx d = None -> respawn_timers d = 0 ->
  exists d', run refused evs d = Ret d' /\ coherent None d' /\ ictx d' = None /\ respawn_timers d' = 0.
Proof.
  intros He. revert d. induction He as [|ev evs [Hev Hw] _ IH]; intros d Hd Hi Hr; cbn [run]; [by exists d|].
  destruct ev as [| | |x e1 e2 ents]; try done. destruct Hev as (Hx & He1 & He2 & Hs). cbn [step].
  destruct (write_setting_ok x e1 e2 ents d Hx He1 He2 Hs ltac:(by rewrite Hi)) as (d' & -> & Hd' & Hr' & Hi'). rewrite bind_Ret.
  assert (ictx d' = None) as Hn by by apply Hi'. rewrite Hn in Hd'. apply IH; [done|done|congruence].
Qed.

(** C18: The connection follows the settings.  Assumed is that no call of the service management
    fails, that every probe returns, and that a service told to be up reads as running whenever the
    daemon asks ([alive]: it is not crashed or being started at that moment; otherwise it is not told
    to stop, see [crashed_service_kept]).  What is reported of a service that was told to stop is
    left open.  Then, after the stored settings were read, whatever devices are there, appear, go or
    fail to be modems, whatever is written to the settings and whenever the timers fire: the daemon
    returns; if the modem is disabled the service has been told to be down; if it is up it runs
    [pppd] with the access point of the settings on a device that the override allows.  If in
    addition a service told to stop is no longer reported as running when a modem is found
    ([prompt]; otherwise the modem is not started, see [stopping_service_not_restarted]), then
    whenever it is enabled and a device is known, it has been told to be up. *)
Theorem modem_follows_settings stored k ents evs w :
  Forall stored_ok stored -> scan_ok ents -> Forall step_ok evs -> up w = false ->
  exists d, life refused stored k ents evs w = Ret d /\
    (enabled (conf d) = false -> up (services d) = false) /\
    (up (services d) = true -> runs_as_set d) /\
    (prompt = true -> enabled (conf d) = true -> is_Some (cell_modem_dev d) -> up (services d) = true) /\
    (forall n, cell_modem_dev d = Some n -> allowed (conf d) n).
Proof.
  intros Hst Hents Hevs Hw. unfold life, cell_modem_init.
  assert (coherent None (boot w)) as Hb. { split; cbn; try done; [lia|by rewrite Hw]. }
  destruct (run_stored stored (boot w) Hst Hb eq_refl eq_refl) as (d1 & -> & H1 & Hi1 & Hr1). rewrite bind_Ret.
  destruct (async_wait_ok k ents d1 Hents H1) as (c & d2 & -> & H2 & Hi2 & Hr2). rewrite !bind_Ret.
  destruct (run_coherent evs (set_ctx d2 c) Hevs) as (d & -> & Hd & _).
  { split; [by apply coherent_set_ctx|]. cbn [set_ctx ictx respawn_timers]. destruct c; lia. }
  exists d. split; [done|]. destruct Hd as [_ _ H3 H4 H5]. split_and!.
  - intros He. destruct (up (services d)) eqn:E; [|done]. destruct (H4 eq_refl). congruence.
  - intros Hu. by apply H4.
  - done.
  - intros n Hn. by apply H3.
Qed.
End library.
End service.

(** ** A modem that is plugged in *)

Definition ideal : service_answer :=
  mk_answer (fun _ => false) (fun cmds =>
    {[ pppd_path := mk_supervise (Some ((if up (mk_runit ∅ ∅ cmds) then "run" else "down") +:+ newline)) None ]}).
Definition ideal_env : env := mk_env ideal ideal ideal true.

Lemma ideal_env_ok prompt : env_ok prompt ideal_env.
Proof.
  assert (alive ideal) as H.
  { split; [done|]. intros w. cbn [ideal sa_supervise]. rewrite lookup_singleton_eq. unfold up. cbn [rw_commands].
    by destruct (last (rw_commands w)) as [[? []]|]; (split; [vm_compute; lia|]). }
  split_and!; try done. intros _ w Hw. unfold stat_runit_service.
  change (snprintf_assert PATH_MAX (service_path cfg_stop)) with (@Ret string pppd_path). rewrite bind_Ret.
  change (snprintf_assert PATH_MAX (pppd_path +:+ "/supervise/stat")) with (Ret (pppd_path +:+ "/supervise/stat")). rewrite bind_Ret.
  cbn [ideal_env on_stat seen rw_supervise ideal sa_supervise]. rewrite lookup_singleton_eq. cbn [option_bind mbind sup_stat].
  change (up (mk_runit ∅ ∅ (rw_commands w))) with (up w). by rewrite Hw.
Qed.

Definition sample_tty : tty :=
  mk_tty true true true (mk_device (turn_data sample_at ++ flat_map turn_data sample_turns ++ (Data <$> sample_gsm) ++ []) false).
Definition sample_attempt (name : string) : attempt := mk_attempt name true sample_tty (replicate 20 NUL) ideal_env.
Definition sample_dir (name : string) : option dev_dir := Some [(true, sample_attempt name)].
Definition write (x : change) : event := E_write x ideal_env ideal_env (Some []).
Definition all_created : create_answers := mk_create true true true true.

Lemma sample_attempt_ok name : String.length name <= 255 ->
  cell_modem_probe name sample_tty (replicate 20 NUL) = Ret MODEM_TYPE_GSM -> attempt_ok true (sample_attempt name).
Proof. intros Hl Hp. split; [done|]. split; [apply ideal_env_ok|]. by eexists. Qed.

Lemma modem_write_ok x : write_ok x -> step_ok true (write x).
Proof. intros Hx. split; [done|]. split; [apply ideal_env_ok|]. split; [apply ideal_env_ok|]. by exists []. Qed.

Lemma modem_follows_settings_witness :
  exists d, life (fun old _ => old) [write (Set_enable true)] all_created (sample_dir "ttyACM0") [write (Set_apn "internet")] (mk_runit ∅ ∅ []) = Ret d /\
    up (services d) = true /\ runs_as_set d.
Proof.
  destruct (modem_follows_settings true (fun old _ => old) (fun _ _ => eq_refl) [write (Set_enable true)] all_created (sample_dir "ttyACM0")
    [write (Set_apn "internet")] (mk_runit ∅ ∅ [])) as (d & Hd & _ & H2 & H3 & _).
  - constructor; [|constructor]. split; [by apply modem_write_ok|exact I].
  - eexists. split; [reflexivity|]. constructor; [|constructor]. apply sample_attempt_ok; [simpl; lia|vm_compute; reflexivity].
  - constructor; [|constructor]. apply modem_write_ok. simpl. lia.
  - reflexivity.
  - assert (up (services d) = true) as Hu.
    { assert (forall f : daemon -> bool, (match life (fun old _ => old) [write (Set_enable true)] all_created (sample_dir "ttyACM0")
        [write (Set_apn "internet")] (mk_runit ∅ ∅ []) with Ret d => f d | _ => false end) = f d) as Hf by (intros f; rewrite Hd; reflexivity).
      apply H3; [reflexivity|specialize (Hf (fun d => enabled (conf d)))|
        specialize (Hf (fun d => bool_decide (is_Some (cell_modem_dev d)))); apply (bool_decide_eq_true_1 _)];
        rewrite <-Hf; vm_compute; reflexivity. }
    exists d. split; [exact Hd|]. split; [exact Hu|]. apply H2. exact Hu.
Defined.

(** Without an override the service does not follow the modem: when it is plugged out and comes
    back under another name, the daemon finds it, but [pppd], which nobody has stopped, still is
    to be run on the old one. *)
Theorem replugged_modem_ignored :
  exists d, life (fun old _ => old) [write (Set_override EmptyString); write (Set_enable true)] all_created (sample_dir "ttyACM0")
      [E_inotify [IN_DELETE "ttyACM0" ideal_env; IN_CREATE true (sample_attempt "ttyACM1")]] (mk_runit ∅ ∅ []) = Ret d /\
    cell_modem_dev d = Some "ttyACM1" /\ up (services d) = true /\
    (sv_run <$> rw_services (services d) !! pppd_path) = Some (Some (script (pppd_command "ttyACM0" MODEM_TYPE_GSM "hologram" false))).
Proof. eexists. split; [vm_compute; reflexivity|]. split_and!; vm_compute; reflexivity. Qed.

(** *** A service that has crashed, and one that is still stopping *)

Definition reporting (text : string) : service_answer :=
  mk_answer (fun _ => false) (fun _ => {[ pppd_path := mk_supervise (Some (text +:+ newline)) None ]}).

(** The service is told to be up, ends by itself and reads as down when the modem is disabled: it
    is not told to be down, and the supervisor starts it again. *)
Example crashed_service_kept :
  exists d, life (fun old _ => old) [write (Set_enable true)] all_created (sample_dir "ttyACM0")
      [E_write (Set_enable false) (mk_env ideal (reporting "down") ideal true) ideal_env (Some [])] (mk_runit ∅ ∅ []) = Ret d /\
    enabled (conf d) = false /\ up (services d) = true.
Proof. eexists. split; [vm_compute; reflexivity|]. split; vm_compute; reflexivity. Qed.

(** The service still runs although it was told to stop when the modem is found again: the modem is
    not started. *)
Example stopping_service_not_restarted :
  exists d, life (fun old _ => old) [write (Set_override EmptyString); write (Set_enable true)] all_created (sample_dir "ttyACM0")
      [write (Set_enable false); E_inotify [IN_DELETE "ttyACM0" ideal_env]; write (Set_enable true);
       E_inotify [IN_CREATE true (mk_attempt "ttyACM0" true sample_tty (replicate 20 NUL)
         (mk_env (reporting "run, want down") ideal ideal true))]] (mk_runit ∅ ∅ []) = Ret d /\
    enabled (conf d) = true /\ cell_modem_dev d = Some "ttyACM0" /\ up (services d) = false.
Proof. eexists. split; [vm_compute; reflexivity|]. split_and!; vm_compute; reflexivity. Qed.

(** ** The options of the daemon *)

Inductive opt_id := OPT_ID_SERIAL_PORT | OPT_ID_AT_COMMAND.
#[export] Instance opt_id_eq_dec : EqDecision opt_id.
Proof. solve_decision. Defined.
Definition long_opts : list (long_option opt_id) :=
  [mk_option "serial-port" required_argument OPT_ID_SERIAL_PORT; mk_option "at-command" required_argument OPT_ID_AT_COMMAND].
Record options := mk_options { o_port : option string; o_command : option string }.
Fixpoint options_loop (rs : list (opt_result opt_id)) (o : options) : option options :=
  match rs with
  | [] => Some o
  | Opt OPT_ID_SERIAL_PORT (Some s) :: rs' => options_loop rs' (mk_options (Some s) (o_command o))
  | Opt OPT_ID_AT_COMMAND (Some s) :: rs' => options_loop rs' (mk_options (o_port o) (Some s))
  | _ => None
  end.
Definition parse_options (argv : list string) : option options :=
  o ← options_loop (getopt_long long_opts [] argv) (mk_options None None);
  if bool_decide (is_Some (o_port o)) then Some o else None.

Example options_of_service : parse_options ["--serial-port"; "/dev/ttyACM0"] = Some (mk_options (Some "/dev/ttyACM0") None).
Proof. reflexivity. Qed.
