(* ===== verification/Interfaces.v ===== *)
(** * Network interfaces

    [libpiksi/libpiksi/src/interface.c] (the counters of /proc/net/dev in a sorted list),
    [networking.c] (the usage and the state of the interfaces) and [network_daemon/src/
    network_daemon.c] (the message with the usage).  The doubly linked list is kept from its tail to
    its head, the way it is searched; of the counters only those of bytes are kept, since nothing
    reads the others. *)

From Stdlib Require Import Ascii.
From S2P Require Import Prelude Libc Text Getopt.

Definition IF_NAMESIZE : nat := 16.
Definition PROC_NET_DEV_MAX_LINE_SIZE : nat := 512.
Definition UINT32_MAX : Z := 4294967295.
Definition ULLONG_MAX : Z := 18446744073709551615.

(** ** The list of interfaces *)

Record net_interface := mk_interface { i_name : string; rx_bytes : Z; tx_bytes : Z }.
Definition strcmp (a b : string) : comparison := String.compare a b.

(** The list with a new node, or [None] when the name is there. *)
Fixpoint place (l : list net_interface) (name : string) : option (list net_interface) :=
  match l with
  | [] => Some [mk_interface name 0 0]
  | x :: l' =>
      match strcmp (i_name x) name with
      | Eq => None
      | Lt => Some (mk_interface name 0 0 :: x :: l')
      | Gt => (fun l' => x :: l') <$> place l' name
      end
  end.
Definition interface_list_add (alloc : bool) (l : list net_interface) (name : string) : option (list net_interface) :=
  match place l name with None => Some l | Some l' => if alloc then Some l' else None end.

(** ** Reading /proc/net/dev *)

(** From the first character of the name: its length and what follows the colon. *)
Fixpoint name_loop (s : text) (n : nat) : outcome (option (nat * text)) :=
  if IF_NAMESIZE <=? n then Ret None
  else match s with
       | [] => Undef
       | c :: s' =>
           if bool_decide (c = ":"%char) then Ret (Some (n, s'))
           else match s' with
                | [] => Undef
                | c' :: _ => if nat_of_ascii c' <=? 32 then Ret None else name_loop s' (S n)
                end
       end.
(** [None]: the name is empty. *)
Definition get_name (p : text) : outcome (option (text * text)) :=
  let namestart := drop_while isspace p in
  r ← name_loop namestart 0;
  Ret (match r with Some (S n, rest) => Some (take (S n) namestart, rest) | _ => None end).

(** A number as [sscanf] reads it for [%llu]. *)
Definition read_llu (s : string) : option (Z * string) :=
  let '(neg, s1) := skip_sign (skip_space s) in
  match s1 with
  | String.String c _ =>
      if isdigit c then
        let '(v, rest) := dec_digits s1 0 in
        Some (if (ULLONG_MAX <? v)%Z then ULLONG_MAX else if (neg : bool) then u64 (- v) else v, rest)
      else None
  | EmptyString => None
  end.
Fixpoint scan_numbers (n : nat) (s : string) : list Z :=
  match n with
  | O => []
  | S n' => match read_llu s with Some (v, rest) => v :: scan_numbers n' rest | None => [] end
  end.

(** The received and transmitted bytes: their positions depend on the version of the file. *)
Definition get_dev_fields (bp : string) (procnetdev_vsn : nat) : Z * Z :=
  match procnetdev_vsn with
  | O => (0, 0)%Z
  | S O => let ns := scan_numbers 13 bp in (default 0%Z (ns !! 0), default 0%Z (ns !! 6))
  | _ => let ns := scan_numbers 16 bp in (default 0%Z (ns !! 0), default 0%Z (ns !! 8))
  end.
Definition set_stats (name : string) (st : Z * Z) (l : list net_interface) : list net_interface :=
  (fun i => if bool_decide (i_name i = name) then mk_interface name st.1 st.2 else i) <$> l.

Definition procnetdev_version (buf : text) : nat :=
  if bool_decide (is_Some (strstr buf (text_of "compressed"))) then 2
  else if bool_decide (is_Some (strstr buf (text_of "bytes"))) then 1 else 0.

(** [fgets] into the buffer of a line. *)
Definition fgets (buf line : text) : outcome text := memcpy buf 0 (line ++ [NUL]).

(** What [fgets] gives, line by line, with whether [malloc] succeeds if it is called. *)
Fixpoint read_lines (vsn : nat) (lines : list (text * bool)) (buf : text) (l : list net_interface) : outcome (Z * list net_interface) :=
  match lines with
  | [] => Ret (0%Z, l)
  | (line, alloc) :: lines' =>
      buf ← fgets buf line;
      r ← get_name buf;
      match r with
      | None => Ret ((-1)%Z, l)
      | Some (name, rest) =>
          match interface_list_add alloc l (string_of name) with
          | None => Ret ((-1)%Z, l)
          | Some l => read_lines vsn lines' buf (set_stats (string_of name) (get_dev_fields (string_of (c_str rest)) vsn) l)
          end
      end
  end.

(** [junk]: what the buffer holds before the first line; [None]: the file cannot be opened. *)
Definition interface_list_read_interfaces (file : option (list (text * bool))) (junk : text) (l : list net_interface) : outcome (Z * list net_interface) :=
  match file with
  | None => Ret ((-1)%Z, l)
  | Some lines =>
      let '(first, lines) := match lines with [] => (None, []) | x :: r => (Some x.1, r) end in
      let '(second, lines) := match lines with [] => (None, []) | x :: r => (Some x.1, r) end in
      buf ← match first with Some t => fgets junk t | None => Ret junk end;
      buf ← match second with Some t => fgets buf t | None => Ret buf end;
      header ← buf_str buf;
      read_lines (procnetdev_version header) lines buf l
  end.

(** ** The usage *)

Record network_usage := mk_usage { u_duration : Z; u_total : Z; u_rx : Z; u_tx : Z; u_name : string }.
Definition no_usage : network_usage := mk_usage 0 0 0 0 EmptyString.
Definition clamp (v : Z) : Z := if (UINT32_MAX <? v)%Z then UINT32_MAX else v.

(** What the code depends on of [network_usage_t], which libsbp declares: its size, and the addition
    at the type of its fields [rx_bytes] and [tx_bytes].  Its name field holds the name of an
    interface. *)
Record usage_layout := mk_layout { sizeof_network_usage : nat; bytes_add : Z -> Z -> Z }.

Definition usage_entry (sbp : usage_layout) (uptime_ms : Z) (i : net_interface) : network_usage :=
  let rx := clamp (rx_bytes i) in
  let tx := clamp (tx_bytes i) in
  mk_usage uptime_ms (clamp (bytes_add sbp rx tx)) rx tx (i_name i).

Fixpoint usage_loop (sbp : usage_layout) (uptime_ms : Z) (n : nat) (l : list net_interface) (entries : list network_usage) (count : nat) : outcome (list network_usage * nat) :=
  match l with
  | [] => Ret (entries, count)
  | i :: l' =>
      entries ← store entries count (usage_entry sbp uptime_ms i);
      if n <=? count then Ret (entries, S count) else usage_loop sbp uptime_ms n l' entries (S count)
  end.

(** What [query_network_usage] meets: the uptime, the allocation of the list, the file. *)
Record usage_answers := mk_answers { q_uptime : Z; q_alloc : bool; q_file : option (list (text * bool)); q_junk : text }.
Definition query_network_usage (sbp : usage_layout) (q : usage_answers) (entries : list network_usage) (n : nat) : outcome (list network_usage * nat) :=
  if negb (q_alloc q) then Ret (entries, 0)
  else
    '(_, l) ← interface_list_read_interfaces (q_file q) (q_junk q) [];
    usage_loop sbp (q_uptime q) n (rev l) entries 0.

Definition SBP_MAX_NETWORK_INTERFACES : nat := 10.
Definition SBP_FRAMING_MAX_PAYLOAD_SIZE : nat := 255.

(** The entries of the message that is sent. *)
Definition send_network_usage_update (sbp : usage_layout) (q : usage_answers) : outcome (option (list network_usage)) :=
  '(entries, total) ← query_network_usage sbp q (replicate SBP_MAX_NETWORK_INTERFACES no_usage) SBP_MAX_NETWORK_INTERFACES;
  Ret (if 0 <? total then
         if SBP_FRAMING_MAX_PAYLOAD_SIZE <? sizeof_network_usage sbp * total then None else Some (take total entries)
       else None).

(** ** The state *)

(** An address as [getifaddrs] gives it; [mask]: [None] for a null pointer. *)
Inductive if_address :=
  | AF_INET (addr : list Z) (mask : option (list Z))
  | AF_INET6 (addr : list Z) (mask : option (list Z))
  | AF_PACKET (stats : option (Z * Z))
  | AF_OTHER.
Record ifaddrs := mk_ifaddrs { ifa_name : option string; ifa_addr : option if_address; ifa_flags : Z }.

Record network_state := mk_state {
  ipv4_address : list Z; ipv4_mask_size : Z; ipv6_address : list Z; ipv6_mask_size : Z;
  st_rx_bytes : Z; st_tx_bytes : Z; interface_name : string; st_flags : Z }.
Definition no_state : network_state := mk_state (replicate 4 0%Z) 0 (replicate 16 0%Z) 0 0 0 EmptyString 0.
Definition named (n : string) (s : network_state) : network_state :=
  mk_state (ipv4_address s) (ipv4_mask_size s) (ipv6_address s) (ipv6_mask_size s) (st_rx_bytes s) (st_tx_bytes s) n (st_flags s).

Definition popcount (b : Z) : nat := length (filter (fun i => Z.testbit b (Z.of_nat i) = true) (seq 0 8)).
Definition count_set_bits (data : list Z) : Z := Z.of_nat (sum_list (popcount <$> data)).

(** The slot for a name: the first free one, or the one that has it. *)
Fixpoint find_slot (name : string) (l : list network_state) (i : nat) : option (nat * bool) :=
  match l with
  | [] => None
  | s :: l' =>
      if String.length (interface_name s) =? 0 then Some (i, true)
      else if bool_decide (interface_name s = name) then Some (i, false) else find_slot name l' (S i)
  end.

Definition fill_address (ifa : ifaddrs) (a : if_address) (s : network_state) : outcome network_state :=
  match a with
  | AF_INET addr mask =>
      mask ← of_option mask;
      Ret (mk_state addr (count_set_bits mask) (ipv6_address s) (ipv6_mask_size s) (st_rx_bytes s) (st_tx_bytes s) (interface_name s) (ifa_flags ifa))
  | AF_INET6 addr mask =>
      mask ← of_option mask;
      Ret (mk_state (ipv4_address s) (ipv4_mask_size s) addr (count_set_bits mask) (st_rx_bytes s) (st_tx_bytes s) (interface_name s) (st_flags s))
  | AF_PACKET (Some (rx, tx)) =>
      Ret (mk_state (ipv4_address s) (ipv4_mask_size s) (ipv6_address s) (ipv6_mask_size s) rx tx (interface_name s) (st_flags s))
  | _ => Ret s
  end.

(** The array and the number of interfaces in it. *)
Definition fill_network_state_struct (ifa : ifaddrs) (st : list network_state * nat) : outcome (list network_state * nat) :=
  let '(interfaces, count) := st in
  match ifa_addr ifa, ifa_name ifa with
  | Some a, Some name =>
      if IF_NAMESIZE <=? String.length name then Ret st
      else match find_slot name interfaces 0 with
           | None => Ret st
           | Some (i, fresh) =>
               s ← load interfaces i;
               s ← fill_address ifa a (if (fresh : bool) then named name s else s);
               interfaces ← store interfaces i s;
               Ret (interfaces, if fresh then S count else count)
           end
  | _, _ => Ret st
  end.
Fixpoint map_network_interfaces (l : list ifaddrs) (st : list network_state * nat) : outcome (list network_state * nat) :=
  match l with [] => Ret st | ifa :: l' => st ← fill_network_state_struct ifa st; map_network_interfaces l' st end.
(** [None]: [getifaddrs] fails. *)
Definition query_network_state (l : option (list ifaddrs)) (interfaces : list network_state) : outcome (list network_state * nat) :=
  match l with Some l => map_network_interfaces l (interfaces, 0) | None => Ret (interfaces, 0) end.

(** ** The list is sorted *)

Lemma name_cmp_eq a b : strcmp a b = Eq <-> a = b.
Proof.
  split; [apply String.compare_eq_iff|]. intros <-. unfold strcmp. induction a as [|c a IH]; [done|]. cbn.
  unfold Ascii.compare. by rewrite N.compare_refl.
Qed.
Lemma strcmp_opp a b : strcmp b a = CompOpp (strcmp a b).
Proof. apply String.compare_antisym. Qed.
Lemma strcmp_trans a b c : strcmp a b = Lt -> strcmp b c = Lt -> strcmp a c = Lt.
Proof.
  unfold strcmp. revert b c. induction a as [|x a IH]; intros [|y b] [|z c]; cbn; try done. unfold Ascii.compare.
  destruct (N.compare_spec (N_of_ascii x) (N_of_ascii y)) as [E1|E1|E1]; try done; destruct (N.compare_spec (N_of_ascii y) (N_of_ascii z)) as [E2|E2|E2]; try done.
  - rewrite E1, E2, N.compare_refl. apply IH.
  - intros _ _. by rewrite E1, (proj2 (N.compare_lt_iff _ _) E2).
  - intros _ _. by rewrite <-E2, (proj2 (N.compare_lt_iff _ _) E1).
  - intros _ _. by rewrite (proj2 (N.compare_lt_iff _ _) (N.lt_trans _ _ _ E1 E2)).
Qed.

Definition above (x y : net_interface) : Prop := strcmp (i_name y) (i_name x) = Lt.
Definition descending (l : list net_interface) : Prop := StronglySorted above l.
Definition key (i : net_interface) : string * (Z * Z) := (i_name i, (rx_bytes i, tx_bytes i)).
Definition as_map (l : list net_interface) : gmap string (Z * Z) := list_to_map (key <$> l).

(** An entry for a name, with its counters. *)
Definition put (l : list net_interface) (name : string) (st : Z * Z) : list net_interface := set_stats name st (default l (place l name)).

Lemma set_stats_cons name st i l :
  set_stats name st (i :: l) = (if bool_decide (i_name i = name) then mk_interface name st.1 st.2 else i) :: set_stats name st l.
Proof. done. Qed.

Lemma set_stats_other name st l : Forall (fun i => i_name i <> name) l -> set_stats name st l = l.
Proof. unfold set_stats. induction 1 as [|i l Hi _ IH]; [done|]. cbn. rewrite bool_decide_eq_false_2 by done. by f_equal. Qed.

Lemma below_other x name l : strcmp (i_name x) name <> Gt -> Forall (above x) l -> Forall (fun i => i_name i <> name) l.
Proof.
  intros Hx Hl. eapply Forall_impl; [exact Hl|]. intros y Hy <-. apply Hx. rewrite strcmp_opp. unfold above in Hy. by rewrite Hy.
Qed.

Lemma put_spec l name st : descending l ->
  descending (put l name st) /\ as_map (put l name st) = <[name := st]> (as_map l) /\
  forall P : string -> Prop, P name -> Forall (fun i => P (i_name i)) l -> Forall (fun i => P (i_name i)) (put l name st).
Proof.
  destruct st as [rx tx]. unfold put. induction l as [|x l IH]; intros Hd; cbn [place default from_option].
  - cbn. rewrite bool_decide_eq_true_2 by done. split_and!; [by repeat constructor|done|by repeat constructor].
  - apply StronglySorted_inv in Hd as [Hd Hx]. destruct (strcmp (i_name x) name) eqn:Ec.
    + apply name_cmp_eq in Ec as <-. cbn [default from_option]. rewrite set_stats_cons, bool_decide_eq_true_2 by done.
      rewrite set_stats_other by (eapply below_other; [by rewrite (proj2 (name_cmp_eq _ _) eq_refl)|done]).
      split_and!; [by constructor| |by intros P HP [_ ?]%Forall_cons; constructor].
      unfold as_map. cbn. by rewrite insert_insert_eq.
    + cbn [default from_option id]. rewrite !set_stats_cons. cbn [i_name]. rewrite bool_decide_eq_true_2 by done.
      assert (i_name x <> name) as Hn by (intros E; apply name_cmp_eq in E; congruence). rewrite bool_decide_eq_false_2 by done.
      rewrite set_stats_other by (eapply below_other; [by rewrite Ec|done]). split_and!; [|done|intros P HP Hl; by constructor].
      constructor; [by constructor|]. constructor; [done|]. eapply Forall_impl; [exact Hx|]. intros y Hy. by eapply strcmp_trans.
    + assert (i_name x <> name) as Hn by (intros E; apply name_cmp_eq in E; congruence).
      destruct (IH Hd) as (H1 & H2 & H3). assert (set_stats name (rx, tx) (default (x :: l) ((fun l' => x :: l') <$> place l name)) = x :: set_stats name (rx, tx) (default l (place l name))) as ->.
      { destruct (place l name); cbn; by rewrite bool_decide_eq_false_2. }
      split_and!.
      * constructor; [done|]. apply (H3 (fun n => strcmp n (i_name x) = Lt)); [|done]. by rewrite strcmp_opp, Ec.
      * unfold as_map in *. cbn. rewrite H2. cbn. by rewrite insert_insert_ne.
      * intros P HP [Hp Hl]%Forall_cons. constructor; [done|]. by apply H3.
Qed.

Lemma interface_list_add_put l name st : set_stats name st <$> interface_list_add true l name = Some (put l name st).
Proof. unfold interface_list_add, put. by destruct (place l name). Qed.

(** ** The lines of the file *)

Definition print_llu (v : Z) : string := digit_string (strip_zeros (digits 10 20 v)).
Record dev_line := mk_dev { d_name : string; d_numbers : list Z }.
Definition numbers (vs : list Z) : string := foldr (fun v s => " " +:+ print_llu v +:+ s) newline vs.
Definition dev_text (d : dev_line) : text := text_of ("  " +:+ d_name d +:+ ":" +:+ numbers (d_numbers d)).
Definition dev_ok (d : dev_line) : Prop :=
  d_name d <> EmptyString /\ String.length (d_name d) < IF_NAMESIZE /\
  Forall (fun c => 32 < nat_of_ascii c /\ c <> ":"%char) (text_of (d_name d)) /\
  length (d_numbers d) = 16 /\ Forall (fun v => 0 <= v <= ULLONG_MAX)%Z (d_numbers d).
Definition dev_stats (d : dev_line) : Z * Z := (default 0%Z (d_numbers d !! 0), default 0%Z (d_numbers d !! 8)).

Lemma print_llu_props v : (0 <= v <= ULLONG_MAX)%Z ->
  exists ds, print_llu v = digit_string ds /\ Forall (fun d => 0 <= d < 10)%Z ds /\ ds <> [] /\ digits_value 10 ds = v /\ length ds <= 20.
Proof.
  intros Hv. destruct (strip_zeros_props (fun d => 0 <= d < 10)%Z (digits 10 20 v)) as [Hr Hne];
    [apply digits_range; lia|intros H; cbn [digits] in H; by apply app_nil in H as [_ H]|].
  eexists. split; [reflexivity|]. split; [done|]. split; [done|]. split.
  - rewrite strip_zeros_value, digits_value_mod by lia. apply Z.mod_small. unfold ULLONG_MAX in Hv. cbn. lia.
  - assert (forall l, length (strip_zeros l) <= length l) as Hs.
    { clear. induction l as [|d l IH]; [simpl; lia|]. destruct d; [|simpl; lia..]. destruct l; [simpl; lia|].
      change (strip_zeros (0%Z :: z :: l)) with (strip_zeros (z :: l)). etransitivity; [exact IH|]. simpl. lia. }
    etransitivity; [apply Hs|]. clear. assert (forall n v, length (digits 10 n v) = n) as -> by (induction n as [|n IH]; intros w; cbn [digits]; rewrite ?length_app, ?IH; simpl; lia). lia.
Qed.

Lemma read_llu_print v s : (0 <= v <= ULLONG_MAX)%Z -> match s with String.String c _ => isdigit c = false | EmptyString => True end ->
  read_llu (" " +:+ print_llu v +:+ s) = Some (v, s).
Proof.
  intros Hv Hs. destruct (print_llu_props v Hv) as (ds & -> & Hd & Hne & Hval & _).
  destruct (decimal_head ds s Hd Hne Hs) as (c & t & Heq & Hc & Hsp & Hsg & Hdd).
  change (" " +:+ digit_string ds +:+ s) with (String.String " " (digit_string ds +:+ s)). rewrite Heq. unfold read_llu. cbn [skip_space].
  change (isspace " ") with true. cbv match. rewrite Hsp, Hsg, Hc, Hdd, Hval. by rewrite (proj2 (Z.ltb_ge _ _)) by lia.
Qed.

Lemma scan_numbers_print vs : Forall (fun v => 0 <= v <= ULLONG_MAX)%Z vs -> scan_numbers (length vs) (numbers vs) = vs.
Proof.
  induction 1 as [|v vs Hv _ IH]; [done|]. cbn [length scan_numbers numbers foldr]. rewrite read_llu_print; [|done|].
  - f_equal. exact IH.
  - by destruct vs.
Qed.

Lemma name_loop_name name rest n : Forall (fun c => 32 < nat_of_ascii c /\ c <> ":"%char) name -> n + length name < IF_NAMESIZE ->
  name_loop (name ++ ":"%char :: rest) n = Ret (Some (n + length name, rest)).
Proof.
  intros Hn. revert n. induction Hn as [|c name [_ Hc] Hn IH]; intros n Hl.
  - cbn [app name_loop length]. destruct (Nat.leb_spec IF_NAMESIZE n); [simpl in Hl; lia|]. by rewrite Nat.add_0_r.
  - cbn [app name_loop]. cbn [length] in Hl. destruct (Nat.leb_spec IF_NAMESIZE n); [lia|]. rewrite bool_decide_eq_false_2 by done.
    assert (exists c' s, name ++ ":"%char :: rest = c' :: s /\ 32 < nat_of_ascii c') as (c' & s & E & Hc').
    { destruct Hn as [|c' name [Hc' _] _]; eexists _, _; (split; [reflexivity|]); [vm_compute; lia|done]. }
    rewrite E. destruct (Nat.leb_spec (nat_of_ascii c') 32); [lia|]. rewrite <-E, IH by lia. cbn [length]. do 3 f_equal. lia.
Qed.

Lemma text_of_cons c s : text_of (String.String c s) = c :: text_of s.
Proof. done. Qed.
Lemma numbers_no_nul vs : Forall (fun v => 0 <= v <= ULLONG_MAX)%Z vs -> no_nul (text_of (numbers vs)) /\ String.length (numbers vs) <= 21 * length vs + 1.
Proof.
  induction 1 as [|v vs Hv _ [IH1 IH2]]; [split; [by apply (bool_decide_unpack _)|done]|]. cbn [numbers foldr].
  change (foldr _ _ vs) with (numbers vs). rewrite !text_of_app, !string_length_app. destruct (print_llu_props v Hv) as (ds & -> & Hd & _ & _ & Hl).
  split.
  - rewrite !no_nul_app. split; [by apply (bool_decide_unpack _)|]. split; [|done]. intros Hin.
    by apply (digit_string_in ds NUL Hd) in Hin.
  - assert (String.length (digit_string ds) = length ds) as -> by (clear; induction ds as [|d ds IH]; [done|]; cbn; by rewrite <-IH).
    simpl String.length. simpl length. lia.
Qed.

(** One line of the file. *)
Lemma dev_line_read d buf : dev_ok d -> length buf = PROC_NET_DEV_MAX_LINE_SIZE ->
  exists buf' rest, fgets buf (dev_text d) = Ret buf' /\ length buf' = PROC_NET_DEV_MAX_LINE_SIZE /\
    get_name buf' = Ret (Some (text_of (d_name d), rest)) /\ get_dev_fields (string_of (c_str rest)) 2 = dev_stats d.
Proof.
  intros (Hne & Hl & Hc & Hn & Hv) Hb. destruct (numbers_no_nul (d_numbers d) Hv) as [Hnul Hlen]. rewrite Hn in Hlen.
  assert (dev_text d = text_of "  " ++ text_of (d_name d) ++ ":"%char :: text_of (numbers (d_numbers d))) as Hd by (unfold dev_text; by rewrite !text_of_app).
  assert (length (dev_text d ++ [NUL]) <= length buf) as Hfit.
  { rewrite Hb, Hd, !length_app. cbn [length]. rewrite !text_of_length. unfold PROC_NET_DEV_MAX_LINE_SIZE, IF_NAMESIZE in *. simpl String.length. lia. }
  unfold fgets. rewrite memcpy_ok by done. eexists _, (text_of (numbers (d_numbers d)) ++ NUL :: _). split; [reflexivity|].
  rewrite (length_memcpy buf 0) by done. split; [done|]. rewrite take_0, app_nil_l, Hd.
  assert (exists c0 n0, text_of (d_name d) = c0 :: n0) as (c0 & n0 & E0) by (destruct (d_name d); [done|by eexists _, _]).
  assert (length (text_of (d_name d)) < IF_NAMESIZE) as Hl' by by rewrite text_of_length.
  split.
  - set (tl := drop _ buf). rewrite <-!app_assoc. cbn [app]. unfold get_name. cbv zeta.
    assert (drop_while isspace (text_of "  " ++ text_of (d_name d) ++ ":"%char :: text_of (numbers (d_numbers d)) ++ NUL :: tl) =
      text_of (d_name d) ++ ":"%char :: text_of (numbers (d_numbers d)) ++ NUL :: tl) as ->.
    { cbn [text_of String.list_ascii_of_string app drop_while]. change (isspace " ") with true. cbv match. rewrite E0. cbn [app drop_while].
      rewrite E0 in Hc. apply Forall_cons in Hc as [[Hc _] _]. unfold isspace.
      destruct (Nat.eqb_spec (nat_of_ascii c0) 32); [lia|]. destruct (Nat.leb_spec (nat_of_ascii c0) 13); [lia|]. by rewrite andb_false_r. }
    rewrite name_loop_name by done. rewrite bind_Ret. rewrite Nat.add_0_l. rewrite E0 at 1. cbn [length]. do 3 f_equal.
    change (S (length n0)) with (length (c0 :: n0)). rewrite <-E0. by rewrite take_app_length.
  - rewrite c_str_app_nul by done. rewrite string_of_text_of. unfold get_dev_fields. rewrite <-Hn, scan_numbers_print by done. done.
Qed.

Lemma read_lines_devs devs buf l : Forall dev_ok devs -> length buf = PROC_NET_DEV_MAX_LINE_SIZE -> descending l ->
  exists l', read_lines 2 ((fun d => (dev_text d, true)) <$> devs) buf l = Ret (0%Z, l') /\ descending l' /\
    as_map l' = foldl (fun m d => <[d_name d := dev_stats d]> m) (as_map l) devs.
Proof.
  intros Hd. revert buf l. induction Hd as [|d devs Hd _ IH]; intros buf l Hb Hl; cbn [fmap list_fmap read_lines foldl]; [by exists l|].
  destruct (dev_line_read d buf Hd Hb) as (buf' & rest & -> & Hb' & Hg & Hf). rewrite bind_Ret, Hg, bind_Ret, string_of_text_of.
  pose proof (interface_list_add_put l (d_name d) (dev_stats d)) as Hadd. destruct (interface_list_add true l (d_name d)) as [l1|]; [|done].
  cbn [fmap option_fmap option_map] in Hadd. injection Hadd as Hadd. rewrite Hf, Hadd.
  destruct (put_spec l (d_name d) (dev_stats d) Hl) as (H1 & H2 & _). destruct (IH buf' _ Hb' H1) as (l' & Hr & Hs & Hm).
  exists l'. split; [exact Hr|]. split; [done|]. by rewrite Hm, H2.
Qed.

(** ** The message *)

Lemma usage_loop_fill sbp up n l entries count : length entries = n -> count <= n ->
  usage_loop sbp up n l entries count =
    if count + length l <=? n then Ret (take count entries ++ (usage_entry sbp up <$> l) ++ drop (count + length l) entries, count + length l) else Undef.
Proof.
  intros Hn. revert entries count Hn. induction l as [|i l IH]; intros entries count Hn Hc; cbn [usage_loop length fmap list_fmap].
  - rewrite Nat.add_0_r. destruct (Nat.leb_spec count n); [|lia]. cbn [app]. by rewrite take_drop.
  - unfold store. rewrite Hn. destruct (Nat.ltb_spec count n) as [Hlt|Hge]; cbn [mbind outcome_bind].
    2: destruct (Nat.leb_spec (count + S (length l)) n); [lia|done].
    destruct (Nat.leb_spec n count); [lia|]. rewrite IH by (rewrite ?length_insert; lia).
    replace (S count + length l) with (count + S (length l)) by lia. destruct (_ <=? n) eqn:E; [|done]. do 2 f_equal.
    rewrite (take_S_r _ _ (usage_entry sbp up i)) by (apply list_lookup_insert_eq; lia). rewrite take_insert_ge by lia.
    rewrite drop_insert_lt by lia. rewrite <-app_assoc. done.
Qed.

Lemma StronglySorted_rev {A} (R : relation A) l : StronglySorted R l -> StronglySorted (fun x y => R y x) (rev l).
Proof.
  induction 1 as [|x l _ IH Hx]; cbn [rev]; [constructor|]. clear -IH Hx. assert (Forall (fun y => R x y) (rev l)) as Hr by by apply Forall_rev.
  revert IH Hr. generalize (rev l) as k. clear. induction k as [|y k IH]; intros Hs Hr; cbn [app]; [by repeat constructor|].
  apply StronglySorted_inv in Hs as [Hs Hy]. apply Forall_cons in Hr as [Hxy Hr]. constructor; [by apply IH|].
  apply Forall_app. by split; [|constructor].
Qed.

Definition ascending (x y : net_interface) : Prop := strcmp (i_name x) (i_name y) = Lt.

Lemma descending_names l : descending l -> NoDup (key <$> l).*1.
Proof.
  induction 1 as [|x l _ IH Hx]; cbn; [constructor|]. constructor; [|done]. intros Hin. rewrite <-list_fmap_compose in Hin.
  apply list_elem_of_fmap in Hin as (y & Hy & Hin). rewrite Forall_forall in Hx. specialize (Hx y Hin). unfold above in Hx. cbn in Hy.
  rewrite Hy in Hx. by rewrite (proj2 (name_cmp_eq _ _) eq_refl) in Hx.
Qed.

(** The last counters of each interface in the file. *)
Definition counters (devs : list dev_line) : gmap string (Z * Z) := foldl (fun m d => <[d_name d := dev_stats d]> m) ∅ devs.
Definition proc_net_dev (hdr1 hdr2 : text) (devs : list dev_line) : list (text * bool) :=
  (hdr1, true) :: (hdr2, true) :: ((fun d => (dev_text d, true)) <$> devs).

(** C20: The usage message, from the file to the frame, whatever the size of libsbp's
    [network_usage_t] and the width of its fields.  It has, for each interface of the file and
    sorted by name, the last counters, those of bytes cut to 32 bits, and their sum at the type of
    those fields, when there are at most ten interfaces and their entries fit into the 255 bytes of
    a frame; up to ten that do not fit are not sent at all; with more than ten an entry is written
    past the end of the array. *)
Theorem usage_report sbp up hdr1 hdr2 devs junk :
  length junk = PROC_NET_DEV_MAX_LINE_SIZE -> length hdr1 < PROC_NET_DEV_MAX_LINE_SIZE -> length hdr2 < PROC_NET_DEV_MAX_LINE_SIZE ->
  no_nul hdr2 -> procnetdev_version hdr2 = 2 -> Forall dev_ok devs ->
  exists ifs, StronglySorted ascending ifs /\ list_to_map (key <$> ifs) = counters devs /\
    send_network_usage_update sbp (mk_answers up true (Some (proc_net_dev hdr1 hdr2 devs)) junk) =
      let n := size (counters devs) in
      if n =? 0 then Ret None
      else if n <=? 10 then
        Ret (if sizeof_network_usage sbp * n <=? 255 then Some (usage_entry sbp up <$> ifs) else None)
      else Undef.
Proof.
  intros Hj H1 H2 Hn Hv Hd. unfold send_network_usage_update, query_network_usage. cbn [q_alloc q_file q_junk q_uptime negb].
  unfold interface_list_read_interfaces, proc_net_dev. cbn [fst].
  assert (forall b t, length b = PROC_NET_DEV_MAX_LINE_SIZE -> length t < PROC_NET_DEV_MAX_LINE_SIZE ->
    exists tl, fgets b t = Ret (t ++ NUL :: tl) /\ length (t ++ NUL :: tl) = PROC_NET_DEV_MAX_LINE_SIZE) as Hfg.
  { intros b t Hb Ht. unfold fgets. assert (0 + length (t ++ [NUL]) <= length b) as Hle by (rewrite length_app; simpl; lia). rewrite memcpy_ok by done.
    pose proof (length_memcpy b 0 (t ++ [NUL]) Hle) as Hlm. rewrite take_0, app_nil_l, <-app_assoc in *. cbn [app] in *. eexists. split; [reflexivity|]. congruence. }
  destruct (Hfg junk hdr1 Hj H1) as (t1 & -> & L1). rewrite bind_Ret. destruct (Hfg _ hdr2 L1 H2) as (t2 & -> & L2). rewrite bind_Ret.
  rewrite (in_buf_str hdr2) by (split; [done|by exists t2]). rewrite bind_Ret, Hv.
  destruct (read_lines_devs devs _ [] Hd L2 ltac:(constructor)) as (l & -> & Hl & Hm). rewrite bind_Ret.
  change (as_map []) with (∅ : gmap string (Z * Z)) in Hm. fold (counters devs) in Hm.
  pose proof (descending_names l Hl) as Hnd. exists (rev l). split; [by apply StronglySorted_rev in Hl|].
  assert (list_to_map (key <$> rev l) = as_map l) as Hrev.
  { unfold as_map. symmetry. apply list_to_map_proper; [done|]. apply fmap_Permutation, Permutation_rev. }
  split; [by rewrite Hrev|]. rewrite usage_loop_fill by (done || (unfold SBP_MAX_NETWORK_INTERFACES; lia)).
  assert (size (counters devs) = length (rev l)) as ->.
  { rewrite <-Hm. unfold as_map. rewrite map_size_list_to_map by done. by rewrite length_fmap, length_rev. }
  rewrite Nat.add_0_l. generalize (rev l) as k. intros k. unfold SBP_MAX_NETWORK_INTERFACES. cbv zeta.
  destruct (Nat.leb_spec (length k) 10) as [Hk|Hk].
  - rewrite bind_Ret. destruct (Nat.eqb_spec (length k) 0) as [->|Hk0]; [done|]. destruct (Nat.ltb_spec 0 (length k)); [|lia].
    unfold SBP_FRAMING_MAX_PAYLOAD_SIZE.
    destruct (Nat.leb_spec (sizeof_network_usage sbp * length k) 255),
      (Nat.ltb_spec 255 (sizeof_network_usage sbp * length k)); try lia; [|done].
    rewrite take_0, app_nil_l. do 2 f_equal. apply take_app_length'. by rewrite length_fmap.
  - destruct (Nat.eqb_spec (length k) 0); [lia|done].
Qed.

(** ** The state of the interfaces *)

(** The same without the array: an address goes to the entry of its interface, or to a new one
    while there is room for it. *)
Definition fill (ifa : ifaddrs) (a : if_address) (s : network_state) : network_state :=
  match fill_address ifa a s with Ret s' => s' | _ => s end.
Fixpoint collect_into (ifa : ifaddrs) (a : if_address) (name : string) (room : nat) (l : list network_state) : list network_state :=
  match room, l with
  | O, _ => l
  | S _, [] => [fill ifa a (named name no_state)]
  | S room', s :: l' => if bool_decide (interface_name s = name) then fill ifa a s :: l' else s :: collect_into ifa a name room' l'
  end.
Definition collect (n : nat) (l : list network_state) (ifa : ifaddrs) : list network_state :=
  match ifa_addr ifa, ifa_name ifa with
  | Some a, Some name => if IF_NAMESIZE <=? String.length name then l else collect_into ifa a name n l
  | _, _ => l
  end.

(** Names that are not empty, addresses with their masks. *)
Definition ifa_ok (ifa : ifaddrs) : Prop :=
  ifa_name ifa <> Some EmptyString /\
  match ifa_addr ifa with Some (AF_INET _ None) | Some (AF_INET6 _ None) => False | _ => True end.

Lemma fill_address_ok ifa a s : ifa_ok ifa -> ifa_addr ifa = Some a -> fill_address ifa a s = Ret (fill ifa a s) /\ interface_name (fill ifa a s) = interface_name s.
Proof. unfold ifa_ok, fill. intros [_ H] E. rewrite E in H. by destruct a as [? [?|]|? [?|]|[[? ?]|]|]. Qed.

Definition all_named (l : list network_state) : Prop := Forall (fun s => interface_name s <> EmptyString) l.

Lemma find_slot_fill ifa a name n l i : ifa_ok ifa -> ifa_addr ifa = Some a -> name <> EmptyString -> all_named l -> length l <= n ->
  match find_slot name (l ++ replicate (n - length l) no_state) i with
  | None => collect_into ifa a name n l = l
  | Some (j, fresh) => i <= j /\ exists s, (l ++ replicate (n - length l) no_state) !! (j - i) = Some s /\
      <[j - i := fill ifa a (if (fresh : bool) then named name s else s)]> (l ++ replicate (n - length l) no_state) =
        collect_into ifa a name n l ++ replicate (n - length (collect_into ifa a name n l)) no_state /\
      length (collect_into ifa a name n l) = (if fresh then S (length l) else length l) /\
      all_named (collect_into ifa a name n l) /\ length (collect_into ifa a name n l) <= n
  end.
Proof.
  intros Hok Ha Hname. revert n i. induction l as [|s l IH]; intros n i Hl Hn; cbn [length app].
  - rewrite Nat.sub_0_r. destruct n as [|n]; [done|]. cbn [replicate find_slot collect_into length]. change (String.length (interface_name no_state) =? 0) with true. cbv match.
    split; [done|]. exists no_state. rewrite Nat.sub_diag. split; [done|]. cbn [insert list_insert app]. rewrite Nat.sub_1_r. split; [done|]. split; [done|].
    split; [|lia]. repeat constructor. by rewrite (proj2 (fill_address_ok ifa a _ Hok Ha)).
  - apply Forall_cons in Hl as [Hs Hl]. destruct n as [|n]; [simpl in Hn; lia|]. cbn [length] in Hn. change (S n - S (length l)) with (n - length l).
    cbn [find_slot collect_into]. assert (String.length (interface_name s) =? 0 = false) as -> by (by destruct (interface_name s)).
    case_bool_decide as Eq.
    + split; [done|]. exists s. rewrite Nat.sub_diag. split; [done|]. cbn [insert list_insert app length]. split; [done|]. split; [done|]. split; [|lia].
      constructor; [|done]. by rewrite (proj2 (fill_address_ok ifa a _ Hok Ha)).
    + specialize (IH n (S i) Hl ltac:(lia)). destruct (find_slot name _ (S i)) as [[j fresh]|]; [|by rewrite IH].
      destruct IH as (Hij & s' & Hlk & Hins & Hlen & Hall & Hle). split; [lia|]. exists s'. replace (j - i) with (S (j - S i)) by lia.
      split; [done|]. cbn [insert list_insert app length]. cbn [Nat.sub]. split; [|split; [destruct fresh; lia|split; [by constructor|lia]]].
      f_equal. exact Hins.
Qed.

(** The state of the interfaces.  However the addresses of the interfaces follow each other, the
    array ends up with one entry per interface, in the order in which they first appear and as far as
    there is room, each with the last addresses, masks and counters, and their number is returned. *)
Theorem network_state_collects l n : Forall ifa_ok l ->
  let entries := foldl (collect n) [] l in
  query_network_state (Some l) (replicate n no_state) = Ret (entries ++ replicate (n - length entries) no_state, length entries).
Proof.
  intros Hl. cbn [query_network_state].
  assert (forall acc, all_named acc -> length acc <= n -> map_network_interfaces l (acc ++ replicate (n - length acc) no_state, length acc) =
    Ret (foldl (collect n) acc l ++ replicate (n - length (foldl (collect n) acc l)) no_state, length (foldl (collect n) acc l))) as H.
  { induction Hl as [|ifa l Hifa _ IH]; intros acc Hacc Hn; cbn [map_network_interfaces foldl]; [done|].
    assert (fill_network_state_struct ifa (acc ++ replicate (n - length acc) no_state, length acc) =
      Ret (collect n acc ifa ++ replicate (n - length (collect n acc ifa)) no_state, length (collect n acc ifa)) /\
      all_named (collect n acc ifa) /\ length (collect n acc ifa) <= n) as (-> & H1 & H2); [|rewrite bind_Ret; by apply IH].
    unfold fill_network_state_struct, collect. destruct (ifa_addr ifa) as [a|] eqn:Ea; [|done]. destruct (ifa_name ifa) as [name|] eqn:En; [|done].
    destruct (IF_NAMESIZE <=? String.length name); [done|].
    assert (name <> EmptyString) as Hne by (intros ->; by destruct Hifa).
    pose proof (find_slot_fill ifa a name n acc 0 Hifa Ea Hne Hacc Hn) as Hf. destruct (find_slot name _ 0) as [[j fresh]|]; [|by rewrite Hf].
    destruct Hf as (_ & s & Hlk & Hins & Hlen & Hall & Hle). rewrite Nat.sub_0_r in *. unfold load. rewrite Hlk. cbn [of_option]. rewrite bind_Ret.
    rewrite (proj1 (fill_address_ok ifa a _ Hifa Ea)), bind_Ret. rewrite store_ok by (by eapply lookup_lt_Some). rewrite bind_Ret, Hins, <-Hlen. done. }
  specialize (H [] ltac:(constructor) ltac:(simpl; lia)). cbn [app length] in H. by rewrite Nat.sub_0_r in H.
Qed.

(** ** A device with two interfaces *)

Definition sample_header : text := text_of " face |bytes    packets errs drop fifo frame compressed multicast|bytes".
Definition sample_dev (name : string) (rx tx : Z) : dev_line := mk_dev name ([rx; 1; 0; 0; 0; 0; 0; 0; tx; 1; 0; 0; 0; 0; 0; 0]%Z).
Definition sample_devs : list dev_line := [sample_dev "lo" 500 500; sample_dev "eth0" 5000000000 4294967295].

Lemma sample_dev_ok name rx tx : name <> EmptyString -> String.length name < IF_NAMESIZE ->
  bool_decide (Forall (fun c => 32 < nat_of_ascii c /\ c <> ":"%char) (text_of name)) = true -> (0 <= rx <= ULLONG_MAX)%Z -> (0 <= tx <= ULLONG_MAX)%Z ->
  dev_ok (sample_dev name rx tx).
Proof.
  intros H1 H2 H3 H4 H5. split; [done|]. split; [done|]. split; [by apply bool_decide_eq_true in H3|]. split; [done|].
  repeat constructor; try lia; unfold ULLONG_MAX in *; lia.
Qed.

(** A layout of 40 bytes with 32-bit counters, for concrete runs. *)
Definition sample_layout : usage_layout := mk_layout 40 (fun x y => u32 (x + y)).

Lemma usage_report_witness :
  exists ifs, StronglySorted ascending ifs /\ list_to_map (key <$> ifs) = counters sample_devs /\
    send_network_usage_update sample_layout (mk_answers 1000 true (Some (proc_net_dev [] sample_header sample_devs)) (replicate 512 NUL)) =
      Ret (Some (usage_entry sample_layout 1000 <$> ifs)).
Proof.
  destruct (usage_report sample_layout 1000 [] sample_header sample_devs (replicate 512 NUL)) as (ifs & H1 & H2 & H3).
  - reflexivity.
  - vm_compute. lia.
  - vm_compute. lia.
  - apply (bool_decide_unpack _). vm_compute. exact I.
  - vm_compute. reflexivity.
  - constructor; [|constructor; [|constructor]]; apply sample_dev_ok; try discriminate; try (vm_compute; reflexivity); try (unfold IF_NAMESIZE; simpl; lia); unfold ULLONG_MAX; lia.
  - exists ifs. split; [exact H1|]. split; [exact H2|]. rewrite H3. assert (size (counters sample_devs) = 2) as Hs by (vm_compute; reflexivity). rewrite Hs. reflexivity.
Defined.

(** With 32-bit fields the sum of two counters is smaller than either of them. *)
Example usage_total_wraps : usage_entry sample_layout 0 (mk_interface "eth0" 5000000000 4294967295) = mk_usage 0 4294967294 4294967295 4294967295 "eth0".
Proof. reflexivity. Qed.

Definition sample_ifaddrs : list ifaddrs :=
  [mk_ifaddrs (Some "lo") (Some (AF_PACKET (Some (500, 500)%Z))) 73;
   mk_ifaddrs (Some "eth0") (Some (AF_PACKET (Some (1000, 2000)%Z))) 4163;
   mk_ifaddrs (Some "eth0") (Some (AF_INET [192; 168; 0; 222]%Z (Some [255; 255; 255; 0]%Z))) 4163].

Lemma network_state_collects_witness :
  query_network_state (Some sample_ifaddrs) (replicate 3 no_state) =
    Ret ([mk_state (replicate 4 0%Z) 0 (replicate 16 0%Z) 0 500 500 "lo" 0; mk_state [192; 168; 0; 222]%Z 24 (replicate 16 0%Z) 0 1000 2000 "eth0" 4163; no_state], 2).
Proof. apply (network_state_collects sample_ifaddrs 3). repeat constructor; discriminate. Defined.

(** ** The options of the network daemon *)

Inductive opt_id := OPT_ID_INTERFACE.
#[export] Instance opt_id_eq_dec : EqDecision opt_id.
Proof. solve_decision. Defined.
Definition long_opts : list (long_option opt_id) := [mk_option "interface" required_argument OPT_ID_INTERFACE].
Fixpoint options_loop (rs : list (opt_result opt_id)) (interface : option string) : option (option string) :=
  match rs with
  | [] => Some interface
  | Opt OPT_ID_INTERFACE (Some s) :: rs' => options_loop rs' (Some s)
  | _ => None
  end.
Definition parse_options (argv : list string) : option (option string) := options_loop (getopt_long long_opts [] argv) None.
