(* ===== verification/SystemDaemon.v ===== *)
(** * The system daemon

    [piksi_system_daemon/src/main.c]: the settings of the Ethernet interface, of the time source and
    of the check for connectivity, the commands and the reset that arrive as messages, and the
    information about the system.  What [system] returns, which files can be opened and what they
    hold are inputs; the text of a floating-point number is a parameter. *)

From Stdlib Require Import Ascii.
From S2P Require Import Prelude Libc Text Getopt Runit Version Interfaces.

(** ** [inet_addr] of the C library

    Up to four numbers, decimal, octal or hexadecimal, with dots between them; the last one takes
    all bytes that are left.  What follows a white space is ignored. *)

Definition octal_digits (s : string) : option (Z * string) :=
  (fix go (s : string) (acc : Z) {struct s} :=
     match s with
     | String.String c s' =>
         match dec_digit c with
         | Some d => if (d <? 8)%Z then go s' (8 * acc + d)%Z else None
         | None => Some (acc, s)
         end
     | EmptyString => Some (acc, s)
     end) s 0%Z.
Definition inet_number (s : string) : option (Z * string) :=
  match s with
  | String.String "0" (String.String c s') =>
      if Ascii.eqb c "x" || Ascii.eqb c "X" then
        let '(seen, v, rest) := hex_digits s' false 0 in if (seen : bool) then Some (v, rest) else None
      else octal_digits s
  | String.String c _ => if isdigit c then Some (dec_digits s 0) else None
  | EmptyString => None
  end.
(** [n]: the bytes that are left; the value so far. *)
Fixpoint inet_parts (n : nat) (s : string) (acc : Z) : option Z :=
  match inet_number s with
  | None => None
  | Some (v, rest) =>
      let last := if (v <? 256 ^ Z.of_nat n)%Z then Some (acc * 256 ^ Z.of_nat n + v)%Z else None in
      match rest with
      | EmptyString => last
      | String.String c rest' =>
          if isspace c then last
          else if Ascii.eqb c "." then
            match n with
            | S (S _ as n') => if (v <? 256)%Z then inet_parts n' rest' (acc * 256 + v)%Z else None
            | _ => None
            end
          else None
      end
  end.
Definition INADDR_NONE : Z := 4294967295.
Definition inet_addr (s : string) : Z := default INADDR_NONE (inet_parts 4 s 0).

(** ** The Ethernet interface *)

Inductive ip_cfg := IP_CFG_STATIC | IP_CFG_DHCP.
Inductive interface_mode_t := INTERFACE_MODE_ACTIVE | INTERFACE_MODE_CONFIG.

Record eth := mk_eth {
  eth_ip_mode : ip_cfg; interface_mode : interface_mode_t; eth_settings_initialized : bool;
  eth_ip_addr : string; eth_netmask : string; eth_gateway : string }.

Definition eth_command (e : eth) : string :=
  match eth_ip_mode e with
  | IP_CFG_DHCP => "sudo /etc/init.d/update_eth0_config dhcp"
  | IP_CFG_STATIC => "sudo /etc/init.d/update_eth0_config static " +:+ eth_ip_addr e +:+ " " +:+ eth_netmask e +:+ " " +:+ eth_gateway e
  end.

Inductive write_res := SETTINGS_WR_OK | SETTINGS_WR_VALUE_REJECTED | SETTINGS_WR_MODIFY_DISABLED | SETTINGS_WR_SERVICE_FAILED.

(** The state with the calls of [system], by the functions that make them, and the files of the
    check for connectivity. *)
Record sysd (D : Type) := mk_sysd {
  s_eth : eth; system_time_src : Z;
  polling_frequency : D; polling_retry_frequency : D; polling_addresses : string; log_ping_activity : bool;
  eth_calls : list string; ntp_calls : list string; files : gmap string string }.
Arguments mk_sysd {D}.
Arguments s_eth {D}.
Arguments system_time_src {D}.
Arguments polling_frequency {D}.
Arguments polling_retry_frequency {D}.
Arguments polling_addresses {D}.
Arguments log_ping_activity {D}.
Arguments eth_calls {D}.
Arguments ntp_calls {D}.
Arguments files {D}.

(** The string formatted fits, or the daemon is aborted. *)
Definition eth_update_config (e : eth) (calls : list string) : outcome (list string) :=
  c ← match eth_ip_mode e with IP_CFG_DHCP => Ret (eth_command e) | IP_CFG_STATIC => snprintf_assert 1024 (eth_command e) end;
  Ret (calls ++ [c]).

Definition active (e : eth) : bool := match interface_mode e with INTERFACE_MODE_ACTIVE => true | INTERFACE_MODE_CONFIG => false end.
Definition eth_attempt_write (e : eth) : write_res :=
  if eth_settings_initialized e && active e then SETTINGS_WR_MODIFY_DISABLED else SETTINGS_WR_OK.
Definition interface_mode_notify (e : eth) (calls : list string) : outcome (list string) :=
  if eth_settings_initialized e && active e then eth_update_config e calls else Ret calls.
Definition eth_ip_config_notify (ip : string) (e : eth) : write_res :=
  if (inet_addr ip =? INADDR_NONE)%Z then SETTINGS_WR_VALUE_REJECTED else eth_attempt_write e.

(** ** The time source *)

Definition ntp_conf (src : Z) : option string :=
  match src with
  | 0%Z => Some "/etc/ntp.conf.gpsntp"
  | 1%Z => Some "/etc/ntp.conf.gps"
  | 2%Z => Some "/etc/ntp.conf.ntp"
  | _ => None
  end.
(** [oldsrc] is 0 and never written; [rc]: what [system] returns. *)
Definition system_time_src_notify (rc : Z) (src : Z) (calls : list string) : list string * write_res :=
  if (src =? 0)%Z then (calls, SETTINGS_WR_OK)
  else match ntp_conf src with
       | None => (calls, SETTINGS_WR_VALUE_REJECTED)
       | Some conf =>
           (calls ++ ["sudo /etc/init.d/update_ntp_config " +:+ conf], if negb (rc =? 0)%Z then SETTINGS_WR_SERVICE_FAILED else SETTINGS_WR_OK)
       end.

(** ** The check for connectivity *)

Definition NETWORK_POLLING_PERIOD_FILE : string := "/var/run/piksi_sys/network_polling_period".
Definition NETWORK_POLLING_RETRY_PERIOD_FILE : string := "/var/run/piksi_sys/network_polling_retry_period".
Definition NETWORK_POLLING_ADDRESSES_FILE : string := "/var/run/piksi_sys/network_polling_addresses".
Definition ENABLE_PING_LOGGING_FILE : string := "/var/run/piksi_sys/enable_ping_logging".

Section daemon.
Context {D : Type}.
(** Whether a frequency is positive, and its inverse with two digits. *)
Variable positive : D -> bool.
Variable period : D -> string.

Definition format_period (f : D) : string := if positive f then period f else EmptyString.

(** Which files can be opened. *)
Fixpoint write_files (opens : nat -> bool) (l : list (string * string)) (x : nat) (m : gmap string string) : gmap string string :=
  match l with
  | [] => m
  | (name, value) :: l' => write_files opens l' (S x) (if opens x then <[name := value]> m else m)
  end.
Definition polling_files (d : sysd D) : list (string * string) :=
  [(NETWORK_POLLING_PERIOD_FILE, format_period (polling_frequency d));
   (NETWORK_POLLING_RETRY_PERIOD_FILE, format_period (polling_retry_frequency d));
   (ENABLE_PING_LOGGING_FILE, if log_ping_activity d then "y" else EmptyString);
   (NETWORK_POLLING_ADDRESSES_FILE, polling_addresses d)].
Definition network_polling_notify (opens : nat -> bool) (d : sysd D) : gmap string string * write_res :=
  if forallb (fun s => String.length s <? 32) [format_period (polling_frequency d); format_period (polling_retry_frequency d)]
  then (write_files opens (polling_files d) 0 (files d), SETTINGS_WR_OK)
  else (files d, SETTINGS_WR_VALUE_REJECTED).

(** ** The settings together *)

Inductive change :=
  | Set_interface_mode (m : interface_mode_t) | Set_ip_mode (m : ip_cfg) | Set_ip_addr (s : string) | Set_netmask (s : string) | Set_gateway (s : string)
  | Set_time (src : Z) | Set_frequency (f : D) | Set_retry_frequency (f : D) | Set_addresses (s : string) | Set_log_ping (b : bool).

Definition set_eth (d : sysd D) (e : eth) : sysd D :=
  mk_sysd e (system_time_src d) (polling_frequency d) (polling_retry_frequency d) (polling_addresses d) (log_ping_activity d) (eth_calls d) (ntp_calls d) (files d).
Definition set_calls (d : sysd D) (eth_calls ntp_calls : list string) : sysd D :=
  mk_sysd (s_eth d) (system_time_src d) (polling_frequency d) (polling_retry_frequency d) (polling_addresses d) (log_ping_activity d) eth_calls ntp_calls (files d).
Definition set_polling (d : sysd D) (f r : D) (a : string) (l : bool) : sysd D :=
  mk_sysd (s_eth d) (system_time_src d) f r a l (eth_calls d) (ntp_calls d) (files d).
Definition set_files (d : sysd D) (m : gmap string string) : sysd D :=
  mk_sysd (s_eth d) (system_time_src d) (polling_frequency d) (polling_retry_frequency d) (polling_addresses d) (log_ping_activity d) (eth_calls d) (ntp_calls d) m.

Definition apply_change (x : change) (d : sysd D) : sysd D :=
  let e := s_eth d in
  match x with
  | Set_interface_mode m => set_eth d (mk_eth (eth_ip_mode e) m (eth_settings_initialized e) (eth_ip_addr e) (eth_netmask e) (eth_gateway e))
  | Set_ip_mode m => set_eth d (mk_eth m (interface_mode e) (eth_settings_initialized e) (eth_ip_addr e) (eth_netmask e) (eth_gateway e))
  | Set_ip_addr s => set_eth d (mk_eth (eth_ip_mode e) (interface_mode e) (eth_settings_initialized e) s (eth_netmask e) (eth_gateway e))
  | Set_netmask s => set_eth d (mk_eth (eth_ip_mode e) (interface_mode e) (eth_settings_initialized e) (eth_ip_addr e) s (eth_gateway e))
  | Set_gateway s => set_eth d (mk_eth (eth_ip_mode e) (interface_mode e) (eth_settings_initialized e) (eth_ip_addr e) (eth_netmask e) s)
  | Set_time src => mk_sysd e src (polling_frequency d) (polling_retry_frequency d) (polling_addresses d) (log_ping_activity d) (eth_calls d) (ntp_calls d) (files d)
  | Set_frequency f => set_polling d f (polling_retry_frequency d) (polling_addresses d) (log_ping_activity d)
  | Set_retry_frequency f => set_polling d (polling_frequency d) f (polling_addresses d) (log_ping_activity d)
  | Set_addresses s => set_polling d (polling_frequency d) (polling_retry_frequency d) s (log_ping_activity d)
  | Set_log_ping b => set_polling d (polling_frequency d) (polling_retry_frequency d) (polling_addresses d) b
  end.

(** What a notify function meets: the result of [system] and the files. *)
Record answers := mk_notify { n_system : Z; n_opens : nat -> bool }.
Definition notify (a : answers) (x : change) (d : sysd D) : outcome (sysd D * write_res) :=
  match x with
  | Set_interface_mode _ => calls ← interface_mode_notify (s_eth d) (eth_calls d); Ret (set_calls d calls (ntp_calls d), SETTINGS_WR_OK)
  | Set_ip_mode _ => Ret (d, eth_attempt_write (s_eth d))
  | Set_ip_addr s | Set_netmask s | Set_gateway s => Ret (d, eth_ip_config_notify s (s_eth d))
  | Set_time src => let '(calls, res) := system_time_src_notify (n_system a) src (ntp_calls d) in Ret (set_calls d (eth_calls d) calls, res)
  | _ => let '(m, res) := network_polling_notify (n_opens a) d in Ret (set_files d m, res)
  end.

(** A value that is refused is taken back by libsettings: [restore] puts the settings of the first
    state into the second. *)
Variable restore : sysd D -> sysd D -> sysd D.

Definition write_setting (x : change) (a : answers) (d : sysd D) : outcome (sysd D) :=
  '(d', res) ← notify a x (apply_change x d);
  Ret (match res with SETTINGS_WR_OK => d' | _ => restore d d' end).
Fixpoint run (l : list (change * answers)) (d : sysd D) : outcome (sysd D) :=
  match l with [] => Ret d | (x, a) :: l' => d ← write_setting x a d; run l' d end.

Definition initial_eth : eth := mk_eth IP_CFG_STATIC INTERFACE_MODE_ACTIVE false "192.168.0.222" "255.255.255.0" "192.168.0.1".
(** [main]: the stored settings of the interface are read while they are registered; then the
    interface is configured.  The other settings are registered, and read, after it. *)
Definition start (stored : list (change * answers)) (d : sysd D) : outcome (sysd D) :=
  d ← run stored (set_eth d initial_eth);
  let e := s_eth d in
  let e := mk_eth (eth_ip_mode e) INTERFACE_MODE_ACTIVE true (eth_ip_addr e) (eth_netmask e) (eth_gateway e) in
  calls ← eth_update_config e (eth_calls d);
  Ret (set_calls (set_eth d e) calls (ntp_calls d)).
Definition life (stored l : list (change * answers)) (d : sysd D) : outcome (sysd D) := d ← start stored d; run l d.
End daemon.

(** ** What the interface is configured to *)

Definition eth_ok (e : eth) : Prop :=
  Forall (fun s => inet_addr s <> INADDR_NONE /\ String.length s < 16) [eth_ip_addr e; eth_netmask e; eth_gateway e].

Section library.
Context {D : Type} (positive : D -> bool) (period : D -> string).
Variable restore : sysd D -> sysd D -> sysd D.
Hypothesis restore_settings : forall old new, restore old new =
  mk_sysd (s_eth old) (system_time_src old) (polling_frequency old) (polling_retry_frequency old) (polling_addresses old) (log_ping_activity old)
    (eth_calls new) (ntp_calls new) (files new).

(** The strings that the settings can hold. *)
Definition change_ok (x : @change D) : Prop :=
  match x with Set_ip_addr s | Set_netmask s | Set_gateway s => String.length s < 16 | _ => True end.

Lemma eth_update_config_ok e calls : eth_ok e -> eth_update_config e calls = Ret (calls ++ [eth_command e]).
Proof.
  intros He. unfold eth_update_config. destruct (eth_ip_mode e) eqn:Em; [|done].
  apply Forall_cons in He as [[_ H1] He]. apply Forall_cons in He as [[_ H2] He]. apply Forall_cons in He as [[_ H3] _].
  rewrite snprintf_assert_ok; [done|]. unfold eth_command. rewrite Em, !string_length_app. simpl String.length. lia.
Qed.

(** An initialised interface that is active has been configured with its settings. *)
Definition configured (d : sysd D) : Prop :=
  eth_ok (s_eth d) /\
  (eth_settings_initialized (s_eth d) = true -> active (s_eth d) = true -> last (eth_calls d) = Some (eth_command (s_eth d))).

(** What holds between the settings before and after a write. *)
Definition keeps (d d' : sysd D) : Prop :=
  configured d' /\ eth_settings_initialized (s_eth d') = eth_settings_initialized (s_eth d) /\
  (eth_settings_initialized (s_eth d) = false -> eth_calls d' = eth_calls d).

Lemma keeps_same d d' : configured d -> s_eth d' = s_eth d -> eth_calls d' = eth_calls d -> keeps d d'.
Proof. intros Hd E1 E2. unfold keeps, configured. by rewrite E1, E2. Qed.

(** A setting of the interface is only changed while it is not in use. *)
Lemma eth_written d e res : configured d -> eth_settings_initialized e = eth_settings_initialized (s_eth d) ->
  (res = SETTINGS_WR_OK -> eth_ok e /\ eth_attempt_write e = SETTINGS_WR_OK) ->
  keeps d (match res with SETTINGS_WR_OK => set_eth d e | _ => restore d (set_eth d e) end).
Proof.
  intros Hd Ei Hr. destruct res; [|apply keeps_same; try done; by rewrite restore_settings..].
  destruct (Hr eq_refl) as [He Ha]. split; [|done]. split; [done|]. cbn [set_eth s_eth]. intros H1 H2. unfold eth_attempt_write in Ha. by rewrite H1, H2 in Ha.
Qed.

Lemma eth_ip_config_notify_ok s e : eth_ip_config_notify s e = SETTINGS_WR_OK -> inet_addr s <> INADDR_NONE /\ eth_attempt_write e = SETTINGS_WR_OK.
Proof. unfold eth_ip_config_notify. by destruct (Z.eqb_spec (inet_addr s) INADDR_NONE). Qed.

Lemma write_setting_configured x a d : change_ok x -> configured d ->
  exists d', write_setting positive period restore x a d = Ret d' /\ keeps d d'.
Proof.
  intros Hx Hd. pose proof Hd as [He Hl]. unfold write_setting.
  destruct x as [m|m|s|s|s|src|f|f|s|b]; cbn [notify apply_change].
  - unfold interface_mode_notify. cbn [set_eth s_eth eth_calls eth_settings_initialized interface_mode].
    set (e := mk_eth (eth_ip_mode (s_eth d)) m _ _ _ _). assert (eth_ok e) as He' by exact He.
    destruct (eth_settings_initialized (s_eth d) && active e) eqn:E.
    + rewrite eth_update_config_ok, bind_Ret, bind_Ret by done. eexists. split; [reflexivity|]. apply andb_true_iff in E as [Ei _].
      split; [split; [done|]; intros _ _; cbn [set_calls eth_calls s_eth set_eth]; by rewrite last_snoc|]. split; [done|]. rewrite Ei. done.
    + rewrite !bind_Ret. eexists. split; [reflexivity|]. split; [|done]. split; [done|]. cbn [set_calls s_eth set_eth]. intros Hi Ha.
      change (eth_settings_initialized e) with (eth_settings_initialized (s_eth d)) in Hi. by rewrite Hi, Ha in E.
  - rewrite bind_Ret. eexists. split; [reflexivity|]. apply (eth_written d); [done|done|]. intros Hw. by split.
  - rewrite bind_Ret. eexists. split; [reflexivity|]. apply (eth_written d); [done|done|]. intros [Hn Hw]%eth_ip_config_notify_ok. split; [|done].
    apply Forall_cons in He as [_ He]. by constructor.
  - rewrite bind_Ret. eexists. split; [reflexivity|]. apply (eth_written d); [done|done|]. intros [Hn Hw]%eth_ip_config_notify_ok. split; [|done].
    apply Forall_cons in He as [H1 He]. apply Forall_cons in He as [_ He]. constructor; [done|]. by constructor.
  - rewrite bind_Ret. eexists. split; [reflexivity|]. apply (eth_written d); [done|done|]. intros [Hn Hw]%eth_ip_config_notify_ok. split; [|done].
    apply Forall_cons in He as [H1 He]. apply Forall_cons in He as [H2 _]. constructor; [done|]. constructor; [done|]. by constructor.
  - destruct (system_time_src_notify _ _ _) as [calls res]. rewrite bind_Ret. eexists. split; [reflexivity|]. apply keeps_same; [done|..]; destruct res; by rewrite ?restore_settings.
  - destruct (network_polling_notify _ _ _ _) as [m res]. rewrite bind_Ret. eexists. split; [reflexivity|]. apply keeps_same; [done|..]; destruct res; by rewrite ?restore_settings.
  - destruct (network_polling_notify _ _ _ _) as [m res]. rewrite bind_Ret. eexists. split; [reflexivity|]. apply keeps_same; [done|..]; destruct res; by rewrite ?restore_settings.
  - destruct (network_polling_notify _ _ _ _) as [m res]. rewrite bind_Ret. eexists. split; [reflexivity|]. apply keeps_same; [done|..]; destruct res; by rewrite ?restore_settings.
  - destruct (network_polling_notify _ _ _ _) as [m res]. rewrite bind_Ret. eexists. split; [reflexivity|]. apply keeps_same; [done|..]; destruct res; by rewrite ?restore_settings.
Qed.

Lemma run_configured l d : Forall (fun x => change_ok x.1) l -> configured d -> exists d', run positive period restore l d = Ret d' /\ keeps d d'.
Proof.
  intros Hl. revert d. induction Hl as [|[x a] l Hx _ IH]; intros d Hd; cbn [run]; [exists d; split; [done|]; by apply keeps_same|].
  destruct (write_setting_configured x a d Hx Hd) as (d1 & -> & H1 & H2 & H3). rewrite bind_Ret. destruct (IH d1 H1) as (d2 & -> & H4 & H5 & H6).
  exists d2. split; [done|]. split; [done|]. split; [congruence|]. intros E. rewrite H6 by congruence. by apply H3.
Qed.

(** C21: The Ethernet interface is configured as it is set.  The daemon starts with the stored
    settings, and whatever is written to them after that: whenever the interface mode is Active, the
    last configuration that the system was given is the one of the settings, and its addresses are
    ones that [inet_addr] accepts. *)
Theorem ethernet_as_set stored l d : Forall (fun x => change_ok x.1) stored -> Forall (fun x => change_ok x.1) l ->
  exists d', life positive period restore stored l d = Ret d' /\ eth_ok (s_eth d') /\
    (active (s_eth d') = true -> last (eth_calls d') = Some (eth_command (s_eth d'))).
Proof.
  intros Hst Hl. unfold life, start.
  destruct (run_configured stored (set_eth d initial_eth) Hst) as (d1 & -> & [He1 _] & Hi1 & _).
  { split; [|done]. repeat constructor; try discriminate; simpl; lia. }
  rewrite bind_Ret. cbv zeta. set (e := mk_eth (eth_ip_mode (s_eth d1)) INTERFACE_MODE_ACTIVE true _ _ _).
  assert (eth_ok e) as He by exact He1. rewrite eth_update_config_ok, bind_Ret by done. cbn [mbind outcome_bind].
  destruct (run_configured l (set_calls (set_eth d1 e) (eth_calls d1 ++ [eth_command e]) (ntp_calls d1)) Hl) as (d2 & -> & [He2 Hc2] & Hi2 & _).
  { split; [done|]. intros _ _. cbn [set_calls eth_calls s_eth set_eth]. by rewrite last_snoc. }
  exists d2. split; [done|]. split; [done|]. apply Hc2. by rewrite Hi2.
Qed.

Lemma Ret_inj {A} (x y : A) : Ret x = Ret y -> x = y.
Proof. by intros [= ->]. Qed.

(** The check for connectivity has its files as they are set after every write that is accepted,
    if they can be opened. *)
Theorem polling_as_set x a d d' : write_setting positive period restore x a d = Ret d' ->
  match x with Set_frequency _ | Set_retry_frequency _ | Set_addresses _ | Set_log_ping _ => True | _ => False end ->
  (forall k, n_opens a k = true) -> (forall f, String.length (period f) < 32) ->
  Forall (fun f => files d' !! f.1 = Some f.2) (polling_files positive period d').
Proof.
  intros Hw Hx Ho Hp. assert (forall f, String.length (format_period positive period f) <? 32 = true) as Hf.
  { intros f. apply Nat.ltb_lt. unfold format_period. destruct (positive f); [apply Hp|simpl; lia]. }
  assert (forall d1, network_polling_notify positive period (n_opens a) d1 = (write_files (n_opens a) (polling_files positive period d1) 0 (files d1), SETTINGS_WR_OK)) as Hn.
  { intros d1. unfold network_polling_notify. cbn [forallb]. by rewrite !Hf. }
  assert (exists d1, d' = set_files d1 (write_files (n_opens a) (polling_files positive period d1) 0 (files d1))) as [d1 ->].
  { unfold write_setting in Hw. exists (apply_change x d). destruct x; try done; cbn [notify] in Hw; rewrite Hn in Hw; symmetry; exact (Ret_inj _ _ Hw). }
  generalize (files d1) as m. intros m. unfold polling_files. cbn [write_files]. rewrite !Ho. cbn [set_files files polling_frequency polling_retry_frequency log_ping_activity polling_addresses].
  repeat constructor; cbn [fst snd]; repeat (rewrite lookup_insert_ne by (vm_compute; discriminate)); by rewrite lookup_insert_eq.
Qed.
End library.

(** ** Commands *)

Definition RUNIT_SERVICE_DIR : string := "/var/run/piksi_system_daemon/sv".
Definition dquote : string := String.String (ascii_of_nat 34) EmptyString.
Definition upgrade_cmd : string :=
  "sh -c 'set -o pipefail;                                      " +:+
  "       sudo -u fileio sbp_fileio_flush --name external;      " +:+
  "       sudo upgrade_tool --debug /data/upgrade.image_set.bin " +:+
  "         | sbp_log --info'                                   ".
Definition finish_cmd (sequence : Z) : string :=
  "sh -c " +:+ dquote +:+ "for i in 1 2; do sbp_cmd_resp --sequence " +:+ print_u sequence +:+ " --status $1; sleep 1; done;" +:+ dquote.
Definition upgrade_cfg (sequence : Z) : runit_config_t :=
  mk_cfg RUNIT_SERVICE_DIR "upgrade_tool" upgrade_cmd None (Some (finish_cmd sequence)) false.

Definition sequence_of (msg : text) : Z :=
  foldr (fun c v => Z.of_nat (nat_of_ascii c) + 256 * v)%Z 0%Z (take 4 msg).

(** What a command does: a call of [system], a response with a code, or the start of the upgrade. *)
Inductive reaction := R_system (cmd : string) | R_respond (sequence code : Z) | R_upgrade (cfg : runit_config_t).

(** [msg]: the buffer of the message, which the code terminates at its length. *)
Definition sbp_command (len : nat) (msg : text) : outcome reaction :=
  msg ← store msg len NUL;
  command ← buf_str (drop 4 msg);
  let sequence := sequence_of msg in
  let same s := bool_decide (command = text_of s) in
  if same "ntrip_daemon --reconnect" then Ret (R_system "ntrip_daemon --reconnect")
  else if negb (same "upgrade_tool upgrade.image_set.bin") && negb (same "spawn_nc") && negb (same "stream_logs") && negb (same "dump_syslog")
  then Ret (R_respond sequence 4294967295)
  else if same "spawn_nc" then
    c ← snprintf_assert 1024 ("sudo -u fileio /usr/bin/spawn_nc; sbp_cmd_resp --sequence " +:+ print_u sequence +:+ " --status $?"); Ret (R_system c)
  else if same "stream_logs" then
    c ← snprintf_assert 1024 ("stream_logs; sbp_cmd_resp --sequence " +:+ print_u sequence +:+ " --status $?"); Ret (R_system c)
  else if same "dump_syslog" then
    c ← snprintf_assert 1024 ("dump_syslog; sbp_cmd_resp --sequence " +:+ print_u sequence +:+ " --status $?"); Ret (R_system c)
  else
    _ ← snprintf_assert 1024 (finish_cmd sequence); Ret (R_upgrade (upgrade_cfg sequence)).

Definition reset_callback (len : nat) (flags : Z) : string :=
  "sudo /etc/init.d/do_sbp_msg_reset " +:+ (if (len =? 4) && Z.testbit flags 0 then "clear_settings" else EmptyString).

(** The messages with the state of the interfaces, one each. *)
Definition sbp_network_req (l : option (list ifaddrs)) : outcome (list network_state) :=
  '(interfaces, total) ← query_network_state l (replicate SBP_MAX_NETWORK_INTERFACES no_state);
  Ret (take total interfaces).

(** The commands that are known, and what each does. *)
Definition canned : list (string * (Z -> reaction)) :=
  [("ntrip_daemon --reconnect", fun _ => R_system "ntrip_daemon --reconnect");
   ("spawn_nc", fun s => R_system ("sudo -u fileio /usr/bin/spawn_nc; sbp_cmd_resp --sequence " +:+ print_u s +:+ " --status $?"));
   ("stream_logs", fun s => R_system ("stream_logs; sbp_cmd_resp --sequence " +:+ print_u s +:+ " --status $?"));
   ("dump_syslog", fun s => R_system ("dump_syslog; sbp_cmd_resp --sequence " +:+ print_u s +:+ " --status $?"));
   ("upgrade_tool upgrade.image_set.bin", fun s => R_upgrade (upgrade_cfg s))].
Definition reaction_to (cmd : text) (sequence : Z) : reaction :=
  match list_find (fun e => text_of e.1 = cmd) canned with Some (_, e) => e.2 sequence | None => R_respond sequence 4294967295 end.

(** Every message of a length of at least 4 is answered according to the table: nothing but the
    canned commands is run, and of the message only the sequence number gets into a command. *)
Theorem commands_canned len msg : 4 <= len < length msg ->
  let m := <[len := NUL]> msg in sbp_command len msg = Ret (reaction_to (c_str (drop 4 m)) (sequence_of m)).
Proof.
  intros Hl m. unfold sbp_command. rewrite store_ok, bind_Ret by lia. fold m. unfold buf_str. rewrite bool_decide_eq_true_2.
  2: { apply list_elem_of_lookup. exists (len - 4). rewrite lookup_drop. replace (4 + (len - 4)) with len by lia. apply list_lookup_insert_eq. lia. }
  rewrite bind_Ret. generalize (c_str (drop 4 m)) as cmd. generalize (sequence_of m) as s. intros s cmd. cbv zeta. unfold reaction_to, canned.
  assert (forall a b, String.length a < 300 -> String.length b < 300 -> snprintf_assert 1024 (a +:+ print_u s +:+ b) = Ret (a +:+ print_u s +:+ b)) as Hfit.
  { intros a b Ha Hb. apply snprintf_assert_ok. rewrite !string_length_app. pose proof (print_u_length s). lia. }
  assert (snprintf_assert 1024 (finish_cmd s) = Ret (finish_cmd s)) as Hfin.
  { apply snprintf_assert_ok. unfold finish_cmd. rewrite !string_length_app. pose proof (print_u_length s). simpl String.length. lia. }
  cbn [list_find]. rewrite !(Hfit _ " --status $?") by (simpl; lia). rewrite Hfin.
  destruct (decide (cmd = text_of "ntrip_daemon --reconnect")) as [->|N1]; [reflexivity|].
  destruct (decide (cmd = text_of "spawn_nc")) as [->|N2]; [reflexivity|].
  destruct (decide (cmd = text_of "stream_logs")) as [->|N3]; [reflexivity|].
  destruct (decide (cmd = text_of "dump_syslog")) as [->|N4]; [reflexivity|].
  destruct (decide (cmd = text_of "upgrade_tool upgrade.image_set.bin")) as [->|N5]; [reflexivity|].
  rewrite !bool_decide_eq_false_2 by done. cbn [fst]. by rewrite !decide_False by congruence.
Qed.

(** ** Information about the system *)

Definition STR_BUFFER_SIZE : nat := 64.
Definition DATE_STR_BUFFER_SIZE : nat := 128.
Definition DEFAULT_HW_VERSION : string := "0.0".

(** The version of a build is everything before the hash. *)
Fixpoint before_hash (t : text) : text :=
  match t with
  | [] => []
  | c :: t' => if starts_with (text_of "-g") t then [] else c :: before_hash t'
  end.

Section info.
(** The files, and the date of a time stamp as [strftime] writes it. *)
Variable read : string -> option text.
Variable date_string_get : text -> option text.

Definition file_string (path : string) : option text :=
  let '(r, buf) := file_read_string (read path) STR_BUFFER_SIZE in if (r =? 0)%Z then Some (c_str buf) else None.

(** The settings that are registered, in order. *)
Definition img_tbl_settings_setup : list (string * text) :=
  let name := file_string "/img_tbl/boot/name" in
  let uimage := default (text_of "unknown_uimage_version") (file_string "/uimage_ver/name") in
  let is_dev := match name with Some n => starts_with (text_of "DEV") n | None => false end in
  let date setting path := match file_string path ≫= date_string_get with Some d => [(setting, d)] | None => [] end in
  match name with
  | Some n =>
      let firmware_build_id := if is_dev then uimage else n in
      [("imageset_build_id", n); ("firmware_build_id", firmware_build_id); ("firmware_version", before_hash firmware_build_id)]
  | None => []
  end ++
  date "firmware_build_date" (if is_dev then "/uimage_ver/timestamp" else "/img_tbl/boot/timestamp") ++
  match file_string "/img_tbl/loader/name" with Some n => [("loader_build_id", n)] | None => [] end ++
  date "loader_build_date" "/img_tbl/loader/timestamp".
End info.

(** [hw_version_string_get] and the others; [None] when they fail. *)
Definition hardware_info_settings_setup (read : string -> option text) (hw_version hw_revision hw_variant product_id : option text) : list (string * text) :=
  let given name v := match v with Some v => [(name, v)] | None => [] end in
  [("hw_version", default (text_of DEFAULT_HW_VERSION) hw_version)] ++
  given "hw_revision" hw_revision ++ given "hw_variant" hw_variant ++ given "product_id" product_id ++
  given "build_variant" (file_string read "/etc/build_variant").

(** The version that is shown has no hash, and is all of the build identifier when that has none. *)
Lemma before_hash_spec t : exists rest, t = before_hash t ++ rest /\ (rest = [] \/ starts_with (text_of "-g") rest = true) /\
  (forall p q, before_hash t = p ++ q -> q <> [] -> starts_with (text_of "-g") (q ++ rest) = false).
Proof.
  induction t as [|c t (rest & IH1 & IH2 & IH3)]; cbn [before_hash].
  - exists []. split; [done|]. split; [by left|]. intros p q E Hq. symmetry in E. by apply app_nil in E as [_ ?].
  - destruct (starts_with (text_of "-g") (c :: t)) eqn:E.
    + exists (c :: t). split; [done|]. split; [by right|]. intros p q E' Hq. symmetry in E'. by apply app_nil in E' as [_ ?].
    + exists rest. split; [cbn [app]; by f_equal|]. split; [done|]. intros [|x p] q E' Hq.
      * cbn [app] in E'. rewrite <-E'. cbn [app]. by rewrite <-IH1.
      * cbn [app] in E'. injection E' as _ E'. by apply (IH3 p q).
Qed.

(** The firmware that a device reports: for a development image that of the kernel image, else
    that of the image set, and as version the part of it before the hash. *)
Theorem firmware_reported read date name uimage : file_string read "/img_tbl/boot/name" = Some name ->
  file_string read "/uimage_ver/name" = Some uimage ->
  let build := if starts_with (text_of "DEV") name then uimage else name in
  exists rest, take 3 (img_tbl_settings_setup read date) =
    [("imageset_build_id", name); ("firmware_build_id", build); ("firmware_version", before_hash build)] /\
    build = before_hash build ++ rest /\ (rest = [] \/ starts_with (text_of "-g") rest = true).
Proof.
  intros Hn Hu build. destruct (before_hash_spec build) as (rest & H1 & H2 & _). exists rest. split; [|done].
  unfold img_tbl_settings_setup. rewrite Hn, Hu. done.
Qed.

(** ** Concrete runs *)

Definition no_restore {D} (old new : sysd D) : sysd D :=
  mk_sysd (s_eth old) (system_time_src old) (polling_frequency old) (polling_retry_frequency old) (polling_addresses old) (log_ping_activity old)
    (eth_calls new) (ntp_calls new) (files new).
Definition zero : sysd Z := mk_sysd initial_eth 0 1%Z 1%Z "8.8.8.8" false [] [] ∅.
Definition quiet : answers := mk_notify 0 (fun _ => true).
Definition sample_period (f : Z) : string := "10.00".

Lemma ethernet_as_set_witness :
  exists d, life (fun f => 0 <? f)%Z sample_period no_restore [(Set_ip_addr "10.0.0.2", quiet)]
      [(Set_gateway "10.0.0.1", quiet); (Set_interface_mode INTERFACE_MODE_CONFIG, quiet); (Set_ip_mode IP_CFG_DHCP, quiet); (Set_interface_mode INTERFACE_MODE_ACTIVE, quiet)] zero = Ret d /\
    (active (s_eth d) = true -> last (eth_calls d) = Some (eth_command (s_eth d))).
Proof.
  destruct (ethernet_as_set (fun f => 0 <? f)%Z sample_period no_restore (fun _ _ => eq_refl) [(Set_ip_addr "10.0.0.2", quiet)]
      [(Set_gateway "10.0.0.1", quiet); (Set_interface_mode INTERFACE_MODE_CONFIG, quiet); (Set_ip_mode IP_CFG_DHCP, quiet); (Set_interface_mode INTERFACE_MODE_ACTIVE, quiet)] zero) as (d & H1 & _ & H2).
  - constructor; [simpl; lia|constructor].
  - constructor; [simpl; lia|]. repeat constructor.
  - exists d. split; [exact H1|exact H2].
Defined.

(** The address of an active interface may end in a command: what follows a blank is accepted by
    [inet_addr] and interpreted by the shell. *)
Example address_with_command : String.length "1.2.3.4 ;reboot" < 16 /\ inet_addr "1.2.3.4 ;reboot" = 16909060%Z /\
  eth_command (mk_eth IP_CFG_STATIC INTERFACE_MODE_ACTIVE true "1.2.3.4 ;reboot" "255.255.255.0" "1.2.3.1") =
    "sudo /etc/init.d/update_eth0_config static 1.2.3.4 ;reboot 255.255.255.0 1.2.3.1".
Proof. split; [simpl; lia|]. split; reflexivity. Qed.

(** A netmask for a single host is refused, since its value is the one for an error. *)
Example host_netmask_refused : eth_ip_config_notify "255.255.255.255" initial_eth = SETTINGS_WR_VALUE_REJECTED.
Proof. reflexivity. Qed.

(** A time source that has been changed cannot be changed back to the default. *)
Theorem time_source_not_restored :
  exists d, run (fun f => 0 <? f)%Z sample_period no_restore [(Set_time 1, quiet); (Set_time 0, quiet)] zero = Ret d /\
    system_time_src d = 0%Z /\ last (ntp_calls d) = Some "sudo /etc/init.d/update_ntp_config /etc/ntp.conf.gps".
Proof. eexists. split; [vm_compute; reflexivity|]. by split. Qed.

(** A message that is shorter than the sequence number runs the command of the message before it. *)
Example short_message_repeats :
  let upgrade := text_of "1234upgrade_tool upgrade.image_set.bin" ++ replicate 200 NUL in
  sbp_command 38 upgrade = Ret (R_upgrade (upgrade_cfg 875770417)) /\ sbp_command 1 upgrade = Ret (R_upgrade (upgrade_cfg 875757617)).
Proof. split; vm_compute; reflexivity. Qed.

Lemma commands_canned_witness :
  let msg := text_of "1234spawn_nc" ++ replicate 200 NUL in
  sbp_command 12 msg = Ret (R_system ("sudo -u fileio /usr/bin/spawn_nc; sbp_cmd_resp --sequence " +:+ print_u 875770417 +:+ " --status $?")).
Proof.
  cbv zeta. rewrite (commands_canned 12 (text_of "1234spawn_nc" ++ replicate 200 NUL)) by (vm_compute; lia). vm_compute. reflexivity.
Defined.
